(* ===== verification/_CoqProject ===== *)
-Q . S2P
Prelude.v
GoFloat.v
Bytes.v
Heap.v
Bencode.v
JitterBuffer.v
CircuitBreaker.v
LegStateMachine.v
Sharded.v
PortAllocator.v
Sha256.v
ConsistentHash.v
Fec.v
LoopProtection.v
Flags.v
Message.v
SessionRegistry.v
Sdp.v
Listener.v
FloatExact.v
RateLimiter.v
Codec.v
SplitBrain.v
Backpressure.v
RtcpBatch.v
Rtcp.v
Authorization.v
Utf8.v
PortReallocation.v
NetAddr.v
DosProtection.v
MediaPlayer.v
Commands.v
RtpWorker.v
ConnectionPool.v
IpAddr.v
Interfaces.v
InputValidator.v
Mixer.v
Recorder.v
RecordingCommands.v
SdpProcessor.v
OfferAnswer.v
CallSetup.v
AsyncRecording.v
GracefulShutdown.v
ApiAuth.v
QualityAlerting.v
T38.v
RecordingContinuity.v
