(* ===== verification/Prelude.v ===== *)
(** * Karl media server: verification development

    Karl (src/) is an RTP media server in Go: SIP proxies drive it over the
    bencoded NG protocol, it relays and repairs media between the legs of a
    call, allocates the UDP ports this takes, and spreads sessions over a
    cluster. This library models the parts of src/internal/ that decide
    something, one file per part, and proves what makes each of them correct,
    and, where the code goes wrong, that it does.

    ** The files

    - [Prelude] (this file): the outcome of a Go call ([Ok], [Err], [Panic],
      and [OutOfFuel] for fuelled definitions), machine integers as [Z] with
      their wrap-around, time, record update, the [karl] hint database and the
      tactics the files share.
    - [GoFloat]: [float64] on the executable [SpecFloat], with Go's conversions;
      [FloatExact]: when its operations are exact, as integer arithmetic on
      scaled values.
    - [Bytes]: big-endian fields of byte slices; [Utf8]: runes as text;
      [NetAddr]: net.SplitHostPort.
    - [Heap]: container/heap over an interface class, with the heap order it
      keeps; its client is the jitter buffer.
    - [Sharded]: tables split over shards behind the class [Table] with laws
      [TableLaws], and the refinement of a sharded table to one finite map;
      its client is the port allocator.
    - [Sha256]: the digest the hash ring and the loop detector take positions
      and signatures from.
    - [Bencode] models ng_protocol/bencode.go: [encode] and its helpers over
      the Go values the encoder is given, the decoder [Decode], [decodeInt],
      [decodeString], [decodeList], [decodeDict] with its position, and the
      typed accessors. A Go map is an association list, so that the order it is
      walked in is explicit.
    - [JitterBuffer] models jitter_buffer.go: the packet heap as a store of
      packets with their heap index (the Go code shares packet pointers between
      the heap and the map), [Push], [Pop], the adaptive delay and the other
      operations.
    - [CircuitBreaker] models circuit_breaker.go: [Allow], [Success], [Failure],
      [Execute] and the registry, and the increments and decrements of
      concurrent [Allow] calls as a step relation.
    - [LegStateMachine] models leg_state_machine.go: the offer/answer machine
      of a leg, and the forked call manager with legs in a store it points into.
    - [PortAllocator] models port_allocator.go: the port and session shards, the
      pool of reserved pairs, the searches, allocation, release and
      reservations. The refiller, the cleaner and the goroutine of
      [AllocatePort] are steps that may come at any point.
    - [ConsistentHash] models consistent_hash.go: the ring, the session router
      and the rendezvous hash.
    - [Fec] models fec_handler.go: XOR packets, recovery, the receive windows,
      the adaptive block size and the wire format.
    - [LoopProtection] models loop_protection.go: loop detection, symmetric
      latching and the strict source check.
    - [Flags] models the flags of a request in ng_protocol/types.go:
      [ParseFlags] and its helpers over the fields of [ParsedFlags].
    - [Message] models ng_protocol/message.go and the message structs of
      types.go: framing, requests, responses.
    - [SessionRegistry] models session_manager.go: sessions and legs are objects
      in a store, and the indexes of the registry point to them.
    - [Sdp] models the description parser and builder of ng_socket_listener.go.
    - [Listener] models the rest of ng_socket_listener.go: [processMessage] and
      the built-in command handlers, over the five components before it.
    - [RateLimiter] models rate_limiter.go: token buckets on [float64], limits by
      address and by call, blocks and their cleanup.
    - [Codec] models the G.711 part of codec_converter.go and codec_table.go.
    - [SplitBrain] models split_brain.go: heartbeats, quorum, partition states and
      fencing; what redis returns for a node is an argument of each check.
    - [Backpressure] models backpressure.go: the queue controller with its
      concurrent callers as steps, and the media, recording and adaptive ones.
    - [RtcpBatch] models batch_rtcp.go: compound packets and their parser, and the
      batch processor, whose workers, ticker and shutdown are the steps
      [batch_step] of an interleaving.
    - [Rtcp] models rtcp_handler.go: the statistics of a session, its reports and
      the NTP times in them, and the handler of all sessions.
    - [Authorization] models authorization.go with the users and permissions of
      authentication.go: roles and their cached inheritance, policies, decisions.
    - [PortReallocation] models port_reallocation.go: ports by hash, takeover from
      a failed node, renewal and expiry. Writes to redis are a log in the state.
    - [DosProtection] models dos_protection.go: limits, violations and bans,
      connection trackers, throttled readers.
    - [MediaPlayer] models media_player.go: WAV files, mu-law and playback as RTP.
    - [Commands] models the delete, query, list, statistics, DTMF and media control
      handlers of ng_protocol/commands on registry and player, and the dispatch of
      ng_protocol/handler.go against the interface class [SessionManager].
    - [RtpWorker] models worker_pool.go: the RTP parser, the processing of a packet
      over the classes [RTPPacketHandler] and [Prometheus], and the job queue with
      its workers as steps.
    - [ConnectionPool] models connection_pool.go: the locked sections of its callers,
      the health check and shutdown are the steps of an interleaving.
    - [IpAddr]: net.ParseIP, ParseCIDR and the classes of addresses; [Interfaces]
      models interface_selector.go and the selection of ipv6_support.go with them.
    - [InputValidator] models input_validator.go, over [Utf8] and [IpAddr].
    - [Mixer] models recording/mixer.go: mono and stereo mixing, G.711, gain.
    - [Recorder] models recording/recorder.go and manager.go over a file system of
      names, inodes and open files, with the paths and dates files are named by.
    - [RecordingCommands] models ng_protocol/commands/recording.go over the registry
      and the manager.
    - [SdpProcessor] models ng_protocol/commands/sdp_processor.go: its regular
      expressions as terms with a backtracking matcher, number conversions that
      clamp, [Parse] and [BuildSDP].
    - [OfferAnswer] models ng_protocol/commands/offer.go and answer.go: both
      handlers from the request to the reply, over the registry and a table of the
      sockets that were opened.
    - [CallSetup] composes them with deletion and cleanup into a [world_step] and
      keeps the invariant [world_ok] of registry and sockets.
    - [AsyncRecording] models async_recording.go over the file system of [Recorder]:
      writers, queue, workers, flusher and shutdown as steps, the session wrapper,
      the pipeline of sessions and the buffered writer.
    - [GracefulShutdown] models graceful_shutdown.go: connection trackers, the drain
      monitor and shutdowns as steps, callbacks and the drain of sessions.
    - [ApiAuth] models auth/ratelimit.go and auth/apikey.go: three rate limiters, and
      API keys with their cache over a table of rows, whose validations and
      revocations interleave.
    - [QualityAlerting] models quality_alerting.go: thresholds, alerts, suppression.
    - [T38] models t38_gateway.go: fax sessions and their packets.
    - [RecordingContinuity] models recording_continuity.go: rings of audio,
      checkpoints and takeover between nodes with disks of their own and a shared one.

    ** What the theorems show

    - Bencode: encoding then decoding gives the value back whatever order maps
      are walked in, the decoder is the inverse on canonical text, terminates on
      every input, and panics on a string length that overflows the bounds
      check.
    - Jitter buffer: [Push] and [Pop] refine operations on a set of packets,
      every run of a buffer with room for a packet keeps it well formed without a
      panic, but for batches of negative size, and each packet delivered comes
      after the one before it; [Flush] loses the count of what it drops.
    - Circuit breaker: the invariant of reachable states, the admission budget
      under interleaving, opening on consecutive failures exactly, recovery when
      the budget allows it, and a recording breaker that never recovers.
    - Legs: the leg refines a dialog with one offer at a time, as long as hold and
      resume are called on answered calls; selecting the winner of a fork
      terminates exactly the others; payload type maps are inverse; hold and
      resume revive a terminated leg.
    - Ports: ownership is exclusive in every run in which no port of the pool is
      released and the goroutine of [AllocatePort] finds the pool full; each of
      the two gives a port to two sessions otherwise, the second under the default
      configuration; calls for one session that overlap pass its limit; what
      an allocation returns, that it succeeds when it can, the reuse delay, and
      that sharding is invisible.
    - Hashing: lookup is the clockwise successor, adding and removing nodes
      moves the fewest keys, load-aware lookup prefers healthy nodes, load
      counters are exact until a session is re-routed, and removal panics on
      colliding positions.
    - FEC: any single loss is repaired exactly, the wire format round-trips and
      its parser is total, a forged packet crashes the receiver, and a late
      packet empties the window.
    - Loop protection: which copies of a packet are reported, and that a reset
      session never latches again.
    - Flags: the parser agrees with a table of what each flag means; numeric
      values wrap.
    - Messages: requests and responses survive encoding, parsing and
      conversion; a response with a value of an unknown type is not sent.
    - Sessions: the indexes are exact in every reachable state, cleanup removes
      exactly the stale sessions, an end is reported once, deletion can drop
      another session's SSRC, and the port scan finds the first free pair.
    - SDP: parsing the answer Karl builds gives the description it meant; its
      address is the peer's own unless a flag says to replace it.
    - Listener: every message is answered readably under its own cookie; what
      an offer does to registry, allocator and reply; and three ways the
      composition goes wrong: answers with a to-tag are refused, the ports of a
      deleted call are never released, and an advertised RTCP port is given to
      another call.
    - Rate limiting: each request is answered as the block of its address and the
      tokens of its buckets decide, takes its tokens and is counted under its
      reason, buckets never exceed burst plus rate, a blocked address stays
      refused, and the expiry of a block races.
    - Codec: which conversions keep samples, and that mu-law does not.
    - Split brain: majorities exclude each other, an isolated node fences itself
      after a known number of checks, and a node that lost quorum twice does not.
    - Backpressure: by how much concurrent callers exceed the queue limit, a lost
      wake-up, and a stream that stays throttled for good.
    - RTCP: compound packets read back, packets are conserved by every
      interleaving of the batch processor, one worker keeps their order; reports
      of an in-order stream are exact up to the first wrap, after which no loss is
      reported; NTP times round-trip to the nanosecond below.
    - Authorisation: with roles set up before the first request, the decision is
      the one of their reachable grants, whatever was cached in between; policies
      are kept by priority, and a revoked role goes on granting through the cache.
    - Port reallocation: ports are exclusive in every run, and distinct unless a
      list names one twice; allocation succeeds exactly when it can, consistent
      allocation deadlocks, live ports expire.
    - DoS protection: connection counts are exact in every interleaving of the
      pieces of tracking and releasing, the limit of an address is kept, that on the
      total up to the calls under way at one time; the sliding window
      of violations refines the full history, a client's rate is bounded.
    - Media player: mu-law is accurate to its step, a playback is complete, a loop
      plays on exactly for whole packets, a WAV file is loaded as written.
    - Commands: which sessions a delete removes, stated on their tags and labels, and
      what a delayed one does, that no query can be
      answered, that totals do not depend on the walk of the map, DTMF payloads
      round-trip.
    - RTP worker: the parser is total and inverts a reference encoder, every packet
      is accounted for, jobs are conserved; a second stream with feedback crashes.
    - Connection pool: every connection is in exactly one place in every run; forced
      closes exhaust the pool, and a timeout can lose a connection.
    - Interfaces: the choice is the first known name of a list; default routing.
    - Input validation: which Call-IDs and descriptions are accepted exactly, what
      sanitising guarantees (safety) and what it does not (length, distinctness).
    - Recording: the recorder refines a specification of statuses and audio, a
      completed file is loaded by the media player, and a call of mu-law packets
      recorded through the commands plays back byte for byte; what is lost when a
      paused recording is stopped, deleted or replaced, and that a Call-ID chooses
      the directory.
    - Call setup: an offer of a new call and its answer establish a call whose
      legs send to what the peers described, on sockets of their own; every
      outcome of an offer, with the description that panics; the descriptions sent
      read back as meant; and the sockets of a leg that is replaced are never
      closed, and lost from every session if the new leg has its label.
    - Asynchronous recording: frames are conserved in every run, one worker leaves a
      complete file when stopped, sessions stay within their limit and expire
      exactly, the buffered writer is transparent; two workers reorder frames and a
      recording that is closed loses what is queued.
    - Shutdown: the drain counts connections exactly and lets none in, callbacks run
      once in order of priority; what the sessions' registration gets wrong.
    - API access: the sliding window agrees with the full history and bounds every
      window, a revoked key is refused but for one race, and a token bucket that is
      empty does not refill.
    - Alerts: those raised by calls that follow one another are those of a rule
      stated on all the samples; two checks at a time raise an alert twice; what
      suppression hides and clearing a call leaves behind.
    - T.38: what a receiver reads of a packet that was built, exactly, and when that
      is what was meant; cleanup removes exactly the old sessions that are over.
    - Continuity: a takeover recovers exactly the audio since the ring last
      wrapped, merging concatenates; stopping discards the audio, and that of
      other sessions.

    ** Modelling choices

    Functions that read the clock take the reading as an argument. A [range]
    over a map takes the order it walks as an argument, constrained to be a
    permutation of the entries where a theorem needs it. An operation is a function
    on a state. Where it holds its mutex throughout, that is what other goroutines
    see; where it gives the mutex back or reads an atomic in between, its sections
    are definitions of their own, and they are steps of an interleaving in the
    theorems that speak of every interleaving ([track_admit], [track_address] and
    [add_total], the locked sections of the connection pool, the drain and the API
    keys). Theorems on operations "one after the other" (rate limiter, alerter,
    port allocator, port reallocation) say so, and examples show what calls that
    overlap can do to them. Binding a UDP port is a
    parameter. Counters keep their width; theorems about them bound the number
    of events by 2^62 or so.

    Fuel: the bencode decoder gets twice the input length plus two, because
    every two nested calls consume a byte, and [DecodeBencode_terminates] proves
    it enough; the port searches get one round per port of the range, enough by
    [scan_None]; [Allow] calls itself at most once; the binary search gets the
    length of the range. The fuel of [resolvePermissions] is the depth of the
    stack: any rank of the roles below it is enough, and roles in a cycle exhaust
    every one. [find_data] gets the length of the file plus one, as every chunk
    consumes its header.

    ** What is not modelled

    Sockets, HTTP, TLS, logging, Prometheus metrics and the statistics maps
    built for them; of files, redis and the database only what the components
    above rely on; call detail records, DNS and secrets; marshalling by the pion libraries; codecs
    that stand in for external libraries. *)

From Stdlib Require Import ZArith Lia Ascii String.
From stdpp Require Import base numbers list gmap strings fin_maps sorting.

Local Open Scope Z_scope.

(** ** Go outcomes

    A Go call returns a value, returns a non-nil [error], or panics.
    [OutOfFuel] is not a Go behaviour: it marks a fuelled definition whose fuel
    was too small, and the components prove that it never shows up. *)

Inductive outcome (E A : Type) : Type :=
| Ok (a : A)
| Err (e : E)
| Panic
| OutOfFuel.
Arguments Ok {E A} a.
Arguments Err {E A} e.
Arguments Panic {E A}.
Arguments OutOfFuel {E A}.

Definition obind {E A B : Type} (c : outcome E A) (k : A -> outcome E B) : outcome E B :=
  match c with
  | Ok a => k a
  | Err e => Err e
  | Panic => Panic
  | OutOfFuel => OutOfFuel
  end.

Declare Scope go_scope.
Delimit Scope go_scope with go.
Notation "'let!' x := c 'in' k" := (obind c (fun x => k))
  (at level 10, x pattern, c at level 100, k at level 200,
   format "'let!'  x  :=  c  'in' '//' k") : go_scope.

Section outcome_lemmas.
Context {E A B : Type}.
Implicit Types (c : outcome E A) (k : A -> outcome E B).

Lemma obind_Ok_inv c k b : obind c k = Ok b -> exists a, c = Ok a /\ k a = Ok b.
Proof. destruct c; simpl; [eauto|discriminate..]. Qed.

Lemma obind_OutOfFuel_inv c k :
  obind c k = OutOfFuel -> c = OutOfFuel \/ exists a, c = Ok a /\ k a = OutOfFuel.
Proof. destruct c; simpl; eauto; discriminate. Qed.

End outcome_lemmas.

(** ** Machine integers

    Go's fixed-width integers are [Z] values; every conversion and every
    arithmetic operation that can wrap says so with one of these. *)

Definition wrapu (w x : Z) : Z := x mod 2 ^ w.
Definition wraps (w x : Z) : Z := (x + 2 ^ (w - 1)) mod 2 ^ w - 2 ^ (w - 1).

Abbreviation u8 := (wrapu 8).
Abbreviation u16 := (wrapu 16).
Abbreviation u32 := (wrapu 32).
Abbreviation u64 := (wrapu 64).
Abbreviation i16 := (wraps 16).
Abbreviation i32 := (wraps 32).
Abbreviation i64 := (wraps 64).

Definition max_int64 : Z := 2 ^ 63 - 1.
Definition min_int64 : Z := - 2 ^ 63.

Definition is_u (w x : Z) : Prop := 0 <= x < 2 ^ w.
Definition is_s (w x : Z) : Prop := - 2 ^ (w - 1) <= x < 2 ^ (w - 1).

#[export] Instance is_u_dec w x : Decision (is_u w x).
Proof. unfold is_u. apply _. Defined.
#[export] Instance is_s_dec w x : Decision (is_s w x).
Proof. unfold is_s. apply _. Defined.

Lemma wrapu_range w x : 0 <= w -> is_u w (wrapu w x).
Proof. intros Hw. apply Z.mod_pos_bound. apply Z.pow_pos_nonneg; lia. Qed.

Lemma wrapu_id w x : is_u w x -> wrapu w x = x.
Proof. apply Z.mod_small. Qed.

Lemma wraps_id w x : 0 < w -> is_s w x -> wraps w x = x.
Proof.
  intros Hw Hx. unfold wraps, is_s in *.
  assert (2 ^ w = 2 * 2 ^ (w - 1)) as E
    by (rewrite <- Z.pow_succ_r by lia; f_equal; lia).
  rewrite Z.mod_small; lia.
Qed.

Lemma wraps_range w x : 0 < w -> is_s w (wraps w x).
Proof.
  intros Hw. unfold wraps, is_s.
  assert (2 ^ w = 2 * 2 ^ (w - 1)) as E
    by (rewrite <- Z.pow_succ_r by lia; f_equal; lia).
  pose proof (Z.mod_pos_bound (x + 2 ^ (w - 1)) (2 ^ w)
                ltac:(apply Z.pow_pos_nonneg; lia)). lia.
Qed.

Lemma wraps_congr w x y : 0 < w -> (x - y) mod 2 ^ w = 0 -> wraps w x = wraps w y.
Proof.
  intros Hw H. unfold wraps. f_equal.
  apply Z.mod_divide in H as [k H]; [|apply Z.pow_nonzero; lia].
  replace (x + 2 ^ (w - 1)) with (y + 2 ^ (w - 1) + k * 2 ^ w) by lia.
  apply Z.mod_add. apply Z.pow_nonzero; lia.
Qed.

Lemma wraps_diff w x : 0 < w -> exists k, wraps w x = x + k * 2 ^ w.
Proof.
  intros Hw. unfold wraps. exists (- ((x + 2 ^ (w - 1)) / 2 ^ w)).
  pose proof (Z.div_mod (x + 2 ^ (w - 1)) (2 ^ w) ltac:(apply Z.pow_nonzero; lia)). lia.
Qed.

(** Wrapping an intermediate result does not change the final one. *)
Lemma wraps_add_l w x y : 0 < w -> wraps w (wraps w x + y) = wraps w (x + y).
Proof.
  intros Hw. apply wraps_congr; [done|]. destruct (wraps_diff w x Hw) as [k ->].
  replace (x + k * 2 ^ w + y - (x + y)) with (k * 2 ^ w) by lia.
  apply Z.mod_mul, Z.pow_nonzero; lia.
Qed.

Lemma wraps_mul_l w x y : 0 < w -> wraps w (wraps w x * y) = wraps w (x * y).
Proof.
  intros Hw. apply wraps_congr; [done|]. destruct (wraps_diff w x Hw) as [k ->].
  replace ((x + k * 2 ^ w) * y - x * y) with (k * y * 2 ^ w) by lia.
  apply Z.mod_mul, Z.pow_nonzero; lia.
Qed.

(** ** Time

    A [time.Time] is its number of nanoseconds since Go's zero time, so
    [time.Time{}] is [0] and [IsZero] is a test against [0]. A
    [time.Duration] is an [int64] of nanoseconds, and [Time.Sub] saturates
    instead of wrapping. Every function that reads [time.Now] takes the
    reading as an argument. *)

Definition Nanosecond : Z := 1.
Definition Millisecond : Z := 1000000.
Definition Second : Z := 1000000000.

Definition IsZero (t : Z) : bool := t =? 0.
Definition Time_Add (t d : Z) : Z := t + d.
Definition Time_Sub (t u : Z) : Z := Z.max min_int64 (Z.min max_int64 (t - u)).
Definition Before (t u : Z) : bool := t <? u.
Definition After (t u : Z) : bool := u <? t.

Lemma Time_Sub_exact t u : is_s 64 (t - u) -> Time_Sub t u = t - u.
Proof. unfold Time_Sub, is_s, max_int64, min_int64. lia. Qed.

(** ** Automation *)

Create HintDb karl discriminated.

(** Splits every [if], [match] and boolean test the goal or a hypothesis
    computes on, turning integer tests into linear facts. *)
Ltac bool_prop :=
  repeat match goal with
  | H : andb _ _ = true |- _ => apply andb_true_iff in H as [? ?]
  | H : andb _ _ = false |- _ => apply andb_false_iff in H as [?|?]
  | H : orb _ _ = true |- _ => apply orb_true_iff in H as [?|?]
  | H : orb _ _ = false |- _ => apply orb_false_iff in H as [? ?]
  | H : negb _ = true |- _ => apply negb_true_iff in H
  | H : negb _ = false |- _ => apply negb_false_iff in H
  | H : (_ =? _)%Z = true |- _ => apply Z.eqb_eq in H
  | H : (_ =? _)%Z = false |- _ => apply Z.eqb_neq in H
  | H : (_ <? _)%Z = true |- _ => apply Z.ltb_lt in H
  | H : (_ <? _)%Z = false |- _ => apply Z.ltb_ge in H
  | H : (_ <=? _)%Z = true |- _ => apply Z.leb_le in H
  | H : (_ <=? _)%Z = false |- _ => apply Z.leb_gt in H
  | H : (_ >? _)%Z = _ |- _ => rewrite Z.gtb_ltb in H
  | H : (_ >=? _)%Z = _ |- _ => rewrite Z.geb_leb in H
  | H : bool_decide _ = true |- _ => apply bool_decide_eq_true in H
  | H : bool_decide _ = false |- _ => apply bool_decide_eq_false in H
  end.

(** Case analysis on the scrutinee of every conditional in the goal. *)
Ltac split_ifs :=
  repeat (case_match; simplify_eq/=); bool_prop.

(** Computes the lengths of concatenations. *)
Ltac simpl_len :=
  repeat first [progress rewrite ?length_app in * | progress cbn [length] in *].

(** ** Record update

    [r <| p := v |>] is [r] with field [p] set to [v], the assignment
    [r.p = v] of the Go code. *)

Class Setter {R T : Type} (p : R -> T) := set_field : (T -> T) -> R -> R.
Arguments set_field {R T} p {_} f r.
Notation "r <| p := v |>" := (set_field p (fun _ => v) r)
  (at level 12, left associativity, p at level 9, v at level 99,
   format "r  <| p  :=  v |>") : go_scope.
Notation "r <| p ::= f |>" := (set_field p f r)
  (at level 12, left associativity, p at level 9, f at level 99,
   format "r  <| p  ::=  f |>") : go_scope.
