(* ===== verification/GoFloat.v ===== *)
(** * Go's [float64]

    IEEE 754 binary64 with round to nearest even, through the executable and
    axiom-free [SpecFloat] of the standard library, with the conversions Go
    code uses between [float64], [int64] and [time.Duration]. *)

From Stdlib Require Import ZArith Lia Bool Floats.SpecFloat.
From S2P Require Import Prelude.

Local Open Scope Z_scope.

Abbreviation float64 := spec_float.

Definition fadd (x y : float64) : float64 := SFadd 53 1024 x y.
Definition fsub (x y : float64) : float64 := SFsub 53 1024 x y.
Definition fmul (x y : float64) : float64 := SFmul 53 1024 x y.
Definition fdiv (x y : float64) : float64 := SFdiv 53 1024 x y.
Definition fneg (x : float64) : float64 := SFopp x.
Definition flt (x y : float64) : bool := SFltb x y.
Definition fle (x y : float64) : bool := SFleb x y.

(** [float64(z)] for an integer [z]. *)
Definition of_int (z : Z) : float64 := binary_normalize 53 1024 z 0 false.

(** The constant [n / d], correctly rounded: exact for an integer constant,
    and the nearest [float64] of a decimal constant whose numerator and
    denominator are below [2^53]. *)
Definition lit (n d : Z) : float64 := fdiv (of_int n) (of_int d).

(** [int64(x)]: truncation towards zero. Go leaves the result of an
    out-of-range conversion to the implementation; this is amd64's. *)
Definition to_int64 (x : float64) : Z :=
  match x with
  | S754_zero _ => 0
  | S754_finite s m e =>
      let a := if 0 <=? e then Zpos m * 2 ^ e else Zpos m / 2 ^ (- e) in
      let v := if s then - a else a in
      if (min_int64 <=? v) && (v <=? max_int64) then v else min_int64
  | _ => min_int64
  end.

(** [Duration.Seconds]. *)
Definition Seconds (d : Z) : float64 :=
  fadd (of_int (Z.quot d Second)) (fdiv (of_int (Z.rem d Second)) (of_int Second)).

Lemma to_int64_range x : is_s 64 (to_int64 x).
Proof.
  unfold to_int64, is_s, min_int64, max_int64.
  destruct x; simpl; try lia.
  match goal with |- context [if ?b then _ else _] => destruct b eqn:E end; bool_prop; lia.
Qed.

Example lit_09 : lit 9 10 = S754_finite false 8106479329266893 (-53).
Proof. vm_compute. reflexivity. Qed.
Example seconds_1500ms : Seconds (1500 * Millisecond) = lit 3 2.
Proof. vm_compute. reflexivity. Qed.
