(* ===== verification/Bytes.v ===== *)
(** * Bytes on the wire

    encoding/binary's big-endian integers over byte slices, bytes being [Z]
    values below 256, as the packet formats use them: writing, and reading at an
    offset, which panics past the end of the slice. *)

From Stdlib Require Import ZArith Lia.
From stdpp Require Import base numbers list.
From S2P Require Import Prelude.

Local Open Scope Z_scope.
Local Open Scope go_scope.
#[local] Arguments wrapu : simpl never.

Definition PutUint16 (x : Z) : list Z := [u8 (Z.shiftr x 8); u8 x].
Definition PutUint32 (x : Z) : list Z := [u8 (Z.shiftr x 24); u8 (Z.shiftr x 16); u8 (Z.shiftr x 8); u8 x].

(** Reads at an offset; reading past the end panics. *)
Definition byte_at {E} (data : list Z) (offset : nat) : outcome E Z :=
  match data !! offset with Some b => Ok b | None => Panic end.
Definition Uint16_at {E} (data : list Z) (offset : nat) : outcome E Z :=
  let! b0 := byte_at data offset in
  let! b1 := byte_at data (offset + 1) in
  Ok (Z.lor (Z.shiftl b0 8) b1).
Definition Uint32_at {E} (data : list Z) (offset : nat) : outcome E Z :=
  let! b0 := byte_at data offset in
  let! b1 := byte_at data (offset + 1) in
  let! b2 := byte_at data (offset + 2) in
  let! b3 := byte_at data (offset + 3) in
  Ok (Z.lor (Z.lor (Z.shiftl b0 24) (Z.shiftl b1 16)) (Z.lor (Z.shiftl b2 8) b3)).

(** ** Lemmas *)

(** A byte of a word, put back in its place, is that window of the word. *)
Lemma byte_window x k n :
  0 <= k -> 0 <= n -> Z.testbit (Z.shiftl (u8 (Z.shiftr x k)) k) n = (k <=? n) && (n <? k + 8) && Z.testbit x n.
Proof.
  intros Hk Hn. rewrite Z.shiftl_spec by done. destruct (Z.leb_spec k n); cbn [andb].
  - unfold wrapu. destruct (Z.ltb_spec n (k + 8)); cbn [andb].
    + rewrite Z.mod_pow2_bits_low, Z.shiftr_spec by lia. f_equal. lia.
    + by rewrite Z.mod_pow2_bits_high by lia.
  - apply Z.testbit_neg_r. lia.
Qed.

Lemma testbit_above w x n : 0 <= w -> is_u w x -> w <= n -> Z.testbit x n = false.
Proof. intros Hw Hx Hn. rewrite <- (Z.mod_small x (2 ^ w)) by done. apply Z.mod_pow2_bits_high. lia. Qed.

Lemma word16_bytes x : is_u 16 x -> Z.lor (Z.shiftl (u8 (Z.shiftr x 8)) 8) (u8 x) = x.
Proof.
  intros Hx. apply Z.bits_inj'. intros n Hn. rewrite Z.lor_spec, byte_window by lia.
  pose proof (byte_window x 0 n ltac:(lia) Hn) as H0. rewrite Z.shiftl_0_r, Z.shiftr_0_r in H0. rewrite H0.
  destruct (Z.ltb_spec n 16); [|rewrite (testbit_above 16 x n) by done; by rewrite !andb_false_r].
  destruct (Z.testbit x n); rewrite ?andb_true_r, ?andb_false_r; lia.
Qed.

Lemma word32_bytes x :
  is_u 32 x ->
  Z.lor (Z.lor (Z.shiftl (u8 (Z.shiftr x 24)) 24) (Z.shiftl (u8 (Z.shiftr x 16)) 16)) (Z.lor (Z.shiftl (u8 (Z.shiftr x 8)) 8) (u8 x)) = x.
Proof.
  intros Hx. apply Z.bits_inj'. intros n Hn. rewrite !Z.lor_spec, !byte_window by lia.
  pose proof (byte_window x 0 n ltac:(lia) Hn) as H0. rewrite Z.shiftl_0_r, Z.shiftr_0_r in H0. rewrite H0.
  destruct (Z.ltb_spec n 32); [|rewrite (testbit_above 32 x n) by done; by rewrite !andb_false_r].
  destruct (Z.testbit x n); rewrite ?andb_true_r, ?andb_false_r; lia.
Qed.

Lemma byte_at_app {E} pre b post : byte_at (pre ++ b :: post) (length pre) = @Ok E Z b.
Proof. unfold byte_at. by rewrite list_lookup_middle. Qed.

Lemma byte_at_skip {E} pre l k : byte_at (E:=E) (pre ++ l) (length pre + k) = byte_at l k.
Proof. unfold byte_at. rewrite lookup_app_r by lia. by replace (length pre + k - length pre)%nat with k by lia. Qed.

Lemma Uint16_at_put {E} pre x post n :
  is_u 16 x -> n = length pre -> Uint16_at (pre ++ PutUint16 x ++ post) n = @Ok E Z x.
Proof.
  intros Hx ->. unfold Uint16_at. rewrite byte_at_skip, <- (Nat.add_0_r (length pre)), byte_at_skip.
  cbn -[Z.shiftl Z.shiftr]. by rewrite word16_bytes.
Qed.

Lemma Uint32_at_put {E} pre x post n :
  is_u 32 x -> n = length pre -> Uint32_at (pre ++ PutUint32 x ++ post) n = @Ok E Z x.
Proof.
  intros Hx ->. unfold Uint32_at. rewrite !byte_at_skip, <- (Nat.add_0_r (length pre)), byte_at_skip.
  cbn -[Z.shiftl Z.shiftr]. by rewrite word32_bytes.
Qed.

Lemma byte_at_lt {E} data n : (n < length data)%nat -> exists b, byte_at data n = @Ok E Z b.
Proof. intros [b Hb]%lookup_lt_is_Some_2. exists b. unfold byte_at. by rewrite Hb. Qed.

Lemma Uint16_at_lt {E} data n : (n + 1 < length data)%nat -> exists x, Uint16_at data n = @Ok E Z x.
Proof.
  intros Hn. destruct (@byte_at_lt E data n) as [b0 E0]; [lia|]. destruct (@byte_at_lt E data (n + 1)) as [b1 E1]; [lia|].
  unfold Uint16_at. rewrite E0. cbn [obind]. rewrite E1. cbn [obind]. eauto.
Qed.

Lemma Uint32_at_lt {E} data n : (n + 3 < length data)%nat -> exists x, Uint32_at data n = @Ok E Z x.
Proof.
  intros Hn. destruct (@byte_at_lt E data n) as [b0 E0]; [lia|]. destruct (@byte_at_lt E data (n + 1)) as [b1 E1]; [lia|].
  destruct (@byte_at_lt E data (n + 2)) as [b2 E2]; [lia|]. destruct (@byte_at_lt E data (n + 3)) as [b3 E3]; [lia|].
  unfold Uint32_at. rewrite E0. cbn [obind]. rewrite E1. cbn [obind]. rewrite E2. cbn [obind]. rewrite E3. cbn [obind]. eauto.
Qed.

Lemma Uint16_at_skip {E} pre l k : Uint16_at (E:=E) (pre ++ l) (length pre + k) = Uint16_at l k.
Proof. unfold Uint16_at. rewrite <- Nat.add_assoc, !byte_at_skip. done. Qed.

Lemma Uint32_at_skip {E} pre l k : Uint32_at (E:=E) (pre ++ l) (length pre + k) = Uint32_at l k.
Proof. unfold Uint32_at. rewrite <- !Nat.add_assoc, !byte_at_skip. done. Qed.

Lemma word24_bytes x :
  is_u 24 x -> Z.lor (Z.shiftl (u8 (Z.shiftr x 16)) 16) (Z.lor (Z.shiftl (u8 (Z.shiftr x 8)) 8) (u8 x)) = x.
Proof.
  intros Hx. apply Z.bits_inj'. intros n Hn. rewrite !Z.lor_spec, !byte_window by lia.
  pose proof (byte_window x 0 n ltac:(lia) Hn) as H0. rewrite Z.shiftl_0_r, Z.shiftr_0_r in H0. rewrite H0.
  destruct (Z.ltb_spec n 24); [|rewrite (testbit_above 24 x n) by done; by rewrite !andb_false_r].
  destruct (Z.testbit x n); rewrite ?andb_true_r, ?andb_false_r; lia.
Qed.

(** The two words of a 64-bit integer. *)
Lemma word64_words x : is_u 64 x -> Z.lor (Z.shiftl (u32 (Z.shiftr x 32)) 32) (u32 x) = x.
Proof.
  intros Hx. apply Z.bits_inj'. intros n Hn. rewrite Z.lor_spec, Z.shiftl_spec by done. unfold wrapu.
  destruct (Z.ltb_spec n 32).
  - rewrite (Z.testbit_neg_r _ (n - 32)) by lia. by rewrite Z.mod_pow2_bits_low by lia.
  - rewrite (Z.mod_pow2_bits_high x 32 n) by lia. rewrite orb_false_r. destruct (Z.ltb_spec n 64).
    + rewrite Z.mod_pow2_bits_low, Z.shiftr_spec by lia. f_equal. lia.
    + rewrite Z.mod_pow2_bits_high by lia. by rewrite (testbit_above 64 x n).
Qed.
