(* ===== verification/Heap.v ===== *)
(** * Go's [container/heap]

    The functions of the standard library's [container/heap] that the jitter
    buffer calls, over any collection that implements [heap.Interface]. The
    collection is a type class: its length, comparison and swap, the keys that
    its comparison orders, and the laws that tie them together. The theorems
    about the heap functions are proved once, against the class. *)

From Stdlib Require Import ZArith Lia.
From stdpp Require Import base numbers list.
From S2P Require Import Prelude.

Local Open Scope nat_scope.

(** [l] with positions [i] and [j] exchanged. *)
Definition swap_at {A : Type} (i j : nat) (l : list A) : list A :=
  match l !! i, l !! j with
  | Some x, Some y => <[i := y]> (<[j := x]> l)
  | _, _ => l
  end.

(** [heap.Interface]: [hi_inv] is what the implementation needs of a state for
    its comparison to be an order, and [keys] are the values it compares. *)
Class HeapInterface (S : Type) := {
  hi_Len : S -> nat;
  hi_Less : S -> nat -> nat -> bool;
  hi_Swap : S -> nat -> nat -> S;
}.
Class HeapLaws (S : Type) `{HeapInterface S} (hi_inv : S -> Prop) (keys : S -> list Z) := {
  hi_Len_keys s : hi_inv s -> hi_Len s = length (keys s);
  hi_Less_keys s i j x y :
    hi_inv s -> keys s !! i = Some x -> keys s !! j = Some y -> hi_Less s i j = (x <? y)%Z;
  hi_Swap_keys s i j :
    hi_inv s -> i < length (keys s) -> j < length (keys s) ->
    keys (hi_Swap s i j) = swap_at i j (keys s);
  hi_Swap_inv s i j :
    hi_inv s -> i < length (keys s) -> j < length (keys s) -> hi_inv (hi_Swap s i j);
}.

Section heap_functions.
Context {S : Type} `{HeapInterface S}.

(** [up(h, j)]: the loop moves to the parent, so [j] bounds its iterations. *)
Fixpoint up_loop (fuel : nat) (h : S) (j : nat) : S :=
  match fuel with
  | O => h
  | Datatypes.S fuel =>
      let i := (j - 1) / 2 in
      if (i =? j) || negb (hi_Less h j i) then h
      else up_loop fuel (hi_Swap h i j) i
  end.
Definition up (h : S) (j : nat) : S := up_loop (Datatypes.S j) h j.

(** [down(h, i0, n)]: the loop moves to a child below [n], so [n] bounds it.
    The result says whether the element moved. *)
Fixpoint down_loop (fuel : nat) (h : S) (i n : nat) : S * nat :=
  match fuel with
  | O => (h, i)
  | Datatypes.S fuel =>
      let j1 := 2 * i + 1 in
      if n <=? j1 then (h, i)
      else
        let j2 := j1 + 1 in
        let j := if (j2 <? n) && hi_Less h j2 j1 then j2 else j1 in
        if negb (hi_Less h j i) then (h, i)
        else down_loop fuel (hi_Swap h i j) j n
  end.
Definition down (h : S) (i0 n : nat) : S * bool :=
  let '(h, i) := down_loop (Datatypes.S n) h i0 n in (h, i0 <? i).

End heap_functions.

(** ** Heap order *)

Section heap_order.
Implicit Types (l : list Z).

Definition at_ l (i : nat) : Z := l !!! i.
Definition parent (k : nat) : nat := (k - 1) / 2.

(** Position [k] is not below its parent. *)
Definition ok l k : Prop := (at_ l (parent k) <= at_ l k)%Z.

(** Heap order among the first [n] positions. *)
Definition is_heap l (n : nat) : Prop := forall k, 0 < k < n -> ok l k.
(** ... except that position [j] may be smaller than its parent. *)
Definition heap_except l (n j : nat) : Prop :=
  (forall k, 0 < k < n -> k <> j -> ok l k) /\
  (forall k, 0 < k < n -> parent k = j -> 0 < j -> (at_ l (parent j) <= at_ l k)%Z).
(** ... except that position [i] holds an arbitrary element. *)
Definition heap_hole l (n i : nat) : Prop :=
  (forall k, 0 < k < n -> k <> i -> parent k <> i -> ok l k) /\
  (forall k, 0 < k < n -> parent k = i -> 0 < i -> (at_ l (parent i) <= at_ l k)%Z).

Lemma parent_lt k : 0 < k -> parent k < k.
Proof. intros. unfold parent. apply Nat.Div0.div_lt_upper_bound; lia. Qed.

Lemma parent_spec k i : 0 < k -> parent k = i <-> k = 2 * i + 1 \/ k = 2 * i + 2.
Proof.
  intros Hk. unfold parent.
  pose proof (Nat.div_mod_eq (k - 1) 2). pose proof (Nat.mod_upper_bound (k - 1) 2). lia.
Qed.

Lemma swap_at_length {A} i j (l : list A) : length (swap_at i j l) = length l.
Proof. unfold swap_at. repeat case_match; by rewrite ?length_insert. Qed.

Lemma at_swap l i j k :
  i < length l -> j < length l ->
  at_ (swap_at i j l) k = if decide (k = i) then at_ l j else if decide (k = j) then at_ l i else at_ l k.
Proof.
  intros Hi Hj. unfold swap_at, at_.
  destruct (lookup_lt_is_Some_2 l i Hi) as [x Hx], (lookup_lt_is_Some_2 l j Hj) as [y Hy].
  rewrite Hx, Hy, !list_lookup_total_alt.
  destruct (decide (k = i)) as [->|]; [by rewrite list_lookup_insert_eq, Hy by (by rewrite length_insert)|].
  rewrite list_lookup_insert_ne by done.
  destruct (decide (k = j)) as [->|]; [by rewrite list_lookup_insert_eq, Hx|].
  by rewrite list_lookup_insert_ne.
Qed.

Lemma swap_at_perm {A} i j (l : list A) : swap_at i j l ≡ₚ l.
Proof.
  unfold swap_at. destruct (l !! i) as [x|] eqn:Hx, (l !! j) as [y|] eqn:Hy; try done.
  by apply Permutation_insert_swap.
Qed.

(** One step of [up]: exchanging [j] with a larger parent. *)
Lemma heap_except_up l n j :
  0 < j < n -> n <= length l -> (at_ l j < at_ l (parent j))%Z ->
  heap_except l n j -> heap_except (swap_at (parent j) j l) n (parent j).
Proof.
  intros Hj Hn Hlt [H1 H2]. pose proof (parent_lt j ltac:(lia)) as Hpj.
  split.
  - intros k Hk Hkp. pose proof (parent_lt k ltac:(lia)). unfold ok.
    rewrite !at_swap by lia.
    destruct (decide (k = j)) as [->|Hkj].
    { repeat case_decide; lia. }
    specialize (H1 k Hk Hkj) as Hok. unfold ok in Hok.
    destruct (decide (parent k = parent j)) as [E|], (decide (parent k = j)) as [E'|];
      repeat case_decide; try lia; try congruence.
    + rewrite E in Hok. lia.
    + specialize (H2 k Hk E' ltac:(lia)). lia.
  - intros k Hk Hkp Hp. pose proof (parent_lt (parent j) Hp).
    rewrite !at_swap by lia.
    specialize (H1 (parent j) ltac:(lia) ltac:(lia)) as Hpp. unfold ok in Hpp.
    destruct (decide (k = j)) as [->|Hkj]; [repeat case_decide; lia|].
    specialize (H1 k Hk Hkj) as Hok. unfold ok in Hok. rewrite Hkp in Hok.
    pose proof (parent_lt k ltac:(lia)). repeat case_decide; lia.
Qed.

(** One step of [down]: exchanging [i] with its smallest child. *)
Lemma heap_hole_down l n i j :
  n <= length l -> 0 < j < n -> parent j = i -> (at_ l j < at_ l i)%Z ->
  (forall k, 0 < k < n -> parent k = i -> (at_ l j <= at_ l k)%Z) ->
  heap_hole l n i -> heap_hole (swap_at i j l) n j /\ ok (swap_at i j l) j.
Proof.
  intros Hn Hj Hji Hlt Hmin [H1 H2]. pose proof (parent_lt j ltac:(lia)) as Hpj. rewrite Hji in Hpj.
  split; [split|].
  - intros k Hk Hkj Hkp. pose proof (parent_lt k ltac:(lia)). unfold ok.
    rewrite !at_swap by lia.
    destruct (decide (k = i)) as [->|Hki].
    { specialize (H2 j Hj Hji ltac:(lia)). repeat case_decide; lia. }
    destruct (decide (parent k = i)) as [E|E].
    { specialize (Hmin k Hk E). repeat case_decide; lia. }
    specialize (H1 k Hk Hki E). unfold ok in H1. repeat case_decide; lia.
  - intros k Hk Hkj _. pose proof (parent_lt k ltac:(lia)).
    rewrite !at_swap, Hji by lia.
    assert (ok l k) as Hok by (apply H1; lia). unfold ok in Hok. rewrite Hkj in Hok.
    repeat case_decide; lia.
  - unfold ok. rewrite !at_swap, Hji by lia. repeat case_decide; lia.
Qed.

End heap_order.

(** ** The heap functions keep heap order *)

Section heap_correct.
Context {S : Type} `{HeapLaws S hi_inv keys}.

Lemma hi_Less_at s i j :
  hi_inv s -> i < length (keys s) -> j < length (keys s) ->
  hi_Less s i j = (at_ (keys s) i <? at_ (keys s) j)%Z.
Proof.
  intros Hs Hi Hj.
  destruct (lookup_lt_is_Some_2 _ _ Hi) as [x Hx], (lookup_lt_is_Some_2 _ _ Hj) as [y Hy].
  unfold at_. rewrite !list_lookup_total_alt, Hx, Hy. simpl. by eapply hi_Less_keys.
Qed.

(** A property that every [Swap] below [n] preserves is preserved by [up] and
    [down] on the first [n] positions. *)
Definition swap_stable (n : nat) (P : S -> Prop) : Prop :=
  forall s i j, hi_inv s -> n <= length (keys s) -> i < n -> j < n -> P s -> P (hi_Swap s i j).

Lemma up_loop_spec fuel s n j :
  hi_inv s -> j < n -> n <= length (keys s) -> j < fuel -> heap_except (keys s) n j ->
  hi_inv (up_loop fuel s j) /\ is_heap (keys (up_loop fuel s j)) n /\
  keys (up_loop fuel s j) ≡ₚ keys s /\
  (forall P, swap_stable n P -> P s -> P (up_loop fuel s j)).
Proof.
  revert s j. induction fuel as [|fuel IH]; intros s j Hs Hj Hn Hfuel Hex; [lia|].
  cbn [up_loop]. change ((j - 1) / 2) with (parent j).
  destruct (decide (j = 0)) as [->|Hj0].
  { simpl. split_and!; try done. intros k Hk. apply Hex; lia. }
  pose proof (parent_lt j ltac:(lia)).
  rewrite (proj2 (Nat.eqb_neq (parent j) j)), hi_Less_at by (try done; lia). simpl.
  destruct (Z.ltb_spec (at_ (keys s) j) (at_ (keys s) (parent j))); simpl.
  - destruct (IH (hi_Swap s (parent j) j) (parent j)) as (? & ? & Hperm & Hst); try lia.
    + apply hi_Swap_inv; (done || lia).
    + rewrite hi_Swap_keys, swap_at_length by (done || lia). lia.
    + rewrite hi_Swap_keys by (done || lia). apply heap_except_up; (done || lia).
    + split_and!; try done.
      * rewrite Hperm, hi_Swap_keys by (done || lia). apply swap_at_perm.
      * intros P HP HPs. apply Hst; [done|]. apply HP; (done || lia).
  - split_and!; try done. intros k Hk. destruct (decide (k = j)) as [->|]; [done|]. apply Hex; lia.
Qed.

Lemma up_spec s j :
  hi_inv s -> j < length (keys s) -> heap_except (keys s) (length (keys s)) j ->
  hi_inv (up s j) /\ is_heap (keys (up s j)) (length (keys s)) /\ keys (up s j) ≡ₚ keys s /\
  (forall P, swap_stable (length (keys s)) P -> P s -> P (up s j)).
Proof. intros. apply up_loop_spec; (done || lia). Qed.

Lemma down_loop_spec fuel s n i :
  hi_inv s -> i < n -> n <= length (keys s) -> n < i + fuel -> heap_hole (keys s) n i ->
  let '(s', i') := down_loop fuel s i n in
  hi_inv s' /\ i <= i' < n /\ heap_except (keys s') n i' /\
  (i' = i -> s' = s) /\ (i < i' -> ok (keys s') i') /\
  keys s' ≡ₚ keys s /\ (forall k, n <= k -> at_ (keys s') k = at_ (keys s) k) /\
  (forall P, swap_stable n P -> P s -> P s').
Proof.
  revert s i. induction fuel as [|fuel IH]; intros s i Hs Hi Hn Hfuel Hhole; [lia|].
  cbn [down_loop]. set (j1 := 2 * i + 1).
  assert (forall k, 0 < k < n -> k <> i -> ok (keys s) k \/ k = j1 \/ k = j1 + 1) as Hchild.
  { intros k Hk Hki. destruct (decide (parent k = i)) as [E|E]; [|left; by apply Hhole].
    apply parent_spec in E; lia. }
  destruct (Nat.leb_spec n j1).
  { split_and!; try done; try lia. split; [|apply Hhole].
    intros k Hk Hki. destruct (Hchild k Hk Hki) as [|]; [done|lia]. }
  set (j := if _ && _ then j1 + 1 else j1).
  assert ((j = j1 \/ j = j1 + 1) /\ j < n /\
    (forall k, 0 < k < n -> parent k = i -> (at_ (keys s) j <= at_ (keys s) k)%Z)) as (Hj & Hjn & Hmin).
  { unfold j. destruct (Nat.ltb_spec (j1 + 1) n); simpl.
    - rewrite hi_Less_at by (done || lia).
      destruct (Z.ltb_spec (at_ (keys s) (j1 + 1)) (at_ (keys s) j1)); split_and!; auto; try lia;
        intros k Hk [->| ->]%parent_spec; try lia;
        replace (2 * i + 2) with (j1 + 1) by lia; fold j1; lia.
    - split_and!; auto. intros k Hk [->| ->]%parent_spec; fold j1; lia. }
  clearbody j.
  assert (parent j = i) as Hpj by (apply parent_spec; lia).
  rewrite hi_Less_at by (done || lia).
  destruct (Z.ltb_spec (at_ (keys s) j) (at_ (keys s) i)) as [Hlt|Hge]; simpl.
  - destruct (heap_hole_down (keys s) n i j) as [Hhole' Hok]; try done; [lia|].
    rewrite <- hi_Swap_keys in Hhole', Hok by (done || lia).
    specialize (IH (hi_Swap s i j) j).
    destruct (down_loop fuel (hi_Swap s i j) j n) as [s' i'].
    rewrite hi_Swap_keys, swap_at_length in IH by (done || lia).
    destruct IH as (? & ? & ? & Hsame & Hmove & Hperm & Hout & Hst); try lia.
    + apply hi_Swap_inv; (done || lia).
    + rewrite <- hi_Swap_keys by (done || lia). done.
    + split_and!; try done; try lia.
      * intros _. destruct (decide (i' = j)) as [->|]; [|auto with lia].
        by rewrite (Hsame eq_refl).
      * rewrite Hperm. apply swap_at_perm.
      * intros k Hk. rewrite Hout, at_swap by lia. repeat case_decide; lia.
      * intros P HP HPs. apply Hst; [done|]. apply HP; (done || lia).
  - split_and!; try done; try lia. split; [|apply Hhole].
    intros k Hk Hki. destruct (decide (parent k = i)) as [E|E].
    + unfold ok. rewrite E. specialize (Hmin k Hk E). lia.
    + by apply Hhole.
Qed.

Lemma down_spec s n i :
  hi_inv s -> i < n -> n <= length (keys s) -> heap_hole (keys s) n i ->
  let '(s', moved) := down s i n in
  hi_inv s' /\ heap_except (keys s') n i /\ (moved = true -> is_heap (keys s') n) /\
  keys s' ≡ₚ keys s /\ (forall P, swap_stable n P -> P s -> P s').
Proof.
  intros Hs Hi Hn Hhole. unfold down.
  pose proof (down_loop_spec (Datatypes.S n) s n i Hs Hi Hn ltac:(lia) Hhole) as Hd.
  destruct (down_loop (Datatypes.S n) s i n) as [s' i'].
  destruct Hd as (? & ? & Hex & Hsame & Hmove & ? & _ & ?).
  assert (i < i' -> is_heap (keys s') n) as Hheap.
  { intros Hlt k Hk. destruct (decide (k = i')) as [->|]; [auto|]. by apply Hex. }
  split_and!; try done.
  - destruct (decide (i' = i)) as [->|]; [done|].
    specialize (Hheap ltac:(lia)). split; [auto|].
    intros k Hk Hki Hi0. pose proof (Hheap k Hk) as Hok1. pose proof (Hheap i ltac:(lia)) as Hok2.
    unfold ok in *. rewrite Hki in Hok1. lia.
  - intros ?%Nat.ltb_lt. auto.
Qed.

Lemma heap_min l n k : is_heap l n -> k < n -> (at_ l 0 <= at_ l k)%Z.
Proof.
  intros Hh. induction k as [k IH] using lt_wf_ind. intros Hk.
  destruct (decide (k = 0)) as [->|]; [done|].
  pose proof (parent_lt k ltac:(lia)). pose proof (Hh k ltac:(lia)) as Hok. unfold ok in Hok.
  specialize (IH (parent k) ltac:(lia) ltac:(lia)). lia.
Qed.

End heap_correct.
