(* ===== verification/Bencode.v ===== *)
(** * The bencode codec of the NG control protocol

    Models src/internal/ng_protocol/bencode.go: the encoder, the decoder and
    the typed accessors of decoded dictionaries. A Go string or byte slice is
    a list of bytes. A Go map is the list of its entries in the order the
    runtime iterates over them, with distinct keys; the maps the decoder
    builds are kept sorted by key, so that two of them are the same map
    exactly when they are equal. *)

From Stdlib Require Import ZArith Lia Ascii String.
From stdpp Require Import base numbers list gmap strings sorting.
From S2P Require Import Prelude.

Local Open Scope Z_scope.
Local Open Scope go_scope.
#[local] Set Warnings "-clear-no-such-hyp".

Abbreviation bytes := (list ascii).

(** A literal Go string. *)
Definition bs (s : string) : bytes := list_ascii_of_string s.

(** ** Byte strings: order and decimal numerals (package [sort], [strconv]) *)

(** Go's [<=] on strings: lexicographic on bytes. *)
Fixpoint bytes_leb (a b : bytes) : bool :=
  match a, b with
  | [], _ => true
  | _ :: _, [] => false
  | x :: a', y :: b' =>
      if (N_of_ascii x <? N_of_ascii y)%N then true
      else if (N_of_ascii y <? N_of_ascii x)%N then false
      else bytes_leb a' b'
  end.
Definition bytes_le (a b : bytes) : Prop := bytes_leb a b = true.
#[export] Instance bytes_le_dec a b : Decision (bytes_le a b).
Proof. unfold bytes_le. apply _. Defined.

Definition digit (d : Z) : ascii := ascii_of_N (Z.to_N (48 + d)).
Definition digit_val (c : ascii) : option Z :=
  let n := Z.of_N (N_of_ascii c) in
  if (48 <=? n) && (n <=? 57) then Some (n - 48) else None.

Fixpoint format_digits (fuel : nat) (n : Z) : bytes :=
  match fuel with
  | O => []
  | S fuel' =>
      if n <? 10 then [digit n]
      else format_digits fuel' (n / 10) ++ [digit (n mod 10)]
  end.

(** [strconv.FormatInt(i, 10)] for an [int64]: at most 19 digits. *)
Definition FormatInt (i : Z) : bytes :=
  if i <? 0 then "-"%char :: format_digits 20 (- i) else format_digits 20 i.

Fixpoint parse_digits (acc : Z) (s : bytes) : option Z :=
  match s with
  | [] => Some acc
  | c :: s' =>
      match digit_val c with
      | Some d => parse_digits (acc * 10 + d) s'
      | None => None
      end
  end.

(** [strconv.ParseInt(s, 10, 64)], which is also [strconv.Atoi] on a 64-bit
    [int]: an optional sign, at least one digit, and a value in range. *)
Definition ParseInt (s : bytes) : option Z :=
  let '(neg, ds) :=
    match s with
    | "-"%char :: t => (true, t)
    | "+"%char :: t => (false, t)
    | _ => (false, s)
    end in
  match ds with
  | [] => None
  | _ =>
      match parse_digits 0 ds with
      | None => None
      | Some un =>
          if neg then (if 2 ^ 63 <? un then None else Some (- un))
          else if 2 ^ 63 <=? un then None else Some un
      end
  end.

(** [bytes.IndexByte]: the offset of the first occurrence. *)
Fixpoint IndexByte (s : bytes) (c : ascii) : option nat :=
  match s with
  | [] => None
  | x :: s' => if bool_decide (x = c) then Some 0%nat else S <$> IndexByte s' c
  end.

(** ** Data *)

#[local] Set Warnings "-register-all".

Inductive berror := ErrInvalidBencode | ErrUnexpectedEnd | ErrInvalidType | ErrNegativeLength.
#[export] Instance berror_eq_dec : EqDecision berror.
Proof. solve_decision. Defined.

(** The dynamic types that [encode] switches on. The floats are whatever
    [strconv.FormatFloat] prints; [IOther] is a value of any other type. *)
Inductive interface (float : Type) : Type :=
| IInt (z : Z) | IInt64 (z : Z) | IInt32 (z : Z)
| IUint (z : Z) | IUint32 (z : Z) | IUint64 (z : Z)
| IFloat32 (f : float) | IFloat64 (f : float)
| IBool (b : bool)
| IString (s : bytes) | IBytes (s : bytes)
| ISlice (l : list (interface float)) | IBencodeList (l : list (interface float))
| IMap (m : list (bytes * interface float)) | IBencodeDict (m : list (bytes * interface float))
| INil | IOther.
Arguments IInt {float} z. Arguments IInt64 {float} z. Arguments IInt32 {float} z.
Arguments IUint {float} z. Arguments IUint32 {float} z. Arguments IUint64 {float} z.
Arguments IFloat32 {float} f. Arguments IFloat64 {float} f. Arguments IBool {float} b.
Arguments IString {float} s. Arguments IBytes {float} s.
Arguments ISlice {float} l. Arguments IBencodeList {float} l.
Arguments IMap {float} m. Arguments IBencodeDict {float} m.
Arguments INil {float}. Arguments IOther {float}.

(** What [Decode] returns: [int64], [string], [BencodeList] or [BencodeDict]. *)
Inductive BencodeValue : Type :=
| VInt (z : Z)
| VString (s : bytes)
| VList (l : list BencodeValue)
| VDict (d : list (bytes * BencodeValue)).

(** ** The encoder *)

Definition encodeInt (i : Z) : bytes := "i"%char :: FormatInt i ++ ["e"%char].
Definition encodeString (s : bytes) : bytes := FormatInt (Z.of_nat (length s)) ++ ":"%char :: s.
Definition encodeBytes (b : bytes) : bytes := FormatInt (Z.of_nat (length b)) ++ ":"%char :: b.

Fixpoint assoc {A : Type} (k : bytes) (l : list (bytes * A)) : option A :=
  match l with
  | [] => None
  | (k', v) :: l' => if bool_decide (k = k') then Some v else assoc k l'
  end.

(** The loop of [encodeList] over already encoded items. *)
Fixpoint encodeItems (l : list (outcome berror bytes)) : outcome berror bytes :=
  match l with
  | [] => Ok []
  | o :: l' => let! b := o in let! r := encodeItems l' in Ok (b ++ r)
  end.

(** The loop of [encodeDict] over the sorted keys. *)
Fixpoint encodeKeys (keys : list bytes) (m : list (bytes * outcome berror bytes)) : outcome berror bytes :=
  match keys with
  | [] => Ok []
  | k :: keys' =>
      let! b := default (Ok (encodeString [])) (assoc k m) in
      let! r := encodeKeys keys' m in
      Ok (encodeString k ++ b ++ r)
  end.

Definition encodeList (items : list (outcome berror bytes)) : outcome berror bytes :=
  let! b := encodeItems items in Ok ("l"%char :: b ++ ["e"%char]).

Definition encodeDict (dict : list (bytes * outcome berror bytes)) : outcome berror bytes :=
  let keys := merge_sort bytes_le (dict.*1) in
  let! b := encodeKeys keys dict in Ok ("d"%char :: b ++ ["e"%char]).

Section encoder.
Context {float : Type} (FormatFloat : float -> Z -> bytes).

Fixpoint encode (v : interface float) : outcome berror bytes :=
  match v with
  | IInt val => Ok (encodeInt (i64 val))
  | IInt64 val => Ok (encodeInt val)
  | IInt32 val => Ok (encodeInt (i64 val))
  | IUint val => Ok (encodeInt (i64 val))
  | IUint32 val => Ok (encodeInt (i64 val))
  | IUint64 val => Ok (encodeInt (i64 val))
  | IFloat32 val => Ok (encodeString (FormatFloat val 32))
  | IFloat64 val => Ok (encodeString (FormatFloat val 64))
  | IBool val => Ok (if val then encodeInt 1 else encodeInt 0)
  | IString val => Ok (encodeString val)
  | IBytes val => Ok (encodeBytes val)
  | ISlice val => encodeList (map encode val)
  | IBencodeList val => encodeList (map encode val)
  | IMap val => encodeDict (map (fun kv => (kv.1, encode kv.2)) val)
  | IBencodeDict val => encodeDict (map (fun kv => (kv.1, encode kv.2)) val)
  | INil => Ok (encodeString [])
  | IOther => Err ErrInvalidType
  end.

Definition EncodeBencode (v : interface float) : outcome berror bytes := encode v.

End encoder.

(** ** The decoder

    A [Decoder] is its data and its position; a decoding step returns the
    value with the new position. *)

(** [dict[key] = value] on a map kept sorted by key. *)
Fixpoint dict_set {A : Type} (k : bytes) (v : A) (d : list (bytes * A)) : list (bytes * A) :=
  match d with
  | [] => [(k, v)]
  | (k', v') :: d' =>
      if bool_decide (k = k') then (k, v) :: d'
      else if bytes_leb k k' then (k, v) :: d
      else (k', v') :: dict_set k v d'
  end.

Definition decodeInt (data : bytes) (pos : nat) : outcome berror (Z * nat) :=
  if bool_decide (data !! pos = Some "i"%char) then
    let pos := S pos in
    match IndexByte (drop pos data) "e" with
    | None => Err ErrUnexpectedEnd
    | Some endPos =>
        match ParseInt (take endPos (drop pos data)) with
        | None => Err ErrInvalidBencode
        | Some num => Ok (num, pos + endPos + 1)%nat
        end
    end
  else Err ErrInvalidBencode.

Definition decodeString (data : bytes) (pos : nat) : outcome berror (bytes * nat) :=
  match IndexByte (drop pos data) ":" with
  | None => Err ErrUnexpectedEnd
  | Some colonPos =>
      match ParseInt (take colonPos (drop pos data)) with
      | None => Err ErrInvalidBencode
      | Some len =>
          if len <? 0 then Err ErrNegativeLength
          else
            let pos := (pos + colonPos + 1)%nat in
            let hi := i64 (Z.of_nat pos + len) in
            if Z.of_nat (length data) <? hi then Err ErrUnexpectedEnd
            else if hi <? Z.of_nat pos then Panic
            else Ok (take (Z.to_nat len) (drop pos data), (pos + Z.to_nat len)%nat)
      end
  end.

Definition is_digit (c : ascii) : bool := bool_decide (is_Some (digit_val c)).

Fixpoint Decode (fuel : nat) (data : bytes) (pos : nat) : outcome berror (BencodeValue * nat) :=
  match fuel with
  | O => OutOfFuel
  | S fuel =>
      match data !! pos with
      | None => Err ErrUnexpectedEnd
      | Some c =>
          if bool_decide (c = "i"%char) then
            let! (n, pos) := decodeInt data pos in Ok (VInt n, pos)
          else if bool_decide (c = "l"%char) then
            let! (l, pos) := decodeList fuel data (S pos) [] in Ok (VList l, pos)
          else if bool_decide (c = "d"%char) then
            let! (d, pos) := decodeDict fuel data (S pos) [] in Ok (VDict d, pos)
          else if is_digit c then
            let! (s, pos) := decodeString data pos in Ok (VString s, pos)
          else Err ErrInvalidBencode
      end
  end
with decodeList (fuel : nat) (data : bytes) (pos : nat) (list_ : list BencodeValue) : outcome berror (list BencodeValue * nat) :=
  match fuel with
  | O => OutOfFuel
  | S fuel =>
      match data !! pos with
      | None => Err ErrUnexpectedEnd
      | Some c =>
          if bool_decide (c = "e"%char) then Ok (list_, S pos)
          else
            let! (item, pos) := Decode fuel data pos in
            decodeList fuel data pos (list_ ++ [item])
      end
  end
with decodeDict (fuel : nat) (data : bytes) (pos : nat) (dict : list (bytes * BencodeValue)) : outcome berror (list (bytes * BencodeValue) * nat) :=
  match fuel with
  | O => OutOfFuel
  | S fuel =>
      match data !! pos with
      | None => Err ErrUnexpectedEnd
      | Some c =>
          if bool_decide (c = "e"%char) then Ok (dict, S pos)
          else
            let! (key, pos) := decodeString data pos in
            let! (value, pos) := Decode fuel data pos in
            decodeDict fuel data pos (dict_set key value dict)
      end
  end.

(** Every recursive call of the decoder follows one consumed byte at most one
    call earlier, so twice the input length bounds the depth. *)
Definition decode_fuel (data : bytes) : nat := (2 * length data + 2)%nat.

Definition DecodeBencode (data : bytes) : outcome berror BencodeValue :=
  let! (v, _) := Decode (decode_fuel data) data 0 in Ok v.

(** ** Typed access to decoded values

    A missing key and a value of another type give Go's zero value. *)

Definition GetString (v : BencodeValue) : option bytes := match v with VString s => Some s | _ => None end.
Definition GetInt (v : BencodeValue) : option Z := match v with VInt z => Some z | _ => None end.
Definition GetDict (v : BencodeValue) : option (list (bytes * BencodeValue)) := match v with VDict d => Some d | _ => None end.
Definition GetList (v : BencodeValue) : option (list BencodeValue) := match v with VList l => Some l | _ => None end.

Definition DictGetString (d : list (bytes * BencodeValue)) (key : bytes) : bytes :=
  match assoc key d with Some (VString s) => s | _ => [] end.
Definition DictGetInt (d : list (bytes * BencodeValue)) (key : bytes) : Z :=
  match assoc key d with Some (VInt i) => i | _ => 0 end.
Definition DictGetBool (d : list (bytes * BencodeValue)) (key : bytes) : bool :=
  match assoc key d with
  | Some (VString s) =>
      negb (bool_decide (s = [])) && negb (bool_decide (s = bs "0")) &&
      negb (bool_decide (s = bs "false")) && negb (bool_decide (s = bs "no"))
  | Some (VInt i) => negb (i =? 0)
  | _ => false
  end.
Definition DictGetDict (d : list (bytes * BencodeValue)) (key : bytes) : option (list (bytes * BencodeValue)) :=
  match assoc key d with Some (VDict m) => Some m | _ => None end.
Definition DictGetList (d : list (bytes * BencodeValue)) (key : bytes) : option (list BencodeValue) :=
  match assoc key d with Some (VList l) => Some l | _ => None end.
Definition DictGetStringList (d : list (bytes * BencodeValue)) (key : bytes) : option (list bytes) :=
  match DictGetList d key with
  | None => None
  | Some l => Some (omap GetString l)
  end.

Example decode_ex :
  DecodeBencode (bs "d3:bar4:spam3:fooi-42e1:lli1ei2eee") =
  Ok (VDict [(bs "bar", VString (bs "spam")); (bs "foo", VInt (-42));
             (bs "l", VList [VInt 1; VInt 2])]).
Proof. vm_compute. reflexivity. Qed.

Example decode_crash : DecodeBencode (bs "9223372036854775807:") = Panic.
Proof. vm_compute. reflexivity. Qed.

(** ** Lemmas: order and numerals *)

Section bytes_order.

Lemma bytes_le_refl a : bytes_leb a a = true.
Proof. induction a as [|x a IH]; simpl; [done|]. by rewrite N.ltb_irrefl. Qed.

Lemma bytes_le_total a b : bytes_leb a b = true \/ bytes_leb b a = true.
Proof.
  revert b. induction a as [|x a IH]; intros [|y b]; simpl; auto.
  destruct (N.ltb_spec (N_of_ascii x) (N_of_ascii y)); [auto|].
  destruct (N.ltb_spec (N_of_ascii y) (N_of_ascii x)); auto.
Qed.

Lemma bytes_le_antisym a b : bytes_leb a b = true -> bytes_leb b a = true -> a = b.
Proof.
  revert b. induction a as [|x a IH]; intros [|y b]; simpl; try done.
  destruct (N.ltb_spec (N_of_ascii x) (N_of_ascii y)),
    (N.ltb_spec (N_of_ascii y) (N_of_ascii x)); intros; try done; try lia.
  f_equal; [|by apply IH].
  assert (N_of_ascii x = N_of_ascii y) as E by lia.
  rewrite <- (ascii_N_embedding x), E. apply ascii_N_embedding.
Qed.

Lemma bytes_le_trans a b c :
  bytes_leb a b = true -> bytes_leb b c = true -> bytes_leb a c = true.
Proof.
  revert b c. induction a as [|x a IH]; intros [|y b] [|z c]; simpl; try done.
  destruct (N.ltb_spec (N_of_ascii x) (N_of_ascii y)),
    (N.ltb_spec (N_of_ascii y) (N_of_ascii x)),
    (N.ltb_spec (N_of_ascii y) (N_of_ascii z)),
    (N.ltb_spec (N_of_ascii z) (N_of_ascii y)),
    (N.ltb_spec (N_of_ascii x) (N_of_ascii z)),
    (N.ltb_spec (N_of_ascii z) (N_of_ascii x)); intros; try done; try lia; eauto.
Qed.

#[export] Instance bytes_le_Total : Total bytes_le.
Proof. intros a b. apply bytes_le_total. Qed.
#[export] Instance bytes_le_Transitive : Transitive bytes_le.
Proof. intros a b c. apply bytes_le_trans. Qed.
#[export] Instance bytes_le_AntiSymm : AntiSymm (=) bytes_le.
Proof. intros a b. apply bytes_le_antisym. Qed.

End bytes_order.

Lemma digit_val_digit d : 0 <= d < 10 -> digit_val (digit d) = Some d.
Proof.
  intros Hd. assert (d = 0 \/ d = 1 \/ d = 2 \/ d = 3 \/ d = 4 \/ d = 5 \/ d = 6 \/ d = 7 \/ d = 8 \/ d = 9)
    as H by lia.
  by repeat destruct H as [->|H]; [..|subst].
Qed.

Lemma format_digits_Forall fuel n :
  0 <= n -> Forall (fun c => is_digit c = true) (format_digits fuel n).
Proof.
  revert n. induction fuel as [|fuel IH]; intros n Hn; simpl; [done|].
  destruct (Z.ltb_spec n 10).
  - constructor; [|done]. unfold is_digit. rewrite digit_val_digit by lia. done.
  - apply Forall_app. split; [apply IH; apply Z.div_pos; lia|].
    constructor; [|done]. unfold is_digit.
    rewrite digit_val_digit; [done|]. apply Z.mod_pos_bound; lia.
Qed.

Lemma format_digits_nonempty fuel n : (0 < fuel)%nat -> format_digits fuel n <> [].
Proof.
  destruct fuel; [lia|]. simpl. intros _.
  case_match; [done|]. intros H'. by apply app_eq_nil in H' as [_ ?].
Qed.

Lemma parse_digits_app acc a b :
  parse_digits acc (a ++ b) = x ← parse_digits acc a; parse_digits x b.
Proof. revert acc. induction a as [|c a IH]; intros acc; simpl; [done|]. case_match; simpl; auto. Qed.

Lemma parse_format_digits fuel n :
  (0 < fuel)%nat -> 0 <= n < 10 ^ Z.of_nat fuel -> parse_digits 0 (format_digits fuel n) = Some n.
Proof.
  revert n. induction fuel as [|fuel IH]; intros n Hf Hn; [lia|]. simpl.
  destruct (Z.ltb_spec n 10).
  { simpl. rewrite digit_val_digit by lia. done. }
  rewrite Nat2Z.inj_succ, Z.pow_succ_r in Hn by lia.
  assert (0 < fuel)%nat by (destruct fuel; simpl in *; lia).
  rewrite parse_digits_app, IH; [|done|].
  - simpl. rewrite digit_val_digit by (apply Z.mod_pos_bound; lia).
    f_equal. rewrite Z.mul_comm. symmetry. apply Z.div_mod. lia.
  - split; [apply Z.div_pos; lia|]. apply Z.div_lt_upper_bound; lia.
Qed.

Lemma is_digit_not_sign c : is_digit c = true -> c <> "-"%char /\ c <> "+"%char.
Proof. intros H. split; intros ->; done. Qed.

(** Reading back a printed [int64] gives it back. *)
Lemma ParseInt_FormatInt i : is_s 64 i -> ParseInt (FormatInt i) = Some i.
Proof.
  intros Hi. unfold is_s in Hi. unfold ParseInt, FormatInt.
  destruct (Z.ltb_spec i 0).
  - pose proof (format_digits_nonempty 20 (- i) ltac:(lia)) as Hne.
    assert (parse_digits 0 (format_digits 20 (- i)) = Some (- i)) as Hp
      by (apply parse_format_digits; lia).
    destruct (format_digits 20 (- i)) eqn:E; [done|].
    rewrite Hp. destruct (Z.ltb_spec (2 ^ 63) (- i)); [lia|]. f_equal; lia.
  - pose proof (format_digits_nonempty 20 i ltac:(lia)) as Hne.
    pose proof (format_digits_Forall 20 i ltac:(lia)) as Hall.
    assert (parse_digits 0 (format_digits 20 i) = Some i) as Hp
      by (apply parse_format_digits; lia).
    destruct (format_digits 20 i) as [|c l] eqn:E; [done|].
    apply Forall_cons in Hall as [[Hc1 Hc2]%is_digit_not_sign _].
    assert (forall A (x y z : A), match c with "-"%char => x | "+"%char => y | _ => z end = z) as Hm.
    { intros. destruct c as [[] [] [] [] [] [] [] []]; done. }
    rewrite Hm, Hp. destruct (Z.leb_spec (2 ^ 63) i); [lia|]. done.
Qed.

Lemma FormatInt_chars i c :
  c ∈ FormatInt i -> c = "-"%char \/ is_digit c = true.
Proof.
  unfold FormatInt. destruct (Z.ltb_spec i 0).
  - intros [->|Hc]%elem_of_cons; [auto|].
    pose proof (format_digits_Forall 20 (- i) ltac:(lia)) as Hall.
    rewrite Forall_forall in Hall. auto.
  - pose proof (format_digits_Forall 20 i ltac:(lia)) as Hall.
    rewrite Forall_forall in Hall. auto.
Qed.

Lemma FormatInt_not_elem i c : c <> "-"%char -> is_digit c = false -> c ∉ FormatInt i.
Proof. intros ?? [?|?]%FormatInt_chars; congruence. Qed.

(** A length is printed without sign: the text starts with a digit. *)
Lemma FormatInt_head n :
  0 <= n -> exists c l, FormatInt n = c :: l /\ is_digit c = true.
Proof.
  intros Hn. unfold FormatInt. destruct (Z.ltb_spec n 0); [lia|].
  pose proof (format_digits_nonempty 20 n ltac:(lia)) as Hne.
  pose proof (format_digits_Forall 20 n Hn) as Hall.
  destruct (format_digits 20 n) as [|c l]; [done|].
  apply Forall_cons in Hall as [? _]. eauto.
Qed.

Lemma IndexByte_Some s c n : IndexByte s c = Some n ->
  (c ∉ take n s) /\ s = take n s ++ c :: drop (n + 1) s.
Proof.
  revert n. induction s as [|x s IH]; intros n; cbn; [done|]. case_match eqn:E.
  - intros [= <-]. bool_prop. subst. split; [set_solver|done].
  - destruct (IndexByte s c) as [m|]; [|done]. intros [= <-]. bool_prop.
    destruct (IH m eq_refl) as [H1 H2]. cbn. split; [set_solver|by f_equal].
Qed.

Lemma IndexByte_app a b c : c ∉ a -> IndexByte (a ++ c :: b) c = Some (length a).
Proof.
  induction a as [|x a IH]; simpl; intros Hc.
  - by rewrite bool_decide_true.
  - apply not_elem_of_cons in Hc as [? ?].
    rewrite bool_decide_false by done. by rewrite IH.
Qed.

(** ** Lemmas: one encoded scalar *)

Lemma drop_length_app {A} (pre rest : list A) : drop (length pre) (pre ++ rest) = rest.
Proof. apply drop_app_length. Qed.

Lemma decodeInt_encodeInt pre post i :
  is_s 64 i ->
  decodeInt (pre ++ encodeInt i ++ post) (length pre) =
  Ok (i, length (pre ++ encodeInt i)).
Proof.
  intros Hi. unfold decodeInt, encodeInt.
  rewrite bool_decide_true by (by rewrite lookup_app_r, Nat.sub_diag by lia).
  replace (S (length pre)) with (length (pre ++ ["i"%char])) by (rewrite length_app; simpl; lia).
  replace (pre ++ ("i"%char :: FormatInt i ++ ["e"%char]) ++ post)
    with ((pre ++ ["i"%char]) ++ FormatInt i ++ "e"%char :: post)
    by (by rewrite <- !app_assoc; simpl; rewrite <- !app_assoc).
  rewrite drop_length_app, IndexByte_app by (by apply FormatInt_not_elem).
  rewrite take_app_length, ParseInt_FormatInt by done.
  do 2 f_equal. rewrite !length_app. simpl. rewrite length_app. simpl. lia.
Qed.

Lemma decodeString_encodeString pre post s :
  Z.of_nat (length (pre ++ encodeString s ++ post)) < 2 ^ 63 ->
  decodeString (pre ++ encodeString s ++ post) (length pre) =
  Ok (s, length (pre ++ encodeString s)).
Proof.
  intros Hlen. unfold decodeString, encodeString in *.
  rewrite <- app_assoc in *. simpl in *.
  rewrite drop_length_app, IndexByte_app by (by apply FormatInt_not_elem).
  set (n := FormatInt (Z.of_nat (length s))) in *. simpl_len.
  rewrite take_app_length. unfold n at 1.
  rewrite ParseInt_FormatInt by (unfold is_s; lia).
  rewrite wraps_id by (unfold is_s; lia).
  repeat match goal with |- context [Z.ltb ?x ?y] =>
    destruct (Z.ltb_spec x y); [lia|] end.
  rewrite Nat2Z.id.
  replace (pre ++ n ++ ":"%char :: s ++ post) with ((pre ++ n ++ [":"%char]) ++ s ++ post)
    by (by rewrite <- !app_assoc).
  rewrite drop_app_length', take_app_length by (rewrite !length_app; simpl; lia).
  do 2 f_equal. lia.
Qed.

(** ** The meaning of an encodable value *)

(** The map with the given entries, sorted by key. *)
Definition dict_norm {A : Type} (l : list (bytes * A)) : list (bytes * A) :=
  omap (fun k => (k,.) <$> assoc k l) (merge_sort bytes_le (l.*1)).

Section denotation.
Context {float : Type} (FormatFloat : float -> Z -> bytes).

Fixpoint denote (v : interface float) : BencodeValue :=
  match v with
  | IInt z | IInt32 z | IUint z | IUint32 z | IUint64 z => VInt (i64 z)
  | IInt64 z => VInt z
  | IFloat32 f => VString (FormatFloat f 32)
  | IFloat64 f => VString (FormatFloat f 64)
  | IBool b => VInt (if b then 1 else 0)
  | IString s | IBytes s => VString s
  | ISlice l | IBencodeList l => VList (map denote l)
  | IMap m | IBencodeDict m => VDict (dict_norm (map (fun kv => (kv.1, denote kv.2)) m))
  | INil | IOther => VString []
  end.

(** What every Go value satisfies: an [int64] is in range and the keys of a
    map are distinct. *)
Fixpoint wf_interface (v : interface float) : Prop :=
  match v with
  | IInt64 z => is_s 64 z
  | ISlice l | IBencodeList l => foldr (fun x P => wf_interface x /\ P) True l
  | IMap m | IBencodeDict m =>
      NoDup (m.*1) /\ foldr (fun kv P => wf_interface kv.2 /\ P) True m
  | _ => True
  end.

Section ind.
Variable P : interface float -> Prop.
Hypothesis Hleaf : forall v,
  match v with ISlice _ | IBencodeList _ | IMap _ | IBencodeDict _ => True | _ => P v end.
Hypothesis Hslice : forall l, Forall P l -> P (ISlice l).
Hypothesis Hlist : forall l, Forall P l -> P (IBencodeList l).
Hypothesis Hmap : forall m, Forall (fun kv => P kv.2) m -> P (IMap m).
Hypothesis Hdict : forall m, Forall (fun kv => P kv.2) m -> P (IBencodeDict m).

Fixpoint interface_ind' (v : interface float) : P v :=
  match v with
  | ISlice l =>
      Hslice l ((fix go l : Forall P l :=
        match l with [] => Forall_nil_2 P | x :: l => Forall_cons_2 P x l (interface_ind' x) (go l) end) l)
  | IBencodeList l =>
      Hlist l ((fix go l : Forall P l :=
        match l with [] => Forall_nil_2 P | x :: l => Forall_cons_2 P x l (interface_ind' x) (go l) end) l)
  | IMap m =>
      Hmap m ((fix go m : Forall (fun kv => P kv.2) m :=
        match m with [] => Forall_nil_2 _ | (k, x) :: m => Forall_cons_2 (fun kv => P kv.2) (k, x) m (interface_ind' x) (go m) end) m)
  | IBencodeDict m =>
      Hdict m ((fix go m : Forall (fun kv => P kv.2) m :=
        match m with [] => Forall_nil_2 _ | (k, x) :: m => Forall_cons_2 (fun kv => P kv.2) (k, x) m (interface_ind' x) (go m) end) m)
  | v => Hleaf v
  end.

End ind.

End denotation.

(** ** Lemmas: sequences of encoded values *)

(** [b] is an encoding of [v] wherever it stands in the input. *)
Definition decodes (b : bytes) (v : BencodeValue) : Prop :=
  (exists c b', b = c :: b' /\ c <> "e"%char) /\
  forall pre post fuel,
    Z.of_nat (length (pre ++ b ++ post)) < 2 ^ 63 ->
    (2 * length b + 1 <= fuel)%nat ->
    Decode fuel (pre ++ b ++ post) (length pre) = Ok (v, length (pre ++ b)).

Lemma lookup_middle_app {A} (pre : list A) c rest : (pre ++ c :: rest) !! length pre = Some c.
Proof. by rewrite lookup_app_r, Nat.sub_diag by lia. Qed.

Lemma assoc_map {A B} (f : A -> B) k (m : list (bytes * A)) :
  assoc k (map (fun kv => (kv.1, f kv.2)) m) = f <$> assoc k m.
Proof. induction m as [|[k' v] m IH]; simpl; [done|]. by case_bool_decide. Qed.

Lemma assoc_is_Some {A} k (m : list (bytes * A)) : k ∈ m.*1 -> is_Some (assoc k m).
Proof.
  induction m as [|[k' v] m IH]; simpl; [by intros ?%elem_of_nil|].
  intros [->|?]%elem_of_cons; case_bool_decide; eauto. done.
Qed.

Lemma assoc_elem_of {A} k v (m : list (bytes * A)) : assoc k m = Some v -> (k, v) ∈ m.
Proof.
  induction m as [|[k' v'] m IH]; simpl; [done|].
  case_bool_decide; intros ?; simplify_eq; [left|right; auto].
Qed.

Lemma decodeList_items (l : list (bytes * BencodeValue)) acc pre post fuel :
  Forall (fun bv => decodes bv.1 bv.2) l ->
  Z.of_nat (length (pre ++ concat (l.*1) ++ "e"%char :: post)) < 2 ^ 63 ->
  (2 * length (concat (l.*1)) + 2 <= fuel)%nat ->
  decodeList fuel (pre ++ concat (l.*1) ++ "e"%char :: post) (length pre) acc =
  Ok (acc ++ l.*2, length (pre ++ concat (l.*1) ++ ["e"%char])).
Proof.
  revert acc pre fuel. induction l as [|[b v] l IH]; intros acc pre fuel Hl Hlen Hfuel;
    (destruct fuel as [|fuel]; [lia|]); cbn [fmap list_fmap fst snd concat app] in *.
  - cbn [decodeList]. rewrite lookup_middle_app, bool_decide_true by done.
    rewrite app_nil_r. do 2 f_equal. simpl_len. lia.
  - apply Forall_cons in Hl as [Hdec Hl]. cbn [fst snd] in Hdec.
    destruct Hdec as [(c & b' & -> & Hc) Hdec]. cbn [decodeList]. rewrite <- (app_assoc _ (concat _)). simpl.
    rewrite lookup_middle_app, bool_decide_false by done.
    specialize (Hdec pre (concat l.*1 ++ "e"%char :: post) fuel).
    simpl in Hdec. rewrite Hdec; [|simpl_len; lia..]. simpl.
    replace (pre ++ c :: b' ++ concat l.*1 ++ "e"%char :: post)
      with ((pre ++ c :: b') ++ concat l.*1 ++ "e"%char :: post)
      by (by rewrite <- app_assoc).
    rewrite IH; [|done|simpl_len; lia..].
    rewrite <- !app_assoc. done.
Qed.

Lemma encodeString_head s : exists c l, encodeString s = c :: l /\ c <> "e"%char.
Proof.
  unfold encodeString. destruct (FormatInt_head (Z.of_nat (length s))) as (c & l & -> & Hc); [lia|].
  exists c, (l ++ ":"%char :: s). split; [done|]. intros ->. done.
Qed.

Lemma dict_set_snoc {A} k v (d : list (bytes * A)) :
  Forall (fun k' => bytes_le k' k /\ k' <> k) (d.*1) -> dict_set k v d = d ++ [(k, v)].
Proof.
  induction d as [|[k' v'] d IH]; simpl; [done|].
  intros [[Hle Hne] Hd]%Forall_cons. rewrite bool_decide_false by done.
  destruct (bytes_leb k k') eqn:E; [|by rewrite IH].
  destruct Hne. by apply bytes_le_antisym.
Qed.

(** The text of the entries of a dictionary. *)
Definition entries_text (ents : list (bytes * (bytes * BencodeValue))) : bytes :=
  concat (map (fun e => encodeString e.1 ++ e.2.1) ents).
Definition entries_dict (ents : list (bytes * (bytes * BencodeValue))) : list (bytes * BencodeValue) :=
  map (fun e => (e.1, e.2.2)) ents.

Lemma decodeDict_entries ents acc pre post fuel :
  Forall (fun e => decodes e.2.1 e.2.2) ents ->
  StronglySorted (fun k k' => bytes_le k k' /\ k <> k') (acc.*1 ++ ents.*1) ->
  Z.of_nat (length (pre ++ entries_text ents ++ "e"%char :: post)) < 2 ^ 63 ->
  (2 * length (entries_text ents) + 2 <= fuel)%nat ->
  decodeDict fuel (pre ++ entries_text ents ++ "e"%char :: post) (length pre) acc =
  Ok (acc ++ entries_dict ents, length (pre ++ entries_text ents ++ ["e"%char])).
Proof.
  revert acc pre fuel. induction ents as [|[k [b v]] ents IH]; intros acc pre fuel Hl Hs Hlen Hfuel;
    (destruct fuel as [|fuel]; [lia|]); unfold entries_text, entries_dict in *;
    cbn [map concat fst snd app fmap list_fmap] in *.
  - cbn [decodeDict]. rewrite lookup_middle_app, bool_decide_true by done.
    rewrite app_nil_r. do 2 f_equal. simpl_len. lia.
  - apply Forall_cons in Hl as [Hdec Hl]. cbn [fst snd] in *.
    set (rest := concat (map (fun e : bytes * (bytes * BencodeValue) => encodeString e.1 ++ e.2.1) ents)) in *.
    cbn [decodeDict]. rewrite <- !(app_assoc (encodeString k)), <- !(app_assoc b) in *.
    destruct (encodeString_head k) as (c & l & E & Hc).
    replace ((pre ++ encodeString k ++ b ++ rest ++ "e"%char :: post) !! length pre) with (Some c)
      by (rewrite E; simpl; by rewrite lookup_middle_app).
    rewrite bool_decide_false by done.
    rewrite decodeString_encodeString by done. simpl.
    destruct Hdec as [(c' & b' & Eb & _) Hdec].
    replace (pre ++ encodeString k ++ b ++ rest ++ "e"%char :: post)
      with ((pre ++ encodeString k) ++ b ++ rest ++ "e"%char :: post)
      by (by rewrite <- app_assoc).
    assert (1 <= length b)%nat by (rewrite Eb; simpl; lia).
    rewrite Hdec; [|simpl_len; lia..]. simpl.
    rewrite dict_set_snoc.
    2:{ apply Forall_forall. intros k' Hk'.
        apply (StronglySorted_app_1_elem_of _ _ _ _ k Hs Hk'). left. }
    replace ((pre ++ encodeString k) ++ b ++ rest ++ "e"%char :: post)
      with ((pre ++ encodeString k ++ b) ++ rest ++ "e"%char :: post)
      by (by rewrite <- !app_assoc).
    replace (length ((pre ++ encodeString k) ++ b)) with (length (pre ++ encodeString k ++ b))
      by (by rewrite app_assoc).
    rewrite IH; [|done| |simpl_len; lia..].
    + rewrite <- !app_assoc. done.
    + rewrite fmap_app. simpl. by rewrite <- app_assoc.
Qed.

(** ** Lemmas: whole values *)

Lemma strictly_sorted_keys (ks : list bytes) :
  NoDup ks ->
  StronglySorted (fun k k' => bytes_le k k' /\ k <> k') (merge_sort bytes_le ks).
Proof.
  intros Hnd. assert (NoDup (merge_sort bytes_le ks)) as Hnd'
    by (by rewrite merge_sort_Permutation).
  pose proof (StronglySorted_merge_sort bytes_le ks) as Hs.
  induction Hs as [|k l Hs IH Hk]; constructor; apply NoDup_cons in Hnd' as [Hnk Hnd']; auto.
  rewrite Forall_forall in *. intros x Hx. split; [auto|]. by intros ->.
Qed.

Section roundtrip.
Context {float : Type} (FormatFloat : float -> Z -> bytes).
Local Abbreviation enc := (encode FormatFloat).
Local Abbreviation den := (denote FormatFloat).

Lemma encodeItems_Ok (l : list (interface float)) r :
  encodeItems (map enc l) = Ok r ->
  exists bl, Forall2 (fun v b => enc v = Ok b) l bl /\ r = concat bl.
Proof.
  revert r. induction l as [|v l IH]; simpl; intros r H.
  - simplify_eq. exists []. by split.
  - apply obind_Ok_inv in H as (b & Hb & H). apply obind_Ok_inv in H as (r' & Hr & H).
    simplify_eq. destruct (IH _ Hr) as (bl & Hbl & ->).
    exists (b :: bl). split; [by constructor|done].
Qed.

Lemma encodeKeys_Ok (m : list (bytes * interface float)) ks r :
  (forall k v b, assoc k m = Some v -> enc v = Ok b -> decodes b (den v)) ->
  (forall k, k ∈ ks -> is_Some (assoc k m)) ->
  encodeKeys ks (map (fun kv => (kv.1, enc kv.2)) m) = Ok r ->
  exists ents,
    r = entries_text ents /\ Forall (fun e => decodes e.2.1 e.2.2) ents /\ ents.*1 = ks /\
    omap (fun k => (k,.) <$> assoc k (map (fun kv => (kv.1, den kv.2)) m)) ks = entries_dict ents.
Proof.
  intros Hdec. revert r. induction ks as [|k ks IH]; intros r Hks H; simpl in *.
  - simplify_eq. by exists [].
  - destruct (Hks k) as [v Hv]; [left|].
    rewrite assoc_map, Hv in H. simpl in H.
    apply obind_Ok_inv in H as (b & Hb & H). apply obind_Ok_inv in H as (r' & Hr & H). simplify_eq.
    destruct (IH r') as (ents & -> & Hents & Hkeys & Hd); [intros; apply Hks; by right|done|].
    exists ((k, (b, den v)) :: ents). unfold entries_text, entries_dict in *. csimpl.
    rewrite assoc_map, Hv. csimpl. rewrite Hd, Hkeys, app_assoc.
    repeat split; try done. constructor; [by eapply Hdec|done].
Qed.

Lemma decodes_int i : is_s 64 i -> decodes (encodeInt i) (VInt i).
Proof.
  intros Hi. split; [by exists "i"%char, (FormatInt i ++ ["e"%char])|].
  intros pre post [|fuel] Hlen Hfuel; [simpl_len; lia|].
  cbn [Decode]. replace ((pre ++ encodeInt i ++ post) !! length pre) with (Some "i"%char)
    by (unfold encodeInt; simpl; by rewrite lookup_middle_app).
  rewrite bool_decide_true, decodeInt_encodeInt by done. done.
Qed.

Lemma decodes_string s : decodes (encodeString s) (VString s).
Proof.
  split; [destruct (encodeString_head s) as (c & l & -> & ?); eauto|].
  intros pre post [|fuel] Hlen Hfuel; [simpl_len; lia|].
  unfold encodeString in *. destruct (FormatInt_head (Z.of_nat (length s))) as (c & l & E & Hc); [lia|].
  cbn [Decode]. rewrite E at 1. simpl. rewrite lookup_middle_app.
  assert (c <> "i"%char /\ c <> "l"%char /\ c <> "d"%char) as (?&?&?)
    by (repeat split; intros ->; done).
  rewrite !bool_decide_false by done. rewrite Hc.
  change (FormatInt (Z.of_nat (length s)) ++ ":"%char :: s) with (encodeString s).
  by rewrite decodeString_encodeString.
Qed.

Lemma decodes_list l (vs : list (interface float)) :
  Forall (fun v => wf_interface v -> forall b, enc v = Ok b -> decodes b (den v)) vs ->
  foldr (fun x P => wf_interface x /\ P) True vs ->
  encodeList (map enc vs) = Ok l -> decodes l (VList (map den vs)).
Proof.
  intros IH Hwf H. apply obind_Ok_inv in H as (r & Hr & H). simplify_eq.
  apply encodeItems_Ok in Hr as (bl & Hbl & ->).
  assert (exists bvs, bl = bvs.*1 /\ map den vs = bvs.*2 /\ Forall (fun bv => decodes bv.1 bv.2) bvs)
    as (bvs & -> & Hden & Hall).
  { induction Hbl as [|v b vs bl Hv Hbl IHl]; [by exists []|].
    apply Forall_cons in IH as [IHv IH]. destruct Hwf as [Hv' Hwf].
    destruct (IHl IH Hwf) as (bvs & -> & Hd & Hall). exists ((b, den v) :: bvs).
    simpl. rewrite Hd. eauto. }
  split; [by exists "l"%char, (concat bvs.*1 ++ ["e"%char])|].
  intros pre post [|fuel] Hlen Hfuel; [simpl_len; lia|].
  cbn [Decode app] in *. rewrite lookup_middle_app, bool_decide_false, bool_decide_true by done.
  rewrite <- app_assoc. simpl.
  replace (pre ++ "l"%char :: concat bvs.*1 ++ "e"%char :: post)
    with ((pre ++ ["l"%char]) ++ concat bvs.*1 ++ "e"%char :: post) by (by rewrite <- app_assoc).
  replace (S (length pre)) with (length (pre ++ ["l"%char])) by (simpl_len; lia).
  rewrite decodeList_items by (try done; simpl_len; lia).
  simpl. rewrite Hden. by rewrite <- app_assoc.
Qed.

Lemma decodes_dict l (m : list (bytes * interface float)) :
  Forall (fun kv => wf_interface kv.2 -> forall b, enc kv.2 = Ok b -> decodes b (den kv.2)) m ->
  NoDup (m.*1) -> foldr (fun kv P => wf_interface kv.2 /\ P) True m ->
  encodeDict (map (fun kv => (kv.1, enc kv.2)) m) = Ok l ->
  decodes l (VDict (dict_norm (map (fun kv => (kv.1, den kv.2)) m))).
Proof.
  intros IH Hnd Hwf H. apply obind_Ok_inv in H as (r & Hr & H). simplify_eq.
  assert (forall A (f : interface float -> A), (map (fun kv => (kv.1, f kv.2)) m).*1 = m.*1) as Hfst.
  { intros A f. clear. induction m as [|[k v] m IH]; csimpl; [done|by rewrite IH]. }
  rewrite Hfst in Hr. unfold dict_norm. rewrite Hfst.
  apply encodeKeys_Ok in Hr as (ents & -> & Hents & Hkeys & ->).
  2:{ intros k v b Hv%assoc_elem_of Hb.
      rewrite Forall_forall in IH. apply (IH (k, v)); [done| |done].
      clear -Hwf Hv. induction m as [|[k' v'] m IHm]; [by apply elem_of_nil in Hv|].
      destruct Hwf as [? ?]. apply elem_of_cons in Hv as [?|?]; [by simplify_eq|auto]. }
  2:{ intros k. rewrite merge_sort_Permutation. apply assoc_is_Some. }
  pose proof (strictly_sorted_keys _ Hnd) as Hs. rewrite <- Hkeys in Hs.
  split; [by exists "d"%char, (entries_text ents ++ ["e"%char])|].
  intros pre post [|fuel] Hlen Hfuel; [simpl_len; lia|].
  cbn [Decode app] in *. rewrite lookup_middle_app, !bool_decide_false, bool_decide_true by done.
  rewrite <- app_assoc. simpl.
  replace (pre ++ "d"%char :: entries_text ents ++ "e"%char :: post)
    with ((pre ++ ["d"%char]) ++ entries_text ents ++ "e"%char :: post) by (by rewrite <- app_assoc).
  replace (S (length pre)) with (length (pre ++ ["d"%char])) by (simpl_len; lia).
  rewrite decodeDict_entries by (try done; simpl_len; lia).
  simpl. by rewrite <- app_assoc.
Qed.

Lemma encode_decodes v b : wf_interface v -> enc v = Ok b -> decodes b (den v).
Proof.
  revert b. pattern v. apply interface_ind'; clear v.
  { intros []; intros; try done; simpl in *; simplify_eq;
      first [apply decodes_string | apply decodes_int; first [done | apply wraps_range; lia] | idtac].
    by case_match; apply decodes_int. }
  all: intros l IH b Hwf H; simpl in *.
  1-2: eapply decodes_list; [|done..]; eapply Forall_impl; [exact IH|]; eauto.
  all: destruct Hwf; eapply decodes_dict; [|done..]; eapply Forall_impl; [exact IH|]; eauto.
Qed.

End roundtrip.

(** ** Lemmas: progress and termination of the decoder *)

Lemma decodeInt_progress data pos i pos' : decodeInt data pos = Ok (i, pos') -> (pos < pos')%nat.
Proof. unfold decodeInt. intros H. repeat case_match; simplify_eq; lia. Qed.

Lemma decodeString_progress data pos s pos' : decodeString data pos = Ok (s, pos') -> (pos < pos')%nat.
Proof. unfold decodeString. intros H. repeat case_match; simplify_eq; lia. Qed.

Lemma decodeInt_fuel data pos : decodeInt data pos <> OutOfFuel.
Proof. unfold decodeInt. repeat case_match; done. Qed.

Lemma decodeString_fuel data pos : decodeString data pos <> OutOfFuel.
Proof. unfold decodeString. repeat case_match; done. Qed.

(** Inverts a monadic step of the decoder in a hypothesis. *)
Ltac inv_step H :=
  lazymatch type of H with
  | obind _ _ = Ok _ =>
      let x := fresh "r" in let p := fresh "pos" in let H1 := fresh "Hstep" in
      apply obind_Ok_inv in H as ([x p] & H1 & H)
  | obind _ _ = OutOfFuel =>
      let x := fresh "r" in let p := fresh "pos" in let H1 := fresh "Hstep" in
      apply obind_OutOfFuel_inv in H as [H | ([x p] & H1 & H)]
  end.

Lemma Decode_progress fuel data :
  (forall pos v pos', Decode fuel data pos = Ok (v, pos') -> (pos < pos')%nat) /\
  (forall pos acc l pos', decodeList fuel data pos acc = Ok (l, pos') -> (pos < pos')%nat) /\
  (forall pos acc d pos', decodeDict fuel data pos acc = Ok (d, pos') -> (pos < pos')%nat).
Proof.
  induction fuel as [|fuel (IH1 & IH2 & IH3)]; [done|].
  split_and!; intros *; simpl; intros H; repeat case_match; try done;
    repeat inv_step H; simplify_eq; try lia;
    repeat match goal with
    | H : decodeInt _ _ = Ok _ |- _ => apply decodeInt_progress in H
    | H : decodeString _ _ = Ok _ |- _ => apply decodeString_progress in H
    | H : Decode _ _ _ = Ok _ |- _ => apply IH1 in H
    | H : decodeList _ _ _ _ = Ok _ |- _ => apply IH2 in H
    | H : decodeDict _ _ _ _ = Ok _ |- _ => apply IH3 in H
    end; lia.
Qed.

Lemma Decode_fuel fuel data :
  (forall pos, (2 * (length data - pos) + 1 <= fuel)%nat -> Decode fuel data pos <> OutOfFuel) /\
  (forall pos acc, (2 * (length data - pos) + 2 <= fuel)%nat -> decodeList fuel data pos acc <> OutOfFuel) /\
  (forall pos acc, (2 * (length data - pos) + 2 <= fuel)%nat -> decodeDict fuel data pos acc <> OutOfFuel).
Proof.
  induction fuel as [|fuel (IH1 & IH2 & IH3)]; [split_and!; intros; lia|].
  destruct (Decode_progress fuel data) as (P1 & _ & _).
  split_and!; intros * Hf; simpl;
    (destruct (data !! pos) as [c|] eqn:Hc; [apply lookup_lt_Some in Hc|done]);
    intros Hres; repeat case_match; try done; repeat inv_step Hres; try done;
    repeat match goal with
    | H : decodeInt _ _ = OutOfFuel |- _ => by apply decodeInt_fuel in H
    | H : decodeString _ _ = OutOfFuel |- _ => by apply decodeString_fuel in H
    | H : decodeString _ _ = Ok _ |- _ => apply decodeString_progress in H
    | H : Decode _ _ _ = Ok _ |- _ => apply P1 in H
    | H : Decode _ _ _ = OutOfFuel |- _ => apply IH1 in H; [done|lia]
    | H : decodeList _ _ _ _ = OutOfFuel |- _ => apply IH2 in H; [done|lia]
    | H : decodeDict _ _ _ _ = OutOfFuel |- _ => apply IH3 in H; [done|lia]
    end.
Qed.

(** ** Lemmas: decoded values are canonical *)

Definition strictly_sorted (ks : list bytes) : Prop :=
  StronglySorted (fun k k' => bytes_le k k' /\ k <> k') ks.

(** The invariant of decoded values: integers in the range of [int64] and
    dictionaries in canonical order. *)
Fixpoint wf_value (v : BencodeValue) : Prop :=
  match v with
  | VInt z => is_s 64 z
  | VString _ => True
  | VList l => foldr (fun x P => wf_value x /\ P) True l
  | VDict d => strictly_sorted (d.*1) /\ foldr (fun kv P => wf_value kv.2 /\ P) True d
  end.
Abbreviation wf_values l := (foldr (fun x P => wf_value x /\ P) True l).
Abbreviation wf_entries d := (foldr (fun kv P => wf_value kv.2 /\ P) True d).

Lemma ParseInt_range s z : ParseInt s = Some z -> is_s 64 z.
Proof.
  assert (forall acc ds un, 0 <= acc -> parse_digits acc ds = Some un -> 0 <= un) as Hpos.
  { intros acc ds. revert acc. induction ds as [|c ds IH]; simpl; intros acc un Ha H; [by simplify_eq|].
    unfold digit_val in H. repeat case_match; simplify_eq; bool_prop.
    eapply IH; [|done]. lia. }
  unfold ParseInt, is_s. intros H. repeat case_match; simplify_eq;
    repeat match goal with H : parse_digits 0 _ = Some _ |- _ => apply Hpos in H; [|lia] end;
    bool_prop; lia.
Qed.

Lemma wf_values_snoc l v : wf_values l -> wf_value v -> wf_values (l ++ [v]).
Proof. induction l; simpl; [done|]. intros [? ?]. auto. Qed.

Lemma dict_set_keys {A} k (v : A) d x : x ∈ (dict_set k v d).*1 -> x = k \/ x ∈ d.*1.
Proof.
  induction d as [|[k' v'] d IH]; csimpl; rewrite ?elem_of_cons; [by intros [?|?%elem_of_nil]; auto|].
  case_bool_decide; [|case_match]; csimpl; rewrite ?elem_of_cons; [tauto..|].
  intros [?|?]; [auto|]. destruct IH; auto.
Qed.

Lemma dict_set_sorted {A} k (v : A) d :
  strictly_sorted (d.*1) -> strictly_sorted ((dict_set k v d).*1).
Proof.
  unfold strictly_sorted. induction d as [|[k' v'] d IH]; simpl; intros Hs; [by repeat constructor|].
  apply StronglySorted_cons in Hs as [Hk Hs].
  case_bool_decide as Hkk; [subst; by constructor|].
  destruct (bytes_leb k k') eqn:E; simpl.
  - constructor; [by constructor|]. constructor; [done|].
    eapply Forall_impl; [exact Hk|]. simpl. intros x [Hx1 Hx2]. split; [by eapply bytes_le_trans|].
    intros <-. destruct Hkk. by apply bytes_le_antisym.
  - constructor; [auto|]. apply Forall_forall. intros x [->|Hx]%dict_set_keys.
    + split; [|done]. destruct (bytes_le_total k k'); [congruence|done].
    + rewrite Forall_forall in Hk. auto.
Qed.

Lemma dict_set_wf k v d : wf_entries d -> wf_value v -> wf_entries (dict_set k v d).
Proof.
  induction d as [|[k' v'] d IH]; simpl; [done|]. intros [? ?] ?.
  case_bool_decide; simpl; [done|]. case_match; simpl; auto.
Qed.

Lemma Decode_wf fuel data :
  (forall pos v pos', Decode fuel data pos = Ok (v, pos') -> wf_value v) /\
  (forall pos acc l pos', decodeList fuel data pos acc = Ok (l, pos') -> wf_values acc -> wf_values l) /\
  (forall pos acc d pos', decodeDict fuel data pos acc = Ok (d, pos') ->
     strictly_sorted (acc.*1) -> wf_entries acc -> strictly_sorted (d.*1) /\ wf_entries d).
Proof.
  induction fuel as [|fuel (IH1 & IH2 & IH3)]; [done|].
  split_and!; intros *; simpl; intros H; repeat case_match; try done;
    repeat inv_step H; simplify_eq; simpl; try done; eauto using wf_values_snoc.
  - unfold decodeInt in *. repeat case_match; simplify_eq. by eapply ParseInt_range.
  - by eapply (IH2 _ []).
  - eapply (IH3 _ []); [done|constructor|done].
  - intros. eapply IH3; [done|by apply dict_set_sorted|apply dict_set_wf; eauto].
Qed.

(** Decoded values are values the encoder accepts. *)
Section reencoding.
Context {float : Type} (FormatFloat : float -> Z -> bytes).

Fixpoint inject (v : BencodeValue) : interface float :=
  match v with
  | VInt z => IInt64 z
  | VString s => IString s
  | VList l => IBencodeList (map inject l)
  | VDict d => IBencodeDict (map (fun kv => (kv.1, inject kv.2)) d)
  end.

Section ind.
Variable P : BencodeValue -> Prop.
Hypothesis Hint : forall z, P (VInt z).
Hypothesis Hstr : forall s, P (VString s).
Hypothesis Hlist : forall l, Forall P l -> P (VList l).
Hypothesis Hdict : forall d, Forall (fun kv => P kv.2) d -> P (VDict d).

Fixpoint BencodeValue_ind' (v : BencodeValue) : P v :=
  match v with
  | VInt z => Hint z
  | VString s => Hstr s
  | VList l =>
      Hlist l ((fix go l : Forall P l :=
        match l with [] => Forall_nil_2 P | x :: l => Forall_cons_2 P x l (BencodeValue_ind' x) (go l) end) l)
  | VDict d =>
      Hdict d ((fix go m : Forall (fun kv => P kv.2) m :=
        match m with [] => Forall_nil_2 _ | (k, x) :: m => Forall_cons_2 (fun kv => P kv.2) (k, x) m (BencodeValue_ind' x) (go m) end) d)
  end.

End ind.

Lemma map_fst_id {A B} (f : A -> B) (d : list (bytes * A)) :
  (map (fun kv => (kv.1, f kv.2)) d).*1 = d.*1.
Proof. induction d as [|[k v] d IH]; csimpl; [done|by rewrite IH]. Qed.

Lemma strictly_sorted_sorted ks : strictly_sorted ks -> StronglySorted bytes_le ks.
Proof. induction 1 as [|k l Hs IH Hk]; constructor; [done|]. eapply Forall_impl; [exact Hk|]. by intros ? []. Qed.

Lemma strictly_sorted_NoDup ks : strictly_sorted ks -> NoDup ks.
Proof.
  induction 1 as [|k l Hs IH Hk]; constructor; [|done].
  intros Hin. rewrite Forall_forall in Hk. by destruct (Hk k Hin).
Qed.

Lemma assoc_NoDup {A} k v (m : list (bytes * A)) : NoDup (m.*1) -> (k, v) ∈ m -> assoc k m = Some v.
Proof.
  induction m as [|[k' v'] m IH]; csimpl; [by intros _ ?%elem_of_nil|].
  intros [Hk Hnd]%NoDup_cons [?|Hin]%elem_of_cons; simplify_eq; [by rewrite bool_decide_true|].
  rewrite bool_decide_false; [auto|]. intros ->. destruct Hk.
  apply list_elem_of_fmap. by exists (k', v).
Qed.

(** A dictionary already in canonical order is its own normal form. *)
Lemma dict_norm_sorted {A} (d : list (bytes * A)) : strictly_sorted (d.*1) -> dict_norm d = d.
Proof.
  intros Hs. unfold dict_norm.
  replace (merge_sort bytes_le d.*1) with (d.*1).
  2:{ apply (StronglySorted_unique bytes_le); [by apply strictly_sorted_sorted|apply StronglySorted_merge_sort; apply _|].
      by rewrite merge_sort_Permutation. }
  assert (forall d', d' ⊆ d -> omap (fun k => (k,.) <$> assoc k d) (d'.*1) = d') as H; [|by apply H].
  apply strictly_sorted_NoDup in Hs.
  induction d' as [|[k v] d' IH]; [done|]. intros Hsub. csimpl.
  rewrite (assoc_NoDup k v) by (try done; apply Hsub; left). csimpl.
  rewrite IH; [done|]. intros x Hx. apply Hsub. by right.
Qed.

Lemma denote_inject v : wf_value v -> denote FormatFloat (inject v) = v.
Proof.
  induction v as [z|s|l IH|d IH] using BencodeValue_ind'; simpl; try done.
  - intros Hwf. f_equal. induction IH as [|v l Hv IH IHl]; [done|]. destruct Hwf. simpl. f_equal; auto.
  - intros [Hs Hwf]. f_equal.
    assert (map (fun kv => (kv.1, denote FormatFloat kv.2)) (map (fun kv => (kv.1, inject kv.2)) d) = d) as ->.
    { clear Hs. induction IH as [|[k v] l Hv IH IHl]; [done|]. destruct Hwf. simpl. f_equal; [f_equal|]; auto. }
    by apply dict_norm_sorted.
Qed.

Lemma wf_inject v : wf_value v -> wf_interface (inject v).
Proof.
  induction v as [z|s|l IH|d IH] using BencodeValue_ind'; simpl; try done.
  - induction IH as [|v l Hv IH IHl]; [done|]. simpl. intros []. auto.
  - intros [Hs Hwf]. split; [rewrite map_fst_id; by apply strictly_sorted_NoDup|].
    clear Hs. induction IH as [|[k v] l Hv IH IHl]; [done|]. simpl in *. destruct Hwf. auto.
Qed.

Lemma encodeItems_total l : Forall (fun o : outcome berror bytes => exists b, o = Ok b) l -> exists r, encodeItems l = Ok r.
Proof. induction 1 as [|? l [b ->] _ [r Hr]]; simpl; [eauto|]. rewrite Hr. simpl. eauto. Qed.

Lemma encodeKeys_total ks m :
  (forall k o, assoc k m = Some o -> exists b, o = Ok b) -> exists r, encodeKeys ks m = Ok r.
Proof.
  intros Hm. induction ks as [|k ks [r Hr]]; simpl; [eauto|].
  destruct (assoc k m) as [o|] eqn:E; simpl.
  - destruct (Hm _ _ E) as [b ->]. simpl. rewrite Hr. simpl. eauto.
  - rewrite Hr. simpl. eauto.
Qed.

Lemma encode_inject v : exists b, encode FormatFloat (inject v) = Ok b.
Proof.
  induction v as [z|s|l IH|d IH] using BencodeValue_ind'; simpl; [eauto..|].
  - unfold encodeList. destruct (encodeItems_total (map (encode FormatFloat) (map inject l))) as [r ->]; simpl; [|eauto].
    apply Forall_map, Forall_map. exact IH.
  - unfold encodeDict. edestruct (encodeKeys_total) as [r Hr]; [|rewrite Hr; simpl; eauto].
    intros k o Ho%assoc_elem_of. rewrite map_map in Ho. apply list_elem_of_fmap in Ho as ([k' v] & ? & Hin).
    simpl in *. simplify_eq. rewrite Forall_forall in IH. by apply (IH (k', v)).
Qed.

End reencoding.

(** ** Lemmas: the iteration order of a Go map does not show *)

Lemma assoc_perm {A} k (m m' : list (bytes * A)) : NoDup (m.*1) -> m ≡ₚ m' -> assoc k m = assoc k m'.
Proof.
  intros Hnd Hp. assert (NoDup (m'.*1)) as Hnd' by (by rewrite <- Hp).
  apply option_eq. intros v. split; intros ?%assoc_elem_of; apply assoc_NoDup; try done.
  - by rewrite <- Hp.
  - by rewrite Hp.
Qed.

Lemma encodeKeys_ext ks m m' : (forall k, assoc k m = assoc k m') -> encodeKeys ks m = encodeKeys ks m'.
Proof. intros H. induction ks as [|k ks IH]; simpl; [done|]. by rewrite H, IH. Qed.

Lemma encodeDict_perm m m' : NoDup (m.*1) -> m ≡ₚ m' -> encodeDict m = encodeDict m'.
Proof.
  intros Hnd Hp. unfold encodeDict.
  replace (merge_sort bytes_le m'.*1) with (merge_sort bytes_le m.*1).
  - by rewrite (encodeKeys_ext _ m m') by (intros; by apply assoc_perm).
  - apply (StronglySorted_unique bytes_le); [apply StronglySorted_merge_sort; apply _..|].
    rewrite !merge_sort_Permutation. by rewrite Hp.
Qed.

(** ** Lemmas: crafted length prefixes *)

Lemma DecodeBencode_string_prefix n rest :
  0 <= n < 2 ^ 63 -> Z.of_nat (length (FormatInt n ++ ":"%char :: rest)) < 2 ^ 63 ->
  DecodeBencode (FormatInt n ++ ":"%char :: rest) =
  (let hd := Z.of_nat (length (FormatInt n)) + 1 in
   if 2 ^ 63 <=? hd + n then Panic
   else if Z.of_nat (length rest) <? n then Err ErrUnexpectedEnd
   else Ok (VString (take (Z.to_nat n) rest))).
Proof.
  intros Hn Hlen. unfold DecodeBencode, decode_fuel.
  replace (2 * length (FormatInt n ++ ":"%char :: rest) + 2)%nat with (S (2 * length (FormatInt n ++ ":"%char :: rest) + 1)) by lia.
  destruct (FormatInt_head n) as (c & l & E & Hc); [lia|].
  cbn [Decode]. rewrite E at 1. simpl.
  assert (c <> "i"%char /\ c <> "l"%char /\ c <> "d"%char) as (?&?&?)
    by (repeat split; intros ->; done).
  rewrite !bool_decide_false, Hc by done.
  unfold decodeString. rewrite drop_0, IndexByte_app by (by apply FormatInt_not_elem).
  rewrite take_app_length, ParseInt_FormatInt by (unfold is_s; lia).
  simpl_len. destruct (Z.ltb_spec n 0); [lia|].
  destruct (Z.leb_spec (2 ^ 63) (Z.of_nat (length (FormatInt n)) + 1 + n)).
  - replace (i64 (Z.of_nat (0 + length (FormatInt n) + 1) + n))
      with (Z.of_nat (length (FormatInt n)) + 1 + n - 2 ^ 64).
    { repeat case_match; bool_prop; try lia. done. }
    unfold wraps. rewrite <- (Z.mod_add _ (-1)) by lia. rewrite Z.mod_small; lia.
  - rewrite wraps_id by (unfold is_s; lia).
    replace (drop (0 + length (FormatInt n) + 1) (FormatInt n ++ ":"%char :: rest)) with rest
      by (by rewrite Nat.add_0_l, drop_app_add).
    repeat case_match; bool_prop; simplify_eq/=; try lia; done.
Qed.

Lemma DecodeBencode_overflow n rest :
  2 ^ 63 - 1 - Z.of_nat (length (FormatInt n)) <= n < 2 ^ 63 ->
  Z.of_nat (length (FormatInt n ++ ":"%char :: rest)) < 2 ^ 63 ->
  DecodeBencode (FormatInt n ++ ":"%char :: rest) = Panic.
Proof.
  intros Hn Hlen. simpl_len. rewrite DecodeBencode_string_prefix by (simpl_len; lia).
  simpl. destruct (Z.leb_spec (2 ^ 63) (Z.of_nat (length (FormatInt n)) + 1 + n)); [done|lia].
Qed.

(** ** The codec's guarantees *)

(** The fuel of [DecodeBencode] is enough. *)
Lemma DecodeBencode_enough_fuel data : DecodeBencode data <> OutOfFuel.
Proof.
  unfold DecodeBencode. intros [H|([v pos] & _ & ?)]%obind_OutOfFuel_inv; [|done].
  revert H. apply Decode_fuel. unfold decode_fuel. lia.
Qed.

Section bencode_guarantees.
Context {float : Type} (FormatFloat : float -> Z -> bytes).

Lemma DecodeBencode_of_encode (v : interface float) b :
  wf_interface v -> EncodeBencode FormatFloat v = Ok b -> Z.of_nat (length b) < 2 ^ 63 ->
  DecodeBencode b = Ok (denote FormatFloat v).
Proof.
  intros Hwf Henc Hlen. destruct (encode_decodes _ _ _ Hwf Henc) as [_ Hdec].
  unfold DecodeBencode, decode_fuel.
  specialize (Hdec [] [] (2 * length b + 2)%nat). cbn [app length] in Hdec.
  rewrite app_nil_r in Hdec. by rewrite Hdec by lia.
Qed.

(** C3: Decoding inverts encoding. Whatever Go value the encoder accepts (integers
    of every width, floats through their text, booleans, strings, byte
    slices, nested lists and maps, nil), decoding its encoding succeeds and
    gives the value it denotes, with every map in key order. *)
Theorem DecodeBencode_EncodeBencode (v : interface float) b :
  wf_interface v -> EncodeBencode FormatFloat v = Ok b -> Z.of_nat (length b) < 2 ^ 63 ->
  DecodeBencode b = Ok (denote FormatFloat v).
Proof. apply DecodeBencode_of_encode. Qed.

(** Every value the decoder returns is canonical (integers within
    [int64], dictionary keys strictly increasing, so no key twice), the
    encoder accepts it, and decoding that encoding gives the same value back. *)
Theorem DecodeBencode_canonical data v :
  DecodeBencode data = Ok v ->
  wf_value v /\
  exists b, EncodeBencode FormatFloat (inject v) = Ok b /\
    (Z.of_nat (length b) < 2 ^ 63 -> DecodeBencode b = Ok v).
Proof.
  intros H. apply obind_Ok_inv in H as ([v' pos] & H & Hv). simplify_eq.
  apply Decode_wf in H as Hwf. split; [done|].
  destruct (encode_inject FormatFloat v) as [b Hb]. exists b. split; [done|]. intros Hlen.
  destruct (encode_decodes _ _ _ (wf_inject _ Hwf) Hb) as [_ Hdec].
  specialize (Hdec [] [] (decode_fuel b)). cbn [app length] in Hdec. rewrite app_nil_r in Hdec.
  unfold DecodeBencode. rewrite Hdec, denote_inject; unfold decode_fuel; (done || lia).
Qed.

(** C39: The decoder terminates on every input, well formed or not: a call
    always ends in a value, an error or a Go panic. *)
Theorem DecodeBencode_terminates data : DecodeBencode data <> OutOfFuel.
Proof. apply DecodeBencode_enough_fuel. Qed.

(** The encoding of a map does not depend on the order in which the
    runtime iterates over it, also when an entry cannot be encoded. *)
Theorem EncodeBencode_iteration_order (m m' : list (bytes * interface float)) :
  NoDup (m.*1) -> m ≡ₚ m' ->
  EncodeBencode FormatFloat (IMap m) = EncodeBencode FormatFloat (IMap m') /\
  EncodeBencode FormatFloat (IBencodeDict m) = EncodeBencode FormatFloat (IBencodeDict m').
Proof.
  intros Hnd Hp.
  assert (encodeDict (map (fun kv => (kv.1, encode FormatFloat kv.2)) m) =
          encodeDict (map (fun kv => (kv.1, encode FormatFloat kv.2)) m')) as H; [|by split].
  apply encodeDict_perm; [by rewrite map_fst_id|]. by apply Permutation_map.
Qed.

End bencode_guarantees.

(** The bounds check of [decodeString] overflows: for every input that is
    a length prefix [n] with [n] plus the length of the prefix at least
    [2^63], the decoder panics instead of returning an error, whatever
    follows the colon. *)
Theorem DecodeBencode_length_overflow_panics n rest :
  2 ^ 63 - 1 - Z.of_nat (length (FormatInt n)) <= n < 2 ^ 63 ->
  Z.of_nat (length (FormatInt n ++ ":"%char :: rest)) < 2 ^ 63 ->
  DecodeBencode (FormatInt n ++ ":"%char :: rest) = Panic.
Proof. apply DecodeBencode_overflow. Qed.

(** ** Witnesses *)

Definition sample_value : interface unit :=
  IMap [(bs "sdp", IString (bs "v=0")); (bs "count", IUint64 (2 ^ 64 - 1));
        (bs "calls", ISlice [IBool true; INil; IBencodeDict [(bs "b", IInt 1); (bs "a", IFloat64 tt)]])].
Definition sample_format (_ : unit) (_ : Z) : bytes := bs "0.5".

Lemma DecodeBencode_EncodeBencode_witness :
  DecodeBencode (bs "d5:callsli1e0:d1:a3:0.51:bi1eee5:counti-1e3:sdp3:v=0e") =
  Ok (VDict [(bs "calls", VList [VInt 1; VString []; VDict [(bs "a", VString (bs "0.5")); (bs "b", VInt 1)]]);
             (bs "count", VInt (-1)); (bs "sdp", VString (bs "v=0"))]).
Proof.
  refine (DecodeBencode_EncodeBencode sample_format sample_value _ _ _ _).
  - simpl. repeat split; repeat constructor; set_solver.
  - vm_compute. reflexivity.
  - vm_compute. reflexivity.
Defined.

Lemma DecodeBencode_canonical_witness :
  wf_value (VDict [(bs "a", VInt 7); (bs "b", VInt 2)]) /\
  exists b, EncodeBencode sample_format (inject (VDict [(bs "a", VInt 7); (bs "b", VInt 2)])) = Ok b /\
    (Z.of_nat (length b) < 2 ^ 63 -> DecodeBencode b = Ok (VDict [(bs "a", VInt 7); (bs "b", VInt 2)])).
Proof.
  apply (DecodeBencode_canonical sample_format (bs "d1:bi1e1:ai+7e1:bi2ee")).
  vm_compute. reflexivity.
Defined.

Lemma EncodeBencode_iteration_order_witness :
  EncodeBencode sample_format (IMap [(bs "b", INil); (bs "a", IOther)]) =
  EncodeBencode sample_format (IMap [(bs "a", IOther); (bs "b", INil)]).
Proof.
  apply (EncodeBencode_iteration_order sample_format [(bs "b", INil); (bs "a", IOther)]).
  - simpl. repeat constructor; set_solver.
  - constructor.
Defined.

Lemma DecodeBencode_length_overflow_panics_witness :
  DecodeBencode (bs "9223372036854775807:abc") = Panic.
Proof.
  apply (DecodeBencode_length_overflow_panics (2 ^ 63 - 1) (bs "abc")); vm_compute; intuition discriminate.
Defined.
