(* ===== verification/JitterBuffer.v ===== *)
(** * The jitter buffer

    Models src/internal/jitter_buffer.go: the wrap-around comparison of RTP
    sequence numbers, the packet heap over [container/heap] with the [index]
    fields its [Swap] maintains, and the buffer itself. Packets are shared
    through pointers by the heap and by the packet map, so the model keeps
    them in a store and both structures hold addresses into it. Prometheus
    counters are not part of the state. *)

From Stdlib Require Import ZArith Lia Floats.SpecFloat.
From stdpp Require Import base numbers list gmap strings sorting.
From S2P Require Import Prelude GoFloat Heap.

Local Open Scope Z_scope.
Local Open Scope go_scope.
#[local] Set Warnings "-clear-no-such-hyp".

(** ** Configuration *)

Record JitterBufferInternalConfig := mkJBConfig {
  MinDelay : Z; MaxDelay : Z; TargetDelay : Z; AdaptiveMode : bool; MaxSize : Z }.
#[export] Instance set_MinDelay : Setter MinDelay := fun f r =>
  mkJBConfig (f (MinDelay r)) (MaxDelay r) (TargetDelay r) (AdaptiveMode r) (MaxSize r).
#[export] Instance set_MaxDelay : Setter MaxDelay := fun f r =>
  mkJBConfig (MinDelay r) (f (MaxDelay r)) (TargetDelay r) (AdaptiveMode r) (MaxSize r).
#[export] Instance set_TargetDelay : Setter TargetDelay := fun f r =>
  mkJBConfig (MinDelay r) (MaxDelay r) (f (TargetDelay r)) (AdaptiveMode r) (MaxSize r).
#[export] Instance set_AdaptiveMode : Setter AdaptiveMode := fun f r =>
  mkJBConfig (MinDelay r) (MaxDelay r) (TargetDelay r) (f (AdaptiveMode r)) (MaxSize r).
#[export] Instance set_MaxSize : Setter MaxSize := fun f r =>
  mkJBConfig (MinDelay r) (MaxDelay r) (TargetDelay r) (AdaptiveMode r) (f (MaxSize r)).

Definition DefaultJitterBufferInternalConfig : JitterBufferInternalConfig :=
  {| MinDelay := 20 * Millisecond; MaxDelay := 200 * Millisecond;
     TargetDelay := 50 * Millisecond; AdaptiveMode := true; MaxSize := 100 |}.

(** The fields of the external [JitterBufferConfig] that are converted. *)
Record JitterBufferConfig := mkExtConfig {
  cfg_MinDelay : Z; cfg_MaxDelay : Z; cfg_TargetDelay : Z; cfg_AdaptiveMode : bool; cfg_MaxSize : Z }.

Definition ToJitterBufferInternalConfig (cfg : option JitterBufferConfig) : JitterBufferInternalConfig :=
  match cfg with
  | None => DefaultJitterBufferInternalConfig
  | Some cfg =>
      {| MinDelay := i64 (i64 (cfg_MinDelay cfg) * Millisecond);
         MaxDelay := i64 (i64 (cfg_MaxDelay cfg) * Millisecond);
         TargetDelay := i64 (i64 (cfg_TargetDelay cfg) * Millisecond);
         AdaptiveMode := cfg_AdaptiveMode cfg;
         MaxSize := cfg_MaxSize cfg |}
  end.

(** ** Packets and the packet heap *)

Record BufferedPacket := mkPacket {
  SequenceNumber : Z; Timestamp : Z; Payload : list Z; ReceivedAt : Z; index : Z }.
#[export] Instance set_SequenceNumber : Setter SequenceNumber := fun f r =>
  mkPacket (f (SequenceNumber r)) (Timestamp r) (Payload r) (ReceivedAt r) (index r).
#[export] Instance set_Timestamp : Setter Timestamp := fun f r =>
  mkPacket (SequenceNumber r) (f (Timestamp r)) (Payload r) (ReceivedAt r) (index r).
#[export] Instance set_Payload : Setter Payload := fun f r =>
  mkPacket (SequenceNumber r) (Timestamp r) (f (Payload r)) (ReceivedAt r) (index r).
#[export] Instance set_ReceivedAt : Setter ReceivedAt := fun f r =>
  mkPacket (SequenceNumber r) (Timestamp r) (Payload r) (f (ReceivedAt r)) (index r).
#[export] Instance set_index : Setter index := fun f r =>
  mkPacket (SequenceNumber r) (Timestamp r) (Payload r) (ReceivedAt r) (f (index r)).

(** [seqLess]: a 16-bit difference read as a signed number. *)
Definition seqLess (a b : Z) : bool :=
  let diff := i16 (u16 (a - b)) in diff <? 0.

(** A [PacketHeap] is a slice of pointers; [mem] holds what they point to. *)
Record PacketHeap := mkPacketHeap { items : list nat; mem : gmap nat BufferedPacket }.

Definition ph_Len (h : PacketHeap) : nat := length (items h).

(** The packet at a heap position, as [h[i]]. *)
Definition ph_at (h : PacketHeap) (i : nat) : option BufferedPacket :=
  l ← items h !! i; mem h !! l.

Definition ph_Less (h : PacketHeap) (i j : nat) : bool :=
  match ph_at h i, ph_at h j with
  | Some p, Some q => seqLess (SequenceNumber p) (SequenceNumber q)
  | _, _ => false
  end.

(** [p.index = i] through a pointer. *)
Definition set_mem_index (i : Z) (l : nat) (m : gmap nat BufferedPacket) : gmap nat BufferedPacket :=
  alter (fun p => p <| index := i |>) l m.

Definition ph_Swap (h : PacketHeap) (i j : nat) : PacketHeap :=
  let its := swap_at i j (items h) in
  match its !! i, its !! j with
  | Some li, Some lj =>
      mkPacketHeap its (set_mem_index (Z.of_nat j) lj (set_mem_index (Z.of_nat i) li (mem h)))
  | _, _ => h
  end.

Definition ph_Push (h : PacketHeap) (l : nat) : PacketHeap :=
  let n := length (items h) in
  mkPacketHeap (items h ++ [l]) (set_mem_index (Z.of_nat n) l (mem h)).

(** The last pointer leaves the slice, its packet's index becomes [-1]. *)
Definition ph_Pop (h : PacketHeap) : option (nat * PacketHeap) :=
  match last (items h) with
  | None => None
  | Some l =>
      Some (l, mkPacketHeap (take (length (items h) - 1) (items h)) (set_mem_index (-1) l (mem h)))
  end.

#[export] Instance PacketHeap_interface : HeapInterface PacketHeap :=
  {| hi_Len := ph_Len; hi_Less := ph_Less; hi_Swap := ph_Swap |}.

(** [heap.Push], [heap.Pop] and [heap.Remove]; [None] is an index out of
    range, a Go panic. *)
Definition heap_Push (h : PacketHeap) (l : nat) : PacketHeap :=
  let h := ph_Push h l in up h (ph_Len h - 1).

Definition heap_Pop (h : PacketHeap) : option (nat * PacketHeap) :=
  if (ph_Len h =? 0)%nat then None
  else
    let n := (ph_Len h - 1)%nat in
    let h := ph_Swap h 0 n in
    let '(h, _) := down h 0 n in
    ph_Pop h.

Definition heap_Remove (h : PacketHeap) (i : Z) : option (nat * PacketHeap) :=
  if (i <? 0) || (Z.of_nat (ph_Len h) <=? i) then None
  else
    let i := Z.to_nat i in
    let n := (ph_Len h - 1)%nat in
    let h :=
      if (n =? i)%nat then h
      else
        let h := ph_Swap h i n in
        let '(h, moved) := down h i n in
        if moved then h else up h i in
    ph_Pop h.

Arguments heap_Push : simpl never.
Arguments heap_Pop : simpl never.
Arguments heap_Remove : simpl never.

(** ** The buffer *)

Record JitterBuffer := mkJB {
  config : JitterBufferInternalConfig;
  sessionID : string;
  clockRate : Z;
  packets : PacketHeap;
  packetMap : gmap Z nat;
  nextExpected : Z;
  initialized : bool;
  currentDelay : Z;
  lastPlayTime : Z;
  packetsIn : Z;
  packetsOut : Z;
  packetsDropped : Z;
  packetsLate : Z;
  reordered : Z;
  jitterEstimate : float64;
  avgDelay : float64 }.
#[export] Instance set_config : Setter config := fun f r =>
  mkJB (f (config r)) (sessionID r) (clockRate r) (packets r) (packetMap r) (nextExpected r) (initialized r) (currentDelay r) (lastPlayTime r) (packetsIn r) (packetsOut r) (packetsDropped r) (packetsLate r) (reordered r) (jitterEstimate r) (avgDelay r).
#[export] Instance set_sessionID : Setter sessionID := fun f r =>
  mkJB (config r) (f (sessionID r)) (clockRate r) (packets r) (packetMap r) (nextExpected r) (initialized r) (currentDelay r) (lastPlayTime r) (packetsIn r) (packetsOut r) (packetsDropped r) (packetsLate r) (reordered r) (jitterEstimate r) (avgDelay r).
#[export] Instance set_clockRate : Setter clockRate := fun f r =>
  mkJB (config r) (sessionID r) (f (clockRate r)) (packets r) (packetMap r) (nextExpected r) (initialized r) (currentDelay r) (lastPlayTime r) (packetsIn r) (packetsOut r) (packetsDropped r) (packetsLate r) (reordered r) (jitterEstimate r) (avgDelay r).
#[export] Instance set_packets : Setter packets := fun f r =>
  mkJB (config r) (sessionID r) (clockRate r) (f (packets r)) (packetMap r) (nextExpected r) (initialized r) (currentDelay r) (lastPlayTime r) (packetsIn r) (packetsOut r) (packetsDropped r) (packetsLate r) (reordered r) (jitterEstimate r) (avgDelay r).
#[export] Instance set_packetMap : Setter packetMap := fun f r =>
  mkJB (config r) (sessionID r) (clockRate r) (packets r) (f (packetMap r)) (nextExpected r) (initialized r) (currentDelay r) (lastPlayTime r) (packetsIn r) (packetsOut r) (packetsDropped r) (packetsLate r) (reordered r) (jitterEstimate r) (avgDelay r).
#[export] Instance set_nextExpected : Setter nextExpected := fun f r =>
  mkJB (config r) (sessionID r) (clockRate r) (packets r) (packetMap r) (f (nextExpected r)) (initialized r) (currentDelay r) (lastPlayTime r) (packetsIn r) (packetsOut r) (packetsDropped r) (packetsLate r) (reordered r) (jitterEstimate r) (avgDelay r).
#[export] Instance set_initialized : Setter initialized := fun f r =>
  mkJB (config r) (sessionID r) (clockRate r) (packets r) (packetMap r) (nextExpected r) (f (initialized r)) (currentDelay r) (lastPlayTime r) (packetsIn r) (packetsOut r) (packetsDropped r) (packetsLate r) (reordered r) (jitterEstimate r) (avgDelay r).
#[export] Instance set_currentDelay : Setter currentDelay := fun f r =>
  mkJB (config r) (sessionID r) (clockRate r) (packets r) (packetMap r) (nextExpected r) (initialized r) (f (currentDelay r)) (lastPlayTime r) (packetsIn r) (packetsOut r) (packetsDropped r) (packetsLate r) (reordered r) (jitterEstimate r) (avgDelay r).
#[export] Instance set_lastPlayTime : Setter lastPlayTime := fun f r =>
  mkJB (config r) (sessionID r) (clockRate r) (packets r) (packetMap r) (nextExpected r) (initialized r) (currentDelay r) (f (lastPlayTime r)) (packetsIn r) (packetsOut r) (packetsDropped r) (packetsLate r) (reordered r) (jitterEstimate r) (avgDelay r).
#[export] Instance set_packetsIn : Setter packetsIn := fun f r =>
  mkJB (config r) (sessionID r) (clockRate r) (packets r) (packetMap r) (nextExpected r) (initialized r) (currentDelay r) (lastPlayTime r) (f (packetsIn r)) (packetsOut r) (packetsDropped r) (packetsLate r) (reordered r) (jitterEstimate r) (avgDelay r).
#[export] Instance set_packetsOut : Setter packetsOut := fun f r =>
  mkJB (config r) (sessionID r) (clockRate r) (packets r) (packetMap r) (nextExpected r) (initialized r) (currentDelay r) (lastPlayTime r) (packetsIn r) (f (packetsOut r)) (packetsDropped r) (packetsLate r) (reordered r) (jitterEstimate r) (avgDelay r).
#[export] Instance set_packetsDropped : Setter packetsDropped := fun f r =>
  mkJB (config r) (sessionID r) (clockRate r) (packets r) (packetMap r) (nextExpected r) (initialized r) (currentDelay r) (lastPlayTime r) (packetsIn r) (packetsOut r) (f (packetsDropped r)) (packetsLate r) (reordered r) (jitterEstimate r) (avgDelay r).
#[export] Instance set_packetsLate : Setter packetsLate := fun f r =>
  mkJB (config r) (sessionID r) (clockRate r) (packets r) (packetMap r) (nextExpected r) (initialized r) (currentDelay r) (lastPlayTime r) (packetsIn r) (packetsOut r) (packetsDropped r) (f (packetsLate r)) (reordered r) (jitterEstimate r) (avgDelay r).
#[export] Instance set_reordered : Setter reordered := fun f r =>
  mkJB (config r) (sessionID r) (clockRate r) (packets r) (packetMap r) (nextExpected r) (initialized r) (currentDelay r) (lastPlayTime r) (packetsIn r) (packetsOut r) (packetsDropped r) (packetsLate r) (f (reordered r)) (jitterEstimate r) (avgDelay r).
#[export] Instance set_jitterEstimate : Setter jitterEstimate := fun f r =>
  mkJB (config r) (sessionID r) (clockRate r) (packets r) (packetMap r) (nextExpected r) (initialized r) (currentDelay r) (lastPlayTime r) (packetsIn r) (packetsOut r) (packetsDropped r) (packetsLate r) (reordered r) (f (jitterEstimate r)) (avgDelay r).
#[export] Instance set_avgDelay : Setter avgDelay := fun f r =>
  mkJB (config r) (sessionID r) (clockRate r) (packets r) (packetMap r) (nextExpected r) (initialized r) (currentDelay r) (lastPlayTime r) (packetsIn r) (packetsOut r) (packetsDropped r) (packetsLate r) (reordered r) (jitterEstimate r) (f (avgDelay r)).

Definition empty_heap : PacketHeap := mkPacketHeap [] ∅.

(** [None] is the panic of [make] with a negative capacity. *)
Definition NewJitterBuffer (sid : string) (rate : Z) (cfg : option JitterBufferInternalConfig) : option JitterBuffer :=
  let cfg := default DefaultJitterBufferInternalConfig cfg in
  if MaxSize cfg <? 0 then None else Some
  {| config := cfg; sessionID := sid; clockRate := rate; packets := empty_heap; packetMap := ∅;
     nextExpected := 0; initialized := false; currentDelay := TargetDelay cfg; lastPlayTime := 0;
     packetsIn := 0; packetsOut := 0; packetsDropped := 0; packetsLate := 0; reordered := 0;
     jitterEstimate := of_int 0; avgDelay := of_int 0 |}.

(** [updateAdaptiveDelay]: [since] is [time.Since(pkt.ReceivedAt)]. *)
Definition updateAdaptiveDelay (jb : JitterBuffer) (since : Z) : JitterBuffer :=
  if packetsIn jb <? 2 then jb
  else
    let delay := Seconds since in
    let avg := fadd (fmul (avgDelay jb) (lit 9 10)) (fmul delay (lit 1 10)) in
    let diff := fsub delay avg in
    let diff := if flt diff (of_int 0) then fneg diff else diff in
    let jitter := fadd (fmul (jitterEstimate jb) (lit 9 10)) (fmul diff (lit 1 10)) in
    let targetDelay := to_int64 (fmul (fadd avg (fmul (of_int 2) jitter)) (of_int Second)) in
    let targetDelay := if targetDelay <? MinDelay (config jb) then MinDelay (config jb) else targetDelay in
    let targetDelay := if targetDelay >? MaxDelay (config jb) then MaxDelay (config jb) else targetDelay in
    let diff2 := of_int (i64 (targetDelay - currentDelay jb)) in
    let adjustment := to_int64 (fmul diff2 (lit 1 10)) in
    jb <| avgDelay := avg |> <| jitterEstimate := jitter |>
       <| currentDelay := i64 (currentDelay jb + adjustment) |>.

(** The start of [Push]: count the packet, and take the first one as the
    start of the stream. *)
Definition push_start (jb : JitterBuffer) (now seq : Z) : JitterBuffer :=
  let jb := jb <| packetsIn ::= fun n => u64 (n + 1) |> in
  if negb (initialized jb) then
    jb <| nextExpected := seq |> <| initialized := true |>
       <| lastPlayTime := Time_Add now (currentDelay jb) |>
  else jb.

(** The overflow branch of [Push]: the oldest packet makes room. *)
Definition push_overflow (jb : JitterBuffer) : option JitterBuffer :=
  match heap_Pop (packets jb) with
  | None => None
  | Some (oldest, h) =>
      match mem h !! oldest with
      | None => None
      | Some p =>
          Some (jb <| packets := h |> <| packetMap ::= delete (SequenceNumber p) |>
                   <| packetsDropped ::= fun n => u64 (n + 1) |>)
      end
  end.

(** [Push]: [now] is the reading of [time.Now] and [now2] the later one in
    [updateAdaptiveDelay]. [None] is the panic of popping an empty heap. *)
Definition Push (jb : JitterBuffer) (now now2 : Z) (seq timestamp : Z) (payload : list Z) : option (JitterBuffer * bool) :=
  let jb := push_start jb now seq in
  match packetMap jb !! seq with
  | Some _ => Some (jb, false)
  | None =>
      if seqLess seq (nextExpected jb) then
        Some (jb <| packetsLate ::= fun n => u64 (n + 1) |>, false)
      else
        match (if MaxSize (config jb) <=? Z.of_nat (ph_Len (packets jb))
               then push_overflow jb else Some jb) with
        | None => None
        | Some jb =>
            let pkt := {| SequenceNumber := seq; Timestamp := timestamp; Payload := payload;
                          ReceivedAt := now; index := 0 |} in
            let l := fresh (dom (mem (packets jb))) in
            let h := mkPacketHeap (items (packets jb)) (<[l := pkt]> (mem (packets jb))) in
            let jb := jb <| packets := heap_Push h l |> <| packetMap ::= <[seq := l]> |> in
            let jb :=
              if negb (seq =? nextExpected jb) && seqLess (nextExpected jb) seq
              then jb <| reordered ::= fun n => u64 (n + 1) |> else jb in
            let jb :=
              if AdaptiveMode (config jb) then updateAdaptiveDelay jb (Time_Sub now2 now) else jb in
            Some (jb, true)
        end
  end.

(** The play-out time after a packet: one clock tick, or 20ms. *)
Definition nextPlayTime (jb : JitterBuffer) (now : Z) : Z :=
  if clockRate jb >? 0 then
    Time_Add now (to_int64 (fdiv (of_int Second) (of_int (clockRate jb))))
  else Time_Add now (20 * Millisecond).

(** [Pop]. The outer [None] is a panic, the inner one "no packet". *)
Definition Pop (jb : JitterBuffer) (now : Z) : option (JitterBuffer * option BufferedPacket) :=
  if (ph_Len (packets jb) =? 0)%nat then Some (jb, None)
  else if Before now (lastPlayTime jb) then Some (jb, None)
  else
    match packetMap jb !! nextExpected jb with
    | Some l =>
        match mem (packets jb) !! l with
        | None => None
        | Some pkt =>
            match heap_Remove (packets jb) (index pkt) with
            | None => None
            | Some (_, h) =>
                match mem h !! l with
                | None => None
                | Some pkt =>
                    Some (jb <| packets := h |>
                             <| packetMap ::= delete (SequenceNumber pkt) |>
                             <| nextExpected ::= fun n => u16 (n + 1) |>
                             <| packetsOut ::= fun n => u64 (n + 1) |>
                             <| lastPlayTime := nextPlayTime jb now |>, Some pkt)
                end
            end
        end
    | None =>
        match ph_at (packets jb) 0 with
        | None => None
        | Some oldestPkt =>
            let waitTime := Time_Sub now (lastPlayTime jb) in
            if waitTime >? MaxDelay (config jb) then
              let jb := jb <| nextExpected := SequenceNumber oldestPkt |> in
              match heap_Pop (packets jb) with
              | None => None
              | Some (l, h) =>
                  match mem h !! l with
                  | None => None
                  | Some pkt =>
                      Some (jb <| packets := h |>
                               <| packetMap ::= delete (SequenceNumber pkt) |>
                               <| nextExpected ::= fun n => u16 (n + 1) |>
                               <| packetsOut ::= fun n => u64 (n + 1) |>
                               <| lastPlayTime := nextPlayTime jb now |>, Some pkt)
                  end
              end
            else Some (jb, None)
        end
    end.

(** The loop of [PopBatch]; [now i] is the reading of the clock in round [i]. *)
Fixpoint pop_loop (n i : nat) (now : nat -> Z) (jb : JitterBuffer) : option (JitterBuffer * list BufferedPacket) :=
  match n with
  | O => Some (jb, [])
  | S n =>
      match Pop jb (now i) with
      | None => None
      | Some (jb, None) => Some (jb, [])
      | Some (jb, Some pkt) =>
          match pop_loop n (S i) now jb with
          | None => None
          | Some (jb, l) => Some (jb, pkt :: l)
          end
      end
  end.
(** A slice of negative capacity cannot be made: the call panics. *)
Definition PopBatch (maxPackets : Z) (now : nat -> Z) (jb : JitterBuffer) : option (JitterBuffer * list BufferedPacket) :=
  if maxPackets <? 0 then None else pop_loop (Z.to_nat maxPackets) 0 now jb.

Definition Flush (jb : JitterBuffer) : JitterBuffer :=
  let jb := jb <| packets := empty_heap |> <| packetMap := ∅ |> in
  jb <| packetsDropped ::= fun n => u64 (n + Z.of_nat (ph_Len (packets jb))) |>.

Definition Reset (jb : JitterBuffer) : JitterBuffer :=
  jb <| packets := empty_heap |> <| packetMap := ∅ |> <| initialized := false |>
     <| packetsIn := 0 |> <| packetsOut := 0 |> <| packetsDropped := 0 |> <| packetsLate := 0 |>
     <| reordered := 0 |> <| jitterEstimate := of_int 0 |> <| avgDelay := of_int 0 |>
     <| currentDelay := TargetDelay (config jb) |>.

Definition Size (jb : JitterBuffer) : nat := ph_Len (packets jb).
Definition IsEmpty (jb : JitterBuffer) : bool := (ph_Len (packets jb) =? 0)%nat.
Definition GetCurrentDelay (jb : JitterBuffer) : Z := currentDelay jb.
Definition GetNextExpected (jb : JitterBuffer) : Z := nextExpected jb.
Definition HasPacket (jb : JitterBuffer) (seq : Z) : bool := bool_decide (is_Some (packetMap jb !! seq)).
Definition PeekNext (jb : JitterBuffer) : option BufferedPacket :=
  l ← packetMap jb !! nextExpected jb; mem (packets jb) !! l.

Definition SetTargetDelay (jb : JitterBuffer) (delay : Z) : JitterBuffer :=
  let delay := if delay <? MinDelay (config jb) then MinDelay (config jb) else delay in
  let delay := if delay >? MaxDelay (config jb) then MaxDelay (config jb) else delay in
  jb <| config ::= fun c => c <| TargetDelay := delay |> |>.

Definition SetAdaptiveMode (jb : JitterBuffer) (enabled : bool) : JitterBuffer :=
  jb <| config ::= fun c => c <| AdaptiveMode := enabled |> |>.

(** [GetStats]. *)
Record JitterBufferStats := mkJBStats {
  st_PacketsIn : Z; st_PacketsOut : Z; st_PacketsDropped : Z; st_PacketsLate : Z; st_Reordered : Z;
  st_CurrentSize : nat; st_CurrentDelay : Z; st_JitterEstimate : float64 }.
Definition GetStats (jb : JitterBuffer) : JitterBufferStats :=
  mkJBStats (packetsIn jb) (packetsOut jb) (packetsDropped jb) (packetsLate jb) (reordered jb)
    (ph_Len (packets jb)) (currentDelay jb) (jitterEstimate jb).

(** ** Lemmas: sequence numbers in a window *)

(** How far [s] is ahead of [base], modulo [2^16]. *)
Definition off (base s : Z) : Z := u16 (s - base).

(** [s] is in the half of the sequence space that starts at [base]. *)
Definition in_window (base s : Z) : Prop := off base s < 2 ^ 15.

Lemma off_range base s : 0 <= off base s < 2 ^ 16.
Proof. apply (wrapu_range 16). lia. Qed.

Lemma i16_u16 x : i16 (u16 x) = i16 x.
Proof. unfold wraps, wrapu. rewrite Z.add_mod_idemp_l by lia. done. Qed.

Lemma off_congr base a b : (off base a - off base b - (a - b)) mod 2 ^ 16 = 0.
Proof.
  unfold off, wrapu.
  pose proof (Z.div_mod (a - base) (2 ^ 16) ltac:(lia)) as Ha.
  pose proof (Z.div_mod (b - base) (2 ^ 16) ltac:(lia)) as Hb.
  replace ((a - base) mod 2 ^ 16 - (b - base) mod 2 ^ 16 - (a - b))
    with ((- ((a - base) / 2 ^ 16) + (b - base) / 2 ^ 16) * 2 ^ 16) by lia.
  apply Z.mod_mul. lia.
Qed.

(** Within a window, the wrap-around comparison is the order of the offsets. *)
Lemma seqLess_window base a b :
  in_window base a -> in_window base b -> seqLess a b = (off base a <? off base b).
Proof.
  intros Ha Hb. unfold in_window in *. pose proof (off_range base a). pose proof (off_range base b).
  unfold seqLess. rewrite i16_u16.
  rewrite <- (wraps_congr 16 (off base a - off base b)) by (try lia; apply off_congr).
  rewrite wraps_id by (unfold is_s; lia).
  destruct (Z.ltb_spec (off base a - off base b) 0), (Z.ltb_spec (off base a) (off base b)); lia.
Qed.

(** A sequence number that is not late is in the window. *)
Lemma seqLess_not_late base s : seqLess s base = false <-> in_window base s.
Proof.
  unfold seqLess, in_window, off. rewrite i16_u16, Z.ltb_ge. unfold wraps, wrapu.
  pose proof (Z.mod_pos_bound (s - base) (2 ^ 16) ltac:(lia)).
  rewrite <- (Z.add_mod_idemp_l (s - base)) by lia.
  set (x := (s - base) mod 2 ^ 16) in *.
  destruct (Z.lt_ge_cases x (2 ^ 15)).
  - rewrite Z.mod_small; lia.
  - replace (x + 2 ^ (16 - 1)) with (x - 2 ^ 15 + 1 * 2 ^ 16) by lia.
    rewrite Z.mod_add, Z.mod_small by lia. lia.
Qed.

(** Moving the base of the window forward by at most the offset of [s]. *)
Lemma off_advance base d s : 0 <= d <= off base s -> off (u16 (base + d)) s = off base s - d.
Proof.
  intros Hd. pose proof (off_range base s). unfold off, wrapu in *.
  rewrite Zminus_mod_idemp_r. replace (s - (base + d)) with (s - base - d) by lia.
  rewrite <- Zminus_mod_idemp_l. apply Z.mod_small. lia.
Qed.

Lemma off_self base : off base base = 0.
Proof. unfold off. by rewrite Z.sub_diag. Qed.

Lemma off_eq base s t : is_u 16 s -> is_u 16 t -> off base s = off base t -> s = t.
Proof.
  intros Hs Ht H. unfold is_u in *. pose proof (off_congr base s t) as E.
  rewrite H, Z.sub_diag in E.
  apply Z.mod_divide in E as [k E]; lia.
Qed.

Lemma off_0_eq base s : is_u 16 s -> is_u 16 base -> off base s = 0 -> s = base.
Proof. intros ?? H. apply (off_eq base); [done..|]. by rewrite off_self. Qed.

(** ** Lemmas: the packet heap *)

Definition pkt_seq (m : gmap nat BufferedPacket) (l : nat) : Z :=
  default 0 (SequenceNumber <$> m !! l).

(** The pointers are live and the packets are in the window from [base]. *)
Definition heap_window (base : Z) (h : PacketHeap) : Prop :=
  Forall (fun l => is_Some (mem h !! l) /\ in_window base (pkt_seq (mem h) l)) (items h).
Definition heap_keys (base : Z) (h : PacketHeap) : list Z :=
  (fun l => off base (pkt_seq (mem h) l)) <$> items h.

Definition erase (p : BufferedPacket) : BufferedPacket := p <| index := 0 |>.
(** The packets of two stores agree on everything but their heap index. *)
Definition same_packets (m m' : gmap nat BufferedPacket) : Prop :=
  forall l, erase <$> m !! l = erase <$> m' !! l.

#[export] Instance same_packets_equiv : Equivalence same_packets.
Proof. split; unfold same_packets; [done|by intros m m' H l; rewrite H|by intros ??? H1 H2 l; rewrite H1]. Qed.

Lemma same_packets_seq m m' l : same_packets m m' -> pkt_seq m l = pkt_seq m' l.
Proof.
  intros H. specialize (H l). unfold pkt_seq.
  destruct (m !! l) as [p|], (m' !! l) as [q|]; simpl in *; try done.
  injection H. intros. by simplify_eq.
Qed.

Lemma same_packets_Some m m' l : same_packets m m' -> is_Some (m !! l) <-> is_Some (m' !! l).
Proof.
  intros H. specialize (H l).
  destruct (m !! l), (m' !! l); simpl in *; split; intros [? ?]; (done || eauto).
Qed.

Lemma same_packets_window base its m m' :
  same_packets m m' -> heap_window base (mkPacketHeap its m) -> heap_window base (mkPacketHeap its m').
Proof.
  intros Hm. unfold heap_window. simpl. intros H. eapply Forall_impl; [exact H|]. simpl.
  intros l [? ?]. rewrite <- (same_packets_seq m m') by done. split; [|done].
  by apply (same_packets_Some m m').
Qed.

Lemma same_packets_keys base its m m' :
  same_packets m m' -> heap_keys base (mkPacketHeap its m) = heap_keys base (mkPacketHeap its m').
Proof.
  intros Hm. unfold heap_keys. simpl. apply list_fmap_ext. intros _ l _. by rewrite (same_packets_seq m m').
Qed.

Lemma set_mem_index_same i l m : same_packets (set_mem_index i l m) m.
Proof.
  intros l'. unfold set_mem_index. rewrite lookup_alter. case_decide; subst; [|done].
  by destruct (m !! l').
Qed.

Lemma swap_at_fmap {A B} (f : A -> B) i j (l : list A) : swap_at i j (f <$> l) = f <$> swap_at i j l.
Proof.
  unfold swap_at. rewrite !list_lookup_fmap.
  destruct (l !! i), (l !! j); simpl; [|done..]. by rewrite !list_fmap_insert.
Qed.

Lemma swap_at_lookup {A} i j (l : list A) :
  (i < length l)%nat -> (j < length l)%nat ->
  swap_at i j l !! i = l !! j /\ swap_at i j l !! j = l !! i /\
  (forall k, k <> i -> k <> j -> swap_at i j l !! k = l !! k).
Proof.
  intros Hi Hj. unfold swap_at.
  destruct (lookup_lt_is_Some_2 l i Hi) as [x Hx], (lookup_lt_is_Some_2 l j Hj) as [y Hy].
  rewrite Hx, Hy. split_and!.
  - by rewrite list_lookup_insert_eq by (by rewrite length_insert).
  - destruct (decide (i = j)) as [->|]; [rewrite list_lookup_insert_eq by (by rewrite length_insert); congruence|].
    by rewrite list_lookup_insert_ne, list_lookup_insert_eq.
  - intros k ??. by rewrite !list_lookup_insert_ne.
Qed.

(** [Swap] exchanges two pointers and rewrites their indices. *)
Lemma ph_Swap_spec h i j :
  (i < length (items h))%nat -> (j < length (items h))%nat ->
  items (ph_Swap h i j) = swap_at i j (items h) /\ same_packets (mem (ph_Swap h i j)) (mem h).
Proof.
  intros Hi Hj. unfold ph_Swap. destruct (swap_at_lookup i j (items h)) as (-> & -> & _); [done..|].
  destruct (lookup_lt_is_Some_2 _ _ Hi) as [x ->], (lookup_lt_is_Some_2 _ _ Hj) as [y ->].
  split; [done|]. simpl. etrans; apply set_mem_index_same.
Qed.

#[export] Instance PacketHeap_laws base : HeapLaws PacketHeap (heap_window base) (heap_keys base).
Proof.
  split.
  - intros h _. unfold heap_keys. by rewrite length_fmap.
  - intros h i j x y Hw Hx Hy. unfold heap_keys in *.
    rewrite list_lookup_fmap in Hx, Hy.
    destruct (items h !! i) as [li|] eqn:Ei, (items h !! j) as [lj|] eqn:Ej; simplify_eq/=.
    unfold heap_window in Hw. rewrite Forall_forall in Hw.
    destruct (Hw li) as [[pi Hpi] Hwi]; [by eapply list_elem_of_lookup_2|].
    destruct (Hw lj) as [[pj Hpj] Hwj]; [by eapply list_elem_of_lookup_2|].
    unfold hi_Less, ph_Less, ph_at. simpl. rewrite Ei, Ej. simpl. rewrite Hpi, Hpj.
    unfold pkt_seq in *. rewrite Hpi, Hpj in *. simpl in *. by apply seqLess_window.
  - intros h i j Hw Hi Hj. unfold heap_keys in *. rewrite length_fmap in *.
    destruct (ph_Swap_spec h i j) as [E Hm]; [done..|]. simpl. rewrite E, swap_at_fmap.
    apply list_fmap_ext. intros _ l _. by rewrite (same_packets_seq _ _ l Hm).
  - intros h i j Hw Hi Hj. unfold heap_keys in *. rewrite length_fmap in *.
    destruct (ph_Swap_spec h i j) as [E Hm]; [done..|]. unfold heap_window in *. simpl. rewrite E.
    rewrite swap_at_perm. eapply Forall_impl; [exact Hw|]. simpl. intros l [? ?].
    rewrite (same_packets_seq _ _ l Hm). split; [|done]. by apply (same_packets_Some _ _ l Hm).
Qed.

(** Every packet in the heap knows its position. *)
Definition index_ok (h : PacketHeap) : Prop :=
  forall i l, items h !! i = Some l -> exists p, mem h !! l = Some p /\ index p = Z.of_nat i.

(** The invariant of the packet heap, relative to the start of the window. *)
Record heap_wf (base : Z) (h : PacketHeap) : Prop := {
  hw_nodup : NoDup (items h);
  hw_window : heap_window base h;
  hw_index : index_ok h;
  hw_heap : is_heap (heap_keys base h) (length (items h));
}.

(** What [up] and [down] keep of a heap: pointers up to order, indices, and
    the packets themselves. *)
Definition reordering (h h' : PacketHeap) : Prop :=
  items h' ≡ₚ items h /\ same_packets (mem h') (mem h) /\ index_ok h'.

Lemma set_mem_index_lookup i l m l' :
  set_mem_index i l m !! l' =
  if decide (l = l') then (fun p => p <| index := i |>) <$> m !! l' else m !! l'.
Proof. unfold set_mem_index. rewrite lookup_alter. case_decide; [by subst|done]. Qed.

Lemma ph_Swap_index h i j :
  (i < length (items h))%nat -> (j < length (items h))%nat -> NoDup (items h) ->
  index_ok h -> index_ok (ph_Swap h i j).
Proof.
  intros Hi Hj Hnd Hidx k l. unfold ph_Swap.
  destruct (swap_at_lookup i j (items h)) as (Ei & Ej & Ek); [done..|].
  destruct (lookup_lt_is_Some_2 _ _ Hi) as [li Hli], (lookup_lt_is_Some_2 _ _ Hj) as [lj Hlj].
  rewrite Ei, Ej, Hli, Hlj. simpl. rewrite !set_mem_index_lookup. intros Hk.
  destruct (Hidx _ _ Hli) as (pi & Hpi & Hii), (Hidx _ _ Hlj) as (pj & Hpj & Hij).
  destruct (decide (k = j)) as [->|Hkj].
  { assert (l = li) as -> by congruence. rewrite decide_True by done.
    rewrite Hpi. case_decide; simpl; eauto. }
  destruct (decide (k = i)) as [->|Hki].
  { assert (l = lj) as -> by congruence.
    rewrite decide_False by (intros ->; apply Hkj; by eapply NoDup_lookup).
    rewrite decide_True, Hpj by done. simpl. eauto. }
  rewrite Ek in Hk by done. destruct (Hidx _ _ Hk) as (p & Hp & Hip).
  assert (li <> l) by (intros ->; destruct Hki; by eapply NoDup_lookup).
  assert (lj <> l) by (intros ->; destruct Hkj; by eapply NoDup_lookup).
  rewrite !decide_False by done. eauto.
Qed.

Lemma reordering_stable base h0 n :
  NoDup (items h0) -> swap_stable (hi_inv := heap_window base) (keys := heap_keys base) n (reordering h0).
Proof.
  intros Hnd h i j _ Hn Hi Hj (Hp & Hm & Hidx). unfold heap_keys in Hn. rewrite length_fmap in Hn.
  destruct (ph_Swap_spec h i j) as [E Hm']; [lia..|]. unfold reordering. simpl. rewrite E.
  split_and!.
  - by rewrite swap_at_perm.
  - by rewrite Hm'.
  - apply ph_Swap_index; [lia..| |done]. by rewrite Hp.
Qed.

Lemma reordering_refl h : index_ok h -> reordering h h.
Proof. done. Qed.

Lemma is_heap_ext l l' n : (forall k, (k < n)%nat -> at_ l k = at_ l' k) -> is_heap l n -> is_heap l' n.
Proof. intros H Hh k Hk. pose proof (parent_lt k ltac:(lia)). unfold ok. rewrite <- !H by lia. by apply Hh. Qed.

(** [h.Push] then [up]. *)
Lemma heap_Push_spec base h l p :
  heap_wf base h -> l ∉ items h -> mem h !! l = Some p -> in_window base (SequenceNumber p) ->
  heap_wf base (heap_Push h l) /\ items (heap_Push h l) ≡ₚ l :: items h /\
  same_packets (mem (heap_Push h l)) (mem h).
Proof.
  intros [Hnd Hw Hidx Hh] Hl Hp Hwin. unfold heap_Push.
  set (h1 := ph_Push h l). set (n := length (items h)).
  assert (items h1 = items h ++ [l]) as E1 by done.
  assert (same_packets (mem h1) (mem h)) as Hm1 by apply set_mem_index_same.
  assert (pkt_seq (mem h) l = SequenceNumber p) as Hseq by (unfold pkt_seq; by rewrite Hp).
  assert (NoDup (items h1)) as Hnd1.
  { rewrite E1, (Permutation_app_comm _ [l]). simpl. by constructor. }
  assert (heap_window base h1) as Hw1.
  { apply (same_packets_window base (items h1) (mem h)); [by symmetry|].
    unfold heap_window. simpl. apply Forall_app. split; [exact Hw|].
    constructor; [|done]. rewrite Hseq. eauto. }
  assert (index_ok h1) as Hidx1.
  { intros i l' Hi. rewrite E1 in Hi. simpl. rewrite set_mem_index_lookup.
    apply lookup_app_Some in Hi as [Hi|[Hge Hi]].
    - rewrite decide_False by (intros ->; apply Hl; by eapply list_elem_of_lookup_2). by apply Hidx.
    - fold n in Hge. apply list_lookup_singleton_Some in Hi as [Hi <-].
      rewrite decide_True, Hp by done. simpl. eexists. split; [done|]. simpl. fold n. lia. }
  assert (length (heap_keys base h1) = S n) as Hlen by (unfold heap_keys; rewrite length_fmap, E1, length_app; simpl; lia).
  assert (ph_Len h1 - 1 = n)%nat as -> by (unfold ph_Len; rewrite E1, length_app; simpl; lia).
  destruct (up_spec h1 n Hw1) as (Hw2 & Hh2 & _ & Hst).
  - lia.
  - split.
    + intros k Hk Hkn. assert (k < n)%nat by lia.
      apply (is_heap_ext (heap_keys base h) (heap_keys base h1) n); [|done|lia].
      intros k' Hk'. unfold at_, heap_keys. rewrite !list_lookup_total_alt, !list_lookup_fmap, E1.
      rewrite lookup_app_l by done. destruct (items h !! k'); simpl; [|done].
      by rewrite (same_packets_seq _ _ _ Hm1).
    + intros k Hk Hkp _. pose proof (parent_lt k ltac:(lia)). lia.
  - destruct (Hst (reordering h1)) as (Hp' & Hm' & Hidx'); [by apply reordering_stable|by apply reordering_refl|].
    split_and!.
    + split; [by rewrite Hp'|done|done|]. rewrite Hp', E1, length_app. simpl.
      by rewrite Hlen in Hh2; rewrite Nat.add_1_r.
    + rewrite Hp', E1, Permutation_app_comm. done.
    + by rewrite Hm'.
Qed.

(** Dropping the last element of a slice whose first part is a heap. *)
Lemma ph_Pop_spec base h n l :
  NoDup (items h) -> heap_window base h -> index_ok h -> is_heap (heap_keys base h) n ->
  length (items h) = S n -> items h !! n = Some l ->
  exists h', ph_Pop h = Some (l, h') /\ heap_wf base h' /\ items h ≡ₚ l :: items h' /\
    same_packets (mem h') (mem h).
Proof.
  intros Hnd Hw Hidx Hh Hlen Hl.
  assert (items h = take n (items h) ++ [l]) as E.
  { rewrite <- (take_drop n (items h)) at 1. f_equal.
    rewrite (drop_S _ l) by done. rewrite drop_ge by lia. done. }
  assert (last (items h) = Some l) as Hlast by (by rewrite E, last_snoc).
  unfold ph_Pop. rewrite Hlast, Hlen. simpl. rewrite Nat.sub_0_r.
  set (m' := set_mem_index (-1) l (mem h)).
  assert (same_packets m' (mem h)) as Hm by apply set_mem_index_same.
  rewrite E in Hnd. apply NoDup_app in Hnd as (Hnd & Hdisj & _).
  eexists. split; [done|]. split_and!.
  - split; simpl.
    + done.
    + apply (same_packets_window base _ (mem h)); [by symmetry|].
      unfold heap_window in *. simpl. rewrite E in Hw. by apply Forall_app in Hw as [? _].
    + intros i l' Hi. simpl in *. unfold m'. rewrite set_mem_index_lookup.
      rewrite decide_False.
      * apply Hidx. rewrite E. by apply lookup_app_l_Some.
      * intros ->. apply (Hdisj l'); [by eapply list_elem_of_lookup_2|by left].
    + rewrite length_take, Hlen. replace (n `min` S n)%nat with n by lia.
      eapply is_heap_ext; [|exact Hh]. intros k Hk.
      unfold at_, heap_keys. simpl. rewrite !list_lookup_total_alt, !list_lookup_fmap.
      rewrite lookup_take_lt by done. destruct (items h !! k); simpl; [|done].
      by rewrite (same_packets_seq _ _ _ Hm).
  - simpl. rewrite E at 1. by rewrite Permutation_app_comm.
  - done.
Qed.

Lemma heap_keys_length base h : length (heap_keys base h) = length (items h).
Proof. unfold heap_keys. by rewrite length_fmap. Qed.

Lemma heap_keys_Swap base h i j :
  heap_window base h -> (i < length (items h))%nat -> (j < length (items h))%nat ->
  heap_keys base (ph_Swap h i j) = swap_at i j (heap_keys base h).
Proof. rewrite <- !(heap_keys_length base). apply (hi_Swap_keys (HeapLaws := PacketHeap_laws base)). Qed.

Lemma heap_window_Swap base h i j :
  heap_window base h -> (i < length (items h))%nat -> (j < length (items h))%nat ->
  heap_window base (ph_Swap h i j).
Proof. rewrite <- !(heap_keys_length base). apply (hi_Swap_inv (HeapLaws := PacketHeap_laws base)). Qed.

Lemma swap_at_self {A} i (l : list A) : swap_at i i l = l.
Proof. unfold swap_at. destruct (l !! i) eqn:E; [|done]. by rewrite list_insert_insert_eq, list_insert_id. Qed.

(** Exchanging position [i] with the last one leaves a hole at [i]. *)
Lemma swap_last_hole (l : list Z) n i :
  length l = S n -> (i < n)%nat -> is_heap l (S n) -> heap_hole (swap_at i n l) n i.
Proof.
  intros Hlen Hi Hh. split.
  - intros k Hk Hki Hkp. pose proof (parent_lt k ltac:(lia)). unfold ok.
    rewrite !at_swap by lia. repeat case_decide; try lia. apply (Hh k). lia.
  - intros k Hk Hkp Hi0. pose proof (parent_lt k ltac:(lia)). pose proof (parent_lt i Hi0).
    rewrite !at_swap by lia. repeat case_decide; try lia.
    pose proof (Hh k ltac:(lia)) as Hok1. pose proof (Hh i ltac:(lia)) as Hok2.
    unfold ok in *. rewrite Hkp in Hok1. lia.
Qed.

(** [heap.Remove] at a position of the heap takes out exactly that pointer. *)
Lemma heap_Remove_spec base h i l :
  heap_wf base h -> items h !! i = Some l ->
  exists h', heap_Remove h (Z.of_nat i) = Some (l, h') /\ heap_wf base h' /\
    items h ≡ₚ l :: items h' /\ same_packets (mem h') (mem h).
Proof.
  intros [Hnd Hw Hidx Hh] Hl. pose proof (lookup_lt_Some _ _ _ Hl) as Hi.
  unfold heap_Remove, ph_Len.
  destruct (Z.ltb_spec (Z.of_nat i) 0), (Z.leb_spec (Z.of_nat (length (items h))) (Z.of_nat i)); try lia.
  simpl. rewrite Nat2Z.id. destruct (length (items h)) as [|n] eqn:Hn; [lia|].
  simpl. rewrite Nat.sub_0_r.
  destruct (Nat.eqb_spec n i) as [->|Hne].
  { apply (ph_Pop_spec base h i l); try done. intros k Hk. apply Hh. lia. }
  set (h1 := ph_Swap h i n).
  destruct (ph_Swap_spec h i n) as [E1 Hm1]; [lia..|]. fold h1 in E1, Hm1.
  destruct (swap_at_lookup i n (items h)) as (_ & En & _); [lia..|]. rewrite Hl, <- E1 in En.
  assert (index_ok h1) as Hidx1 by (apply ph_Swap_index; (done || lia)).
  assert (heap_keys base h1 = swap_at i n (heap_keys base h)) as Hk1
    by (apply heap_keys_Swap; rewrite ?heap_keys_length; (done || lia)).
  assert (heap_window base h1) as Hw1
    by (apply heap_window_Swap; rewrite ?heap_keys_length; (done || lia)).
  assert (length (items h1) = S n) as Hlen1 by (by rewrite E1, swap_at_length).
  assert (NoDup (items h1)) as Hnd1 by (by rewrite E1, swap_at_perm).
  pose proof (down_spec (hi_inv := heap_window base) (keys := heap_keys base) h1 n i Hw1 ltac:(lia)) as Hd.
  rewrite heap_keys_length in Hd. specialize (Hd ltac:(lia)).
  destruct (down h1 i n) as [h2 moved].
  destruct Hd as (Hw2 & Hex & Hmoved & _ & Hst).
  { rewrite Hk1. apply swap_last_hole; [by rewrite heap_keys_length|lia|done]. }
  set (kept h' := reordering h1 h' /\ items h' !! n = Some l).
  assert (forall m, (m <= n)%nat -> swap_stable (hi_inv := heap_window base) (keys := heap_keys base) m kept) as Hkept.
  { intros m Hm h' a b Hw' Hlen' Ha Hb [Hre Hl'].
    split; [apply (reordering_stable base h1 m); (done || lia)|].
    change (items (ph_Swap h' a b) !! n = Some l).
    rewrite heap_keys_length in Hlen'. destruct (ph_Swap_spec h' a b) as [-> _]; [lia..|].
    destruct (swap_at_lookup a b (items h')) as (_ & _ & Hk); [lia..|]. rewrite Hk by lia. done. }
  assert (kept h2) as [(Hp2 & Hm2 & Hidx2) Hl2] by (apply Hst; [by apply Hkept|done]).
  assert (length (items h2) = S n) as Hlen2 by (by rewrite Hp2).
  assert (exists h3, (if moved then h2 else up h2 i) = h3 /\ heap_window base h3 /\
    is_heap (heap_keys base h3) n /\ kept h3) as (h3 & -> & Hw3 & Hh3 & (Hp3 & Hm3 & Hidx3) & Hl3).
  { destruct moved; [exists h2; specialize (Hmoved eq_refl); by do 3 (split; [done|])|].
    destruct (up_loop_spec (S i) h2 n i Hw2) as (? & ? & _ & Hst3); try done; try lia.
    { rewrite heap_keys_length. lia. }
    exists (up h2 i). do 3 (split; [done|]). apply (Hst3 kept); [by apply Hkept|done]. }
  destruct (ph_Pop_spec base h3 n l) as (h' & Hpop & Hwf' & Hp' & Hm'); try done; [by rewrite Hp3|by rewrite Hp3|].
  exists h'. split_and!; try done.
  - rewrite <- Hp', Hp3, E1. by rewrite swap_at_perm.
  - by rewrite Hm', Hm3, Hm1.
Qed.

(** [heap.Pop] is [heap.Remove] of the root. *)
Lemma heap_Pop_Remove h : heap_Pop h = heap_Remove h 0.
Proof.
  unfold heap_Pop, heap_Remove, ph_Len. destruct (items h) as [|l its] eqn:E; [done|].
  rewrite <- E. assert (length (items h) = S (length its)) as -> by (by rewrite E). simpl.
  rewrite Nat.sub_0_r.
  destruct its as [|l2 its]; simpl.
  - unfold ph_Swap. rewrite swap_at_self, E. simpl. unfold ph_Pop, down. simpl. rewrite E. simpl.
    do 2 f_equal. f_equal. apply map_eq. intros l'.
    rewrite !set_mem_index_lookup. case_decide; [|done]. by destruct (mem h !! l').
  - change (Z.to_nat 0) with 0%nat.
    by destruct (down (ph_Swap h 0 (S (length its))) 0 (S (length its))) as [h2 [|]].
Qed.

Lemma heap_Pop_spec base h l :
  heap_wf base h -> items h !! 0%nat = Some l ->
  exists h', heap_Pop h = Some (l, h') /\ heap_wf base h' /\
    items h ≡ₚ l :: items h' /\ same_packets (mem h') (mem h) /\
    (forall l', l' ∈ items h -> off base (pkt_seq (mem h) l) <= off base (pkt_seq (mem h) l')).
Proof.
  intros Hwf Hl. rewrite heap_Pop_Remove. change 0 with (Z.of_nat 0).
  destruct (heap_Remove_spec base h 0 l Hwf Hl) as (h' & ? & ? & ? & ?).
  exists h'. split_and!; try done. intros l' [i Hi]%list_elem_of_lookup.
  pose proof (heap_min _ _ i (hw_heap _ _ Hwf) (lookup_lt_Some _ _ _ Hi)) as Hmin.
  unfold at_, heap_keys in Hmin.
  by rewrite !list_lookup_total_alt, !list_lookup_fmap, Hl, Hi in Hmin.
Qed.

(** ** The invariant of the buffer *)

Record jb_wf (jb : JitterBuffer) : Prop := {
  (** the heap holds the packets of the window that starts at [nextExpected] *)
  jw_heap : heap_wf (nextExpected jb) (packets jb);
  (** the map finds exactly the packets of the heap, by sequence number *)
  jw_map : forall s l, packetMap jb !! s = Some l <->
    l ∈ items (packets jb) /\ pkt_seq (mem (packets jb)) l = s;
  jw_u16 : is_u 16 (nextExpected jb);
  jw_seq_u16 : forall l, l ∈ items (packets jb) -> is_u 16 (pkt_seq (mem (packets jb)) l);
  jw_init : initialized jb = false -> items (packets jb) = [];
  jw_max : 1 <= MaxSize (config jb);
  jw_size : Z.of_nat (Size jb) <= MaxSize (config jb);
}.

(** Two packets of the buffer never share a sequence number. *)
Lemma jw_seq_inj jb l l' :
  jb_wf jb -> l ∈ items (packets jb) -> l' ∈ items (packets jb) ->
  pkt_seq (mem (packets jb)) l = pkt_seq (mem (packets jb)) l' -> l = l'.
Proof.
  intros Hwf Hl Hl' E. pose proof (jw_map _ Hwf) as Hm.
  assert (packetMap jb !! pkt_seq (mem (packets jb)) l = Some l) as H1 by (by apply Hm).
  assert (packetMap jb !! pkt_seq (mem (packets jb)) l' = Some l') as H2 by (by apply Hm).
  rewrite E in H1. congruence.
Qed.

Lemma heap_wf_mem base h l : heap_wf base h -> l ∈ items h -> exists p, mem h !! l = Some p /\ pkt_seq (mem h) l = SequenceNumber p.
Proof.
  intros Hwf Hl. pose proof (hw_window _ _ Hwf) as Hw. unfold heap_window in Hw. rewrite Forall_forall in Hw.
  destruct (Hw l Hl) as [[p Hp] _]. exists p. split; [done|]. unfold pkt_seq. by rewrite Hp.
Qed.

Lemma heap_wf_window base h l : heap_wf base h -> l ∈ items h -> in_window base (pkt_seq (mem h) l).
Proof.
  intros Hwf Hl. pose proof (hw_window _ _ Hwf) as Hw. unfold heap_window in Hw. rewrite Forall_forall in Hw.
  by apply Hw.
Qed.

(** Advancing the window past packets that are no longer in the heap keeps
    the heap well formed: the offsets all shrink by the same amount. *)
Lemma heap_wf_advance base d h :
  0 <= d -> heap_wf base h -> (forall l, l ∈ items h -> d <= off base (pkt_seq (mem h) l)) ->
  heap_wf (u16 (base + d)) h.
Proof.
  intros Hd [Hnd Hw Hidx Hh] Hall. unfold heap_window in Hw. rewrite Forall_forall in Hw. split; try done.
  - unfold heap_window. rewrite Forall_forall. intros l Hl. destruct (Hw l Hl) as [? Hwin].
    split; [done|]. unfold in_window in *. rewrite off_advance by (split; auto). lia.
  - intros k Hk. specialize (Hh k Hk) as Hok. pose proof (parent_lt k ltac:(lia)).
    unfold ok, at_, heap_keys in *. rewrite !list_lookup_total_alt, !list_lookup_fmap in *.
    destruct (lookup_lt_is_Some_2 (items h) k) as [x Hx]; [lia|].
    destruct (lookup_lt_is_Some_2 (items h) (parent k)) as [y Hy]; [lia|].
    rewrite Hx, Hy in *. simpl in *.
    rewrite !off_advance by (split; [lia|]; apply Hall; by eapply list_elem_of_lookup_2). lia.
Qed.

(** Removing a pointer from the heap and its sequence number from the map. *)
Lemma packetMap_delete (pm : gmap Z nat) h h' l :
  (forall s x, pm !! s = Some x <-> x ∈ items h /\ pkt_seq (mem h) x = s) ->
  NoDup (items h) -> items h ≡ₚ l :: items h' -> same_packets (mem h') (mem h) ->
  forall s x, delete (pkt_seq (mem h) l) pm !! s = Some x <-> x ∈ items h' /\ pkt_seq (mem h') x = s.
Proof.
  intros Hm Hnd Hp Hsame s x. rewrite (same_packets_seq _ _ _ Hsame).
  assert (l ∈ items h) as Hl by (rewrite Hp; by left).
  assert (l ∉ items h') as Hl' by (rewrite Hp in Hnd; apply NoDup_cons in Hnd; tauto).
  rewrite lookup_delete_Some, Hm, Hp, elem_of_cons. split.
  - intros [Hne [[->|?] Hs]]; [congruence|done].
  - intros [Hx Hs]. split; [|by auto]. intros Heq.
    assert (pm !! s = Some x) as H1 by (apply Hm; rewrite Hp; split; [by right|done]).
    assert (pm !! s = Some l) as H2 by (apply Hm; rewrite Hp; split; [by left|done]).
    rewrite H1 in H2. congruence.
Qed.

Lemma heap_wf_nil base h : items h = [] -> heap_wf base h.
Proof.
  intros E. split; unfold heap_window, index_ok, heap_keys; rewrite E;
    [constructor|constructor|done|intros k Hk; simpl in Hk; lia].
Qed.

(** The invariant only concerns the stored packets and the window. *)
Lemma jb_wf_ext jb jb' :
  jb_wf jb -> packets jb' = packets jb -> packetMap jb' = packetMap jb ->
  nextExpected jb' = nextExpected jb -> (initialized jb' = false -> initialized jb = false) ->
  MaxSize (config jb') = MaxSize (config jb) -> jb_wf jb'.
Proof.
  intros [? ? ? ? ? ? ?] Hp Hm Hn Hi Hc. split; unfold Size in *; rewrite ?Hp, ?Hm, ?Hn, ?Hc; auto.
Qed.

(** The abstract contents of a buffer: its packets by sequence number, with
    the heap index forgotten. *)
Definition contents_of (pm : gmap Z nat) (m : gmap nat BufferedPacket) : gmap Z BufferedPacket :=
  omap (fun l => erase <$> m !! l) pm.
Definition contents (jb : JitterBuffer) : gmap Z BufferedPacket :=
  contents_of (packetMap jb) (mem (packets jb)).

Lemma contents_of_same pm m m' : same_packets m m' -> contents_of pm m = contents_of pm m'.
Proof. intros H. unfold contents_of. apply map_eq. intros s. rewrite !lookup_omap. by destruct (pm !! s); simpl. Qed.

Lemma contents_of_delete pm m s : contents_of (delete s pm) m = delete s (contents_of pm m).
Proof. unfold contents_of. apply omap_delete. Qed.

Lemma contents_lookup jb s l p :
  packetMap jb !! s = Some l -> mem (packets jb) !! l = Some p -> contents jb !! s = Some (erase p).
Proof. intros H1 H2. unfold contents, contents_of. by rewrite lookup_omap, H1; simpl; rewrite H2. Qed.

Lemma contents_None jb s : jb_wf jb -> contents jb !! s = None <-> packetMap jb !! s = None.
Proof.
  intros Hwf. unfold contents, contents_of. rewrite lookup_omap.
  destruct (packetMap jb !! s) as [l|] eqn:E; simpl; [|done].
  apply (jw_map _ Hwf) in E as [Hl _]. destruct (heap_wf_mem _ _ _ (jw_heap _ Hwf) Hl) as (p & -> & _). done.
Qed.

Lemma contents_key jb s p : jb_wf jb -> contents jb !! s = Some p ->
  exists l, l ∈ items (packets jb) /\ pkt_seq (mem (packets jb)) l = s /\ SequenceNumber p = s.
Proof.
  intros Hwf. unfold contents, contents_of. rewrite lookup_omap.
  destruct (packetMap jb !! s) as [l|] eqn:E; simpl; [|done].
  apply (jw_map _ Hwf) in E as [Hl Hs]. destruct (heap_wf_mem _ _ _ (jw_heap _ Hwf) Hl) as (q & Hq & Hqs).
  rewrite Hq. intros ?. simplify_eq/=. eauto.
Qed.

Lemma contents_size jb : jb_wf jb -> size (contents jb) = length (items (packets jb)).
Proof.
  intros Hwf. rewrite <- (size_dom (contents jb)).
  assert (dom (contents jb) =@{gset Z} list_to_set (pkt_seq (mem (packets jb)) <$> items (packets jb))) as ->.
  { apply set_eq. intros s. rewrite elem_of_dom, elem_of_list_to_set, list_elem_of_fmap. split.
    - intros [p Hp]. destruct (contents_key _ _ _ Hwf Hp) as (l & ? & ? & ?). eauto.
    - intros (l & -> & Hl). destruct (heap_wf_mem _ _ _ (jw_heap _ Hwf) Hl) as (p & Hp & _).
      eexists. eapply contents_lookup; [|done]. by apply (jw_map _ Hwf). }
  rewrite size_list_to_set, length_fmap; [done|].
  apply NoDup_fmap_2_strong; [|apply (hw_nodup _ _ (jw_heap _ Hwf))].
  intros l l' Hl Hl'. by apply jw_seq_inj.
Qed.

(** [s] is the stored sequence number closest to the start of the window. *)
Definition is_oldest (base : Z) (m : gmap Z BufferedPacket) (s : Z) : Prop :=
  is_Some (m !! s) /\ forall s', is_Some (m !! s') -> off base s <= off base s'.

(** The head of the heap is the oldest packet. *)
Lemma heap_head_oldest jb l :
  jb_wf jb -> items (packets jb) !! 0%nat = Some l ->
  is_oldest (nextExpected jb) (contents jb) (pkt_seq (mem (packets jb)) l).
Proof.
  intros Hwf Hl. destruct (heap_Pop_spec _ _ _ (jw_heap _ Hwf) Hl) as (_ & _ & _ & _ & _ & Hmin).
  assert (l ∈ items (packets jb)) as Hin by (by eapply list_elem_of_lookup_2).
  destruct (heap_wf_mem _ _ _ (jw_heap _ Hwf) Hin) as (p & Hp & _). split.
  - eexists. eapply contents_lookup; [|done]. by apply (jw_map _ Hwf).
  - intros s' [p' Hp']. destruct (contents_key _ _ _ Hwf Hp') as (l' & ? & <- & _). auto.
Qed.

(** ** The operations against the abstract buffer *)

(** The buffer after its packet at [l] left the heap. *)
Definition without (jb : JitterBuffer) (h' : PacketHeap) (s : Z) : JitterBuffer :=
  jb <| packets := h' |> <| packetMap ::= delete s |>.

Lemma without_wf jb h' l :
  jb_wf jb -> heap_wf (nextExpected jb) h' -> items (packets jb) ≡ₚ l :: items h' ->
  same_packets (mem h') (mem (packets jb)) ->
  let s := pkt_seq (mem (packets jb)) l in
  jb_wf (without jb h' s) /\ contents (without jb h' s) = delete s (contents jb) /\
  Size jb = S (Size (without jb h' s)).
Proof.
  intros Hwf Hh' Hp Hsame s. pose proof Hwf as [Hh Hm Hu Hsu Hi Hmax Hsz].
  assert (length (items (packets jb)) = S (length (items h'))) as Hlen by (by rewrite Hp).
  split_and!.
  - split; cbn; auto.
    + unfold s. by eapply packetMap_delete; [|apply (hw_nodup _ _ Hh)|..].
    + intros x Hx. rewrite (same_packets_seq _ _ _ Hsame). apply Hsu. rewrite Hp. by right.
    + intros E%Hi. by rewrite E in Hlen.
    + unfold Size, ph_Len in *. cbn. lia.
  - change (contents (without jb h' s)) with (contents_of (delete s (packetMap jb)) (mem h')).
    by rewrite contents_of_delete, (contents_of_same _ _ _ Hsame).
  - done.
Qed.

(** The buffer after packet [p] was pushed. *)
Definition with_packet (jb : JitterBuffer) (p : BufferedPacket) : JitterBuffer :=
  let l := fresh (dom (mem (packets jb))) in
  let h := mkPacketHeap (items (packets jb)) (<[l := p]> (mem (packets jb))) in
  jb <| packets := heap_Push h l |> <| packetMap ::= <[SequenceNumber p := l]> |>.

Lemma pkt_seq_insert_ne m l p x : x <> l -> pkt_seq (<[l := p]> m) x = pkt_seq m x.
Proof. intros. unfold pkt_seq. by rewrite lookup_insert_ne. Qed.

Lemma heap_wf_insert_mem base h l p :
  l ∉ items h -> heap_wf base h -> heap_wf base (mkPacketHeap (items h) (<[l := p]> (mem h))).
Proof.
  intros Hl [Hnd Hw Hidx Hh]. unfold heap_window in Hw.
  assert (forall x, x ∈ items h -> x <> l) as Hne by (by intros x ? ->).
  split; [done|..].
  - unfold heap_window in *. cbn. rewrite Forall_forall in *. intros x Hx.
    pose proof (Hne x Hx). rewrite pkt_seq_insert_ne, lookup_insert_ne by done. auto.
  - intros i x Hx. cbn in *. rewrite lookup_insert_ne by (symmetry; apply Hne; by eapply list_elem_of_lookup_2).
    by apply Hidx.
  - cbn. eapply is_heap_ext; [|exact Hh]. intros k Hk. unfold at_, heap_keys. cbn.
    rewrite !list_lookup_total_alt, !list_lookup_fmap.
    destruct (items h !! k) eqn:E; simpl; [|done].
    rewrite pkt_seq_insert_ne; [done|]. apply Hne. by eapply list_elem_of_lookup_2.
Qed.

Lemma with_packet_wf jb p :
  jb_wf jb -> packetMap jb !! SequenceNumber p = None -> is_u 16 (SequenceNumber p) ->
  in_window (nextExpected jb) (SequenceNumber p) -> initialized jb = true ->
  Z.of_nat (Size jb) < MaxSize (config jb) ->
  jb_wf (with_packet jb p) /\
  contents (with_packet jb p) = <[SequenceNumber p := erase p]> (contents jb).
Proof.
  intros Hwf Hnone Hpu Hwin Hinit Hroom. pose proof Hwf as [Hh Hm Hu Hsu Hi Hmax Hsz].
  unfold with_packet. set (l := fresh (dom (mem (packets jb)))).
  set (h := mkPacketHeap (items (packets jb)) (<[l := p]> (mem (packets jb)))).
  assert (mem (packets jb) !! l = None) as Hl by (apply not_elem_of_dom; apply is_fresh).
  assert (l ∉ items (packets jb)) as Hnl.
  { intros Hin. destruct (heap_wf_mem _ _ _ Hh Hin) as (q & ? & _). congruence. }
  destruct (heap_Push_spec (nextExpected jb) h l p) as (Hh' & Hp' & Hsame); try done.
  { by apply heap_wf_insert_mem. }
  { unfold h. cbn. by rewrite lookup_insert_eq. }
  cbn [items] in Hp'. assert (pkt_seq (mem h) l = SequenceNumber p) as Hls
    by (unfold h, pkt_seq; cbn; by rewrite lookup_insert_eq).
  assert (forall x, x ∈ items (packets jb) -> pkt_seq (mem h) x = pkt_seq (mem (packets jb)) x) as Hxs
    by (intros x Hx; unfold h; apply pkt_seq_insert_ne; by intros ->).
  split; [split; cbn|].
  - done.
  - intros s x. rewrite (same_packets_seq _ _ _ Hsame), Hp', elem_of_cons, lookup_insert_Some, Hm. split.
    + intros [[<- <-]|[? [Hx <-]]]; [by auto|]. split; [by right|by apply Hxs].
    + intros [[->|Hx] <-]; [by auto|]. right. rewrite Hxs by done. split; [|done].
      intros E. rewrite E in Hnone.
      assert (packetMap jb !! pkt_seq (mem (packets jb)) x = Some x) by (by apply Hm). congruence.
  - done.
  - intros x. rewrite Hp', elem_of_cons, (same_packets_seq _ _ _ Hsame).
    intros [->|Hx]; [by rewrite Hls|]. rewrite Hxs by done. auto.
  - congruence.
  - done.
  - unfold Size, ph_Len in *. cbn. rewrite Hp'. cbn. lia.
  - match goal with |- contents ?j = _ =>
      change (contents j) with (contents_of (<[SequenceNumber p := l]> (packetMap jb)) (mem (heap_Push h l))) end.
    rewrite (contents_of_same _ _ _ Hsame). unfold contents, contents_of. apply map_eq. intros s.
    rewrite lookup_omap. destruct (decide (s = SequenceNumber p)) as [->|Hne].
    + rewrite !lookup_insert_eq. unfold h. cbn. by rewrite lookup_insert_eq.
    + rewrite !lookup_insert_ne, lookup_omap by done. destruct (packetMap jb !! s) as [x|] eqn:E; [|done]. cbn.
      apply Hm in E as [Hx _]. by rewrite lookup_insert_ne by (by intros <-).
Qed.

Lemma updateAdaptiveDelay_frame jb d :
  let jb' := updateAdaptiveDelay jb d in
  packets jb' = packets jb /\ packetMap jb' = packetMap jb /\ nextExpected jb' = nextExpected jb /\
  initialized jb' = initialized jb /\ config jb' = config jb.
Proof. unfold updateAdaptiveDelay. by case_match. Qed.

(** The start of the window a packet is checked against. *)
Definition push_base (jb : JitterBuffer) (seq : Z) : Z :=
  if initialized jb then nextExpected jb else seq.

Lemma push_start_spec jb now seq :
  jb_wf jb -> is_u 16 seq ->
  let jb1 := push_start jb now seq in
  jb_wf jb1 /\ contents jb1 = contents jb /\ packetMap jb1 = packetMap jb /\
  nextExpected jb1 = push_base jb seq /\ initialized jb1 = true /\ config jb1 = config jb.
Proof.
  intros Hwf Hseq. unfold push_start, push_base. cbn.
  destruct (initialized jb) eqn:Hi; cbn.
  - split; [|done]. by eapply jb_wf_ext.
  - split; [|done]. pose proof Hwf as [Hh Hm Hu Hsu Hin Hmax Hsz]. split; cbn; auto.
    by apply heap_wf_nil, Hin.
Qed.

(** What [Push] may do to the abstract buffer [m]. *)
Inductive push_result (base max : Z) (m : gmap Z BufferedPacket) (p : BufferedPacket) :
    bool -> gmap Z BufferedPacket -> Prop :=
| push_duplicate : is_Some (m !! SequenceNumber p) -> push_result base max m p false m
| push_late : m !! SequenceNumber p = None -> ~ in_window base (SequenceNumber p) -> push_result base max m p false m
| push_stored :
    m !! SequenceNumber p = None -> in_window base (SequenceNumber p) -> Z.of_nat (size m) < max ->
    push_result base max m p true (<[SequenceNumber p := p]> m)
| push_evicted s :
    m !! SequenceNumber p = None -> in_window base (SequenceNumber p) -> max <= Z.of_nat (size m) ->
    is_oldest base m s -> push_result base max m p true (<[SequenceNumber p := p]> (delete s m)).

Lemma push_overflow_spec jb :
  jb_wf jb -> MaxSize (config jb) <= Z.of_nat (Size jb) ->
  exists s jb', push_overflow jb = Some jb' /\ jb_wf jb' /\
    is_oldest (nextExpected jb) (contents jb) s /\ contents jb' = delete s (contents jb) /\
    nextExpected jb' = nextExpected jb /\ initialized jb' = initialized jb /\ config jb' = config jb /\
    Z.of_nat (Size jb') < MaxSize (config jb).
Proof.
  intros Hwf Hfull. pose proof Hwf as [Hh Hm Hu Hsu Hi Hmax Hsz].
  destruct (items (packets jb) !! 0%nat) as [l|] eqn:Hl.
  2:{ apply lookup_ge_None in Hl. unfold Size, ph_Len in *. lia. }
  destruct (heap_Pop_spec _ _ _ Hh Hl) as (h' & Hpop & Hh' & Hp & Hsame & _).
  assert (l ∈ items (packets jb)) as Hin by (by eapply list_elem_of_lookup_2).
  destruct (heap_wf_mem _ _ _ Hh Hin) as (p & Hmem & Hs).
  assert (exists p', mem h' !! l = Some p' /\ SequenceNumber p' = SequenceNumber p) as (p' & Hmem' & Hs').
  { pose proof (same_packets_seq _ _ l Hsame) as E. unfold pkt_seq in E. rewrite Hmem in E.
    assert (is_Some (mem h' !! l)) as [p' Hp'] by (apply (same_packets_Some _ _ l Hsame); eauto).
    rewrite Hp' in E. eauto. }
  destruct (without_wf jb h' l Hwf Hh' Hp Hsame) as (Hw & Hc & Hsize). rewrite Hs in Hw, Hc, Hsize.
  unfold push_overflow. rewrite Hpop, Hmem', Hs'.
  exists (SequenceNumber p). eexists. split; [done|]. split_and!; try done.
  - by eapply jb_wf_ext.
  - rewrite <- Hs. by apply heap_head_oldest.
  - unfold Size, ph_Len, without in *. cbn in *. lia.
Qed.

(** The part of [Push] that makes room. *)
Lemma push_room jb p :
  jb_wf jb -> contents jb !! SequenceNumber p = None -> in_window (nextExpected jb) (SequenceNumber p) ->
  exists jb', (if MaxSize (config jb) <=? Z.of_nat (Size jb) then push_overflow jb else Some jb) = Some jb' /\
    jb_wf jb' /\ contents jb' !! SequenceNumber p = None /\ nextExpected jb' = nextExpected jb /\
    initialized jb' = initialized jb /\ config jb' = config jb /\ Z.of_nat (Size jb') < MaxSize (config jb) /\
    push_result (nextExpected jb) (MaxSize (config jb)) (contents jb) p true
      (<[SequenceNumber p := p]> (contents jb')).
Proof.
  intros Hwf Hnone Hwin. assert (size (contents jb) = Size jb) as Hsize by (by apply contents_size).
  destruct (Z.leb_spec (MaxSize (config jb)) (Z.of_nat (Size jb))) as [Hfull|Hroom].
  - destruct (push_overflow_spec jb Hwf Hfull) as (s & jb' & -> & ? & ? & Hc & ? & ? & ? & ?).
    exists jb'. rewrite Hc. split_and!; try done.
    + by rewrite lookup_delete_None; right.
    + apply (push_evicted _ _ _ p s); try done. lia.
  - exists jb. split_and!; try done. apply (push_stored _ _ _ p); try done. lia.
Qed.

(** The bookkeeping at the end of [Push] does not touch the packets. *)
Lemma push_finish jb seq d :
  let jb1 := if negb (seq =? nextExpected jb) && seqLess (nextExpected jb) seq
             then jb <| reordered ::= fun n => u64 (n + 1) |> else jb in
  let jb2 := if AdaptiveMode (config jb1) then updateAdaptiveDelay jb1 d else jb1 in
  packets jb2 = packets jb /\ packetMap jb2 = packetMap jb /\ nextExpected jb2 = nextExpected jb /\
  initialized jb2 = initialized jb /\ config jb2 = config jb.
Proof.
  intros jb1 jb2.
  assert (packets jb1 = packets jb /\ packetMap jb1 = packetMap jb /\ nextExpected jb1 = nextExpected jb /\
    initialized jb1 = initialized jb /\ config jb1 = config jb) as (?&?&?&?&?) by (unfold jb1; by case_match).
  destruct (updateAdaptiveDelay_frame jb1 d) as (?&?&?&?&?).
  unfold jb2. case_match; split_and!; congruence.
Qed.

Lemma Push_spec jb now now2 seq ts pl :
  jb_wf jb -> is_u 16 seq ->
  exists jb' b, Push jb now now2 seq ts pl = Some (jb', b) /\ jb_wf jb' /\
    nextExpected jb' = push_base jb seq /\ initialized jb' = true /\ config jb' = config jb /\
    push_result (push_base jb seq) (MaxSize (config jb)) (contents jb)
      (mkPacket seq ts pl now 0) b (contents jb').
Proof.
  intros Hwf Hseq. unfold Push.
  destruct (push_start_spec jb now seq Hwf Hseq) as (Hwf1 & Hc1 & Hm1 & Hn1 & Hi1 & Hcf1).
  set (jb1 := push_start jb now seq) in *. rewrite <- Hc1, <- Hn1, <- Hcf1. clearbody jb1.
  pose proof (contents_None jb1 seq Hwf1) as Hnone.
  destruct (packetMap jb1 !! seq) as [l|] eqn:E.
  { exists jb1, false. split_and!; try done. apply push_duplicate. cbn.
    destruct (contents jb1 !! seq); [eauto|]. destruct Hnone as [Hno _]. by specialize (Hno eq_refl). }
  destruct (seqLess seq (nextExpected jb1)) eqn:Hlate.
  { eexists _, false. split; [done|]. split_and!; try done; [by eapply jb_wf_ext|].
    apply push_late; [by apply Hnone|]. cbn. rewrite <- seqLess_not_late. congruence. }
  apply seqLess_not_late in Hlate. set (p := mkPacket seq ts pl now 0).
  destruct (push_room jb1 p) as (jb2 & Hroom & Hwf2 & Hc2 & Hn2 & Hi2 & Hcf2 & Hsz2 & Hres); [done|by apply Hnone|done|].
  change (ph_Len (packets jb1)) with (Size jb1). rewrite Hroom.
  destruct (with_packet_wf jb2 p) as [Hwf3 Hc3]; try done.
  { by apply contents_None. }
  { by rewrite Hn2. }
  { congruence. }
  { by rewrite Hcf2. }
  change (jb2 <| packets := _ |> <| packetMap ::= _ |>) with (with_packet jb2 p).
  destruct (push_finish (with_packet jb2 p) seq (Time_Sub now2 now)) as (Fp & Fm & Fn & Fi & Fc).
  eexists _, true. split; [done|]. split_and!.
  - eapply jb_wf_ext; [exact Hwf3|..]; congruence.
  - etrans; [exact Fn|exact Hn2].
  - etrans; [exact Fi|]. etrans; [exact Hi2|done].
  - etrans; [exact Fc|exact Hcf2].
  - unfold contents at 2. rewrite Fp, Fm. fold (contents (with_packet jb2 p)). by rewrite Hc3.
Qed.

(** What [Pop] may do to the abstract buffer [m] whose next expected sequence
    number is [next]: deliver the expected packet, skip to the oldest one
    after the wait exceeded [MaxDelay], or deliver nothing. *)
Inductive pop_result (due late : bool) (next : Z) (m : gmap Z BufferedPacket) :
    option BufferedPacket -> Z -> gmap Z BufferedPacket -> Prop :=
| pop_nothing :
    (m = ∅ \/ due = false \/ (m !! next = None /\ late = false)) ->
    pop_result due late next m None next m
| pop_expected p :
    due = true -> m !! next = Some p ->
    pop_result due late next m (Some p) (u16 (next + 1)) (delete next m)
| pop_skipped s p :
    due = true -> late = true -> m !! next = None -> is_oldest next m s -> m !! s = Some p ->
    pop_result due late next m (Some p) (u16 (s + 1)) (delete s m).

(** Delivering packet [l] and moving the window past it. *)
Lemma deliver_wf jb h' l s (t : Z) :
  jb_wf jb -> heap_wf (nextExpected jb) h' -> items (packets jb) ≡ₚ l :: items h' ->
  same_packets (mem h') (mem (packets jb)) -> pkt_seq (mem (packets jb)) l = s ->
  (forall l', l' ∈ items (packets jb) -> off (nextExpected jb) s <= off (nextExpected jb) (pkt_seq (mem (packets jb)) l')) ->
  let jb' := jb <| packets := h' |> <| packetMap ::= delete s |> <| nextExpected := u16 (s + 1) |>
                <| packetsOut ::= fun n => u64 (n + 1) |> <| lastPlayTime := t |> in
  jb_wf jb' /\ contents jb' = delete s (contents jb).
Proof.
  intros Hwf Hh' Hp Hsame Hs Hmin jb'.
  destruct (without_wf jb h' l Hwf Hh' Hp Hsame) as (Hw & Hc & _). rewrite Hs in Hw, Hc.
  split; [|done]. pose proof Hw as [? ? ? ? ? ? ?]. split; cbn; try done; [|apply wrapu_range; lia].
  set (base := nextExpected jb) in *. pose proof (off_range base s) as Hr.
  replace (u16 (s + 1)) with (u16 (base + (off base s + 1))).
  2:{ unfold off, wrapu. rewrite (Z.add_comm base), <- Z.add_assoc, Z.add_mod_idemp_l by lia. f_equal. lia. }
  apply heap_wf_advance; [lia|done|]. intros x Hx. rewrite (same_packets_seq _ _ _ Hsame).
  assert (x ∈ items (packets jb)) as Hx' by (rewrite Hp; by right).
  assert (l ∈ items (packets jb)) as Hl by (rewrite Hp; by left).
  specialize (Hmin x Hx').
  assert (off base s <> off base (pkt_seq (mem (packets jb)) x)) as Hne; [|lia].
  intros E. rewrite <- Hs in E. apply off_eq in E; [|by apply (jw_seq_u16 _ Hwf)..].
  apply (jw_seq_inj _ _ _ Hwf Hl Hx') in E as ->.
  pose proof (hw_nodup _ _ (jw_heap _ Hwf)) as Hnd. rewrite Hp in Hnd. by apply NoDup_cons in Hnd as [? _].
Qed.

Lemma same_packets_lookup m m' l p :
  same_packets m' m -> m !! l = Some p -> exists p', m' !! l = Some p' /\ erase p' = erase p /\
    SequenceNumber p' = SequenceNumber p.
Proof.
  intros H Hp. specialize (H l). rewrite Hp in H.
  destruct (m' !! l) as [p'|]; simpl in H; [|done].
  exists p'. split; [done|]. assert (erase p' = erase p) as E by congruence.
  split; [done|]. by injection E.
Qed.

(** The due and waited-too-long tests of [Pop]. *)
Definition pop_due (jb : JitterBuffer) (now : Z) : bool := negb (Before now (lastPlayTime jb)).
Definition pop_late (jb : JitterBuffer) (now : Z) : bool :=
  Time_Sub now (lastPlayTime jb) >? MaxDelay (config jb).

Lemma Pop_spec jb now :
  jb_wf jb ->
  exists jb' r, Pop jb now = Some (jb', r) /\ jb_wf jb' /\ initialized jb' = initialized jb /\
    config jb' = config jb /\
    pop_result (pop_due jb now) (pop_late jb now) (nextExpected jb) (contents jb)
      (erase <$> r) (nextExpected jb') (contents jb').
Proof.
  intros Hwf. pose proof (jw_heap _ Hwf) as Hh. unfold Pop.
  destruct (Nat.eqb_spec (ph_Len (packets jb)) 0) as [Hlen|Hlen].
  { exists jb, None. split_and!; try done. apply pop_nothing. left. apply map_size_empty_inv.
    by rewrite contents_size. }
  unfold pop_due. destruct (Before now (lastPlayTime jb)) eqn:Hdue.
  { exists jb, None. split_and!; try done. apply pop_nothing. auto. }
  destruct (packetMap jb !! nextExpected jb) as [l|] eqn:E.
  - pose proof (proj1 (jw_map _ Hwf _ _) E) as [Hin Hs].
    pose proof Hin as [i Hi]%list_elem_of_lookup.
    destruct (hw_index _ _ Hh _ _ Hi) as (p & Hp & Hidx). rewrite Hp, Hidx.
    destruct (heap_Remove_spec _ _ _ _ Hh Hi) as (h' & -> & Hh' & Hperm & Hsame).
    destruct (same_packets_lookup _ _ _ _ Hsame Hp) as (p' & -> & He & Hseq).
    assert (SequenceNumber p' = nextExpected jb) as -> by (rewrite Hseq, <- Hs; unfold pkt_seq; by rewrite Hp).
    destruct (deliver_wf jb h' l (nextExpected jb) (nextPlayTime jb now)) as [Hwf' Hc]; try done.
    { intros x Hx. rewrite off_self. apply off_range. }
    eexists _, _. split; [done|]. split_and!; try done. cbn [fmap option_fmap option_map].
    match goal with |- pop_result _ _ _ _ _ _ ?c => replace c with (delete (nextExpected jb) (contents jb)) by done end.
    apply pop_expected; [done|]. rewrite He. by eapply contents_lookup.
  - assert (contents jb !! nextExpected jb = None) as Hnone by (by apply contents_None).
    destruct (items (packets jb) !! 0%nat) as [l|] eqn:Hl.
    2:{ apply lookup_ge_None in Hl. unfold ph_Len in *. lia. }
    assert (l ∈ items (packets jb)) as Hin by (by eapply list_elem_of_lookup_2).
    destruct (heap_wf_mem _ _ _ Hh Hin) as (p & Hp & Hs).
    replace (ph_at (packets jb) 0) with (Some p) by (unfold ph_at; rewrite Hl; simpl; by rewrite Hp).
    unfold pop_late. destruct (Time_Sub now (lastPlayTime jb) >? MaxDelay (config jb)) eqn:Hlate.
    2:{ exists jb, None. split_and!; try done. apply pop_nothing. auto. }
    change (packets (jb <| nextExpected := SequenceNumber p |>)) with (packets jb).
    destruct (heap_Pop_spec _ _ _ Hh Hl) as (h' & -> & Hh' & Hperm & Hsame & Hmin).
    destruct (same_packets_lookup _ _ _ _ Hsame Hp) as (p' & -> & He & ->).
    destruct (deliver_wf jb h' l (SequenceNumber p) (nextPlayTime jb now)) as [Hwf' Hc]; try done.
    { rewrite <- Hs. done. }
    eexists _, _. split; [done|]. split_and!; try done. cbn [fmap option_fmap option_map].
    match goal with |- pop_result _ _ _ _ _ _ ?c => replace c with (delete (SequenceNumber p) (contents jb)) by done end.
    apply pop_skipped; try done.
    + rewrite <- Hs. by apply heap_head_oldest.
    + rewrite He, <- Hs. eapply contents_lookup; [|done]. by apply (jw_map _ Hwf).
Qed.

(** ** Runs *)

(** The calls that change the state of a buffer. *)
Inductive jb_op :=
| OpPush (now now2 seq timestamp : Z) (payload : list Z)
| OpPop (now : Z)
| OpFlush
| OpReset
| OpSetTargetDelay (delay : Z)
| OpSetAdaptiveMode (enabled : bool).

(** A caller passes a 16-bit sequence number. *)
Definition op_ok (o : jb_op) : Prop :=
  match o with OpPush _ _ seq _ _ => is_u 16 seq | _ => True end.

Definition jb_step (jb : JitterBuffer) (o : jb_op) : option (JitterBuffer * option BufferedPacket) :=
  match o with
  | OpPush now now2 seq ts pl => '(jb, _) ← Push jb now now2 seq ts pl; Some (jb, None)
  | OpPop now => Pop jb now
  | OpFlush => Some (Flush jb, None)
  | OpReset => Some (Reset jb, None)
  | OpSetTargetDelay d => Some (SetTargetDelay jb d, None)
  | OpSetAdaptiveMode b => Some (SetAdaptiveMode jb b, None)
  end.

(** The state after a sequence of calls, with the packets delivered. *)
Fixpoint jb_run (jb : JitterBuffer) (ops : list jb_op) : option (JitterBuffer * list BufferedPacket) :=
  match ops with
  | [] => Some (jb, [])
  | o :: ops =>
      '(jb, r) ← jb_step jb o;
      '(jb, l) ← jb_run jb ops;
      Some (jb, match r with Some p => p :: l | None => l end)
  end.

Lemma cleared_wf jb jb' :
  jb_wf jb -> packets jb' = empty_heap -> packetMap jb' = ∅ -> is_u 16 (nextExpected jb') ->
  config jb' = config jb -> jb_wf jb'.
Proof.
  intros [? ? ? ? ? ? ?] Hp Hm Hn Hc. split; unfold Size; rewrite ?Hp, ?Hm, ?Hc; try done.
  - by apply heap_wf_nil.
  - intros s l. split; [done|]. intros [H _]. by apply elem_of_nil in H.
  - cbn. lia.
Qed.

(** One call from a well-formed buffer: no panic, the invariant is kept, and
    a delivered packet is the oldest one stored. *)
Lemma jb_step_wf jb o :
  jb_wf jb -> op_ok o ->
  exists jb' r, jb_step jb o = Some (jb', r) /\ jb_wf jb' /\
    match r with
    | None => o <> OpReset -> initialized jb = true -> initialized jb' = true /\ nextExpected jb' = nextExpected jb
    | Some p =>
        initialized jb = true /\ initialized jb' = true /\
        is_oldest (nextExpected jb) (contents jb) (SequenceNumber p) /\ is_u 16 (SequenceNumber p) /\
        nextExpected jb' = u16 (SequenceNumber p + 1)
    end.
Proof.
  intros Hwf Hok. destruct o as [now now2 seq ts pl|now| | |d|b]; cbn in *.
  - destruct (Push_spec jb now now2 seq ts pl Hwf Hok) as (jb' & b & -> & Hwf' & Hn & Hi & _).
    exists jb', None. cbn. split_and!; try done. intros _ Hinit. unfold push_base in Hn. rewrite Hinit in Hn. done.
  - destruct (Pop_spec jb now Hwf) as (jb' & r & -> & Hwf' & Hi & _ & Hres).
    exists jb', r. split_and!; try done.
    destruct r as [p|]; cbn [fmap option_fmap option_map] in Hres.
    2:{ inversion Hres as [| |]; subst; intros _ ?. split; congruence. }
    assert (exists s, is_oldest (nextExpected jb) (contents jb) s /\ contents jb !! s = Some (erase p) /\
      nextExpected jb' = u16 (s + 1)) as (s & Hold & Hs & Hn).
    { inversion Hres as [|p' Hd Hp Hpe Hn Hc|s p' Hd Hl Hnone Hold Hp Hpe Hn Hc]; subst.
      - exists (nextExpected jb). split_and!; try done. split; [by eauto|]. intros. rewrite off_self. apply off_range.
      - exists s. done. }
    destruct (contents_key _ _ _ Hwf Hs) as (l & Hin & Hl & Hseq).
    change (SequenceNumber p = s) in Hseq. rewrite Hseq. split_and!; try done.
    + destruct (initialized jb) eqn:E; [done|]. rewrite (jw_init _ Hwf E) in Hin. by apply elem_of_nil in Hin.
    + rewrite Hi. destruct (initialized jb) eqn:E; [done|]. rewrite (jw_init _ Hwf E) in Hin. by apply elem_of_nil in Hin.
    + rewrite <- Hl. by apply (jw_seq_u16 _ Hwf).
  - eexists _, None. split; [done|]. split; [|done]. eapply cleared_wf; try done. apply (jw_u16 _ Hwf).
  - eexists _, None. split; [done|]. split; [|done]. eapply cleared_wf; try done. apply (jw_u16 _ Hwf).
  - eexists _, None. split; [done|]. split; [|done]. by eapply jb_wf_ext.
  - eexists _, None. split; [done|]. split; [|done]. by eapply jb_wf_ext.
Qed.

Lemma jb_run_wf jb ops :
  jb_wf jb -> Forall op_ok ops -> exists jb' ds, jb_run jb ops = Some (jb', ds) /\ jb_wf jb'.
Proof.
  revert jb. induction ops as [|o ops IH]; intros jb Hwf Hops; cbn; [eauto|].
  apply Forall_cons in Hops as [Ho Hops].
  destruct (jb_step_wf jb o Hwf Ho) as (jb1 & r & -> & Hwf1 & _). cbn.
  destruct (IH jb1 Hwf1 Hops) as (jb2 & ds & -> & Hwf2). cbn. eauto.
Qed.

Lemma NewJitterBuffer_wf sid rate cfg jb :
  NewJitterBuffer sid rate cfg = Some jb -> 1 <= MaxSize (config jb) -> jb_wf jb.
Proof.
  unfold NewJitterBuffer. case_match; [done|]. intros ? Hmax. simplify_eq/=. split; cbn in *; try done.
  - by apply heap_wf_nil.
  - intros s l. split; [done|]. intros [Hx _]. by apply elem_of_nil in Hx.
  - lia.
Qed.

Lemma oldest_in_window jb s : jb_wf jb -> is_oldest (nextExpected jb) (contents jb) s -> in_window (nextExpected jb) s.
Proof.
  intros Hwf [[p Hp] _]. destruct (contents_key _ _ _ Hwf Hp) as (l & Hin & Hl & _). rewrite <- Hl. apply (heap_wf_window _ _ _ (jw_heap _ Hwf) Hin).
Qed.

(** [b] comes after [a]: going forward from [a] it is reached within half of the
    sequence space, so not going back. *)
Definition follows (a b : Z) : Prop := 1 <= u16 (b - a) <= 2 ^ 15.

(** A packet in the window after a delivered one comes after it. *)
Lemma window_follows a b : is_u 16 a -> in_window (u16 (a + 1)) b -> follows a b.
Proof.
  unfold in_window, off, follows, wrapu, is_u. intros Ha Hw. rewrite Zminus_mod_idemp_r in Hw.
  pose proof (Z.mod_pos_bound (b - (a + 1)) (2 ^ 16) ltac:(lia)).
  replace (b - a) with (b - (a + 1) + 1) by lia. rewrite <- Z.add_mod_idemp_l by lia. rewrite Z.mod_small; lia.
Qed.

(** [prev] is the last packet delivered since the start or a reset. *)
Lemma jb_run_ordered ops : forall jb prev jb' ds,
  jb_wf jb -> Forall op_ok ops -> OpReset ∉ ops ->
  (forall a, prev = Some a -> is_u 16 a /\ initialized jb = true /\ nextExpected jb = u16 (a + 1)) ->
  jb_run jb ops = Some (jb', ds) -> Sorted follows (option_list prev ++ (SequenceNumber <$> ds)).
Proof.
  induction ops as [|o ops IH]; intros jb prev jb' ds Hwf Hops Hnr Hprev Hrun; cbn in Hrun.
  { simplify_eq. destruct prev; repeat constructor. }
  apply Forall_cons in Hops as [Ho Hops]. apply not_elem_of_cons in Hnr as [Hor Hnr].
  destruct (jb_step_wf jb o Hwf Ho) as (jb1 & r & Hstep & Hwf1 & Hr). rewrite Hstep in Hrun. cbn in Hrun.
  destruct (jb_run jb1 ops) as [[jb2 l]|] eqn:Hrun'; cbn in Hrun; [|done]. simplify_eq. destruct r as [p|].
  - destruct Hr as (Hi & Hi1 & Hold & Hu & Hn1).
    assert (Sorted follows (SequenceNumber p :: (SequenceNumber <$> l))) as Hs.
    { apply (IH jb1 (Some (SequenceNumber p)) jb' l); try done. by intros a [= <-]. }
    destruct prev as [a|]; cbn; [|done]. constructor; [done|]. constructor. destruct (Hprev a eq_refl) as (Ha & _ & Hne).
    apply window_follows; [done|]. rewrite <- Hne. by apply (oldest_in_window jb).
  - apply (IH jb1 prev jb' l); try done. intros a Ea. destruct (Hprev a Ea) as (Ha & Hi & Hne). destruct (Hr (not_eq_sym Hor) Hi) as [Hi1 Hn1]. by rewrite Hn1.
Qed.

(** *** Runs with batches *)

(** A call of a client: one of the operations, or a batch of a number of packets. *)
Inductive jb_call :=
| CallOp (o : jb_op)
| CallPopBatch (maxPackets : Z) (now : nat -> Z).
Definition call_ok (c : jb_call) : Prop := match c with CallOp o => op_ok o | CallPopBatch n _ => 0 <= n end.
Definition call_step (jb : JitterBuffer) (c : jb_call) : option (JitterBuffer * list BufferedPacket) :=
  match c with
  | CallOp o => '(jb, r) ← jb_step jb o; Some (jb, option_list r)
  | CallPopBatch n now => PopBatch n now jb
  end.
Fixpoint calls_run (jb : JitterBuffer) (cs : list jb_call) : option (JitterBuffer * list BufferedPacket) :=
  match cs with
  | [] => Some (jb, [])
  | c :: cs => '(jb, l1) ← call_step jb c; '(jb, l2) ← calls_run jb cs; Some (jb, l1 ++ l2)
  end.

Lemma jb_run_app jb ops1 ops2 :
  jb_run jb (ops1 ++ ops2) = ('(jb, l1) ← jb_run jb ops1; '(jb, l2) ← jb_run jb ops2; Some (jb, l1 ++ l2)).
Proof.
  revert jb. induction ops1 as [|o ops1 IH]; intros jb; cbn.
  - by destruct (jb_run jb ops2) as [[]|].
  - destruct (jb_step jb o) as [[jb1 r]|]; [|done]. cbn. rewrite IH. destruct (jb_run jb1 ops1) as [[jb2 l1]|]; [|done]. cbn.
    destruct (jb_run jb2 ops2) as [[jb3 l2]|]; [|done]. cbn. by destruct r.
Qed.

(** A batch is a run of pops. *)
Lemma pop_loop_run n : forall i now jb, exists nows, pop_loop n i now jb = jb_run jb (OpPop <$> nows).
Proof.
  induction n as [|n IH]; intros i now jb; cbn; [by exists []|]. destruct (Pop jb (now i)) as [[jb1 [p|]]|] eqn:E.
  - destruct (IH (S i) now jb1) as [nows Hr]. exists (now i :: nows). cbn. rewrite E. cbn. rewrite Hr. by destruct (jb_run jb1 (OpPop <$> nows)) as [[]|].
  - exists [now i]. cbn. by rewrite E.
  - exists [now i]. cbn. by rewrite E.
Qed.

Lemma calls_run_ops cs : Forall call_ok cs ->
  forall jb, exists ops, Forall op_ok ops /\ (CallOp OpReset ∉ cs -> OpReset ∉ ops) /\ calls_run jb cs = jb_run jb ops.
Proof.
  intros Hok. induction Hok as [|c cs Hc Hcs IH]; intros jb; [exists []; split_and!; [done|intros _; apply not_elem_of_nil|done]|].
  assert (exists ops1, Forall op_ok ops1 /\ (c <> CallOp OpReset -> OpReset ∉ ops1) /\ call_step jb c = jb_run jb ops1) as (ops1 & H1 & H2 & H3).
  { destruct c as [o|n now]; cbn in *.
    - exists [o]. split_and!; [by constructor|intros Hne Hin%list_elem_of_singleton; apply Hne; by rewrite Hin|]. cbn. destruct (jb_step jb o) as [[jb1 [p|]]|]; done.
    - unfold PopBatch. rewrite (proj2 (Z.ltb_ge _ _)) by lia. destruct (pop_loop_run (Z.to_nat n) 0 now jb) as [nows Hr]. exists (OpPop <$> nows). split_and!; [|intros _; by intros (? & ? & _)%list_elem_of_fmap|done].
      apply Forall_fmap, Forall_true. done. }
  destruct (jb_run jb ops1) as [[jb1 l1]|] eqn:E.
  - destruct (IH jb1) as (ops2 & K1 & K2 & K3). exists (ops1 ++ ops2). split_and!; [by apply Forall_app| |].
    + rewrite not_elem_of_cons, not_elem_of_app. intros [Hne Hin]. split; [by apply H2|by apply K2].
    + rewrite jb_run_app. cbn. rewrite H3, E. cbn. by rewrite K3.
  - exists ops1. split_and!; [done| |cbn; by rewrite H3, E]. rewrite not_elem_of_cons. intros [Hne _]. by apply H2.
Qed.

(** ** The buffer's guarantees *)

(** C14: [Push] implements the abstract buffer: from every well-formed state it
    does not panic, keeps the invariant, rejects exactly duplicates and late
    packets, stores every other packet, and evicts the oldest stored packet
    exactly when the buffer is full. *)
Theorem Push_refines jb now now2 seq ts pl :
  jb_wf jb -> is_u 16 seq ->
  exists jb' b, Push jb now now2 seq ts pl = Some (jb', b) /\ jb_wf jb' /\
    nextExpected jb' = push_base jb seq /\
    push_result (push_base jb seq) (MaxSize (config jb)) (contents jb)
      (mkPacket seq ts pl now 0) b (contents jb').
Proof. intros Hwf Hs. destruct (Push_spec jb now now2 seq ts pl Hwf Hs) as (jb' & b & ? & ? & ? & _ & _ & ?). eauto 10. Qed.

(** C15: [Pop] implements the abstract buffer: from every well-formed state it
    does not panic, keeps the invariant, and delivers the expected packet, or
    the oldest one once the wait exceeded [MaxDelay], or nothing; the
    delivered packet leaves the buffer and the window moves past it. *)
Theorem Pop_refines jb now :
  jb_wf jb ->
  exists jb' r, Pop jb now = Some (jb', r) /\ jb_wf jb' /\
    pop_result (pop_due jb now) (pop_late jb now) (nextExpected jb) (contents jb)
      (erase <$> r) (nextExpected jb') (contents jb').
Proof. intros Hwf. destruct (Pop_spec jb now Hwf) as (jb' & r & ? & ? & _ & _ & ?). eauto 10. Qed.


(** C29: packets are delivered in order, across wrap-around, loss, duplicates and
    late arrivals: while the buffer is not reset, every packet delivered comes
    after the one delivered before it, by 1 to [2 ^ 15] in the 16-bit sequence
    space. *)
Theorem delivery_in_order sid rate cfg jb cs jb' ds :
  NewJitterBuffer sid rate cfg = Some jb -> 1 <= MaxSize (config jb) ->
  Forall call_ok cs -> CallOp OpReset ∉ cs -> calls_run jb cs = Some (jb', ds) ->
  Sorted follows (SequenceNumber <$> ds).
Proof.
  intros Hnew Hmax Hcs Hnr Hrun. apply (NewJitterBuffer_wf sid rate cfg) in Hmax as Hwf; [|done].
  destruct (calls_run_ops cs Hcs jb) as (ops & Hok & Hr & E). rewrite E in Hrun. apply (jb_run_ordered ops jb None jb' ds); auto. done.
Qed.

(** A batch of a negative number panics. *)
Theorem negative_batch_panics n now jb : n < 0 -> PopBatch n now jb = None.
Proof. intros Hn. unfold PopBatch. by rewrite (proj2 (Z.ltb_lt _ _)). Qed.

(** [Flush] never counts the packets it throws away: whatever is stored,
    [packetsDropped] is unchanged, because the length is taken after the
    slice was replaced by an empty one. *)
Theorem Flush_loses_count jb :
  contents (Flush jb) = ∅ /\ Size (Flush jb) = 0%nat /\
  st_PacketsDropped (GetStats (Flush jb)) = u64 (st_PacketsDropped (GetStats jb)).
Proof. split_and!; try done. cbn. by rewrite Z.add_0_r. Qed.

(** ** Witnesses *)

Definition sample_jb : JitterBuffer :=
  default (mkJB DefaultJitterBufferInternalConfig "" 0 empty_heap ∅ 0 false 0 0 0 0 0 0 0 (of_int 0) (of_int 0))
    (NewJitterBuffer "s" 8000 (Some (mkJBConfig (20 * Millisecond) (200 * Millisecond) (50 * Millisecond) false 2))).
(** Three packets around the wrap-around point, out of order, into two slots; a pop
    and a batch of two. *)
Definition sample_calls : list jb_call :=
  [CallOp (OpPush 100 100 65535 0 [1]); CallOp (OpPush 200 200 1 320 [3]); CallOp (OpPush 300 300 0 160 [2]);
   CallOp (OpPop Second); CallPopBatch 2 (fun i => (2 + Z.of_nat i) * Second)].

Example sample_run :
  match calls_run sample_jb sample_calls with
  | Some (jb, ds) => map SequenceNumber ds = [0; 1] /\ packetsDropped jb = 1
  | None => False
  end.
Proof. vm_compute. split; reflexivity. Qed.

Lemma sample_jb_wf : jb_wf sample_jb.
Proof. apply (NewJitterBuffer_wf "s" 8000 (Some (mkJBConfig (20 * Millisecond) (200 * Millisecond) (50 * Millisecond) false 2))); [done|vm_compute; congruence]. Qed.

Lemma Push_refines_witness :
  exists jb' b, Push sample_jb 5 6 65535 0 [7] = Some (jb', b) /\ jb_wf jb' /\
    nextExpected jb' = 65535 /\
    push_result 65535 2 ∅ (mkPacket 65535 0 [7] 5 0) b (contents jb').
Proof. apply (Push_refines sample_jb 5 6 65535 0 [7]); [exact sample_jb_wf|vm_compute; intuition congruence]. Defined.

Lemma Pop_refines_witness :
  exists jb' r, Pop sample_jb 7 = Some (jb', r) /\ jb_wf jb' /\
    pop_result true false 0 ∅ (erase <$> r) (nextExpected jb') (contents jb').
Proof. apply (Pop_refines sample_jb 7). exact sample_jb_wf. Defined.


Definition sample_end : JitterBuffer * list BufferedPacket :=
  Eval vm_compute in default (sample_jb, []) (calls_run sample_jb sample_calls).

Lemma delivery_in_order_witness : map SequenceNumber sample_end.2 = [0; 1] /\ Sorted follows (SequenceNumber <$> sample_end.2).
Proof.
  split; [vm_compute; reflexivity|].
  apply (delivery_in_order "s" 8000 (Some (mkJBConfig (20 * Millisecond) (200 * Millisecond) (50 * Millisecond) false 2))
           sample_jb sample_calls sample_end.1).
  - vm_compute. reflexivity.
  - vm_compute. congruence.
  - unfold sample_calls. repeat constructor; vm_compute; intuition congruence.
  - unfold sample_calls. intros Hin. repeat (apply elem_of_cons in Hin as [Hin|Hin]; [done|]). by apply elem_of_nil in Hin.
  - vm_compute. reflexivity.
Defined.
