(* ===== verification/CircuitBreaker.v ===== *)
(** * The circuit breaker

    Models src/internal/circuit_breaker.go: the three-state breaker with its
    count-based and rate-based thresholds, the calls wrapped by it, the
    registry of named breakers and the two specialised breakers. One clock
    reading per operation stands for the [time.Now] calls inside it. The
    state-change callback runs in its own goroutine and is not modelled. *)

From Stdlib Require Import ZArith Lia Floats.SpecFloat.
From stdpp Require Import base numbers list gmap strings.
From S2P Require Import Prelude GoFloat.

Local Open Scope Z_scope.
Local Open Scope go_scope.
#[local] Arguments wraps : simpl never.

Inductive CircuitState := CircuitClosed | CircuitOpen | CircuitHalfOpen.
#[export] Instance CircuitState_eq_dec : EqDecision CircuitState.
Proof. solve_decision. Defined.

Inductive cb_error := ErrCircuitOpen | ErrTooManyRequest | ErrCall | ErrContext.
#[export] Instance cb_error_eq_dec : EqDecision cb_error.
Proof. solve_decision. Defined.

Record CircuitBreakerConfig := mkCBConfig {
  Name : string;
  MaxFailures : Z;
  Timeout : Z;
  HalfOpenMaxCalls : Z;
  SuccessThreshold : Z;
  FailureRateWindow : Z;
  FailureRatePercent : float64 }.

Definition DefaultCircuitBreakerConfig (name : string) : CircuitBreakerConfig :=
  {| Name := name; MaxFailures := 5; Timeout := 30 * Second; HalfOpenMaxCalls := 3;
     SuccessThreshold := 2; FailureRateWindow := 60 * Second; FailureRatePercent := of_int 50 |}.

Record callResult := mkCallResult { timestamp : Z; success : bool }.

Record CircuitBreaker := mkCB {
  cb_config : CircuitBreakerConfig;
  state : CircuitState;
  failures : Z;
  successes : Z;
  lastFailure : Z;
  openedAt : Z;
  halfOpenCalls : Z;
  recentCalls : list callResult }.
#[export] Instance set_cb_config : Setter cb_config := fun f r =>
  mkCB (f (cb_config r)) (state r) (failures r) (successes r) (lastFailure r) (openedAt r) (halfOpenCalls r) (recentCalls r).
#[export] Instance set_state : Setter state := fun f r =>
  mkCB (cb_config r) (f (state r)) (failures r) (successes r) (lastFailure r) (openedAt r) (halfOpenCalls r) (recentCalls r).
#[export] Instance set_failures : Setter failures := fun f r =>
  mkCB (cb_config r) (state r) (f (failures r)) (successes r) (lastFailure r) (openedAt r) (halfOpenCalls r) (recentCalls r).
#[export] Instance set_successes : Setter successes := fun f r =>
  mkCB (cb_config r) (state r) (failures r) (f (successes r)) (lastFailure r) (openedAt r) (halfOpenCalls r) (recentCalls r).
#[export] Instance set_lastFailure : Setter lastFailure := fun f r =>
  mkCB (cb_config r) (state r) (failures r) (successes r) (f (lastFailure r)) (openedAt r) (halfOpenCalls r) (recentCalls r).
#[export] Instance set_openedAt : Setter openedAt := fun f r =>
  mkCB (cb_config r) (state r) (failures r) (successes r) (lastFailure r) (f (openedAt r)) (halfOpenCalls r) (recentCalls r).
#[export] Instance set_halfOpenCalls : Setter halfOpenCalls := fun f r =>
  mkCB (cb_config r) (state r) (failures r) (successes r) (lastFailure r) (openedAt r) (f (halfOpenCalls r)) (recentCalls r).
#[export] Instance set_recentCalls : Setter recentCalls := fun f r =>
  mkCB (cb_config r) (state r) (failures r) (successes r) (lastFailure r) (openedAt r) (halfOpenCalls r) (f (recentCalls r)).

Definition NewCircuitBreaker (config : option CircuitBreakerConfig) : CircuitBreaker :=
  let config := default (DefaultCircuitBreakerConfig "default") config in
  {| cb_config := config; state := CircuitClosed; failures := 0; successes := 0;
     lastFailure := 0; openedAt := 0; halfOpenCalls := 0; recentCalls := [] |}.

Definition GetState (cb : CircuitBreaker) : CircuitState := state cb.

Definition transitionTo (cb : CircuitBreaker) (newState : CircuitState) (now : Z) : CircuitBreaker :=
  if bool_decide (state cb = newState) then cb
  else
    let cb := cb <| state := newState |> in
    match newState with
    | CircuitClosed => cb <| failures := 0 |> <| successes := 0 |> <| halfOpenCalls := 0 |>
    | CircuitOpen => cb <| openedAt := now |> <| halfOpenCalls := 0 |>
    | CircuitHalfOpen => cb <| successes := 0 |> <| halfOpenCalls := 0 |>
    end.

(** [Allow] calls itself after the transition to half-open. *)
Fixpoint allow_loop (fuel : nat) (cb : CircuitBreaker) (now : Z) : CircuitBreaker * outcome cb_error unit :=
  match fuel with
  | O => (cb, OutOfFuel)
  | S fuel =>
      match GetState cb with
      | CircuitClosed => (cb, Ok tt)
      | CircuitOpen =>
          if negb (IsZero (openedAt cb)) && (Time_Sub now (openedAt cb) >? Timeout (cb_config cb)) then
            allow_loop fuel (transitionTo cb CircuitHalfOpen now) now
          else (cb, Err ErrCircuitOpen)
      | CircuitHalfOpen =>
          let cb := cb <| halfOpenCalls ::= fun n => i64 (n + 1) |> in
          if halfOpenCalls cb >? HalfOpenMaxCalls (cb_config cb) then
            (cb <| halfOpenCalls ::= fun n => i64 (n - 1) |>, Err ErrTooManyRequest)
          else (cb, Ok tt)
      end
  end.
Definition Allow (cb : CircuitBreaker) (now : Z) : CircuitBreaker * outcome cb_error unit :=
  allow_loop 2 cb now.

Definition recordCall (cb : CircuitBreaker) (success : bool) (now : Z) : CircuitBreaker :=
  let cutoff := Time_Add now (- FailureRateWindow (cb_config cb)) in
  let calls := recentCalls cb ++ [mkCallResult now success] in
  cb <| recentCalls := List.filter (fun call => After (timestamp call) cutoff) calls |>.

Definition getFailureRate (cb : CircuitBreaker) : float64 :=
  match recentCalls cb with
  | [] => of_int 0
  | calls =>
      let failed := length (List.filter (fun call => negb (success call)) calls) in
      fmul (fdiv (of_int (Z.of_nat failed)) (of_int (Z.of_nat (length calls)))) (of_int 100)
  end.

Definition Success (cb : CircuitBreaker) (now : Z) : CircuitBreaker :=
  let cb := recordCall cb true now in
  match GetState cb with
  | CircuitClosed => cb <| failures := 0 |>
  | CircuitHalfOpen =>
      let cb := cb <| successes ::= fun n => i64 (n + 1) |> in
      if successes cb >=? SuccessThreshold (cb_config cb) then transitionTo cb CircuitClosed now else cb
  | CircuitOpen => cb
  end.

Definition Failure (cb : CircuitBreaker) (now : Z) : CircuitBreaker :=
  let cb := recordCall cb false now <| lastFailure := now |> in
  match GetState cb with
  | CircuitClosed =>
      let cb := cb <| failures ::= fun n => i64 (n + 1) |> in
      if failures cb >=? MaxFailures (cb_config cb) then transitionTo cb CircuitOpen now
      else if flt (of_int 0) (FailureRatePercent (cb_config cb)) then
        if fle (FailureRatePercent (cb_config cb)) (getFailureRate cb)
        then transitionTo cb CircuitOpen now else cb
      else cb
  | CircuitHalfOpen => transitionTo cb CircuitOpen now
  | CircuitOpen => cb
  end.

(** A call through the breaker: [ok] is whether the wrapped function
    succeeds, [done] the time at which it returns. *)
Definition Execute (cb : CircuitBreaker) (now done : Z) (ok : bool) : CircuitBreaker * outcome cb_error unit :=
  match Allow cb now with
  | (cb, Ok _) => if ok then (Success cb done, Ok tt) else (Failure cb done, Err ErrCall)
  | (cb, e) => (cb, e)
  end.

(** [cancelled] is whether the context is done before the call. *)
Definition ExecuteWithContext (cb : CircuitBreaker) (now done : Z) (cancelled ok : bool) : CircuitBreaker * outcome cb_error unit :=
  match Allow cb now with
  | (cb, Ok _) =>
      if cancelled then (cb, Err ErrContext)
      else if ok then (Success cb done, Ok tt) else (Failure cb done, Err ErrCall)
  | (cb, e) => (cb, e)
  end.

(** The generic wrapper: [result] is what the function returns, with whether
    it failed. *)
Definition WrapWithCircuitBreaker {T : Type} (zero : T) (cb : CircuitBreaker) (now done : Z) (result : T) (ok : bool) : CircuitBreaker * T * outcome cb_error unit :=
  match Allow cb now with
  | (cb, Ok _) => if ok then (Success cb done, result, Ok tt) else (Failure cb done, result, Err ErrCall)
  | (cb, e) => (cb, zero, e)
  end.

Definition Reset (cb : CircuitBreaker) : CircuitBreaker :=
  cb <| state := CircuitClosed |> <| failures := 0 |> <| successes := 0 |> <| halfOpenCalls := 0 |>
     <| lastFailure := 0 |> <| openedAt := 0 |> <| recentCalls := [] |>.

Definition NewRedisCircuitBreaker : CircuitBreaker :=
  NewCircuitBreaker (Some {| Name := "redis"; MaxFailures := 3; Timeout := 10 * Second;
    HalfOpenMaxCalls := 2; SuccessThreshold := 2; FailureRateWindow := 30 * Second;
    FailureRatePercent := of_int 50 |}).

Definition NewRecordingCircuitBreaker : CircuitBreaker :=
  NewCircuitBreaker (Some {| Name := "recording"; MaxFailures := 5; Timeout := 60 * Second;
    HalfOpenMaxCalls := 1; SuccessThreshold := 3; FailureRateWindow := 120 * Second;
    FailureRatePercent := of_int 30 |}).

(** ** The registry *)

Abbreviation CircuitBreakerRegistry := (gmap string CircuitBreaker).

Definition NewCircuitBreakerRegistry : CircuitBreakerRegistry := ∅.

Definition registry_Get (r : CircuitBreakerRegistry) (name : string) : CircuitBreakerRegistry * CircuitBreaker :=
  match r !! name with
  | Some cb => (r, cb)
  | None =>
      let cb := NewCircuitBreaker (Some (DefaultCircuitBreakerConfig name)) in
      (<[name := cb]> r, cb)
  end.

Definition registry_GetWithConfig (r : CircuitBreakerRegistry) (config : CircuitBreakerConfig) : CircuitBreakerRegistry * CircuitBreaker :=
  match r !! Name config with
  | Some cb => (r, cb)
  | None =>
      let cb := NewCircuitBreaker (Some config) in
      (<[Name config := cb]> r, cb)
  end.

Definition registry_Reset (r : CircuitBreakerRegistry) (name : string) : CircuitBreakerRegistry :=
  match r !! name with
  | Some cb => <[name := Reset cb]> r
  | None => r
  end.

Definition registry_ResetAll (r : CircuitBreakerRegistry) : CircuitBreakerRegistry := Reset <$> r.

Example first_failure : state (Failure NewRedisCircuitBreaker Second) = CircuitOpen.
Proof. vm_compute. reflexivity. Qed.

(** ** Configurations without machine overflow *)

Record cfg_ok (c : CircuitBreakerConfig) : Prop := {
  co_failures : 1 <= MaxFailures c < 2 ^ 63;
  co_calls : 1 <= HalfOpenMaxCalls c < 2 ^ 63 - 1;
  co_successes : 1 <= SuccessThreshold c < 2 ^ 63;
}.

(** ** The invariant *)

Record cb_inv (cb : CircuitBreaker) : Prop := {
  ci_cfg : cfg_ok (cb_config cb);
  (** an open breaker knows since when, so it can leave the open state *)
  ci_opened : state cb = CircuitOpen -> openedAt cb <> 0;
  ci_calls : 0 <= halfOpenCalls cb <= HalfOpenMaxCalls (cb_config cb);
  ci_calls0 : state cb <> CircuitHalfOpen -> halfOpenCalls cb = 0;
  ci_failures : state cb = CircuitClosed -> 0 <= failures cb < MaxFailures (cb_config cb);
  ci_successes : state cb = CircuitHalfOpen -> 0 <= successes cb < SuccessThreshold (cb_config cb);
}.

(** The operations other goroutines may interleave. *)
Inductive cb_op := OpAllow (now : Z) | OpSuccess (now : Z) | OpFailure (now : Z) | OpReset.
Definition op_time (o : cb_op) : Z :=
  match o with OpAllow t | OpSuccess t | OpFailure t => t | OpReset => 1 end.

(** One operation, with whether it admitted a call. *)
Definition cb_step (cb : CircuitBreaker) (o : cb_op) : CircuitBreaker * bool :=
  match o with
  | OpAllow t => let '(cb, r) := Allow cb t in (cb, match r with Ok _ => true | _ => false end)
  | OpSuccess t => (Success cb t, false)
  | OpFailure t => (Failure cb t, false)
  | OpReset => (Reset cb, false)
  end.
Fixpoint cb_run (cb : CircuitBreaker) (ops : list cb_op) : CircuitBreaker :=
  match ops with [] => cb | o :: ops => cb_run (cb_step cb o).1 ops end.

Lemma i64_add1 n : 0 <= n < 2 ^ 63 - 1 -> i64 (n + 1) = n + 1.
Proof. intros. apply wraps_id; unfold is_s; lia. Qed.

Lemma i64_sub1 n : 0 < n < 2 ^ 63 -> i64 (n - 1) = n - 1.
Proof. intros. apply wraps_id; unfold is_s; lia. Qed.

(** The half-open branch of [Allow]. *)
Lemma allow_half_open fuel cb now :
  cb_inv cb -> state cb = CircuitHalfOpen ->
  allow_loop (S fuel) cb now =
  if halfOpenCalls cb <? HalfOpenMaxCalls (cb_config cb)
  then (cb <| halfOpenCalls := halfOpenCalls cb + 1 |>, Ok tt)
  else (cb, Err ErrTooManyRequest).
Proof.
  intros [Hc _ Hn _ _ _] Hs. pose proof (co_calls _ Hc). cbn. unfold GetState. rewrite Hs.
  rewrite i64_add1, Z.gtb_ltb by lia.
  destruct (Z.ltb_spec (HalfOpenMaxCalls (cb_config cb)) (halfOpenCalls cb + 1)),
    (Z.ltb_spec (halfOpenCalls cb) (HalfOpenMaxCalls (cb_config cb))); try lia; [|].
  - f_equal. destruct cb; unfold set_field, set_halfOpenCalls; cbn in *.
    rewrite (i64_add1 halfOpenCalls0), i64_sub1 by lia. f_equal; lia.
  - f_equal. destruct cb; unfold set_field, set_halfOpenCalls; cbn in *. by rewrite (i64_add1 halfOpenCalls0) by lia.
Qed.

Lemma to_half_open_inv cb now :
  cb_inv cb -> state cb = CircuitOpen -> cb_inv (transitionTo cb CircuitHalfOpen now).
Proof.
  intros [Hc Ho Hn H0 Hf Hs] E. pose proof (co_calls _ Hc). pose proof (co_successes _ Hc).
  unfold transitionTo. rewrite bool_decide_false by congruence.
  split; cbn; auto; try lia; congruence.
Qed.

Lemma allow_open fuel cb now :
  state cb = CircuitOpen -> openedAt cb <> 0 ->
  allow_loop (S fuel) cb now =
  if Time_Sub now (openedAt cb) >? Timeout (cb_config cb)
  then allow_loop fuel (transitionTo cb CircuitHalfOpen now) now
  else (cb, Err ErrCircuitOpen).
Proof.
  intros E Ho. change (allow_loop (S fuel) cb now) with
    (match state cb with
     | CircuitClosed => (cb, Ok tt)
     | CircuitOpen =>
         if negb (IsZero (openedAt cb)) && (Time_Sub now (openedAt cb) >? Timeout (cb_config cb)) then
            allow_loop fuel (transitionTo cb CircuitHalfOpen now) now
          else (cb, Err ErrCircuitOpen)
     | CircuitHalfOpen =>
         if i64 (halfOpenCalls cb + 1) >? HalfOpenMaxCalls (cb_config cb) then
            (cb <| halfOpenCalls ::= fun n => i64 (n + 1) |> <| halfOpenCalls ::= fun n => i64 (n - 1) |>, Err ErrTooManyRequest)
          else (cb <| halfOpenCalls ::= fun n => i64 (n + 1) |>, @Ok cb_error unit tt)
     end).
  rewrite E. by replace (IsZero (openedAt cb)) with false by (symmetry; by apply Z.eqb_neq).
Qed.

(** [Allow] on every state. *)
Lemma Allow_spec cb now :
  cb_inv cb ->
  match state cb with
  | CircuitClosed => Allow cb now = (cb, Ok tt)
  | CircuitOpen =>
      if Time_Sub now (openedAt cb) >? Timeout (cb_config cb)
      then Allow cb now = (transitionTo cb CircuitHalfOpen now <| halfOpenCalls := 1 |>, Ok tt)
      else Allow cb now = (cb, Err ErrCircuitOpen)
  | CircuitHalfOpen =>
      if halfOpenCalls cb <? HalfOpenMaxCalls (cb_config cb)
      then Allow cb now = (cb <| halfOpenCalls := halfOpenCalls cb + 1 |>, Ok tt)
      else Allow cb now = (cb, Err ErrTooManyRequest)
  end.
Proof.
  intros Hinv. unfold Allow. destruct (state cb) eqn:E.
  - cbn. unfold GetState. by rewrite E.
  - pose proof (ci_opened _ Hinv E) as Ho.
    rewrite allow_open by done. destruct (_ >? _) eqn:Et; [|done].
    rewrite allow_half_open; [|by apply to_half_open_inv|].
    2:{ unfold transitionTo. by rewrite bool_decide_false by congruence. }
    unfold transitionTo. rewrite bool_decide_false by congruence. cbn.
    pose proof (co_calls _ (ci_cfg _ Hinv)).
    destruct (Z.ltb_spec 0 (HalfOpenMaxCalls (cb_config cb))); [done|lia].
  - rewrite allow_half_open by done. by case_match.
Qed.

Lemma recordCall_inv cb b now : cb_inv cb -> cb_inv (recordCall cb b now).
Proof. by intros [? ? ? ? ? ?]. Qed.

Lemma Allow_inv cb now : cb_inv cb -> cb_inv (Allow cb now).1.
Proof.
  intros Hinv. pose proof (Allow_spec cb now Hinv) as Ha.
  pose proof Hinv as [Hc Ho Hn H0 Hf Hs]. pose proof (co_calls _ Hc). pose proof (co_successes _ Hc).
  destruct (state cb) eqn:E.
  - by rewrite Ha.
  - case_match; rewrite Ha; [|done]. unfold transitionTo.
    rewrite bool_decide_false by congruence. split; cbn; auto; try lia; congruence.
  - destruct (Z.ltb_spec (halfOpenCalls cb) (HalfOpenMaxCalls (cb_config cb))); rewrite Ha; [|done].
    split; cbn; auto; try lia; congruence.
Qed.

Lemma Success_inv cb now : cb_inv cb -> cb_inv (Success cb now).
Proof.
  intros Hinv%(fun H => recordCall_inv cb true now H). unfold Success.
  set (cb1 := recordCall cb true now) in *. clearbody cb1. pose proof Hinv as [Hc Ho Hn H0 Hf Hs].
  pose proof (co_failures _ Hc). pose proof (co_successes _ Hc). pose proof (co_calls _ Hc).
  unfold GetState. destruct (state cb1) eqn:E; [|done|].
  - split; cbn; rewrite ?E; auto; try lia; congruence.
  - specialize (Hs eq_refl). cbn. rewrite i64_add1 by lia.
    destruct (_ >=? _) eqn:Et; bool_prop.
    + unfold transitionTo. cbn. rewrite bool_decide_false by congruence. split; cbn; auto; try lia; congruence.
    + split; cbn; rewrite ?i64_add1 by lia; auto; try lia; congruence.
Qed.

Lemma to_open_inv cb now : cb_inv (cb <| failures := 0 |>) -> 0 < now -> cb_inv (transitionTo cb CircuitOpen now).
Proof.
  intros [Hc Ho Hn H0 Hf Hs] Ht. cbn in *. unfold transitionTo. case_bool_decide as E.
  - split; cbn; auto; congruence.
  - pose proof (co_calls _ Hc). split; cbn; auto; try lia; congruence.
Qed.

Lemma Failure_inv cb now : cb_inv cb -> 0 < now -> cb_inv (Failure cb now).
Proof.
  intros Hinv Ht. unfold Failure. set (cb1 := recordCall cb false now <| lastFailure := now |>).
  assert (cb_inv cb1) as [Hc Ho Hn H0 Hf Hs] by (by destruct Hinv). clearbody cb1.
  pose proof (co_failures _ Hc).
  assert (cb_inv (cb1 <| failures := 0 |>)) as Hz by (split; cbn; auto; lia).
  unfold GetState. destruct (state cb1) eqn:E; [|by split; auto; congruence|by apply to_open_inv].
  specialize (Hf eq_refl). cbn. rewrite i64_add1 by lia.
  destruct (_ >=? _) eqn:Et; bool_prop; [by apply to_open_inv|].
  assert (cb_inv (cb1 <| failures ::= fun n => i64 (n + 1) |>))
    by (split; cbn; rewrite ?i64_add1 by lia; auto; try lia; congruence).
  case_match; [|done]. case_match; [|done]. by apply to_open_inv.
Qed.

Lemma Reset_inv cb : cb_inv cb -> cb_inv (Reset cb).
Proof.
  intros [Hc ? ? ? ? ?]. pose proof (co_failures _ Hc). pose proof (co_calls _ Hc).
  split; cbn; try done; lia.
Qed.

#[local] Arguments Allow : simpl never.
#[local] Arguments Success : simpl never.
#[local] Arguments Failure : simpl never.

#[export] Hint Resolve Allow_inv Success_inv Failure_inv Reset_inv : karl.

Lemma cb_step_inv cb o : cb_inv cb -> 0 < op_time o -> cb_inv (cb_step cb o).1.
Proof.
  intros Hinv Ht. destruct o; cbn in *.
  2-4: auto with karl.
  pose proof (Allow_inv cb now Hinv). by destruct (Allow cb now).
Qed.

Lemma cb_run_inv cb ops : cb_inv cb -> Forall (fun o => 0 < op_time o) ops -> cb_inv (cb_run cb ops).
Proof. intros Hinv Hops. revert cb Hinv. induction Hops; cbn; intros; [done|]. by apply IHHops, cb_step_inv. Qed.

Lemma NewCircuitBreaker_inv c : cfg_ok c -> cb_inv (NewCircuitBreaker (Some c)).
Proof. intros [? ? ?]. split; cbn; try done; lia. Qed.

(** ** Consecutive failures

    With the rate check off ([FailureRatePercent] not above zero), a closed
    breaker opens exactly on [MaxFailures] failures in a row. *)

(** The outcome of each call a closed breaker let through. *)
Definition record (cb : CircuitBreaker) (r : bool * Z) : CircuitBreaker :=
  if r.1 then Success cb r.2 else Failure cb r.2.

(** The failures since the last success, and whether [n] of them ever came
    in a row. *)
Definition streak (k : Z) (r : bool * Z) : Z := if r.1 then 0 else k + 1.
Fixpoint has_streak (n k : Z) (rs : list (bool * Z)) : bool :=
  match rs with
  | [] => false
  | r :: rs => (n <=? streak k r) || has_streak n (streak k r) rs
  end.

Lemma record_open cb r : state cb = CircuitOpen -> state (record cb r) = CircuitOpen.
Proof.
  intros E. unfold record, Success, Failure, GetState, recordCall. destruct r.1; cbn; by rewrite E.
Qed.

Lemma record_config cb r : cb_config (record cb r) = cb_config cb.
Proof.
  unfold record, Success, Failure, transitionTo, recordCall.
  destruct r.1; cbn; repeat case_match; try done; repeat case_bool_decide; done.
Qed.

Lemma record_closed cb r :
  cb_inv cb -> state cb = CircuitClosed ->
  flt (of_int 0) (FailureRatePercent (cb_config cb)) = false ->
  let k := streak (failures cb) r in
  if MaxFailures (cb_config cb) <=? k then state (record cb r) = CircuitOpen
  else state (record cb r) = CircuitClosed /\ failures (record cb r) = k.
Proof.
  intros Hinv E Hrate. pose proof (ci_failures _ Hinv E). pose proof (co_failures _ (ci_cfg _ Hinv)).
  unfold record, streak, Success, Failure, GetState, recordCall. destruct r as [[] t]; cbn; rewrite E.
  - destruct (Z.leb_spec (MaxFailures (cb_config cb)) 0); [lia|]. by cbn.
  - cbn. rewrite i64_add1, Z.geb_leb by lia.
    destruct (Z.leb_spec (MaxFailures (cb_config cb)) (failures cb + 1)).
    + unfold transitionTo. rewrite bool_decide_false; [done|]. cbn. congruence.
    + unfold of_int in Hrate. cbn in Hrate. rewrite Hrate. cbn. by rewrite i64_add1 by lia.
Qed.

Lemma record_inv cb r : cb_inv cb -> 0 < r.2 -> cb_inv (record cb r).
Proof. intros. unfold record. destruct r.1; [by apply Success_inv|by apply Failure_inv]. Qed.

Lemma fold_record_open rs cb : state cb = CircuitOpen -> state (foldl record cb rs) = CircuitOpen.
Proof. revert cb. induction rs; cbn; intros; [done|]. by apply IHrs, record_open. Qed.

Lemma fold_record rs cb :
  cb_inv cb -> state cb = CircuitClosed ->
  flt (of_int 0) (FailureRatePercent (cb_config cb)) = false ->
  Forall (fun r => 0 < r.2) rs ->
  state (foldl record cb rs) =
  if has_streak (MaxFailures (cb_config cb)) (failures cb) rs then CircuitOpen else CircuitClosed.
Proof.
  intros Hinv E Hrate Ht. revert cb Hinv E Hrate. induction Ht as [|r rs Hr Hrs IH]; intros; [done|].
  cbn [foldl has_streak]. pose proof (record_closed cb r Hinv E Hrate) as Hc.
  cbn in Hc. destruct (_ <=? _); cbn.
  - by apply fold_record_open.
  - destruct Hc as [Hs Hf]. rewrite IH; rewrite ?record_config, ?Hf; try done. by apply record_inv.
Qed.

(** With the rate check off, a breaker that lets calls through opens
    exactly when [MaxFailures] of their outcomes in a row were failures; a
    success in between starts the count again. *)
Theorem consecutive_failures_open c rs :
  cfg_ok c -> flt (of_int 0) (FailureRatePercent c) = false -> Forall (fun r => 0 < r.2) rs ->
  state (foldl record (NewCircuitBreaker (Some c)) rs) =
  if has_streak (MaxFailures c) 0 rs then CircuitOpen else CircuitClosed.
Proof. intros Hc Hrate Ht. rewrite fold_record; auto using NewCircuitBreaker_inv. Qed.

Definition count_only : CircuitBreakerConfig :=
  {| Name := "count"; MaxFailures := 2; Timeout := Second; HalfOpenMaxCalls := 1;
     SuccessThreshold := 1; FailureRateWindow := Second; FailureRatePercent := of_int 0 |}.
Lemma count_only_ok : cfg_ok count_only.
Proof. by split; cbn. Qed.

Lemma consecutive_failures_open_witness :
  state (foldl record (NewCircuitBreaker (Some count_only)) [(false, 1); (true, 2); (false, 3)]) = CircuitClosed /\
  state (foldl record (NewCircuitBreaker (Some count_only)) [(false, 1); (false, 2)]) = CircuitOpen.
Proof.
  split; rewrite (consecutive_failures_open count_only);
    first [reflexivity | apply count_only_ok | repeat constructor; cbn; lia].
Defined.

(** Every state a breaker reaches by any interleaving of its operations
    satisfies the invariant: an open breaker knows when it opened, the
    half-open admissions stay within [HalfOpenMaxCalls] and are zero outside
    the half-open state, and the failure and success counts stay below the
    thresholds that would have moved it on. *)
Theorem reachable_invariant c ops :
  cfg_ok c -> Forall (fun o => 0 < op_time o) ops -> cb_inv (cb_run (NewCircuitBreaker (Some c)) ops).
Proof. intros. by apply cb_run_inv; [apply NewCircuitBreaker_inv|]. Qed.

Lemma reachable_invariant_witness :
  cb_inv (cb_run (NewCircuitBreaker (Some count_only))
    [OpFailure 1; OpFailure 2; OpAllow (3 * Second); OpAllow (4 * Second); OpSuccess (5 * Second)]).
Proof. apply reachable_invariant; [apply count_only_ok|repeat constructor; cbn; lia]. Defined.

(** ** Recovery *)

(** Calls made one after the other, with the time each starts and ends and
    whether it succeeds; the results are in call order. *)
Fixpoint executes (cb : CircuitBreaker) (calls : list (Z * Z * bool)) : CircuitBreaker * list (outcome cb_error unit) :=
  match calls with
  | [] => (cb, [])
  | (now, fin, ok) :: calls =>
      let '(cb, r) := Execute cb now fin ok in
      let '(cb, rs) := executes cb calls in (cb, r :: rs)
  end.
Definition all_ok (ts : list (Z * Z)) : list (Z * Z * bool) := (fun t => (t, true)) <$> ts.

Lemma executes_closed cb ts :
  state cb = CircuitClosed ->
  state (executes cb (all_ok ts)).1 = CircuitClosed /\ Forall (eq (Ok tt)) (executes cb (all_ok ts)).2.
Proof.
  revert cb. induction ts as [|[now fin] ts IH]; intros cb E; [by split; cbn|].
  cbn. unfold Execute. assert (Allow cb now = (cb, Ok tt)) as -> by (unfold Allow; cbn; unfold GetState; by rewrite E).
  cbn. destruct (IH (Success cb fin)) as [H1 H2].
  { unfold Success, recordCall, GetState; cbn. by rewrite E. }
  destruct (executes _ _); cbn in *. auto.
Qed.

(** One successful call of a half-open breaker with a free slot. *)
Lemma execute_half_open cb now fin :
  cb_inv cb -> state cb = CircuitHalfOpen -> halfOpenCalls cb < HalfOpenMaxCalls (cb_config cb) ->
  exists cb', Execute cb now fin true = (cb', Ok tt) /\ cb_inv cb' /\ cb_config cb' = cb_config cb /\
    if SuccessThreshold (cb_config cb) <=? successes cb + 1 then state cb' = CircuitClosed
    else state cb' = CircuitHalfOpen /\ successes cb' = successes cb + 1 /\ halfOpenCalls cb' = halfOpenCalls cb + 1.
Proof.
  intros Hinv E Hfree. pose proof (Allow_spec cb now Hinv) as Ha. pose proof (Allow_inv cb now Hinv) as Hi.
  rewrite E in Ha. destruct (Z.ltb_spec (halfOpenCalls cb) (HalfOpenMaxCalls (cb_config cb))); [|lia].
  unfold Execute. rewrite Ha in *. eexists; split; [done|]. split; [by apply Success_inv|].
  pose proof (ci_successes _ Hinv E). pose proof (co_successes _ (ci_cfg _ Hinv)).
  unfold Success, recordCall, GetState. cbn. rewrite E. rewrite i64_add1, Z.geb_leb by lia.
  destruct (_ <=? _); cbn.
  - unfold transitionTo. rewrite bool_decide_false by (cbn; congruence). by cbn.
  - by rewrite i64_add1 by lia.
Qed.

Lemma executes_half_open cb ts :
  cb_inv cb -> state cb = CircuitHalfOpen ->
  successes cb + Z.of_nat (length ts) = SuccessThreshold (cb_config cb) ->
  halfOpenCalls cb + Z.of_nat (length ts) <= HalfOpenMaxCalls (cb_config cb) ->
  state (executes cb (all_ok ts)).1 = CircuitClosed /\ Forall (eq (Ok tt)) (executes cb (all_ok ts)).2.
Proof.
  revert cb. induction ts as [|[now fin] ts IH]; intros cb Hinv E Hs Hc.
  { cbn in Hs. pose proof (ci_successes _ Hinv E). lia. }
  cbn [length] in *. destruct (execute_half_open cb now fin) as (cb' & He & Hi & Hcfg & H); [done..|lia|].
  cbn. rewrite He. enough (state (executes cb' (all_ok ts)).1 = CircuitClosed /\ Forall (eq (Ok tt)) (executes cb' (all_ok ts)).2)
    as [H1 H2] by (destruct (executes cb' _); cbn in *; auto).
  destruct (Z.leb_spec (SuccessThreshold (cb_config cb)) (successes cb + 1)); [by apply executes_closed|].
  destruct H as (H1 & H2 & H3). apply IH; auto; rewrite ?H2, ?H3, ?Hcfg; lia.
Qed.

(** The call that finds the timeout elapsed. *)
Lemma execute_open_elapsed cb now fin :
  cb_inv cb -> state cb = CircuitOpen -> Timeout (cb_config cb) < Time_Sub now (openedAt cb) ->
  exists cb', Execute cb now fin true = (cb', Ok tt) /\ cb_inv cb' /\ cb_config cb' = cb_config cb /\
    if SuccessThreshold (cb_config cb) <=? 1 then state cb' = CircuitClosed
    else state cb' = CircuitHalfOpen /\ successes cb' = 1 /\ halfOpenCalls cb' = 1.
Proof.
  intros Hinv E Ht. pose proof (Allow_spec cb now Hinv) as Ha. pose proof (Allow_inv cb now Hinv) as Hi.
  rewrite E in Ha. destruct (_ >? _) eqn:Et; bool_prop; [|lia].
  unfold Execute. rewrite Ha in *. eexists; split; [done|]. split; [by apply Success_inv|].
  pose proof (co_successes _ (ci_cfg _ Hinv)).
  unfold Success, recordCall, GetState, transitionTo. rewrite (bool_decide_false (state cb = _)) by congruence. cbn.
  rewrite i64_add1, Z.geb_leb by lia. change (0 + 1) with 1. destruct (_ <=? 1); cbn; by repeat split.
Qed.

(** A breaker whose half-open budget covers the success threshold
    recovers: once the timeout since it opened has passed, the next
    [SuccessThreshold] calls are all let through and, all succeeding, leave it
    closed. *)
Theorem open_breaker_recovers cb now fin ts :
  cb_inv cb -> state cb = CircuitOpen -> Timeout (cb_config cb) < Time_Sub now (openedAt cb) ->
  SuccessThreshold (cb_config cb) <= HalfOpenMaxCalls (cb_config cb) ->
  Z.of_nat (length ((now, fin) :: ts)) = SuccessThreshold (cb_config cb) ->
  state (executes cb (all_ok ((now, fin) :: ts))).1 = CircuitClosed /\
  Forall (eq (Ok tt)) (executes cb (all_ok ((now, fin) :: ts))).2.
Proof.
  intros Hinv E Ht Hle Hn. cbn [length] in Hn.
  destruct (execute_open_elapsed cb now fin) as (cb' & He & Hi & Hcfg & H); [done..|].
  cbn. rewrite He. enough (state (executes cb' (all_ok ts)).1 = CircuitClosed /\ Forall (eq (Ok tt)) (executes cb' (all_ok ts)).2)
    as [H1 H2] by (destruct (executes cb' _); cbn in *; auto).
  destruct (Z.leb_spec (SuccessThreshold (cb_config cb)) 1); [by apply executes_closed|].
  destruct H as (H1 & H2 & H3). apply executes_half_open; auto; rewrite ?H2, ?H3, ?Hcfg; lia.
Qed.

(** The redis breaker after its first failure. *)
Definition redis_open : CircuitBreaker := Eval vm_compute in Failure NewRedisCircuitBreaker Second.
Lemma redis_open_inv : cb_inv redis_open.
Proof. repeat split; cbn; lia || done. Qed.

Lemma open_breaker_recovers_witness :
  state (executes redis_open (all_ok [(20 * Second, 21 * Second); (22 * Second, 23 * Second)])).1 = CircuitClosed.
Proof.
  apply (open_breaker_recovers redis_open (20 * Second) (21 * Second) [(22 * Second, 23 * Second)]);
    [apply redis_open_inv | reflexivity | vm_compute; reflexivity | vm_compute; discriminate | reflexivity].
Defined.

(** ** Breakers that cannot close *)

(** Half-open slots are taken and never given back, so fewer slots than the
    success threshold keep the breaker out of the closed state. *)
Record short_budget (cb : CircuitBreaker) : Prop := {
  sb_inv : cb_inv cb;
  sb_cfg : HalfOpenMaxCalls (cb_config cb) < SuccessThreshold (cb_config cb);
  sb_state : state cb <> CircuitClosed;
  sb_used : state cb = CircuitHalfOpen -> successes cb <= halfOpenCalls cb;
}.

(** What [Allow] leaves behind when it lets a call through. *)
Lemma Allow_short_budget cb now cb' :
  short_budget cb -> Allow cb now = (cb', Ok tt) ->
  cb_inv cb' /\ cb_config cb' = cb_config cb /\ state cb' = CircuitHalfOpen /\ successes cb' + 1 <= halfOpenCalls cb'.
Proof.
  intros [Hinv Hcfg Hst Hused] Ha. pose proof (Allow_inv cb now Hinv) as Hi. rewrite Ha in Hi.
  pose proof (Allow_spec cb now Hinv) as Hspec. rewrite Ha in Hspec. split; [done|].
  destruct (state cb) eqn:E; [done|..].
  - destruct (_ >? _); simplify_eq. unfold transitionTo. rewrite bool_decide_false by congruence. cbn. done.
  - destruct (_ <? _); simplify_eq. cbn. rewrite E. specialize (Hused eq_refl). repeat split; lia.
Qed.

Lemma Success_short_budget cb now :
  cb_inv cb -> HalfOpenMaxCalls (cb_config cb) < SuccessThreshold (cb_config cb) ->
  state cb = CircuitHalfOpen -> successes cb + 1 <= halfOpenCalls cb -> short_budget (Success cb now).
Proof.
  intros Hinv Hcfg E Hs. pose proof (ci_calls _ Hinv). pose proof (co_successes _ (ci_cfg _ Hinv)).
  pose proof (ci_successes _ Hinv E).
  split; [by apply Success_inv|..]; unfold Success, recordCall, GetState; cbn; rewrite E; cbn;
    rewrite i64_add1, Z.geb_leb by lia; destruct (Z.leb_spec (SuccessThreshold (cb_config cb)) (successes cb + 1)); try lia.
  - done.
  - cbn. congruence.
  - cbn. rewrite i64_add1 by lia. lia.
Qed.

Lemma Failure_short_budget cb now :
  0 < now -> cb_inv cb -> HalfOpenMaxCalls (cb_config cb) < SuccessThreshold (cb_config cb) ->
  state cb = CircuitHalfOpen -> short_budget (Failure cb now).
Proof.
  intros Ht Hinv Hcfg E. split; [by apply Failure_inv|..]; unfold Failure, recordCall, GetState, transitionTo;
    cbn; rewrite E; by rewrite bool_decide_false.
Qed.

Lemma Execute_short_budget cb now fin ok :
  short_budget cb -> 0 < fin -> short_budget (Execute cb now fin ok).1.
Proof.
  intros Hb Ht. unfold Execute. destruct (Allow cb now) as [cb' [[]| | |]] eqn:Ha.
  - apply Allow_short_budget in Ha as (Hi & Hc & Hs & Hle); [|done]. pose proof (sb_cfg _ Hb).
    destruct ok; [apply Success_short_budget|apply Failure_short_budget]; by rewrite ?Hc.
  - pose proof (Allow_spec cb now (sb_inv _ Hb)) as Hs. rewrite Ha in Hs.
    repeat case_match; simplify_eq; done.
  - pose proof (Allow_spec cb now (sb_inv _ Hb)) as Hs. rewrite Ha in Hs. repeat case_match; simplify_eq.
  - pose proof (Allow_spec cb now (sb_inv _ Hb)) as Hs. rewrite Ha in Hs. repeat case_match; simplify_eq.
Qed.

Lemma executes_short_budget cb calls :
  short_budget cb -> Forall (fun c => 0 < c.1.2) calls -> short_budget (executes cb calls).1.
Proof.
  intros Hb Hc. revert cb Hb. induction Hc as [|[[now fin] ok] calls Ht _ IH]; intros; cbn in *; [done|].
  pose proof (Execute_short_budget cb now fin ok Hb Ht) as H. destruct (Execute cb now fin ok) as [cb' r].
  specialize (IH cb' H). by destruct (executes cb' calls).
Qed.

(** The recording breaker never closes again after it first opens: no
    sequence of calls made through it, whatever their times and results,
    brings it back to the closed state. *)
Theorem recording_breaker_never_recovers t calls :
  0 < t -> Forall (fun c => 0 < c.1.2) calls ->
  state (executes (Failure NewRecordingCircuitBreaker t) calls).1 <> CircuitClosed.
Proof.
  intros Ht Hc. apply (sb_state (executes (Failure NewRecordingCircuitBreaker t) calls).1), executes_short_budget; [|done].
  assert (Failure NewRecordingCircuitBreaker t = mkCB (cb_config NewRecordingCircuitBreaker) CircuitOpen 1 0 t t 0 [mkCallResult t false]) as ->.
  { unfold Failure, recordCall. cbn -[getFailureRate Time_Add After Second].
    assert (After t (Time_Add t (- (120 * Second))) = true) as -> by (unfold After, Time_Add, Second; lia).
    reflexivity. }
  assert (cfg_ok (cb_config NewRecordingCircuitBreaker)) by (by split; cbn).
  split; [split|..]; cbn; try done; try lia.
Qed.

Lemma recording_breaker_never_recovers_witness :
  state (executes (Failure NewRecordingCircuitBreaker Second)
    (all_ok [(62 * Second, 63 * Second); (130 * Second, 131 * Second); (300 * Second, 301 * Second)])).1 <> CircuitClosed.
Proof. apply recording_breaker_never_recovers; [reflexivity|repeat constructor]. Defined.

(** With a failure rate threshold of at most 100 percent the first
    failure of a fresh breaker opens it, whatever [MaxFailures] is: the one
    call in the window makes the rate 100 percent. *)
Theorem first_failure_opens c t :
  0 < FailureRateWindow c -> flt (of_int 0) (FailureRatePercent c) = true ->
  fle (FailureRatePercent c) (of_int 100) = true ->
  state (Failure (NewCircuitBreaker (Some c)) t) = CircuitOpen.
Proof.
  intros Hw H0 H1. unfold Failure, recordCall. cbn -[getFailureRate Time_Add After of_int].
  assert (After t (Time_Add t (- FailureRateWindow c)) = true) as -> by (unfold After, Time_Add; lia).
  case_match; [done|]. cbn -[getFailureRate of_int]. rewrite H0.
  match goal with |- context [getFailureRate ?cb] => replace (getFailureRate cb) with (of_int 100) by (vm_compute; reflexivity) end.
  by rewrite H1.
Qed.

Lemma first_failure_opens_witness :
  state (Failure (NewCircuitBreaker (Some (DefaultCircuitBreakerConfig "x"))) Second) = CircuitOpen.
Proof. apply first_failure_opens; reflexivity. Defined.

(** ** Concurrent admissions

    [Allow] takes a half-open slot with an atomic increment and gives it back
    with a separate atomic decrement when it went over the limit. The state
    counts the calls let through and the goroutines between the two. *)

Record slots := mkSlots { calls : Z; admitted : Z; backing_out : Z }.

Inductive slot_step (limit : Z) : slots -> slots -> Prop :=
| slot_take s :
    i64 (calls s + 1) <= limit ->
    slot_step limit s (mkSlots (i64 (calls s + 1)) (admitted s + 1) (backing_out s))
| slot_over s :
    limit < i64 (calls s + 1) ->
    backing_out s + 1 < 2 ^ 62 ->
    slot_step limit s (mkSlots (i64 (calls s + 1)) (admitted s) (backing_out s + 1))
| slot_back s :
    0 < backing_out s ->
    slot_step limit s (mkSlots (i64 (calls s - 1)) (admitted s) (backing_out s - 1)).

Record slots_ok (limit : Z) (s : slots) : Prop := {
  so_calls : calls s = admitted s + backing_out s;
  so_admitted : 0 <= admitted s <= limit;
  so_back : 0 <= backing_out s < 2 ^ 62 }.

Lemma slot_step_ok limit s s' :
  0 <= limit < 2 ^ 62 -> slots_ok limit s -> slot_step limit s s' -> slots_ok limit s'.
Proof.
  intros Hl Hok Hstep. revert Hok. destruct Hstep as [s1 H|s1 H H'|s1 H]; intros [Hc Ha Hb].
  - rewrite i64_add1 in H by lia. split; cbn; rewrite ?i64_add1; lia.
  - rewrite i64_add1 in H by lia. split; cbn; rewrite ?i64_add1; lia.
  - split; cbn; rewrite ?i64_sub1; lia.
Qed.

(** However the increments and decrements of concurrent [Allow] calls
    interleave, a half-open phase lets at most [HalfOpenMaxCalls] calls
    through, and once every goroutine has backed out the counter is exactly
    the number of calls let through. *)
Theorem half_open_budget_concurrent limit s :
  0 <= limit < 2 ^ 62 -> rtc (slot_step limit) (mkSlots 0 0 0) s ->
  admitted s <= limit /\ (backing_out s = 0 -> calls s = admitted s).
Proof.
  intros Hl Hr. enough (slots_ok limit s) as [Hc Ha Hb] by (split; lia).
  assert (slots_ok limit (mkSlots 0 0 0)) as H0 by (split; cbn; lia).
  induction Hr; [done|]. by apply IHHr, (slot_step_ok limit x).
Qed.

Lemma half_open_budget_concurrent_witness :
  admitted (mkSlots 1 1 0) <= 1 /\ (backing_out (mkSlots 1 1 0) = 0 -> calls (mkSlots 1 1 0) = admitted (mkSlots 1 1 0)).
Proof.
  apply (half_open_budget_concurrent 1); [lia|].
  apply (rtc_l _ _ (mkSlots 1 1 0)); [by apply (slot_take 1 (mkSlots 0 0 0))|].
  apply (rtc_l _ _ (mkSlots 2 1 1)); [by apply (slot_over 1 (mkSlots 1 1 0))|].
  apply (rtc_l _ _ (mkSlots 1 1 0)); [by apply (slot_back 1 (mkSlots 2 1 1))|].
  apply rtc_refl.
Defined.
