(* ===== verification/LegStateMachine.v ===== *)
(** * Legs of a call and forked calls

    Models src/internal/leg_state_machine.go: the offer/answer state machine
    of one leg with its hold detection, SSRC history and payload type maps,
    and the manager of the legs a forked call creates. The manager keeps
    pointers to legs that callers also hold, so legs live in a store. *)

From Stdlib Require Import ZArith Lia String Permutation.
From stdpp Require Import base numbers list gmap strings.
From S2P Require Import Prelude.

Local Open Scope Z_scope.
Local Open Scope go_scope.

Inductive LegState :=
  LegStateInit | LegStateOfferPending | LegStateAnswerPending | LegStateEstablished
| LegStateReOfferPending | LegStateReAnswerPending | LegStateHold | LegStateTerminated.
#[export] Instance LegState_eq_dec : EqDecision LegState.
Proof. solve_decision. Defined.

Inductive MediaDirection :=
  MediaDirectionSendRecv | MediaDirectionSendOnly | MediaDirectionRecvOnly | MediaDirectionInactive.
#[export] Instance MediaDirection_eq_dec : EqDecision MediaDirection.
Proof. solve_decision. Defined.

Record SSRCChange := mkSSRCChange {
  OldSSRC : Z;
  NewSSRC : Z;
  Timestamp : Z;
  Reason : string }.

(** [PreviousState] and [PreviousDirection] start as the empty string, which
    is none of the constants. *)
Record LegStateMachine := mkLeg {
  Tag : string;
  Label : string;
  State : LegState;
  Direction : MediaDirection;
  PreviousState : option LegState;
  PreviousDirection : option MediaDirection;
  LocalSDP : string;
  RemoteSDP : string;
  OfferSource : string;
  CreatedAt : Z;
  LastStateChange : Z;
  EstablishedAt : Z;
  HoldStartedAt : Z;
  IsOnHold : bool;
  HoldInitiator : string;
  EarlyMediaActive : bool;
  EarlyMediaStartedAt : Z;
  LocalSSRC : Z;
  RemoteSSRC : Z;
  SSRCHistory : list SSRCChange;
  PTMap : gmap Z Z;
  ReversePTMap : gmap Z Z }.
#[export] Instance set_Tag : Setter Tag := fun f r =>
  mkLeg (f (Tag r)) (Label r) (State r) (Direction r) (PreviousState r) (PreviousDirection r) (LocalSDP r) (RemoteSDP r) (OfferSource r) (CreatedAt r) (LastStateChange r) (EstablishedAt r) (HoldStartedAt r) (IsOnHold r) (HoldInitiator r) (EarlyMediaActive r) (EarlyMediaStartedAt r) (LocalSSRC r) (RemoteSSRC r) (SSRCHistory r) (PTMap r) (ReversePTMap r).
#[export] Instance set_Label : Setter Label := fun f r =>
  mkLeg (Tag r) (f (Label r)) (State r) (Direction r) (PreviousState r) (PreviousDirection r) (LocalSDP r) (RemoteSDP r) (OfferSource r) (CreatedAt r) (LastStateChange r) (EstablishedAt r) (HoldStartedAt r) (IsOnHold r) (HoldInitiator r) (EarlyMediaActive r) (EarlyMediaStartedAt r) (LocalSSRC r) (RemoteSSRC r) (SSRCHistory r) (PTMap r) (ReversePTMap r).
#[export] Instance set_State : Setter State := fun f r =>
  mkLeg (Tag r) (Label r) (f (State r)) (Direction r) (PreviousState r) (PreviousDirection r) (LocalSDP r) (RemoteSDP r) (OfferSource r) (CreatedAt r) (LastStateChange r) (EstablishedAt r) (HoldStartedAt r) (IsOnHold r) (HoldInitiator r) (EarlyMediaActive r) (EarlyMediaStartedAt r) (LocalSSRC r) (RemoteSSRC r) (SSRCHistory r) (PTMap r) (ReversePTMap r).
#[export] Instance set_Direction : Setter Direction := fun f r =>
  mkLeg (Tag r) (Label r) (State r) (f (Direction r)) (PreviousState r) (PreviousDirection r) (LocalSDP r) (RemoteSDP r) (OfferSource r) (CreatedAt r) (LastStateChange r) (EstablishedAt r) (HoldStartedAt r) (IsOnHold r) (HoldInitiator r) (EarlyMediaActive r) (EarlyMediaStartedAt r) (LocalSSRC r) (RemoteSSRC r) (SSRCHistory r) (PTMap r) (ReversePTMap r).
#[export] Instance set_PreviousState : Setter PreviousState := fun f r =>
  mkLeg (Tag r) (Label r) (State r) (Direction r) (f (PreviousState r)) (PreviousDirection r) (LocalSDP r) (RemoteSDP r) (OfferSource r) (CreatedAt r) (LastStateChange r) (EstablishedAt r) (HoldStartedAt r) (IsOnHold r) (HoldInitiator r) (EarlyMediaActive r) (EarlyMediaStartedAt r) (LocalSSRC r) (RemoteSSRC r) (SSRCHistory r) (PTMap r) (ReversePTMap r).
#[export] Instance set_PreviousDirection : Setter PreviousDirection := fun f r =>
  mkLeg (Tag r) (Label r) (State r) (Direction r) (PreviousState r) (f (PreviousDirection r)) (LocalSDP r) (RemoteSDP r) (OfferSource r) (CreatedAt r) (LastStateChange r) (EstablishedAt r) (HoldStartedAt r) (IsOnHold r) (HoldInitiator r) (EarlyMediaActive r) (EarlyMediaStartedAt r) (LocalSSRC r) (RemoteSSRC r) (SSRCHistory r) (PTMap r) (ReversePTMap r).
#[export] Instance set_LocalSDP : Setter LocalSDP := fun f r =>
  mkLeg (Tag r) (Label r) (State r) (Direction r) (PreviousState r) (PreviousDirection r) (f (LocalSDP r)) (RemoteSDP r) (OfferSource r) (CreatedAt r) (LastStateChange r) (EstablishedAt r) (HoldStartedAt r) (IsOnHold r) (HoldInitiator r) (EarlyMediaActive r) (EarlyMediaStartedAt r) (LocalSSRC r) (RemoteSSRC r) (SSRCHistory r) (PTMap r) (ReversePTMap r).
#[export] Instance set_RemoteSDP : Setter RemoteSDP := fun f r =>
  mkLeg (Tag r) (Label r) (State r) (Direction r) (PreviousState r) (PreviousDirection r) (LocalSDP r) (f (RemoteSDP r)) (OfferSource r) (CreatedAt r) (LastStateChange r) (EstablishedAt r) (HoldStartedAt r) (IsOnHold r) (HoldInitiator r) (EarlyMediaActive r) (EarlyMediaStartedAt r) (LocalSSRC r) (RemoteSSRC r) (SSRCHistory r) (PTMap r) (ReversePTMap r).
#[export] Instance set_OfferSource : Setter OfferSource := fun f r =>
  mkLeg (Tag r) (Label r) (State r) (Direction r) (PreviousState r) (PreviousDirection r) (LocalSDP r) (RemoteSDP r) (f (OfferSource r)) (CreatedAt r) (LastStateChange r) (EstablishedAt r) (HoldStartedAt r) (IsOnHold r) (HoldInitiator r) (EarlyMediaActive r) (EarlyMediaStartedAt r) (LocalSSRC r) (RemoteSSRC r) (SSRCHistory r) (PTMap r) (ReversePTMap r).
#[export] Instance set_CreatedAt : Setter CreatedAt := fun f r =>
  mkLeg (Tag r) (Label r) (State r) (Direction r) (PreviousState r) (PreviousDirection r) (LocalSDP r) (RemoteSDP r) (OfferSource r) (f (CreatedAt r)) (LastStateChange r) (EstablishedAt r) (HoldStartedAt r) (IsOnHold r) (HoldInitiator r) (EarlyMediaActive r) (EarlyMediaStartedAt r) (LocalSSRC r) (RemoteSSRC r) (SSRCHistory r) (PTMap r) (ReversePTMap r).
#[export] Instance set_LastStateChange : Setter LastStateChange := fun f r =>
  mkLeg (Tag r) (Label r) (State r) (Direction r) (PreviousState r) (PreviousDirection r) (LocalSDP r) (RemoteSDP r) (OfferSource r) (CreatedAt r) (f (LastStateChange r)) (EstablishedAt r) (HoldStartedAt r) (IsOnHold r) (HoldInitiator r) (EarlyMediaActive r) (EarlyMediaStartedAt r) (LocalSSRC r) (RemoteSSRC r) (SSRCHistory r) (PTMap r) (ReversePTMap r).
#[export] Instance set_EstablishedAt : Setter EstablishedAt := fun f r =>
  mkLeg (Tag r) (Label r) (State r) (Direction r) (PreviousState r) (PreviousDirection r) (LocalSDP r) (RemoteSDP r) (OfferSource r) (CreatedAt r) (LastStateChange r) (f (EstablishedAt r)) (HoldStartedAt r) (IsOnHold r) (HoldInitiator r) (EarlyMediaActive r) (EarlyMediaStartedAt r) (LocalSSRC r) (RemoteSSRC r) (SSRCHistory r) (PTMap r) (ReversePTMap r).
#[export] Instance set_HoldStartedAt : Setter HoldStartedAt := fun f r =>
  mkLeg (Tag r) (Label r) (State r) (Direction r) (PreviousState r) (PreviousDirection r) (LocalSDP r) (RemoteSDP r) (OfferSource r) (CreatedAt r) (LastStateChange r) (EstablishedAt r) (f (HoldStartedAt r)) (IsOnHold r) (HoldInitiator r) (EarlyMediaActive r) (EarlyMediaStartedAt r) (LocalSSRC r) (RemoteSSRC r) (SSRCHistory r) (PTMap r) (ReversePTMap r).
#[export] Instance set_IsOnHold : Setter IsOnHold := fun f r =>
  mkLeg (Tag r) (Label r) (State r) (Direction r) (PreviousState r) (PreviousDirection r) (LocalSDP r) (RemoteSDP r) (OfferSource r) (CreatedAt r) (LastStateChange r) (EstablishedAt r) (HoldStartedAt r) (f (IsOnHold r)) (HoldInitiator r) (EarlyMediaActive r) (EarlyMediaStartedAt r) (LocalSSRC r) (RemoteSSRC r) (SSRCHistory r) (PTMap r) (ReversePTMap r).
#[export] Instance set_HoldInitiator : Setter HoldInitiator := fun f r =>
  mkLeg (Tag r) (Label r) (State r) (Direction r) (PreviousState r) (PreviousDirection r) (LocalSDP r) (RemoteSDP r) (OfferSource r) (CreatedAt r) (LastStateChange r) (EstablishedAt r) (HoldStartedAt r) (IsOnHold r) (f (HoldInitiator r)) (EarlyMediaActive r) (EarlyMediaStartedAt r) (LocalSSRC r) (RemoteSSRC r) (SSRCHistory r) (PTMap r) (ReversePTMap r).
#[export] Instance set_EarlyMediaActive : Setter EarlyMediaActive := fun f r =>
  mkLeg (Tag r) (Label r) (State r) (Direction r) (PreviousState r) (PreviousDirection r) (LocalSDP r) (RemoteSDP r) (OfferSource r) (CreatedAt r) (LastStateChange r) (EstablishedAt r) (HoldStartedAt r) (IsOnHold r) (HoldInitiator r) (f (EarlyMediaActive r)) (EarlyMediaStartedAt r) (LocalSSRC r) (RemoteSSRC r) (SSRCHistory r) (PTMap r) (ReversePTMap r).
#[export] Instance set_EarlyMediaStartedAt : Setter EarlyMediaStartedAt := fun f r =>
  mkLeg (Tag r) (Label r) (State r) (Direction r) (PreviousState r) (PreviousDirection r) (LocalSDP r) (RemoteSDP r) (OfferSource r) (CreatedAt r) (LastStateChange r) (EstablishedAt r) (HoldStartedAt r) (IsOnHold r) (HoldInitiator r) (EarlyMediaActive r) (f (EarlyMediaStartedAt r)) (LocalSSRC r) (RemoteSSRC r) (SSRCHistory r) (PTMap r) (ReversePTMap r).
#[export] Instance set_LocalSSRC : Setter LocalSSRC := fun f r =>
  mkLeg (Tag r) (Label r) (State r) (Direction r) (PreviousState r) (PreviousDirection r) (LocalSDP r) (RemoteSDP r) (OfferSource r) (CreatedAt r) (LastStateChange r) (EstablishedAt r) (HoldStartedAt r) (IsOnHold r) (HoldInitiator r) (EarlyMediaActive r) (EarlyMediaStartedAt r) (f (LocalSSRC r)) (RemoteSSRC r) (SSRCHistory r) (PTMap r) (ReversePTMap r).
#[export] Instance set_RemoteSSRC : Setter RemoteSSRC := fun f r =>
  mkLeg (Tag r) (Label r) (State r) (Direction r) (PreviousState r) (PreviousDirection r) (LocalSDP r) (RemoteSDP r) (OfferSource r) (CreatedAt r) (LastStateChange r) (EstablishedAt r) (HoldStartedAt r) (IsOnHold r) (HoldInitiator r) (EarlyMediaActive r) (EarlyMediaStartedAt r) (LocalSSRC r) (f (RemoteSSRC r)) (SSRCHistory r) (PTMap r) (ReversePTMap r).
#[export] Instance set_SSRCHistory : Setter SSRCHistory := fun f r =>
  mkLeg (Tag r) (Label r) (State r) (Direction r) (PreviousState r) (PreviousDirection r) (LocalSDP r) (RemoteSDP r) (OfferSource r) (CreatedAt r) (LastStateChange r) (EstablishedAt r) (HoldStartedAt r) (IsOnHold r) (HoldInitiator r) (EarlyMediaActive r) (EarlyMediaStartedAt r) (LocalSSRC r) (RemoteSSRC r) (f (SSRCHistory r)) (PTMap r) (ReversePTMap r).
#[export] Instance set_PTMap : Setter PTMap := fun f r =>
  mkLeg (Tag r) (Label r) (State r) (Direction r) (PreviousState r) (PreviousDirection r) (LocalSDP r) (RemoteSDP r) (OfferSource r) (CreatedAt r) (LastStateChange r) (EstablishedAt r) (HoldStartedAt r) (IsOnHold r) (HoldInitiator r) (EarlyMediaActive r) (EarlyMediaStartedAt r) (LocalSSRC r) (RemoteSSRC r) (SSRCHistory r) (f (PTMap r)) (ReversePTMap r).
#[export] Instance set_ReversePTMap : Setter ReversePTMap := fun f r =>
  mkLeg (Tag r) (Label r) (State r) (Direction r) (PreviousState r) (PreviousDirection r) (LocalSDP r) (RemoteSDP r) (OfferSource r) (CreatedAt r) (LastStateChange r) (EstablishedAt r) (HoldStartedAt r) (IsOnHold r) (HoldInitiator r) (EarlyMediaActive r) (EarlyMediaStartedAt r) (LocalSSRC r) (RemoteSSRC r) (SSRCHistory r) (PTMap r) (f (ReversePTMap r)).

Definition NewLegStateMachine (tag label : string) (now : Z) : LegStateMachine :=
  {| Tag := tag; Label := label; State := LegStateInit; Direction := MediaDirectionSendRecv;
     PreviousState := None; PreviousDirection := None; LocalSDP := ""; RemoteSDP := "";
     OfferSource := ""; CreatedAt := now; LastStateChange := now; EstablishedAt := 0;
     HoldStartedAt := 0; IsOnHold := false; HoldInitiator := ""; EarlyMediaActive := false;
     EarlyMediaStartedAt := 0; LocalSSRC := 0; RemoteSSRC := 0; SSRCHistory := [];
     PTMap := ∅; ReversePTMap := ∅ |}.

(** ** Helpers *)

Definition setState (newState : LegState) (now : Z) (lsm : LegStateMachine) : LegStateMachine :=
  lsm <| PreviousState := Some (State lsm) |> <| State := newState |> <| LastStateChange := now |>.

(** The loop [for i := 0; i <= len(s)-len(substr); i++], with [n] rounds
    left. *)
Fixpoint containsString_loop (s substr : string) (i n : nat) : bool :=
  match n with
  | O => false
  | S n =>
      if bool_decide (String.substring i (String.length substr) s = substr) then true
      else containsString_loop s substr (S i) n
  end.
Definition containsString (s substr : string) : bool :=
  containsString_loop s substr 0 (S (String.length s) - String.length substr)%nat.

Definition detectHoldFromDirection (dir : MediaDirection) : bool :=
  bool_decide (dir = MediaDirectionSendOnly) || bool_decide (dir = MediaDirectionInactive).

Definition detectHoldFromSDP (sdp : string) (lsm : LegStateMachine) : LegStateMachine :=
  if containsString sdp "a=sendonly" then
    lsm <| Direction := MediaDirectionSendOnly |> <| IsOnHold := true |> <| HoldInitiator := "remote" |>
  else if containsString sdp "a=recvonly" then
    lsm <| Direction := MediaDirectionRecvOnly |>
  else if containsString sdp "a=inactive" then
    lsm <| Direction := MediaDirectionInactive |> <| IsOnHold := true |> <| HoldInitiator := "remote" |>
  else
    let lsm := lsm <| Direction := MediaDirectionSendRecv |> in
    if IsOnHold lsm then lsm <| IsOnHold := false |> <| HoldInitiator := "" |> else lsm.

(** ** Negotiation

    An [Err] leaves the leg as it was and carries the state the message
    names. *)

Definition ProcessOffer (sdp source : string) (now : Z) (lsm : LegStateMachine) : outcome LegState LegStateMachine :=
  let! lsm :=
    match State lsm with
    | LegStateInit => Ok (setState LegStateAnswerPending now lsm)
    | LegStateEstablished => Ok (setState LegStateReAnswerPending now lsm)
    | LegStateHold => Ok (setState LegStateReAnswerPending now lsm)
    | s => Err s
    end in
  Ok (detectHoldFromSDP sdp (lsm <| RemoteSDP := sdp |> <| OfferSource := source |>)).

Definition ProcessAnswer (sdp : string) (now : Z) (lsm : LegStateMachine) : outcome LegState LegStateMachine :=
  let! lsm :=
    match State lsm with
    | LegStateOfferPending =>
        let lsm := setState LegStateEstablished now lsm in
        Ok (if IsZero (EstablishedAt lsm) then lsm <| EstablishedAt := now |> else lsm)
    | LegStateReOfferPending =>
        if IsOnHold lsm && negb (detectHoldFromDirection (Direction lsm)) then
          Ok (setState LegStateEstablished now (lsm <| IsOnHold := false |>))
        else Ok (setState LegStateEstablished now lsm)
    | s => Err s
    end in
  Ok (detectHoldFromSDP sdp (lsm <| RemoteSDP := sdp |>)).

Definition SendOffer (sdp : string) (now : Z) (lsm : LegStateMachine) : outcome LegState LegStateMachine :=
  let! lsm :=
    match State lsm with
    | LegStateInit => Ok (setState LegStateOfferPending now lsm)
    | LegStateEstablished => Ok (setState LegStateReOfferPending now lsm)
    | LegStateHold => Ok (setState LegStateReOfferPending now lsm)
    | s => Err s
    end in
  Ok (lsm <| LocalSDP := sdp |> <| OfferSource := "local" |>).

Definition SendAnswer (sdp : string) (now : Z) (lsm : LegStateMachine) : outcome LegState LegStateMachine :=
  let! lsm :=
    match State lsm with
    | LegStateAnswerPending =>
        let lsm := setState LegStateEstablished now lsm in
        Ok (if IsZero (EstablishedAt lsm) then lsm <| EstablishedAt := now |> else lsm)
    | LegStateReAnswerPending => Ok (setState LegStateEstablished now lsm)
    | s => Err s
    end in
  Ok (lsm <| LocalSDP := sdp |>).

Definition EnableEarlyMedia (now : Z) (lsm : LegStateMachine) : LegStateMachine :=
  if negb (EarlyMediaActive lsm) && bool_decide (State lsm = LegStateOfferPending) then
    lsm <| EarlyMediaActive := true |> <| EarlyMediaStartedAt := now |>
  else lsm.

Definition DisableEarlyMedia (lsm : LegStateMachine) : LegStateMachine :=
  lsm <| EarlyMediaActive := false |>.

Definition SetHold (initiator : string) (now : Z) (lsm : LegStateMachine) : LegStateMachine :=
  if negb (IsOnHold lsm) then
    setState LegStateHold now
      (lsm <| PreviousState := Some (State lsm) |> <| PreviousDirection := Some (Direction lsm) |>
           <| IsOnHold := true |> <| HoldInitiator := initiator |> <| HoldStartedAt := now |>)
  else lsm.

Definition Resume (now : Z) (lsm : LegStateMachine) : LegStateMachine :=
  if IsOnHold lsm then
    setState LegStateEstablished now (lsm <| IsOnHold := false |> <| HoldInitiator := "" |>)
      <| Direction := MediaDirectionSendRecv |>
  else lsm.

Definition Terminate (now : Z) (lsm : LegStateMachine) : LegStateMachine :=
  setState LegStateTerminated now lsm.

Definition UpdateSSRC (ssrc : Z) (isLocal : bool) (reason : string) (now : Z) (lsm : LegStateMachine) : LegStateMachine :=
  let oldSSRC := if isLocal then LocalSSRC lsm else RemoteSSRC lsm in
  let lsm :=
    if negb (oldSSRC =? 0) && negb (oldSSRC =? ssrc) then
      lsm <| SSRCHistory ::= fun h => h ++ [mkSSRCChange oldSSRC ssrc now reason] |>
    else lsm in
  if isLocal then lsm <| LocalSSRC := ssrc |> else lsm <| RemoteSSRC := ssrc |>.

Definition SetPayloadTypeMapping (remotePT localPT : Z) (lsm : LegStateMachine) : LegStateMachine :=
  lsm <| PTMap ::= <[remotePT := localPT]> |> <| ReversePTMap ::= <[localPT := remotePT]> |>.

Definition MapPayloadType (lsm : LegStateMachine) (remotePT : Z) : Z :=
  match PTMap lsm !! remotePT with Some localPT => localPT | None => remotePT end.

Definition ReverseMapPayloadType (lsm : LegStateMachine) (localPT : Z) : Z :=
  match ReversePTMap lsm !! localPT with Some remotePT => remotePT | None => localPT end.

Definition SetDirection (dir : MediaDirection) (now : Z) (lsm : LegStateMachine) : LegStateMachine :=
  let lsm := lsm <| PreviousDirection := Some (Direction lsm) |> <| Direction := dir |> in
  if detectHoldFromDirection dir && negb (IsOnHold lsm) then
    lsm <| IsOnHold := true |> <| HoldStartedAt := now |>
  else lsm.

Definition IsEstablished (lsm : LegStateMachine) : bool :=
  bool_decide (State lsm = LegStateEstablished) || bool_decide (State lsm = LegStateHold).

Definition CanSendMedia (lsm : LegStateMachine) : bool :=
  if negb (bool_decide (State lsm = LegStateEstablished)) && negb (bool_decide (State lsm = LegStateHold))
     && negb (EarlyMediaActive lsm) then false
  else bool_decide (Direction lsm = MediaDirectionSendRecv) || bool_decide (Direction lsm = MediaDirectionSendOnly).

Definition CanReceiveMedia (lsm : LegStateMachine) : bool :=
  if negb (bool_decide (State lsm = LegStateEstablished)) && negb (bool_decide (State lsm = LegStateHold))
     && negb (EarlyMediaActive lsm) then false
  else bool_decide (Direction lsm = MediaDirectionSendRecv) || bool_decide (Direction lsm = MediaDirectionRecvOnly).

(** ** Forked calls *)

(** A leg pointer is an index into the store of allocated legs. *)
Record ForkedCallManager := mkForks {
  CallID : string;
  FromTag : string;
  ToTags : gmap string nat;
  SelectedLeg : string;
  ViaBranches : gmap string string;
  fcm_CreatedAt : Z }.
#[export] Instance set_CallID : Setter CallID := fun f r =>
  mkForks (f (CallID r)) (FromTag r) (ToTags r) (SelectedLeg r) (ViaBranches r) (fcm_CreatedAt r).
#[export] Instance set_FromTag : Setter FromTag := fun f r =>
  mkForks (CallID r) (f (FromTag r)) (ToTags r) (SelectedLeg r) (ViaBranches r) (fcm_CreatedAt r).
#[export] Instance set_ToTags : Setter ToTags := fun f r =>
  mkForks (CallID r) (FromTag r) (f (ToTags r)) (SelectedLeg r) (ViaBranches r) (fcm_CreatedAt r).
#[export] Instance set_SelectedLeg : Setter SelectedLeg := fun f r =>
  mkForks (CallID r) (FromTag r) (ToTags r) (f (SelectedLeg r)) (ViaBranches r) (fcm_CreatedAt r).
#[export] Instance set_ViaBranches : Setter ViaBranches := fun f r =>
  mkForks (CallID r) (FromTag r) (ToTags r) (SelectedLeg r) (f (ViaBranches r)) (fcm_CreatedAt r).
#[export] Instance set_fcm_CreatedAt : Setter fcm_CreatedAt := fun f r =>
  mkForks (CallID r) (FromTag r) (ToTags r) (SelectedLeg r) (ViaBranches r) (f (fcm_CreatedAt r)).

Definition store := list LegStateMachine.

Definition NewForkedCallManager (callID fromTag : string) (now : Z) : ForkedCallManager :=
  {| CallID := callID; FromTag := fromTag; ToTags := ∅; SelectedLeg := ""; ViaBranches := ∅; fcm_CreatedAt := now |}.

(** Returns the pointer of the new leg. *)
Definition AddFork (toTag viaBranch label : string) (now : Z) (st : store) (fcm : ForkedCallManager) : store * ForkedCallManager * nat :=
  let p := length st in
  let st := st ++ [NewLegStateMachine toTag label now] in
  let fcm := fcm <| ToTags ::= <[toTag := p]> |> in
  let fcm := if negb (bool_decide (viaBranch = "")) then fcm <| ViaBranches ::= <[viaBranch := toTag]> |> else fcm in
  (st, fcm, p).

Definition GetFork (fcm : ForkedCallManager) (toTag : string) : option nat := ToTags fcm !! toTag.

Definition GetForkByViaBranch (fcm : ForkedCallManager) (viaBranch : string) : option nat :=
  match ViaBranches fcm !! viaBranch with
  | Some toTag => ToTags fcm !! toTag
  | None => None
  end.

(** [lsm.Terminate()] through a pointer. *)
Definition terminate_at (now : Z) (st : store) (p : nat) : store := alter (Terminate now) p st.

(** A Go [range] over a map visits its entries in an order of the runtime's
    choosing: [order] is that order, a permutation of the entries. *)
Definition SelectWinner (toTag : string) (order : list (string * nat)) (now : Z) (st : store) (fcm : ForkedCallManager) : outcome string (store * ForkedCallManager) :=
  match ToTags fcm !! toTag with
  | None => Err toTag
  | Some _ =>
      let fcm := fcm <| SelectedLeg := toTag |> in
      let st := foldl (fun st '(tag, lsm) => if bool_decide (tag <> toTag) then terminate_at now st lsm else st) st order in
      Ok (st, fcm)
  end.

Definition GetWinner (fcm : ForkedCallManager) : option nat :=
  if bool_decide (SelectedLeg fcm <> "") then ToTags fcm !! SelectedLeg fcm else None.

Definition GetAllForks (order : list (string * nat)) : list nat := order.*2.

Definition GetActiveForks (order : list (string * nat)) (st : store) : list nat :=
  List.filter (fun p => match st !! p with
                        | Some lsm => negb (bool_decide (State lsm = LegStateTerminated))
                        | None => false end) order.*2.

Definition CancelAllForks (order : list (string * nat)) (now : Z) (st : store) : store :=
  foldl (fun st '(_, lsm) => terminate_at now st lsm) st order.

(** ** Substring search *)

Lemma substring_prefix s n :
  (n <= String.length s)%nat -> exists post, s = (String.substring 0 n s +:+ post)%string.
Proof.
  revert n. induction s as [|c s IH]; intros [|n] Hn; cbn in *; try lia; [by exists ""|by exists (String c s)|].
  destruct (IH n) as [post E]; [lia|]. exists post. exact (f_equal (String c) E).
Qed.

Lemma substring_split s i n :
  (i + n <= String.length s)%nat ->
  exists pre post, s = (pre +:+ String.substring i n s +:+ post)%string.
Proof.
  revert i. induction s as [|c s IH]; intros [|i] Hle; cbn in Hle; try lia.
  - destruct (substring_prefix "" n) as [post E]; [cbn; lia|]. by exists "", post.
  - destruct (substring_prefix (String c s) n) as [post E]; [cbn; lia|]. by exists "", post.
  - destruct (IH i) as (pre & post & E); [lia|]. exists (String c pre), post. exact (f_equal (String c) E).
Qed.

Lemma substring_self m post : String.substring 0 (String.length m) (m +:+ post)%string = m.
Proof. induction m as [|c m IH]; [by destruct post|exact (f_equal (String c) IH)]. Qed.

Lemma substring_mid pre m post :
  String.substring (String.length pre) (String.length m) (pre +:+ m +:+ post)%string = m.
Proof. induction pre as [|c pre IH]; [exact (substring_self m post)|exact IH]. Qed.

Lemma string_length_app (a b : string) : String.length (a +:+ b)%string = (String.length a + String.length b)%nat.
Proof. induction a as [|c a IH]; [done|exact (f_equal S IH)]. Qed.

Lemma containsString_loop_true s sub i n :
  containsString_loop s sub i n = true <->
  exists j, (i <= j < i + n)%nat /\ String.substring j (String.length sub) s = sub.
Proof.
  revert i. induction n as [|n IH]; intros i; cbn; [split; [done|intros (j & ? & _); lia]|].
  case_bool_decide as E.
  - split; [intros _; exists i; split; [lia|done]|done].
  - rewrite IH. split; intros (j & Hj & Ej); exists j; (split; [|done]); [lia|].
    assert (j <> i) by (intros ->; done). lia.
Qed.

(** The substring search of the hold detection is exact: it finds [sub]
    in [s] precisely when [s] is some text, then [sub], then some text. *)
Theorem containsString_correct s sub :
  containsString s sub = true <-> exists pre post, s = (pre +:+ sub +:+ post)%string.
Proof.
  unfold containsString. rewrite containsString_loop_true. split.
  - intros (j & Hj & E). destruct (substring_split s j (String.length sub)) as (pre & post & Hs); [lia|].
    exists pre, post. by rewrite E in Hs.
  - intros (pre & post & ->). exists (String.length pre).
    split; [rewrite !string_length_app; lia|apply substring_mid].
Qed.

(** ** The offer/answer exchange *)

(** The operations of a leg. *)
Inductive neg_op :=
| OpProcessOffer (sdp source : string)
| OpProcessAnswer (sdp : string)
| OpSendOffer (sdp : string)
| OpSendAnswer (sdp : string)
| OpEarlyMedia (on : bool)
| OpSetDirection (dir : MediaDirection)
| OpUpdateSSRC (ssrc : Z) (isLocal : bool) (reason : string)
| OpSetPayloadTypeMapping (remotePT localPT : Z)
| OpSetHold (initiator : string)
| OpResume
| OpTerminate.
#[export] Instance neg_op_eq_dec : EqDecision neg_op.
Proof. solve_decision. Defined.

(** What an accepted operation contributes to the dialog. *)
Inductive neg_event := Offer (local : bool) | Answer (local : bool).
#[export] Instance neg_event_eq_dec : EqDecision neg_event.
Proof. solve_decision. Defined.

Definition op_event (o : neg_op) : option neg_event :=
  match o with
  | OpProcessOffer _ _ => Some (Offer false)
  | OpProcessAnswer _ => Some (Answer false)
  | OpSendOffer _ => Some (Offer true)
  | OpSendAnswer _ => Some (Answer true)
  | _ => None
  end.

Definition accept (lsm : LegStateMachine) (r : outcome LegState LegStateMachine) : LegStateMachine * bool :=
  match r with Ok lsm => (lsm, true) | _ => (lsm, false) end.

Definition neg_step (lsm : LegStateMachine) (o : neg_op) (now : Z) : LegStateMachine * bool :=
  match o with
  | OpProcessOffer sdp source => accept lsm (ProcessOffer sdp source now lsm)
  | OpProcessAnswer sdp => accept lsm (ProcessAnswer sdp now lsm)
  | OpSendOffer sdp => accept lsm (SendOffer sdp now lsm)
  | OpSendAnswer sdp => accept lsm (SendAnswer sdp now lsm)
  | OpEarlyMedia on => ((if on then EnableEarlyMedia now lsm else DisableEarlyMedia lsm), true)
  | OpSetDirection dir => (SetDirection dir now lsm, true)
  | OpUpdateSSRC ssrc isLocal reason => (UpdateSSRC ssrc isLocal reason now lsm, true)
  | OpSetPayloadTypeMapping r l => (SetPayloadTypeMapping r l lsm, true)
  | OpSetHold initiator => (SetHold initiator now lsm, true)
  | OpResume => (Resume now lsm, true)
  | OpTerminate => (Terminate now lsm, true)
  end.

(** The results of a sequence of timed operations. *)
Fixpoint neg_run (lsm : LegStateMachine) (ops : list (neg_op * Z)) : LegStateMachine * list bool :=
  match ops with
  | [] => (lsm, [])
  | (o, now) :: ops =>
      let '(lsm, b) := neg_step lsm o now in
      let '(lsm, bs) := neg_run lsm ops in (lsm, b :: bs)
  end.

(** *** The specification: one offer at a time, answered by the other side *)

Inductive dialog := Idle | Pending (offered_locally : bool) | Dead.
#[export] Instance dialog_eq_dec : EqDecision dialog.
Proof. solve_decision. Defined.

(** The dialog, with the time of the first answer. *)
Definition spec_step (d : dialog * option Z) (o : neg_op) (now : Z) : dialog * option Z * bool :=
  match op_event o, d with
  | Some (Offer l), (Idle, t) => (Pending l, t, true)
  | Some (Answer l), (Pending l', t) =>
      if bool_decide (l = negb l') then (Idle, Some (default now t), true) else (d, false)
  | Some _, _ => (d, false)
  | None, (p, t) => (match o with OpTerminate => Dead | _ => p end, t, true)
  end.

Fixpoint spec_run (d : dialog * option Z) (ops : list (neg_op * Z)) : dialog * option Z * list bool :=
  match ops with
  | [] => (d, [])
  | (o, now) :: ops =>
      let '(d, b) := spec_step d o now in
      let '(d, bs) := spec_run d ops in (d, b :: bs)
  end.

(** Hold and resume are called on an answered call with no offer pending: they
    do not look at the state, and set one of their own. *)
Definition timely (d : dialog * option Z) (o : neg_op) : Prop :=
  match o with OpSetHold _ | OpResume => d.1 = Idle /\ is_Some d.2 | _ => True end.
Fixpoint all_timely (d : dialog * option Z) (ops : list (neg_op * Z)) : Prop :=
  match ops with
  | [] => True
  | (o, now) :: ops => timely d o /\ 0 < now /\ all_timely (spec_step d o now).1 ops
  end.

(** *** The refinement *)

Definition phase (s : LegState) : dialog :=
  match s with
  | LegStateInit | LegStateEstablished | LegStateHold => Idle
  | LegStateOfferPending | LegStateReOfferPending => Pending true
  | LegStateAnswerPending | LegStateReAnswerPending => Pending false
  | LegStateTerminated => Dead
  end.

(** Whether a state is only entered before the first answer, only after it,
    or either way. *)
Definition answered (s : LegState) : option bool :=
  match s with
  | LegStateInit | LegStateOfferPending | LegStateAnswerPending => Some false
  | LegStateEstablished | LegStateHold | LegStateReOfferPending | LegStateReAnswerPending => Some true
  | LegStateTerminated => None
  end.

Record leg_refines (lsm : LegStateMachine) (d : dialog * option Z) : Prop := {
  lr_phase : phase (State lsm) = d.1;
  lr_time : EstablishedAt lsm = default 0 d.2;
  lr_pos : forall t, d.2 = Some t -> 0 < t;
  lr_answered : forall b, answered (State lsm) = Some b -> bool_decide (is_Some d.2) = b;
}.

Lemma detectHold_State sdp lsm : State (detectHoldFromSDP sdp lsm) = State lsm.
Proof. unfold detectHoldFromSDP. by repeat case_match. Qed.
Lemma detectHold_EstablishedAt sdp lsm : EstablishedAt (detectHoldFromSDP sdp lsm) = EstablishedAt lsm.
Proof. unfold detectHoldFromSDP. by repeat case_match. Qed.

Lemma leg_refines_intro lsm d t :
  phase (State lsm) = d -> EstablishedAt lsm = default 0 t -> (forall x, t = Some x -> 0 < x) ->
  (forall b, answered (State lsm) = Some b -> bool_decide (is_Some t) = b) -> leg_refines lsm (d, t).
Proof. by split. Qed.

(** Operations that leave the two fields the relation reads alone. *)
Lemma leg_refines_same lsm lsm' d :
  leg_refines lsm d -> State lsm' = State lsm -> EstablishedAt lsm' = EstablishedAt lsm -> leg_refines lsm' d.
Proof. intros [? ? ? ?] Hs He. split; rewrite ?Hs, ?He; auto. Qed.

(** An accepted offer: [pend] is the state of a first offer, [repend] of a
    later one. *)
Definition offer_result (lsm : LegStateMachine) (r : outcome LegState LegStateMachine) (pend repend : LegState) : Prop :=
  match phase (State lsm) with
  | Idle => exists lsm', r = Ok lsm' /\ EstablishedAt lsm' = EstablishedAt lsm /\
              State lsm' = if bool_decide (State lsm = LegStateInit) then pend else repend
  | _ => r = Err (State lsm)
  end.
Definition answer_result (lsm : LegStateMachine) (r : outcome LegState LegStateMachine) (l : bool) (now : Z) : Prop :=
  if bool_decide (phase (State lsm) = Pending l)
  then exists lsm', r = Ok lsm' /\ State lsm' = LegStateEstablished /\
         EstablishedAt lsm' = if (EstablishedAt lsm =? 0) && match answered (State lsm) with Some false => true | _ => false end then now else EstablishedAt lsm
  else r = Err (State lsm).

Ltac leg_cases lsm :=
  unfold offer_result, answer_result, IsZero; destruct (State lsm) eqn:Es; cbn; try done;
  repeat case_match; bool_prop; try done; try congruence; eexists; (split; [reflexivity|]);
  cbn; rewrite ?detectHold_State, ?detectHold_EstablishedAt; cbn; rewrite ?andb_true_r, ?andb_false_r;
  repeat case_match; cbn; bool_prop; try done; try congruence.

Lemma ProcessOffer_result sdp source now lsm :
  offer_result lsm (ProcessOffer sdp source now lsm) LegStateAnswerPending LegStateReAnswerPending.
Proof. unfold ProcessOffer. leg_cases lsm. Qed.
Lemma SendOffer_result sdp now lsm :
  offer_result lsm (SendOffer sdp now lsm) LegStateOfferPending LegStateReOfferPending.
Proof. unfold SendOffer. leg_cases lsm. Qed.
Lemma ProcessAnswer_result sdp now lsm : answer_result lsm (ProcessAnswer sdp now lsm) true now.
Proof. unfold ProcessAnswer. leg_cases lsm. Qed.
Lemma SendAnswer_result sdp now lsm : answer_result lsm (SendAnswer sdp now lsm) false now.
Proof. unfold SendAnswer. leg_cases lsm. Qed.

Lemma offer_refines lsm p t r pend repend l :
  leg_refines lsm (p, t) -> offer_result lsm r pend repend ->
  phase pend = Pending l -> phase repend = Pending l -> answered pend = Some false -> answered repend = Some true ->
  leg_refines (accept lsm r).1 (if bool_decide (p = Idle) then (Pending l, t) else (p, t)) /\
  (accept lsm r).2 = bool_decide (p = Idle).
Proof.
  intros Hr Ho H1 H2 H3 H4. pose proof Hr as [Hp Ht Hpos Ha]. cbn in *. subst p. unfold offer_result in Ho.
  destruct (phase (State lsm)) eqn:Ep; [|by subst r..].
  destruct Ho as (lsm' & -> & He & Hs). cbn. split; [|done].
  apply leg_refines_intro; [..|intros b Hb; apply Ha]; rewrite ?Hs, ?He in *; auto.
  - destruct (bool_decide (State lsm = LegStateInit)); congruence.
  - destruct (decide (State lsm = LegStateInit)) as [Ei|Ei]; [rewrite bool_decide_true in Hb by done; rewrite Ei; cbn; congruence|rewrite bool_decide_false in Hb by done].
    rewrite H4 in Hb. injection Hb as <-. by destruct (State lsm).
Qed.

Lemma answer_refines lsm p t r l now :
  leg_refines lsm (p, t) -> 0 < now -> answer_result lsm r l now ->
  leg_refines (accept lsm r).1 (if bool_decide (p = Pending l) then (Idle, Some (default now t)) else (p, t)) /\
  (accept lsm r).2 = bool_decide (p = Pending l).
Proof.
  intros Hr Hnow Hres. pose proof Hr as [Hp Ht Hpos Ha]. cbn in *. subst p. unfold answer_result in Hres.
  destruct (decide (phase (State lsm) = Pending l)) as [Ep|Ep];
    [rewrite bool_decide_true in Hres |- * by done|rewrite bool_decide_false in Hres |- * by done; by subst r].
  destruct Hres as (lsm' & -> & Hs & He). cbn. split; [|done].
  apply leg_refines_intro; rewrite ?Hs, ?He; cbn; auto.
  - destruct t as [t|]; cbn in *; rewrite ?Ht.
    + specialize (Hpos _ eq_refl). by destruct (Z.eqb_spec t 0); [lia|].
    + cbn. destruct (State lsm); cbn in *; try done; by specialize (Ha _ eq_refl).
  - intros x [= <-]. destruct t; cbn; auto.
  - by intros b [= <-].
Qed.

(** A state between negotiations is kept as such. *)
Lemma idle_refines lsm lsm' d : leg_refines lsm d -> d.1 = Idle /\ is_Some d.2 ->
  State lsm' = State lsm \/ State lsm' = LegStateHold \/ State lsm' = LegStateEstablished -> EstablishedAt lsm' = EstablishedAt lsm ->
  leg_refines lsm' d.
Proof.
  intros [H1 H2 H3 H4] [Hi Ha] Hs He. split; rewrite ?He; auto; destruct Hs as [->|[->| ->]]; auto; cbn; try congruence.
  all: intros b [= <-]; by rewrite bool_decide_true.
Qed.

Lemma other_step_refines lsm d o now :
  leg_refines lsm d -> timely d o -> op_event o = None -> o <> OpTerminate -> leg_refines (neg_step lsm o now).1 d.
Proof.
  intros Hr Hd Ho Ht. destruct o; try done; cbn [neg_step fst].
  5-6: eapply idle_refines; [exact Hr|exact Hd| |]; unfold Resume, SetHold; case_match; cbn; auto.
  all: apply (leg_refines_same lsm); [done|..]; unfold EnableEarlyMedia, SetDirection, UpdateSSRC; repeat case_match; done.
Qed.

(** Every operation moves the leg the way it moves the dialog. *)
Lemma neg_step_refines lsm d o now :
  leg_refines lsm d -> timely d o -> 0 < now ->
  leg_refines (neg_step lsm o now).1 (spec_step d o now).1 /\ (neg_step lsm o now).2 = (spec_step d o now).2.
Proof.
  intros Hr Htm Hnow. destruct d as [p t]. destruct (op_event o) as [[]|] eqn:Eo.
  - destruct o; try done; injection Eo as <-; cbn [neg_step spec_step op_event].
    + pose proof (offer_refines _ _ _ _ _ _ false Hr (ProcessOffer_result sdp source now lsm) eq_refl eq_refl eq_refl eq_refl).
      by destruct p.
    + pose proof (offer_refines _ _ _ _ _ _ true Hr (SendOffer_result sdp now lsm) eq_refl eq_refl eq_refl eq_refl).
      by destruct p.
  - destruct o; try done; injection Eo as <-; cbn [neg_step spec_step op_event].
    + pose proof (answer_refines _ _ _ _ _ _ Hr Hnow (ProcessAnswer_result sdp now lsm)).
      by destruct p as [|[]|].
    + pose proof (answer_refines _ _ _ _ _ _ Hr Hnow (SendAnswer_result sdp now lsm)).
      by destruct p as [|[]|].
  - destruct (decide (o = OpTerminate)) as [->|Hn].
    + split; [|done]. destruct Hr as [? ? ? ?]. by apply leg_refines_intro.
    + pose proof (other_step_refines lsm (p, t) o now Hr Htm Eo Hn). by destruct o.
Qed.

Lemma neg_run_refines ops lsm d :
  leg_refines lsm d -> all_timely d ops ->
  leg_refines (neg_run lsm ops).1 (spec_run d ops).1 /\ (neg_run lsm ops).2 = (spec_run d ops).2.
Proof.
  revert lsm d. induction ops as [|[o now] ops IH]; intros lsm d Hr Ht; [done|]. destruct Ht as (Htm & Hn & Ht).
  cbn [neg_run spec_run]. destruct (neg_step_refines lsm d o now Hr Htm Hn) as [Hr' Hb].
  destruct (neg_step lsm o now) as [lsm' b], (spec_step d o now) as [d' b']. cbn in *. subst b'.
  destruct (IH lsm' d' Hr' Ht) as [Hr'' Hbs].
  destruct (neg_run lsm' ops), (spec_run d' ops). cbn in *. by subst.
Qed.

(** C30: the leg implements the offer/answer exchange. Over any sequence of
    operations in which hold and resume are called only on an answered call with
    no offer pending, exactly the offers and answers are accepted that a dialog
    with one offer at a time, answered by the other side, accepts; nothing is
    accepted after termination; and [EstablishedAt] is the time of the first
    answer, whatever is re-negotiated later. *)
Theorem leg_refines_offer_answer tag label created ops :
  all_timely (Idle, None) ops ->
  let leg := neg_run (NewLegStateMachine tag label created) ops in
  let spec := spec_run (Idle, None) ops in
  leg.2 = spec.2 /\ phase (State leg.1) = spec.1.1 /\ EstablishedAt leg.1 = default 0 spec.1.2.
Proof.
  intros Ht. destruct (neg_run_refines ops (NewLegStateMachine tag label created) (Idle, None)) as [[Hp He _ _] Hb].
  - apply leg_refines_intro; cbn; try done. by intros b [= <-].
  - done.
  - auto.
Qed.

Definition sample_call : list (neg_op * Z) :=
  [(OpSendOffer "v=0", 1); (OpProcessOffer "v=0" "remote", 2); (OpSendAnswer "v=0", 3); (OpProcessAnswer "a=sendonly", 4);
   (OpSetHold "local", 5); (OpProcessOffer "v=0" "remote", 5); (OpSendAnswer "v=0", 6); (OpResume, 6); (OpTerminate, 7); (OpSendOffer "v=0", 8)].

Lemma leg_refines_offer_answer_witness :
  (neg_run (NewLegStateMachine "t" "l" 1) sample_call).2 = [true; false; false; true; true; true; true; true; true; false] /\
  EstablishedAt (neg_run (NewLegStateMachine "t" "l" 1) sample_call).1 = 4.
Proof.
  destruct (leg_refines_offer_answer "t" "l" 1 sample_call) as (H1 & _ & H2); [cbn; repeat split; by eexists|].
  rewrite H1, H2. split; reflexivity.
Defined.

(** Termination is not final: a leg that is not on hold when it
    terminates becomes established again, and may send media, after a hold and
    a resume. *)
Theorem terminated_leg_revived lsm init t1 t2 t3 :
  IsOnHold lsm = false ->
  State (Terminate t1 lsm) = LegStateTerminated /\
  State (Resume t3 (SetHold init t2 (Terminate t1 lsm))) = LegStateEstablished /\
  CanSendMedia (Resume t3 (SetHold init t2 (Terminate t1 lsm))) = true.
Proof. intros E. unfold SetHold, Resume, CanSendMedia. cbn. rewrite E. cbn. by repeat split. Qed.

Lemma terminated_leg_revived_witness :
  CanSendMedia (Resume 3 (SetHold "local" 2 (Terminate 1 (NewLegStateMachine "a" "b" 1)))) = true.
Proof. apply (terminated_leg_revived (NewLegStateMachine "a" "b" 1) "local" 1 2 3). reflexivity. Defined.

(** ** Payload type maps *)

Definition set_mappings (ms : list (Z * Z)) (lsm : LegStateMachine) : LegStateMachine :=
  foldl (fun lsm m => SetPayloadTypeMapping m.1 m.2 lsm) lsm ms.

Lemma set_mappings_snoc ms m lsm :
  set_mappings (ms ++ [m]) lsm = SetPayloadTypeMapping m.1 m.2 (set_mappings ms lsm).
Proof. unfold set_mappings. by rewrite foldl_app. Qed.

Lemma set_mappings_lookup ms lsm r l :
  NoDup ms.*1 -> NoDup ms.*2 -> (r, l) ∈ ms ->
  PTMap (set_mappings ms lsm) !! r = Some l /\ ReversePTMap (set_mappings ms lsm) !! l = Some r.
Proof.
  induction ms as [|m ms IH] using rev_ind; [by intros _ _ ?%elem_of_nil|].
  rewrite !fmap_app, set_mappings_snoc. csimpl.
  intros (H1 & D1 & _)%NoDup_app (H2 & D2 & _)%NoDup_app Hin. cbn.
  apply elem_of_app in Hin as [Hin|<-%list_elem_of_singleton]; cbn; [|by rewrite !lookup_insert_eq].
  destruct (IH H1 H2 Hin) as [E1 E2]. rewrite !lookup_insert_ne; [done|..].
  - intros <-. apply (D2 m.2); [|by left]. apply list_elem_of_fmap. by exists (r, m.2).
  - intros <-. apply (D1 m.1); [|by left]. apply list_elem_of_fmap. by exists (m.1, l).
Qed.

(** Payload types survive the round trip: after negotiating any set of
    one-to-one mappings, mapping a negotiated remote type to its local type and
    back gives it again, and the other way round. *)
Theorem payload_type_roundtrip ms lsm r l :
  NoDup ms.*1 -> NoDup ms.*2 -> (r, l) ∈ ms ->
  let lsm := set_mappings ms lsm in
  MapPayloadType lsm r = l /\ ReverseMapPayloadType lsm l = r /\
  ReverseMapPayloadType lsm (MapPayloadType lsm r) = r /\ MapPayloadType lsm (ReverseMapPayloadType lsm l) = l.
Proof.
  intros D1 D2 Hin. destruct (set_mappings_lookup ms lsm r l D1 D2 Hin) as [E1 E2].
  cbn. unfold MapPayloadType, ReverseMapPayloadType. rewrite E1, E2, ?E1, ?E2. done.
Qed.

Lemma payload_type_roundtrip_witness :
  let lsm := set_mappings [(96, 111); (0, 0); (111, 96)] (NewLegStateMachine "a" "b" 1) in
  ReverseMapPayloadType lsm (MapPayloadType lsm 111) = 111.
Proof.
  destruct (payload_type_roundtrip [(96, 111); (0, 0); (111, 96)] (NewLegStateMachine "a" "b" 1) 111 96)
    as (_ & _ & H & _); [apply (bool_decide_unpack _); vm_compute; exact I..|exact H].
Defined.

(** ** Forked calls *)

(** What the callers of the manager and the holders of leg pointers can do. *)
Inductive fork_step : store * ForkedCallManager -> store * ForkedCallManager -> Prop :=
| step_AddFork st fcm toTag viaBranch label now st' fcm' p :
    AddFork toTag viaBranch label now st fcm = (st', fcm', p) -> fork_step (st, fcm) (st', fcm')
| step_SelectWinner st fcm toTag order now st' fcm' :
    order ≡ₚ map_to_list (ToTags fcm) ->
    SelectWinner toTag order now st fcm = Ok (st', fcm') -> fork_step (st, fcm) (st', fcm')
| step_CancelAllForks st fcm order now :
    order ≡ₚ map_to_list (ToTags fcm) ->
    fork_step (st, fcm) (CancelAllForks order now st, fcm)
| step_leg st fcm p f : fork_step (st, fcm) (alter f p st, fcm).

(** Every tag has a leg of its own. *)
Record forks_wf (st : store) (fcm : ForkedCallManager) : Prop := {
  fw_valid : forall tag p, ToTags fcm !! tag = Some p -> (p < length st)%nat;
  fw_inj : forall tag1 tag2 p, ToTags fcm !! tag1 = Some p -> ToTags fcm !! tag2 = Some p -> tag1 = tag2;
}.

(** The two loops over the forks, with the tags they skip. *)
Definition terminate_forks (skip : string -> bool) (now : Z) (st : store) (order : list (string * nat)) : store :=
  foldl (fun st '(tag, lsm) => if skip tag then st else terminate_at now st lsm) st order.

Lemma terminate_forks_length skip now st order : length (terminate_forks skip now st order) = length st.
Proof.
  unfold terminate_forks. revert st. induction order as [|[tag p] order IH]; intros; cbn; [done|].
  rewrite IH. case_match; [done|]. apply length_alter.
Qed.

Lemma terminate_forks_other skip now st order p :
  (forall tag, (tag, p) ∈ order -> skip tag = true) ->
  terminate_forks skip now st order !! p = st !! p.
Proof.
  unfold terminate_forks. revert st. induction order as [|[tag q] order IH]; intros st Hp; cbn; [done|].
  rewrite IH by (intros; apply Hp; by right). destruct (skip tag) eqn:E; [done|].
  apply list_lookup_alter_ne. intros ->. rewrite Hp in E; [done|by left].
Qed.

Lemma terminate_forks_hit skip now st order tag p :
  NoDup order.*2 -> (tag, p) ∈ order -> skip tag = false ->
  terminate_forks skip now st order !! p = Terminate now <$> st !! p.
Proof.
  unfold terminate_forks. revert st. induction order as [|[tag' q] order IH]; intros st; [by intros _ ?%elem_of_nil|].
  cbn. intros [Hq Hd]%NoDup_cons [[= <- <-]|Hin]%elem_of_cons E.
  - rewrite E. trans (terminate_at now st p !! p); [|apply list_lookup_alter_eq]. apply (terminate_forks_other skip now).
    intros t Ht. destruct Hq. apply list_elem_of_fmap. by exists (t, p).
  - rewrite IH by done. case_match; [done|]. apply f_equal, list_lookup_alter_ne.
    intros ->. apply Hq, list_elem_of_fmap. by exists (tag, p).
Qed.

Lemma order_elem fcm order tag p :
  order ≡ₚ map_to_list (ToTags fcm) -> (tag, p) ∈ order <-> ToTags fcm !! tag = Some p.
Proof. intros ->. apply elem_of_map_to_list. Qed.

Lemma order_NoDup st fcm order :
  forks_wf st fcm -> order ≡ₚ map_to_list (ToTags fcm) -> NoDup order.*2.
Proof.
  intros Hwf Ho. rewrite Ho. apply NoDup_fmap_2_strong; [|apply NoDup_map_to_list].
  intros [t1 p1] [t2 p2] H1%elem_of_map_to_list H2%elem_of_map_to_list. cbn. intros ->.
  by rewrite (fw_inj _ _ Hwf t1 t2 p2).
Qed.

Lemma SelectWinner_unfold toTag order now st fcm p :
  ToTags fcm !! toTag = Some p ->
  SelectWinner toTag order now st fcm =
  Ok (terminate_forks (fun tag => bool_decide (tag = toTag)) now st order, fcm <| SelectedLeg := toTag |>).
Proof.
  intros E. unfold SelectWinner, terminate_forks. rewrite E. apply (f_equal (fun x => Ok (x, fcm <| SelectedLeg := toTag |>))).
  clear E. revert st. induction order as [|[tag q] order IH]; intros; cbn; [done|].
  rewrite IH. f_equal. destruct (decide (tag = toTag)).
  - by rewrite (bool_decide_false (tag <> toTag)), (bool_decide_true (tag = toTag)) by auto.
  - by rewrite (bool_decide_true (tag <> toTag)), (bool_decide_false (tag = toTag)).
Qed.

Lemma fork_step_wf s s' : fork_step s s' -> forks_wf s.1 s.2 -> forks_wf s'.1 s'.2.
Proof.
  destruct 1 as [st fcm toTag via label now st' fcm' p E|st fcm toTag order now st' fcm' Ho E|st fcm order now Ho|st fcm p f];
    intros [Hv Hi]; cbn in *.
  - unfold AddFork in E. injection E as <- <- <-.
    assert (forall (T := ToTags (if negb (bool_decide (via = "")) then fcm <| ToTags ::= <[toTag := length st]> |> <| ViaBranches ::= <[via := toTag]> |> else fcm <| ToTags ::= <[toTag := length st]> |>)), T = <[toTag := length st]> (ToTags fcm)) as HT
      by (cbn; by case_match).
    split; rewrite HT; setoid_rewrite lookup_insert_Some; rewrite ?length_app; cbn.
    + intros tag q [[-> <-]|[_ H%Hv]]; lia.
    + intros t1 t2 q [[<- <-]|[H1 E1]] [[<- H]|[H2 E2]]; try done; eauto.
      * apply Hv in E2. lia.
      * apply Hv in E1. lia.
  - destruct (ToTags fcm !! toTag) eqn:Et; [|unfold SelectWinner in E; by rewrite Et in E].
    rewrite (SelectWinner_unfold _ _ _ _ _ n) in E by done. injection E as <- <-.
    split; cbn; rewrite ?terminate_forks_length; eauto.
  - split; [|done]. unfold CancelAllForks. intros tag q H%Hv.
    rewrite <- (terminate_forks_length (fun _ => false) now st order) in H. exact H.
  - split; [|done]. intros tag q H%Hv. by rewrite <- (length_alter f st p) in H.
Qed.

Lemma reachable_forks_wf callID fromTag created st fcm :
  rtc fork_step ([], NewForkedCallManager callID fromTag created) (st, fcm) -> forks_wf st fcm.
Proof.
  assert (forall s s', rtc fork_step s s' -> forks_wf s.1 s.2 -> forks_wf s'.1 s'.2) as H
    by (induction 1; eauto using fork_step_wf).
  intros Hr. apply (H _ _ Hr). split; cbn; intros *; by rewrite lookup_empty.
Qed.

(** Selecting the winner of a forked call terminates every other fork and
    leaves the winner and all legs outside the call as they are, in whatever
    order the map is walked: afterwards no fork but the winner is active. A tag
    without a fork is an error. *)
Theorem SelectWinner_correct callID fromTag created st fcm toTag order order' now :
  rtc fork_step ([], NewForkedCallManager callID fromTag created) (st, fcm) ->
  order ≡ₚ map_to_list (ToTags fcm) -> order' ≡ₚ map_to_list (ToTags fcm) ->
  match SelectWinner toTag order now st fcm with
  | Ok (st', fcm') =>
      exists p, ToTags fcm !! toTag = Some p /\ SelectedLeg fcm' = toTag /\ ToTags fcm' = ToTags fcm /\
      st' !! p = st !! p /\
      (forall tag q, tag <> toTag -> ToTags fcm !! tag = Some q -> st' !! q = Terminate now <$> st !! q) /\
      (forall q, (forall tag, ToTags fcm !! tag <> Some q) -> st' !! q = st !! q) /\
      (forall q, q ∈ GetActiveForks order' st' -> q = p)
  | Err tag => tag = toTag /\ ToTags fcm !! toTag = None
  | _ => False
  end.
Proof.
  intros Hwf%reachable_forks_wf Ho Ho'. pose proof (order_NoDup _ _ _ Hwf Ho) as Hnd.
  destruct (ToTags fcm !! toTag) as [p|] eqn:E; [|unfold SelectWinner; by rewrite E].
  rewrite (SelectWinner_unfold _ _ _ _ _ p E). set (skip := fun tag => bool_decide (tag = toTag)).
  assert (forall tag q, tag <> toTag -> ToTags fcm !! tag = Some q ->
    terminate_forks skip now st order !! q = Terminate now <$> st !! q) as Hother.
  { intros tag q Hne Hq. apply (terminate_forks_hit _ _ _ _ tag); [done|by apply (order_elem fcm)|].
    by apply bool_decide_false. }
  exists p. split_and!; try done.
  - apply terminate_forks_other. intros tag Ht%(order_elem fcm); [|done].
    apply bool_decide_true. by apply (fw_inj _ _ Hwf _ _ p).
  - intros q Hq. apply terminate_forks_other. intros tag Ht%(order_elem fcm); [|done]. by destruct (Hq tag).
  - intros q Hq. unfold GetActiveForks in Hq. apply list_elem_of_In, filter_In in Hq as [Hin Ha].
    apply list_elem_of_In, list_elem_of_fmap in Hin as ([tag q'] & -> & Hin). cbn in *.
    apply (order_elem fcm) in Hin; [|done]. destruct (decide (tag = toTag)) as [->|Hne]; [congruence|].
    rewrite (Hother tag q') in Ha by done. by destruct (st !! q').
Qed.

Definition two_forks : store * ForkedCallManager :=
  let '(st, fcm, _) := AddFork "a" "" "A" 1 [] (NewForkedCallManager "c" "f" 1) in
  let '(st, fcm, _) := AddFork "b" "z9" "B" 2 st fcm in (st, fcm).
Lemma two_forks_reachable : rtc fork_step ([], NewForkedCallManager "c" "f" 1) two_forks.
Proof.
  eapply rtc_l; [by eapply step_AddFork|]. eapply rtc_l; [by eapply step_AddFork|]. apply rtc_refl.
Qed.

Lemma SelectWinner_correct_witness :
  match SelectWinner "b" (map_to_list (ToTags two_forks.2)) 9 two_forks.1 two_forks.2 with
  | Ok (st', fcm') => State <$> st' !! 0%nat = Some LegStateTerminated /\ st' !! 1%nat = two_forks.1 !! 1%nat
  | _ => False
  end.
Proof.
  pose proof (SelectWinner_correct "c" "f" 1 two_forks.1 two_forks.2 "b" (map_to_list (ToTags two_forks.2))
    (map_to_list (ToTags two_forks.2)) 9 two_forks_reachable (Permutation_refl _) (Permutation_refl _)) as H.
  destruct (SelectWinner _ _ _ _ _) as [[st' fcm']| | |]; [|by destruct H as [_ H]; vm_compute in H|done..].
  destruct H as (p & Hp & _ & _ & Hw & Ho & _). vm_compute in Hp. injection Hp as <-.
  split; [|exact Hw]. rewrite (Ho "a" 0%nat); [reflexivity|discriminate|reflexivity].
Defined.
