(* ===== verification/Sharded.v ===== *)
(** * Keyed tables and their sharded implementation

    The port allocator, like other parts of the server, splits a map over
    sixteen shards so that goroutines contend less. [Table] is what the code
    needs of such a map and [TableLaws] what it may rely on; the sharded
    implementation and a plain finite map both satisfy it, and the former
    refines the latter. *)

From Stdlib Require Import ZArith Lia.
From stdpp Require Import base numbers list gmap.
From S2P Require Import Prelude.

Class Table (T K V : Type) := {
  tget : T -> K -> option V;
  tset : T -> K -> V -> T;
  tdel : T -> K -> T;
  tok : T -> Prop;
}.

Class TableLaws (T K V : Type) `{Table T K V} := {
  tset_ok : forall t k v, tok t -> tok (tset t k v);
  tdel_ok : forall t k, tok t -> tok (tdel t k);
  tget_tset_eq : forall t k v, tok t -> tget (tset t k v) k = Some v;
  tget_tset_ne : forall t k k' v, k <> k' -> tget (tset t k v) k' = tget t k';
  tget_tdel_eq : forall t k, tok t -> tget (tdel t k) k = None;
  tget_tdel_ne : forall t k k', k <> k' -> tget (tdel t k) k' = tget t k';
  tset_tset : forall t k v v', tset (tset t k v) k v' = tset t k v';
}.

(** Well-formedness of tables built by writes and deletions. *)
Ltac table_ok := repeat first [done | apply tset_ok | apply tdel_ok].

Section derived.
Context {T K V : Type} `{TableLaws T K V} `{EqDecision K}.

Lemma tget_tset t k k' v : tok t -> tget (tset t k v) k' = if decide (k = k') then Some v else tget t k'.
Proof. intros. case_decide as E; [subst; by apply tget_tset_eq|by apply tget_tset_ne]. Qed.

Lemma tget_tdel t k k' : tok t -> tget (tdel t k) k' = if decide (k = k') then None else tget t k'.
Proof. intros. case_decide as E; [subst; by apply tget_tdel_eq|by apply tget_tdel_ne]. Qed.

End derived.

(** ** Sharded tables *)

(** Which shard of [n] a key lives in. *)
Class ShardIndex (K : Type) (n : nat) := {
  shard_index : K -> nat;
  shard_index_lt : forall k, (shard_index k < n)%nat;
}.

Record sharded (n : nat) (K V : Type) `{Countable K} := Sharded { shards_of : list (gmap K V) }.
Arguments Sharded n {K V _ _} shards_of.
Arguments shards_of {n K V _ _} _.

Section sharded.
Context {n : nat} {K V : Type} `{Countable K} `{!ShardIndex K n}.
Implicit Types (t : sharded n K V) (k : K) (v : V).

Definition empty_shards : sharded n K V := Sharded n (replicate n ∅).

#[export] Instance sharded_table : Table (sharded n K V) K V := {
  tget t k := shards_of t !! shard_index (n := n) k ≫= fun shard => shard !! k;
  tset t k v := Sharded n (alter <[k := v]> (shard_index (n := n) k) (shards_of t));
  tdel t k := Sharded n (alter (delete k) (shard_index (n := n) k) (shards_of t));
  tok t := length (shards_of t) = n;
}.

(** Updating a shard touches no key of another shard and no other key of its
    own. *)
Lemma get_alter_ne t (f : gmap K V -> gmap K V) k k' :
  (forall m, f m !! k' = m !! k') ->
  tget (Sharded n (alter f (shard_index (n := n) k) (shards_of t))) k' = tget t k'.
Proof.
  intros Hf. cbn. rewrite list_lookup_alter. case_decide as E; [|done]. rewrite E.
  destruct (shards_of t !! shard_index k'); cbn; [apply Hf|done].
Qed.

Lemma get_alter_eq t (f : gmap K V -> gmap K V) k o :
  tok t -> (forall m, f m !! k = o) ->
  tget (Sharded n (alter f (shard_index (n := n) k) (shards_of t))) k = o.
Proof.
  intros Hok Hf. cbn. rewrite list_lookup_alter_eq.
  destruct (lookup_lt_is_Some_2 (shards_of t) (shard_index (n := n) k)) as [m E].
  { cbn in Hok. rewrite Hok. apply shard_index_lt. }
  rewrite E. cbn. apply Hf.
Qed.

#[export] Instance sharded_laws : TableLaws (sharded n K V) K V.
Proof.
  split.
  - intros. cbn in *. by rewrite length_alter.
  - intros. cbn in *. by rewrite length_alter.
  - intros. apply get_alter_eq; [done|]. intros. apply lookup_insert_eq.
  - intros. apply get_alter_ne. intros. by apply lookup_insert_ne.
  - intros. apply get_alter_eq; [done|]. intros. apply lookup_delete_eq.
  - intros. apply get_alter_ne. intros. by apply lookup_delete_ne.
  - intros [l] k v v'. cbn. f_equal. rewrite list_alter_alter_eq. apply list_alter_ext; [|done].
    intros m _. apply insert_insert_eq.
Qed.

Lemma empty_shards_ok : tok empty_shards.
Proof. cbn. apply length_replicate. Qed.
Lemma empty_shards_get k : tget empty_shards k = None.
Proof. cbn. destruct (replicate n ∅ !! _) eqn:E; [|done]. by apply lookup_replicate in E as [-> _]. Qed.

(** The map a sharded table stands for. *)
Definition unshard (t : sharded n K V) : gmap K V := ⋃ (shards_of t).

(** Every key sits in its own shard. *)
Record shards_wf (t : sharded n K V) : Prop := {
  sw_ok : tok t;
  sw_key : forall i m k v, shards_of t !! i = Some m -> m !! k = Some v -> shard_index (n := n) k = i;
}.

Lemma union_list_lookup (l : list (gmap K V)) k v :
  (forall i j m m' v v', l !! i = Some m -> l !! j = Some m' -> m !! k = Some v -> m' !! k = Some v' -> i = j) ->
  (⋃ l) !! k = Some v <-> exists i m, l !! i = Some m /\ m !! k = Some v.
Proof.
  induction l as [|m0 l IH]; intros Hu; cbn.
  { rewrite lookup_empty. split; [done|intros (i & m & Hi & _); by rewrite lookup_nil in Hi]. }
  assert (forall i j m m' v v', l !! i = Some m -> l !! j = Some m' -> m !! k = Some v -> m' !! k = Some v' -> i = j) as Hu'.
  { intros i j m m' w w' Hi Hj Hw Hw'. cut (S i = S j); [lia|]. by apply (Hu (S i) (S j) m m' w w'). }
  specialize (IH Hu'). rewrite lookup_union_Some_raw, IH. split.
  - intros [E|(_ & i & m & Hi & E)]; [by exists 0%nat, m0|by exists (S i), m].
  - intros ([|i] & m & Hi & E); [cbn in Hi; simplify_eq; by left|right].
    split; [|by exists i, m]. destruct (m0 !! k) eqn:E0; [|done].
    specialize (Hu 0%nat (S i) m0 m _ _ eq_refl Hi E0 E). lia.
Qed.

Lemma unshard_lookup t k : shards_wf t -> unshard t !! k = tget t k.
Proof.
  intros [Hok Hk]. apply option_eq. intros v. unfold unshard. rewrite union_list_lookup.
  - cbn. split.
    + intros (i & m & Hi & E). rewrite (Hk i m k v Hi E), Hi. done.
    + destruct (shards_of t !! _) eqn:E; [|done]. cbn. eauto.
  - intros i j m m' v1 v2 Hi Hj E1 E2. by rewrite <- (Hk _ _ _ _ Hi E1), <- (Hk _ _ _ _ Hj E2).
Qed.

Lemma alter_wf t (f : gmap K V -> gmap K V) k :
  shards_wf t -> (forall m k', k' <> k -> f m !! k' = m !! k') ->
  shards_wf (Sharded n (alter f (shard_index (n := n) k) (shards_of t))).
Proof.
  intros [Hok Hk] Hf. split; [cbn in *; by rewrite length_alter|].
  intros i m k' v. cbn. rewrite list_lookup_alter. case_decide as E; [|by apply Hk].
  rewrite E. destruct (shards_of t !! i) as [m'|] eqn:Ei; [|done]. cbn. intros [= <-] Ev.
  destruct (decide (k' = k)) as [->|Hne]; [done|]. rewrite Hf in Ev by done. by apply (Hk _ _ _ _ Ei Ev).
Qed.

Lemma tset_wf t k v : shards_wf t -> shards_wf (tset t k v).
Proof. intros. apply alter_wf; [done|]. intros. by apply lookup_insert_ne. Qed.
Lemma tdel_wf t k : shards_wf t -> shards_wf (tdel t k).
Proof. intros. apply alter_wf; [done|]. intros. by apply lookup_delete_ne. Qed.
Lemma empty_shards_wf : shards_wf empty_shards.
Proof.
  split; [apply empty_shards_ok|]. cbn. intros i m k v [-> _]%lookup_replicate. by rewrite lookup_empty.
Qed.

End sharded.

(** Splitting a table over shards changes nothing a client can see: the
    shards together are one finite map, and looking up, writing and deleting
    through the shard of a key are the map's own operations, which also keep
    every key in its shard. *)
Lemma unshard_refines {n : nat} {K V : Type} `{Countable K} `{!ShardIndex K n} (t : sharded n K V) k v :
  shards_wf t ->
  tget t k = unshard t !! k /\
  unshard (tset t k v) = <[k := v]> (unshard t) /\ shards_wf (tset t k v) /\
  unshard (tdel t k) = delete k (unshard t) /\ shards_wf (tdel t k) /\
  unshard (empty_shards (n := n) (K := K) (V := V)) = ∅.
Proof.
  intros Hwf. pose proof (sw_ok _ Hwf). split_and!; auto using tset_wf, tdel_wf.
  - by rewrite unshard_lookup.
  - apply map_eq. intros k'. rewrite unshard_lookup, tget_tset, lookup_insert by auto using tset_wf.
    case_decide; [done|]. by rewrite unshard_lookup.
  - apply map_eq. intros k'. rewrite unshard_lookup, tget_tdel, lookup_delete by auto using tdel_wf.
    case_decide; [done|]. by rewrite unshard_lookup.
  - apply map_eq. intros k'. rewrite unshard_lookup by apply empty_shards_wf.
    by rewrite empty_shards_get, lookup_empty.
Qed.
