(* ===== verification/PortAllocator.v ===== *)
(** * The RTP port allocator

    Models src/internal/port_allocator.go: ports tracked in sixteen shards,
    sessions in sixteen more, a channel of pre-reserved port pairs filled by a
    background goroutine, the delay before a released port is used again, and
    multi-port reservations with rollback. The calls are sequential steps; the
    refiller, the cleaner of released ports and the goroutine [AllocatePort]
    starts are steps of their own that may come at any point. Whether the
    operating system lets a port be bound is the argument [bind]. *)

From Stdlib Require Import ZArith Lia Ascii String.
From stdpp Require Import base numbers list gmap strings.
From S2P Require Import Prelude Sharded.

Local Open Scope Z_scope.
Local Open Scope go_scope.
#[local] Set Warnings "-clear-no-such-hyp,-level-tolerance".
#[local] Arguments wraps : simpl never.
#[local] Arguments wrapu : simpl never.

Inductive pa_error :=
  ErrNoPortsAvailable | ErrPortInUse | ErrPortOutOfRange | ErrPortPoolExhausted
| ErrPortAllocationLimit | ErrClosed.
#[export] Instance pa_error_eq_dec : EqDecision pa_error.
Proof. solve_decision. Defined.

Record PortAllocatorConfig := mkPAConfig {
  MinPort : Z;
  MaxPort : Z;
  ReserveCount : Z;
  ReuseDelay : Z;
  MaxAllocations : Z;
  EvenOnly : bool }.

Definition DefaultPortAllocatorConfig : PortAllocatorConfig :=
  {| MinPort := 10000; MaxPort := 60000; ReserveCount := 500; ReuseDelay := 2 * Second;
     MaxAllocations := 100; EvenOnly := true |}.

Record portPair := mkPair { rtp : Z; rtcp : Z }.

(** A bound connection is the number of its socket. *)
Record portInfo := mkInfo {
  port : Z;
  sessionID : string;
  allocatedAt : Z;
  conn : option Z }.

(** ** Shards *)

Fixpoint fnv1a (h : Z) (s : string) : Z :=
  match s with
  | EmptyString => h
  | String c s => fnv1a (u32 (Z.lxor h (Z.of_nat (nat_of_ascii c)) * 16777619)) s
  end.
Definition fnv1aString (s : string) : Z := fnv1a 2166136261 s.

Definition shardMask : Z := 15.

Definition getShard (port : Z) : nat := Z.to_nat (Z.land (u32 port) shardMask).
Definition getSessionShard (sessionID : string) : nat := Z.to_nat (Z.land (fnv1aString sessionID) shardMask).

Lemma land_15_lt x : (Z.to_nat (Z.land x shardMask) < 16)%nat.
Proof.
  change shardMask with (Z.ones 4). rewrite Z.land_ones by lia.
  pose proof (Z.mod_pos_bound x (2 ^ 4)). lia.
Qed.

#[export] Instance port_shard : ShardIndex Z 16 :=
  {| shard_index := getShard; shard_index_lt := fun p => land_15_lt (u32 p) |}.
#[export] Instance session_shard : ShardIndex string 16 :=
  {| shard_index := getSessionShard; shard_index_lt := fun s => land_15_lt (fnv1aString s) |}.

Definition portShards := sharded 16 Z portInfo.
Definition sessionShards := sharded 16 string (list Z).

(** ** The allocator *)

(** [returning] holds the RTCP ports whose goroutine, started by
    [AllocatePort], has not run yet; [closedConns] is the order in which
    connections were closed. *)
Record PortAllocator := mkPA {
  config : PortAllocatorConfig;
  pairPool : list portPair;
  shards : portShards;
  released : gmap Z Z;
  totalAllocated : Z;
  totalReleased : Z;
  totalFailed : Z;
  currentInUse : Z;
  peakInUse : Z;
  poolHits : Z;
  poolMisses : Z;
  sessions : sessionShards;
  nextPort : Z;
  closed : bool;
  returning : list Z;
  closedConns : list Z }.
#[export] Instance set_config : Setter config := fun f r =>
  mkPA (f (config r)) (pairPool r) (shards r) (released r) (totalAllocated r) (totalReleased r) (totalFailed r) (currentInUse r) (peakInUse r) (poolHits r) (poolMisses r) (sessions r) (nextPort r) (closed r) (returning r) (closedConns r).
#[export] Instance set_pairPool : Setter pairPool := fun f r =>
  mkPA (config r) (f (pairPool r)) (shards r) (released r) (totalAllocated r) (totalReleased r) (totalFailed r) (currentInUse r) (peakInUse r) (poolHits r) (poolMisses r) (sessions r) (nextPort r) (closed r) (returning r) (closedConns r).
#[export] Instance set_shards : Setter shards := fun f r =>
  mkPA (config r) (pairPool r) (f (shards r)) (released r) (totalAllocated r) (totalReleased r) (totalFailed r) (currentInUse r) (peakInUse r) (poolHits r) (poolMisses r) (sessions r) (nextPort r) (closed r) (returning r) (closedConns r).
#[export] Instance set_released : Setter released := fun f r =>
  mkPA (config r) (pairPool r) (shards r) (f (released r)) (totalAllocated r) (totalReleased r) (totalFailed r) (currentInUse r) (peakInUse r) (poolHits r) (poolMisses r) (sessions r) (nextPort r) (closed r) (returning r) (closedConns r).
#[export] Instance set_totalAllocated : Setter totalAllocated := fun f r =>
  mkPA (config r) (pairPool r) (shards r) (released r) (f (totalAllocated r)) (totalReleased r) (totalFailed r) (currentInUse r) (peakInUse r) (poolHits r) (poolMisses r) (sessions r) (nextPort r) (closed r) (returning r) (closedConns r).
#[export] Instance set_totalReleased : Setter totalReleased := fun f r =>
  mkPA (config r) (pairPool r) (shards r) (released r) (totalAllocated r) (f (totalReleased r)) (totalFailed r) (currentInUse r) (peakInUse r) (poolHits r) (poolMisses r) (sessions r) (nextPort r) (closed r) (returning r) (closedConns r).
#[export] Instance set_totalFailed : Setter totalFailed := fun f r =>
  mkPA (config r) (pairPool r) (shards r) (released r) (totalAllocated r) (totalReleased r) (f (totalFailed r)) (currentInUse r) (peakInUse r) (poolHits r) (poolMisses r) (sessions r) (nextPort r) (closed r) (returning r) (closedConns r).
#[export] Instance set_currentInUse : Setter currentInUse := fun f r =>
  mkPA (config r) (pairPool r) (shards r) (released r) (totalAllocated r) (totalReleased r) (totalFailed r) (f (currentInUse r)) (peakInUse r) (poolHits r) (poolMisses r) (sessions r) (nextPort r) (closed r) (returning r) (closedConns r).
#[export] Instance set_peakInUse : Setter peakInUse := fun f r =>
  mkPA (config r) (pairPool r) (shards r) (released r) (totalAllocated r) (totalReleased r) (totalFailed r) (currentInUse r) (f (peakInUse r)) (poolHits r) (poolMisses r) (sessions r) (nextPort r) (closed r) (returning r) (closedConns r).
#[export] Instance set_poolHits : Setter poolHits := fun f r =>
  mkPA (config r) (pairPool r) (shards r) (released r) (totalAllocated r) (totalReleased r) (totalFailed r) (currentInUse r) (peakInUse r) (f (poolHits r)) (poolMisses r) (sessions r) (nextPort r) (closed r) (returning r) (closedConns r).
#[export] Instance set_poolMisses : Setter poolMisses := fun f r =>
  mkPA (config r) (pairPool r) (shards r) (released r) (totalAllocated r) (totalReleased r) (totalFailed r) (currentInUse r) (peakInUse r) (poolHits r) (f (poolMisses r)) (sessions r) (nextPort r) (closed r) (returning r) (closedConns r).
#[export] Instance set_sessions : Setter sessions := fun f r =>
  mkPA (config r) (pairPool r) (shards r) (released r) (totalAllocated r) (totalReleased r) (totalFailed r) (currentInUse r) (peakInUse r) (poolHits r) (poolMisses r) (f (sessions r)) (nextPort r) (closed r) (returning r) (closedConns r).
#[export] Instance set_nextPort : Setter nextPort := fun f r =>
  mkPA (config r) (pairPool r) (shards r) (released r) (totalAllocated r) (totalReleased r) (totalFailed r) (currentInUse r) (peakInUse r) (poolHits r) (poolMisses r) (sessions r) (f (nextPort r)) (closed r) (returning r) (closedConns r).
#[export] Instance set_closed : Setter closed := fun f r =>
  mkPA (config r) (pairPool r) (shards r) (released r) (totalAllocated r) (totalReleased r) (totalFailed r) (currentInUse r) (peakInUse r) (poolHits r) (poolMisses r) (sessions r) (nextPort r) (f (closed r)) (returning r) (closedConns r).
#[export] Instance set_returning : Setter returning := fun f r =>
  mkPA (config r) (pairPool r) (shards r) (released r) (totalAllocated r) (totalReleased r) (totalFailed r) (currentInUse r) (peakInUse r) (poolHits r) (poolMisses r) (sessions r) (nextPort r) (closed r) (f (returning r)) (closedConns r).
#[export] Instance set_closedConns : Setter closedConns := fun f r =>
  mkPA (config r) (pairPool r) (shards r) (released r) (totalAllocated r) (totalReleased r) (totalFailed r) (currentInUse r) (peakInUse r) (poolHits r) (poolMisses r) (sessions r) (nextPort r) (closed r) (returning r) (f (closedConns r)).

Definition add64 (d : Z) (n : Z) : Z := i64 (n + d).

(** [if config.EvenOnly && start%2 != 0 { start++ }] *)
Definition alignedMin (config : PortAllocatorConfig) : Z :=
  if EvenOnly config && negb (Z.rem (MinPort config) 2 =? 0) then MinPort config + 1 else MinPort config.

(** [make] with a negative size panics. *)
Definition NewPortAllocator (config : option PortAllocatorConfig) : option PortAllocator :=
  let config := default DefaultPortAllocatorConfig config in
  if ReserveCount config <? 0 then None
  else Some {| config := config; pairPool := []; shards := empty_shards; released := ∅;
       totalAllocated := 0; totalReleased := 0; totalFailed := 0; currentInUse := 0; peakInUse := 0;
       poolHits := 0; poolMisses := 0; sessions := empty_shards; nextPort := i32 (alignedMin config);
       closed := false; returning := []; closedConns := [] |}.

(** The ports of a session: a missing key reads as the nil slice. *)
Definition session_ports (pa : PortAllocator) (sid : string) : list Z := default [] (tget (sessions pa) sid).

Definition recordAllocationStats (port : Z) (sid : string) (pa : PortAllocator) : PortAllocator :=
  let pa := pa <| sessions := tset (sessions pa) sid (session_ports pa sid ++ [port]) |> in
  let pa := pa <| totalAllocated ::= add64 1 |> <| currentInUse ::= add64 1 |> in
  if currentInUse pa <=? peakInUse pa then pa else pa <| peakInUse := currentInUse pa |>.

Definition recordAllocation (port : Z) (sid : string) (conn : option Z) (now : Z) (pa : PortAllocator) : PortAllocator :=
  let pa := pa <| shards := tset (shards pa) port (mkInfo port sid now conn) |> in
  recordAllocationStats port sid pa.

Definition markPortAvailable (port : Z) (pa : PortAllocator) : PortAllocator :=
  pa <| shards := tdel (shards pa) port |>.

(** ** Searching *)

(** [for port := port; cond; port += step], trying each port. *)
Fixpoint scan {A} (fuel : nat) (cond : Z -> bool) (step : Z) (try : Z -> option A) (port : Z) : option (Z * A) :=
  match fuel with
  | O => None
  | S fuel =>
      if cond port then
        match try port with
        | Some a => Some (port, a)
        | None => scan fuel cond step try (port + step)
        end
      else None
  end.

Definition isReleased (pa : PortAllocator) (port : Z) : bool := bool_decide (is_Some (released pa !! port)).
Definition isAllocated (pa : PortAllocator) (port : Z) : bool := bool_decide (is_Some (tget (shards pa) port)).

(** The two branches of the source differ in the locks they take only. *)
Definition tryReservePortPair (bind : Z -> bool) (now : Z) (pa : PortAllocator) (rtpPort : Z) : option PortAllocator :=
  let rtcpPort := rtpPort + 1 in
  if isReleased pa rtpPort then None
  else if isReleased pa rtcpPort then None
  else if isAllocated pa rtpPort then None
  else if isAllocated pa rtcpPort then None
  else if negb (bind rtpPort) || negb (bind rtcpPort) then None
  else Some (pa <| shards := tset (tset (shards pa) rtpPort (mkInfo rtpPort "" now None))
                                  rtcpPort (mkInfo rtcpPort "" now None) |>).

(** The number of rounds the loops over the port range can take. *)
Definition scan_fuel (config : PortAllocatorConfig) (start : Z) : nat := Z.to_nat (MaxPort config + 2 - start).

Definition findAvailablePortPair (bind : Z -> bool) (now : Z) (pa : PortAllocator) : option (portPair * PortAllocator) :=
  let start := nextPort pa in
  let end_ := MaxPort (config pa) - 1 in
  let found '(port, pa) := (mkPair port (port + 1), pa <| nextPort := i32 (port + 2) |>) in
  match scan (scan_fuel (config pa) start) (fun port => port <? end_) 2 (tryReservePortPair bind now pa) start with
  | Some r => Some (found r)
  | None =>
      let wrapStart := alignedMin (config pa) in
      found <$> scan (scan_fuel (config pa) wrapStart) (fun port => (port <? start) && (port <? end_)) 2
                     (tryReservePortPair bind now pa) wrapStart
  end.

Definition tryAllocatePort (bind : Z -> bool) (now : Z) (sid : string) (pa : PortAllocator) (port : Z) : option PortAllocator :=
  if isReleased pa port then None
  else if isAllocated pa port then None
  else if negb (bind port) then None
  else
    let pa := pa <| shards := tset (shards pa) port (mkInfo port sid now None) |> in
    Some (recordAllocationStats port sid pa).

Definition findAndAllocatePort (bind : Z -> bool) (now : Z) (sid : string) (pa : PortAllocator) : outcome pa_error Z * PortAllocator :=
  let start := nextPort pa in
  let step := if EvenOnly (config pa) then 2 else 1 in
  let found '(port, pa) := (Ok port, pa <| nextPort := i32 (port + step) |>) in
  match scan (scan_fuel (config pa) start) (fun port => port <=? MaxPort (config pa)) step (tryAllocatePort bind now sid pa) start with
  | Some r => found r
  | None =>
      let wrapStart := alignedMin (config pa) in
      match scan (Z.to_nat (start - wrapStart)) (fun port => port <? start) step (tryAllocatePort bind now sid pa) wrapStart with
      | Some r => found r
      | None => (Err ErrNoPortsAvailable, pa)
      end
  end.

(** ** Allocation *)

(** [AllocatePort] once the session's count was read, under a lock that is given
    back before the port is taken and recorded. *)
Definition take_port (bind : Z -> bool) (now : Z) (sid : string) (pa : PortAllocator) : outcome pa_error Z * PortAllocator :=
  match pairPool pa with
  | pr :: pool =>
      let pa := pa <| pairPool := pool |> <| poolHits ::= add64 1 |>
                   <| returning ::= fun r => r ++ [rtcp pr] |> in
      (Ok (rtp pr), recordAllocation (rtp pr) sid None now pa)
  | [] =>
      let pa := pa <| poolMisses ::= add64 1 |> in
      match findAndAllocatePort bind now sid pa with
      | (Ok port, pa) => (Ok port, pa)
      | (e, pa) => (e, pa <| totalFailed ::= add64 1 |>)
      end
  end.

Definition AllocatePort (bind : Z -> bool) (now : Z) (sid : string) (pa : PortAllocator) : outcome pa_error Z * PortAllocator :=
  if closed pa then (Err ErrClosed, pa)
  else if MaxAllocations (config pa) <=? Z.of_nat (length (session_ports pa sid)) then
    (Err ErrPortAllocationLimit, pa <| totalFailed ::= add64 1 |>)
  else take_port bind now sid pa.

(** The goroutine of [AllocatePort]: sends the RTCP port back as the first
    port of a pair, or frees it when the pool is full. *)
Definition returnRTCP (k : nat) (pa : PortAllocator) : PortAllocator :=
  match returning pa !! k with
  | None => pa
  | Some p =>
      let pa := pa <| returning ::= delete k |> in
      if Z.of_nat (length (pairPool pa)) <? ReserveCount (config pa)
      then pa <| pairPool ::= fun pool => pool ++ [mkPair p (p + 1)] |>
      else markPortAvailable p pa
  end.

Definition take_port_pair (bind : Z -> bool) (now : Z) (sid : string) (pa : PortAllocator) : outcome pa_error (Z * Z) * PortAllocator :=
  match pairPool pa with
  | pr :: pool =>
      let pa := pa <| pairPool := pool |> <| poolHits ::= add64 1 |> in
      (Ok (rtp pr, rtcp pr),
       recordAllocation (rtcp pr) sid None now (recordAllocation (rtp pr) sid None now pa))
  | [] =>
      let pa := pa <| poolMisses ::= add64 1 |> in
      match findAvailablePortPair bind now pa with
      | None => (Err ErrNoPortsAvailable, pa <| totalFailed ::= add64 2 |>)
      | Some (pr, pa) =>
          (Ok (rtp pr, rtcp pr),
           recordAllocation (rtcp pr) sid None now (recordAllocation (rtp pr) sid None now pa))
      end
  end.

Definition AllocatePortPair (bind : Z -> bool) (now : Z) (sid : string) (pa : PortAllocator) : outcome pa_error (Z * Z) * PortAllocator :=
  if closed pa then (Err ErrClosed, pa)
  else if MaxAllocations (config pa) <? Z.of_nat (length (session_ports pa sid)) + 2 then
    (Err ErrPortAllocationLimit, pa <| totalFailed ::= add64 1 |>)
  else take_port_pair bind now sid pa.

(** Here [bind] opens the socket the session keeps. *)
Definition AllocateWithConnection (bind : Z -> option Z) (now : Z) (sid : string) (pa : PortAllocator) : outcome pa_error (Z * Z) * PortAllocator :=
  if closed pa then (Err ErrClosed, pa)
  else if MaxAllocations (config pa) <=? Z.of_nat (length (session_ports pa sid)) then
    (Err ErrPortAllocationLimit, pa <| totalFailed ::= add64 1 |>)
  else
    let start := nextPort pa in
    let step := if EvenOnly (config pa) then 2 else 1 in
    let try port :=
      if isReleased pa port then None else if isAllocated pa port then None else bind port in
    match scan (scan_fuel (config pa) start) (fun port => port <=? MaxPort (config pa)) step try start with
    | Some (port, conn) =>
        let pa := pa <| shards := tset (shards pa) port (mkInfo port sid now (Some conn)) |>
                     <| nextPort := i32 (port + step) |> in
        (Ok (port, conn), recordAllocationStats port sid pa)
    | None => (Err ErrNoPortsAvailable, pa <| totalFailed ::= add64 1 |>)
    end.

(** ** Release *)

(** [append(ports[:i], ports[i+1:]...)] at the first [i] with the port. *)
Fixpoint remove_first (port : Z) (ports : list Z) : list Z :=
  match ports with
  | [] => []
  | p :: ports => if p =? port then ports else p :: remove_first port ports
  end.

Definition ReleasePort (port : Z) (now : Z) (pa : PortAllocator) : outcome pa_error unit * PortAllocator :=
  match tget (shards pa) port with
  | None => (Err ErrPortOutOfRange, pa)
  | Some info =>
      let pa := match conn info with Some c => pa <| closedConns ::= fun l => l ++ [c] |> | None => pa end in
      let pa := pa <| shards := tdel (shards pa) port |> <| released ::= <[port := now]> |> in
      let pa :=
        if negb (bool_decide (sessionID info = "")) then
          let ports := remove_first port (session_ports pa (sessionID info)) in
          let pa := pa <| sessions := tset (sessions pa) (sessionID info) ports |> in
          if bool_decide (ports = []) then pa <| sessions := tdel (sessions pa) (sessionID info) |> else pa
        else pa in
      (Ok tt, pa <| totalReleased ::= add64 1 |> <| currentInUse ::= add64 (-1) |>)
  end.

Fixpoint release_all (ports : list Z) (now : Z) (lastErr : option pa_error) (pa : PortAllocator) : option pa_error * PortAllocator :=
  match ports with
  | [] => (lastErr, pa)
  | port :: ports =>
      match ReleasePort port now pa with
      | (Err e, pa) => release_all ports now (Some e) pa
      | (_, pa) => release_all ports now lastErr pa
      end
  end.

Definition ReleaseSessionPorts (sid : string) (now : Z) (pa : PortAllocator) : option pa_error * PortAllocator :=
  release_all (session_ports pa sid) now None pa.

(** ** Background goroutines *)

Fixpoint refill_loop (n : nat) (bind : Z -> bool) (now : Z) (pa : PortAllocator) : PortAllocator :=
  match n with
  | O => pa
  | S n =>
      match findAvailablePortPair bind now pa with
      | None => pa
      | Some (pr, pa) =>
          if Z.of_nat (length (pairPool pa)) <? ReserveCount (config pa)
          then refill_loop n bind now (pa <| pairPool ::= fun pool => pool ++ [pr] |>)
          else markPortAvailable (rtcp pr) (markPortAvailable (rtp pr) pa)
      end
  end.
Definition refillPool (bind : Z -> bool) (now : Z) (pa : PortAllocator) : PortAllocator :=
  refill_loop (Z.to_nat (ReserveCount (config pa) - Z.of_nat (length (pairPool pa)))) bind now pa.

(** One round of the refiller. *)
Definition poolRefiller (bind : Z -> bool) (now : Z) (pa : PortAllocator) : PortAllocator :=
  if closed pa then pa
  else if Z.of_nat (length (pairPool pa)) <? Z.quot (ReserveCount (config pa)) 2 then refillPool bind now pa else pa.

(** One tick of the cleaner. *)
Definition releasedCleaner (now : Z) (pa : PortAllocator) : PortAllocator :=
  if closed pa then pa
  else pa <| released ::= filter (fun kv => Time_Sub now kv.2 < ReuseDelay (config pa)) |>.

Definition releasedCleaner_interval (config : PortAllocatorConfig) : Z :=
  let interval := Z.quot (ReuseDelay config) 2 in
  let interval := if interval <? 50 * Millisecond then 50 * Millisecond else interval in
  if Second <? interval then Second else interval.

Definition Close (pa : PortAllocator) : PortAllocator :=
  if closed pa then pa
  else
    let conns := omap (fun kv => conn kv.2) (shards_of (shards pa) ≫= map_to_list) in
    pa <| closed := true |> <| pairPool := [] |>
       <| closedConns ::= fun l => l ++ conns |>
       <| shards := Sharded 16 ((fun _ => ∅) <$> shards_of (shards pa)) |>.

Definition GetAvailableCount (pa : PortAllocator) : Z :=
  let totalPorts := if EvenOnly (config pa) then Z.quot (MaxPort (config pa) - MinPort (config pa)) 2
                    else MaxPort (config pa) - MinPort (config pa) + 1 in
  totalPorts - currentInUse pa.

(** ** Reservations *)

Record PortReservation := mkReservation { r_ports : list Z; r_sessionID : string; committed : bool }.

Definition Rollback (now : Z) (r : PortReservation) (pa : PortAllocator) : PortReservation * PortAllocator :=
  if committed r then (r, pa)
  else (mkReservation [] (r_sessionID r) (committed r), (release_all (r_ports r) now None pa).2).

Definition Commit (r : PortReservation) : PortReservation := mkReservation (r_ports r) (r_sessionID r) true.

Fixpoint reserve_loop (count : nat) (bind : Z -> bool) (now : Z) (r : PortReservation) (pa : PortAllocator) : outcome pa_error PortReservation * PortAllocator :=
  match count with
  | O => (Ok r, pa)
  | S count =>
      match AllocatePort bind now (r_sessionID r) pa with
      | (Ok port, pa) => reserve_loop count bind now (mkReservation (r_ports r ++ [port]) (r_sessionID r) (committed r)) pa
      | (Err e, pa) => (Err e, (Rollback now r pa).2)
      | (Panic, pa) => (Panic, pa)
      | (OutOfFuel, pa) => (OutOfFuel, pa)
      end
  end.
(** [make] with a negative count panics. *)
Definition NewPortReservation (bind : Z -> bool) (now : Z) (sid : string) (count : Z) (pa : PortAllocator) : outcome pa_error PortReservation * PortAllocator :=
  if count <? 0 then (Panic, pa) else reserve_loop (Z.to_nat count) bind now (mkReservation [] sid false) pa.

(** ** The operations as steps *)

Inductive pa_op :=
| OpAllocatePort (bind : Z -> bool) (now : Z) (sid : string)
| OpReturnRTCP (k : nat)
| OpAllocatePortPair (bind : Z -> bool) (now : Z) (sid : string)
| OpAllocateWithConnection (bind : Z -> option Z) (now : Z) (sid : string)
| OpReleasePort (port now : Z)
| OpReleaseSessionPorts (sid : string) (now : Z)
| OpRefill (bind : Z -> bool) (now : Z)
| OpClean (now : Z).

Definition pa_step (pa : PortAllocator) (o : pa_op) : PortAllocator :=
  match o with
  | OpAllocatePort bind now sid => (AllocatePort bind now sid pa).2
  | OpReturnRTCP k => returnRTCP k pa
  | OpAllocatePortPair bind now sid => (AllocatePortPair bind now sid pa).2
  | OpAllocateWithConnection bind now sid => (AllocateWithConnection bind now sid pa).2
  | OpReleasePort port now => (ReleasePort port now pa).2
  | OpReleaseSessionPorts sid now => (ReleaseSessionPorts sid now pa).2
  | OpRefill bind now => poolRefiller bind now pa
  | OpClean now => releasedCleaner now pa
  end.
Definition pa_run (pa : PortAllocator) (ops : list pa_op) : PortAllocator := foldl pa_step pa ops.

(** ** The search loops *)

Section scan.
Context {A : Type} (cond : Z -> bool) (step : Z) (try : Z -> option A).

Lemma scan_Some fuel start p a :
  scan fuel cond step try start = Some (p, a) ->
  exists k, 0 <= k /\ p = start + k * step /\ cond p = true /\ try p = Some a /\
    forall j, 0 <= j < k -> try (start + j * step) = None.
Proof.
  revert start. induction fuel as [|fuel IH]; intros start; cbn; [done|].
  destruct (cond start) eqn:Ec; [|done]. destruct (try start) eqn:Et.
  - intros [= <- <-]. exists 0. rewrite Z.mul_0_l, Z.add_0_r. split_and!; auto with lia.
  - intros (k & Hk & -> & Hc & Ht & Hj)%IH. exists (k + 1).
    split; [lia|]. replace (start + (k + 1) * step) with (start + step + k * step) by ring.
    split_and!; auto. intros j Hj'. destruct (Z.eq_dec j 0) as [->|].
    + by rewrite Z.mul_0_l, Z.add_0_r.
    + replace (start + j * step) with (start + step + (j - 1) * step) by ring. apply Hj. lia.
Qed.

(** With fuel for the whole range, finding nothing means every port of the
    range was tried. *)
Lemma scan_None fuel start limit :
  0 < step -> (forall p, cond p = true -> p < limit) -> limit <= start + Z.of_nat fuel ->
  scan fuel cond step try start = None ->
  forall k, 0 <= k -> (forall j, 0 <= j <= k -> cond (start + j * step) = true) -> try (start + k * step) = None.
Proof.
  intros Hstep Hlim. revert start. induction fuel as [|fuel IH]; intros start Hf Hn k Hk Hc.
  { assert (start < limit); [|lia]. apply Hlim. specialize (Hc 0). rewrite Z.mul_0_l, Z.add_0_r in Hc. apply Hc. lia. }
  cbn in Hn. pose proof (Hc 0 ltac:(lia)) as H0. rewrite Z.mul_0_l, Z.add_0_r in H0. rewrite H0 in Hn.
  destruct (try start) eqn:Et; [done|]. destruct (Z.eq_dec k 0) as [->|]; [by rewrite Z.mul_0_l, Z.add_0_r|].
  replace (start + k * step) with (start + step + (k - 1) * step) by ring. apply IH; auto; [lia..|].
  intros j Hj. replace (start + step + j * step) with (start + (j + 1) * step) by ring. apply Hc. lia.
Qed.

End scan.

(** ** Ownership *)

(** Who a port is with: nobody, the pool (the empty session), or a session. *)
Definition owner (pa : PortAllocator) (p : Z) : option string := sessionID <$> tget (shards pa) p.

(** The ports set aside for the pool and for goroutines on their way to it. *)
Definition pool_ports (pa : PortAllocator) : list Z := (pairPool pa ≫= fun pr => [rtp pr; rtcp pr]) ++ returning pa.

Record pa_cfg_ok (c : PortAllocatorConfig) : Prop := {
  pc_min : 0 <= MinPort c <= MaxPort c;
  pc_max : MaxPort c < 2 ^ 31 - 4;
  pc_alloc : 0 <= MaxAllocations c;
}.

Definition pair_ok (c : PortAllocatorConfig) (pr : portPair) : Prop :=
  MinPort c <= rtp pr /\ rtcp pr = rtp pr + 1 /\ rtcp pr < MaxPort c /\ (EvenOnly c = true -> Z.Even (rtp pr)).

(** The invariant, with the ports [held] by an operation that is under way. *)
Record pa_inv (held : list Z) (pa : PortAllocator) : Prop := {
  pi_shards : tok (shards pa);
  pi_sessions : tok (sessions pa);
  pi_cfg : pa_cfg_ok (config pa);
  pi_reserved : forall p, p ∈ pool_ports pa ++ held -> owner pa p = Some "";
  pi_distinct : NoDup (pool_ports pa ++ held);
  pi_pairs : Forall (pair_ok (config pa)) (pairPool pa);
  pi_owned : forall sid p, sid <> "" -> p ∈ session_ports pa sid <-> owner pa p = Some sid;
  pi_nodup : forall sid, NoDup (session_ports pa sid);
  pi_nosession : session_ports pa "" = [];
  pi_limit : forall sid, Z.of_nat (length (session_ports pa sid)) <= MaxAllocations (config pa);
  pi_released : forall p, is_Some (released pa !! p) -> owner pa p = None;
  pi_next : MinPort (config pa) <= nextPort pa <= MaxPort (config pa) + 2 /\ (EvenOnly (config pa) = true -> Z.Even (nextPort pa));
}.

Lemma owner_set pa p info q :
  tok (shards pa) -> sessionID <$> tget (tset (shards pa) p info) q = if decide (p = q) then Some (sessionID info) else owner pa q.
Proof. intros. rewrite tget_tset by done. unfold owner. by case_decide. Qed.

Lemma owner_del pa p q :
  tok (shards pa) -> sessionID <$> tget (tdel (shards pa) p) q = if decide (p = q) then None else owner pa q.
Proof. intros. rewrite tget_tdel by done. unfold owner. by case_decide. Qed.

Lemma isAllocated_owner pa p : isAllocated pa p = false -> owner pa p = None.
Proof. unfold isAllocated, owner. case_bool_decide as E; [done|]. intros _. apply eq_None_not_Some in E. by rewrite E. Qed.

Lemma isReleased_false pa p : isReleased pa p = false -> released pa !! p = None.
Proof. unfold isReleased. case_bool_decide as E; [done|]. intros _. by apply eq_None_not_Some. Qed.

Lemma session_ports_set pa sid sid' ports :
  tok (sessions pa) ->
  default [] (tget (tset (sessions pa) sid ports) sid') = if decide (sid = sid') then ports else session_ports pa sid'.
Proof. intros. rewrite tget_tset by done. unfold session_ports. by case_decide. Qed.

#[local] Arguments tget : simpl never.
#[local] Arguments tset : simpl never.
#[local] Arguments tdel : simpl never.
#[local] Arguments tok : simpl never.
#[local] Arguments session_ports : simpl never.
#[local] Arguments owner : simpl never.
#[local] Arguments pool_ports : simpl never.

(** *** What each primitive does to the invariant *)

(** The counters are no part of it. *)
Lemma pa_inv_ext held pa pa' :
  pa_inv held pa -> config pa' = config pa -> pairPool pa' = pairPool pa -> shards pa' = shards pa ->
  released pa' = released pa -> sessions pa' = sessions pa -> nextPort pa' = nextPort pa ->
  returning pa' = returning pa -> pa_inv held pa'.
Proof.
  destruct pa, pa'; cbn; intros [? ? ? ? ? ? ? ? ? ? ? ?] -> -> -> -> -> -> ->. by split.
Qed.

Lemma recordAllocationStats_sets p sid pa :
  let pa' := recordAllocationStats p sid pa in
  config pa' = config pa /\ pairPool pa' = pairPool pa /\ shards pa' = shards pa /\ released pa' = released pa /\
  sessions pa' = tset (sessions pa) sid (session_ports pa sid ++ [p]) /\ nextPort pa' = nextPort pa /\
  returning pa' = returning pa /\ closed pa' = closed pa.
Proof. unfold recordAllocationStats. cbn. by case_match. Qed.

(** Giving a held port to a session. *)
Lemma recordAllocation_inv held p sid c now pa :
  pa_inv (p :: held) pa -> sid <> "" ->
  Z.of_nat (length (session_ports pa sid)) < MaxAllocations (config pa) ->
  pa_inv held (recordAllocation p sid c now pa) /\
  config (recordAllocation p sid c now pa) = config pa /\
  session_ports (recordAllocation p sid c now pa) sid = session_ports pa sid ++ [p] /\
  closed (recordAllocation p sid c now pa) = closed pa.
Proof.
  intros [Hsh Hse Hcf Hre Hdi Hpa How Hnd Hno Hli Hrel Hne] Hsid Hlt.
  unfold recordAllocation.
  destruct (recordAllocationStats_sets p sid (pa <| shards := tset (shards pa) p (mkInfo p sid now c) |>))
    as (E1 & E2 & E3 & E4 & E5 & E6 & E7 & E8).
  set (pa' := recordAllocationStats p sid _) in *. clearbody pa'. cbn in *.
  assert (owner pa p = Some "") as Hp by (apply Hre; set_solver).
  assert (forall q, owner pa' q = if decide (p = q) then Some sid else owner pa q) as Ho
    by (intros; unfold owner; rewrite E3; by apply owner_set).
  assert (forall s, session_ports pa' s = if decide (sid = s) then session_ports pa sid ++ [p] else session_ports pa s) as Hs
    by (intros; unfold session_ports at 1; rewrite E5; by apply session_ports_set).
  assert (pool_ports pa' = pool_ports pa) as Hpp by (unfold pool_ports; by rewrite E2, E7).
  assert (p ∉ pool_ports pa ++ held /\ NoDup (pool_ports pa ++ held)) as [Hnp Hd'].
  { rewrite <- Permutation_middle in Hdi. by apply NoDup_cons in Hdi. }
  assert (p ∉ session_ports pa sid) as Hnin by (rewrite How by done; rewrite Hp; congruence).
  split_and!; [split|..].
  - rewrite E3. by apply tset_ok.
  - rewrite E5. by apply tset_ok.
  - by rewrite E1.
  - intros q. rewrite Hpp, Ho. intros Hq. rewrite decide_False by (by intros ->). apply Hre. set_solver.
  - by rewrite Hpp.
  - by rewrite E1, E2.
  - intros s q Hs'. rewrite Hs, Ho. destruct (decide (sid = s)) as [<-|Hns], (decide (p = q)) as [<-|Hpq];
      rewrite ?elem_of_app, ?list_elem_of_singleton, ?How by done; naive_solver.
  - intros s. rewrite Hs. case_decide; [|done]. apply NoDup_app. split_and!; [done| |apply NoDup_singleton].
    intros q Hq ->%list_elem_of_singleton. done.
  - rewrite Hs. by rewrite decide_False.
  - intros s. rewrite Hs, E1. case_decide; [|done]. rewrite length_app. cbn. lia.
  - rewrite E4. intros q Hq. rewrite Ho. case_decide; [|by apply Hrel]. subst q. rewrite Hrel in Hp; done.
  - by rewrite E1, E6.
  - done.
  - rewrite Hs. by rewrite decide_True.
  - done.
Qed.

(** Setting a free port aside. *)
Definition reserve_one (p now : Z) (pa : PortAllocator) : PortAllocator :=
  pa <| shards := tset (shards pa) p (mkInfo p "" now None) |>.

Lemma pa_inv_perm held held' pa : held ≡ₚ held' -> pa_inv held pa -> pa_inv held' pa.
Proof.
  intros Hp [? ? ? Hre Hdi ? ? ? ? ? ? ?]. split; auto; [|by rewrite <- Hp].
  intros p Hin. apply Hre. by rewrite Hp.
Qed.

Lemma owner_reserve p now pa q :
  tok (shards pa) -> owner (reserve_one p now pa) q = if decide (p = q) then Some "" else owner pa q.
Proof. intros. by apply owner_set. Qed.

Lemma reserve_one_inv p now pa held :
  pa_inv held pa -> owner pa p = None -> released pa !! p = None -> pa_inv (p :: held) (reserve_one p now pa).
Proof.
  intros [Hsh Hse Hcf Hre Hdi Hpa How Hnd Hno Hli Hrel Hne] Hfree Hr.
  assert (p ∉ pool_ports pa ++ held) as Hnp by (intros ?%Hre; congruence).
  split; try done.
  - by apply tset_ok.
  - intros q Hq. rewrite owner_reserve by done. case_decide; [done|]. apply Hre.
    rewrite elem_of_app, elem_of_cons in Hq. rewrite elem_of_app. naive_solver.
  - change (pool_ports (reserve_one p now pa)) with (pool_ports pa).
    rewrite <- Permutation_middle. by apply NoDup_cons.
  - intros s q Hs. rewrite owner_reserve by done. change (session_ports (reserve_one p now pa) s) with (session_ports pa s).
    rewrite How by done. case_decide; [subst q; rewrite Hfree; naive_solver|done].
  - intros q Hq. change (released (reserve_one p now pa)) with (released pa) in Hq.
    rewrite owner_reserve by done. case_decide; [subst q; rewrite Hr in Hq; by destruct Hq|by apply Hrel].
Qed.

(** Reserving a free pair. *)
Lemma tryReservePortPair_Some bind now pa p pa' :
  tryReservePortPair bind now pa p = Some pa' ->
  pa' = reserve_one (p + 1) now (reserve_one p now pa) /\
  owner pa p = None /\ owner pa (p + 1) = None /\ released pa !! p = None /\ released pa !! (p + 1) = None.
Proof.
  unfold tryReservePortPair.
  destruct (isReleased pa p) eqn:R1; [done|]. destruct (isReleased pa (p + 1)) eqn:R2; [done|].
  destruct (isAllocated pa p) eqn:A1; [done|]. destruct (isAllocated pa (p + 1)) eqn:A2; [done|].
  destruct (negb _ || negb _); [done|]. intros [= <-].
  apply isAllocated_owner in A1, A2. apply isReleased_false in R1, R2. by destruct pa.
Qed.

Lemma tryReservePortPair_inv bind now pa p pa' held :
  pa_inv held pa -> tryReservePortPair bind now pa p = Some pa' -> pa_inv (p :: (p + 1) :: held) pa'.
Proof.
  intros Hinv (-> & H1 & H2 & H3 & H4)%tryReservePortPair_Some.
  apply (pa_inv_perm ((p + 1) :: p :: held)); [apply perm_swap|].
  apply reserve_one_inv; [by apply reserve_one_inv| |done].
  rewrite owner_reserve by apply Hinv. by rewrite decide_False by lia.
Qed.

(** Taking a port that is free and not waiting to be reused. *)
Lemma recordAllocation_free p sid c now pa :
  recordAllocation p sid c now pa = recordAllocation p sid c now (reserve_one p now pa).
Proof.
  unfold recordAllocation, reserve_one. cbn [shards set_field]. f_equal.
  destruct pa. unfold set_field, set_shards. cbn. by rewrite tset_tset.
Qed.

(** Moving between the pool and an operation under way. *)
Lemma pool_pop_inv held pa pr pool :
  pa_inv held pa -> pairPool pa = pr :: pool ->
  pa_inv (rtp pr :: rtcp pr :: held) (pa <| pairPool := pool |>) /\ pair_ok (config pa) pr.
Proof.
  intros [Hsh Hse Hcf Hre Hdi Hpa How Hnd Hno Hli Hrel Hne] Hpool.
  rewrite Hpool in Hpa. apply Forall_cons in Hpa as [Hpr Hpa].
  assert (pool_ports pa ++ held ≡ₚ pool_ports (pa <| pairPool := pool |>) ++ rtp pr :: rtcp pr :: held) as E.
  { unfold pool_ports. rewrite Hpool. cbn. by rewrite <- !Permutation_middle. }
  split; [|done]. split; try done.
  - intros p. rewrite <- E. apply Hre.
  - by rewrite <- E.
Qed.

Lemma pool_push_inv held pa pr :
  pa_inv (rtp pr :: rtcp pr :: held) pa -> pair_ok (config pa) pr ->
  pa_inv held (pa <| pairPool ::= fun pool => pool ++ [pr] |>).
Proof.
  intros [Hsh Hse Hcf Hre Hdi Hpa How Hnd Hno Hli Hrel Hne] Hpr.
  set (pa' := pa <| pairPool ::= _ |>).
  assert (pool_ports pa ++ rtp pr :: rtcp pr :: held ≡ₚ pool_ports pa' ++ held) as E.
  { unfold pool_ports, pa'. cbn. rewrite bind_app, <- !app_assoc. cbn.
    rewrite (Permutation_app_comm (returning pa)). rewrite (Permutation_app_comm (returning pa) held). cbn. done. }
  split; try done.
  - intros p. rewrite <- E. apply Hre.
  - by rewrite <- E.
  - cbn. apply Forall_app. split; [done|]. by apply Forall_singleton.
Qed.

Lemma markPortAvailable_inv held pa p : pa_inv (p :: held) pa -> pa_inv held (markPortAvailable p pa).
Proof.
  intros [Hsh Hse Hcf Hre Hdi Hpa How Hnd Hno Hli Hrel Hne].
  rewrite <- Permutation_middle in Hdi. apply NoDup_cons in Hdi as [Hnp Hdi].
  assert (owner pa p = Some "") as Hp by (apply Hre; rewrite elem_of_app, elem_of_cons; auto).
  assert (forall q, owner (markPortAvailable p pa) q = if decide (p = q) then None else owner pa q) as Ho
    by (intros; by apply owner_del).
  split; try done.
  - by apply tdel_ok.
  - intros q Hq. change (pool_ports (markPortAvailable p pa)) with (pool_ports pa) in Hq. rewrite Ho.
    rewrite decide_False by (by intros ->). apply Hre. rewrite elem_of_app, elem_of_cons. rewrite elem_of_app in Hq. tauto.
  - intros s q Hs. rewrite Ho. change (session_ports (markPortAvailable p pa) s) with (session_ports pa s).
    rewrite How by done. case_decide; [subst q; rewrite Hp; naive_solver|done].
  - intros q Hq%Hrel. rewrite Ho. by case_decide.
Qed.

(** *** What each operation does to the invariant *)

Lemma alignedMin_ok c : pa_cfg_ok c -> MinPort c <= alignedMin c <= MaxPort c + 2 /\ (EvenOnly c = true -> Z.Even (alignedMin c)).
Proof.
  intros [Hmin _ _]. unfold alignedMin. destruct (EvenOnly c); cbn; [|split; [lia|done]].
  rewrite Z.rem_mod_nonneg by lia. destruct (Z.eqb_spec (MinPort c mod 2) 0) as [E|E]; cbn.
  - split; [lia|]. intros _. exists (MinPort c / 2). pose proof (Z.div_mod (MinPort c) 2). lia.
  - split; [lia|]. intros _. pose proof (Z.div_mod (MinPort c) 2). pose proof (Z.mod_pos_bound (MinPort c) 2).
    exists (MinPort c / 2 + 1). lia.
Qed.

Lemma Even_step a k : Z.Even a -> Z.Even (a + k * 2).
Proof. intros [b ->]. exists (b + k). ring. Qed.

Lemma set_nextPort_inv held pa n :
  pa_inv held pa -> MinPort (config pa) <= n <= MaxPort (config pa) + 2 -> (EvenOnly (config pa) = true -> Z.Even n) ->
  pa_inv held (pa <| nextPort := i32 n |>).
Proof.
  intros [? ? Hcf ? ? ? ? ? ? ? ? ?] Hr He. pose proof (pc_min _ Hcf). pose proof (pc_max _ Hcf).
  rewrite wraps_id by (unfold is_s; lia). split; try done.
Qed.

(** The frame of the search operations. *)
Definition same_but_ports (pa pa' : PortAllocator) : Prop :=
  config pa' = config pa /\ pairPool pa' = pairPool pa /\ sessions pa' = sessions pa /\
  returning pa' = returning pa /\ released pa' = released pa /\ closed pa' = closed pa.

Lemma findAvailablePortPair_inv bind now pa pr pa' held :
  pa_inv held pa -> findAvailablePortPair bind now pa = Some (pr, pa') ->
  pa_inv (rtp pr :: rtcp pr :: held) pa' /\ pair_ok (config pa) pr /\ same_but_ports pa pa' /\
  owner pa (rtp pr) = None /\ owner pa (rtcp pr) = None /\
  released pa !! rtp pr = None /\ released pa !! rtcp pr = None /\ bind (rtp pr) = true /\ bind (rtcp pr) = true.
Proof.
  intros Hinv Hf. pose proof (pi_cfg _ _ Hinv) as Hc. destruct (pi_next _ _ Hinv) as [Hn1 Hn2].
  destruct (alignedMin_ok _ Hc) as [Ha1 Ha2]. pose proof (pc_max _ Hc).
  assert (exists p pa1, tryReservePortPair bind now pa p = Some pa1 /\ pr = mkPair p (p + 1) /\
    pa' = pa1 <| nextPort := i32 (p + 2) |> /\ MinPort (config pa) <= p < MaxPort (config pa) - 1 /\
    (EvenOnly (config pa) = true -> Z.Even p)) as (p & pa1 & Ht & -> & -> & Hr & He).
  { unfold findAvailablePortPair in Hf. destruct (scan _ _ _ _ (nextPort pa)) as [[p pa1]|] eqn:E1.
    - apply scan_Some in E1 as (k & Hk & -> & Hlt & Ht & _). injection Hf as <- <-. bool_prop.
      eexists _, _. split_and!; [done..|lia|lia|]. auto using Even_step.
    - destruct (scan _ _ _ _ (alignedMin _)) as [[p pa1]|] eqn:E2; [|done].
      apply scan_Some in E2 as (k & Hk & -> & Hlt & Ht & _). injection Hf as <- <-. bool_prop.
      eexists _, _. split_and!; [done..|lia|lia|]. auto using Even_step. }
  assert (bind p = true /\ bind (p + 1) = true) as [Hb1 Hb2].
  { unfold tryReservePortPair in Ht. repeat (case_match; [done|]). bool_prop. done. }
  pose proof (tryReservePortPair_inv _ _ _ _ _ _ Hinv Ht) as Hinv'.
  apply tryReservePortPair_Some in Ht as (-> & H1 & H2 & H3 & H4). cbn. split_and!; try done; try lia.
  2:{ unfold pair_ok. cbn. split_and!; auto; lia. }
  apply set_nextPort_inv; [done|cbn; lia|]. intros E%He. change (p + 2) with (p + 1 * 2). by apply Even_step.
Qed.

(** Giving both ports of a held pair to a session. *)
Lemma record_pair_inv held pr sid now pa :
  pa_inv (rtp pr :: rtcp pr :: held) pa -> sid <> "" ->
  Z.of_nat (length (session_ports pa sid)) + 2 <= MaxAllocations (config pa) ->
  let pa' := recordAllocation (rtcp pr) sid None now (recordAllocation (rtp pr) sid None now pa) in
  pa_inv held pa' /\ session_ports pa' sid = session_ports pa sid ++ [rtp pr; rtcp pr].
Proof.
  intros Hinv Hs Hl. destruct (recordAllocation_inv _ (rtp pr) sid None now pa Hinv Hs) as (H1 & H2 & H3 & _); [lia|].
  destruct (recordAllocation_inv _ (rtcp pr) sid None now _ H1 Hs) as (H4 & _ & H5 & _).
  { rewrite H2, H3, length_app. cbn. lia. }
  split; [done|]. by rewrite H5, H3, <- app_assoc.
Qed.

(** What a pair given to a session looks like. *)
Definition pair_granted (pa : PortAllocator) (sid : string) (r : outcome pa_error (Z * Z)) (pa' : PortAllocator) : Prop :=
  match r with
  | Ok (p, q) =>
      pair_ok (config pa) (mkPair p q) /\ session_ports pa' sid = session_ports pa sid ++ [p; q] /\
      (owner pa p = None \/ owner pa p = Some "") /\ (owner pa q = None \/ owner pa q = Some "") /\
      released pa !! p = None /\ released pa !! q = None
  | Err ErrPortAllocationLimit =>
      MaxAllocations (config pa) < Z.of_nat (length (session_ports pa sid)) + 2 /\ session_ports pa' sid = session_ports pa sid
  | Err ErrNoPortsAvailable => pairPool pa = [] /\ session_ports pa' sid = session_ports pa sid
  | Err ErrClosed => closed pa = true /\ pa' = pa
  | _ => False
  end.

Lemma AllocatePortPair_inv bind now sid pa :
  pa_inv [] pa -> sid <> "" ->
  pa_inv [] (AllocatePortPair bind now sid pa).2 /\
  pair_granted pa sid (AllocatePortPair bind now sid pa).1 (AllocatePortPair bind now sid pa).2.
Proof.
  intros Hinv Hs. unfold AllocatePortPair, take_port_pair, pair_granted. destruct (closed pa) eqn:Ec; [done|].
  destruct (_ <? _) eqn:El; bool_prop.
  { cbn. split; [|done]. by apply (pa_inv_ext _ pa). }
  destruct (pairPool pa) as [|pr pool] eqn:Ep.
  - destruct (findAvailablePortPair _ _ _) as [[pr pa']|] eqn:Ef.
    + apply (findAvailablePortPair_inv _ _ _ _ _ []) in Ef as (H1 & H2 & H3 & H4 & H5 & H6 & H7 & _);
        [|by apply (pa_inv_ext _ pa)].
      destruct H3 as (E1 & E2 & E3 & _). destruct pr as [p q].
      assert (session_ports pa' sid = session_ports pa sid) as Esp by (unfold session_ports; by rewrite E3).
      destruct (record_pair_inv [] (mkPair p q) sid now pa') as [Hi Hsp]; [done..|rewrite Esp, E1; cbn; lia|].
      cbn in *. rewrite Hsp, Esp. split_and!; auto; apply H2.
    + cbn. split; [|done]. by apply (pa_inv_ext _ pa).
  - destruct (pool_pop_inv [] pa pr pool Hinv Ep) as [H1 H2]. destruct pr as [p q].
    assert (owner pa p = Some "" /\ owner pa q = Some "") as [Hop Hoq].
    { split; apply (pi_reserved _ _ Hinv); unfold pool_ports; rewrite Ep; cbn; rewrite !elem_of_cons; auto. }
    destruct (record_pair_inv [] (mkPair p q) sid now (pa <| pairPool := pool |> <| poolHits ::= add64 1 |>)) as [Hi Hsp];
      [by apply (pa_inv_ext _ (pa <| pairPool := pool |>))|done|done|].
    cbn in *. rewrite Hsp. split_and!; auto; try apply H2.
    + apply eq_None_not_Some. intros Hr%(pi_released _ _ Hinv). congruence.
    + apply eq_None_not_Some. intros Hr%(pi_released _ _ Hinv). congruence.
Qed.

(** Taking a single free port, from either search. *)
Lemma take_free_inv pa p sid c now :
  pa_inv [] pa -> sid <> "" -> owner pa p = None -> released pa !! p = None ->
  Z.of_nat (length (session_ports pa sid)) < MaxAllocations (config pa) ->
  pa_inv [] (recordAllocation p sid c now pa) /\ config (recordAllocation p sid c now pa) = config pa.
Proof.
  intros Hinv Hs Ho Hr Hl. rewrite recordAllocation_free.
  destruct (recordAllocation_inv [] p sid c now (reserve_one p now pa)) as (H1 & H2 & _); [by apply reserve_one_inv|done..].
Qed.

Lemma tryAllocatePort_Some bind now sid pa p pa' :
  tryAllocatePort bind now sid pa p = Some pa' ->
  pa' = recordAllocation p sid None now pa /\ owner pa p = None /\ released pa !! p = None.
Proof.
  unfold tryAllocatePort. destruct (isReleased pa p) eqn:R; [done|]. destruct (isAllocated pa p) eqn:A; [done|].
  destruct (negb _); [done|]. intros [= <-]. auto using isReleased_false, isAllocated_owner.
Qed.

(** The search positions of single ports. *)
Lemma position_ok c start k (step := if EvenOnly c then 2 else 1) :
  MinPort c <= start -> (EvenOnly c = true -> Z.Even start) -> 0 <= k ->
  MinPort c <= start + k * step /\ (EvenOnly c = true -> Z.Even (start + k * step + step)).
Proof.
  unfold step. intros. split; [case_match; lia|]. intros E. rewrite E.
  replace (start + k * 2 + 2) with (start + (k + 1) * 2) by ring. auto using Even_step.
Qed.

Lemma findAndAllocatePort_inv bind now sid pa :
  pa_inv [] pa -> sid <> "" -> Z.of_nat (length (session_ports pa sid)) < MaxAllocations (config pa) ->
  pa_inv [] (findAndAllocatePort bind now sid pa).2.
Proof.
  intros Hinv Hs Hl. pose proof (pi_cfg _ _ Hinv) as Hc. destruct (pi_next _ _ Hinv) as [Hn1 Hn2].
  destruct (alignedMin_ok _ Hc) as [Ha1 Ha2]. pose proof (pc_max _ Hc).
  set (step := if EvenOnly (config pa) then 2 else 1).
  assert (forall p pa1, tryAllocatePort bind now sid pa p = Some pa1 -> MinPort (config pa) <= p ->
    p <= MaxPort (config pa) + 2 - step -> (EvenOnly (config pa) = true -> Z.Even (p + step)) -> pa_inv [] (pa1 <| nextPort := i32 (p + step) |>)) as Hfound.
  { intros p pa1 (-> & Ho & Hr)%tryAllocatePort_Some Hmin Hmax He.
    destruct (take_free_inv pa p sid None now) as [Hi Hcfg]; [done..|].
    apply set_nextPort_inv; rewrite ?Hcfg; auto. unfold step in *. case_match; lia. }
  unfold findAndAllocatePort. fold step. destruct (scan _ _ _ _ (nextPort pa)) as [[p pa1]|] eqn:E1.
  - apply scan_Some in E1 as (k & Hk & -> & Hlt & Ht & _). bool_prop.
    destruct (position_ok (config pa) (nextPort pa) k) as [H1 H2]; [lia|done..|].
    apply Hfound; auto. unfold step in *. case_match; lia.
  - destruct (scan _ _ _ _ (alignedMin _)) as [[p pa1]|] eqn:E2; [|done].
    apply scan_Some in E2 as (k & Hk & -> & Hlt & Ht & _). bool_prop.
    destruct (position_ok (config pa) (alignedMin (config pa)) k) as [H1 H2]; [lia|done..|].
    apply Hfound; auto. fold step in H1, H2. destruct (EvenOnly (config pa)); unfold step in *; [|lia].
    destruct (Hn2 eq_refl) as [a Ha], (H2 eq_refl) as [b Hb]. lia.
Qed.

Lemma AllocatePort_inv bind now sid pa :
  pa_inv [] pa -> sid <> "" -> pa_inv [] (AllocatePort bind now sid pa).2.
Proof.
  intros Hinv Hs. unfold AllocatePort, take_port. destruct (closed pa); [done|]. destruct (_ <=? _) eqn:El; bool_prop.
  { by apply (pa_inv_ext _ pa). }
  destruct (pairPool pa) as [|pr pool] eqn:Ep.
  - set (pa1 := pa <| poolMisses ::= add64 1 |>). assert (pa_inv [] pa1) as H1 by (by apply (pa_inv_ext _ pa)).
    pose proof (findAndAllocatePort_inv bind now sid pa1 H1 Hs ltac:(done)) as H2.
    destruct (findAndAllocatePort bind now sid pa1) as [[] pa2]; cbn in *; try done; by apply (pa_inv_ext _ pa2).
  - destruct (pool_pop_inv [] pa pr pool Hinv Ep) as [H1 H2]. cbn.
    apply (recordAllocation_inv []); [|done..].
    set (pa1 := pa <| pairPool := pool |>) in *. set (pa2 := _ <| returning ::= _ |>).
    destruct H1 as [Hsh Hse Hcf Hre Hdi Hpa How Hnd Hno Hli Hrel Hne].
    assert (pool_ports pa1 ++ [rtp pr; rtcp pr] ≡ₚ pool_ports pa2 ++ [rtp pr]) as E.
    { unfold pool_ports. cbn. rewrite <- !app_assoc. do 2 apply Permutation_app_head. apply perm_swap. }
    split; try done.
    + intros p. rewrite <- E. apply Hre.
    + by rewrite <- E.
Qed.

(** *** What allocation does to the sessions' ports, in any state *)

Lemma recordAllocation_sessions p sid c now pa :
  sessions (recordAllocation p sid c now pa) = tset (sessions pa) sid (session_ports pa sid ++ [p]).
Proof. by destruct (recordAllocationStats_sets p sid (pa <| shards := tset (shards pa) p (mkInfo p sid now c) |>))
  as (_ & _ & _ & _ & ? & _). Qed.

Lemma findAndAllocatePort_result bind now sid pa :
  match findAndAllocatePort bind now sid pa with
  | (Ok p, pa') => sessions pa' = tset (sessions pa) sid (session_ports pa sid ++ [p]) /\
      (pa_inv [] pa -> MinPort (config pa) <= p <= MaxPort (config pa) + 1)
  | (Err _, pa') => sessions pa' = sessions pa
  | _ => False
  end.
Proof.
  unfold findAndAllocatePort. destruct (scan _ _ _ _ (nextPort pa)) as [[p pa1]|] eqn:E1.
  2: destruct (scan _ _ _ _ (alignedMin _)) as [[p pa1]|] eqn:E2; [|done].
  all: match goal with H : scan _ _ _ _ _ = Some _ |- _ =>
         apply scan_Some in H as (k & Hk & -> & Hlt & (-> & _)%tryAllocatePort_Some & _) end; bool_prop.
  all: (split; [exact (recordAllocation_sessions _ _ _ _ _)|]); intros Hinv.
  all: pose proof (alignedMin_ok _ (pi_cfg _ _ Hinv)); pose proof (pi_next _ _ Hinv); destruct (EvenOnly (config pa)); lia.
Qed.

Lemma AllocatePort_result bind now sid pa :
  match AllocatePort bind now sid pa with
  | (Ok p, pa') => sessions pa' = tset (sessions pa) sid (session_ports pa sid ++ [p]) /\
      (pa_inv [] pa -> MinPort (config pa) <= p <= MaxPort (config pa) + 1)
  | (Err _, pa') => sessions pa' = sessions pa
  | _ => False
  end.
Proof.
  unfold AllocatePort, take_port. destruct (closed pa); [done|]. destruct (_ <=? _); [done|].
  destruct (pairPool pa) as [|pr pool] eqn:Ep.
  - set (pa1 := pa <| poolMisses ::= add64 1 |>).
    pose proof (findAndAllocatePort_result bind now sid pa1) as H.
    destruct (findAndAllocatePort bind now sid pa1) as [[] pa2]; cbn in *; try done.
    destruct H as [H1 H2]. split; [done|]. intros Hinv. apply H2. by apply (pa_inv_ext _ pa).
  - cbn. split; [exact (recordAllocation_sessions _ _ _ _ _)|].
    intros Hinv. pose proof (pi_pairs _ _ Hinv) as Hp. rewrite Ep in Hp. apply Forall_cons in Hp as [Hp _].
    unfold pair_ok in Hp. lia.
Qed.

Lemma findAvailablePortPair_sessions bind now pa pr pa' :
  findAvailablePortPair bind now pa = Some (pr, pa') -> sessions pa' = sessions pa.
Proof.
  unfold findAvailablePortPair. intros Hf. destruct (scan _ _ _ _ (nextPort pa)) as [[p pa1]|] eqn:E1.
  2: destruct (scan _ _ _ _ (alignedMin _)) as [[p pa1]|] eqn:E2; [|done].
  all: match goal with H : scan _ _ _ _ _ = Some _ |- _ =>
         apply scan_Some in H as (k & _ & _ & _ & (-> & _)%tryReservePortPair_Some & _) end.
  all: by injection Hf as _ <-.
Qed.

(** The steps of the allocator's own goroutines. *)
Definition background (o : pa_op) : Prop :=
  match o with OpReturnRTCP _ | OpRefill _ _ | OpClean _ => True | _ => False end.

Lemma background_sessions pa o : background o -> sessions (pa_step pa o) = sessions pa.
Proof.
  destruct o as [| | | | | | |]; try done; intros _; cbn [pa_step].
  - unfold returnRTCP. case_match; [|done]. by case_match.
  - unfold poolRefiller, refillPool. case_match; [done|]. case_match; [|done].
    generalize (Z.to_nat (ReserveCount (config pa) - Z.of_nat (length (pairPool pa)))). intros n.
    clear. revert pa. induction n as [|n IH]; intros pa; cbn [refill_loop]; [done|].
    destruct (findAvailablePortPair bind now pa) as [[pr pa']|] eqn:E; [|done].
    apply findAvailablePortPair_sessions in E. case_match; [rewrite IH|]; exact E.
  - unfold releasedCleaner. by case_match.
Qed.

Lemma record_after_hint p sid c now n pa :
  recordAllocationStats p sid (pa <| shards := tset (shards pa) p (mkInfo p sid now c) |> <| nextPort := n |>) =
  recordAllocation p sid c now (pa <| nextPort := n |>).
Proof. by destruct pa. Qed.

Lemma AllocateWithConnection_inv bind now sid pa :
  pa_inv [] pa -> sid <> "" -> pa_inv [] (AllocateWithConnection bind now sid pa).2.
Proof.
  intros Hinv Hs. unfold AllocateWithConnection. destruct (closed pa); [done|]. destruct (_ <=? _) eqn:El; bool_prop.
  { by apply (pa_inv_ext _ pa). }
  pose proof (pi_cfg _ _ Hinv) as Hc. destruct (pi_next _ _ Hinv) as [Hn1 Hn2]. pose proof (pc_max _ Hc).
  set (step := if EvenOnly (config pa) then 2 else 1).
  destruct (scan _ _ _ _ _) as [[p c]|] eqn:E; [|by apply (pa_inv_ext _ pa)].
  apply scan_Some in E as (k & Hk & -> & Hlt & Ht & _). bool_prop.
  destruct (isReleased pa _) eqn:R; [done|]. destruct (isAllocated pa _) eqn:A; [done|].
  apply isReleased_false in R. apply isAllocated_owner in A.
  destruct (position_ok (config pa) (nextPort pa) k) as [H1 H2]; [lia|done..|]. fold step in H1, H2.
  set (p := nextPort pa + k * step) in *.
  cbn [snd]. rewrite record_after_hint.
  apply (take_free_inv (pa <| nextPort := i32 (p + step) |>)); try done.
  apply set_nextPort_inv; [done| |done]. unfold step in *. case_match; lia.
Qed.

Lemma remove_first_elem p l q : NoDup l -> q ∈ remove_first p l <-> q ∈ l /\ q <> p.
Proof.
  induction 1 as [|x l Hx Hl IH]; cbn; [split; [by intros ?%elem_of_nil|by intros [?%elem_of_nil _]]|].
  destruct (Z.eqb_spec x p) as [->|Hne].
  - rewrite elem_of_cons. split; [|naive_solver]. intros Hq. split; [by right|]. by intros ->.
  - rewrite !elem_of_cons, IH. naive_solver.
Qed.

Lemma remove_first_NoDup p l : NoDup l -> NoDup (remove_first p l).
Proof.
  induction 1 as [|x l Hx Hl IH]; cbn; [constructor|]. case_match; [done|]. apply NoDup_cons. split; [|done].
  by intros [? _]%remove_first_elem.
Qed.

Lemma remove_first_length p l : (length (remove_first p l) <= length l)%nat.
Proof. induction l; cbn; [lia|]. case_match; cbn; lia. Qed.

(** The session's list after one of its ports is released: a list that
    becomes empty is dropped from the table, which reads the same. *)
Lemma release_sessions pa sid ports s :
  tok (sessions pa) ->
  default [] (tget (if bool_decide (ports = []) then tdel (tset (sessions pa) sid ports) sid else tset (sessions pa) sid ports) s) =
  if decide (sid = s) then ports else session_ports pa s.
Proof.
  intros Hok. case_bool_decide as E; [|by apply session_ports_set].
  rewrite tget_tdel by (by apply tset_ok). case_decide; [by subst|].
  rewrite tget_tset by done. by rewrite decide_False.
Qed.

(** Releasing a port of a session. *)
Lemma ReleasePort_spec p now pa info :
  pa_inv [] pa -> tget (shards pa) p = Some info -> sessionID info <> "" ->
  let pa' := (ReleasePort p now pa).2 in
  (ReleasePort p now pa).1 = Ok tt /\ config pa' = config pa /\ pairPool pa' = pairPool pa /\
  nextPort pa' = nextPort pa /\ returning pa' = returning pa /\ released pa' = <[p := now]> (released pa) /\
  shards pa' = tdel (shards pa) p /\ tok (sessions pa') /\ closed pa' = closed pa /\
  forall s, session_ports pa' s =
    if decide (sessionID info = s) then remove_first p (session_ports pa s) else session_ports pa s.
Proof.
  intros Hinv Hp Hs. pose proof (pi_sessions _ _ Hinv) as Hok. unfold ReleasePort. rewrite Hp.
  rewrite bool_decide_false by done. cbn -[bool_decide].
  assert (session_ports (match conn info with Some c => pa <| closedConns ::= fun l => l ++ [c] |> | None => pa end
    <| shards := tdel (shards (match conn info with Some c => pa <| closedConns ::= fun l => l ++ [c] |> | None => pa end)) p |>
    <| released ::= <[p := now]> |>) (sessionID info) = session_ports pa (sessionID info)) as E
    by (by destruct (conn info)).
  rewrite E. set (ports := remove_first p _).
  pose proof (release_sessions pa (sessionID info) ports) as Hr.
  split_and!; try (destruct (conn info); by case_bool_decide).
  - destruct (conn info); case_bool_decide; cbn; table_ok.
  - intros s. specialize (Hr s Hok). destruct (conn info); unfold session_ports at 1; cbn -[bool_decide];
      destruct (bool_decide (ports = [])); cbn; rewrite Hr; case_decide; by subst.
Qed.

Lemma ReleasePort_inv p now pa :
  pa_inv [] pa -> owner pa p <> Some "" ->
  pa_inv [] (ReleasePort p now pa).2 /\
  (forall q, owner (ReleasePort p now pa).2 q = if decide (p = q) then None else owner pa q).
Proof.
  intros Hinv Ho. destruct (tget (shards pa) p) as [info|] eqn:Hp.
  2:{ unfold ReleasePort. rewrite Hp. split; [done|]. intros q. case_decide; [|done]. subst. unfold owner. cbn. by rewrite Hp. }
  assert (owner pa p = Some (sessionID info)) as Hop by (unfold owner; by rewrite Hp).
  assert (sessionID info <> "") as Hs by congruence.
  destruct (ReleasePort_spec p now pa info Hinv Hp Hs) as (_ & E1 & E2 & E3 & E4 & E5 & E6 & E7 & _ & E8).
  set (pa' := (ReleasePort p now pa).2) in *. clearbody pa'.
  destruct Hinv as [Hsh Hse Hcf Hre Hdi Hpa How Hnd Hno Hli Hrel Hne].
  assert (forall q, owner pa' q = if decide (p = q) then None else owner pa q) as Ho'
    by (intros; unfold owner at 1; rewrite E6; by apply owner_del).
  assert (pool_ports pa' = pool_ports pa) as Hpp by (unfold pool_ports; by rewrite E2, E4).
  split; [|done]. split; rewrite ?E1, ?E2, ?E3, ?Hpp; try done.
  - rewrite E6. by apply tdel_ok.
  - intros q Hq%Hre. rewrite Ho'. case_decide; [subst; congruence|done].
  - intros s q Hsq. rewrite E8, Ho'.
    destruct (decide (sessionID info = s)) as [<-|Hne1], (decide (p = q)) as [<-|Hne2].
    + rewrite remove_first_elem by done. naive_solver.
    + rewrite remove_first_elem by done. rewrite How by done. naive_solver.
    + rewrite How by done. rewrite Hop. naive_solver.
    + by apply How.
  - intros s. rewrite E8. case_decide; [|done]. by apply remove_first_NoDup.
  - rewrite E8. by rewrite decide_False.
  - intros s. rewrite E8. case_decide; [|done]. pose proof (remove_first_length p (session_ports pa s)).
    specialize (Hli s). lia.
  - rewrite E5. intros q [t Ht]. rewrite Ho'. case_decide; [done|]. apply Hrel. rewrite lookup_insert_ne in Ht by done. eauto.
Qed.

Lemma release_all_inv ports now e pa :
  pa_inv [] pa -> (forall p, p ∈ ports -> owner pa p <> Some "") -> pa_inv [] (release_all ports now e pa).2.
Proof.
  revert e pa. induction ports as [|p ports IH]; intros e pa Hinv Hp; cbn; [done|].
  destruct (ReleasePort_inv p now pa Hinv) as [H1 H2]; [apply Hp; by left|].
  destruct (ReleasePort p now pa) as [[] pa'] eqn:E; cbn in *;
    (apply IH; [done|]; intros q Hq; rewrite H2; case_decide; [done|]; apply Hp; by right).
Qed.

Lemma ReleaseSessionPorts_inv sid now pa : pa_inv [] pa -> pa_inv [] (ReleaseSessionPorts sid now pa).2.
Proof.
  intros Hinv. apply release_all_inv; [done|]. intros p Hp. destruct (decide (sid = "")) as [->|Hs].
  - rewrite (pi_nosession _ _ Hinv) in Hp. by apply elem_of_nil in Hp.
  - apply (pi_owned _ _ Hinv) in Hp; [|done]. congruence.
Qed.

Lemma refill_loop_inv n bind now pa : pa_inv [] pa -> pa_inv [] (refill_loop n bind now pa).
Proof.
  revert pa. induction n as [|n IH]; intros pa Hinv; cbn; [done|].
  destruct (findAvailablePortPair bind now pa) as [[pr pa']|] eqn:Ef; [|done].
  apply (findAvailablePortPair_inv _ _ _ _ _ []) in Ef as (H1 & H2 & (E1 & _) & _); [|done].
  case_match.
  - apply IH, pool_push_inv; [done|]. by rewrite E1.
  - by do 2 apply markPortAvailable_inv.
Qed.

Lemma poolRefiller_inv bind now pa : pa_inv [] pa -> pa_inv [] (poolRefiller bind now pa).
Proof. intros. unfold poolRefiller, refillPool. repeat case_match; auto using refill_loop_inv. Qed.

Lemma releasedCleaner_inv now pa : pa_inv [] pa -> pa_inv [] (releasedCleaner now pa).
Proof.
  intros Hinv. unfold releasedCleaner. case_match; [done|].
  destruct Hinv as [Hsh Hse Hcf Hre Hdi Hpa How Hnd Hno Hli Hrel Hne]. split; try done.
  cbn. intros p [t Ht]. apply map_lookup_filter_Some in Ht as [Ht _]. apply Hrel. eauto.
Qed.

(** The goroutine of [AllocatePort] when the pool has no room. *)
Lemma returnRTCP_inv k pa :
  pa_inv [] pa -> ReserveCount (config pa) <= Z.of_nat (length (pairPool pa)) -> pa_inv [] (returnRTCP k pa).
Proof.
  intros Hinv Hfull. unfold returnRTCP. destruct (returning pa !! k) as [p|] eqn:Ek; [|done].
  set (pa1 := pa <| returning ::= delete k |>). cbn. destruct (_ <? _) eqn:El; bool_prop; [lia|].
  apply markPortAvailable_inv.
  assert (pool_ports pa ++ [] ≡ₚ pool_ports pa1 ++ [p]) as E.
  { unfold pool_ports, pa1. cbn. rewrite app_nil_r, <- app_assoc. apply Permutation_app_head.
    rewrite (Permutation_app_comm _ [p]). cbn. by apply delete_Permutation. }
  destruct Hinv as [Hsh Hse Hcf Hre Hdi Hpa How Hnd Hno Hli Hrel Hne]. split; try done.
  - intros q. rewrite <- E. apply Hre.
  - by rewrite <- E.
Qed.

(** ** Exclusive ownership *)

(** What callers must respect: session names are not empty and no one releases
    a port that sits in the pool. The goroutine of [AllocatePort] must find the
    pool full. *)
Definition safe_op (pa : PortAllocator) (o : pa_op) : Prop :=
  match o with
  | OpAllocatePort _ _ sid | OpAllocatePortPair _ _ sid | OpAllocateWithConnection _ _ sid => sid <> ""
  | OpReturnRTCP _ => ReserveCount (config pa) <= Z.of_nat (length (pairPool pa))
  | OpReleasePort p _ => owner pa p <> Some ""
  | OpReleaseSessionPorts _ _ | OpRefill _ _ | OpClean _ => True
  end.
Fixpoint safe_run (pa : PortAllocator) (ops : list pa_op) : Prop :=
  match ops with
  | [] => True
  | o :: ops => safe_op pa o /\ safe_run (pa_step pa o) ops
  end.

#[export] Instance safe_op_dec pa o : Decision (safe_op pa o).
Proof. destruct o; cbn; apply _. Defined.
#[export] Instance safe_run_dec pa ops : Decision (safe_run pa ops).
Proof. revert pa. induction ops; intros; cbn; apply _. Defined.

#[export] Hint Resolve AllocatePort_inv returnRTCP_inv AllocateWithConnection_inv ReleaseSessionPorts_inv
  poolRefiller_inv releasedCleaner_inv : karl.

Lemma pa_step_inv pa o : pa_inv [] pa -> safe_op pa o -> pa_inv [] (pa_step pa o).
Proof.
  intros Hinv Hs. destruct o; cbn in *; auto with karl.
  - by apply AllocatePortPair_inv.
  - by apply ReleasePort_inv.
Qed.

Lemma pa_run_inv ops pa : pa_inv [] pa -> safe_run pa ops -> pa_inv [] (pa_run pa ops).
Proof.
  revert pa. induction ops as [|o ops IH]; intros pa Hinv; cbn; [done|].
  intros [H1 H2]. apply IH; [by apply pa_step_inv|done].
Qed.

Lemma NewPortAllocator_inv c pa :
  pa_cfg_ok c -> NewPortAllocator (Some c) = Some pa -> pa_inv [] pa /\ config pa = c.
Proof.
  intros Hc. unfold NewPortAllocator. cbn. case_match; [done|]. intros [= <-].
  destruct (alignedMin_ok _ Hc) as [Ha1 Ha2]. pose proof (pc_min _ Hc). pose proof (pc_max _ Hc).
  assert (forall p, sessionID <$> tget (empty_shards (n := 16) (K := Z) (V := portInfo)) p = None) as He
    by (intros; by rewrite empty_shards_get).
  assert (forall s, default [] (tget (empty_shards (n := 16) (V := list Z)) s) = []) as Hs
    by (intros; by rewrite empty_shards_get).
  split; [|done]. split; cbn; try done; try apply empty_shards_ok.
  - intros p ?%elem_of_nil. done.
  - constructor.
  - intros s p Hne. unfold session_ports, owner. cbn. rewrite Hs, He. split; [by intros ?%elem_of_nil|done].
  - intros s. unfold session_ports. cbn. rewrite Hs. constructor.
  - intros s. unfold session_ports. cbn. rewrite Hs. apply Hc.
  - intros p [t Ht]. by rewrite lookup_empty in Ht.
  - rewrite wraps_id by (unfold is_s; lia). done.
Qed.

(** C4: no port is with two sessions. For a configuration with a range of ports
    and a limit that are not negative and sessions with non-empty ids: after any
    operations, one after the other,
    in which no caller releases a port that sits in the pool and the goroutine
    [AllocatePort] starts finds the pool full, the ports of two sessions are
    disjoint, no session lists a port twice or exceeds [MaxAllocations], no
    session port is also in the pool, and the port table names exactly the session
    that lists the port. Each of the two exclusions is needed: see
    [AllocatePort_double_allocation] and [pool_port_released]; calls that run at
    the same time can pass [MaxAllocations], see [limit_passed]. *)
Theorem ports_exclusive c pa ops s1 s2 p :
  pa_cfg_ok c -> NewPortAllocator (Some c) = Some pa -> safe_run pa ops -> s1 <> "" ->
  let pa := pa_run pa ops in
  (p ∈ session_ports pa s1 -> p ∈ session_ports pa s2 -> s1 = s2) /\
  NoDup (session_ports pa s1) /\ Z.of_nat (length (session_ports pa s1)) <= MaxAllocations (config pa) /\
  (p ∈ session_ports pa s1 -> p ∉ pool_ports pa) /\
  (p ∈ session_ports pa s1 <-> owner pa p = Some s1).
Proof.
  intros Hc Hn Hs H1. destruct (NewPortAllocator_inv _ _ Hc Hn) as [H0 _].
  pose proof (pa_run_inv _ _ H0 Hs) as Hinv. cbn. set (pa' := pa_run pa ops) in *. clearbody pa'.
  split_and!.
  - intros E1 E2. destruct (decide (s2 = "")) as [->|H2]; [rewrite (pi_nosession _ _ Hinv) in E2; by apply elem_of_nil in E2|].
    apply (pi_owned _ _ Hinv) in E1; [|done]. apply (pi_owned _ _ Hinv) in E2; [|done]. congruence.
  - apply Hinv.
  - apply Hinv.
  - intros E1 E2. apply (pi_owned _ _ Hinv) in E1; [|done].
    rewrite (pi_reserved _ _ Hinv) in E1; [congruence|]. rewrite elem_of_app. by left.
  - by apply Hinv.
Qed.

Definition small_config : PortAllocatorConfig :=
  {| MinPort := 10001; MaxPort := 10012; ReserveCount := 4; ReuseDelay := 2 * Second; MaxAllocations := 4; EvenOnly := true |}.
Lemma small_config_ok : pa_cfg_ok small_config.
Proof. split; cbn; lia. Qed.
Definition any_port : Z -> bool := fun _ => true.
Definition small_allocator : PortAllocator := default (mkPA small_config [] empty_shards ∅ 0 0 0 0 0 0 0 empty_shards 0 true [] []) (NewPortAllocator (Some small_config)).

Lemma ports_exclusive_witness :
  10002 ∉ pool_ports (pa_run small_allocator
    [OpRefill any_port 1; OpAllocatePortPair any_port 2 "a"; OpAllocatePort any_port 3 "b"; OpReleasePort 10003 4]).
Proof.
  refine (proj1 (proj2 (proj2 (proj2 (ports_exclusive small_config small_allocator _ "a" "b" 10002 small_config_ok eq_refl _ _)))) _).
  - apply (bool_decide_unpack _). vm_compute. exact I.
  - discriminate.
  - apply (bool_decide_unpack _). vm_compute. exact I.
Defined.

(** A caller that releases a pair of the pool, which no session was given, frees
    it while it waits in the pool: once its delay is over a refill puts it there a
    second time, and two sessions get it. *)
Example pool_port_released :
  let pa := pa_run small_allocator
    ([OpRefill any_port 1; OpReleasePort 10008 2; OpReleasePort 10009 2; OpClean (3 * Second)] ++
     (OpAllocatePortPair any_port (4 * Second) <$> ["a"; "c"; "c"]) ++ [OpRefill any_port (4 * Second)] ++
     (OpAllocatePortPair any_port (4 * Second) <$> ["a"; "b"; "b"])) in
  10008 ∈ session_ports pa "a" /\ 10008 ∈ session_ports pa "b".
Proof. split; apply (bool_decide_unpack _); vm_compute; exact I. Qed.

(** Two calls for a session with room for one port: both read the count before
    either takes a port. *)
Example limit_passed :
  let c := {| MinPort := 10001; MaxPort := 10012; ReserveCount := 4; ReuseDelay := 2 * Second; MaxAllocations := 1; EvenOnly := true |} in
  let pa := default small_allocator (NewPortAllocator (Some c)) in
  session_ports pa "a" = [] /\
  let pa1 := (take_port any_port 1 "a" pa).2 in
  session_ports (take_port any_port 2 "a" pa1).2 "a" = [10002; 10004].
Proof. vm_compute. split; reflexivity. Qed.

(** What [AllocatePortPair] gives out, on every branch: an RTP port with
    the next port for RTCP, inside the range and even where configured, both
    with no session and past their reuse delay, appended to the session's list;
    or the limit error exactly when two more ports exceed it, or exhaustion
    only when the pool is empty, or the closed error with nothing changed. *)
Theorem AllocatePortPair_correct c pa0 ops bind now sid :
  pa_cfg_ok c -> NewPortAllocator (Some c) = Some pa0 -> safe_run pa0 ops -> sid <> "" ->
  let pa := pa_run pa0 ops in
  pair_granted pa sid (AllocatePortPair bind now sid pa).1 (AllocatePortPair bind now sid pa).2.
Proof.
  intros Hc Hn Hs H1. destruct (NewPortAllocator_inv _ _ Hc Hn) as [H0 _]. cbn.
  by apply AllocatePortPair_inv; [apply pa_run_inv|].
Qed.

Lemma AllocatePortPair_correct_witness :
  match (AllocatePortPair any_port 5 "b" (pa_run small_allocator [OpRefill any_port 1; OpAllocatePortPair any_port 2 "a"])).1 with
  | Ok (p, q) => q = p + 1 /\ 10001 <= p
  | _ => False
  end.
Proof.
  pose proof (AllocatePortPair_correct small_config small_allocator [OpRefill any_port 1; OpAllocatePortPair any_port 2 "a"]
    any_port 5 "b" small_config_ok eq_refl) as H.
  assert ((AllocatePortPair any_port 5 "b" (pa_run small_allocator [OpRefill any_port 1; OpAllocatePortPair any_port 2 "a"])).1
    = Ok (10004, 10005)) as E by (vm_compute; reflexivity).
  cbv zeta in H. rewrite E in H. rewrite E.
  destruct H as ((H1 & H2 & _) & _); [apply (bool_decide_unpack _); vm_compute; exact I|discriminate|].
  split; [exact H2|exact H1].
Defined.

(** ** The reuse delay *)

Definition frame (pa : PortAllocator) := (released pa, config pa).

Lemma recordAllocation_frame p sid c now pa : frame (recordAllocation p sid c now pa) = frame pa.
Proof. unfold recordAllocation. destruct (recordAllocationStats_sets p sid (pa <| shards := tset (shards pa) p (mkInfo p sid now c) |>)) as (E1 & _ & _ & E2 & _). unfold frame. by rewrite E1, E2. Qed.

Lemma findAndAllocatePort_frame bind now sid pa : frame (findAndAllocatePort bind now sid pa).2 = frame pa.
Proof.
  unfold findAndAllocatePort. destruct (scan _ _ _ _ (nextPort pa)) as [[p pa1]|] eqn:E1.
  - apply scan_Some in E1 as (_ & _ & _ & _ & Ht & _). apply tryAllocatePort_Some in Ht as [-> _]. cbn.
    apply recordAllocation_frame.
  - destruct (scan _ _ _ _ (alignedMin _)) as [[p pa1]|] eqn:E2; [|done].
    apply scan_Some in E2 as (_ & _ & _ & _ & Ht & _). apply tryAllocatePort_Some in Ht as [-> _]. cbn.
    apply recordAllocation_frame.
Qed.

Lemma refill_loop_frame n bind now pa : pa_inv [] pa -> frame (refill_loop n bind now pa) = frame pa.
Proof.
  revert pa. induction n as [|n IH]; intros pa Hinv; cbn; [done|].
  destruct (findAvailablePortPair bind now pa) as [[pr pa']|] eqn:Ef; [|done].
  apply (findAvailablePortPair_inv _ _ _ _ _ []) in Ef as (H1 & H2 & (E1 & _ & _ & _ & E2 & _) & _); [|done].
  case_match; [|unfold frame; cbn; by rewrite E1, E2]. rewrite IH; [unfold frame; cbn; by rewrite E1, E2|]. apply pool_push_inv; [done|]. by rewrite E1.
Qed.

(** Only releases and the cleaner touch the waiting list. *)
Lemma alloc_step_frame pa o :
  pa_inv [] pa -> match o with OpReleasePort _ _ | OpReleaseSessionPorts _ _ | OpClean _ => False | _ => True end ->
  frame (pa_step pa o) = frame pa.
Proof.
  intros Hinv. destruct o; cbn; intros Ho; try done.
  - unfold AllocatePort, take_port. repeat case_match; try done; cbn; rewrite ?recordAllocation_frame; try done;
      match goal with H : findAndAllocatePort ?b ?n ?s ?q = (_, ?r) |- _ =>
        pose proof (findAndAllocatePort_frame b n s q) as E; rewrite H in E end; done.
  - unfold returnRTCP. by repeat case_match.
  - unfold AllocatePortPair, take_port_pair. repeat case_match; try done; cbn; rewrite ?recordAllocation_frame; try done.
    match goal with H : findAvailablePortPair _ _ _ = _ |- _ =>
      apply (findAvailablePortPair_inv _ _ _ _ _ []) in H as (_ & _ & (E1 & _ & _ & _ & E2 & _) & _) end; [unfold frame; by rewrite E1, E2|].
    by apply (pa_inv_ext _ pa).
  - unfold AllocateWithConnection. repeat case_match; try done; cbn [snd];
    by rewrite record_after_hint, recordAllocation_frame.
  - unfold poolRefiller, refillPool. repeat case_match; try done. by apply refill_loop_frame.
Qed.

Lemma ReleasePort_config p now pa : config (ReleasePort p now pa).2 = config pa.
Proof. unfold ReleasePort. cbn. repeat case_match; done. Qed.
Lemma release_all_config ports now e pa : config (release_all ports now e pa).2 = config pa.
Proof.
  revert e pa. induction ports as [|p ports IH]; intros; cbn; [done|].
  pose proof (ReleasePort_config p now pa). destruct (ReleasePort p now pa) as [[] pa']; cbn in *; by rewrite IH.
Qed.

Lemma pa_step_config pa o : pa_inv [] pa -> config (pa_step pa o) = config pa.
Proof.
  intros Hinv.
  assert (match o with OpReleasePort _ _ | OpReleaseSessionPorts _ _ | OpClean _ => False | _ => True end \/
    config (pa_step pa o) = config pa) as [Ho|]; [|by apply (f_equal snd (alloc_step_frame pa o Hinv Ho))|done].
  destruct o; auto; right; cbn.
  - apply ReleasePort_config.
  - apply release_all_config.
  - unfold releasedCleaner. by case_match.
Qed.

Lemma ReleasePort_released q now pa p t :
  pa_inv [] pa -> released pa !! p = Some t -> released (ReleasePort q now pa).2 !! p = Some t.
Proof.
  intros Hinv Hp. unfold ReleasePort. destruct (tget (shards pa) q) as [info|] eqn:Eq; [|done].
  assert (q <> p) as Hne.
  { intros ->. assert (owner pa p = None) as H by (apply Hinv; eauto). unfold owner in H. by rewrite Eq in H. }
  cbn. repeat case_match; cbn; by rewrite lookup_insert_ne.
Qed.

Lemma release_all_released ports now e pa p t :
  pa_inv [] pa -> (forall q, q ∈ ports -> owner pa q <> Some "") ->
  released pa !! p = Some t -> released (release_all ports now e pa).2 !! p = Some t.
Proof.
  revert e pa. induction ports as [|q ports IH]; intros e pa Hinv Hq Hp; cbn; [done|].
  pose proof (ReleasePort_released q now pa p t Hinv Hp) as H1.
  destruct (ReleasePort_inv q now pa Hinv) as [H2 H3]; [apply Hq; by left|].
  destruct (ReleasePort q now pa) as [[] pa']; cbn in *;
    (apply IH; [done| |done]; intros q' Hq'; rewrite H3; case_decide; [done|]; apply Hq; by right).
Qed.

(** The cleaner ticks of a run that come too early to free a port released at
    [t]. *)
Definition too_early (t delay : Z) (o : pa_op) : Prop :=
  match o with OpClean now => Time_Sub now t < delay | _ => True end.

Lemma pa_step_released pa o p t :
  pa_inv [] pa -> safe_op pa o -> too_early t (ReuseDelay (config pa)) o ->
  released pa !! p = Some t -> released (pa_step pa o) !! p = Some t.
Proof.
  intros Hinv Hs Ht Hp. 
  pose proof (alloc_step_frame pa o Hinv) as Hf.
  destruct o; try (apply (f_equal fst) in Hf; [|exact I]; cbn [frame fst] in Hf; by rewrite Hf); clear Hf;
  cbn in *.
  - by apply ReleasePort_released.
  - apply release_all_released; try done. intros q Hq. destruct (decide (sid = "")) as [->|Hne].
    + rewrite (pi_nosession _ _ Hinv) in Hq. by apply elem_of_nil in Hq.
    + apply (pi_owned _ _ Hinv) in Hq; [|done]. congruence.
  - unfold releasedCleaner. case_match; [done|]. cbn. by apply map_lookup_filter_Some.
Qed.

Lemma pa_run_released ops pa p t :
  pa_inv [] pa -> safe_run pa ops -> Forall (too_early t (ReuseDelay (config pa))) ops ->
  released pa !! p = Some t -> owner (pa_run pa ops) p = None.
Proof.
  revert pa. induction ops as [|o ops IH]; intros pa Hinv Hs Ht Hp; cbn.
  { apply Hinv. eauto. }
  destruct Hs as [Hs1 Hs2]. apply Forall_cons in Ht as [Ht1 Ht2].
  apply IH; [by apply pa_step_inv|done| |by apply pa_step_released].
  by rewrite pa_step_config.
Qed.

(** The reuse delay is kept: after a session's port is released at time
    [t], no sequence of operations, and no tick of the cleaner less than
    [ReuseDelay] after [t], makes anyone own the port again. *)
Theorem released_port_not_reused c pa0 ops p s t ops' :
  pa_cfg_ok c -> NewPortAllocator (Some c) = Some pa0 -> safe_run pa0 ops ->
  owner (pa_run pa0 ops) p = Some s -> s <> "" ->
  let pa := (ReleasePort p t (pa_run pa0 ops)).2 in
  safe_run pa ops' -> Forall (too_early t (ReuseDelay (config pa))) ops' ->
  owner (pa_run pa ops') p = None.
Proof.
  intros Hc Hn Hs Ho Hne. destruct (NewPortAllocator_inv _ _ Hc Hn) as [H0 _].
  pose proof (pa_run_inv _ _ H0 Hs) as Hinv. set (pa1 := pa_run pa0 ops) in *. clearbody pa1. cbn. intros Hs' Ht.
  apply (pa_run_released _ _ _ t); [by apply ReleasePort_inv; [|congruence]|done|done|].
  unfold owner in Ho. destruct (tget (shards pa1) p) as [info|] eqn:E; [|done]. injection Ho as <-.
  destruct (ReleasePort_spec p t pa1 info Hinv E Hne) as (_ & _ & _ & _ & _ & -> & _). apply lookup_insert_eq.
Qed.

Lemma released_port_not_reused_witness :
  owner (pa_run (ReleasePort 10002 Second (pa_run small_allocator [OpAllocatePortPair any_port 1 "a"])).2
    [OpClean (2 * Second); OpRefill any_port (2 * Second); OpAllocatePortPair any_port (2 * Second) "b"]) 10002 = None.
Proof.
  apply (released_port_not_reused small_config small_allocator [OpAllocatePortPair any_port 1 "a"] 10002 "a" Second
    [OpClean (2 * Second); OpRefill any_port (2 * Second); OpAllocatePortPair any_port (2 * Second) "b"]).
  - exact small_config_ok.
  - reflexivity.
  - apply (bool_decide_unpack _). vm_compute. exact I.
  - vm_compute. reflexivity.
  - discriminate.
  - apply (bool_decide_unpack _). vm_compute. exact I.
  - repeat constructor.
Defined.

(** ** Exhaustion *)

(** A pair nobody has and the system would let us bind. *)
Definition free_pair (bind : Z -> bool) (pa : PortAllocator) (p : Z) : Prop :=
  owner pa p = None /\ owner pa (p + 1) = None /\ released pa !! p = None /\ released pa !! (p + 1) = None /\
  bind p = true /\ bind (p + 1) = true.

Lemma free_pair_reserved bind now pa p : free_pair bind pa p -> tryReservePortPair bind now pa p <> None.
Proof.
  intros (H1 & H2 & H3 & H4 & H5 & H6). unfold tryReservePortPair, isReleased, isAllocated.
  rewrite H3, H4, H5, H6. unfold owner in *.
  destruct (tget (shards pa) p); [done|]. by destruct (tget (shards pa) (p + 1)).
Qed.

Lemma findAvailablePortPair_complete bind now pa p held :
  pa_inv held pa -> EvenOnly (config pa) = true -> Z.Even p -> MinPort (config pa) <= p -> p + 1 < MaxPort (config pa) ->
  free_pair bind pa p -> findAvailablePortPair bind now pa <> None.
Proof.
  intros Hinv He [x Hx] Hmin Hmax Hfree%(free_pair_reserved bind now). pose proof (pi_cfg _ _ Hinv) as Hc.
  destruct (pi_next _ _ Hinv) as [Hn1 Hn2]. destruct (Hn2 He) as [y Hy].
  destruct (alignedMin_ok _ Hc) as [Ha1 Ha2]. destruct (Ha2 He) as [z Hz].
  assert (alignedMin (config pa) <= p) as Hap.
  { unfold alignedMin in *. rewrite He in *. cbn in *. case_match; lia. }
  unfold findAvailablePortPair. destruct (scan _ _ _ _ (nextPort pa)) as [|] eqn:E1; [done|].
  destruct (scan _ _ _ _ (alignedMin _)) as [|] eqn:E2; [done|]. intros _. apply Hfree.
  destruct (Z.le_gt_cases (nextPort pa) p) as [Hle|Hgt].
  - replace p with (nextPort pa + (x - y) * 2) by lia.
    refine (scan_None _ 2 _ _ _ (MaxPort (config pa) - 1) ltac:(lia) _ _ E1 (x - y) _ _); [|unfold scan_fuel; lia|lia|].
    + intros q Hq. by bool_prop.
    + intros j Hj. cbn. lia.
  - replace p with (alignedMin (config pa) + (x - z) * 2) by lia.
    refine (scan_None _ 2 _ _ _ (MaxPort (config pa) - 1) ltac:(lia) _ _ E2 (x - z) _ _); [|unfold scan_fuel; lia|lia|].
    + intros q Hq. by bool_prop.
    + intros j Hj. cbn. lia.
Qed.

(** A session below its limit gets a pair whenever one can be had: with
    even ports configured, if any even port of the range and its neighbour are
    unowned, past their reuse delay and bindable, [AllocatePortPair]
    succeeds. *)
Theorem AllocatePortPair_finds c pa0 ops bind now sid p :
  pa_cfg_ok c -> NewPortAllocator (Some c) = Some pa0 -> safe_run pa0 ops ->
  let pa := pa_run pa0 ops in
  closed pa = false -> Z.of_nat (length (session_ports pa sid)) + 2 <= MaxAllocations (config pa) ->
  EvenOnly (config pa) = true -> Z.Even p -> MinPort (config pa) <= p -> p + 1 < MaxPort (config pa) ->
  free_pair bind pa p -> exists r, (AllocatePortPair bind now sid pa).1 = Ok r.
Proof.
  intros Hc Hn Hs. destruct (NewPortAllocator_inv _ _ Hc Hn) as [H0 _].
  pose proof (pa_run_inv _ _ H0 Hs) as Hinv. set (pa := pa_run pa0 ops) in *. clearbody pa. cbn.
  intros Hcl Hl He Hp Hmin Hmax Hfree. unfold AllocatePortPair, take_port_pair. rewrite Hcl.
  destruct (_ <? _) eqn:El; bool_prop; [lia|]. destruct (pairPool pa); [|by eexists].
  destruct (findAvailablePortPair _ _ _) as [[pr pa']|] eqn:Ef; [by eexists|]. exfalso.
  apply (findAvailablePortPair_complete bind now (pa <| poolMisses ::= add64 1 |>) p []) in Ef; try done.
  by apply (pa_inv_ext _ pa).
Qed.

Lemma AllocatePortPair_finds_witness :
  exists r, (AllocatePortPair any_port 3 "b" (pa_run small_allocator [OpAllocatePortPair any_port 1 "a"])).1 = Ok r.
Proof.
  apply (AllocatePortPair_finds small_config small_allocator [OpAllocatePortPair any_port 1 "a"] any_port 3 "b" 10008).
  - exact small_config_ok.
  - reflexivity.
  - apply (bool_decide_unpack _). vm_compute. exact I.
  - vm_compute. reflexivity.
  - vm_compute. discriminate.
  - vm_compute. reflexivity.
  - exists 5004. reflexivity.
  - vm_compute. discriminate.
  - vm_compute. reflexivity.
  - split_and!; vm_compute; reflexivity.
Defined.

(** ** The double allocation *)

(** A day on a server with the default configuration: the pool fills, one
    session takes a single port, its goroutine runs, and other sessions take
    pairs until the returned one comes round. *)
Definition pairs_for (n : nat) (sid : string) : list pa_op := replicate n (OpAllocatePortPair any_port 1 sid).
Definition double_trace : list pa_op :=
  [OpRefill any_port 0; OpAllocatePort any_port 1 "single"; OpReturnRTCP 0] ++
  pairs_for 1 "victim" ++
  pairs_for 50 "s1" ++ pairs_for 50 "s2" ++ pairs_for 50 "s3" ++ pairs_for 50 "s4" ++ pairs_for 50 "s5" ++
  pairs_for 50 "s6" ++ pairs_for 50 "s7" ++ pairs_for 50 "s8" ++ pairs_for 50 "s9" ++ pairs_for 48 "s10" ++
  pairs_for 1 "thief".

(** [AllocatePort] breaks exclusivity: under the default configuration a
    sequence of ordinary allocations gives the same port, 10002, to two
    sessions, because the RTCP port it returns to the pool is paired with a
    neighbour nobody reserved. *)
Theorem AllocatePort_double_allocation :
  exists pa, NewPortAllocator None = Some pa /\
  10002 ∈ session_ports (pa_run pa double_trace) "victim" /\ 10002 ∈ session_ports (pa_run pa double_trace) "thief".
Proof.
  eexists. split; [reflexivity|]. split; apply (bool_decide_unpack _); vm_compute; exact I.
Qed.

(** ** Sharding *)

(** Splitting the port table by [port & 15] changes nothing a client can
    see: the sixteen shards together are one map from ports to allocations, and
    looking up, recording and deleting through [getShard] are that map's own
    operations, which keep every port in its shard; the fresh table is the
    empty map. *)
Theorem port_shards_refine_map (t : portShards) p info :
  shards_wf t ->
  tget t p = unshard t !! p /\
  unshard (tset t p info) = <[p := info]> (unshard t) /\ shards_wf (tset t p info) /\
  unshard (tdel t p) = delete p (unshard t) /\ shards_wf (tdel t p) /\
  unshard (empty_shards (n := 16) (K := Z) (V := portInfo)) = ∅.
Proof. apply unshard_refines. Qed.

Lemma port_shards_refine_map_witness :
  unshard (tset (empty_shards : portShards) 10002 (mkInfo 10002 "a" 1 None)) =
  <[10002 := mkInfo 10002 "a" 1 None]> (unshard (empty_shards : portShards)).
Proof. apply (port_shards_refine_map empty_shards 10002 (mkInfo 10002 "a" 1 None) empty_shards_wf). Defined.
