(* ===== verification/Sha256.v ===== *)
(** * SHA-256

    The digest of crypto/sha256 (FIPS 180-4), which the consistent hash ring
    and the rendezvous hash take their positions from. Messages are lists of
    bytes and words are 32-bit integers. *)

From Stdlib Require Import ZArith Lia Ascii String List.
From S2P Require Import Prelude.
Import ListNotations.

Local Open Scope Z_scope.

Definition add32 (a b : Z) : Z := u32 (a + b).
Definition rotr (n x : Z) : Z := Z.lor (Z.shiftr x n) (u32 (Z.shiftl x (32 - n))).
Definition shr (n x : Z) : Z := Z.shiftr x n.
Definition not32 (x : Z) : Z := Z.lxor x 4294967295.

Definition Ch (x y z : Z) : Z := Z.lxor (Z.land x y) (Z.land (not32 x) z).
Definition Maj (x y z : Z) : Z := Z.lxor (Z.lxor (Z.land x y) (Z.land x z)) (Z.land y z).
Definition Sigma0 (x : Z) : Z := Z.lxor (Z.lxor (rotr 2 x) (rotr 13 x)) (rotr 22 x).
Definition Sigma1 (x : Z) : Z := Z.lxor (Z.lxor (rotr 6 x) (rotr 11 x)) (rotr 25 x).
Definition sigma0 (x : Z) : Z := Z.lxor (Z.lxor (rotr 7 x) (rotr 18 x)) (shr 3 x).
Definition sigma1 (x : Z) : Z := Z.lxor (Z.lxor (rotr 17 x) (rotr 19 x)) (shr 10 x).

(** The round constants are the first 32 bits of the fractional parts of the
    cube roots of the first 64 primes, and the initial state those of the square
    roots of the first eight. *)
Definition is_prime (n : nat) : bool := forallb (fun d => negb (Nat.eqb (Nat.modulo n d) 0)) (seq 2 (n - 2)).
Definition primes : list Z := map Z.of_nat (filter is_prime (seq 2 310)).

(** The integer cube root below [2 ^ bits], bit by bit. *)
Fixpoint cube_root (bits : nat) (r n : Z) : Z :=
  match bits with
  | O => r
  | S bits =>
      let r' := r + 2 ^ Z.of_nat bits in
      cube_root bits (if r' * r' * r' <=? n then r' else r) n
  end.

Definition K256 : list Z := Eval vm_compute in map (fun p => u32 (cube_root 40 0 (p * 2 ^ 96))) primes.
Definition H256 : list Z := Eval vm_compute in map (fun p => u32 (Z.sqrt (p * 2 ^ 64))) (firstn 8 primes).

(** Big-endian words, encoding/binary's [BigEndian.Uint32] and
    [BigEndian.PutUint32]. *)
Definition be32 (a b c d : Z) : Z :=
  Z.lor (Z.lor (Z.shiftl a 24) (Z.shiftl b 16)) (Z.lor (Z.shiftl c 8) d).
Definition PutUint32 (x : Z) : list Z :=
  [u8 (Z.shiftr x 24); u8 (Z.shiftr x 16); u8 (Z.shiftr x 8); u8 x].

Fixpoint words (bs : list Z) : list Z :=
  match bs with
  | a :: b :: c :: d :: bs => be32 a b c d :: words bs
  | _ => []
  end.

(** One more word of the message schedule; the list is newest first. *)
Definition schedule_step (w : list Z) : list Z :=
  add32 (add32 (sigma1 (nth 1 w 0)) (nth 6 w 0)) (add32 (sigma0 (nth 14 w 0)) (nth 15 w 0)) :: w.
Definition schedule (block : list Z) : list Z := rev (Nat.iter 48 schedule_step (rev block)).

Definition round (s : list Z) (kw : Z * Z) : list Z :=
  match s with
  | [a; b; c; d; e; f; g; h] =>
      let t1 := add32 (add32 (add32 h (Sigma1 e)) (add32 (Ch e f g) (fst kw))) (snd kw) in
      let t2 := add32 (Sigma0 a) (Maj a b c) in
      [add32 t1 t2; a; b; c; add32 d t1; e; f; g]
  | _ => s
  end.

Definition compress (s block : list Z) : list Z :=
  map (fun ab => add32 (fst ab) (snd ab)) (combine s (fold_left round (combine K256 (schedule block)) s)).

Definition pad (msg : list Z) : list Z :=
  let n := Z.of_nat (length msg) in
  let zeros := Z.to_nat ((55 - n) mod 64) in
  let bits := u64 (8 * n) in
  msg ++ [128] ++ repeat 0 zeros ++ PutUint32 (Z.shiftr bits 32) ++ PutUint32 (u32 bits).

Fixpoint blocks (fuel : nat) (ws : list Z) (s : list Z) : list Z :=
  match fuel, ws with
  | S fuel, _ :: _ => blocks fuel (skipn 16 ws) (compress s (firstn 16 ws))
  | _, _ => s
  end.

Definition Sum256 (msg : list Z) : list Z :=
  let ws := words (pad msg) in
  flat_map PutUint32 (blocks (length ws) ws H256).

Fixpoint bytes_of_string (s : string) : list Z :=
  match s with
  | EmptyString => []
  | String c s => Z.of_nat (nat_of_ascii c) :: bytes_of_string s
  end.

(** [binary.BigEndian.Uint32(hash[:4])] *)
Definition Uint32_of (bs : list Z) : Z :=
  match bs with a :: b :: c :: d :: _ => be32 a b c d | _ => 0 end.

(** The first bytes of the digests of the standard's test messages. *)
Example Sum256_abc : firstn 8 (Sum256 (bytes_of_string "abc")) = [0xba; 0x78; 0x16; 0xbf; 0x8f; 0x01; 0xcf; 0xea].
Proof. vm_compute. reflexivity. Qed.
Example Sum256_two_blocks :
  firstn 8 (Sum256 (bytes_of_string "abcdbcdecdefdefgefghfghighijhijkijkljklmklmnlmnomnopnopq")) =
  [0x24; 0x8d; 0x6a; 0x61; 0xd2; 0x06; 0x38; 0xb8].
Proof. vm_compute. reflexivity. Qed.
