(* ===== verification/ConsistentHash.v ===== *)
(** * Session distribution

    Models src/internal/consistent_hash.go: the consistent hash ring with its
    virtual nodes and load counters, the session router with sticky sessions on
    top of it, and the rendezvous hash. Nodes are kept by value under their
    identifier; a [range] over a map takes the order it walks as an argument. *)

From Stdlib Require Import ZArith Lia String Permutation.
From stdpp Require Import base numbers list gmap strings sorting.
From S2P Require Import Prelude GoFloat Sha256.

Local Open Scope Z_scope.
Local Open Scope go_scope.
#[local] Set Warnings "-clear-no-such-hyp".
#[local] Arguments wraps : simpl never.
#[local] Arguments wrapu : simpl never.

Record ConsistentHashConfig := mkCHConfig { ReplicationFactor : Z; LoadFactor : float64 }.

Definition DefaultConsistentHashConfig : ConsistentHashConfig :=
  {| ReplicationFactor := 150; LoadFactor := lit 5 4 |}.

Record HashNode := mkNode {
  ID : string;
  Address : string;
  Weight : Z;
  Healthy : bool;
  Metadata : gmap string string }.

Record HashRing := mkRing {
  hr_config : ConsistentHashConfig;
  nodes : gmap string HashNode;
  ring : list Z;
  ringNodes : gmap Z string;
  nodeLoad : gmap string Z;
  totalLoad : Z }.
#[export] Instance set_ID : Setter ID := fun f r =>
  mkNode (f (ID r)) (Address r) (Weight r) (Healthy r) (Metadata r).
#[export] Instance set_Address : Setter Address := fun f r =>
  mkNode (ID r) (f (Address r)) (Weight r) (Healthy r) (Metadata r).
#[export] Instance set_Weight : Setter Weight := fun f r =>
  mkNode (ID r) (Address r) (f (Weight r)) (Healthy r) (Metadata r).
#[export] Instance set_Healthy : Setter Healthy := fun f r =>
  mkNode (ID r) (Address r) (Weight r) (f (Healthy r)) (Metadata r).
#[export] Instance set_Metadata : Setter Metadata := fun f r =>
  mkNode (ID r) (Address r) (Weight r) (Healthy r) (f (Metadata r)).
#[export] Instance set_hr_config : Setter hr_config := fun f r =>
  mkRing (f (hr_config r)) (nodes r) (ring r) (ringNodes r) (nodeLoad r) (totalLoad r).
#[export] Instance set_nodes : Setter nodes := fun f r =>
  mkRing (hr_config r) (f (nodes r)) (ring r) (ringNodes r) (nodeLoad r) (totalLoad r).
#[export] Instance set_ring : Setter ring := fun f r =>
  mkRing (hr_config r) (nodes r) (f (ring r)) (ringNodes r) (nodeLoad r) (totalLoad r).
#[export] Instance set_ringNodes : Setter ringNodes := fun f r =>
  mkRing (hr_config r) (nodes r) (ring r) (f (ringNodes r)) (nodeLoad r) (totalLoad r).
#[export] Instance set_nodeLoad : Setter nodeLoad := fun f r =>
  mkRing (hr_config r) (nodes r) (ring r) (ringNodes r) (f (nodeLoad r)) (totalLoad r).
#[export] Instance set_totalLoad : Setter totalLoad := fun f r =>
  mkRing (hr_config r) (nodes r) (ring r) (ringNodes r) (nodeLoad r) (f (totalLoad r)).

Definition NewHashRing (config : option ConsistentHashConfig) : HashRing :=
  {| hr_config := default DefaultConsistentHashConfig config; nodes := ∅; ring := [];
     ringNodes := ∅; nodeLoad := ∅; totalLoad := 0 |}.

(** ** Positions *)

Definition hashKey (nodeID : string) (replica : Z) : Z :=
  Uint32_of (Sum256 (bytes_of_string nodeID ++ PutUint32 (u32 replica))).

Definition hashString (key : string) : Z := Uint32_of (Sum256 (bytes_of_string key)).

(** [sort.Search]: the binary search of the standard library. *)
Fixpoint Search_loop (fuel : nat) (f : nat -> bool) (i j : nat) : nat :=
  match fuel with
  | O => i
  | S fuel =>
      if (i <? j)%nat then
        let h := ((i + j) / 2)%nat in
        if f h then Search_loop fuel f i h else Search_loop fuel f (S h) j
      else i
  end.
Definition Search (n : nat) (f : nat -> bool) : nat := Search_loop n f 0 n.

Definition search (ring : list Z) (hash : Z) : nat :=
  let idx := Search (length ring) (fun i => hash <=? nth i ring 0) in
  if (length ring <=? idx)%nat then 0%nat else idx.

(** The number of virtual nodes a node gets. *)
Definition replicas (config : ConsistentHashConfig) (node : HashNode) : nat :=
  Z.to_nat (if Weight node >? 0 then i64 (ReplicationFactor config * Weight node) else ReplicationFactor config).

Definition vhashes (config : ConsistentHashConfig) (node : HashNode) : list Z :=
  (fun i => hashKey (ID node) (Z.of_nat i)) <$> seq 0 (replicas config node).

(** ** The ring *)

Definition AddNode (node : HashNode) (hr : HashRing) : HashRing :=
  if bool_decide (is_Some (nodes hr !! ID node)) then hr
  else
    let hr := hr <| nodes ::= <[ID node := node]> |> <| nodeLoad ::= <[ID node := 0]> |> in
    let hashes := vhashes (hr_config hr) node in
    let hr := hr <| ring ::= fun r => r ++ hashes |>
                 <| ringNodes ::= fun m => foldl (fun m hash => <[hash := ID node]> m) m hashes |> in
    hr <| ring ::= merge_sort Z.le |>.

(** The new slice is made with the capacity left over, which panics when more
    distinct positions are to be removed than the ring has. *)
Definition RemoveNode (nodeID : string) (hr : HashRing) : outcome unit HashRing :=
  match nodes hr !! nodeID with
  | None => Ok hr
  | Some node =>
      let hashes := (fun i => hashKey nodeID (Z.of_nat i)) <$> seq 0 (replicas (hr_config hr) node) in
      let hashesToRemove : gset Z := list_to_set hashes in
      let hr := hr <| ringNodes ::= fun m => foldl (fun m hash => delete hash m) m hashes |> in
      if Z.of_nat (length (ring hr)) - Z.of_nat (size hashesToRemove) <? 0 then Panic
      else
        let hr := hr <| ring ::= List.filter (fun h => negb (bool_decide (h ∈ hashesToRemove))) |> in
        let hr := hr <| totalLoad ::= fun t => i64 (t - default 0 (nodeLoad hr !! nodeID)) |> in
        Ok (hr <| nodes ::= delete nodeID |> <| nodeLoad ::= delete nodeID |>)
  end.

(** [hr.nodes[hr.ringNodes[hash]]], with the zero string for a missing hash. *)
Definition node_at (hr : HashRing) (hash : Z) : option HashNode :=
  nodes hr !! default "" (ringNodes hr !! hash).

Definition GetNode (key : string) (hr : HashRing) : option HashNode :=
  match ring hr with
  | [] => None
  | _ => node_at hr (nth (search (ring hr) (hashString key)) (ring hr) 0)
  end.

(** The ring read from position [idx] on, once around. *)
Definition rotated (hr : HashRing) (idx : nat) : list Z :=
  (fun i => nth ((idx + i) mod length (ring hr))%nat (ring hr) 0) <$> seq 0 (length (ring hr)).

Definition maxLoad (hr : HashRing) : Z :=
  let avgLoad := fdiv (of_int (totalLoad hr)) (of_int (Z.of_nat (size (nodes hr)))) in
  let maxLoad := to_int64 (fmul avgLoad (LoadFactor (hr_config hr))) in
  if maxLoad <? 1 then 1 else maxLoad.

(** The loop over the ring: a virtual node whose node is gone is a nil
    dereference. *)
Fixpoint suitable (hr : HashRing) (max : Z) (hashes : list Z) : outcome unit (option HashNode) :=
  match hashes with
  | [] => Ok None
  | hash :: hashes =>
      let nodeID := default "" (ringNodes hr !! hash) in
      match nodes hr !! nodeID with
      | None => Panic
      | Some node =>
          if Healthy node && (default 0 (nodeLoad hr !! nodeID) <? max) then Ok (Some node)
          else suitable hr max hashes
      end
  end.

Definition GetNodeWithLoad (key : string) (order : list (string * HashNode)) (hr : HashRing) : outcome unit (option HashNode) :=
  match ring hr with
  | [] => Ok None
  | _ =>
      let idx := search (ring hr) (hashString key) in
      let! found := suitable hr (maxLoad hr) (rotated hr idx) in
      match found with
      | Some node => Ok (Some node)
      | None =>
          match List.find (fun node => Healthy node) order.*2 with
          | Some node => Ok (Some node)
          | None => Ok (node_at hr (nth idx (ring hr) 0))
          end
      end
  end.

Fixpoint collect (hr : HashRing) (count : nat) (seen : gset string) (result : list (option HashNode)) (hashes : list Z) : list (option HashNode) :=
  match hashes with
  | [] => result
  | hash :: hashes =>
      if (length result <? count)%nat then
        let nodeID := default "" (ringNodes hr !! hash) in
        if bool_decide (nodeID ∈ seen) then collect hr count seen result hashes
        else collect hr count ({[nodeID]} ∪ seen) (result ++ [nodes hr !! nodeID]) hashes
      else result
  end.

(** A negative count panics in [make]. *)
Definition GetNodes (key : string) (count : Z) (hr : HashRing) : outcome unit (list (option HashNode)) :=
  match ring hr with
  | [] => Ok []
  | _ =>
      if count <? 0 then Panic
      else Ok (collect hr (Z.to_nat count) ∅ [] (rotated hr (search (ring hr) (hashString key))))
  end.

Definition IncrementLoad (nodeID : string) (hr : HashRing) : HashRing :=
  match nodeLoad hr !! nodeID with
  | Some load => hr <| nodeLoad ::= <[nodeID := i64 (load + 1)]> |> <| totalLoad ::= fun t => i64 (t + 1) |>
  | None => hr
  end.

Definition DecrementLoad (nodeID : string) (hr : HashRing) : HashRing :=
  match nodeLoad hr !! nodeID with
  | Some load =>
      if load >? 0 then hr <| nodeLoad ::= <[nodeID := i64 (load - 1)]> |> <| totalLoad ::= fun t => i64 (t - 1) |>
      else hr
  | None => hr
  end.

Definition SetNodeHealth (nodeID : string) (healthy : bool) (hr : HashRing) : HashRing :=
  hr <| nodes ::= alter (fun node => node <| Healthy := healthy |>) nodeID |>.

Definition GetNodeLoad (hr : HashRing) (nodeID : string) : Z := default 0 (nodeLoad hr !! nodeID).
Definition GetAllNodes (order : list (string * HashNode)) : list HashNode := order.*2.
Definition GetHealthyNodes (order : list (string * HashNode)) : list HashNode := List.filter (fun node => Healthy node) order.*2.
Definition NodeCount (hr : HashRing) : Z := Z.of_nat (size (nodes hr)).

(** ** The session router *)

Record SessionRouter := mkRouter { sr_ring : HashRing; sticky : gmap string string }.
#[export] Instance set_sr_ring : Setter sr_ring := fun f r =>
  mkRouter (f (sr_ring r)) (sticky r).
#[export] Instance set_sticky : Setter sticky := fun f r =>
  mkRouter (sr_ring r) (f (sticky r)).

Definition NewSessionRouter (config : option ConsistentHashConfig) : SessionRouter :=
  {| sr_ring := NewHashRing config; sticky := ∅ |}.

Definition router_AddNode (node : HashNode) (sr : SessionRouter) : SessionRouter :=
  sr <| sr_ring ::= AddNode node |>.

Definition router_RemoveNode (nodeID : string) (sr : SessionRouter) : outcome unit SessionRouter :=
  let! hr := RemoveNode nodeID (sr_ring sr) in
  Ok (sr <| sr_ring := hr |> <| sticky ::= filter (fun kv => kv.2 <> nodeID) |>).

(** [order] is the order in which the nodes are walked, in the sticky check
    and in the fallback of [GetNodeWithLoad]. *)
Definition RouteSession (sessionID : string) (order : list (string * HashNode)) (sr : SessionRouter) : outcome unit (option HashNode * SessionRouter) :=
  let stuck :=
    match sticky sr !! sessionID with
    | Some stickyNodeID =>
        List.find (fun node => bool_decide (ID node = stickyNodeID) && Healthy node) (GetAllNodes order)
    | None => None
    end in
  match stuck with
  | Some node => Ok (Some node, sr)
  | None =>
      let! node := GetNodeWithLoad sessionID order (sr_ring sr) in
      match node with
      | Some node =>
          Ok (Some node, sr <| sticky ::= <[sessionID := ID node]> |> <| sr_ring ::= IncrementLoad (ID node) |>)
      | None => Ok (None, sr)
      end
  end.

Definition EndSession (sessionID : string) (sr : SessionRouter) : SessionRouter :=
  let nodeID := sticky sr !! sessionID in
  let sr := sr <| sticky ::= delete sessionID |> in
  match nodeID with
  | Some nodeID => sr <| sr_ring ::= DecrementLoad nodeID |>
  | None => sr
  end.

Definition router_SetNodeHealth (nodeID : string) (healthy : bool) (sr : SessionRouter) : SessionRouter :=
  sr <| sr_ring ::= SetNodeHealth nodeID healthy |>.

(** ** Rendezvous hashing *)

Abbreviation RendezvousHash := (gmap string HashNode).

Definition rh_AddNode (node : HashNode) (rh : RendezvousHash) : RendezvousHash := <[ID node := node]> rh.
Definition rh_RemoveNode (nodeID : string) (rh : RendezvousHash) : RendezvousHash := delete nodeID rh.
Definition rh_SetNodeHealth (nodeID : string) (healthy : bool) (rh : RendezvousHash) : RendezvousHash :=
  alter (fun node => node <| Healthy := healthy |>) nodeID rh.

Definition computeWeight (key nodeID : string) : Z := Uint32_of (Sum256 (bytes_of_string (key +:+ nodeID))).

Definition heavier (key : string) (best : option (HashNode * Z)) (node : HashNode) : option (HashNode * Z) :=
  if negb (Healthy node) then best
  else
    let weight := computeWeight key (ID node) in
    match best with
    | Some (_, maxWeight) => if weight >? maxWeight then Some (node, weight) else best
    | None => Some (node, weight)
    end.
Definition rh_GetNode (key : string) (order : list (string * HashNode)) : option HashNode :=
  fst <$> foldl (heavier key) None order.*2.

Definition weight_ge (a b : HashNode * Z) : Prop := b.2 <= a.2.
#[export] Instance weight_ge_dec : RelDecision weight_ge.
Proof. intros a b. unfold weight_ge. apply _. Defined.

(** [sort.Slice] leaves nodes of equal weight in any order; the order of the
    walk accounts for that. *)
Definition rh_GetNodes (key : string) (count : Z) (order : list (string * HashNode)) : outcome unit (list HashNode) :=
  if count <? 0 then Panic
  else
    let weights := (fun node => (node, computeWeight key (ID node))) <$> List.filter (fun node => Healthy node) order.*2 in
    Ok (take (Z.to_nat count) (merge_sort weight_ge weights).*1).

(** ** Binary search *)

(** [f] is false below some index and true from it on. *)
Definition monotone (n : nat) (f : nat -> bool) : Prop :=
  forall i j, (i <= j < n)%nat -> f i = true -> f j = true.

Lemma Search_loop_spec fuel f n i j :
  monotone n f -> (i <= j <= n)%nat -> (j - i <= fuel)%nat ->
  (forall k, (k < i)%nat -> f k = false) -> (forall k, (j <= k < n)%nat -> f k = true) ->
  let r := Search_loop fuel f i j in
  (r <= n)%nat /\ (forall k, (k < r)%nat -> f k = false) /\ (forall k, (r <= k < n)%nat -> f k = true).
Proof.
  intros Hm. revert i j. induction fuel as [|fuel IH]; intros i j Hij Hf Hlo Hhi; cbn [Search_loop].
  { assert (i = j) by lia. subst. split_and!; auto; lia. }
  destruct (Nat.ltb_spec i j) as [Hlt|Hge]; [|assert (i = j) by lia; subst; split_and!; auto; lia].
  pose proof (Nat.div_mod_eq (i + j) 2). pose proof (Nat.mod_upper_bound (i + j) 2 ltac:(done)).
  destruct (f ((i + j) / 2)%nat) eqn:E.
  - apply IH; auto; try lia. intros k Hk. apply (Hm ((i + j) / 2)%nat); [lia|done].
  - apply IH; auto; try lia. intros k Hk. destruct (f k) eqn:Ek; [|done].
    rewrite (Hm k ((i + j) / 2)%nat) in E; [done|lia|done].
Qed.

Lemma sorted_nth l i j :
  StronglySorted Z.le l -> (i <= j < length l)%nat -> nth i l 0 <= nth j l 0.
Proof.
  intros Hs. revert i j. induction Hs as [|x l Hs IH Hx]; intros [|i] [|j] Hij; cbn in *; try lia.
  - rewrite List.Forall_forall in Hx. apply Hx, nth_In. lia.
  - apply IH. lia.
Qed.

(** The position a key is served from: the first one at or after it, or the
    lowest of the ring when the key lies beyond them all. *)
Definition successor (ring : list Z) (x h : Z) : Prop :=
  h ∈ ring /\
  ((x <= h /\ forall y, y ∈ ring -> x <= y -> h <= y) \/
   ((forall y, y ∈ ring -> y < x) /\ forall y, y ∈ ring -> h <= y)).

Lemma successor_unique ring x h h' : successor ring x h -> successor ring x h' -> h = h'.
Proof.
  intros [Hin [[H1 H2]|[H1 H2]]] [Hin' [[H3 H4]|[H3 H4]]].
  - specialize (H2 h' Hin' H3). specialize (H4 h Hin H1). lia.
  - specialize (H3 h Hin). lia.
  - specialize (H1 h' Hin'). lia.
  - specialize (H2 h' Hin'). specialize (H4 h Hin). lia.
Qed.

Lemma nth_elem_of (l : list Z) i : (i < length l)%nat -> nth i l 0 ∈ l.
Proof. intros. by apply list_elem_of_In, nth_In. Qed.
Lemma elem_of_nth (l : list Z) y : y ∈ l -> exists i, (i < length l)%nat /\ nth i l 0 = y.
Proof. intros (i & Hi & E)%list_elem_of_In%(In_nth _ _ 0). eauto. Qed.

Lemma search_lt ring x : ring <> [] -> (search ring x < length ring)%nat.
Proof. intros Hne. unfold search. case_match eqn:E; [destruct ring; [done|cbn; lia]|]. by apply Nat.leb_gt in E. Qed.

Lemma search_successor ring x :
  StronglySorted Z.le ring -> ring <> [] -> successor ring x (nth (search ring x) ring 0).
Proof.
  intros Hs Hne. split; [by apply nth_elem_of, search_lt|].
  assert (monotone (length ring) (fun i => x <=? nth i ring 0)) as Hm.
  { intros i j Hij Hi. pose proof (sorted_nth ring i j Hs Hij). lia. }
  destruct (Search_loop_spec (length ring) _ (length ring) 0 (length ring) Hm) as (H1 & H2 & H3); try lia.
  fold (Search (length ring) (fun i => x <=? nth i ring 0)) in *. unfold search.
  set (r := Search _ _) in *. destruct (Nat.leb_spec (length ring) r) as [Hr|Hr].
  - right. split; intros y (i & Hi & <-)%elem_of_nth.
    + specialize (H2 i ltac:(lia)). lia.
    + apply sorted_nth; [done|lia].
  - left. specialize (H3 r ltac:(lia)) as Hxr. split; [lia|]. intros y (i & Hi & <-)%elem_of_nth Hy.
    destruct (Nat.lt_ge_cases i r) as [Hlt|Hge]; [specialize (H2 i Hlt); lia|]. apply sorted_nth; [done|lia].
Qed.

(** ** The ring invariant *)

Record ring_inv (hr : HashRing) : Prop := {
  ri_sorted : StronglySorted Z.le (ring hr);
  ri_dom : forall h, h ∈ ring hr <-> is_Some (ringNodes hr !! h);
  ri_owner : forall h id, ringNodes hr !! h = Some id ->
    exists node, nodes hr !! id = Some node /\ h ∈ vhashes (hr_config hr) node;
  ri_id : forall id node, nodes hr !! id = Some node -> ID node = id;
  ri_load : forall id, is_Some (nodeLoad hr !! id) <-> is_Some (nodes hr !! id);
}.

Lemma foldl_insert_lookup (v : string) hs (m : gmap Z string) h :
  foldl (fun m hash => <[hash := v]> m) m hs !! h = if bool_decide (h ∈ hs) then Some v else m !! h.
Proof.
  revert m. induction hs as [|x hs IH]; intros m; cbn [foldl]; [by rewrite bool_decide_false by apply not_elem_of_nil|].
  rewrite IH. destruct (decide (h ∈ hs)) as [Hin|Hin].
  - by rewrite !bool_decide_true by set_solver.
  - rewrite (bool_decide_false (h ∈ hs)) by done. rewrite lookup_insert. destruct (decide (x = h)) as [->|Hne].
    + by rewrite bool_decide_true by set_solver.
    + by rewrite bool_decide_false by set_solver.
Qed.

Lemma foldl_delete_lookup hs (m : gmap Z string) h :
  foldl (fun m hash => delete hash m) m hs !! h = if bool_decide (h ∈ hs) then None else m !! h.
Proof.
  revert m. induction hs as [|x hs IH]; intros m; cbn [foldl]; [by rewrite bool_decide_false by apply not_elem_of_nil|].
  rewrite IH. destruct (decide (h ∈ hs)) as [Hin|Hin].
  - by rewrite !bool_decide_true by set_solver.
  - rewrite (bool_decide_false (h ∈ hs)) by done. rewrite lookup_delete. destruct (decide (x = h)) as [->|Hne].
    + by rewrite bool_decide_true by set_solver.
    + by rewrite bool_decide_false by set_solver.
Qed.

(** What a new node changes. *)
Lemma AddNode_effect node hr :
  nodes hr !! ID node = None ->
  let hr' := AddNode node hr in
  hr_config hr' = hr_config hr /\ nodes hr' = <[ID node := node]> (nodes hr) /\
  nodeLoad hr' = <[ID node := 0]> (nodeLoad hr) /\ totalLoad hr' = totalLoad hr /\
  ring hr' = merge_sort Z.le (ring hr ++ vhashes (hr_config hr) node) /\
  (forall h, ringNodes hr' !! h = if bool_decide (h ∈ vhashes (hr_config hr) node) then Some (ID node) else ringNodes hr !! h).
Proof.
  intros E. unfold AddNode. rewrite bool_decide_false by (rewrite E; by intros [? ?]). cbn -[merge_sort].
  split_and!; try done. intros h. apply foldl_insert_lookup.
Qed.

Lemma AddNode_ring node hr h :
  nodes hr !! ID node = None -> h ∈ ring (AddNode node hr) <-> h ∈ ring hr \/ h ∈ vhashes (hr_config hr) node.
Proof.
  intros E. destruct (AddNode_effect node hr E) as (_ & _ & _ & _ & -> & _).
  by rewrite merge_sort_Permutation, elem_of_app.
Qed.

Lemma AddNode_present node hr : is_Some (nodes hr !! ID node) -> AddNode node hr = hr.
Proof. intros H. unfold AddNode. by rewrite bool_decide_true. Qed.

Lemma AddNode_inv node hr : ring_inv hr -> ring_inv (AddNode node hr).
Proof.
  intros Hinv. destruct (nodes hr !! ID node) eqn:E; [rewrite AddNode_present by (rewrite E; eauto); done|].
  pose proof (fun h => AddNode_ring node hr h E) as Hring.
  destruct (AddNode_effect node hr E) as (Ec & En & El & _ & Er & Hrn).
  destruct Hinv as [Hs Hd Ho Hi Hl]. split.
  - rewrite Er. apply StronglySorted_merge_sort; apply _.
  - intros h. rewrite Hring, Hrn, Hd. case_bool_decide; naive_solver.
  - intros h id. rewrite Hrn, En, Ec. case_bool_decide as Eh.
    + intros [= <-]. exists node. by rewrite lookup_insert_eq.
    + intros (n & Hn & Hv)%Ho. exists n. split; [|done]. rewrite lookup_insert_ne; [done|]. congruence.
  - intros id n. rewrite En. rewrite lookup_insert_Some. intros [[<- <-]|[_ Hn]]; auto.
  - intros id. rewrite En, El, !lookup_insert. case_decide; [split; eauto|apply Hl].
Qed.

(** What removing a node changes, when it does not panic. *)
Lemma RemoveNode_effect nodeID hr node hr' :
  ring_inv hr -> nodes hr !! nodeID = Some node -> RemoveNode nodeID hr = Ok hr' ->
  hr_config hr' = hr_config hr /\ nodes hr' = delete nodeID (nodes hr) /\ nodeLoad hr' = delete nodeID (nodeLoad hr) /\
  ring hr' = List.filter (fun h => negb (bool_decide (h ∈ (list_to_set (vhashes (hr_config hr) node) : gset Z)))) (ring hr) /\
  (forall h, h ∈ ring hr' <-> h ∈ ring hr /\ h ∉ vhashes (hr_config hr) node) /\
  (forall h, ringNodes hr' !! h = if bool_decide (h ∈ vhashes (hr_config hr) node) then None else ringNodes hr !! h) /\
  totalLoad hr' = i64 (totalLoad hr - default 0 (nodeLoad hr !! nodeID)).
Proof.
  intros Hinv E. unfold RemoveNode. rewrite E.
  assert ((fun i => hashKey nodeID (Z.of_nat i)) <$> seq 0 (replicas (hr_config hr) node) = vhashes (hr_config hr) node) as ->
    by (unfold vhashes; by rewrite (ri_id _ Hinv _ _ E)).
  case_match; [done|]. intros [= <-]. cbn. split_and!; try done.
  - intros h. rewrite list_elem_of_In, filter_In, <- list_elem_of_In, negb_true_iff, bool_decide_eq_false.
    by rewrite elem_of_list_to_set.
  - intros h. apply foldl_delete_lookup.
Qed.

Lemma filter_StronglySorted (f : Z -> bool) l : StronglySorted Z.le l -> StronglySorted Z.le (List.filter f l).
Proof.
  induction 1 as [|x l Hs IH Hx]; cbn; [constructor|]. case_match; [|done]. constructor; [done|].
  apply List.Forall_forall. intros y [Hy _]%filter_In. rewrite List.Forall_forall in Hx. auto.
Qed.

Lemma RemoveNode_inv nodeID hr hr' : ring_inv hr -> RemoveNode nodeID hr = Ok hr' -> ring_inv hr'.
Proof.
  intros Hinv Hr. destruct (nodes hr !! nodeID) as [node|] eqn:E; [|unfold RemoveNode in Hr; rewrite E in Hr; congruence].
  destruct (RemoveNode_effect nodeID hr node hr' Hinv E Hr) as (Ec & En & El & Er & Hring & Hrn & _).
  destruct Hinv as [Hs Hd Ho Hi Hl]. split.
  - rewrite Er. by apply filter_StronglySorted.
  - intros h. rewrite Hring, Hrn, Hd. case_bool_decide; [|naive_solver]. split; [naive_solver|by intros [? ?]].
  - intros h id. rewrite Hrn, En, Ec. case_bool_decide as Eh; [done|]. intros (n & Hn & Hv)%Ho.
    exists n. split; [|done]. rewrite lookup_delete_ne; [done|]. intros <-. rewrite E in Hn. by injection Hn as <-.
  - intros id n. rewrite En, lookup_delete_Some. naive_solver.
  - intros id. rewrite En, El, !lookup_delete. case_decide; [split; by intros [? ?]|apply Hl].
Qed.

Lemma SetNodeHealth_inv nodeID b hr : ring_inv hr -> ring_inv (SetNodeHealth nodeID b hr).
Proof.
  intros [Hs Hd Ho Hi Hl]. split; cbn; try done.
  - intros h id Hh. destruct (Ho h id Hh) as (n & Hn & Hv).
    destruct (decide (nodeID = id)) as [->|Hne]; [|exists n; by rewrite lookup_alter_ne].
    exists (n <| Healthy := b |>). rewrite lookup_alter_eq, Hn. by split.
  - intros id n. rewrite lookup_alter_Some. intros [(<- & n' & Hn & ->)|[_ Hn]]; [by apply (Hi _ n')|by apply Hi].
  - intros id. rewrite Hl, lookup_alter. case_decide; [|done]. subst. by rewrite fmap_is_Some.
Qed.

Lemma IncrementLoad_inv nodeID hr : ring_inv hr -> ring_inv (IncrementLoad nodeID hr).
Proof.
  intros [Hs Hd Ho Hi Hl]. unfold IncrementLoad. destruct (nodeLoad hr !! nodeID) eqn:E; [|done]. split; cbn; try done.
  intros id. rewrite <- Hl, lookup_insert. case_decide; [subst; rewrite E; split; eauto|done].
Qed.

Lemma DecrementLoad_inv nodeID hr : ring_inv hr -> ring_inv (DecrementLoad nodeID hr).
Proof.
  intros [Hs Hd Ho Hi Hl]. unfold DecrementLoad. destruct (nodeLoad hr !! nodeID) eqn:E; [|done].
  case_match; [|done]. split; cbn; try done.
  intros id. rewrite <- Hl, lookup_insert. case_decide; [subst; rewrite E; split; eauto|done].
Qed.

Lemma NewHashRing_inv c : ring_inv (NewHashRing c).
Proof.
  split; cbn.
  - constructor.
  - intros h. rewrite lookup_empty. split; [by intros ?%elem_of_nil|by intros [? ?]].
  - intros h id. by rewrite lookup_empty.
  - intros id n. by rewrite lookup_empty.
  - intros id. by rewrite !lookup_empty.
Qed.

#[export] Hint Resolve NewHashRing_inv AddNode_inv RemoveNode_inv SetNodeHealth_inv IncrementLoad_inv DecrementLoad_inv : karl.

(** ** Reachable rings *)

Inductive ring_reachable (c : option ConsistentHashConfig) : HashRing -> Prop :=
| rr_new : ring_reachable c (NewHashRing c)
| rr_add hr node : ring_reachable c hr -> ring_reachable c (AddNode node hr)
| rr_remove hr nodeID hr' : ring_reachable c hr -> RemoveNode nodeID hr = Ok hr' -> ring_reachable c hr'
| rr_health hr nodeID b : ring_reachable c hr -> ring_reachable c (SetNodeHealth nodeID b hr)
| rr_inc hr nodeID : ring_reachable c hr -> ring_reachable c (IncrementLoad nodeID hr)
| rr_dec hr nodeID : ring_reachable c hr -> ring_reachable c (DecrementLoad nodeID hr).

Lemma ring_reachable_inv c hr : ring_reachable c hr -> ring_inv hr.
Proof. induction 1; eauto with karl. Qed.

(** A position of the ring always leads to a node. *)
Lemma node_at_ring hr h : ring_inv hr -> h ∈ ring hr ->
  exists id node, ringNodes hr !! h = Some id /\ nodes hr !! id = Some node /\ ID node = id /\ node_at hr h = Some node.
Proof.
  intros Hinv [id Hid]%(ri_dom _ Hinv). destruct (ri_owner _ Hinv h id Hid) as (node & Hn & _).
  exists id, node. unfold node_at. rewrite Hid. cbn. rewrite Hn. split_and!; auto. by apply (ri_id _ Hinv).
Qed.

Lemma GetNode_nonempty key hr : ring hr <> [] -> GetNode key hr = node_at hr (nth (search (ring hr) (hashString key)) (ring hr) 0).
Proof. unfold GetNode. by destruct (ring hr). Qed.

(** C36: a ring that has any position serves every key: [GetNode] returns a
    node that is in the ring, the owner of the first position clockwise from
    the key's hash, so the binary search finds what a walk around the ring
    would. *)
Theorem GetNode_clockwise c hr key :
  ring_reachable c hr -> ring hr <> [] ->
  exists h id node, successor (ring hr) (hashString key) h /\ ringNodes hr !! h = Some id /\
    nodes hr !! id = Some node /\ GetNode key hr = Some node.
Proof.
  intros Hinv%ring_reachable_inv Hne.
  pose proof (search_successor (ring hr) (hashString key) (ri_sorted _ Hinv) Hne) as Hs.
  set (h := nth _ _ _) in *. destruct (node_at_ring hr h Hinv) as (id & node & H1 & H2 & H3 & H4); [apply Hs|].
  exists h, id, node. split_and!; auto. by rewrite GetNode_nonempty.
Qed.

Definition ring_config : ConsistentHashConfig := {| ReplicationFactor := 2; LoadFactor := lit 5 4 |}.
Definition node_a : HashNode := mkNode "a" "10.0.0.1" 0 true ∅.
Definition node_b : HashNode := mkNode "b" "10.0.0.2" 2 true ∅.
Definition ring_ab : HashRing := AddNode node_b (AddNode node_a (NewHashRing (Some ring_config))).
Lemma ring_ab_reachable : ring_reachable (Some ring_config) ring_ab.
Proof. repeat constructor. Qed.

Lemma GetNode_clockwise_witness :
  exists h id node, successor (ring ring_ab) (hashString "call-1") h /\ ringNodes ring_ab !! h = Some id /\
    nodes ring_ab !! id = Some node /\ GetNode "call-1" ring_ab = Some node.
Proof.
  apply (GetNode_clockwise (Some ring_config)); [exact ring_ab_reachable|].
  intros E%(f_equal (@length Z)). vm_compute in E. discriminate.
Defined.

Lemma successor_subset r r' x h : successor r' x h -> (forall y, y ∈ r -> y ∈ r') -> h ∈ r -> successor r x h.
Proof. intros [_ [[H1 H2]|[H1 H2]]] Hsub Hin; (split; [done|]); auto 6. Qed.

(** C37: adding a node disturbs as little as it can: a key is served by the
    node that served it before, or by the new node. *)
Theorem AddNode_minimal_disruption c hr node key :
  ring_reachable c hr ->
  GetNode key (AddNode node hr) = GetNode key hr \/ GetNode key (AddNode node hr) = Some node.
Proof.
  intros Hr. pose proof (ring_reachable_inv _ _ Hr) as Hinv. pose proof (AddNode_inv node hr Hinv) as Hinv'.
  destruct (nodes hr !! ID node) eqn:E; [left; by rewrite AddNode_present by (rewrite E; eauto)|].
  destruct (decide (ring (AddNode node hr) = [])) as [Hnil|Hne].
  { assert (ring hr = []) as Hn by (apply elem_of_nil_inv; intros h Hh; apply (elem_of_nil h);
      rewrite <- Hnil, AddNode_ring by done; by left).
    left. unfold GetNode. by rewrite Hnil, Hn. }
  rewrite (GetNode_nonempty _ _ Hne).
  pose proof (search_successor _ (hashString key) (ri_sorted _ Hinv') Hne) as Hs. set (h := nth _ _ _) in *.
  destruct (AddNode_effect node hr E) as (_ & En & _ & _ & _ & Hrn). unfold node_at. rewrite Hrn, En.
  case_bool_decide as Eh; [right; cbn; apply lookup_insert_eq|left].
  assert (h ∈ ring hr) as Hh by (destruct Hs as [Hin _]; apply AddNode_ring in Hin as [?|?]; done).
  assert (ring hr <> []) as Hne0 by (intros E0; rewrite E0 in Hh; by apply elem_of_nil in Hh).
  rewrite (GetNode_nonempty _ _ Hne0).
  assert (successor (ring hr) (hashString key) h) as Hs0
    by (apply (successor_subset _ _ _ _ Hs); [|done]; intros y Hy; apply AddNode_ring; auto).
  rewrite (successor_unique _ _ _ _ (search_successor _ _ (ri_sorted _ Hinv) Hne0) Hs0).
  destruct (node_at_ring hr h Hinv Hh) as (id & n & Hid & Hn & _ & ->). rewrite Hid. cbn.
  rewrite lookup_insert_ne; [done|congruence].
Qed.

Lemma AddNode_minimal_disruption_witness :
  GetNode "call-1" (AddNode node_b ring_ab) = GetNode "call-1" ring_ab \/ GetNode "call-1" (AddNode node_b ring_ab) = Some node_b.
Proof. apply (AddNode_minimal_disruption (Some ring_config)). exact ring_ab_reachable. Defined.

(** *** Removal *)

Lemma size_list_to_set_le (l : list Z) : (size (list_to_set l : gset Z) <= length l)%nat.
Proof.
  induction l as [|x l IH]; cbn; [by rewrite size_empty|].
  destruct (decide (x ∈ (list_to_set l : gset Z))) as [Hin|Hin].
  - replace ({[x]} ∪ list_to_set l : gset Z) with (list_to_set l : gset Z) by set_solver. lia.
  - rewrite size_union by set_solver. rewrite size_singleton. lia.
Qed.

(** The positions of the node belong to it alone. *)
Definition unshared (hr : HashRing) (node : HashNode) : Prop :=
  forall h, h ∈ vhashes (hr_config hr) node -> ringNodes hr !! h = Some (ID node).

Lemma RemoveNode_total hr node nodeID :
  ring_inv hr -> nodes hr !! nodeID = Some node -> unshared hr node -> exists hr', RemoveNode nodeID hr = Ok hr'.
Proof.
  intros Hinv E Hu. unfold RemoveNode. rewrite E.
  assert ((fun i => hashKey nodeID (Z.of_nat i)) <$> seq 0 (replicas (hr_config hr) node) = vhashes (hr_config hr) node) as ->
    by (unfold vhashes; by rewrite (ri_id _ Hinv _ _ E)).
  assert (size (list_to_set (vhashes (hr_config hr) node) : gset Z) <= size (list_to_set (ring hr) : gset Z))%nat as H1.
  { apply subseteq_size. intros h. rewrite !elem_of_list_to_set. intros Hh. apply (ri_dom _ Hinv). rewrite Hu; eauto. }
  pose proof (size_list_to_set_le (ring hr)). cbn. destruct (_ <? 0) eqn:El; bool_prop; [lia|]. eauto.
Qed.

(** Removing a node disturbs only its own keys: when its positions are
    not shared with another node the removal succeeds, and every key another
    node served stays with that node. *)
Theorem RemoveNode_minimal_disruption c hr nodeID node key n :
  ring_reachable c hr -> nodes hr !! nodeID = Some node -> unshared hr node ->
  GetNode key hr = Some n -> ID n <> nodeID ->
  exists hr', RemoveNode nodeID hr = Ok hr' /\ GetNode key hr' = Some n.
Proof.
  intros Hinv%ring_reachable_inv E Hu Hk Hne.
  destruct (RemoveNode_total hr node nodeID Hinv E Hu) as [hr' Hr]. exists hr'. split; [done|].
  pose proof (RemoveNode_inv _ _ _ Hinv Hr) as Hinv'.
  destruct (RemoveNode_effect _ _ _ _ Hinv E Hr) as (_ & En & _ & _ & Hring & Hrn & _).
  assert (ring hr <> []) as Hne0 by (unfold GetNode in Hk; by destruct (ring hr)).
  rewrite (GetNode_nonempty _ _ Hne0) in Hk.
  pose proof (search_successor _ (hashString key) (ri_sorted _ Hinv) Hne0) as Hs. set (h := nth _ _ _) in *.
  destruct (node_at_ring hr h Hinv) as (id & n' & Hid & Hn & Hidn & Hat); [apply Hs|].
  assert (n' = n) as -> by congruence.
  assert (h ∉ vhashes (hr_config hr) node) as Hnv.
  { intros Hv%Hu. apply Hne. rewrite (ri_id _ Hinv _ _ E) in Hv. congruence. }
  assert (h ∈ ring hr') as Hh by (apply Hring; split; [apply Hs|done]).
  assert (ring hr' <> []) as Hne' by (intros E0; rewrite E0 in Hh; by apply elem_of_nil in Hh).
  assert (successor (ring hr') (hashString key) h) as Hs'
    by (apply (successor_subset _ _ _ _ Hs); [|done]; intros y Hy; by apply Hring).
  rewrite (GetNode_nonempty _ _ Hne'), (successor_unique _ _ _ _ (search_successor _ _ (ri_sorted _ Hinv') Hne') Hs').
  unfold node_at. rewrite Hrn, bool_decide_false, Hid, En by done. cbn. rewrite lookup_delete_ne; [done|congruence].
Qed.

Lemma RemoveNode_minimal_disruption_witness :
  exists key n hr', GetNode key ring_ab = Some n /\ RemoveNode "a" ring_ab = Ok hr' /\ GetNode key hr' = Some n.
Proof.
  exists "call-2", node_b.
  destruct (RemoveNode_minimal_disruption (Some ring_config) ring_ab "a" node_a "call-2" node_b) as (hr' & H1 & H2).
  - exact ring_ab_reachable.
  - vm_compute. reflexivity.
  - intros h Hh. apply list_elem_of_In in Hh. vm_compute in Hh. destruct Hh as [<-|[<-|[]]]; vm_compute; reflexivity.
  - vm_compute. reflexivity.
  - discriminate.
  - exists hr'. split; [vm_compute; reflexivity|]. split; [exact H1|exact H2].
Defined.

Lemma filter_ring_length (va vb ring : list Z) :
  ring ≡ₚ va ++ vb -> NoDup vb -> (exists h, h ∈ va /\ h ∈ vb) ->
  (length (List.filter (fun h => negb (bool_decide (h ∈ (list_to_set va : gset Z)))) ring) < size (list_to_set vb : gset Z))%nat.
Proof.
  intros Hp Hnd (h & Ha & Hb). rewrite size_list_to_set by done. set (f := fun h => _).
  assert (forall l l', l ≡ₚ l' -> length (List.filter f l) = length (List.filter f l')) as Hlen.
  { induction 1; cbn; repeat case_match; cbn; congruence. }
  rewrite (Hlen _ _ Hp), List.filter_app, length_app.
  assert (List.filter f va = []) as ->.
  { apply elem_of_nil_inv. intros x [Hx Hf]%list_elem_of_In%filter_In.
    apply negb_true_iff, bool_decide_eq_false in Hf. apply Hf, elem_of_list_to_set. by apply list_elem_of_In. }
  apply list_elem_of_split in Hb as (l1 & l2 & ->). rewrite List.filter_app, !length_app. cbn [length List.filter].
  assert (f h = false) as -> by (apply negb_false_iff, bool_decide_eq_true; by apply elem_of_list_to_set).
  pose proof (filter_length_le f l1). pose proof (filter_length_le f l2). cbn. lia.
Qed.

(** Two nodes with a position in common make removal panic: when the
    only two nodes of a ring collide somewhere, removing the first takes the
    common position from the second too, and removing the second then asks for
    a slice of negative capacity. *)
Theorem RemoveNode_panics_on_collision c a b :
  ID a <> ID b -> NoDup (vhashes c b) -> (exists h, h ∈ vhashes c a /\ h ∈ vhashes c b) ->
  exists hr', RemoveNode (ID a) (AddNode b (AddNode a (NewHashRing (Some c)))) = Ok hr' /\ RemoveNode (ID b) hr' = Panic.
Proof.
  intros Hab Hnd Hsh. set (hr0 := NewHashRing (Some c)).
  destruct (AddNode_effect a hr0) as (Ec1 & En1 & _ & _ & Er1 & _); [done|]. set (hr1 := AddNode a hr0) in *.
  assert (nodes hr1 !! ID b = None) as Eb by (rewrite En1; by rewrite lookup_insert_ne).
  destruct (AddNode_effect b hr1 Eb) as (Ec2 & En2 & _ & _ & Er2 & _). set (hr2 := AddNode b hr1) in *.
  rewrite Ec1 in *. cbn in Ec2, Er1, Er2.
  assert (ring hr2 ≡ₚ vhashes c a ++ vhashes c b) as Hring by (by rewrite Er2, merge_sort_Permutation, Er1, merge_sort_Permutation).
  assert (nodes hr2 !! ID a = Some a) as Ea by (rewrite En2, En1, lookup_insert_ne by done; apply lookup_insert_eq).
  assert (ring_inv hr2) as Hinv by (apply AddNode_inv, AddNode_inv, NewHashRing_inv).
  assert (exists hr', RemoveNode (ID a) hr2 = Ok hr') as [hr' Hr].
  { unfold RemoveNode. rewrite Ea. cbn. destruct (_ <? 0) eqn:El; [|eauto]. bool_prop. exfalso.
    rewrite Ec2 in El. fold (vhashes c a) in El. rewrite Hring, length_app in El.
    pose proof (size_list_to_set_le (vhashes c a)). lia. }
  exists hr'. split; [done|]. destruct (RemoveNode_effect _ _ _ _ Hinv Ea Hr) as (Ec3 & En3 & _ & Er3 & _).
  unfold RemoveNode. rewrite En3, lookup_delete_ne, En2, lookup_insert_eq by done. cbn.
  rewrite Ec3, Ec2, Er3, Ec2. cbn. fold (vhashes c b).
  pose proof (filter_ring_length _ _ _ Hring Hnd Hsh).
  destruct (_ <? 0) eqn:El; [done|]. bool_prop. lia.
Qed.

Definition collide_config : ConsistentHashConfig := {| ReplicationFactor := 1; LoadFactor := lit 5 4 |}.
Definition collide_a : HashNode := mkNode "karl-3189" "" 0 true ∅.
Definition collide_b : HashNode := mkNode "karl-129351" "" 0 true ∅.

Lemma RemoveNode_panics_on_collision_witness :
  exists hr', RemoveNode "karl-3189" (AddNode collide_b (AddNode collide_a (NewHashRing (Some collide_config)))) = Ok hr' /\
    RemoveNode "karl-129351" hr' = Panic.
Proof.
  apply (RemoveNode_panics_on_collision collide_config collide_a collide_b).
  - discriminate.
  - apply (bool_decide_unpack _). vm_compute. exact I.
  - exists 2310078315. split; apply (bool_decide_unpack _); vm_compute; exact I.
Defined.

(** ** Load-aware lookup *)

Lemma rotated_ring hr idx h : h ∈ rotated hr idx -> h ∈ ring hr.
Proof.
  unfold rotated. intros (i & -> & Hi)%list_elem_of_fmap. apply list_elem_of_In, in_seq in Hi.
  apply nth_elem_of, Nat.mod_upper_bound. lia.
Qed.

Lemma suitable_spec hr max hashes :
  ring_inv hr -> (forall h, h ∈ hashes -> h ∈ ring hr) ->
  exists r, suitable hr max hashes = Ok r /\
    forall node, r = Some node -> nodes hr !! ID node = Some node /\ Healthy node = true /\ GetNodeLoad hr (ID node) < max.
Proof.
  intros Hinv. induction hashes as [|h hashes IH]; intros Hh; cbn; [by exists None|].
  destruct (node_at_ring hr h Hinv) as (id & node & H1 & H2 & H3 & _); [apply Hh; by left|].
  rewrite H1. cbn. rewrite H2. destruct (Healthy node && _) eqn:E.
  - eexists. split; [done|]. intros n [= <-]. bool_prop. subst id. by split_and!.
  - apply IH. intros. apply Hh. by right.
Qed.

Lemma GetNodeWithLoad_spec key order hr :
  ring_inv hr -> order ≡ₚ map_to_list (nodes hr) -> ring hr <> [] ->
  exists node, GetNodeWithLoad key order hr = Ok (Some node) /\ nodes hr !! ID node = Some node /\
    ((exists id n, nodes hr !! id = Some n /\ Healthy n = true) -> Healthy node = true).
Proof.
  intros Hinv Ho Hne. set (idx := search (ring hr) (hashString key)).
  assert (GetNodeWithLoad key order hr =
    obind (suitable hr (maxLoad hr) (rotated hr idx)) (fun found =>
      match found with
      | Some node => Ok (Some node)
      | None => match List.find (fun node => Healthy node) order.*2 with
                | Some node => Ok (Some node)
                | None => Ok (node_at hr (nth idx (ring hr) 0)) end end)) as ->
    by (unfold GetNodeWithLoad; by destruct (ring hr)).
  destruct (suitable_spec hr (maxLoad hr) (rotated hr idx) Hinv) as (r & -> & Hr); [apply rotated_ring|].
  cbn. destruct r as [node|].
  { destruct (Hr node eq_refl) as (H1 & H2 & _). eauto. }
  destruct (List.find _ _) as [node|] eqn:Ef.
  - apply find_some in Ef as [Hin Hh]. apply list_elem_of_In, list_elem_of_fmap in Hin as ([id n] & -> & Hin).
    rewrite Ho in Hin. apply elem_of_map_to_list in Hin. exists n. cbn in *.
    by rewrite (ri_id _ Hinv _ _ Hin).
  - destruct (node_at_ring hr (nth idx (ring hr) 0) Hinv) as (id & node & _ & Hn & Hid & ->);
      [by apply nth_elem_of, search_lt|].
    exists node. subst id. split_and!; [done..|]. intros (id & n & Hn' & Hh).
    assert (n ∈ order.*2) as Hin.
    { apply list_elem_of_fmap. exists (id, n). split; [done|]. rewrite Ho. by apply elem_of_map_to_list. }
    apply list_elem_of_In in Hin. pose proof (find_none _ _ Ef _ Hin). congruence.
Qed.

(** Load-aware lookup never fails on a ring with positions, and never
    picks a dead node over a live one: it returns a node of the ring without
    dereferencing nil, healthy whenever any node is, in whatever order the
    fallback walks the nodes. *)
Theorem GetNodeWithLoad_healthy c hr key order :
  ring_reachable c hr -> order ≡ₚ map_to_list (nodes hr) -> ring hr <> [] ->
  exists node, GetNodeWithLoad key order hr = Ok (Some node) /\ nodes hr !! ID node = Some node /\
    ((exists id n, nodes hr !! id = Some n /\ Healthy n = true) -> Healthy node = true).
Proof. intros Hinv%ring_reachable_inv Ho Hne. by apply GetNodeWithLoad_spec. Qed.

Lemma GetNodeWithLoad_healthy_witness :
  exists node, GetNodeWithLoad "call-1" (map_to_list (nodes (SetNodeHealth "a" false ring_ab))) (SetNodeHealth "a" false ring_ab) = Ok (Some node) /\
    Healthy node = true.
Proof.
  destruct (GetNodeWithLoad_healthy (Some ring_config) (SetNodeHealth "a" false ring_ab) "call-1"
    (map_to_list (nodes (SetNodeHealth "a" false ring_ab)))) as (node & H1 & _ & H2).
  - apply rr_health. exact ring_ab_reachable.
  - reflexivity.
  - intros E%(f_equal (@length Z)). vm_compute in E. discriminate.
  - exists node. split; [exact H1|]. apply H2. exists "b", node_b. split; vm_compute; reflexivity.
Defined.

(** ** Load accounting *)

(** The sessions a node serves. *)
Definition sessions_on (id : string) (m : gmap string string) : Z := Z.of_nat (size (filter (fun kv => kv.2 = id) m)).

Record router_inv (sr : SessionRouter) : Prop := {
  so_ring : ring_inv (sr_ring sr);
  so_node : forall s id, sticky sr !! s = Some id -> is_Some (nodes (sr_ring sr) !! id);
  so_load : forall id load, nodeLoad (sr_ring sr) !! id = Some load -> load = sessions_on id (sticky sr);
  so_total : totalLoad (sr_ring sr) = Z.of_nat (size (sticky sr));
}.

Lemma sessions_on_insert id s id' m :
  m !! s = None -> sessions_on id (<[s := id']> m) = sessions_on id m + (if decide (id' = id) then 1 else 0).
Proof.
  intros E. unfold sessions_on. case_decide as Ed.
  - rewrite map_filter_insert_True by done. rewrite map_size_insert_None; [lia|].
    apply map_lookup_filter_None. by left.
  - rewrite map_filter_insert_False by done. rewrite delete_id by done. lia.
Qed.

Lemma sessions_on_delete id s id' m :
  m !! s = Some id' -> sessions_on id (delete s m) = sessions_on id m - (if decide (id' = id) then 1 else 0).
Proof.
  intros E. rewrite <- (insert_delete_id m s id' E) at 2. rewrite sessions_on_insert by apply lookup_delete_eq. lia.
Qed.

Lemma sessions_on_none id m : (forall s, m !! s <> Some id) -> sessions_on id m = 0.
Proof.
  intros H. unfold sessions_on. replace (filter (fun kv => kv.2 = id) m) with (∅ : gmap string string); [by rewrite map_size_empty|].
  symmetry. apply map_empty. intros s. apply map_lookup_filter_None. right. intros x Hx Hid. cbn in Hid. subst. by apply (H s).
Qed.

Lemma sessions_on_bounds id m : 0 <= sessions_on id m <= Z.of_nat (size m).
Proof. unfold sessions_on. pose proof (map_size_filter (fun kv : string * string => kv.2 = id) m). lia. Qed.

(** One operation of the router. A session whose node is unhealthy is not
    routed again, and fewer than 2^62 sessions are under way. *)
Inductive router_step : SessionRouter -> SessionRouter -> Prop :=
| rs_add sr node : router_step sr (router_AddNode node sr)
| rs_remove sr nodeID sr' : Z.of_nat (size (sticky sr)) < 2 ^ 62 -> router_RemoveNode nodeID sr = Ok sr' -> router_step sr sr'
| rs_health sr nodeID b : router_step sr (router_SetNodeHealth nodeID b sr)
| rs_route sr sessionID order node sr' :
    order ≡ₚ map_to_list (nodes (sr_ring sr)) -> Z.of_nat (size (sticky sr)) < 2 ^ 62 ->
    (forall id, sticky sr !! sessionID = Some id -> exists n, nodes (sr_ring sr) !! id = Some n /\ Healthy n = true) ->
    RouteSession sessionID order sr = Ok (node, sr') -> router_step sr sr'
| rs_end sr sessionID :
    Z.of_nat (size (sticky sr)) < 2 ^ 62 -> router_step sr (EndSession sessionID sr).

Lemma router_AddNode_inv node sr : router_inv sr -> router_inv (router_AddNode node sr).
Proof.
  intros [Hr Hn Hl Ht]. destruct (nodes (sr_ring sr) !! ID node) eqn:E.
  { unfold router_AddNode. split; cbn; rewrite AddNode_present by (rewrite E; eauto); auto. }
  destruct (AddNode_effect node (sr_ring sr) E) as (_ & En & El & Et & _).
  split; cbn; rewrite ?En, ?El, ?Et; auto using AddNode_inv.
  - intros s id Hs%Hn. apply lookup_insert_is_Some'. auto.
  - intros id load. rewrite lookup_insert_Some. intros [[<- <-]|[_ H]]; [|by apply Hl].
    symmetry. apply sessions_on_none. intros s Hs%Hn. rewrite E in Hs. by destruct Hs.
Qed.

Lemma filter_other_sessions id nodeID (m : gmap string string) :
  id <> nodeID -> filter (fun kv => kv.2 = id) (filter (fun kv => kv.2 <> nodeID) m) = filter (fun kv : string * string => kv.2 = id) m.
Proof.
  intros Hne. apply map_eq. intros s. apply option_eq. intros x. rewrite !map_lookup_filter_Some. cbn. naive_solver.
Qed.

Lemma sessions_split nodeID (m : gmap string string) :
  Z.of_nat (size (filter (fun kv => kv.2 <> nodeID) m)) = Z.of_nat (size m) - sessions_on nodeID m.
Proof.
  induction m as [|s id m Hs IH] using map_ind; [done|].
  rewrite sessions_on_insert, map_size_insert_None by done. case_decide as E.
  - rewrite map_filter_insert_False by (cbn; naive_solver). rewrite delete_id by done. lia.
  - rewrite map_filter_insert_True by done. rewrite map_size_insert_None; [lia|]. apply map_lookup_filter_None. by left.
Qed.

Lemma router_RemoveNode_inv nodeID sr sr' :
  router_inv sr -> Z.of_nat (size (sticky sr)) < 2 ^ 62 -> router_RemoveNode nodeID sr = Ok sr' -> router_inv sr'.
Proof.
  intros [Hr Hn Hl Ht] Hb. unfold router_RemoveNode. destruct (RemoveNode nodeID (sr_ring sr)) as [hr'| | |] eqn:E; try done.
  cbn. intros [= <-]. destruct (nodes (sr_ring sr) !! nodeID) as [node|] eqn:En.
  - destruct (RemoveNode_effect _ _ _ _ Hr En E) as (_ & En' & El' & _ & _ & _ & Et'). split; cbn.
    + by apply (RemoveNode_inv nodeID (sr_ring sr)).
    + intros s id [Hs Hne]%map_lookup_filter_Some. cbn in Hne. rewrite En', lookup_delete_ne by done. eauto.
    + intros id load. rewrite El', lookup_delete_Some. intros [Hne H%Hl]. unfold sessions_on. by rewrite filter_other_sessions.
    + rewrite Et', Ht, sessions_split. destruct (ri_load _ Hr nodeID) as [_ [load H]]; [rewrite En; eauto|].
      rewrite H. cbn. rewrite (Hl _ _ H). pose proof (sessions_on_bounds nodeID (sticky sr)).
      apply wraps_id; unfold is_s; lia.
  - assert (hr' = sr_ring sr) as -> by (unfold RemoveNode in E; rewrite En in E; congruence).
    assert (filter (fun kv => kv.2 <> nodeID) (sticky sr) = sticky sr) as Hf.
    { apply map_filter_id. intros s id Hs%Hn. cbn. intros ->. rewrite En in Hs. by destruct Hs. }
    split; cbn; rewrite ?Hf; auto.
Qed.

Lemma router_SetNodeHealth_inv nodeID b sr : router_inv sr -> router_inv (router_SetNodeHealth nodeID b sr).
Proof.
  intros [Hr Hn Hl Ht]. split; cbn; auto using SetNodeHealth_inv.
  intros s id Hs%Hn. rewrite lookup_alter. case_decide; [|done]. subst. by apply fmap_is_Some.
Qed.

(** A session that was not routed yet gets a node of the ring, which counts it. *)
Lemma route_fresh sessionID node sr :
  router_inv sr -> Z.of_nat (size (sticky sr)) < 2 ^ 62 -> sticky sr !! sessionID = None ->
  nodes (sr_ring sr) !! ID node = Some node ->
  router_inv (sr <| sticky ::= <[sessionID := ID node]> |> <| sr_ring ::= IncrementLoad (ID node) |>).
Proof.
  intros [Hr Hn Hl Ht] Hb Hs Hnode. destruct (ri_load _ Hr (ID node)) as [_ [load Hload]]; [rewrite Hnode; eauto|].
  pose proof (IncrementLoad_inv (ID node) _ Hr) as Hr'. unfold IncrementLoad in *. rewrite Hload in *. cbn.
  pose proof (sessions_on_bounds (ID node) (sticky sr)). pose proof (Hl _ _ Hload).
  split; cbn; rewrite ?Hload; cbn; auto.
  - intros s id. rewrite lookup_insert_Some. intros [[<- <-]|[_ H']]; [rewrite Hnode; eauto|eauto].
  - intros id l. rewrite sessions_on_insert by done. rewrite lookup_insert_Some. intros [[<- <-]|[Hne H'%Hl]].
    + rewrite decide_True by done. rewrite wraps_id by (unfold is_s; lia). lia.
    + rewrite decide_False by done. lia.
  - rewrite map_size_insert_None, Ht by done. rewrite wraps_id by (unfold is_s; lia). lia.
Qed.

Lemma RouteSession_inv sessionID order node sr sr' :
  router_inv sr -> order ≡ₚ map_to_list (nodes (sr_ring sr)) -> Z.of_nat (size (sticky sr)) < 2 ^ 62 ->
  (forall id, sticky sr !! sessionID = Some id -> exists n, nodes (sr_ring sr) !! id = Some n /\ Healthy n = true) ->
  RouteSession sessionID order sr = Ok (node, sr') -> router_inv sr'.
Proof.
  intros Hinv Ho Hb Hh. unfold RouteSession. destruct (sticky sr !! sessionID) as [id|] eqn:Es.
  - destruct (Hh id eq_refl) as (n & Hn & Hhn). destruct (List.find _ _) as [m|] eqn:Ef; [by intros [= <- <-]|].
    assert (n ∈ order.*2) as Hin.
    { apply list_elem_of_fmap. exists (id, n). split; [done|]. rewrite Ho. by apply elem_of_map_to_list. }
    apply list_elem_of_In in Hin. pose proof (find_none _ _ Ef _ Hin) as Hf. cbn in Hf.
    rewrite (ri_id _ (so_ring _ Hinv) _ _ Hn), bool_decide_true, Hhn in Hf; done.
  - destruct (decide (ring (sr_ring sr) = [])) as [Hnil|Hne].
    { unfold GetNodeWithLoad. rewrite Hnil. cbn. by intros [= <- <-]. }
    destruct (GetNodeWithLoad_spec sessionID order (sr_ring sr)) as (n & -> & Hn & _); [apply Hinv|done..|].
    cbn. intros [= <- <-]. by apply route_fresh.
Qed.

Lemma EndSession_inv sessionID sr :
  router_inv sr -> Z.of_nat (size (sticky sr)) < 2 ^ 62 -> router_inv (EndSession sessionID sr).
Proof.
  intros Hinv Hb. pose proof Hinv as [Hr Hn Hl Ht]. unfold EndSession. destruct (sticky sr !! sessionID) as [id|] eqn:Es.
  2:{ split; cbn; rewrite ?(delete_id _ _ Es); auto. }
  destruct (ri_load _ Hr id) as [_ [load Hload]]; [eauto|].
  pose proof (Hl _ _ Hload) as El. pose proof (sessions_on_bounds id (sticky sr)).
  assert (0 < load) as Hpos.
  { pose proof (sessions_on_delete id sessionID id (sticky sr) Es) as Hd. rewrite decide_True in Hd by done.
    pose proof (sessions_on_bounds id (delete sessionID (sticky sr))). lia. }
  pose proof (DecrementLoad_inv id _ Hr) as Hr'.
  split; cbn; [done|..]; unfold DecrementLoad in *; rewrite Hload; destruct (load >? 0) eqn:Eg; bool_prop; try lia; cbn.
  - intros s i [_ Hs]%lookup_delete_Some. eauto.
  - intros i l. rewrite (sessions_on_delete _ _ id) by done. rewrite lookup_insert_Some. intros [[<- <-]|[Hne H'%Hl]].
    + rewrite decide_True by done. rewrite wraps_id by (unfold is_s; lia). lia.
    + rewrite decide_False by done. lia.
  - rewrite map_size_delete_Some, Ht by (by exists id). rewrite wraps_id by (unfold is_s; lia).
    assert (size (sticky sr) <> 0%nat) by (intros E0%map_size_empty_inv; rewrite E0, lookup_empty in Es; done). lia.
Qed.

Lemma NewSessionRouter_inv c : router_inv (NewSessionRouter c).
Proof.
  split; cbn; auto using NewHashRing_inv.
  - intros s id. by rewrite lookup_empty.
  - intros id l. by rewrite lookup_empty.
Qed.

#[export] Hint Resolve NewSessionRouter_inv router_AddNode_inv router_RemoveNode_inv router_SetNodeHealth_inv
  RouteSession_inv EndSession_inv : karl.

Lemma router_step_inv sr sr' : router_step sr sr' -> router_inv sr -> router_inv sr'.
Proof. destruct 1; intros Hinv; eauto with karl. Qed.

(** The load counters are exact: as long as no session is routed again
    because its node failed, every node's counter is the number of sessions
    bound to it and the ring's total is the number of sessions, so no counter
    is lost or left behind by routing, ending sessions, and adding or removing
    nodes. *)
Theorem router_load_exact c sr :
  rtc router_step (NewSessionRouter c) sr ->
  (forall id load, nodeLoad (sr_ring sr) !! id = Some load -> load = sessions_on id (sticky sr)) /\
  totalLoad (sr_ring sr) = Z.of_nat (size (sticky sr)).
Proof.
  intros Hr. enough (router_inv sr) as [_ _ Hl Ht] by auto.
  pose proof (NewSessionRouter_inv c) as H0. induction Hr; eauto using router_step_inv.
Qed.

Definition router_a : SessionRouter := router_AddNode node_a (NewSessionRouter (Some ring_config)).
Lemma router_load_exact_witness :
  totalLoad (sr_ring (EndSession "s" router_a)) = Z.of_nat (size (sticky (EndSession "s" router_a))).
Proof.
  apply (router_load_exact (Some ring_config)).
  eapply rtc_l; [apply (rs_add _ node_a)|]. eapply rtc_l; [apply (rs_end _ "s"); vm_compute; reflexivity|]. apply rtc_refl.
Defined.

(** A session moved off a failed node is never taken off that node's
    load: when the counters are exact and a bound session is routed to another
    node, ending the session leaves the old node's counter one above the
    sessions it has. *)
Theorem reroute_leaks_load sr sessionID order old node sr' :
  router_inv sr -> sticky sr !! sessionID = Some old -> Z.of_nat (size (sticky sr)) < 2 ^ 62 ->
  RouteSession sessionID order sr = Ok (Some node, sr') -> ID node <> old ->
  let sr'' := EndSession sessionID sr' in
  nodeLoad (sr_ring sr'') !! old = Some (sessions_on old (sticky sr'') + 1).
Proof.
  intros Hinv Hs Hb Hroute Hne. destruct (ri_load _ (so_ring _ Hinv) old) as [_ [load Hload]]; [by apply (so_node _ Hinv sessionID)|].
  pose proof (so_load _ Hinv _ _ Hload) as El. unfold RouteSession in Hroute. rewrite Hs in Hroute.
  destruct (List.find _ _) as [m|] eqn:Ef.
  { apply find_some in Ef as [_ Hf]. bool_prop. congruence. }
  destruct (GetNodeWithLoad _ _ _) as [[n|]| | |]; try done. injection Hroute as -> <-. cbn.
  unfold EndSession. cbn. rewrite lookup_insert_eq. cbn. rewrite delete_insert_eq.
  pose proof (sessions_on_delete old sessionID old (sticky sr) Hs) as Hd. rewrite decide_True in Hd by done. rewrite Hd.
  assert (nodeLoad (IncrementLoad (ID node) (sr_ring sr)) !! old = Some load) as Hi.
  { unfold IncrementLoad. case_match; [|done]. cbn. by rewrite lookup_insert_ne. }
  unfold DecrementLoad. repeat case_match; cbn; rewrite ?lookup_insert_ne by done; rewrite Hi; f_equal; lia.
Qed.

(** The session [s] is routed to node [b], which then fails. *)
Definition router_ab0 : SessionRouter := router_AddNode node_b router_a.
Definition router_ab1 : SessionRouter :=
  match RouteSession "s" (map_to_list (nodes (sr_ring router_ab0))) router_ab0 with Ok (_, sr) => sr | _ => router_ab0 end.
Definition router_ab : SessionRouter := router_SetNodeHealth "b" false router_ab1.
Lemma router_ab_inv : router_inv router_ab.
Proof.
  apply router_SetNodeHealth_inv. apply (RouteSession_inv "s" (map_to_list (nodes (sr_ring router_ab0))) (Some node_b) router_ab0).
  - apply router_AddNode_inv, router_AddNode_inv, NewSessionRouter_inv.
  - done.
  - vm_compute. reflexivity.
  - intros id Hid. vm_compute in Hid. discriminate.
  - vm_compute. reflexivity.
Qed.
Lemma router_ab_moves :
  exists sr', RouteSession "s" (map_to_list (nodes (sr_ring router_ab))) router_ab = Ok (Some node_a, sr').
Proof. eexists. vm_compute. reflexivity. Qed.

Lemma reroute_leaks_load_witness :
  exists sr', RouteSession "s" (map_to_list (nodes (sr_ring router_ab))) router_ab = Ok (Some node_a, sr') /\
    nodeLoad (sr_ring (EndSession "s" sr')) !! "b" = Some (sessions_on "b" (sticky (EndSession "s" sr')) + 1).
Proof.
  destruct router_ab_moves as [sr' Hr]. exists sr'. split; [exact Hr|].
  apply (reroute_leaks_load router_ab "s" (map_to_list (nodes (sr_ring router_ab))) "b" node_a);
    [exact router_ab_inv | vm_compute; reflexivity | vm_compute; reflexivity | exact Hr | discriminate].
Defined.

(** ** Rendezvous hashing *)

Lemma heavier_fold key nodes best :
  (forall n w, best = Some (n, w) -> w = computeWeight key (ID n) /\ Healthy n = true) ->
  match foldl (heavier key) best nodes with
  | Some (n, w) =>
      w = computeWeight key (ID n) /\ Healthy n = true /\
      (best = Some (n, w) \/ n ∈ nodes) /\
      (forall n' w', best = Some (n', w') -> w' <= w) /\
      (forall n', n' ∈ nodes -> Healthy n' = true -> computeWeight key (ID n') <= w)
  | None => best = None /\ forall n', n' ∈ nodes -> Healthy n' = false
  end.
Proof.
  revert best. induction nodes as [|x nodes IH]; intros best Hb; cbn [foldl].
  { destruct best as [[n w]|]; [|split; [done|by intros ? ?%elem_of_nil]].
    destruct (Hb n w eq_refl). split_and!; auto; [by intros n' w' [= <- <-]|by intros ? ?%elem_of_nil]. }
  assert (forall n w, heavier key best x = Some (n, w) -> w = computeWeight key (ID n) /\ Healthy n = true) as Hb'.
  { intros n w. unfold heavier. destruct (Healthy x) eqn:E; cbn; [|by apply Hb].
    destruct best as [[n0 w0]|]; [case_match; [by intros [= <- <-]|by apply Hb]|by intros [= <- <-]]. }
  assert ((heavier key best x = best \/ heavier key best x = Some (x, computeWeight key (ID x))) /\
    (forall n w, best = Some (n, w) -> exists n' w', heavier key best x = Some (n', w') /\ w <= w') /\
    (Healthy x = true -> exists n' w', heavier key best x = Some (n', w') /\ computeWeight key (ID x) <= w')) as (H1 & H2 & H3).
  { unfold heavier. destruct (Healthy x); cbn.
    2:{ split_and!; [by left| |done]. intros n w ->. by exists n, w. }
    destruct best as [[n0 w0]|].
    2:{ split_and!; [by right|done|]. intros _. by exists x, (computeWeight key (ID x)). }
    destruct (Z.gtb_spec (computeWeight key (ID x)) w0).
    - split_and!; [by right| |]; [intros n w [= <- <-]|intros _];
        (exists x, (computeWeight key (ID x)); split; [done|lia]).
    - split_and!; [by left| |]; [intros n w [= <- <-]|intros _]; (exists n0, w0; split; [done|lia]). }
  specialize (IH (heavier key best x) Hb'). destruct (foldl _ _ nodes) as [[n w]|].
  - destruct IH as (Hw & Hh & Hin & Hge & Hall). split_and!; auto.
    + rewrite elem_of_cons. destruct Hin as [Hin|Hin]; [|auto]. destruct H1 as [H1|H1]; rewrite H1 in Hin; naive_solver.
    + intros n' w' E. destruct (H2 _ _ E) as (n2 & w2 & E2 & Hle). specialize (Hge _ _ E2). lia.
    + intros n' [->|Hn']%elem_of_cons Hhn; [|by apply Hall]. destruct (H3 Hhn) as (n2 & w2 & E2 & Hle). specialize (Hge _ _ E2). lia.
  - destruct IH as [Hnone Hall]. split.
    + destruct best as [[n w]|]; [|done]. destruct (H2 n w eq_refl) as (? & ? & E & _). congruence.
    + intros n' [->|Hn']%elem_of_cons; [|by apply Hall]. destruct (Healthy x) eqn:E; [|done].
      destruct (H3 eq_refl) as (? & ? & E' & _). congruence.
Qed.

(** The rendezvous hash returns a healthy node of the highest weight for
    the key, in whatever order the nodes are walked, and none only when no node
    is healthy; removing any other node leaves the choice a highest-weight
    one. *)
Theorem rh_GetNode_heaviest key rh order removed :
  order ≡ₚ map_to_list rh ->
  match rh_GetNode key order with
  | Some node =>
      Healthy node = true /\ (exists id, rh !! id = Some node) /\
      (forall id n, rh !! id = Some n -> Healthy n = true -> computeWeight key (ID n) <= computeWeight key (ID node)) /\
      (forall id n, rh_RemoveNode removed rh !! id = Some n -> Healthy n = true -> computeWeight key (ID n) <= computeWeight key (ID node))
  | None => forall id n, rh !! id = Some n -> Healthy n = false
  end.
Proof.
  intros Ho. unfold rh_GetNode. pose proof (heavier_fold key order.*2 None ltac:(done)) as H.
  assert (forall id n, rh !! id = Some n -> n ∈ order.*2) as Hin.
  { intros id n Hn. apply list_elem_of_fmap. exists (id, n). split; [done|]. rewrite Ho. by apply elem_of_map_to_list. }
  destruct (foldl _ _ _) as [[node w]|]; cbn.
  - destruct H as (-> & Hh & [|Hn] & _ & Hall); [done|]. split_and!; eauto.
    + apply list_elem_of_fmap in Hn as ([id n] & -> & Hn). rewrite Ho in Hn. exists id. by apply elem_of_map_to_list.
    + intros id n Hn'. unfold rh_RemoveNode in Hn'. apply lookup_delete_Some in Hn' as [_ Hn']. eauto.
  - destruct H as [_ Hall]. eauto.
Qed.

Lemma rh_GetNode_heaviest_witness :
  match rh_GetNode "call-1" (map_to_list (rh_AddNode node_b (rh_AddNode node_a ∅))) with
  | Some node => Healthy node = true
  | None => False
  end.
Proof.
  pose proof (rh_GetNode_heaviest "call-1" (rh_AddNode node_b (rh_AddNode node_a ∅))
    (map_to_list (rh_AddNode node_b (rh_AddNode node_a ∅))) "z" (Permutation_refl _)) as H.
  destruct (rh_GetNode _ _); [exact (proj1 H)|].
  specialize (H "a" node_a ltac:(vm_compute; reflexivity)). vm_compute in H. discriminate.
Defined.
