(* ===== verification/Fec.v ===== *)
(** * Forward error correction

    Models src/internal/fec_handler.go: grouping media packets into blocks
    protected by one XOR packet, recovering a lost packet from the others, the
    windows of received packets and pending blocks, the adaptive block size and
    the wire format of the XOR packet. Counters exported to Prometheus are left
    out; a [range] over a map takes the order it walks as an argument. *)

From Stdlib Require Import ZArith Lia Permutation.
From stdpp Require Import base numbers list gmap.
From S2P Require Import Prelude GoFloat Bytes.

Local Open Scope Z_scope.
Local Open Scope go_scope.
#[local] Set Warnings "-clear-no-such-hyp".
#[local] Arguments wraps : simpl never.
#[local] Arguments wrapu : simpl never.

Inductive fec_error := ErrInvalidPacket.

Record FECConfig := mkFECConfig {
  Enabled : bool;
  BlockSize : Z;
  Redundancy : float64;
  AdaptiveMode : bool;
  MaxRedundancy : float64;
  MinRedundancy : float64 }.
#[export] Instance set_Enabled : Setter Enabled := fun f r =>
  mkFECConfig (f (Enabled r)) (BlockSize r) (Redundancy r) (AdaptiveMode r) (MaxRedundancy r) (MinRedundancy r).
#[export] Instance set_BlockSize : Setter BlockSize := fun f r =>
  mkFECConfig (Enabled r) (f (BlockSize r)) (Redundancy r) (AdaptiveMode r) (MaxRedundancy r) (MinRedundancy r).
#[export] Instance set_Redundancy : Setter Redundancy := fun f r =>
  mkFECConfig (Enabled r) (BlockSize r) (f (Redundancy r)) (AdaptiveMode r) (MaxRedundancy r) (MinRedundancy r).
#[export] Instance set_AdaptiveMode : Setter AdaptiveMode := fun f r =>
  mkFECConfig (Enabled r) (BlockSize r) (Redundancy r) (f (AdaptiveMode r)) (MaxRedundancy r) (MinRedundancy r).
#[export] Instance set_MaxRedundancy : Setter MaxRedundancy := fun f r =>
  mkFECConfig (Enabled r) (BlockSize r) (Redundancy r) (AdaptiveMode r) (f (MaxRedundancy r)) (MinRedundancy r).
#[export] Instance set_MinRedundancy : Setter MinRedundancy := fun f r =>
  mkFECConfig (Enabled r) (BlockSize r) (Redundancy r) (AdaptiveMode r) (MaxRedundancy r) (f (MinRedundancy r)).

Definition DefaultFECConfig : FECConfig :=
  {| Enabled := true; BlockSize := 48; Redundancy := lit 30 100; AdaptiveMode := true;
     MaxRedundancy := lit 50 100; MinRedundancy := lit 10 100 |}.

Record FECPacket := mkFEC {
  SequenceBase : Z;
  ProtectedSeq : list Z;
  PayloadXOR : list Z;
  LengthXOR : Z;
  TimestampXOR : Z;
  PTMarkerXOR : Z }.

Record RTPPacketData := mkRTP {
  SequenceNumber : Z;
  Timestamp : Z;
  PayloadType : Z;
  Marker : bool;
  Payload : list Z }.
#[export] Instance RTPPacketData_eq_dec : EqDecision RTPPacketData.
Proof. solve_decision. Defined.

Record FECDecodingBlock := mkBlock {
  block_fec : FECPacket;
  ReceivedPackets : gmap Z RTPPacketData;
  MissingPackets : list Z;
  Complete : bool }.

Record FECHandler := mkHandler {
  h_config : FECConfig;
  encodingBlock : list RTPPacketData;
  encodingBlockSeq : Z;
  fecSeqNum : Z;
  decodingBlocks : gmap Z FECDecodingBlock;
  receivedPackets : gmap Z RTPPacketData;
  lossHistory : list float64;
  currentLossRate : float64 }.
#[export] Instance set_block_fec : Setter block_fec := fun f r =>
  mkBlock (f (block_fec r)) (ReceivedPackets r) (MissingPackets r) (Complete r).
#[export] Instance set_ReceivedPackets : Setter ReceivedPackets := fun f r =>
  mkBlock (block_fec r) (f (ReceivedPackets r)) (MissingPackets r) (Complete r).
#[export] Instance set_MissingPackets : Setter MissingPackets := fun f r =>
  mkBlock (block_fec r) (ReceivedPackets r) (f (MissingPackets r)) (Complete r).
#[export] Instance set_Complete : Setter Complete := fun f r =>
  mkBlock (block_fec r) (ReceivedPackets r) (MissingPackets r) (f (Complete r)).
#[export] Instance set_h_config : Setter h_config := fun f r =>
  mkHandler (f (h_config r)) (encodingBlock r) (encodingBlockSeq r) (fecSeqNum r) (decodingBlocks r) (receivedPackets r) (lossHistory r) (currentLossRate r).
#[export] Instance set_encodingBlock : Setter encodingBlock := fun f r =>
  mkHandler (h_config r) (f (encodingBlock r)) (encodingBlockSeq r) (fecSeqNum r) (decodingBlocks r) (receivedPackets r) (lossHistory r) (currentLossRate r).
#[export] Instance set_encodingBlockSeq : Setter encodingBlockSeq := fun f r =>
  mkHandler (h_config r) (encodingBlock r) (f (encodingBlockSeq r)) (fecSeqNum r) (decodingBlocks r) (receivedPackets r) (lossHistory r) (currentLossRate r).
#[export] Instance set_fecSeqNum : Setter fecSeqNum := fun f r =>
  mkHandler (h_config r) (encodingBlock r) (encodingBlockSeq r) (f (fecSeqNum r)) (decodingBlocks r) (receivedPackets r) (lossHistory r) (currentLossRate r).
#[export] Instance set_decodingBlocks : Setter decodingBlocks := fun f r =>
  mkHandler (h_config r) (encodingBlock r) (encodingBlockSeq r) (fecSeqNum r) (f (decodingBlocks r)) (receivedPackets r) (lossHistory r) (currentLossRate r).
#[export] Instance set_receivedPackets : Setter receivedPackets := fun f r =>
  mkHandler (h_config r) (encodingBlock r) (encodingBlockSeq r) (fecSeqNum r) (decodingBlocks r) (f (receivedPackets r)) (lossHistory r) (currentLossRate r).
#[export] Instance set_lossHistory : Setter lossHistory := fun f r =>
  mkHandler (h_config r) (encodingBlock r) (encodingBlockSeq r) (fecSeqNum r) (decodingBlocks r) (receivedPackets r) (f (lossHistory r)) (currentLossRate r).
#[export] Instance set_currentLossRate : Setter currentLossRate := fun f r =>
  mkHandler (h_config r) (encodingBlock r) (encodingBlockSeq r) (fecSeqNum r) (decodingBlocks r) (receivedPackets r) (lossHistory r) (f (currentLossRate r)).

(** A negative block size panics in [make]. *)
Definition NewFECHandler (config : option FECConfig) : outcome fec_error FECHandler :=
  let config := default DefaultFECConfig config in
  if BlockSize config <? 0 then Panic
  else Ok {| h_config := config; encodingBlock := []; encodingBlockSeq := 0; fecSeqNum := 0;
       decodingBlocks := ∅; receivedPackets := ∅; lossHistory := []; currentLossRate := of_int 0 |}.

(** ** Encoding *)

Definition ptMarker (pkt : RTPPacketData) : Z :=
  if Marker pkt then Z.lor (PayloadType pkt) 0x80 else PayloadType pkt.

(** [for j := range p { acc[j] ^= p[j] }], as far as [acc] reaches. *)
Fixpoint xor_bytes (acc p : list Z) : list Z :=
  match acc, p with
  | a :: acc, b :: p => Z.lxor a b :: xor_bytes acc p
  | _, _ => acc
  end.

(** One round of the loop that XORs all packets together. *)
Definition xor_packet (fec : FECPacket) (pkt : RTPPacketData) : FECPacket :=
  {| SequenceBase := SequenceBase fec;
     ProtectedSeq := ProtectedSeq fec ++ [SequenceNumber pkt];
     PayloadXOR := xor_bytes (PayloadXOR fec) (Payload pkt);
     LengthXOR := Z.lxor (LengthXOR fec) (u16 (Z.of_nat (length (Payload pkt))));
     TimestampXOR := Z.lxor (TimestampXOR fec) (Timestamp pkt);
     PTMarkerXOR := Z.lxor (PTMarkerXOR fec) (ptMarker pkt) |}.

Definition maxPayload (block : list RTPPacketData) : nat :=
  foldl (fun m pkt => if (m <? length (Payload pkt))%nat then length (Payload pkt) else m) 0%nat block.

Definition generateFECPacket (h : FECHandler) : option FECPacket * FECHandler :=
  match encodingBlock h with
  | [] => (None, h)
  | block =>
      let fec := {| SequenceBase := encodingBlockSeq h; ProtectedSeq := [];
                    PayloadXOR := replicate (maxPayload block) 0;
                    LengthXOR := 0; TimestampXOR := 0; PTMarkerXOR := 0 |} in
      (Some (foldl xor_packet fec block), h <| fecSeqNum ::= fun n => u16 (n + 1) |>)
  end.

Definition AddMediaPacket (pkt : RTPPacketData) (h : FECHandler) : outcome fec_error (option FECPacket * FECHandler) :=
  if negb (Enabled (h_config h)) then Ok (None, h)
  else
    let h := match encodingBlock h with [] => h <| encodingBlockSeq := SequenceNumber pkt |> | _ => h end in
    let h := h <| encodingBlock ::= fun b => b ++ [pkt] |> in
    if BlockSize (h_config h) <=? Z.of_nat (length (encodingBlock h)) then
      let '(fecPkt, h) := generateFECPacket h in
      if BlockSize (h_config h) <? 0 then Panic
      else Ok (fecPkt, h <| encodingBlock := [] |>)
    else Ok (None, h).

(** ** Decoding *)

(** The four values recovery threads through the received packets. *)
Definition recover_step (acc : list Z * Z * Z * Z) (pkt : RTPPacketData) : list Z * Z * Z * Z :=
  let '(payload, len, ts, ptm) := acc in
  (xor_bytes payload (Payload pkt), Z.lxor len (u16 (Z.of_nat (length (Payload pkt)))),
   Z.lxor ts (Timestamp pkt), Z.lxor ptm (ptMarker pkt)).

(** Slicing the recovered payload beyond its capacity panics. *)
Definition tryRecoverPackets (block : FECDecodingBlock) (order : list (Z * RTPPacketData)) (h : FECHandler)
    : outcome fec_error (list RTPPacketData * FECDecodingBlock * FECHandler) :=
  match MissingPackets block with
  | [missingSeq] =>
      let fec := block_fec block in
      let others := (List.filter (fun kv => negb (kv.1 =? missingSeq)) order).*2 in
      let '(payload, len, ts, ptm) :=
        foldl recover_step (PayloadXOR fec, LengthXOR fec, TimestampXOR fec, PTMarkerXOR fec) others in
      if Z.of_nat (length payload) <? len then Panic
      else
        let recoveredPkt := {| SequenceNumber := missingSeq; Timestamp := ts; PayloadType := Z.land ptm 0x7F;
                               Marker := negb (Z.land ptm 0x80 =? 0); Payload := take (Z.to_nat len) payload |} in
        Ok ([recoveredPkt],
            block <| ReceivedPackets ::= <[missingSeq := recoveredPkt]> |> <| MissingPackets := [] |> <| Complete := true |>,
            h <| receivedPackets ::= <[missingSeq := recoveredPkt]> |>)
  | _ => Ok ([], block, h)
  end.

(** Sorts the sequence numbers into the packets that are here and the numbers
    that are not. *)
Definition sort_received (received : gmap Z RTPPacketData) (seqs : list Z) (block : gmap Z RTPPacketData) : gmap Z RTPPacketData * list Z :=
  foldl (fun '(have, missing) seq =>
    match received !! seq with
    | Some pkt => (<[seq := pkt]> have, missing)
    | None => (have, missing ++ [seq])
    end) (block, []) seqs.

(** [order] is the order recovery walks the block's packets in. *)
Definition ReceiveFECPacket (fec : option FECPacket) (order : list (Z * RTPPacketData)) (h : FECHandler)
    : outcome fec_error (list RTPPacketData * FECHandler) :=
  if negb (Enabled (h_config h)) then Ok ([], h)
  else
    match fec with
    | None => Ok ([], h)
    | Some fec =>
        let '(have, missing) := sort_received (receivedPackets h) (ProtectedSeq fec) ∅ in
        let block := {| block_fec := fec; ReceivedPackets := have; MissingPackets := missing; Complete := false |} in
        let! (pkts, block, h) := tryRecoverPackets block order h in
        Ok (pkts, h <| decodingBlocks ::= <[SequenceBase fec := block]> |>)
    end.

Definition seqDistance (a b : Z) : Z :=
  if a <=? b then u16 (b - a) else u16 (u32 (u32 (65536 - a) + b)).

Definition cleanupOldPackets (currentSeq : Z) (h : FECHandler) : FECHandler :=
  h <| receivedPackets ::= filter (fun kv => seqDistance kv.1 currentSeq <= 256) |>.

(** One block of [tryCompleteBlocks]: [order] is the order its packets would
    be walked in. *)
Definition complete_block (newSeq : Z) (h : FECHandler) (baseSeq : Z) (order : list (Z * RTPPacketData)) : outcome fec_error FECHandler :=
  match decodingBlocks h !! baseSeq with
  | None => Ok h
  | Some block =>
      if Complete block then Ok h
      else
        let '(have, newMissing) := sort_received (receivedPackets h) (MissingPackets block) (ReceivedPackets block) in
        let block := block <| ReceivedPackets := have |> <| MissingPackets := newMissing |> in
        let! (block, h) :=
          match newMissing with
          | [_] => let! (_, block, h) := tryRecoverPackets block order h in Ok (block, h)
          | [] => Ok (block <| Complete := true |>, h)
          | _ => Ok (block, h)
          end in
        let h := h <| decodingBlocks ::= <[baseSeq := block]> |> in
        Ok (if 256 <? seqDistance baseSeq newSeq then h <| decodingBlocks ::= delete baseSeq |> else h)
  end.

(** [order] lists the pending blocks in the order they are walked, each with
    the order of its packets. *)
Fixpoint tryCompleteBlocks (newSeq : Z) (order : list (Z * list (Z * RTPPacketData))) (h : FECHandler) : outcome fec_error FECHandler :=
  match order with
  | [] => Ok h
  | (baseSeq, pkts) :: order =>
      let! h := complete_block newSeq h baseSeq pkts in
      tryCompleteBlocks newSeq order h
  end.

Definition ReceiveMediaPacket (pkt : RTPPacketData) (order : list (Z * list (Z * RTPPacketData))) (h : FECHandler) : outcome fec_error FECHandler :=
  let h := h <| receivedPackets ::= <[SequenceNumber pkt := pkt]> |> in
  let h := cleanupOldPackets (SequenceNumber pkt) h in
  tryCompleteBlocks (SequenceNumber pkt) order h.

(** ** Adaptive redundancy *)

Definition adjustRedundancy (h : FECHandler) : FECHandler :=
  if (length (lossHistory h) <? 10)%nat then h
  else
    let c := h_config h in
    let avgLoss := fdiv (foldl fadd (of_int 0) (lossHistory h)) (of_int (Z.of_nat (length (lossHistory h)))) in
    let target := fadd (MinRedundancy c) (fmul avgLoss (fsub (MaxRedundancy c) (MinRedundancy c))) in
    let target := if flt target (MinRedundancy c) then MinRedundancy c else target in
    let target := if flt (MaxRedundancy c) target then MaxRedundancy c else target in
    let newBlockSize := to_int64 (fdiv (of_int 1) target) in
    let newBlockSize := if newBlockSize <? 2 then 2 else newBlockSize in
    let newBlockSize := if newBlockSize >? 100 then 100 else newBlockSize in
    h <| h_config ::= fun c => c <| BlockSize := newBlockSize |> <| Redundancy := target |> |>.

Definition UpdateLossRate (lossRate : float64) (h : FECHandler) : FECHandler :=
  let h := h <| currentLossRate := lossRate |> <| lossHistory ::= fun l => l ++ [lossRate] |> in
  let h := if (100 <? length (lossHistory h))%nat then h <| lossHistory ::= tail |> else h in
  if AdaptiveMode (h_config h) then adjustRedundancy h else h.

Definition SetEnabled (enabled : bool) (h : FECHandler) : FECHandler :=
  h <| h_config ::= fun c => c <| Enabled := enabled |> |>.

Definition SetBlockSize (blockSize : Z) (h : FECHandler) : FECHandler :=
  let blockSize := if blockSize <? 2 then 2 else blockSize in
  let blockSize := if blockSize >? 100 then 100 else blockSize in
  h <| h_config ::= fun c => c <| BlockSize := blockSize |> <| Redundancy := fdiv (of_int 1) (of_int blockSize) |> |>.

(** A negative block size panics in [make]. *)
Definition Reset (h : FECHandler) : outcome fec_error FECHandler :=
  if BlockSize (h_config h) <? 0 then Panic
  else Ok (h <| encodingBlock := [] |> <| decodingBlocks := ∅ |> <| receivedPackets := ∅ |>
             <| lossHistory := [] |> <| currentLossRate := of_int 0 |>).

(** ** Wire format *)

Definition SerializeFECPacket (fec : FECPacket) : list Z :=
  PutUint16 (SequenceBase fec) ++ PutUint16 (u16 (Z.of_nat (length (ProtectedSeq fec)))) ++
  (ProtectedSeq fec ≫= PutUint16) ++ PutUint16 (LengthXOR fec) ++ PutUint32 (TimestampXOR fec) ++
  [PTMarkerXOR fec] ++ PutUint16 (u16 (Z.of_nat (length (PayloadXOR fec)))) ++ PayloadXOR fec.

Fixpoint read_seqs (data : list Z) (offset n : nat) : outcome fec_error (list Z) :=
  match n with
  | O => Ok []
  | S n =>
      let! seq := Uint16_at data offset in
      let! seqs := read_seqs data (offset + 2) n in
      Ok (seq :: seqs)
  end.

Definition DeserializeFECPacket (data : list Z) : outcome fec_error FECPacket :=
  if (length data <? 11)%nat then Err ErrInvalidPacket
  else
    let! base := Uint16_at data 0 in
    let! num := Uint16_at data 2 in
    let numProtected := Z.to_nat num in
    if (length data <? 4 + numProtected * 2 + 9)%nat then Err ErrInvalidPacket
    else
      let! seqs := read_seqs data 4 numProtected in
      let offset := (4 + numProtected * 2)%nat in
      let! lengthXOR := Uint16_at data offset in
      let! timestampXOR := Uint32_at data (offset + 2) in
      let! ptMarkerXOR := byte_at data (offset + 6) in
      let! len := Uint16_at data (offset + 7) in
      let payloadLen := Z.to_nat len in
      let offset := (offset + 9)%nat in
      if (length data <? offset + payloadLen)%nat then Err ErrInvalidPacket
      else Ok {| SequenceBase := base; ProtectedSeq := seqs; PayloadXOR := take payloadLen (drop offset data);
                 LengthXOR := lengthXOR; TimestampXOR := timestampXOR; PTMarkerXOR := ptMarkerXOR |}.

(** ** XOR algebra *)

Definition xors (l : list Z) : Z := foldr Z.lxor 0 l.

#[local] Arguments xors : simpl never.
Lemma xors_cons x l : xors (x :: l) = Z.lxor x (xors l).
Proof. done. Qed.

#[export] Instance xors_Proper : Proper ((≡ₚ) ==> (=)) xors.
Proof.
  intros l l'. induction 1; rewrite ?xors_cons; [done|congruence| |congruence].
  by rewrite <- !Z.lxor_assoc, (Z.lxor_comm x y).
Qed.

Lemma foldl_lxor (f : RTPPacketData -> Z) pkts a : foldl (fun x pkt => Z.lxor x (f pkt)) a pkts = Z.lxor a (xors (f <$> pkts)).
Proof.
  revert a. induction pkts as [|p pkts IH]; intros a; csimpl; [by rewrite Z.lxor_0_r|]. by rewrite IH, xors_cons, Z.lxor_assoc.
Qed.

(** Taking all but one out of the whole leaves the one. *)
Lemma xors_cancel (f : RTPPacketData -> Z) all missing others :
  all ≡ₚ missing :: others -> Z.lxor (xors (f <$> all)) (xors (f <$> others)) = f missing.
Proof. intros ->. csimpl. by rewrite xors_cons, Z.lxor_assoc, Z.lxor_nilpotent, Z.lxor_0_r. Qed.

Lemma xor_bytes_length acc p : length (xor_bytes acc p) = length acc.
Proof. revert p. induction acc as [|a acc IH]; intros [|b p]; cbn; auto. Qed.

Lemma xor_bytes_nth acc p j :
  (j < length acc)%nat -> nth j (xor_bytes acc p) 0 = Z.lxor (nth j acc 0) (nth j p 0).
Proof.
  revert p j. induction acc as [|a acc IH]; intros [|b p] [|j] Hj; cbn in *; try lia; rewrite ?Z.lxor_0_r; auto with lia.
Qed.

Lemma foldl_xor_bytes pkts acc (acc' := foldl (fun x pkt => xor_bytes x (Payload pkt)) acc pkts) :
  length acc' = length acc /\
  forall j, (j < length acc)%nat -> nth j acc' 0 = Z.lxor (nth j acc 0) (xors ((fun pkt => nth j (Payload pkt) 0) <$> pkts)).
Proof.
  unfold acc'. clear acc'. revert acc. induction pkts as [|p pkts IH]; intros acc; csimpl.
  { split; [done|]. intros. by rewrite Z.lxor_0_r. }
  destruct (IH (xor_bytes acc (Payload p))) as [H1 H2]. rewrite xor_bytes_length in *. split; [done|].
  intros j Hj. rewrite H2, xor_bytes_nth by done. by rewrite xors_cons, Z.lxor_assoc.
Qed.

(** The fields of the packet the encoder builds. *)
Lemma foldl_xor_packet pkts fec :
  let r := foldl xor_packet fec pkts in
  SequenceBase r = SequenceBase fec /\ ProtectedSeq r = ProtectedSeq fec ++ (SequenceNumber <$> pkts) /\
  PayloadXOR r = foldl (fun x pkt => xor_bytes x (Payload pkt)) (PayloadXOR fec) pkts /\
  LengthXOR r = foldl (fun x pkt => Z.lxor x (u16 (Z.of_nat (length (Payload pkt))))) (LengthXOR fec) pkts /\
  TimestampXOR r = foldl (fun x pkt => Z.lxor x (Timestamp pkt)) (TimestampXOR fec) pkts /\
  PTMarkerXOR r = foldl (fun x pkt => Z.lxor x (ptMarker pkt)) (PTMarkerXOR fec) pkts.
Proof.
  revert fec. induction pkts as [|p pkts IH]; intros fec; cbn; [by rewrite app_nil_r|].
  destruct (IH (xor_packet fec p)) as (-> & -> & -> & -> & -> & ->). cbn. by rewrite <- app_assoc.
Qed.

Lemma foldl_recover_step pkts p l t m :
  foldl recover_step (p, l, t, m) pkts =
  (foldl (fun x pkt => xor_bytes x (Payload pkt)) p pkts,
   foldl (fun x pkt => Z.lxor x (u16 (Z.of_nat (length (Payload pkt))))) l pkts,
   foldl (fun x pkt => Z.lxor x (Timestamp pkt)) t pkts,
   foldl (fun x pkt => Z.lxor x (ptMarker pkt)) m pkts).
Proof. revert p l t m. induction pkts as [|x pkts IH]; intros; cbn; [done|]. apply IH. Qed.

Lemma maxPayload_ge pkts pkt : pkt ∈ pkts -> (length (Payload pkt) <= maxPayload pkts)%nat.
Proof.
  unfold maxPayload. assert (forall m, (m <= foldl (fun m pkt => if (m <? length (Payload pkt))%nat then length (Payload pkt) else m) m pkts)%nat /\
    forall pkt, pkt ∈ pkts -> (length (Payload pkt) <= foldl (fun m pkt => if (m <? length (Payload pkt))%nat then length (Payload pkt) else m) m pkts)%nat) as H.
  { induction pkts as [|p pkts IH]; intros m; cbn [foldl]; [split; [lia|by intros ? ?%elem_of_nil]|].
    set (m' := if (m <? length (Payload p))%nat then length (Payload p) else m).
    assert (m <= m' /\ length (Payload p) <= m')%nat as [H1 H2]
      by (unfold m'; destruct (Nat.ltb_spec m (length (Payload p))); lia).
    destruct (IH m') as [H3 H4]. split; [lia|]. intros x [->|Hx]%elem_of_cons; [lia|by apply H4]. }
  intros Hin. by apply (H 0%nat).
Qed.

(** A packet as it comes off the wire. *)
Record rtp_ok (pkt : RTPPacketData) : Prop := {
  ro_seq : is_u 16 (SequenceNumber pkt);
  ro_ts : is_u 32 (Timestamp pkt);
  ro_pt : is_u 7 (PayloadType pkt);
  ro_len : Z.of_nat (length (Payload pkt)) < 2 ^ 16;
}.

(** The payload type and marker share a byte. *)
Lemma ptMarker_split pkt :
  is_u 7 (PayloadType pkt) ->
  Z.land (ptMarker pkt) 0x7F = PayloadType pkt /\ negb (Z.land (ptMarker pkt) 0x80 =? 0) = Marker pkt.
Proof.
  intros Hpt. unfold ptMarker, is_u in *. set (pt := PayloadType pkt) in *. clearbody pt.
  assert (forall n, (n < 128)%nat ->
    Z.land (Z.of_nat n) 0x7F = Z.of_nat n /\ Z.land (Z.of_nat n) 0x80 = 0 /\
    Z.land (Z.lor (Z.of_nat n) 0x80) 0x7F = Z.of_nat n /\ Z.land (Z.lor (Z.of_nat n) 0x80) 0x80 = 0x80) as Hall.
  { intros n Hn. do 128 (destruct n as [|n]; [by vm_compute|]). lia. }
  destruct (Hall (Z.to_nat pt)) as (H1 & H2 & H3 & H4); [lia|]. rewrite Z2Nat.id in * by lia.
  destruct (Marker pkt); rewrite ?H1, ?H2, ?H3, ?H4; done.
Qed.

Lemma take_of_nth (l p : list Z) :
  (length p <= length l)%nat -> (forall j, (j < length l)%nat -> nth j l 0 = nth j p 0) -> take (length p) l = p.
Proof.
  revert l. induction p as [|b p IH]; intros [|a l] Hlen Hn; cbn in *; try done; try lia.
  f_equal; [by apply (Hn 0%nat); lia|]. apply IH; [lia|]. intros j Hj. apply (Hn (S j)). lia.
Qed.

Lemma nth_zeros n j : nth j (replicate n 0) 0 = 0.
Proof. revert j. induction n as [|n IH]; intros [|j]; cbn; auto. Qed.

(** What recovery computes when all packets of the block but one are there. *)
Lemma recover_missing all missing others base seqs :
  all ≡ₚ missing :: others -> Forall rtp_ok all ->
  let fec := foldl xor_packet (mkFEC base seqs (replicate (maxPayload all) 0) 0 0 0) all in
  exists payload,
    foldl recover_step (PayloadXOR fec, LengthXOR fec, TimestampXOR fec, PTMarkerXOR fec) others =
      (payload, Z.of_nat (length (Payload missing)), Timestamp missing, ptMarker missing) /\
    (length (Payload missing) <= length payload)%nat /\ take (length (Payload missing)) payload = Payload missing.
Proof.
  intros Hp Hok fec. assert (missing ∈ all) as Hin by (rewrite Hp; by left).
  assert (rtp_ok missing) as Hm by (by rewrite Forall_forall in Hok; apply Hok).
  pose proof (maxPayload_ge all missing Hin) as Hmax.
  destruct (foldl_xor_packet all (mkFEC base seqs (replicate (maxPayload all) 0) 0 0 0)) as (_ & _ & Ep & El & Et & Em).
  fold fec in Ep, El, Et, Em. cbn in Ep, El, Et, Em. rewrite foldl_recover_step, Ep, El, Et, Em, !foldl_lxor, !Z.lxor_0_l.
  rewrite !(xors_cancel _ all missing others) by done.
  destruct (foldl_xor_bytes all (replicate (maxPayload all) 0)) as [L1 N1].
  destruct (foldl_xor_bytes others (foldl (fun x pkt => xor_bytes x (Payload pkt)) (replicate (maxPayload all) 0) all)) as [L2 N2].
  rewrite L1, length_replicate in *.
  eexists. split; [by rewrite wrapu_id by (split; [lia|apply Hm])|]. rewrite L2. split; [done|].
  apply take_of_nth; rewrite L2; [done|]. intros j Hj. rewrite N2, N1 by done.
  rewrite nth_zeros, Z.lxor_0_l. by apply (xors_cancel (fun pkt => nth j (Payload pkt) 0)).
Qed.

Lemma sort_received_spec (rp : gmap Z RTPPacketData) seqs (m : gmap Z RTPPacketData) r :
  let res := foldl (fun '(have, missing) seq =>
    match rp !! seq with Some pkt => (<[seq := pkt]> have, missing) | None => (have, missing ++ [seq]) end) (m, r) seqs in
  res.2 = r ++ List.filter (fun seq => match rp !! seq with None => true | _ => false end) seqs /\
  forall k, (res.1 : gmap Z RTPPacketData) !! k = if bool_decide (k ∈ seqs) then match rp !! k with Some p => Some p | None => m !! k end else m !! k.
Proof.
  revert m r. induction seqs as [|s seqs IH]; intros m r; cbn [foldl].
  { split; [by rewrite app_nil_r|]. intros k. by rewrite bool_decide_false by apply not_elem_of_nil. }
  cbn [List.filter]. destruct (rp !! s) as [p|] eqn:E; [destruct (IH (<[s := p]> m) r) as [H1 H2]|destruct (IH m (r ++ [s])) as [H1 H2]];
    cbn zeta in *; rewrite H1; (split; [by rewrite <- ?app_assoc|]); intros k; rewrite H2.
  - destruct (decide (k = s)) as [->|Hne].
    + rewrite E, lookup_insert_eq. rewrite (bool_decide_true (s ∈ s :: seqs)) by (by left). by case_bool_decide.
    + rewrite lookup_insert_ne by done. destruct (decide (k ∈ seqs)).
      * by rewrite !bool_decide_true by (by repeat constructor).
      * by rewrite !bool_decide_false by set_solver.
  - destruct (decide (k = s)) as [->|Hne].
    + rewrite E. by repeat case_bool_decide.
    + destruct (decide (k ∈ seqs)).
      * by rewrite !bool_decide_true by (by repeat constructor).
      * by rewrite !bool_decide_false by set_solver.
Qed.

Definition keyed (pkt : RTPPacketData) : Z * RTPPacketData := (SequenceNumber pkt, pkt).

Lemma keyed_fst pkts : (keyed <$> pkts).*1 = SequenceNumber <$> pkts.
Proof. rewrite <- list_fmap_compose. done. Qed.
Lemma keyed_snd pkts : (keyed <$> pkts).*2 = pkts.
Proof. rewrite <- list_fmap_compose. apply list_fmap_id. Qed.

(** Exactly the lost packet is found missing. *)
Lemma sort_received_block (rp : gmap Z RTPPacketData) l1 missing l2 :
  NoDup (SequenceNumber <$> l1 ++ missing :: l2) ->
  rp !! SequenceNumber missing = None -> (forall pkt, pkt ∈ l1 ++ l2 -> rp !! SequenceNumber pkt = Some pkt) ->
  sort_received rp (SequenceNumber <$> l1 ++ missing :: l2) ∅ =
    (list_to_map (keyed <$> l1 ++ l2), [SequenceNumber missing]).
Proof.
  intros Hnd Hm Hrp. unfold sort_received.
  destruct (sort_received_spec rp (SequenceNumber <$> l1 ++ missing :: l2) ∅ []) as [H1 H2].
  destruct (foldl _ _ _) as [have miss]. cbn in H1, H2. f_equal.
  - assert (NoDup (SequenceNumber <$> l1 ++ l2)) as Hnd'.
    { rewrite fmap_app in *. csimpl in Hnd. rewrite <- Permutation_middle in Hnd. by apply NoDup_cons in Hnd as [_ Hnd]. }
    assert (forall p k, (list_to_map (keyed <$> l1 ++ l2) : gmap Z RTPPacketData) !! k = Some p <-> (k, p) ∈ keyed <$> l1 ++ l2) as Hlm
      by (intros; symmetry; apply elem_of_list_to_map; by rewrite keyed_fst).
    apply map_eq. intros k. rewrite H2. apply option_eq. intros p.
    etrans; [|symmetry; apply Hlm]. etrans; [|symmetry; apply list_elem_of_fmap]. unfold keyed. rewrite lookup_empty. split.
    + case_bool_decide as Hk; [|done]. destruct (rp !! k) as [q'|] eqn:Eq; [|done]. intros [= ->].
      apply list_elem_of_fmap in Hk as (q & -> & Hq). rewrite elem_of_app, elem_of_cons in Hq.
      destruct (decide (q = missing)) as [->|Hne]; [congruence|].
      assert (q ∈ l1 ++ l2) as Hq' by (rewrite elem_of_app; naive_solver). rewrite (Hrp q Hq') in Eq. injection Eq as ->. eauto.
    + intros (q & [= -> ->] & Hq). rewrite (Hrp q Hq). rewrite bool_decide_true; [done|].
      apply list_elem_of_fmap. exists q. split; [done|]. rewrite elem_of_app in *. rewrite elem_of_cons. tauto.
  - rewrite H1, fmap_app. csimpl. rewrite List.filter_app. cbn [List.filter]. rewrite Hm.
    assert (forall l, (forall pkt, pkt ∈ l -> rp !! SequenceNumber pkt = Some pkt) ->
      List.filter (fun seq => match rp !! seq with None => true | _ => false end) (SequenceNumber <$> l) = []) as Hf.
    { induction l as [|x l IH]; intros Hl; csimpl; [done|]. rewrite Hl by (by left). apply IH. intros. apply Hl. by right. }
    rewrite !Hf by (intros; apply Hrp; rewrite elem_of_app; auto). done.
Qed.

(** C13: any single loss in a protected block is repaired exactly: if the
    receiver holds every packet of the block but one, the XOR packet the sender
    generated for the block gives back precisely the lost packet, its sequence
    number, timestamp, payload type, marker and payload, in whatever order the
    received packets are walked, and the packet is kept as received. *)
Theorem fec_recovers_single_loss sender receiver l1 missing l2 order :
  encodingBlock sender = l1 ++ missing :: l2 -> Forall rtp_ok (l1 ++ missing :: l2) ->
  NoDup (SequenceNumber <$> l1 ++ missing :: l2) ->
  Enabled (h_config receiver) = true -> receivedPackets receiver !! SequenceNumber missing = None ->
  (forall pkt, pkt ∈ l1 ++ l2 -> receivedPackets receiver !! SequenceNumber pkt = Some pkt) ->
  order ≡ₚ keyed <$> l1 ++ l2 ->
  exists fec sender' receiver', generateFECPacket sender = (Some fec, sender') /\
    ReceiveFECPacket (Some fec) order receiver = Ok ([missing], receiver') /\
    receivedPackets receiver' = <[SequenceNumber missing := missing]> (receivedPackets receiver).
Proof.
  intros Eb Hok Hnd Hen Hm Hrp Ho.
  set (all := l1 ++ missing :: l2) in *. assert (all ≡ₚ missing :: order.*2) as Hall.
  { rewrite Ho, keyed_snd. unfold all. by rewrite <- Permutation_middle. }
  set (fec := foldl xor_packet (mkFEC (encodingBlockSeq sender) [] (replicate (maxPayload all) 0) 0 0 0) all).
  assert (ProtectedSeq fec = SequenceNumber <$> all) as Eps
    by (unfold fec; by destruct (foldl_xor_packet all (mkFEC (encodingBlockSeq sender) [] (replicate (maxPayload all) 0) 0 0 0)) as (_ & -> & _)).
  destruct (recover_missing all missing order.*2 (encodingBlockSeq sender) [] Hall Hok) as (payload & Hr & Hlen & Htake). fold fec in Hr.
  assert (rtp_ok missing) as Hmok by (rewrite Forall_forall in Hok; apply Hok; rewrite Hall; by left).
  exists fec. eexists _, _. split_and!.
  - unfold generateFECPacket. rewrite Eb. unfold all. by destruct l1.
  - unfold ReceiveFECPacket. rewrite Hen. cbn [negb]. rewrite Eps. unfold all.
    rewrite sort_received_block by done. unfold tryRecoverPackets. cbn -[foldl Z.land]. 
    assert ((List.filter (fun kv => negb (kv.1 =? SequenceNumber missing)) order) = order) as ->.
    { apply forallb_filter_id, forallb_forall. intros [k p] Hin. apply list_elem_of_In in Hin. rewrite Ho in Hin.
      apply list_elem_of_fmap in Hin as (q & [= -> ->] & Hq). cbn. apply negb_true_iff, Z.eqb_neq. intros E.
      rewrite <- E in Hm. rewrite (Hrp q Hq) in Hm. done. }
    rewrite Hr. destruct (_ <? _) eqn:El; bool_prop; [lia|]. cbn -[Z.land]. rewrite Nat2Z.id, Htake.
    destruct (ptMarker_split missing) as [-> ->]; [apply Hmok|]. destruct missing; reflexivity.
  - cbn. by destruct missing.
Qed.

Definition pkt_a : RTPPacketData := mkRTP 65535 1000 96 true [1; 2; 3].
Definition pkt_b : RTPPacketData := mkRTP 0 1160 111 false [9].
Definition pkt_c : RTPPacketData := mkRTP 1 1320 0 false [7; 7].
Definition fec_sender : FECHandler := mkHandler DefaultFECConfig [pkt_a; pkt_b; pkt_c] 65535 0 ∅ ∅ [] (of_int 0).
Definition fec_receiver : FECHandler :=
  mkHandler DefaultFECConfig [] 0 0 ∅ (<[65535 := pkt_a]> (<[1 := pkt_c]> ∅)) [] (of_int 0).

Lemma fec_recovers_single_loss_witness :
  exists fec sender' receiver', generateFECPacket fec_sender = (Some fec, sender') /\
    ReceiveFECPacket (Some fec) [keyed pkt_c; keyed pkt_a] fec_receiver = Ok ([pkt_b], receiver') /\
    receivedPackets receiver' = <[0 := pkt_b]> (receivedPackets fec_receiver).
Proof.
  apply (fec_recovers_single_loss fec_sender fec_receiver [pkt_a] pkt_b [pkt_c]).
  - reflexivity.
  - repeat constructor; cbn; lia.
  - apply (bool_decide_unpack _). vm_compute. exact I.
  - reflexivity.
  - reflexivity.
  - intros pkt Hp. cbn in Hp. rewrite !elem_of_cons in Hp. destruct Hp as [->|[->|Hp]]; [reflexivity..|by apply elem_of_nil in Hp].
  - apply perm_swap.
Defined.

(** A forged XOR packet crashes the receiver: one protected sequence
    number the receiver does not have, and a length beyond the payload sent,
    make recovery slice out of range. *)
Theorem forged_fec_panics fec seq order h :
  Enabled (h_config h) = true -> ProtectedSeq fec = [seq] -> receivedPackets h !! seq = None ->
  Z.of_nat (length (PayloadXOR fec)) < LengthXOR fec -> order = [] ->
  ReceiveFECPacket (Some fec) order h = Panic.
Proof.
  intros He Hp Hr Hl ->. unfold ReceiveFECPacket, sort_received. rewrite He, Hp. cbn. rewrite Hr. cbn.
  destruct (_ <? _) eqn:E; bool_prop; [done|lia].
Qed.

(** Fifteen bytes off the wire. *)
Definition forged : list Z := [0; 5; 0; 1; 0; 5; 0; 1; 0; 0; 0; 0; 0; 0; 0].
Lemma forged_fec_panics_witness :
  exists fec, DeserializeFECPacket forged = Ok fec /\ ReceiveFECPacket (Some fec) [] fec_receiver = Panic.
Proof.
  exists (mkFEC 5 [5] [] 1 0 0). split; [reflexivity|].
  apply (forged_fec_panics _ 5); reflexivity.
Defined.

(** ** Sequence distance *)

Lemma seqDistance_mod a b : is_u 16 a -> is_u 16 b -> seqDistance a b = (b - a) mod 2 ^ 16.
Proof.
  intros Ha Hb. unfold seqDistance, is_u, wrapu in *. destruct (Z.leb_spec a b); [done|].
  rewrite (Z.mod_small (65536 - a) (2 ^ 32)), (Z.mod_small _ (2 ^ 32)) by lia.
  replace (65536 - a + b) with (b - a + 1 * 2 ^ 16) by lia. apply Z_mod_plus_full.
Qed.

(** Reordering empties the receive window: when a packet arrives [d]
    places late, every packet received after it, up to 65279 places ahead, is
    thrown away as too old, so it can no longer help a recovery. *)
Theorem late_packet_drops_newer h late newer d pkt :
  is_u 16 late -> is_u 16 newer -> newer = (late + d) mod 2 ^ 16 -> 0 < d < 2 ^ 16 - 256 ->
  receivedPackets h !! newer = Some pkt ->
  receivedPackets (cleanupOldPackets late h) !! newer = None.
Proof.
  intros Hl Hn -> Hd Hp. cbn. apply map_lookup_filter_None. right. intros x Hx. cbn.
  rewrite seqDistance_mod by done. rewrite Zminus_mod_idemp_r. replace (late - (late + d)) with (- d) by lia.
  rewrite Z.mod_opp_l_nz; rewrite ?Z.mod_small by lia; lia.
Qed.

Lemma late_packet_drops_newer_witness :
  receivedPackets (cleanupOldPackets 65534 fec_receiver) !! 1 = None.
Proof.
  apply (late_packet_drops_newer fec_receiver 65534 1 3 pkt_c); vm_compute; split || reflexivity; discriminate || reflexivity.
Defined.

(** ** The wire format *)

Lemma read_seqs_put pre seqs post n :
  Forall (is_u 16) seqs -> n = length pre -> read_seqs (pre ++ (seqs ≫= PutUint16) ++ post) n (length seqs) = Ok seqs.
Proof.
  intros Hs. revert pre n. induction Hs as [|x seqs Hx _ IH]; intros pre n ->; [done|].
  cbn [length read_seqs]. change ((x :: seqs) ≫= PutUint16) with (PutUint16 x ++ (seqs ≫= PutUint16)).
  rewrite <- app_assoc, Uint16_at_put by done. cbn [obind]. rewrite app_assoc.
  rewrite IH by (rewrite length_app; done). done.
Qed.

(** What fits the format's fields. *)
Record fec_ok (fec : FECPacket) : Prop := {
  fo_base : is_u 16 (SequenceBase fec);
  fo_seqs : Forall (is_u 16) (ProtectedSeq fec);
  fo_num : Z.of_nat (length (ProtectedSeq fec)) < 2 ^ 16;
  fo_len : is_u 16 (LengthXOR fec);
  fo_ts : is_u 32 (TimestampXOR fec);
  fo_payload : Z.of_nat (length (PayloadXOR fec)) < 2 ^ 16;
}.

Lemma bind_PutUint16_length seqs : length (seqs ≫= PutUint16) = (length seqs * 2)%nat.
Proof.
  induction seqs as [|x seqs IH]; [done|]. change ((x :: seqs) ≫= PutUint16) with (PutUint16 x ++ (seqs ≫= PutUint16)).
  rewrite length_app, IH. cbn. lia.
Qed.

Lemma Deserialize_Serialize fec : fec_ok fec -> DeserializeFECPacket (SerializeFECPacket fec) = Ok fec.
Proof.
  intros [Hb Hs Hn Hl Ht Hp]. unfold SerializeFECPacket. rewrite !wrapu_id by (unfold is_u; lia).
  set (n := length (ProtectedSeq fec)) in *. set (m := length (PayloadXOR fec)) in *.
  set (S := ProtectedSeq fec ≫= PutUint16). assert (length S = (n * 2)%nat) as LS by apply bind_PutUint16_length.
  set (data := PutUint16 _ ++ _). assert (length data = (13 + n * 2 + m)%nat) as Ld
    by (unfold data; rewrite !length_app, LS; cbn; fold m; lia).
  assert (is_u 16 (Z.of_nat n)) by (unfold is_u; lia). assert (is_u 16 (Z.of_nat m)) by (unfold is_u; lia).
  assert (Uint16_at data 0 = @Ok fec_error Z (SequenceBase fec)) as R1 by (by apply (Uint16_at_put [])).
  assert (Uint16_at data 2 = @Ok fec_error Z (Z.of_nat n)) as R2 by (by apply (Uint16_at_put (PutUint16 (SequenceBase fec)))).
  set (pre := PutUint16 (SequenceBase fec) ++ PutUint16 (Z.of_nat n)).
  assert (data = pre ++ S ++ PutUint16 (LengthXOR fec) ++ PutUint32 (TimestampXOR fec) ++ [PTMarkerXOR fec] ++ PutUint16 (Z.of_nat m) ++ PayloadXOR fec)
    as E3 by (unfold pre; by rewrite <- app_assoc).
  assert (read_seqs data 4 n = Ok (ProtectedSeq fec)) as R3 by (rewrite E3; by apply read_seqs_put).
  assert (Uint16_at data (4 + n * 2) = @Ok fec_error Z (LengthXOR fec)) as R4.
  { rewrite E3, app_assoc. apply Uint16_at_put; [done|]. rewrite length_app, LS. done. }
  assert (Uint32_at data (4 + n * 2 + 2) = @Ok fec_error Z (TimestampXOR fec)) as R5.
  { rewrite E3, app_assoc, (app_assoc (pre ++ S)). apply Uint32_at_put; [done|]. rewrite !length_app, LS. cbn. lia. }
  assert (byte_at data (4 + n * 2 + 6) = @Ok fec_error Z (PTMarkerXOR fec)) as R6.
  { rewrite E3, app_assoc, (app_assoc (pre ++ S)). cbn [app]. rewrite (app_assoc _ (PutUint32 _)).
    match goal with |- byte_at (?a ++ _) ?k = _ => replace k with (length a) by (rewrite !length_app, LS; cbn; lia) end. apply byte_at_app. }
  assert (data = (pre ++ S ++ PutUint16 (LengthXOR fec) ++ PutUint32 (TimestampXOR fec) ++ [PTMarkerXOR fec]) ++ PutUint16 (Z.of_nat m) ++ PayloadXOR fec)
    as E7 by (rewrite E3; by rewrite <- !app_assoc).
  assert (Uint16_at data (4 + n * 2 + 7) = @Ok fec_error Z (Z.of_nat m)) as R7.
  { rewrite E7. apply Uint16_at_put; [done|]. rewrite !length_app, LS. cbn. lia. }
  assert (drop (4 + n * 2 + 9) data = PayloadXOR fec) as R8.
  { rewrite E7, app_assoc. apply drop_app_length'. rewrite !length_app, LS. cbn. lia. }
  unfold DeserializeFECPacket. rewrite Ld, R1. destruct (Nat.ltb_spec (13 + n * 2 + m) 11); [lia|]. cbn [obind].
  rewrite R2. cbn [obind]. rewrite Nat2Z.id. destruct (Nat.ltb_spec (13 + n * 2 + m) (4 + n * 2 + 9)); [lia|].
  rewrite R3. cbn [obind]. rewrite R4. cbn [obind]. rewrite R5. cbn [obind]. rewrite R6. cbn [obind]. rewrite R7. cbn [obind].
  rewrite Nat2Z.id. destruct (Nat.ltb_spec (13 + n * 2 + m) (4 + n * 2 + 9 + m)); [lia|].
  rewrite R8, take_ge by done. by destruct fec.
Qed.

Lemma read_seqs_lt data n k : (n + k * 2 <= length data)%nat -> exists l, read_seqs data n k = Ok l.
Proof.
  revert n. induction k as [|k IH]; intros n Hn; cbn [read_seqs]; [eauto|].
  destruct (@Uint16_at_lt fec_error data n) as [x ->]; [lia|]. cbn [obind]. destruct (IH (n + 2)%nat) as [l ->]; [lia|]. cbn [obind]. eauto.
Qed.

Lemma Deserialize_total data : DeserializeFECPacket data = Err ErrInvalidPacket \/ exists fec, DeserializeFECPacket data = Ok fec.
Proof.
  unfold DeserializeFECPacket. destruct (Nat.ltb_spec (length data) 11); [auto|].
  destruct (@Uint16_at_lt fec_error data 0) as [base ->]; [lia|]. cbn [obind].
  destruct (@Uint16_at_lt fec_error data 2) as [num ->]; [lia|]. cbn [obind].
  destruct (Nat.ltb_spec (length data) (4 + Z.to_nat num * 2 + 9)); [auto|].
  destruct (read_seqs_lt data 4 (Z.to_nat num)) as [seqs ->]; [lia|]. cbn [obind].
  destruct (@Uint16_at_lt fec_error data (4 + Z.to_nat num * 2)) as [l ->]; [lia|]. cbn [obind].
  destruct (@Uint32_at_lt fec_error data (4 + Z.to_nat num * 2 + 2)) as [t ->]; [lia|]. cbn [obind].
  destruct (@byte_at_lt fec_error data (4 + Z.to_nat num * 2 + 6)) as [m ->]; [lia|]. cbn [obind].
  destruct (@Uint16_at_lt fec_error data (4 + Z.to_nat num * 2 + 7)) as [len ->]; [lia|]. cbn [obind].
  destruct (_ <? _)%nat; eauto.
Qed.

(** The wire format of XOR packets: whatever bytes arrive, parsing
    returns a packet or the invalid-packet error and never reads out of bounds,
    and parsing what the sender serialised gives back the packet. *)
Theorem fec_wire_roundtrip fec data :
  fec_ok fec ->
  DeserializeFECPacket (SerializeFECPacket fec) = Ok fec /\
  (DeserializeFECPacket data = Err ErrInvalidPacket \/ exists fec', DeserializeFECPacket data = Ok fec').
Proof. intros Hf. split; [by apply Deserialize_Serialize|apply Deserialize_total]. Qed.

Lemma fec_wire_roundtrip_witness :
  DeserializeFECPacket (SerializeFECPacket (mkFEC 65535 [65535; 0; 1] [15; 5; 3] 2 1480 0x8f)) = Ok (mkFEC 65535 [65535; 0; 1] [15; 5; 3] 2 1480 0x8f).
Proof.
  apply (fec_wire_roundtrip (mkFEC 65535 [65535; 0; 1] [15; 5; 3] 2 1480 0x8f) []).
  split; cbn; try lia; repeat constructor; unfold is_u; cbn; lia.
Defined.
