(* ===== verification/LoopProtection.v ===== *)
(** * Loop protection, latching and source checks

    Models src/internal/loop_protection.go: the detector of media loops by
    packet signature with its periodic cleanup, symmetric latching of a session
    to the address its media comes from, and the strict source checker. An
    address is its IP and port, and what [String] prints for it is compared;
    a [range] over a map takes the order it walks as an argument. *)

From Stdlib Require Import ZArith Lia String.
From stdpp Require Import base numbers list gmap strings.
From S2P Require Import Prelude Sha256.

Local Open Scope Z_scope.
Local Open Scope go_scope.
#[local] Arguments wraps : simpl never.

(** ** Loop detection *)

Record loopEntry := mkLoopEntry { timestamp : Z; count : Z; srcAddr : string; ssrc : Z }.

Record LoopProtector := mkLP {
  signatures : gmap Z loopEntry;
  maxEntries : Z;
  ttl : Z;
  stopped : bool }.
#[export] Instance set_signatures : Setter signatures := fun f r =>
  mkLP (f (signatures r)) (maxEntries r) (ttl r) (stopped r).
#[export] Instance set_maxEntries : Setter maxEntries := fun f r =>
  mkLP (signatures r) (f (maxEntries r)) (ttl r) (stopped r).
#[export] Instance set_ttl : Setter ttl := fun f r =>
  mkLP (signatures r) (maxEntries r) (f (ttl r)) (stopped r).
#[export] Instance set_stopped : Setter stopped := fun f r =>
  mkLP (signatures r) (maxEntries r) (ttl r) (f (stopped r)).

Definition NewLoopProtector : LoopProtector :=
  {| signatures := ∅; maxEntries := 100000; ttl := 5 * Second; stopped := false |}.

(** [binary.BigEndian.Uint64(sum[:8])] *)
Definition Uint64_of (bs : list Z) : Z := Z.lor (Z.shiftl (Uint32_of bs) 32) (Uint32_of (skipn 4 bs)).

Definition generateSignature (ssrc seq timestamp : Z) (payload : list Z) : Z :=
  let payloadLen := if (44 <? length payload)%nat then 44%nat else length payload in
  Uint64_of (Sum256 (PutUint32 ssrc ++ [u8 (Z.shiftr seq 8); u8 seq] ++ PutUint32 timestamp ++
                     skipn 12 (firstn payloadLen payload))).

(** The signature of a packet of at least twelve bytes. *)
Definition signature (packet : list Z) : Z :=
  let ssrc := Uint32_of (skipn 8 packet) in
  let seq := Z.lor (Z.shiftl (nth 2 packet 0) 8) (nth 3 packet 0) in
  let timestamp := Uint32_of (skipn 4 packet) in
  generateSignature ssrc seq timestamp packet.

(** A nil source address prints as the empty string. *)
Definition IsLoop (packet : list Z) (src : option string) (now : Z) (lp : LoopProtector) : bool * LoopProtector :=
  if (length packet <? 12)%nat then (false, lp)
  else
    let sig := signature packet in
    let srcStr := default "" src in
    let record := (false, lp <| signatures ::= <[sig := mkLoopEntry now 1 srcStr (Uint32_of (skipn 8 packet))]> |>) in
    match signatures lp !! sig with
    | Some entry =>
        if Time_Sub now (timestamp entry) <? ttl lp then
          if negb (bool_decide (srcAddr entry = srcStr)) then
            let entry := mkLoopEntry (timestamp entry) (i64 (count entry + 1)) (srcAddr entry) (ssrc entry) in
            (count entry >? 2, lp <| signatures ::= <[sig := entry]> |>)
          else record
        else record
    | None => record
    end.

Definition older (acc : Z * Z) (kv : Z * loopEntry) : Z * Z :=
  if Before (timestamp kv.2) acc.1 then (timestamp kv.2, kv.1) else acc.

(** [order] is the order the surviving entries are walked in, [now2] the
    second clock reading. *)
Definition cleanup (now now2 : Z) (order : list (Z * loopEntry)) (lp : LoopProtector) : LoopProtector :=
  if stopped lp then lp
  else
    let lp := lp <| signatures ::= filter (fun kv => Time_Sub now (timestamp kv.2) <= ttl lp) |> in
    if Z.of_nat (size (signatures lp)) >? maxEntries lp then
      lp <| signatures ::= delete (foldl older (now2, 0) order).2 |>
    else lp.

(** Closing the cleanup channel twice panics. *)
Definition Stop (lp : LoopProtector) : outcome unit LoopProtector :=
  if stopped lp then Panic else Ok (lp <| stopped := true |>).

Definition LoopProtector_Reset (lp : LoopProtector) : LoopProtector := lp <| signatures := ∅ |>.

(** ** Symmetric latching *)

Record UDPAddr := mkAddr { IP : list Z; Port : Z }.
#[export] Instance UDPAddr_eq_dec : EqDecision UDPAddr.
Proof. solve_decision. Defined.

(** [net.IP.Equal]: an IPv4 address and the same address in IPv6 form are
    equal. *)
Definition v4prefix : list Z := replicate 10 0 ++ [255; 255].
Definition IP_Equal (a b : list Z) : bool :=
  if (length a =? length b)%nat then bool_decide (a = b)
  else if (length a =? 4)%nat && (length b =? 16)%nat then bool_decide (firstn 12 b = v4prefix) && bool_decide (a = skipn 12 b)
  else if (length a =? 16)%nat && (length b =? 4)%nat then bool_decide (firstn 12 a = v4prefix) && bool_decide (skipn 12 a = b)
  else false.

Record latchedEndpoint := mkEndpoint {
  addr : UDPAddr;
  ep_ssrc : Z;
  lastSeen : Z;
  packetCount : Z;
  latched : bool }.
#[export] Instance set_addr : Setter addr := fun f r =>
  mkEndpoint (f (addr r)) (ep_ssrc r) (lastSeen r) (packetCount r) (latched r).
#[export] Instance set_ep_ssrc : Setter ep_ssrc := fun f r =>
  mkEndpoint (addr r) (f (ep_ssrc r)) (lastSeen r) (packetCount r) (latched r).
#[export] Instance set_lastSeen : Setter lastSeen := fun f r =>
  mkEndpoint (addr r) (ep_ssrc r) (f (lastSeen r)) (packetCount r) (latched r).
#[export] Instance set_packetCount : Setter packetCount := fun f r =>
  mkEndpoint (addr r) (ep_ssrc r) (lastSeen r) (f (packetCount r)) (latched r).
#[export] Instance set_latched : Setter latched := fun f r =>
  mkEndpoint (addr r) (ep_ssrc r) (lastSeen r) (packetCount r) (f (latched r)).

Abbreviation SymmetricLatching := (gmap string latchedEndpoint).

Definition LatchEndpoint (sessionKey : string) (a : UDPAddr) (s now : Z) (sl : SymmetricLatching) : bool * SymmetricLatching :=
  match sl !! sessionKey with
  | None => (true, <[sessionKey := mkEndpoint a s now 1 true]> sl)
  | Some endpoint =>
      let endpoint := endpoint <| lastSeen := now |> <| packetCount ::= fun n => u64 (n + 1) |> in
      if negb (IP_Equal (IP (addr endpoint)) (IP a)) || negb (Port (addr endpoint) =? Port a) then
        (true, <[sessionKey := endpoint <| addr := a |> <| ep_ssrc := s |>]> sl)
      else (false, <[sessionKey := endpoint]> sl)
  end.

Definition GetLatchedAddress (sessionKey : string) (sl : SymmetricLatching) : option UDPAddr :=
  match sl !! sessionKey with
  | Some endpoint => if latched endpoint then Some (addr endpoint) else None
  | None => None
  end.

Definition IsLatched (sessionKey : string) (sl : SymmetricLatching) : bool :=
  match sl !! sessionKey with Some endpoint => latched endpoint | None => false end.

Definition UnlatchSession (sessionKey : string) (sl : SymmetricLatching) : SymmetricLatching := delete sessionKey sl.

Definition Latching_Reset (sessionKey : string) (sl : SymmetricLatching) : SymmetricLatching :=
  alter (fun endpoint => endpoint <| latched := false |>) sessionKey sl.

(** ** Strict source checking *)

Abbreviation StrictSourceChecker := (gmap string UDPAddr).

Definition SetExpectedSource (sessionKey : string) (a : UDPAddr) (ssc : StrictSourceChecker) : StrictSourceChecker :=
  <[sessionKey := a]> ssc.

Definition IsValidSource (sessionKey : string) (a : UDPAddr) (ssc : StrictSourceChecker) : bool :=
  match ssc !! sessionKey with
  | None => true
  | Some expected => IP_Equal (IP expected) (IP a) && (Port expected =? Port a)
  end.

Definition RemoveSession (sessionKey : string) (ssc : StrictSourceChecker) : StrictSourceChecker := delete sessionKey ssc.

(** ** When a loop is reported *)

(** Copies of one packet, each with its source and arrival time. *)
Fixpoint sightings (packet : list Z) (copies : list (string * Z)) (lp : LoopProtector) : list bool :=
  match copies with
  | [] => []
  | (src, now) :: copies =>
      let '(b, lp) := IsLoop packet (Some src) now lp in b :: sightings packet copies lp
  end.

Lemma IsLoop_foreign packet src now lp entry :
  (12 <= length packet)%nat -> signatures lp !! signature packet = Some entry ->
  Time_Sub now (timestamp entry) < ttl lp -> src <> srcAddr entry -> 0 <= count entry < 2 ^ 62 ->
  IsLoop packet (Some src) now lp =
    (count entry >=? 2, lp <| signatures ::= <[signature packet := mkLoopEntry (timestamp entry) (count entry + 1) (srcAddr entry) (ssrc entry)]> |>).
Proof.
  intros Hlen E Ht Hs Hc. unfold IsLoop. destruct (Nat.ltb_spec (length packet) 12); [lia|]. rewrite E.
  destruct (Z.ltb_spec (Time_Sub now (timestamp entry)) (ttl lp)); [|lia].
  cbn -[bool_decide signature]. rewrite bool_decide_false by done. cbn -[signature].
  rewrite wraps_id by (unfold is_s; lia). f_equal. lia.
Qed.

Lemma sightings_foreign packet copies lp entry :
  (12 <= length packet)%nat -> signatures lp !! signature packet = Some entry ->
  Forall (fun c => Time_Sub c.2 (timestamp entry) < ttl lp /\ c.1 <> srcAddr entry) copies ->
  2 <= count entry -> count entry + Z.of_nat (length copies) < 2 ^ 62 ->
  sightings packet copies lp = replicate (length copies) true.
Proof.
  intros Hlen E Hc. revert lp entry E Hc. induction copies as [|[src now] copies IH]; intros lp entry E Hc H2 Hb; [done|].
  apply Forall_cons in Hc as [[Ht Hs] Hc]. cbn [length] in Hb. cbn [sightings length replicate].
  rewrite (IsLoop_foreign packet src now lp entry) by (done || lia).
  f_equal; [lia|]. eapply (IH _ (mkLoopEntry (timestamp entry) (count entry + 1) (srcAddr entry) (ssrc entry)));
    cbn -[signature]; [apply lookup_insert_eq|done|lia|lia].
Qed.

(** A media loop is reported from the second foreign copy on: once a
    packet has been seen from one source, the first copy from other sources
    within the time limit is tolerated and every further one is reported, while
    the packet is still remembered under its first source. *)
Theorem loop_reported lp packet src0 t0 src1 t1 copies :
  (12 <= length packet)%nat -> signatures lp !! signature packet = None ->
  Forall (fun c => Time_Sub c.2 t0 < ttl lp /\ c.1 <> src0) ((src1, t1) :: copies) ->
  Z.of_nat (length copies) < 2 ^ 61 ->
  sightings packet ((src0, t0) :: (src1, t1) :: copies) lp = false :: false :: replicate (length copies) true.
Proof.
  intros Hlen E Hc Hb. apply Forall_cons in Hc as [[Ht Hs] Hc]. cbn [sightings].
  assert (IsLoop packet (Some src0) t0 lp =
    (false, lp <| signatures ::= <[signature packet := mkLoopEntry t0 1 src0 (Uint32_of (skipn 8 packet))]> |>)) as ->.
  { unfold IsLoop. destruct (Nat.ltb_spec (length packet) 12); [lia|]. by rewrite E. }
  f_equal. set (lp1 := lp <| signatures ::= _ |>). set (e := mkLoopEntry t0 1 src0 (Uint32_of (skipn 8 packet))) in *.
  rewrite (IsLoop_foreign packet src1 t1 lp1 e); [|done|apply lookup_insert_eq|done|done|cbn; lia].
  f_equal. apply (sightings_foreign packet copies _ (mkLoopEntry t0 2 src0 (Uint32_of (skipn 8 packet))));
    [done|cbn -[signature]; apply lookup_insert_eq|done|cbn; lia|cbn -[Z.of_nat]; lia].
Qed.

Definition rtp_sample : list Z := [128; 0; 0; 1; 0; 0; 0; 160; 222; 173; 190; 239; 1; 2].
Lemma loop_reported_witness :
  sightings rtp_sample [("10.0.0.1:4000", 0); ("10.0.0.2:4000", Second); ("10.0.0.3:4000", 2 * Second)] NewLoopProtector = [false; false; true].
Proof.
  apply (loop_reported NewLoopProtector rtp_sample "10.0.0.1:4000" 0 "10.0.0.2:4000" Second [("10.0.0.3:4000", 2 * Second)]).
  - cbn. lia.
  - reflexivity.
  - repeat constructor; discriminate.
  - reflexivity.
Defined.

(** ** Latching after a reset *)

Definition latch_all (sessionKey : string) (packets : list (UDPAddr * Z * Z)) (sl : SymmetricLatching) : SymmetricLatching :=
  foldl (fun sl '(a, s, now) => (LatchEndpoint sessionKey a s now sl).2) sl packets.

(** A session reset for media handover never latches again: however much
    media arrives for it afterwards, from whatever addresses, the session has
    no latched address. *)
Theorem reset_session_never_latches sessionKey sl packets :
  is_Some (sl !! sessionKey) ->
  GetLatchedAddress sessionKey (latch_all sessionKey packets (Latching_Reset sessionKey sl)) = None /\
  IsLatched sessionKey (latch_all sessionKey packets (Latching_Reset sessionKey sl)) = false.
Proof.
  intros [ep E].
  assert (forall packets sl, (exists e, sl !! sessionKey = Some e /\ latched e = false) ->
    exists e, latch_all sessionKey packets sl !! sessionKey = Some e /\ latched e = false) as H.
  { clear. unfold latch_all. induction packets as [|[[a s] now] packets IH]; intros sl (e & He & Hl); cbn [foldl]; [eauto|].
    apply IH. unfold LatchEndpoint. rewrite He. case_match; cbn; rewrite lookup_insert_eq; by eexists. }
  destruct (H packets (Latching_Reset sessionKey sl)) as (e & He & Hl).
  { unfold Latching_Reset. rewrite lookup_alter_eq, E. by eexists. }
  unfold GetLatchedAddress, IsLatched. by rewrite He, Hl.
Qed.

Definition peer : UDPAddr := mkAddr [10; 0; 0; 1] 4000.
Lemma reset_session_never_latches_witness :
  GetLatchedAddress "call" (latch_all "call" [(peer, 1, 2); (mkAddr [10; 0; 0; 2] 4000, 1, 3)]
    (Latching_Reset "call" (LatchEndpoint "call" peer 1 1 ∅).2)) = None.
Proof. apply (reset_session_never_latches "call" (LatchEndpoint "call" peer 1 1 ∅).2). eexists. reflexivity. Defined.
