(* ===== verification/Flags.v ===== *)
(** * The flag parser of the NG protocol

    Models src/internal/ng_protocol/types.go: [ParsedFlags] and the functions
    that fill it from the [flags] list of a request, [ParseFlags],
    [parseKeyValueFlag], [indexOf] and [parseIntValue].

    The struct has 76 boolean, 7 integer, 15 string and 7 slice fields. The
    fields of one type are one function from the names of those fields, so
    that an assignment [pf.F = v] is an update of that function at [F]. *)

From Stdlib Require Import ZArith Lia Ascii String.
From stdpp Require Import base numbers list functions strings.
From S2P Require Import Prelude Bencode.

Local Open Scope Z_scope.
Local Open Scope go_scope.
#[local] Set Warnings "-clear-no-such-hyp,-register-all".

(** ** Data *)

Inductive BoolField :=
| AsymmetricCodecs | SymmetricCodecs | Asymmetric | Symmetric | Unidirectional | StrictSource
| MediaHandover | Reset
| ICERemove | ICEForce | ICEForceRelay | ICELite | ICEDefault | TrickleICE | GenerateMID
| DTLSOff | DTLSPassive | DTLSActive | DTLSReverse
| SDESOff | SDESOn | SDESOnly | SDESUnencryptedSRTP | SDESUnencryptedSRTCP
| SDESUnauthenticated | SDESPad
| ReplaceOrigin | ReplaceSessionConnection | ReplaceSDPVersion | ReplaceUsername
| ReplaceSessionName | TrustAddress | SIPSourceAddress | PortLatching | NoPortLatching
| OriginalSendrecv | SendOnly | RecvOnly | Inactive | SymmetricIncoming | DirectMedia
| RecordCall | StartRecording | StopRecording | PauseRecording
| BlockMedia | UnblockMedia | SilenceMedia | BlockDTMF | UnblockDTMF
| RTCPMUX | RTCPMUXDemux | RTCPMUXAccept | RTCPMUXOffer | RTCPMUXRequire
| NoRTCPAttribute | FullRTCPAttribute | GenerateRTCP
| RTPAVP | RTPSAVP | RTPAVPF | RTPSAVPF | UDPTLS
| LoopProtect | MediaEcho | WebRTCEnabled | TOSSet
| T38Support | T38Gateway | T38FaxUDPEC
| AlwaysTranscode | StripAllCodecs | PtimeReverse | All | SIPREC | EarlyMedia.

Inductive IntField :=
| TOS | MediaTimeout | SessionTimeout | DeleteDelay | DelayBuffer | RTCPInterval | Ptime.

Inductive StrField :=
| DTLSFingerprint | AddressFamily | MediaAddress | Interface | FromInterface | ToInterface
| ReceivedFrom | Label | SetLabel | FromLabel | ToLabel
| RecordingFile | RecordingPath | RecordingPattern | ViaBranch.

Inductive ListField :=
| SDESNoCrypto | TranscodeCodecs | StripCodecs | OfferCodecs | MaskCodecs | SetCodecs | ExceptCodecs.

Scheme Equality for BoolField.
#[export] Instance BoolField_EqDecision : EqDecision BoolField := BoolField_eq_dec.
#[export] Instance IntField_eq_dec : EqDecision IntField.
Proof. solve_decision. Defined.
#[export] Instance StrField_eq_dec : EqDecision StrField.
Proof. solve_decision. Defined.
#[export] Instance ListField_eq_dec : EqDecision ListField.
Proof. solve_decision. Defined.

Record ParsedFlags := mkParsedFlags {
  pf_bool : BoolField -> bool;
  pf_int : IntField -> Z;
  pf_str : StrField -> bytes;
  pf_list : ListField -> list bytes;
  RecordingMetadata : option (list (bytes * bytes))
}.

#[export] Instance set_pf_bool : Setter pf_bool := fun f r =>
  mkParsedFlags (f (pf_bool r)) (pf_int r) (pf_str r) (pf_list r) (RecordingMetadata r).
#[export] Instance set_pf_int : Setter pf_int := fun f r =>
  mkParsedFlags (pf_bool r) (f (pf_int r)) (pf_str r) (pf_list r) (RecordingMetadata r).
#[export] Instance set_pf_str : Setter pf_str := fun f r =>
  mkParsedFlags (pf_bool r) (pf_int r) (f (pf_str r)) (pf_list r) (RecordingMetadata r).
#[export] Instance set_pf_list : Setter pf_list := fun f r =>
  mkParsedFlags (pf_bool r) (pf_int r) (pf_str r) (f (pf_list r)) (RecordingMetadata r).

(** [pf.F = true], [pf.F = v] and [pf.F = append(pf.F, v)]. *)
Definition set_true (f : BoolField) (pf : ParsedFlags) : ParsedFlags := pf <| pf_bool ::= <[f := true]> |>.
Definition assign_int (f : IntField) (v : Z) (pf : ParsedFlags) : ParsedFlags := pf <| pf_int ::= <[f := v]> |>.
Definition assign_str (f : StrField) (v : bytes) (pf : ParsedFlags) : ParsedFlags := pf <| pf_str ::= <[f := v]> |>.
Definition append_to (f : ListField) (v : bytes) (pf : ParsedFlags) : ParsedFlags :=
  pf <| pf_list ::= fun l => <[f := l f ++ [v]]> l |>.

(** ** Operations *)

(** Go's [switch] on a string: the first case one of whose labels is the value. *)
Fixpoint switch {A : Type} (v : bytes) (cases : list (list string * A)) (otherwise : A) : A :=
  match cases with
  | [] => otherwise
  | (labels, a) :: cases =>
      if bool_decide (v ∈ map bs labels) then a else switch v cases otherwise
  end.

(** [for i := 0; i <= len(s)-len(substr); i++], on the suffix at [i]. *)
Fixpoint indexOf_loop (i : Z) (s substr : bytes) : Z :=
  if (length s <? length substr)%nat then -1
  else if bool_decide (take (length substr) s = substr) then i
  else match s with
       | [] => -1
       | _ :: s' => indexOf_loop (i + 1) s' substr
       end.
Definition indexOf (s substr : bytes) : Z := indexOf_loop 0 s substr.

(** Go ranges over runes; a byte that is not ASCII belongs to a rune above
    ['9'], so the loop over bytes returns [-1] at the same point. *)
Fixpoint parseInt_loop (v : Z) (s : bytes) : Z :=
  match s with
  | [] => v
  | c :: s' =>
      let c := Z.of_N (N_of_ascii c) in
      if (c <? 48) || (57 <? c) then -1
      else parseInt_loop (i64 (i64 (v * 10) + (c - 48))) s'
  end.
Definition parseIntValue (s : bytes) : Z := parseInt_loop 0 s.

(** The inner switches of the [ICE], [DTLS] and [SDES] keys. *)
Definition ice_value (pf : ParsedFlags) (value : bytes) : ParsedFlags :=
  switch value [
    (["remove"], set_true ICERemove pf);
    (["force"], set_true ICEForce pf);
    (["force-relay"], set_true ICEForceRelay pf);
    (["default"], set_true ICEDefault pf);
    (["lite"], set_true ICELite pf)]%string pf.
Definition dtls_value (pf : ParsedFlags) (value : bytes) : ParsedFlags :=
  switch value [
    (["off"], set_true DTLSOff pf);
    (["passive"], set_true DTLSPassive pf);
    (["active"], set_true DTLSActive pf)]%string pf.
Definition sdes_value (pf : ParsedFlags) (value : bytes) : ParsedFlags :=
  switch value [
    (["off"], set_true SDESOff pf);
    (["on"], set_true SDESOn pf);
    (["only"], set_true SDESOnly pf)]%string pf.

Definition parseKeyValueFlag (pf : ParsedFlags) (key value : bytes) : ParsedFlags :=
  let v := parseIntValue value in
  switch key [
    (["ICE"], ice_value pf value);
    (["DTLS"], dtls_value pf value);
    (["SDES"], sdes_value pf value);
    (["TOS"; "tos"], if v >=? 0 then set_true TOSSet (assign_int TOS v pf) else pf);
    (["media-timeout"], if v >=? 0 then assign_int MediaTimeout v pf else pf);
    (["session-timeout"], if v >=? 0 then assign_int SessionTimeout v pf else pf);
    (["delete-delay"], if v >=? 0 then assign_int DeleteDelay v pf else pf);
    (["delay-buffer"], if v >=? 0 then assign_int DelayBuffer v pf else pf);
    (["frequency"; "rtcp-interval"], if v >=? 0 then assign_int RTCPInterval v pf else pf);
    (["ptime"], if v >? 0 then assign_int Ptime v pf else pf);
    (["address-family"], assign_str AddressFamily value pf);
    (["media-address"], assign_str MediaAddress value pf);
    (["interface"], assign_str Interface value pf);
    (["from-interface"], assign_str FromInterface value pf);
    (["to-interface"], assign_str ToInterface value pf);
    (["received-from"], assign_str ReceivedFrom value pf);
    (["label"], assign_str Label value pf);
    (["set-label"], assign_str SetLabel value pf);
    (["from-label"], assign_str FromLabel value pf);
    (["to-label"], assign_str ToLabel value pf);
    (["via-branch"], assign_str ViaBranch value pf);
    (["recording-file"], assign_str RecordingFile value pf);
    (["recording-path"], assign_str RecordingPath value pf);
    (["recording-pattern"], assign_str RecordingPattern value pf);
    (["codec-strip"; "strip-codec"], append_to StripCodecs value pf);
    (["codec-offer"; "offer-codec"], append_to OfferCodecs value pf);
    (["codec-mask"; "mask-codec"], append_to MaskCodecs value pf);
    (["codec-transcode"; "transcode"], append_to TranscodeCodecs value pf);
    (["codec-set"], append_to SetCodecs value pf);
    (["codec-except"], append_to ExceptCodecs value pf);
    (["DTLS-fingerprint"], assign_str DTLSFingerprint value pf);
    (["SDES-no"], append_to SDESNoCrypto value pf)]%string pf.

(** The boolean flags: the media, ICE, DTLS, SDES, SDP and direction cases of
    the switch, then the recording, blocking, RTCP, transport and other ones. *)
Definition media_cases : list (list string * BoolField) := [
    (["asymmetric-codecs"], AsymmetricCodecs);
    (["symmetric-codecs"], SymmetricCodecs);
    (["asymmetric"], Asymmetric);
    (["symmetric"], Symmetric);
    (["unidirectional"], Unidirectional);
    (["strict-source"], StrictSource);
    (["media-handover"], MediaHandover);
    (["reset"], Reset);
    (["no-ice"], ICERemove);
    (["force-ice"], ICEForce);
    (["ICE-lite"; "ice-lite"], ICELite);
    (["trickle-ice"], TrickleICE);
    (["generate-mid"], GenerateMID);
    (["DTLS-passive"; "dtls-passive"], DTLSPassive);
    (["DTLS-active"; "dtls-active"], DTLSActive);
    (["DTLS-off"; "dtls-off"; "no-dtls"], DTLSOff);
    (["DTLS-reverse"; "dtls-reverse"], DTLSReverse);
    (["SDES-off"; "sdes-off"; "no-sdes"], SDESOff);
    (["SDES-on"; "sdes-on"], SDESOn);
    (["SDES-only"; "sdes-only"], SDESOnly);
    (["SDES-unencrypted_srtp"; "unencrypted-srtp"], SDESUnencryptedSRTP);
    (["SDES-unencrypted_srtcp"; "unencrypted-srtcp"], SDESUnencryptedSRTCP);
    (["SDES-unauthenticated"], SDESUnauthenticated);
    (["SDES-pad"], SDESPad);
    (["replace-origin"], ReplaceOrigin);
    (["replace-session-connection"], ReplaceSessionConnection);
    (["replace-sdp-version"], ReplaceSDPVersion);
    (["replace-username"], ReplaceUsername);
    (["replace-session-name"], ReplaceSessionName);
    (["trust-address"], TrustAddress);
    (["SIP-source-address"; "sip-source-address"], SIPSourceAddress);
    (["port-latching"], PortLatching);
    (["no-port-latching"], NoPortLatching);
    (["original-sendrecv"], OriginalSendrecv);
    (["sendonly"; "send-only"], SendOnly);
    (["recvonly"; "recv-only"], RecvOnly);
    (["inactive"], Inactive);
    (["symmetric-incoming"], SymmetricIncoming);
    (["direct-media"], DirectMedia)]%string.

Definition session_cases : list (list string * BoolField) := [
    (["record-call"], RecordCall);
    (["start-recording"], StartRecording);
    (["stop-recording"], StopRecording);
    (["pause-recording"], PauseRecording);
    (["SIPREC"; "siprec"], SIPREC);
    (["block-media"], BlockMedia);
    (["unblock-media"], UnblockMedia);
    (["silence-media"], SilenceMedia);
    (["block-dtmf"], BlockDTMF);
    (["unblock-dtmf"], UnblockDTMF);
    (["rtcp-mux"], RTCPMUX);
    (["rtcp-mux-demux"], RTCPMUXDemux);
    (["rtcp-mux-accept"], RTCPMUXAccept);
    (["rtcp-mux-offer"], RTCPMUXOffer);
    (["rtcp-mux-require"], RTCPMUXRequire);
    (["no-rtcp-attribute"], NoRTCPAttribute);
    (["full-rtcp-attribute"], FullRTCPAttribute);
    (["generate-rtcp"], GenerateRTCP);
    (["RTP/AVP"], RTPAVP);
    (["RTP/SAVP"], RTPSAVP);
    (["RTP/AVPF"], RTPAVPF);
    (["RTP/SAVPF"], RTPSAVPF);
    (["UDP/TLS/RTP/SAVPF"; "UDP/TLS/RTP/SAVP"], UDPTLS);
    (["loop-protect"], LoopProtect);
    (["media-echo"], MediaEcho);
    (["webrtc"], WebRTCEnabled);
    (["T.38"; "t38"; "T38"], T38Support);
    (["T.38-gateway"; "t38-gateway"], T38Gateway);
    (["T.38-fax-udp-ec"], T38FaxUDPEC);
    (["always-transcode"], AlwaysTranscode);
    (["codec-strip-all"; "strip-all-codecs"], StripAllCodecs);
    (["ptime-reverse"], PtimeReverse);
    (["all"], All);
    (["early-media"], EarlyMedia)]%string.

Definition boolean_cases : list (list string * option BoolField) :=
  map (fun c => (c.1, Some c.2)) (media_cases ++ session_cases).

(** The struct [ParseFlags] starts from: every integer is [-1]. *)
Definition initial_flags : ParsedFlags :=
  mkParsedFlags (fun _ => false) (fun _ => -1) (fun _ => []) (fun _ => []) None.

(** The body of the loop over the flags. *)
Definition parse_flag (pf : ParsedFlags) (flag : bytes) : ParsedFlags :=
  let idx := indexOf flag (bs "=") in
  if idx >? 0 then
    parseKeyValueFlag pf (take (Z.to_nat idx) flag) (drop (Z.to_nat (idx + 1)) flag)
  else
    match switch flag boolean_cases None with
    | Some f => set_true f pf
    | None => pf
    end.

Definition ParseFlags (flags : list bytes) : ParsedFlags := foldl parse_flag initial_flags flags.

Example ParseFlags_ex :
  let pf := ParseFlags (map bs ["rtcp-mux-offer"; "ICE=remove"; "TOS=184"; "codec-strip=PCMU"; "strip-codec=G729"; "label="])%string in
  (pf_bool pf RTCPMUXOffer, pf_bool pf ICERemove, pf_bool pf TOSSet, pf_int pf TOS, pf_list pf StripCodecs)
  = (true, true, true, 184, [bs "PCMU"; bs "G729"]).
Proof. vm_compute. reflexivity. Qed.

(** ** Specification: what sets each field *)

(** The flags that set a boolean field, one per accepted spelling. *)
Definition spellings (f : BoolField) : list string :=
  match f with
  | AsymmetricCodecs => ["asymmetric-codecs"]
  | SymmetricCodecs => ["symmetric-codecs"]
  | Asymmetric => ["asymmetric"]
  | Symmetric => ["symmetric"]
  | Unidirectional => ["unidirectional"]
  | StrictSource => ["strict-source"]
  | MediaHandover => ["media-handover"]
  | Reset => ["reset"]
  | ICERemove => ["no-ice"; "ICE=remove"]
  | ICEForce => ["force-ice"; "ICE=force"]
  | ICEForceRelay => ["ICE=force-relay"]
  | ICELite => ["ICE-lite"; "ice-lite"; "ICE=lite"]
  | ICEDefault => ["ICE=default"]
  | TrickleICE => ["trickle-ice"]
  | GenerateMID => ["generate-mid"]
  | DTLSOff => ["DTLS-off"; "dtls-off"; "no-dtls"; "DTLS=off"]
  | DTLSPassive => ["DTLS-passive"; "dtls-passive"; "DTLS=passive"]
  | DTLSActive => ["DTLS-active"; "dtls-active"; "DTLS=active"]
  | DTLSReverse => ["DTLS-reverse"; "dtls-reverse"]
  | SDESOff => ["SDES-off"; "sdes-off"; "no-sdes"; "SDES=off"]
  | SDESOn => ["SDES-on"; "sdes-on"; "SDES=on"]
  | SDESOnly => ["SDES-only"; "sdes-only"; "SDES=only"]
  | SDESUnencryptedSRTP => ["SDES-unencrypted_srtp"; "unencrypted-srtp"]
  | SDESUnencryptedSRTCP => ["SDES-unencrypted_srtcp"; "unencrypted-srtcp"]
  | SDESUnauthenticated => ["SDES-unauthenticated"]
  | SDESPad => ["SDES-pad"]
  | ReplaceOrigin => ["replace-origin"]
  | ReplaceSessionConnection => ["replace-session-connection"]
  | ReplaceSDPVersion => ["replace-sdp-version"]
  | ReplaceUsername => ["replace-username"]
  | ReplaceSessionName => ["replace-session-name"]
  | TrustAddress => ["trust-address"]
  | SIPSourceAddress => ["SIP-source-address"; "sip-source-address"]
  | PortLatching => ["port-latching"]
  | NoPortLatching => ["no-port-latching"]
  | OriginalSendrecv => ["original-sendrecv"]
  | SendOnly => ["sendonly"; "send-only"]
  | RecvOnly => ["recvonly"; "recv-only"]
  | Inactive => ["inactive"]
  | SymmetricIncoming => ["symmetric-incoming"]
  | DirectMedia => ["direct-media"]
  | RecordCall => ["record-call"]
  | StartRecording => ["start-recording"]
  | StopRecording => ["stop-recording"]
  | PauseRecording => ["pause-recording"]
  | BlockMedia => ["block-media"]
  | UnblockMedia => ["unblock-media"]
  | SilenceMedia => ["silence-media"]
  | BlockDTMF => ["block-dtmf"]
  | UnblockDTMF => ["unblock-dtmf"]
  | RTCPMUX => ["rtcp-mux"]
  | RTCPMUXDemux => ["rtcp-mux-demux"]
  | RTCPMUXAccept => ["rtcp-mux-accept"]
  | RTCPMUXOffer => ["rtcp-mux-offer"]
  | RTCPMUXRequire => ["rtcp-mux-require"]
  | NoRTCPAttribute => ["no-rtcp-attribute"]
  | FullRTCPAttribute => ["full-rtcp-attribute"]
  | GenerateRTCP => ["generate-rtcp"]
  | RTPAVP => ["RTP/AVP"]
  | RTPSAVP => ["RTP/SAVP"]
  | RTPAVPF => ["RTP/AVPF"]
  | RTPSAVPF => ["RTP/SAVPF"]
  | UDPTLS => ["UDP/TLS/RTP/SAVPF"; "UDP/TLS/RTP/SAVP"]
  | LoopProtect => ["loop-protect"]
  | MediaEcho => ["media-echo"]
  | WebRTCEnabled => ["webrtc"]
  | TOSSet => []
  | T38Support => ["T.38"; "t38"; "T38"]
  | T38Gateway => ["T.38-gateway"; "t38-gateway"]
  | T38FaxUDPEC => ["T.38-fax-udp-ec"]
  | AlwaysTranscode => ["always-transcode"]
  | StripAllCodecs => ["codec-strip-all"; "strip-all-codecs"]
  | PtimeReverse => ["ptime-reverse"]
  | All => ["all"]
  | SIPREC => ["SIPREC"; "siprec"]
  | EarlyMedia => ["early-media"]
  end%string.

(** The keys whose value an integer, a string or a slice field takes. *)
Definition int_keys (f : IntField) : list string :=
  match f with
  | TOS => ["TOS"; "tos"]
  | MediaTimeout => ["media-timeout"]
  | SessionTimeout => ["session-timeout"]
  | DeleteDelay => ["delete-delay"]
  | DelayBuffer => ["delay-buffer"]
  | RTCPInterval => ["frequency"; "rtcp-interval"]
  | Ptime => ["ptime"]
  end%string.
Definition str_keys (f : StrField) : list string :=
  match f with
  | DTLSFingerprint => ["DTLS-fingerprint"]
  | AddressFamily => ["address-family"]
  | MediaAddress => ["media-address"]
  | Interface => ["interface"]
  | FromInterface => ["from-interface"]
  | ToInterface => ["to-interface"]
  | ReceivedFrom => ["received-from"]
  | Label => ["label"]
  | SetLabel => ["set-label"]
  | FromLabel => ["from-label"]
  | ToLabel => ["to-label"]
  | RecordingFile => ["recording-file"]
  | RecordingPath => ["recording-path"]
  | RecordingPattern => ["recording-pattern"]
  | ViaBranch => ["via-branch"]
  end%string.
Definition list_keys (f : ListField) : list string :=
  match f with
  | SDESNoCrypto => ["SDES-no"]
  | TranscodeCodecs => ["codec-transcode"; "transcode"]
  | StripCodecs => ["codec-strip"; "strip-codec"]
  | OfferCodecs => ["codec-offer"; "offer-codec"]
  | MaskCodecs => ["codec-mask"; "mask-codec"]
  | SetCodecs => ["codec-set"]
  | ExceptCodecs => ["codec-except"]
  end%string.

(** A flag [key=value] with a non-empty key, cut at its first [=]. *)
Definition key_value (flag : bytes) : option (bytes * bytes) :=
  match IndexByte flag "=" with
  | Some (S n) => Some (take (S n) flag, drop (S (S n)) flag)
  | _ => None
  end.

(** The value a flag gives to a field with the given keys. *)
Definition value_for (keys : list string) (flag : bytes) : option bytes :=
  match key_value flag with
  | Some (k, v) => if bool_decide (k ∈ map bs keys) then Some v else None
  | None => None
  end.

(** The integers a field accepts: digits only, the value as a 64-bit [int],
    not negative, and for [Ptime] not zero. *)
Definition accepted_int (f : IntField) (v : bytes) : option Z :=
  match parse_digits 0 v with
  | None => None
  | Some n =>
      if (match f with Ptime => 0 <? i64 n | _ => 0 <=? i64 n end) then Some (i64 n) else None
  end.
Definition int_for (f : IntField) (flag : bytes) : option Z :=
  match value_for (int_keys f) flag with
  | Some v => accepted_int f v
  | None => None
  end.

Definition known_keys : list string := [
  "ICE"; "DTLS"; "SDES"; "TOS"; "tos"; "media-timeout"; "session-timeout"; "delete-delay"; "delay-buffer"; "frequency"; "rtcp-interval"; "ptime"; "address-family"; "media-address"; "interface"; "from-interface"; "to-interface"; "received-from"; "label"; "set-label"; "from-label"; "to-label"; "via-branch"; "recording-file"; "recording-path"; "recording-pattern"; "codec-strip"; "strip-codec"; "codec-offer"; "offer-codec"; "codec-mask"; "mask-codec"; "codec-transcode"; "transcode"; "codec-set"; "codec-except"; "DTLS-fingerprint"; "SDES-no"]%string.

(** ** Lemmas *)

Lemma switch_spec {A} (P : A -> Prop) v (cases : list (list string * A)) d :
  Forall (fun c => v ∈ map bs c.1 -> P c.2) cases ->
  (Forall (fun c => v ∉ map bs c.1) cases -> P d) -> P (switch v cases d).
Proof.
  induction 1 as [|[ls a] cases Ha Hcases IH]; simpl; intros Hd; [by apply Hd|].
  case_bool_decide; [by apply Ha|]. apply IH. intros. apply Hd. by constructor.
Qed.

Lemma switch_miss {A} v (cases : list (list string * A)) d :
  v ∉ map bs (concat (cases.*1)) -> switch v cases d = d.
Proof.
  induction cases as [|[ls a] cases IH]; simpl; [done|]. rewrite map_app, elem_of_app. intros Hv.
  rewrite bool_decide_eq_false_2 by tauto. apply IH. tauto.
Qed.

Lemma indexOf_loop_eq i s c :
  indexOf_loop i s [c] = match IndexByte s c with Some n => i + Z.of_nat n | None => -1 end.
Proof.
  revert i; induction s as [|x s IH]; intros i; [done|]. cbn [indexOf_loop IndexByte length].
  replace (S (length s) <? 1)%nat with false by (symmetry; apply Nat.ltb_ge; lia).
  cbn [take]. rewrite IH.
  destruct (decide (x = c)) as [->|Hne].
  - rewrite !bool_decide_eq_true_2 by done. lia.
  - rewrite !bool_decide_eq_false_2 by congruence. destruct (IndexByte s c); simpl; lia.
Qed.

Lemma parse_flag_eq pf flag :
  parse_flag pf flag =
  match key_value flag with
  | Some (k, v) => parseKeyValueFlag pf k v
  | None => match switch flag boolean_cases None with Some f => set_true f pf | None => pf end
  end.
Proof.
  unfold parse_flag, key_value, indexOf, bs. simpl list_ascii_of_string.
  rewrite indexOf_loop_eq. destruct (IndexByte flag "=") as [[|n]|]; try done.
  destruct (Z.gtb_spec (0 + Z.of_nat (S n)) 0); [|lia].
  do 2 f_equal; lia.
Qed.

Lemma key_value_Some flag k v :
  key_value flag = Some (k, v) -> flag = k ++ "="%char :: v /\ k <> [].
Proof.
  unfold key_value. destruct (IndexByte flag "=") as [[|n]|] eqn:E; intros; simplify_eq.
  assert (forall s m, IndexByte s "=" = Some m -> s = take m s ++ "="%char :: drop (S m) s) as Hsplit.
  { clear. induction s as [|x s IH]; intros m; simpl; [done|]. case_bool_decide; simplify_eq/=.
    - intros; by simplify_eq/=.
    - destruct (IndexByte s "=") as [m'|] eqn:E; intros; simplify_eq/=. f_equal. by apply IH. }
  split; [by apply Hsplit|]. destruct flag; [done|]. done.
Qed.

Lemma parseInt_loop_eq v s : is_s 64 v ->
  parseInt_loop v s = match parse_digits v s with Some n => i64 n | None => -1 end.
Proof.
  enough (forall s v n, v = i64 n ->
    parseInt_loop v s = match parse_digits n s with Some n => i64 n | None => -1 end) as H.
  { intros Hv. apply H. by rewrite wraps_id. }
  clear. induction s as [|c s IH]; intros v n Hv; simpl; [done|].
  unfold digit_val. set (z := Z.of_N (N_of_ascii c)).
  replace ((48 <=? z) && (z <=? 57)) with (negb ((z <? 48) || (57 <? z))) by lia.
  destruct ((z <? 48) || (57 <? z)); simpl; [done|]. apply IH. subst v.
  by rewrite wraps_mul_l, wraps_add_l by lia.
Qed.

Lemma parseIntValue_eq s :
  parseIntValue s = match parse_digits 0 s with Some n => i64 n | None => -1 end.
Proof. by apply parseInt_loop_eq. Qed.

(** Case analysis on a key: one of the known ones, or no case of the switch. *)
Lemma parseKeyValueFlag_unknown pf k v : k ∉ map bs known_keys -> parseKeyValueFlag pf k v = pf.
Proof. intros Hk. apply switch_miss. exact Hk. Qed.

Ltac each_member H :=
  repeat (apply elem_of_cons in H as [->|H]); [..|by apply elem_of_nil in H].
Ltac each_key k :=
  let Hk := fresh "Hk" in
  destruct (decide (k ∈ map bs known_keys)) as [Hk|Hk];
  [ unfold known_keys in Hk; cbn [map] in Hk; each_member Hk;
    match goal with |- context [parseKeyValueFlag ?pf ?k ?v] =>
      let r := eval lazy -[ice_value dtls_value sdes_value set_true assign_int assign_str append_to parseIntValue Z.geb Z.gtb]
               in (parseKeyValueFlag pf k v) in
      change (parseKeyValueFlag pf k v) with r end
  | rewrite parseKeyValueFlag_unknown by done ].

Definition valued (pf : ParsedFlags) := (pf_int pf, pf_str pf, pf_list pf).

Lemma boolean_values_only pf v :
  valued (ice_value pf v) = valued pf /\ valued (dtls_value pf v) = valued pf /\
  valued (sdes_value pf v) = valued pf.
Proof.
  repeat split; apply (switch_spec (fun r => valued r = valued pf)); intros; try done;
    repeat constructor; intros; done.
Qed.

(** Closes a goal about one field with values, after a known key: the inner
    switches leave the field alone, and the comparison of names computes. *)
Ltac field_case f :=
  repeat match goal with H : valued _ = valued _ |- _ => unfold valued in H; injection H as ? ? ? end;
  repeat match goal with
         | H : ?p (ice_value _ _) = _ |- context [?p (ice_value _ _)] => rewrite H
         | H : ?p (dtls_value _ _) = _ |- context [?p (dtls_value _ _)] => rewrite H
         | H : ?p (sdes_value _ _) = _ |- context [?p (sdes_value _ _)] => rewrite H
         end;
  repeat match goal with
         | |- context [if Z.geb ?a ?b then _ else _] => destruct (Z.geb a b) eqn:?
         | |- context [if Z.gtb ?a ?b then _ else _] => destruct (Z.gtb a b) eqn:?
         end; destruct f; reflexivity.

(** An unknown key is no field's. *)
Lemma unknown_key k ks :
  forallb (fun x => bool_decide (x ∈ known_keys)) ks = true -> k ∉ map bs known_keys ->
  bool_decide (k ∈ map bs ks) = false.
Proof.
  intros Hks Hk. apply bool_decide_eq_false_2. intros (x & -> & Hx)%list_elem_of_fmap. apply Hk.
  apply list_elem_of_fmap_2, (bool_decide_eq_true_1 _).
  rewrite forallb_forall in Hks. apply Hks. by apply list_elem_of_In.
Qed.

Lemma parseKeyValueFlag_str pf k v f :
  pf_str (parseKeyValueFlag pf k v) f = if bool_decide (k ∈ map bs (str_keys f)) then v else pf_str pf f.
Proof.
  destruct (boolean_values_only pf v) as (HI & HD & HS). each_key k.
  all: try field_case f.
  rewrite unknown_key; by destruct f.
Qed.

Lemma parseKeyValueFlag_list pf k v f :
  pf_list (parseKeyValueFlag pf k v) f =
  if bool_decide (k ∈ map bs (list_keys f)) then pf_list pf f ++ [v] else pf_list pf f.
Proof.
  destruct (boolean_values_only pf v) as (HI & HD & HS). each_key k.
  all: try field_case f.
  rewrite unknown_key; by destruct f.
Qed.

Lemma accepted_int_eq f v :
  accepted_int f v =
  let n := parseIntValue v in
  if (match f with Ptime => n >? 0 | _ => n >=? 0 end) then Some n else None.
Proof.
  unfold accepted_int. rewrite parseIntValue_eq. destruct (parse_digits 0 v) as [n|].
  - cbv zeta. rewrite Z.gtb_ltb, Z.geb_leb. by destruct f.
  - by destruct f.
Qed.

Lemma parseKeyValueFlag_int pf k v f :
  pf_int (parseKeyValueFlag pf k v) f =
  if bool_decide (k ∈ map bs (int_keys f)) then default (pf_int pf f) (accepted_int f v) else pf_int pf f.
Proof.
  destruct (boolean_values_only pf v) as (HI & HD & HS). rewrite accepted_int_eq. cbv zeta. each_key k.
  all: try field_case f.
  rewrite unknown_key; by destruct f.
Qed.

(** The boolean field that a flag sets, if any. *)
Definition ice_sets (v : bytes) : option BoolField :=
  switch v [(["remove"], Some ICERemove); (["force"], Some ICEForce); (["force-relay"], Some ICEForceRelay);
            (["default"], Some ICEDefault); (["lite"], Some ICELite)]%string None.
Definition dtls_sets (v : bytes) : option BoolField :=
  switch v [(["off"], Some DTLSOff); (["passive"], Some DTLSPassive); (["active"], Some DTLSActive)]%string None.
Definition sdes_sets (v : bytes) : option BoolField :=
  switch v [(["off"], Some SDESOff); (["on"], Some SDESOn); (["only"], Some SDESOnly)]%string None.
Definition value_sets (k v : bytes) : option BoolField :=
  switch k [(["ICE"], ice_sets v); (["DTLS"], dtls_sets v); (["SDES"], sdes_sets v)]%string None.
Definition flag_sets (flag : bytes) : option BoolField :=
  match key_value flag with
  | Some (k, v) => value_sets k v
  | None => switch flag boolean_cases None
  end.

Lemma pf_bool_set_true pf g f :
  pf_bool (set_true g pf) f = if bool_decide (Some g = Some f) then true else pf_bool pf f.
Proof.
  unfold set_true, set_field, set_pf_bool. cbn [pf_bool]. destruct (decide (g = f)) as [->|Hne].
  - rewrite fn_lookup_insert. by rewrite bool_decide_eq_true_2.
  - rewrite fn_lookup_insert_ne by done. by rewrite bool_decide_eq_false_2 by congruence.
Qed.

(** [switch] commutes with a function of its result. *)
Lemma switch_map {A B} (g : A -> B) v cases d :
  g (switch v cases d) = switch v (map (fun c => (c.1, g c.2)) cases) (g d).
Proof. induction cases as [|[ls a] cases IH]; simpl; [done|]. by case_bool_decide. Qed.

Lemma inner_values_bool pf v f :
  let eff (o : option BoolField) := if bool_decide (o = Some f) then true else pf_bool pf f in
  pf_bool (ice_value pf v) f = eff (ice_sets v) /\
  pf_bool (dtls_value pf v) f = eff (dtls_sets v) /\
  pf_bool (sdes_value pf v) f = eff (sdes_sets v).
Proof.
  intros eff. repeat split.
  all: unfold ice_value, dtls_value, sdes_value, ice_sets, dtls_sets, sdes_sets;
    rewrite (switch_map (fun r => pf_bool r f)), (switch_map eff); cbn [map fst snd];
    by rewrite !pf_bool_set_true.
Qed.

Lemma parseKeyValueFlag_bool pf k v f : f <> TOSSet ->
  pf_bool (parseKeyValueFlag pf k v) f =
  if bool_decide (value_sets k v = Some f) then true else pf_bool pf f.
Proof.
  intros Hf. destruct (inner_values_bool pf v f) as (HI & HD & HS). each_key k.
  1-3: assumption.
  all: cbn [value_sets].
  all: try (repeat match goal with
         | |- context [if Z.geb ?a ?b then _ else _] => destruct (Z.geb a b) eqn:?
         | |- context [if Z.gtb ?a ?b then _ else _] => destruct (Z.gtb a b) eqn:?
         end; rewrite ?pf_bool_set_true, ?(bool_decide_eq_false_2 (Some TOSSet = Some f)) by congruence; reflexivity).
  unfold value_sets. rewrite switch_miss; [done|].
  apply (bool_decide_eq_false_1 _), (unknown_key k ["ICE"; "DTLS"; "SDES"]%string); done.
Qed.

Lemma parse_flag_bool pf flag f : f <> TOSSet ->
  pf_bool (parse_flag pf flag) f = if bool_decide (flag_sets flag = Some f) then true else pf_bool pf f.
Proof.
  intros Hf. rewrite parse_flag_eq. unfold flag_sets.
  destruct (key_value flag) as [[k v]|]; [by apply parseKeyValueFlag_bool|].
  destruct (switch flag boolean_cases None) as [g|]; [by rewrite pf_bool_set_true|done].
Qed.

(** The spellings of a field are exactly the flags that set it. *)
Lemma spelling_sets f s : s ∈ spellings f -> flag_sets (bs s) = Some f.
Proof.
  assert (forallb (fun s => bool_decide (flag_sets (bs s) = Some f)) (spellings f) = true) as H
    by (destruct f; vm_compute; reflexivity).
  intros Hs. rewrite forallb_forall in H. apply (bool_decide_eq_true_1 _), H. by apply list_elem_of_In.
Qed.

Lemma simple_flag_spelled flag f :
  switch flag boolean_cases None = Some f -> flag ∈ map bs (spellings f).
Proof.
  assert (forallb (fun c => forallb (fun l => bool_decide (l ∈ spellings c.2)) c.1)
            (media_cases ++ session_cases) = true) as H by (vm_compute; reflexivity).
  revert f. apply (switch_spec (fun o => forall f, o = Some f -> flag ∈ map bs (spellings f))); [|done].
  apply Forall_forall. intros c ([ls g] & -> & Hc)%list_elem_of_fmap Hl f [= <-]. cbn [fst snd] in *.
  rewrite forallb_forall in H. apply list_elem_of_In, H in Hc. simpl in Hc.
  apply list_elem_of_fmap in Hl as (l & -> & Hl). apply list_elem_of_fmap_2.
  rewrite forallb_forall in Hc. apply (bool_decide_eq_true_1 _), Hc. by apply list_elem_of_In.
Qed.

Lemma value_flag_spelled k v f :
  value_sets k v = Some f -> k ++ "="%char :: v ∈ map bs (spellings f).
Proof.
  set (P o := o = Some f -> k ++ "="%char :: v ∈ map bs (spellings f)).
  assert (P (value_sets k v)) as HP; [|exact HP].
  unfold value_sets, ice_sets, dtls_sets, sdes_sets. apply switch_spec; [|done].
  repeat constructor; cbn [fst snd map]; intros ->%list_elem_of_singleton; (apply switch_spec; [|done]);
    repeat constructor; cbn [fst snd map]; intros ->%list_elem_of_singleton; unfold P; intros [= <-];
    vm_compute; tauto || (repeat constructor).
Qed.

Lemma flag_sets_spelled flag f : flag_sets flag = Some f <-> flag ∈ map bs (spellings f).
Proof.
  split; [|by intros (s & -> & Hs)%list_elem_of_fmap; apply spelling_sets].
  unfold flag_sets. destruct (key_value flag) as [[k v]|] eqn:E; [|apply simple_flag_spelled].
  apply key_value_Some in E as [-> _]. apply value_flag_spelled.
Qed.

(** ** What the flag list means *)

Lemma ParseFlags_snoc flags flag : ParseFlags (flags ++ [flag]) = parse_flag (ParseFlags flags) flag.
Proof. unfold ParseFlags. by rewrite foldl_snoc. Qed.

Lemma omap_snoc {A B} (g : A -> option B) l x :
  omap g (l ++ [x]) = omap g l ++ match g x with Some y => [y] | None => [] end.
Proof. rewrite omap_app. simpl. by destruct (g x). Qed.

Lemma parse_flag_int pf flag f :
  pf_int (parse_flag pf flag) f = default (pf_int pf f) (int_for f flag).
Proof.
  rewrite parse_flag_eq. unfold int_for, value_for. destruct (key_value flag) as [[k v]|].
  - rewrite parseKeyValueFlag_int. by case_bool_decide.
  - by destruct (switch _ _ _).
Qed.

Lemma parse_flag_str pf flag f :
  pf_str (parse_flag pf flag) f = default (pf_str pf f) (value_for (str_keys f) flag).
Proof.
  rewrite parse_flag_eq. unfold value_for. destruct (key_value flag) as [[k v]|].
  - rewrite parseKeyValueFlag_str. by case_bool_decide.
  - by destruct (switch _ _ _).
Qed.

Lemma parse_flag_list pf flag f :
  pf_list (parse_flag pf flag) f =
  pf_list pf f ++ match value_for (list_keys f) flag with Some v => [v] | None => [] end.
Proof.
  rewrite parse_flag_eq. unfold value_for. destruct (key_value flag) as [[k v]|].
  - rewrite parseKeyValueFlag_list. case_bool_decide; by rewrite ?app_nil_r.
  - destruct (switch _ _ _); by rewrite app_nil_r.
Qed.

(** Overwriting assignments: the last one wins. *)
Lemma last_assignment {A} (get : ParsedFlags -> A) (g : bytes -> option A) flags :
  (forall pf flag, get (parse_flag pf flag) = default (get pf) (g flag)) ->
  get (ParseFlags flags) = default (get initial_flags) (last (omap g flags)).
Proof.
  intros Hstep. induction flags as [|flag flags IH] using rev_ind; [done|].
  rewrite ParseFlags_snoc, Hstep, omap_snoc, IH.
  destruct (g flag); [by rewrite last_snoc|by rewrite app_nil_r].
Qed.

(** [TOSSet] records that [TOS] was assigned. *)
Lemma parseKeyValueFlag_TOSSet pf k v :
  pf_bool (parseKeyValueFlag pf k v) TOSSet =
  if bool_decide (k ∈ map bs (int_keys TOS)) then
    match accepted_int TOS v with Some _ => true | None => pf_bool pf TOSSet end
  else pf_bool pf TOSSet.
Proof.
  destruct (inner_values_bool pf v TOSSet) as (HI & HD & HS).
  assert (forall k, value_sets k v <> Some TOSSet) as Hn
    by (intros k' [=(s & _ & Hs)%value_flag_spelled%list_elem_of_fmap]; by apply elem_of_nil in Hs).
  rewrite (bool_decide_eq_false_2 _ (Hn (bs "ICE"))) in HI.
  rewrite (bool_decide_eq_false_2 _ (Hn (bs "DTLS"))) in HD.
  rewrite (bool_decide_eq_false_2 _ (Hn (bs "SDES"))) in HS.
  rewrite accepted_int_eq. cbv zeta. each_key k.
  1-3: by rewrite ?HI, ?HD, ?HS.
  all: try (repeat match goal with
         | |- context [if Z.geb ?a ?b then _ else _] => destruct (Z.geb a b) eqn:?
         | |- context [if Z.gtb ?a ?b then _ else _] => destruct (Z.gtb a b) eqn:?
         end; reflexivity).
  by rewrite unknown_key.
Qed.

Lemma accepted_int_nonneg f v n : accepted_int f v = Some n -> 0 <= n.
Proof.
  rewrite accepted_int_eq. cbv zeta. case_match eqn:E; [|done]. intros; simplify_eq.
  destruct f; bool_prop; lia.
Qed.

Lemma int_for_nonneg f flag n : int_for f flag = Some n -> 0 <= n.
Proof. unfold int_for. case_match; [|done]. apply accepted_int_nonneg. Qed.

Lemma parse_flag_TOSSet pf flag :
  (pf_bool pf TOSSet = true <-> 0 <= pf_int pf TOS) ->
  (pf_bool (parse_flag pf flag) TOSSet = true <-> 0 <= pf_int (parse_flag pf flag) TOS).
Proof.
  intros IH. rewrite parse_flag_int. pose proof (int_for_nonneg TOS flag) as Hnn.
  unfold int_for, value_for in *. rewrite parse_flag_eq.
  destruct (key_value flag) as [[k v]|].
  - rewrite parseKeyValueFlag_TOSSet. case_bool_decide; [|done].
    destruct (accepted_int TOS v); [|done]. simpl. naive_solver.
  - destruct (switch flag boolean_cases None) as [g|] eqn:E; [|done].
    apply simple_flag_spelled in E. rewrite pf_bool_set_true.
    case_bool_decide; [|done]. simplify_eq. by apply elem_of_nil in E.
Qed.

(** C17: what a list of flags means, field by field. A boolean field is set
    exactly when one of its spellings is among the flags, so the order and the
    repetition of flags do not matter there; an integer or string field has
    the value of the last flag with one of its keys (the last well-formed and
    accepted one for an integer) and its default otherwise; a slice field has
    the values of all flags with one of its keys, in order; and [TOSSet] holds
    exactly when [TOS] was given. *)
Theorem ParseFlags_meaning flags :
  let pf := ParseFlags flags in
  (forall f, f <> TOSSet ->
     pf_bool pf f = true <-> exists s, s ∈ spellings f /\ bs s ∈ flags) /\
  (forall f, pf_int pf f = default (-1) (last (omap (int_for f) flags))) /\
  (forall f, pf_str pf f = default [] (last (omap (value_for (str_keys f)) flags))) /\
  (forall f, pf_list pf f = omap (value_for (list_keys f)) flags) /\
  (pf_bool pf TOSSet = true <-> 0 <= pf_int pf TOS).
Proof.
  intros pf. unfold pf. repeat split_and.
  - intros f Hf. induction flags as [|flag flags IH] using rev_ind.
    + split; [done|]. by intros (s & _ & Hs%elem_of_nil).
    + rewrite ParseFlags_snoc, parse_flag_bool by done. setoid_rewrite elem_of_app.
      setoid_rewrite list_elem_of_singleton. case_bool_decide as Hb.
      * apply flag_sets_spelled, list_elem_of_fmap in Hb. naive_solver.
      * rewrite IH. split; [naive_solver|]. intros (s & Hs & [Hin|<-]); [naive_solver|].
        by destruct Hb; apply spelling_sets.
  - intros f. apply (last_assignment (fun pf => pf_int pf f)). intros. apply parse_flag_int.
  - intros f. apply (last_assignment (fun pf => pf_str pf f)). intros. apply parse_flag_str.
  - intros f. induction flags as [|flag flags IH] using rev_ind; [done|].
    by rewrite ParseFlags_snoc, parse_flag_list, omap_snoc, IH.
  - induction flags as [|flag flags IH] using rev_ind; [done|].
    rewrite ParseFlags_snoc. by apply parse_flag_TOSSet.
Qed.

Lemma IndexByte_key key v :
  "="%char ∉ bs key -> key <> EmptyString ->
  key_value (bs key ++ "="%char :: v) = Some (bs key, v).
Proof.
  intros Hin Hne. unfold key_value. rewrite IndexByte_app by done.
  destruct key as [|c key]; [done|]. cbn [bs list_ascii_of_string length app].
  f_equal. f_equal.
  - by rewrite firstn_cons, take_app_length.
  - rewrite skipn_cons. change (S (length (list_ascii_of_string key))) with (1 + length (list_ascii_of_string key))%nat.
    rewrite Nat.add_comm, <- drop_drop. by rewrite drop_app_length.
Qed.

Lemma int_keys_plain f key : key ∈ int_keys f -> ("="%char ∉ bs key) /\ key <> EmptyString.
Proof.
  assert (forallb (fun k => bool_decide ("="%char ∉ bs k) && bool_decide (not (k = EmptyString))) (int_keys f) = true)
    as H by (destruct f; vm_compute; reflexivity).
  intros Hk. rewrite forallb_forall in H. apply list_elem_of_In, H in Hk. bool_prop. done.
Qed.

Lemma parse_digits_FormatInt n : 0 <= n < 10 ^ 20 -> parse_digits 0 (FormatInt n) = Some n.
Proof.
  intros Hn. unfold FormatInt. destruct (Z.ltb_spec n 0); [lia|]. apply parse_format_digits; lia.
Qed.

(** Integer flags are 64-bit and wrap. Every integer field stays between
    [-1] and the largest [int]; a value below [2^63] is read exactly, and the
    same value plus [2^64] is accepted too and read as the value itself. *)
Theorem flag_integers_wrap f key n :
  key ∈ int_keys f -> 0 <= n < 2 ^ 63 -> (f = Ptime -> 0 < n) ->
  let flag k := bs key ++ "="%char :: FormatInt k in
  pf_int (ParseFlags [flag n]) f = n /\
  pf_int (ParseFlags [flag (n + 2 ^ 64)]) f = n /\
  (forall flags g, -1 <= pf_int (ParseFlags flags) g <= max_int64).
Proof.
  intros Hk Hn Hp flag. destruct (int_keys_plain _ _ Hk) as [Heq Hne].
  assert (forall m, 0 <= m < 10 ^ 20 -> i64 m = n -> pf_int (ParseFlags [flag m]) f = n) as H.
  { intros m Hm Hi. unfold ParseFlags. cbn [foldl]. rewrite parse_flag_int. unfold int_for, value_for, flag.
    rewrite IndexByte_key by done. rewrite bool_decide_eq_true_2 by by apply list_elem_of_fmap_2.
    unfold accepted_int. rewrite parse_digits_FormatInt, Hi by done.
    destruct (match f with Ptime => 0 <? n | _ => 0 <=? n end) eqn:E; [done|].
    destruct f; bool_prop; try lia. specialize (Hp eq_refl). lia. }
  split_and!.
  - apply H; [lia|]. apply wraps_id; unfold is_s; lia.
  - apply H; [lia|]. rewrite <- (wraps_id 64 n) at 2 by (unfold is_s; lia).
    apply wraps_congr; [lia|]. by replace (n + 2 ^ 64 - n) with (2 ^ 64) by lia.
  - intros flags g.
    rewrite (last_assignment (fun pf => pf_int pf g) (int_for g)) by (intros; apply parse_flag_int).
    destruct (last _) as [z|] eqn:E; [|simpl; unfold max_int64; lia].
    apply last_Some_elem_of, list_elem_of_omap in E as (flag' & _ & E).
    apply int_for_nonneg in E as Hz. simpl. split; [lia|].
    unfold int_for, accepted_int in E. repeat case_match; simplify_eq;
      pose proof (wraps_range 64 z0 ltac:(lia)); unfold is_s, max_int64 in *; lia.
Qed.

(** ** Witnesses *)

Lemma flag_integers_wrap_witness :
  pf_int (ParseFlags [bs "media-timeout=18446744073709551676"]) MediaTimeout = 60.
Proof.
  apply (flag_integers_wrap MediaTimeout "media-timeout" 60); [|lia|done].
  apply list_elem_of_singleton. reflexivity.
Defined.
