(* ===== verification/Message.v ===== *)
(** * Requests and responses of the NG protocol

    Models src/internal/ng_protocol/message.go (framing, the conversion of a
    decoded dictionary to a request, the construction of a response) with the
    message structs of types.go.

    A Go map that the code builds is a list of entries kept sorted by key, as
    in the bencode component, so [dict[k] = v] is [dict_set]. What
    [strconv.FormatFloat] prints is a parameter. *)

From Stdlib Require Import ZArith Lia Ascii String.
From stdpp Require Import base numbers list strings sorting.
From S2P Require Import Prelude GoFloat Bencode.

Local Open Scope Z_scope.
Local Open Scope go_scope.
#[local] Set Warnings "-clear-no-such-hyp,-register-all".

(** ** Data *)

Abbreviation BencodeDict := (list (bytes * BencodeValue)).
Abbreviation imap := (list (bytes * interface float64)).

Record UDPAddr := mkUDPAddr { udp_IP : list Z; udp_Port : Z; udp_Zone : bytes }.

(** The sentinel errors; [ErrMalformedMsg] wraps the decoder's error. *)
Inductive ng_error := ErrNoCookie | ErrNoCommand | ErrMalformedMsg (e : berror) | ErrInvalidMessage.

Record NGMessage := mkNGMessage {
  msg_Cookie : bytes;
  msg_Data : BencodeDict;
  msg_RawBytes : bytes;
  msg_From : option UDPAddr
}.

Record NGRequest := mkNGRequest {
  req_Cookie : bytes;
  req_Command : bytes;
  req_CallID : bytes;
  req_FromTag : bytes;
  req_ToTag : bytes;
  req_ViaBranch : bytes;
  req_SDP : bytes;
  req_Flags : list bytes;
  req_Replace : list bytes;
  req_Direction : list bytes;
  req_ReceivedFrom : option UDPAddr;
  req_Timestamp : Z;
  req_ICE : bytes;
  req_DTLS : bytes;
  req_SDES : list bytes;
  req_Transport : bytes;
  req_MediaAddress : bytes;
  req_AddressFamily : bytes;
  req_RecordCall : bool;
  req_RecordingMeta : option (list (bytes * bytes));
  req_Codec : list bytes;
  req_Transcode : list bytes;
  req_Ptime : Z;
  req_Label : bytes;
  req_SetLabel : bytes;
  req_FromLabel : bytes;
  req_ToLabel : bytes;
  req_DTMFDigit : bytes;
  req_DTMFDuration : Z;
  req_ForwardAddress : bytes;
  req_ForwardPort : Z;
  req_RawParams : BencodeDict
}.

Record ICECandidate := mkICECandidate {
  ic_Foundation : bytes;
  ic_Component : Z;
  ic_Protocol : bytes;
  ic_Priority : Z;
  ic_IP : bytes;
  ic_Port : Z;
  ic_Type : bytes;
  ic_RelatedIP : bytes;
  ic_RelatedPort : Z
}.

Record StreamInfo := mkStreamInfo {
  si_LocalIP : bytes;
  si_LocalPort : Z;
  si_LocalRTCPPort : Z;
  si_MediaType : bytes;
  si_Protocol : bytes;
  si_Index : Z;
  si_Flags : list bytes;
  si_ICECandidates : list ICECandidate;
  si_ICEUfrag : bytes;
  si_ICEPwd : bytes;
  si_CryptoSuite : bytes;
  si_SRTPKey : bytes;
  si_Fingerprint : bytes;
  si_FingerprintHash : bytes;
  si_Setup : bytes
}.

Record LegStats := mkLegStats {
  ls_Tag : bytes;
  ls_SSRC : Z;
  ls_PacketsSent : Z;
  ls_PacketsRecv : Z;
  ls_BytesSent : Z;
  ls_BytesRecv : Z;
  ls_PacketLoss : float64;
  ls_Jitter : float64;
  ls_RTT : float64
}.

Record CallStats := mkCallStats {
  cs_CreatedAt : Z;
  cs_Duration : Z;
  cs_PacketsSent : Z;
  cs_PacketsRecv : Z;
  cs_BytesSent : Z;
  cs_BytesRecv : Z;
  cs_PacketLoss : float64;
  cs_Jitter : float64;
  cs_RTT : float64;
  cs_MOS : float64;
  cs_Legs : list LegStats
}.

Record RTPStreamInfo := mkRTPStreamInfo {
  rs_LocalPort : Z;
  rs_LocalRTCPPort : Z;
  rs_SSRC : Z;
  rs_PayloadType : Z;
  rs_Codec : bytes;
  rs_ClockRate : Z;
  rs_PacketsSent : Z;
  rs_PacketsRecv : Z;
  rs_BytesSent : Z;
  rs_BytesRecv : Z;
  rs_LastPacketAt : Z
}.

Record MediaInfo := mkMediaInfo {
  mi_Index : Z;
  mi_Type : bytes;
  mi_Protocol : bytes;
  mi_LocalIP : bytes;
  mi_LocalPort : Z;
  mi_Streams : list RTPStreamInfo
}.

Record TagInfo := mkTagInfo {
  ti_Tag : bytes;
  ti_Label : bytes;
  ti_InDialogue : bool;
  ti_MediaCount : Z;
  ti_Created : Z;
  ti_Medias : list MediaInfo
}.

Record NGResponse := mkNGResponse {
  resp_Result : bytes;
  resp_ErrorReason : bytes;
  resp_SDP : bytes;
  resp_CallID : bytes;
  resp_FromTag : bytes;
  resp_ToTag : bytes;
  resp_Streams : list StreamInfo;
  resp_Stats : option CallStats;
  resp_Created : Z;
  resp_LastSignal : Z;
  resp_Warning : bytes;
  resp_Tag : list (bytes * TagInfo);
  resp_Extra : imap
}.

(** A response with only a result, [&NGResponse{Result: r}]. *)
Definition result_only (r : bytes) : NGResponse :=
  mkNGResponse r [] [] [] [] [] [] None 0 0 [] [] [].

Definition ResultOK : bytes := bs "ok".
Definition ResultPong : bytes := bs "pong".
Definition ResultError : bytes := bs "error".
Definition ErrReasonNotFound : bytes := bs "Call-ID not found".
Definition ErrReasonInternal : bytes := bs "Internal error".
Definition ErrReasonUnsupported : bytes := bs "Unsupported operation".
Definition ErrReasonMissingParam : bytes := bs "Missing required parameter".

(** ** Requests *)

(** Format: [<cookie> <bencode-dict>]. *)
Definition ParseMessage (data : bytes) (from : option UDPAddr) : outcome ng_error NGMessage :=
  match IndexByte data " " with
  | None => Err ErrNoCookie
  | Some spaceIdx =>
      let cookie := take spaceIdx data in
      if bool_decide (cookie = []) then Err ErrNoCookie
      else
        let bencodeData := drop (spaceIdx + 1) data in
        match DecodeBencode bencodeData with
        | Err err => Err (ErrMalformedMsg err)
        | Panic => Panic
        | OutOfFuel => OutOfFuel
        | Ok (VDict dict) => Ok (mkNGMessage cookie dict data from)
        | Ok _ => Err ErrInvalidMessage
        end
  end.

(** One ASCII letter in lower case. *)
Definition lower (c : ascii) : ascii :=
  let n := N_of_ascii c in
  if (65 <=? n)%N && (n <=? 90)%N then ascii_of_N (n + 32) else c.

(** [strings.EqualFold(s, t)] for an ASCII [t]: letters match in either case,
    and by Unicode simple folding [k] also matches the Kelvin sign (U+212A)
    and [s] the long s (U+017F), here in their UTF-8 encodings. *)
Fixpoint EqualFold (s t : bytes) {struct t} : bool :=
  match t, s with
  | [], [] => true
  | [], _ :: _ => false
  | _ :: _, [] => false
  | y :: t', x :: s' =>
      if bool_decide (lower x = lower y) then EqualFold s' t'
      else
        match s with
        | a :: b :: c :: s'' =>
            if bool_decide (lower y = "k"%char) && bool_decide ([a; b; c] = map ascii_of_N [226; 132; 170]%N)
            then EqualFold s'' t'
            else if bool_decide (lower y = "s"%char) && bool_decide ([a; b] = map ascii_of_N [197; 191]%N)
            then EqualFold (c :: s'') t'
            else false
        | [a; b] =>
            if bool_decide (lower y = "s"%char) && bool_decide ([a; b] = map ascii_of_N [197; 191]%N)
            then EqualFold [] t'
            else false
        | _ => false
        end
  end.

Fixpoint containsFlag (flags : list bytes) (flag : bytes) : bool :=
  match flags with
  | [] => false
  | f :: flags => if EqualFold f flag then true else containsFlag flags flag
  end.

(** [for _, f := range l { if s, ok := f.(string); ok { r = append(r, s) } }],
    on a list that may be nil. *)
Definition strings_of (l : option (list BencodeValue)) : list bytes :=
  match l with
  | Some l => omap GetString l
  | None => []
  end.

(** The same loop over a dictionary, into a fresh map. *)
Definition string_entries (d : BencodeDict) : list (bytes * bytes) :=
  omap (fun kv => (kv.1,.) <$> GetString kv.2) d.

(** [if v := DictGetInt(d, k); v > 0 { x = int(v) }]. *)
Definition positive (v : Z) : Z := if v >? 0 then v else 0.

Definition ToRequest (now : Z) (m : NGMessage) : outcome ng_error NGRequest :=
  let d := msg_Data m in
  let command := DictGetString d (bs "command") in
  if bool_decide (command = []) then Err ErrNoCommand
  else
    let flags := strings_of (DictGetList d (bs "flags")) in
    Ok (mkNGRequest
      (msg_Cookie m)
      command
      (DictGetString d (bs "call-id"))
      (DictGetString d (bs "from-tag"))
      (DictGetString d (bs "to-tag"))
      (DictGetString d (bs "via-branch"))
      (DictGetString d (bs "sdp"))
      flags
      (strings_of (DictGetList d (bs "replace")))
      (strings_of (DictGetList d (bs "direction")))
      (msg_From m)
      now
      (DictGetString d (bs "ICE"))
      (DictGetString d (bs "DTLS"))
      (strings_of (DictGetList d (bs "SDES")))
      (DictGetString d (bs "transport-protocol"))
      (DictGetString d (bs "media address"))
      (DictGetString d (bs "address family"))
      (containsFlag flags (bs "record-call"))
      (string_entries <$> DictGetDict d (bs "record-meta"))
      (strings_of (DictGetList d (bs "codec")))
      (strings_of (DictGetList d (bs "transcode")))
      (positive (DictGetInt d (bs "ptime")))
      (DictGetString d (bs "label"))
      (DictGetString d (bs "set-label"))
      (DictGetString d (bs "from-label"))
      (DictGetString d (bs "to-label"))
      (DictGetString d (bs "digit"))
      (positive (DictGetInt d (bs "duration")))
      (DictGetString d (bs "forward-address"))
      (positive (DictGetInt d (bs "forward-port")))
      d).

Definition ParseCallID (callID : bytes) : bytes :=
  match IndexByte callID ";" with
  | Some idx => take idx callID
  | None => callID
  end.

Definition ParseDirection (directions : list bytes) : bytes * bytes :=
  (default [] (directions !! 0%nat), default [] (directions !! 1%nat)).

(** ** Responses *)

(** [if v != "" { dict[k] = v }]. *)
Definition set_nonempty (k v : bytes) (dict : imap) : imap :=
  if bool_decide (v = []) then dict else dict_set k (IString v) dict.
(** [if v > 0 { dict[k] = v }], with the conversion to [interface{}]. *)
Definition set_positive (inj : Z -> interface float64) (k : bytes) (v : Z) (dict : imap) : imap :=
  if v >? 0 then dict_set k (inj v) dict else dict.
(** [if len(l) > 0 { dict[k] = v }]. *)
Definition set_unless_empty {A : Type} (k : bytes) (l : list A) (v : interface float64) (dict : imap) : imap :=
  match l with [] => dict | _ => dict_set k v dict end.

(** A map literal. *)
Definition map_of (l : imap) : imap := foldl (fun d kv => dict_set kv.1 kv.2 d) [] l.

Definition candidate_map (c : ICECandidate) : interface float64 :=
  IMap (map_of [(bs "foundation", IString (ic_Foundation c)); (bs "component", IInt (ic_Component c));
                (bs "protocol", IString (ic_Protocol c)); (bs "priority", IUint32 (ic_Priority c));
                (bs "address", IString (ic_IP c)); (bs "port", IInt (ic_Port c));
                (bs "type", IString (ic_Type c))]).

Definition stream_fields (s : StreamInfo) : imap :=
  let stream := map_of [(bs "local address", IString (si_LocalIP s)); (bs "local port", IInt (si_LocalPort s));
                        (bs "media type", IString (si_MediaType s)); (bs "protocol", IString (si_Protocol s));
                        (bs "index", IInt (si_Index s))] in
  let stream := set_positive IInt (bs "local RTCP port") (si_LocalRTCPPort s) stream in
  let stream := set_unless_empty (bs "ICE-candidates") (si_ICECandidates s)
                  (ISlice (map candidate_map (si_ICECandidates s))) stream in
  let stream := set_nonempty (bs "ICE-ufrag") (si_ICEUfrag s) stream in
  let stream := set_nonempty (bs "ICE-pwd") (si_ICEPwd s) stream in
  let stream := if bool_decide (si_Fingerprint s = []) then stream
                else dict_set (bs "fingerprint-hash") (IString (si_FingerprintHash s))
                       (dict_set (bs "fingerprint") (IString (si_Fingerprint s)) stream) in
  set_nonempty (bs "setup") (si_Setup s) stream.
Definition stream_map (s : StreamInfo) : interface float64 := IMap (stream_fields s).

Definition media_map (m : MediaInfo) : interface float64 :=
  IMap (map_of [(bs "index", IInt (mi_Index m)); (bs "type", IString (mi_Type m));
                (bs "protocol", IString (mi_Protocol m)); (bs "local IP", IString (mi_LocalIP m));
                (bs "local port", IInt (mi_LocalPort m))]).

Definition tag_map (info : TagInfo) : interface float64 :=
  let tagDict := map_of [(bs "tag", IString (ti_Tag info)); (bs "in dialogue", IBool (ti_InDialogue info));
                         (bs "created", IInt64 (ti_Created info)); (bs "media count", IInt (ti_MediaCount info))] in
  let tagDict := set_nonempty (bs "label") (ti_Label info) tagDict in
  IMap (set_unless_empty (bs "medias") (ti_Medias info) (ISlice (map media_map (ti_Medias info))) tagDict).

(** [Time.Unix]: seconds since 1970 of a time counted in nanoseconds since
    January 1 of year 1. *)
Definition Unix (t : Z) : Z := i64 (t / Second - 62135596800).

Definition stats_map (st : CallStats) : interface float64 :=
  IMap (map_of [(bs "created", IInt64 (Unix (cs_CreatedAt st)));
                (bs "duration", IInt64 (to_int64 (Seconds (cs_Duration st))));
                (bs "packets sent", IUint64 (cs_PacketsSent st)); (bs "packets recv", IUint64 (cs_PacketsRecv st));
                (bs "bytes sent", IUint64 (cs_BytesSent st)); (bs "bytes recv", IUint64 (cs_BytesRecv st));
                (bs "packet loss", IFloat64 (cs_PacketLoss st)); (bs "jitter", IFloat64 (cs_Jitter st));
                (bs "rtt", IFloat64 (cs_RTT st)); (bs "MOS", IFloat64 (cs_MOS st))]).

Definition leg_map (leg : LegStats) : interface float64 :=
  IMap (map_of [(bs "tag", IString (ls_Tag leg)); (bs "SSRC", IUint32 (ls_SSRC leg));
                (bs "packets sent", IUint64 (ls_PacketsSent leg)); (bs "packets recv", IUint64 (ls_PacketsRecv leg));
                (bs "bytes sent", IUint64 (ls_BytesSent leg)); (bs "bytes recv", IUint64 (ls_BytesRecv leg));
                (bs "packet loss", IFloat64 (ls_PacketLoss leg)); (bs "jitter", IFloat64 (ls_Jitter leg));
                (bs "rtt", IFloat64 (ls_RTT leg))]).

(** The dictionary [BuildResponse] encodes: the fields of the response, then
    the extra ones. *)
Definition response_fields (resp : NGResponse) : imap :=
  let dict := dict_set (bs "result") (IString (resp_Result resp)) [] in
  let dict := set_nonempty (bs "error-reason") (resp_ErrorReason resp) dict in
  let dict := set_nonempty (bs "sdp") (resp_SDP resp) dict in
  let dict := set_nonempty (bs "warning") (resp_Warning resp) dict in
  let dict := set_unless_empty (bs "streams") (resp_Streams resp)
                (ISlice (map stream_map (resp_Streams resp))) dict in
  let dict := set_unless_empty (bs "tags") (resp_Tag resp)
                (IMap (map_of (map (fun kv => (kv.1, tag_map kv.2)) (resp_Tag resp)))) dict in
  let dict := match resp_Stats resp with
              | None => dict
              | Some st =>
                  set_unless_empty (bs "legs") (cs_Legs st) (ISlice (map leg_map (cs_Legs st)))
                    (dict_set (bs "stats") (stats_map st) dict)
              end in
  let dict := set_positive IInt64 (bs "created") (resp_Created resp) dict in
  set_positive IInt64 (bs "last signal") (resp_LastSignal resp) dict.
Definition response_map (resp : NGResponse) : imap :=
  foldl (fun d kv => dict_set kv.1 kv.2 d) (response_fields resp) (resp_Extra resp).

Section responses.
Context (FormatFloat : float64 -> Z -> bytes).

Definition BuildResponse (cookie : bytes) (resp : NGResponse) : outcome berror bytes :=
  let! encoded := EncodeBencode FormatFloat (IMap (response_map resp)) in
  Ok (cookie ++ " "%char :: encoded).

Definition ErrorResponse (cookie reason : bytes) : outcome berror bytes :=
  BuildResponse cookie (mkNGResponse ResultError reason [] [] [] [] [] None 0 0 [] [] []).
Definition PongResponse (cookie : bytes) : outcome berror bytes :=
  BuildResponse cookie (result_only ResultPong).
Definition OKResponse (cookie : bytes) : outcome berror bytes :=
  BuildResponse cookie (result_only ResultOK).
Definition OKResponseWithSDP (cookie sdp : bytes) (streams : list StreamInfo) : outcome berror bytes :=
  BuildResponse cookie (mkNGResponse ResultOK [] sdp [] [] [] streams None 0 0 [] [] []).

End responses.

Example ToRequest_ex :
  match ParseMessage (bs "c1 d7:call-id3:abc7:command5:offer5:flagsl11:Record-Call3:icee5:ptimei20ee") None with
  | Ok m => match ToRequest 0 m with
            | Ok r => Some (req_Cookie r, req_Command r, req_CallID r, req_Flags r, req_RecordCall r, req_Ptime r)
            | _ => None
            end
  | _ => None
  end = Some (bs "c1", bs "offer", bs "abc", [bs "Record-Call"; bs "ice"], true, 20).
Proof. vm_compute. reflexivity. Qed.
Example ErrorResponse_ex :
  ErrorResponse (fun _ _ => []) (bs "c1") (bs "bad") = Ok (bs "c1 d12:error-reason3:bad6:result5:errore").
Proof. vm_compute. reflexivity. Qed.

(** ** Lemmas: maps built key by key *)

Lemma assoc_dict_set {A} k k' (v : A) d :
  assoc k (dict_set k' v d) = if bool_decide (k = k') then Some v else assoc k d.
Proof.
  induction d as [|[k'' v''] d IH]; cbn [dict_set assoc]; [done|].
  repeat case_bool_decide; simplify_eq; cbn [assoc]; try (by rewrite ?bool_decide_eq_true_2).
  all: case_match; cbn [assoc]; repeat case_bool_decide; simplify_eq; try done.
Qed.

Lemma assoc_foldl_set {A} k (l d : list (bytes * A)) :
  NoDup (l.*1) ->
  assoc k (foldl (fun d kv => dict_set kv.1 kv.2 d) d l) =
  match assoc k l with Some v => Some v | None => assoc k d end.
Proof.
  revert d. induction l as [|[k' v] l IH]; intros d Hnd; cbn in *; [done|].
  apply NoDup_cons in Hnd as [Hk' Hnd]. rewrite IH by done. rewrite assoc_dict_set.
  case_bool_decide as E; [|done]. subst k'. destruct (assoc k l) eqn:Ea; [|done].
  apply assoc_elem_of in Ea. destruct Hk'. apply list_elem_of_fmap. by exists (k, a).
Qed.

Lemma assoc_map_of k (l : imap) : NoDup (l.*1) -> assoc k (map_of l) = assoc k l.
Proof. intros H. unfold map_of. rewrite assoc_foldl_set by done. by destruct (assoc k l). Qed.

(** A map in key order whose values satisfy a predicate; every assignment
    keeps it so. *)
Definition keyed (P : interface float64 -> Prop) (d : imap) : Prop :=
  strictly_sorted (d.*1) /\ Forall (fun kv => P kv.2) d.

Section keyed.
Context (P : interface float64 -> Prop).

Lemma keyed_nil : keyed P [].
Proof. split; constructor. Qed.

Lemma keyed_dict_set k v d : P v -> keyed P d -> keyed P (dict_set k v d).
Proof.
  intros Hv [Hs Hd]. split; [by apply dict_set_sorted|]. clear Hs.
  induction d as [|[k' v'] d IH]; cbn [dict_set]; [by constructor|].
  apply Forall_cons in Hd as [Hv' Hd].
  case_bool_decide; [by constructor|]. case_match; (constructor; [done|]); [by constructor|auto].
Qed.

Lemma keyed_set_nonempty k v d : P (IString v) -> keyed P d -> keyed P (set_nonempty k v d).
Proof. intros ??. unfold set_nonempty. case_bool_decide; [done|by apply keyed_dict_set]. Qed.
Lemma keyed_set_positive inj k v d : P (inj v) -> keyed P d -> keyed P (set_positive inj k v d).
Proof. intros ??. unfold set_positive. case_match; [by apply keyed_dict_set|done]. Qed.
Lemma keyed_set_unless_empty {A} k (l : list A) v d : P v -> keyed P d -> keyed P (set_unless_empty k l v d).
Proof. intros ??. unfold set_unless_empty. case_match; [done|by apply keyed_dict_set]. Qed.

Lemma keyed_foldl_set (l d : imap) :
  Forall (fun kv => P kv.2) l -> keyed P d -> keyed P (foldl (fun d kv => dict_set kv.1 kv.2 d) d l).
Proof. intros Hl. revert d. induction Hl; intros d Hd; simpl; [done|]. auto using keyed_dict_set. Qed.
Lemma keyed_map_of l : Forall (fun kv => P kv.2) l -> keyed P (map_of l).
Proof. intros. apply keyed_foldl_set; [done|apply keyed_nil]. Qed.
End keyed.

Create HintDb ng discriminated.
#[export] Hint Resolve keyed_nil keyed_dict_set keyed_set_nonempty keyed_set_positive
  keyed_set_unless_empty keyed_map_of keyed_foldl_set : ng.

Section sound.
Context (FormatFloat : float64 -> Z -> bytes).
Abbreviation enc := (encode FormatFloat).
Abbreviation den := (denote FormatFloat).

(** A value that the encoder accepts. *)
Definition sound (v : interface float64) : Prop := wf_interface v /\ exists b, enc v = Ok b.
Abbreviation good := (keyed sound).
(** What the decoder makes of a map. *)
Definition decoded (d : imap) : BencodeDict := map (fun kv => (kv.1, den kv.2)) d.

Lemma wf_IMap d : keyed wf_interface d -> wf_interface (IMap d).
Proof.
  intros [Hs Hd]. split; [by apply strictly_sorted_NoDup|]. clear Hs. induction Hd; simpl; auto.
Qed.

Lemma sound_IMap d : good d -> sound (IMap d) /\ den (IMap d) = VDict (decoded d).
Proof.
  intros [Hs Hd]. split; [split|].
  - apply wf_IMap. split; [done|]. eapply Forall_impl; [exact Hd|]. by intros ? [? _].
  - simpl. unfold encodeDict.
    edestruct encodeKeys_total as [r Hr]; [|rewrite Hr; by eexists].
    intros k o ([k' v] & ? & Hin)%assoc_elem_of%list_elem_of_fmap. simplify_eq/=.
    rewrite Forall_forall in Hd. by apply Hd in Hin as [_ ?].
  - simpl. unfold decoded. by rewrite dict_norm_sorted by by rewrite map_fst_id.
Qed.

Lemma sound_ISlice l : Forall sound l -> sound (ISlice l).
Proof.
  intros Hl. split.
  - induction Hl as [|? ? [? ?]]; simpl; auto.
  - simpl. unfold encodeList. edestruct encodeItems_total as [r Hr]; [|rewrite Hr; by eexists].
    apply Forall_fmap. eapply Forall_impl; [exact Hl|]. by intros ? [? ?].
Qed.

(** Framing: what follows the cookie is decoded. *)
Lemma ParseMessage_split cookie rest from :
  cookie <> [] -> " "%char ∉ cookie ->
  ParseMessage (cookie ++ " "%char :: rest) from =
  match DecodeBencode rest with
  | Err err => Err (ErrMalformedMsg err)
  | Panic => Panic
  | OutOfFuel => OutOfFuel
  | Ok (VDict dict) => Ok (mkNGMessage cookie dict (cookie ++ " "%char :: rest) from)
  | Ok _ => Err ErrInvalidMessage
  end.
Proof.
  intros Hne Hsp. unfold ParseMessage. rewrite IndexByte_app by done. cbv zeta.
  rewrite take_app_length, Nat.add_1_r, bool_decide_eq_false_2 by done.
  replace (drop (S (length cookie)) (cookie ++ " "%char :: rest)) with rest; [done|].
  change (S (length cookie)) with (1 + length cookie)%nat.
  by rewrite Nat.add_comm, <- drop_drop, drop_app_length.
Qed.

Lemma ParseMessage_frame cookie d b from :
  cookie <> [] -> " "%char ∉ cookie -> good d ->
  EncodeBencode FormatFloat (IMap d) = Ok b -> Z.of_nat (length b) < 2 ^ 63 ->
  ParseMessage (cookie ++ " "%char :: b) from =
  Ok (mkNGMessage cookie (decoded d) (cookie ++ " "%char :: b) from).
Proof.
  intros Hne Hsp Hg Henc Hlen. destruct (sound_IMap d Hg) as [[Hwf _] Hden]. rewrite ParseMessage_split by done.
  assert (DecodeBencode b = Ok (VDict (decoded d))) as ->; [|done].
  rewrite <- Hden. by apply DecodeBencode_of_encode.
Qed.

Lemma assoc_decoded k d : assoc k (decoded d) = den <$> assoc k d.
Proof. apply assoc_map. Qed.

End sound.

(** ** Specification: what a client sends

    The dictionary of a request, leaving out what has its zero value. *)

Definition str_entry (v : bytes) : option (interface float64) :=
  if bool_decide (v = []) then None else Some (IString v).
Definition list_entry (l : list bytes) : option (interface float64) :=
  match l with [] => None | _ => Some (ISlice (map IString l)) end.
Definition int_entry (v : Z) : option (interface float64) :=
  if v >? 0 then Some (IInt v) else None.

Definition request_entries (r : NGRequest) : list (bytes * option (interface float64)) :=
  [(bs "command", str_entry (req_Command r)); (bs "call-id", str_entry (req_CallID r));
   (bs "from-tag", str_entry (req_FromTag r)); (bs "to-tag", str_entry (req_ToTag r));
   (bs "via-branch", str_entry (req_ViaBranch r)); (bs "sdp", str_entry (req_SDP r));
   (bs "flags", list_entry (req_Flags r)); (bs "replace", list_entry (req_Replace r));
   (bs "direction", list_entry (req_Direction r)); (bs "ICE", str_entry (req_ICE r));
   (bs "DTLS", str_entry (req_DTLS r)); (bs "SDES", list_entry (req_SDES r));
   (bs "transport-protocol", str_entry (req_Transport r)); (bs "media address", str_entry (req_MediaAddress r));
   (bs "address family", str_entry (req_AddressFamily r));
   (bs "record-meta", (fun m => IMap (map_of (map (fun kv => (kv.1, IString kv.2)) m))) <$> req_RecordingMeta r);
   (bs "codec", list_entry (req_Codec r)); (bs "transcode", list_entry (req_Transcode r));
   (bs "ptime", int_entry (req_Ptime r)); (bs "label", str_entry (req_Label r));
   (bs "set-label", str_entry (req_SetLabel r)); (bs "from-label", str_entry (req_FromLabel r));
   (bs "to-label", str_entry (req_ToLabel r)); (bs "digit", str_entry (req_DTMFDigit r));
   (bs "duration", int_entry (req_DTMFDuration r)); (bs "forward-address", str_entry (req_ForwardAddress r));
   (bs "forward-port", int_entry (req_ForwardPort r))].

Definition present (l : list (bytes * option (interface float64))) : imap :=
  omap (fun kv => (kv.1,.) <$> kv.2) l.
Definition request_map (r : NGRequest) : imap := map_of (present (request_entries r)).

(** A cookie that survives the framing. *)
Definition valid_cookie (cookie : bytes) : Prop := cookie <> [] /\ " "%char ∉ cookie.

(** What every client request satisfies: a command, [int]s that are in range
    and not negative, and recording metadata as a map in key order. *)
Definition client_request (r : NGRequest) : Prop :=
  valid_cookie (req_Cookie r) /\ req_Command r <> [] /\
  (0 <= req_Ptime r < 2 ^ 63 /\ 0 <= req_DTMFDuration r < 2 ^ 63 /\ 0 <= req_ForwardPort r < 2 ^ 63) /\
  match req_RecordingMeta r with Some m => strictly_sorted (m.*1) | None => True end.

(** ** Lemmas: reading back what a client sends *)

Lemma present_keys l : (present l).*1 `sublist_of` l.*1.
Proof.
  induction l as [|[k [v|]] l IH]; simpl; [constructor|by apply sublist_skip|by apply sublist_cons].
Qed.

Lemma assoc_present k l : NoDup (l.*1) -> assoc k (present l) = assoc k l ≫= id.
Proof.
  induction l as [|[k' o] l IH]; cbn [fmap list_fmap]; [done|]. intros [Hk' Hnd]%NoDup_cons.
  unfold present in *. cbn [omap list_omap fst snd]. destruct o as [v|]; simpl in *.
  - case_bool_decide; [done|by apply IH].
  - case_bool_decide; [|by apply IH]. subst k'. rewrite IH by done. simpl.
    destruct (assoc k l) as [x|] eqn:E; [|done].
    apply assoc_elem_of in E. destruct Hk'. apply list_elem_of_fmap. by exists (k, x).
Qed.

Lemma request_keys_NoDup r : NoDup ((request_entries r).*1).
Proof. apply (bool_decide_unpack _). vm_compute. exact I. Qed.

Lemma assoc_request_map k r : assoc k (request_map r) = assoc k (request_entries r) ≫= id.
Proof.
  unfold request_map. rewrite assoc_map_of; [apply assoc_present, request_keys_NoDup|].
  eapply sublist_NoDup; [apply request_keys_NoDup|apply present_keys].
Qed.

Section reading.
Context (FormatFloat : float64 -> Z -> bytes).

Lemma read_string r k v :
  assoc k (request_entries r) = Some (str_entry v) ->
  DictGetString (decoded FormatFloat (request_map r)) k = v.
Proof.
  intros H. unfold DictGetString. rewrite assoc_decoded, assoc_request_map, H. simpl.
  unfold str_entry. by case_bool_decide.
Qed.

Lemma omap_GetString l : omap GetString (map VString l) = l.
Proof. induction l; simpl; [done|]. by f_equal. Qed.

Lemma read_list r k l :
  assoc k (request_entries r) = Some (list_entry l) ->
  strings_of (DictGetList (decoded FormatFloat (request_map r)) k) = l.
Proof.
  intros H. unfold DictGetList. rewrite assoc_decoded, assoc_request_map, H.
  destruct l as [|x l]; [done|]. simpl. f_equal. rewrite map_map. apply omap_GetString.
Qed.

Lemma read_int r k n : 0 <= n < 2 ^ 63 ->
  assoc k (request_entries r) = Some (int_entry n) ->
  positive (DictGetInt (decoded FormatFloat (request_map r)) k) = n.
Proof.
  intros Hn H. unfold DictGetInt. rewrite assoc_decoded, assoc_request_map, H. simpl.
  unfold int_entry. destruct (Z.gtb_spec n 0); [|unfold positive; simpl; lia]. simpl.
  rewrite wraps_id by (unfold is_s; lia). unfold positive. destruct (Z.gtb_spec n 0); lia.
Qed.

Lemma map_of_sorted (l : imap) : strictly_sorted (l.*1) -> map_of l = l.
Proof.
  assert (forall acc : imap, strictly_sorted ((acc ++ l).*1) ->
    foldl (fun d kv => dict_set kv.1 kv.2 d) acc l = acc ++ l) as H; [|apply (H [])].
  induction l as [|[k v] l IH]; intros acc; simpl; [by rewrite app_nil_r|]. intros Hs.
  rewrite dict_set_snoc, IH, <- app_assoc; [done|by rewrite <- app_assoc|].
  rewrite fmap_app in Hs. apply StronglySorted_app in Hs as (Hx & _ & _).
  apply Forall_forall. intros k' Hk'. apply Hx; [done|]. simpl. left.
Qed.

Lemma string_entries_map (m : list (bytes * bytes)) :
  string_entries (map (fun kv => (kv.1, VString kv.2)) m) = m.
Proof. induction m as [|[k v] m IH]; simpl; [done|]. by f_equal. Qed.

Lemma strings_map_keys (m : list (bytes * bytes)) :
  (map (fun kv => (kv.1, IString kv.2 : interface float64)) m).*1 = m.*1.
Proof. induction m as [|[k v] m IH]; simpl; [done|]. by f_equal. Qed.

Lemma sound_string v : sound FormatFloat (IString v).
Proof. split; [done|]. simpl. eauto. Qed.
Lemma sound_int v : sound FormatFloat (IInt v).
Proof. split; [done|]. simpl. eauto. Qed.

Lemma sound_string_map m :
  sound FormatFloat (IMap (map_of (map (fun kv => (kv.1, IString kv.2)) m))).
Proof.
  apply sound_IMap, keyed_map_of, Forall_fmap, Forall_true. intros. apply sound_string.
Qed.

Lemma read_meta r :
  match req_RecordingMeta r with Some m => strictly_sorted (m.*1) | None => True end ->
  string_entries <$> DictGetDict (decoded FormatFloat (request_map r)) (bs "record-meta") = req_RecordingMeta r.
Proof.
  intros Hs. unfold DictGetDict. rewrite assoc_decoded, assoc_request_map.
  replace (assoc (bs "record-meta") (request_entries r)) with
    (Some ((fun m => IMap (map_of (map (fun kv => (kv.1, IString kv.2)) m))) <$> req_RecordingMeta r))
    by (vm_compute; reflexivity).
  destruct (req_RecordingMeta r) as [m|]; [|done]. cbn [option_fmap option_map fmap mbind option_bind id].
  edestruct (sound_IMap FormatFloat (map_of (map (fun kv => (kv.1, IString kv.2)) m))) as [_ ->].
  { apply keyed_map_of, Forall_fmap, Forall_true. intros. apply sound_string. }
  cbn. f_equal. rewrite map_of_sorted by by rewrite strings_map_keys.
  unfold decoded. rewrite map_map. apply string_entries_map.
Qed.

Lemma present_Forall (P : interface float64 -> Prop) l :
  Forall (fun kv => forall v, kv.2 = Some v -> P v) l -> Forall (fun kv => P kv.2) (present l).
Proof. induction 1 as [|[k [v|]] l Hv _ IH]; simpl; [constructor|constructor; auto|done]. Qed.

Lemma sound_str_entry v x : str_entry v = Some x -> sound FormatFloat x.
Proof. unfold str_entry. case_bool_decide; [done|]. intros [= <-]. apply sound_string. Qed.
Lemma sound_int_entry v x : int_entry v = Some x -> sound FormatFloat x.
Proof. unfold int_entry. case_match; [|done]. intros [= <-]. apply sound_int. Qed.
Lemma sound_strings l : sound FormatFloat (ISlice (map IString l)).
Proof. apply sound_ISlice, Forall_forall. intros z (? & -> & _)%list_elem_of_fmap. apply sound_string. Qed.
Lemma sound_list_entry l x : list_entry l = Some x -> sound FormatFloat x.
Proof. destruct l as [|y l]; [done|]. intros [= <-]. apply (sound_strings (y :: l)). Qed.

Lemma good_request_map r : keyed (sound FormatFloat) (request_map r).
Proof.
  apply keyed_map_of, present_Forall. unfold request_entries.
  repeat (apply Forall_cons; split); [..|by apply Forall_nil]; cbn [snd]; intros v Hv;
    eauto using sound_str_entry, sound_int_entry, sound_list_entry.
  destruct (req_RecordingMeta r); [|done]. simplify_eq/=. apply sound_string_map.
Qed.

(** C31: a request arrives as it was sent. Whatever request a client sends
    (the bencoding of its parameters after its cookie, what has its zero value
    left out), parsing the message and converting it gives exactly that
    request, with the sender's address, the time of arrival, the raw
    parameters, and [RecordCall] set when the [record-call] flag is there in
    any case. *)
Theorem request_roundtrip r b from now :
  client_request r ->
  EncodeBencode FormatFloat (IMap (request_map r)) = Ok b -> Z.of_nat (length b) < 2 ^ 63 ->
  exists m, ParseMessage (req_Cookie r ++ " "%char :: b) from = Ok m /\
  ToRequest now m = Ok (mkNGRequest (req_Cookie r) (req_Command r) (req_CallID r) (req_FromTag r)
    (req_ToTag r) (req_ViaBranch r) (req_SDP r) (req_Flags r) (req_Replace r) (req_Direction r)
    from now (req_ICE r) (req_DTLS r) (req_SDES r) (req_Transport r) (req_MediaAddress r)
    (req_AddressFamily r) (containsFlag (req_Flags r) (bs "record-call")) (req_RecordingMeta r)
    (req_Codec r) (req_Transcode r) (req_Ptime r) (req_Label r) (req_SetLabel r) (req_FromLabel r)
    (req_ToLabel r) (req_DTMFDigit r) (req_DTMFDuration r) (req_ForwardAddress r) (req_ForwardPort r)
    (decoded FormatFloat (request_map r))).
Proof.
  intros ([Hne Hsp] & Hcmd & (Hp & Hd & Hf) & Hmeta) Henc Hlen.
  eexists. split; [by apply (ParseMessage_frame FormatFloat _ (request_map r)); [..|apply good_request_map| |]|].
  unfold ToRequest. cbn [msg_Data msg_Cookie msg_From].
  rewrite (read_string r (bs "command") (req_Command r)) by (vm_compute; reflexivity).
  rewrite bool_decide_eq_false_2 by done.
  rewrite read_meta by done.
  rewrite (read_int r (bs "ptime") (req_Ptime r)), (read_int r (bs "duration") (req_DTMFDuration r)),
    (read_int r (bs "forward-port") (req_ForwardPort r)) by (done || (vm_compute; reflexivity)).
  rewrite (read_list r (bs "flags") (req_Flags r)), (read_list r (bs "replace") (req_Replace r)),
    (read_list r (bs "direction") (req_Direction r)), (read_list r (bs "SDES") (req_SDES r)),
    (read_list r (bs "codec") (req_Codec r)), (read_list r (bs "transcode") (req_Transcode r))
    by (vm_compute; reflexivity).
  rewrite (read_string r (bs "call-id") (req_CallID r)), (read_string r (bs "from-tag") (req_FromTag r)),
    (read_string r (bs "to-tag") (req_ToTag r)), (read_string r (bs "via-branch") (req_ViaBranch r)),
    (read_string r (bs "sdp") (req_SDP r)), (read_string r (bs "ICE") (req_ICE r)),
    (read_string r (bs "DTLS") (req_DTLS r)), (read_string r (bs "transport-protocol") (req_Transport r)),
    (read_string r (bs "media address") (req_MediaAddress r)),
    (read_string r (bs "address family") (req_AddressFamily r)), (read_string r (bs "label") (req_Label r)),
    (read_string r (bs "set-label") (req_SetLabel r)), (read_string r (bs "from-label") (req_FromLabel r)),
    (read_string r (bs "to-label") (req_ToLabel r)), (read_string r (bs "digit") (req_DTMFDigit r)),
    (read_string r (bs "forward-address") (req_ForwardAddress r)) by (vm_compute; reflexivity).
  done.
Qed.
End reading.

(** ** Specification: what the encoder accepts and a client reads *)

(** No value of a type the encoder does not know, at any depth. *)
Fixpoint encodable {float : Type} (v : interface float) : bool :=
  match v with
  | ISlice l | IBencodeList l => forallb encodable l
  | IMap m | IBencodeDict m => forallb (fun kv => encodable kv.2) m
  | IOther => false
  | _ => true
  end.

(** What every Go response satisfies: [int64] fields in range, maps with
    distinct keys. *)
Definition wf_response (resp : NGResponse) : Prop :=
  is_s 64 (resp_Created resp) /\ is_s 64 (resp_LastSignal resp) /\
  Forall (fun kv => is_s 64 (ti_Created kv.2)) (resp_Tag resp) /\
  NoDup ((resp_Extra resp).*1) /\ Forall (fun kv => wf_interface kv.2) (resp_Extra resp).

Definition read_candidate (v : BencodeValue) : option ICECandidate :=
  match v with
  | VDict d =>
      Some (mkICECandidate (DictGetString d (bs "foundation")) (DictGetInt d (bs "component"))
        (DictGetString d (bs "protocol")) (DictGetInt d (bs "priority")) (DictGetString d (bs "address"))
        (DictGetInt d (bs "port")) (DictGetString d (bs "type")) [] 0)
  | _ => None
  end.

Definition read_stream (v : BencodeValue) : option StreamInfo :=
  match v with
  | VDict d =>
      Some (mkStreamInfo (DictGetString d (bs "local address")) (DictGetInt d (bs "local port"))
        (DictGetInt d (bs "local RTCP port")) (DictGetString d (bs "media type")) (DictGetString d (bs "protocol"))
        (DictGetInt d (bs "index")) [] (omap read_candidate (default [] (DictGetList d (bs "ICE-candidates"))))
        (DictGetString d (bs "ICE-ufrag")) (DictGetString d (bs "ICE-pwd")) [] []
        (DictGetString d (bs "fingerprint")) (DictGetString d (bs "fingerprint-hash")) (DictGetString d (bs "setup")))
  | _ => None
  end.

(** The part of a candidate and of a stream that is sent. *)
Definition sent_candidate (c : ICECandidate) : ICECandidate :=
  mkICECandidate (ic_Foundation c) (ic_Component c) (ic_Protocol c) (ic_Priority c) (ic_IP c) (ic_Port c)
    (ic_Type c) [] 0.
Definition sent_stream (s : StreamInfo) : StreamInfo :=
  mkStreamInfo (si_LocalIP s) (si_LocalPort s) (positive (si_LocalRTCPPort s)) (si_MediaType s) (si_Protocol s)
    (si_Index s) [] (map sent_candidate (si_ICECandidates s)) (si_ICEUfrag s) (si_ICEPwd s) [] []
    (si_Fingerprint s) (if bool_decide (si_Fingerprint s = []) then [] else si_FingerprintHash s) (si_Setup s).

(** The integers of a Go stream are in range. *)
Definition wf_candidate (c : ICECandidate) : Prop :=
  is_s 64 (ic_Component c) /\ is_u 32 (ic_Priority c) /\ is_s 64 (ic_Port c).
Definition wf_stream (s : StreamInfo) : Prop :=
  is_s 64 (si_LocalPort s) /\ is_s 64 (si_LocalRTCPPort s) /\ is_s 64 (si_Index s) /\
  Forall wf_candidate (si_ICECandidates s).

(** The keys [BuildResponse] gives a meaning to. *)
Definition response_keys : list bytes :=
  map bs ["result"; "error-reason"; "sdp"; "warning"; "streams"; "tags"; "stats"; "legs"; "created"; "last signal"]%string.

(** ** Lemmas: responses *)

Section response_lemmas.
Context (FormatFloat : float64 -> Z -> bytes).
Abbreviation sound := (sound FormatFloat).

Lemma encodeItems_error (l : list (outcome berror bytes)) :
  Forall (fun o => (exists b, o = Ok b) \/ o = Err ErrInvalidType) l ->
  Err ErrInvalidType ∈ l -> encodeItems l = Err ErrInvalidType.
Proof.
  induction 1 as [|o l Ho Hl IH]; [by intros ?%elem_of_nil|].
  intros [<-|Hin]%elem_of_cons; [done|]. cbn [encodeItems].
  destruct Ho as [[b ->]| ->]; [|done]. simpl. by rewrite IH.
Qed.

Lemma encodeKeys_error ks (m : list (bytes * outcome berror bytes)) k :
  (forall k o, assoc k m = Some o -> (exists b, o = Ok b) \/ o = Err ErrInvalidType) ->
  k ∈ ks -> assoc k m = Some (Err ErrInvalidType) -> encodeKeys ks m = Err ErrInvalidType.
Proof.
  intros Hm Hk Ha. induction ks as [|k' ks IH]; [by apply elem_of_nil in Hk|].
  cbn [encodeKeys]. apply elem_of_cons in Hk as [<-|Hk]; [by rewrite Ha|].
  destruct (assoc k' m) as [o|] eqn:E; simpl.
  - destruct (Hm _ _ E) as [[b ->]| ->]; [|done]. simpl. by rewrite IH.
  - by rewrite IH.
Qed.

(** The encoder fails exactly on the values it cannot encode. *)
Definition encodes_iff (v : interface float64) : Prop :=
  if encodable v then exists b, encode FormatFloat v = Ok b else encode FormatFloat v = Err ErrInvalidType.

Lemma encodes_iff_or v : encodes_iff v ->
  (exists b, encode FormatFloat v = Ok b) \/ encode FormatFloat v = Err ErrInvalidType.
Proof. unfold encodes_iff. case_match; auto. Qed.

Lemma foldr_and_Forall {A} (P : A -> Prop) l : foldr (fun x Q => P x /\ Q) True l -> Forall P l.
Proof. induction l; simpl; [constructor|]. intros []. constructor; auto. Qed.

Lemma encodeList_outcome l : Forall encodes_iff l ->
  if forallb encodable l then exists b, encodeList (map (encode FormatFloat) l) = Ok b
  else encodeList (map (encode FormatFloat) l) = Err ErrInvalidType.
Proof.
  intros Hl. unfold encodeList. destruct (forallb encodable l) eqn:E.
  - destruct (encodeItems_total (map (encode FormatFloat) l)) as [r ->]; [|simpl; eauto].
    apply Forall_map, Forall_forall. intros v Hv. rewrite Forall_forall in Hl.
    rewrite forallb_forall in E. specialize (Hl v Hv). unfold encodes_iff in Hl.
    by rewrite E in Hl by by apply list_elem_of_In.
  - rewrite encodeItems_error; [done| |].
    + apply Forall_map. eapply Forall_impl; [exact Hl|]. intros v. apply encodes_iff_or.
    + clear -Hl E. induction Hl as [|v l Hv Hl IH]; [done|]. cbn [forallb map] in *.
      unfold encodes_iff in Hv. destruct (encodable v); [right; auto|]. rewrite Hv. left.
Qed.

Lemma encodeDict_outcome (m : imap) : NoDup (m.*1) -> Forall (fun kv => encodes_iff kv.2) m ->
  let m' := map (fun kv => (kv.1, encode FormatFloat kv.2)) m in
  if forallb (fun kv => encodable kv.2) m then exists b, encodeDict m' = Ok b
  else encodeDict m' = Err ErrInvalidType.
Proof.
  intros Hnd Hm m'. unfold encodeDict.
  assert (forall k o, assoc k m' = Some o -> exists v, (k, v) ∈ m /\ o = encode FormatFloat v) as Ha.
  { intros k o ([k' v] & ? & Hin)%assoc_elem_of%list_elem_of_fmap. simplify_eq/=. eauto. }
  rewrite Forall_forall in Hm. destruct (forallb _ m) eqn:E.
  - destruct (encodeKeys_total (merge_sort bytes_le (m'.*1)) m') as [r ->]; [|simpl; eauto].
    intros k o (v & Hin & ->)%Ha. rewrite forallb_forall in E. specialize (Hm _ Hin).
    unfold encodes_iff in Hm. rewrite (E (k, v)) in Hm by by apply list_elem_of_In. done.
  - assert (exists kv, kv ∈ m /\ encodable kv.2 = false) as ([k v] & Hin & Hv).
    { clear -E. induction m as [|kv m IH]; [done|]. cbn [forallb] in E.
      destruct (encodable kv.2) eqn:Ekv; [|by exists kv; split; [left|]].
      destruct (IH E) as (kv' & ? & ?). exists kv'. split; [by right|done]. }
    rewrite (encodeKeys_error _ _ k); [done| | |].
    + intros k' o (v' & Hin' & ->)%Ha. apply encodes_iff_or, (Hm _ Hin').
    + rewrite merge_sort_Permutation. unfold m'. rewrite map_fst_id.
      apply list_elem_of_fmap. by exists (k, v).
    + unfold m'. rewrite assoc_map. rewrite (assoc_NoDup k v) by done. simpl. f_equal.
      specialize (Hm _ Hin). unfold encodes_iff in Hm. simpl in *. by rewrite Hv in Hm.
Qed.

Lemma encode_outcome (v : interface float64) : wf_interface v -> encodes_iff v.
Proof.
  assert (forall (P : interface float64 -> Prop) l, Forall (fun v => wf_interface v -> P v) l ->
    Forall wf_interface l -> Forall P l) as Hmp
    by (intros P l Hl Hw; rewrite Forall_forall in *; eauto).
  pattern v. apply interface_ind'; clear v.
  { intros []; unfold encodes_iff; simpl; eauto. }
  1-2: intros l IH Hwf%foldr_and_Forall; apply encodeList_outcome; auto.
  all: intros m IH [Hnd Hwf]; apply encodeDict_outcome; [done|];
    apply (foldr_and_Forall (fun kv => wf_interface kv.2)) in Hwf; rewrite Forall_forall in *; eauto.
Qed.

Lemma sound_leaf v :
  match v with ISlice _ | IBencodeList _ | IMap _ | IBencodeDict _ | IOther => False
             | IInt64 z => is_s 64 z | _ => True end -> sound v.
Proof. destruct v; simpl; intros; try done; split; simpl; eauto. Qed.

Lemma sound_keyed d : keyed sound d -> sound (IMap d).
Proof. intros. by apply sound_IMap. Qed.

Lemma sound_ISlice_map {A} (f : A -> interface float64) l : (forall x, sound (f x)) -> sound (ISlice (map f l)).
Proof. intros Hf. apply sound_ISlice, Forall_fmap, Forall_true. intros. apply Hf. Qed.

Ltac sound_entries :=
  repeat (apply Forall_cons; split); [..|by apply Forall_nil]; cbn [snd]; apply sound_leaf; simpl; try done.

Lemma sound_candidate c : sound (candidate_map c).
Proof. apply sound_keyed, keyed_map_of. sound_entries. Qed.

Lemma sound_stream s : sound (stream_map s).
Proof.
  apply sound_keyed. unfold stream_fields. cbv zeta. apply keyed_set_nonempty; [by apply sound_leaf|].
  assert (forall d, keyed sound d -> keyed sound (if bool_decide (si_Fingerprint s = []) then d
    else dict_set (bs "fingerprint-hash") (IString (si_FingerprintHash s))
           (dict_set (bs "fingerprint") (IString (si_Fingerprint s)) d))) as H
    by (intros; case_bool_decide; [done|]; repeat apply keyed_dict_set; try apply sound_leaf; done).
  apply H. repeat apply keyed_set_nonempty; try by apply sound_leaf.
  apply keyed_set_unless_empty; [apply sound_ISlice_map, sound_candidate|].
  apply keyed_set_positive; [by apply sound_leaf|]. apply keyed_map_of. sound_entries.
Qed.

Lemma sound_tag info : is_s 64 (ti_Created info) -> sound (tag_map info).
Proof.
  intros H. apply sound_keyed, keyed_set_unless_empty.
  { apply sound_ISlice_map. intros m. apply sound_keyed, keyed_map_of. sound_entries. }
  apply keyed_set_nonempty; [by apply sound_leaf|]. apply keyed_map_of. sound_entries.
Qed.

Lemma keyed_response_fields resp : wf_response resp -> keyed sound (response_fields resp).
Proof.
  intros (Hc & Hl & Ht & _). unfold response_fields. cbv zeta.
  apply keyed_set_positive; [by apply sound_leaf|]. apply keyed_set_positive; [by apply sound_leaf|].
  assert (forall d, keyed sound d -> keyed sound
    match resp_Stats resp with
    | None => d
    | Some st => set_unless_empty (bs "legs") (cs_Legs st) (ISlice (map leg_map (cs_Legs st)))
                   (dict_set (bs "stats") (stats_map st) d)
    end) as Hst.
  { intros d Hd. case_match; [|done]. apply keyed_set_unless_empty, keyed_dict_set; [| |done].
    - apply sound_ISlice_map. intros leg. apply sound_keyed, keyed_map_of. sound_entries.
    - apply sound_keyed, keyed_map_of. sound_entries; [by apply wraps_range|apply to_int64_range]. }
  apply Hst. apply keyed_set_unless_empty.
  { apply sound_keyed, keyed_map_of, Forall_fmap. eapply Forall_impl; [exact Ht|].
    intros []. apply sound_tag. }
  apply keyed_set_unless_empty; [apply sound_ISlice_map, sound_stream|].
  repeat apply keyed_set_nonempty; try by apply sound_leaf.
  apply keyed_dict_set; [by apply sound_leaf|apply keyed_nil].
Qed.

Lemma keyed_impl (P Q : interface float64 -> Prop) d : (forall v, P v -> Q v) -> keyed P d -> keyed Q d.
Proof. intros HPQ [Hs Hd]. split; [done|]. eapply Forall_impl; [exact Hd|]. auto. Qed.

Lemma keyed_response_map resp : wf_response resp -> keyed wf_interface (response_map resp).
Proof.
  intros Hwf. apply keyed_foldl_set; [apply Hwf|].
  eapply keyed_impl; [|by apply keyed_response_fields]. by intros ? [? _].
Qed.

Lemma sound_encodable v : wf_interface v -> sound v <-> encodable v = true.
Proof.
  intros Hwf. pose proof (encode_outcome v Hwf) as H. unfold encodes_iff in H. split.
  - intros [_ [b Hb]]. destruct (encodable v); [done|]. congruence.
  - intros E. rewrite E in H. done.
Qed.

Lemma response_map_good resp :
  wf_response resp -> forallb (fun kv => encodable kv.2) (resp_Extra resp) = true ->
  keyed sound (response_map resp).
Proof.
  intros Hwf E. apply keyed_foldl_set; [|by apply keyed_response_fields].
  destruct Hwf as (_ & _ & _ & _ & Hx). rewrite Forall_forall in *. intros kv Hin.
  rewrite forallb_forall in E. apply sound_encodable; [by apply Hx|]. apply E. by apply list_elem_of_In.
Qed.
End response_lemmas.

(** ** Lemmas: what a client reads *)

Lemma assoc_set_nonempty k k' v (d : imap) :
  assoc k (set_nonempty k' v d) =
  if bool_decide (k = k') then (if bool_decide (v = []) then assoc k d else Some (IString v)) else assoc k d.
Proof. unfold set_nonempty. destruct (bool_decide (v = [])); rewrite ?assoc_dict_set; by case_bool_decide. Qed.
Lemma assoc_set_positive inj k k' v (d : imap) :
  assoc k (set_positive inj k' v d) =
  if bool_decide (k = k') then (if v >? 0 then Some (inj v) else assoc k d) else assoc k d.
Proof. unfold set_positive. repeat case_match; try done; rewrite assoc_dict_set; by case_bool_decide. Qed.
Lemma assoc_set_unless_empty {A} k k' (l : list A) v (d : imap) :
  assoc k (set_unless_empty k' l v d) =
  if bool_decide (k = k') then (match l with [] => assoc k d | _ => Some v end) else assoc k d.
Proof. unfold set_unless_empty. destruct l; [by case_bool_decide|]. rewrite assoc_dict_set. by case_bool_decide. Qed.

Lemma assoc_if {A} k (b : bool) (d d' : list (bytes * A)) :
  assoc k (if b then d else d') = if b then assoc k d else assoc k d'.
Proof. by destruct b. Qed.

Ltac key_tests :=
  repeat match goal with
  | |- context [bool_decide (bs ?a = bs ?b)] =>
      let r := eval vm_compute in (bool_decide (bs a = bs b)) in
      change (bool_decide (bs a = bs b)) with r; cbv iota
  end.
Ltac lookups :=
  repeat (first [rewrite assoc_set_nonempty | rewrite assoc_set_positive | rewrite assoc_set_unless_empty
                | rewrite assoc_dict_set | rewrite assoc_if
                | rewrite assoc_map_of by (apply (bool_decide_unpack _); vm_compute; exact I)]; key_tests);
  cbn [assoc]; key_tests.

Section read_lemmas.
Context (FormatFloat : float64 -> Z -> bytes).
Abbreviation dec := (decoded FormatFloat).

(** A map built key by key decodes to its entries. *)
Abbreviation sorted := (keyed (fun _ => True)).
Lemma denote_sorted d : sorted d -> denote FormatFloat (IMap d) = VDict (dec d).
Proof. intros [Hs _]. simpl. unfold decoded. by rewrite dict_norm_sorted by by rewrite map_fst_id. Qed.
Lemma sorted_map_of l : sorted (map_of l).
Proof. by apply keyed_map_of, Forall_true. Qed.
Lemma sorted_if (b : bool) d d' : sorted d -> sorted d' -> sorted (if b then d else d').
Proof. by destruct b. Qed.
Hint Resolve sorted_map_of sorted_if : ng.

Lemma read_candidate_map c : wf_candidate c ->
  read_candidate (denote FormatFloat (candidate_map c)) = Some (sent_candidate c).
Proof.
  intros (Hc & Hp & Hpo). unfold candidate_map. rewrite denote_sorted by auto with ng.
  unfold read_candidate, DictGetString, DictGetInt.
  rewrite !assoc_decoded. lookups. simpl.
  rewrite !wraps_id; unfold is_s, is_u in *; try lia. done.
Qed.

Lemma omap_map_Some {A B C} (f : A -> B) (g : B -> option C) (h : A -> C) l :
  Forall (fun x => g (f x) = Some (h x)) l -> omap g (map f l) = map h l.
Proof. induction 1 as [|x l Hx _ IH]; simpl; [done|]. rewrite Hx. by f_equal. Qed.

Lemma sorted_stream_fields s : sorted (stream_fields s).
Proof. unfold stream_fields. cbv zeta. auto 20 with ng. Qed.

(** The text and the number that the decoder finds under a key. *)
Lemma read_string_field k (d : imap) v :
  assoc k d = Some (IString v) \/ (assoc k d = None /\ v = []) -> DictGetString (dec d) k = v.
Proof. unfold DictGetString. rewrite assoc_decoded. by intros [->|[-> ->]]. Qed.
Lemma read_int_field k (d : imap) z :
  is_s 64 z -> assoc k d = Some (IInt z) \/ (assoc k d = None /\ z = 0) -> DictGetInt (dec d) k = z.
Proof.
  unfold DictGetInt. rewrite assoc_decoded. intros Hz [->|[-> ->]]; [|done]. simpl. by apply wraps_id.
Qed.

Ltac stream_lookup :=
  unfold stream_fields; cbv zeta; lookups;
  repeat match goal with |- context [bool_decide (?v = [])] => destruct (bool_decide_reflect (v = [])) end; auto.

Lemma read_stream_map s : wf_stream s ->
  read_stream (denote FormatFloat (stream_map s)) = Some (sent_stream s).
Proof.
  intros (Hp & Hr & Hi & Hc). unfold stream_map. rewrite denote_sorted by apply sorted_stream_fields.
  unfold read_stream, sent_stream. f_equal. f_equal.
  all: try (apply read_string_field; by stream_lookup).
  all: try (apply read_int_field; [done|by stream_lookup]).
  - unfold DictGetInt. rewrite assoc_decoded. unfold stream_fields. cbv zeta. lookups.
    unfold positive. destruct (bool_decide (si_Fingerprint s = [])), (si_LocalRTCPPort s >? 0);
      simpl; try done; by apply wraps_id.
  - unfold DictGetList. rewrite assoc_decoded. unfold stream_fields. cbv zeta. lookups.
    repeat match goal with |- context [if bool_decide (?v = []) then _ else _] => destruct (bool_decide (v = [])) end.
    all: destruct (si_ICECandidates s) as [|c l] eqn:E; [done|]; rewrite <- E in *; cbn [option_fmap option_map fmap].
    all: cbn [denote default]; rewrite map_map; apply omap_map_Some; eapply Forall_impl; [exact Hc|];
      intros; by apply read_candidate_map.
Qed.

Lemma assoc_response_map resp k : wf_response resp ->
  assoc k (response_map resp) =
  match assoc k (resp_Extra resp) with Some v => Some v | None => assoc k (response_fields resp) end.
Proof. intros (_ & _ & _ & Hnd & _). by apply assoc_foldl_set. Qed.

Lemma assoc_reserved resp k :
  wf_response resp -> Forall (fun kv => kv.1 ∉ response_keys) (resp_Extra resp) -> k ∈ response_keys ->
  assoc k (response_map resp) = assoc k (response_fields resp).
Proof.
  intros Hwf Hx Hk. rewrite assoc_response_map by done.
  destruct (assoc k (resp_Extra resp)) as [v|] eqn:E; [|done].
  apply assoc_elem_of in E. rewrite Forall_forall in Hx. by destruct (Hx _ E).
Qed.

(** The entries of the response fields that a client looks at. *)
Lemma response_field resp :
  let f := response_fields resp in
  assoc (bs "result") f = Some (IString (resp_Result resp)) /\
  assoc (bs "error-reason") f = str_entry (resp_ErrorReason resp) /\
  assoc (bs "sdp") f = str_entry (resp_SDP resp) /\
  assoc (bs "warning") f = str_entry (resp_Warning resp) /\
  assoc (bs "created") f = (if resp_Created resp >? 0 then Some (IInt64 (resp_Created resp)) else None) /\
  assoc (bs "last signal") f = (if resp_LastSignal resp >? 0 then Some (IInt64 (resp_LastSignal resp)) else None) /\
  assoc (bs "streams") f = (match resp_Streams resp with [] => None | l => Some (ISlice (map stream_map l)) end).
Proof.
  unfold response_fields, str_entry. cbv zeta. destruct (resp_Stats resp); repeat split; lookups; try done;
    by destruct (resp_Streams resp).
Qed.
End read_lemmas.

(** ** Guarantees *)

(** What [ParseMessage] accepts has a cookie, and it never runs out of fuel. *)
Lemma ParseMessage_cookie data from :
  ParseMessage data from <> OutOfFuel /\
  forall m, ParseMessage data from = Ok m -> valid_cookie (msg_Cookie m).
Proof.
  unfold ParseMessage. destruct (IndexByte data " ") as [n|] eqn:E; [|done]. apply IndexByte_Some in E as [Hsp _].
  case_bool_decide; [done|]. pose proof (DecodeBencode_enough_fuel (drop (n + 1) data)) as Hf.
  destruct (DecodeBencode (drop (n + 1) data)) as [[| | |]| | |]; try done.
  split; [done|]. by intros m [= <-].
Qed.

Section response_guarantees.
Context (FormatFloat : float64 -> Z -> bytes).

(** A response whose extra fields can be encoded is built, and a client that
    parses the reply gets its fields under its own cookie. *)
Lemma BuildResponse_parsed cookie resp :
  wf_response resp -> forallb (fun kv => encodable kv.2) (resp_Extra resp) = true ->
  exists b, BuildResponse FormatFloat cookie resp = Ok b /\
  (valid_cookie cookie -> Z.of_nat (length b) < 2 ^ 63 ->
   forall from, ParseMessage b from = Ok (mkNGMessage cookie (decoded FormatFloat (response_map resp)) b from)).
Proof.
  intros Hwf Henc. pose proof (response_map_good FormatFloat resp Hwf Henc) as Hg.
  destruct (sound_IMap FormatFloat _ Hg) as [[_ [e He]] _].
  unfold BuildResponse, EncodeBencode. rewrite He. cbn [obind]. eexists. split; [done|]. intros [Hne Hsp] Hlen from.
  apply (ParseMessage_frame FormatFloat); try done. simpl_len. lia.
Qed.

(** A response arrives as it was built. When the extra fields are of
    types the encoder knows and do not reuse the protocol's own keys, building
    the response succeeds, and a client that parses the reply finds its own
    cookie, the result, the error reason, the SDP, the warning, the two times,
    every stream with its candidates and credentials, and every extra field. *)
Theorem response_roundtrip cookie resp from :
  valid_cookie cookie -> wf_response resp -> Forall wf_stream (resp_Streams resp) ->
  forallb (fun kv => encodable kv.2) (resp_Extra resp) = true ->
  Forall (fun kv => kv.1 ∉ response_keys) (resp_Extra resp) ->
  exists b, BuildResponse FormatFloat cookie resp = Ok b /\
  (Z.of_nat (length b) < 2 ^ 63 ->
   exists m, ParseMessage b from = Ok m /\ msg_Cookie m = cookie /\
   let d := msg_Data m in
   DictGetString d (bs "result") = resp_Result resp /\
   DictGetString d (bs "error-reason") = resp_ErrorReason resp /\
   DictGetString d (bs "sdp") = resp_SDP resp /\
   DictGetString d (bs "warning") = resp_Warning resp /\
   DictGetInt d (bs "created") = positive (resp_Created resp) /\
   DictGetInt d (bs "last signal") = positive (resp_LastSignal resp) /\
   omap read_stream (default [] (DictGetList d (bs "streams"))) = map sent_stream (resp_Streams resp) /\
   forall k v, (k, v) ∈ resp_Extra resp -> assoc k d = Some (denote FormatFloat v)).
Proof.
  intros Hck Hwf Hst Henc Hx.
  destruct (BuildResponse_parsed cookie resp Hwf Henc) as (b & Hb & Hparse).
  exists b. split; [done|]. intros Hlen. eexists. split; [by apply Hparse|].
  split; [done|]. cbn [msg_Data]. unfold DictGetString, DictGetInt, DictGetList.
  rewrite !assoc_decoded.
  destruct (response_field resp) as (F1 & F2 & F3 & F4 & F5 & F6 & F7).
  rewrite <- assoc_reserved in F1, F2, F3, F4, F5, F6, F7
    by (try done; apply (bool_decide_unpack _); vm_compute; exact I).
  rewrite F1, F2, F3, F4, F5, F6, F7. unfold str_entry, positive. repeat split.
  1-3: by case_bool_decide.
  - by destruct (resp_Created resp >? 0).
  - by destruct (resp_LastSignal resp >? 0).
  - destruct (resp_Streams resp) as [|s l] eqn:E; [done|]. rewrite <- E in *.
    cbn [fmap option_fmap option_map denote default]. rewrite map_map. apply omap_map_Some.
    eapply Forall_impl; [exact Hst|]. intros. by apply read_stream_map.
  - intros k v Hin. rewrite assoc_decoded, assoc_response_map by done.
    by rewrite (assoc_NoDup k v) by first [done | apply Hwf].
Qed.

(** An extra field of a type the encoder does not know makes the whole
    response fail: [BuildResponse] returns [ErrInvalidType] and no reply is
    built, whatever the rest of the response. *)
Theorem BuildResponse_unencodable cookie resp k v :
  wf_response resp -> (k, v) ∈ resp_Extra resp -> encodable v = false ->
  BuildResponse FormatFloat cookie resp = Err ErrInvalidType.
Proof.
  intros Hwf Hin Hv. pose proof (keyed_response_map FormatFloat resp Hwf) as Hk.
  pose proof (wf_IMap _ Hk) as Hwfm. pose proof (encode_outcome FormatFloat _ Hwfm) as H.
  unfold encodes_iff in H. replace (encodable (IMap (response_map resp))) with false in H.
  { unfold BuildResponse, EncodeBencode. by rewrite H. }
  symmetry. apply not_true_iff_false. cbn [encodable]. rewrite forallb_forall. intros Hall.
  assert ((k, v) ∈ response_map resp) as Hin'.
  { apply assoc_elem_of. rewrite assoc_response_map by done. by rewrite (assoc_NoDup k v) by first [done | apply Hwf]. }
  apply list_elem_of_In, Hall in Hin'. simpl in Hin'. congruence.
Qed.
End response_guarantees.

(** ** Witnesses *)

Definition sample_text (_ : float64) (_ : Z) : bytes := bs "0.5".

Definition sample_request : NGRequest :=
  mkNGRequest (bs "7_1") (bs "offer") (bs "call") (bs "ft") [] [] (bs "v=0") [bs "RECORD-CALL"; bs "ICE=remove"] []
    [] None 0 [] [] [] [] [] [] false (Some [(bs "a", bs "1"); (bs "b", [])]) [] [] 20 [] [] [] [] [] 0 [] 0 [].

Lemma request_roundtrip_witness :
  exists m, ParseMessage (bs "7_1 d7:call-id4:call7:command5:offer5:flagsl11:RECORD-CALL10:ICE=removee8:from-tag2:ft5:ptimei20e11:record-metad1:a1:11:b0:e3:sdp3:v=0e") None = Ok m /\
  exists r, ToRequest 5 m = Ok r /\ req_RecordCall r = true /\ req_Ptime r = 20 /\
            req_RecordingMeta r = Some [(bs "a", bs "1"); (bs "b", [])].
Proof.
  edestruct (request_roundtrip sample_text sample_request
    (bs "d7:call-id4:call7:command5:offer5:flagsl11:RECORD-CALL10:ICE=removee8:from-tag2:ft5:ptimei20e11:record-metad1:a1:11:b0:e3:sdp3:v=0e") None 5)
    as (m & Hm & Hr).
  - split; [split; [done|apply (bool_decide_unpack _); vm_compute; exact I]|].
    split; [done|]. split; [cbn; lia|]. cbn. repeat constructor; done.
  - vm_compute. reflexivity.
  - vm_compute. reflexivity.
  - exists m. split; [exact Hm|]. eexists. split; [exact Hr|].
    split; [vm_compute; reflexivity|split; vm_compute; reflexivity].
Defined.

Definition sample_stream : StreamInfo :=
  mkStreamInfo (bs "10.0.0.1") 30000 30001 (bs "audio") (bs "RTP/AVP") 0 []
    [mkICECandidate (bs "1") 1 (bs "UDP") 2130706431 (bs "10.0.0.1") 30000 (bs "host") [] 0]
    (bs "uf") (bs "pw") [] [] [] (bs "sha-256") [].
Definition sample_response (extra : imap) : NGResponse :=
  mkNGResponse ResultOK [] (bs "v=0") [] [] [] [sample_stream] None 1700000000 0 [] [] extra.

Lemma sample_response_wf v : wf_interface v -> wf_response (sample_response [(bs "flags", v)]).
Proof.
  intros Hv. unfold wf_response, sample_response, is_s.
  cbn [resp_Created resp_LastSignal resp_Tag resp_Extra fmap list_fmap].
  split; [lia|]. split; [lia|]. split; [constructor|]. split; [apply NoDup_singleton|].
  apply Forall_singleton. exact Hv.
Qed.

Lemma response_roundtrip_witness :
  exists b, BuildResponse sample_text (bs "7_1") (sample_response [(bs "flags", IInt 3)]) = Ok b /\
  (Z.of_nat (length b) < 2 ^ 63 -> exists m, ParseMessage b None = Ok m /\ msg_Cookie m = bs "7_1").
Proof.
  edestruct (response_roundtrip sample_text (bs "7_1") (sample_response [(bs "flags", IInt 3)]) None)
    as (b & Hb & H).
  - split; [done|]. apply (bool_decide_unpack _). vm_compute. exact I.
  - by apply sample_response_wf.
  - cbn. repeat constructor; cbn; lia.
  - reflexivity.
  - cbn. repeat constructor; apply (bool_decide_unpack _); vm_compute; exact I.
  - exists b. split; [exact Hb|]. intros Hlen. destruct (H Hlen) as (m & Hm & Hc & _). eauto.
Defined.

Lemma BuildResponse_unencodable_witness :
  BuildResponse sample_text (bs "7_1") (sample_response [(bs "flags", IOther)]) = Err ErrInvalidType.
Proof.
  apply (BuildResponse_unencodable sample_text (bs "7_1") _ (bs "flags") IOther);
    [by apply sample_response_wf|by left|reflexivity].
Defined.
