(* ===== verification/SessionRegistry.v ===== *)
(** * The session registry

    Models src/internal/session_manager.go: media sessions, the registry with
    its indexes by id, Call-ID, from-tag and SSRC, the state changes of a
    session, removal and the cleanup of stale sessions.

    Sessions and legs are shared through pointers: the registry's maps, a
    caller that holds a session and the SSRC tables of a session all refer to
    the same objects. They live in the stores [mem] and [legs]; a pointer is a
    location. A fresh session id comes from the uuid package and is an
    argument, as are the readings of the clock; the readings that one
    operation takes in a row are one reading. The callback of a session that
    ends runs in a goroutine of its own: [ended] lists the sessions it was
    started for. *)

From Stdlib Require Import ZArith Lia String.
From stdpp Require Import base numbers list gmap strings sorting.
From S2P Require Import Prelude GoFloat.

Local Open Scope Z_scope.
Local Open Scope go_scope.
#[local] Set Warnings "-clear-no-such-hyp,-register-all".

Abbreviation loc := positive.
Abbreviation conn := nat.

(** ** Data *)

(** [SessionState] is a string type, and a state is set from any string. *)
Definition SessionStateNew : string := "new".
Definition SessionStatePending : string := "pending".
Definition SessionStateActive : string := "active".
Definition SessionStateHold : string := "hold".
Definition SessionStateTerminated : string := "terminated".

Record ICECredentials := mkICECredentials {
  ice_Username : string; ice_Password : string; ice_Lite : bool }.

Record SRTPParameters := mkSRTPParameters {
  srtp_CryptoSuite : string;
  srtp_MasterKey : list Z;
  srtp_MasterSalt : list Z;
  srtp_DTLS : bool;
  srtp_Fingerprint : string;
  srtp_Setup : string }.

Record CodecInfo := mkCodecInfo {
  codec_PayloadType : Z;
  codec_Name : string;
  codec_ClockRate : Z;
  codec_Channels : Z;
  codec_Fmtp : string }.

Record CallLeg := mkCallLeg {
  leg_Tag : string;
  leg_Label : string;
  leg_IP : string;
  leg_Port : Z;
  leg_RTCPPort : Z;
  leg_MediaType : string;
  leg_Codecs : list CodecInfo;
  leg_SSRC : Z;
  leg_Transport : string;
  leg_ICECredentials : option ICECredentials;
  leg_SRTPParams : option SRTPParameters;
  leg_LocalIP : string;
  leg_LocalPort : Z;
  leg_LocalRTCPPort : Z;
  leg_Conn : option conn;
  leg_RTCPConn : option conn;
  leg_LastActivity : Z;
  leg_PacketsSent : Z;
  leg_PacketsRecv : Z;
  leg_BytesSent : Z;
  leg_BytesRecv : Z;
  leg_PacketsLost : Z;
  leg_Jitter : float64;
  leg_Interface : string;
  leg_AddressFamily : string;
  leg_Direction : string;
  leg_Symmetric : bool;
  leg_StrictSource : bool;
  leg_MediaHandover : bool;
  leg_PortLatching : bool;
  leg_MediaBlocked : bool;
  leg_DTMFBlocked : bool;
  leg_Silenced : bool;
  leg_T38Enabled : bool;
  leg_T38Gateway : bool }.
#[export] Instance set_leg_Label : Setter leg_Label := fun f r =>
  mkCallLeg (leg_Tag r) (f (leg_Label r)) (leg_IP r) (leg_Port r) (leg_RTCPPort r) (leg_MediaType r) (leg_Codecs r) (leg_SSRC r) (leg_Transport r) (leg_ICECredentials r) (leg_SRTPParams r) (leg_LocalIP r) (leg_LocalPort r) (leg_LocalRTCPPort r) (leg_Conn r) (leg_RTCPConn r) (leg_LastActivity r) (leg_PacketsSent r) (leg_PacketsRecv r) (leg_BytesSent r) (leg_BytesRecv r) (leg_PacketsLost r) (leg_Jitter r) (leg_Interface r) (leg_AddressFamily r) (leg_Direction r) (leg_Symmetric r) (leg_StrictSource r) (leg_MediaHandover r) (leg_PortLatching r) (leg_MediaBlocked r) (leg_DTMFBlocked r) (leg_Silenced r) (leg_T38Enabled r) (leg_T38Gateway r).
#[export] Instance set_leg_SSRC : Setter leg_SSRC := fun f r =>
  mkCallLeg (leg_Tag r) (leg_Label r) (leg_IP r) (leg_Port r) (leg_RTCPPort r) (leg_MediaType r) (leg_Codecs r) (f (leg_SSRC r)) (leg_Transport r) (leg_ICECredentials r) (leg_SRTPParams r) (leg_LocalIP r) (leg_LocalPort r) (leg_LocalRTCPPort r) (leg_Conn r) (leg_RTCPConn r) (leg_LastActivity r) (leg_PacketsSent r) (leg_PacketsRecv r) (leg_BytesSent r) (leg_BytesRecv r) (leg_PacketsLost r) (leg_Jitter r) (leg_Interface r) (leg_AddressFamily r) (leg_Direction r) (leg_Symmetric r) (leg_StrictSource r) (leg_MediaHandover r) (leg_PortLatching r) (leg_MediaBlocked r) (leg_DTMFBlocked r) (leg_Silenced r) (leg_T38Enabled r) (leg_T38Gateway r).
#[export] Instance set_leg_LastActivity : Setter leg_LastActivity := fun f r =>
  mkCallLeg (leg_Tag r) (leg_Label r) (leg_IP r) (leg_Port r) (leg_RTCPPort r) (leg_MediaType r) (leg_Codecs r) (leg_SSRC r) (leg_Transport r) (leg_ICECredentials r) (leg_SRTPParams r) (leg_LocalIP r) (leg_LocalPort r) (leg_LocalRTCPPort r) (leg_Conn r) (leg_RTCPConn r) (f (leg_LastActivity r)) (leg_PacketsSent r) (leg_PacketsRecv r) (leg_BytesSent r) (leg_BytesRecv r) (leg_PacketsLost r) (leg_Jitter r) (leg_Interface r) (leg_AddressFamily r) (leg_Direction r) (leg_Symmetric r) (leg_StrictSource r) (leg_MediaHandover r) (leg_PortLatching r) (leg_MediaBlocked r) (leg_DTMFBlocked r) (leg_Silenced r) (leg_T38Enabled r) (leg_T38Gateway r).
#[export] Instance set_leg_PacketsSent : Setter leg_PacketsSent := fun f r =>
  mkCallLeg (leg_Tag r) (leg_Label r) (leg_IP r) (leg_Port r) (leg_RTCPPort r) (leg_MediaType r) (leg_Codecs r) (leg_SSRC r) (leg_Transport r) (leg_ICECredentials r) (leg_SRTPParams r) (leg_LocalIP r) (leg_LocalPort r) (leg_LocalRTCPPort r) (leg_Conn r) (leg_RTCPConn r) (leg_LastActivity r) (f (leg_PacketsSent r)) (leg_PacketsRecv r) (leg_BytesSent r) (leg_BytesRecv r) (leg_PacketsLost r) (leg_Jitter r) (leg_Interface r) (leg_AddressFamily r) (leg_Direction r) (leg_Symmetric r) (leg_StrictSource r) (leg_MediaHandover r) (leg_PortLatching r) (leg_MediaBlocked r) (leg_DTMFBlocked r) (leg_Silenced r) (leg_T38Enabled r) (leg_T38Gateway r).
#[export] Instance set_leg_PacketsRecv : Setter leg_PacketsRecv := fun f r =>
  mkCallLeg (leg_Tag r) (leg_Label r) (leg_IP r) (leg_Port r) (leg_RTCPPort r) (leg_MediaType r) (leg_Codecs r) (leg_SSRC r) (leg_Transport r) (leg_ICECredentials r) (leg_SRTPParams r) (leg_LocalIP r) (leg_LocalPort r) (leg_LocalRTCPPort r) (leg_Conn r) (leg_RTCPConn r) (leg_LastActivity r) (leg_PacketsSent r) (f (leg_PacketsRecv r)) (leg_BytesSent r) (leg_BytesRecv r) (leg_PacketsLost r) (leg_Jitter r) (leg_Interface r) (leg_AddressFamily r) (leg_Direction r) (leg_Symmetric r) (leg_StrictSource r) (leg_MediaHandover r) (leg_PortLatching r) (leg_MediaBlocked r) (leg_DTMFBlocked r) (leg_Silenced r) (leg_T38Enabled r) (leg_T38Gateway r).
#[export] Instance set_leg_BytesSent : Setter leg_BytesSent := fun f r =>
  mkCallLeg (leg_Tag r) (leg_Label r) (leg_IP r) (leg_Port r) (leg_RTCPPort r) (leg_MediaType r) (leg_Codecs r) (leg_SSRC r) (leg_Transport r) (leg_ICECredentials r) (leg_SRTPParams r) (leg_LocalIP r) (leg_LocalPort r) (leg_LocalRTCPPort r) (leg_Conn r) (leg_RTCPConn r) (leg_LastActivity r) (leg_PacketsSent r) (leg_PacketsRecv r) (f (leg_BytesSent r)) (leg_BytesRecv r) (leg_PacketsLost r) (leg_Jitter r) (leg_Interface r) (leg_AddressFamily r) (leg_Direction r) (leg_Symmetric r) (leg_StrictSource r) (leg_MediaHandover r) (leg_PortLatching r) (leg_MediaBlocked r) (leg_DTMFBlocked r) (leg_Silenced r) (leg_T38Enabled r) (leg_T38Gateway r).
#[export] Instance set_leg_BytesRecv : Setter leg_BytesRecv := fun f r =>
  mkCallLeg (leg_Tag r) (leg_Label r) (leg_IP r) (leg_Port r) (leg_RTCPPort r) (leg_MediaType r) (leg_Codecs r) (leg_SSRC r) (leg_Transport r) (leg_ICECredentials r) (leg_SRTPParams r) (leg_LocalIP r) (leg_LocalPort r) (leg_LocalRTCPPort r) (leg_Conn r) (leg_RTCPConn r) (leg_LastActivity r) (leg_PacketsSent r) (leg_PacketsRecv r) (leg_BytesSent r) (f (leg_BytesRecv r)) (leg_PacketsLost r) (leg_Jitter r) (leg_Interface r) (leg_AddressFamily r) (leg_Direction r) (leg_Symmetric r) (leg_StrictSource r) (leg_MediaHandover r) (leg_PortLatching r) (leg_MediaBlocked r) (leg_DTMFBlocked r) (leg_Silenced r) (leg_T38Enabled r) (leg_T38Gateway r).

Record SessionStats := mkSessionStats {
  StartTime : Z;
  ConnectTime : Z;
  EndTime : Z;
  Duration : Z;
  CallerPacketsSent : Z;
  CallerPacketsRecv : Z;
  CallerBytesent : Z;
  CallerBytesRecv : Z;
  CalleePacketsSent : Z;
  CalleePacketsRecv : Z;
  CalleeBytesent : Z;
  CalleeBytesRecv : Z;
  PacketLossRate : float64;
  AvgJitter : float64;
  MaxJitter : float64;
  RTT : float64;
  MOS : float64 }.
#[export] Instance set_ConnectTime : Setter ConnectTime := fun f r =>
  mkSessionStats (StartTime r) (f (ConnectTime r)) (EndTime r) (Duration r) (CallerPacketsSent r) (CallerPacketsRecv r) (CallerBytesent r) (CallerBytesRecv r) (CalleePacketsSent r) (CalleePacketsRecv r) (CalleeBytesent r) (CalleeBytesRecv r) (PacketLossRate r) (AvgJitter r) (MaxJitter r) (RTT r) (MOS r).
#[export] Instance set_EndTime : Setter EndTime := fun f r =>
  mkSessionStats (StartTime r) (ConnectTime r) (f (EndTime r)) (Duration r) (CallerPacketsSent r) (CallerPacketsRecv r) (CallerBytesent r) (CallerBytesRecv r) (CalleePacketsSent r) (CalleePacketsRecv r) (CalleeBytesent r) (CalleeBytesRecv r) (PacketLossRate r) (AvgJitter r) (MaxJitter r) (RTT r) (MOS r).
#[export] Instance set_Duration : Setter Duration := fun f r =>
  mkSessionStats (StartTime r) (ConnectTime r) (EndTime r) (f (Duration r)) (CallerPacketsSent r) (CallerPacketsRecv r) (CallerBytesent r) (CallerBytesRecv r) (CalleePacketsSent r) (CalleePacketsRecv r) (CalleeBytesent r) (CalleeBytesRecv r) (PacketLossRate r) (AvgJitter r) (MaxJitter r) (RTT r) (MOS r).

Record SessionRecording := mkSessionRecording {
  rec_Active : bool;
  rec_RecordID : string;
  rec_StartTime : Z;
  rec_FilePath : string;
  rec_Format : string;
  rec_Mode : string }.

Record MediaSession := mkMediaSession {
  ID : string;
  CallID : string;
  FromTag : string;
  ToTag : string;
  ViaBranch : string;
  State : string;
  CallerLeg : option loc;
  CalleeLeg : option loc;
  SSRCToLeg : gmap Z loc;
  Stats : SessionStats;
  JitterBuf : option loc;
  FECHandler : option loc;
  RTCPHandler : option loc;
  Recording : option SessionRecording;
  CreatedAt : Z;
  UpdatedAt : Z;
  Flags : gmap string bool;
  Metadata : gmap string string;
  Legs : gmap string loc;
  TOS : Z;
  MediaTimeout : Z;
  DeleteDelay : Z;
  SIPREC : bool;
  SIPRECMeta : gmap string string;
  TranscodeCodecs : list string;
  AlwaysTranscode : bool;
  ICELite : bool;
  TrickleICE : bool;
  ICEForce : bool;
  ICERemove : bool;
  DTLSOff : bool;
  DTLSPassive : bool;
  DTLSActive : bool;
  SDESOff : bool;
  SDESOnly : bool;
  T38Enabled : bool;
  T38Gateway : bool;
  LoopProtect : bool }.
#[export] Instance set_ToTag : Setter ToTag := fun f r =>
  mkMediaSession (ID r) (CallID r) (FromTag r) (f (ToTag r)) (ViaBranch r) (State r) (CallerLeg r) (CalleeLeg r) (SSRCToLeg r) (Stats r) (JitterBuf r) (FECHandler r) (RTCPHandler r) (Recording r) (CreatedAt r) (UpdatedAt r) (Flags r) (Metadata r) (Legs r) (TOS r) (MediaTimeout r) (DeleteDelay r) (SIPREC r) (SIPRECMeta r) (TranscodeCodecs r) (AlwaysTranscode r) (ICELite r) (TrickleICE r) (ICEForce r) (ICERemove r) (DTLSOff r) (DTLSPassive r) (DTLSActive r) (SDESOff r) (SDESOnly r) (T38Enabled r) (T38Gateway r) (LoopProtect r).
#[export] Instance set_State : Setter State := fun f r =>
  mkMediaSession (ID r) (CallID r) (FromTag r) (ToTag r) (ViaBranch r) (f (State r)) (CallerLeg r) (CalleeLeg r) (SSRCToLeg r) (Stats r) (JitterBuf r) (FECHandler r) (RTCPHandler r) (Recording r) (CreatedAt r) (UpdatedAt r) (Flags r) (Metadata r) (Legs r) (TOS r) (MediaTimeout r) (DeleteDelay r) (SIPREC r) (SIPRECMeta r) (TranscodeCodecs r) (AlwaysTranscode r) (ICELite r) (TrickleICE r) (ICEForce r) (ICERemove r) (DTLSOff r) (DTLSPassive r) (DTLSActive r) (SDESOff r) (SDESOnly r) (T38Enabled r) (T38Gateway r) (LoopProtect r).
#[export] Instance set_CallerLeg : Setter CallerLeg := fun f r =>
  mkMediaSession (ID r) (CallID r) (FromTag r) (ToTag r) (ViaBranch r) (State r) (f (CallerLeg r)) (CalleeLeg r) (SSRCToLeg r) (Stats r) (JitterBuf r) (FECHandler r) (RTCPHandler r) (Recording r) (CreatedAt r) (UpdatedAt r) (Flags r) (Metadata r) (Legs r) (TOS r) (MediaTimeout r) (DeleteDelay r) (SIPREC r) (SIPRECMeta r) (TranscodeCodecs r) (AlwaysTranscode r) (ICELite r) (TrickleICE r) (ICEForce r) (ICERemove r) (DTLSOff r) (DTLSPassive r) (DTLSActive r) (SDESOff r) (SDESOnly r) (T38Enabled r) (T38Gateway r) (LoopProtect r).
#[export] Instance set_CalleeLeg : Setter CalleeLeg := fun f r =>
  mkMediaSession (ID r) (CallID r) (FromTag r) (ToTag r) (ViaBranch r) (State r) (CallerLeg r) (f (CalleeLeg r)) (SSRCToLeg r) (Stats r) (JitterBuf r) (FECHandler r) (RTCPHandler r) (Recording r) (CreatedAt r) (UpdatedAt r) (Flags r) (Metadata r) (Legs r) (TOS r) (MediaTimeout r) (DeleteDelay r) (SIPREC r) (SIPRECMeta r) (TranscodeCodecs r) (AlwaysTranscode r) (ICELite r) (TrickleICE r) (ICEForce r) (ICERemove r) (DTLSOff r) (DTLSPassive r) (DTLSActive r) (SDESOff r) (SDESOnly r) (T38Enabled r) (T38Gateway r) (LoopProtect r).
#[export] Instance set_SSRCToLeg : Setter SSRCToLeg := fun f r =>
  mkMediaSession (ID r) (CallID r) (FromTag r) (ToTag r) (ViaBranch r) (State r) (CallerLeg r) (CalleeLeg r) (f (SSRCToLeg r)) (Stats r) (JitterBuf r) (FECHandler r) (RTCPHandler r) (Recording r) (CreatedAt r) (UpdatedAt r) (Flags r) (Metadata r) (Legs r) (TOS r) (MediaTimeout r) (DeleteDelay r) (SIPREC r) (SIPRECMeta r) (TranscodeCodecs r) (AlwaysTranscode r) (ICELite r) (TrickleICE r) (ICEForce r) (ICERemove r) (DTLSOff r) (DTLSPassive r) (DTLSActive r) (SDESOff r) (SDESOnly r) (T38Enabled r) (T38Gateway r) (LoopProtect r).
#[export] Instance set_Stats : Setter Stats := fun f r =>
  mkMediaSession (ID r) (CallID r) (FromTag r) (ToTag r) (ViaBranch r) (State r) (CallerLeg r) (CalleeLeg r) (SSRCToLeg r) (f (Stats r)) (JitterBuf r) (FECHandler r) (RTCPHandler r) (Recording r) (CreatedAt r) (UpdatedAt r) (Flags r) (Metadata r) (Legs r) (TOS r) (MediaTimeout r) (DeleteDelay r) (SIPREC r) (SIPRECMeta r) (TranscodeCodecs r) (AlwaysTranscode r) (ICELite r) (TrickleICE r) (ICEForce r) (ICERemove r) (DTLSOff r) (DTLSPassive r) (DTLSActive r) (SDESOff r) (SDESOnly r) (T38Enabled r) (T38Gateway r) (LoopProtect r).
#[export] Instance set_UpdatedAt : Setter UpdatedAt := fun f r =>
  mkMediaSession (ID r) (CallID r) (FromTag r) (ToTag r) (ViaBranch r) (State r) (CallerLeg r) (CalleeLeg r) (SSRCToLeg r) (Stats r) (JitterBuf r) (FECHandler r) (RTCPHandler r) (Recording r) (CreatedAt r) (f (UpdatedAt r)) (Flags r) (Metadata r) (Legs r) (TOS r) (MediaTimeout r) (DeleteDelay r) (SIPREC r) (SIPRECMeta r) (TranscodeCodecs r) (AlwaysTranscode r) (ICELite r) (TrickleICE r) (ICEForce r) (ICERemove r) (DTLSOff r) (DTLSPassive r) (DTLSActive r) (SDESOff r) (SDESOnly r) (T38Enabled r) (T38Gateway r) (LoopProtect r).
#[export] Instance set_Flags : Setter Flags := fun f r =>
  mkMediaSession (ID r) (CallID r) (FromTag r) (ToTag r) (ViaBranch r) (State r) (CallerLeg r) (CalleeLeg r) (SSRCToLeg r) (Stats r) (JitterBuf r) (FECHandler r) (RTCPHandler r) (Recording r) (CreatedAt r) (UpdatedAt r) (f (Flags r)) (Metadata r) (Legs r) (TOS r) (MediaTimeout r) (DeleteDelay r) (SIPREC r) (SIPRECMeta r) (TranscodeCodecs r) (AlwaysTranscode r) (ICELite r) (TrickleICE r) (ICEForce r) (ICERemove r) (DTLSOff r) (DTLSPassive r) (DTLSActive r) (SDESOff r) (SDESOnly r) (T38Enabled r) (T38Gateway r) (LoopProtect r).
#[export] Instance set_Metadata : Setter Metadata := fun f r =>
  mkMediaSession (ID r) (CallID r) (FromTag r) (ToTag r) (ViaBranch r) (State r) (CallerLeg r) (CalleeLeg r) (SSRCToLeg r) (Stats r) (JitterBuf r) (FECHandler r) (RTCPHandler r) (Recording r) (CreatedAt r) (UpdatedAt r) (Flags r) (f (Metadata r)) (Legs r) (TOS r) (MediaTimeout r) (DeleteDelay r) (SIPREC r) (SIPRECMeta r) (TranscodeCodecs r) (AlwaysTranscode r) (ICELite r) (TrickleICE r) (ICEForce r) (ICERemove r) (DTLSOff r) (DTLSPassive r) (DTLSActive r) (SDESOff r) (SDESOnly r) (T38Enabled r) (T38Gateway r) (LoopProtect r).
#[export] Instance set_Legs : Setter Legs := fun f r =>
  mkMediaSession (ID r) (CallID r) (FromTag r) (ToTag r) (ViaBranch r) (State r) (CallerLeg r) (CalleeLeg r) (SSRCToLeg r) (Stats r) (JitterBuf r) (FECHandler r) (RTCPHandler r) (Recording r) (CreatedAt r) (UpdatedAt r) (Flags r) (Metadata r) (f (Legs r)) (TOS r) (MediaTimeout r) (DeleteDelay r) (SIPREC r) (SIPRECMeta r) (TranscodeCodecs r) (AlwaysTranscode r) (ICELite r) (TrickleICE r) (ICEForce r) (ICERemove r) (DTLSOff r) (DTLSPassive r) (DTLSActive r) (SDESOff r) (SDESOnly r) (T38Enabled r) (T38Gateway r) (LoopProtect r).
#[export] Instance set_TOS : Setter TOS := fun f r =>
  mkMediaSession (ID r) (CallID r) (FromTag r) (ToTag r) (ViaBranch r) (State r) (CallerLeg r) (CalleeLeg r) (SSRCToLeg r) (Stats r) (JitterBuf r) (FECHandler r) (RTCPHandler r) (Recording r) (CreatedAt r) (UpdatedAt r) (Flags r) (Metadata r) (Legs r) (f (TOS r)) (MediaTimeout r) (DeleteDelay r) (SIPREC r) (SIPRECMeta r) (TranscodeCodecs r) (AlwaysTranscode r) (ICELite r) (TrickleICE r) (ICEForce r) (ICERemove r) (DTLSOff r) (DTLSPassive r) (DTLSActive r) (SDESOff r) (SDESOnly r) (T38Enabled r) (T38Gateway r) (LoopProtect r).
#[export] Instance set_MediaTimeout : Setter MediaTimeout := fun f r =>
  mkMediaSession (ID r) (CallID r) (FromTag r) (ToTag r) (ViaBranch r) (State r) (CallerLeg r) (CalleeLeg r) (SSRCToLeg r) (Stats r) (JitterBuf r) (FECHandler r) (RTCPHandler r) (Recording r) (CreatedAt r) (UpdatedAt r) (Flags r) (Metadata r) (Legs r) (TOS r) (f (MediaTimeout r)) (DeleteDelay r) (SIPREC r) (SIPRECMeta r) (TranscodeCodecs r) (AlwaysTranscode r) (ICELite r) (TrickleICE r) (ICEForce r) (ICERemove r) (DTLSOff r) (DTLSPassive r) (DTLSActive r) (SDESOff r) (SDESOnly r) (T38Enabled r) (T38Gateway r) (LoopProtect r).
#[export] Instance set_DeleteDelay : Setter DeleteDelay := fun f r =>
  mkMediaSession (ID r) (CallID r) (FromTag r) (ToTag r) (ViaBranch r) (State r) (CallerLeg r) (CalleeLeg r) (SSRCToLeg r) (Stats r) (JitterBuf r) (FECHandler r) (RTCPHandler r) (Recording r) (CreatedAt r) (UpdatedAt r) (Flags r) (Metadata r) (Legs r) (TOS r) (MediaTimeout r) (f (DeleteDelay r)) (SIPREC r) (SIPRECMeta r) (TranscodeCodecs r) (AlwaysTranscode r) (ICELite r) (TrickleICE r) (ICEForce r) (ICERemove r) (DTLSOff r) (DTLSPassive r) (DTLSActive r) (SDESOff r) (SDESOnly r) (T38Enabled r) (T38Gateway r) (LoopProtect r).
#[export] Instance set_SIPREC : Setter SIPREC := fun f r =>
  mkMediaSession (ID r) (CallID r) (FromTag r) (ToTag r) (ViaBranch r) (State r) (CallerLeg r) (CalleeLeg r) (SSRCToLeg r) (Stats r) (JitterBuf r) (FECHandler r) (RTCPHandler r) (Recording r) (CreatedAt r) (UpdatedAt r) (Flags r) (Metadata r) (Legs r) (TOS r) (MediaTimeout r) (DeleteDelay r) (f (SIPREC r)) (SIPRECMeta r) (TranscodeCodecs r) (AlwaysTranscode r) (ICELite r) (TrickleICE r) (ICEForce r) (ICERemove r) (DTLSOff r) (DTLSPassive r) (DTLSActive r) (SDESOff r) (SDESOnly r) (T38Enabled r) (T38Gateway r) (LoopProtect r).
#[export] Instance set_T38Enabled : Setter T38Enabled := fun f r =>
  mkMediaSession (ID r) (CallID r) (FromTag r) (ToTag r) (ViaBranch r) (State r) (CallerLeg r) (CalleeLeg r) (SSRCToLeg r) (Stats r) (JitterBuf r) (FECHandler r) (RTCPHandler r) (Recording r) (CreatedAt r) (UpdatedAt r) (Flags r) (Metadata r) (Legs r) (TOS r) (MediaTimeout r) (DeleteDelay r) (SIPREC r) (SIPRECMeta r) (TranscodeCodecs r) (AlwaysTranscode r) (ICELite r) (TrickleICE r) (ICEForce r) (ICERemove r) (DTLSOff r) (DTLSPassive r) (DTLSActive r) (SDESOff r) (SDESOnly r) (f (T38Enabled r)) (T38Gateway r) (LoopProtect r).
#[export] Instance set_T38Gateway : Setter T38Gateway := fun f r =>
  mkMediaSession (ID r) (CallID r) (FromTag r) (ToTag r) (ViaBranch r) (State r) (CallerLeg r) (CalleeLeg r) (SSRCToLeg r) (Stats r) (JitterBuf r) (FECHandler r) (RTCPHandler r) (Recording r) (CreatedAt r) (UpdatedAt r) (Flags r) (Metadata r) (Legs r) (TOS r) (MediaTimeout r) (DeleteDelay r) (SIPREC r) (SIPRECMeta r) (TranscodeCodecs r) (AlwaysTranscode r) (ICELite r) (TrickleICE r) (ICEForce r) (ICERemove r) (DTLSOff r) (DTLSPassive r) (DTLSActive r) (SDESOff r) (SDESOnly r) (T38Enabled r) (f (T38Gateway r)) (LoopProtect r).
#[export] Instance set_ICELite : Setter ICELite := fun f r =>
  mkMediaSession (ID r) (CallID r) (FromTag r) (ToTag r) (ViaBranch r) (State r) (CallerLeg r) (CalleeLeg r) (SSRCToLeg r) (Stats r) (JitterBuf r) (FECHandler r) (RTCPHandler r) (Recording r) (CreatedAt r) (UpdatedAt r) (Flags r) (Metadata r) (Legs r) (TOS r) (MediaTimeout r) (DeleteDelay r) (SIPREC r) (SIPRECMeta r) (TranscodeCodecs r) (AlwaysTranscode r) (f (ICELite r)) (TrickleICE r) (ICEForce r) (ICERemove r) (DTLSOff r) (DTLSPassive r) (DTLSActive r) (SDESOff r) (SDESOnly r) (T38Enabled r) (T38Gateway r) (LoopProtect r).
#[export] Instance set_TrickleICE : Setter TrickleICE := fun f r =>
  mkMediaSession (ID r) (CallID r) (FromTag r) (ToTag r) (ViaBranch r) (State r) (CallerLeg r) (CalleeLeg r) (SSRCToLeg r) (Stats r) (JitterBuf r) (FECHandler r) (RTCPHandler r) (Recording r) (CreatedAt r) (UpdatedAt r) (Flags r) (Metadata r) (Legs r) (TOS r) (MediaTimeout r) (DeleteDelay r) (SIPREC r) (SIPRECMeta r) (TranscodeCodecs r) (AlwaysTranscode r) (ICELite r) (f (TrickleICE r)) (ICEForce r) (ICERemove r) (DTLSOff r) (DTLSPassive r) (DTLSActive r) (SDESOff r) (SDESOnly r) (T38Enabled r) (T38Gateway r) (LoopProtect r).
#[export] Instance set_ICEForce : Setter ICEForce := fun f r =>
  mkMediaSession (ID r) (CallID r) (FromTag r) (ToTag r) (ViaBranch r) (State r) (CallerLeg r) (CalleeLeg r) (SSRCToLeg r) (Stats r) (JitterBuf r) (FECHandler r) (RTCPHandler r) (Recording r) (CreatedAt r) (UpdatedAt r) (Flags r) (Metadata r) (Legs r) (TOS r) (MediaTimeout r) (DeleteDelay r) (SIPREC r) (SIPRECMeta r) (TranscodeCodecs r) (AlwaysTranscode r) (ICELite r) (TrickleICE r) (f (ICEForce r)) (ICERemove r) (DTLSOff r) (DTLSPassive r) (DTLSActive r) (SDESOff r) (SDESOnly r) (T38Enabled r) (T38Gateway r) (LoopProtect r).
#[export] Instance set_ICERemove : Setter ICERemove := fun f r =>
  mkMediaSession (ID r) (CallID r) (FromTag r) (ToTag r) (ViaBranch r) (State r) (CallerLeg r) (CalleeLeg r) (SSRCToLeg r) (Stats r) (JitterBuf r) (FECHandler r) (RTCPHandler r) (Recording r) (CreatedAt r) (UpdatedAt r) (Flags r) (Metadata r) (Legs r) (TOS r) (MediaTimeout r) (DeleteDelay r) (SIPREC r) (SIPRECMeta r) (TranscodeCodecs r) (AlwaysTranscode r) (ICELite r) (TrickleICE r) (ICEForce r) (f (ICERemove r)) (DTLSOff r) (DTLSPassive r) (DTLSActive r) (SDESOff r) (SDESOnly r) (T38Enabled r) (T38Gateway r) (LoopProtect r).
#[export] Instance set_DTLSOff : Setter DTLSOff := fun f r =>
  mkMediaSession (ID r) (CallID r) (FromTag r) (ToTag r) (ViaBranch r) (State r) (CallerLeg r) (CalleeLeg r) (SSRCToLeg r) (Stats r) (JitterBuf r) (FECHandler r) (RTCPHandler r) (Recording r) (CreatedAt r) (UpdatedAt r) (Flags r) (Metadata r) (Legs r) (TOS r) (MediaTimeout r) (DeleteDelay r) (SIPREC r) (SIPRECMeta r) (TranscodeCodecs r) (AlwaysTranscode r) (ICELite r) (TrickleICE r) (ICEForce r) (ICERemove r) (f (DTLSOff r)) (DTLSPassive r) (DTLSActive r) (SDESOff r) (SDESOnly r) (T38Enabled r) (T38Gateway r) (LoopProtect r).
#[export] Instance set_DTLSPassive : Setter DTLSPassive := fun f r =>
  mkMediaSession (ID r) (CallID r) (FromTag r) (ToTag r) (ViaBranch r) (State r) (CallerLeg r) (CalleeLeg r) (SSRCToLeg r) (Stats r) (JitterBuf r) (FECHandler r) (RTCPHandler r) (Recording r) (CreatedAt r) (UpdatedAt r) (Flags r) (Metadata r) (Legs r) (TOS r) (MediaTimeout r) (DeleteDelay r) (SIPREC r) (SIPRECMeta r) (TranscodeCodecs r) (AlwaysTranscode r) (ICELite r) (TrickleICE r) (ICEForce r) (ICERemove r) (DTLSOff r) (f (DTLSPassive r)) (DTLSActive r) (SDESOff r) (SDESOnly r) (T38Enabled r) (T38Gateway r) (LoopProtect r).
#[export] Instance set_DTLSActive : Setter DTLSActive := fun f r =>
  mkMediaSession (ID r) (CallID r) (FromTag r) (ToTag r) (ViaBranch r) (State r) (CallerLeg r) (CalleeLeg r) (SSRCToLeg r) (Stats r) (JitterBuf r) (FECHandler r) (RTCPHandler r) (Recording r) (CreatedAt r) (UpdatedAt r) (Flags r) (Metadata r) (Legs r) (TOS r) (MediaTimeout r) (DeleteDelay r) (SIPREC r) (SIPRECMeta r) (TranscodeCodecs r) (AlwaysTranscode r) (ICELite r) (TrickleICE r) (ICEForce r) (ICERemove r) (DTLSOff r) (DTLSPassive r) (f (DTLSActive r)) (SDESOff r) (SDESOnly r) (T38Enabled r) (T38Gateway r) (LoopProtect r).
#[export] Instance set_SDESOff : Setter SDESOff := fun f r =>
  mkMediaSession (ID r) (CallID r) (FromTag r) (ToTag r) (ViaBranch r) (State r) (CallerLeg r) (CalleeLeg r) (SSRCToLeg r) (Stats r) (JitterBuf r) (FECHandler r) (RTCPHandler r) (Recording r) (CreatedAt r) (UpdatedAt r) (Flags r) (Metadata r) (Legs r) (TOS r) (MediaTimeout r) (DeleteDelay r) (SIPREC r) (SIPRECMeta r) (TranscodeCodecs r) (AlwaysTranscode r) (ICELite r) (TrickleICE r) (ICEForce r) (ICERemove r) (DTLSOff r) (DTLSPassive r) (DTLSActive r) (f (SDESOff r)) (SDESOnly r) (T38Enabled r) (T38Gateway r) (LoopProtect r).
#[export] Instance set_SDESOnly : Setter SDESOnly := fun f r =>
  mkMediaSession (ID r) (CallID r) (FromTag r) (ToTag r) (ViaBranch r) (State r) (CallerLeg r) (CalleeLeg r) (SSRCToLeg r) (Stats r) (JitterBuf r) (FECHandler r) (RTCPHandler r) (Recording r) (CreatedAt r) (UpdatedAt r) (Flags r) (Metadata r) (Legs r) (TOS r) (MediaTimeout r) (DeleteDelay r) (SIPREC r) (SIPRECMeta r) (TranscodeCodecs r) (AlwaysTranscode r) (ICELite r) (TrickleICE r) (ICEForce r) (ICERemove r) (DTLSOff r) (DTLSPassive r) (DTLSActive r) (SDESOff r) (f (SDESOnly r)) (T38Enabled r) (T38Gateway r) (LoopProtect r).
#[export] Instance set_LoopProtect : Setter LoopProtect := fun f r =>
  mkMediaSession (ID r) (CallID r) (FromTag r) (ToTag r) (ViaBranch r) (State r) (CallerLeg r) (CalleeLeg r) (SSRCToLeg r) (Stats r) (JitterBuf r) (FECHandler r) (RTCPHandler r) (Recording r) (CreatedAt r) (UpdatedAt r) (Flags r) (Metadata r) (Legs r) (TOS r) (MediaTimeout r) (DeleteDelay r) (SIPREC r) (SIPRECMeta r) (TranscodeCodecs r) (AlwaysTranscode r) (ICELite r) (TrickleICE r) (ICEForce r) (ICERemove r) (DTLSOff r) (DTLSPassive r) (DTLSActive r) (SDESOff r) (SDESOnly r) (T38Enabled r) (T38Gateway r) (f (LoopProtect r)).
#[export] Instance set_AlwaysTranscode : Setter AlwaysTranscode := fun f r =>
  mkMediaSession (ID r) (CallID r) (FromTag r) (ToTag r) (ViaBranch r) (State r) (CallerLeg r) (CalleeLeg r) (SSRCToLeg r) (Stats r) (JitterBuf r) (FECHandler r) (RTCPHandler r) (Recording r) (CreatedAt r) (UpdatedAt r) (Flags r) (Metadata r) (Legs r) (TOS r) (MediaTimeout r) (DeleteDelay r) (SIPREC r) (SIPRECMeta r) (TranscodeCodecs r) (f (AlwaysTranscode r)) (ICELite r) (TrickleICE r) (ICEForce r) (ICERemove r) (DTLSOff r) (DTLSPassive r) (DTLSActive r) (SDESOff r) (SDESOnly r) (T38Enabled r) (T38Gateway r) (LoopProtect r).
#[export] Instance set_ViaBranch : Setter ViaBranch := fun f r =>
  mkMediaSession (ID r) (CallID r) (FromTag r) (ToTag r) (f (ViaBranch r)) (State r) (CallerLeg r) (CalleeLeg r) (SSRCToLeg r) (Stats r) (JitterBuf r) (FECHandler r) (RTCPHandler r) (Recording r) (CreatedAt r) (UpdatedAt r) (Flags r) (Metadata r) (Legs r) (TOS r) (MediaTimeout r) (DeleteDelay r) (SIPREC r) (SIPRECMeta r) (TranscodeCodecs r) (AlwaysTranscode r) (ICELite r) (TrickleICE r) (ICEForce r) (ICERemove r) (DTLSOff r) (DTLSPassive r) (DTLSActive r) (SDESOff r) (SDESOnly r) (T38Enabled r) (T38Gateway r) (LoopProtect r).
#[export] Instance set_TranscodeCodecs : Setter TranscodeCodecs := fun f r =>
  mkMediaSession (ID r) (CallID r) (FromTag r) (ToTag r) (ViaBranch r) (State r) (CallerLeg r) (CalleeLeg r) (SSRCToLeg r) (Stats r) (JitterBuf r) (FECHandler r) (RTCPHandler r) (Recording r) (CreatedAt r) (UpdatedAt r) (Flags r) (Metadata r) (Legs r) (TOS r) (MediaTimeout r) (DeleteDelay r) (SIPREC r) (SIPRECMeta r) (f (TranscodeCodecs r)) (AlwaysTranscode r) (ICELite r) (TrickleICE r) (ICEForce r) (ICERemove r) (DTLSOff r) (DTLSPassive r) (DTLSActive r) (SDESOff r) (SDESOnly r) (T38Enabled r) (T38Gateway r) (LoopProtect r).

Record SessionRegistry := mkSessionRegistry {
  sessions : gmap string loc;
  callIDIndex : gmap string (list loc);
  fromTagIndex : gmap string loc;
  ssrcIndex : gmap Z loc;
  sessionTTL : Z;
  onSessionEnd : bool;
  cleanupStopped : bool;
  mem : gmap loc MediaSession;
  legs : gmap loc CallLeg;
  next : loc;
  ended : list loc;
  closedConns : list conn }.
#[export] Instance set_sessions : Setter sessions := fun f r =>
  mkSessionRegistry (f (sessions r)) (callIDIndex r) (fromTagIndex r) (ssrcIndex r) (sessionTTL r) (onSessionEnd r) (cleanupStopped r) (mem r) (legs r) (next r) (ended r) (closedConns r).
#[export] Instance set_callIDIndex : Setter callIDIndex := fun f r =>
  mkSessionRegistry (sessions r) (f (callIDIndex r)) (fromTagIndex r) (ssrcIndex r) (sessionTTL r) (onSessionEnd r) (cleanupStopped r) (mem r) (legs r) (next r) (ended r) (closedConns r).
#[export] Instance set_fromTagIndex : Setter fromTagIndex := fun f r =>
  mkSessionRegistry (sessions r) (callIDIndex r) (f (fromTagIndex r)) (ssrcIndex r) (sessionTTL r) (onSessionEnd r) (cleanupStopped r) (mem r) (legs r) (next r) (ended r) (closedConns r).
#[export] Instance set_ssrcIndex : Setter ssrcIndex := fun f r =>
  mkSessionRegistry (sessions r) (callIDIndex r) (fromTagIndex r) (f (ssrcIndex r)) (sessionTTL r) (onSessionEnd r) (cleanupStopped r) (mem r) (legs r) (next r) (ended r) (closedConns r).
#[export] Instance set_onSessionEnd : Setter onSessionEnd := fun f r =>
  mkSessionRegistry (sessions r) (callIDIndex r) (fromTagIndex r) (ssrcIndex r) (sessionTTL r) (f (onSessionEnd r)) (cleanupStopped r) (mem r) (legs r) (next r) (ended r) (closedConns r).
#[export] Instance set_cleanupStopped : Setter cleanupStopped := fun f r =>
  mkSessionRegistry (sessions r) (callIDIndex r) (fromTagIndex r) (ssrcIndex r) (sessionTTL r) (onSessionEnd r) (f (cleanupStopped r)) (mem r) (legs r) (next r) (ended r) (closedConns r).
#[export] Instance set_mem : Setter mem := fun f r =>
  mkSessionRegistry (sessions r) (callIDIndex r) (fromTagIndex r) (ssrcIndex r) (sessionTTL r) (onSessionEnd r) (cleanupStopped r) (f (mem r)) (legs r) (next r) (ended r) (closedConns r).
#[export] Instance set_legs : Setter legs := fun f r =>
  mkSessionRegistry (sessions r) (callIDIndex r) (fromTagIndex r) (ssrcIndex r) (sessionTTL r) (onSessionEnd r) (cleanupStopped r) (mem r) (f (legs r)) (next r) (ended r) (closedConns r).
#[export] Instance set_next : Setter next := fun f r =>
  mkSessionRegistry (sessions r) (callIDIndex r) (fromTagIndex r) (ssrcIndex r) (sessionTTL r) (onSessionEnd r) (cleanupStopped r) (mem r) (legs r) (f (next r)) (ended r) (closedConns r).
#[export] Instance set_ended : Setter ended := fun f r =>
  mkSessionRegistry (sessions r) (callIDIndex r) (fromTagIndex r) (ssrcIndex r) (sessionTTL r) (onSessionEnd r) (cleanupStopped r) (mem r) (legs r) (next r) (f (ended r)) (closedConns r).
#[export] Instance set_closedConns : Setter closedConns := fun f r =>
  mkSessionRegistry (sessions r) (callIDIndex r) (fromTagIndex r) (ssrcIndex r) (sessionTTL r) (onSessionEnd r) (cleanupStopped r) (mem r) (legs r) (next r) (ended r) (f (closedConns r)).

(** The error of every operation on an unknown session, or a missing leg. *)
Inductive sr_error := ErrSessionNotFound | ErrLegNotFound | ErrNoPortPair.

(** ** Operations *)

Definition NewSessionRegistry (ttl : Z) : SessionRegistry :=
  mkSessionRegistry ∅ ∅ ∅ ∅ ttl false false ∅ ∅ 1%positive [] [].

Definition SetOnSessionEnd (sr : SessionRegistry) : SessionRegistry := sr <| onSessionEnd := true |>.

(** The object behind a pointer; every pointer the registry hands out has one. *)
Definition deref (sr : SessionRegistry) (p : loc) : option MediaSession := mem sr !! p.
Definition write (p : loc) (s : MediaSession) (sr : SessionRegistry) : SessionRegistry := sr <| mem ::= <[p := s]> |>.
Definition modify (p : loc) (f : MediaSession -> MediaSession) (sr : SessionRegistry) : SessionRegistry :=
  sr <| mem ::= alter f p |>.

Definition new_session (id callID fromTag : string) (now : Z) : MediaSession :=
  mkMediaSession id callID fromTag EmptyString EmptyString SessionStateNew None None ∅
    (mkSessionStats now 0 0 0 0 0 0 0 0 0 0 0 (of_int 0) (of_int 0) (of_int 0) (of_int 0) (of_int 0))
    None None None None now now ∅ ∅ ∅ (-1) (-1) (-1) false ∅ [] false false false false false
    false false false false false false false false.

Definition CreateSession (id : string) (now : Z) (callID fromTag : string) (sr : SessionRegistry)
    : loc * SessionRegistry :=
  let p := next sr in
  (p, {| sessions := <[id := p]> (sessions sr);
         callIDIndex := <[callID := default [] (callIDIndex sr !! callID) ++ [p]]> (callIDIndex sr);
         fromTagIndex := <[fromTag := p]> (fromTagIndex sr);
         ssrcIndex := ssrcIndex sr;
         sessionTTL := sessionTTL sr; onSessionEnd := onSessionEnd sr; cleanupStopped := cleanupStopped sr;
         mem := <[p := new_session id callID fromTag now]> (mem sr);
         legs := legs sr; next := Pos.succ p; ended := ended sr; closedConns := closedConns sr |}).

Definition GetSession (id : string) (sr : SessionRegistry) : option loc := sessions sr !! id.

Definition GetSessionByCallID (callID : string) (sr : SessionRegistry) : list loc :=
  default [] (callIDIndex sr !! callID).

Definition tags_match (fromTag toTag : string) (sr : SessionRegistry) (p : loc) : bool :=
  match deref sr p with
  | Some s => bool_decide (FromTag s = fromTag) && (bool_decide (toTag = EmptyString) || bool_decide (ToTag s = toTag))
  | None => false
  end.

Definition GetSessionByTags (callID fromTag toTag : string) (sr : SessionRegistry) : option loc :=
  head (filter (fun p => tags_match fromTag toTag sr p = true) (GetSessionByCallID callID sr)).

Definition GetSessionBySSRC (ssrc : Z) (sr : SessionRegistry) : option (loc * option loc) :=
  match ssrcIndex sr !! ssrc with
  | None => None
  | Some p => Some (p, s ← deref sr p; SSRCToLeg s !! ssrc)
  end.

Definition UpdateSessionStateTyped (now : Z) (id state : string) (sr : SessionRegistry)
    : outcome sr_error unit * SessionRegistry :=
  match sessions sr !! id with
  | None => (Err ErrSessionNotFound, sr)
  | Some p =>
      match deref sr p with
      | None => (Panic, sr)
      | Some s =>
          let oldState := State s in
          let s := s <| State := state |> <| UpdatedAt := now |> in
          let s := if bool_decide (state = SessionStateActive) && IsZero (ConnectTime (Stats s))
                   then s <| Stats ::= fun st => st <| ConnectTime := now |> |> else s in
          let s := if bool_decide (state = SessionStateTerminated) then
                     let st := (Stats s) <| EndTime := now |> in
                     s <| Stats := if IsZero (ConnectTime st) then st
                                   else st <| Duration := Time_Sub (EndTime st) (ConnectTime st) |> |>
                   else s in
          let sr := write p s sr in
          (Ok tt,
           if bool_decide (state = SessionStateTerminated) && negb (bool_decide (oldState = SessionStateTerminated))
              && onSessionEnd sr
           then sr <| ended ::= fun l => l ++ [p] |> else sr)
      end
  end.

Definition UpdateSessionState (now : Z) (id state : string) (sr : SessionRegistry)
    : outcome sr_error unit * SessionRegistry := UpdateSessionStateTyped now id state sr.

(** The SSRC of a leg is entered in the session's table and in the index. *)
Definition index_leg (p leg : loc) (ssrc : Z) (sr : SessionRegistry) : SessionRegistry :=
  if ssrc =? 0 then sr
  else modify p (fun s => s <| SSRCToLeg ::= <[ssrc := leg]> |>) sr <| ssrcIndex ::= <[ssrc := p]> |>.

(** A nil leg is a nil pointer dereference. *)
Definition SetCallerLeg (now : Z) (id : string) (leg : option loc) (sr : SessionRegistry)
    : outcome sr_error unit * SessionRegistry :=
  match sessions sr !! id with
  | None => (Err ErrSessionNotFound, sr)
  | Some p =>
      match leg ≫= (legs sr !!.), leg with
      | Some l, Some q =>
          let sr := modify p (fun s => s <| CallerLeg := Some q |>) sr in
          let sr := index_leg p q (leg_SSRC l) sr in
          (Ok tt, modify p (fun s => s <| UpdatedAt := now |>) sr)
      | _, _ => (Panic, sr)
      end
  end.

Definition SetCalleeLeg (now : Z) (id : string) (leg : option loc) (sr : SessionRegistry)
    : outcome sr_error unit * SessionRegistry :=
  match sessions sr !! id with
  | None => (Err ErrSessionNotFound, sr)
  | Some p =>
      match leg ≫= (legs sr !!.), leg with
      | Some l, Some q =>
          let sr := modify p (fun s => s <| CalleeLeg := Some q |> <| ToTag := leg_Tag l |>) sr in
          let sr := index_leg p q (leg_SSRC l) sr in
          (Ok tt, modify p (fun s => s <| UpdatedAt := now |>) sr)
      | _, _ => (Panic, sr)
      end
  end.

Definition RegisterSSRC (id : string) (ssrc : Z) (isCaller : bool) (sr : SessionRegistry)
    : outcome sr_error unit * SessionRegistry :=
  match sessions sr !! id with
  | None => (Err ErrSessionNotFound, sr)
  | Some p =>
      match deref sr p with
      | None => (Panic, sr)
      | Some s =>
          match (if isCaller then CallerLeg s else CalleeLeg s) with
          | None => (Err ErrLegNotFound, sr)
          | Some q =>
              let sr := sr <| legs ::= alter (fun l => l <| leg_SSRC := ssrc |>) q |> in
              let sr := modify p (fun s => s <| SSRCToLeg ::= <[ssrc := q]> |>) sr in
              (Ok tt, sr <| ssrcIndex ::= <[ssrc := p]> |>)
          end
      end
  end.

(** [append(sessions[:i], sessions[i+1:]...)] at the first session with the id. *)
Fixpoint remove_first (has_id : loc -> bool) (l : list loc) : list loc :=
  match l with
  | [] => []
  | p :: l => if has_id p then l else p :: remove_first has_id l
  end.

Definition leg_conns (sr : SessionRegistry) (leg : option loc) : list conn :=
  match leg ≫= (legs sr !!.) with
  | Some l => option_list (leg_Conn l) ++ option_list (leg_RTCPConn l)
  | None => []
  end.

Definition removeSessionLocked (id : string) (sr : SessionRegistry) : outcome sr_error unit * SessionRegistry :=
  match sessions sr !! id with
  | None => (Err ErrSessionNotFound, sr)
  | Some p =>
      match deref sr p with
      | None => (Panic, sr)
      | Some s =>
          let has_id q := match deref sr q with Some t => bool_decide (ID t = id) | None => false end in
          let l := remove_first has_id (default [] (callIDIndex sr !! CallID s)) in
          (Ok tt,
           {| sessions := delete id (sessions sr);
              callIDIndex := match l with
                             | [] => delete (CallID s) (callIDIndex sr)
                             | _ => <[CallID s := l]> (callIDIndex sr)
                             end;
              fromTagIndex := delete (FromTag s) (fromTagIndex sr);
              ssrcIndex := foldr delete (ssrcIndex sr) (map_to_list (SSRCToLeg s)).*1;
              sessionTTL := sessionTTL sr; onSessionEnd := onSessionEnd sr; cleanupStopped := cleanupStopped sr;
              mem := mem sr; legs := legs sr; next := next sr; ended := ended sr;
              closedConns := closedConns sr ++ leg_conns sr (CallerLeg s) ++ leg_conns sr (CalleeLeg s) |})
      end
  end.

Definition DeleteSession (id : string) (sr : SessionRegistry) : outcome sr_error unit * SessionRegistry :=
  removeSessionLocked id sr.

Definition isStale (now : Z) (sr : SessionRegistry) (p : loc) : bool :=
  match deref sr p with
  | Some s =>
      bool_decide (State s = SessionStateTerminated) ||
      (negb (bool_decide (State s = SessionStateActive)) && (sessionTTL sr <? Time_Sub now (UpdatedAt s)))
  | None => false
  end.

(** The loop over [sr.sessions]: an id deleted before its turn is skipped.
    [ids] is the order in which the runtime visits the map. *)
Definition cleanupStaleSessions (now : Z) (ids : list string) (sr : SessionRegistry) : SessionRegistry :=
  foldl (fun sr id =>
    match sessions sr !! id with
    | Some p => if isStale now sr p then (removeSessionLocked id sr).2 else sr
    | None => sr
    end) sr ids.

Definition Stop (ids : list string) (sr : SessionRegistry) : SessionRegistry :=
  foldl (fun sr id => (removeSessionLocked id sr).2) (sr <| cleanupStopped := true |>) ids.

(** Queries that walk the map, in the order [ids]. *)
Definition ListSessions (ids : list string) (sr : SessionRegistry) : list loc := omap (sessions sr !!.) ids.

Definition state_of (sr : SessionRegistry) (p : loc) : string :=
  match deref sr p with Some s => State s | None => EmptyString end.

Definition GetActiveCount (ids : list string) (sr : SessionRegistry) : Z :=
  foldl (fun count p => if bool_decide (state_of sr p = SessionStateActive) then count + 1 else count) 0
    (ListSessions ids sr).

Definition GetTotalCount (sr : SessionRegistry) : Z := Z.of_nat (size (sessions sr)).

Record RegistryStats := mkRegistryStats {
  total_sessions : Z; active_sessions : Z; pending_sessions : Z; terminated_sessions : Z }.

Definition GetStats (ids : list string) (sr : SessionRegistry) : RegistryStats :=
  foldl (fun st p =>
    let state := state_of sr p in
    if bool_decide (state = SessionStateActive) then
      mkRegistryStats (total_sessions st) (active_sessions st + 1) (pending_sessions st) (terminated_sessions st)
    else if bool_decide (state = SessionStatePending) || bool_decide (state = SessionStateNew) then
      mkRegistryStats (total_sessions st) (active_sessions st) (pending_sessions st + 1) (terminated_sessions st)
    else if bool_decide (state = SessionStateTerminated) then
      mkRegistryStats (total_sessions st) (active_sessions st) (pending_sessions st) (terminated_sessions st + 1)
    else st)
  (mkRegistryStats (Z.of_nat (size (sessions sr))) 0 0 0) (ListSessions ids sr).

(** ** Operations of one session, through its pointer *)

Definition UpdateLegStats (now : Z) (p : loc) (ssrc packetsSent packetsRecv bytesSent bytesRecv : Z)
    (sr : SessionRegistry) : SessionRegistry :=
  match (s ← deref sr p; SSRCToLeg s !! ssrc) with
  | None => sr
  | Some q =>
      sr <| legs ::= alter (fun l => l <| leg_PacketsSent := packetsSent |> <| leg_PacketsRecv := packetsRecv |>
              <| leg_BytesSent := bytesSent |> <| leg_BytesRecv := bytesRecv |> <| leg_LastActivity := now |>) q |>
  end.

Definition SetFlag (p : loc) (name : string) (value : bool) (sr : SessionRegistry) : SessionRegistry :=
  modify p (fun s => s <| Flags ::= <[name := value]> |>) sr.
Definition GetFlag (p : loc) (name : string) (sr : SessionRegistry) : bool :=
  default false (s ← deref sr p; Flags s !! name).
Definition SetMetadata (p : loc) (key value : string) (sr : SessionRegistry) : SessionRegistry :=
  modify p (fun s => s <| Metadata ::= <[key := value]> |>) sr.
Definition GetMetadata (p : loc) (key : string) (sr : SessionRegistry) : string :=
  default EmptyString (s ← deref sr p; Metadata s !! key).

Definition GetLegByLabel (p : loc) (label : string) (sr : SessionRegistry) : option loc :=
  s ← deref sr p; Legs s !! label.
Definition SetLegByLabel (p : loc) (label : string) (leg : loc) (sr : SessionRegistry) : SessionRegistry :=
  modify p (fun s => s <| Legs ::= <[label := leg]> |>)
    (sr <| legs ::= alter (fun l => l <| leg_Label := label |>) leg |>).

Definition has_tag (sr : SessionRegistry) (tag : string) (leg : loc) : bool :=
  match legs sr !! leg with Some l => bool_decide (leg_Tag l = tag) | None => false end.

(** The labelled legs are tried in the order [labels] of the map's iteration. *)
Definition GetLegByTag (p : loc) (tag : string) (labels : list string) (sr : SessionRegistry) : option loc :=
  match deref sr p with
  | None => None
  | Some s =>
      head (filter (fun q => has_tag sr tag q = true)
              (option_list (CallerLeg s) ++ option_list (CalleeLeg s) ++ omap (Legs s !!.) labels))
  end.

Definition ApplySessionFlags (p : loc) (tos mediaTimeout deleteDelay : Z)
    (siprec t38 t38Gateway iceLite trickleICE iceForce iceRemove dtlsOff dtlsPassive dtlsActive
     sdesOff sdesOnly loopProtect alwaysTranscode : bool) (sr : SessionRegistry) : SessionRegistry :=
  modify p (fun s =>
    let s := if tos >=? 0 then s <| TOS := tos |> else s in
    let s := if mediaTimeout >=? 0 then s <| MediaTimeout := mediaTimeout |> else s in
    let s := if deleteDelay >=? 0 then s <| DeleteDelay := deleteDelay |> else s in
    s <| SIPREC := siprec |> <| T38Enabled := t38 |> <| T38Gateway := t38Gateway |>
      <| ICELite := iceLite |> <| TrickleICE := trickleICE |> <| ICEForce := iceForce |>
      <| ICERemove := iceRemove |> <| DTLSOff := dtlsOff |> <| DTLSPassive := dtlsPassive |>
      <| DTLSActive := dtlsActive |> <| SDESOff := sdesOff |> <| SDESOnly := sdesOnly |>
      <| LoopProtect := loopProtect |> <| AlwaysTranscode := alwaysTranscode |>) sr.

(** Binding the pair [port], [port + 1]: [listen] says whether the operating
    system grants a UDP port. The result is the pair and the ports that were
    bound and closed again on the way. *)
Fixpoint allocate_loop (fuel : nat) (listen : Z -> bool) (port maxPort : Z) (closed : list Z)
    : outcome sr_error (Z * Z) * list Z :=
  if port <? maxPort then
    match fuel with
    | O => (OutOfFuel, closed)
    | S fuel =>
        if listen port then
          if listen (port + 1) then (Ok (port, port + 1), closed)
          else allocate_loop fuel listen (port + 2) maxPort (closed ++ [port])
        else allocate_loop fuel listen (port + 2) maxPort closed
    end
  else (Err ErrNoPortPair, closed).

Definition AllocateMediaPorts (listen : Z -> bool) (minPort maxPort : Z) : outcome sr_error (Z * Z) * list Z :=
  allocate_loop (Z.to_nat (maxPort - minPort)) listen minPort maxPort [].

(** A leg that a caller allocates. *)
Definition NewLeg (leg : CallLeg) (sr : SessionRegistry) : loc * SessionRegistry :=
  (next sr, sr <| next ::= Pos.succ |> <| legs ::= <[next sr := leg]> |>).

(** ** Specification *)

(** A session is registered under its own id. *)
Definition live (sr : SessionRegistry) (p : loc) (s : MediaSession) : Prop :=
  mem sr !! p = Some s /\ sessions sr !! ID s = Some p.

(** Every index is exact or points into the registry: the sessions of a
    Call-ID are the registered ones with that Call-ID, oldest first and each
    once; an SSRC leads to a registered session that knows it; a from-tag to a
    registered session with that tag. *)
Record reg_ok (sr : SessionRegistry) : Prop := {
  ok_sessions : forall id p, sessions sr !! id = Some p -> exists s, mem sr !! p = Some s /\ ID s = id;
  ok_sorted : forall c l, callIDIndex sr !! c = Some l -> l <> [] /\ StronglySorted Pos.lt l;
  ok_exact : forall c p, p ∈ GetSessionByCallID c sr <-> exists s, live sr p s /\ CallID s = c;
  ok_fresh : forall p s, mem sr !! p = Some s -> (p < next sr)%positive;
  ok_ssrc : forall x p, ssrcIndex sr !! x = Some p -> exists s, live sr p s /\ is_Some (SSRCToLeg s !! x);
  ok_from : forall t p, fromTagIndex sr !! t = Some p -> exists s, live sr p s /\ FromTag s = t
}.

(** One operation of the registry. A new id is one that is not in use: what
    the uuid package provides. *)
Inductive step (sr : SessionRegistry) : SessionRegistry -> Prop :=
| step_SetOnSessionEnd : step sr (SetOnSessionEnd sr)
| step_CreateSession id now c f : sessions sr !! id = None -> step sr (CreateSession id now c f sr).2
| step_UpdateSessionState now id st : step sr (UpdateSessionState now id st sr).2
| step_SetCallerLeg now id leg : step sr (SetCallerLeg now id leg sr).2
| step_SetCalleeLeg now id leg : step sr (SetCalleeLeg now id leg sr).2
| step_RegisterSSRC id ssrc caller : step sr (RegisterSSRC id ssrc caller sr).2
| step_DeleteSession id : step sr (DeleteSession id sr).2
| step_cleanup now ids : step sr (cleanupStaleSessions now ids sr)
| step_Stop ids : step sr (Stop ids sr)
| step_NewLeg leg : step sr (NewLeg leg sr).2
| step_UpdateLegStats now p x ps pr bs br : step sr (UpdateLegStats now p x ps pr bs br sr)
| step_SetFlag p n v : step sr (SetFlag p n v sr)
| step_SetMetadata p k v : step sr (SetMetadata p k v sr)
| step_SetLegByLabel p l leg : step sr (SetLegByLabel p l leg sr)
| step_ApplySessionFlags p a b c d e f g h i j k l m n o q r :
    step sr (ApplySessionFlags p a b c d e f g h i j k l m n o q r sr).

Definition reachable (ttl : Z) (sr : SessionRegistry) : Prop := rtc step (NewSessionRegistry ttl) sr.

(** ** Lemmas: the invariant *)

Ltac sr_cbn :=
  unfold set_field, set_sessions, set_callIDIndex, set_fromTagIndex, set_ssrcIndex, set_onSessionEnd,
    set_cleanupStopped, set_mem, set_legs, set_next, set_ended, set_closedConns in *;
  cbn [sessions callIDIndex fromTagIndex ssrcIndex sessionTTL onSessionEnd cleanupStopped mem legs next
       ended closedConns fst snd] in *.

(** The registry's own maps, without the objects they point to. *)
Definition tables (sr : SessionRegistry) := (sessions sr, callIDIndex sr, fromTagIndex sr, ssrcIndex sr).

(** A change of session objects that keeps what the indexes rely on. *)
Definition same_identity (s t : MediaSession) : Prop :=
  ID t = ID s /\ CallID t = CallID s /\ FromTag t = FromTag s /\
  forall x, is_Some (SSRCToLeg s !! x) -> is_Some (SSRCToLeg t !! x).

Lemma live_mono sr sr' p s :
  sessions sr' = sessions sr ->
  (forall q s, mem sr !! q = Some s -> exists t, mem sr' !! q = Some t /\ same_identity s t) ->
  live sr p s -> exists t, live sr' p t /\ same_identity s t.
Proof.
  intros Hs Hm [Hp Hid]. destruct (Hm _ _ Hp) as (t & Ht & Hsame). exists t. split; [|done].
  split; [done|]. rewrite Hs. destruct Hsame as [-> _]. done.
Qed.

Lemma reg_ok_objects sr sr' :
  tables sr' = tables sr -> (next sr <= next sr')%positive ->
  (forall p s, mem sr !! p = Some s -> exists t, mem sr' !! p = Some t /\ same_identity s t) ->
  (forall p, is_Some (mem sr' !! p) -> is_Some (mem sr !! p)) ->
  reg_ok sr -> reg_ok sr'.
Proof.
  intros Ht Hn Hm Hm' Hok. injection Ht as Hs Hc Hf Hx.
  assert (forall p s, live sr p s -> exists t, live sr' p t /\ same_identity s t) as Hl
    by (intros; by eapply live_mono).
  assert (forall p t, live sr' p t -> exists s, live sr p s /\ same_identity s t) as Hl'.
  { intros p t [Hp Hid]. destruct (Hm' p) as [s Hsp]; [by eexists|].
    destruct (Hm _ _ Hsp) as (t' & Ht' & Hsame). simplify_eq. exists s. split; [|done].
    split; [done|]. rewrite <- Hs. by destruct Hsame as [<- _]. }
  split.
  - intros id p. rewrite Hs. intros H. apply (ok_sessions _ Hok) in H as (s & Hp & <-).
    destruct (Hm _ _ Hp) as (t & Hp' & Hsame). exists t. split; [done|]. apply Hsame.
  - intros c l. rewrite Hc. apply (ok_sorted _ Hok).
  - intros c p. unfold GetSessionByCallID. rewrite Hc. fold (GetSessionByCallID c sr). rewrite (ok_exact _ Hok). split.
    + intros (s & Hlive & <-). destruct (Hl _ _ Hlive) as (t & ? & Hsame). exists t. split; [done|]. apply Hsame.
    + intros (t & Hlive & <-). destruct (Hl' _ _ Hlive) as (s & ? & Hsame). exists s. split; [done|].
      symmetry. apply Hsame.
  - intros p t Hp. destruct (Hm' p) as [s Hsp]; [by eexists|]. apply (ok_fresh _ Hok) in Hsp. lia.
  - intros x p. rewrite Hx. intros (s & Hlive & Hsx)%(ok_ssrc _ Hok).
    destruct (Hl _ _ Hlive) as (t & ? & Hsame). exists t. split; [done|]. by apply Hsame.
  - intros x p. rewrite Hf. intros (s & Hlive & <-)%(ok_from _ Hok).
    destruct (Hl _ _ Hlive) as (t & ? & Hsame). exists t. split; [done|]. apply Hsame.
Qed.

Lemma same_identity_refl s : same_identity s s.
Proof. by repeat split. Qed.

Lemma reg_ok_modify p f sr :
  (forall s, same_identity s (f s)) -> reg_ok sr -> reg_ok (modify p f sr).
Proof.
  intros Hf. apply reg_ok_objects; unfold modify; sr_cbn; [done..| |].
  - intros q s Hq. destruct (decide (p = q)) as [->|Hne].
    + exists (f s). by rewrite lookup_alter_eq, Hq.
    + exists s. rewrite lookup_alter_ne by done. split; [done|apply same_identity_refl].
  - intros q. destruct (decide (p = q)) as [->|Hne].
    + rewrite lookup_alter_eq. by intros []%fmap_is_Some.
    + by rewrite lookup_alter_ne.
Qed.

(** A change of nothing that the invariant speaks of. *)
Lemma reg_ok_frame sr sr' :
  tables sr' = tables sr -> mem sr' = mem sr -> (next sr <= next sr')%positive -> reg_ok sr -> reg_ok sr'.
Proof.
  intros Ht Hm Hn. apply reg_ok_objects; [done..| |]; rewrite Hm; [|done].
  intros p s Hp. exists s. split; [done|apply same_identity_refl].
Qed.

Lemma live_unique sr p q s t : live sr p s -> live sr q t -> ID s = ID t -> p = q /\ s = t.
Proof. intros [Hp Hs] [Hq Ht] E. rewrite E in Hs. simplify_eq. done. Qed.

Lemma reg_ok_create id now c f sr :
  sessions sr !! id = None -> reg_ok sr -> reg_ok (CreateSession id now c f sr).2.
Proof.
  intros Hid Hok. set (p := next sr). set (s0 := new_session id c f now).
  assert (mem sr !! p = None) as Hfresh.
  { destruct (mem sr !! p) eqn:E; [|done]. apply (ok_fresh _ Hok) in E. unfold p in E. lia. }
  set (sr' := (CreateSession id now c f sr).2).
  assert (live sr' p s0) as Hnew.
  { split; unfold sr', CreateSession; sr_cbn; apply lookup_insert_eq. }
  assert (forall q s, live sr q s -> live sr' q s) as Hl.
  { intros q s [Hq Hs]. assert (q <> p) by congruence. assert (ID s <> id) by congruence.
    split; unfold sr', CreateSession; sr_cbn; by rewrite lookup_insert_ne. }
  assert (forall q s, live sr' q s -> (q = p /\ s = s0) \/ live sr q s) as Hl'.
  { intros q s [Hq Hs]. unfold sr', CreateSession in Hq, Hs. sr_cbn.
    destruct (decide (q = p)) as [->|Hne]; [rewrite lookup_insert_eq in Hq; left; by simplify_eq|].
    right. rewrite lookup_insert_ne in Hq by done. split; [done|].
    destruct (decide (ID s = id)) as [E|?]; [rewrite E, lookup_insert_eq in Hs; by simplify_eq|].
    by rewrite lookup_insert_ne in Hs. }
  split.
  - intros id' q. unfold sr', CreateSession; sr_cbn. rewrite lookup_insert_Some.
    intros [[<- <-]|[? H]]; [exists s0; by rewrite lookup_insert_eq|].
    apply (ok_sessions _ Hok) in H as (s & Hq & ?). exists s.
    assert (p <> q) by congruence. by rewrite lookup_insert_ne.
  - intros c' l. unfold sr', CreateSession; sr_cbn. rewrite lookup_insert_Some.
    intros [[<- <-]|[? H]]; [|by apply (ok_sorted _ Hok) in H]. split; [by intros [_ ?]%app_eq_nil|].
    apply StronglySorted_app_2; [|destruct (callIDIndex sr !! c) eqn:E; [by apply (ok_sorted _ Hok) in E as [_ ?]|constructor]|repeat constructor].
    intros q1 q2 Hq1 ->%list_elem_of_singleton. apply (ok_exact _ Hok) in Hq1 as (s & [Hq1 _] & _).
    by apply (ok_fresh _ Hok) in Hq1.
  - intros c' q. unfold GetSessionByCallID. replace (callIDIndex sr') with
      (<[c := GetSessionByCallID c sr ++ [p]]> (callIDIndex sr)) by done.
    destruct (decide (c' = c)) as [->|Hne].
    + rewrite lookup_insert_eq. simpl. rewrite elem_of_app, list_elem_of_singleton, (ok_exact _ Hok). split.
      * intros [(s & ? & ?)| ->]; [exists s; auto|by exists s0].
      * intros (s & [[-> ->]|?]%Hl' & Hc); [by right|left; by exists s].
    + rewrite lookup_insert_ne by done. fold (GetSessionByCallID c' sr). rewrite (ok_exact _ Hok). split.
      * intros (s & ? & ?). exists s. auto.
      * intros (s & [[-> ->]|?]%Hl' & Hc); [by destruct Hne|by exists s].
  - intros q s. unfold sr', CreateSession; sr_cbn. rewrite lookup_insert_Some.
    intros [[<- <-]|[? H]]; [lia|]. apply (ok_fresh _ Hok) in H. lia.
  - intros x q H. apply (ok_ssrc _ Hok) in H as (s & ? & ?). eauto.
  - intros t q. unfold sr', CreateSession; sr_cbn. rewrite lookup_insert_Some.
    intros [[<- <-]|[? H]]; [by exists s0|]. apply (ok_from _ Hok) in H as (s & ? & ?). eauto.
Qed.

Lemma reg_ok_ssrc_insert x p s sr :
  live sr p s -> is_Some (SSRCToLeg s !! x) -> reg_ok sr -> reg_ok (sr <| ssrcIndex ::= <[x := p]> |>).
Proof.
  intros Hl Hx Hok. split; sr_cbn; try apply Hok.
  intros y q. rewrite lookup_insert_Some. intros [[<- <-]|[_ H]]; [by exists s|by apply (ok_ssrc _ Hok) in H].
Qed.

Lemma live_modify p f sr s : live sr p s -> ID (f s) = ID s -> live (modify p f sr) p (f s).
Proof.
  intros [Hp Hs] E. split; unfold modify; sr_cbn; [by rewrite lookup_alter_eq, Hp|by rewrite E].
Qed.

Lemma reg_ok_register x q p s sr :
  live sr p s -> reg_ok sr ->
  reg_ok (modify p (fun s => s <| SSRCToLeg ::= <[x := q]> |>) sr <| ssrcIndex ::= <[x := p]> |>).
Proof.
  intros Hl Hok. eapply (reg_ok_ssrc_insert _ _ (s <| SSRCToLeg ::= <[x := q]> |>)).
  - apply (live_modify p (fun s => s <| SSRCToLeg ::= <[x := q]> |>)); done.
  - unfold set_field, set_SSRCToLeg. cbn [SSRCToLeg]. rewrite lookup_insert_eq. by eexists.
  - apply reg_ok_modify; [|done]. intros t. repeat split; try done.
    intros y Hy. unfold set_field, set_SSRCToLeg. cbn [SSRCToLeg].
    destruct (decide (y = x)) as [->|?]; [rewrite lookup_insert_eq; by eexists|by rewrite lookup_insert_ne].
Qed.

Lemma filter_ne_id (p : loc) (l : list loc) : (forall q, q ∈ l -> q <> p) -> filter (fun q => q <> p) l = l.
Proof.
  induction l as [|q l IH]; intros H; [done|]. rewrite filter_cons_True by (apply H; left).
  f_equal. apply IH. intros. apply H. by right.
Qed.

Lemma StronglySorted_filter (P : loc -> Prop) `{!forall q, Decision (P q)} (l : list loc) :
  StronglySorted Pos.lt l -> StronglySorted Pos.lt (filter P l).
Proof.
  induction 1 as [|q l Hl IH Hq]; [constructor|]. rewrite filter_cons. case_decide; [|done].
  constructor; [done|]. rewrite Forall_forall in *. intros x [_ Hx]%list_elem_of_filter. auto.
Qed.

Lemma remove_first_filter (has_id : loc -> bool) p l :
  NoDup l -> (forall q, q ∈ l -> has_id q = true <-> q = p) ->
  remove_first has_id l = filter (fun q => q <> p) l.
Proof.
  induction l as [|q l IH]; simpl; [done|]. intros [Hq Hnd]%NoDup_cons H.
  destruct (has_id q) eqn:E.
  - apply H in E as ->; [|left]. rewrite filter_cons_False by naive_solver.
    symmetry. apply filter_ne_id. intros x Hx ->. done.
  - rewrite filter_cons_True; [|intros ->; apply not_true_iff_false in E; apply E, H; [left|done]].
    f_equal. apply IH; [done|]. intros x Hx. apply H. by right.
Qed.

Lemma lookup_foldr_delete {A} (l : list Z) (m : gmap Z A) x :
  foldr delete m l !! x = if bool_decide (x ∈ l) then None else m !! x.
Proof.
  induction l as [|y l IH]; simpl; [done|]. destruct (decide (x = y)) as [->|Hne].
  - rewrite lookup_delete_eq, bool_decide_eq_true_2; [done|left].
  - rewrite lookup_delete_ne, IH by done. by do 2 case_bool_decide; set_solver.
Qed.

(** What removing a registered session does to the indexes. *)
Lemma removeSessionLocked_spec id p s sr :
  reg_ok sr -> live sr p s -> ID s = id ->
  let sr' := (removeSessionLocked id sr).2 in
  (removeSessionLocked id sr).1 = Ok tt /\
  sessions sr' = delete id (sessions sr) /\ mem sr' = mem sr /\ next sr' = next sr /\
  (forall c, GetSessionByCallID c sr' = filter (fun q => q <> p) (GetSessionByCallID c sr)) /\
  (forall c l, callIDIndex sr' !! c = Some l -> l <> []) /\
  fromTagIndex sr' = delete (FromTag s) (fromTagIndex sr) /\
  (forall x, ssrcIndex sr' !! x = if bool_decide (is_Some (SSRCToLeg s !! x)) then None else ssrcIndex sr !! x).
Proof.
  intros Hok [Hp Hs] <-. unfold removeSessionLocked, deref. rewrite Hs, Hp.
  set (has_id q := match mem sr !! q with Some t => bool_decide (ID t = ID s) | None => false end).
  assert (remove_first has_id (GetSessionByCallID (CallID s) sr) =
          filter (fun q => q <> p) (GetSessionByCallID (CallID s) sr)) as Hrm.
  { apply remove_first_filter.
    - unfold GetSessionByCallID. destruct (callIDIndex sr !! CallID s) eqn:E; [|constructor].
      apply (ok_sorted _ Hok) in E as [_ E]. simpl. clear -E.
      induction E as [|x l Hl IH Hx]; constructor; [|done]. intros Hin.
      rewrite Forall_forall in Hx. apply Hx in Hin. lia.
    - intros q (t & [Hq Ht] & _)%(ok_exact _ Hok). unfold has_id. rewrite Hq, bool_decide_eq_true. split.
      + intros E. rewrite E in Ht. congruence.
      + intros ->. congruence. }
  fold (GetSessionByCallID (CallID s) sr). rewrite Hrm. cbn [fst snd sessions mem next fromTagIndex ssrcIndex callIDIndex].
  split_and!; try done.
  - intros c. unfold GetSessionByCallID at 1. cbn [callIDIndex].
    destruct (decide (c = CallID s)) as [->|Hne].
    + destruct (filter _ _) as [|x l]; [by rewrite lookup_delete_eq|by rewrite lookup_insert_eq].
    + replace (default [] _) with (GetSessionByCallID c sr)
        by (unfold GetSessionByCallID; destruct (filter _ _); by rewrite ?lookup_delete_ne, ?lookup_insert_ne by done).
      symmetry. apply filter_ne_id. intros q (t & Hlive & Ht)%(ok_exact _ Hok) ->.
      destruct Hlive as [Hq _]. congruence.
  - intros c l. destruct (filter _ _) as [|x l'] eqn:E.
    + rewrite lookup_delete_Some. intros [_ H]. by apply (ok_sorted _ Hok) in H as [? _].
    + rewrite lookup_insert_Some. intros [[_ <-]|[_ H]]; [done|]. by apply (ok_sorted _ Hok) in H as [? _].
  - intros x. rewrite lookup_foldr_delete. erewrite bool_decide_ext; [reflexivity|].
    rewrite list_elem_of_fmap. split.
    + intros ([y q] & -> & Hin%elem_of_map_to_list). by exists q.
    + intros [q Hq]. exists (x, q). split; [done|]. by apply elem_of_map_to_list.
Qed.

Lemma reg_ok_remove id sr : reg_ok sr -> reg_ok (removeSessionLocked id sr).2.
Proof.
  intros Hok. destruct (sessions sr !! id) as [p|] eqn:Hid.
  2:{ unfold removeSessionLocked. by rewrite Hid. }
  destruct (ok_sessions _ Hok _ _ Hid) as (s & Hp & Hs).
  assert (live sr p s) as Hlive by (split; [done|by rewrite Hs]).
  destruct (removeSessionLocked_spec id p s sr Hok Hlive Hs)
    as (_ & Es & Em & En & Ec & Ene & Ef & Ex).
  set (sr' := (removeSessionLocked id sr).2) in *.
  assert (forall q t, live sr' q t <-> live sr q t /\ q <> p) as Hl.
  { intros q t. unfold live. rewrite Em, Es, lookup_delete_Some. split.
    - intros (? & Hne & ?). split_and!; [done..|]. intros ->. congruence.
    - intros ((? & Hq) & ?). split_and!; [done| |done]. intros E. rewrite <- E in Hq. congruence. }
  split.
  - intros id' q. rewrite Es, Em, lookup_delete_Some. intros [_ H]. by apply (ok_sessions _ Hok).
  - intros c l Hc. split; [by eapply Ene|].
    assert (l = filter (fun q => q <> p) (GetSessionByCallID c sr)) as ->
      by (rewrite <- Ec; unfold GetSessionByCallID; by rewrite Hc).
    apply StronglySorted_filter. unfold GetSessionByCallID.
    destruct (callIDIndex sr !! c) eqn:E; [by apply (ok_sorted _ Hok) in E as [_ ?]|constructor].
  - intros c q. rewrite Ec, list_elem_of_filter, (ok_exact _ Hok). setoid_rewrite Hl. naive_solver.
  - intros q t. rewrite Em, En. apply (ok_fresh _ Hok).
  - intros x q. rewrite Ex. case_bool_decide as Hx; [done|]. intros (t & Ht & Htx)%(ok_ssrc _ Hok).
    exists t. rewrite Hl. split_and!; [done| |done]. intros ->. destruct Hlive, Ht. by simplify_eq.
  - intros t q. rewrite Ef, lookup_delete_Some. intros [Hne (u & Hu & Hut)%(ok_from _ Hok)].
    exists u. rewrite Hl. split_and!; [done| |done]. intros ->. destruct Hlive, Hu. by simplify_eq.
Qed.

Lemma reg_ok_foldl {A} (f : SessionRegistry -> A -> SessionRegistry) l sr :
  (forall sr x, reg_ok sr -> reg_ok (f sr x)) -> reg_ok sr -> reg_ok (foldl f sr l).
Proof. intros Hf. revert sr. induction l; simpl; auto. Qed.

Lemma reg_ok_session id p sr : reg_ok sr -> sessions sr !! id = Some p -> exists s, live sr p s.
Proof. intros Hok H. destruct (ok_sessions _ Hok _ _ H) as (s & Hp & <-). by exists s. Qed.

Ltac same_id := intros ?; repeat split; try done; unfold set_field; cbn; try done.

Lemma reg_ok_index_leg p q x sr s : live sr p s -> reg_ok sr -> reg_ok (index_leg p q x sr).
Proof. intros Hl Hok. unfold index_leg. case_match; [done|]. by eapply reg_ok_register. Qed.

Lemma reg_ok_set_leg (f g : MediaSession -> MediaSession) p q x sr :
  (forall s, same_identity s (f s)) -> (forall s, same_identity s (g s)) ->
  (exists s, live sr p s) -> reg_ok sr -> reg_ok (modify p g (index_leg p q x (modify p f sr))).
Proof.
  intros Hf Hg [s Hs] Hok. apply reg_ok_modify; [done|].
  eapply reg_ok_index_leg; [|by apply reg_ok_modify]. by apply live_modify; [|apply Hf].
Qed.

Lemma reg_ok_write p s t sr : mem sr !! p = Some s -> same_identity s t -> reg_ok sr -> reg_ok (write p t sr).
Proof.
  intros Hp Hst. apply reg_ok_objects; unfold write; sr_cbn; [done..| |].
  - intros q u Hq. destruct (decide (p = q)) as [->|Hne].
    + exists t. rewrite lookup_insert_eq. by simplify_eq.
    + exists u. rewrite lookup_insert_ne by done. split; [done|apply same_identity_refl].
  - intros q. destruct (decide (p = q)) as [->|Hne]; [by intros; eexists|by rewrite lookup_insert_ne].
Qed.

(** The object after a state change. *)
Definition updated (now : Z) (state : string) (s : MediaSession) : MediaSession :=
  let s := s <| State := state |> <| UpdatedAt := now |> in
  let s := if bool_decide (state = SessionStateActive) && IsZero (ConnectTime (Stats s))
           then s <| Stats ::= fun st => st <| ConnectTime := now |> |> else s in
  if bool_decide (state = SessionStateTerminated) then
    let st := (Stats s) <| EndTime := now |> in
    s <| Stats := if IsZero (ConnectTime st) then st
                  else st <| Duration := Time_Sub (EndTime st) (ConnectTime st) |> |>
  else s.

Lemma updated_fields now state s :
  same_identity s (updated now state s) /\ ToTag (updated now state s) = ToTag s /\
  State (updated now state s) = state /\ UpdatedAt (updated now state s) = now /\
  SSRCToLeg (updated now state s) = SSRCToLeg s.
Proof. unfold updated, same_identity. destruct (_ && _), (bool_decide _); done. Qed.

Lemma updated_terminated now s :
  Stats (updated now SessionStateTerminated s) =
  let st := Stats s <| EndTime := now |> in
  if IsZero (ConnectTime (Stats s)) then st
  else st <| Duration := Time_Sub now (ConnectTime (Stats s)) |>.
Proof.
  unfold updated.
  rewrite (bool_decide_eq_false_2 (SessionStateTerminated = SessionStateActive)) by done.
  by rewrite (bool_decide_eq_true_2 (SessionStateTerminated = SessionStateTerminated)) by done.
Qed.

Lemma UpdateSessionState_eq now id state sr p s : live sr p s -> ID s = id ->
  UpdateSessionState now id state sr =
  (Ok tt, let sr' := write p (updated now state s) sr in
          if bool_decide (state = SessionStateTerminated) && negb (bool_decide (State s = SessionStateTerminated))
             && onSessionEnd sr
          then sr' <| ended ::= fun l => l ++ [p] |> else sr').
Proof.
  intros [Hp Hs] <-. unfold UpdateSessionState, UpdateSessionStateTyped, deref. by rewrite Hs, Hp.
Qed.

Lemma reg_ok_update now id state sr : reg_ok sr -> reg_ok (UpdateSessionState now id state sr).2.
Proof.
  intros Hok. destruct (sessions sr !! id) as [p|] eqn:Hid.
  2:{ unfold UpdateSessionState, UpdateSessionStateTyped. by rewrite Hid. }
  destruct (ok_sessions _ Hok _ _ Hid) as (s & Hp & Hs).
  rewrite (UpdateSessionState_eq now id state sr p s) by (first [done | split; [done|by rewrite Hs]]).
  assert (reg_ok (write p (updated now state s) sr)) as Hw.
  { eapply reg_ok_write; [done| |done]. apply updated_fields. }
  cbn [snd]. case_match; [|done]. eapply reg_ok_frame; [| | |exact Hw]; done.
Qed.

Lemma reg_ok_step sr sr' : reg_ok sr -> step sr sr' -> reg_ok sr'.
Proof.
  intros Hok []; unfold SetCallerLeg, SetCalleeLeg, RegisterSSRC, DeleteSession, UpdateLegStats,
    SetFlag, SetMetadata, ApplySessionFlags.
  - by apply reg_ok_frame with sr.
  - by apply reg_ok_create.
  - by apply reg_ok_update.
  - destruct (sessions sr !! id) eqn:E; [|done]. repeat case_match; try done.
    apply reg_ok_set_leg; [same_id..|by eapply reg_ok_session|done].
  - destruct (sessions sr !! id) eqn:E; [|done]. repeat case_match; try done.
    apply reg_ok_set_leg; [same_id..|by eapply reg_ok_session|done].
  - destruct (sessions sr !! id) eqn:E; [|done]. destruct (reg_ok_session _ _ _ Hok E) as [s Hs].
    repeat case_match; try done; cbn [snd]; (eapply reg_ok_register; [exact Hs|]);
      by eapply reg_ok_frame; [..|exact Hok].
  - by apply reg_ok_remove.
  - apply reg_ok_foldl; [|done]. intros. repeat case_match; try done. by apply reg_ok_remove.
  - apply reg_ok_foldl; [intros; by apply reg_ok_remove|]. by apply reg_ok_frame with sr.
  - apply reg_ok_frame with sr; try done. cbn. lia.
  - case_match; [|done]. by apply reg_ok_frame with sr.
  - apply reg_ok_modify; [same_id|done].
  - apply reg_ok_modify; [same_id|done].
  - apply reg_ok_modify; [same_id|]. by apply reg_ok_frame with sr.
  - apply reg_ok_modify; [|done]. intros s. unfold same_identity. repeat case_match; done.
Qed.

Lemma reg_ok_new ttl : reg_ok (NewSessionRegistry ttl).
Proof.
  split; cbn; try (intros *; by rewrite lookup_empty).
  intros c p. unfold GetSessionByCallID. cbn. rewrite lookup_empty. cbn. split; [by intros ?%elem_of_nil|].
  intros (s & [Hp _] & _). cbn in Hp. by rewrite lookup_empty in Hp.
Qed.

Lemma reachable_ok ttl sr : reachable ttl sr -> reg_ok sr.
Proof.
  intros H. pattern sr. eapply (rtc_ind_r (fun sr => reg_ok sr)); [apply reg_ok_new| |exact H].
  intros. by eapply reg_ok_step.
Qed.

(** ** Guarantees *)

(** C16: the registry's indexes are exact in every reachable state. The
    sessions found by Call-ID are the registered sessions with that Call-ID,
    each once and oldest first; a session found by id has that id; a session
    found by SSRC is registered and the leg returned with it exists. *)
Theorem registry_indexes_exact ttl sr :
  reachable ttl sr ->
  (forall c, StronglySorted Pos.lt (GetSessionByCallID c sr) /\
     forall p, p ∈ GetSessionByCallID c sr <-> exists s, live sr p s /\ CallID s = c) /\
  (forall id p, GetSession id sr = Some p -> exists s, live sr p s /\ ID s = id) /\
  (forall x p leg, GetSessionBySSRC x sr = Some (p, leg) -> exists s, live sr p s /\ SSRCToLeg s !! x = leg /\ is_Some leg) /\
  (forall c f t p, GetSessionByTags c f t sr = Some p ->
     exists s, live sr p s /\ CallID s = c /\ FromTag s = f /\ (t = EmptyString \/ ToTag s = t)).
Proof.
  intros Hok%reachable_ok. split_and!.
  - intros c. split; [|apply (ok_exact _ Hok)]. unfold GetSessionByCallID.
    destruct (callIDIndex sr !! c) eqn:E; [by apply (ok_sorted _ Hok) in E as [_ ?]|constructor].
  - intros id p H. destruct (ok_sessions _ Hok _ _ H) as (s & Hp & <-). by exists s.
  - intros x p leg. unfold GetSessionBySSRC. destruct (ssrcIndex sr !! x) eqn:E; [|done].
    intros; simplify_eq. apply (ok_ssrc _ Hok) in E as (s & Hs & Hx). exists s.
    unfold deref. destruct Hs as [Hp ?]. rewrite Hp. by simpl.
  - intros c f t p [Hm Hin]%head_Some_elem_of%list_elem_of_filter.
    apply (ok_exact _ Hok) in Hin as (s & [Hp Hs] & <-). exists s. unfold tags_match, deref in Hm.
    rewrite Hp in Hm. bool_prop; split_and!; auto; by split.
Qed.

Lemma remove_keeps_objects id sr : mem (removeSessionLocked id sr).2 = mem sr.
Proof. unfold removeSessionLocked. by repeat case_match. Qed.
Lemma remove_keeps_ttl id sr : sessionTTL (removeSessionLocked id sr).2 = sessionTTL sr.
Proof. unfold removeSessionLocked. by repeat case_match. Qed.
Lemma remove_keeps_ended id sr : ended (removeSessionLocked id sr).2 = ended sr.
Proof. unfold removeSessionLocked. by repeat case_match. Qed.
Lemma remove_sessions id sr : reg_ok sr -> sessions (removeSessionLocked id sr).2 = delete id (sessions sr).
Proof.
  intros Hok. destruct (sessions sr !! id) as [p|] eqn:E.
  - destruct (ok_sessions _ Hok _ _ E) as (s & Hp & <-).
    by apply (removeSessionLocked_spec (ID s) p s sr Hok).
  - unfold removeSessionLocked. rewrite E. by rewrite delete_id.
Qed.

Lemma cleanup_lookup now ids sr id : reg_ok sr ->
  let sr' := cleanupStaleSessions now ids sr in
  sessions sr' !! id =
    match sessions sr !! id with
    | Some p => if bool_decide (id ∈ ids) && isStale now sr p then None else Some p
    | None => None
    end /\
  mem sr' = mem sr /\ ended sr' = ended sr.
Proof.
  revert sr. induction ids as [|i ids IH]; intros sr Hok; cbn [cleanupStaleSessions foldl].
  { by destruct (sessions sr !! id). }
  set (sr1 := match sessions sr !! i with
              | Some p => if isStale now sr p then (removeSessionLocked i sr).2 else sr
              | None => sr end).
  assert (reg_ok sr1) as Hok1 by (unfold sr1; repeat case_match; try done; by apply reg_ok_remove).
  assert (mem sr1 = mem sr /\ sessionTTL sr1 = sessionTTL sr /\ ended sr1 = ended sr) as (Hm & Httl & He).
  { unfold sr1. repeat case_match; try done.
    by rewrite remove_keeps_objects, remove_keeps_ttl, remove_keeps_ended. }
  destruct (IH sr1 Hok1) as (IH1 & IH2 & IH3). unfold cleanupStaleSessions in *.
  rewrite IH1, IH2, IH3. split_and!; [|done..].
  assert (forall p, isStale now sr1 p = isStale now sr p) as Hst
    by (intros p; unfold isStale, deref; by rewrite Hm, Httl).
  destruct (decide (id = i)) as [->|Hne].
  - rewrite (bool_decide_eq_true_2 (i ∈ i :: ids)) by left. simpl.
    destruct (sessions sr !! i) as [p|] eqn:E; [destruct (isStale now sr p) eqn:Ep|].
    + unfold sr1. by rewrite remove_sessions, lookup_delete_eq by done.
    + unfold sr1. by rewrite E, Ep, andb_false_r.
    + unfold sr1. by rewrite E.
  - replace (bool_decide (id ∈ i :: ids)) with (bool_decide (id ∈ ids))
      by (apply bool_decide_ext; set_solver).
    assert (sessions sr1 !! id = sessions sr !! id) as ->.
    { unfold sr1. destruct (sessions sr !! i) as [q|]; [destruct (isStale now sr q)|]; try done.
      rewrite remove_sessions by done. by rewrite lookup_delete_ne. }
    destruct (sessions sr !! id); [|done]. by rewrite Hst.
Qed.

(** The cleanup removes exactly the stale sessions. Whatever order the
    runtime visits the map in, a session stays registered exactly when it is
    not terminated and either active or no older than the time to live; and
    the end of a removed session is not reported to the callback. *)
Theorem cleanup_exact ttl now ids sr :
  reachable ttl sr -> (forall id, is_Some (sessions sr !! id) -> id ∈ ids) ->
  let sr' := cleanupStaleSessions now ids sr in
  (forall p s, live sr' p s <-> live sr p s /\ State s <> SessionStateTerminated /\
     (State s = SessionStateActive \/ Time_Sub now (UpdatedAt s) <= sessionTTL sr)) /\
  ended sr' = ended sr.
Proof.
  intros Hok%reachable_ok Hids sr'. split; [|by apply (cleanup_lookup now ids sr EmptyString Hok)].
  intros p s. destruct (cleanup_lookup now ids sr (ID s) Hok) as (Hl & Hm & _). fold sr' in Hl, Hm.
  unfold live. rewrite Hl, Hm. split.
  - intros [Hp H]. destruct (sessions sr !! ID s) as [q|] eqn:E; [|done]. simpl in H.
    rewrite bool_decide_eq_true_2 in H by (apply Hids; by eexists). simpl in H.
    destruct (isStale now sr q) eqn:Eq; [done|]. simplify_eq. split_and!; [done..| |].
    all: unfold isStale, deref in Eq; rewrite Hp in Eq; bool_prop; auto.
  - intros ((Hp & Hs) & Hne & Hage). split; [done|]. rewrite Hs. simpl.
    assert (isStale now sr p = false) as ->; [|by rewrite andb_false_r].
    unfold isStale, deref. rewrite Hp. rewrite bool_decide_eq_false_2 by done. simpl.
    destruct Hage as [->|Hage]; [by rewrite bool_decide_eq_true_2|].
    apply andb_false_intro2. apply Z.ltb_ge. done.
Qed.

(** Deleting a session silences another one that shares an SSRC with it.
    When two registered sessions know the same SSRC, deleting one of them
    removes the SSRC from the index, and the other session, still registered
    and still holding a leg for that SSRC, is no longer found by it. *)
Theorem delete_steals_ssrc sr p q s t x :
  reg_ok sr -> live sr p s -> live sr q t -> p <> q ->
  is_Some (SSRCToLeg s !! x) -> is_Some (SSRCToLeg t !! x) ->
  let sr' := (DeleteSession (ID s) sr).2 in
  GetSessionBySSRC x sr' = None /\ live sr' q t /\ reg_ok sr'.
Proof.
  intros Hok Hp Hq Hne Hsx Htx sr'.
  destruct (removeSessionLocked_spec (ID s) p s sr Hok Hp eq_refl) as (_ & Es & Em & _ & _ & _ & _ & Ex).
  split_and!; [| |by apply reg_ok_remove].
  - unfold GetSessionBySSRC, sr', DeleteSession. rewrite Ex. by rewrite bool_decide_eq_true_2.
  - destruct Hp, Hq. split; unfold sr', DeleteSession; [by rewrite Em|].
    rewrite Es, lookup_delete_ne; [done|]. congruence.
Qed.

(** What ending a session does. Setting the terminated state records the
    end time and, for a session that was connected, the duration; the callback
    is started exactly when the session was not terminated already, so a
    second termination reports nothing. *)
Theorem terminate_reports_once now now' id p s sr :
  reg_ok sr -> live sr p s -> ID s = id -> onSessionEnd sr = true ->
  let sr1 := (UpdateSessionState now id SessionStateTerminated sr).2 in
  let sr2 := (UpdateSessionState now' id SessionStateTerminated sr1).2 in
  ended sr1 = ended sr ++ (if decide (State s = SessionStateTerminated) then [] else [p]) /\
  ended sr2 = ended sr1 /\
  exists t, live sr1 p t /\ State t = SessionStateTerminated /\ EndTime (Stats t) = now /\
    (ConnectTime (Stats s) <> 0 -> Duration (Stats t) = Time_Sub now (ConnectTime (Stats s))).
Proof.
  intros Hok Hl Hid Hcb sr1 sr2.
  pose proof (UpdateSessionState_eq now id SessionStateTerminated sr p s Hl Hid) as E1.
  set (t := updated now SessionStateTerminated s) in *.
  destruct (updated_fields now SessionStateTerminated s) as ((HidT & _) & _ & HstT & _). fold t in HidT, HstT.
  assert (sr1 = if decide (State s = SessionStateTerminated) then write p t sr
                else write p t sr <| ended ::= fun l => l ++ [p] |>) as Hsr1.
  { unfold sr1. rewrite E1. cbn [snd].
    rewrite Hcb, (bool_decide_eq_true_2 (SessionStateTerminated = SessionStateTerminated)) by done.
    destruct (decide (State s = SessionStateTerminated)); [by rewrite bool_decide_eq_true_2|by rewrite bool_decide_eq_false_2]. }
  assert (live sr1 p t) as Hl1.
  { destruct Hl as [Hp Hs]. rewrite Hsr1. split; case_decide; unfold write; sr_cbn;
      rewrite ?lookup_insert_eq, ?HidT; done. }
  assert (ended sr1 = ended sr ++ (if decide (State s = SessionStateTerminated) then [] else [p])) as He.
  { rewrite Hsr1. case_decide; unfold write; sr_cbn; [by rewrite app_nil_r|done]. }
  split_and!; [exact He| |].
  - unfold sr2. rewrite (UpdateSessionState_eq now' id SessionStateTerminated sr1 p t Hl1) by congruence.
    cbn [snd]. rewrite HstT. by rewrite (bool_decide_eq_true_2 (SessionStateTerminated = SessionStateTerminated)).
  - exists t. pose proof (updated_terminated now s) as Hst. fold t in Hst.
    split_and!; [done..| |]; rewrite Hst; cbv zeta; [by destruct (IsZero _)|].
    intros Hc. unfold IsZero. by rewrite (proj2 (Z.eqb_neq _ _) Hc).
Qed.

Lemma allocate_loop_spec fuel listen port maxPort closed :
  (Z.to_nat (maxPort - port) <= fuel)%nat ->
  match allocate_loop fuel listen port maxPort closed with
  | (Ok (rtp, rtcp), _) =>
      rtcp = rtp + 1 /\ port <= rtp < maxPort /\ (rtp - port) mod 2 = 0 /\ listen rtp = true /\ listen rtcp = true /\
      forall k, 0 <= k -> port + 2 * k < rtp -> listen (port + 2 * k) && listen (port + 2 * k + 1) = false
  | (Err e, _) => e = ErrNoPortPair /\
      forall k, 0 <= k -> port + 2 * k < maxPort -> listen (port + 2 * k) && listen (port + 2 * k + 1) = false
  | _ => False
  end.
Proof.
  revert port closed. induction fuel as [|fuel IH]; intros port closed Hf; cbn [allocate_loop].
  { destruct (Z.ltb_spec port maxPort); [lia|]. split; [done|]. intros. lia. }
  destruct (Z.ltb_spec port maxPort); [|split; [done|]; intros; lia].
  assert (forall closed', listen port && listen (port + 1) = false ->
    match allocate_loop fuel listen (port + 2) maxPort closed' with
    | (Ok (rtp, rtcp), _) =>
        rtcp = rtp + 1 /\ port <= rtp < maxPort /\ (rtp - port) mod 2 = 0 /\ listen rtp = true /\ listen rtcp = true /\
        forall k, 0 <= k -> port + 2 * k < rtp -> listen (port + 2 * k) && listen (port + 2 * k + 1) = false
    | (Err e, _) => e = ErrNoPortPair /\
        forall k, 0 <= k -> port + 2 * k < maxPort -> listen (port + 2 * k) && listen (port + 2 * k + 1) = false
    | _ => False
    end) as Hskip.
  { intros closed' Hno. specialize (IH (port + 2) closed' ltac:(lia)).
    assert (forall bound, (forall k, 0 <= k -> port + 2 + 2 * k < bound ->
        listen (port + 2 + 2 * k) && listen (port + 2 + 2 * k + 1) = false) ->
      forall k, 0 <= k -> port + 2 * k < bound -> listen (port + 2 * k) && listen (port + 2 * k + 1) = false) as Hk.
    { intros bound H0 k Hk0 Hkb. destruct (decide (k = 0)) as [->|?]; [by rewrite Z.add_0_r|].
      replace (port + 2 * k) with (port + 2 + 2 * (k - 1)) by lia. apply H0; lia. }
    destruct (allocate_loop _ _ _ _ _) as [[[rtp rtcp]|e| |] c]; try done.
    - destruct IH as (-> & Hr & Hm & ? & ? & IH). split_and!; try done; try lia; [|by apply Hk].
      replace (rtp - port) with (rtp - (port + 2) + 1 * 2) by lia. by rewrite Z.mod_add.
    - destruct IH as [-> IH]. split; [done|]. by apply Hk. }
  destruct (listen port) eqn:E1; [destruct (listen (port + 1)) eqn:E2|].
  - split_and!; try done; try lia. by rewrite Z.sub_diag.
  - by apply Hskip.
  - by apply Hskip.
Qed.

(** The pair search terminates and finds the first free pair: the result
    is an RTP port at an even distance from the start of the range with the
    RTCP port right after it, both granted by the operating system, and no
    earlier pair was free; the search fails only when no pair is free. *)
Theorem AllocateMediaPorts_correct listen minPort maxPort :
  match AllocateMediaPorts listen minPort maxPort with
  | (Ok (rtp, rtcp), _) =>
      rtcp = rtp + 1 /\ minPort <= rtp < maxPort /\ (rtp - minPort) mod 2 = 0 /\ listen rtp = true /\ listen rtcp = true /\
      forall k, 0 <= k -> minPort + 2 * k < rtp -> listen (minPort + 2 * k) && listen (minPort + 2 * k + 1) = false
  | (Err e, _) => e = ErrNoPortPair /\
      forall k, 0 <= k -> minPort + 2 * k < maxPort -> listen (minPort + 2 * k) && listen (minPort + 2 * k + 1) = false
  | _ => False
  end.
Proof. apply allocate_loop_spec. lia. Qed.

(** ** Witnesses *)

Definition sample_leg : CallLeg :=
  mkCallLeg "f" "" "" 0 0 "audio" [] 7 "RTP/AVP" None None "" 0 0 None None 0 0 0 0 0 0 (of_int 0) "" "" ""
    false false false false false false false false false.

(** Two calls, each with a caller leg of SSRC 7. *)
Definition sample1 : SessionRegistry := (CreateSession "a" 1 "c1" "f1" (NewSessionRegistry 60)).2.
Definition sample2 : SessionRegistry := (CreateSession "b" 2 "c1" "f2" sample1).2.
Definition sample3 : SessionRegistry := (NewLeg sample_leg sample2).2.
Definition sample4 : SessionRegistry := (SetCallerLeg 3 "a" (Some 3%positive) sample3).2.
Definition sample5 : SessionRegistry := (NewLeg sample_leg sample4).2.
Definition sample6 : SessionRegistry := (SetCallerLeg 4 "b" (Some 4%positive) sample5).2.
Definition sample7 : SessionRegistry := SetOnSessionEnd sample6.

Lemma sample_reachable : reachable 60 sample7.
Proof.
  unfold reachable.
  apply (rtc_r _ sample6); [|exact (step_SetOnSessionEnd sample6)].
  apply (rtc_r _ sample5); [|exact (step_SetCallerLeg sample5 4 "b" (Some 4%positive))].
  apply (rtc_r _ sample4); [|exact (step_NewLeg sample4 sample_leg)].
  apply (rtc_r _ sample3); [|exact (step_SetCallerLeg sample3 3 "a" (Some 3%positive))].
  apply (rtc_r _ sample2); [|exact (step_NewLeg sample2 sample_leg)].
  apply (rtc_r _ sample1).
  - apply (rtc_r _ (NewSessionRegistry 60)); [apply rtc_refl|].
    apply (step_CreateSession (NewSessionRegistry 60) "a" 1 "c1" "f1"). reflexivity.
  - apply (step_CreateSession sample1 "b" 2 "c1" "f2"). vm_compute. reflexivity.
Qed.

Definition sample_session (p : loc) : MediaSession := default (new_session "" "" "" 0) (mem sample7 !! p).

Lemma sample_live p : p = 1%positive \/ p = 2%positive -> live sample7 p (sample_session p).
Proof. intros [->| ->]; split; vm_compute; reflexivity. Qed.

Lemma registry_indexes_exact_witness :
  GetSessionByCallID "c1" sample7 = [1; 2]%positive /\ StronglySorted Pos.lt (GetSessionByCallID "c1" sample7).
Proof.
  split; [vm_compute; reflexivity|]. apply (registry_indexes_exact 60 sample7 sample_reachable).
Defined.

Lemma cleanup_exact_witness :
  ended (cleanupStaleSessions 100 ["b"; "a"] sample7) = [].
Proof.
  destruct (cleanup_exact 60 100 ["b"; "a"] sample7 sample_reachable) as [_ H].
  - intros id Hid. destruct (decide (id = "a")) as [->|Ha]; [right; left|].
    destruct (decide (id = "b")) as [->|Hb]; [left|]. exfalso.
    change (sessions sample7) with (<["b" := 2%positive]> (<["a" := 1%positive]> (∅ : gmap string loc))) in Hid.
    rewrite !lookup_insert_ne, lookup_empty in Hid by done. by destruct Hid.
  - exact H.
Defined.

Lemma delete_steals_ssrc_witness :
  GetSessionBySSRC 7 (DeleteSession "a" sample7).2 = None.
Proof.
  apply (delete_steals_ssrc sample7 1 2 (sample_session 1) (sample_session 2) 7).
  - apply (reachable_ok 60), sample_reachable.
  - apply sample_live. by left.
  - apply sample_live. by right.
  - done.
  - vm_compute. by eexists.
  - vm_compute. by eexists.
Defined.

Lemma terminate_reports_once_witness :
  ended (UpdateSessionState 9 "a" SessionStateTerminated sample7).2 = [1%positive].
Proof.
  apply (terminate_reports_once 9 10 "a" 1 (sample_session 1) sample7).
  - apply (reachable_ok 60), sample_reachable.
  - apply sample_live. by left.
  - vm_compute. reflexivity.
  - vm_compute. reflexivity.
Defined.
