(* ===== verification/Sdp.v ===== *)
(** * The session descriptions of the NG listener

    Models the SDP functions of src/internal/ng_socket_listener.go: the string
    helpers, the parser of an offered description and the builder of the
    description that Karl sends back, with its own port and, when a flag says so,
    its own address. *)

From Stdlib Require Import ZArith Lia Ascii String.
From stdpp Require Import base numbers list strings.
From S2P Require Import Prelude Bencode Flags.

Local Open Scope Z_scope.
Local Open Scope go_scope.
#[local] Set Warnings "-clear-no-such-hyp,-register-all".

(** ** String helpers *)

Definition CR : ascii := ascii_of_N 13.
Definition LF : ascii := ascii_of_N 10.
Definition TAB : ascii := ascii_of_N 9.

(** A line without its carriage return, when it is not empty then. *)
Definition trim_line (line : bytes) : list bytes :=
  let line := if bool_decide (last line = Some CR) then removelast line else line in
  match line with [] => [] | _ => [line] end.

(** [line] is [sdp[start:i]], what was read since the last line feed. *)
Fixpoint split_lines (line sdp : bytes) : list bytes :=
  match sdp with
  | [] => trim_line line
  | c :: sdp =>
      if bool_decide (c = LF) then trim_line line ++ split_lines [] sdp
      else split_lines (line ++ [c]) sdp
  end.
Definition splitSDPLines (sdp : bytes) : list bytes := split_lines [] sdp.

Definition is_blank (c : ascii) : bool := bool_decide (c = " "%char) || bool_decide (c = TAB).

(** [field] is the field being read, empty outside of one. *)
Fixpoint split_fields (field s : bytes) : list bytes :=
  match s with
  | [] => match field with [] => [] | _ => [field] end
  | c :: s =>
      if is_blank c then match field with [] => split_fields [] s | _ => field :: split_fields [] s end
      else split_fields (field ++ [c]) s
  end.
Definition splitFields (s : bytes) : list bytes := split_fields [] s.

(** Every caller passes a separator of one character. *)
Fixpoint split_by (part s : bytes) (sep : ascii) : list bytes :=
  match s with
  | [] => [part]
  | c :: s => if bool_decide (c = sep) then part :: split_by [] s sep else split_by (part ++ [c]) s sep
  end.
Definition splitBy (s : bytes) (sep : ascii) : list bytes := split_by [] s sep.

Definition hasPrefix (s prefix : bytes) : bool :=
  (length prefix <=? length s)%nat && bool_decide (take (length prefix) s = prefix).

(** Stops at the first character that is not a digit; the sum wraps. *)
Fixpoint parse_int (result : Z) (s : bytes) : Z :=
  match s with
  | [] => result
  | c :: s =>
      match digit_val c with
      | Some d => parse_int (i64 (i64 (result * 10) + d)) s
      | None => result
      end
  end.
Definition parseInt (s : bytes) : Z := parse_int 0 s.

(** The digits from the last to the first; an [int] has at most 19. *)
Fixpoint int_digits (fuel : nat) (n : Z) : bytes :=
  match fuel with
  | O => []
  | S fuel => if n >? 0 then digit (n mod 10) :: int_digits fuel (n / 10) else []
  end.
Definition intToString (n : Z) : bytes :=
  if n =? 0 then bs "0" else rev (int_digits 20 n).

Fixpoint containsFlag (flags : list bytes) (flag : bytes) : bool :=
  match flags with
  | [] => false
  | f :: flags => if bool_decide (f = flag) then true else containsFlag flags flag
  end.

(** ** Parsing *)

Record sdpCodecInfo := mkCodec {
  PayloadType : Z; Name : bytes; ClockRate : Z; Channels : Z; Fmtp : bytes }.

Record parsedSDPInfo := mkSDP {
  MediaType : bytes;
  MediaPort : Z;
  Protocol : bytes;
  ConnectionIP : bytes;
  HasICE : bool;
  ICEUfrag : bytes;
  ICEPwd : bytes;
  HasDTLS : bool;
  Fingerprint : bytes;
  Setup : bytes;
  HasSRTP : bool;
  CryptoSuite : bytes;
  CryptoKey : bytes;
  RTCPMux : bool;
  Direction : bytes;
  Codecs : list sdpCodecInfo }.
#[export] Instance set_MediaType : Setter MediaType := fun f r =>
  mkSDP (f (MediaType r)) (MediaPort r) (Protocol r) (ConnectionIP r) (HasICE r) (ICEUfrag r) (ICEPwd r) (HasDTLS r) (Fingerprint r) (Setup r) (HasSRTP r) (CryptoSuite r) (CryptoKey r) (RTCPMux r) (Direction r) (Codecs r).
#[export] Instance set_MediaPort : Setter MediaPort := fun f r =>
  mkSDP (MediaType r) (f (MediaPort r)) (Protocol r) (ConnectionIP r) (HasICE r) (ICEUfrag r) (ICEPwd r) (HasDTLS r) (Fingerprint r) (Setup r) (HasSRTP r) (CryptoSuite r) (CryptoKey r) (RTCPMux r) (Direction r) (Codecs r).
#[export] Instance set_Protocol : Setter Protocol := fun f r =>
  mkSDP (MediaType r) (MediaPort r) (f (Protocol r)) (ConnectionIP r) (HasICE r) (ICEUfrag r) (ICEPwd r) (HasDTLS r) (Fingerprint r) (Setup r) (HasSRTP r) (CryptoSuite r) (CryptoKey r) (RTCPMux r) (Direction r) (Codecs r).
#[export] Instance set_ConnectionIP : Setter ConnectionIP := fun f r =>
  mkSDP (MediaType r) (MediaPort r) (Protocol r) (f (ConnectionIP r)) (HasICE r) (ICEUfrag r) (ICEPwd r) (HasDTLS r) (Fingerprint r) (Setup r) (HasSRTP r) (CryptoSuite r) (CryptoKey r) (RTCPMux r) (Direction r) (Codecs r).
#[export] Instance set_HasICE : Setter HasICE := fun f r =>
  mkSDP (MediaType r) (MediaPort r) (Protocol r) (ConnectionIP r) (f (HasICE r)) (ICEUfrag r) (ICEPwd r) (HasDTLS r) (Fingerprint r) (Setup r) (HasSRTP r) (CryptoSuite r) (CryptoKey r) (RTCPMux r) (Direction r) (Codecs r).
#[export] Instance set_ICEUfrag : Setter ICEUfrag := fun f r =>
  mkSDP (MediaType r) (MediaPort r) (Protocol r) (ConnectionIP r) (HasICE r) (f (ICEUfrag r)) (ICEPwd r) (HasDTLS r) (Fingerprint r) (Setup r) (HasSRTP r) (CryptoSuite r) (CryptoKey r) (RTCPMux r) (Direction r) (Codecs r).
#[export] Instance set_ICEPwd : Setter ICEPwd := fun f r =>
  mkSDP (MediaType r) (MediaPort r) (Protocol r) (ConnectionIP r) (HasICE r) (ICEUfrag r) (f (ICEPwd r)) (HasDTLS r) (Fingerprint r) (Setup r) (HasSRTP r) (CryptoSuite r) (CryptoKey r) (RTCPMux r) (Direction r) (Codecs r).
#[export] Instance set_HasDTLS : Setter HasDTLS := fun f r =>
  mkSDP (MediaType r) (MediaPort r) (Protocol r) (ConnectionIP r) (HasICE r) (ICEUfrag r) (ICEPwd r) (f (HasDTLS r)) (Fingerprint r) (Setup r) (HasSRTP r) (CryptoSuite r) (CryptoKey r) (RTCPMux r) (Direction r) (Codecs r).
#[export] Instance set_Fingerprint : Setter Fingerprint := fun f r =>
  mkSDP (MediaType r) (MediaPort r) (Protocol r) (ConnectionIP r) (HasICE r) (ICEUfrag r) (ICEPwd r) (HasDTLS r) (f (Fingerprint r)) (Setup r) (HasSRTP r) (CryptoSuite r) (CryptoKey r) (RTCPMux r) (Direction r) (Codecs r).
#[export] Instance set_Setup : Setter Setup := fun f r =>
  mkSDP (MediaType r) (MediaPort r) (Protocol r) (ConnectionIP r) (HasICE r) (ICEUfrag r) (ICEPwd r) (HasDTLS r) (Fingerprint r) (f (Setup r)) (HasSRTP r) (CryptoSuite r) (CryptoKey r) (RTCPMux r) (Direction r) (Codecs r).
#[export] Instance set_HasSRTP : Setter HasSRTP := fun f r =>
  mkSDP (MediaType r) (MediaPort r) (Protocol r) (ConnectionIP r) (HasICE r) (ICEUfrag r) (ICEPwd r) (HasDTLS r) (Fingerprint r) (Setup r) (f (HasSRTP r)) (CryptoSuite r) (CryptoKey r) (RTCPMux r) (Direction r) (Codecs r).
#[export] Instance set_CryptoSuite : Setter CryptoSuite := fun f r =>
  mkSDP (MediaType r) (MediaPort r) (Protocol r) (ConnectionIP r) (HasICE r) (ICEUfrag r) (ICEPwd r) (HasDTLS r) (Fingerprint r) (Setup r) (HasSRTP r) (f (CryptoSuite r)) (CryptoKey r) (RTCPMux r) (Direction r) (Codecs r).
#[export] Instance set_CryptoKey : Setter CryptoKey := fun f r =>
  mkSDP (MediaType r) (MediaPort r) (Protocol r) (ConnectionIP r) (HasICE r) (ICEUfrag r) (ICEPwd r) (HasDTLS r) (Fingerprint r) (Setup r) (HasSRTP r) (CryptoSuite r) (f (CryptoKey r)) (RTCPMux r) (Direction r) (Codecs r).
#[export] Instance set_RTCPMux : Setter RTCPMux := fun f r =>
  mkSDP (MediaType r) (MediaPort r) (Protocol r) (ConnectionIP r) (HasICE r) (ICEUfrag r) (ICEPwd r) (HasDTLS r) (Fingerprint r) (Setup r) (HasSRTP r) (CryptoSuite r) (CryptoKey r) (f (RTCPMux r)) (Direction r) (Codecs r).
#[export] Instance set_Direction : Setter Direction := fun f r =>
  mkSDP (MediaType r) (MediaPort r) (Protocol r) (ConnectionIP r) (HasICE r) (ICEUfrag r) (ICEPwd r) (HasDTLS r) (Fingerprint r) (Setup r) (HasSRTP r) (CryptoSuite r) (CryptoKey r) (RTCPMux r) (f (Direction r)) (Codecs r).
#[export] Instance set_Codecs : Setter Codecs := fun f r =>
  mkSDP (MediaType r) (MediaPort r) (Protocol r) (ConnectionIP r) (HasICE r) (ICEUfrag r) (ICEPwd r) (HasDTLS r) (Fingerprint r) (Setup r) (HasSRTP r) (CryptoSuite r) (CryptoKey r) (RTCPMux r) (Direction r) (f (Codecs r)).
#[export] Instance set_Fmtp : Setter Fmtp := fun f r =>
  mkCodec (PayloadType r) (Name r) (ClockRate r) (Channels r) (f (Fmtp r)).

(** [Codecs[i].Fmtp = fmtp; break] at the first codec with the payload type. *)
Fixpoint set_fmtp (pt : Z) (fmtp : bytes) (codecs : list sdpCodecInfo) : list sdpCodecInfo :=
  match codecs with
  | [] => []
  | c :: codecs =>
      if PayloadType c =? pt then c <| Fmtp := fmtp |> :: codecs else c :: set_fmtp pt fmtp codecs
  end.

Definition parse_rtpmap (attrValue : bytes) (parsed : parsedSDPInfo) : parsedSDPInfo :=
  match splitFields attrValue with
  | p0 :: p1 :: _ =>
      let pt := parseInt p0 in
      match splitBy p1 "/" with
      | name :: clock :: rest =>
          let codec := mkCodec (u8 pt) name (u32 (parseInt clock))
                         (match rest with ch :: _ => parseInt ch | [] => 1 end) [] in
          parsed <| Codecs ::= fun l => l ++ [codec] |>
      | _ => parsed
      end
  | _ => parsed
  end.

Definition parse_fmtp (attrValue : bytes) (parsed : parsedSDPInfo) : parsedSDPInfo :=
  match splitFields attrValue with
  | p0 :: _ :: _ =>
      parsed <| Codecs ::= set_fmtp (parseInt p0) (drop (length p0 + 1) attrValue) |>
  | _ => parsed
  end.

Definition parse_crypto (attrValue : bytes) (parsed : parsedSDPInfo) : parsedSDPInfo :=
  let parsed := parsed <| HasSRTP := true |> in
  match splitFields attrValue with
  | _ :: suite :: key :: _ =>
      let parsed := parsed <| CryptoSuite := suite |> in
      if hasPrefix key (bs "inline:") then parsed <| CryptoKey := drop 7 key |> else parsed
  | _ => parsed
  end.

Definition parse_attribute (attrName attrValue : bytes) (parsed : parsedSDPInfo) : parsedSDPInfo :=
  switch attrName [
    (["rtpmap"], parse_rtpmap attrValue parsed);
    (["fmtp"], parse_fmtp attrValue parsed);
    (["ice-ufrag"], parsed <| HasICE := true |> <| ICEUfrag := attrValue |>);
    (["ice-pwd"], parsed <| HasICE := true |> <| ICEPwd := attrValue |>);
    (["fingerprint"], parsed <| HasDTLS := true |> <| Fingerprint := attrValue |>);
    (["setup"], parsed <| Setup := attrValue |>);
    (["crypto"], parse_crypto attrValue parsed);
    (["rtcp-mux"], parsed <| RTCPMux := true |>);
    (["sendrecv"; "sendonly"; "recvonly"; "inactive"], parsed <| Direction := attrName |>)]%string parsed.

Definition parseSDPAttribute (value : bytes) (parsed : parsedSDPInfo) : parsedSDPInfo :=
  let colonIdx := indexOf value (bs ":") in
  let '(attrName, attrValue) :=
    if colonIdx =? -1 then (value, []) else (take (Z.to_nat colonIdx) value, drop (Z.to_nat (colonIdx + 1)) value) in
  parse_attribute attrName attrValue parsed.

(** One line of the description; the payload types are collected apart. *)
Definition parse_line (st : parsedSDPInfo * list Z) (line : bytes) : parsedSDPInfo * list Z :=
  let '(parsed, payloadTypes) := st in
  match line with
  | lineType :: eq :: value =>
      if bool_decide (eq = "="%char) then
        if bool_decide (lineType = "c"%char) then
          match splitFields value with
          | _ :: _ :: ip :: _ =>
              let idx := indexOf ip (bs "/") in
              (parsed <| ConnectionIP := if idx =? -1 then ip else take (Z.to_nat idx) ip |>, payloadTypes)
          | _ => st
          end
        else if bool_decide (lineType = "m"%char) then
          match splitFields value with
          | media :: port :: proto :: pt :: pts =>
              (parsed <| MediaType := media |> <| MediaPort := parseInt port |> <| Protocol := proto |>,
               payloadTypes ++ filter (fun n => 0 <= n) (map parseInt (pt :: pts)))
          | _ => st
          end
        else if bool_decide (lineType = "a"%char) then (parseSDPAttribute value parsed, payloadTypes)
        else st
      else st
  | _ => st
  end.

Definition staticCodec (pt : Z) : option sdpCodecInfo :=
  if pt =? 0 then Some (mkCodec 0 (bs "PCMU") 8000 1 [])
  else if pt =? 8 then Some (mkCodec 8 (bs "PCMA") 8000 1 [])
  else if pt =? 9 then Some (mkCodec 9 (bs "G722") 8000 1 [])
  else if pt =? 18 then Some (mkCodec 18 (bs "G729") 8000 1 [])
  else None.

(** [existing] is filled before the loop and not updated in it. *)
Definition fillStaticCodecs (parsed : parsedSDPInfo) (payloadTypes : list Z) : parsedSDPInfo :=
  let existing := map PayloadType (Codecs parsed) in
  parsed <| Codecs ::= fun l => l ++ omap (fun pt =>
    if bool_decide (u8 pt ∈ existing) then None else staticCodec pt) payloadTypes |>.

Definition initial_sdp : parsedSDPInfo :=
  mkSDP (bs "audio") 0 (bs "RTP/AVP") [] false [] [] false [] [] false [] [] false (bs "sendrecv") [].

Definition parseSDP (sdp : bytes) : parsedSDPInfo :=
  let '(parsed, payloadTypes) := foldl parse_line (initial_sdp, []) (splitSDPLines sdp) in
  fillStaticCodecs parsed payloadTypes.

(** ** Building *)

Definition determineProtocol (parsed : parsedSDPInfo) (flags : list bytes) : bytes :=
  let explicit := filter (fun f => f ∈ [bs "RTP/AVP"; bs "RTP/AVPF"; bs "RTP/SAVP"; bs "RTP/SAVPF"]) flags in
  match explicit with
  | flag :: _ => flag
  | [] =>
      if HasDTLS parsed then bs "UDP/TLS/RTP/SAVPF"
      else if HasSRTP parsed then bs "RTP/SAVP"
      else Protocol parsed
  end.

(** [sb = append(sb, s...)] followed by [sb = append(sb, "\r\n"...)]. *)
Definition crlf (s : bytes) : bytes := s ++ [CR; LF].

Definition codec_lines (c : sdpCodecInfo) : list bytes :=
  [bs "a=rtpmap:" ++ intToString (PayloadType c) ++ bs " " ++ Name c ++ bs "/" ++ intToString (ClockRate c) ++
   (if Channels c >? 1 then bs "/" ++ intToString (Channels c) else [])] ++
  (if bool_decide (Fmtp c = []) then []
   else [bs "a=fmtp:" ++ intToString (PayloadType c) ++ bs " " ++ Fmtp c]).

(** The lines of the answer, in order. *)
Definition response_lines (parsed : parsedSDPInfo) (localIP : bytes) (rtpPort : Z) (flags : list bytes) : list bytes :=
  let removeICE := containsFlag flags (bs "ICE=remove") in
  let forceICE := containsFlag flags (bs "ICE=force") in
  let replaceOrigin := containsFlag flags (bs "replace-origin") in
  let replaceConnection := containsFlag flags (bs "replace-session-connection") in
  [bs "v=0"; bs "o=karl 1 1 IN IP4 " ++ localIP; bs "s=Karl Media Server";
   bs "c=IN IP4 " ++ (if replaceConnection || replaceOrigin then localIP
                      else if bool_decide (ConnectionIP parsed = []) then localIP else ConnectionIP parsed);
   bs "t=0 0";
   bs "m=" ++ MediaType parsed ++ bs " " ++ intToString rtpPort ++ bs " " ++ determineProtocol parsed flags ++
     concat (map (fun c => bs " " ++ intToString (PayloadType c)) (Codecs parsed))] ++
  concat (map codec_lines (Codecs parsed)) ++
  [bs "a=" ++ Direction parsed] ++
  (if RTCPMux parsed || containsFlag flags (bs "rtcp-mux-offer") then [bs "a=rtcp-mux"] else []) ++
  (if negb removeICE && (HasICE parsed || forceICE) then
     (if bool_decide (ICEUfrag parsed = []) then [] else [bs "a=ice-ufrag:" ++ ICEUfrag parsed]) ++
     (if bool_decide (ICEPwd parsed = []) then [] else [bs "a=ice-pwd:" ++ ICEPwd parsed])
   else []) ++
  (if HasDTLS parsed && negb (containsFlag flags (bs "DTLS=off")) then
     (if bool_decide (Fingerprint parsed = []) then [] else [bs "a=fingerprint:" ++ Fingerprint parsed]) ++
     (if bool_decide (Setup parsed = []) then [] else [bs "a=setup:" ++ Setup parsed])
   else []) ++
  (if HasSRTP parsed && negb (containsFlag flags (bs "SDES=off")) && negb (HasDTLS parsed) then
     [bs "a=crypto:1 " ++ CryptoSuite parsed ++ bs " inline:" ++ CryptoKey parsed]
   else []).

Definition buildResponseSDP (parsed : parsedSDPInfo) (localIP : bytes) (rtpPort : Z) (flags : list bytes) : bytes :=
  concat (map crlf (response_lines parsed localIP rtpPort flags)).

Example sdp_ex :
  let sdp := concat (map crlf (map bs ["v=0"; "c=IN IP4 10.0.0.7/127"; "m=audio 4000 RTP/AVP 0 96 8";
    "a=rtpmap:96 opus/48000/2"; "a=fmtp:96 useinbandfec=1"; "a=sendonly"; "a=ice-ufrag:xy"]))%string in
  let p := parseSDP sdp in
  (MediaPort p, ConnectionIP p, Direction p, ICEUfrag p, map PayloadType (Codecs p), map Fmtp (Codecs p))
  = (4000, bs "10.0.0.7", bs "sendonly", bs "xy", [96; 0; 8], [bs "useinbandfec=1"; []; []]).
Proof. vm_compute. reflexivity. Qed.

(** ** Specification: the texts a description is made of *)

Definition plain (s : bytes) : Prop := (CR ∉ s) /\ (LF ∉ s).
(** A field: not empty, without blanks. *)
Definition token (s : bytes) : Prop := plain s /\ s <> [] /\ Forall (fun c => is_blank c = false) s.

Definition wf_codec (c : sdpCodecInfo) : Prop :=
  0 <= PayloadType c < 256 /\ token (Name c) /\ ("/"%char ∉ Name c) /\ 0 <= ClockRate c < 2 ^ 32 /\
  1 <= Channels c < 2 ^ 63 /\ (Fmtp c = [] \/ (plain (Fmtp c) /\ splitFields (Fmtp c) <> [])).

Definition wf_sdp (parsed : parsedSDPInfo) : Prop :=
  token (MediaType parsed) /\ token (Protocol parsed) /\
  (ConnectionIP parsed = [] \/ (token (ConnectionIP parsed) /\ "/"%char ∉ ConnectionIP parsed)) /\
  Direction parsed ∈ map bs ["sendrecv"; "sendonly"; "recvonly"; "inactive"]%string /\
  plain (ICEUfrag parsed) /\ plain (ICEPwd parsed) /\ plain (Fingerprint parsed) /\ plain (Setup parsed) /\
  (HasSRTP parsed = true -> token (CryptoSuite parsed) /\ plain (CryptoKey parsed) /\
     Forall (fun c => is_blank c = false) (CryptoKey parsed)) /\
  Codecs parsed <> [] /\ NoDup (map PayloadType (Codecs parsed)) /\ Forall wf_codec (Codecs parsed).

(** What the peer reads in the answer. The address is the one the peer sent,
    unless a flag says to replace it or the peer sent none. *)
Definition answer_of (parsed : parsedSDPInfo) (localIP : bytes) (rtpPort : Z) (flags : list bytes) : parsedSDPInfo :=
  let ice := negb (containsFlag flags (bs "ICE=remove")) && (HasICE parsed || containsFlag flags (bs "ICE=force")) in
  let dtls := HasDTLS parsed && negb (containsFlag flags (bs "DTLS=off")) in
  let srtp := HasSRTP parsed && negb (containsFlag flags (bs "SDES=off")) && negb (HasDTLS parsed) in
  let when (b : bool) (s : bytes) : bytes := if b then s else [] in
  {| MediaType := MediaType parsed; MediaPort := rtpPort; Protocol := determineProtocol parsed flags;
     ConnectionIP :=
       if containsFlag flags (bs "replace-session-connection") || containsFlag flags (bs "replace-origin")
          || bool_decide (ConnectionIP parsed = [])
       then localIP else ConnectionIP parsed;
     HasICE := ice && negb (bool_decide (ICEUfrag parsed = []) && bool_decide (ICEPwd parsed = []));
     ICEUfrag := when ice (ICEUfrag parsed); ICEPwd := when ice (ICEPwd parsed);
     HasDTLS := dtls && negb (bool_decide (Fingerprint parsed = []));
     Fingerprint := when dtls (Fingerprint parsed); Setup := when dtls (Setup parsed);
     HasSRTP := srtp; CryptoSuite := when srtp (CryptoSuite parsed); CryptoKey := when srtp (CryptoKey parsed);
     RTCPMux := RTCPMux parsed || containsFlag flags (bs "rtcp-mux-offer");
     Direction := Direction parsed; Codecs := Codecs parsed |}.

(** ** Lemmas: numbers and splitting *)

Lemma rev_int_digits fuel n : 0 < n -> 0 < n < 10 ^ Z.of_nat fuel ->
  rev (int_digits fuel n) = format_digits fuel n.
Proof.
  revert n. induction fuel as [|fuel IH]; intros n Hp Hn; [lia|]. cbn [int_digits format_digits].
  destruct (Z.gtb_spec n 0); [|lia]. cbn [rev].
  rewrite Nat2Z.inj_succ, Z.pow_succ_r in Hn by lia.
  destruct (Z.ltb_spec n 10).
  - rewrite (Z.div_small n 10), (Z.mod_small n 10) by lia. by destruct fuel.
  - rewrite IH; [done| |].
    + apply Z.div_str_pos. lia.
    + split; [apply Z.div_str_pos; lia|]. apply Z.div_lt_upper_bound; lia.
Qed.

Lemma intToString_eq n : 0 <= n < 2 ^ 63 -> intToString n = FormatInt n.
Proof.
  intros Hn. unfold intToString, FormatInt. destruct (Z.eqb_spec n 0) as [->|]; [done|].
  destruct (Z.ltb_spec n 0); [lia|]. apply rev_int_digits; lia.
Qed.

Lemma parse_int_eq s v n : parse_digits v s = Some n -> parse_int (i64 v) s = i64 n.
Proof.
  revert v. induction s as [|c s IH]; intros v; simpl; [congruence|].
  destruct (digit_val c); [|done]. intros H. rewrite <- (IH _ H). f_equal.
  by rewrite wraps_mul_l, wraps_add_l by lia.
Qed.

Lemma parseInt_intToString n : 0 <= n < 2 ^ 63 -> parseInt (intToString n) = n.
Proof.
  intros Hn. rewrite intToString_eq by done. unfold parseInt.
  change 0 with (i64 0) at 1. rewrite (parse_int_eq _ 0 n) by (apply parse_digits_FormatInt; lia).
  apply wraps_id; [lia|]. unfold is_s. lia.
Qed.

Lemma digits_token n : 0 <= n < 2 ^ 63 -> token (intToString n) /\ ("/"%char ∉ intToString n).
Proof.
  intros Hn. rewrite intToString_eq by done.
  assert (forall c, is_digit c = false -> c <> "-"%char -> c ∉ FormatInt n) as H
    by (intros; by apply FormatInt_not_elem).
  split; [|by apply H]. split_and!.
  - split; by apply H.
  - destruct (FormatInt_head n) as (c & l & -> & _); [lia|done].
  - apply Forall_forall. intros c Hc. unfold is_blank.
    rewrite !bool_decide_eq_false_2; [done|..]; intros ->; by eapply H in Hc.
Qed.

(** Lines come back as they were joined. *)
Lemma trim_crlf l : l <> [] -> plain l -> trim_line (l ++ [CR]) = [l].
Proof.
  intros Hne _. unfold trim_line. rewrite last_snoc, bool_decide_eq_true_2 by done.
  rewrite removelast_last. by destruct l.
Qed.

Lemma split_lines_app line l rest : LF ∉ l ->
  split_lines line (l ++ LF :: rest) = trim_line (line ++ l) ++ split_lines [] rest.
Proof.
  revert line. induction l as [|c l IH]; intros line Hl; cbn [app split_lines].
  - by rewrite bool_decide_eq_true_2, app_nil_r by done.
  - apply not_elem_of_cons in Hl as [Hc Hl]. rewrite bool_decide_eq_false_2 by done.
    rewrite IH by done. by rewrite <- app_assoc.
Qed.

Lemma splitSDPLines_crlf ls :
  Forall (fun l => l <> [] /\ plain l) ls -> splitSDPLines (concat (map crlf ls)) = ls.
Proof.
  unfold splitSDPLines. induction 1 as [|l ls [Hne Hl] _ IH]; [done|]. cbn [map concat]. unfold crlf at 1.
  replace ((l ++ [CR; LF]) ++ concat (map crlf ls)) with ((l ++ [CR]) ++ LF :: concat (map crlf ls))
    by by rewrite <- !app_assoc.
  destruct Hl as [Hcr Hlf]. rewrite split_lines_app, IH; [cbn [app]; by rewrite trim_crlf|].
  rewrite elem_of_app, list_elem_of_singleton. intros [?|?]; [done|]. done.
Qed.

(** A field ends at a blank. *)
Lemma split_fields_token f s rest : Forall (fun c => is_blank c = false) s ->
  split_fields f (s ++ rest) = split_fields (f ++ s) rest.
Proof.
  revert f. induction s as [|c s IH]; intros f Hs; [by rewrite app_nil_r|].
  apply Forall_cons in Hs as [Hc Hs]. cbn [app split_fields]. rewrite Hc, IH by done. by rewrite <- app_assoc.
Qed.

Lemma splitFields_token s rest : token s -> splitFields (s ++ bs " " ++ rest) = s :: splitFields rest.
Proof.
  intros (_ & Hne & Hs). unfold splitFields. rewrite split_fields_token by done. cbn.
  by destruct s.
Qed.

Lemma splitFields_last s : token s -> splitFields s = [s].
Proof.
  intros (_ & Hne & Hs). unfold splitFields. rewrite <- (app_nil_r s) at 1.
  rewrite split_fields_token by done. cbn. by destruct s.
Qed.

Lemma split_by_app p s rest c : c ∉ s -> split_by p (s ++ c :: rest) c = (p ++ s) :: split_by [] rest c.
Proof.
  revert p. induction s as [|x s IH]; intros p Hs; cbn [app split_by].
  - by rewrite bool_decide_eq_true_2, app_nil_r.
  - apply not_elem_of_cons in Hs as [Hx Hs]. rewrite bool_decide_eq_false_2 by done.
    rewrite IH by done. by rewrite <- app_assoc.
Qed.
Lemma splitBy_cons s rest c : c ∉ s -> splitBy (s ++ c :: rest) c = s :: splitBy rest c.
Proof. intros. by apply split_by_app. Qed.
Lemma split_by_last p s c : c ∉ s -> split_by p s c = [p ++ s].
Proof.
  revert p. induction s as [|x s IH]; intros p Hs; cbn [split_by]; [by rewrite app_nil_r|].
  apply not_elem_of_cons in Hs as [Hx Hs]. rewrite bool_decide_eq_false_2 by done.
  rewrite IH by done. by rewrite <- app_assoc.
Qed.

Lemma indexOf_char s c : indexOf s [c] = match IndexByte s c with Some n => Z.of_nat n | None => -1 end.
Proof. unfold indexOf. rewrite indexOf_loop_eq. by destruct (IndexByte s c). Qed.

Lemma IndexByte_None s c : c ∉ s -> IndexByte s c = None.
Proof.
  induction s as [|x s IH]; [done|]. intros [Hx Hs]%not_elem_of_cons. cbn [IndexByte].
  rewrite bool_decide_eq_false_2 by done. by rewrite IH.
Qed.

(** ** Lemmas: what each line of an answer is read as *)

Lemma parse_attr name v p pts : ":"%char ∉ name ->
  parse_line (p, pts) (bs "a=" ++ name ++ ":"%char :: v) = (parse_attribute name v p, pts).
Proof.
  intros Hn. cbn [bs list_ascii_of_string app parse_line]. rewrite !bool_decide_eq_true_2 by done.
  rewrite !bool_decide_eq_false_2 by done. unfold parseSDPAttribute. cbn [bs list_ascii_of_string].
  rewrite indexOf_char, IndexByte_app by done.
  destruct (Z.eqb_spec (Z.of_nat (length name)) (-1)); [lia|].
  replace (Z.to_nat (Z.of_nat (length name) + 1)) with (length name + 1)%nat by lia.
  rewrite Nat2Z.id, take_app_length, <- drop_drop, drop_app_length. done.
Qed.

Lemma parse_bare_attr name p pts : ":"%char ∉ name ->
  parse_line (p, pts) (bs "a=" ++ name) = (parse_attribute name [] p, pts).
Proof.
  intros Hn. cbn [bs list_ascii_of_string app parse_line]. rewrite !bool_decide_eq_true_2 by done.
  rewrite !bool_decide_eq_false_2 by done. unfold parseSDPAttribute. cbn [bs list_ascii_of_string].
  by rewrite indexOf_char, IndexByte_None.
Qed.

Lemma no_colon name : bool_decide (":"%char ∉ bs name) = true -> ":"%char ∉ bs name.
Proof. apply bool_decide_eq_true_1. Qed.

Lemma plain_app s t : plain s -> plain t -> plain (s ++ t).
Proof. intros [] []. split; rewrite elem_of_app; tauto. Qed.
Lemma plain_bs s : bool_decide (CR ∉ bs s) && bool_decide (LF ∉ bs s) = true -> plain (bs s).
Proof. intros. bool_prop. by split. Qed.
Lemma token_plain s : token s -> plain s.
Proof. by intros []. Qed.

(** Text without blanks. *)
Definition solid (s : bytes) : Prop := plain s /\ Forall (fun c => is_blank c = false) s.
Lemma solid_app s t : solid s -> solid t -> solid (s ++ t).
Proof. intros [] []. split; [by apply plain_app|by apply Forall_app]. Qed.
Lemma token_solid s : token s -> solid s.
Proof. by intros (? & _ & ?). Qed.
Lemma token_app s t : token s -> solid t -> token (s ++ t).
Proof.
  intros Hs Ht. destruct (solid_app _ _ (token_solid _ Hs) Ht). split_and!; [done| |done].
  destruct Hs as (_ & Hne & _). by destruct s.
Qed.
Lemma solid_nil : solid [].
Proof. split; [split; apply not_elem_of_nil|constructor]. Qed.
Lemma solid_slash : solid (bs "/").
Proof. split; [by apply plain_bs|by repeat constructor]. Qed.

(** Encoding parameters: clock rate and, above one, the channels. *)
#[local] Opaque intToString.

Definition clock_text (c : sdpCodecInfo) : bytes :=
  intToString (ClockRate c) ++ (if Channels c >? 1 then bs "/" ++ intToString (Channels c) else []).

Lemma solid_clock_text c : wf_codec c -> solid (clock_text c).
Proof.
  intros (_ & _ & _ & Hc & Hch & _). apply solid_app; [apply token_solid, digits_token; lia|].
  destruct (Channels c >? 1); [|apply solid_nil].
  apply solid_app; [apply solid_slash|apply token_solid, digits_token; lia].
Qed.

Lemma splitBy_clock_text c : wf_codec c ->
  exists rest, splitBy (clock_text c) "/" = intToString (ClockRate c) :: rest /\
  match rest with ch :: _ => parseInt ch | [] => 1 end = Channels c.
Proof.
  intros (_ & _ & _ & Hc & Hch & _). unfold clock_text.
  destruct (digits_token (ClockRate c)) as [_ Hs]; [lia|].
  destruct (digits_token (Channels c)) as [_ Hs']; [lia|].
  destruct (Z.gtb_spec (Channels c) 1).
  - change (bs "/" ++ ?x) with ("/"%char :: x). rewrite splitBy_cons by exact Hs. eexists. split; [reflexivity|].
    unfold splitBy. rewrite split_by_last by exact Hs'. cbn [app]. apply parseInt_intToString. lia.
  - rewrite app_nil_r. exists []. unfold splitBy. rewrite split_by_last by exact Hs. split; [reflexivity|]. lia.
Qed.

Lemma parse_rtpmap_line c p pts : wf_codec c ->
  parse_line (p, pts) (bs "a=rtpmap:" ++ intToString (PayloadType c) ++ bs " " ++ Name c ++ bs "/" ++ clock_text c)
  = (p <| Codecs ::= fun l => l ++ [c <| Fmtp := [] |>] |>, pts).
Proof.
  intros Hwf. pose proof Hwf as (Hpt & Hname & Hslash & Hclock & Hch & _).
  change (bs "a=rtpmap:" ++ ?x) with (bs "a=" ++ bs "rtpmap" ++ ":"%char :: x).
  rewrite parse_attr by by apply no_colon. f_equal.
  change (parse_attribute (bs "rtpmap") ?v p) with (parse_rtpmap v p). unfold parse_rtpmap.
  rewrite splitFields_token by (apply digits_token; lia).
  rewrite splitFields_last
    by (apply token_app; [done|apply solid_app; [apply solid_slash|by apply solid_clock_text]]).
  change (bs "/" ++ ?x) with ("/"%char :: x). rewrite splitBy_cons by exact Hslash.
  destruct (splitBy_clock_text c Hwf) as (rest & -> & Hrest). rewrite Hrest, !parseInt_intToString by lia.
  rewrite !wrapu_id by (unfold is_u; lia). done.
Qed.

Lemma splitFields_nonempty_tail s f : splitFields f <> [] -> token s ->
  exists y l, splitFields (s ++ bs " " ++ f) = s :: y :: l.
Proof.
  intros Hf Hs. rewrite splitFields_token by done. destruct (splitFields f) as [|y l]; [done|]. eauto.
Qed.

Lemma set_fmtp_last pt fmtp l c :
  pt ∉ map PayloadType l -> PayloadType c = pt -> set_fmtp pt fmtp (l ++ [c]) = l ++ [c <| Fmtp := fmtp |>].
Proof.
  induction l as [|d l IH]; cbn [map app set_fmtp]; intros Hl Hc.
  - by rewrite (proj2 (Z.eqb_eq _ _) Hc).
  - apply not_elem_of_cons in Hl as [Hd Hl]. destruct (Z.eqb_spec (PayloadType d) pt); [congruence|].
    by rewrite IH.
Qed.

Lemma parse_codec_lines c p pts : wf_codec c -> PayloadType c ∉ map PayloadType (Codecs p) ->
  foldl parse_line (p, pts) (codec_lines c) = (p <| Codecs ::= fun l => l ++ [c] |>, pts).
Proof.
  intros Hwf Hnew. unfold codec_lines. fold (clock_text c).
  change (foldl parse_line (p, pts) ([?x] ++ ?y)) with (foldl parse_line (parse_line (p, pts) x) y).
  rewrite parse_rtpmap_line by done. case_bool_decide as Hf; cbn [foldl].
  { f_equal. destruct c; cbn in *. by subst. }
  destruct Hwf as (Hpt & _ & _ & _ & _ & [?|[Hpl Hne]]); [done|].
  change (bs "a=fmtp:" ++ ?x) with (bs "a=" ++ bs "fmtp" ++ ":"%char :: x).
  rewrite parse_attr by by apply no_colon. f_equal.
  change (parse_attribute (bs "fmtp") ?v ?q) with (parse_fmtp v q). unfold parse_fmtp.
  destruct (digits_token (PayloadType c)) as [Htok _]; [lia|].
  destruct (splitFields_nonempty_tail _ _ Hne Htok) as (y & l & ->).
  rewrite parseInt_intToString by lia. rewrite <- drop_drop, drop_app_length. cbn [bs list_ascii_of_string app drop].
  unfold set_field, set_Codecs. cbn. f_equal. rewrite set_fmtp_last by done. by destruct c.
Qed.

Lemma parse_all_codecs cs p pts :
  Forall wf_codec cs -> NoDup (map PayloadType (Codecs p ++ cs)) ->
  foldl parse_line (p, pts) (concat (map codec_lines cs)) = (p <| Codecs ::= fun l => l ++ cs |>, pts).
Proof.
  revert p. induction cs as [|c cs IH]; intros p Hwf Hnd; cbn [map concat].
  { cbn [foldl]. f_equal. unfold set_field, set_Codecs. rewrite app_nil_r. by destruct p. }
  apply Forall_cons in Hwf as [Hc Hwf]. rewrite foldl_app, parse_codec_lines; [|done|].
  - rewrite IH; [|done|].
    + f_equal. unfold set_field, set_Codecs. cbn. by rewrite <- app_assoc.
    + unfold set_field, set_Codecs. cbn [Codecs]. by rewrite <- app_assoc.
  - rewrite map_app in Hnd. apply NoDup_app in Hnd as (_ & Hd & _). intros Hin.
    eapply Hd; [exact Hin|]. cbn. left.
Qed.

Lemma parse_ufrag_line p pts v :
  parse_line (p, pts) (bs "a=ice-ufrag:" ++ v) = (p <| HasICE := true |> <| ICEUfrag := v |>, pts).
Proof. by apply (parse_attr (bs "ice-ufrag")), no_colon. Qed.
Lemma parse_pwd_line p pts v :
  parse_line (p, pts) (bs "a=ice-pwd:" ++ v) = (p <| HasICE := true |> <| ICEPwd := v |>, pts).
Proof. by apply (parse_attr (bs "ice-pwd")), no_colon. Qed.
Lemma parse_fingerprint_line p pts v :
  parse_line (p, pts) (bs "a=fingerprint:" ++ v) = (p <| HasDTLS := true |> <| Fingerprint := v |>, pts).
Proof. by apply (parse_attr (bs "fingerprint")), no_colon. Qed.
Lemma parse_setup_line p pts v :
  parse_line (p, pts) (bs "a=setup:" ++ v) = (p <| Setup := v |>, pts).
Proof. by apply (parse_attr (bs "setup")), no_colon. Qed.

Lemma token_bs s : bool_decide (CR ∉ bs s) && bool_decide (LF ∉ bs s) && bool_decide (bs s <> []) &&
  forallb (fun c => negb (is_blank c)) (bs s) = true -> token (bs s).
Proof.
  intros. bool_prop. split_and!; [by split|done|]. apply Forall_forall. intros c Hc.
  rewrite forallb_forall in *. apply negb_true_iff. apply H0. by apply list_elem_of_In.
Qed.

Lemma parse_crypto_line p pts suite key : token suite -> solid key ->
  parse_line (p, pts) (bs "a=crypto:1 " ++ suite ++ bs " inline:" ++ key) =
  (p <| HasSRTP := true |> <| CryptoSuite := suite |> <| CryptoKey := key |>, pts).
Proof.
  intros Hs Hk. change (bs "a=crypto:1 " ++ ?x) with (bs "a=" ++ bs "crypto" ++ ":"%char :: (bs "1" ++ bs " " ++ x)).
  rewrite parse_attr by by apply no_colon. f_equal.
  change (parse_attribute (bs "crypto") ?v p) with (parse_crypto v p). unfold parse_crypto.
  rewrite splitFields_token by by apply token_bs.
  change (bs " inline:" ++ key) with (bs " " ++ (bs "inline:" ++ key)).
  rewrite splitFields_token by done.
  rewrite splitFields_last by (apply token_app; [by apply token_bs|done]). done.
Qed.

Lemma parse_direction d p pts : d ∈ map bs ["sendrecv"; "sendonly"; "recvonly"; "inactive"]%string ->
  parse_line (p, pts) (bs "a=" ++ d) = (p <| Direction := d |>, pts).
Proof.
  intros Hd. cbn [map] in Hd. repeat (apply elem_of_cons in Hd as [->|Hd]); [..|by apply elem_of_nil in Hd].
  all: by rewrite parse_bare_attr by by apply no_colon.
Qed.

Lemma parse_connection ip p pts : token ip -> "/"%char ∉ ip ->
  parse_line (p, pts) (bs "c=IN IP4 " ++ ip) = (p <| ConnectionIP := ip |>, pts).
Proof.
  intros Ht Hs. change (parse_line (p, pts) (bs "c=IN IP4 " ++ ip)) with
    (match splitFields (bs "IN" ++ bs " " ++ bs "IP4" ++ bs " " ++ ip) with
     | _ :: _ :: ip :: _ =>
         let idx := indexOf ip (bs "/") in
         (p <| ConnectionIP := if idx =? -1 then ip else take (Z.to_nat idx) ip |>, pts)
     | _ => (p, pts)
     end).
  rewrite !splitFields_token, splitFields_last by (done || by apply token_bs).
  cbv zeta. cbn [bs list_ascii_of_string]. by rewrite indexOf_char, IndexByte_None.
Qed.

Lemma splitFields_types proto cs : token proto -> Forall wf_codec cs ->
  splitFields (proto ++ concat (map (fun c => bs " " ++ intToString (PayloadType c)) cs)) =
  proto :: map (fun c => intToString (PayloadType c)) cs.
Proof.
  intros Hp Hcs. revert proto Hp. induction Hcs as [|c cs Hc Hcs IH]; intros proto Hp; cbn [map concat].
  - rewrite app_nil_r. by apply splitFields_last.
  - rewrite <- app_assoc. rewrite splitFields_token by done. f_equal. apply IH.
    destruct Hc as [Hpt _]. apply digits_token. lia.
Qed.

Lemma parse_media media port proto cs p pts :
  token media -> 0 <= port < 2 ^ 63 -> token proto -> cs <> [] -> Forall wf_codec cs ->
  parse_line (p, pts) (bs "m=" ++ media ++ bs " " ++ intToString port ++ bs " " ++ proto ++
    concat (map (fun c => bs " " ++ intToString (PayloadType c)) cs)) =
  (p <| MediaType := media |> <| MediaPort := port |> <| Protocol := proto |>, pts ++ map PayloadType cs).
Proof.
  intros Hm Hport Hp Hne Hcs.
  change (parse_line (p, pts) (bs "m=" ++ ?v)) with
    (match splitFields v with
     | media :: port :: proto :: pt :: ptl =>
         (p <| MediaType := media |> <| MediaPort := parseInt port |> <| Protocol := proto |>,
          pts ++ filter (fun n => 0 <= n) (map parseInt (pt :: ptl)))
     | _ => (p, pts)
     end).
  rewrite !splitFields_token, splitFields_types; [|done..|apply digits_token; lia|done].
  rewrite parseInt_intToString by done.
  assert (filter (fun n => 0 <= n) (map parseInt (map (fun c => intToString (PayloadType c)) cs)) = map PayloadType cs) as E.
  { clear Hne. induction Hcs as [|c cs [Hc _] Hcs IH]; [done|]. cbn [map].
    rewrite parseInt_intToString, filter_cons_True by lia. by rewrite IH. }
  destruct cs as [|c cs]; [done|]. cbn [map] in E |- *. by rewrite E.
Qed.

Definition good_line (l : bytes) : Prop := l <> [] /\ plain l.
Lemma good_line_bs s t : bool_decide (CR ∉ bs s) && bool_decide (LF ∉ bs s) && bool_decide (bs s <> []) = true ->
  plain t -> good_line (bs s ++ t).
Proof.
  intros H Ht. bool_prop. split; [by destruct (bs s)|]. apply plain_app; [by split|done].
Qed.
Lemma good_line_lit s : bool_decide (CR ∉ bs s) && bool_decide (LF ∉ bs s) && bool_decide (bs s <> []) = true ->
  good_line (bs s).
Proof. intros. bool_prop. by split; [|split]. Qed.

Lemma plain_nil : plain [].
Proof. apply solid_nil. Qed.

Lemma plain_digits n : 0 <= n < 2 ^ 63 -> plain (intToString n).
Proof. intros. by apply token_plain, digits_token. Qed.

Lemma plain_blank : plain (bs " ").
Proof. by apply plain_bs. Qed.
Lemma plain_slash : plain (bs "/").
Proof. apply solid_slash. Qed.
Lemma plain_inline : plain (bs " inline:").
Proof. by apply plain_bs. Qed.
Create HintDb sdp discriminated.
#[local] Hint Resolve plain_app plain_blank plain_slash plain_inline plain_nil token_plain : sdp.

Lemma good_codec_lines c : wf_codec c -> Forall good_line (codec_lines c).
Proof.
  intros Hwf. pose proof Hwf as (Hpt & Hname & _ & _ & _ & Hf). unfold codec_lines. fold (clock_text c).
  assert (plain (intToString (PayloadType c))) by (apply plain_digits; lia).
  apply Forall_app. split.
  - apply Forall_singleton. apply good_line_bs; [reflexivity|].
    assert (plain (clock_text c)) by (by apply solid_clock_text).
    apply token_plain in Hname. auto 10 with sdp.
  - case_bool_decide; [constructor|]. apply Forall_singleton. apply good_line_bs; [reflexivity|].
    destruct Hf as [?|[? _]]; [done|]. auto with sdp.
Qed.

Lemma determineProtocol_token parsed flags : token (Protocol parsed) -> token (determineProtocol parsed flags).
Proof.
  intros Hp. unfold determineProtocol. destruct (filter _ flags) as [|f l] eqn:E.
  - repeat case_match; [by apply token_bs|by apply token_bs|done].
  - assert (f ∈ filter (fun f => f ∈ [bs "RTP/AVP"; bs "RTP/AVPF"; bs "RTP/SAVP"; bs "RTP/SAVPF"]) flags) as Hf
      by (rewrite E; left).
    apply list_elem_of_filter in Hf as [Hf _].
    repeat (apply elem_of_cons in Hf as [->|Hf]); [..|by apply elem_of_nil in Hf]; by apply token_bs.
Qed.

Lemma connection_of parsed localIP flags :
  wf_sdp parsed -> token localIP -> "/"%char ∉ localIP ->
  let ip := if containsFlag flags (bs "replace-session-connection") || containsFlag flags (bs "replace-origin") then localIP
            else if bool_decide (ConnectionIP parsed = []) then localIP else ConnectionIP parsed in
  token ip /\ ("/"%char ∉ ip).
Proof.
  intros (_ & _ & Hc & _) Ht Hs. repeat case_match; bool_prop; try done.
  destruct Hc as [?|[? ?]]; done.
Qed.

Ltac optional_lines H := match goal with |- Forall _ (if ?b then _ else _) => destruct b eqn:H end; [|constructor].

Ltac nonempty_line := match goal with |- Forall _ (if ?b then _ else _) => destruct b end; [constructor|].

Lemma good_response_lines parsed localIP rtpPort flags :
  wf_sdp parsed -> token localIP -> "/"%char ∉ localIP -> 0 <= rtpPort < 2 ^ 63 ->
  Forall good_line (response_lines parsed localIP rtpPort flags).
Proof.
  intros Hwf Hip Hslash Hport. destruct (connection_of parsed localIP flags Hwf Hip Hslash) as [Hconn _].
  destruct Hwf as (Hm & Hp & _ & Hd & Hu & Hpw & Hfp & Hset & Hsrtp & Hne & Hnd & Hcs).
  pose proof (determineProtocol_token parsed flags Hp) as Hproto.
  assert (plain (concat (map (fun c => bs " " ++ intToString (PayloadType c)) (Codecs parsed)))) as Hpts.
  { clear -Hcs. induction Hcs as [|c cs [Hc _] _ IH]; cbn [map concat]; [apply plain_nil|].
    repeat apply plain_app; [by apply plain_bs|apply plain_digits; lia|done]. }
  assert (plain (Direction parsed)) as Hdir.
  { cbn [map] in Hd. repeat (apply elem_of_cons in Hd as [->|Hd]); [..|by apply elem_of_nil in Hd]; by apply plain_bs. }
  unfold response_lines. cbv zeta.
  repeat (apply Forall_app; split).
  - repeat (apply Forall_cons; split); [..|by apply Forall_nil];
      try (by apply good_line_lit); (apply good_line_bs; [reflexivity|]); auto with sdp.
    assert (plain (intToString rtpPort)) by (by apply plain_digits). auto 10 with sdp.
  - clear -Hcs. induction Hcs as [|c cs Hc _ IH]; cbn [map concat]; [constructor|].
    apply Forall_app. split; [by apply good_codec_lines|done].
  - apply Forall_singleton, good_line_bs; [reflexivity|done].
  - optional_lines E. apply Forall_singleton. by apply good_line_lit.
  - optional_lines E. apply Forall_app. split; nonempty_line;
      apply Forall_singleton, good_line_bs; (reflexivity || done).
  - optional_lines E. apply Forall_app. split; nonempty_line;
      apply Forall_singleton, good_line_bs; (reflexivity || done).
  - optional_lines E. bool_prop. destruct Hsrtp as (? & ? & _); [done|].
    apply Forall_singleton, good_line_bs; [reflexivity|]. auto 10 with sdp.
Qed.

Lemma fillStaticCodecs_known p pts :
  (forall n, n ∈ pts -> u8 n ∈ map PayloadType (Codecs p)) -> fillStaticCodecs p pts = p.
Proof.
  intros H. unfold fillStaticCodecs.
  assert (omap (fun pt => if bool_decide (u8 pt ∈ map PayloadType (Codecs p)) then None else staticCodec pt) pts = []) as ->.
  { induction pts as [|n pts IH]; [done|]. cbn [omap list_omap].
    rewrite bool_decide_eq_true_2 by (apply H; left). apply IH. intros. apply H. by right. }
  unfold set_field, set_Codecs. rewrite app_nil_r. by destruct p.
Qed.

(** The optional attributes, on a description that has none of them yet. *)
Lemma parse_optional parsed flags p pts :
  let a := answer_of parsed [] 0 flags in
  (HasSRTP parsed = true -> token (CryptoSuite parsed) /\ solid (CryptoKey parsed)) ->
  foldl parse_line
    (foldl parse_line
       (foldl parse_line
          (foldl parse_line (p <| RTCPMux := false |> <| HasICE := false |> <| ICEUfrag := [] |> <| ICEPwd := [] |>
             <| HasDTLS := false |> <| Fingerprint := [] |> <| Setup := [] |> <| HasSRTP := false |>
             <| CryptoSuite := [] |> <| CryptoKey := [] |>, pts)
             (if RTCPMux parsed || containsFlag flags (bs "rtcp-mux-offer") then [bs "a=rtcp-mux"] else []))
          (if negb (containsFlag flags (bs "ICE=remove")) && (HasICE parsed || containsFlag flags (bs "ICE=force")) then
             (if bool_decide (ICEUfrag parsed = []) then [] else [bs "a=ice-ufrag:" ++ ICEUfrag parsed]) ++
             (if bool_decide (ICEPwd parsed = []) then [] else [bs "a=ice-pwd:" ++ ICEPwd parsed])
           else []))
       (if HasDTLS parsed && negb (containsFlag flags (bs "DTLS=off")) then
          (if bool_decide (Fingerprint parsed = []) then [] else [bs "a=fingerprint:" ++ Fingerprint parsed]) ++
          (if bool_decide (Setup parsed = []) then [] else [bs "a=setup:" ++ Setup parsed])
        else []))
    (if HasSRTP parsed && negb (containsFlag flags (bs "SDES=off")) && negb (HasDTLS parsed) then
       [bs "a=crypto:1 " ++ CryptoSuite parsed ++ bs " inline:" ++ CryptoKey parsed]
     else []) =
  (p <| RTCPMux := RTCPMux a |> <| HasICE := HasICE a |> <| ICEUfrag := ICEUfrag a |> <| ICEPwd := ICEPwd a |>
     <| HasDTLS := HasDTLS a |> <| Fingerprint := Fingerprint a |> <| Setup := Setup a |> <| HasSRTP := HasSRTP a |>
     <| CryptoSuite := CryptoSuite a |> <| CryptoKey := CryptoKey a |>, pts).
Proof.
  intros a Hsrtp. unfold a, answer_of. cbv zeta.
  cbn [RTCPMux HasICE ICEUfrag ICEPwd HasDTLS Fingerprint Setup HasSRTP CryptoSuite CryptoKey].
  destruct (HasSRTP parsed && negb (containsFlag flags (bs "SDES=off")) && negb (HasDTLS parsed)) eqn:E4.
  1: bool_prop; destruct Hsrtp as [Hs1 Hs2]; [done|].
  all: destruct (RTCPMux parsed || containsFlag flags (bs "rtcp-mux-offer")).
  all: destruct (negb (containsFlag flags (bs "ICE=remove")) && (HasICE parsed || containsFlag flags (bs "ICE=force"))).
  all: destruct (HasDTLS parsed && negb (containsFlag flags (bs "DTLS=off"))).
  all: repeat match goal with |- context [bool_decide (?v = [])] => destruct (bool_decide_reflect (v = [])) as [->|] end.
  all: cbn [foldl app]; rewrite ?(parse_bare_attr (bs "rtcp-mux")) by by apply no_colon.
  all: change (parse_attribute (bs "rtcp-mux") [] ?q) with (q <| RTCPMux := true |>).
  all: rewrite ?parse_ufrag_line; rewrite ?parse_pwd_line; rewrite ?parse_fingerprint_line;
    rewrite ?parse_setup_line; rewrite ?parse_crypto_line by assumption.
  all: reflexivity.
Qed.

Lemma parse_answer parsed localIP rtpPort flags :
  wf_sdp parsed -> token localIP -> "/"%char ∉ localIP -> 0 <= rtpPort < 2 ^ 63 ->
  parseSDP (buildResponseSDP parsed localIP rtpPort flags) = answer_of parsed localIP rtpPort flags.
Proof.
  intros Hwf Hip Hslash Hport. unfold parseSDP, buildResponseSDP.
  rewrite splitSDPLines_crlf by (by apply good_response_lines).
  destruct (connection_of parsed localIP flags Hwf Hip Hslash) as [Hconn Hconn'].
  destruct Hwf as (Hm & Hp & _ & Hd & _ & _ & _ & _ & Hsrtp & Hne & Hnd & Hcs).
  pose proof (determineProtocol_token parsed flags Hp) as Hproto.
  unfold response_lines. cbv zeta. rewrite !foldl_app.
  cbn [foldl]. change (parse_line (initial_sdp, []) (bs "v=0")) with (initial_sdp, [] : list Z).
  change (parse_line (initial_sdp, []) (bs "o=karl 1 1 IN IP4 " ++ localIP)) with (initial_sdp, [] : list Z).
  change (parse_line (initial_sdp, []) (bs "s=Karl Media Server")) with (initial_sdp, [] : list Z).
  rewrite parse_connection by done.
  change (parse_line (?p, []) (bs "t=0 0")) with (p, [] : list Z).
  rewrite parse_media, parse_all_codecs, parse_direction by done.
  set (p := _ <| Direction := Direction parsed |>).
  change p with (p <| RTCPMux := false |> <| HasICE := false |> <| ICEUfrag := [] |> <| ICEPwd := [] |>
             <| HasDTLS := false |> <| Fingerprint := [] |> <| Setup := [] |> <| HasSRTP := false |>
             <| CryptoSuite := [] |> <| CryptoKey := [] |>).
  rewrite parse_optional.
  2:{ intros H. destruct (Hsrtp H) as (? & ? & ?). split; [done|]. by split. }
  rewrite fillStaticCodecs_known.
  - unfold answer_of. cbv zeta. unfold p.
    destruct (containsFlag flags (bs "replace-session-connection") || containsFlag flags (bs "replace-origin"));
      reflexivity.
  - intros n Hn. cbn [app] in Hn. change (Codecs _) with (Codecs parsed).
    apply list_elem_of_fmap in Hn as (c & -> & Hc). rewrite wrapu_id; [by apply list_elem_of_fmap_2|].
    rewrite Forall_forall in Hcs. destruct (Hcs _ Hc) as [Hpt _]. unfold is_u. lia.
Qed.

(** C32: the answer is read back as it was built. For a description with clean texts,
    at least one codec and distinct payload types, and a clean local address and
    port, parsing the answer gives exactly the media type, the local port, the
    chosen protocol, the direction, the codecs with their parameters, the ICE, DTLS
    and SRTP attributes that the flags let through, and an address: the local one
    when a flag says to replace it or the description had none, and otherwise the
    peer's own, not Karl's as the comments on the builder have it
    (see [peer_address_kept]). *)
Theorem answer_roundtrip parsed localIP rtpPort flags :
  wf_sdp parsed -> token localIP -> "/"%char ∉ localIP -> 0 <= rtpPort < 2 ^ 63 ->
  parseSDP (buildResponseSDP parsed localIP rtpPort flags) = answer_of parsed localIP rtpPort flags.
Proof. apply parse_answer. Qed.

(** The answer keeps the peer's address. Without a flag to replace it, the
    connection address the peer reads back is its own, next to the port of Karl's,
    though [buildResponseSDP] is said to give Karl's address. *)
Theorem peer_address_kept parsed localIP rtpPort flags :
  wf_sdp parsed -> token localIP -> "/"%char ∉ localIP -> 0 <= rtpPort < 2 ^ 63 ->
  containsFlag flags (bs "replace-session-connection") = false -> containsFlag flags (bs "replace-origin") = false ->
  ConnectionIP parsed <> [] ->
  let read := parseSDP (buildResponseSDP parsed localIP rtpPort flags) in
  ConnectionIP read = ConnectionIP parsed /\ MediaPort read = rtpPort.
Proof.
  intros Hwf Hip Hs Hp H1 H2 Hne read. unfold read. rewrite parse_answer by done. unfold answer_of. rewrite H1, H2, bool_decide_false by done. done.
Qed.

(** ** Witnesses *)

Definition sample_sdp : parsedSDPInfo :=
  mkSDP (bs "audio") 4000 (bs "RTP/AVP") (bs "10.0.0.7") true (bs "uf") [] false [] [] true
    (bs "AES_CM_128_HMAC_SHA1_80") (bs "key") false (bs "sendonly")
    [mkCodec 96 (bs "opus") 48000 2 (bs "useinbandfec=1"); mkCodec 0 (bs "PCMU") 8000 1 []].

Lemma sample_sdp_wf : wf_sdp sample_sdp.
Proof.
  unfold wf_sdp. split_and!; try (by apply token_bs); try (by apply plain_bs); try apply plain_nil.
  - right. split; [by apply token_bs|]. apply (bool_decide_unpack _). vm_compute. exact I.
  - apply (bool_decide_unpack _). vm_compute. exact I.
  - intros _. split_and!; [by apply token_bs|by apply plain_bs|by repeat constructor].
  - done.
  - apply (bool_decide_unpack _). vm_compute. exact I.
  - repeat apply Forall_cons_2; [| |constructor]; unfold wf_codec; cbn [PayloadType Name ClockRate Channels Fmtp].
    all: split; [lia|]; split; [by apply token_bs|].
    all: split; [apply (bool_decide_unpack _); vm_compute; exact I|]; split; [lia|]; split; [lia|].
    + right. split; [by apply plain_bs|]. vm_compute. discriminate.
    + by left.
Qed.

Lemma peer_address_kept_witness :
  ConnectionIP (parseSDP (buildResponseSDP sample_sdp (bs "192.0.2.1") 30000 [])) = bs "10.0.0.7".
Proof.
  apply (peer_address_kept sample_sdp (bs "192.0.2.1") 30000 [] sample_sdp_wf); [by apply token_bs| |lia|reflexivity|reflexivity|discriminate].
  apply (bool_decide_unpack _). vm_compute. exact I.
Defined.

Lemma answer_roundtrip_witness :
  MediaPort (parseSDP (buildResponseSDP sample_sdp (bs "192.0.2.1") 30000 [bs "ICE=remove"; bs "replace-origin"])) = 30000.
Proof.
  rewrite (answer_roundtrip sample_sdp (bs "192.0.2.1") 30000 [bs "ICE=remove"; bs "replace-origin"]);
    [reflexivity|apply sample_sdp_wf|by apply token_bs| |lia].
  apply (bool_decide_unpack _). vm_compute. exact I.
Defined.
