(* ===== verification/Listener.v ===== *)
(** * The NG socket listener

    Models src/internal/ng_socket_listener.go: the processing of one message
    (parsing, dispatch, the reply) and the built-in command handlers, on top of
    the message, session registry, port allocator and SDP components. Socket
    I/O, logging and the Prometheus counters are left out: a message is the
    bytes that were read and its reply the bytes that are written back.

    What a call takes from outside comes in an [env]: the clock, a fresh
    session id from the uuid package, whether the operating system grants a
    port, and the order in which the runtime walks the map of sessions. *)

From Stdlib Require Import ZArith Lia Ascii String.
From stdpp Require Import base numbers list gmap strings.
From S2P Require Import Prelude GoFloat Bencode Flags Sharded PortAllocator SessionRegistry Sdp Message.

Local Open Scope Z_scope.
Local Open Scope go_scope.
#[local] Set Warnings "-clear-no-such-hyp,-register-all".

(** ** Data *)

Definition str (s : bytes) : string := string_of_list_ascii s.

Record env := mkEnv {
  env_now : Z;
  env_uuid : string;
  env_bind : Z -> bool;
  env_order : list string }.

Record NGSocketListener := mkListener {
  PublicIP : bytes;
  MediaIP : bytes;
  registry : SessionRegistry;
  portAllocator : PortAllocator }.
#[export] Instance set_registry : Setter registry := fun f r =>
  mkListener (PublicIP r) (MediaIP r) (f (registry r)) (portAllocator r).
#[export] Instance set_portAllocator : Setter portAllocator := fun f r =>
  mkListener (PublicIP r) (MediaIP r) (registry r) (f (portAllocator r)).

(** A handler returns a response that may be nil, or an error by its text. *)
Definition NGCommandHandler : Type :=
  env -> NGRequest -> NGSocketListener -> outcome bytes (option NGResponse) * NGSocketListener.

Definition error_response (reason : bytes) : NGResponse :=
  mkNGResponse ResultError reason [] [] [] [] [] None 0 0 [] [] [].

(** [return &ng.NGResponse{...}, nil]. *)
Definition respond (r : NGResponse) (l : NGSocketListener) : outcome bytes (option NGResponse) * NGSocketListener :=
  (Ok (Some r), l).

Definition missing (param : string) : NGResponse := error_response (ErrReasonMissingParam ++ bs param).
Definition not_found : NGResponse := error_response ErrReasonNotFound.
Definition ok : NGResponse := result_only ResultOK.

(** ** Handlers *)

Definition pa_error_text (e : pa_error) : bytes :=
  match e with
  | ErrNoPortsAvailable => bs "no ports available in range"
  | ErrPortAllocationLimit => bs "port allocation limit reached"
  | ErrClosed => bs "port allocator is closed"
  | ErrPortInUse => bs "port already in use"
  | ErrPortOutOfRange => bs "port out of allowed range"
  | ErrPortPoolExhausted => bs "port pool exhausted"
  end.

Definition local_ip (l : NGSocketListener) : bytes :=
  if bool_decide (PublicIP l = []) then
    if bool_decide (MediaIP l = []) then bs "127.0.0.1" else MediaIP l
  else PublicIP l.

Definition stream_of (ip : bytes) (rtpPort : Z) (parsed : parsedSDPInfo) (flags : list bytes) : StreamInfo :=
  mkStreamInfo ip rtpPort (i64 (rtpPort + 1)) (MediaType parsed) (determineProtocol parsed flags) 0 [] [] [] []
    [] [] [] [] [].

(** The common end of an offer and an answer: a port for the session, and the
    description with the local address. *)
Definition media_response (e : env) (req : NGRequest) (sid : string) (toTag : bytes) (l : NGSocketListener)
    : outcome bytes (option NGResponse) * NGSocketListener :=
  let parsedSDP := parseSDP (req_SDP req) in
  let '(r, pa) := AllocatePort (env_bind e) (env_now e) sid (portAllocator l) in
  let l := l <| portAllocator := pa |> in
  match r with
  | Ok rtpPort =>
      let localIP := local_ip l in
      respond (mkNGResponse ResultOK [] (buildResponseSDP parsedSDP localIP rtpPort (req_Flags req))
                 (req_CallID req) (req_FromTag req) toTag
                 [stream_of localIP rtpPort parsedSDP (req_Flags req)] None 0 0 [] [] []) l
  | Err err => respond (error_response (bs "failed to allocate port: " ++ pa_error_text err)) l
  | Panic => (Panic, l)
  | OutOfFuel => (OutOfFuel, l)
  end.

Definition session_id (sr : SessionRegistry) (p : loc) : string :=
  match deref sr p with Some s => ID s | None => EmptyString end.

Definition set_state (e : env) (p : loc) (state : string) (sr : SessionRegistry) : SessionRegistry :=
  (UpdateSessionState (env_now e) (session_id sr p) state sr).2.

Definition handleOffer : NGCommandHandler := fun e req l =>
  if bool_decide (req_CallID req = []) then respond (missing ": call-id") l
  else if bool_decide (req_FromTag req = []) then respond (missing ": from-tag") l
  else if bool_decide (req_SDP req = []) then respond (missing ": sdp") l
  else
    let sr := registry l in
    let '(p, sr) :=
      match GetSessionByTags (str (req_CallID req)) (str (req_FromTag req)) (str (req_ToTag req)) sr with
      | Some p => (p, sr)
      | None => CreateSession (env_uuid e) (env_now e) (str (req_CallID req)) (str (req_FromTag req)) sr
      end in
    let sr := set_state e p SessionStatePending sr in
    media_response e req (session_id sr p) [] (l <| registry := sr |>).

Definition handleAnswer : NGCommandHandler := fun e req l =>
  if bool_decide (req_CallID req = []) then respond (missing ": call-id") l
  else if bool_decide (req_FromTag req = []) then respond (missing ": from-tag") l
  else if bool_decide (req_SDP req = []) then respond (missing ": sdp") l
  else
    let sr := registry l in
    match GetSessionByTags (str (req_CallID req)) (str (req_FromTag req)) (str (req_ToTag req)) sr with
    | None => respond not_found l
    | Some p =>
        let sr := set_state e p SessionStateActive sr in
        media_response e req (session_id sr p) (req_ToTag req) (l <| registry := sr |>)
    end.

Definition handleDelete : NGCommandHandler := fun e req l =>
  if bool_decide (req_CallID req = []) then respond (missing ": call-id") l
  else
    match GetSessionByCallID (str (req_CallID req)) (registry l) with
    | [] => respond not_found l
    | sessions =>
        respond ok (l <| registry ::= fun sr =>
          foldl (fun sr p => (DeleteSession (session_id sr p) (set_state e p SessionStateTerminated sr)).2) sr sessions |>)
    end.

(** By tags, else the first session of the call. *)
Definition find_session (req : NGRequest) (sr : SessionRegistry) : option loc :=
  match GetSessionByTags (str (req_CallID req)) (str (req_FromTag req)) (str (req_ToTag req)) sr with
  | Some p => Some p
  | None => head (GetSessionByCallID (str (req_CallID req)) sr)
  end.

Definition handleQuery : NGCommandHandler := fun e req l =>
  if bool_decide (req_CallID req = []) then respond (missing ": call-id") l
  else
    match (p ← find_session req (registry l); deref (registry l) p) with
    | None => respond not_found l
    | Some s =>
        respond (mkNGResponse ResultOK [] [] (bs (CallID s)) (bs (FromTag s)) (bs (ToTag s)) [] None
                   (Unix (CreatedAt s)) (Unix (UpdatedAt s)) [] [] []) l
    end.

Definition call_entry (s : MediaSession) : interface float64 :=
  IMap (map_of [(bs "call-id", IString (bs (CallID s))); (bs "from-tag", IString (bs (FromTag s)));
                (bs "to-tag", IString (bs (ToTag s))); (bs "state", IString (bs (State s)))]).

Definition handleList : NGCommandHandler := fun e req l =>
  let calls := map call_entry (omap (deref (registry l)) (ListSessions (env_order e) (registry l))) in
  respond (mkNGResponse ResultOK [] [] [] [] [] [] None 0 0 [] []
             (map_of [(bs "calls", ISlice calls); (bs "count", IInt (Z.of_nat (length calls)))])) l.

Definition handleStatistics : NGCommandHandler := fun e req l =>
  let st := GetStats (env_order e) (registry l) in
  respond (mkNGResponse ResultOK [] [] [] [] [] [] None 0 0 [] []
             (map_of [(bs "total_sessions", IInt (total_sessions st));
                      (bs "active_sessions", IInt (active_sessions st));
                      (bs "pending_sessions", IInt (pending_sessions st));
                      (bs "terminated_sessions", IInt (terminated_sessions st))])) l.

Definition findSession (req : NGRequest) (sr : SessionRegistry) : option loc :=
  if bool_decide (req_CallID req = []) then None else find_session req sr.

(** The handlers that act on one session: not found, or [act] on it. *)
Definition with_session (act : loc -> SessionRegistry -> SessionRegistry) : NGCommandHandler := fun e req l =>
  match findSession req (registry l) with
  | None => respond not_found l
  | Some p => respond ok (l <| registry ::= act p |>)
  end.

Definition handleStartRecording : NGCommandHandler := with_session (fun p => SetFlag p "recording" true).
Definition handleStopRecording : NGCommandHandler := with_session (fun p => SetFlag p "recording" false).
Definition handlePauseRecording : NGCommandHandler := with_session (fun p => SetFlag p "recording_paused" true).
Definition handleBlockDTMF : NGCommandHandler := with_session (fun p => SetFlag p "dtmf_blocked" true).
Definition handleUnblockDTMF : NGCommandHandler := with_session (fun p => SetFlag p "dtmf_blocked" false).
Definition handlePlayDTMF : NGCommandHandler := fun e req l =>
  match findSession req (registry l) with
  | None => respond not_found l
  | Some p =>
      if bool_decide (req_DTMFDigit req = []) then respond (missing ": digit") l
      else respond ok (l <| registry ::= SetMetadata p "pending_dtmf" (str (req_DTMFDigit req)) |>)
  end.
Definition handleBlockMedia : NGCommandHandler := with_session (fun p => SetFlag p "media_blocked" true).
Definition handleUnblockMedia : NGCommandHandler := with_session (fun p => SetFlag p "media_blocked" false).
Definition handleSilenceMedia : NGCommandHandler := with_session (fun p => SetFlag p "media_silenced" true).
Definition handleStartForwarding : NGCommandHandler := fun e req =>
  with_session (fun p sr => SetMetadata p "forward_address" (str (req_ForwardAddress req)) (SetFlag p "forwarding" true sr)) e req.
Definition handleStopForwarding : NGCommandHandler := with_session (fun p => SetFlag p "forwarding" false).
Definition handlePlayMedia : NGCommandHandler := with_session (fun p => SetFlag p "playing_media" true).
Definition handleStopMedia : NGCommandHandler := with_session (fun p => SetFlag p "playing_media" false).
Definition handlePing : NGCommandHandler := fun e req l => respond (result_only ResultPong) l.

(** The table of handlers by command. *)
Definition handlers_table : Type := bytes -> option NGCommandHandler.

Definition registerBuiltinHandlers : handlers_table := fun command =>
  switch command [
    (["ping"], Some handlePing);
    (["offer"], Some handleOffer);
    (["answer"], Some handleAnswer);
    (["delete"], Some handleDelete);
    (["query"], Some handleQuery);
    (["list"], Some handleList);
    (["statistics"], Some handleStatistics);
    (["start recording"], Some handleStartRecording);
    (["stop recording"], Some handleStopRecording);
    (["pause recording"], Some handlePauseRecording);
    (["block DTMF"], Some handleBlockDTMF);
    (["unblock DTMF"], Some handleUnblockDTMF);
    (["play DTMF"], Some handlePlayDTMF);
    (["block media"], Some handleBlockMedia);
    (["unblock media"], Some handleUnblockMedia);
    (["silence media"], Some handleSilenceMedia);
    (["start forwarding"], Some handleStartForwarding);
    (["stop forwarding"], Some handleStopForwarding);
    (["play media"], Some handlePlayMedia);
    (["stop media"], Some handleStopMedia)]%string None.

Definition RegisterHandler (command : bytes) (handler : NGCommandHandler) (handlers : handlers_table) : handlers_table :=
  fun c => if bool_decide (c = command) then Some handler else handlers c.

(** ** One message *)

Definition ng_error_text (e : ng_error) : bytes :=
  match e with
  | ErrNoCookie => bs "no cookie in message"
  | ErrNoCommand => bs "no command in message"
  | ErrMalformedMsg _ => bs "malformed message"
  | ErrInvalidMessage => bs "invalid NG protocol message"
  end.

Section processing.
Context (FormatFloat : float64 -> Z -> bytes).

(** [resp, _ := ng.ErrorResponse(...)]: an error leaves a nil slice. *)
Definition error_reply (cookie reason : bytes) : bytes :=
  match ErrorResponse FormatFloat cookie reason with Ok b => b | _ => [] end.

Definition processMessage (handlers : handlers_table) (e : env) (data : bytes) (from : option UDPAddr)
    (l : NGSocketListener) : outcome bytes bytes * NGSocketListener :=
  match ParseMessage data from with
  | Panic => (Panic, l)
  | OutOfFuel => (OutOfFuel, l)
  | Err _ => (Ok (error_reply [] ErrReasonInternal), l)
  | Ok msg =>
      match ToRequest (env_now e) msg with
      | Panic => (Panic, l)
      | OutOfFuel => (OutOfFuel, l)
      | Err err => (Ok (error_reply (msg_Cookie msg) (ng_error_text err)), l)
      | Ok req =>
          match handlers (req_Command req) with
          | None => (Ok (error_reply (req_Cookie req) ErrReasonUnsupported), l)
          | Some handler =>
              match handler e req l with
              | (Panic, l) => (Panic, l)
              | (OutOfFuel, l) => (OutOfFuel, l)
              | (Err err, l) => (Ok (error_reply (req_Cookie req) err), l)
              | (Ok None, l) => (Panic, l)
              | (Ok (Some response), l) =>
                  match BuildResponse FormatFloat (req_Cookie req) response with
                  | Ok b => (Ok b, l)
                  | _ => (Ok (error_reply (req_Cookie req) ErrReasonInternal), l)
                  end
              end
          end
      end
  end.

End processing.

(** A call on a small port range. *)
Definition test_listener : NGSocketListener :=
  mkListener (bs "192.0.2.1") [] (NewSessionRegistry (60 * Second)) small_allocator.
Definition test_env (id : string) (order : list string) : env := mkEnv (1000 * Second) id any_port order.
Definition no_floats (_ : float64) (_ : Z) : bytes := [].
Definition offer_text : bytes :=
  bs "c1 d7:call-id1:x7:command5:offer8:from-tag1:f3:sdp" ++
  let sdp := concat (map crlf (map bs ["v=0"; "c=IN IP4 10.0.0.7"; "m=audio 4000 RTP/AVP 0"]%string)) in
  FormatInt (Z.of_nat (length sdp)) ++ bs ":" ++ sdp ++ bs "e".

Example ping_ex :
  (processMessage no_floats registerBuiltinHandlers (test_env "id1" []) (bs "c1 d7:command4:pinge") None test_listener).1
  = Ok (bs "c1 d6:result4:ponge").
Proof. vm_compute. reflexivity. Qed.
Example offer_ex :
  match (processMessage no_floats registerBuiltinHandlers (test_env "id1" []) offer_text None test_listener).1 with
  | Ok b => match ParseMessage b None with
            | Ok m => Some (DictGetString (msg_Data m) (bs "result"),
                            MediaPort (parseSDP (DictGetString (msg_Data m) (bs "sdp"))))
            | _ => None
            end
  | _ => None
  end = Some (bs "ok", 10002).
Proof. vm_compute. reflexivity. Qed.

(** ** Specification *)

(** What a handler does to the registry, one operation at a time. *)
Inductive registry_step (sr : SessionRegistry) : SessionRegistry -> Prop :=
| rs_create id now c f : sessions sr !! id = None -> registry_step sr (CreateSession id now c f sr).2
| rs_update now id st : registry_step sr (UpdateSessionState now id st sr).2
| rs_delete id : registry_step sr (DeleteSession id sr).2
| rs_cleanup now ids : registry_step sr (cleanupStaleSessions now ids sr)
| rs_flag p n v : registry_step sr (SetFlag p n v sr)
| rs_metadata p k v : registry_step sr (SetMetadata p k v sr).

(** The life of a listener: messages, each with a session id that is not in
    use, the registry's cleanup, and the port allocator's own goroutines. *)
Inductive listener_step (l : NGSocketListener) : NGSocketListener -> Prop :=
| ls_message FormatFloat e data from :
    sessions (registry l) !! env_uuid e = None ->
    listener_step l (processMessage FormatFloat registerBuiltinHandlers e data from l).2
| ls_cleanup now ids : listener_step l (l <| registry ::= cleanupStaleSessions now ids |>)
| ls_ports o : background o -> listener_step l (l <| portAllocator ::= fun pa => pa_step pa o |>).

Definition NewListener (publicIP mediaIP : bytes) (ttl : Z) (pa : PortAllocator) : NGSocketListener :=
  mkListener publicIP mediaIP (NewSessionRegistry ttl) pa.

Definition running (publicIP mediaIP : bytes) (ttl : Z) (pa : PortAllocator) (l : NGSocketListener) : Prop :=
  rtc listener_step (NewListener publicIP mediaIP ttl pa) l.

(** A response that can be sent and says how the command ended. *)
Record sendable (r : NGResponse) : Prop := {
  send_wf : wf_response r;
  send_encodable : forallb (fun kv => encodable kv.2) (resp_Extra r) = true;
  send_keys : Forall (fun kv => kv.1 ∉ response_keys) (resp_Extra r);
  send_result : resp_Result r ∈ [ResultOK; ResultPong; ResultError]
}.

(** What every built-in handler does, whatever the request. *)
Definition handled (e : env) (l : NGSocketListener) (out : outcome bytes (option NGResponse) * NGSocketListener) : Prop :=
  (exists r, out.1 = Ok (Some r) /\ sendable r) /\
  (sessions (registry l) !! env_uuid e = None -> rtc registry_step (registry l) (registry out.2)) /\
  (portAllocator out.2 = portAllocator l \/
   exists sid, portAllocator out.2 = (AllocatePort (env_bind e) (env_now e) sid (portAllocator l)).2).

(** ** Lemmas: the handlers *)

Lemma wf_plain_response result reason sdp c f t streams created lastSignal :
  is_s 64 created -> is_s 64 lastSignal ->
  wf_response (mkNGResponse result reason sdp c f t streams None created lastSignal [] [] []).
Proof. intros. unfold wf_response. cbn. split_and!; try done; constructor. Qed.

Lemma sendable_plain result reason sdp c f t streams created lastSignal :
  result ∈ [ResultOK; ResultPong; ResultError] -> is_s 64 created -> is_s 64 lastSignal ->
  sendable (mkNGResponse result reason sdp c f t streams None created lastSignal [] [] []).
Proof. intros. split; [by apply wf_plain_response|done|constructor|done]. Qed.

Lemma zero_in_range : is_s 64 0.
Proof. unfold is_s. lia. Qed.

Lemma sendable_error reason : sendable (error_response reason).
Proof. apply sendable_plain; [set_solver|apply zero_in_range..]. Qed.

Lemma sendable_ok : sendable ok.
Proof. apply sendable_plain; [set_solver|apply zero_in_range..]. Qed.

Lemma handled_respond e l l' r :
  sendable r -> (sessions (registry l) !! env_uuid e = None -> rtc registry_step (registry l) (registry l')) ->
  portAllocator l' = portAllocator l -> handled e l (respond r l').
Proof. intros Hr Hl Hp. split; [by exists r|]. split; [done|by left]. Qed.

Lemma handled_same e l r : sendable r -> handled e l (respond r l).
Proof. intros. by apply handled_respond. Qed.

Lemma handled_error e l reason : handled e l (respond (error_response reason) l).
Proof. apply handled_same, sendable_error. Qed.

Lemma handled_media e req sid toTag l sr :
  (sessions (registry l) !! env_uuid e = None -> rtc registry_step (registry l) sr) ->
  handled e l (media_response e req sid toTag (l <| registry := sr |>)).
Proof.
  intros Hsr. unfold media_response.
  pose proof (AllocatePort_result (env_bind e) (env_now e) sid (portAllocator l)) as H.
  change (portAllocator (l <| registry := sr |>)) with (portAllocator l).
  destruct (AllocatePort (env_bind e) (env_now e) sid (portAllocator l)) as [[p|err| |] pa] eqn:E; try done.
  - split; [eexists; split; [reflexivity|]|].
    + apply sendable_plain; [set_solver|apply zero_in_range..].
    + split; [exact Hsr|]. right. exists sid. by rewrite E.
  - split; [eexists; split; [reflexivity|apply sendable_error]|].
    split; [exact Hsr|]. right. exists sid. by rewrite E.
Qed.

Lemma handled_with_session act e req l :
  (forall p sr, rtc registry_step sr (act p sr)) -> handled e l (with_session act e req l).
Proof.
  intros Hact. unfold with_session. case_match; [|apply handled_error].
  apply handled_respond; [apply sendable_ok| |done]. intros _. apply Hact.
Qed.

Lemma handled_offer e req l : handled e l (handleOffer e req l).
Proof.
  unfold handleOffer. do 3 (case_bool_decide; [apply handled_error|]). cbv zeta.
  destruct (GetSessionByTags _ _ _ (registry l)) as [p|].
  - apply handled_media. intros _. apply rtc_once, rs_update.
  - destruct (CreateSession _ _ _ _ _) as [p sr] eqn:E. apply handled_media. intros Hid.
    eapply rtc_l; [by apply (rs_create _ (env_uuid e) (env_now e) (str (req_CallID req)) (str (req_FromTag req)))|].
    rewrite E. apply rtc_once, rs_update.
Qed.

Lemma handled_answer e req l : handled e l (handleAnswer e req l).
Proof.
  unfold handleAnswer. do 3 (case_bool_decide; [apply handled_error|]). cbv zeta.
  destruct (GetSessionByTags _ _ _ (registry l)) as [p|]; [|apply handled_error].
  apply handled_media. intros _. apply rtc_once, rs_update.
Qed.

(** Ending the sessions of a call, one after the other. *)
Definition end_sessions (e : env) (ps : list loc) (sr : SessionRegistry) : SessionRegistry :=
  foldl (fun sr p => (DeleteSession (session_id sr p) (set_state e p SessionStateTerminated sr)).2) sr ps.

Lemma end_sessions_steps e ps sr : rtc registry_step sr (end_sessions e ps sr).
Proof.
  revert sr. induction ps as [|p ps IH]; intros sr; [done|]. cbn [end_sessions foldl].
  eapply rtc_l; [apply (rs_update _ (env_now e) (session_id sr p))|]. eapply rtc_l; [apply rs_delete|]. apply IH.
Qed.

Lemma handled_delete e req l : handled e l (handleDelete e req l).
Proof.
  unfold handleDelete. case_bool_decide; [apply handled_error|].
  destruct (GetSessionByCallID _ _) as [|p ps] eqn:E; [apply handled_error|].
  apply handled_respond; [apply sendable_ok| |done]. intros _. apply (end_sessions_steps e (p :: ps)).
Qed.

Lemma handled_query e req l : handled e l (handleQuery e req l).
Proof.
  unfold handleQuery. case_bool_decide; [apply handled_error|]. case_match; [|apply handled_error].
  apply handled_same, sendable_plain; [set_solver|apply wraps_range; lia..].
Qed.

(** The replies with extra fields: their keys are none of the protocol's. *)
Lemma sendable_extra (entries : imap) :
  Forall (fun kv => wf_interface kv.2 /\ encodable kv.2 = true) entries ->
  NoDup (entries.*1) -> Forall (fun kv => kv.1 ∉ response_keys) entries ->
  sendable (mkNGResponse ResultOK [] [] [] [] [] [] None 0 0 [] [] (map_of entries)).
Proof.
  intros Hv Hnd Hk.
  assert (keyed (fun v => wf_interface v /\ encodable v = true) (map_of entries)) as [Hs Ha] by by apply keyed_map_of.
  split; cbn [resp_Extra resp_Result].
  - unfold wf_response. cbn [resp_Created resp_LastSignal resp_Tag resp_Extra].
    split_and!; [apply zero_in_range..|constructor|by apply strictly_sorted_NoDup|].
    eapply Forall_impl; [exact Ha|]. by intros ? [? _].
  - rewrite forallb_forall. intros kv Hin%list_elem_of_In. rewrite Forall_forall in Ha. by apply Ha.
  - rewrite Forall_forall in *. intros [k v] Hin.
    apply assoc_NoDup in Hin; [|by apply strictly_sorted_NoDup].
    rewrite assoc_map_of in Hin by done. by apply (Hk (k, v)), assoc_elem_of.
  - set_solver.
Qed.

Ltac closed_fact := apply (bool_decide_unpack _); vm_compute; exact I.

Lemma call_entry_sound s : wf_interface (call_entry s) /\ encodable (call_entry s) = true.
Proof.
  assert (keyed (fun v => wf_interface v /\ encodable v = true) (map_of
    [(bs "call-id", IString (bs (CallID s))); (bs "from-tag", IString (bs (FromTag s)));
     (bs "to-tag", IString (bs (ToTag s))); (bs "state", IString (bs (State s)))])) as Hk.
  { apply keyed_map_of. repeat constructor. }
  split.
  - apply wf_IMap. eapply keyed_impl; [|exact Hk]. by intros ? [? _].
  - destruct Hk as [_ Hk]. unfold call_entry. cbn [encodable]. rewrite forallb_forall.
    intros kv Hin%list_elem_of_In. rewrite Forall_forall in Hk. by apply Hk.
Qed.

Lemma handled_list e req l : handled e l (handleList e req l).
Proof.
  unfold handleList. set (calls := map call_entry _).
  assert (Forall (fun v => wf_interface v /\ encodable v = true) calls) as Hc.
  { apply Forall_fmap, Forall_true. intros s. apply call_entry_sound. }
  apply handled_same, sendable_extra; [|closed_fact|repeat constructor; closed_fact].
  constructor; [|repeat constructor]. cbn [snd wf_interface encodable]. clearbody calls. split.
  - induction Hc as [|v calls [Hv _] Hc IH]; [exact I|]. by split.
  - rewrite forallb_forall. intros v Hin%list_elem_of_In. rewrite Forall_forall in Hc. by apply Hc.
Qed.

Lemma handled_statistics e req l : handled e l (handleStatistics e req l).
Proof. apply handled_same, sendable_extra; [repeat constructor|closed_fact|repeat constructor; closed_fact]. Qed.

Lemma handled_dtmf e req l : handled e l (handlePlayDTMF e req l).
Proof.
  unfold handlePlayDTMF. case_match; [|apply handled_error]. case_bool_decide; [apply handled_error|].
  apply handled_respond; [apply sendable_ok| |done]. intros _. apply rtc_once, rs_metadata.
Qed.

Lemma handled_forwarding e req l : handled e l (handleStartForwarding e req l).
Proof.
  apply handled_with_session. intros p sr. eapply rtc_l; [apply rs_flag|]. apply rtc_once, rs_metadata.
Qed.

Create HintDb listener discriminated.
#[export] Hint Resolve handled_offer handled_answer handled_delete handled_query handled_list handled_statistics
  handled_dtmf handled_forwarding : listener.

(** Every command of the table is handled. *)
Lemma builtin_handled command handler e req l :
  registerBuiltinHandlers command = Some handler -> handled e l (handler e req l).
Proof.
  assert (forall h, registerBuiltinHandlers command = h -> match h with Some handler => handled e l (handler e req l) | None => True end)
    as H; [|intros E; apply (H (Some handler) E)].
  intros h <-. unfold registerBuiltinHandlers. apply switch_spec; [|done].
  repeat apply Forall_cons_2; [..|apply Forall_nil_2]; cbn [snd]; intros _; auto with listener.
  all: try (apply handled_with_session; intros; apply rtc_once, rs_flag).
  apply handled_same, sendable_plain; [set_solver|apply zero_in_range..].
Qed.

(** ** Lemmas: replies *)

(** [b] is a reply a client can read, under [cookie]. *)
Definition readable (cookie b : bytes) : Prop :=
  valid_cookie cookie -> Z.of_nat (length b) < 2 ^ 63 -> forall from,
  exists m, ParseMessage b from = Ok m /\ msg_Cookie m = cookie /\
  DictGetString (msg_Data m) (bs "result") ∈ [ResultOK; ResultPong; ResultError].

Lemma sendable_readable FormatFloat cookie r :
  sendable r -> exists b, BuildResponse FormatFloat cookie r = Ok b /\ readable cookie b.
Proof.
  intros [Hwf Henc Hk Hr]. destruct (BuildResponse_parsed FormatFloat cookie r Hwf Henc) as (b & Hb & Hp).
  exists b. split; [done|]. intros Hc Hlen from. eexists. split; [by apply Hp|]. split; [done|].
  cbn [msg_Data]. unfold DictGetString. rewrite assoc_decoded, assoc_reserved by (try done; closed_fact).
  by destruct (response_field r) as [-> _].
Qed.

Lemma error_reply_readable FormatFloat cookie reason : readable cookie (error_reply FormatFloat cookie reason).
Proof.
  unfold error_reply, ErrorResponse. change (mkNGResponse _ _ _ _ _ _ _ _ _ _ _ _ _) with (error_response reason).
  destruct (sendable_readable FormatFloat cookie _ (sendable_error reason)) as (b & -> & Hb). exact Hb.
Qed.

(** What a message does to the listener, and that it is answered. *)
Lemma processMessage_effect FormatFloat e data from l msg :
  ParseMessage data from = Ok msg ->
  let out := processMessage FormatFloat registerBuiltinHandlers e data from l in
  (exists b, out.1 = Ok b /\ readable (msg_Cookie msg) b) /\
  (sessions (registry l) !! env_uuid e = None -> rtc registry_step (registry l) (registry out.2)) /\
  (portAllocator out.2 = portAllocator l \/
   exists sid, portAllocator out.2 = (AllocatePort (env_bind e) (env_now e) sid (portAllocator l)).2).
Proof.
  intros Hm. cbv zeta. unfold processMessage. rewrite Hm.
  pose proof (error_reply_readable FormatFloat (msg_Cookie msg)) as He.
  destruct (ToRequest (env_now e) msg) as [req|err| |] eqn:Er; try (unfold ToRequest in Er; by case_bool_decide).
  2:{ split; [eexists; split; [reflexivity|apply He]|split; [done|by left]]. }
  assert (req_Cookie req = msg_Cookie msg) as ->.
  { unfold ToRequest in Er. case_bool_decide; [done|]. by injection Er as <-. }
  destruct (registerBuiltinHandlers (req_Command req)) as [h|] eqn:Eh; [|split; [eexists; split; [reflexivity|apply He]|split; [done|by left]]].
  destruct (builtin_handled _ h e req l Eh) as ((r & Hr & Hs) & Hreg & Hpa).
  destruct (h e req l) as [res l']. cbn [fst snd] in *. subst res.
  destruct (sendable_readable FormatFloat (msg_Cookie msg) r Hs) as (b & -> & Hb). eauto.
Qed.

Lemma processMessage_unparsed FormatFloat handlers e data from l :
  (forall m, ParseMessage data from <> Ok m) -> (processMessage FormatFloat handlers e data from l).2 = l.
Proof. intros H. unfold processMessage. destruct (ParseMessage data from) as [m| | |]; try done. by destruct (H m). Qed.

(** ** Lemmas: what the registry keeps *)

Lemma registry_step_ok sr sr' : registry_step sr sr' -> step sr sr'.
Proof. intros []; by constructor. Qed.

(** No session has a to-tag. *)
Definition untagged (sr : SessionRegistry) : Prop := forall p s, mem sr !! p = Some s -> ToTag s = EmptyString.

Lemma untagged_modify p f sr : (forall s, ToTag (f s) = ToTag s) -> untagged sr -> untagged (modify p f sr).
Proof.
  intros Hf Hu q s. unfold modify. cbn. rewrite lookup_alter_Some.
  intros [(<- & t & Ht & ->)|[_ Hs]]; [rewrite Hf|]; eauto.
Qed.

Lemma untagged_step sr sr' : reg_ok sr -> untagged sr -> registry_step sr sr' -> untagged sr'.
Proof.
  intros Hok Hu [].
  - intros p s. cbn. rewrite lookup_insert_Some. intros [[_ <-]|[_ Hs]]; [done|eauto].
  - destruct (sessions sr !! id) as [p|] eqn:Hid.
    2:{ unfold UpdateSessionState, UpdateSessionStateTyped. by rewrite Hid. }
    destruct (ok_sessions _ Hok _ _ Hid) as (s & Hp & Hs).
    rewrite (UpdateSessionState_eq now id st sr p s) by (first [done | split; [done|by rewrite Hs]]).
    assert (untagged (write p (updated now st s) sr)) as Hw; [|by destruct (_ && _)].
    intros q t. cbn. rewrite lookup_insert_Some. intros [[_ <-]|[_ Ht]]; [|eauto].
    destruct (updated_fields now st s) as (_ & -> & _). eauto.
  - unfold untagged, DeleteSession. by rewrite remove_keeps_objects.
  - unfold untagged. by destruct (cleanup_lookup now ids sr EmptyString Hok) as (_ & -> & _).
  - by apply untagged_modify.
  - by apply untagged_modify.
Qed.

Lemma registry_steps_ok sr sr' :
  rtc registry_step sr sr' -> reg_ok sr -> untagged sr -> reg_ok sr' /\ untagged sr'.
Proof.
  induction 1 as [|sr sr1 sr' Hs Hr IH]; [done|]. intros Hok Hu.
  apply IH; [by eapply reg_ok_step, registry_step_ok|by eapply untagged_step].
Qed.

Lemma listener_step_effect l l' : listener_step l l' ->
  rtc registry_step (registry l) (registry l') /\
  (portAllocator l' = portAllocator l \/
   (exists bind now sid, portAllocator l' = (AllocatePort bind now sid (portAllocator l)).2) \/
   (exists o, background o /\ portAllocator l' = pa_step (portAllocator l) o)).
Proof.
  intros [FormatFloat e data from Hid|now ids|o Ho].
  - destruct (ParseMessage data from) as [msg| | |] eqn:E.
    2-4: rewrite processMessage_unparsed by congruence; split; [done|by left].
    destruct (processMessage_effect FormatFloat e data from l msg E) as (_ & Hr & Hpa).
    split; [by apply Hr|naive_solver].
  - split; [apply rtc_once, rs_cleanup|by left].
  - split; [done|]. right; right. by exists o.
Qed.

Lemma running_ok publicIP mediaIP ttl pa l :
  running publicIP mediaIP ttl pa l -> reg_ok (registry l) /\ untagged (registry l).
Proof.
  intros H. pattern l. eapply (rtc_ind_r (fun l => reg_ok (registry l) /\ untagged (registry l))); [| |exact H].
  - split; [apply reg_ok_new|]. intros p s. cbn. by rewrite lookup_empty.
  - intros l1 l2 _ Hs [Hok Hu]. apply listener_step_effect in Hs as [Hr _]. by eapply registry_steps_ok.
Qed.

(** ** Lemmas: ports *)

(** From [pa] to [pa'] every session keeps the ports it has. *)
Definition ports_kept (pa pa' : PortAllocator) : Prop :=
  tok (PortAllocator.sessions pa) -> tok (PortAllocator.sessions pa') /\
  forall sid p, p ∈ session_ports pa sid -> p ∈ session_ports pa' sid.

Lemma AllocatePort_keeps bind now sid pa : ports_kept pa (AllocatePort bind now sid pa).2.
Proof.
  intros Hok. pose proof (AllocatePort_result bind now sid pa) as H.
  destruct (AllocatePort bind now sid pa) as [[q|err| |] pa']; try done; cbn [snd].
  - destruct H as [H _]. rewrite H. split; [by apply tset_ok|]. intros sid' p Hp.
    unfold session_ports at 1. rewrite H, session_ports_set by done. case_decide; [subst; set_solver|done].
  - unfold session_ports. by rewrite H.
Qed.

Lemma listener_step_keeps_ports l l' : listener_step l l' -> ports_kept (portAllocator l) (portAllocator l').
Proof.
  intros [_ [->|[(bind & now & sid' & ->)|(o & Ho & ->)]]]%listener_step_effect; [done| |].
  - apply AllocatePort_keeps.
  - unfold ports_kept, session_ports. by rewrite background_sessions.
Qed.

Lemma listener_steps_keep_ports l l' : rtc listener_step l l' -> ports_kept (portAllocator l) (portAllocator l').
Proof.
  induction 1 as [|l l1 l2 Hs Hr IH]; [by intros Hok|]. intros Hok.
  destruct (listener_step_keeps_ports _ _ Hs Hok) as [Hok1 H1]. destruct (IH Hok1) as [Hok2 H2]. auto.
Qed.

(** ** Lemmas: ending the sessions of a call *)

Lemma session_id_live sr p s : live sr p s -> session_id sr p = ID s.
Proof. intros [Hp _]. unfold session_id, deref. by rewrite Hp. Qed.

Lemma set_state_live e p s state sr : live sr p s ->
  exists b : bool, set_state e p state sr =
  let sr' := write p (updated (env_now e) state s) sr in
  if b then sr' <| ended ::= fun l => l ++ [p] |> else sr'.
Proof.
  intros Hl. unfold set_state. rewrite (session_id_live _ _ _ Hl).
  rewrite (UpdateSessionState_eq (env_now e) (ID s) state sr p s) by done. eexists. reflexivity.
Qed.

Lemma end_one e p s sr : reg_ok sr -> live sr p s ->
  let sr' := (DeleteSession (session_id sr p) (set_state e p SessionStateTerminated sr)).2 in
  reg_ok sr' /\ forall q t, live sr' q t <-> q <> p /\ live sr q t.
Proof.
  intros Hok Hl. cbv zeta. set (sr1 := set_state e p SessionStateTerminated sr).
  assert (reg_ok sr1) as Hok1 by by apply reg_ok_update.
  split; [by apply reg_ok_remove|]. intros q t. unfold live, DeleteSession.
  rewrite remove_sessions, remove_keeps_objects, (session_id_live _ _ _ Hl) by done.
  destruct (set_state_live e p s SessionStateTerminated sr Hl) as [b Hb].
  assert (mem sr1 = <[p := updated (env_now e) SessionStateTerminated s]> (mem sr) /\ sessions sr1 = sessions sr)
    as [-> ->] by (unfold sr1; rewrite Hb; by destruct b).
  rewrite lookup_delete_Some. split.
  - intros (Hq & Hne & Hs). assert (q <> p) as Hqp.
    { intros ->. rewrite lookup_insert_eq in Hq. injection Hq as <-.
      destruct (updated_fields (env_now e) SessionStateTerminated s) as ((Hid & _) & _). congruence. }
    by rewrite lookup_insert_ne in Hq.
  - intros (Hqp & Hq & Hs). rewrite lookup_insert_ne by done. split_and!; try done.
    intros E. destruct Hl as [_ Hl]. congruence.
Qed.

Lemma end_sessions_live e ps sr : reg_ok sr -> NoDup ps -> (forall p, p ∈ ps -> exists s, live sr p s) ->
  forall q t, live (end_sessions e ps sr) q t <-> (q ∉ ps) /\ live sr q t.
Proof.
  revert sr. induction ps as [|p ps IH]; intros sr Hok Hnd Hps q t; cbn [end_sessions foldl].
  { split; [split; [apply not_elem_of_nil|done]|tauto]. }
  apply NoDup_cons in Hnd as [Hp Hnd]. destruct (Hps p ltac:(left)) as [s Hs].
  destruct (end_one e p s sr Hok Hs) as [Hok1 Hl1]. unfold end_sessions in IH. rewrite IH; [|done..|].
  - rewrite Hl1, not_elem_of_cons. tauto.
  - intros r Hr. destruct (Hps r ltac:(by right)) as [u Hu]. exists u. apply Hl1. split; [set_solver|done].
Qed.

Lemma NoDup_sessions sr c : reg_ok sr -> NoDup (GetSessionByCallID c sr).
Proof.
  intros Hok. unfold GetSessionByCallID. destruct (callIDIndex sr !! c) eqn:E; [|constructor].
  apply (ok_sorted _ Hok) in E as [_ E]. simpl. clear -E.
  induction E as [|x l Hl IH Hx]; constructor; [|done]. intros Hin.
  rewrite Forall_forall in Hx. apply Hx in Hin. lia.
Qed.

(** ** Guarantees *)

(** C1: every message is answered. A message that parses gets a reply that
    its sender can parse, under the sender's own cookie, with a result that
    says how the command ended, whatever the command and the state; one that
    does not parse gets the fixed error reply without a cookie and changes
    nothing; and the only way to stop the listener is a message on which the
    bencode decoder panics. *)
Theorem processMessage_replies FormatFloat e data from l :
  let out := processMessage FormatFloat registerBuiltinHandlers e data from l in
  match ParseMessage data from with
  | Ok msg =>
      exists b, out.1 = Ok b /\
      (Z.of_nat (length b) < 2 ^ 63 -> forall from',
       exists m, ParseMessage b from' = Ok m /\ msg_Cookie m = msg_Cookie msg /\
       DictGetString (msg_Data m) (bs "result") ∈ [ResultOK; ResultPong; ResultError])
  | Err _ => out = (Ok (bs " d12:error-reason14:Internal error6:result5:errore"), l)
  | Panic => out = (Panic, l)
  | OutOfFuel => False
  end.
Proof.
  cbv zeta. destruct (ParseMessage_cookie data from) as [Hfuel Hck].
  destruct (ParseMessage data from) as [msg|err| |] eqn:E; [| | |done].
  - destruct (processMessage_effect FormatFloat e data from l msg E) as ((b & Hb & Hread) & _).
    exists b. split; [exact Hb|]. intros Hlen. by apply Hread; [apply Hck|].
  - unfold processMessage. by rewrite E.
  - unfold processMessage. by rewrite E.
Qed.

(** An answer that names its to-tag is never accepted. In every state a
    running listener can reach, an otherwise complete answer with a to-tag is
    refused with "Call-ID not found" and changes nothing, because no session
    ever has a to-tag and the lookup compares it. *)
Theorem tagged_answer_rejected publicIP mediaIP ttl pa l e req :
  running publicIP mediaIP ttl pa l ->
  req_CallID req <> [] -> req_FromTag req <> [] -> req_SDP req <> [] -> req_ToTag req <> [] ->
  handleAnswer e req l = (Ok (Some not_found), l).
Proof.
  intros [Hok Hu]%running_ok H1 H2 H3 H4. unfold handleAnswer. do 3 rewrite bool_decide_eq_false_2 by done.
  replace (GetSessionByTags _ _ _ (registry l)) with (@None loc); [done|].
  symmetry. unfold GetSessionByTags. apply head_None.
  destruct (filter _ _) as [|p ps] eqn:E; [done|].
  assert (p ∈ filter (fun p => tags_match (str (req_FromTag req)) (str (req_ToTag req)) (registry l) p = true)
                (GetSessionByCallID (str (req_CallID req)) (registry l))) as Hin by (rewrite E; left).
  apply list_elem_of_filter in Hin as [Hm _]. unfold tags_match, deref in Hm.
  destruct (mem (registry l) !! p) as [s|] eqn:Es; [|done]. rewrite (Hu _ _ Es) in Hm.
  destruct (req_ToTag req) as [|c t]; [done|]. cbn in Hm. by rewrite andb_false_r in Hm.
Qed.

(** Deleting a call gives back none of its ports. In every state a
    running listener can reach, a delete for a call that exists ends exactly
    the sessions of that Call-ID and leaves the others alone, but every port
    a session had is still allocated to it, then and for as long as the
    listener runs, whatever messages follow. *)
Theorem deleted_call_keeps_ports publicIP mediaIP ttl c pa l e req :
  NewPortAllocator c = Some pa -> running publicIP mediaIP ttl pa l ->
  req_CallID req <> [] -> GetSessionByCallID (str (req_CallID req)) (registry l) <> [] ->
  exists l1, handleDelete e req l = (Ok (Some ok), l1) /\
  (forall p s, live (registry l1) p s <-> live (registry l) p s /\ CallID s <> str (req_CallID req)) /\
  forall l2, rtc listener_step l1 l2 ->
  forall sid port, port ∈ session_ports (portAllocator l) sid -> port ∈ session_ports (portAllocator l2) sid.
Proof.
  intros Hpa Hrun H1 H2. destruct (running_ok _ _ _ _ _ Hrun) as [Hok _].
  set (c' := str (req_CallID req)) in *. set (ps := GetSessionByCallID c' (registry l)) in *.
  exists (l <| registry ::= end_sessions e ps |>). split_and!.
  - unfold handleDelete. rewrite bool_decide_eq_false_2 by done. fold c'. change (GetSessionByCallID c' (registry l)) with ps.
    by destruct ps.
  - intros p s. cbn [registry set_field set_registry]. change (registry (l <| registry ::= _ |>)) with (end_sessions e ps (registry l)).
    rewrite end_sessions_live; [|done|by apply NoDup_sessions|].
    + split; [intros [Hn Hl]|intros [Hl Hn]]; split; try done.
      * intros E. apply Hn, (ok_exact _ Hok). eauto.
      * intros (t & [Ht _] & E)%(ok_exact _ Hok). destruct Hl as [Hl _]. congruence.
    + intros q (t & Hl & _)%(ok_exact _ Hok). eauto.
  - intros l2 Hr sid port Hp.
    assert (tok (PortAllocator.sessions (portAllocator l))) as Ht.
    { apply (listener_steps_keep_ports _ _ Hrun). unfold NewPortAllocator in Hpa. repeat case_match; simplify_eq.
      all: apply empty_shards_ok. }
    by apply (listener_steps_keep_ports _ _ Hr).
Qed.

(** The session an offer is for: the one with its tags, or a new one. *)
Lemma offered_session e req sr :
  reg_ok sr -> sessions sr !! env_uuid e = None ->
  let found := GetSessionByTags (str (req_CallID req)) (str (req_FromTag req)) (str (req_ToTag req)) sr in
  let '(p, sr') := match found with
                   | Some p => (p, sr)
                   | None => CreateSession (env_uuid e) (env_now e) (str (req_CallID req)) (str (req_FromTag req)) sr
                   end in
  exists s, live sr' p s /\ CallID s = str (req_CallID req) /\ FromTag s = str (req_FromTag req) /\
  match found with Some q => q = p | None => ID s = env_uuid e end.
Proof.
  intros Hok Hid. cbv zeta. destruct (GetSessionByTags _ _ _ sr) as [p|] eqn:E.
  - apply head_Some_elem_of, list_elem_of_filter in E as [Hm Hin].
    apply (ok_exact _ Hok) in Hin as (s & Hs & Hc). exists s. unfold tags_match, deref in Hm.
    rewrite (proj1 Hs) in Hm. bool_prop; auto.
  - exists (new_session (env_uuid e) (str (req_CallID req)) (str (req_FromTag req)) (env_now e)).
    split; [|done]. split; apply lookup_insert_eq.
Qed.


(** The length prefix that makes the decoder panic stops the listener:
    a datagram of a cookie, a blank and such a prefix is not answered but
    ends in a panic, whatever the handlers and the state. *)
Theorem datagram_panics FormatFloat handlers e from l cookie n rest :
  valid_cookie cookie -> 2 ^ 63 - 1 - Z.of_nat (length (FormatInt n)) <= n < 2 ^ 63 ->
  Z.of_nat (length (FormatInt n ++ ":"%char :: rest)) < 2 ^ 63 ->
  processMessage FormatFloat handlers e (cookie ++ " "%char :: FormatInt n ++ ":"%char :: rest) from l = (Panic, l).
Proof.
  intros [Hne Hsp] Hn Hlen. unfold processMessage. rewrite ParseMessage_split by done.
  by rewrite DecodeBencode_overflow.
Qed.

(** ** The advertised RTCP port *)

(** The ports of the first stream of a reply. *)
Definition offered_ports (reply : outcome bytes bytes) : option (Z * Z) :=
  match reply with
  | Ok b =>
      match ParseMessage b None with
      | Ok m =>
          s ← head (omap read_stream (default [] (DictGetList (msg_Data m) (bs "streams"))));
          Some (si_LocalPort s, si_LocalRTCPPort s)
      | _ => None
      end
  | _ => None
  end.

(** An offer for the call [call], which is one character. *)
Definition offer_for (call : string) : bytes :=
  bs "c1 d7:call-id1:" ++ bs call ++ bs "7:command5:offer8:from-tag1:f3:sdp22:m=audio 4000 RTP/AVP 0e".

Definition serve (id call : string) (l : NGSocketListener) : outcome bytes bytes * NGSocketListener :=
  processMessage no_floats registerBuiltinHandlers (test_env id []) (offer_for call) None l.
Definition in_background (o : pa_op) (l : NGSocketListener) : NGSocketListener :=
  l <| portAllocator ::= fun pa => pa_step pa o |>.

(** A filled pool; one offer, whose spare port goes back to the pool; four more offers. *)
Definition shared_l0 : NGSocketListener := in_background (OpRefill any_port 0) test_listener.
Definition shared_l1 : NGSocketListener := in_background (OpReturnRTCP 0) (serve "id1" "1" shared_l0).2.
Definition shared_l4 : NGSocketListener :=
  (serve "id4" "4" (serve "id3" "3" (serve "id2" "2" shared_l1).2).2).2.

Section serving.
Context (publicIP mediaIP : bytes) (ttl : Z) (pa : PortAllocator).
Abbreviation run := (running publicIP mediaIP ttl pa).

Lemma serve_running id call l : sessions (registry l) !! id = None -> run l -> run (serve id call l).2.
Proof.
  intros Hid Hl. eapply rtc_r; [exact Hl|].
  exact (ls_message l no_floats (test_env id []) (offer_for call) None Hid).
Qed.

Lemma background_running o l : background o -> run l -> run (in_background o l).
Proof. intros Ho Hl. eapply rtc_r; [exact Hl|]. exact (ls_ports l o Ho). Qed.
End serving.

(** The RTCP port promised to one call becomes the RTP port of another.
    From a filled pool, an offer is told the ports 10002 and 10003; its
    neighbour 10003 goes back to the pool, and the fifth offer is told RTP
    port 10003, while both sessions are registered. *)
Theorem rtcp_port_shared :
  let out1 := serve "id1" "1" shared_l0 in
  let out5 := serve "id5" "5" shared_l4 in
  running (bs "192.0.2.1") [] (60 * Second) small_allocator out5.2 /\
  offered_ports out1.1 = Some (10002, 10003) /\ offered_ports out5.1 = Some (10003, 10004) /\
  is_Some (sessions (registry out5.2) !! "id1"%string) /\ is_Some (sessions (registry out5.2) !! "id5"%string).
Proof.
  cbv zeta. split.
  - unfold shared_l4, shared_l1, shared_l0. repeat first [apply serve_running | apply background_running].
    all: first [exact I | apply rtc_refl | vm_compute; reflexivity].
  - split; [vm_compute; reflexivity|]. split; [vm_compute; reflexivity|].
    split; (apply (bool_decide_unpack _); vm_compute; exact I).
Qed.

(** ** Witnesses *)

Definition sample_text : bytes :=
  concat (map crlf (map bs ["v=0"; "c=IN IP4 10.0.0.7"; "m=audio 4000 RTP/AVP 96 0"; "a=rtpmap:96 opus/48000/2";
    "a=fmtp:96 useinbandfec=1"; "a=rtpmap:0 PCMU/8000"; "a=ice-ufrag:uf";
    "a=crypto:1 AES_CM_128_HMAC_SHA1_80 inline:key"; "a=sendonly"]%string)).
Definition call_request (command toTag : string) : NGRequest :=
  mkNGRequest (bs "c1") (bs command) (bs "1") (bs "f") (bs toTag) [] sample_text [] []
    [] None 0 [] [] [] [] [] [] false None [] [] 0 [] [] [] [] [] 0 [] 0 [].

Definition one_call : NGSocketListener := (serve "id1" "1" test_listener).2.

Lemma one_call_running : running (bs "192.0.2.1") [] (60 * Second) small_allocator one_call.
Proof. apply serve_running; [vm_compute; reflexivity|apply rtc_refl]. Qed.

Lemma tagged_answer_rejected_witness :
  handleAnswer (test_env "id2" []) (call_request "answer" "t") one_call = (Ok (Some not_found), one_call).
Proof. by apply (tagged_answer_rejected _ _ _ _ _ _ _ one_call_running). Defined.

Lemma deleted_call_keeps_ports_witness :
  exists l1, handleDelete (test_env "id2" []) (call_request "delete" "") one_call = (Ok (Some ok), l1) /\
  10002 ∈ session_ports (portAllocator l1) "id1".
Proof.
  destruct (deleted_call_keeps_ports (bs "192.0.2.1") [] (60 * Second) (Some small_config) small_allocator one_call
    (test_env "id2" []) (call_request "delete" "")) as (l1 & H1 & _ & H2).
  - reflexivity.
  - apply one_call_running.
  - discriminate.
  - vm_compute. discriminate.
  - exists l1. split; [exact H1|]. apply (H2 l1 (rtc_refl _ _)). apply (bool_decide_unpack _). vm_compute. exact I.
Defined.

Lemma sample_text_parses : parseSDP sample_text = sample_sdp.
Proof. vm_compute. reflexivity. Qed.


Lemma datagram_panics_witness :
  (processMessage no_floats registerBuiltinHandlers (test_env "id1" []) (bs "c1 9223372036854775800:") None test_listener).1
  = Panic.
Proof.
  change (bs "c1 9223372036854775800:") with (bs "c1" ++ " "%char :: FormatInt 9223372036854775800 ++ ":"%char :: []).
  rewrite (datagram_panics no_floats registerBuiltinHandlers (test_env "id1" []) None test_listener (bs "c1") 9223372036854775800 []).
  - reflexivity.
  - split; [discriminate|]. apply (bool_decide_unpack _). vm_compute. exact I.
  - vm_compute. split; [discriminate|reflexivity].
  - vm_compute. reflexivity.
Defined.
