(* ===== verification/FloatExact.v ===== *)
(** * Exact integers among [float64]

    Integers below [2^53] are represented exactly, and comparing, adding and
    subtracting them as [float64] gives the integer result. The code keeps
    tokens, counts and payload sizes as floating point numbers; these lemmas
    let its theorems speak of integers. *)

From Stdlib Require Import ZArith Lia Bool Floats.SpecFloat.
From stdpp Require Import base numbers.
From S2P Require Import Prelude GoFloat.

Local Open Scope Z_scope.

(** ** Digits and shifts *)

Lemma digits2_pos_bounds p : 2 ^ (Zpos (digits2_pos p) - 1) <= Zpos p < 2 ^ Zpos (digits2_pos p).
Proof.
  induction p as [p IH|p IH|]; cbn [digits2_pos]; [| |cbn; lia].
  all: rewrite Pos2Z.inj_succ, Z.pow_succ_r by lia.
  all: replace (Z.succ (Zpos (digits2_pos p)) - 1) with (Z.succ (Zpos (digits2_pos p) - 1)) by lia.
  all: rewrite Z.pow_succ_r by lia; lia.
Qed.

Lemma digits2_pos_unique p d : 1 <= d -> 2 ^ (d - 1) <= Zpos p < 2 ^ d -> Zpos (digits2_pos p) = d.
Proof.
  intros Hd H. pose proof (digits2_pos_bounds p) as Hp.
  destruct (Z.lt_trichotomy (Zpos (digits2_pos p)) d) as [Hlt|[?|Hlt]]; [|done|].
  - pose proof (Z.pow_le_mono_r 2 (Zpos (digits2_pos p)) (d - 1)). lia.
  - pose proof (Z.pow_le_mono_r 2 d (Zpos (digits2_pos p) - 1)). lia.
Qed.

Lemma iter_xO m d : Zpos (Pos.iter xO m d) = Zpos m * 2 ^ Zpos d.
Proof.
  induction d as [|d IH] using Pos.peano_ind; [cbn; lia|].
  rewrite Pos.iter_succ, Pos2Z.inj_succ, Z.pow_succ_r by lia. rewrite Pos2Z.inj_xO, IH. ring.
Qed.

Lemma iter_pos_nat {A} (f : A -> A) n x : SpecFloat.iter_pos f n x = Nat.iter (Pos.to_nat n) f x.
Proof.
  revert x. induction n as [n IH|n IH|]; intros x; cbn [SpecFloat.iter_pos]; [| |done].
  - rewrite !IH, Pos2Nat.inj_xI, Nat.iter_succ_r, <- Nat.iter_add. f_equal. lia.
  - rewrite !IH, Pos2Nat.inj_xO, <- Nat.iter_add. f_equal. lia.
Qed.

Lemma shr_1_even m : 0 < m -> shr_1 (Build_shr_record (2 * m) false false) = Build_shr_record m false false.
Proof. destruct m; [lia|done|lia]. Qed.

Lemma shr_exact n m : 0 < m ->
  Nat.iter n shr_1 (Build_shr_record (m * 2 ^ Z.of_nat n) false false) = Build_shr_record m false false.
Proof.
  intros Hm. induction n as [|n IH]; [cbn; by rewrite Z.mul_1_r|].
  rewrite Nat.iter_succ_r. replace (m * 2 ^ Z.of_nat (S n)) with (2 * (m * 2 ^ Z.of_nat n)).
  2:{ rewrite Nat2Z.inj_succ, Z.pow_succ_r by lia. ring. }
  rewrite shr_1_even; [done|]. pose proof (Z.pow_pos_nonneg 2 (Z.of_nat n)). nia.
Qed.

(** ** Rounding a value that needs none *)

(** A normal mantissa and exponent of [binary64]. *)
Definition normal (m e : Z) : Prop := 2 ^ 52 <= m < 2 ^ 53 /\ -1074 <= e <= 971.

Lemma shr_fexp_exact m e m' e' :
  normal m' e' -> e <= e' -> m = m' * 2 ^ (e' - e) ->
  shr_fexp 53 1024 m e loc_Exact = (Build_shr_record m' false false, e').
Proof.
  intros [Hm He] Hle ->. pose proof (Z.pow_pos_nonneg 2 (e' - e) ltac:(lia) ltac:(lia)) as Hpow.
  unfold shr_fexp. replace (Zdigits2 (m' * 2 ^ (e' - e))) with (53 + (e' - e)).
  2:{ destruct (m' * 2 ^ (e' - e)) as [|p|p] eqn:E; [nia| |nia]. cbn [Zdigits2]. symmetry.
      apply digits2_pos_unique; [lia|]. rewrite <- E.
      replace (53 + (e' - e) - 1) with (52 + (e' - e)) by lia. rewrite !Z.pow_add_r by lia. nia. }
  unfold fexp, emin. replace (Z.max _ _) with e' by lia. cbn [shr_record_of_loc]. unfold shr.
  destruct (e' - e) as [|n|n] eqn:E; [|f_equal; [|lia]|lia].
  - replace e with e' by lia. by rewrite Z.pow_0_r, Z.mul_1_r.
  - rewrite iter_pos_nat. replace (Zpos n) with (Z.of_nat (Pos.to_nat n)) by lia.
    apply shr_exact. lia.
Qed.

Lemma round_aux_exact s m e m' e' :
  normal (Zpos m') e' -> e <= e' -> m = Zpos m' * 2 ^ (e' - e) ->
  binary_round_aux 53 1024 s m e loc_Exact = S754_finite s m' e'.
Proof.
  intros Hn Hle Hm. unfold binary_round_aux. rewrite (shr_fexp_exact m e (Zpos m') e') by done.
  cbn [shr_m loc_of_shr_record round_nearest_even].
  rewrite (shr_fexp_exact (Zpos m') e' (Zpos m') e'); [|done|lia|by rewrite Z.sub_diag, Z.mul_1_r].
  cbn [shr_m]. destruct Hn as [_ He]. by rewrite (proj2 (Z.leb_le e' (1024 - 53))) by lia.
Qed.

(** The same value with another exponent. *)
Definition same_value (m e m' e' : Z) : Prop :=
  (e <= e' /\ m = m' * 2 ^ (e' - e)) \/ (e' <= e /\ m * 2 ^ (e - e') = m').

Lemma binary_round_exact s p e m' e' :
  normal (Zpos m') e' -> same_value (Zpos p) e (Zpos m') e' -> binary_round 53 1024 s p e = S754_finite s m' e'.
Proof.
  intros Hn Hv. pose proof Hn as [Hm He]. unfold binary_round.
  assert (Zpos (digits2_pos p) + e = 53 + e') as Hd.
  { destruct Hv as [[Hle Hp]|[Hle Hp]].
    - rewrite (digits2_pos_unique p (53 + (e' - e))); [lia|lia|]. rewrite Hp.
      replace (53 + (e' - e) - 1) with (52 + (e' - e)) by lia. rewrite !Z.pow_add_r by lia.
      pose proof (Z.pow_pos_nonneg 2 (e' - e)). nia.
    - assert (e - e' < 53) as Hlt.
      { destruct (Z.lt_ge_cases (e - e') 53) as [|Hge]; [done|].
        pose proof (Z.pow_le_mono_r 2 53 (e - e')). nia. }
      rewrite (digits2_pos_unique p (53 - (e - e'))); [lia|lia|].
      pose proof (Z.pow_pos_nonneg 2 (e - e') ltac:(lia) ltac:(lia)).
      assert (2 ^ 53 = 2 ^ (53 - (e - e')) * 2 ^ (e - e')) as E53 by (rewrite <- Z.pow_add_r by lia; f_equal; lia).
      assert (2 ^ 52 = 2 ^ (53 - (e - e') - 1) * 2 ^ (e - e')) as E52 by (rewrite <- Z.pow_add_r by lia; f_equal; lia).
      nia. }
  rewrite Hd. unfold fexp, emin. replace (Z.max _ _) with e' by lia.
  unfold shl_align. destruct (e' - e) as [|n|n] eqn:E.
  - apply round_aux_exact; [done|lia|]. destruct Hv as [[_ Hp]|[_ Hp]].
    + done.
    + rewrite <- Hp. replace (e - e') with 0 by lia. rewrite E. by rewrite !Z.mul_1_r.
  - apply round_aux_exact; [done|lia|]. destruct Hv as [[_ Hp]|[? _]]; [done|lia].
  - apply round_aux_exact; [done|lia|]. rewrite Z.sub_diag, Z.mul_1_r, iter_xO.
    destruct Hv as [[? _]|[_ Hp]]; [lia|]. replace (Zpos n) with (e - e') by lia. exact Hp.
Qed.

(** ** Integers *)

(** Mantissa and exponent of a positive integer. *)
Definition int_exp (z : Z) : Z := Z.log2 z - 52.
Definition int_man (z : Z) : positive := Z.to_pos (z * 2 ^ (52 - Z.log2 z)).

Section exact.
Context (z : Z) (Hz : 0 < z < 2 ^ 53).

Lemma int_log2 : 0 <= Z.log2 z <= 52 /\ 2 ^ Z.log2 z <= z < 2 * 2 ^ Z.log2 z.
Proof using Hz.
  pose proof (Z.log2_spec z ltac:(lia)) as H. rewrite Z.pow_succ_r in H by apply Z.log2_nonneg.
  pose proof (Z.log2_nonneg z). split; [|done]. split; [done|].
  pose proof (Z.log2_lt_pow2 z 53 ltac:(lia)). lia.
Qed.

Lemma int_man_eq : Zpos (int_man z) = z * 2 ^ (52 - Z.log2 z).
Proof using Hz.
  unfold int_man. rewrite Z2Pos.id; [done|]. destruct int_log2. pose proof (Z.pow_pos_nonneg 2 (52 - Z.log2 z)). nia.
Qed.

Lemma int_normal : normal (Zpos (int_man z)) (int_exp z).
Proof using Hz.
  destruct int_log2 as [Hl Hp]. split; [|unfold int_exp; lia]. rewrite int_man_eq.
  replace (2 ^ 53) with (2 * 2 ^ 52) by done.
  replace (2 ^ 52) with (2 ^ Z.log2 z * 2 ^ (52 - Z.log2 z)) by (rewrite <- Z.pow_add_r by lia; f_equal; lia).
  pose proof (Z.pow_pos_nonneg 2 (52 - Z.log2 z) ltac:(lia) ltac:(lia)). nia.
Qed.

(** A scaled integer rounds to the integer. *)
Lemma scaled_round s p e : e <= 0 -> Zpos p = z * 2 ^ (- e) ->
  binary_round 53 1024 s p e = S754_finite s (int_man z) (int_exp z).
Proof using Hz.
  intros He Hp. destruct int_log2 as [Hl _]. apply binary_round_exact; [apply int_normal|].
  unfold same_value. rewrite Hp, int_man_eq. unfold int_exp.
  destruct (Z.le_ge_cases e (Z.log2 z - 52)); [left|right]; (split; [lia|]).
  all: rewrite <- Z.mul_assoc, <- Z.pow_add_r by lia; do 2 f_equal; lia.
Qed.

Lemma of_int_pos : of_int z = S754_finite false (int_man z) (int_exp z).
Proof using Hz.
  assert (z = Zpos (Z.to_pos z)) as E by lia. unfold of_int. rewrite E at 1. cbn [binary_normalize].
  apply (scaled_round false (Z.to_pos z) 0); [lia|]. by rewrite <- E, Z.mul_1_r.
Qed.

(** Aligning an integer to a smaller exponent. *)
Lemma align_int e : e <= int_exp z ->
  Zpos (shl_align (int_man z) (int_exp z) e).1 = z * 2 ^ (- e).
Proof using Hz.
  intros He. destruct int_log2 as [Hl _]. unfold shl_align.
  assert (forall k, 0 <= k -> int_exp z - e = k -> Zpos (int_man z) * 2 ^ k = z * 2 ^ (- e)) as H.
  { intros k Hk Ek. rewrite int_man_eq, <- Z.mul_assoc, <- Z.pow_add_r by lia. do 2 f_equal. unfold int_exp in *. lia. }
  destruct (e - int_exp z) as [|n|n] eqn:E; cbn [fst]; [|lia|].
  - rewrite <- (H 0) by lia. by rewrite Z.mul_1_r.
  - rewrite iter_xO. apply H; lia.
Qed.
End exact.

Lemma of_int_0 : of_int 0 = S754_zero false.
Proof. done. Qed.

Lemma of_int_compare a b : 0 <= a < 2 ^ 53 -> 0 <= b < 2 ^ 53 -> SFcompare (of_int a) (of_int b) = Some (a ?= b).
Proof.
  intros Ha Hb. destruct (Z.eq_dec a 0) as [->|]; destruct (Z.eq_dec b 0) as [->|].
  - done.
  - rewrite of_int_0, (of_int_pos b) by lia. cbn. by destruct b; [lia| |lia].
  - rewrite of_int_0, (of_int_pos a) by lia. cbn. by destruct a; [lia| |lia].
  - rewrite (of_int_pos a), (of_int_pos b) by lia. cbn [SFcompare]. f_equal.
    destruct (int_log2 a ltac:(lia)) as [Hla Hpa], (int_log2 b ltac:(lia)) as [Hlb Hpb]. unfold int_exp.
    destruct (Z.compare_spec (Z.log2 a - 52) (Z.log2 b - 52)) as [E|E|E].
    + replace (Pos.compare_cont Eq (int_man a) (int_man b)) with (Zpos (int_man a) ?= Zpos (int_man b)) by done.
      rewrite !int_man_eq by lia. replace (Z.log2 b) with (Z.log2 a) by lia.
      pose proof (Z.pow_pos_nonneg 2 (52 - Z.log2 a) ltac:(lia) ltac:(lia)).
      destruct (Z.compare_spec a b); [subst; by rewrite Z.compare_refl|apply Z.compare_lt_iff|apply Z.compare_gt_iff]; nia.
    + symmetry. apply Z.compare_lt_iff. pose proof (Z.log2_le_mono b a). lia.
    + symmetry. apply Z.compare_gt_iff. pose proof (Z.log2_le_mono a b). lia.
Qed.

Lemma flt_int a b : 0 <= a < 2 ^ 53 -> 0 <= b < 2 ^ 53 -> flt (of_int a) (of_int b) = (a <? b).
Proof. intros. unfold flt, SFltb. rewrite of_int_compare by done. by unfold Z.ltb; destruct (a ?= b). Qed.

Lemma fle_int a b : 0 <= a < 2 ^ 53 -> 0 <= b < 2 ^ 53 -> fle (of_int a) (of_int b) = (a <=? b).
Proof. intros. unfold fle, SFleb. rewrite of_int_compare by done. by unfold Z.leb; destruct (a ?= b). Qed.

(** A scaled integer of known exponent normalises to the integer. *)
Lemma scaled_normalize z e m : 0 <= z < 2 ^ 53 -> e <= 0 -> m = z * 2 ^ (- e) ->
  binary_normalize 53 1024 m e false = of_int z.
Proof.
  intros Hz He ->. destruct (Z.eq_dec z 0) as [->|]; [done|].
  pose proof (Z.pow_pos_nonneg 2 (- e) ltac:(lia) ltac:(lia)).
  destruct (z * 2 ^ (- e)) as [|p|p] eqn:E; [nia| |nia]. cbn [binary_normalize].
  rewrite (scaled_round z) by (done || lia). by rewrite of_int_pos by lia.
Qed.

Lemma fsub_int a b : 0 <= b <= a -> a < 2 ^ 53 -> fsub (of_int a) (of_int b) = of_int (a - b).
Proof.
  intros Hb Ha. destruct (Z.eq_dec b 0) as [->|].
  { rewrite Z.sub_0_r, of_int_0. destruct (Z.eq_dec a 0) as [->|]; [done|]. by rewrite (of_int_pos a) by lia. }
  rewrite (of_int_pos a), (of_int_pos b) by lia. unfold fsub, SFsub, cond_Zopp.
  set (e := Z.min (int_exp a) (int_exp b)).
  rewrite (align_int a), (align_int b) by lia. destruct (int_log2 a ltac:(lia)) as [Hl _].
  apply scaled_normalize; [lia|unfold e, int_exp; lia|ring].
Qed.

Lemma fadd_int a b : 0 <= a -> 0 <= b -> a + b < 2 ^ 53 -> fadd (of_int a) (of_int b) = of_int (a + b).
Proof.
  intros Ha Hb Hab. destruct (Z.eq_dec b 0) as [->|].
  { rewrite Z.add_0_r, of_int_0. destruct (Z.eq_dec a 0) as [->|]; [done|]. by rewrite (of_int_pos a) by lia. }
  destruct (Z.eq_dec a 0) as [->|].
  { rewrite Z.add_0_l, of_int_0. by rewrite (of_int_pos b) by lia. }
  rewrite (of_int_pos a), (of_int_pos b) by lia. unfold fadd, SFadd, cond_Zopp.
  set (e := Z.min (int_exp a) (int_exp b)).
  rewrite (align_int a), (align_int b) by lia. destruct (int_log2 a ltac:(lia)) as [Hl _].
  apply scaled_normalize; [lia|unfold e, int_exp; lia|ring].
Qed.

Lemma fmul_zero_int a : 0 < a < 2 ^ 53 -> fmul (of_int 0) (of_int a) = of_int 0.
Proof. intros. by rewrite (of_int_pos a). Qed.

Lemma fmul_int a b : 0 <= a -> 0 <= b -> a < 2 ^ 53 -> b < 2 ^ 53 -> a * b < 2 ^ 53 ->
  fmul (of_int a) (of_int b) = of_int (a * b).
Proof.
  intros Ha Hb Ha' Hb' Hab. destruct (Z.eq_dec a 0) as [->|].
  { destruct (Z.eq_dec b 0) as [->|]; [done|]. by rewrite Z.mul_0_l, fmul_zero_int by lia. }
  destruct (Z.eq_dec b 0) as [->|].
  { rewrite Z.mul_0_r, (of_int_pos a) by lia. done. }
  assert (0 < a * b) by nia.
  rewrite (of_int_pos a), (of_int_pos b), (of_int_pos (a * b)) by lia. unfold fmul, SFmul. cbn [xorb].
  destruct (int_log2 a ltac:(lia)) as [Hla _], (int_log2 b ltac:(lia)) as [Hlb _], (int_log2 (a * b) ltac:(lia)) as [Hl _].
  pose proof (Z.log2_mul_below a b ltac:(lia) ltac:(lia)).
  apply round_aux_exact; [apply int_normal; lia|unfold int_exp; lia|].
  rewrite Pos2Z.inj_mul, !int_man_eq by lia. unfold int_exp.
  transitivity (a * b * 2 ^ (104 - Z.log2 a - Z.log2 b)).
  - replace (104 - Z.log2 a - Z.log2 b) with ((52 - Z.log2 a) + (52 - Z.log2 b)) by lia.
    rewrite Z.pow_add_r by lia. ring.
  - replace (104 - Z.log2 a - Z.log2 b)
      with ((52 - Z.log2 (a * b)) + (Z.log2 (a * b) - 52 - (Z.log2 a - 52 + (Z.log2 b - 52)))) by lia.
    rewrite Z.pow_add_r by lia. ring.
Qed.

(** A whole number of seconds. *)
Lemma Seconds_whole k : 0 <= k < 2 ^ 53 -> Seconds (k * Second) = of_int k.
Proof.
  intros Hk. unfold Seconds. rewrite Z.quot_mul, Z.rem_mul by done.
  replace (fdiv (of_int 0) (of_int Second)) with (of_int 0) by (vm_compute; reflexivity).
  rewrite fadd_int by lia. by rewrite Z.add_0_r.
Qed.

(** ** Fractions of a power of two *)

(** The value [z / 2^k]. *)
Definition dyadic (z k : Z) : float64 := S754_finite false (int_man z) (int_exp z - k).

Lemma int_pow2 k : 0 <= k <= 52 -> int_man (2 ^ k) = Z.to_pos (2 ^ 52) /\ int_exp (2 ^ k) = k - 52.
Proof.
  intros Hk. unfold int_man, int_exp. rewrite Z.log2_pow2 by lia. split; [|lia]. rewrite <- Z.pow_add_r by lia. do 2 f_equal. lia.
Qed.

Lemma div_core_pow2 m1 e1 e2 : 2 ^ 52 <= m1 < 2 ^ 53 -> -900 < e1 - e2 < 900 ->
  SFdiv_core_binary 53 1024 m1 e1 (2 ^ 52) e2 = (m1 * 2, e1 - e2 - 53, loc_Exact).
Proof.
  intros Hm He. unfold SFdiv_core_binary. change (Zdigits2 (2 ^ 52)) with 53.
  assert (Zdigits2 m1 = 53) as -> by (destruct m1 as [|p|p]; [lia| |lia]; cbn [Zdigits2]; apply digits2_pos_unique; [lia|exact Hm]).
  unfold fexp, emin.
  replace (Z.min (Z.max (53 + e1 - (53 + e2) - 53) (3 - 1024 - 53)) (e1 - e2)) with (e1 - e2 - 53) by lia.
  replace (e1 - e2 - (e1 - e2 - 53)) with 53 by lia. cbv zeta iota. rewrite Z.shiftl_mul_pow2 by lia.
  replace (m1 * 2 ^ 53) with (m1 * 2 * 2 ^ 52) by (change (2 ^ 53) with (2 * 2 ^ 52); ring).
  assert (Z.div_eucl (m1 * 2 * 2 ^ 52) (2 ^ 52) = (m1 * 2, 0)) as ->; [|done].
  pose proof (Z.div_mul (m1 * 2) (2 ^ 52) ltac:(lia)) as Hd. pose proof (Z.mod_mul (m1 * 2) (2 ^ 52) ltac:(lia)) as Hr.
  unfold Z.div, Z.modulo in *. destruct (Z.div_eucl (m1 * 2 * 2 ^ 52) (2 ^ 52)). by rewrite Hd, Hr.
Qed.

(** Division by a power of two is exact. *)
Lemma fdiv_pow2 a k : 0 < a < 2 ^ 53 -> 0 <= k <= 52 -> fdiv (of_int a) (of_int (2 ^ k)) = dyadic a k.
Proof.
  intros Ha Hk. assert (0 < 2 ^ k < 2 ^ 53) by (split; [apply Z.pow_pos_nonneg; lia|apply Z.pow_lt_mono_r; lia]).
  rewrite (of_int_pos a), (of_int_pos (2 ^ k)) by lia. destruct (int_pow2 k Hk) as [-> ->].
  unfold fdiv, SFdiv. cbn [xorb]. destruct (int_log2 a Ha) as [Hl _]. destruct (int_normal a Ha) as [Hn1 Hn2].
  change (Zpos (Z.to_pos (2 ^ 52))) with (2 ^ 52). unfold int_exp in *.
  rewrite div_core_pow2 by (done || lia). unfold dyadic, int_exp. apply round_aux_exact; [split; [done|lia]|lia|].
  replace (Z.log2 a - 52 - k - (Z.log2 a - 52 - (k - 52) - 53)) with 1 by lia. lia.
Qed.

(** Multiplying a fraction by an integer is exact when the product, with the
    twos of the integer taken out, fits the mantissa. *)
Lemma fmul_dyadic a k b j : 0 < a < 2 ^ 53 -> 0 < b < 2 ^ 53 -> 0 <= j <= k -> k <= 900 -> 0 < a * b < 2 ^ 53 -> b * 2 ^ j < 2 ^ 53 ->
  fmul (dyadic a k) (of_int (b * 2 ^ j)) = dyadic (a * b) (k - j).
Proof.
  intros Ha Hb Hj Hk Hab Hbj. pose proof (Z.pow_pos_nonneg 2 j ltac:(lia) ltac:(lia)).
  rewrite (of_int_pos (b * 2 ^ j)) by nia. unfold dyadic, fmul, SFmul. cbn [xorb].
  destruct (int_log2 a Ha) as [Hla _], (int_log2 (b * 2 ^ j) ltac:(nia)) as [Hlb _], (int_log2 (a * b) Hab) as [Hl _].
  assert (Z.log2 (b * 2 ^ j) = Z.log2 b + j) as Elb by (rewrite Z.log2_mul_pow2; lia).
  destruct (int_log2 b Hb) as [Hlb' _].
  pose proof (Z.log2_mul_below a b ltac:(lia) ltac:(lia)). destruct (int_normal (a * b) Hab) as [Hn _].
  apply round_aux_exact; [split; [done|unfold int_exp; lia]|unfold int_exp; lia|].
  rewrite Pos2Z.inj_mul, !int_man_eq by nia. unfold int_exp. rewrite Elb.
  replace (Z.log2 (a * b) - 52 - (k - j) - (Z.log2 a - 52 - k + (Z.log2 b + j - 52)))
    with (Z.log2 (a * b) + 52 - Z.log2 a - Z.log2 b) by lia.
  transitivity (a * b * 2 ^ (104 - Z.log2 a - Z.log2 b)).
  - replace (104 - Z.log2 a - Z.log2 b) with ((52 - Z.log2 a) + (j + (52 - (Z.log2 b + j)))) by lia.
    rewrite !Z.pow_add_r by lia. ring.
  - replace (104 - Z.log2 a - Z.log2 b)
      with ((52 - Z.log2 (a * b)) + (Z.log2 (a * b) + 52 - Z.log2 a - Z.log2 b)) by lia.
    rewrite (Z.pow_add_r 2 (52 - Z.log2 (a * b))) by lia. ring.
Qed.

Lemma to_int64_dyadic z k : 0 < z < 2 ^ 53 -> 1 <= k -> to_int64 (dyadic z k) = z / 2 ^ k.
Proof.
  intros Hz Hk. destruct (int_log2 z Hz) as [Hl _]. unfold to_int64, dyadic, int_exp.
  destruct (Z.leb_spec 0 (Z.log2 z - 52 - k)); [lia|].
  assert (Zpos (int_man z) / 2 ^ (- (Z.log2 z - 52 - k)) = z / 2 ^ k) as ->.
  { rewrite int_man_eq by done. replace (- (Z.log2 z - 52 - k)) with (k + (52 - Z.log2 z)) by lia.
    rewrite Z.pow_add_r by lia. apply Z.div_mul_cancel_r; apply Z.pow_nonzero; lia. }
  assert (0 <= z / 2 ^ k <= z).
  { pose proof (Z.pow_pos_nonneg 2 k ltac:(lia) ltac:(lia)). split; [apply Z.div_pos; lia|]. apply Z.div_le_upper_bound; nia. }
  unfold min_int64, max_int64. destruct (Z.leb_spec (- 2 ^ 63) (z / 2 ^ k)); [|lia]. destruct (Z.leb_spec (z / 2 ^ k) (2 ^ 63 - 1)); [done|lia].
Qed.
