(* ===== verification/RateLimiter.v ===== *)
(** * Rate limiting

    Models src/internal/rate_limiter.go: the token bucket, the limiter of NG
    requests with its limits per source address and per call, automatic
    blocking, the cleanup, and the simple limiter by address. Tokens are
    [float64] as in the code. The HTTP middleware, the global instance and the
    statistics map are left out.

    One call of [Allow] reads the clock several times; the model takes one
    reading for the call. [Allow] is the call as it runs alone; the two critical
    sections of [isBlocked], between which other calls may run, are [read_block]
    and [drop_block]. A [range] that deletes from the map it walks takes
    the order of the walk as an argument. *)

From Stdlib Require Import ZArith Lia String SpecFloat.
From stdpp Require Import base numbers list gmap strings.
From S2P Require Import Prelude GoFloat FloatExact.

Local Open Scope Z_scope.
Local Open Scope go_scope.
#[local] Set Warnings "-clear-no-such-hyp,-register-all".

(** ** Data *)

Record RateLimiterConfig := mkRLConfig {
  GlobalRequestsPerSecond : Z;
  GlobalBurstSize : Z;
  PerIPRequestsPerSecond : Z;
  PerIPBurstSize : Z;
  PerCallRequestsPerSecond : Z;
  PerCallBurstSize : Z;
  CleanupInterval : Z;
  EntryTTL : Z;
  BlockDuration : Z }.

Definition DefaultRateLimiterConfig : RateLimiterConfig :=
  mkRLConfig 10000 1000 100 50 10 5 (60 * Second) (300 * Second) (10 * Second).

Record TokenBucket := mkBucket {
  tokens : float64;
  maxTokens : float64;
  refillRate : float64;
  lastRefill : Z }.

Record RateLimitEntry := mkEntry {
  bucket : TokenBucket;
  lastAccess : Z;
  blocked : bool;
  blockedAt : Z;
  requests : Z;
  rejected : Z }.

Record RateLimiterStats := mkStats {
  TotalRequests : Z;
  AllowedRequests : Z;
  RejectedGlobal : Z;
  RejectedPerIP : Z;
  RejectedPerCall : Z;
  RejectedBlocked : Z;
  ActiveIPs : Z;
  ActiveCalls : Z;
  BlockedIPs : Z }.

Record RateLimiter := mkRL {
  config : RateLimiterConfig;
  globalBucket : option TokenBucket;
  ipBuckets : gmap string RateLimitEntry;
  callBuckets : gmap string RateLimitEntry;
  blockedIPs : gmap string Z;
  stats : RateLimiterStats }.
#[export] Instance set_TotalRequests : Setter TotalRequests := fun f r =>
  mkStats (f (TotalRequests r)) (AllowedRequests r) (RejectedGlobal r) (RejectedPerIP r) (RejectedPerCall r) (RejectedBlocked r) (ActiveIPs r) (ActiveCalls r) (BlockedIPs r).
#[export] Instance set_AllowedRequests : Setter AllowedRequests := fun f r =>
  mkStats (TotalRequests r) (f (AllowedRequests r)) (RejectedGlobal r) (RejectedPerIP r) (RejectedPerCall r) (RejectedBlocked r) (ActiveIPs r) (ActiveCalls r) (BlockedIPs r).
#[export] Instance set_RejectedGlobal : Setter RejectedGlobal := fun f r =>
  mkStats (TotalRequests r) (AllowedRequests r) (f (RejectedGlobal r)) (RejectedPerIP r) (RejectedPerCall r) (RejectedBlocked r) (ActiveIPs r) (ActiveCalls r) (BlockedIPs r).
#[export] Instance set_RejectedPerIP : Setter RejectedPerIP := fun f r =>
  mkStats (TotalRequests r) (AllowedRequests r) (RejectedGlobal r) (f (RejectedPerIP r)) (RejectedPerCall r) (RejectedBlocked r) (ActiveIPs r) (ActiveCalls r) (BlockedIPs r).
#[export] Instance set_RejectedPerCall : Setter RejectedPerCall := fun f r =>
  mkStats (TotalRequests r) (AllowedRequests r) (RejectedGlobal r) (RejectedPerIP r) (f (RejectedPerCall r)) (RejectedBlocked r) (ActiveIPs r) (ActiveCalls r) (BlockedIPs r).
#[export] Instance set_RejectedBlocked : Setter RejectedBlocked := fun f r =>
  mkStats (TotalRequests r) (AllowedRequests r) (RejectedGlobal r) (RejectedPerIP r) (RejectedPerCall r) (f (RejectedBlocked r)) (ActiveIPs r) (ActiveCalls r) (BlockedIPs r).
#[export] Instance set_ActiveIPs : Setter ActiveIPs := fun f r =>
  mkStats (TotalRequests r) (AllowedRequests r) (RejectedGlobal r) (RejectedPerIP r) (RejectedPerCall r) (RejectedBlocked r) (f (ActiveIPs r)) (ActiveCalls r) (BlockedIPs r).
#[export] Instance set_ActiveCalls : Setter ActiveCalls := fun f r =>
  mkStats (TotalRequests r) (AllowedRequests r) (RejectedGlobal r) (RejectedPerIP r) (RejectedPerCall r) (RejectedBlocked r) (ActiveIPs r) (f (ActiveCalls r)) (BlockedIPs r).
#[export] Instance set_BlockedIPs : Setter BlockedIPs := fun f r =>
  mkStats (TotalRequests r) (AllowedRequests r) (RejectedGlobal r) (RejectedPerIP r) (RejectedPerCall r) (RejectedBlocked r) (ActiveIPs r) (ActiveCalls r) (f (BlockedIPs r)).
#[export] Instance set_config : Setter config := fun f r =>
  mkRL (f (config r)) (globalBucket r) (ipBuckets r) (callBuckets r) (blockedIPs r) (stats r).
#[export] Instance set_globalBucket : Setter globalBucket := fun f r =>
  mkRL (config r) (f (globalBucket r)) (ipBuckets r) (callBuckets r) (blockedIPs r) (stats r).
#[export] Instance set_ipBuckets : Setter ipBuckets := fun f r =>
  mkRL (config r) (globalBucket r) (f (ipBuckets r)) (callBuckets r) (blockedIPs r) (stats r).
#[export] Instance set_callBuckets : Setter callBuckets := fun f r =>
  mkRL (config r) (globalBucket r) (ipBuckets r) (f (callBuckets r)) (blockedIPs r) (stats r).
#[export] Instance set_blockedIPs : Setter blockedIPs := fun f r =>
  mkRL (config r) (globalBucket r) (ipBuckets r) (callBuckets r) (f (blockedIPs r)) (stats r).
#[export] Instance set_stats : Setter stats := fun f r =>
  mkRL (config r) (globalBucket r) (ipBuckets r) (callBuckets r) (blockedIPs r) (f (stats r)).

Definition inc (n : Z) : Z := u64 (n + 1).
Definition inc64 (n : Z) : Z := i64 (n + 1).
Definition dec64 (n : Z) : Z := i64 (n - 1).

(** ** The token bucket *)

Definition NewTokenBucket (maxTokens refillRate : float64) (now : Z) : TokenBucket :=
  mkBucket maxTokens maxTokens refillRate now.

Definition refill (now : Z) (tb : TokenBucket) : TokenBucket :=
  let elapsed := Seconds (Time_Sub now (lastRefill tb)) in
  let t := fadd (tokens tb) (fmul elapsed (refillRate tb)) in
  mkBucket (if flt (maxTokens tb) t then maxTokens tb else t) (maxTokens tb) (refillRate tb) now.

Definition one : float64 := of_int 1.

Definition bucket_Allow (now : Z) (tb : TokenBucket) : bool * TokenBucket :=
  let tb := refill now tb in
  if fle one (tokens tb)
  then (true, mkBucket (fsub (tokens tb) one) (maxTokens tb) (refillRate tb) (lastRefill tb))
  else (false, tb).

(** ** The limiter *)

Definition NewRateLimiter (cfg : option RateLimiterConfig) (now : Z) : RateLimiter :=
  let c := default DefaultRateLimiterConfig cfg in
  mkRL c
    (if GlobalRequestsPerSecond c >? 0
     then Some (NewTokenBucket (of_int (GlobalBurstSize c)) (of_int (GlobalRequestsPerSecond c)) now)
     else None)
    ∅ ∅ ∅ (mkStats 0 0 0 0 0 0 0 0 0).

(** The entry of a key: an existing one, or a fresh one with a full bucket. *)
Definition entry_of (m : gmap string RateLimitEntry) (key : string) (burst rate now : Z) : RateLimitEntry :=
  match m !! key with
  | Some entry => entry
  | None => mkEntry (NewTokenBucket (of_int burst) (of_int rate) now) now false 0 0 0
  end.

(** [entry.lastAccess = now; entry.requests.Add(1); entry.bucket.Allow()]. *)
Definition use_entry (now : Z) (entry : RateLimitEntry) : bool * RateLimitEntry :=
  let '(ok, tb) := bucket_Allow now (bucket entry) in
  (ok, mkEntry tb now (blocked entry) (blockedAt entry) (inc (requests entry))
         (if ok then rejected entry else inc (rejected entry))).

Definition is_new (m : gmap string RateLimitEntry) (key : string) : bool := bool_decide (m !! key = None).

Definition checkIPLimit (now : Z) (ip : string) (rl : RateLimiter) : bool * RateLimiter :=
  let entry := entry_of (ipBuckets rl) ip (PerIPBurstSize (config rl)) (PerIPRequestsPerSecond (config rl)) now in
  let rl := if is_new (ipBuckets rl) ip then rl <| stats ::= fun st => st <| ActiveIPs ::= inc64 |> |> else rl in
  let '(ok, entry) := use_entry now entry in
  (ok, rl <| ipBuckets ::= <[ip := entry]> |>).

Definition checkCallLimit (now : Z) (callID : string) (rl : RateLimiter) : bool * RateLimiter :=
  let entry := entry_of (callBuckets rl) callID (PerCallBurstSize (config rl)) (PerCallRequestsPerSecond (config rl)) now in
  let rl := if is_new (callBuckets rl) callID then rl <| stats ::= fun st => st <| ActiveCalls ::= inc64 |> |> else rl in
  let '(ok, entry) := use_entry now entry in
  (ok, rl <| callBuckets ::= <[callID := entry]> |>).

(** [isBlocked] in its two critical sections: reading the block, and, when it
    has expired, removing it. *)
Inductive block_state := NotBlocked | Expired | Blocked.
Definition read_block (now : Z) (ip : string) (rl : RateLimiter) : block_state :=
  match blockedIPs rl !! ip with
  | None => NotBlocked
  | Some at_ => if Time_Sub now at_ >? BlockDuration (config rl) then Expired else Blocked
  end.
Definition drop_block (ip : string) (rl : RateLimiter) : RateLimiter :=
  rl <| blockedIPs ::= delete ip |> <| stats ::= fun st => st <| BlockedIPs ::= dec64 |> |>.
Definition isBlocked (now : Z) (ip : string) (rl : RateLimiter) : bool * RateLimiter :=
  match read_block now ip rl with
  | NotBlocked => (false, rl)
  | Expired => (false, drop_block ip rl)
  | Blocked => (true, rl)
  end.

Definition half : float64 := lit 1 2.

Definition maybeBlockIP (now : Z) (ip : string) (rl : RateLimiter) : RateLimiter :=
  match ipBuckets rl !! ip with
  | None => rl
  | Some entry =>
      if (requests entry >? 10) && flt half (fdiv (of_int (rejected entry)) (of_int (requests entry)))
      then rl <| blockedIPs ::= <[ip := now]> |> <| stats ::= fun st => st <| BlockedIPs ::= inc64 |> |>
      else rl
  end.

Definition count (f : RateLimiterStats -> RateLimiterStats) (rl : RateLimiter) : RateLimiter := rl <| stats ::= f |>.

(** The check against the bucket for all requests, when there is one. *)
Definition check_global (now : Z) (rl : RateLimiter) : bool * RateLimiter :=
  match globalBucket rl with
  | None => (true, rl)
  | Some g => let '(ok, g) := bucket_Allow now g in (ok, rl <| globalBucket := Some g |>)
  end.

Definition Allow (now : Z) (ip callID : string) (rl : RateLimiter) : bool * RateLimiter :=
  let rl := count (fun st => st <| TotalRequests ::= inc |>) rl in
  let '(isblocked, rl) := isBlocked now ip rl in
  if isblocked then (false, count (fun st => st <| RejectedBlocked ::= inc |>) rl)
  else
    let '(ok, rl) := check_global now rl in
    if negb ok then (false, count (fun st => st <| RejectedGlobal ::= inc |>) rl)
    else
      let '(ok, rl) := if PerIPRequestsPerSecond (config rl) >? 0 then checkIPLimit now ip rl else (true, rl) in
      if negb ok then (false, maybeBlockIP now ip (count (fun st => st <| RejectedPerIP ::= inc |>) rl))
      else
        let '(ok, rl) := if (PerCallRequestsPerSecond (config rl) >? 0) && negb (bool_decide (callID = EmptyString))
                         then checkCallLimit now callID rl else (true, rl) in
        if negb ok then (false, count (fun st => st <| RejectedPerCall ::= inc |>) rl)
        else (true, count (fun st => st <| AllowedRequests ::= inc |>) rl).

Definition AllowIP (now : Z) (ip : string) (rl : RateLimiter) : bool * RateLimiter := Allow now ip EmptyString rl.

Definition BlockIP (now : Z) (ip : string) (rl : RateLimiter) : RateLimiter :=
  let rl := match blockedIPs rl !! ip with
            | None => count (fun st => st <| BlockedIPs ::= inc64 |>) rl
            | Some _ => rl
            end in
  rl <| blockedIPs ::= <[ip := now]> |>.

Definition UnblockIP (ip : string) (rl : RateLimiter) : RateLimiter :=
  match blockedIPs rl !! ip with
  | Some _ => drop_block ip rl
  | None => rl
  end.

(** A loop that deletes the stale entries of the map it walks and counts each
    down, visiting the keys in the order [ids]. *)
Fixpoint sweep {V : Type} (stale : V -> bool) (ids : list string) (m : gmap string V) (active : Z) : gmap string V * Z :=
  match ids with
  | [] => (m, active)
  | id :: ids =>
      match m !! id with
      | Some v => if stale v then sweep stale ids (delete id m) (dec64 active) else sweep stale ids m active
      | None => sweep stale ids m active
      end
  end.

Definition cleanup (now : Z) (ips calls blocks : list string) (rl : RateLimiter) : RateLimiter :=
  let ttl := EntryTTL (config rl) in
  let old e := Time_Sub now (lastAccess e) >? ttl in
  let '(m, n) := sweep old ips (ipBuckets rl) (ActiveIPs (stats rl)) in
  let rl := rl <| ipBuckets := m |> <| stats ::= fun st => st <| ActiveIPs := n |> |> in
  let '(m, n) := sweep old calls (callBuckets rl) (ActiveCalls (stats rl)) in
  let rl := rl <| callBuckets := m |> <| stats ::= fun st => st <| ActiveCalls := n |> |> in
  let '(m, n) := sweep (fun t => Time_Sub now t >? BlockDuration (config rl)) blocks (blockedIPs rl) (BlockedIPs (stats rl)) in
  rl <| blockedIPs := m |> <| stats ::= fun st => st <| BlockedIPs := n |> |>.

(** In the order of the map's iteration. *)
Definition GetBlockedIPs (ips : list string) (rl : RateLimiter) : list string :=
  filter (fun ip => is_Some (blockedIPs rl !! ip)) ips.

Definition Reset (rl : RateLimiter) : RateLimiter :=
  rl <| ipBuckets := ∅ |> <| callBuckets := ∅ |> <| blockedIPs := ∅ |>
     <| stats ::= fun st => st <| ActiveIPs := 0 |> <| ActiveCalls := 0 |> <| BlockedIPs := 0 |> |>.

(** ** The limiter by address *)

Record IPRateLimiter := mkIPRL {
  requestsPerSecond : Z;
  burstSize : Z;
  buckets : gmap string TokenBucket }.

Definition NewIPRateLimiter (requestsPerSecond burstSize : Z) : IPRateLimiter := mkIPRL requestsPerSecond burstSize ∅.

Definition ip_Allow (now : Z) (ip : string) (rl : IPRateLimiter) : bool * IPRateLimiter :=
  let tb := default (NewTokenBucket (of_int (burstSize rl)) (of_int (requestsPerSecond rl)) now) (buckets rl !! ip) in
  let '(ok, tb) := bucket_Allow now tb in
  (ok, mkIPRL (requestsPerSecond rl) (burstSize rl) (<[ip := tb]> (buckets rl))).

(** ** Operations as steps *)

Inductive rl_op :=
| OpAllow (now : Z) (ip callID : string)
| OpBlockIP (now : Z) (ip : string)
| OpUnblockIP (ip : string)
| OpCleanup (now : Z) (ips calls blocks : list string)
| OpReset.

Definition rl_step (rl : RateLimiter) (o : rl_op) : RateLimiter :=
  match o with
  | OpAllow now ip callID => (Allow now ip callID rl).2
  | OpBlockIP now ip => BlockIP now ip rl
  | OpUnblockIP ip => UnblockIP ip rl
  | OpCleanup now ips calls blocks => cleanup now ips calls blocks rl
  | OpReset => Reset rl
  end.
Definition rl_run (rl : RateLimiter) (ops : list rl_op) : RateLimiter := foldl rl_step rl ops.

(** The answers to [n] requests of one client at one instant. *)
Fixpoint burst (n : nat) (now : Z) (ip callID : string) (rl : RateLimiter) : list bool * RateLimiter :=
  match n with
  | O => ([], rl)
  | S n =>
      let '(ok, rl) := Allow now ip callID rl in
      let '(oks, rl) := burst n now ip callID rl in
      (ok :: oks, rl)
  end.

Example burst_ex :
  let '(oks, rl) := burst 102 0 "10.0.0.1" "" (NewRateLimiter None 0) in
  oks = replicate 50 true ++ replicate 52 false /\
  (RejectedPerIP (stats rl), RejectedBlocked (stats rl), BlockedIPs (stats rl)) = (51, 1, 1).
Proof. vm_compute. split; reflexivity. Qed.

(** ** Specification *)

(** A gauge of the size of a map. *)
Definition gauges {V : Type} (n : Z) (m : gmap string V) : Prop := n = i64 (Z.of_nat (size m)).

Record gauges_ok (rl : RateLimiter) : Prop := {
  ok_ips : gauges (ActiveIPs (stats rl)) (ipBuckets rl);
  ok_calls : gauges (ActiveCalls (stats rl)) (callBuckets rl);
  ok_blocked : gauges (BlockedIPs (stats rl)) (blockedIPs rl)
}.

Definition counters (st : RateLimiterStats) : Z * Z * Z * Z * Z * Z :=
  (TotalRequests st, AllowedRequests st, RejectedGlobal st, RejectedPerIP st, RejectedPerCall st, RejectedBlocked st).

(** What should become of a request, by the state it finds: an address still
    blocked, the limit for all requests, for the address and for the call, in
    this order. *)
Inductive verdict := VBlocked | VGlobal | VPerIP | VPerCall | VAllowed.
#[export] Instance verdict_eq_dec : EqDecision verdict.
Proof. solve_decision. Defined.

(** What a bucket holds at a time: what it held and what came in since, up to its
    size. It has a token when that is at least one, and a request checked against it
    takes one if there is one. *)
Definition held (now : Z) (tb : TokenBucket) : float64 :=
  let sum := fadd (tokens tb) (fmul (Seconds (Time_Sub now (lastRefill tb))) (refillRate tb)) in
  match SFcompare (maxTokens tb) sum with Some Lt => maxTokens tb | _ => sum end.
Definition has_token (now : Z) (tb : TokenBucket) : bool :=
  match SFcompare (of_int 1) (held now tb) with Some (Lt | Eq) => true | _ => false end.
Definition spent (now : Z) (tb : TokenBucket) : TokenBucket :=
  mkBucket (if has_token now tb then fsub (held now tb) (of_int 1) else held now tb) (maxTokens tb) (refillRate tb) now.

(** A key not seen yet counts with a full bucket. *)
Definition bucket_of (now : Z) (m : gmap string RateLimitEntry) (key : string) (burst rate : Z) : TokenBucket :=
  match m !! key with Some e => bucket e | None => mkBucket (of_int burst) (of_int burst) (of_int rate) now end.
Definition key_has_token (now : Z) (m : gmap string RateLimitEntry) (key : string) (burst rate : Z) : bool :=
  has_token now (bucket_of now m key burst rate).

Definition still_blocked (now : Z) (ip : string) (rl : RateLimiter) : bool :=
  match blockedIPs rl !! ip with Some t => Time_Sub now t <=? BlockDuration (config rl) | None => false end.

Definition verdict_of (now : Z) (ip callID : string) (rl : RateLimiter) : verdict :=
  let c := config rl in
  if still_blocked now ip rl then VBlocked
  else if match globalBucket rl with Some g => negb (has_token now g) | None => false end then VGlobal
  else if (0 <? PerIPRequestsPerSecond c) &&
          negb (key_has_token now (ipBuckets rl) ip (PerIPBurstSize c) (PerIPRequestsPerSecond c)) then VPerIP
  else if bool_decide (callID <> EmptyString) && (0 <? PerCallRequestsPerSecond c) &&
          negb (key_has_token now (callBuckets rl) callID (PerCallBurstSize c) (PerCallRequestsPerSecond c)) then VPerCall
  else VAllowed.

(** The buckets a request was checked against gave a token if they had one: that for
    all requests unless the address was blocked, that of the address when the first
    let it pass, that of the call when both did; the others are as they were. *)
Definition charged (now : Z) (ip callID : string) (rl rl' : RateLimiter) : Prop :=
  let c := config rl in
  let v := verdict_of now ip callID rl in
  globalBucket rl' = (if bool_decide (v = VBlocked) then globalBucket rl else spent now <$> globalBucket rl) /\
  bucket <$> ipBuckets rl' !! ip =
    (if (0 <? PerIPRequestsPerSecond c) && negb (bool_decide (v = VBlocked \/ v = VGlobal))
     then Some (spent now (bucket_of now (ipBuckets rl) ip (PerIPBurstSize c) (PerIPRequestsPerSecond c)))
     else bucket <$> ipBuckets rl !! ip) /\
  bucket <$> callBuckets rl' !! callID =
    (if bool_decide (callID <> EmptyString) && (0 <? PerCallRequestsPerSecond c) && bool_decide (v = VPerCall \/ v = VAllowed)
     then Some (spent now (bucket_of now (callBuckets rl) callID (PerCallBurstSize c) (PerCallRequestsPerSecond c)))
     else bucket <$> callBuckets rl !! callID).

(** The requests of a run: what each should become, and what it was answered. *)
Fixpoint rl_requests (rl : RateLimiter) (ops : list rl_op) : list (verdict * bool) :=
  match ops with
  | [] => []
  | o :: ops =>
      match o with
      | OpAllow now ip callID => [(verdict_of now ip callID rl, (Allow now ip callID rl).1)]
      | _ => []
      end ++ rl_requests (rl_step rl o) ops
  end.

Definition tally (v : verdict) (vs : list verdict) : Z := Z.of_nat (length (filter (.= v) vs)).

(** ** Lemmas *)

Section gauges.
Context {V : Type}.
Implicit Types (m : gmap string V).

Lemma gauges_insert_new n m k v : m !! k = None -> gauges n m -> gauges (inc64 n) (<[k := v]> m).
Proof.
  unfold gauges, inc64. intros Hk ->. rewrite map_size_insert_None, wraps_add_l by (done || lia). f_equal. lia.
Qed.

Lemma gauges_insert_old n m k v : is_Some (m !! k) -> gauges n m -> gauges n (<[k := v]> m).
Proof. unfold gauges. intros Hk ->. by rewrite map_size_insert_Some. Qed.

Lemma gauges_delete n m k v : m !! k = Some v -> gauges n m -> gauges (dec64 n) (delete k m).
Proof.
  unfold gauges, dec64. intros Hk ->. assert (is_Some (m !! k)) as Hs by (by exists v).
  pose proof (map_size_ne_0_lookup_2 m k Hs).
  rewrite (map_size_delete_Some k m Hs), <- Z.add_opp_r, wraps_add_l by lia. f_equal. lia.
Qed.

Lemma sweep_spec stale ids m n :
  gauges n m ->
  let '(m', n') := sweep stale ids m n in
  gauges n' m' /\
  forall k, m' !! k = match m !! k with Some v => if bool_decide (k ∈ ids) && stale v then None else Some v | None => None end.
Proof.
  revert m n. induction ids as [|id ids IH]; intros m n Hg; cbn [sweep].
  { split; [done|]. intros k. by destruct (m !! k). }
  assert (forall k v, m !! k = Some v -> k <> id \/ stale v = false ->
    (bool_decide (k ∈ id :: ids) && stale v) = (bool_decide (k ∈ ids) && stale v)) as Hcons.
  { intros k v _ Hd. destruct (stale v) eqn:Ev; [|by rewrite !andb_false_r]. rewrite !andb_true_r.
    apply bool_decide_ext. set_solver. }
  destruct (m !! id) as [v|] eqn:Ei; [destruct (stale v) eqn:Ev|].
  - specialize (IH (delete id m) (dec64 n) (gauges_delete _ _ _ _ Ei Hg)).
    destruct (sweep stale ids (delete id m) (dec64 n)) as [m' n']. destruct IH as [IH1 IH2]. split; [done|].
    intros k. rewrite IH2. destruct (decide (k = id)) as [->|Hne].
    + rewrite lookup_delete_eq, Ei, Ev, bool_decide_eq_true_2 by left. done.
    + rewrite lookup_delete_ne by done. destruct (m !! k) eqn:Ek; [|done]. rewrite (Hcons k) by auto. done.
  - specialize (IH m n Hg). destruct (sweep stale ids m n) as [m' n']. destruct IH as [IH1 IH2]. split; [done|].
    intros k. rewrite IH2. destruct (m !! k) eqn:Ek; [|done]. rewrite (Hcons k); [done..|].
    destruct (decide (k = id)) as [->|]; [right; congruence|by left].
  - specialize (IH m n Hg). destruct (sweep stale ids m n) as [m' n']. destruct IH as [IH1 IH2]. split; [done|].
    intros k. rewrite IH2. destruct (m !! k) eqn:Ek; [|done]. rewrite (Hcons k); [done..|]. left. congruence.
Qed.
End gauges.

Lemma u64_add_l x y : u64 (u64 x + y) = u64 (x + y).
Proof. unfold wrapu. apply Zplus_mod_idemp_l. Qed.

(** The checks keep the gauges and touch no request counter. *)
Definition checked (rl rl' : RateLimiter) : Prop :=
  (gauges_ok rl -> gauges_ok rl') /\ counters (stats rl') = counters (stats rl) /\ config rl' = config rl.

Lemma checked_refl rl : checked rl rl.
Proof. done. Qed.

Lemma isBlocked_checked now ip rl :
  let '(b, rl') := isBlocked now ip rl in
  checked rl rl' /\ (b = false -> blockedIPs rl' !! ip = None).
Proof.
  unfold isBlocked, read_block. destruct (blockedIPs rl !! ip) as [t|] eqn:E; [|done].
  destruct (_ >? _); [|done]. split; [|intros _; cbn; by rewrite lookup_delete_eq].
  split; [|done]. intros [H1 H2 H3]; split; try done. by apply (gauges_delete _ _ _ t).
Qed.

Lemma check_global_checked now rl :
  let '(b, rl') := check_global now rl in checked rl rl' /\ blockedIPs rl' = blockedIPs rl.
Proof.
  unfold check_global. destruct (globalBucket rl); [|done]. destruct (bucket_Allow now t).
  split; [|done]. split; [|done]. intros [H1 H2 H3]. by split.
Qed.

Definition keeps_blocks (rl rl' : RateLimiter) : Prop := checked rl rl' /\ blockedIPs rl' = blockedIPs rl.

Lemma optional_checked (b : bool) rl (p : bool * RateLimiter) :
  keeps_blocks rl p.2 -> keeps_blocks rl (if b then p else (true, rl)).2.
Proof. by destruct b. Qed.

Lemma checkIPLimit_checked now ip rl : keeps_blocks rl (checkIPLimit now ip rl).2.
Proof.
  unfold keeps_blocks, checkIPLimit, is_new. destruct (use_entry _ _) as [b entry]. case_bool_decide as E; (split; [|done]).
  all: split; [|done]. all: intros [H1 H2 H3]; split; try done.
  - by apply gauges_insert_new.
  - apply gauges_insert_old; [by apply not_eq_None_Some|done].
Qed.

Lemma checkCallLimit_checked now callID rl : keeps_blocks rl (checkCallLimit now callID rl).2.
Proof.
  unfold keeps_blocks, checkCallLimit, is_new. destruct (use_entry _ _) as [b entry]. case_bool_decide as E; (split; [|done]).
  all: split; [|done]. all: intros [H1 H2 H3]; split; try done.
  - by apply gauges_insert_new.
  - apply gauges_insert_old; [by apply not_eq_None_Some|done].
Qed.

Lemma maybeBlockIP_checked now ip rl : blockedIPs rl !! ip = None -> checked rl (maybeBlockIP now ip rl).
Proof.
  intros E. unfold maybeBlockIP. destruct (ipBuckets rl !! ip); [|done]. destruct (_ && _); [|done].
  split; [|done]. intros [H1 H2 H3]. split; try done. by apply gauges_insert_new.
Qed.

(** ** Guarantees *)

Lemma bucket_Allow_spent now tb : bucket_Allow now tb = (has_token now tb, spent now tb).
Proof.
  unfold bucket_Allow, spent, has_token, held, refill, fle, flt, SFleb, SFltb, one. cbn [tokens maxTokens refillRate lastRefill].
  set (sum := fadd _ _). destruct (SFcompare (maxTokens tb) sum) as [[]|];
    (destruct (SFcompare (of_int 1) _) as [[]|]; reflexivity).
Qed.

Lemma bucket_Allow_has_token now tb : (bucket_Allow now tb).1 = has_token now tb.
Proof. by rewrite bucket_Allow_spent. Qed.

Lemma entry_of_bucket now m key burst rate : bucket (entry_of m key burst rate now) = bucket_of now m key burst rate.
Proof. unfold entry_of, bucket_of. by destruct (m !! key). Qed.

Lemma use_entry_spent now entry : bucket (use_entry now entry).2 = spent now (bucket entry).
Proof. unfold use_entry. by rewrite bucket_Allow_spent. Qed.

Lemma use_entry_token now m key burst rate :
  (use_entry now (entry_of m key burst rate now)).1 = key_has_token now m key burst rate.
Proof. unfold use_entry, key_has_token. by rewrite bucket_Allow_spent, entry_of_bucket. Qed.

(** What each check answers, and that it leaves what the later ones read. *)
Lemma isBlocked_answer now ip rl :
  let '(b, rl') := isBlocked now ip rl in
  b = still_blocked now ip rl /\ globalBucket rl' = globalBucket rl /\
  ipBuckets rl' = ipBuckets rl /\ callBuckets rl' = callBuckets rl.
Proof.
  unfold isBlocked, read_block, still_blocked. destruct (blockedIPs rl !! ip) as [t|]; [|done].
  rewrite Z.gtb_ltb, Z.ltb_antisym. by destruct (_ <=? _).
Qed.

Lemma check_global_answer now rl :
  let '(b, rl') := check_global now rl in
  b = negb (match globalBucket rl with Some g => negb (has_token now g) | None => false end) /\
  ipBuckets rl' = ipBuckets rl /\ callBuckets rl' = callBuckets rl.
Proof.
  unfold check_global. destruct (globalBucket rl) as [g|]; [|done].
  rewrite <- bucket_Allow_has_token, negb_involutive. by destruct (bucket_Allow now g).
Qed.

Lemma checkIPLimit_answer now ip rl :
  let c := config rl in
  (checkIPLimit now ip rl).1 = key_has_token now (ipBuckets rl) ip (PerIPBurstSize c) (PerIPRequestsPerSecond c) /\
  callBuckets (checkIPLimit now ip rl).2 = callBuckets rl.
Proof.
  cbv zeta. rewrite <- use_entry_token. unfold checkIPLimit. destruct (use_entry _ _). split; [done|].
  by destruct (is_new _ _).
Qed.

Lemma checkCallLimit_answer now callID rl :
  let c := config rl in
  (checkCallLimit now callID rl).1 =
  key_has_token now (callBuckets rl) callID (PerCallBurstSize c) (PerCallRequestsPerSecond c).
Proof. cbv zeta. rewrite <- use_entry_token. unfold checkCallLimit. by destruct (use_entry _ _). Qed.

Lemma checked_trans rl1 rl2 rl3 : checked rl1 rl2 -> checked rl2 rl3 -> checked rl1 rl3.
Proof. intros (H1 & H2 & H3) (H4 & H5 & H6). split; [auto|]. split; congruence. Qed.

(** The counter of each verdict. *)
Definition on_verdict (v : verdict) : RateLimiterStats -> RateLimiterStats :=
  match v with
  | VBlocked => fun st => st <| RejectedBlocked ::= inc |>
  | VGlobal => fun st => st <| RejectedGlobal ::= inc |>
  | VPerIP => fun st => st <| RejectedPerIP ::= inc |>
  | VPerCall => fun st => st <| RejectedPerCall ::= inc |>
  | VAllowed => fun st => st <| AllowedRequests ::= inc |>
  end.

(** A request counted [v], answered accordingly, with the gauges kept. *)
Definition settled (v : verdict) (rl : RateLimiter) (p : bool * RateLimiter) : Prop :=
  p.1 = bool_decide (v = VAllowed) /\ (gauges_ok rl -> gauges_ok p.2) /\
  counters (stats p.2) = counters (on_verdict v (stats rl)).

Lemma settle v rl rl' : checked rl rl' -> settled v rl (bool_decide (v = VAllowed), count (on_verdict v) rl').
Proof.
  intros (Hg & Hc & _). split; [done|]. split.
  - intros [H1 H2 H3]%Hg. split; by destruct v.
  - unfold counters in *. injection Hc as E1 E2 E3 E4 E5 E6. destruct v; cbn; congruence.
Qed.

(** The last check, for the call. *)
Lemma call_settled now callID rl rl3 :
  let c := config rl3 in
  checked rl rl3 ->
  settled (if bool_decide (callID <> EmptyString) && (0 <? PerCallRequestsPerSecond c) &&
              negb (key_has_token now (callBuckets rl3) callID (PerCallBurstSize c) (PerCallRequestsPerSecond c))
           then VPerCall else VAllowed) rl
    (let '(ok, rl) := if (PerCallRequestsPerSecond c >? 0) && negb (bool_decide (callID = EmptyString))
                      then checkCallLimit now callID rl3 else (true, rl3) in
     if negb ok then (false, count (fun st => st <| RejectedPerCall ::= inc |>) rl)
     else (true, count (fun st => st <| AllowedRequests ::= inc |>) rl)).
Proof.
  cbv zeta. intros H. rewrite Z.gtb_ltb, bool_decide_not, (andb_comm (negb _)).
  destruct ((0 <? _) && negb _); [|by apply (settle VAllowed)]. cbn [andb].
  destruct (checkCallLimit_checked now callID rl3) as [H4 _]. rewrite <- (checkCallLimit_answer now callID rl3).
  pose proof (checked_trans _ _ _ H H4) as H'. destruct (checkCallLimit now callID rl3) as [[] rl4]; cbn [negb fst snd] in *.
  - by apply (settle VAllowed).
  - by apply (settle VPerCall).
Qed.

(** A refusal by the limit for the address, which may block it. *)
Lemma refused_settled now ip rl rl' :
  checked rl rl' -> blockedIPs rl' !! ip = None ->
  settled VPerIP rl (false, maybeBlockIP now ip (count (fun st => st <| RejectedPerIP ::= inc |>) rl')).
Proof.
  intros H E. destruct (settle VPerIP rl rl' H) as (_ & Hg & Hc). cbn [snd] in *.
  destruct (maybeBlockIP_checked now ip (count (fun st => st <| RejectedPerIP ::= inc |>) rl') E) as (Hk & Hm & _).
  split; [done|]. split; [auto|]. cbn [snd]. by rewrite Hm.
Qed.

(** One request is answered and counted by its verdict. *)
Lemma Allow_settled now ip callID rl :
  settled (verdict_of now ip callID rl) (count (fun st => st <| TotalRequests ::= inc |>) rl) (Allow now ip callID rl).
Proof.
  unfold Allow. set (rl0 := count _ rl). change (verdict_of now ip callID rl) with (verdict_of now ip callID rl0).
  clearbody rl0. clear rl. unfold verdict_of.
  pose proof (isBlocked_checked now ip rl0) as H1. pose proof (isBlocked_answer now ip rl0) as A1.
  destruct (isBlocked now ip rl0) as [b rl1]. destruct H1 as [H1 Hb], A1 as (<- & Eg & Ei & Ec).
  destruct b; [by apply (settle VBlocked)|]. specialize (Hb eq_refl).
  pose proof (check_global_checked now rl1) as H2. pose proof (check_global_answer now rl1) as A2.
  destruct (check_global now rl1) as [b rl2]. destruct H2 as [H2 Hb2], A2 as (-> & Ei2 & Ec2). rewrite Eg.
  pose proof (checked_trans _ _ _ H1 H2) as H. rewrite <- Hb2 in Hb. clear H1 H2 Hb2.
  destruct (match globalBucket rl0 with Some _ => _ | None => _ end); [by apply (settle VGlobal)|]. cbn [negb].
  assert (config rl2 = config rl0) as Hc by apply H. rewrite <- Hc, <- Ei, <- Ei2, <- Ec, <- Ec2, Z.gtb_ltb.
  destruct (0 <? PerIPRequestsPerSecond (config rl2)); [|by apply call_settled]. cbn [andb].
  destruct (checkIPLimit_answer now ip rl2) as [A3 Ec3], (checkIPLimit_checked now ip rl2) as [H3 Hb3].
  rewrite <- A3, <- Ec3. pose proof (checked_trans _ _ _ H H3) as H'. assert (config (checkIPLimit now ip rl2).2 = config rl2) as Hc3 by apply H3. rewrite <- Hc3.
  destruct (checkIPLimit now ip rl2) as [[] rl3]; cbn [negb fst snd] in *; [by apply call_settled|].
  apply refused_settled; [done|]. by rewrite Hb3.
Qed.

(** What each check leaves in the buckets. *)
Lemma isBlocked_buckets now ip rl (rl' := (isBlocked now ip rl).2) :
  config rl' = config rl /\ globalBucket rl' = globalBucket rl /\ ipBuckets rl' = ipBuckets rl /\ callBuckets rl' = callBuckets rl.
Proof. unfold rl', isBlocked. by destruct (read_block now ip rl). Qed.

Lemma check_global_buckets now rl (rl' := (check_global now rl).2) :
  config rl' = config rl /\ globalBucket rl' = spent now <$> globalBucket rl /\ ipBuckets rl' = ipBuckets rl /\ callBuckets rl' = callBuckets rl.
Proof.
  unfold rl', check_global. destruct (globalBucket rl) as [g|] eqn:E; [by rewrite bucket_Allow_spent|]. cbn. by rewrite E.
Qed.

Lemma checkIPLimit_buckets now ip rl (rl' := (checkIPLimit now ip rl).2) (c := config rl) :
  config rl' = config rl /\ globalBucket rl' = globalBucket rl /\ callBuckets rl' = callBuckets rl /\
  bucket <$> ipBuckets rl' !! ip = Some (spent now (bucket_of now (ipBuckets rl) ip (PerIPBurstSize c) (PerIPRequestsPerSecond c))).
Proof.
  unfold rl', c, checkIPLimit. rewrite <- entry_of_bucket, <- use_entry_spent.
  destruct (use_entry _ _) as [ok entry]. cbn [snd]. destruct (is_new _ _); cbn; by rewrite lookup_insert_eq.
Qed.

Lemma checkCallLimit_buckets now callID rl (rl' := (checkCallLimit now callID rl).2) (c := config rl) :
  globalBucket rl' = globalBucket rl /\ ipBuckets rl' = ipBuckets rl /\
  bucket <$> callBuckets rl' !! callID = Some (spent now (bucket_of now (callBuckets rl) callID (PerCallBurstSize c) (PerCallRequestsPerSecond c))).
Proof.
  unfold rl', c, checkCallLimit. rewrite <- entry_of_bucket, <- use_entry_spent.
  destruct (use_entry _ _) as [ok entry]. cbn [snd]. destruct (is_new _ _); cbn; by rewrite lookup_insert_eq.
Qed.

Lemma maybeBlockIP_buckets now ip rl (rl' := maybeBlockIP now ip rl) :
  globalBucket rl' = globalBucket rl /\ ipBuckets rl' = ipBuckets rl /\ callBuckets rl' = callBuckets rl.
Proof. unfold rl', maybeBlockIP. destruct (ipBuckets rl !! ip); [|done]. by destruct (_ && _). Qed.

Lemma call_charged now callID rl (c := config rl) :
  let p := (let '(ok, rl) := if (PerCallRequestsPerSecond c >? 0) && negb (bool_decide (callID = EmptyString))
                             then checkCallLimit now callID rl else (true, rl) in
            if negb ok then (false, count (fun st => st <| RejectedPerCall ::= inc |>) rl)
            else (true, count (fun st => st <| AllowedRequests ::= inc |>) rl)) in
  globalBucket p.2 = globalBucket rl /\ ipBuckets p.2 = ipBuckets rl /\
  bucket <$> callBuckets p.2 !! callID =
    (if bool_decide (callID <> EmptyString) && (0 <? PerCallRequestsPerSecond c)
     then Some (spent now (bucket_of now (callBuckets rl) callID (PerCallBurstSize c) (PerCallRequestsPerSecond c)))
     else bucket <$> callBuckets rl !! callID).
Proof.
  cbv zeta. rewrite Z.gtb_ltb, bool_decide_not, (andb_comm (negb _)). destruct ((0 <? _) && negb _); [|done].
  pose proof (checkCallLimit_buckets now callID rl) as H. by destruct (checkCallLimit now callID rl) as [[] rl'].
Qed.

Lemma Allow_charged now ip callID rl : charged now ip callID rl (Allow now ip callID rl).2.
Proof.
  unfold charged, verdict_of, Allow. cbv zeta. set (rl0 := count _ rl).
  change (config rl) with (config rl0). change (globalBucket rl) with (globalBucket rl0).
  change (ipBuckets rl) with (ipBuckets rl0). change (callBuckets rl) with (callBuckets rl0).
  change (still_blocked now ip rl) with (still_blocked now ip rl0). clearbody rl0. clear rl.
  pose proof (isBlocked_answer now ip rl0) as A1. pose proof (isBlocked_buckets now ip rl0) as B1.
  destruct (isBlocked now ip rl0) as [b rl1]. destruct A1 as [<- _]. cbn [snd] in B1. destruct B1 as (C1 & G1 & I1 & K1).
  destruct b; [cbn; by rewrite G1, I1, K1, !andb_false_r|].
  pose proof (check_global_answer now rl1) as A2. pose proof (check_global_buckets now rl1) as B2.
  destruct (check_global now rl1) as [b rl2]. destruct A2 as [-> _]. cbn [snd] in B2. destruct B2 as (C2 & G2 & I2 & K2).
  rewrite G1 in *. rewrite I1 in *. rewrite K1 in *. rewrite C1 in *.
  destruct (match globalBucket rl0 with Some _ => _ | None => _ end); [cbn; by rewrite G2, I2, K2, !andb_false_r|]. cbn [negb].
  rewrite <- G2, <- I2, <- K2, <- C2, !Z.gtb_ltb. clear.
  destruct (0 <? PerIPRequestsPerSecond (config rl2)); cbn [andb].
  - pose proof (checkIPLimit_answer now ip rl2) as [A3 _]. pose proof (checkIPLimit_buckets now ip rl2) as (C3 & G3 & K3 & I3).
    rewrite <- A3, <- I3, <- K3, <- C3, <- G3. destruct (checkIPLimit now ip rl2) as [[] rl3]; cbn [negb fst snd] in *.
    + destruct (call_charged now callID rl3) as (G & I & K). set (k := negb (key_has_token _ _ _ _ _)).
      cbv zeta in *. rewrite G, I, K. destruct (bool_decide (callID <> EmptyString) && _), k; done.
    + destruct (maybeBlockIP_buckets now ip (count (fun st => st <| RejectedPerIP ::= inc |>) rl3)) as (G & I & K).
      rewrite G, I, K. cbn. by rewrite andb_false_r.
  - destruct (call_charged now callID rl2) as (G & I & K). set (k := negb (key_has_token _ _ _ _ _)).
    cbv zeta in *. cbn [negb]. rewrite G, I, K. destruct (bool_decide (callID <> EmptyString) && _), k; done.
Qed.



Lemma gauges_empty {V : Type} : gauges 0 (∅ : gmap string V).
Proof. unfold gauges. by rewrite map_size_empty. Qed.

(** The counters of a list of verdicts. *)
Definition books (vs : list verdict) : Z * Z * Z * Z * Z * Z :=
  (u64 (Z.of_nat (length vs)), u64 (tally VAllowed vs), u64 (tally VGlobal vs), u64 (tally VPerIP vs),
   u64 (tally VPerCall vs), u64 (tally VBlocked vs)).

Lemma inc_u64 n : inc (u64 n) = u64 (n + 1).
Proof. apply u64_add_l. Qed.

Lemma tally_snoc v vs w : tally v (vs ++ [w]) = tally v vs + if decide (w = v) then 1 else 0.
Proof.
  unfold tally. rewrite filter_app, length_app, filter_cons, filter_nil. destruct (decide (w = v)); cbn [length]; lia.
Qed.

Lemma books_snoc st vs v :
  counters st = books vs -> counters (on_verdict v (st <| TotalRequests ::= inc |>)) = books (vs ++ [v]).
Proof.
  unfold counters, books. intros [= E1 E2 E3 E4 E5 E6]. rewrite !tally_snoc, length_app. cbn [length].
  rewrite Nat2Z.inj_add. destruct v; cbn; rewrite ?Z.add_0_r, <- ?inc_u64; congruence.
Qed.

Lemma rl_step_gauges rl o : gauges_ok rl -> gauges_ok (rl_step rl o).
Proof.
  intros Hg. destruct o as [now ip callID|now ip|ip|now ips calls blocks|]; cbn [rl_step].
  - destruct (Allow_settled now ip callID rl) as (_ & H & _). apply H. destruct Hg; by split.
  - unfold BlockIP. destruct Hg as [H1 H2 H3]. destruct (blockedIPs rl !! ip) as [t|] eqn:E; split; try done.
    + apply gauges_insert_old; [by exists t|done].
    + by apply gauges_insert_new.
  - unfold UnblockIP. destruct Hg as [H1 H2 H3]. destruct (blockedIPs rl !! ip) as [t|] eqn:E; [|done].
    split; try done. by apply (gauges_delete _ _ _ t).
  - unfold cleanup. cbv zeta. destruct Hg as [H1 H2 H3].
    set (old e := Time_Sub now (lastAccess e) >? EntryTTL (config rl)).
    pose proof (sweep_spec old ips _ _ H1) as S1. destruct (sweep old ips _ _) as [m1 n1].
    pose proof (sweep_spec old calls _ _ H2) as S2. cbn. destruct (sweep old calls _ _) as [m2 n2].
    pose proof (sweep_spec (fun t => Time_Sub now t >? BlockDuration (config rl)) blocks _ _ H3) as S3. cbn.
    destruct (sweep _ blocks _ _) as [m3 n3]. split; [apply S1|apply S2|apply S3].
  - split; apply gauges_empty.
Qed.

(** The other operations count no request. *)
Lemma rl_step_counters rl o :
  match o with OpAllow _ _ _ => True | _ => counters (stats (rl_step rl o)) = counters (stats rl) end.
Proof.
  destruct o as [|now ip|ip|now ips calls blocks|]; cbn [rl_step]; try done.
  - unfold BlockIP. by destruct (blockedIPs rl !! ip).
  - unfold UnblockIP. by destruct (blockedIPs rl !! ip).
  - unfold cleanup. cbv zeta. destruct (sweep _ ips _ _). cbn. destruct (sweep _ calls _ _). cbn.
    by destruct (sweep _ blocks _ _).
Qed.

Lemma rl_run_gauges cfg now ops : gauges_ok (rl_run (NewRateLimiter cfg now) ops).
Proof.
  assert (gauges_ok (NewRateLimiter cfg now)) as Hg by done. generalize dependent (NewRateLimiter cfg now).
  induction ops as [|o ops IH]; intros rl Hg; [done|]. by apply (IH (rl_step rl o)), rl_step_gauges.
Qed.

Lemma rl_run_books rl vs ops : counters (stats rl) = books vs ->
  let rs := rl_requests rl ops in
  rs.*2 = (fun v => bool_decide (v = VAllowed)) <$> rs.*1 /\
  counters (stats (rl_run rl ops)) = books (vs ++ rs.*1).
Proof.
  cbv zeta. revert rl vs. induction ops as [|o ops IH]; intros rl vs E; cbn [rl_requests rl_run foldl].
  { by rewrite app_nil_r. }
  pose proof (rl_step_counters rl o) as Ho. destruct o as [now ip callID| | | |]; cbn [app].
  2-5: by apply IH; rewrite Ho.
  destruct (Allow_settled now ip callID rl) as (Ha & _ & Hc). cbn [fmap list_fmap].
  destruct (IH (rl_step rl (OpAllow now ip callID)) (vs ++ [verdict_of now ip callID rl])) as [IH1 IH2].
  { cbn [rl_step]. rewrite Hc. by apply books_snoc. }
  split; [cbn; f_equal; [exact Ha|exact IH1]|]. etrans; [exact IH2|]. by rewrite <- app_assoc.
Qed.

(** C38: the limiter's books are those of the requests it got. Over any
    sequence of requests, manual blocks and unblocks, cleanups in any order and
    resets, one after the other: a request is let through exactly when its
    address is not blocked and the buckets of the configured limits, for all
    requests, for its address and for its call, each have a token, and it takes
    one from each bucket it is checked against; the total counts the requests, the
    other counters those let through and those refused for each reason, the
    first that applies; and the gauges of active addresses, active calls and
    blocked addresses are the sizes of the tables. *)
Theorem limiter_accounts cfg now ops :
  let rl0 := NewRateLimiter cfg now in
  let rl := rl_run rl0 ops in
  let vs := (rl_requests rl0 ops).*1 in
  (rl_requests rl0 ops).*2 = (fun v => bool_decide (v = VAllowed)) <$> vs /\
  TotalRequests (stats rl) = u64 (Z.of_nat (length vs)) /\
  AllowedRequests (stats rl) = u64 (tally VAllowed vs) /\
  RejectedGlobal (stats rl) = u64 (tally VGlobal vs) /\
  RejectedPerIP (stats rl) = u64 (tally VPerIP vs) /\
  RejectedPerCall (stats rl) = u64 (tally VPerCall vs) /\
  RejectedBlocked (stats rl) = u64 (tally VBlocked vs) /\
  ActiveIPs (stats rl) = i64 (Z.of_nat (size (ipBuckets rl))) /\
  ActiveCalls (stats rl) = i64 (Z.of_nat (size (callBuckets rl))) /\
  BlockedIPs (stats rl) = i64 (Z.of_nat (size (blockedIPs rl))) /\
  forall t ip callID, charged t ip callID rl (Allow t ip callID rl).2.
Proof.
  cbv zeta. destruct (rl_run_gauges cfg now ops) as [H1 H2 H3].
  destruct (rl_run_books (NewRateLimiter cfg now) [] ops eq_refl) as [H4 [= E1 E2 E3 E4 E5 E6]].
  split_and!; try done. intros t ip callID. apply Allow_charged.
Qed.

(** *** The token bucket on a clock of whole seconds *)

(** The same bucket on integers: [n] tokens of at most [m], [r] more for each
    of the [k] seconds that passed. *)
Definition int_Allow (m r k n : Z) : bool * Z :=
  let n := Z.min m (n + k * r) in
  if 1 <=? n then (true, n - 1) else (false, n).

Definition int_bucket (m r n now : Z) : TokenBucket := mkBucket (of_int n) (of_int m) (of_int r) now.

Lemma bucket_Allow_int m r n k now :
  0 <= n <= m -> 0 < r < 2 ^ 53 -> 0 <= k < 2 ^ 33 -> m + k * r < 2 ^ 53 ->
  bucket_Allow (now + k * Second) (int_bucket m r n now) =
  ((int_Allow m r k n).1, int_bucket m r (int_Allow m r k n).2 (now + k * Second)).
Proof.
  intros Hn Hr Hk Hm. assert (0 <= k * r) by nia.
  unfold bucket_Allow, refill, int_bucket. cbn [tokens maxTokens refillRate lastRefill].
  rewrite Time_Sub_exact by (unfold is_s, Second; lia).
  replace (now + k * Second - now) with (k * Second) by ring.
  rewrite Seconds_whole, fmul_int, fadd_int, flt_int by nia.
  replace (if m <? n + k * r then of_int m else of_int (n + k * r)) with (of_int (Z.min m (n + k * r)))
    by (destruct (Z.ltb_spec m (n + k * r)); f_equal; lia).
  unfold one, int_Allow. rewrite fle_int by lia. destruct (Z.leb_spec 1 (Z.min m (n + k * r))); [|done].
  by rewrite fsub_int by lia.
Qed.

(** The answers of a bucket to calls that come [ks] seconds after each other. *)
Fixpoint bucket_run (now : Z) (ks : list Z) (tb : TokenBucket) : list bool :=
  match ks with
  | [] => []
  | k :: ks =>
      let '(ok, tb) := bucket_Allow (now + k * Second) tb in
      ok :: bucket_run (now + k * Second) ks tb
  end.

Definition allowed (answers : list bool) : Z := Z.of_nat (length (List.filter id answers)).
Definition seconds (ks : list Z) : Z := foldr Z.add 0 ks.

Lemma bucket_run_bound m r ks now n :
  0 <= n <= m -> 0 < r < 2 ^ 53 -> Forall (fun k => 0 <= k < 2 ^ 33 /\ m + k * r < 2 ^ 53) ks ->
  let answers := bucket_run now ks (int_bucket m r n now) in
  allowed answers <= n + r * seconds ks /\
  (1 <= m -> Forall (fun k => 1 <= k) ks -> answers = replicate (length ks) true).
Proof.
  intros Hn Hr Hks. revert now n Hn. induction Hks as [|k ks [Hk Hm] Hks IH]; intros now n Hn; cbn [bucket_run].
  { split; [unfold allowed, seconds; cbn [List.filter length foldr]; lia|done]. }
  rewrite bucket_Allow_int by done. unfold int_Allow. assert (0 <= k * r) by nia.
  destruct (Z.leb_spec 1 (Z.min m (n + k * r))); cbn [fst snd].
  - destruct (IH (now + k * Second) (Z.min m (n + k * r) - 1) ltac:(lia)) as [IH1 IH2]. split.
    + unfold allowed in *. cbn [List.filter id length seconds foldr] in *. fold (seconds ks). lia.
    + intros H1 [_ H2]%Forall_cons. cbn. f_equal. by apply IH2.
  - destruct (IH (now + k * Second) (Z.min m (n + k * r)) ltac:(lia)) as [IH1 IH2]. split.
    + unfold allowed in *. cbn [List.filter id length seconds foldr] in *. fold (seconds ks). lia.
    + intros H1 [Hk1 _]%Forall_cons. assert (1 <= k * r) by nia. lia.
Qed.

(** The token bucket keeps its rate. However the calls are spaced over
    whole seconds, a bucket of burst size [m] and rate [r] lets through at most
    [m] calls plus [r] for every second that passed; and it refuses no call of
    a client that waits a second between calls. The tokens are floating point
    numbers, and none is lost to rounding. *)
Theorem token_bucket_rate m r ks now :
  0 <= m -> 0 < r < 2 ^ 53 -> Forall (fun k => 0 <= k < 2 ^ 33 /\ m + k * r < 2 ^ 53) ks ->
  let answers := bucket_run now ks (NewTokenBucket (of_int m) (of_int r) now) in
  allowed answers <= m + r * seconds ks /\
  (1 <= m -> Forall (fun k => 1 <= k) ks -> answers = replicate (length ks) true).
Proof. intros. by apply bucket_run_bound. Qed.

Lemma token_bucket_rate_witness :
  allowed (bucket_run 0 [0; 0; 0; 0; 1; 0; 0; 0] (NewTokenBucket (of_int 3) (of_int 2) 0)) <= 5.
Proof. apply (token_bucket_rate 3 2 [0; 0; 0; 0; 1; 0; 0; 0] 0); [lia|lia|repeat constructor; lia]. Defined.

(** *** Blocked addresses *)

(** An operation whose clock is within [d] of the block at [t], and that is
    not told to lift it. *)
Definition during (ip : string) (t d : Z) (o : rl_op) : Prop :=
  match o with
  | OpAllow now _ _ => t <= now <= t + d
  | OpBlockIP now _ => t <= now <= t + d
  | OpUnblockIP ip' => ip' <> ip
  | OpCleanup now _ _ _ => t <= now <= t + d
  | OpReset => False
  end.

Lemma not_expired now t t' d : 0 <= d -> t <= t' -> now <= t + d -> (Time_Sub now t' >? d) = false.
Proof. intros. rewrite Z.gtb_ltb, Z.ltb_ge. unfold Time_Sub, min_int64, max_int64. lia. Qed.

(** [ip] is blocked since [t] or later. *)
Definition blocked_since (ip : string) (t : Z) (rl : RateLimiter) : Prop :=
  exists t', t <= t' /\ blockedIPs rl !! ip = Some t'.

Lemma Allow_blocked now ip callID t rl :
  0 <= BlockDuration (config rl) -> blocked_since ip t rl -> now <= t + BlockDuration (config rl) ->
  Allow now ip callID rl =
  (false, rl <| stats ::= fun st => st <| TotalRequests ::= inc |> <| RejectedBlocked ::= inc |> |>).
Proof.
  intros Hd (t' & Ht & E) Hnow. unfold Allow, isBlocked, read_block. cbn. rewrite E.
  by rewrite (not_expired now t t') by done.
Qed.

Lemma maybeBlockIP_other now ip' ip rl : ip' <> ip -> blockedIPs (maybeBlockIP now ip' rl) !! ip = blockedIPs rl !! ip.
Proof.
  intros Hne. unfold maybeBlockIP. destruct (ipBuckets rl !! ip'); [|done]. destruct (_ && _); [|done].
  cbn. by rewrite lookup_insert_ne.
Qed.

Lemma Allow_keeps_block now ip' callID ip rl : ip' <> ip ->
  config (Allow now ip' callID rl).2 = config rl /\
  blockedIPs (Allow now ip' callID rl).2 !! ip = blockedIPs rl !! ip.
Proof.
  intros Hne. unfold Allow. set (rl0 := count _ rl).
  assert (config rl0 = config rl /\ blockedIPs rl0 !! ip = blockedIPs rl !! ip) as [<- <-] by done. clearbody rl0. clear rl.
  assert (config (isBlocked now ip' rl0).2 = config rl0 /\ blockedIPs (isBlocked now ip' rl0).2 !! ip = blockedIPs rl0 !! ip)
    as [<- <-].
  { unfold isBlocked. destruct (read_block now ip' rl0); [done| |done]. cbn. by rewrite lookup_delete_ne. }
  destruct (isBlocked now ip' rl0) as [b rl1]. destruct b; [done|]. cbn [snd].
  pose proof (check_global_checked now rl1) as H2. destruct (check_global now rl1) as [b rl2].
  destruct H2 as [(_ & _ & Hc2) Hb2]. rewrite <- Hc2, <- Hb2. destruct b; [|done]. cbn [negb].
  destruct (optional_checked (PerIPRequestsPerSecond (config rl2) >? 0) _ _ (checkIPLimit_checked now ip' rl2))
    as [(_ & _ & Hc3) Hb3]. destruct (if _ >? 0 then _ else _) as [b rl3]. cbn [snd] in *. rewrite <- Hc3, <- Hb3.
  destruct b; cbn [negb].
  2:{ cbn [snd]. split; [|by rewrite maybeBlockIP_other]. unfold maybeBlockIP. cbn.
      destruct (ipBuckets rl3 !! ip'); [|done]. by destruct (_ && _). }
  destruct (optional_checked ((PerCallRequestsPerSecond (config rl3) >? 0) &&
    negb (bool_decide (callID = EmptyString))) _ _ (checkCallLimit_checked now callID rl3)) as [(_ & _ & Hc4) Hb4].
  destruct (if _ && _ then _ else _) as [b rl4]. cbn [snd] in *. rewrite <- Hc4, <- Hb4. by destruct b.
Qed.

Lemma during_keeps_block ip t rl o (d := BlockDuration (config rl)) :
  0 <= d -> gauges_ok rl -> blocked_since ip t rl -> during ip t d o ->
  blocked_since ip t (rl_step rl o) /\ config (rl_step rl o) = config rl.
Proof.
  intros Hd Hg Hb Ho. pose proof Hb as (t' & Ht & E).
  destruct o as [now ip' callID|now ip'|ip'|now ips calls blocks|]; cbn [rl_step during] in *; [| | | |done].
  - destruct (decide (ip' = ip)) as [->|Hne].
    + rewrite (Allow_blocked now ip callID t) by (done || lia). split; [by exists t'|done].
    + destruct (Allow_keeps_block now ip' callID ip rl Hne) as [-> Hk]. split; [|done]. exists t'. by rewrite Hk.
  - unfold BlockIP. destruct (decide (ip' = ip)) as [->|Hne].
    + rewrite E. split; [|done]. exists now. cbn. rewrite lookup_insert_eq. split; [lia|done].
    + split; [|by destruct (blockedIPs rl !! ip')]. exists t'. split; [done|].
      destruct (blockedIPs rl !! ip'); cbn; by rewrite lookup_insert_ne.
  - unfold UnblockIP. destruct (blockedIPs rl !! ip'); [|by split; [exists t'|]].
    split; [|done]. exists t'. cbn. by rewrite lookup_delete_ne.
  - unfold cleanup. cbv zeta. destruct (sweep _ ips _ _) as [m1 n1]. cbn. destruct (sweep _ calls _ _) as [m2 n2].
    pose proof (sweep_spec (fun t => Time_Sub now t >? d) blocks _ _ (ok_blocked _ Hg)) as S3. cbn.
    unfold d in S3. destruct (sweep _ blocks _ _) as [m3 n3]. destruct S3 as [_ S3]. split; [|done].
    exists t'. split; [done|]. cbn. rewrite S3, E, (not_expired now t t') by (done || lia). by rewrite andb_false_r.
Qed.

(** A block holds for its duration. Once an address is blocked at [t], by
    hand or by the limiter, every request it sends until [BlockDuration] later
    is refused and costs no token, whatever other requests, blocks and
    cleanups happen in between, unless the block is lifted by hand. *)
Theorem blocked_ip_refused cfg now0 ops0 ip t ops now callID :
  let rl0 := rl_run (NewRateLimiter cfg now0) ops0 in
  let d := BlockDuration (config rl0) in
  0 <= d -> blockedIPs rl0 !! ip = Some t -> Forall (during ip t d) ops -> now <= t + d ->
  let rl := rl_run rl0 ops in
  Allow now ip callID rl =
  (false, rl <| stats ::= fun st => st <| TotalRequests ::= inc |> <| RejectedBlocked ::= inc |> |>).
Proof.
  cbv zeta. intros Hd Hb Hops Hnow.
  pose proof (rl_run_gauges cfg now0 ops0) as Hg. set (rl0 := rl_run (NewRateLimiter cfg now0) ops0) in *.
  assert (blocked_since ip t rl0) as Hs by (exists t; split; [lia|done]). clearbody rl0. clear Hb.
  revert rl0 Hd Hg Hs Hops Hnow. induction ops as [|o ops IH]; intros rl0 Hd Hg Hs Hops Hnow.
  { by apply (Allow_blocked now ip callID t). }
  apply Forall_cons in Hops as [Ho Hops]. destruct (during_keeps_block ip t rl0 o) as [Hs' Hc]; [done..|].
  apply (rl_step_gauges _ o) in Hg. cbn [rl_run foldl].
  apply (IH (rl_step rl0 o)); rewrite ?Hc; done.
Qed.

Lemma blocked_ip_refused_witness :
  let rl := rl_run (NewRateLimiter None 0) [OpBlockIP 5 "a"; OpAllow 6 "b" "c"; OpCleanup 7 ["a"; "b"] ["c"] ["a"]] in
  (Allow 8 "a" "c" rl).1 = false.
Proof.
  cbv zeta. change (rl_run (NewRateLimiter None 0) _) with
    (rl_run (rl_run (NewRateLimiter None 0) [OpBlockIP 5 "a"]) [OpAllow 6 "b" "c"; OpCleanup 7 ["a"; "b"] ["c"] ["a"]]).
  rewrite (blocked_ip_refused None 0 [OpBlockIP 5 "a"] "a" 5 [OpAllow 6 "b" "c"; OpCleanup 7 ["a"; "b"] ["c"] ["a"]] 8 "c").
  - reflexivity.
  - vm_compute. discriminate.
  - reflexivity.
  - repeat constructor; vm_compute; discriminate.
  - vm_compute. discriminate.
Defined.

(** *** Concurrent requests

    [isBlocked] reads the block under a read lock and removes it under a write
    lock taken later, so two requests can both find it expired. *)

(** The gauge of blocked addresses drifts under concurrency. When two
    requests of an address arrive after its block expired and both read the
    block before either removes it, it is counted down twice for one removal,
    and with no other block the gauge is negative. *)
Theorem block_expiry_race cfg now0 ops ip t now :
  let rl := rl_run (NewRateLimiter cfg now0) ops in
  blockedIPs rl = {[ip := t]} -> Time_Sub now t > BlockDuration (config rl) ->
  read_block now ip rl = Expired /\
  let rl' := drop_block ip (drop_block ip rl) in
  blockedIPs rl' = ∅ /\ BlockedIPs (stats rl') = -1.
Proof.
  cbv zeta. destruct (rl_run_gauges cfg now0 ops) as [_ _ Hg].
  set (rl := rl_run (NewRateLimiter cfg now0) ops) in *. intros E Ht. split.
  - unfold read_block. rewrite E, lookup_singleton_eq. by rewrite (proj2 (Z.gtb_lt _ _)) by lia.
  - cbn. rewrite E. unfold gauges in Hg. rewrite Hg, E, map_size_singleton. split; [|done].
    by rewrite delete_singleton_eq, delete_empty.
Qed.

Lemma block_expiry_race_witness :
  let rl := rl_run (NewRateLimiter None 0) [OpBlockIP 5 "a"] in
  BlockedIPs (stats (drop_block "a" (drop_block "a" rl))) = -1.
Proof.
  destruct (block_expiry_race None 0 [OpBlockIP 5 "a"] "a" 5 (6 + 10 * Second)) as (_ & _ & H).
  - vm_compute. reflexivity.
  - vm_compute. reflexivity.
  - exact H.
Defined.
