(* ===== verification/Codec.v ===== *)
(** * G.711 conversion

    Models the G.711 functions of src/internal/codec_converter.go with the
    tables of codec_table.go: decoding and encoding of mu-law, the table
    conversions between mu-law and A-law, normalisation and the RMS level. A
    byte is a [Z] in [0, 256) and a sample a [Z] in [-2^15, 2^15), with the
    wrap-around of the Go types written out. The Opus stand-in, which
    synthesises a tone, and voice detection, which takes a logarithm, are left
    out. *)

From Stdlib Require Import ZArith Lia Floats.SpecFloat.
From stdpp Require Import base numbers list.
From S2P Require Import Prelude GoFloat.

Local Open Scope Z_scope.
Local Open Scope go_scope.

Inductive codec_error := EmptyPayload | EmptyPCM.

(** ** Tables *)

Definition muLawToALawMap : list Z := [
  0x1b; 0x1b; 0x1b; 0x1b; 0x1b; 0x1b; 0x1b; 0x1b; 0x1b; 0x1b; 0x1b; 0x1b; 0x1b; 0x1b; 0x1b; 0x1b;
  0x2b; 0x2b; 0x2b; 0x2b; 0x2b; 0x2b; 0x2b; 0x2b; 0x2b; 0x2b; 0x2b; 0x2b; 0x2b; 0x2b; 0x2b; 0x2b;
  0x4b; 0x4b; 0x4b; 0x4b; 0x4b; 0x4b; 0x4b; 0x4b; 0x4b; 0x4b; 0x4b; 0x4b; 0x4b; 0x4b; 0x4b; 0x4b;
  0x6b; 0x6b; 0x6b; 0x6b; 0x6b; 0x6b; 0x6b; 0x6b; 0x6b; 0x6b; 0x6b; 0x6b; 0x6b; 0x6b; 0x6b; 0x6b;
  0x8b; 0x8b; 0x8b; 0x8b; 0x8b; 0x8b; 0x8b; 0x8b; 0x8b; 0x8b; 0x8b; 0x8b; 0x8b; 0x8b; 0x8b; 0x8b;
  0x95; 0x95; 0x95; 0x95; 0x95; 0x95; 0x95; 0x95; 0x95; 0x95; 0x95; 0x95; 0x95; 0x95; 0x95; 0x95;
  0xa5; 0xa5; 0xa5; 0xa5; 0xa5; 0xa5; 0xa5; 0xa5; 0xa5; 0xa5; 0xa5; 0xa5; 0xa5; 0xa5; 0xa5; 0xa5;
  0xc5; 0xc5; 0xc5; 0xc5; 0xc5; 0xc5; 0xc5; 0xc5; 0xc5; 0xc5; 0xc5; 0xc5; 0xc5; 0xc5; 0xc5; 0xc5;
  0x01; 0x01; 0x01; 0x01; 0x01; 0x01; 0x01; 0x01; 0x01; 0x01; 0x01; 0x01; 0x01; 0x01; 0x01; 0x01;
  0x82; 0x82; 0x82; 0x82; 0x82; 0x82; 0x82; 0x82; 0x82; 0x82; 0x82; 0x82; 0x82; 0x82; 0x82; 0x82;
  0x15; 0x15; 0x15; 0x15; 0x15; 0x15; 0x15; 0x15; 0x15; 0x15; 0x15; 0x15; 0x15; 0x15; 0x15; 0x15;
  0x25; 0x25; 0x25; 0x25; 0x25; 0x25; 0x25; 0x25; 0x25; 0x25; 0x25; 0x25; 0x25; 0x25; 0x25; 0x25;
  0x45; 0x45; 0x45; 0x45; 0x45; 0x45; 0x45; 0x45; 0x45; 0x45; 0x45; 0x45; 0x45; 0x45; 0x45; 0x45;
  0x65; 0x65; 0x65; 0x65; 0x65; 0x65; 0x65; 0x65; 0x65; 0x65; 0x65; 0x65; 0x65; 0x65; 0x65; 0x65;
  0x85; 0x85; 0x85; 0x85; 0x85; 0x85; 0x85; 0x85; 0x85; 0x85; 0x85; 0x85; 0x85; 0x85; 0x85; 0x85;
  0xa5; 0xa5; 0xa5; 0xa5; 0xa5; 0xa5; 0xa5; 0xa5; 0xa5; 0xa5; 0xa5; 0xa5; 0xa5; 0xa5; 0xa5; 0xa5].

Definition aLawToMuLawMap : list Z := [
  0x00; 0x01; 0x02; 0x03; 0x04; 0x05; 0x06; 0x07; 0x08; 0x09; 0x0a; 0x0b; 0x0c; 0x0d; 0x0e; 0x0f;
  0x10; 0x11; 0x12; 0x13; 0x14; 0x15; 0x16; 0x17; 0x18; 0x19; 0x1a; 0x1b; 0x1c; 0x1d; 0x1e; 0x1f;
  0x20; 0x21; 0x22; 0x23; 0x24; 0x25; 0x26; 0x27; 0x28; 0x29; 0x2a; 0x2b; 0x2c; 0x2d; 0x2e; 0x2f;
  0x30; 0x31; 0x32; 0x33; 0x34; 0x35; 0x36; 0x37; 0x38; 0x39; 0x3a; 0x3b; 0x3c; 0x3d; 0x3e; 0x3f;
  0x40; 0x41; 0x42; 0x43; 0x44; 0x45; 0x46; 0x47; 0x48; 0x49; 0x4a; 0x4b; 0x4c; 0x4d; 0x4e; 0x4f;
  0x50; 0x51; 0x52; 0x53; 0x54; 0x55; 0x56; 0x57; 0x58; 0x59; 0x5a; 0x5b; 0x5c; 0x5d; 0x5e; 0x5f;
  0x60; 0x61; 0x62; 0x63; 0x64; 0x65; 0x66; 0x67; 0x68; 0x69; 0x6a; 0x6b; 0x6c; 0x6d; 0x6e; 0x6f;
  0x70; 0x71; 0x72; 0x73; 0x74; 0x75; 0x76; 0x77; 0x78; 0x79; 0x7a; 0x7b; 0x7c; 0x7d; 0x7e; 0x7f;
  0x80; 0x81; 0x82; 0x83; 0x84; 0x85; 0x86; 0x87; 0x88; 0x89; 0x8a; 0x8b; 0x8c; 0x8d; 0x8e; 0x8f;
  0x90; 0x91; 0x92; 0x93; 0x94; 0x95; 0x96; 0x97; 0x98; 0x99; 0x9a; 0x9b; 0x9c; 0x9d; 0x9e; 0x9f;
  0xa0; 0xa1; 0xa2; 0xa3; 0xa4; 0xa5; 0xa6; 0xa7; 0xa8; 0xa9; 0xaa; 0xab; 0xac; 0xad; 0xae; 0xaf;
  0xb0; 0xb1; 0xb2; 0xb3; 0xb4; 0xb5; 0xb6; 0xb7; 0xb8; 0xb9; 0xba; 0xbb; 0xbc; 0xbd; 0xbe; 0xbf;
  0xc0; 0xc1; 0xc2; 0xc3; 0xc4; 0xc5; 0xc6; 0xc7; 0xc8; 0xc9; 0xca; 0xcb; 0xcc; 0xcd; 0xce; 0xcf;
  0xd0; 0xd1; 0xd2; 0xd3; 0xd4; 0xd5; 0xd6; 0xd7; 0xd8; 0xd9; 0xda; 0xdb; 0xdc; 0xdd; 0xde; 0xdf;
  0xe0; 0xe1; 0xe2; 0xe3; 0xe4; 0xe5; 0xe6; 0xe7; 0xe8; 0xe9; 0xea; 0xeb; 0xec; 0xed; 0xee; 0xef;
  0xf0; 0xf1; 0xf2; 0xf3; 0xf4; 0xf5; 0xf6; 0xf7; 0xf8; 0xf9; 0xfa; 0xfb; 0xfc; 0xfd; 0xfe; 0xff].

(** Indexing an array of 256 with a byte. *)
Definition index (table : list Z) (b : Z) : Z := nth (Z.to_nat b) table 0.

Definition PCMUToPCMA (payload : list Z) : outcome codec_error (list Z) :=
  match payload with
  | [] => Err EmptyPayload
  | _ => Ok (map (index muLawToALawMap) payload)
  end.

Definition PCMAToPCMU (payload : list Z) : outcome codec_error (list Z) :=
  match payload with
  | [] => Err EmptyPayload
  | _ => Ok (map (index aLawToMuLawMap) payload)
  end.

(** ** Mu-law *)

(** One byte of [DecodePCMUToPCM]. *)
Definition decode_mu (mu : Z) : Z :=
  let mu := Z.lxor mu 255 in
  let sign := Z.shiftr (Z.land mu 128) 7 in
  let exponent := Z.shiftr (Z.land mu 112) 4 in
  let mantissa := Z.land mu 15 in
  let magnitude := i16 (i16 (Z.shiftl mantissa 3) + 132) in
  let magnitude := i16 (Z.shiftl magnitude exponent) in
  if sign =? 1 then i16 (- magnitude) else magnitude.

Definition DecodePCMUToPCM (payload : list Z) : outcome codec_error (list Z) :=
  match payload with
  | [] => Err EmptyPayload
  | _ => Ok (map decode_mu payload)
  end.

(** [for sample > 15 { sample >>= 1; exponent++ }]: a 16-bit sample is below 16
    after at most eleven rounds. *)
Fixpoint segment (fuel : nat) (sample exponent : Z) : Z * Z :=
  match fuel with
  | O => (sample, exponent)
  | S fuel => if sample >? 15 then segment fuel (Z.shiftr sample 1) (u8 (exponent + 1)) else (sample, exponent)
  end.

(** One sample of [EncodePCMToPCMU]. *)
Definition encode_mu (sample : Z) : Z :=
  let sign := sample <? 0 in
  let sample := if sign then i16 (- sample) else sample in
  let sample := i16 (sample + 132) in
  let '(sample, exponent) := segment 12 sample 0 in
  let mantissa := u8 sample in
  let mu := Z.lor (u8 (Z.shiftl exponent 4)) mantissa in
  let mu := if sign then Z.lor mu 128 else mu in
  Z.lxor mu 255.

Definition EncodePCMToPCMU (pcm : list Z) : outcome codec_error (list Z) :=
  match pcm with
  | [] => Err EmptyPCM
  | _ => Ok (map encode_mu pcm)
  end.

(** ** Levels *)

Definition pcmMaxAmplitude : Z := 32767.

Definition abs16 (sample : Z) : Z := if sample <? 0 then i16 (- sample) else sample.
Definition max_amplitude (pcm : list Z) : Z :=
  foldl (fun maxAmp sample => if abs16 sample >? maxAmp then abs16 sample else maxAmp) 0 pcm.

(** [int16(f)] of a [float64]: through the 32-bit conversion of amd64. *)
Definition to_int16 (x : float64) : Z := i16 (to_int64 x).

Definition NormalizeAudio (pcm : list Z) : list Z :=
  match pcm with
  | [] => pcm
  | _ =>
      let maxAmp := max_amplitude pcm in
      if maxAmp =? 0 then pcm
      else if maxAmp >? pcmMaxAmplitude then
        let ratio := fdiv (of_int pcmMaxAmplitude) (of_int maxAmp) in
        map (fun sample => to_int16 (fmul (of_int sample) ratio)) pcm
      else pcm
  end.

Definition CalculateRMS (pcm : list Z) : float64 :=
  match pcm with
  | [] => of_int 0
  | _ =>
      let sumSquares := foldl (fun s sample => i64 (s + i64 (sample * sample))) 0 pcm in
      SFsqrt 53 1024 (fdiv (of_int sumSquares) (of_int (Z.of_nat (length pcm))))
  end.

Example decode_mu_ex : map decode_mu [255; 127; 0; 128] = [132; -132; -32256; 32256].
Proof. reflexivity. Qed.
Example rms_ex : CalculateRMS [3; 4; 3; -4] = SFsqrt 53 1024 (lit 25 2).
Proof. vm_compute. reflexivity. Qed.

(** ** Specification: G.711

    The decoder of the recommendation: the bias of 132 is taken off again. *)
Definition g711_decode (b : Z) : Z :=
  let mu := 255 - b in
  let t := ((mu mod 16) * 8 + 132) * 2 ^ ((mu / 16) mod 8) - 132 in
  if 128 <=? mu then - t else t.

(** ** Lemmas *)

(** A fact about all bytes, by computation. *)
Lemma all_bytes (P : Z -> bool) : forallb P (map Z.of_nat (seq 0 256)) = true -> forall b, is_u 8 b -> P b = true.
Proof.
  rewrite forallb_forall. intros H b [Hb0 Hb]. apply H, in_map_iff. exists (Z.to_nat b).
  split; [lia|]. apply in_seq. lia.
Qed.

Lemma decode_mu_offset b : is_u 8 b -> decode_mu b = g711_decode b + (if b <? 128 then - 132 else 132).
Proof.
  intros Hb. apply Z.eqb_eq. revert b Hb. apply all_bytes. vm_compute. reflexivity.
Qed.

Lemma segment_spec e fuel s k m :
  8 <= m <= 15 -> m * 2 ^ Z.of_nat e <= s < (m + 1) * 2 ^ Z.of_nat e -> (e <= fuel)%nat ->
  0 <= k -> k + Z.of_nat e < 256 -> segment fuel s k = (m, k + Z.of_nat e).
Proof.
  revert fuel s k. induction e as [|e IH]; intros fuel s k Hm Hs Hf Hk Hke.
  - cbn in Hs. assert (s = m) as -> by lia. destruct fuel; cbn [segment]; [f_equal; lia|].
    destruct (Z.gtb_spec m 15); [lia|]. f_equal. lia.
  - destruct fuel as [|fuel]; [lia|]. rewrite Nat2Z.inj_succ, Z.pow_succ_r in Hs by lia. cbn [segment].
    assert (0 < 2 ^ Z.of_nat e) by (apply Z.pow_pos_nonneg; lia).
    destruct (Z.gtb_spec s 15); [|nia]. rewrite wrapu_id by (unfold is_u; lia).
    rewrite IH; [f_equal; lia|lia| |lia|lia|lia].
    rewrite Z.shiftr_div_pow2, Z.pow_1_r by lia.
    split; [apply Z.div_le_lower_bound|apply Z.div_lt_upper_bound]; nia.
Qed.

(** The segment and the step of a value of 8 to 15 bits. *)
Lemma segment_exists s : 128 <= s < 2 ^ 15 ->
  exists e m, (4 <= e <= 11)%nat /\ 8 <= m <= 15 /\ m * 2 ^ Z.of_nat e <= s < (m + 1) * 2 ^ Z.of_nat e.
Proof.
  intros Hs. destruct (Z.log2_spec s) as [Hl Hu]; [lia|]. rewrite Z.pow_succ_r in Hu by apply Z.log2_nonneg.
  assert (7 <= Z.log2 s <= 14) as Hb.
  { split; [apply (Z.log2_le_mono (2 ^ 7) s); lia|]. pose proof (Z.log2_lt_pow2 s 15). lia. }
  set (e := Z.log2 s - 3). assert (2 ^ Z.log2 s = 8 * 2 ^ e) as E.
  { replace (Z.log2 s) with (3 + e) by lia. rewrite Z.pow_add_r by lia. done. }
  assert (0 < 2 ^ e) by (apply Z.pow_pos_nonneg; lia).
  exists (Z.to_nat e), (s / 2 ^ e). rewrite Z2Nat.id by lia. split; [lia|].
  pose proof (Z.div_mod s (2 ^ e) ltac:(lia)). pose proof (Z.mod_pos_bound s (2 ^ e) ltac:(lia)).
  split; [|lia]. split; [apply Z.div_le_lower_bound; lia|].
  assert (s / 2 ^ e < 16); [apply Z.div_lt_upper_bound; lia|lia].
Qed.

Definition mu_byte (e : nat) (m : Z) : Z := Z.lxor (Z.lor (u8 (Z.shiftl (Z.of_nat e) 4)) m) 255.

Lemma encode_mu_positive x : 0 <= x <= 32635 ->
  exists e m, (4 <= e <= 11)%nat /\ 8 <= m <= 15 /\ m * 2 ^ Z.of_nat e <= x + 132 < (m + 1) * 2 ^ Z.of_nat e /\
  encode_mu x = mu_byte e m.
Proof.
  intros Hx. destruct (segment_exists (x + 132)) as (e & m & He & Hm & Hs); [lia|].
  exists e, m. split; [done|]. split; [done|]. split; [done|].
  unfold encode_mu. destruct (Z.ltb_spec x 0); [lia|]. cbv zeta. rewrite wraps_id by (unfold is_s; lia).
  rewrite (segment_spec e 12 (x + 132) 0 m) by (done || lia). rewrite Z.add_0_l, (wrapu_id 8 m) by (unfold is_u; lia).
  done.
Qed.

(** What decoding gives back, over all segments and steps. *)
Definition step_values (P : nat -> Z -> bool) : bool := forallb (fun e => forallb (P e) [8; 9; 10; 11; 12; 13; 14; 15]) (seq 4 8).

Lemma step_values_elim P e m : step_values P = true -> (4 <= e <= 11)%nat -> 8 <= m <= 15 -> P e m = true.
Proof.
  unfold step_values. rewrite forallb_forall. intros H He Hm. specialize (H e ltac:(apply in_seq; lia)).
  rewrite forallb_forall in H. apply H. cbn. lia.
Qed.

(** ** Guarantees *)

(** Mu-law decoding is off by the bias. Every byte decodes to the sample
    of G.711 moved away from zero by 132, so no byte decodes to silence. *)
Theorem DecodePCMUToPCM_offset payload :
  payload <> [] -> Forall (is_u 8) payload ->
  exists pcm, DecodePCMUToPCM payload = Ok pcm /\
  pcm = map (fun b => g711_decode b + (if b <? 128 then - 132 else 132)) payload /\ Forall (fun x => 132 <= Z.abs x) pcm.
Proof.
  intros Hne Hb. destruct payload as [|b0 payload]; [done|]. exists (map decode_mu (b0 :: payload)).
  split; [done|]. split.
  - apply map_ext_Forall. eapply Forall_impl; [exact Hb|]. intros. by apply decode_mu_offset.
  - apply Forall_fmap. eapply Forall_impl; [exact Hb|]. intros b. cbn. intros H. apply Z.leb_le. revert b H.
    apply all_bytes. vm_compute. reflexivity.
Qed.

(** A sample does not survive mu-law encoding. Every quiet sample up to
    1915, silence included, comes back more than 3000 louder, and every louder
    one up to 32635 comes back with the opposite sign, because the segment
    number, counted from the wrong bit, runs into the sign bit. *)
Theorem mu_law_roundtrip_fails x :
  (0 <= x <= 1915 -> x + 3000 < decode_mu (encode_mu x)) /\ (1916 <= x <= 32635 -> decode_mu (encode_mu x) < 0).
Proof.
  split; intros Hx; destruct (encode_mu_positive x) as (e & m & He & Hm & Hs & ->); try lia.
  - assert (e <= 7)%nat as He7.
    { destruct (Nat.le_gt_cases e 7); [done|]. pose proof (Z.pow_le_mono_r 2 8 (Z.of_nat e) ltac:(lia) ltac:(lia)). nia. }
    pose proof (step_values_elim (fun e m => (7 <? Z.of_nat e) || ((m + 1) * 2 ^ Z.of_nat e + 3000 <=? decode_mu (mu_byte e m) + 132))
      e m ltac:(vm_compute; reflexivity) He Hm) as H. cbv beta in H. bool_prop; lia.
  - assert (8 <= e)%nat as He8.
    { destruct (Nat.le_gt_cases 8 e); [done|]. pose proof (Z.pow_le_mono_r 2 (Z.of_nat e) 7 ltac:(lia) ltac:(lia)). nia. }
    pose proof (step_values_elim (fun e m => (Z.of_nat e <? 8) || (decode_mu (mu_byte e m) <? 0))
      e m ltac:(vm_compute; reflexivity) He Hm) as H. cbv beta in H. bool_prop; lia.
Qed.

(** Converting A-law to mu-law changes nothing: the table is the identity,
    although the two laws code the same sample differently. *)
Theorem PCMAToPCMU_identity payload :
  payload <> [] -> Forall (is_u 8) payload -> PCMAToPCMU payload = Ok payload.
Proof.
  intros Hne Hb. destruct payload as [|b0 payload]; [done|]. unfold PCMAToPCMU. f_equal.
  rewrite <- (map_id (b0 :: payload)) at 2. apply map_ext_Forall. eapply Forall_impl; [exact Hb|].
  intros b H. apply Z.eqb_eq. revert b H. apply all_bytes. vm_compute. reflexivity.
Qed.

Lemma abs16_range x : is_s 16 x -> abs16 x <= 32767.
Proof.
  intros Hx. unfold abs16. destruct (Z.ltb_spec x 0); [|unfold is_s in Hx; lia].
  pose proof (wraps_range 16 (- x) ltac:(lia)) as H1. unfold is_s in H1. lia.
Qed.

(** Normalisation never does anything: a 16-bit amplitude cannot exceed
    the 16-bit maximum it is compared with, also for the sample -32768, whose
    negation wraps. *)
Theorem NormalizeAudio_identity pcm : Forall (is_s 16) pcm -> NormalizeAudio pcm = pcm.
Proof.
  intros Hp. assert (max_amplitude pcm <= 32767) as Hm.
  { unfold max_amplitude. assert (0 <= 32767) as H0 by lia. revert H0. generalize 0. induction Hp as [|x pcm Hx Hp IH]; intros a Ha; [done|].
    cbn [foldl]. apply IH. pose proof (abs16_range x Hx). destruct (_ >? _); lia. }
  unfold NormalizeAudio. destruct pcm as [|x pcm]; [done|]. cbv zeta. destruct (_ =? _); [done|].
  unfold pcmMaxAmplitude. destruct (Z.gtb_spec (max_amplitude (x :: pcm)) 32767); [lia|done].
Qed.

(** ** Witnesses *)

Lemma DecodePCMUToPCM_offset_witness : exists pcm, DecodePCMUToPCM [255; 0] = Ok pcm /\ Forall (fun x => 132 <= Z.abs x) pcm.
Proof.
  destruct (DecodePCMUToPCM_offset [255; 0]) as (pcm & H1 & _ & H2).
  - discriminate.
  - repeat constructor; lia.
  - eauto.
Defined.
Lemma mu_law_roundtrip_fails_witness : 3000 < decode_mu (encode_mu 0) /\ decode_mu (encode_mu 20000) < 0.
Proof.
  split; [|apply (mu_law_roundtrip_fails 20000); lia].
  apply (mu_law_roundtrip_fails 0). lia.
Defined.
Lemma PCMAToPCMU_identity_witness : PCMAToPCMU [213; 85] = Ok [213; 85].
Proof. apply PCMAToPCMU_identity; [discriminate|repeat constructor; lia]. Defined.
Lemma NormalizeAudio_identity_witness : NormalizeAudio [-32768; 32767] = [-32768; 32767].
Proof. apply NormalizeAudio_identity. repeat constructor; lia. Defined.
