(* ===== verification/SplitBrain.v ===== *)
(** * Split-brain detection

    Models src/internal/split_brain.go: the detector that watches the other
    nodes' heartbeats in redis, decides whether its side of a partition has a
    quorum, and fences the node when it has not. One tick of the detection
    loop is [checkNodes] followed by [evaluatePartitionState].

    What redis answers for a node's heartbeat is a parameter of a tick, and so
    are the clock and the order in which the runtime walks the maps. The
    heartbeats a node sends are left out, and so are the texts of the events;
    the events themselves are kept in a log in place of the goroutines that
    run the handlers on them. *)

From Stdlib Require Import ZArith Lia String.
From stdpp Require Import base numbers list gmap strings.
From S2P Require Import Prelude.

Local Open Scope Z_scope.
Local Open Scope go_scope.
#[local] Set Warnings "-clear-no-such-hyp,-register-all".

(** ** Data *)

Record SplitBrainConfig := mkSBConfig {
  QuorumSize : Z;
  HeartbeatInterval : Z;
  FailureThreshold : Z;
  RecoveryGracePeriod : Z;
  FencingEnabled : bool;
  FencingTimeout : Z;
  ConsensusTimeout : Z }.

Definition DefaultSplitBrainConfig : SplitBrainConfig :=
  mkSBConfig 2 Second 3 (5 * Second) true (10 * Second) (5 * Second).

Inductive PartitionState :=
| PartitionStateNormal
| PartitionStateSuspected
| PartitionStatePartitioned
| PartitionStateRecovering
| PartitionStateFenced.
#[export] Instance PartitionState_eq_dec : EqDecision PartitionState.
Proof. solve_decision. Defined.

Record NodeInfo := mkNodeInfo {
  ni_ID : string;
  ni_Address : string;
  ni_LastSeen : Z;
  ni_State : string;
  ni_SessionCount : Z;
  ni_PartitionID : string;
  ni_JoinedAt : Z;
  ni_Version : string;
  ni_Capabilities : list string;
  ni_Healthy : bool;
  ni_FencedByNode : string;
  ni_FencedAt : Z }.

Inductive SplitBrainEventType :=
| SplitBrainEventPartitionDetected
| SplitBrainEventPartitionSuspected
| SplitBrainEventPartitionRecovered
| SplitBrainEventQuorumLost
| SplitBrainEventQuorumRegained
| SplitBrainEventNodeFenced
| SplitBrainEventNodeUnfenced
| SplitBrainEventNodeJoined
| SplitBrainEventNodeLeft.

Record SplitBrainEvent := mkEvent {
  Type_ : SplitBrainEventType;
  Timestamp : Z;
  NodeID : string;
  ev_PartitionState : PartitionState;
  ReachableNodes : list string;
  UnreachableNodes : list string;
  IsQuorum : bool }.

Record SplitBrainDetector := mkSBD {
  config : SplitBrainConfig;
  nodeID : string;
  hasCluster : bool;
  state : PartitionState;
  knownNodes : gmap string NodeInfo;
  reachableNodes : gmap string bool;
  lastHeartbeat : gmap string Z;
  missedHeartbeats : gmap string Z;
  partitionStart : Z;
  recoveryStart : Z;
  fenced : bool;
  events : list SplitBrainEvent }.
#[export] Instance set_state : Setter state := fun f r =>
  mkSBD (config r) (nodeID r) (hasCluster r) (f (state r)) (knownNodes r) (reachableNodes r) (lastHeartbeat r) (missedHeartbeats r) (partitionStart r) (recoveryStart r) (fenced r) (events r).
#[export] Instance set_knownNodes : Setter knownNodes := fun f r =>
  mkSBD (config r) (nodeID r) (hasCluster r) (state r) (f (knownNodes r)) (reachableNodes r) (lastHeartbeat r) (missedHeartbeats r) (partitionStart r) (recoveryStart r) (fenced r) (events r).
#[export] Instance set_reachableNodes : Setter reachableNodes := fun f r =>
  mkSBD (config r) (nodeID r) (hasCluster r) (state r) (knownNodes r) (f (reachableNodes r)) (lastHeartbeat r) (missedHeartbeats r) (partitionStart r) (recoveryStart r) (fenced r) (events r).
#[export] Instance set_lastHeartbeat : Setter lastHeartbeat := fun f r =>
  mkSBD (config r) (nodeID r) (hasCluster r) (state r) (knownNodes r) (reachableNodes r) (f (lastHeartbeat r)) (missedHeartbeats r) (partitionStart r) (recoveryStart r) (fenced r) (events r).
#[export] Instance set_missedHeartbeats : Setter missedHeartbeats := fun f r =>
  mkSBD (config r) (nodeID r) (hasCluster r) (state r) (knownNodes r) (reachableNodes r) (lastHeartbeat r) (f (missedHeartbeats r)) (partitionStart r) (recoveryStart r) (fenced r) (events r).
#[export] Instance set_partitionStart : Setter partitionStart := fun f r =>
  mkSBD (config r) (nodeID r) (hasCluster r) (state r) (knownNodes r) (reachableNodes r) (lastHeartbeat r) (missedHeartbeats r) (f (partitionStart r)) (recoveryStart r) (fenced r) (events r).
#[export] Instance set_recoveryStart : Setter recoveryStart := fun f r =>
  mkSBD (config r) (nodeID r) (hasCluster r) (state r) (knownNodes r) (reachableNodes r) (lastHeartbeat r) (missedHeartbeats r) (partitionStart r) (f (recoveryStart r)) (fenced r) (events r).
#[export] Instance set_fenced : Setter fenced := fun f r =>
  mkSBD (config r) (nodeID r) (hasCluster r) (state r) (knownNodes r) (reachableNodes r) (lastHeartbeat r) (missedHeartbeats r) (partitionStart r) (recoveryStart r) (f (fenced r)) (events r).
#[export] Instance set_events : Setter events := fun f r =>
  mkSBD (config r) (nodeID r) (hasCluster r) (state r) (knownNodes r) (reachableNodes r) (lastHeartbeat r) (missedHeartbeats r) (partitionStart r) (recoveryStart r) (fenced r) (f (events r)).

(** ** Operations *)

Definition NewSplitBrainDetector (id : string) (cluster : bool) (cfg : option SplitBrainConfig) : SplitBrainDetector :=
  mkSBD (default DefaultSplitBrainConfig cfg) id cluster PartitionStateNormal ∅ ∅ ∅ ∅ 0 0 false [].

(** The number of entries of a map of flags that the loop counts. *)
Definition count_flags (b : bool) (m : gmap string bool) : Z := Z.of_nat (size (filter (fun kv => kv.2 = b) m)).

(** This node counts itself. *)
Definition hasQuorum (sbd : SplitBrainDetector) : bool :=
  QuorumSize (config sbd) <=? 1 + count_flags true (reachableNodes sbd).

Definition GetState (sbd : SplitBrainDetector) : PartitionState := state sbd.
Definition IsFenced (sbd : SplitBrainDetector) : bool := fenced sbd.
Definition HasQuorum (sbd : SplitBrainDetector) : bool := hasQuorum sbd.

(** In the order [ids] of the map's iteration. *)
Definition GetReachableNodes (ids : list string) (sbd : SplitBrainDetector) : list string :=
  nodeID sbd :: filter (fun id => reachableNodes sbd !! id = Some true) ids.
Definition GetUnreachableNodes (ids : list string) (sbd : SplitBrainDetector) : list string :=
  filter (fun id => reachableNodes sbd !! id = Some false) ids.

Definition emitEvent (ev : SplitBrainEvent) (sbd : SplitBrainDetector) : SplitBrainDetector :=
  sbd <| events ::= fun l => l ++ [ev] |>.

(** An event without the node lists, and one with them. *)
Definition event (ty : SplitBrainEventType) (now : Z) (id : string) (q : bool) (sbd : SplitBrainDetector) : SplitBrainEvent :=
  mkEvent ty now id (state sbd) [] [] q.
Definition full_event (ty : SplitBrainEventType) (now : Z) (ids : list string) (q : bool) (sbd : SplitBrainDetector) : SplitBrainEvent :=
  mkEvent ty now (nodeID sbd) (state sbd) (GetReachableNodes ids sbd) (GetUnreachableNodes ids sbd) q.

Definition RegisterNode (now : Z) (info : NodeInfo) (sbd : SplitBrainDetector) : SplitBrainDetector :=
  let id := ni_ID info in
  let sbd := sbd <| knownNodes ::= <[id := info]> |> <| reachableNodes ::= <[id := true]> |>
                 <| lastHeartbeat ::= <[id := now]> |> <| missedHeartbeats ::= <[id := 0]> |> in
  emitEvent (event SplitBrainEventNodeJoined now id false sbd) sbd.

Definition UnregisterNode (now : Z) (id : string) (sbd : SplitBrainDetector) : SplitBrainDetector :=
  let sbd := sbd <| knownNodes ::= delete id |> <| reachableNodes ::= delete id |>
                 <| lastHeartbeat ::= delete id |> <| missedHeartbeats ::= delete id |> in
  emitEvent (event SplitBrainEventNodeLeft now id false sbd) sbd.

(** What redis has under a node's heartbeat key: no value, a value that does
    not parse, or a heartbeat with its time. *)
Inductive heartbeat := NoHeartbeat | BadHeartbeat | HeartbeatAt (t : Z).

Definition missed (id : string) (sbd : SplitBrainDetector) : Z := default 0 (missedHeartbeats sbd !! id).

(** [missedHeartbeats[id]++], and unreachable from the threshold on. *)
Definition miss (id : string) (sbd : SplitBrainDetector) : SplitBrainDetector :=
  let n := i64 (missed id sbd + 1) in
  let sbd := sbd <| missedHeartbeats ::= <[id := n]> |> in
  if FailureThreshold (config sbd) <=? n then sbd <| reachableNodes ::= <[id := false]> |> else sbd.

(** One node of the loop of [checkNodes]. On a missing heartbeat the flag is
    written only when it is set, on an old one always. *)
Definition checkNode (get : string -> heartbeat) (now : Z) (sbd : SplitBrainDetector) (id : string) : SplitBrainDetector :=
  if bool_decide (id = nodeID sbd) then sbd
  else
    match get id with
    | NoHeartbeat =>
        let n := i64 (missed id sbd + 1) in
        let sbd := sbd <| missedHeartbeats ::= <[id := n]> |> in
        if (FailureThreshold (config sbd) <=? n) && default false (reachableNodes sbd !! id)
        then sbd <| reachableNodes ::= <[id := false]> |> else sbd
    | BadHeartbeat => sbd
    | HeartbeatAt t =>
        if Time_Sub now t <? i64 (HeartbeatInterval (config sbd) * FailureThreshold (config sbd)) then
          let sbd := if default false (reachableNodes sbd !! id) then sbd
                     else sbd <| reachableNodes ::= <[id := true]> |> in
          sbd <| lastHeartbeat ::= <[id := t]> |> <| missedHeartbeats ::= <[id := 0]> |>
        else miss id sbd
    end.

(** The nodes are visited in the order [ids] of the map of known nodes. *)
Definition checkNodes (get : string -> heartbeat) (now : Z) (ids : list string) (sbd : SplitBrainDetector) : SplitBrainDetector :=
  if hasCluster sbd then foldl (checkNode get now) sbd ids else sbd.

Definition fenceNode (now : Z) (sbd : SplitBrainDetector) : SplitBrainDetector :=
  if fenced sbd then sbd
  else
    let sbd := sbd <| fenced := true |> <| state := PartitionStateFenced |> in
    emitEvent (event SplitBrainEventNodeFenced now (nodeID sbd) false sbd) sbd.

Definition unfenceNode (now : Z) (sbd : SplitBrainDetector) : SplitBrainDetector :=
  if fenced sbd then
    let sbd := sbd <| fenced := false |> in
    emitEvent (event SplitBrainEventNodeUnfenced now (nodeID sbd) (hasQuorum sbd) sbd) sbd
  else sbd.

Definition evaluatePartitionState (now : Z) (ids : list string) (sbd : SplitBrainDetector) : SplitBrainDetector :=
  let q := hasQuorum sbd in
  let unreachableCount := count_flags false (reachableNodes sbd) in
  match state sbd with
  | PartitionStateNormal =>
      if unreachableCount >? 0 then
        let sbd := sbd <| state := PartitionStateSuspected |> in
        emitEvent (full_event SplitBrainEventPartitionSuspected now ids q sbd) sbd
      else sbd
  | PartitionStateSuspected =>
      if unreachableCount =? 0 then sbd <| state := PartitionStateNormal |>
      else if negb q then
        let sbd := sbd <| state := PartitionStatePartitioned |> <| partitionStart := now |> in
        let sbd := emitEvent (full_event SplitBrainEventPartitionDetected now ids q sbd) sbd in
        let sbd := emitEvent (event SplitBrainEventQuorumLost now (nodeID sbd) q sbd) sbd in
        if FencingEnabled (config sbd) && negb q then fenceNode now sbd else sbd
      else sbd
  | PartitionStatePartitioned =>
      if q then
        let sbd := sbd <| state := PartitionStateRecovering |> <| recoveryStart := now |> in
        emitEvent (full_event SplitBrainEventQuorumRegained now ids q sbd) sbd
      else sbd
  | PartitionStateRecovering =>
      if negb q then sbd <| state := PartitionStatePartitioned |>
      else if RecoveryGracePeriod (config sbd) <=? Time_Sub now (recoveryStart sbd) then
        let sbd := sbd <| state := PartitionStateNormal |> in
        let sbd := emitEvent (full_event SplitBrainEventPartitionRecovered now ids q sbd) sbd in
        if fenced sbd then unfenceNode now sbd else sbd
      else sbd
  | PartitionStateFenced =>
      if q then unfenceNode now sbd <| state := PartitionStateRecovering |> <| recoveryStart := now |>
      else sbd
  end.

Record SplitBrainStats := mkStats {
  st_NodeID : string;
  st_State : PartitionState;
  st_HasQuorum : bool;
  st_IsFenced : bool;
  st_TotalNodes : Z;
  st_ReachableNodes : Z;
  st_UnreachableNodes : Z;
  st_QuorumSize : Z;
  st_PartitionDuration : Z }.

Definition GetStats (now : Z) (sbd : SplitBrainDetector) : SplitBrainStats :=
  mkStats (nodeID sbd) (state sbd) (hasQuorum sbd) (fenced sbd) (Z.of_nat (size (knownNodes sbd)) + 1)
    (1 + count_flags true (reachableNodes sbd)) (count_flags false (reachableNodes sbd)) (QuorumSize (config sbd))
    (if IsZero (partitionStart sbd) then 0 else Time_Sub now (partitionStart sbd)).

(** One tick of the detection loop. *)
Record tick := mkTick { t_now : Z; t_get : string -> heartbeat; t_known : list string; t_reach : list string }.
Definition detection_tick (t : tick) (sbd : SplitBrainDetector) : SplitBrainDetector :=
  evaluatePartitionState (t_now t) (t_reach t) (checkNodes (t_get t) (t_now t) (t_known t) sbd).
Definition detection (ts : list tick) (sbd : SplitBrainDetector) : SplitBrainDetector :=
  foldl (fun sbd t => detection_tick t sbd) sbd ts.

(** The life of a detector. *)
Inductive step (sbd : SplitBrainDetector) : SplitBrainDetector -> Prop :=
| step_register now info : step sbd (RegisterNode now info sbd)
| step_unregister now id : step sbd (UnregisterNode now id sbd)
| step_tick t : step sbd (detection_tick t sbd).

Definition reachable (id : string) (cluster : bool) (cfg : option SplitBrainConfig) (sbd : SplitBrainDetector) : Prop :=
  rtc step (NewSplitBrainDetector id cluster cfg) sbd.

(** Three nodes, the other two silent. *)
Definition node (id : string) : NodeInfo := mkNodeInfo id "" 0 "" 0 "" 0 "" [] true "" 0.
Definition three : SplitBrainDetector :=
  RegisterNode 0 (node "c") (RegisterNode 0 (node "b") (NewSplitBrainDetector "a" true None)).
Definition silent (now : Z) : tick := mkTick now (fun _ => NoHeartbeat) ["b"; "c"]%string ["b"; "c"]%string.
Definition heard (now : Z) : tick := mkTick now (fun _ => HeartbeatAt now) ["b"; "c"]%string ["b"; "c"]%string.

Example isolated_ex : map (fun n => (state (detection (map silent (take n [1; 2; 3; 4; 5])) three))) [1%nat; 2%nat; 3%nat; 4%nat; 5%nat] =
  [PartitionStateNormal; PartitionStateNormal; PartitionStateSuspected; PartitionStateFenced; PartitionStateFenced].
Proof. vm_compute. reflexivity. Qed.

(** ** Lemmas: quorums *)

(** The nodes a detector counts: itself and those it can reach. *)
Definition side (sbd : SplitBrainDetector) : gset string :=
  {[nodeID sbd]} ∪ dom (filter (fun kv => kv.2 = true) (reachableNodes sbd)).

Lemma side_size sbd : reachableNodes sbd !! nodeID sbd = None ->
  Z.of_nat (size (side sbd)) = 1 + count_flags true (reachableNodes sbd).
Proof.
  intros Hself. unfold side, count_flags. rewrite size_union, size_singleton, size_dom; [lia|].
  apply disjoint_singleton_l. rewrite elem_of_dom. intros [b [Hb _]%map_lookup_filter_Some]. congruence.
Qed.

Lemma count_flags_pos b m : 0 < count_flags b m <-> exists id, m !! id = Some b.
Proof.
  unfold count_flags. split.
  - intros H. destruct (map_size_ne_0_lookup_1 (filter (fun kv => kv.2 = b) m)) as [id [v Hv]]; [lia|].
    apply map_lookup_filter_Some in Hv as [Hv Hb]. cbn in Hb. subst. eauto.
  - intros [id Hid]. pose proof (map_size_ne_0_lookup_2 (filter (fun kv => kv.2 = b) m) id) as H.
    rewrite map_lookup_filter_Some_2 with (x := b) in H by done. specialize (H ltac:(done)). lia.
Qed.

Lemma count_flags_0 b m : (forall id, m !! id <> Some b) -> count_flags b m = 0.
Proof.
  intros H. destruct (Z.lt_ge_cases 0 (count_flags b m)) as [Hp|]; [|unfold count_flags in *; lia].
  apply count_flags_pos in Hp as [id Hid]. by destruct (H id).
Qed.

(** ** Guarantees: quorums *)

(** Two sides of a partition never both have a quorum, when the quorum is a
    majority: of two nodes of one cluster whose reachable sets are disjoint and
    that do not list themselves, at most one has it. *)
Theorem quorum_exclusive (cluster : gset string) d1 d2 :
  side d1 ⊆ cluster -> side d2 ⊆ cluster -> side d1 ## side d2 ->
  reachableNodes d1 !! nodeID d1 = None -> reachableNodes d2 !! nodeID d2 = None ->
  Z.of_nat (size cluster) < 2 * QuorumSize (config d1) -> QuorumSize (config d2) = QuorumSize (config d1) ->
  hasQuorum d1 = true -> hasQuorum d2 = false.
Proof.
  intros H1 H2 Hdis Hs1 Hs2 Hmaj Hq Hq1. unfold hasQuorum in *. rewrite <- side_size in * by done. bool_prop.
  apply Z.leb_gt. pose proof (subseteq_size (side d1 ∪ side d2) cluster ltac:(set_solver)) as Hsz.
  rewrite size_union in Hsz by done. lia.
Qed.

(** The default quorum is not a majority. A cluster of four nodes that
    falls into two pairs has a quorum on both sides under the default
    configuration, so neither side is ever suspected of being the minority. *)
Theorem default_quorum_splits a b c d :
  a <> b -> a <> c -> a <> d -> b <> c -> b <> d -> c <> d ->
  let pair x y u v := NewSplitBrainDetector x true None
    <| reachableNodes := {[y := true; u := false; v := false]} |> in
  hasQuorum (pair a b c d) = true /\ hasQuorum (pair c d a b) = true /\ side (pair a b c d) ## side (pair c d a b).
Proof.
  intros Hab Hac Had Hbc Hbd Hcd. cbv zeta.
  assert (forall x y u v : string, y <> u -> y <> v -> u <> v ->
    filter (fun kv => kv.2 = true) ({[y := true; u := false; v := false]} : gmap string bool) = {[y := true]}) as Hf.
  { intros x y u v Hyu Hyv Huv. apply map_eq. intros k. apply option_eq. intros w.
    rewrite map_lookup_filter_Some. cbn. rewrite !lookup_insert_Some, !lookup_singleton_Some. naive_solver. }
  unfold hasQuorum, count_flags, side. cbn. rewrite !(Hf a) by done. rewrite !map_size_singleton, !dom_singleton_L.
  split; [done|]. split; [done|]. set_solver.
Qed.

(** ** Lemmas: the state machine *)

(** What a tick keeps. *)
Definition identity (sbd : SplitBrainDetector) := (config sbd, nodeID sbd, hasCluster sbd, knownNodes sbd).
Definition machine (sbd : SplitBrainDetector) := (identity sbd, state sbd, fenced sbd, recoveryStart sbd).

Lemma checkNode_machine get now sbd id : machine (checkNode get now sbd id) = machine sbd.
Proof.
  unfold checkNode, miss. case_bool_decide; [done|]. destruct (get id); cbn; repeat case_match; done.
Qed.

Lemma checkNodes_machine get now ids sbd : machine (checkNodes get now ids sbd) = machine sbd.
Proof.
  unfold checkNodes. destruct (hasCluster sbd); [|done]. revert sbd.
  induction ids as [|id ids IH]; intros sbd; [done|]. cbn [foldl]. rewrite IH. apply checkNode_machine.
Qed.

(** The two fields agree. *)
Definition fence_ok (sbd : SplitBrainDetector) : Prop := fenced sbd = bool_decide (state sbd = PartitionStateFenced).

(** One evaluation as a transition of the state alone. *)
Definition next_state (cfg : SplitBrainConfig) (q unreachable grace : bool) (s : PartitionState) : PartitionState :=
  match s with
  | PartitionStateNormal => if unreachable then PartitionStateSuspected else s
  | PartitionStateSuspected =>
      if negb unreachable then PartitionStateNormal
      else if q then s
      else if FencingEnabled cfg then PartitionStateFenced else PartitionStatePartitioned
  | PartitionStatePartitioned => if q then PartitionStateRecovering else s
  | PartitionStateRecovering =>
      if negb q then PartitionStatePartitioned else if grace then PartitionStateNormal else s
  | PartitionStateFenced => if q then PartitionStateRecovering else s
  end.

Lemma evaluate_next now ids sbd : fence_ok sbd ->
  let sbd' := evaluatePartitionState now ids sbd in
  state sbd' = next_state (config sbd) (hasQuorum sbd) (0 <? count_flags false (reachableNodes sbd))
    (RecoveryGracePeriod (config sbd) <=? Time_Sub now (recoveryStart sbd)) (state sbd) /\
  fence_ok sbd' /\ identity sbd' = identity sbd /\ reachableNodes sbd' = reachableNodes sbd /\
  missedHeartbeats sbd' = missedHeartbeats sbd.
Proof.
  intros Hf. unfold fence_ok in *. unfold evaluatePartitionState, fenceNode, unfenceNode, next_state. cbv zeta.
  rewrite Z.gtb_ltb. assert (0 <= count_flags false (reachableNodes sbd)) as H0 by (unfold count_flags; lia).
  destruct (Z.ltb_spec 0 (count_flags false (reachableNodes sbd))), (Z.eqb_spec (count_flags false (reachableNodes sbd)) 0); try lia.
  all: destruct (state sbd) eqn:E, (hasQuorum sbd); cbn in *; rewrite ?Hf; cbn; rewrite ?E; cbn.
  all: try (split_and!; done).
  all: try (destruct (FencingEnabled (config sbd)); cbn; rewrite ?Hf; split_and!; done).
  all: destruct (_ <=? _); cbn; rewrite ?Hf; cbn; rewrite ?E; split_and!; try done; by rewrite Hf.
Qed.

Lemma fence_ok_step sbd sbd' : fence_ok sbd -> step sbd sbd' -> fence_ok sbd'.
Proof.
  intros Hf [now info|now id|t]; [done..|]. unfold detection_tick. apply evaluate_next.
  pose proof (checkNodes_machine (t_get t) (t_now t) (t_known t) sbd) as Hm. unfold machine, fence_ok in *.
  injection Hm as _ _ _ _ -> -> _. exact Hf.
Qed.

Lemma reachable_fence_ok id cluster cfg sbd : reachable id cluster cfg sbd -> fence_ok sbd.
Proof.
  intros H. pattern sbd. eapply (rtc_ind_r (fun sbd => fence_ok sbd)); [|intros; by eapply fence_ok_step|exact H]. done.
Qed.

Lemma tick_next t sbd (sbd1 := checkNodes (t_get t) (t_now t) (t_known t) sbd) : fence_ok sbd ->
  state (detection_tick t sbd) = next_state (config sbd) (hasQuorum sbd1) (0 <? count_flags false (reachableNodes sbd1))
    (RecoveryGracePeriod (config sbd) <=? Time_Sub (t_now t) (recoveryStart sbd)) (state sbd) /\
  fence_ok (detection_tick t sbd) /\ identity (detection_tick t sbd) = identity sbd /\
  reachableNodes (detection_tick t sbd) = reachableNodes sbd1 /\ missedHeartbeats (detection_tick t sbd) = missedHeartbeats sbd1.
Proof.
  intros Hf. pose proof (checkNodes_machine (t_get t) (t_now t) (t_known t) sbd) as Hm. fold sbd1 in Hm.
  assert (fence_ok sbd1) as Hf1. { unfold machine, fence_ok in *. injection Hm as _ _ _ _ -> -> _. exact Hf. }
  pose proof (evaluate_next (t_now t) (t_reach t) sbd1 Hf1) as H. unfold machine, identity in *.
  injection Hm as E1 E2 E3 E4 E5 E6 E7. rewrite E1, E2, E3, E4, E5, E7 in H. exact H.
Qed.

Definition fence_enabled (cfg : SplitBrainConfig) (sbd : SplitBrainDetector) : Prop :=
  config sbd = cfg /\ fence_ok sbd /\ (state sbd = PartitionStateFenced -> FencingEnabled cfg = true).

Lemma reachable_fence_enabled id cluster cfg sbd :
  reachable id cluster cfg sbd -> fence_enabled (default DefaultSplitBrainConfig cfg) sbd.
Proof.
  intros H. pattern sbd. eapply (rtc_ind_r (fence_enabled (default DefaultSplitBrainConfig cfg))); [| |exact H].
  { split; [done|]. by split. }
  intros s1 s2 _ Hs (Hc & Hf & Hfe). pose proof (fence_ok_step _ _ Hf Hs) as Hf2.
  destruct Hs as [now info|now i|t]; [done..|].
  destruct (tick_next t s1 Hf) as (Hst & _ & Hid & _). unfold identity in Hid. injection Hid as Hc2 _ _ _.
  split; [congruence|]. split; [done|]. rewrite Hst, Hc.
  unfold next_state. destruct (state s1); repeat case_match; try done; auto.
Qed.

(** ** Guarantees: fencing *)

(** In every reachable state the node is fenced exactly when its state says
    so, fencing happens only when it is enabled, and a node in the state
    Partitioned or Recovering is not fenced. *)
Theorem fenced_iff_state id cluster cfg sbd :
  reachable id cluster cfg sbd ->
  (IsFenced sbd = true <-> GetState sbd = PartitionStateFenced) /\
  (IsFenced sbd = true -> FencingEnabled (default DefaultSplitBrainConfig cfg) = true).
Proof.
  intros H. pose proof (reachable_fence_ok _ _ _ _ H) as Hf. unfold IsFenced, GetState.
  split; [rewrite Hf; apply bool_decide_eq_true|].
  destruct (reachable_fence_enabled _ _ _ _ H) as (Hc & _ & Hfe).
  intros Hfn. apply Hfe. unfold fence_ok in Hf. rewrite Hfn in Hf. by apply (bool_decide_eq_true (state sbd = PartitionStateFenced)).
Qed.

(** The run never sees a quorum. *)
Fixpoint quorumless (ts : list tick) (sbd : SplitBrainDetector) : Prop :=
  match ts with
  | [] => True
  | t :: ts =>
      hasQuorum (checkNodes (t_get t) (t_now t) (t_known t) sbd) = false /\ quorumless ts (detection_tick t sbd)
  end.

Lemma partitioned_unfenced ts sbd : fence_ok sbd -> state sbd = PartitionStatePartitioned -> quorumless ts sbd ->
  state (detection ts sbd) = PartitionStatePartitioned /\ fenced (detection ts sbd) = false.
Proof.
  revert sbd. induction ts as [|t ts IH]; intros sbd Hf Hst Hq; cbn [detection foldl].
  { split; [done|]. unfold fence_ok in Hf. by rewrite Hf, Hst. }
  destruct Hq as [Hq Hqs]. destruct (tick_next t sbd Hf) as (Hn & Hf' & _).
  rewrite Hq, Hst in Hn. cbn in Hn. by apply IH.
Qed.

(** A node that loses its quorum twice stays in service. A fenced node is
    unfenced as soon as it sees a quorum, at the start of the grace period; if
    the quorum is lost again within the grace period, the node goes back to the
    state Partitioned without being fenced, and stays unfenced for as long as
    there is no quorum. *)
Theorem refencing_missing id cluster cfg sbd t ts :
  reachable id cluster cfg sbd ->
  (state sbd = PartitionStateFenced -> hasQuorum (checkNodes (t_get t) (t_now t) (t_known t) sbd) = true ->
   state (detection_tick t sbd) = PartitionStateRecovering /\ fenced (detection_tick t sbd) = false) /\
  (state sbd = PartitionStateRecovering -> quorumless (t :: ts) sbd ->
   state (detection (t :: ts) sbd) = PartitionStatePartitioned /\ fenced (detection (t :: ts) sbd) = false).
Proof.
  intros Hr. pose proof (reachable_fence_ok _ _ _ _ Hr) as Hf.
  destruct (tick_next t sbd Hf) as (Hn & Hf1 & _). split; intros Hst.
  - intros Hq. rewrite Hst, Hq in Hn. cbn in Hn. split; [done|]. by rewrite Hf1, Hn.
  - intros [Hq Hqs]. rewrite Hst, Hq in Hn. cbn in Hn. cbn [detection foldl]. by apply partitioned_unfenced.
Qed.

(** ** Lemmas: a silent cluster *)

(** Every other node missed [j] heartbeats, and is unreachable from the
    threshold on; nothing else is in the tables. *)
Record silence (j : Z) (sbd : SplitBrainDetector) : Prop := {
  si_missed : forall id, is_Some (knownNodes sbd !! id) -> missed id sbd = j;
  si_flags : forall id, is_Some (reachableNodes sbd !! id) -> is_Some (knownNodes sbd !! id);
  si_known : forall id, is_Some (knownNodes sbd !! id) -> is_Some (reachableNodes sbd !! id);
  si_lost : FailureThreshold (config sbd) <= j -> forall id, reachableNodes sbd !! id <> Some true
}.

(** The nodes of [vis] have been visited on a silent round. *)
Record half_silence (j : Z) (vis : list string) (sbd : SplitBrainDetector) : Prop := {
  hs_missed : forall id, is_Some (knownNodes sbd !! id) -> missed id sbd = if bool_decide (id ∈ vis) then j + 1 else j;
  hs_flags : forall id, is_Some (reachableNodes sbd !! id) <-> is_Some (knownNodes sbd !! id);
  hs_lost : forall id, id ∈ vis -> FailureThreshold (config sbd) <= j + 1 -> reachableNodes sbd !! id <> Some true
}.

Section silent_round.
Context (j : Z) (Hj : 0 <= j < 2 ^ 62) (get : string -> heartbeat) (Hget : forall id, get id = NoHeartbeat) (now : Z).

Lemma missed_insert id id' n sbd :
  missed id' (sbd <| missedHeartbeats ::= <[id := n]> |>) = if bool_decide (id' = id) then n else missed id' sbd.
Proof.
  unfold missed. cbn. case_bool_decide as E; [subst; by rewrite lookup_insert_eq|by rewrite lookup_insert_ne].
Qed.

Lemma checkNode_silent id vis sbd :
  id <> nodeID sbd -> id ∉ vis -> is_Some (knownNodes sbd !! id) -> half_silence j vis sbd ->
  half_silence j (id :: vis) (checkNode get now sbd id).
Proof using Hj Hget.
  intros Hself Hid Hk [Hm Hf Hl]. unfold checkNode. rewrite bool_decide_eq_false_2, Hget by done. cbv zeta.
  assert (i64 (missed id sbd + 1) = j + 1) as ->.
  { rewrite (Hm id Hk), bool_decide_eq_false_2 by done. apply wraps_id; [lia|unfold is_s; lia]. }
  set (sbd1 := sbd <| missedHeartbeats ::= _ |>).
  assert (forall id', is_Some (knownNodes sbd !! id') -> missed id' sbd1 = if bool_decide (id' ∈ id :: vis) then j + 1 else j) as Hm1.
  { intros id' Hk'. unfold sbd1. rewrite missed_insert. case_bool_decide as E.
    - subst. by rewrite bool_decide_eq_true_2 by left.
    - rewrite Hm by done. erewrite bool_decide_ext; [reflexivity|]. set_solver. }
  change (reachableNodes sbd1) with (reachableNodes sbd). change (config sbd1) with (config sbd).
  destruct (FailureThreshold (config sbd) <=? j + 1) eqn:Et; cbn [andb].
  1: destruct (reachableNodes sbd !! id) as [[]|] eqn:Er; cbn [default].
  - split; [exact Hm1| |].
    + intros id'. change (is_Some (<[id := false]> (reachableNodes sbd) !! id') <-> is_Some (knownNodes sbd !! id')).
      destruct (decide (id' = id)) as [->|]; [|by rewrite lookup_insert_ne].
      rewrite lookup_insert_eq. split; [done|]. intros _. by eexists.
    + intros id' Hin Ht. change (<[id := false]> (reachableNodes sbd) !! id' <> Some true).
      destruct (decide (id' = id)) as [->|Hne]; [by rewrite lookup_insert_eq|].
      rewrite lookup_insert_ne by done. apply Hl; [set_solver|done].
  - split; [exact Hm1|exact Hf|]. intros id' Hin Ht. change (reachableNodes sbd !! id' <> Some true).
    destruct (decide (id' = id)) as [->|Hne]; [congruence|]. apply Hl; [set_solver|done].
  - split; [exact Hm1|exact Hf|]. intros id' Hin Ht. change (reachableNodes sbd !! id' <> Some true).
    destruct (decide (id' = id)) as [->|Hne]; [congruence|]. apply Hl; [set_solver|done].
  - bool_prop. split; [exact Hm1|exact Hf|]. intros id' Hin Ht. change (FailureThreshold (config sbd) <= j + 1) in Ht. lia.
Qed.

Lemma checkNodes_silent ids vis sbd :
  NoDup (ids ++ vis) -> (forall id, id ∈ ids -> id <> nodeID sbd /\ is_Some (knownNodes sbd !! id)) ->
  half_silence j vis sbd -> half_silence j (rev ids ++ vis) (foldl (checkNode get now) sbd ids).
Proof using Hj Hget.
  revert vis sbd. induction ids as [|id ids IH]; intros vis sbd Hnd Hids Hs; [done|]. cbn [foldl rev].
  rewrite <- app_assoc. cbn [app]. cbn [app] in Hnd. apply NoDup_cons in Hnd as [Hnin Hnd].
  destruct (Hids id ltac:(left)) as [Hself Hk].
  pose proof (checkNode_machine get now sbd id) as Hm. unfold machine, identity in Hm. injection Hm as _ E2 _ E4 _ _ _.
  apply IH.
  - rewrite <- Permutation_middle. constructor; [set_solver|done].
  - rewrite E2, E4. intros. apply Hids. by right.
  - apply checkNode_silent; [done|set_solver|done|done].
Qed.
End silent_round.

(** A tick on which no heartbeat of the known nodes is found. *)
Definition silent_tick (sbd : SplitBrainDetector) (t : tick) : Prop :=
  (forall id, t_get t id = NoHeartbeat) /\ NoDup (t_known t) /\
  (forall id, id ∈ t_known t <-> is_Some (knownNodes sbd !! id)).

Lemma silence_tick j t sbd :
  0 <= j < 2 ^ 62 -> hasCluster sbd = true -> knownNodes sbd !! nodeID sbd = None -> fence_ok sbd ->
  silent_tick sbd t -> silence j sbd ->
  silence (j + 1) (checkNodes (t_get t) (t_now t) (t_known t) sbd) /\ silence (j + 1) (detection_tick t sbd).
Proof.
  intros Hj Hcl Hself Hf (Hg & Hnd & Hk) [Hm Hf1 Hf2 Hl].
  set (sbd1 := checkNodes (t_get t) (t_now t) (t_known t) sbd).
  assert (silence (j + 1) sbd1) as Hs.
  { pose proof (checkNodes_machine (t_get t) (t_now t) (t_known t) sbd) as E. unfold machine, identity in E.
    injection E as E1 E2 E3 E4 _ _ _. fold sbd1 in E1, E2, E3, E4.
    assert (half_silence j (rev (t_known t) ++ []) sbd1) as [Hm' Hf' Hl'].
    { unfold sbd1, checkNodes. rewrite Hcl. apply checkNodes_silent; [done|done|by rewrite app_nil_r| |].
      - intros id Hin%Hk. split; [|done]. intros ->. rewrite Hself in Hin. by destruct Hin.
      - split; [|split; auto|]; intros id; [by intros; rewrite bool_decide_eq_false_2 by apply not_elem_of_nil; auto|].
        by intros ?%elem_of_nil. }
    assert (forall id, is_Some (knownNodes sbd1 !! id) -> id ∈ rev (t_known t) ++ []) as Hall.
    { intros id. rewrite E4, app_nil_r, list_elem_of_In, <- in_rev, <- list_elem_of_In. apply Hk. }
    split.
    - intros id Hid. rewrite Hm' by done. by rewrite bool_decide_eq_true_2 by auto.
    - intros id. apply Hf'.
    - intros id. apply Hf'.
    - intros Ht id Hr. apply (Hl' id); [|done|done]. apply Hall, Hf'. by exists true. }
  split; [done|]. destruct (tick_next t sbd Hf) as (_ & _ & Hi & Er & Em). fold sbd1 in Er, Em.
  pose proof (checkNodes_machine (t_get t) (t_now t) (t_known t) sbd) as E. unfold machine, identity in *.
  injection E as E1 E2 E3 E4 _ _ _. injection Hi as I1 I2 I3 I4. fold sbd1 in E1, E2, E3, E4.
  destruct Hs as [S1 S2 S3 S4]. unfold missed in *.
  split; unfold missed; rewrite ?I1, ?I4, ?Er, ?Em, <- ?E1, <- ?E4; done.
Qed.

(** On a silent round flags are only lowered. *)
Definition lowered (m m' : gmap string bool) : Prop :=
  (forall id, m' !! id = Some true -> m !! id = Some true) /\ (forall id, m !! id = Some false -> m' !! id = Some false).

Lemma checkNode_lowers get now sbd id : get id = NoHeartbeat ->
  lowered (reachableNodes sbd) (reachableNodes (checkNode get now sbd id)).
Proof.
  intros Hg. unfold checkNode. case_bool_decide; [done|]. rewrite Hg. cbv zeta. destruct (_ && _) eqn:E; [|done].
  change (lowered (reachableNodes sbd) (<[id := false]> (reachableNodes sbd))). split; intros id'.
  - rewrite lookup_insert_Some. naive_solver.
  - intros Hf. destruct (decide (id' = id)) as [->|]; [by rewrite lookup_insert_eq|by rewrite lookup_insert_ne].
Qed.

Lemma checkNodes_lowers get now ids sbd : (forall id, get id = NoHeartbeat) ->
  lowered (reachableNodes sbd) (reachableNodes (checkNodes get now ids sbd)).
Proof.
  intros Hg. unfold checkNodes. destruct (hasCluster sbd); [|done]. revert sbd.
  induction ids as [|id ids IH]; intros sbd; [done|]. cbn [foldl].
  destruct (checkNode_lowers get now sbd id (Hg id)) as [H1 H2], (IH (checkNode get now sbd id)) as [H3 H4].
  split; auto.
Qed.

Lemma lowered_count m m' : lowered m m' -> count_flags true m' <= count_flags true m.
Proof.
  intros [H _]. unfold count_flags. rewrite <- !size_dom. apply inj_le, subseteq_size.
  intros id. rewrite !elem_of_dom. intros [b [Hb E]%map_lookup_filter_Some]. cbn in E. subst b.
  exists true. apply map_lookup_filter_Some. auto.
Qed.

(** How far an isolated node has got after [j] silent rounds. *)
Record isolation (j : Z) (sbd : SplitBrainDetector) : Prop := {
  is_silence : silence j sbd;
  is_fence : fence_ok sbd;
  is_state : state sbd = PartitionStateNormal \/ state sbd = PartitionStateSuspected \/ state sbd = PartitionStateFenced;
  is_suspected : state sbd = PartitionStateSuspected -> 0 < count_flags false (reachableNodes sbd);
  is_fenced : state sbd = PartitionStateFenced -> hasQuorum sbd = false;
  is_threshold : FailureThreshold (config sbd) <= j -> 1 <= j -> state sbd <> PartitionStateNormal;
  is_end : FailureThreshold (config sbd) + 1 <= j -> 2 <= j -> state sbd = PartitionStateFenced
}.

Lemma isolation_tick j t sbd :
  0 <= j < 2 ^ 62 -> hasCluster sbd = true -> knownNodes sbd !! nodeID sbd = None -> knownNodes sbd <> ∅ ->
  FencingEnabled (config sbd) = true -> 2 <= QuorumSize (config sbd) -> silent_tick sbd t ->
  isolation j sbd -> isolation (j + 1) (detection_tick t sbd).
Proof.
  intros Hj Hcl Hself Hne Hfe Hq Ht [Hs Hf Hst Hsus Hfen Hth Hend].
  destruct (silence_tick j t sbd Hj Hcl Hself Hf Ht Hs) as [Hs1 Hs2]. destruct (tick_next t sbd Hf) as (Hn & Hf' & Hi & Hr & _).
  destruct (checkNodes_lowers (t_get t) (t_now t) (t_known t) sbd (proj1 Ht)) as [Hlow1 Hlow2].
  pose proof (lowered_count _ _ (conj Hlow1 Hlow2)) as Hcnt.
  set (sbd1 := checkNodes (t_get t) (t_now t) (t_known t) sbd) in *.
  pose proof (checkNodes_machine (t_get t) (t_now t) (t_known t) sbd) as E. unfold machine, identity in E, Hi.
  injection E as E1 E2 E3 E4 _ _ _. injection Hi as I1 I2 I3 I4. fold sbd1 in E1, E2, E3, E4.
  assert (0 < count_flags false (reachableNodes sbd) -> 0 < count_flags false (reachableNodes sbd1)) as Hkeep.
  { rewrite !count_flags_pos. intros [id Hid]. eauto. }
  assert (FailureThreshold (config sbd) <= j + 1 -> hasQuorum sbd1 = false /\ 0 < count_flags false (reachableNodes sbd1)) as Hlost.
  { intros Hle. rewrite <- E1 in Hle. pose proof (si_lost _ _ Hs1 Hle) as Hl. split.
    - unfold hasQuorum. rewrite (count_flags_0 true) by done. apply Z.leb_gt. rewrite E1. lia.
    - apply count_flags_pos. destruct (map_choose (knownNodes sbd) Hne) as (id & v & Hid).
      exists id. destruct (si_known _ _ Hs1 id) as [[] Hb]; [by rewrite E4; eexists| |done]. by destruct (Hl id). }
  assert (hasQuorum sbd = false -> hasQuorum sbd1 = false) as Hnoq.
  { unfold hasQuorum. rewrite E1, !Z.leb_gt. lia. }
  assert (hasQuorum (detection_tick t sbd) = hasQuorum sbd1) as Hq'.
  { unfold hasQuorum. by rewrite Hr, I1, E1. }
  clear Hlow1 Hlow2 Hcnt. split; [done|done| | | | |]; rewrite ?I1, ?Hr, ?Hq', ?Hn.
  all: destruct Hst as [Hst|[Hst|Hst]]; rewrite Hst in *; cbn [next_state]; rewrite ?Hfe.
  all: try specialize (Hsus eq_refl); try specialize (Hfen eq_refl).
  all: try (rewrite (Hnoq Hfen)); try (rewrite (proj2 (Z.ltb_lt 0 _) (Hkeep Hsus)); cbn [negb]).
  all: try (destruct (Z.ltb_spec 0 (count_flags false (reachableNodes sbd1))); cbn [negb]).
  all: try (destruct (hasQuorum sbd1) eqn:Eq; cbn [negb]).
  all: try done; try tauto; try (intros; destruct Hlost as [? ?]; [lia|congruence || lia]); auto.
  intros. by destruct Hth; [lia|lia|].
Qed.

(** ** Guarantees: isolation *)

(** An isolated node fences itself. From the normal state, with all its
    neighbours just heard, a node that hears no heartbeat any more is fenced
    after one round more than the failure threshold and stays fenced, when
    fencing is enabled, the quorum is at least two and it knows another node,
    whatever order the runtime walks the maps in. *)
Theorem isolated_node_fences id cfg sbd ts :
  reachable id true cfg sbd -> state sbd = PartitionStateNormal -> silence 0 sbd ->
  hasCluster sbd = true -> knownNodes sbd !! nodeID sbd = None -> knownNodes sbd <> ∅ ->
  FencingEnabled (config sbd) = true -> 2 <= QuorumSize (config sbd) -> 1 <= FailureThreshold (config sbd) ->
  Forall (silent_tick sbd) ts -> FailureThreshold (config sbd) + 1 <= Z.of_nat (length ts) < 2 ^ 62 ->
  IsFenced (detection ts sbd) = true.
Proof.
  intros Hr Hst Hs Hcl Hself Hne Hfe Hq Hth Hts Hlen. pose proof (reachable_fence_ok _ _ _ _ Hr) as Hf.
  assert (forall ts j s, Forall (silent_tick sbd) ts -> identity s = identity sbd -> 0 <= j -> j + Z.of_nat (length ts) < 2 ^ 62 ->
    isolation j s -> isolation (j + Z.of_nat (length ts)) (detection ts s) /\ config (detection ts s) = config sbd) as H.
  { clear ts Hts Hlen. induction ts as [|t ts IH]; intros j s Hts Hi Hj Hjl Hs'; cbn [detection foldl length].
    { rewrite Z.add_0_r. split; [done|]. by injection Hi. }
    apply Forall_cons in Hts as [Ht Hts]. cbn [length] in Hjl. pose proof Hi as Hi0. unfold identity in Hi.
    injection Hi as I1 I2 I3 I4. replace (j + Z.of_nat (S (length ts))) with (j + 1 + Z.of_nat (length ts)) by lia.
    apply IH; [done| |lia|lia|].
    - destruct (tick_next t s (is_fence _ _ Hs')) as (_ & _ & -> & _). done.
    - apply isolation_tick; try congruence; [lia|]. unfold silent_tick in *. by rewrite I4. }
  destruct (H ts 0 sbd Hts eq_refl ltac:(lia) ltac:(lia)) as [Hiso Hcfg].
  - split; try done; try (by left); intros; try congruence; lia.
  - destruct Hiso as [_ Hfo _ _ _ _ Hend]. unfold IsFenced. rewrite Hfo. apply bool_decide_eq_true.
    rewrite Hcfg in Hend. apply Hend; lia.
Qed.

(** ** Witnesses *)

Lemma three_reachable : reachable "a" true None three.
Proof.
  unfold three. eapply rtc_r; [eapply rtc_r; [apply rtc_refl|apply step_register]|apply step_register].
Qed.

Lemma known_three (P : string -> Prop) : P "b"%string -> P "c"%string ->
  forall id, is_Some (knownNodes three !! id) -> P id.
Proof.
  intros Hb Hc id. change (knownNodes three) with (<["c"%string := node "c"]> (<["b"%string := node "b"]> (∅ : gmap string NodeInfo))).
  rewrite !lookup_insert_is_Some, lookup_empty. intros [<-|[_ [<-|[_ H]]]]; [done|done|by destruct H].
Qed.

Lemma silence_three : silence 0 three.
Proof.
  split.
  - by apply known_three.
  - intros id. change (reachableNodes three) with (<["c"%string := true]> (<["b"%string := true]> (∅ : gmap string bool))).
    rewrite !lookup_insert_is_Some, lookup_empty.
    intros [<-|[_ [<-|[_ H]]]]; [vm_compute; eauto|vm_compute; eauto|by destruct H].
  - apply known_three; vm_compute; eauto.
  - intros H. vm_compute in H. by destruct H.
Qed.

Lemma silent_three now : silent_tick three (silent now).
Proof.
  split; [done|]. split; [apply (bool_decide_unpack _); vm_compute; exact I|]. intros id. split.
  - cbn. rewrite !elem_of_cons. intros [->|[->|H%elem_of_nil]]; [vm_compute; eauto|vm_compute; eauto|done].
  - revert id. apply known_three; [left|right; left].
Qed.

Lemma isolated_node_fences_witness : IsFenced (detection (map silent [1; 2; 3; 4]) three) = true.
Proof.
  apply (isolated_node_fences "a" None).
  - apply three_reachable.
  - reflexivity.
  - apply silence_three.
  - reflexivity.
  - reflexivity.
  - intros H. apply (f_equal (.!! "b"%string)) in H. vm_compute in H. discriminate.
  - reflexivity.
  - vm_compute. discriminate.
  - vm_compute. discriminate.
  - cbn [map]. repeat (apply Forall_cons_2; [apply silent_three|]). apply Forall_nil_2.
  - vm_compute. split; [discriminate|reflexivity].
Defined.

Lemma ticks_reachable ts id cluster cfg sbd : reachable id cluster cfg sbd -> reachable id cluster cfg (detection ts sbd).
Proof.
  revert sbd. induction ts as [|t ts IH]; intros sbd H; [done|]. apply IH. eapply rtc_r; [exact H|apply step_tick].
Qed.

Lemma fenced_iff_state_witness :
  IsFenced (detection (map silent [1; 2; 3; 4]) three) = true <->
  GetState (detection (map silent [1; 2; 3; 4]) three) = PartitionStateFenced.
Proof. apply (fenced_iff_state "a" true None). apply ticks_reachable, three_reachable. Defined.

Definition flapped : SplitBrainDetector :=
  detection (map silent [1; 2; 3; 4] ++ [heard 5; silent 6; silent 7]) three.
Lemma refencing_missing_witness : fenced (detection (map silent [8; 9; 10]) flapped) = false.
Proof.
  apply (refencing_missing "a" true None flapped (silent 8) (map silent [9; 10])).
  - apply ticks_reachable, three_reachable.
  - reflexivity.
  - vm_compute. repeat split.
Defined.

Lemma quorum_exclusive_witness :
  hasQuorum (detection (map silent [1; 2; 3]) three) = false.
Proof.
  apply (quorum_exclusive {["a"; "b"; "c"]}%string
    (RegisterNode 0 (node "c") (NewSplitBrainDetector "b" true None)) (detection (map silent [1; 2; 3]) three)).
  - apply (bool_decide_unpack _). vm_compute. exact I.
  - apply (bool_decide_unpack _). vm_compute. exact I.
  - apply (bool_decide_unpack _). vm_compute. exact I.
  - reflexivity.
  - reflexivity.
  - vm_compute. reflexivity.
  - reflexivity.
  - reflexivity.
Defined.

Lemma default_quorum_splits_witness :
  hasQuorum (NewSplitBrainDetector "a" true None
    <| reachableNodes := {["b" := true; "c" := false; "d" := false]}%string |>) = true.
Proof. apply (default_quorum_splits "a" "b" "c" "d"); discriminate. Defined.
