(* ===== verification/Backpressure.v ===== *)
(** * Backpressure

    Models src/internal/backpressure.go: the controller of a bounded queue, the
    recording and media wrappers, and the adaptive controller.

    The controller is used by many goroutines and works on atomics, so it is
    modelled twice: as operations that run to the end, and, for [Acquire], as
    the steps between which other goroutines can run. A waiting [Acquire]
    becomes runnable by the signal [Release] puts into a channel of capacity
    one. The buffers themselves and the statistics maps are left out. *)

From Stdlib Require Import ZArith Lia String.
From stdpp Require Import base numbers list gmap strings.
From S2P Require Import Prelude GoFloat.

Local Open Scope Z_scope.
Local Open Scope go_scope.
#[local] Set Warnings "-clear-no-such-hyp,-register-all".

(** ** Data *)

Inductive bp_error := ErrBackpressure | ErrBackpressureOff | ErrQueueClosed | ErrUnknownStrategy | ErrContext.

(** Go's strategies are integers, so there may be one that none of the
    constants names. *)
Inductive BackpressureStrategy := StrategyBlock | StrategyDrop | StrategyDropOldest | StrategyReject | StrategyOther.
#[export] Instance BackpressureStrategy_eq_dec : EqDecision BackpressureStrategy.
Proof. solve_decision. Defined.

Record BackpressureConfig := mkBPConfig {
  MaxQueueSize : Z;
  Strategy : BackpressureStrategy;
  BlockTimeout : Z;
  HighWaterMark : float64;
  LowWaterMark : float64;
  MetricsInterval : Z }.

Definition DefaultBackpressureConfig : BackpressureConfig :=
  mkBPConfig 10000 StrategyDropOldest (5 * Second) (lit 8 10) (lit 6 10) Second.

(** [space] is whether the channel [spaceCh] holds a signal. *)
Record BackpressureController := mkBP {
  config : BackpressureConfig;
  queueSize : Z;
  totalEnqueued : Z;
  totalDequeued : Z;
  totalDropped : Z;
  totalRejected : Z;
  underPressure : bool;
  space : bool;
  closed : bool }.
#[export] Instance set_queueSize : Setter queueSize := fun f r =>
  mkBP (config r) (f (queueSize r)) (totalEnqueued r) (totalDequeued r) (totalDropped r) (totalRejected r) (underPressure r) (space r) (closed r).
#[export] Instance set_totalEnqueued : Setter totalEnqueued := fun f r =>
  mkBP (config r) (queueSize r) (f (totalEnqueued r)) (totalDequeued r) (totalDropped r) (totalRejected r) (underPressure r) (space r) (closed r).
#[export] Instance set_totalDequeued : Setter totalDequeued := fun f r =>
  mkBP (config r) (queueSize r) (totalEnqueued r) (f (totalDequeued r)) (totalDropped r) (totalRejected r) (underPressure r) (space r) (closed r).
#[export] Instance set_totalDropped : Setter totalDropped := fun f r =>
  mkBP (config r) (queueSize r) (totalEnqueued r) (totalDequeued r) (f (totalDropped r)) (totalRejected r) (underPressure r) (space r) (closed r).
#[export] Instance set_totalRejected : Setter totalRejected := fun f r =>
  mkBP (config r) (queueSize r) (totalEnqueued r) (totalDequeued r) (totalDropped r) (f (totalRejected r)) (underPressure r) (space r) (closed r).
#[export] Instance set_underPressure : Setter underPressure := fun f r =>
  mkBP (config r) (queueSize r) (totalEnqueued r) (totalDequeued r) (totalDropped r) (totalRejected r) (f (underPressure r)) (space r) (closed r).
#[export] Instance set_space : Setter space := fun f r =>
  mkBP (config r) (queueSize r) (totalEnqueued r) (totalDequeued r) (totalDropped r) (totalRejected r) (underPressure r) (f (space r)) (closed r).
#[export] Instance set_closed : Setter closed := fun f r =>
  mkBP (config r) (queueSize r) (totalEnqueued r) (totalDequeued r) (totalDropped r) (totalRejected r) (underPressure r) (space r) (f (closed r)).

Definition add64 (d n : Z) : Z := i64 (n + d).

(** ** The controller *)

Definition NewBackpressureController (cfg : option BackpressureConfig) : BackpressureController :=
  mkBP (default DefaultBackpressureConfig cfg) 0 0 0 0 0 false false false.

Definition maxSize (bp : BackpressureController) : Z := MaxQueueSize (config bp).

Definition checkHighWaterMark (currentSize maxSize : Z) (bp : BackpressureController) : BackpressureController :=
  if fle (HighWaterMark (config bp)) (fdiv (of_int currentSize) (of_int maxSize))
  then bp <| underPressure := true |> else bp.

(** [newSize := bp.queueSize.Add(1); bp.totalEnqueued.Add(1); bp.checkHighWaterMark(...)]. *)
Definition enqueue (bp : BackpressureController) : BackpressureController :=
  let bp := bp <| queueSize ::= add64 1 |> in
  checkHighWaterMark (queueSize bp) (maxSize bp) (bp <| totalEnqueued ::= add64 1 |>).

(** What a goroutine in [Acquire] does after looking at the queue size. *)
Inductive verdict := Admit | Refuse (e : bp_error) | Wait.

Definition full (bp : BackpressureController) : bool := maxSize bp <=? queueSize bp.

(** From the call to the decision: the load of the size and the counting of a
    refusal. *)
Definition acquire_check (bp : BackpressureController) : verdict * BackpressureController :=
  if closed bp then (Refuse ErrQueueClosed, bp)
  else
    match Strategy (config bp) with
    | StrategyBlock => (if full bp then Wait else Admit, bp)
    | StrategyDrop =>
        if full bp then (Refuse ErrBackpressure, bp <| totalDropped ::= add64 1 |>) else (Admit, bp)
    | StrategyDropOldest => (Admit, bp)
    | StrategyReject =>
        if full bp then (Refuse ErrBackpressure, bp <| totalRejected ::= add64 1 |>) else (Admit, bp)
    | StrategyOther => (Refuse ErrUnknownStrategy, bp)
    end.

(** [Acquire] with nothing in between; [Wait] when it would block. *)
Definition Acquire (bp : BackpressureController) : verdict * BackpressureController :=
  match acquire_check bp with
  | (Admit, bp) => (Admit, enqueue bp)
  | r => r
  end.

(** A failed send on a full channel is the [default] branch. *)
Definition Release (bp : BackpressureController) : BackpressureController :=
  let bp := bp <| queueSize ::= add64 (-1) |> in
  let newSize := queueSize bp in
  let bp := bp <| totalDequeued ::= add64 1 |> in
  let bp := if fle (fdiv (of_int newSize) (of_int (maxSize bp))) (LowWaterMark (config bp))
            then bp <| underPressure := false |> else bp in
  bp <| space := true |>.

Definition ShouldDrop (bp : BackpressureController) : bool :=
  if bool_decide (Strategy (config bp) = StrategyDropOldest) then maxSize bp <? queueSize bp else false.

Definition NotifyDropped (bp : BackpressureController) : BackpressureController :=
  bp <| queueSize ::= add64 (-1) |> <| totalDropped ::= add64 1 |>.

Definition IsUnderPressure (bp : BackpressureController) : bool := underPressure bp.
Definition GetQueueSize (bp : BackpressureController) : Z := queueSize bp.
Definition GetQueueUtilization (bp : BackpressureController) : float64 :=
  fdiv (of_int (queueSize bp)) (of_int (maxSize bp)).
Definition Close (bp : BackpressureController) : BackpressureController := bp <| closed := true |>.

(** ** Concurrent callers

    Where a goroutine stands: decided to enter but not counted yet, asleep in
    the [select], or woken by the signal and about to look again. *)
Inductive pc := Adding | Waiting | Woken.
#[export] Instance pc_eq_dec : EqDecision pc.
Proof. solve_decision. Defined.

Record system := mkSystem { ctl : BackpressureController; threads : gmap nat pc }.

Inductive bp_step : system -> system -> Prop :=
| s_admit bp ts t bp' : ts !! t = None -> acquire_check bp = (Admit, bp') ->
    bp_step (mkSystem bp ts) (mkSystem bp' (<[t := Adding]> ts))
| s_refuse bp ts t e bp' : ts !! t = None -> acquire_check bp = (Refuse e, bp') ->
    bp_step (mkSystem bp ts) (mkSystem bp' ts)
| s_sleep bp ts t bp' : ts !! t = None -> acquire_check bp = (Wait, bp') ->
    bp_step (mkSystem bp ts) (mkSystem bp' (<[t := Waiting]> ts))
| s_add bp ts t : ts !! t = Some Adding -> bp_step (mkSystem bp ts) (mkSystem (enqueue bp) (delete t ts))
| s_wake bp ts t : ts !! t = Some Waiting -> space bp = true ->
    bp_step (mkSystem bp ts) (mkSystem (bp <| space := false |>) (<[t := Woken]> ts))
| s_recheck bp ts t : ts !! t = Some Woken ->
    bp_step (mkSystem bp ts) (mkSystem bp (<[t := if full bp then Waiting else Adding]> ts))
| s_timeout bp ts t : ts !! t = Some Waiting -> 0 < BlockTimeout (config bp) ->
    bp_step (mkSystem bp ts) (mkSystem (bp <| totalRejected ::= add64 1 |>) (delete t ts))
| s_cancel bp ts t : ts !! t = Some Waiting -> bp_step (mkSystem bp ts) (mkSystem bp (delete t ts))
| s_release bp ts : bp_step (mkSystem bp ts) (mkSystem (Release bp) ts)
| s_drop bp ts : bp_step (mkSystem bp ts) (mkSystem (NotifyDropped bp) ts)
| s_close bp ts : bp_step (mkSystem bp ts) (mkSystem (Close bp) ts).

(** ** Media *)

Record streamBackpressure := mkStream { packets : Z; dropped : Z; throttled : bool }.

Record MediaBackpressure := mkMedia {
  streams : gmap string streamBackpressure;
  maxPacketsPerStream : Z;
  maxTotalPackets : Z;
  totalPackets : Z;
  media_totalDropped : Z;
  totalThrottled : Z }.
#[export] Instance set_streams : Setter streams := fun f r =>
  mkMedia (f (streams r)) (maxPacketsPerStream r) (maxTotalPackets r) (totalPackets r) (media_totalDropped r) (totalThrottled r).
#[export] Instance set_totalPackets : Setter totalPackets := fun f r =>
  mkMedia (streams r) (maxPacketsPerStream r) (maxTotalPackets r) (f (totalPackets r)) (media_totalDropped r) (totalThrottled r).
#[export] Instance set_media_totalDropped : Setter media_totalDropped := fun f r =>
  mkMedia (streams r) (maxPacketsPerStream r) (maxTotalPackets r) (totalPackets r) (f (media_totalDropped r)) (totalThrottled r).
#[export] Instance set_totalThrottled : Setter totalThrottled := fun f r =>
  mkMedia (streams r) (maxPacketsPerStream r) (maxTotalPackets r) (totalPackets r) (media_totalDropped r) (f (totalThrottled r)).

Definition NewMediaBackpressure (perStream total : Z) : MediaBackpressure := mkMedia ∅ perStream total 0 0 0.

Definition stream_of (mb : MediaBackpressure) (id : string) : streamBackpressure :=
  default (mkStream 0 0 false) (streams mb !! id).

Definition AllowPacket (id : string) (mb : MediaBackpressure) : bool * MediaBackpressure :=
  if maxTotalPackets mb <=? totalPackets mb then (false, mb <| media_totalDropped ::= add64 1 |>)
  else
    let sb := stream_of mb id in
    if throttled sb then
      (false, mb <| streams ::= <[id := mkStream (packets sb) (add64 1 (dropped sb)) true]> |>
                 <| totalThrottled ::= add64 1 |>)
    else
      let n := add64 1 (packets sb) in
      let mb := mb <| totalPackets ::= add64 1 |> in
      if n >? maxPacketsPerStream mb then
        (false, mb <| streams ::= <[id := mkStream n (add64 1 (dropped sb)) true]> |> <| totalThrottled ::= add64 1 |>)
      else (true, mb <| streams ::= <[id := mkStream n (dropped sb) false]> |>).

Definition PacketProcessed (id : string) (mb : MediaBackpressure) : MediaBackpressure :=
  match streams mb !! id with
  | None => mb
  | Some sb =>
      let newCount := add64 (-1) (packets sb) in
      let mb := mb <| totalPackets ::= add64 (-1) |> in
      mb <| streams ::= <[id := mkStream newCount (dropped sb)
              (if newCount <? Z.quot (maxPacketsPerStream mb) 2 then false else throttled sb)]> |>
  end.

Definition RemoveStream (id : string) (mb : MediaBackpressure) : MediaBackpressure :=
  match streams mb !! id with
  | None => mb
  | Some sb => mb <| totalPackets ::= add64 (- packets sb) |> <| streams ::= delete id |>
  end.

(** ** Recording *)

Record sessionBackpressure := mkSession { s_queueSize : Z; s_dropped : Z; lastDrop : Z }.
Record RecordingBackpressure := mkRecording {
  rb_bp : BackpressureController;
  maxBufferSize : Z;
  rb_sessions : gmap string sessionBackpressure }.

Definition RecordingConfig : BackpressureConfig :=
  mkBPConfig 5000 StrategyDropOldest Second (lit 75 100) (lit 5 10) 0.
Definition NewRecordingBackpressure (cfg : option BackpressureConfig) : RecordingBackpressure :=
  mkRecording (NewBackpressureController (Some (default RecordingConfig cfg))) 2048 ∅.

Definition getOrCreateSession (id : string) (rb : RecordingBackpressure) : sessionBackpressure :=
  default (mkSession 0 0 0) (rb_sessions rb !! id).

Definition recordDrop (now : Z) (id : string) (rb : RecordingBackpressure) : RecordingBackpressure :=
  let sb := getOrCreateSession id rb in
  mkRecording (rb_bp rb) (maxBufferSize rb) (<[id := mkSession (s_queueSize sb) (add64 1 (s_dropped sb)) now]> (rb_sessions rb)).

(** The buffer taken from the pool on success is left out. *)
Definition AcquireBuffer (now : Z) (id : string) (rb : RecordingBackpressure) : verdict * RecordingBackpressure :=
  let '(v, bp) := Acquire (rb_bp rb) in
  let rb := mkRecording bp (maxBufferSize rb) (rb_sessions rb) in
  match v with
  | Admit =>
      let sb := getOrCreateSession id rb in
      (v, mkRecording bp (maxBufferSize rb)
            (<[id := mkSession (add64 1 (s_queueSize sb)) (s_dropped sb) (lastDrop sb)]> (rb_sessions rb)))
  | Refuse _ => (v, recordDrop now id rb)
  | Wait => (v, rb)
  end.

(** Whether the buffer goes back to the pool. *)
Definition recycled (rb : RecordingBackpressure) (capacity : Z) : bool := capacity <=? i64 (maxBufferSize rb * 2).

Definition ReleaseBuffer (id : string) (rb : RecordingBackpressure) : RecordingBackpressure :=
  mkRecording (Release (rb_bp rb)) (maxBufferSize rb)
    (alter (fun sb => mkSession (add64 (-1) (s_queueSize sb)) (s_dropped sb) (lastDrop sb)) id (rb_sessions rb)).

Definition ShouldDropOldest (rb : RecordingBackpressure) : bool := ShouldDrop (rb_bp rb).

Definition rb_NotifyDropped (now : Z) (id : string) (rb : RecordingBackpressure) : RecordingBackpressure :=
  recordDrop now id (mkRecording (NotifyDropped (rb_bp rb)) (maxBufferSize rb) (rb_sessions rb)).

Definition RemoveSession (id : string) (rb : RecordingBackpressure) : RecordingBackpressure :=
  mkRecording (rb_bp rb) (maxBufferSize rb) (delete id (rb_sessions rb)).

(** ** Adaptive capacity *)

Record AdaptiveBackpressure := mkAdaptive {
  baseController : BackpressureController;
  cpuUsage : Z;
  memoryUsage : Z;
  cpuThreshold : Z;
  memoryThreshold : Z;
  scaleFactor : Z;
  minScale : Z;
  maxScale : Z }.

Definition NewAdaptiveBackpressure (cfg : option BackpressureConfig) : AdaptiveBackpressure :=
  mkAdaptive (NewBackpressureController cfg) 0 0 70 80 100 20 100.

Definition pressure (usage threshold : Z) : Z :=
  if usage >? i64 (threshold * 100) then Z.quot (i64 (usage - i64 (threshold * 100))) 100 else 0.

Definition adjustScale (ab : AdaptiveBackpressure) : AdaptiveBackpressure :=
  let cpuPressure := pressure (cpuUsage ab) (cpuThreshold ab) in
  let memPressure := pressure (memoryUsage ab) (memoryThreshold ab) in
  let p := if memPressure >? cpuPressure then memPressure else cpuPressure in
  let newScale := i64 (maxScale ab - p) in
  let newScale := if newScale <? minScale ab then minScale ab else newScale in
  mkAdaptive (baseController ab) (cpuUsage ab) (memoryUsage ab) (cpuThreshold ab) (memoryThreshold ab) newScale
    (minScale ab) (maxScale ab).

Definition UpdateSystemMetrics (cpuPercent memoryPercent : float64) (ab : AdaptiveBackpressure) : AdaptiveBackpressure :=
  adjustScale (mkAdaptive (baseController ab) (to_int64 (fmul cpuPercent (of_int 100)))
    (to_int64 (fmul memoryPercent (of_int 100))) (cpuThreshold ab) (memoryThreshold ab) (scaleFactor ab)
    (minScale ab) (maxScale ab)).

Definition GetEffectiveCapacity (ab : AdaptiveBackpressure) : Z :=
  Z.quot (i64 (maxSize (baseController ab) * scaleFactor ab)) 100.

Definition with_base (bp : BackpressureController) (ab : AdaptiveBackpressure) : AdaptiveBackpressure :=
  mkAdaptive bp (cpuUsage ab) (memoryUsage ab) (cpuThreshold ab) (memoryThreshold ab) (scaleFactor ab)
    (minScale ab) (maxScale ab).

Definition adaptive_Acquire (ab : AdaptiveBackpressure) : verdict * AdaptiveBackpressure :=
  let bp := baseController ab in
  if GetEffectiveCapacity ab <=? queueSize bp
  then (Refuse ErrBackpressure, with_base (bp <| totalRejected ::= add64 1 |>) ab)
  else let '(v, bp) := Acquire bp in (v, with_base bp ab).

Definition adaptive_Release (ab : AdaptiveBackpressure) : AdaptiveBackpressure :=
  with_base (Release (baseController ab)) ab.

Example water_marks :
  let bp := NewBackpressureController (Some (mkBPConfig 5 StrategyReject 0 (lit 8 10) (lit 6 10) 0)) in
  let fill n := Nat.iter n (fun bp => (Acquire bp).2) bp in
  (map (fun n => underPressure (fill n)) [3; 4; 6]%nat, underPressure (Release (fill 4%nat)), totalRejected (fill 6%nat))
  = ([false; true; true], false, 1).
Proof. vm_compute. reflexivity. Qed.

(** ** Lemmas: the controller *)

(** The goroutines that have decided to enter. *)
Definition adders (ts : gmap nat pc) : Z := Z.of_nat (size (filter (fun kv => kv.2 = Adding) ts)).

Lemma adders_le ts : 0 <= adders ts <= Z.of_nat (size ts).
Proof. unfold adders. pose proof (map_size_filter (fun kv => kv.2 = Adding) ts). lia. Qed.

Lemma adders_add ts t : ts !! t <> Some Adding -> adders (<[t := Adding]> ts) = adders ts + 1.
Proof.
  intros Ht. unfold adders. rewrite map_filter_insert_True by done. rewrite map_size_insert_None; [lia|].
  apply map_lookup_filter_None. right. intros x Hx E. cbn in E. congruence.
Qed.

Lemma adders_other ts t p : ts !! t <> Some Adding -> p <> Adding -> adders (<[t := p]> ts) = adders ts.
Proof.
  intros Ht Hp. unfold adders. rewrite map_filter_insert_False by done.
  rewrite map_filter_delete, delete_id; [done|]. apply map_lookup_filter_None. right. intros x Hx E. cbn in E. congruence.
Qed.

Lemma adders_remove ts t : ts !! t = Some Adding -> adders (delete t ts) = adders ts - 1.
Proof.
  intros Ht. unfold adders. rewrite map_filter_delete.
  assert (filter (fun kv => kv.2 = Adding) ts !! t = Some Adding) as Hf by (apply map_lookup_filter_Some; done).
  pose proof (map_size_ne_0_lookup_2 _ t (ex_intro _ _ Hf)). rewrite map_size_delete, Hf. lia.
Qed.

Lemma adders_leave ts t : ts !! t <> Some Adding -> adders (delete t ts) = adders ts.
Proof.
  intros Ht. unfold adders. rewrite map_filter_delete, delete_id; [done|].
  apply map_lookup_filter_None. right. intros x Hx E. cbn in E. congruence.
Qed.

Lemma enqueue_size bp : queueSize (enqueue bp) = add64 1 (queueSize bp) /\ config (enqueue bp) = config bp /\
  space (enqueue bp) = space bp.
Proof. unfold enqueue, checkHighWaterMark. cbn. by case_match. Qed.

Lemma Release_size bp : queueSize (Release bp) = add64 (-1) (queueSize bp) /\ config (Release bp) = config bp.
Proof. unfold Release. cbn. by case_match. Qed.

Lemma acquire_check_keeps bp v bp' : acquire_check bp = (v, bp') ->
  queueSize bp' = queueSize bp /\ config bp' = config bp /\ space bp' = space bp /\
  (v = Admit -> Strategy (config bp) <> StrategyDropOldest -> queueSize bp < maxSize bp).
Proof.
  unfold acquire_check, full. destruct (closed bp); [by intros [= <- <-]|].
  destruct (Strategy (config bp)) eqn:E; repeat case_match; intros [= <- <-]; bool_prop; done.
Qed.

(** ** Guarantees: the controller *)

(** A step of callers that release only what they acquired, at most [k] of
    them inside [Acquire] at a time. *)
Definition disciplined (k : Z) (s s' : system) : Prop :=
  bp_step s s' /\ 0 <= queueSize (ctl s') /\ Z.of_nat (size (threads s')) <= k.

Lemma add64_id d n : is_s 64 (n + d) -> add64 d n = n + d.
Proof. intros. unfold add64. by rewrite wraps_id. Qed.

Lemma overshoot_step k s s' : 0 <= k < 2 ^ 62 -> maxSize (ctl s) < 2 ^ 62 -> Strategy (config (ctl s)) <> StrategyDropOldest ->
  0 <= queueSize (ctl s) -> Z.of_nat (size (threads s)) <= k -> queueSize (ctl s) + adders (threads s) <= Z.max 0 (maxSize (ctl s) + k - 1) ->
  disciplined k s s' ->
  queueSize (ctl s') + adders (threads s') <= Z.max 0 (maxSize (ctl s') + k - 1) /\ config (ctl s') = config (ctl s).
Proof.
  intros Hk Hmax Hst Hq Hsz Hinv (Hstep & Hq' & Hsz').
  pose proof (adders_le (threads s)) as Ha. pose proof (adders_le (threads s')) as Ha'.
  destruct Hstep; cbn [ctl threads] in *; unfold maxSize in *.
  - destruct (acquire_check_keeps _ _ _ H0) as (E1 & E2 & _ & E3). rewrite E1, E2.
    rewrite adders_add in * by congruence. specialize (E3 eq_refl Hst). unfold maxSize in E3. split; [lia|done].
  - destruct (acquire_check_keeps _ _ _ H0) as (E1 & E2 & _). rewrite E1, E2. split; [lia|done].
  - destruct (acquire_check_keeps _ _ _ H0) as (E1 & E2 & _). rewrite E1, E2, adders_other by congruence. split; [lia|done].
  - destruct (enqueue_size bp) as (E1 & E2 & _). rewrite E1, E2 in *. rewrite adders_remove by done.
    rewrite adders_remove in Ha' by done. rewrite add64_id by (unfold is_s; lia). split; [lia|done].
  - rewrite adders_other by congruence. split; [exact Hinv|done].
  - destruct (full bp) eqn:Ef; [rewrite adders_other by congruence; done|]. rewrite adders_add in * by congruence.
    unfold full, maxSize in Ef. bool_prop. split; [lia|done].
  - rewrite adders_leave by congruence. done.
  - rewrite adders_leave by congruence. done.
  - destruct (Release_size bp) as (E1 & E2). rewrite E1, E2 in *. rewrite add64_id by (unfold is_s; lia). split; [lia|done].
  - cbn. unfold add64. rewrite wraps_id by (unfold is_s; lia). split; [lia|done].
  - done.
Qed.

(** Concurrent callers overshoot the queue by less than their number. While
    at most [k] goroutines are inside [Acquire] at a time and callers release
    only what they acquired, the queue never holds more than the configured
    maximum plus [k - 1], except under the strategy that always admits. *)
Theorem queue_overshoot_bounded k cfg s :
  1 <= k < 2 ^ 62 -> 0 <= MaxQueueSize cfg < 2 ^ 62 -> Strategy cfg <> StrategyDropOldest ->
  rtc (disciplined k) (mkSystem (NewBackpressureController (Some cfg)) ∅) s ->
  0 <= queueSize (ctl s) <= MaxQueueSize cfg + k - 1.
Proof.
  intros Hk Hmax Hst Hr.
  assert (0 <= queueSize (ctl s) /\ Z.of_nat (size (threads s)) <= k /\ config (ctl s) = cfg /\
    queueSize (ctl s) + adders (threads s) <= Z.max 0 (maxSize (ctl s) + k - 1)) as (Hq & _ & Hc & H).
  { pattern s. eapply rtc_ind_r; [| |exact Hr].
    - cbn. rewrite map_size_empty. split_and!; try done; [lia|]. unfold adders. rewrite map_filter_empty, map_size_empty. lia.
    - intros s1 s2 _ Hs (Hq & Hsz & Hc & Hinv). pose proof Hs as (_ & Hq' & Hsz').
      destruct (overshoot_step k s1 s2) as [H1 H2]; try done; unfold maxSize; rewrite ?Hc; try done; try lia.
      split_and!; try done. congruence. }
  pose proof (adders_le (threads s)). unfold maxSize in H. rewrite Hc in H. lia.
Qed.

Lemma queue_overshoot_bounded_witness :
  exists s, rtc (disciplined 2) (mkSystem (NewBackpressureController (Some (mkBPConfig 1 StrategyReject 0 (lit 8 10) (lit 6 10) 0))) ∅) s /\
  queueSize (ctl s) = 2 /\ 0 <= queueSize (ctl s) <= 1 + 2 - 1.
Proof.
  set (cfg := mkBPConfig 1 StrategyReject 0 (lit 8 10) (lit 6 10) 0). set (bp0 := NewBackpressureController (Some cfg)).
  assert (rtc (disciplined 2) (mkSystem bp0 ∅) (mkSystem (enqueue (enqueue bp0)) ∅)) as Hr.
  { eapply rtc_l; [split; [by apply (s_admit _ ∅ 1)|]; split; vm_compute; discriminate|].
    eapply rtc_l; [split; [by apply (s_admit _ _ 2)|]; split; vm_compute; discriminate|].
    eapply rtc_l; [split; [by apply (s_add _ _ 1)|]; split; vm_compute; discriminate|].
    eapply rtc_l; [split; [by apply (s_add _ _ 2)|]; split; vm_compute; discriminate|].
    apply rtc_refl. }
  exists (mkSystem (enqueue (enqueue bp0)) ∅). split; [exact Hr|]. split; [vm_compute; reflexivity|].
  apply (queue_overshoot_bounded 2 cfg); [lia|cbn; lia|discriminate|exact Hr].
Defined.

(** *** The limit under concurrency *)

Definition reject_config (n : Z) : BackpressureConfig := mkBPConfig n StrategyReject 0 (lit 8 10) (lit 6 10) 0.

(** [k] goroutines that have all looked at an empty queue. *)
Fixpoint decided (k : nat) : gmap nat pc := match k with O => ∅ | S k => <[k := Adding]> (decided k) end.

Lemma decided_fresh k n : (k <= n)%nat -> decided k !! n = None.
Proof.
  induction k as [|k IH]; intros Hn; cbn; [done|]. rewrite lookup_insert_ne by lia. apply IH. lia.
Qed.

Lemma decide_all bp k : acquire_check bp = (Admit, bp) -> rtc bp_step (mkSystem bp ∅) (mkSystem bp (decided k)).
Proof.
  intros Ha. induction k as [|k IH]; [done|]. eapply rtc_r; [exact IH|].
  cbn [decided]. apply s_admit; [by apply decided_fresh|done].
Qed.

Lemma add_all k bp : 0 <= queueSize bp -> queueSize bp + Z.of_nat k < 2 ^ 62 ->
  exists bp', rtc bp_step (mkSystem bp (decided k)) (mkSystem bp' ∅) /\ queueSize bp' = queueSize bp + Z.of_nat k.
Proof.
  revert bp. induction k as [|k IH]; intros bp Hq Hk.
  { exists bp. split; [done|]. lia. }
  destruct (enqueue_size bp) as (E1 & _). rewrite add64_id in E1 by (unfold is_s; lia).
  destruct (IH (enqueue bp)) as (bp' & Hr & Hs); [lia|lia|]. exists bp'. split; [|lia].
  eapply rtc_l; [|exact Hr]. cbn [decided].
  replace (decided k) with (delete k (<[k := Adding]> (decided k))) at 2 by (rewrite delete_insert_id; [done|by apply decided_fresh]).
  apply s_add. apply lookup_insert_eq.
Qed.

(** The limit of the queue does not hold under concurrency. For every
    number [k] of callers there is an interleaving in which all of them enter a
    queue of size one under the strategy that rejects, because each looks at
    the size before any of them is counted. *)
Theorem queue_limit_not_enforced k : Z.of_nat k < 2 ^ 62 ->
  exists bp, rtc bp_step (mkSystem (NewBackpressureController (Some (reject_config 1))) ∅) (mkSystem bp ∅) /\
  queueSize bp = Z.of_nat k /\ MaxQueueSize (config (NewBackpressureController (Some (reject_config 1)))) = 1.
Proof.
  intros Hk. set (bp0 := NewBackpressureController (Some (reject_config 1))).
  destruct (add_all k bp0) as (bp & Hr & Hq); [done|exact Hk|]. exists bp. split; [|done].
  transitivity (mkSystem bp0 (decided k)); [by apply decide_all|exact Hr].
Qed.

Lemma queue_limit_not_enforced_witness :
  exists bp, rtc bp_step (mkSystem (NewBackpressureController (Some (reject_config 1))) ∅) (mkSystem bp ∅) /\ queueSize bp = 100.
Proof.
  destruct (queue_limit_not_enforced 100 ltac:(lia)) as (bp & H1 & H2 & _). exists bp. split; [exact H1|exact H2].
Defined.

(** *** Lost signals *)

Definition block_config (n : Z) : BackpressureConfig := mkBPConfig n StrategyBlock (5 * Second) (lit 8 10) (lit 6 10) 0.

(** A goroutine waits although there is room, and no signal is under way. *)
Definition stranded (t : nat) (s : system) : Prop :=
  threads s !! t = Some Waiting /\ queueSize (ctl s) < maxSize (ctl s) /\ space (ctl s) = false /\
  forall u, threads s !! u = Some Waiting \/ threads s !! u = None.

(** A step that is not a [Release]. *)
Definition unreleased (s s' : system) : Prop := bp_step s s' /\ space (ctl s') = false.

Lemma still_waiting t s s' : space (ctl s) = false -> threads s !! t = Some Waiting -> unreleased s s' ->
  threads s' !! t = Some Waiting \/ threads s' !! t = None.
Proof.
  intros Hsp Ht [Hs Hsp']. destruct Hs; cbn [ctl threads] in *; auto.
  all: try (destruct (decide (t0 = t)) as [->|]; [|rewrite ?lookup_insert_ne, ?lookup_delete_ne by done; by left]).
  all: try congruence; try (right; apply lookup_delete_eq).
Qed.

(** A wake-up signal can be lost. Two callers wait for a full queue of two,
    both slots are released before either caller runs, and the channel keeps
    only one of the two signals: one caller gets in, the other waits on
    although a slot is free, and no step but a further release ever wakes it:
    until it times out or is cancelled it sleeps. *)
Theorem lost_wakeup :
  exists s, rtc bp_step (mkSystem (NewBackpressureController (Some (block_config 2))) ∅) s /\ stranded 4 s /\
  forall s', rtc (fun a b => unreleased a b /\ threads b !! 4%nat <> None) s s' -> threads s' !! 4%nat = Some Waiting.
Proof.
  set (bp0 := NewBackpressureController (Some (block_config 2))).
  set (bp2 := enqueue (enqueue bp0)). set (bp3 := Release (Release bp2)).
  set (bp4 := enqueue (bp3 <| space := false |>)).
  exists (mkSystem bp4 {[4%nat := Waiting]}). split; [|split].
  - eapply rtc_l; [by apply (s_admit _ ∅ 1)|]. eapply rtc_l; [by apply (s_add _ _ 1)|].
    eapply rtc_l; [by apply (s_admit _ _ 2)|]. eapply rtc_l; [by apply (s_add _ _ 2)|].
    eapply rtc_l; [by apply (s_sleep _ _ 3)|]. eapply rtc_l; [by apply (s_sleep _ _ 4)|].
    eapply rtc_l; [apply s_release|]. eapply rtc_l; [apply s_release|].
    eapply rtc_l; [by apply (s_wake _ _ 3)|]. eapply rtc_l; [by apply (s_recheck _ _ 3)|].
    eapply rtc_l; [by apply (s_add _ _ 3)|]. apply rtc_refl.
  - split; [done|]. split; [done|]. split; [done|]. intros u. cbn.
    destruct (decide (u = 4%nat)) as [->|]; [by left|right]. by rewrite lookup_singleton_ne.
  - intros s' Hr. assert (space (ctl (mkSystem bp4 {[4%nat := Waiting]})) = false) as Hsp by done.
    assert (threads (mkSystem bp4 {[4%nat := Waiting]}) !! 4%nat = Some Waiting) as Hw by done.
    revert Hsp Hw. induction Hr as [s|s s1 s2 [Hs Hn] Hr IH]; intros Hsp Hw; [done|].
    destruct (still_waiting 4 s s1 Hsp Hw Hs) as [H1|H1]; [|done]. apply IH; [apply Hs|done].
Qed.

(** *** Media streams *)

(** A client of one stream, with the packets it was allowed and has not
    reported as processed ([inflight]) and the refusals at the limit it has
    seen ([hits]). It reports exactly what it was allowed; other streams come
    and go as they like. *)
Record client := mkClient { media : MediaBackpressure; inflight : Z; hits : Z }.

Definition at_limit (id : string) (mb : MediaBackpressure) : bool :=
  (totalPackets mb <? maxTotalPackets mb) && negb (throttled (stream_of mb id)) && negb (AllowPacket id mb).1.

Inductive client_step (id : string) : client -> client -> Prop :=
| c_allow mb n h :
    client_step id (mkClient mb n h)
      (mkClient (AllowPacket id mb).2 (n + if (AllowPacket id mb).1 then 1 else 0) (h + if at_limit id mb then 1 else 0))
| c_processed mb n h : 0 < n -> client_step id (mkClient mb n h) (mkClient (PacketProcessed id mb) (n - 1) h)
| c_other_allow mb n h id' : id' <> id -> client_step id (mkClient mb n h) (mkClient (AllowPacket id' mb).2 n h)
| c_other_processed mb n h id' : id' <> id -> client_step id (mkClient mb n h) (mkClient (PacketProcessed id' mb) n h)
| c_other_remove mb n h id' : id' <> id -> client_step id (mkClient mb n h) (mkClient (RemoveStream id' mb) n h).

Record client_ok (id : string) (m : Z) (c : client) : Prop := {
  co_max : maxPacketsPerStream (media c) = m;
  co_inflight : 0 <= inflight c;
  co_hits : 0 <= hits c;
  co_packets : packets (stream_of (media c) id) = inflight c + hits c;
  co_bound : packets (stream_of (media c) id) <= m + 1;
  co_open : throttled (stream_of (media c) id) = false -> packets (stream_of (media c) id) <= m;
  co_known : streams (media c) !! id = None -> inflight c = 0;
  co_stuck : 1 <= hits c -> Z.quot m 2 <= hits c -> throttled (stream_of (media c) id) = true
}.

Lemma other_stream id id' mb : id' <> id ->
  stream_of (AllowPacket id' mb).2 id = stream_of mb id /\ stream_of (PacketProcessed id' mb) id = stream_of mb id /\
  stream_of (RemoveStream id' mb) id = stream_of mb id.
Proof.
  intros Hne. unfold stream_of, AllowPacket, PacketProcessed, RemoveStream, stream_of. split_and!.
  - repeat case_match; cbn; rewrite ?lookup_insert_ne by done; done.
  - repeat case_match; cbn; rewrite ?lookup_insert_ne by done; done.
  - repeat case_match; cbn; rewrite ?lookup_delete_ne by done; done.
Qed.

Lemma other_kept id id' mb : id' <> id ->
  streams (AllowPacket id' mb).2 !! id = streams mb !! id /\ streams (PacketProcessed id' mb) !! id = streams mb !! id /\
  streams (RemoveStream id' mb) !! id = streams mb !! id /\
  maxPacketsPerStream (AllowPacket id' mb).2 = maxPacketsPerStream mb /\
  maxPacketsPerStream (PacketProcessed id' mb) = maxPacketsPerStream mb /\
  maxPacketsPerStream (RemoveStream id' mb) = maxPacketsPerStream mb.
Proof.
  intros Hne. unfold AllowPacket, PacketProcessed, RemoveStream.
  split_and!; repeat case_match; cbn; rewrite ?lookup_insert_ne, ?lookup_delete_ne by done; done.
Qed.

Lemma stream_of_insert mb f id sb : streams mb = <[id := sb]> f -> stream_of mb id = sb.
Proof. intros E. unfold stream_of. by rewrite E, lookup_insert_eq. Qed.

Lemma stream_absent mb id : streams mb !! id = None -> stream_of mb id = mkStream 0 0 false.
Proof. intros E. unfold stream_of. by rewrite E. Qed.

(** What [AllowPacket] does to its stream. *)
Lemma AllowPacket_cases id mb (p := packets (stream_of mb id)) : is_s 64 (p + 1) ->
  maxPacketsPerStream (AllowPacket id mb).2 = maxPacketsPerStream mb /\
  let sb' := stream_of (AllowPacket id mb).2 id in
  ((maxTotalPackets mb <= totalPackets mb /\ (AllowPacket id mb).1 = false /\ sb' = stream_of mb id /\ at_limit id mb = false /\
    streams (AllowPacket id mb).2 = streams mb) \/
   (throttled (stream_of mb id) = true /\ (AllowPacket id mb).1 = false /\ packets sb' = p /\ throttled sb' = true /\ at_limit id mb = false) \/
   (throttled (stream_of mb id) = false /\ p + 1 <= maxPacketsPerStream mb /\ (AllowPacket id mb).1 = true /\
    packets sb' = p + 1 /\ throttled sb' = false /\ at_limit id mb = false) \/
   (throttled (stream_of mb id) = false /\ maxPacketsPerStream mb < p + 1 /\ (AllowPacket id mb).1 = false /\
    packets sb' = p + 1 /\ throttled sb' = true /\ at_limit id mb = true)).
Proof.
  intros Hp. unfold at_limit. cbv zeta. unfold AllowPacket. set (sb0 := stream_of mb id) in *.
  destruct (Z.leb_spec (maxTotalPackets mb) (totalPackets mb)) as [Ht|Ht].
  { split; [done|]. left. rewrite (proj2 (Z.ltb_ge _ _)) by lia. done. }
  rewrite (proj2 (Z.ltb_lt _ _)) by lia. destruct (throttled sb0) eqn:E.
  { split; [done|]. right; left. cbn [fst snd]. erewrite stream_of_insert by reflexivity. split_and!; done. }
  fold p. cbv zeta. rewrite add64_id by done. change (maxPacketsPerStream (_ <| totalPackets ::= _ |>)) with (maxPacketsPerStream mb).
  destruct (Z.gtb_spec (p + 1) (maxPacketsPerStream mb)).
  all: split; [done|]; cbn [fst snd]; erewrite stream_of_insert by reflexivity.
  - do 3 right. done.
  - right; right; left. done.
Qed.

Lemma client_ok_step id m c c' : 0 <= m < 2 ^ 62 -> client_ok id m c -> client_step id c c' -> client_ok id m c'.
Proof.
  intros Hm [H1 H2 H3 H4 H5 H6 H7 H8] Hs. destruct Hs as [mb n h|mb n h Hn|mb n h id' Hne|mb n h id' Hne|mb n h id' Hne];
    cbn [media inflight hits] in *.
  3-5: destruct (other_stream id id' mb Hne) as (E1 & E2 & E3), (other_kept id id' mb Hne) as (K1 & K2 & K3 & K4 & K5 & K6).
  3-5: split; cbn [media inflight hits]; rewrite ?E1, ?E2, ?E3, ?K1, ?K2, ?K3, ?K4, ?K5, ?K6; done.
  - destruct (AllowPacket_cases id mb) as [Hmax Hc]; [unfold is_s; lia|]. rewrite H1 in *.
    destruct Hc as [(Ht & -> & Eb & -> & Es)|[(Ht & -> & Ep & Et & ->)|[(Ht & Hle & -> & Ep & Et & ->)|(Ht & Hlt & -> & Ep & Et & ->)]]].
    + split; cbn [media inflight hits]; rewrite ?Z.add_0_r, ?Eb, ?Es; auto; lia.
    + split; cbn [media inflight hits]; rewrite ?Z.add_0_r, ?Ep, ?Et; try done; try lia.
      intros E. rewrite (stream_absent _ _ E) in Ep. cbn in Ep. lia.
    + split; cbn [media inflight hits]; rewrite ?Z.add_0_r, ?Ep, ?Et; try done; try lia.
      * intros E. rewrite (stream_absent _ _ E) in Ep. cbn in Ep. lia.
      * intros Hh Hq. rewrite H8 in Ht by lia. done.
    + specialize (H6 Ht). split; cbn [media inflight hits]; rewrite ?Z.add_0_r, ?Ep, ?Et; try done; try lia.
      intros E. rewrite (stream_absent _ _ E) in Ep. cbn in Ep. lia.
  - destruct (streams mb !! id) as [sb|] eqn:E; [|specialize (H7 eq_refl); lia].
    assert (stream_of mb id = sb) as Esb by (unfold stream_of; by rewrite E). rewrite Esb in *.
    unfold PacketProcessed. rewrite E, add64_id by (unfold is_s; lia). cbv zeta.
    set (mb' := set_field streams _ _).
    assert (stream_of mb' id = mkStream (packets sb + -1) (dropped sb) (if packets sb + -1 <? Z.quot m 2 then false else throttled sb)) as E'.
    { unfold mb'. unfold stream_of. cbn. rewrite lookup_insert_eq. cbn. by rewrite H1. }
    assert (0 <= Z.quot m 2 <= m) as Hq2 by (rewrite Z.quot_div_nonneg by lia; split; [apply Z.div_pos; lia|apply Z.div_le_upper_bound; lia]).
    split; cbn [media inflight hits]; rewrite ?E'; cbn [packets throttled]; try done; try lia.
    + unfold mb'. cbn. by rewrite lookup_insert_eq.
    + intros Hh Hq. destruct (Z.ltb_spec (packets sb + -1) (Z.quot m 2)); [lia|]. by apply H8.
Qed.

(** A stream that reaches its limit often enough is throttled for good. A
    refusal at the limit is counted as a packet in flight but nobody ever
    reports it as processed, so after half the limit of such refusals the count
    cannot fall below the mark that lifts the throttle: every later packet of
    the stream is refused, however the client behaves and even with nothing in
    flight, until the stream is removed. *)
Theorem stream_throttled_for_good id m total c c' :
  0 <= m < 2 ^ 62 -> rtc (client_step id) (mkClient (NewMediaBackpressure m total) 0 0) c ->
  1 <= hits c -> Z.quot m 2 <= hits c -> rtc (client_step id) c c' ->
  (AllowPacket id (media c')).1 = false.
Proof.
  intros Hm Hr H1 Hq Hr'.
  assert (client_ok id m c) as Hok.
  { clear H1 Hq Hr'. pattern c. eapply rtc_ind_r; [| |exact Hr].
    - pose proof (stream_absent (NewMediaBackpressure m total) id (lookup_empty id)) as E.
      split; cbn [media inflight hits]; rewrite ?E; cbn; try done; lia.
    - intros c1 c2 _ Hs Hok. by eapply client_ok_step. }
  clear Hr. assert (client_ok id m c' /\ hits c <= hits c') as [Hok' Hh].
  { pattern c'. eapply rtc_ind_r; [| |exact Hr'].
    - split; [done|lia].
    - intros c1 c2 _ Hs [Hok1 Hh]. split; [by eapply client_ok_step|].
      destruct Hs; cbn [hits] in *; try case_match; lia. }
  destruct Hok' as [E1 _ _ _ Hb _ _ Hst]. specialize (Hst ltac:(lia) ltac:(lia)).
  unfold AllowPacket. case_match; [done|]. by rewrite Hst.
Qed.

Lemma stream_throttled_for_good_witness :
  exists c, rtc (client_step "a") (mkClient (NewMediaBackpressure 2 100) 0 0) c /\ 1 <= hits c /\ inflight c = 0 /\
  (AllowPacket "a" (media c)).1 = false.
Proof.
  set (allow := fun c => mkClient (AllowPacket "a" (media c)).2 (inflight c + if (AllowPacket "a" (media c)).1 then 1 else 0)
    (hits c + if at_limit "a" (media c) then 1 else 0)).
  set (processed := fun c => mkClient (PacketProcessed "a" (media c)) (inflight c - 1) (hits c)).
  set (c0 := mkClient (NewMediaBackpressure 2 100) 0 0).
  exists (processed (processed (allow (allow (allow c0))))).
  assert (forall c, client_step "a" c (allow c)) as Ha by (intros [mb n h]; apply c_allow).
  assert (forall c, 0 < inflight c -> client_step "a" c (processed c)) as Hp by (intros [mb n h]; apply c_processed).
  assert (rtc (client_step "a") c0 (processed (processed (allow (allow (allow c0)))))) as Hr.
  { do 3 (eapply rtc_l; [apply Ha|]). do 2 (eapply rtc_l; [apply Hp; vm_compute; reflexivity|]). apply rtc_refl. }
  split; [exact Hr|]. split; [vm_compute; discriminate|]. split; [vm_compute; reflexivity|].
  apply (stream_throttled_for_good "a" 2 100 _ _ ltac:(lia) Hr ltac:(vm_compute; discriminate) ltac:(vm_compute; discriminate)).
  apply rtc_refl.
Defined.

(** *** Adaptive capacity *)

Inductive adaptive_op := AUpdate (cpu mem : float64) | AAcquire | ARelease.
Definition adaptive_run (o : adaptive_op) (ab : AdaptiveBackpressure) : AdaptiveBackpressure :=
  match o with
  | AUpdate c m => UpdateSystemMetrics c m ab
  | AAcquire => (adaptive_Acquire ab).2
  | ARelease => adaptive_Release ab
  end.

Record adaptive_ok (cfg : BackpressureConfig) (ab : AdaptiveBackpressure) : Prop := {
  ao_config : config (baseController ab) = cfg;
  ao_thresholds : 0 <= cpuThreshold ab <= 100 /\ 0 <= memoryThreshold ab <= 100;
  ao_min : minScale ab = 20;
  ao_max : maxScale ab = 100;
  ao_scale : 20 <= scaleFactor ab <= 100
}.

Lemma pressure_bounds u t : is_s 64 u -> 0 <= t <= 100 -> 0 <= pressure u t < 2 ^ 62.
Proof.
  intros Hu Ht. unfold pressure. rewrite !(wraps_id 64 (t * 100)) by (unfold is_s; lia).
  destruct (Z.gtb_spec u (t * 100)); [|lia]. unfold is_s in Hu. rewrite wraps_id by (unfold is_s; lia).
  rewrite Z.quot_div_nonneg by lia. split; [apply Z.div_pos; lia|apply Z.div_lt_upper_bound; lia].
Qed.

Lemma Acquire_keeps bp : config (Acquire bp).2 = config bp /\
  ((Acquire bp).1 = Admit -> queueSize (Acquire bp).2 = add64 1 (queueSize bp)).
Proof.
  unfold Acquire. destruct (acquire_check bp) as [v bp'] eqn:E. destruct (acquire_check_keeps _ _ _ E) as (E1 & E2 & _ & _).
  destruct v; cbn [fst snd]; try done. destruct (enqueue_size bp') as (-> & -> & _). by rewrite E1, E2.
Qed.

Lemma adaptive_ok_run cfg o ab : adaptive_ok cfg ab -> adaptive_ok cfg (adaptive_run o ab).
Proof.
  intros [H1 [H2 H3] H4 H5 H6]. destruct o as [c m| |]; cbn [adaptive_run].
  - unfold UpdateSystemMetrics, adjustScale. split; cbn [baseController cpuThreshold memoryThreshold minScale maxScale scaleFactor cpuUsage memoryUsage]; try done.
    pose proof (pressure_bounds (to_int64 (fmul c (of_int 100))) _ (to_int64_range _) H2).
    pose proof (pressure_bounds (to_int64 (fmul m (of_int 100))) _ (to_int64_range _) H3).
    rewrite H4, H5. set (p := if _ >? _ then _ else _). assert (0 <= p < 2 ^ 62) by (unfold p; by case_match).
    rewrite wraps_id by (unfold is_s; lia). destruct (Z.ltb_spec (100 - p) 20); lia.
  - unfold adaptive_Acquire. case_match; [by split|]. pose proof (Acquire_keeps (baseController ab)) as [E _].
    destruct (Acquire (baseController ab)). cbn in *. split; cbn; congruence || done.
  - split; cbn [adaptive_Release with_base baseController cpuThreshold memoryThreshold minScale maxScale scaleFactor]; try done.
    by rewrite (proj2 (Release_size _)).
Qed.

(** Whatever load figures it is given (negative, infinite or not a number
    included) and in whatever order it is used, the adaptive controller keeps
    its capacity between a fifth and the whole of the configured queue, without
    overflow, and a caller it admits fits in that capacity. *)
Theorem adaptive_capacity cfg ops : 0 <= MaxQueueSize cfg < 2 ^ 56 ->
  let ab := foldl (fun ab o => adaptive_run o ab) (NewAdaptiveBackpressure (Some cfg)) ops in
  MaxQueueSize cfg / 5 <= GetEffectiveCapacity ab <= MaxQueueSize cfg /\
  (is_s 64 (queueSize (baseController ab)) -> (adaptive_Acquire ab).1 = Admit ->
   queueSize (baseController (adaptive_Acquire ab).2) = queueSize (baseController ab) + 1 /\
   queueSize (baseController (adaptive_Acquire ab).2) <= GetEffectiveCapacity ab).
Proof.
  intros Hm ab. assert (adaptive_ok cfg ab) as [H1 _ _ _ H6].
  { unfold ab. assert (adaptive_ok cfg (NewAdaptiveBackpressure (Some cfg))) as H0 by (split; cbn; done).
    clear ab. revert H0. generalize (NewAdaptiveBackpressure (Some cfg)). induction ops as [|o ops IH]; intros ab H; [done|].
    apply IH. by apply adaptive_ok_run. }
  assert (MaxQueueSize cfg / 5 <= GetEffectiveCapacity ab <= MaxQueueSize cfg) as Hc.
  { unfold GetEffectiveCapacity, maxSize. rewrite H1. rewrite wraps_id by (unfold is_s; nia).
    rewrite Z.quot_div_nonneg by nia. split; [|apply Z.div_le_upper_bound; nia].
    apply Z.div_le_lower_bound; [lia|]. pose proof (Z.mul_div_le (MaxQueueSize cfg) 5 ltac:(lia)). nia. }
  split; [done|]. intros Hq. unfold adaptive_Acquire. destruct (Z.leb_spec (GetEffectiveCapacity ab) (queueSize (baseController ab))); [done|].
  destruct (Acquire_keeps (baseController ab)) as [_ E]. destruct (Acquire (baseController ab)) as [v bp]. cbn in *.
  intros ->. rewrite E by done. unfold is_s in Hq. rewrite add64_id by (unfold is_s; lia). lia.
Qed.

Lemma adaptive_capacity_witness :
  let ab := foldl (fun ab o => adaptive_run o ab) (NewAdaptiveBackpressure (Some (reject_config 10)))
    [AUpdate (of_int 95) (of_int 10); AAcquire] in
  10 / 5 <= GetEffectiveCapacity ab <= 10 /\ queueSize (baseController (adaptive_Acquire ab).2) = 2.
Proof.
  set (ops := [AUpdate (of_int 95) (of_int 10); AAcquire]).
  destruct (adaptive_capacity (reject_config 10) ops ltac:(cbn; lia)) as [H1 H2]. split; [exact H1|].
  apply H2; vm_compute; done.
Defined.
