(* ===== verification/RtcpBatch.v ===== *)
(** * RTCP packets and batches

    Models src/internal/batch_rtcp.go: the builder of compound RTCP packets, the
    parser of a packet's header, and the processor that groups packets of a
    session into batches. The channel, the workers that take packets from it,
    the ticker that looks for overdue batches and the shutdown are steps that
    interleave; a worker between taking a packet and locking the table holds
    that packet. Bytes are [Z] values below 256. *)

From Stdlib Require Import ZArith Lia ZifyNat Permutation Ascii String.
From stdpp Require Import base numbers list gmap strings relations.
From S2P Require Import Prelude Bytes.

Local Open Scope Z_scope.
Local Open Scope go_scope.
#[local] Arguments wraps : simpl never.
#[local] Arguments wrapu : simpl never.

(** ** The compound builder *)

Inductive rtcp_error := ErrInvalidRTCP.

Record RTCPCompoundBuilder := mkBuilder { b_packets : list (list Z); b_ssrc : Z }.

Definition NewRTCPCompoundBuilder (ssrc : Z) : RTCPCompoundBuilder := mkBuilder [] ssrc.

Definition add (p : list Z) (b : RTCPCompoundBuilder) : RTCPCompoundBuilder := mkBuilder (b_packets b ++ [p]) (b_ssrc b).

(** The fields of a Sender Report after its header: the two words of the NTP
    time, the RTP time and the counts. *)
Definition sr_body (ssrc ntpTime rtpTime packetCount octetCount : Z) : list Z :=
  PutUint32 ssrc ++ PutUint32 (u32 (Z.shiftr ntpTime 32)) ++ PutUint32 (u32 ntpTime) ++
  PutUint32 rtpTime ++ PutUint32 packetCount ++ PutUint32 octetCount.

Definition AddSR (ntpTime rtpTime packetCount octetCount : Z) (b : RTCPCompoundBuilder) : RTCPCompoundBuilder :=
  add ([0x80; 200] ++ PutUint16 6 ++ sr_body (b_ssrc b) ntpTime rtpTime packetCount octetCount) b.

Definition AddRR (b : RTCPCompoundBuilder) : RTCPCompoundBuilder :=
  add ([0x80; 201] ++ PutUint16 1 ++ PutUint32 (b_ssrc b)) b.

Definition AddSDES (cname : list Z) (b : RTCPCompoundBuilder) : RTCPCompoundBuilder :=
  let cnameLen := length cname in
  let chunkLen := (4 + 2 + cnameLen + 1)%nat in
  let padding := ((4 - chunkLen mod 4) mod 4)%nat in
  let totalLen := (chunkLen + padding)%nat in
  add ([0x81; 202] ++ PutUint16 (u16 (Z.of_nat (totalLen / 4))) ++ PutUint32 (b_ssrc b) ++
       [1; u8 (Z.of_nat cnameLen)] ++ cname ++ repeat 0 (4 + totalLen - (10 + cnameLen))) b.

Definition AddBYE (reason : list Z) (b : RTCPCompoundBuilder) : RTCPCompoundBuilder :=
  let reasonLen := length reason in
  let totalLen := if (0 <? reasonLen)%nat then (8 + (1 + reasonLen) + (4 - (1 + reasonLen) mod 4) mod 4)%nat else 8%nat in
  add ([0x81; 203] ++ PutUint16 (u16 (Z.of_nat ((totalLen - 4) / 4))) ++ PutUint32 (b_ssrc b) ++
       (if (0 <? reasonLen)%nat then [u8 (Z.of_nat reasonLen)] ++ reason ++ repeat 0 (totalLen - (9 + reasonLen)) else [])) b.

(** [TotalLost] is a [uint32] of which the wire has 24 bits. *)
Record RTCPReportBlock := mkReport {
  SSRC : Z; FractionLost : Z; TotalLost : Z; HighestSeq : Z; Jitter : Z; LastSR : Z; DelaySinceLastSR : Z }.

Definition report_bytes (rb : RTCPReportBlock) : list Z :=
  PutUint32 (SSRC rb) ++
  [FractionLost rb; u8 (Z.shiftr (TotalLost rb) 16); u8 (Z.shiftr (TotalLost rb) 8); u8 (TotalLost rb)] ++
  PutUint32 (HighestSeq rb) ++ PutUint32 (Jitter rb) ++ PutUint32 (LastSR rb) ++ PutUint32 (DelaySinceLastSR rb).

Definition AddSRWithReportBlock (ntpTime rtpTime packetCount octetCount : Z) (reports : list RTCPReportBlock)
    (b : RTCPCompoundBuilder) : RTCPCompoundBuilder :=
  let numReports := if (31 <? length reports)%nat then 31%nat else length reports in
  let srLen := (28 + 24 * numReports)%nat in
  add ([Z.lor 0x80 (u8 (Z.of_nat numReports)); 200] ++ PutUint16 (u16 (Z.of_nat (srLen / 4 - 1))) ++
       sr_body (b_ssrc b) ntpTime rtpTime packetCount octetCount ++ (take numReports reports ≫= report_bytes)) b.

Definition Build (b : RTCPCompoundBuilder) : list Z := concat (b_packets b).
Definition Clear (b : RTCPCompoundBuilder) : RTCPCompoundBuilder := mkBuilder [] (b_ssrc b).

(** ** The header parser *)

Record RTCPPacketParsed := mkParsed {
  Version : Z; Padding : bool; Count : Z; PacketType : Z; Length : Z; p_SSRC : Z; p_Data : list Z }.

(** [(length + 1) * 4] is computed in 16 bits. *)
Definition ParseRTCPPacketBasic (data : list Z) : outcome rtcp_error RTCPPacketParsed :=
  if (length data <? 4)%nat then Err ErrInvalidRTCP
  else
    let! d0 := byte_at data 0 in
    let version := Z.land (Z.shiftr d0 6) 0x03 in
    if negb (version =? 2) then Err ErrInvalidRTCP
    else
      let padding := Z.land (Z.shiftr d0 5) 0x01 in
      let count := Z.land d0 0x1F in
      let! packetType := byte_at data 1 in
      let! len := Uint16_at data 2 in
      let expectedLen := Z.to_nat (u16 (u16 (len + 1) * 4)) in
      if (length data <? expectedLen)%nat then Err ErrInvalidRTCP
      else
        let parsed ssrc := mkParsed version (padding =? 1) count packetType len ssrc (take expectedLen data) in
        if (8 <=? length data)%nat then let! ssrc := Uint32_at data 4 in Ok (parsed ssrc) else Ok (parsed 0).

Definition PacketTypeName (p : RTCPPacketParsed) : string :=
  if PacketType p =? 200 then "SR" else if PacketType p =? 201 then "RR" else if PacketType p =? 202 then "SDES"
  else if PacketType p =? 203 then "BYE" else if PacketType p =? 204 then "APP" else if PacketType p =? 205 then "RTPFB"
  else if PacketType p =? 206 then "PSFB" else if PacketType p =? 207 then "XR" else "Unknown".

(** ** The batch processor *)

Record RTCPBatchConfig := mkBatchConfig {
  BatchSize : Z; BatchTimeout : Z; BufferSize : Z; NumWorkers : Z; EnableCompound : bool }.

Definition DefaultRTCPBatchConfig : RTCPBatchConfig := mkBatchConfig 100 (10 * Millisecond) 1000 4 true.

Record RTCPPacketInfo := mkInfo {
  Data : list Z; Timestamp : Z; SessionID : string; Direction : string; SrcSSRC : Z; DstSSRC : Z }.

Record RTCPBatch := mkBatch { Packets : list RTCPPacketInfo; StartTime : Z; EndTime : Z; batch_SessionID : string }.

(** [handled] is the sequence of batches given to the handler, [held] the
    packets workers have taken from the channel and not yet put into a batch,
    and [workers] the workers still running. *)
Record RTCPBatchProcessor := mkProcessor {
  config : RTCPBatchConfig;
  packetChan : list RTCPPacketInfo;
  stopping : bool;
  workers : Z;
  held : list RTCPPacketInfo;
  batches : gmap string RTCPBatch;
  lastSend : gmap string Z;
  handled : list RTCPBatch;
  packetsReceived : Z;
  batchesCreated : Z;
  packetsDropped : Z }.
#[export] Instance set_config : Setter config := fun f r =>
  mkProcessor (f (config r)) (packetChan r) (stopping r) (workers r) (held r) (batches r) (lastSend r) (handled r) (packetsReceived r) (batchesCreated r) (packetsDropped r).
#[export] Instance set_packetChan : Setter packetChan := fun f r =>
  mkProcessor (config r) (f (packetChan r)) (stopping r) (workers r) (held r) (batches r) (lastSend r) (handled r) (packetsReceived r) (batchesCreated r) (packetsDropped r).
#[export] Instance set_stopping : Setter stopping := fun f r =>
  mkProcessor (config r) (packetChan r) (f (stopping r)) (workers r) (held r) (batches r) (lastSend r) (handled r) (packetsReceived r) (batchesCreated r) (packetsDropped r).
#[export] Instance set_workers : Setter workers := fun f r =>
  mkProcessor (config r) (packetChan r) (stopping r) (f (workers r)) (held r) (batches r) (lastSend r) (handled r) (packetsReceived r) (batchesCreated r) (packetsDropped r).
#[export] Instance set_held : Setter held := fun f r =>
  mkProcessor (config r) (packetChan r) (stopping r) (workers r) (f (held r)) (batches r) (lastSend r) (handled r) (packetsReceived r) (batchesCreated r) (packetsDropped r).
#[export] Instance set_batches : Setter batches := fun f r =>
  mkProcessor (config r) (packetChan r) (stopping r) (workers r) (held r) (f (batches r)) (lastSend r) (handled r) (packetsReceived r) (batchesCreated r) (packetsDropped r).
#[export] Instance set_lastSend : Setter lastSend := fun f r =>
  mkProcessor (config r) (packetChan r) (stopping r) (workers r) (held r) (batches r) (f (lastSend r)) (handled r) (packetsReceived r) (batchesCreated r) (packetsDropped r).
#[export] Instance set_handled : Setter handled := fun f r =>
  mkProcessor (config r) (packetChan r) (stopping r) (workers r) (held r) (batches r) (lastSend r) (f (handled r)) (packetsReceived r) (batchesCreated r) (packetsDropped r).
#[export] Instance set_packetsReceived : Setter packetsReceived := fun f r =>
  mkProcessor (config r) (packetChan r) (stopping r) (workers r) (held r) (batches r) (lastSend r) (handled r) (f (packetsReceived r)) (batchesCreated r) (packetsDropped r).
#[export] Instance set_batchesCreated : Setter batchesCreated := fun f r =>
  mkProcessor (config r) (packetChan r) (stopping r) (workers r) (held r) (batches r) (lastSend r) (handled r) (packetsReceived r) (f (batchesCreated r)) (packetsDropped r).
#[export] Instance set_packetsDropped : Setter packetsDropped := fun f r =>
  mkProcessor (config r) (packetChan r) (stopping r) (workers r) (held r) (batches r) (lastSend r) (handled r) (packetsReceived r) (batchesCreated r) (f (packetsDropped r)).

Definition NewRTCPBatchProcessor (cfg : option RTCPBatchConfig) : RTCPBatchProcessor :=
  mkProcessor (default DefaultRTCPBatchConfig cfg) [] false 0 [] ∅ ∅ [] 0 0 0.

Definition Start (p : RTCPBatchProcessor) : RTCPBatchProcessor := p <| workers := Z.max 0 (NumWorkers (config p)) |>.

Definition inc64 (n : Z) : Z := i64 (n + 1).

Definition AddPacket (packet : RTCPPacketInfo) (p : RTCPBatchProcessor) : bool * RTCPBatchProcessor :=
  let p := p <| packetsReceived ::= inc64 |> in
  if Z.of_nat (length (packetChan p)) <? BufferSize (config p) then (true, p <| packetChan ::= fun l => l ++ [packet] |>)
  else (false, p <| packetsDropped ::= inc64 |>).

Definition sendBatch (now : Z) (sessionID : string) (batch : RTCPBatch) (p : RTCPBatchProcessor) : RTCPBatchProcessor :=
  p <| batchesCreated ::= inc64 |> <| lastSend ::= <[sessionID := now]> |>
    <| batches ::= <[sessionID := mkBatch [] now 0 sessionID]> |>
    <| handled ::= fun l => l ++ [mkBatch (Packets batch) (StartTime batch) now (batch_SessionID batch)] |>.

Definition processPacket (now : Z) (packet : RTCPPacketInfo) (p : RTCPBatchProcessor) : RTCPBatchProcessor :=
  let sid := SessionID packet in
  let batch := default (mkBatch [] now 0 sid) (batches p !! sid) in
  let batch := mkBatch (Packets batch ++ [packet]) (StartTime batch) (EndTime batch) (batch_SessionID batch) in
  let p := p <| batches ::= <[sid := batch]> |> in
  if BatchSize (config p) <=? Z.of_nat (length (Packets batch)) then sendBatch now sid batch p else p.

(** Whether a batch is due: its session's last batch, or else the batch itself,
    is [BatchTimeout] old. *)
Definition due (now : Z) (p : RTCPBatchProcessor) (sid : string) (batch : RTCPBatch) : bool :=
  match Packets batch with
  | [] => false
  | _ => BatchTimeout (config p) <=? Time_Sub now (default (StartTime batch) (lastSend p !! sid))
  end.

(** The map is walked in the order [ids]. *)
Fixpoint checkTimeouts (now : Z) (ids : list string) (p : RTCPBatchProcessor) : RTCPBatchProcessor :=
  match ids with
  | [] => p
  | sid :: ids =>
      checkTimeouts now ids
        match batches p !! sid with
        | Some batch => if due now p sid batch then sendBatch now sid batch p else p
        | None => p
        end
  end.

(** The end of [Stop], once all workers are gone. *)
Fixpoint flush (now : Z) (ids : list string) (p : RTCPBatchProcessor) : RTCPBatchProcessor :=
  match ids with
  | [] => p
  | sid :: ids =>
      flush now ids
        match batches p !! sid with
        | Some batch =>
            let p := match Packets batch with
                     | [] => p
                     | _ => p <| handled ::= fun l => l ++ [mkBatch (Packets batch) (StartTime batch) now (batch_SessionID batch)] |>
                     end in
            p <| batches ::= delete sid |>
        | None => p
        end
  end.

(** The goroutines, each step with the packets it accepts from outside. The
    channel is buffered ([BufferSize] positive): [make] of a negative size
    panics, and an unbuffered channel takes a packet only while a worker waits.
    A worker takes the oldest packet of the channel, which it may still do after
    [Stop] closed the stop channel, because [select] picks among the channels
    that are ready. *)
Inductive batch_step : RTCPBatchProcessor -> list RTCPPacketInfo -> RTCPBatchProcessor -> Prop :=
| b_add packet p : 0 < BufferSize (config p) ->
    batch_step p (if (AddPacket packet p).1 then [packet] else []) (AddPacket packet p).2
| b_take packet rest p : packetChan p = packet :: rest -> Z.of_nat (length (held p)) < workers p ->
    batch_step p [] (p <| packetChan := rest |> <| held ::= fun l => l ++ [packet] |>)
| b_process now packet before after p : held p = before ++ packet :: after ->
    batch_step p [] (processPacket now packet (p <| held := before ++ after |>))
| b_tick now ids p : ids ≡ₚ (map_to_list (batches p)).*1 -> batch_step p [] (checkTimeouts now ids p)
| b_stop p : batch_step p [] (p <| stopping := true |>)
| b_exit p : stopping p = true -> Z.of_nat (length (held p)) < workers p -> batch_step p [] (p <| workers ::= Z.pred |>)
| b_flush now ids p : stopping p = true -> workers p = 0 -> ids ≡ₚ (map_to_list (batches p)).*1 ->
    batch_step p [] (flush now ids p).

(** A run of a started processor and the packets it has accepted. *)
Inductive batch_run (cfg : RTCPBatchConfig) : list RTCPPacketInfo -> RTCPBatchProcessor -> Prop :=
| run_start : batch_run cfg [] (Start (NewRTCPBatchProcessor (Some cfg)))
| run_step acc p new p' : batch_run cfg acc p -> batch_step p new p' -> batch_run cfg (acc ++ new) p'.

Example compound_ex :
  let b := AddBYE [98; 121; 101] (AddSDES [97; 64; 98] (AddRR (NewRTCPCompoundBuilder 0x01020304))) in
  Build b = [0x80; 201; 0; 1; 1; 2; 3; 4;
             0x81; 202; 0; 3; 1; 2; 3; 4; 1; 3; 97; 64; 98; 0; 0; 0;
             0x81; 203; 0; 2; 1; 2; 3; 4; 3; 98; 121; 101].
Proof. vm_compute. reflexivity. Qed.

(** ** Reading a compound packet

    What a receiver does with a compound packet under RFC 3550: it cuts packets
    off the front by the length their header declares and reads the fields of
    each. *)

Inductive content :=
| CSR (ntp rtp packets octets : Z) (reports : list RTCPReportBlock)
| CRR
| CSDES (cname : list Z)
| CBYE (reason : list Z).

Fixpoint split_compound (fuel : nat) (data : list Z) : outcome rtcp_error (list RTCPPacketParsed) :=
  match data, fuel with
  | [], _ => Ok []
  | _, O => OutOfFuel
  | _, S fuel =>
      let! p := ParseRTCPPacketBasic data in
      let! ps := split_compound fuel (drop (length (p_Data p)) data) in
      Ok (p :: ps)
  end.

Definition read_report (data : list Z) (offset : nat) : outcome rtcp_error RTCPReportBlock :=
  let! ssrc := Uint32_at data offset in
  let! fraction := byte_at data (offset + 4) in
  let! l2 := byte_at data (offset + 5) in
  let! l1 := byte_at data (offset + 6) in
  let! l0 := byte_at data (offset + 7) in
  let! highest := Uint32_at data (offset + 8) in
  let! jitter := Uint32_at data (offset + 12) in
  let! lsr := Uint32_at data (offset + 16) in
  let! dlsr := Uint32_at data (offset + 20) in
  Ok (mkReport ssrc fraction (Z.lor (Z.shiftl l2 16) (Z.lor (Z.shiftl l1 8) l0)) highest jitter lsr dlsr).

Fixpoint read_reports (data : list Z) (offset n : nat) : outcome rtcp_error (list RTCPReportBlock) :=
  match n with
  | O => Ok []
  | S n => let! r := read_report data offset in let! rs := read_reports data (offset + 24) n in Ok (r :: rs)
  end.

Definition read_text (data : list Z) (offset : nat) : outcome rtcp_error (list Z) :=
  let! len := byte_at data offset in Ok (take (Z.to_nat len) (drop (offset + 1) data)).

Definition read_content (p : RTCPPacketParsed) : outcome rtcp_error content :=
  let data := p_Data p in
  if PacketType p =? 200 then
    let! msw := Uint32_at data 8 in
    let! lsw := Uint32_at data 12 in
    let! rtp := Uint32_at data 16 in
    let! packets := Uint32_at data 20 in
    let! octets := Uint32_at data 24 in
    let! reports := read_reports data 28 (Z.to_nat (Count p)) in
    Ok (CSR (Z.lor (Z.shiftl msw 32) lsw) rtp packets octets reports)
  else if PacketType p =? 201 then Ok CRR
  else if PacketType p =? 202 then let! cname := read_text data 9 in Ok (CSDES cname)
  else if PacketType p =? 203 then
    if (length data =? 8)%nat then Ok (CBYE []) else let! reason := read_text data 8 in Ok (CBYE reason)
  else Err ErrInvalidRTCP.

(** A packet a client adds, and what it means. *)
Inductive addition :=
| ASR (ntp rtp packets octets : Z)
| ARR
| ASDES (cname : list Z)
| ABYE (reason : list Z)
| ASRWithReports (ntp rtp packets octets : Z) (reports : list RTCPReportBlock).

Definition run_addition (b : RTCPCompoundBuilder) (a : addition) : RTCPCompoundBuilder :=
  match a with
  | ASR ntp rtp pc oc => AddSR ntp rtp pc oc b
  | ARR => AddRR b
  | ASDES cname => AddSDES cname b
  | ABYE reason => AddBYE reason b
  | ASRWithReports ntp rtp pc oc rs => AddSRWithReportBlock ntp rtp pc oc rs b
  end.

(** A header counts at most 31 report blocks. *)
Definition content_of (a : addition) : content :=
  match a with
  | ASR ntp rtp pc oc => CSR ntp rtp pc oc []
  | ARR => CRR
  | ASDES cname => CSDES cname
  | ABYE reason => CBYE reason
  | ASRWithReports ntp rtp pc oc rs => CSR ntp rtp pc oc (take 31 rs)
  end.

Record report_ok (rb : RTCPReportBlock) : Prop := {
  ro_ssrc : is_u 32 (SSRC rb);
  ro_lost : is_u 24 (TotalLost rb);
  ro_seq : is_u 32 (HighestSeq rb);
  ro_jitter : is_u 32 (Jitter rb);
  ro_lsr : is_u 32 (LastSR rb);
  ro_dlsr : is_u 32 (DelaySinceLastSR rb)
}.

Definition sr_ok (ntp rtp pc oc : Z) : Prop := is_u 64 ntp /\ is_u 32 rtp /\ is_u 32 pc /\ is_u 32 oc.

Definition addition_ok (a : addition) : Prop :=
  match a with
  | ASR ntp rtp pc oc => sr_ok ntp rtp pc oc
  | ARR => True
  | ASDES text | ABYE text => (length text <= 255)%nat
  | ASRWithReports ntp rtp pc oc rs => sr_ok ntp rtp pc oc /\ Forall report_ok rs
  end.

(** ** Lemmas: reading back *)

#[local] Arguments PutUint16 : simpl never.
#[local] Arguments PutUint32 : simpl never.

Lemma PutUint32_length x : length (PutUint32 x) = 4%nat.
Proof. done. Qed.
Lemma report_bytes_length rb : length (report_bytes rb) = 24%nat.
Proof. done. Qed.

Lemma bind_report_length rs : length (rs ≫= report_bytes) = (24 * length rs)%nat.
Proof.
  induction rs as [|r rs IH]; [done|]. change ((r :: rs) ≫= report_bytes) with (report_bytes r ++ (rs ≫= report_bytes)).
  rewrite length_app, IH, report_bytes_length. cbn [length]. lia.
Qed.

(** Reads at known offsets of a list of known bytes. *)
Ltac read_bytes :=
  unfold Uint32_at, Uint16_at, byte_at, PutUint32, PutUint16; cbn [app lookup list_lookup Nat.add obind];
  rewrite ?word32_bytes, ?word24_bytes, ?word16_bytes by done.

Lemma read_report_put pre rb post : report_ok rb ->
  read_report (pre ++ report_bytes rb ++ post) (length pre) = Ok rb.
Proof.
  intros [H1 H2 H3 H4 H5 H6]. unfold read_report. rewrite !Uint32_at_skip, !byte_at_skip.
  rewrite <- (Nat.add_0_r (length pre)), Uint32_at_skip. unfold report_bytes. read_bytes. by destruct rb.
Qed.

Lemma read_reports_put pre rs post n : Forall report_ok rs -> n = length rs ->
  read_reports (pre ++ (rs ≫= report_bytes) ++ post) (length pre) n = Ok rs.
Proof.
  intros Hrs ->. revert pre. induction Hrs as [|r rs Hr _ IH]; intros pre; [done|]. cbn [length read_reports].
  change ((r :: rs) ≫= report_bytes) with (report_bytes r ++ (rs ≫= report_bytes)). rewrite <- app_assoc, read_report_put by done.
  cbn [obind]. specialize (IH (pre ++ report_bytes r)). rewrite length_app, report_bytes_length, <- app_assoc in IH. by rewrite IH.
Qed.

(** A packet with a well-formed header is cut off the front of any data. *)
Lemma parse_packet c pt L ssrc body post :
  0 <= c <= 31 -> 0 <= L < 16383 -> is_u 32 ssrc -> Z.of_nat (length body) = 4 * L - 4 ->
  let p := [0x80 + c; pt] ++ PutUint16 L ++ PutUint32 ssrc ++ body in
  ParseRTCPPacketBasic (p ++ post) = Ok (mkParsed 2 false c pt L ssrc p).
Proof.
  intros Hc HL Hs Hb p. unfold ParseRTCPPacketBasic.
  assert (length p = (8 + length body)%nat) as Hp by done.
  assert (length (p ++ post) = (8 + length body + length post)%nat) as Hl by (rewrite length_app; lia).
  rewrite Hl. destruct (Nat.ltb_spec (8 + length body + length post) 4); [lia|].
  assert (byte_at (p ++ post) 0 = @Ok rtcp_error Z (0x80 + c)) as -> by done. cbn [obind].
  assert (Z.land (Z.shiftr (0x80 + c) 6) 0x03 = 2 /\ Z.land (Z.shiftr (0x80 + c) 5) 0x01 = 0 /\ Z.land (0x80 + c) 0x1F = c) as (-> & -> & ->).
  { assert (Forall (fun c => Z.land (Z.shiftr (0x80 + c) 6) 0x03 = 2 /\ Z.land (Z.shiftr (0x80 + c) 5) 0x01 = 0 /\ Z.land (0x80 + c) 0x1F = c)
      (seqZ 0 32)) as HF by (apply (bool_decide_unpack _); vm_compute; exact I).
    rewrite Forall_forall in HF. apply HF. apply elem_of_seqZ. lia. }
  assert (byte_at (p ++ post) 1 = @Ok rtcp_error Z pt) as -> by done.
  assert (Uint16_at (p ++ post) 2 = @Ok rtcp_error Z L) as ->.
  { unfold p. rewrite <- app_assoc, <- app_assoc. apply (Uint16_at_put [0x80 + c; pt]); [unfold is_u; lia|done]. }
  assert (Uint32_at (p ++ post) 4 = @Ok rtcp_error Z ssrc) as ->.
  { unfold p. rewrite <- !app_assoc, (app_assoc _ (PutUint16 L)). by apply (Uint32_at_put ([0x80 + c; pt] ++ PutUint16 L)). }
  change (negb (2 =? 2)) with false. change (0 =? 1) with false. cbn [obind].
  rewrite !wrapu_id by (unfold is_u; rewrite ?wrapu_id by (unfold is_u; lia); lia).
  replace (Z.to_nat ((L + 1) * 4)) with (length p) by lia.
  destruct (Nat.ltb_spec (8 + length body + length post) (length p)); [lia|].
  destruct (Nat.leb_spec 8 (8 + length body + length post)); [|lia]. cbn [obind]. by rewrite take_app_length.
Qed.

(** A packet on the wire and what a receiver makes of it. *)
Definition well_formed (ssrc : Z) (p : list Z) (x : content) : Prop :=
  exists c pt L body, 0 <= c <= 31 /\ 0 <= L < 16383 /\ Z.of_nat (length body) = 4 * L - 4 /\
    p = [0x80 + c; pt] ++ PutUint16 L ++ PutUint32 ssrc ++ body /\
    read_content (mkParsed 2 false c pt L ssrc p) = Ok x.

Lemma read_text_put pre len text post : is_u 8 len -> len = Z.of_nat (length text) ->
  read_text (pre ++ [len] ++ text ++ post) (length pre) = Ok text.
Proof.
  intros Hl E. unfold read_text. rewrite <- (Nat.add_0_r (length pre)) at 1. rewrite byte_at_skip. cbn [app byte_at lookup list_lookup obind].
  rewrite E, Nat2Z.id. rewrite (cons_middle _ pre), app_assoc, drop_app_length' by (rewrite length_app; done).
  by rewrite take_app_length.
Qed.

Lemma sr_well_formed ssrc ntp rtp pc oc rs : is_u 32 ssrc -> sr_ok ntp rtp pc oc -> Forall report_ok rs -> (length rs <= 31)%nat ->
  well_formed ssrc ([0x80 + Z.of_nat (length rs); 200] ++ PutUint16 (6 + 6 * Z.of_nat (length rs)) ++ sr_body ssrc ntp rtp pc oc ++ (rs ≫= report_bytes))
    (CSR ntp rtp pc oc rs).
Proof.
  intros Hs (Hn & Hr & Hp & Ho) Hrs Hl. eexists (Z.of_nat (length rs)), 200, _, _. split; [lia|]. split; [|split; [|split]]; cycle 2.
  - unfold sr_body. rewrite <- !app_assoc. reflexivity.
  - unfold read_content. cbn [PacketType p_Data Count Z.eqb Pos.eqb]. rewrite Nat2Z.id.
    set (pre := [0x80 + Z.of_nat (length rs); 200] ++ PutUint16 (6 + 6 * Z.of_nat (length rs)) ++ sr_body ssrc ntp rtp pc oc).
    assert (read_reports (pre ++ (rs ≫= report_bytes)) 28 (length rs) = Ok rs) as E.
    { change 28%nat with (length pre). rewrite <- (app_nil_r (rs ≫= report_bytes)). by apply read_reports_put. }
    unfold pre in E. rewrite <- !app_assoc in E. rewrite E. clear E pre. unfold sr_body. rewrite <- !app_assoc.
    pose proof (wrapu_range 32 (Z.shiftr ntp 32) ltac:(lia)). pose proof (wrapu_range 32 ntp ltac:(lia)).
    read_bytes. by rewrite word64_words.
  - lia.
  - rewrite !length_app, bind_report_length. rewrite !PutUint32_length. lia.
Qed.

(** Padding to a multiple of four. *)
Lemma padded m : (m + (4 - m mod 4) mod 4 = 4 * ((m + 3) / 4))%nat.
Proof. zify. Z.to_euclidean_division_equations. lia. Qed.

Lemma quarter_le m k : (m <= 4 * k)%nat -> (m / 4 <= k)%nat.
Proof. intros. apply Nat.Div0.div_le_upper_bound. lia. Qed.

Lemma sdes_well_formed ssrc cname : is_u 32 ssrc -> (length cname <= 255)%nat ->
  let b := mkBuilder [] ssrc in
  exists p, AddSDES cname b = add p b /\ well_formed ssrc p (CSDES cname).
Proof.
  intros Hs Hn b. unfold AddSDES. set (n := length cname) in *. cbn [b b_ssrc]. rewrite padded.
  set (q := ((4 + 2 + n + 1 + 3) / 4)%nat). assert (q <= 67)%nat as Hq by (apply quarter_le; lia).
  assert (7 + n <= 4 * q)%nat as Hq' by (unfold q; rewrite <- padded; lia).
  rewrite Nat.mul_comm, Nat.div_mul, Nat.mul_comm by done. rewrite !wrapu_id by (unfold is_u; lia).
  eexists. split; [reflexivity|]. eexists 1, 202, (Z.of_nat q), _. split; [lia|]. split; [lia|]. split; [|split; [reflexivity|]].
  - rewrite !length_app, repeat_length. fold n. cbn [length]. lia.
  - unfold read_content. cbn [PacketType p_Data Z.eqb Pos.eqb].
    set (pre := [0x81; 202] ++ PutUint16 (Z.of_nat q) ++ PutUint32 ssrc ++ [1]).
    assert (read_text (pre ++ [Z.of_nat n] ++ cname ++ repeat 0 (4 + 4 * q - (10 + n))) 9 = Ok cname) as E
      by (change 9%nat with (length pre); apply read_text_put; [unfold is_u; lia|done]).
    unfold pre in E. rewrite <- !app_assoc in E. cbn [app] in E |- *. by rewrite E.
Qed.

Lemma bye_well_formed ssrc reason : is_u 32 ssrc -> (length reason <= 255)%nat ->
  let b := mkBuilder [] ssrc in
  exists p, AddBYE reason b = add p b /\ well_formed ssrc p (CBYE reason).
Proof.
  intros Hs Hn b. unfold AddBYE. set (n := length reason) in *. cbn [b b_ssrc].
  destruct (Nat.ltb_spec 0 n).
  - rewrite <- Nat.add_assoc, padded. set (q := ((1 + n + 3) / 4)%nat).
    assert (q <= 65)%nat as Hq by (apply quarter_le; lia).
    assert (1 + n <= 4 * q)%nat as Hq' by (unfold q; rewrite <- padded; lia).
    replace (8 + 4 * q - 4)%nat with ((1 + q) * 4)%nat by lia. rewrite Nat.div_mul by done. rewrite !wrapu_id by (unfold is_u; lia).
    eexists. split; [reflexivity|]. eexists 1, 203, (Z.of_nat (1 + q)), _. split; [lia|]. split; [lia|]. split; [|split; [reflexivity|]].
    + rewrite !length_app, repeat_length. fold n. cbn [length]. lia.
    + unfold read_content. cbn [PacketType p_Data Z.eqb Pos.eqb].
      match goal with |- context [(length ?l =? 8)%nat] => assert (length l <> 8%nat) as E8
        by (rewrite !length_app; cbn [length]; change (length (PutUint16 (Z.of_nat (1 + q)))) with 2%nat; change (length (PutUint32 ssrc)) with 4%nat; lia) end.
      rewrite (proj2 (Nat.eqb_neq _ _) E8). clear E8.
      set (pre := [0x81; 203] ++ PutUint16 (Z.of_nat (1 + q)) ++ PutUint32 ssrc).
      assert (read_text (pre ++ [Z.of_nat n] ++ reason ++ repeat 0 (8 + 4 * q - (9 + n))) 8 = Ok reason) as E
        by (change 8%nat with (length pre); apply read_text_put; [unfold is_u; lia|done]).
      unfold pre in E. rewrite <- !app_assoc in E. cbn [app] in E |- *. by rewrite E.
  - assert (reason = []) as -> by (apply length_zero_iff_nil; lia).
    eexists. split; [reflexivity|]. exists 1, 203, 1, []. split_and!; done || lia.
Qed.

Lemma addition_well_formed b a : is_u 32 (b_ssrc b) -> addition_ok a ->
  exists p, run_addition b a = add p b /\ well_formed (b_ssrc b) p (content_of a).
Proof.
  intros Hs Ha. destruct a as [ntp rtp pc oc| |cname|reason|ntp rtp pc oc rs]; cbn [run_addition content_of addition_ok] in *.
  - eexists. split; [reflexivity|]. pose proof (sr_well_formed (b_ssrc b) ntp rtp pc oc [] Hs Ha) as H.
    cbn [length mbind list_bind] in H. rewrite app_nil_r in H. apply H; [constructor|lia].
  - eexists. split; [reflexivity|]. exists 0, 201, 1, []. split_and!; done || lia.
  - destruct (sdes_well_formed (b_ssrc b) cname Hs Ha) as (p & E & H). exists p. split; [|done].
    unfold AddSDES, add in *. cbn in E. by simplify_eq.
  - destruct (bye_well_formed (b_ssrc b) reason Hs Ha) as (p & E & H). exists p. split; [|done].
    unfold AddBYE, add in *. cbn in E. by simplify_eq.
  - destruct Ha as [Ha Hr]. eexists. split; [reflexivity|].
    assert ((if (31 <? length rs)%nat then 31%nat else length rs) = length (take 31 rs)) as Hl
      by (rewrite length_take; destruct (Nat.ltb_spec 31 (length rs)); lia). rewrite Hl.
    assert (length (take 31 rs) <= 31)%nat by (rewrite length_take; lia).
    assert (take (length (take 31 rs)) rs = take 31 rs) as ->.
    { rewrite length_take. destruct (Nat.le_ge_cases 31 (length rs)); [by rewrite Nat.min_l|]. rewrite Nat.min_r by lia. by rewrite !take_ge by lia. }
    pose proof (sr_well_formed (b_ssrc b) ntp rtp pc oc (take 31 rs) Hs Ha (Forall_take _ _ _ Hr) ltac:(lia)) as Hw.
    set (k := length (take 31 rs)) in *. replace ((28 + 24 * k) / 4 - 1)%nat with (6 + 6 * k)%nat.
    2: { replace (28 + 24 * k)%nat with ((7 + 6 * k) * 4)%nat by lia. rewrite Nat.div_mul by done. lia. }
    rewrite !wrapu_id by (unfold is_u; lia).
    assert (Z.lor 0x80 (Z.of_nat k) = 0x80 + Z.of_nat k) as ->.
    { assert (Forall (fun c => Z.lor 0x80 c = 0x80 + c) (seqZ 0 32)) as HF by (apply (bool_decide_unpack _); vm_compute; exact I).
      rewrite Forall_forall in HF. apply HF, elem_of_seqZ. lia. }
    by replace (Z.of_nat (6 + 6 * k)) with (6 + 6 * Z.of_nat k) by lia.
Qed.

Lemma run_additions ssrc items b : is_u 32 ssrc -> b_ssrc b = ssrc -> Forall addition_ok items ->
  exists ps, b_packets (foldl run_addition b items) = b_packets b ++ ps /\ Forall2 (well_formed ssrc) ps (map content_of items).
Proof.
  intros Hs Hb Hi. revert b Hb. induction Hi as [|a items Ha _ IH]; intros b Hb.
  { exists []. split; [by rewrite app_nil_r|constructor]. }
  destruct (addition_well_formed b a) as (p & E & Hw); [by rewrite Hb|done|]. cbn [foldl].
  destruct (IH (run_addition b a)) as (ps & E2 & Hps); [by rewrite E|]. exists (p :: ps). split.
  - rewrite E2, E. cbn [add b_packets]. by rewrite <- app_assoc.
  - constructor; [by rewrite <- Hb|done].
Qed.

Lemma split_well_formed ssrc ps xs : is_u 32 ssrc -> Forall2 (well_formed ssrc) ps xs -> forall fuel, (length ps <= fuel)%nat ->
  exists parsed, split_compound fuel (concat ps) = Ok parsed /\ map p_Data parsed = ps /\
    Forall2 (fun p x => p_SSRC p = ssrc /\ read_content p = Ok x) parsed xs.
Proof.
  intros Hs Hps. induction Hps as [|p x ps xs (c & pt & L & body & Hc & HL & Hb & -> & Hx) _ IH]; intros fuel Hf.
  { exists []. split; [by destruct fuel|]. split; [done|constructor]. }
  destruct fuel as [|fuel]; [cbn in Hf; lia|]. set (p := [0x80 + c; pt] ++ PutUint16 L ++ PutUint32 ssrc ++ body) in *.
  destruct (IH fuel) as (parsed & E & Hd & Hxs); [cbn in Hf; lia|].
  exists (mkParsed 2 false c pt L ssrc p :: parsed). split; [|split; [cbn; by rewrite Hd|constructor; done]].
  cbn [concat]. pose proof (parse_packet c pt L ssrc body (concat ps) Hc HL Hs Hb) as Hp. cbv zeta in Hp. fold p in Hp.
  unfold split_compound; fold split_compound. destruct (p ++ concat ps) as [|y ys] eqn:Epp; [done|]. rewrite Hp. cbn [obind p_Data].
  rewrite <- Epp, drop_app_length, E. done.
Qed.

(** ** Guarantees: packets *)

(** C35: a compound packet reads back. Cutting what [Build] returns by the
    lengths the parser takes from the headers gives exactly the packets that
    were added, in order and with the builder's SSRC, and reading each of them
    gives the times, counts, report blocks and texts it was added with, for
    texts of up to 255 bytes and fields within their widths; of more than 31
    report blocks the first 31 are sent. *)
Theorem compound_roundtrip ssrc items :
  is_u 32 ssrc -> Forall addition_ok items ->
  let b := foldl run_addition (NewRTCPCompoundBuilder ssrc) items in
  exists parsed, split_compound (length items) (Build b) = Ok parsed /\ map p_Data parsed = b_packets b /\
    Forall2 (fun p x => p_SSRC p = ssrc /\ read_content p = Ok x) parsed (map content_of items).
Proof.
  intros Hs Hi b. destruct (run_additions ssrc items (NewRTCPCompoundBuilder ssrc) Hs eq_refl Hi) as (ps & E & Hw).
  fold b in E. cbn [NewRTCPCompoundBuilder b_packets app] in E. unfold Build. rewrite E.
  apply split_well_formed with (xs := map content_of items); [done|done|].
  rewrite (Forall2_length _ _ _ Hw), length_map. lia.
Qed.

Lemma compound_roundtrip_witness :
  let items := [ASRWithReports 0x83AA7E8000000001 160 3 480 [mkReport 7 25 70000 65537 3 9 8]; ASDES [97; 64; 98]; ABYE []] in
  exists parsed, split_compound 3 (Build (foldl run_addition (NewRTCPCompoundBuilder 42) items)) = Ok parsed /\
    Forall2 (fun p x => p_SSRC p = 42 /\ read_content p = Ok x) parsed (map content_of items).
Proof.
  intros items. destruct (compound_roundtrip 42 items) as (parsed & H1 & H2 & H3).
  - unfold is_u. lia.
  - repeat constructor; unfold sr_ok, is_u; cbn; lia.
  - exists parsed. split; [exact H1|exact H3].
Defined.

(** The parser is safe on every input, but its length arithmetic is not
    that of the format. It never reads past the end of the data and returns
    either the error or a packet whose bytes are a prefix of the data; the
    number of those bytes is what the header declares taken modulo 65536, so it
    is the declared size exactly for length fields below 16383, and a packet of
    65536 bytes or more with a correct header is accepted and comes back
    truncated, a header that declares 65536 bytes with no data at all. *)
Theorem ParseRTCPPacketBasic_bounds data :
  ParseRTCPPacketBasic data = Err ErrInvalidRTCP \/
  exists p, ParseRTCPPacketBasic data = Ok p /\ p_Data p `prefix_of` data /\
    Z.of_nat (length (p_Data p)) = (4 * (Length p + 1)) mod 65536 /\
    (0 <= Length p < 16383 -> Z.of_nat (length (p_Data p)) = 4 * (Length p + 1)) /\
    (Length p = 16383 -> p_Data p = []).
Proof.
  unfold ParseRTCPPacketBasic. destruct (Nat.ltb_spec (length data) 4); [by left|].
  destruct (@byte_at_lt rtcp_error data 0) as [d0 ->]; [lia|]. cbn [obind].
  destruct (negb _) eqn:Ev; [by left|]. destruct (@byte_at_lt rtcp_error data 1) as [pt ->]; [lia|]. cbn [obind].
  destruct (@Uint16_at_lt rtcp_error data 2) as [L ->]; [lia|]. cbn [obind].
  assert (u16 (u16 (L + 1) * 4) = (4 * (L + 1)) mod 65536) as Hw.
  { unfold wrapu. change (2 ^ 16) with 65536. rewrite Z.mul_mod_idemp_l by done. f_equal. lia. }
  rewrite Hw. set (n := (4 * (L + 1)) mod 65536) in *. assert (0 <= n) by (apply Z.mod_pos_bound; lia).
  destruct (Nat.ltb_spec (length data) (Z.to_nat n)); [by left|]. right.
  assert (forall ssrc, let p := mkParsed (Z.land (Z.shiftr d0 6) 3) (Z.land (Z.shiftr d0 5) 1 =? 1) (Z.land d0 31) pt L ssrc (take (Z.to_nat n) data) in
    p_Data p `prefix_of` data /\ Z.of_nat (length (p_Data p)) = n /\ (0 <= Length p < 16383 -> Z.of_nat (length (p_Data p)) = 4 * (Length p + 1)) /\
    (Length p = 16383 -> p_Data p = [])) as H'.
  { intros ssrc p. cbn [p p_Data Length]. rewrite length_take, Nat.min_l by lia. split; [apply prefix_take|]. split; [lia|]. split.
    - intros HL. unfold n. rewrite Z.mod_small by lia. lia.
    - intros ->. done. }
  destruct (Nat.leb_spec 8 (length data)).
  - destruct (@Uint32_at_lt rtcp_error data 4) as [ssrc ->]; [lia|]. cbn [obind]. eexists. split; [reflexivity|]. apply H'.
  - eexists. split; [reflexivity|]. apply H'.
Qed.

(** *** The length of texts *)

(** A text longer than 255 bytes is announced with its length modulo 256, so a
    receiver reads the wrong text. *)
Theorem long_cname_truncated :
  let b := AddSDES (repeat 97 256) (NewRTCPCompoundBuilder 1) in
  match ParseRTCPPacketBasic (Build b) with Ok p => read_content p = Ok (CSDES []) | _ => False end.
Proof. vm_compute. reflexivity. Qed.

(** ** Lemmas: batches *)

Definition pending (m : gmap string RTCPBatch) : list RTCPPacketInfo := map_to_list m ≫= fun kv => Packets kv.2.
Definition all_packets (p : RTCPBatchProcessor) : list RTCPPacketInfo :=
  (handled p ≫= Packets) ++ pending (batches p) ++ held p ++ packetChan p.

#[local] Instance bind_perm {A B} (f : A -> list B) : Proper ((≡ₚ) ==> (≡ₚ)) (fun l => l ≫= f).
Proof. intros l1 l2 H. by apply bind_Permutation. Qed.

Lemma pending_insert m sid b : m !! sid = None -> pending (<[sid := b]> m) ≡ₚ Packets b ++ pending m.
Proof. intros H. unfold pending. by rewrite map_to_list_insert. Qed.

Lemma pending_delete m sid b : m !! sid = Some b -> pending m ≡ₚ Packets b ++ pending (delete sid m).
Proof. intros H. rewrite <- (insert_delete_id m sid b) at 1 by done. apply pending_insert, lookup_delete_eq. Qed.

Lemma pending_update m sid b : pending (<[sid := b]> m) ≡ₚ Packets b ++ pending (delete sid m).
Proof. rewrite <- insert_delete_eq. apply pending_insert, lookup_delete_eq. Qed.

(** Sending moves the packets of a batch from the table to the handler. *)
Lemma sendBatch_moves now sid b p : Packets <$> batches p !! sid = Some (Packets b) ->
  all_packets (sendBatch now sid b p) ≡ₚ all_packets p.
Proof.
  intros H. destruct (batches p !! sid) as [b'|] eqn:E; [|done]. injection H as H. unfold all_packets, sendBatch. cbn.
  rewrite pending_update, bind_app, (pending_delete _ _ _ E), H. cbn. rewrite app_nil_r. solve_Permutation.
Qed.

Lemma processPacket_adds now packet p : all_packets (processPacket now packet p) ≡ₚ packet :: all_packets p.
Proof.
  unfold processPacket. set (b0 := default _ _). cbv zeta. set (b := mkBatch (Packets b0 ++ [packet]) _ _ _).
  set (p1 := p <| batches ::= <[SessionID packet := b]> |>).
  assert (all_packets p1 ≡ₚ packet :: all_packets p) as H1.
  { unfold all_packets, p1. cbn. rewrite pending_update. unfold b. cbn [Packets].
    assert (pending (batches p) ≡ₚ Packets b0 ++ pending (delete (SessionID packet) (batches p))) as ->.
    { unfold b0. destruct (batches p !! SessionID packet) as [b1|] eqn:E; cbn; [by apply pending_delete|by rewrite delete_id]. }
    solve_Permutation. }
  destruct (_ <=? _); [|done]. rewrite sendBatch_moves; [done|]. cbn. by rewrite lookup_insert_eq.
Qed.

Lemma checkTimeouts_moves now ids p : all_packets (checkTimeouts now ids p) ≡ₚ all_packets p.
Proof.
  revert p. induction ids as [|sid ids IH]; intros p; [done|]. cbn [checkTimeouts]. rewrite IH.
  destruct (batches p !! sid) as [b|] eqn:E; [|done]. destruct (due now p sid b); [|done]. apply sendBatch_moves. by rewrite E.
Qed.

Lemma flush_moves now ids p : all_packets (flush now ids p) ≡ₚ all_packets p.
Proof.
  revert p. induction ids as [|sid ids IH]; intros p; [done|]. cbn [flush]. rewrite IH.
  destruct (batches p !! sid) as [b|] eqn:E; [|done]. unfold all_packets. destruct (Packets b) as [|x l] eqn:Ep; cbn.
  - rewrite (pending_delete _ _ _ E), Ep. done.
  - rewrite bind_app, (pending_delete _ _ _ E), Ep. cbn. rewrite app_nil_r. solve_Permutation.
Qed.

(** What a batch in the table and a batch at the handler look like. *)
Definition batch_of (sid : string) (b : RTCPBatch) : Prop :=
  batch_SessionID b = sid /\ Forall (fun x => SessionID x = sid) (Packets b).
Definition handled_ok (cfg : RTCPBatchConfig) (b : RTCPBatch) : Prop :=
  batch_of (batch_SessionID b) b /\ Packets b <> [] /\ Z.of_nat (length (Packets b)) <= Z.max 1 (BatchSize cfg).

Record table_ok (cfg : RTCPBatchConfig) (p : RTCPBatchProcessor) : Prop := {
  to_config : config p = cfg;
  to_batches sid b : batches p !! sid = Some b -> batch_of sid b /\ Z.of_nat (length (Packets b)) < Z.max 1 (BatchSize cfg);
  to_handled : Forall (handled_ok cfg) (handled p);
  to_held : Z.of_nat (length (held p)) <= workers p
}.

Lemma sendBatch_ok cfg now sid b p :
  config p = cfg -> (forall sid' b', sid' <> sid -> batches p !! sid' = Some b' ->
    batch_of sid' b' /\ Z.of_nat (length (Packets b')) < Z.max 1 (BatchSize cfg)) ->
  Forall (handled_ok cfg) (handled p) -> Z.of_nat (length (held p)) <= workers p ->
  batch_of sid b -> Packets b <> [] -> Z.of_nat (length (Packets b)) <= Z.max 1 (BatchSize cfg) ->
  table_ok cfg (sendBatch now sid b p).
Proof.
  intros Hc Hb Hh Hw [Hs Hf] Hne Hl. split; cbn; try done.
  - intros sid' b' E. destruct (decide (sid' = sid)) as [->|].
    + rewrite lookup_insert_eq in E. injection E as <-. split; [split; cbn; [done|constructor]|cbn; lia].
    + rewrite lookup_insert_ne in E by done. by apply Hb.
  - apply Forall_app. split; [done|]. repeat constructor; cbn; try done. by rewrite Hs.
Qed.

Lemma processPacket_ok cfg now packet p : table_ok cfg p -> table_ok cfg (processPacket now packet p).
Proof.
  intros [Hc Hb Hh Hw]. unfold processPacket. set (b0 := default _ _). cbv zeta.
  assert (batch_of (SessionID packet) b0 /\ Z.of_nat (length (Packets b0)) < Z.max 1 (BatchSize cfg)) as [[Hs Hf] Hl].
  { unfold b0. destruct (batches p !! SessionID packet) eqn:E; cbn; [by apply Hb|]. split; [split; cbn; [done|constructor]|cbn; lia]. }
  set (b := mkBatch (Packets b0 ++ [packet]) _ _ _).
  assert (batch_of (SessionID packet) b) as Hbo by (split; cbn; [done|apply Forall_app; split; [done|by repeat constructor]]).
  assert (length (Packets b) = S (length (Packets b0))) as El by (unfold b; cbn; rewrite length_app; cbn; lia).
  change (config (p <| batches ::= _ |>)) with (config p). rewrite Hc.
  destruct (Z.leb_spec (BatchSize cfg) (Z.of_nat (length (Packets b)))).
  - apply sendBatch_ok; cbn; try done.
    + intros sid' b' Hne E. rewrite lookup_insert_ne in E by done. by apply Hb.
    + unfold b. cbn. by destruct (Packets b0).
    + rewrite length_app. cbn [length]. lia.
  - split; cbn; try done. intros sid' b' E. destruct (decide (sid' = SessionID packet)) as [->|].
    + rewrite lookup_insert_eq in E. injection E as <-. split; [done|lia].
    + rewrite lookup_insert_ne in E by done. by apply Hb.
Qed.

Lemma checkTimeouts_ok cfg now ids p : table_ok cfg p -> table_ok cfg (checkTimeouts now ids p).
Proof.
  revert p. induction ids as [|sid ids IH]; intros p Hp; [done|]. cbn [checkTimeouts]. apply IH.
  destruct (batches p !! sid) as [b|] eqn:E; [|done]. unfold due. destruct (Packets b) eqn:Ep; [done|]. destruct (_ <=? _); [|done].
  destruct Hp as [Hc Hb Hh Hw]. destruct (Hb _ _ E). apply sendBatch_ok; try done; [|by rewrite Ep|lia]. intros. by apply Hb.
Qed.

Lemma flush_ok cfg now ids p : table_ok cfg p -> table_ok cfg (flush now ids p).
Proof.
  revert p. induction ids as [|sid ids IH]; intros p Hp; [done|]. cbn [flush]. apply IH.
  destruct (batches p !! sid) as [b|] eqn:E; [|done]. destruct Hp as [Hc Hb Hh Hw]. destruct (Hb _ _ E) as [[Hs Hf] Hl].
  assert (forall sid' b', delete sid (batches p) !! sid' = Some b' ->
    batch_of sid' b' /\ Z.of_nat (length (Packets b')) < Z.max 1 (BatchSize cfg)) as Hd.
  { intros sid' b' [_ E']%lookup_delete_Some. by apply Hb. }
  destruct (Packets b) as [|x l] eqn:Ep; split; cbn; try done.
  apply Forall_app. split; [done|]. constructor; [|constructor]. unfold handled_ok, batch_of. cbn. rewrite Hs.
  cbn in Hl. split_and!; try done. lia.
Qed.

Lemma flush_empties now ids p : (forall sid, is_Some (batches p !! sid) -> sid ∈ ids) -> batches (flush now ids p) = ∅.
Proof.
  revert p. induction ids as [|sid ids IH]; intros p Hp.
  - apply map_empty. intros sid. destruct (batches p !! sid) eqn:E; [|done]. by destruct (not_elem_of_nil sid (Hp sid (ex_intro _ _ E))).
  - cbn [flush]. apply IH. intros sid' Hs'. destruct (batches p !! sid) as [b|] eqn:E.
    + assert (batches ((match Packets b with [] => p | _ :: _ => p <| handled ::= fun l => l ++ [mkBatch (Packets b) (StartTime b) now (batch_SessionID b)] |> end) <| batches ::= delete sid |>) = delete sid (batches p)) as Ed
        by (by destruct (Packets b)).
      rewrite Ed in Hs'. apply lookup_delete_is_Some in Hs' as [Hne Hs']. apply Hp in Hs'. by apply elem_of_cons in Hs' as [|].
    + pose proof (Hp sid' Hs') as H. apply elem_of_cons in H as [->|]; [|done]. rewrite E in Hs'. by destruct Hs'.
Qed.

Lemma elem_of_keys {V} (m : gmap string V) ids sid : ids ≡ₚ (map_to_list m).*1 -> is_Some (m !! sid) -> sid ∈ ids.
Proof. intros -> [v Hv]. apply list_elem_of_fmap. exists (sid, v). split; [done|]. by apply elem_of_map_to_list. Qed.

Lemma batch_step_ok cfg p new p' : table_ok cfg p -> batch_step p new p' -> table_ok cfg p' /\ all_packets p' ≡ₚ all_packets p ++ new.
Proof.
  intros Hp Hs. destruct Hs as [packet p Hbuf|packet rest p E Hl|now packet before after p E|now ids p Hids|p|p Hst Hl|now ids p Hst Hw Hids].
  - unfold AddPacket. cbn -[Z.of_nat]. destruct (_ <? _); cbn.
    + split; [by destruct Hp|]. unfold all_packets. cbn. by rewrite <- !app_assoc.
    + split; [by destruct Hp|]. by rewrite app_nil_r.
  - split.
    + destruct Hp as [H1 H2 H3 H4]. split; cbn; try done. rewrite length_app. cbn. lia.
    + unfold all_packets. cbn. rewrite E. solve_Permutation.
  - split.
    + apply processPacket_ok. destruct Hp as [H1 H2 H3 H4]. split; cbn; try done. rewrite E in H4. revert H4. rewrite !length_app. cbn. lia.
    + rewrite processPacket_adds. unfold all_packets. cbn. rewrite E. solve_Permutation.
  - split; [by apply checkTimeouts_ok|]. rewrite checkTimeouts_moves. by rewrite app_nil_r.
  - split; [by destruct Hp|]. by rewrite app_nil_r.
  - split; [|by rewrite app_nil_r]. destruct Hp as [H1 H2 H3 H4]. split; cbn; try done. lia.
  - split; [by apply flush_ok|]. rewrite flush_moves. by rewrite app_nil_r.
Qed.

Lemma batch_run_ok cfg acc p : batch_run cfg acc p -> table_ok cfg p /\ all_packets p ≡ₚ acc.
Proof.
  induction 1 as [|acc p new p' _ [IH1 IH2] Hs].
  - split; [|done]. split; cbn; try done. lia.
  - destruct (batch_step_ok _ _ _ _ IH1 Hs) as [H1 H2]. split; [done|]. by rewrite H2, IH2.
Qed.

(** ** Guarantees: batches *)

(** C19: no accepted packet is lost or duplicated on the way to the handler. In
    every run, under every interleaving of senders, workers, ticker and
    shutdown, the accepted packets are those at the handler, in the table, in a
    worker's hands and in the channel; every batch at the handler is non-empty,
    within the batch size and of one session; and the flush at the end of
    [Stop] hands over everything but what is still in the channel. *)
Theorem batch_conservation cfg acc p : batch_run cfg acc p ->
  acc ≡ₚ (handled p ≫= Packets) ++ pending (batches p) ++ held p ++ packetChan p /\
  Forall (handled_ok cfg) (handled p) /\
  forall now ids, workers p = 0 -> ids ≡ₚ (map_to_list (batches p)).*1 ->
    acc ≡ₚ (handled (flush now ids p) ≫= Packets) ++ packetChan (flush now ids p).
Proof.
  intros Hr. destruct (batch_run_ok _ _ _ Hr) as [Ht Hp]. split; [by rewrite <- Hp|]. split; [apply Ht|].
  intros now ids Hw Hids. rewrite <- Hp, <- (flush_moves now ids p). unfold all_packets.
  rewrite flush_empties by (intros sid; by apply elem_of_keys).
  assert (held (flush now ids p) = []) as ->; [|done].
  assert (forall ids p, held (flush now ids p) = held p) as Hh.
  { clear. induction ids as [|sid ids IH]; intros p; [done|]. cbn [flush]. rewrite IH.
    destruct (batches p !! sid) as [b|]; [|done]. by destruct (Packets b). }
  rewrite Hh. destruct Ht as [_ _ _ Hl]. destruct (held p); [done|]. cbn in Hl. lia.
Qed.

Definition info (sid : string) (n : Z) : RTCPPacketInfo := mkInfo [n] 0 sid "inbound" 0 0.

Lemma run_quiet cfg acc p p' : batch_run cfg acc p -> batch_step p [] p' -> batch_run cfg acc p'.
Proof. intros Hr Hs. rewrite <- (app_nil_r acc). by eapply run_step. Qed.

Lemma run_accept cfg acc p packet : batch_run cfg acc p -> 0 < BufferSize (config p) -> (AddPacket packet p).1 = true ->
  batch_run cfg (acc ++ [packet]) (AddPacket packet p).2.
Proof. intros Hr Hb E. eapply run_step; [done|]. pose proof (b_add packet p Hb) as H. by rewrite E in H. Qed.

(** Forward steps of a concrete run. *)
Ltac accept H x := eapply (run_accept _ _ _ x) in H; [|done|done].
Ltac worker_takes H := eapply run_quiet in H; [|eapply b_take; [reflexivity|reflexivity]].
Ltac worker_puts H now before := eapply run_quiet in H; [|eapply (b_process now _ before); reflexivity].

Lemma batch_conservation_witness :
  exists p, batch_run (mkBatchConfig 2 1000 10 1 true) [info "a" 1; info "a" 2; info "b" 3] p /\
    [info "a" 1; info "a" 2; info "b" 3] ≡ₚ (handled p ≫= Packets) ++ pending (batches p) ++ held p ++ packetChan p /\
    length (handled p) = 1%nat /\ length (held p) = 1%nat.
Proof.
  pose proof (run_start (mkBatchConfig 2 1000 10 1 true)) as H. accept H (info "a" 1). accept H (info "a" 2). accept H (info "b" 3).
  worker_takes H. worker_puts H 5 (@nil RTCPPacketInfo). worker_takes H. worker_puts H 5 (@nil RTCPPacketInfo). worker_takes H.
  eexists. split; [exact H|]. split; [exact (proj1 (batch_conservation _ _ _ H))|]. split; reflexivity.
Defined.

(** The packets of a session. *)
Definition of_session (sid : string) : list RTCPPacketInfo -> list RTCPPacketInfo := filter (fun x => SessionID x = sid).

#[local] Arguments of_session : simpl never.

Lemma of_session_app sid l1 l2 : of_session sid (l1 ++ l2) = of_session sid l1 ++ of_session sid l2.
Proof. apply filter_app. Qed.
Lemma of_session_one sid x : of_session sid [x] = if decide (SessionID x = sid) then [x] else [].
Proof. unfold of_session. by rewrite filter_cons, filter_nil. Qed.

(** The packets of a session in batches, at the handler and in the table. *)
Definition batched (sid : string) (p : RTCPBatchProcessor) : list RTCPPacketInfo :=
  of_session sid (handled p ≫= Packets) ++ default [] (Packets <$> batches p !! sid).

Lemma of_session_all sid sid' l : Forall (fun x => SessionID x = sid) l -> of_session sid' l = if decide (sid' = sid) then l else [].
Proof.
  unfold of_session. induction 1 as [|x l Hx _ IH]; [by destruct (decide _)|]. rewrite filter_cons, IH, Hx.
  destruct (decide (sid' = sid)) as [->|]; [by rewrite decide_True|by rewrite decide_False].
Qed.

Lemma sendBatch_batched now sid sid' b p : Packets <$> batches p !! sid = Some (Packets b) -> batch_of sid b ->
  batched sid' (sendBatch now sid b p) = batched sid' p.
Proof.
  intros E [_ Hf]. unfold batched, sendBatch. cbn. rewrite bind_app, of_session_app. cbn [mbind list_bind Packets].
  rewrite app_nil_r. rewrite (of_session_all sid sid' (Packets b)) by done.
  destruct (decide (sid' = sid)) as [->|].
  - rewrite lookup_insert_eq, E. cbn. by rewrite app_nil_r.
  - rewrite lookup_insert_ne by done. by rewrite app_nil_r.
Qed.

Lemma processPacket_batched cfg now packet sid p : table_ok cfg p ->
  batched sid (processPacket now packet p) = batched sid p ++ of_session sid [packet].
Proof.
  intros [_ Hb _ _]. unfold processPacket. set (b0 := default _ _). cbv zeta. set (b := mkBatch (Packets b0 ++ [packet]) _ _ _).
  assert (batch_of (SessionID packet) b0) as [Hs Hf].
  { unfold b0. destruct (batches p !! SessionID packet) eqn:E; cbn; [by apply Hb|]. split; cbn; [done|constructor]. }
  assert (batched sid (p <| batches ::= <[SessionID packet := b]> |>) = batched sid p ++ of_session sid [packet]) as H1.
  { unfold batched. cbn. rewrite of_session_one. destruct (decide (SessionID packet = sid)) as [E|].
    - rewrite E, lookup_insert_eq. cbn. rewrite <- app_assoc. f_equal. unfold b0. rewrite E. by destruct (batches p !! sid).
    - rewrite lookup_insert_ne by done. by rewrite app_nil_r. }
  destruct (_ <=? _); [|done]. rewrite sendBatch_batched; [done| |].
  - cbn. by rewrite lookup_insert_eq.
  - split; cbn; [done|]. apply Forall_app. split; [done|]. by repeat constructor.
Qed.

Lemma checkTimeouts_batched cfg now ids sid p : table_ok cfg p -> batched sid (checkTimeouts now ids p) = batched sid p.
Proof.
  revert p. induction ids as [|i ids IH]; intros p Hp; [done|]. cbn [checkTimeouts].
  pose proof (checkTimeouts_ok cfg now [i] p Hp) as Hp'. cbn [checkTimeouts] in Hp'. rewrite IH by done.
  destruct (batches p !! i) as [b|] eqn:E; [|done]. destruct (due now p i b); [|done].
  apply sendBatch_batched; [by rewrite E|]. by apply (to_batches cfg p Hp).
Qed.

Lemma flush_batched cfg now ids sid p : table_ok cfg p -> batched sid (flush now ids p) = batched sid p.
Proof.
  revert p. induction ids as [|i ids IH]; intros p Hp; [done|]. cbn [flush].
  pose proof (flush_ok cfg now [i] p Hp) as Hp'. cbn [flush] in Hp'. rewrite IH by done.
  destruct (batches p !! i) as [b|] eqn:E; [|done]. destruct (to_batches cfg p Hp _ _ E) as [[_ Hf] _].
  unfold batched. destruct (Packets b) as [|x l] eqn:Ep; cbn.
  - destruct (decide (sid = i)) as [->|]; [by rewrite lookup_delete_eq, E; cbn; rewrite Ep|by rewrite lookup_delete_ne].
  - rewrite bind_app, of_session_app. cbn [mbind list_bind Packets]. rewrite app_nil_r.
    rewrite (of_session_all i sid (x :: l)) by done. destruct (decide (sid = i)) as [->|].
    + rewrite lookup_delete_eq, E. cbn. by rewrite Ep, app_nil_r.
    + rewrite lookup_delete_ne by done. by rewrite app_nil_r.
Qed.

(** With one worker the packets of a session stay in order: what was
    accepted for the session is what its batches at the handler hold, in the
    order they were handed over, then its batch in the table, then what the
    worker holds and the channel. *)
Theorem single_worker_order cfg acc p sid : NumWorkers cfg <= 1 -> batch_run cfg acc p ->
  of_session sid acc = of_session sid (handled p ≫= Packets) ++ default [] (Packets <$> batches p !! sid) ++ of_session sid (held p ++ packetChan p).
Proof.
  intros Hn Hr. rewrite app_assoc. fold (batched sid p).
  assert (workers p <= 1 /\ of_session sid acc = batched sid p ++ of_session sid (held p ++ packetChan p)) as [_ H]; [|done].
  induction Hr as [|acc p new p' Hr [Hw IH] Hs]; [split; [cbn; lia|done]|].
  destruct (batch_run_ok _ _ _ Hr) as [Ht _]. pose proof (to_held _ _ Ht) as Hh.
  rewrite of_session_app, IH.
  destruct Hs as [packet p Hbuf|packet rest p E Hl|now packet before after p E|now ids p Hids|p|p Hst Hl|now ids p Hst Hw0 Hids].
  - unfold AddPacket. cbn -[Z.of_nat]. destruct (_ <? _); cbn; (split; [done|]).
    + unfold batched. cbn. by rewrite !of_session_app, <- !app_assoc.
    + by rewrite app_nil_r.
  - split; [done|]. unfold batched. cbn. rewrite E, app_nil_r. by rewrite <- (app_assoc (held p)).
  - split.
    { unfold processPacket. cbn. destruct (_ <=? _); done. }
    rewrite E in Hh. rewrite length_app in Hh. cbn in Hh. assert (before = [] /\ after = []) as [-> ->].
    { destruct before; [|cbn in Hh; lia]. destruct after; [done|cbn in Hh; lia]. }
    erewrite processPacket_batched; [|split; [apply Ht|apply Ht|apply Ht|cbn; lia]]. change ([] ++ []) with (@nil RTCPPacketInfo).
    assert (held (processPacket now packet (p <| held := [] |>)) = [] /\ packetChan (processPacket now packet (p <| held := [] |>)) = packetChan p) as [-> ->]
      by (unfold processPacket; cbn; destruct (_ <=? _); done).
    rewrite E, !of_session_app. change (of_session sid []) with (@nil RTCPPacketInfo).
    by rewrite app_nil_r, app_nil_l, <- app_assoc.
  - erewrite checkTimeouts_batched by done. assert (forall ids p, held (checkTimeouts now ids p) = held p /\ packetChan (checkTimeouts now ids p) = packetChan p /\ workers (checkTimeouts now ids p) = workers p) as Hk.
    { clear. induction ids as [|i ids IH]; intros p; [done|]. cbn [checkTimeouts]. destruct (IH (match batches p !! i with Some batch => if due now p i batch then sendBatch now i batch p else p | None => p end)) as (-> & -> & ->).
      destruct (batches p !! i); [|done]. by destruct (due _ _ _ _). }
    destruct (Hk ids p) as (-> & -> & ->). split; [done|]. by rewrite app_nil_r.
  - split; [done|]. by rewrite app_nil_r.
  - split; [cbn; lia|]. by rewrite app_nil_r.
  - erewrite flush_batched by done. assert (forall ids p, held (flush now ids p) = held p /\ packetChan (flush now ids p) = packetChan p /\ workers (flush now ids p) = workers p) as Hk.
    { clear. induction ids as [|i ids IH]; intros p; [done|]. cbn [flush]. rewrite !(proj1 (IH _)), !(proj1 (proj2 (IH _))), !(proj2 (proj2 (IH _))).
      destruct (batches p !! i) as [b|]; [|done]. by destruct (Packets b). }
    destruct (Hk ids p) as (-> & -> & ->). split; [done|]. by rewrite app_nil_r.
Qed.

Lemma single_worker_order_witness :
  exists p, batch_run (mkBatchConfig 2 1000 10 1 true) [info "a" 1; info "b" 2; info "a" 3] p /\ length (handled p) = 1%nat /\
    of_session "a" [info "a" 1; info "b" 2; info "a" 3] =
    of_session "a" (handled p ≫= Packets) ++ default [] (Packets <$> batches p !! "a") ++ of_session "a" (held p ++ packetChan p).
Proof.
  pose proof (run_start (mkBatchConfig 2 1000 10 1 true)) as H. accept H (info "a" 1). accept H (info "b" 2). accept H (info "a" 3).
  do 3 (worker_takes H; worker_puts H 5 (@nil RTCPPacketInfo)).
  eexists. split; [exact H|]. split; [reflexivity|]. refine (single_worker_order _ _ _ "a" _ H). cbn. lia.
Defined.

(** With the default four workers the order is lost: two packets of one
    session, accepted one after the other, can reach the handler in the
    opposite order in one batch, because a worker lets go of the channel before
    it locks the table. *)
Theorem workers_reorder :
  exists p, batch_run (mkBatchConfig 2 (10 * Millisecond) 1000 4 true) [info "a" 1; info "a" 2] p /\
    (handled p ≫= Packets) = [info "a" 2; info "a" 1].
Proof.
  pose proof (run_start (mkBatchConfig 2 (10 * Millisecond) 1000 4 true)) as H. accept H (info "a" 1). accept H (info "a" 2).
  worker_takes H. worker_takes H. worker_puts H 5 [info "a" 1]. worker_puts H 5 (@nil RTCPPacketInfo).
  eexists. split; [exact H|reflexivity].
Qed.

(** Shutting down loses what is in the channel. An accepted packet that no
    worker took before the workers saw the stop signal stays in the channel
    after the final flush, and no step takes it out again. *)
Theorem stop_loses_queued :
  exists p, batch_run DefaultRTCPBatchConfig [info "a" 1] p /\ handled p = [] /\ packetChan p = [info "a" 1] /\
  forall p' new, batch_step p new p' -> handled p' = [] /\ packetChan p' = [info "a" 1] ++ new /\ workers p' = 0.
Proof.
  pose proof (run_start DefaultRTCPBatchConfig) as H. accept H (info "a" 1).
  eapply run_quiet in H; [|apply b_stop]. do 4 (eapply run_quiet in H; [|apply b_exit; reflexivity]).
  eapply run_quiet in H; [|apply (b_flush 5 []); reflexivity].
  eexists. split; [exact H|]. split; [reflexivity|]. split; [reflexivity|]. intros p' new Hs.
  inversion Hs; subst; clear Hs H.
  - done.
  - match goal with Hl : _ < _ |- _ => vm_compute in Hl; done end.
  - match goal with Hl : held _ = _ |- _ => vm_compute in Hl; by destruct before end.
  - match goal with Hl : _ ≡ₚ _ |- _ => apply Permutation_nil_r in Hl; by subst end.
  - done.
  - match goal with Hl : _ < _ |- _ => vm_compute in Hl; done end.
  - match goal with Hl : _ ≡ₚ _ |- _ => apply Permutation_nil_r in Hl; by subst end.
Qed.

(** *** Overdue batches *)

(** The ticker sends exactly the batches that are due, whatever order it walks
    the map in, and leaves the others as they are. *)
Theorem checkTimeouts_exact now ids p sid b :
  ids ≡ₚ (map_to_list (batches p)).*1 -> batches p !! sid = Some b ->
  batches (checkTimeouts now ids p) !! sid = Some (if due now p sid b then mkBatch [] now 0 sid else b).
Proof.
  intros Hids E. assert (NoDup ids) as Hnd by (rewrite Hids; apply NoDup_fst_map_to_list).
  assert (sid ∈ ids) as Hin by (by eapply elem_of_keys).
  clear Hids. revert p E. induction ids as [|i ids IH]; intros p E; [by apply not_elem_of_nil in Hin|].
  apply NoDup_cons in Hnd as [Hni Hnd]. cbn [checkTimeouts].
  assert (forall ids p, sid ∉ ids -> batches (checkTimeouts now ids p) !! sid = batches p !! sid) as Hskip.
  { clear. induction ids as [|i ids IH]; intros p Hn; [done|]. apply not_elem_of_cons in Hn as [Hne Hn]. cbn [checkTimeouts]. rewrite IH by done.
    destruct (batches p !! i) as [b|]; [|done]. destruct (due _ _ _ _); [|done]. cbn. by rewrite lookup_insert_ne. }
  destruct (decide (i = sid)) as [->|Hne].
  - rewrite Hskip by done. rewrite E. destruct (due now p sid b); [|done]. cbn. by rewrite lookup_insert_eq.
  - apply elem_of_cons in Hin as [->|Hin]; [done|].
    destruct (batches p !! i) as [b'|] eqn:Ei; [|by apply IH]. destruct (due now p i b') eqn:Ed; [|by apply IH].
    rewrite IH; [|done|done|cbn; by rewrite lookup_insert_ne].
    assert (due now (sendBatch now i b' p) sid b = due now p sid b) as ->; [|done].
    unfold due. cbn. by rewrite lookup_insert_ne.
Qed.
