(* ===== verification/Rtcp.v ===== *)
(** * RTCP sessions

    Models src/internal/rtcp_handler.go: the statistics of a session leg that
    RTP packets and received reports update, the reports built from them, the
    handler that reports for all sessions, NTP time, and the recognition of RTCP
    packets. Marshalling and unmarshalling belong to the pion library: a report
    is the structure given to it, and a received packet the structure it
    returned. Prometheus observations and log lines are left out. *)

From Stdlib Require Import ZArith Lia Bool Floats.SpecFloat.
From stdpp Require Import base numbers list gmap strings relations.
From S2P Require Import Prelude GoFloat FloatExact Bytes.

Local Open Scope Z_scope.
Local Open Scope go_scope.
#[local] Arguments wraps : simpl never.
#[local] Arguments wrapu : simpl never.

(** ** Packets of the pion library *)

Record ReceptionReport := mkReception {
  SSRC : Z; FractionLost : Z; TotalLost : Z; LastSequenceNumber : Z; Jitter : Z; LastSenderReport : Z; Delay : Z }.

Inductive rtcp_packet :=
| SenderReport (ssrc ntpTime rtpTime packetCount octetCount : Z) (reports : list ReceptionReport)
| ReceiverReport (ssrc : Z) (reports : list ReceptionReport)
| Goodbye (sources : list Z) (reason : string)
| SourceDescription (source : Z) (cname : string)
| OtherPacket.

(** ** Configuration and sessions *)

Record RTCPConfig := mkConfig { c_Enabled : bool; c_Interval : Z; c_ReducedSize : bool; c_MuxEnabled : bool }.
Record RTCPInternalConfig := mkInternal { Enabled : bool; Interval : Z; ReducedSize : bool; MuxEnabled : bool }.

Definition ToRTCPInternalConfig (cfg : option RTCPConfig) : RTCPInternalConfig :=
  match cfg with
  | None => mkInternal true (5 * Second) false false
  | Some c => mkInternal (c_Enabled c) (i64 (c_Interval c * Second)) (c_ReducedSize c) (c_MuxEnabled c)
  end.

(** [conn] says whether both the connection and the remote address are set. *)
Record RTCPSessionHandler := mkSession {
  ssrc : Z;
  cname : string;
  conn : bool;
  clockRate : Z;
  packetsSent : Z;
  octetsSent : Z;
  lastSRNTP : Z;
  lastSRTime : Z;
  packetsRecv : Z;
  packetsLost : Z;
  lastSeq : Z;
  highestSeq : Z;
  seqCycles : Z;
  jitter : float64;
  lastSRRecvNTP : Z;
  lastSRRecvTime : Z;
  lastArrivalTime : Z;
  lastTimestamp : Z;
  rtt : Z;
  fractionLost : Z }.
#[export] Instance set_ssrc : Setter ssrc := fun f r =>
  mkSession (f (ssrc r)) (cname r) (conn r) (clockRate r) (packetsSent r) (octetsSent r) (lastSRNTP r) (lastSRTime r) (packetsRecv r) (packetsLost r) (lastSeq r) (highestSeq r) (seqCycles r) (jitter r) (lastSRRecvNTP r) (lastSRRecvTime r) (lastArrivalTime r) (lastTimestamp r) (rtt r) (fractionLost r).
#[export] Instance set_cname : Setter cname := fun f r =>
  mkSession (ssrc r) (f (cname r)) (conn r) (clockRate r) (packetsSent r) (octetsSent r) (lastSRNTP r) (lastSRTime r) (packetsRecv r) (packetsLost r) (lastSeq r) (highestSeq r) (seqCycles r) (jitter r) (lastSRRecvNTP r) (lastSRRecvTime r) (lastArrivalTime r) (lastTimestamp r) (rtt r) (fractionLost r).
#[export] Instance set_conn : Setter conn := fun f r =>
  mkSession (ssrc r) (cname r) (f (conn r)) (clockRate r) (packetsSent r) (octetsSent r) (lastSRNTP r) (lastSRTime r) (packetsRecv r) (packetsLost r) (lastSeq r) (highestSeq r) (seqCycles r) (jitter r) (lastSRRecvNTP r) (lastSRRecvTime r) (lastArrivalTime r) (lastTimestamp r) (rtt r) (fractionLost r).
#[export] Instance set_clockRate : Setter clockRate := fun f r =>
  mkSession (ssrc r) (cname r) (conn r) (f (clockRate r)) (packetsSent r) (octetsSent r) (lastSRNTP r) (lastSRTime r) (packetsRecv r) (packetsLost r) (lastSeq r) (highestSeq r) (seqCycles r) (jitter r) (lastSRRecvNTP r) (lastSRRecvTime r) (lastArrivalTime r) (lastTimestamp r) (rtt r) (fractionLost r).
#[export] Instance set_packetsSent : Setter packetsSent := fun f r =>
  mkSession (ssrc r) (cname r) (conn r) (clockRate r) (f (packetsSent r)) (octetsSent r) (lastSRNTP r) (lastSRTime r) (packetsRecv r) (packetsLost r) (lastSeq r) (highestSeq r) (seqCycles r) (jitter r) (lastSRRecvNTP r) (lastSRRecvTime r) (lastArrivalTime r) (lastTimestamp r) (rtt r) (fractionLost r).
#[export] Instance set_octetsSent : Setter octetsSent := fun f r =>
  mkSession (ssrc r) (cname r) (conn r) (clockRate r) (packetsSent r) (f (octetsSent r)) (lastSRNTP r) (lastSRTime r) (packetsRecv r) (packetsLost r) (lastSeq r) (highestSeq r) (seqCycles r) (jitter r) (lastSRRecvNTP r) (lastSRRecvTime r) (lastArrivalTime r) (lastTimestamp r) (rtt r) (fractionLost r).
#[export] Instance set_lastSRNTP : Setter lastSRNTP := fun f r =>
  mkSession (ssrc r) (cname r) (conn r) (clockRate r) (packetsSent r) (octetsSent r) (f (lastSRNTP r)) (lastSRTime r) (packetsRecv r) (packetsLost r) (lastSeq r) (highestSeq r) (seqCycles r) (jitter r) (lastSRRecvNTP r) (lastSRRecvTime r) (lastArrivalTime r) (lastTimestamp r) (rtt r) (fractionLost r).
#[export] Instance set_lastSRTime : Setter lastSRTime := fun f r =>
  mkSession (ssrc r) (cname r) (conn r) (clockRate r) (packetsSent r) (octetsSent r) (lastSRNTP r) (f (lastSRTime r)) (packetsRecv r) (packetsLost r) (lastSeq r) (highestSeq r) (seqCycles r) (jitter r) (lastSRRecvNTP r) (lastSRRecvTime r) (lastArrivalTime r) (lastTimestamp r) (rtt r) (fractionLost r).
#[export] Instance set_packetsRecv : Setter packetsRecv := fun f r =>
  mkSession (ssrc r) (cname r) (conn r) (clockRate r) (packetsSent r) (octetsSent r) (lastSRNTP r) (lastSRTime r) (f (packetsRecv r)) (packetsLost r) (lastSeq r) (highestSeq r) (seqCycles r) (jitter r) (lastSRRecvNTP r) (lastSRRecvTime r) (lastArrivalTime r) (lastTimestamp r) (rtt r) (fractionLost r).
#[export] Instance set_packetsLost : Setter packetsLost := fun f r =>
  mkSession (ssrc r) (cname r) (conn r) (clockRate r) (packetsSent r) (octetsSent r) (lastSRNTP r) (lastSRTime r) (packetsRecv r) (f (packetsLost r)) (lastSeq r) (highestSeq r) (seqCycles r) (jitter r) (lastSRRecvNTP r) (lastSRRecvTime r) (lastArrivalTime r) (lastTimestamp r) (rtt r) (fractionLost r).
#[export] Instance set_lastSeq : Setter lastSeq := fun f r =>
  mkSession (ssrc r) (cname r) (conn r) (clockRate r) (packetsSent r) (octetsSent r) (lastSRNTP r) (lastSRTime r) (packetsRecv r) (packetsLost r) (f (lastSeq r)) (highestSeq r) (seqCycles r) (jitter r) (lastSRRecvNTP r) (lastSRRecvTime r) (lastArrivalTime r) (lastTimestamp r) (rtt r) (fractionLost r).
#[export] Instance set_highestSeq : Setter highestSeq := fun f r =>
  mkSession (ssrc r) (cname r) (conn r) (clockRate r) (packetsSent r) (octetsSent r) (lastSRNTP r) (lastSRTime r) (packetsRecv r) (packetsLost r) (lastSeq r) (f (highestSeq r)) (seqCycles r) (jitter r) (lastSRRecvNTP r) (lastSRRecvTime r) (lastArrivalTime r) (lastTimestamp r) (rtt r) (fractionLost r).
#[export] Instance set_seqCycles : Setter seqCycles := fun f r =>
  mkSession (ssrc r) (cname r) (conn r) (clockRate r) (packetsSent r) (octetsSent r) (lastSRNTP r) (lastSRTime r) (packetsRecv r) (packetsLost r) (lastSeq r) (highestSeq r) (f (seqCycles r)) (jitter r) (lastSRRecvNTP r) (lastSRRecvTime r) (lastArrivalTime r) (lastTimestamp r) (rtt r) (fractionLost r).
#[export] Instance set_jitter : Setter jitter := fun f r =>
  mkSession (ssrc r) (cname r) (conn r) (clockRate r) (packetsSent r) (octetsSent r) (lastSRNTP r) (lastSRTime r) (packetsRecv r) (packetsLost r) (lastSeq r) (highestSeq r) (seqCycles r) (f (jitter r)) (lastSRRecvNTP r) (lastSRRecvTime r) (lastArrivalTime r) (lastTimestamp r) (rtt r) (fractionLost r).
#[export] Instance set_lastSRRecvNTP : Setter lastSRRecvNTP := fun f r =>
  mkSession (ssrc r) (cname r) (conn r) (clockRate r) (packetsSent r) (octetsSent r) (lastSRNTP r) (lastSRTime r) (packetsRecv r) (packetsLost r) (lastSeq r) (highestSeq r) (seqCycles r) (jitter r) (f (lastSRRecvNTP r)) (lastSRRecvTime r) (lastArrivalTime r) (lastTimestamp r) (rtt r) (fractionLost r).
#[export] Instance set_lastSRRecvTime : Setter lastSRRecvTime := fun f r =>
  mkSession (ssrc r) (cname r) (conn r) (clockRate r) (packetsSent r) (octetsSent r) (lastSRNTP r) (lastSRTime r) (packetsRecv r) (packetsLost r) (lastSeq r) (highestSeq r) (seqCycles r) (jitter r) (lastSRRecvNTP r) (f (lastSRRecvTime r)) (lastArrivalTime r) (lastTimestamp r) (rtt r) (fractionLost r).
#[export] Instance set_lastArrivalTime : Setter lastArrivalTime := fun f r =>
  mkSession (ssrc r) (cname r) (conn r) (clockRate r) (packetsSent r) (octetsSent r) (lastSRNTP r) (lastSRTime r) (packetsRecv r) (packetsLost r) (lastSeq r) (highestSeq r) (seqCycles r) (jitter r) (lastSRRecvNTP r) (lastSRRecvTime r) (f (lastArrivalTime r)) (lastTimestamp r) (rtt r) (fractionLost r).
#[export] Instance set_lastTimestamp : Setter lastTimestamp := fun f r =>
  mkSession (ssrc r) (cname r) (conn r) (clockRate r) (packetsSent r) (octetsSent r) (lastSRNTP r) (lastSRTime r) (packetsRecv r) (packetsLost r) (lastSeq r) (highestSeq r) (seqCycles r) (jitter r) (lastSRRecvNTP r) (lastSRRecvTime r) (lastArrivalTime r) (f (lastTimestamp r)) (rtt r) (fractionLost r).
#[export] Instance set_rtt : Setter rtt := fun f r =>
  mkSession (ssrc r) (cname r) (conn r) (clockRate r) (packetsSent r) (octetsSent r) (lastSRNTP r) (lastSRTime r) (packetsRecv r) (packetsLost r) (lastSeq r) (highestSeq r) (seqCycles r) (jitter r) (lastSRRecvNTP r) (lastSRRecvTime r) (lastArrivalTime r) (lastTimestamp r) (f (rtt r)) (fractionLost r).
#[export] Instance set_fractionLost : Setter fractionLost := fun f r =>
  mkSession (ssrc r) (cname r) (conn r) (clockRate r) (packetsSent r) (octetsSent r) (lastSRNTP r) (lastSRTime r) (packetsRecv r) (packetsLost r) (lastSeq r) (highestSeq r) (seqCycles r) (jitter r) (lastSRRecvNTP r) (lastSRRecvTime r) (lastArrivalTime r) (lastTimestamp r) (rtt r) (f (fractionLost r)).

Definition NewRTCPSessionHandler (ssrc : Z) (cname : string) (clockRate : Z) : RTCPSessionHandler :=
  mkSession ssrc cname false clockRate 0 0 0 0 0 0 0 0 0 (of_int 0) 0 0 0 0 0 0.

Definition SetConnection (present : bool) (s : RTCPSessionHandler) : RTCPSessionHandler := s <| conn := present |>.

Definition UpdateSenderStats (sent octets : Z) (s : RTCPSessionHandler) : RTCPSessionHandler :=
  s <| packetsSent := sent |> <| octetsSent := octets |>.

(** The first half of [UpdateReceiverStats]: sequence numbers and loss. The
    conversion [uint16(s.seqCycles*65536)] keeps the low 16 bits. *)
Definition track_sequence (seq : Z) (s : RTCPSessionHandler) : RTCPSessionHandler :=
  if packetsRecv s =? 0 then s <| highestSeq := seq |> <| lastSeq := seq |>
  else
    let diff := i32 (seq - highestSeq s) in
    let s := if diff >? 0 then s <| highestSeq := seq |>
             else if diff <? -32768 then s <| seqCycles ::= fun c => u32 (c + 1) |> <| highestSeq := seq |>
             else s in
    let expectedSeq := u16 (highestSeq s + u16 (u32 (seqCycles s * 65536))) in
    let expected := i32 (expectedSeq - lastSeq s + 1) in
    let received := i32 (i32 (packetsRecv s) + 1) in
    let lost := i32 (expected - received) in
    s <| packetsLost := if lost <? 0 then 0 else lost |>.

(** The second half: interarrival jitter. *)
Definition track_jitter (timestamp arrivalTime : Z) (s : RTCPSessionHandler) : RTCPSessionHandler :=
  if IsZero (lastArrivalTime s) then s <| lastArrivalTime := arrivalTime |> <| lastTimestamp := timestamp |>
  else
    let arrivalDiff := fmul (Seconds (Time_Sub arrivalTime (lastArrivalTime s))) (of_int (clockRate s)) in
    let timestampDiff := of_int (i32 (u32 (timestamp - lastTimestamp s))) in
    let d := fsub arrivalDiff timestampDiff in
    let d := if flt d (of_int 0) then fneg d else d in
    s <| jitter ::= fun j => fadd j (fdiv (fsub d j) (of_int 16)) |>
      <| lastArrivalTime := arrivalTime |> <| lastTimestamp := timestamp |>.

Definition UpdateReceiverStats (seq timestamp arrivalTime : Z) (s : RTCPSessionHandler) : RTCPSessionHandler :=
  track_jitter timestamp arrivalTime (track_sequence seq s <| packetsRecv ::= fun n => u32 (n + 1) |>).

(** ** Received reports *)

Definition updateFromReceptionReport (now : Z) (report : ReceptionReport) (s : RTCPSessionHandler) : RTCPSessionHandler :=
  if negb (SSRC report =? ssrc s) then s
  else
    let s := s <| fractionLost := FractionLost report |> in
    if negb (LastSenderReport report =? 0) && negb (Delay report =? 0) && negb (IsZero (lastSRTime s)) then
      let dlsr := Z.quot (i64 (Delay report * Second)) 65536 in
      let sinceLastSR := Time_Sub now (lastSRTime s) in
      s <| rtt := i64 (sinceLastSR - dlsr) |>
    else s.

Definition processSenderReport (now ntpTime : Z) (reports : list ReceptionReport) (s : RTCPSessionHandler) : RTCPSessionHandler :=
  foldl (fun s r => updateFromReceptionReport now r s) (s <| lastSRRecvNTP := ntpTime |> <| lastSRRecvTime := now |>) reports.

Definition processReceiverReport (now : Z) (reports : list ReceptionReport) (s : RTCPSessionHandler) : RTCPSessionHandler :=
  foldl (fun s r => updateFromReceptionReport now r s) s reports.

(** Goodbyes and source descriptions are only logged. *)
Definition process_packet (now : Z) (s : RTCPSessionHandler) (p : rtcp_packet) : RTCPSessionHandler :=
  match p with
  | SenderReport _ ntpTime _ _ _ reports => processSenderReport now ntpTime reports s
  | ReceiverReport _ reports => processReceiverReport now reports s
  | Goodbye _ _ | SourceDescription _ _ | OtherPacket => s
  end.

(** [unmarshal] is the library's [rtcp.Unmarshal], which fails with [None]. *)
Definition ProcessRTCP (unmarshal : list Z -> option (list rtcp_packet)) (now : Z) (data : list Z)
    (s : RTCPSessionHandler) : option RTCPSessionHandler :=
  match unmarshal data with
  | None => None
  | Some packets => Some (foldl (process_packet now) s packets)
  end.

(** ** NTP and RTP time

    [unixEpoch] is 1 January 1970 in nanoseconds since Go's zero time. *)

Definition unixEpoch : Z := 62135596800 * Second.
Definition ntpEpochOffset : Z := 2208988800.

Definition Unix (t : Z) : Z := (t - unixEpoch) / Second.
Definition UnixNano (t : Z) : Z := i64 (t - unixEpoch).
Definition time_Nanosecond (t : Z) : Z := t mod Second.

Definition toNTPTime (t : Z) : Z :=
  let secs := u64 (u64 (Unix t) + ntpEpochOffset) in
  let frac := u64 (time_Nanosecond t * 2 ^ 32) / 1000000000 in
  Z.lor (u64 (Z.shiftl secs 32)) frac.

Definition FromNTPTime (ntp : Z) : Z :=
  let secs := i64 (u64 (Z.shiftr ntp 32 - ntpEpochOffset)) in
  let frac := fdiv (of_int (Z.land ntp 0xFFFFFFFF)) (of_int (2 ^ 32)) in
  let nsec := to_int64 (fmul frac (of_int 1000000000)) in
  unixEpoch + secs * Second + nsec.

(** Integer division by zero panics. *)
Definition calculateRTPTimestamp (t : Z) (s : RTCPSessionHandler) : outcome unit Z :=
  if clockRate s =? 0 then Panic
  else
    let tick := Z.quot Second (clockRate s) in
    if tick =? 0 then Panic else Ok (u32 (Z.quot (UnixNano t) tick)).

(** ** Reports *)

Definition buildReceptionReport (now : Z) (s : RTCPSessionHandler) : ReceptionReport :=
  let fraction :=
    if (packetsLost s >? 0) && (packetsRecv s >? 0)
    then u8 (to_int64 (fmul (fdiv (of_int (packetsLost s)) (of_int (u32 (packetsRecv s + u32 (packetsLost s))))) (of_int 256)))
    else 0 in
  let extHighSeq := u32 (highestSeq s + u32 (seqCycles s * 65536)) in
  let jitterTS := u32 (to_int64 (jitter s)) in
  let '(lsr, dlsr) :=
    if IsZero (lastSRRecvTime s) then (0, 0)
    else (u32 (Z.shiftr (lastSRRecvNTP s) 16),
          u32 (to_int64 (fmul (Seconds (Time_Sub now (lastSRRecvTime s))) (of_int 65536)))) in
  mkReception (ssrc s) fraction (u32 (packetsLost s)) extHighSeq jitterTS lsr dlsr.

Definition reception_reports (now : Z) (s : RTCPSessionHandler) : list ReceptionReport :=
  if packetsRecv s >? 0 then [buildReceptionReport now s] else [].

Definition buildSenderReport (now : Z) (s : RTCPSessionHandler) : outcome unit rtcp_packet * RTCPSessionHandler :=
  let ntpTime := toNTPTime now in
  let s := s <| lastSRNTP := ntpTime |> <| lastSRTime := now |> in
  (let! rtpTime := calculateRTPTimestamp now s in
   Ok (SenderReport (ssrc s) ntpTime rtpTime (packetsSent s) (octetsSent s) (reception_reports now s)), s).

Definition buildReceiverReport (now : Z) (s : RTCPSessionHandler) : rtcp_packet :=
  ReceiverReport (ssrc s) (reception_reports now s).

(** The packets given to [rtcp.Marshal], none without a connection. *)
Definition SendReport (now : Z) (s : RTCPSessionHandler) : outcome unit (list rtcp_packet) * RTCPSessionHandler :=
  if negb (conn s) then (Ok [], s)
  else
    let '(report, s) :=
      if packetsSent s >? 0 then buildSenderReport now s else (Ok (buildReceiverReport now s), s) in
    (let! report := report in Ok [report; SourceDescription (ssrc s) (cname s)], s).

Definition SendBye (reason : string) (s : RTCPSessionHandler) : list rtcp_packet :=
  if negb (conn s) then [] else [Goodbye [ssrc s] reason].

Record RTCPStats := mkStats {
  st_SSRC : Z; st_PacketsSent : Z; st_OctetsSent : Z; st_PacketsRecv : Z; st_PacketsLost : Z; st_FractionLost : Z;
  st_Jitter : float64; st_RTT : Z }.
Definition GetStats (s : RTCPSessionHandler) : RTCPStats :=
  mkStats (ssrc s) (packetsSent s) (octetsSent s) (packetsRecv s) (packetsLost s) (fractionLost s)
    (fdiv (jitter s) (of_int (clockRate s))) (rtt s).

(** ** Recognising packets *)

Definition IsRTCPPacket (data : list Z) : bool :=
  match data with
  | d0 :: payloadType :: _ :: _ :: _ =>
      (Z.land (Z.shiftr d0 6) 0x3 =? 2) && (payloadType >=? 200) && (payloadType <=? 207)
  | _ => false
  end.

Definition GetRTCPType (data : list Z) : Z := match data with _ :: t :: _ => t | _ => 0 end.

Definition PutUint64 (x : Z) : list Z := PutUint32 (u32 (Z.shiftr x 32)) ++ PutUint32 (u32 x).

Definition BuildCompactSR (ssrc ntpTime rtpTime packets octets : Z) : list Z :=
  [0x80; 200] ++ PutUint16 6 ++ PutUint32 ssrc ++ PutUint64 ntpTime ++ PutUint32 rtpTime ++ PutUint32 packets ++ PutUint32 octets.

(** ** The handler of all sessions

    A session is an object that the table points to. [stopped] says that the
    stop channel is closed. *)

Record RTCPHandler := mkHandler {
  h_config : RTCPInternalConfig;
  sessions : gmap string nat;
  store : gmap nat RTCPSessionHandler;
  running : bool;
  stopped : bool;
  loops : Z }.

Definition NewRTCPHandler (cfg : option RTCPInternalConfig) : RTCPHandler :=
  let c := default (mkInternal true (5 * Second) false false) cfg in
  let c := if Interval c =? 0 then mkInternal (Enabled c) (5 * Second) (ReducedSize c) (MuxEnabled c) else c in
  mkHandler c ∅ ∅ false false 0.

Definition NewRTCPHandlerFromConfig (cfg : option RTCPConfig) : RTCPHandler := NewRTCPHandler (Some (ToRTCPInternalConfig cfg)).

(** [loops] counts the report loops that run; one that finds the stop channel
    closed ends. *)
Definition Start (h : RTCPHandler) : RTCPHandler :=
  if running h || negb (Enabled (h_config h)) then h
  else mkHandler (h_config h) (sessions h) (store h) true (stopped h) (loops h + 1).

Definition loop_ends (h : RTCPHandler) : RTCPHandler :=
  mkHandler (h_config h) (sessions h) (store h) (running h) (stopped h) (loops h - 1).

(** Closing a closed channel panics; [Stop] then waits for the loops. *)
Definition Stop (h : RTCPHandler) : outcome unit RTCPHandler :=
  if negb (running h) then Ok h
  else if stopped h then Panic
  else Ok (mkHandler (h_config h) (sessions h) (store h) false true 0).

Definition AddSession (id : string) (p : nat) (h : RTCPHandler) : RTCPHandler :=
  mkHandler (h_config h) (<[id := p]> (sessions h)) (store h) (running h) (stopped h) (loops h).
Definition RemoveSession (id : string) (h : RTCPHandler) : RTCPHandler :=
  mkHandler (h_config h) (delete id (sessions h)) (store h) (running h) (stopped h) (loops h).
Definition GetSession (id : string) (h : RTCPHandler) : option nat := sessions h !! id.

(** [rnd] is the value of [rand.Float64]. *)
Definition calculateInterval (rnd : float64) (h : RTCPHandler) : Z :=
  let interval := Interval (h_config h) in
  if (0 <? size (sessions h))%nat then
    let minInterval := if ReducedSize (h_config h) then 360 * Millisecond else 5 * Second in
    let interval := to_int64 (fmul (of_int interval) (fadd (lit 1 2) rnd)) in
    if interval <? minInterval then minInterval else interval
  else interval.

(** Reports for the sessions in the order [ids] of the map's walk, one clock
    reading for each; a panic in one of them ends the loop's goroutine. *)
Fixpoint sendReports (now : Z) (ids : list string) (h : RTCPHandler) : outcome unit (list rtcp_packet) * RTCPHandler :=
  match ids with
  | [] => (Ok [], h)
  | id :: ids =>
      match p ← sessions h !! id; s ← store h !! p; Some (p, s) with
      | None => sendReports now ids h
      | Some (p, s) =>
          let '(r, s) := SendReport now s in
          let h := mkHandler (h_config h) (sessions h) (<[p := s]> (store h)) (running h) (stopped h) (loops h) in
          match r with
          | Ok packets => let '(rest, h) := sendReports now ids h in (let! rest := rest in Ok (packets ++ rest), h)
          | _ => (Panic, h)
          end
      end
  end.

Example ntp_2000 : toNTPTime (unixEpoch + 946684800 * Second + 500 * Millisecond) = 3155673600 * 2 ^ 32 + 2 ^ 31.
Proof. vm_compute. reflexivity. Qed.
Example interval_ex :
  calculateInterval (lit 1 4) (AddSession "a" 1 (NewRTCPHandler (Some (mkInternal true (8 * Second) false false)))) = 6 * Second.
Proof. vm_compute. reflexivity. Qed.

(** ** Lemmas: sequence numbers *)

(** What sequence tracking leaves alone. *)
Lemma track_jitter_keeps ts at_ s :
  let s' := track_jitter ts at_ s in
  highestSeq s' = highestSeq s /\ lastSeq s' = lastSeq s /\ seqCycles s' = seqCycles s /\ packetsRecv s' = packetsRecv s /\
  packetsLost s' = packetsLost s /\ ssrc s' = ssrc s.
Proof. unfold track_jitter. by destruct (IsZero _). Qed.

Lemma UpdateReceiverStats_fields seq ts at_ s :
  let s1 := track_sequence seq s in let s' := UpdateReceiverStats seq ts at_ s in
  highestSeq s' = highestSeq s1 /\ lastSeq s' = lastSeq s1 /\ seqCycles s' = seqCycles s1 /\
  packetsRecv s' = u32 (packetsRecv s1 + 1) /\ packetsLost s' = packetsLost s1.
Proof.
  cbv zeta. unfold UpdateReceiverStats.
  destruct (track_jitter_keeps ts at_ (track_sequence seq s <| packetsRecv ::= fun n => u32 (n + 1) |>)) as (-> & -> & -> & -> & -> & _). done.
Qed.

(** The loss estimate: what the low 16 bits of the highest number expect. *)
Lemma track_sequence_loss seq s : packetsRecv s <> 0 -> is_u 30 (packetsRecv s + 1) -> is_u 16 (lastSeq s) ->
  let s1 := track_sequence seq s in
  is_u 16 (highestSeq s1) -> packetsLost s1 = Z.max 0 (highestSeq s1 - lastSeq s - packetsRecv s) /\ lastSeq s1 = lastSeq s /\ packetsRecv s1 = packetsRecv s.
Proof.
  intros Hr Hn Hl s1 Hh. unfold s1, track_sequence in *. rewrite (proj2 (Z.eqb_neq _ _) Hr) in *. cbv zeta in *.
  set (s2 := if _ >? 0 then _ else _) in *.
  assert (lastSeq s2 = lastSeq s /\ packetsRecv s2 = packetsRecv s) as [E1 E2] by (unfold s2; by repeat case_match).
  change (highestSeq (s2 <| packetsLost := _ |>)) with (highestSeq s2) in *. cbn [packetsLost set_field set_packetsLost]. cbn in Hh |- *.
  rewrite E1, E2. split; [|done].
  assert (u16 (highestSeq s2 + u16 (u32 (seqCycles s2 * 65536))) = highestSeq s2) as ->.
  { assert (u16 (u32 (seqCycles s2 * 65536)) = 0) as ->.
    { unfold wrapu. rewrite Z.mod_mod_divide by (by exists (2 ^ 16)). apply Z.mod_mul. done. }
    rewrite Z.add_0_r. by apply wrapu_id. }
  unfold is_u in *. rewrite (wraps_id 32 (packetsRecv s)) by (unfold is_s; lia). rewrite (wraps_id 32 (packetsRecv s + 1)) by (unfold is_s; lia).
  rewrite (wraps_id 32 (highestSeq s2 - lastSeq s + 1)) by (unfold is_s; lia). rewrite wraps_id by (unfold is_s; lia).
  destruct (Z.ltb_spec (highestSeq s2 - lastSeq s + 1 - (packetsRecv s + 1)) 0); lia.
Qed.

Lemma track_sequence_u16 seq s : is_u 16 seq -> is_u 16 (highestSeq s) -> is_u 16 (highestSeq (track_sequence seq s)).
Proof. intros H1 H2. unfold track_sequence. repeat case_match; cbn; done. Qed.

(** Arrivals in any order. *)
Definition receive_all (l : list (Z * Z * Z)) (s : RTCPSessionHandler) : RTCPSessionHandler :=
  foldl (fun s '(seq, ts, at_) => UpdateReceiverStats seq ts at_ s) s l.

Lemma receive_all_bounds ssrc cname rate l : Forall (fun '(seq, _, _) => is_u 16 seq) l -> Z.of_nat (length l) < 2 ^ 30 ->
  let s := receive_all l (NewRTCPSessionHandler ssrc cname rate) in
  packetsRecv s = Z.of_nat (length l) /\ is_u 16 (lastSeq s) /\ is_u 16 (highestSeq s) /\
  0 <= packetsLost s <= Z.max 0 (65536 - Z.of_nat (length l)).
Proof.
  intros Hl. induction l as [|[[seq ts] at_] l IH] using rev_ind; intros Hn; cbv zeta.
  { cbn. unfold is_u. repeat split; lia. }
  apply Forall_app in Hl as [Hl Hx]. apply Forall_cons in Hx as [Hx _]. rewrite length_app in *. cbn [length] in *.
  destruct (IH Hl ltac:(lia)) as (IH1 & IH2 & IH3 & IH4). clear IH. unfold receive_all in *. rewrite foldl_app. cbn [foldl].
  set (s := foldl _ _ l) in *. destruct (UpdateReceiverStats_fields seq ts at_ s) as (E1 & E2 & E3 & E4 & E5).
  pose proof (track_sequence_u16 seq s Hx IH3) as Hh. rewrite E1, E2, E4, E5. unfold is_u in *.
  destruct (Z.eq_dec (packetsRecv s) 0) as [E0|E0].
  - destruct l as [|x l]; [|cbn [length] in IH1; lia]. unfold s, track_sequence. cbn. unfold wrapu. cbn. unfold is_u in Hx. repeat split; lia.
  - destruct (track_sequence_loss seq s E0) as (L1 & L2 & L3); [unfold is_u; lia|done|done|]. rewrite L1, L2, L3, IH1.
    rewrite wrapu_id by (unfold is_u; lia). lia.
Qed.

(** ** Guarantees: receiver statistics *)

(** The cumulative loss a session reports cannot grow beyond the first
    65536 sequence numbers: whatever packets arrive, it is at most 65536 less
    the packets received, so from the 65536th packet on (22 minutes of audio at
    fifty packets a second) every report says that nothing was ever lost. *)
Theorem loss_report_bounded ssrc cname rate l now :
  Forall (fun '(seq, _, _) => is_u 16 seq) l -> Z.of_nat (length l) < 2 ^ 30 ->
  let s := receive_all l (NewRTCPSessionHandler ssrc cname rate) in
  TotalLost (buildReceptionReport now s) <= Z.max 0 (65536 - Z.of_nat (length l)) /\
  (65536 <= Z.of_nat (length l) -> TotalLost (buildReceptionReport now s) = 0 /\ FractionLost (buildReceptionReport now s) = 0).
Proof.
  intros Hl Hn s. destruct (receive_all_bounds ssrc cname rate l Hl Hn) as (_ & _ & _ & Hb). fold s in Hb.
  assert (TotalLost (buildReceptionReport now s) = packetsLost s) as E.
  { unfold buildReceptionReport. destruct (IsZero _); cbn; apply wrapu_id; unfold is_u; lia. }
  rewrite E. split; [lia|]. intros Hm. assert (packetsLost s = 0) as E0 by lia. split; [done|].
  unfold buildReceptionReport. rewrite E0. by destruct (IsZero _).
Qed.

Lemma loss_report_bounded_witness :
  TotalLost (buildReceptionReport 0 (receive_all [(10, 0, 1); (500, 160, 2); (501, 320, 3)] (NewRTCPSessionHandler 1 "c" 8000)))
  <= Z.max 0 (65536 - 3).
Proof.
  apply (loss_report_bounded 1 "c" 8000 [(10, 0, 1); (500, 160, 2); (501, 320, 3)] 0).
  - repeat constructor; unfold is_u; cbn; lia.
  - cbn. lia.
Defined.

(** *** Streams in order *)

(** A stream that starts at number [f] and whose packets advance by the given
    distances, below half the number space; [top] is its extended number. *)
Definition stream_seqs (x : Z) (ds : list (Z * Z * Z)) : Z := x + foldr (fun '(d, _, _) a => d + a) 0 ds.
Fixpoint receive_stream (x : Z) (ds : list (Z * Z * Z)) (s : RTCPSessionHandler) : RTCPSessionHandler :=
  match ds with
  | [] => s
  | (d, ts, at_) :: ds => receive_stream (x + d) ds (UpdateReceiverStats (u16 (x + d)) ts at_ s)
  end.

Record tracks (f x n : Z) (s : RTCPSessionHandler) : Prop := {
  tr_first : lastSeq s = f;
  tr_high : highestSeq s = x mod 65536;
  tr_cycles : seqCycles s = u32 (x / 65536);
  tr_recv : packetsRecv s = n;
  tr_lost : x < 65536 -> packetsLost s = x - f + 1 - n
}.

Lemma mod_step x d : 0 <= x -> 1 <= d <= 32767 ->
  (x mod 65536 + d < 65536 /\ (x + d) mod 65536 = x mod 65536 + d /\ (x + d) / 65536 = x / 65536) \/
  (65536 <= x mod 65536 + d /\ (x + d) mod 65536 = x mod 65536 + d - 65536 /\ (x + d) / 65536 = x / 65536 + 1).
Proof. intros Hx Hd. Z.to_euclidean_division_equations. lia. Qed.

Lemma tracks_step f x n d ts at_ s : is_u 16 f -> f <= x -> 1 <= d <= 32767 -> 1 <= n < 2 ^ 30 - 1 -> n <= x - f + 1 ->
  tracks f x n s -> tracks f (x + d) (n + 1) (UpdateReceiverStats (u16 (x + d)) ts at_ s).
Proof.
  intros Hf Hx Hd Hn Hxn [H1 H2 H3 H4 H5]. unfold is_u in Hf.
  destruct (UpdateReceiverStats_fields (u16 (x + d)) ts at_ s) as (E1 & E2 & E3 & E4 & E5).
  pose proof (Z.mod_pos_bound x 65536 ltac:(lia)) as Hm. pose proof (Z.mod_pos_bound (x + d) 65536 ltac:(lia)) as Hm'.
  assert (u16 (x + d) = (x + d) mod 65536) as Eu by done. rewrite Eu in *.
  assert (highestSeq (track_sequence ((x + d) mod 65536) s) = (x + d) mod 65536 /\
          seqCycles (track_sequence ((x + d) mod 65536) s) = u32 ((x + d) / 65536)) as [Hh Hc].
  { unfold track_sequence. rewrite H4, (proj2 (Z.eqb_neq n 0)) by lia. rewrite H2. cbv zeta.
    rewrite (wraps_id 32 ((x + d) mod 65536 - x mod 65536)) by (unfold is_s; lia).
    destruct (mod_step x d ltac:(lia) Hd) as [(Hs & -> & ->)|(Hs & -> & ->)].
    - destruct (Z.gtb_spec (x mod 65536 + d - x mod 65536) 0); [|lia]. cbn. done.
    - destruct (Z.gtb_spec (x mod 65536 + d - 65536 - x mod 65536) 0); [lia|].
      destruct (Z.ltb_spec (x mod 65536 + d - 65536 - x mod 65536) (-32768)); [|lia]. cbn. rewrite H3. split; [done|].
      unfold wrapu. by rewrite Z.add_mod_idemp_l. }
  destruct (track_sequence_loss ((x + d) mod 65536) s) as (L1 & L2 & L3); [lia|unfold is_u; lia|unfold is_u; lia|rewrite Hh; unfold is_u; lia|].
  split.
  - by rewrite E2, L2.
  - by rewrite E1.
  - by rewrite E3.
  - rewrite E4, L3, H4. apply wrapu_id. unfold is_u. lia.
  - intros Hlt. rewrite E5, L1, Hh, H1, H4, Z.mod_small by lia. lia.
Qed.

Lemma tracks_stream f ds : forall x n s, is_u 16 f -> f <= x -> Forall (fun '(d, _, _) => 1 <= d <= 32767) ds -> 1 <= n -> n + Z.of_nat (length ds) < 2 ^ 30 ->
  n <= x - f + 1 -> tracks f x n s ->
  tracks f (stream_seqs x ds) (n + Z.of_nat (length ds)) (receive_stream x ds s).
Proof.
  induction ds as [|[[d ts] at_] ds IH]; intros x n s Hf Hx Hds Hn Hl Hxn Ht.
  { unfold stream_seqs. cbn. by rewrite !Z.add_0_r. }
  apply Forall_cons in Hds as [Hd Hds]. cbn [receive_stream length] in *.
  replace (stream_seqs x ((d, ts, at_) :: ds)) with (stream_seqs (x + d) ds) by (unfold stream_seqs; cbn; lia).
  replace (n + Z.of_nat (S (length ds))) with (n + 1 + Z.of_nat (length ds)) by lia.
  apply IH; try done; try lia. apply tracks_step; try done; lia.
Qed.

Lemma tracks_first f ts at_ ssrc cname rate : is_u 16 f ->
  tracks f f 1 (UpdateReceiverStats f ts at_ (NewRTCPSessionHandler ssrc cname rate)).
Proof.
  intros Hf. unfold is_u in Hf. split; try done.
  - cbn. by rewrite Z.mod_small by lia.
  - cbn. rewrite Z.div_small by lia. done.
  - intros _. cbn. lia.
Qed.

(** For a stream in order, whatever its losses, the extended highest
    sequence number of every report is the true one (modulo its 32 bits), and as
    long as the 16-bit numbers have not wrapped the cumulative loss is exactly
    the number of packets missing from the stream. *)
Theorem in_order_stream_exact ssrc cname rate f ts0 at0 ds now :
  is_u 16 f -> Forall (fun '(d, _, _) => 1 <= d <= 32767) ds -> Z.of_nat (length ds) < 2 ^ 29 ->
  let s := receive_stream f ds (UpdateReceiverStats f ts0 at0 (NewRTCPSessionHandler ssrc cname rate)) in
  let top := stream_seqs f ds in
  LastSequenceNumber (buildReceptionReport now s) = u32 top /\
  (top < 65536 -> TotalLost (buildReceptionReport now s) = top - f - Z.of_nat (length ds)).
Proof.
  intros Hf Hds Hl s top.
  assert (tracks f top (1 + Z.of_nat (length ds)) s) as [H1 H2 H3 H4 H5].
  { apply tracks_stream; try done; try lia. by apply tracks_first. }
  assert (f + Z.of_nat (length ds) <= top).
  { unfold top, stream_seqs. clear - Hds. induction Hds as [|[[d ts] at_] ds Hd _ IH]; [cbn; lia|]. cbn [foldr length]. lia. }
  unfold buildReceptionReport. destruct (IsZero _); cbn [LastSequenceNumber TotalLost]; (split; [rewrite H2, H3|intros Ht; rewrite H5 by done; unfold is_u in Hf; rewrite wrapu_id by (unfold is_u; lia); lia]).
  all: unfold wrapu; rewrite Z.mul_mod_idemp_l, <- (Z.add_mod_idemp_r _ (_ mod _)), Z.mod_mod, Z.add_mod_idemp_r by done; f_equal;
    pose proof (Z.div_mod top 65536 ltac:(lia)); lia.
Qed.

Lemma in_order_stream_exact_witness :
  let ds := [(1, 160, 20); (3, 320, 40); (30000, 480, 60)] in
  let s := receive_stream 65000 ds (UpdateReceiverStats 65000 0 0 (NewRTCPSessionHandler 1 "c" 8000)) in
  LastSequenceNumber (buildReceptionReport 0 s) = u32 (stream_seqs 65000 ds).
Proof.
  apply (in_order_stream_exact 1 "c" 8000 65000 0 0 [(1, 160, 20); (3, 320, 40); (30000, 480, 60)] 0).
  - unfold is_u. lia.
  - repeat constructor; lia.
  - cbn. lia.
Defined.

(** One packet out of order after the numbers wrapped adds a whole cycle.
    When a stream has passed number 65535 and a packet from before the wrap
    arrives late, the next packet in order is taken for another wrap: from then
    on the extended sequence number is 65536 too high. *)
Theorem late_packet_adds_cycle ssrc cname rate f ts0 at0 ds ts1 at1 ts2 at2 q now :
  is_u 16 f -> Forall (fun '(d, _, _) => 1 <= d <= 32767) ds -> Z.of_nat (length ds) < 2 ^ 29 ->
  let s := receive_stream f ds (UpdateReceiverStats f ts0 at0 (NewRTCPSessionHandler ssrc cname rate)) in
  let top := stream_seqs f ds in
  65536 <= top -> top mod 65536 + 32769 < q < 65536 ->
  LastSequenceNumber (buildReceptionReport now (UpdateReceiverStats (u16 (top + 1)) ts2 at2 (UpdateReceiverStats q ts1 at1 s)))
  = u32 (top + 1 + 65536).
Proof.
  intros Hf Hds Hl s top Ht Hq.
  assert (tracks f top (1 + Z.of_nat (length ds)) s) as [H1 H2 H3 H4 _].
  { apply tracks_stream; try done; try lia. by apply tracks_first. }
  pose proof (Z.mod_pos_bound top 65536 ltac:(lia)) as Hm.
  destruct (UpdateReceiverStats_fields q ts1 at1 s) as (E1 & E2 & E3 & E4 & _).
  set (s1 := UpdateReceiverStats q ts1 at1 s) in *. destruct (UpdateReceiverStats_fields (u16 (top + 1)) ts2 at2 s1) as (F1 & F2 & F3 & _ & _).
  set (s2 := UpdateReceiverStats (u16 (top + 1)) ts2 at2 s1) in *.
  assert (highestSeq s1 = q /\ seqCycles s1 = seqCycles s /\ packetsRecv s1 = u32 (packetsRecv s + 1)) as (G1 & G2 & G3).
  { rewrite E1, E3, E4. unfold track_sequence. rewrite H4, (proj2 (Z.eqb_neq _ 0)) by lia. rewrite H2. cbv zeta. rewrite (wraps_id 32 (q - top mod 65536)) by (unfold is_s; lia).
    destruct (Z.gtb_spec (q - top mod 65536) 0); [|lia]. cbn. by rewrite H4. }
  assert (u16 (top + 1) = top mod 65536 + 1) as Eu.
  { change (u16 (top + 1)) with ((top + 1) mod 65536). destruct (mod_step top 1 ltac:(lia) ltac:(lia)) as [(_ & -> & _)|(? & _)]; lia. }
  assert (highestSeq s2 = top mod 65536 + 1 /\ seqCycles s2 = u32 (top / 65536 + 1)) as [K1 K2].
  { rewrite F1, F3, Eu. unfold track_sequence. rewrite G3, H4, (wrapu_id 32) by (unfold is_u; lia).
    rewrite (proj2 (Z.eqb_neq _ 0)) by lia. rewrite G1. cbv zeta. rewrite (wraps_id 32 (top mod 65536 + 1 - q)) by (unfold is_s; lia).
    destruct (Z.gtb_spec (top mod 65536 + 1 - q) 0); [lia|]. destruct (Z.ltb_spec (top mod 65536 + 1 - q) (-32768)); [|lia].
    cbn. rewrite G2, H3. split; [done|]. unfold wrapu. by rewrite Z.add_mod_idemp_l. }
  unfold buildReceptionReport. destruct (IsZero _); cbn [LastSequenceNumber]; rewrite K1, K2.
  all: unfold wrapu; rewrite Z.mul_mod_idemp_l, Z.add_mod_idemp_r by done; f_equal; pose proof (Z.div_mod top 65536 ltac:(lia)); lia.
Qed.

Lemma late_packet_adds_cycle_witness :
  let s := receive_stream 65534 [(1, 0, 0); (1, 0, 0); (1, 0, 0)] (UpdateReceiverStats 65534 0 0 (NewRTCPSessionHandler 1 "c" 8000)) in
  LastSequenceNumber (buildReceptionReport 0 (UpdateReceiverStats (u16 (65537 + 1)) 0 0 (UpdateReceiverStats 65535 0 0 s))) = 131074.
Proof.
  apply (late_packet_adds_cycle 1 "c" 8000 65534 0 0 [(1, 0, 0); (1, 0, 0); (1, 0, 0)] 0 0 0 0 65535 0).
  - unfold is_u. lia.
  - repeat constructor; lia.
  - cbn. lia.
  - vm_compute. discriminate.
  - vm_compute. split; reflexivity.
Defined.

(** ** Guarantees: time *)

Lemma land_low32 x : Z.land x 0xFFFFFFFF = x mod 2 ^ 32.
Proof. change 0xFFFFFFFF with (Z.ones 32). apply Z.land_ones. lia. Qed.

(** Parts of the NTP word. *)
Lemma ntp_parts secs frac : 0 <= secs -> 0 <= frac < 2 ^ 32 ->
  let ntp := Z.lor (u64 (Z.shiftl secs 32)) frac in
  Z.shiftr ntp 32 = secs mod 2 ^ 32 /\ Z.land ntp 0xFFFFFFFF = frac.
Proof.
  intros Hs Hf ntp. assert (u64 (Z.shiftl secs 32) = (secs mod 2 ^ 32) * 2 ^ 32) as E.
  { rewrite Z.shiftl_mul_pow2 by lia. unfold wrapu. change (2 ^ 64) with (2 ^ 32 * 2 ^ 32). by rewrite Z.mul_mod_distr_r. }
  assert (ntp = secs mod 2 ^ 32 * 2 ^ 32 + frac) as ->.
  { unfold ntp. rewrite E. rewrite <- Z.lxor_lor, <- Z.add_nocarry_lxor; try done.
    all: apply Z.bits_inj'; intros n Hn; rewrite Z.land_spec, Z.bits_0, <- Z.shiftl_mul_pow2, Z.shiftl_spec by lia.
    all: destruct (Z.ltb_spec n 32); [by rewrite Z.testbit_neg_r by lia|]; rewrite (testbit_above 32 frac n) by (done || lia); apply andb_false_r. }
  pose proof (Z.mod_pos_bound secs (2 ^ 32) ltac:(lia)). split.
  - rewrite Z.shiftr_div_pow2 by lia. rewrite Z.div_add_l by lia. rewrite (Z.div_small frac) by lia. lia.
  - rewrite land_low32. rewrite Z.add_comm, Z.mod_add by lia. by apply Z.mod_small.
Qed.

(** Nanoseconds from a 32-bit fraction: the floating point computation is exact. *)
Lemma frac_nanoseconds frac : 0 <= frac < 2 ^ 32 ->
  to_int64 (fmul (fdiv (of_int frac) (of_int (2 ^ 32))) (of_int 1000000000)) = frac * 1000000000 / 2 ^ 32.
Proof.
  intros Hf. destruct (Z.eq_dec frac 0) as [->|]; [vm_compute; reflexivity|].
  rewrite fdiv_pow2 by lia. change 1000000000 with (1953125 * 2 ^ 9) at 1. rewrite fmul_dyadic by lia.
  rewrite to_int64_dyadic by lia. change (32 - 9) with 23. change (2 ^ 32) with (2 ^ 23 * 2 ^ 9). change 1000000000 with (1953125 * 2 ^ 9).
  rewrite Z.mul_assoc, Z.div_mul_cancel_r by done. done.
Qed.

(** Converting a time to NTP and back gives the same time, or the
    nanosecond before it when its nanoseconds are not a whole number of NTP
    units, for every time of the NTP era from 1900 to 2036. *)
Theorem ntp_roundtrip t : 0 <= Unix t + ntpEpochOffset < 2 ^ 32 ->
  FromNTPTime (toNTPTime t) = if (time_Nanosecond t * 2 ^ 32) mod 1000000000 =? 0 then t else t - 1.
Proof.
  intros Ht. unfold toNTPTime.
  assert (u64 (u64 (Unix t) + ntpEpochOffset) = Unix t + ntpEpochOffset) as ->.
  { unfold wrapu at 1. unfold wrapu. rewrite Z.add_mod_idemp_l by done. apply Z.mod_small. lia. }
  unfold time_Nanosecond. pose proof (Z.mod_pos_bound t Second ltac:(done)) as Hns. set (ns := t mod Second) in *.
  change Second with 1000000000 in Hns. rewrite (wrapu_id 64 (ns * 2 ^ 32)) by (unfold is_u; lia).
  set (frac := ns * 2 ^ 32 / 1000000000). assert (0 <= frac < 2 ^ 32) as Hf.
  { unfold frac. split; [apply Z.div_pos; lia|apply Z.div_lt_upper_bound; lia]. }
  unfold FromNTPTime. destruct (ntp_parts (Unix t + ntpEpochOffset) frac ltac:(lia) Hf) as [-> ->].
  rewrite (Z.mod_small (Unix t + ntpEpochOffset)) by lia. rewrite frac_nanoseconds by done.
  replace (Unix t + ntpEpochOffset - ntpEpochOffset) with (Unix t) by lia.
  assert (i64 (u64 (Unix t)) = Unix t) as ->.
  { unfold ntpEpochOffset in Ht. transitivity (i64 (Unix t)); [|apply wraps_id; [lia|unfold is_s; lia]].
    apply wraps_congr; [lia|]. unfold wrapu. rewrite Zminus_mod_idemp_l, Z.sub_diag. done. }
  assert (t = unixEpoch + Unix t * Second + ns) as Et.
  { unfold Unix, ns. assert (t mod Second = (t - unixEpoch) mod Second) as ->.
    { unfold unixEpoch. rewrite <- (Z.mod_add (t - 62135596800 * Second) 62135596800 Second) by done. f_equal. lia. }
    pose proof (Z.div_mod (t - unixEpoch) Second ltac:(done)). lia. }
  pose proof (Z.div_mod (ns * 2 ^ 32) 1000000000 ltac:(lia)) as Hd. fold frac in Hd.
  pose proof (Z.mod_pos_bound (ns * 2 ^ 32) 1000000000 ltac:(lia)) as Hr. set (r := (ns * 2 ^ 32) mod 1000000000) in *.
  replace (frac * 1000000000) with (ns * 2 ^ 32 - r) by lia. destruct (Z.eqb_spec r 0) as [->|].
  - rewrite Z.sub_0_r, Z.div_mul by lia. lia.
  - replace (ns * 2 ^ 32 - r) with ((2 ^ 32 - r) + (ns - 1) * 2 ^ 32) by lia. rewrite Z.div_add, Z.div_small by lia. lia.
Qed.

Lemma ntp_roundtrip_witness :
  let t := unixEpoch + 1700000000 * Second + 123456789 in
  FromNTPTime (toNTPTime t) = if (time_Nanosecond t * 2 ^ 32) mod 1000000000 =? 0 then t else t - 1.
Proof.
  intros t. apply (ntp_roundtrip t). split; [|vm_compute; reflexivity]. vm_compute. discriminate.
Defined.

(** The RTP timestamp of a sender report is computed from a tick of whole
    nanoseconds: it divides by zero for a clock rate of zero and for one above
    10^9, and then every sender report of the session panics; for every other
    rate it is the wall clock in units of [10^9 / rate] nanoseconds rounded
    down. *)
Theorem calculateRTPTimestamp_panics now s : conn s = true -> 0 < packetsSent s -> 0 <= clockRate s ->
  ((SendReport now s).1 = Panic <-> clockRate s = 0 \/ 1000000000 < clockRate s) /\
  (1 <= clockRate s <= 1000000000 ->
   calculateRTPTimestamp now s = Ok (u32 (Z.quot (UnixNano now) (1000000000 / clockRate s)))).
Proof.
  intros Hc Hp Hr. unfold SendReport, buildSenderReport. rewrite Hc. cbn [negb]. rewrite (proj2 (Z.gtb_lt _ _)) by done. cbn [fst].
  change (calculateRTPTimestamp now (s <| lastSRNTP := _ |> <| lastSRTime := _ |>)) with (calculateRTPTimestamp now s).
  assert (Hq : 1 <= clockRate s -> Z.quot Second (clockRate s) = 1000000000 / clockRate s) by (intros; by rewrite Z.quot_div_nonneg by (done || lia)).
  unfold calculateRTPTimestamp. destruct (Z.eqb_spec (clockRate s) 0) as [E|E]; [split; [cbn; split; auto|lia]|].
  rewrite Hq by lia. destruct (Z.eqb_spec (1000000000 / clockRate s) 0) as [E0|E0].
  - apply Z.div_small_iff in E0; [|lia]. split; [cbn; split; [lia|done]|lia].
  - split; [|done]. cbn. split; [done|]. intros [?|?]; [lia|]. rewrite Z.div_small in E0 by lia. lia.
Qed.

Lemma calculateRTPTimestamp_panics_witness :
  (SendReport 0 (UpdateSenderStats 1 100 (SetConnection true (NewRTCPSessionHandler 1 "c" 0)))).1 = Panic.
Proof.
  apply (calculateRTPTimestamp_panics 0 (UpdateSenderStats 1 100 (SetConnection true (NewRTCPSessionHandler 1 "c" 0)))).
  - reflexivity.
  - reflexivity.
  - cbn. lia.
  - left. reflexivity.
Defined.

(** ** Guarantees: reports between peers *)

Lemma foreign_reports now reports s : Forall (fun r => SSRC r <> ssrc s) reports ->
  foldl (fun s r => updateFromReceptionReport now r s) s reports = s.
Proof.
  induction 1 as [|r reports Hr _ IH]; [done|]. cbn [foldl]. unfold updateFromReceptionReport at 2.
  by rewrite (proj2 (Z.eqb_neq _ _) Hr).
Qed.

(** Two Karl sessions never learn anything from each other's reports. A
    report block names the SSRC of the session that sends it instead of the
    stream it describes, and the receiver only looks at blocks that name its
    own: whatever a session sends, a peer with another SSRC keeps its loss
    fraction and its round-trip time. *)
Theorem peer_reports_ignored now now' a b ps :
  (SendReport now a).1 = Ok ps -> ssrc a <> ssrc b ->
  let b' := foldl (process_packet now') b ps in
  fractionLost b' = fractionLost b /\ rtt b' = rtt b.
Proof.
  intros Hs Hne. assert (forall now s, ssrc s = ssrc a -> Forall (fun r => SSRC r <> ssrc b) (reception_reports now s)) as Hr.
  { intros n s Es. unfold reception_reports. destruct (_ >? _); [|constructor]. repeat constructor.
    unfold buildReceptionReport. destruct (IsZero _); cbn; congruence. }
  unfold SendReport in Hs. destruct (negb (conn a)); [by injection Hs as <-|].
  destruct (packetsSent a >? 0).
  - unfold buildSenderReport in Hs. cbn [fst] in Hs. destruct (calculateRTPTimestamp _ _) as [rtp| | |]; [|done..]. injection Hs as <-.
    cbn [foldl process_packet]. unfold processSenderReport. rewrite foreign_reports; [done|]. cbn [ssrc set_field set_lastSRRecvNTP set_lastSRRecvTime].
    by apply Hr.
  - injection Hs as <-. unfold buildReceiverReport. cbn [foldl process_packet]. unfold processReceiverReport. rewrite foreign_reports; [done|]. by apply Hr.
Qed.

Lemma peer_reports_ignored_witness :
  let a := receive_all [(1, 0, 1); (9, 160, 2)] (SetConnection true (NewRTCPSessionHandler 1 "a" 8000)) in
  exists ps, (SendReport 5 a).1 = Ok ps /\ length ps = 2%nat /\
  fractionLost (foldl (process_packet 6) (NewRTCPSessionHandler 2 "b" 8000) ps) = 0.
Proof.
  intros a. eexists. split; [reflexivity|]. split; [reflexivity|].
  refine (proj1 (peer_reports_ignored 5 6 a (NewRTCPSessionHandler 2 "b" 8000) _ _ _)); [reflexivity|discriminate].
Defined.

(** ** Guarantees: the handler *)

(** A handler cannot be used twice. After it was started and stopped it
    starts again, but the new report loop finds the stop channel closed and
    ends at once, and the next [Stop] panics by closing it again. *)
Theorem restart_panics cfg h : Start (NewRTCPHandler cfg) = h -> running h = true ->
  exists h1, Stop h = Ok h1 /\ running (Start h1) = true /\ stopped (Start h1) = true /\ Stop (Start h1) = Panic.
Proof.
  intros <- Hr. unfold Start in *. cbn in *. destruct (Enabled _) eqn:E; [|done]. eexists. split; [reflexivity|].
  cbn. rewrite E. done.
Qed.

Lemma restart_panics_witness : exists h1, Stop (Start (NewRTCPHandler None)) = Ok h1 /\ Stop (Start h1) = Panic.
Proof.
  destruct (restart_panics None _ eq_refl eq_refl) as (h1 & H1 & _ & _ & H2). exists h1. split; [exact H1|exact H2].
Defined.

(** Reports are spaced by at least the minimum of the configured mode. *)
Lemma calculateInterval_min rnd h : sessions h <> ∅ ->
  (if ReducedSize (h_config h) then 360 * Millisecond else 5 * Second) <= calculateInterval rnd h.
Proof.
  intros Hs. unfold calculateInterval. assert (size (sessions h) <> 0%nat) by (by intros ?%map_size_empty_iff).
  destruct (Nat.ltb_spec 0 (size (sessions h))); [|lia]. destruct (Z.ltb_spec (to_int64 (fmul (of_int (Interval (h_config h))) (fadd (lit 1 2) rnd)))
    (if ReducedSize (h_config h) then 360 * Millisecond else 5 * Second)); lia.
Qed.
