(* ===== verification/Authorization.v ===== *)
(** * Authorisation

    Models src/internal/authorization.go and the parts of authentication.go it
    uses: roles with inheritance and the cache of resolved permissions, policies
    with their rules, conditions and resource patterns, and the decision
    procedures. [AuthenticatedUser] values come from the authentication code. A
    role's conditions are functions of the request. An [interface{}] value is a
    [value]; comparing two of an uncomparable type panics. The audit entries
    given to the logger are kept in a list. *)

From Stdlib Require Import ZArith Lia Ascii String Sorting.Sorted Permutation.
From stdpp Require Import base numbers list gmap strings sorting relations.
From S2P Require Import Prelude.

Local Open Scope Z_scope.
Local Open Scope string_scope.
Local Open Scope list_scope.
Local Open Scope go_scope.

Inductive authz_error := ErrAccessDenied | ErrRoleNotFound | ErrPolicyViolation.

(** ** Users *)

Definition Permission : Type := string.
Definition PermissionRead : Permission := "read".
Definition PermissionWrite : Permission := "write".
Definition PermissionAdmin : Permission := "admin".
Definition PermissionRecording : Permission := "recording".
Definition PermissionStatistics : Permission := "statistics".
Definition PermissionConfig : Permission := "config".

Record AuthenticatedUser := mkUser { u_ID : string; u_Name : string; u_Permissions : list Permission; ExpiresAt : Z }.

Definition HasPermission (perm : Permission) (u : AuthenticatedUser) : bool :=
  existsb (fun p => String.eqb p PermissionAdmin || String.eqb p perm) (u_Permissions u).

Definition IsExpired (now : Z) (u : AuthenticatedUser) : bool :=
  if IsZero (ExpiresAt u) then false else After now (ExpiresAt u).

(** ** Actions, resources and requests *)

Definition Action : Type := string.
Definition ActionCreate : Action := "create".
Definition ActionRead : Action := "read".
Definition ActionUpdate : Action := "update".
Definition ActionDelete : Action := "delete".
Definition ActionExecute : Action := "execute".
Definition ActionManage : Action := "manage".

Definition AuthzResource : Type := string.
Definition ResourceSession : AuthzResource := "session".
Definition ResourceRecording : AuthzResource := "recording".
Definition ResourceStatistics : AuthzResource := "statistics".
Definition ResourceConfig : AuthzResource := "config".
Definition ResourceUser : AuthzResource := "user".
Definition ResourceAPIKey : AuthzResource := "apikey".
Definition ResourceAuditLog : AuthzResource := "auditlog".
Definition ResourceHealth : AuthzResource := "health".
Definition ResourceMetrics : AuthzResource := "metrics".
Definition ResourceCall : AuthzResource := "call".
Definition ResourceMedia : AuthzResource := "media".

(** The [interface{}] values of metadata and conditions. *)
#[local] Set Warnings "-register-all".
Inductive value :=
| VInt (z : Z)
| VString (s : string)
| VBool (b : bool)
| VStrings (l : list string)
| VMap (m : list (string * value)).

Record AuthzContext := mkContext {
  User : option AuthenticatedUser;
  Resource : AuthzResource;
  ResourceID : string;
  ctx_Action : Action;
  Metadata : option (list (string * value)) }.

(** ** Roles *)

Record RolePermission := mkPermission {
  p_Resource : AuthzResource;
  p_Actions : list Action;
  p_Conditions : list (AuthzContext -> bool) }.

Record Role := mkRole {
  r_ID : string;
  r_Name : string;
  r_Permissions : list RolePermission;
  Inherits : list string;
  CreatedAt : Z;
  UpdatedAt : Z }.

(** ** Policies *)

Inductive PolicyDecision := PolicyNotApplicable | PolicyAllow | PolicyDeny.

Record PolicyCondition := mkCondition { c_Type : string; c_Key : string; c_Value : value }.

(** [compiled] says that [Compile] set the regular expression. *)
Record ResourceSpec := mkSpec { Pattern : string; compiled : bool }.

Record PolicyRule := mkRule {
  Effect : PolicyDecision;
  Resources : list AuthzResource;
  r_Actions : list Action;
  Principals : list string;
  r_Conditions : list PolicyCondition;
  r_Spec : option ResourceSpec }.

Record Policy := mkPolicy {
  pol_ID : string;
  Priority : Z;
  Rules : list PolicyRule;
  Enabled : bool }.

Record AuthzAuditEntry := mkEntry {
  e_Timestamp : Z; e_UserID : string; e_UserName : string; e_Resource : AuthzResource; e_ResourceID : string;
  e_Action : Action; e_Allowed : bool; e_Reason : string }.

Record Authorizer := mkAuthorizer {
  roles : gmap string Role;
  policies : list Policy;
  inheritanceCache : gmap string (list RolePermission);
  hasLogger : bool;
  audit : list AuthzAuditEntry }.
#[export] Instance set_roles : Setter roles := fun f r =>
  mkAuthorizer (f (roles r)) (policies r) (inheritanceCache r) (hasLogger r) (audit r).
#[export] Instance set_policies : Setter policies := fun f r =>
  mkAuthorizer (roles r) (f (policies r)) (inheritanceCache r) (hasLogger r) (audit r).
#[export] Instance set_inheritanceCache : Setter inheritanceCache := fun f r =>
  mkAuthorizer (roles r) (policies r) (f (inheritanceCache r)) (hasLogger r) (audit r).
#[export] Instance set_hasLogger : Setter hasLogger := fun f r =>
  mkAuthorizer (roles r) (policies r) (inheritanceCache r) (f (hasLogger r)) (audit r).
#[export] Instance set_audit : Setter audit := fun f r =>
  mkAuthorizer (roles r) (policies r) (inheritanceCache r) (hasLogger r) (f (audit r)).

(** *** Roles of an authorizer *)

Definition AddRole (now : Z) (role : Role) (a : Authorizer) : Authorizer :=
  let role := mkRole (r_ID role) (r_Name role) (r_Permissions role) (Inherits role)
                (if IsZero (CreatedAt role) then now else CreatedAt role) now in
  a <| roles ::= <[r_ID role := role]> |> <| inheritanceCache ::= delete (r_ID role) |>.

Definition GetRole (id : string) (a : Authorizer) : outcome authz_error Role :=
  match roles a !! id with Some role => Ok role | None => Err ErrRoleNotFound end.

Definition RemoveRole (id : string) (a : Authorizer) : Authorizer :=
  a <| roles ::= delete id |> <| inheritanceCache ::= delete id |>.

Definition grant (r : AuthzResource) (l : list Action) : RolePermission := mkPermission r l [].
Definition full_access : list Action := [ActionCreate; ActionRead; ActionUpdate; ActionDelete; ActionManage].

Definition adminRole : Role := mkRole "admin" "Administrator"
  [grant ResourceSession full_access; grant ResourceRecording full_access; grant ResourceStatistics [ActionRead];
   grant ResourceConfig [ActionRead; ActionUpdate];
   grant ResourceUser [ActionCreate; ActionRead; ActionUpdate; ActionDelete];
   grant ResourceAPIKey [ActionCreate; ActionRead; ActionUpdate; ActionDelete];
   grant ResourceAuditLog [ActionRead]; grant ResourceHealth [ActionRead]; grant ResourceMetrics [ActionRead];
   grant ResourceCall full_access; grant ResourceMedia full_access] [] 0 0.

Definition operatorRole : Role := mkRole "operator" "Operator"
  [grant ResourceSession [ActionCreate; ActionRead; ActionUpdate; ActionDelete];
   grant ResourceRecording [ActionCreate; ActionRead]; grant ResourceStatistics [ActionRead];
   grant ResourceHealth [ActionRead]; grant ResourceMetrics [ActionRead];
   grant ResourceCall [ActionCreate; ActionRead; ActionUpdate; ActionDelete];
   grant ResourceMedia [ActionCreate; ActionRead; ActionUpdate]] [] 0 0.

Definition monitorRole : Role := mkRole "monitor" "Monitor"
  [grant ResourceSession [ActionRead]; grant ResourceRecording [ActionRead]; grant ResourceStatistics [ActionRead];
   grant ResourceHealth [ActionRead]; grant ResourceMetrics [ActionRead]; grant ResourceCall [ActionRead]] [] 0 0.

Definition recordingManagerRole : Role := mkRole "recording_manager" "Recording Manager"
  [grant ResourceRecording [ActionCreate; ActionRead; ActionUpdate; ActionDelete]] ["monitor"] 0 0.

Definition addDefaultRoles (now : Z) (a : Authorizer) : Authorizer :=
  AddRole now recordingManagerRole (AddRole now monitorRole (AddRole now operatorRole (AddRole now adminRole a))).

Definition NewAuthorizer (now : Z) : Authorizer := addDefaultRoles now (mkAuthorizer ∅ [] ∅ false []).

(** The loop over [role.Inherits], with the ids already seen in this call; it
    calls [resolve] for each new one. *)
Fixpoint inherit_loop (resolve : string -> Authorizer -> outcome authz_error (list RolePermission) * Authorizer)
    (ids seen : list string) (acc : list RolePermission) (a : Authorizer) : outcome authz_error (list RolePermission) * Authorizer :=
  match ids with
  | [] => (Ok acc, a)
  | id :: ids =>
      if bool_decide (id ∈ seen) then inherit_loop resolve ids seen acc a
      else match resolve id a with
           | (Ok ps, a) => inherit_loop resolve ids (id :: seen) (acc ++ ps) a
           | (r, a) => (r, a)
           end
  end.

(** The recursion has no bound of its own: [fuel] stands for the stack. *)
Fixpoint resolvePermissions (fuel : nat) (roleID : string) (a : Authorizer) : outcome authz_error (list RolePermission) * Authorizer :=
  match fuel with
  | O => (OutOfFuel, a)
  | S fuel =>
      match inheritanceCache a !! roleID with
      | Some cached => (Ok cached, a)
      | None =>
          match roles a !! roleID with
          | None => (Ok [], a)
          | Some role =>
              match inherit_loop (resolvePermissions fuel) (Inherits role) [roleID] [] a with
              | (Ok inherited, a) =>
                  let permissions := inherited ++ r_Permissions role in
                  (Ok permissions, a <| inheritanceCache ::= <[roleID := permissions]> |>)
              | (r, a) => (r, a)
              end
          end
      end
  end.

(** *** Conditions and rules *)

Fixpoint assoc (k : string) (m : list (string * value)) : option value :=
  match m with
  | [] => None
  | (k', v) :: m => if String.eqb k k' then Some v else assoc k m
  end.

(** [val == cond.Value] on interfaces. *)
Definition iface_eq (v w : value) : outcome authz_error bool :=
  match v, w with
  | VInt x, VInt y => Ok (x =? y)%Z
  | VString x, VString y => Ok (String.eqb x y)
  | VBool x, VBool y => Ok (Bool.eqb x y)
  | VStrings _, VStrings _ | VMap _, VMap _ => Panic
  | _, _ => Ok false
  end.

Definition in_hours (hour : Z) (v : value) : bool :=
  match v with
  | VMap m =>
      match assoc "start_hour" m with Some (VInt h) => negb (hour <? h)%Z | _ => true end &&
      match assoc "end_hour" m with Some (VInt h) => negb (h <=? hour)%Z | _ => true end
  | _ => true
  end.

Definition evaluatePolicyCondition (hour : Z) (cond : PolicyCondition) (ctx : AuthzContext) : outcome authz_error bool :=
  if String.eqb (c_Type cond) "time_range" then Ok (in_hours hour (c_Value cond))
  else if String.eqb (c_Type cond) "ip_range" then
    Ok match Metadata ctx with
       | Some md =>
           match assoc "client_ip" md, c_Value cond with
           | Some (VString clientIP), VStrings allowed => existsb (String.eqb clientIP) allowed
           | _, _ => true
           end
       | None => true
       end
  else if String.eqb (c_Type cond) "metadata" then
    match Metadata ctx with
    | None => Ok false
    | Some md => match assoc (c_Key cond) md with Some v => iface_eq v (c_Value cond) | None => Ok false end
    end
  else Ok true.

(** The regular expression of a pattern: every [*] stands for a run of
    characters other than newline, everything else for itself. *)
Definition newline : ascii := ascii_of_nat 10.
Fixpoint glob (p s : string) : bool :=
  match p with
  | EmptyString => match s with EmptyString => true | _ => false end
  | String c p' =>
      if Ascii.eqb c "*"%char then
        (fix skip (s : string) : bool :=
           glob p' s || match s with
                        | EmptyString => false
                        | String d s' => negb (Ascii.eqb d newline) && skip s'
                        end) s
      else match s with
           | EmptyString => false
           | String d s' => Ascii.eqb c d && glob p' s'
           end
  end.

Definition Compile (rs : ResourceSpec) : ResourceSpec :=
  if String.eqb (Pattern rs) "" then rs else mkSpec (Pattern rs) true.

Definition spec_Matches (resourceID : string) (rs : ResourceSpec) : bool :=
  if negb (compiled rs) then true else glob (Pattern rs) resourceID.

Fixpoint all_conditions (hour : Z) (conds : list PolicyCondition) (ctx : AuthzContext) : outcome authz_error bool :=
  match conds with
  | [] => Ok true
  | c :: conds => let! ok := evaluatePolicyCondition hour c ctx in if ok then all_conditions hour conds ctx else Ok false
  end.

Definition principal_matches (u : AuthenticatedUser) (principal : string) : bool :=
  String.eqb principal (u_ID u) || String.eqb principal "*" || existsb (String.eqb principal) (u_Permissions u).

(** The user of the request is not nil. *)
Definition rule_Matches (hour : Z) (r : PolicyRule) (u : AuthenticatedUser) (ctx : AuthzContext) : outcome authz_error bool :=
  let resourceMatches := existsb (fun res => String.eqb res (Resource ctx)) (Resources r) in
  if negb resourceMatches && (0 <? length (Resources r))%nat then Ok false
  else
    let actionMatches := existsb (fun act => String.eqb act (ctx_Action ctx)) (r_Actions r) in
    if negb actionMatches && (0 <? length (r_Actions r))%nat then Ok false
    else if (0 <? length (Principals r))%nat && negb (existsb (principal_matches u) (Principals r)) then Ok false
    else if match r_Spec r with Some rs => negb (spec_Matches (ResourceID ctx) rs) | None => false end then Ok false
    else all_conditions hour (r_Conditions r) ctx.

Fixpoint first_rule (hour : Z) (rules : list PolicyRule) (u : AuthenticatedUser) (ctx : AuthzContext) : outcome authz_error PolicyDecision :=
  match rules with
  | [] => Ok PolicyNotApplicable
  | r :: rules => let! m := rule_Matches hour r u ctx in if m then Ok (Effect r) else first_rule hour rules u ctx
  end.

Definition Evaluate (hour : Z) (p : Policy) (u : AuthenticatedUser) (ctx : AuthzContext) : outcome authz_error PolicyDecision :=
  if negb (Enabled p) then Ok PolicyNotApplicable else first_rule hour (Rules p) u ctx.

(** *** Decisions *)

Definition logAudit (now : Z) (u : AuthenticatedUser) (ctx : AuthzContext) (allowed : bool) (reason : string) (a : Authorizer) : Authorizer :=
  if negb (hasLogger a) then a
  else a <| audit ::= fun l => l ++ [mkEntry now (u_ID u) (u_Name u) (Resource ctx) (ResourceID ctx) (ctx_Action ctx) allowed reason] |>.

Definition SetAuditLogger (a : Authorizer) : Authorizer := a <| hasLogger := true |>.

Definition containsAction (actions : list Action) (action : Action) : bool :=
  existsb (fun a => String.eqb a action || String.eqb a ActionManage) actions.

(** A permission that covers the request, its conditions included. *)
Definition covers (ctx : AuthzContext) (p : RolePermission) : bool :=
  String.eqb (p_Resource p) (Resource ctx) && containsAction (p_Actions p) (ctx_Action ctx) && forallb (fun c => c ctx) (p_Conditions p).

(** The first policy that decides. *)
Fixpoint check_policies (hour : Z) (ps : list Policy) (u : AuthenticatedUser) (ctx : AuthzContext) : outcome authz_error PolicyDecision :=
  match ps with
  | [] => Ok PolicyNotApplicable
  | p :: ps =>
      let! d := Evaluate hour p u ctx in
      match d with PolicyNotApplicable => check_policies hour ps u ctx | _ => Ok d end
  end.

(** The roles of the user, in order, until one covers the request. *)
Fixpoint check_roles (fuel : nat) (perms : list Permission) (ctx : AuthzContext) (a : Authorizer) : outcome authz_error bool * Authorizer :=
  match perms with
  | [] => (Ok false, a)
  | roleID :: perms =>
      match resolvePermissions fuel roleID a with
      | (Ok ps, a) => if existsb (covers ctx) ps then (Ok true, a) else check_roles fuel perms ctx a
      | (Panic, a) => (Panic, a)
      | (_, a) => (OutOfFuel, a)
      end
  end.

Definition Authorize (fuel : nat) (now hour : Z) (ctx : AuthzContext) (a : Authorizer) : outcome authz_error unit * Authorizer :=
  match User ctx with
  | None => (Err ErrAccessDenied, a)
  | Some u =>
      match check_policies hour (policies a) u ctx with
      | Ok PolicyDeny => (Err ErrPolicyViolation, logAudit now u ctx false "policy_deny" a)
      | Ok PolicyAllow => (Ok tt, logAudit now u ctx true "policy_allow" a)
      | Ok PolicyNotApplicable =>
          match check_roles fuel (u_Permissions u) ctx a with
          | (Ok true, a) => (Ok tt, logAudit now u ctx true "role_permission" a)
          | (Ok false, a) =>
              if HasPermission PermissionAdmin u then (Ok tt, logAudit now u ctx true "admin_override" a)
              else (Err ErrAccessDenied, logAudit now u ctx false "no_permission" a)
          | (Panic, a) => (Panic, a)
          | (_, a) => (OutOfFuel, a)
          end
      | Err e => (Err e, a)
      | Panic => (Panic, a)
      | OutOfFuel => (OutOfFuel, a)
      end
  end.

Definition AuthorizeUser (fuel : nat) (now hour : Z) (user : option AuthenticatedUser) (resource : AuthzResource) (action : Action)
    (a : Authorizer) : outcome authz_error unit * Authorizer :=
  Authorize fuel now hour (mkContext user resource "" action None) a.

(** *** The list of policies *)

(** One pass from the end of the list, swapping neighbours that are out of
    order: [p] is the element at hand and [rest] the elements before it, last
    first. *)
Fixpoint bubble (p : Policy) (rest : list Policy) : list Policy :=
  match rest with
  | [] => [p]
  | q :: rest => if (Priority q <? Priority p)%Z then q :: bubble p rest else p :: bubble q rest
  end.

Definition AddPolicy (policy : Policy) (a : Authorizer) : Authorizer :=
  a <| policies ::= fun l => match rev (l ++ [policy]) with [] => [] | p :: rest => rev (bubble p rest) end |>.

Fixpoint remove_policy (id : string) (l : list Policy) : list Policy :=
  match l with
  | [] => []
  | p :: l => if String.eqb (pol_ID p) id then l else p :: remove_policy id l
  end.

Definition RemovePolicy (id : string) (a : Authorizer) : Authorizer := a <| policies ::= remove_policy id |>.
Definition ListPolicies (a : Authorizer) : list Policy := policies a.

(** *** The quick check *)

Record ResourcePermissions := mkResourcePermissions {
  Create : Permission; Read : Permission; Update : Permission; Delete : Permission; Manage : Permission }.

Definition DefaultResourcePermissions (r : AuthzResource) : option ResourcePermissions :=
  if String.eqb r ResourceSession then
    Some (mkResourcePermissions PermissionWrite PermissionRead PermissionWrite PermissionWrite PermissionAdmin)
  else if String.eqb r ResourceRecording then
    Some (mkResourcePermissions PermissionRecording PermissionRead PermissionRecording PermissionAdmin PermissionAdmin)
  else if String.eqb r ResourceStatistics then Some (mkResourcePermissions "" PermissionStatistics "" "" "")
  else if String.eqb r ResourceConfig then Some (mkResourcePermissions "" PermissionAdmin PermissionAdmin "" "")
  else None.

Definition requiredPermission (perms : ResourcePermissions) (action : Action) : Permission :=
  if String.eqb action ActionCreate then Create perms else if String.eqb action ActionRead then Read perms
  else if String.eqb action ActionUpdate then Update perms else if String.eqb action ActionDelete then Delete perms
  else if String.eqb action ActionManage then Manage perms else "".

Definition QuickCheck (user : option AuthenticatedUser) (resource : AuthzResource) (action : Action) (a : Authorizer) : bool :=
  match user with
  | None => false
  | Some u =>
      HasPermission PermissionAdmin u ||
      match DefaultResourcePermissions resource with
      | Some perms =>
          let requiredPerm := requiredPermission perms action in
          negb (String.eqb requiredPerm "") && HasPermission requiredPerm u
      | None => false
      end
  end.

Definition CanAccess (now : Z) (user : option AuthenticatedUser) (resource : AuthzResource) (action : Action) : bool :=
  QuickCheck user resource action (NewAuthorizer now).

Definition FormatPermissions (user : option AuthenticatedUser) : string :=
  match user with None => "none" | Some u => String.concat ", " (u_Permissions u) end.

Example manager_reads_sessions :
  (AuthorizeUser 5 1 0 (Some (mkUser "u" "U" ["recording_manager"] 0)) ResourceSession ActionRead (NewAuthorizer 1)).1 = Ok tt.
Proof. vm_compute. reflexivity. Qed.
Example glob_ex : (glob "session/a-*" "session/a-17", glob "session/a-*" "session/b", glob "a*b*c" "aXbYbZc") = (true, false, true).
Proof. vm_compute. reflexivity. Qed.

(** ** Lemmas: resolving permissions *)

(** What a role grants: its own permissions and those of the roles it inherits
    from, to any depth. *)
Inductive granted (rs : gmap string Role) : string -> RolePermission -> Prop :=
| g_own id role p : rs !! id = Some role -> In p (r_Permissions role) -> granted rs id p
| g_inherit id role parent p : rs !! id = Some role -> In parent (Inherits role) -> granted rs parent p -> granted rs id p.

(** Inheritance without cycles: the other roles a role inherits from are ranked
    below it. *)
Definition ranked (rank : string -> nat) (rs : gmap string Role) : Prop :=
  forall id role parent, rs !! id = Some role -> In parent (Inherits role) -> parent <> id -> (rank parent < rank id)%nat.

(** A cache that says what the roles say. *)
Definition cache_ok (a : Authorizer) : Prop :=
  forall id ps, inheritanceCache a !! id = Some ps -> forall p, In p ps <-> granted (roles a) id p.

(** Resolving permissions changes the cache only. *)
Definition same_but_cache (a a' : Authorizer) : Prop :=
  roles a' = roles a /\ policies a' = policies a /\ hasLogger a' = hasLogger a /\ audit a' = audit a.

#[local] Instance same_but_cache_preorder : PreOrder same_but_cache.
Proof. split; [done|]. intros a b c (?&?&?&?) (?&?&?&?). repeat split; congruence. Qed.

Section resolve.
Context (rank : string -> nat) (rs : gmap string Role) (Hrank : ranked rank rs).

Lemma inherit_loop_spec resolve id ids seen acc a :
  roles a = rs -> cache_ok a ->
  (forall parent a, In parent ids -> parent <> id -> roles a = rs -> cache_ok a -> exists ps a', resolve parent a = (Ok ps, a') /\
     (forall p, In p ps <-> granted rs parent p) /\ same_but_cache a a' /\ cache_ok a') ->
  id ∈ seen -> (forall s p, s ∈ seen -> s <> id -> granted rs s p -> In p acc) ->
  exists ps a', inherit_loop resolve ids seen acc a = (Ok ps, a') /\ same_but_cache a a' /\ cache_ok a' /\
    (forall p, In p ps -> In p acc \/ exists parent, In parent ids /\ granted rs parent p) /\
    (forall p, In p acc \/ (exists parent, In parent ids /\ parent <> id /\ granted rs parent p) -> In p ps).
Proof.
  revert seen acc a. induction ids as [|i ids IH]; intros seen acc a Ha Hc Hres Hid Hseen; cbn [inherit_loop].
  { exists acc, a. split_and!; try done; [auto|]. intros p [?|(? & [] & _)]; done. }
  destruct (bool_decide_reflect (i ∈ seen)) as [Hin|Hin].
  - destruct (IH seen acc a) as (ps & a' & E & Hs & Hc' & H1 & H2); try done.
    { intros parent a1 Hp. apply Hres. by right. }
    exists ps, a'. split_and!; try done.
    + intros p Hp. destruct (H1 p Hp) as [?|(q & Hq & Hg)]; [by left|]. right. exists q. split; [by right|done].
    + intros p [Hp|(q & [<-|Hq] & Hne & Hg)]; [apply H2; by left| |].
      * apply H2. left. by apply (Hseen i p).
      * apply H2. right. by exists q.
  - assert (i <> id) as Hne by (intros ->; done).
    destruct (Hres i a (or_introl eq_refl) Hne Ha Hc) as (ps1 & a1 & E1 & Hg1 & Hs1 & Hc1). rewrite E1.
    destruct (IH (i :: seen) (acc ++ ps1) a1) as (ps & a' & E & Hs & Hc' & H1 & H2).
    + destruct Hs1 as (-> & _). done.
    + done.
    + intros parent a2 Hp. apply Hres. by right.
    + by apply elem_of_cons; right.
    + intros s p Hs Hsn Hg. apply in_or_app. apply elem_of_cons in Hs as [->|Hs]; [right; by apply Hg1|left; by apply (Hseen s)].
    + exists ps, a'. split_and!; try done; [by transitivity a1| |].
      * intros p Hp. destruct (H1 p Hp) as [[Ha1|Ha1]%in_app_or|(q & Hq & Hg)].
        -- by left.
        -- right. exists i. split; [by left|]. by apply Hg1.
        -- right. exists q. split; [by right|done].
      * intros p [Hp|(q & [<-|Hq] & Hqn & Hg)]; apply H2.
        -- left. apply in_or_app. by left.
        -- left. apply in_or_app. right. by apply Hg1.
        -- right. by exists q.
Qed.

Lemma resolvePermissions_spec fuel id a : (rank id < fuel)%nat -> roles a = rs -> cache_ok a ->
  exists ps a', resolvePermissions fuel id a = (Ok ps, a') /\ (forall p, In p ps <-> granted rs id p) /\ same_but_cache a a' /\ cache_ok a'.
Proof using Hrank.
  revert id a. induction fuel as [|fuel IH]; intros id a Hf Ha Hc; [lia|]. cbn [resolvePermissions].
  destruct (inheritanceCache a !! id) as [cached|] eqn:Ec.
  { exists cached, a. split_and!; try done. intros p. rewrite <- Ha. by apply Hc. }
  destruct (roles a !! id) as [role|] eqn:Er; rewrite Ha in Er.
  2: { exists [], a. split_and!; try done. intros p. split; [done|]. intros Hg. destruct Hg; congruence. }
  destruct (inherit_loop_spec (resolvePermissions fuel) id (Inherits role) [id] [] a) as (ps & a1 & E & Hs & Hc1 & H1 & H2); try done.
  { intros parent a1 Hp Hne Ha1 Hc1. apply IH; try done. pose proof (Hrank id role parent Er Hp Hne). lia. }
  { by apply list_elem_of_singleton. }
  { intros s p ->%list_elem_of_singleton. done. }
  rewrite E.
  assert (forall p, In p (ps ++ r_Permissions role) <-> granted rs id p) as Hg.
  { intros p. rewrite in_app_iff. split.
    - intros [Hp|Hp]; [|by eapply g_own]. destruct (H1 p Hp) as [[]|(q & Hq & Hg)]. by eapply g_inherit.
    - intros Hg. remember id as id' eqn:Eid. induction Hg as [id0 role0 p Hr Hp|id0 role0 parent p Hr Hp Hg IHg]; subst id0.
      + right. congruence.
      + assert (role0 = role) as -> by congruence. destruct (decide (parent = id)) as [->|Hne]; [by apply IHg|].
        left. apply H2. right. by exists parent. }
  eexists _, _. split; [reflexivity|]. split; [done|]. split; [transitivity a1; done|].
  destruct Hs as (Hr & _). intros i l. cbn. rewrite Hr, Ha. destruct (decide (i = id)) as [->|].
  - rewrite lookup_insert_eq. by intros [= <-].
  - rewrite lookup_insert_ne by done. intros Hi. specialize (Hc1 i l Hi). by rewrite Hr, Ha in Hc1.
Qed.

Lemma check_roles_spec fuel perms ctx a : (forall id, rank id < fuel)%nat -> roles a = rs -> cache_ok a ->
  exists b a', check_roles fuel perms ctx a = (Ok b, a') /\ same_but_cache a a' /\ cache_ok a' /\
    (b = true <-> exists r p, In r perms /\ granted rs r p /\ covers ctx p = true).
Proof using Hrank.
  intros Hf. revert a. induction perms as [|r perms IH]; intros a Ha Hc; cbn [check_roles].
  { exists false, a. split_and!; try done. split; [done|]. intros (r & p & [] & _). }
  destruct (resolvePermissions_spec fuel r a (Hf r) Ha Hc) as (ps & a1 & E & Hg & Hs & Hc1). rewrite E.
  destruct (existsb (covers ctx) ps) eqn:Ee.
  - exists true, a1. split_and!; try done. apply existsb_exists in Ee as (p & Hp & Hcov). split; [|done].
    exists r, p. split; [by left|]. split; [by apply Hg|done].
  - destruct (IH a1) as (b & a' & E' & Hs' & Hc' & Hb); [by destruct Hs as (-> & _)|done|]. exists b, a'.
    split_and!; try done; [by transitivity a1|]. rewrite Hb. split.
    + intros (q & p & Hq & Hrest). exists q, p. split; [by right|done].
    + intros (q & p & [<-|Hq] & Hgr & Hcov); [|by exists q, p].
      assert (existsb (covers ctx) ps = true) as Et by (apply existsb_exists; exists p; split; [by apply Hg|done]). congruence.
Qed.
End resolve.

(** ** Guarantees: decisions *)

(** A permission applies to a request: the resource, the action or the right to
    manage, and every condition. *)
Definition permits (ctx : AuthzContext) (p : RolePermission) : Prop :=
  p_Resource p = Resource ctx /\ (In (ctx_Action ctx) (p_Actions p) \/ In ActionManage (p_Actions p)) /\
  forall c, In c (p_Conditions p) -> c ctx = true.

Lemma covers_permits ctx p : covers ctx p = true <-> permits ctx p.
Proof.
  unfold covers, permits, containsAction. rewrite !andb_true_iff, String.eqb_eq, existsb_exists, forallb_forall. split.
  - intros [[Hr (x & Hx & Ha)] Hc]. split; [done|]. split; [|done]. apply orb_true_iff in Ha as [->%String.eqb_eq| ->%String.eqb_eq]; auto.
  - intros (Hr & Ha & Hc). split; [split; [done|]|done]. destruct Ha as [Ha|Ha]; eexists; (split; [exact Ha|]); rewrite String.eqb_refl, ?orb_true_r; done.
Qed.

Lemma HasPermission_admin u : HasPermission PermissionAdmin u = true <-> In PermissionAdmin (u_Permissions u).
Proof.
  unfold HasPermission. rewrite existsb_exists. split.
  - intros (x & Hx & Ha). apply orb_true_iff in Ha as [->%String.eqb_eq| ->%String.eqb_eq]; done.
  - intros H. exists PermissionAdmin. split; [done|]. by rewrite String.eqb_refl.
Qed.

(** The life of an authorizer whose roles are set up before it is used. *)
Inductive role_op := RAdd (now : Z) (role : Role) | RRemove (id : string).
Definition set_up (a : Authorizer) (o : role_op) : Authorizer :=
  match o with RAdd now role => AddRole now role a | RRemove id => RemoveRole id a end.
Inductive use_op :=
| UAuthorize (now hour : Z) (ctx : AuthzContext)
| UAddPolicy (p : Policy)
| URemovePolicy (id : string)
| ULogger.
Definition use (fuel : nat) (a : Authorizer) (o : use_op) : Authorizer :=
  match o with
  | UAuthorize now hour ctx => (Authorize fuel now hour ctx a).2
  | UAddPolicy p => AddPolicy p a
  | URemovePolicy id => RemovePolicy id a
  | ULogger => SetAuditLogger a
  end.

(** What is right of an authorizer in use: the roles it had, and a cache that
    agrees with them. *)
Definition in_step (rs : gmap string Role) (a : Authorizer) : Prop := roles a = rs /\ cache_ok a.

Lemma logAudit_in_step rs now u ctx al re a : in_step rs a -> in_step rs (logAudit now u ctx al re a).
Proof. intros [Hr Hc]. unfold logAudit. by destruct (negb _). Qed.

Section in_use.
Context (rank : string -> nat) (rs : gmap string Role) (fuel : nat).
Hypothesis Hrank : ranked rank rs.
Hypothesis Hfuel : forall id, (rank id < fuel)%nat.

Lemma check_roles_in_step perms ctx a : in_step rs a ->
  exists b a', check_roles fuel perms ctx a = (Ok b, a') /\ in_step rs a' /\
    (b = true <-> exists r p, In r perms /\ granted rs r p /\ covers ctx p = true).
Proof using Hrank Hfuel.
  intros [Hr Hc]. destruct (check_roles_spec rank rs Hrank fuel perms ctx a Hfuel Hr Hc) as (b & a' & E & (Hs & _) & Hc' & Hb).
  exists b, a'. split; [done|]. split; [split; [congruence|done]|done].
Qed.

Lemma Authorize_in_step now hour ctx a : in_step rs a -> in_step rs (Authorize fuel now hour ctx a).2.
Proof using Hrank Hfuel.
  intros H. unfold Authorize. destruct (User ctx) as [u|]; [|done]. destruct (check_policies _ _ _ _) as [[]| | |]; try by apply logAudit_in_step. all: try done.
  destruct (check_roles_in_step (u_Permissions u) ctx a H) as (b & a' & -> & H' & _).
  destruct b; [by apply logAudit_in_step|]. destruct (HasPermission _ _); by apply logAudit_in_step.
Qed.

Lemma use_in_step uses a : in_step rs a -> in_step rs (foldl (use fuel) a uses).
Proof using Hrank Hfuel.
  revert a. induction uses as [|o uses IH]; intros a H; [done|]. cbn [foldl]. apply IH. destruct o; [by apply Authorize_in_step|done..].
Qed.
End in_use.

Lemma set_up_cache setup a : inheritanceCache a = ∅ -> inheritanceCache (foldl set_up a setup) = ∅.
Proof.
  revert a. induction setup as [|o setup IH]; intros a H; [done|]. cbn [foldl]. apply IH. destruct o; cbn; rewrite H; apply delete_empty.
Qed.

Lemma new_cache now : inheritanceCache (NewAuthorizer now) = ∅.
Proof. unfold NewAuthorizer, addDefaultRoles, AddRole. cbn. by rewrite !delete_empty. Qed.

(** C18: authorization follows the roles. For an authorizer whose roles are added
    and removed before its first authorization, and inherit without cycles:
    after any authorizations and changes of policies, a request that no policy
    decides is allowed exactly when the user has the admin permission or one of
    the user's roles grants it, directly or through inheritance to any depth,
    with the conditions of the grant met; otherwise it is refused. *)
Theorem Authorize_correct rank fuel now0 setup uses now hour ctx u :
  let a0 := foldl set_up (NewAuthorizer now0) setup in
  let a := foldl (use fuel) a0 uses in
  ranked rank (roles a0) -> (forall id, rank id < fuel)%nat ->
  User ctx = Some u -> check_policies hour (policies a) u ctx = Ok PolicyNotApplicable ->
  let allowed := In PermissionAdmin (u_Permissions u) \/
    exists r p, In r (u_Permissions u) /\ granted (roles a0) r p /\ permits ctx p in
  ((Authorize fuel now hour ctx a).1 = Ok tt <-> allowed) /\
  ((Authorize fuel now hour ctx a).1 = Err ErrAccessDenied <-> ~ allowed).
Proof.
  intros a0 a Hr Hf Hu Hp allowed. assert (in_step (roles a0) a) as Ha.
  { eapply use_in_step; [done|done|]. split; [done|]. intros id ps. unfold a0. by rewrite set_up_cache, lookup_empty by apply new_cache. }
  unfold Authorize. rewrite Hu, Hp.
  destruct (check_roles_in_step rank (roles a0) fuel Hr Hf (u_Permissions u) ctx a Ha) as (b & a' & -> & _ & Hb).
  assert (b = true <-> exists r p, In r (u_Permissions u) /\ granted (roles a0) r p /\ permits ctx p) as Hb'
    by (rewrite Hb; by setoid_rewrite covers_permits).
  unfold allowed. rewrite <- Hb', <- HasPermission_admin. destruct b, (HasPermission PermissionAdmin u); cbn [fst]; intuition congruence.
Qed.

(** The default roles have no cycles. *)
Definition default_rank (id : string) : nat := if String.eqb id "recording_manager" then 1%nat else 0%nat.

Lemma default_ranked now : ranked default_rank (roles (NewAuthorizer now)).
Proof.
  assert (map_Forall (fun id role => forall parent, In parent (Inherits role) -> (default_rank parent < default_rank id)%nat) (roles (NewAuthorizer now))) as H.
  { unfold NewAuthorizer, addDefaultRoles, AddRole. cbn.
    repeat (apply map_Forall_insert_2; [cbn; intros ? H; repeat destruct H as [<-|H]; try done; vm_compute; lia|]). apply map_Forall_empty. }
  intros id role parent Hr Hp _. by apply (H id role Hr).
Qed.

Lemma Authorize_correct_witness :
  let u := mkUser "u" "U" ["recording_manager"] 0 in
  let ctx := mkContext (Some u) ResourceCall "" ActionRead None in
  let a := foldl (use 3) (foldl set_up (NewAuthorizer 1) []) [UAuthorize 1 0 ctx; ULogger] in
  (Authorize 3 2 0 ctx a).1 = Ok tt.
Proof.
  intros u ctx a.
  apply (Authorize_correct default_rank 3 1 [] [UAuthorize 1 0 ctx; ULogger] 2 0 ctx u (default_ranked 1)); [|reflexivity|vm_compute; reflexivity|].
  - intros id. unfold default_rank. destruct (String.eqb _ _); lia.
  - right. exists "recording_manager", (grant ResourceCall [ActionRead]). split; [by left|]. split.
    + eapply (g_inherit _ _ _ "monitor"); [reflexivity|by left|]. eapply g_own; [reflexivity|]. cbn. tauto.
    + split; [reflexivity|]. split; [left; by left|]. intros c [].
Defined.

(** Revoking a role does not revoke what others inherited from it. The
    cache entries of roles that inherit from a changed or removed role are
    kept, so a user whose request was once allowed through the inherited role
    is allowed for ever after, while the same request is refused to a user of
    the same role when nobody had asked before. *)
Theorem revoked_role_still_grants :
  let u := Some (mkUser "u" "U" ["recording_manager"] 0) in
  let a1 := (AuthorizeUser 3 1 0 u ResourceCall ActionRead (NewAuthorizer 1)).2 in
  (AuthorizeUser 3 2 0 u ResourceCall ActionRead (RemoveRole "monitor" a1)).1 = Ok tt /\
  (AuthorizeUser 3 2 0 u ResourceCall ActionRead (RemoveRole "monitor" (NewAuthorizer 1))).1 = Err ErrAccessDenied.
Proof. split; vm_compute; reflexivity. Qed.

(** *** Cycles *)

Lemma inherit_head_diverges resolve id parent rest a :
  parent <> id -> (resolve parent a).1 = OutOfFuel -> (inherit_loop resolve (parent :: rest) [id] [] a).1 = OutOfFuel.
Proof.
  intros Hne E. cbn [inherit_loop]. rewrite bool_decide_eq_false_2 by (by rewrite list_elem_of_singleton).
  destruct (resolve parent a) as [r a']. cbn in E. by subst r.
Qed.

Lemma cycle_diverges fuel x y rx ry lx ly a : x <> y ->
  roles a !! x = Some rx -> roles a !! y = Some ry -> Inherits rx = y :: lx -> Inherits ry = x :: ly ->
  inheritanceCache a !! x = None -> inheritanceCache a !! y = None ->
  (resolvePermissions fuel x a).1 = OutOfFuel /\ (resolvePermissions fuel y a).1 = OutOfFuel.
Proof.
  intros Hne Hx Hy Ex Ey Cx Cy. induction fuel as [|fuel [IHx IHy]]; [done|]. cbn [resolvePermissions]. rewrite Cx, Cy, Hx, Hy, Ex, Ey. split.
  - pose proof (inherit_head_diverges (resolvePermissions fuel) x y lx a ltac:(congruence) IHy) as H.
    destruct (inherit_loop _ _ _ _ _) as [r a']. cbn in H. by subst r.
  - pose proof (inherit_head_diverges (resolvePermissions fuel) y x ly a Hne IHx) as H.
    destruct (inherit_loop _ _ _ _ _) as [r a']. cbn in H. by subst r.
Qed.

(** Two roles that inherit from each other make the first authorisation of
    a user of one of them recurse without end: no stack is large enough, so the
    process dies. The set of visited roles is local to each call. *)
Theorem role_cycle_crashes fuel now hour x y rx ry lx ly u res act a : x <> y ->
  roles a !! x = Some rx -> roles a !! y = Some ry -> Inherits rx = y :: lx -> Inherits ry = x :: ly ->
  inheritanceCache a = ∅ -> policies a = [] -> u_Permissions u = [x] ->
  (AuthorizeUser fuel now hour (Some u) res act a).1 = OutOfFuel.
Proof.
  intros Hne Hx Hy Ex Ey Hc Hp Hu. unfold AuthorizeUser, Authorize. cbn [User]. rewrite Hp, Hu. cbn [check_policies check_roles].
  destruct (cycle_diverges fuel x y rx ry lx ly a) as [H _]; try done; try (rewrite Hc; apply lookup_empty).
  destruct (resolvePermissions fuel x a) as [r a']. cbn in H. by subst r.
Qed.

Lemma role_cycle_crashes_witness :
  let a := AddRole 1 (mkRole "b" "B" [] ["a"] 0 0) (AddRole 1 (mkRole "a" "A" [] ["b"] 0 0) (mkAuthorizer ∅ [] ∅ false [])) in
  (AuthorizeUser 1000 1 0 (Some (mkUser "u" "U" ["a"] 0)) ResourceCall ActionRead a).1 = OutOfFuel.
Proof.
  intros a. eapply (role_cycle_crashes 1000 1 0 "a" "b" _ _ [] []); try reflexivity. discriminate.
Defined.

(** *** The list of policies *)

Definition by_priority (l : list Policy) : Prop := StronglySorted (fun p q => (Priority q <= Priority p)%Z) l.

(** Where a new policy goes: behind those of at least its priority. *)
Definition insert_policy (p : Policy) (l : list Policy) : list Policy :=
  filter (fun q => (Priority p <= Priority q)%Z) l ++ [p] ++ filter (fun q => (Priority q < Priority p)%Z) l.

Lemma bubble_id p rest : StronglySorted (fun p q => (Priority p <= Priority q)%Z) (p :: rest) -> bubble p rest = p :: rest.
Proof.
  revert p. induction rest as [|q rest IH]; intros p Hs; [done|]. apply StronglySorted_inv in Hs as [Hs Hf]. cbn [bubble].
  apply Forall_cons in Hf as [Hpq _]. destruct (Z.ltb_spec (Priority q) (Priority p)); [lia|]. by rewrite IH.
Qed.

Lemma bubble_insert p rest : StronglySorted (fun p q => (Priority p <= Priority q)%Z) rest ->
  bubble p rest = filter (fun q => (Priority q < Priority p)%Z) rest ++ [p] ++ filter (fun q => (Priority p <= Priority q)%Z) rest.
Proof.
  revert p. induction rest as [|q rest IH]; intros p Hs; [done|]. pose proof Hs as Hs0. apply StronglySorted_inv in Hs as [Hs Hf]. cbn [bubble].
  rewrite !filter_cons. destruct (Z.ltb_spec (Priority q) (Priority p)) as [Hlt|Hge].
  - rewrite (decide_True (P := (Priority q < Priority p)%Z)) by done. rewrite (decide_False (P := (Priority p <= Priority q)%Z)) by lia. by rewrite IH.
  - rewrite (decide_False (P := (Priority q < Priority p)%Z)) by lia. rewrite (decide_True (P := (Priority p <= Priority q)%Z)) by done. rewrite bubble_id by done.
    assert (forall r, In r rest -> (Priority p <= Priority r)%Z) as Hall.
    { intros r Hr. rewrite Forall_forall in Hf. specialize (Hf r (proj2 (list_elem_of_In _ _) Hr)). lia. }
    clear - Hall. assert (filter (fun q => (Priority q < Priority p)%Z) rest = [] /\ filter (fun q => (Priority p <= Priority q)%Z) rest = rest) as [-> ->]; [|done].
    induction rest as [|r rest IH]; [done|]. rewrite !filter_cons. pose proof (Hall r (or_introl eq_refl)).
    rewrite (decide_False (P := (Priority r < Priority p)%Z)) by lia. rewrite (decide_True (P := (Priority p <= Priority r)%Z)) by done.
    destruct IH as [IH1 IH2]; [intros r' Hr'; apply Hall; by right|]. by rewrite IH1, IH2.
Qed.

Lemma filter_rev {A} (P : A -> Prop) `{!forall x, Decision (P x)} l : filter P (rev l) = rev (filter P l).
Proof.
  induction l as [|x l IH]; [done|]. cbn [rev]. rewrite filter_app, IH, !filter_cons, filter_nil.
  destruct (decide (P x)); cbn [rev]; [done|]. by rewrite app_nil_r.
Qed.

Lemma sorted_rev l : by_priority l -> StronglySorted (fun p q => (Priority p <= Priority q)%Z) (rev l).
Proof.
  unfold by_priority. induction l as [|x l IH]; intros Hs; [constructor|]. apply StronglySorted_inv in Hs as [Hs Hf]. cbn [rev].
  specialize (IH Hs). assert (Forall (fun q => (Priority q <= Priority x)%Z) (rev l)) as Hf'.
  { rewrite Forall_forall in *. intros q Hq. apply Hf. rewrite list_elem_of_In in *. by apply in_rev. }
  clear Hs Hf. induction IH as [|y m Hm IHm Hy]; [repeat constructor|]. apply Forall_cons in Hf' as [Hyx Hf']. cbn [app].
  constructor; [by apply IHm|]. apply Forall_app. split; [done|]. by repeat constructor.
Qed.

Lemma AddPolicy_insert policy a : by_priority (policies a) -> policies (AddPolicy policy a) = insert_policy policy (policies a).
Proof.
  intros Hs. unfold AddPolicy. cbn [policies set_field set_policies]. rewrite rev_app_distr. cbn [rev app].
  rewrite bubble_insert by (by apply sorted_rev). unfold insert_policy. cbn [app]. rewrite !filter_rev.
  rewrite rev_app_distr. cbn [rev app]. rewrite rev_involutive, <- app_assoc, rev_involutive. done.
Qed.

Lemma insert_policy_sorted p l : by_priority l -> by_priority (insert_policy p l).
Proof.
  intros Hs. unfold by_priority, insert_policy in *.
  assert (forall P `{!forall x, Decision (P x)}, StronglySorted (fun p q => (Priority q <= Priority p)%Z) (filter P l)) as Hf.
  { intros P Hd. induction Hs as [|x m Hm IH Hx]; [constructor|]. rewrite filter_cons. destruct (decide (P x)); [|done].
    constructor; [done|]. rewrite Forall_forall in *. intros q [_ Hq]%list_elem_of_filter. by apply Hx. }
  assert (Forall (fun q => (Priority q <= Priority p)%Z) (filter (fun q => (Priority q < Priority p)%Z) l)) as Hlow.
  { rewrite Forall_forall. intros q [Hq _]%list_elem_of_filter. lia. }
  assert (Forall (fun q => (Priority p <= Priority q)%Z) (filter (fun q => (Priority p <= Priority q)%Z) l)) as Hhigh.
  { rewrite Forall_forall. intros q [Hq _]%list_elem_of_filter. lia. }
  pose proof (Hf (fun q => (Priority p <= Priority q)%Z) _) as H1. pose proof (Hf (fun q => (Priority q < Priority p)%Z) _) as H2.
  induction H1 as [|x m Hm IH Hx]; cbn [app]; [by constructor|]. apply Forall_cons in Hhigh as [Hpx Hhigh]. constructor; [by apply IH|].
  rewrite !Forall_app. split; [done|]. constructor; [done|]. eapply Forall_impl; [exact Hlow|]. cbn. lia.
Qed.

Lemma remove_policy_sorted id l : by_priority l -> by_priority (remove_policy id l).
Proof.
  unfold by_priority. induction 1 as [|x m Hm IH Hx]; [constructor|]. cbn [remove_policy]. destruct (String.eqb _ _); [done|].
  constructor; [done|]. clear - Hx. induction Hx as [|y m Hy Hx IH]; [constructor|]. cbn [remove_policy].
  destruct (String.eqb (pol_ID y) id); [done|]. by constructor.
Qed.

Inductive policy_op := PAdd (p : Policy) | PRemove (id : string).
Definition policy_run (o : policy_op) (a : Authorizer) : Authorizer :=
  match o with PAdd p => AddPolicy p a | PRemove id => RemovePolicy id a end.

(** Policies are kept in order of priority, and in order of addition among
    equals: after any additions and removals the list is sorted by falling
    priority, and the one pass [AddPolicy] makes puts a policy exactly behind
    those of at least its priority. *)
Theorem policies_by_priority now ops p :
  let a := foldl (fun a o => policy_run o a) (NewAuthorizer now) ops in
  StronglySorted (fun p q => (Priority q <= Priority p)%Z) (policies a) /\
  policies (AddPolicy p a) = filter (fun q => (Priority p <= Priority q)%Z) (policies a) ++ [p] ++
                             filter (fun q => (Priority q < Priority p)%Z) (policies a).
Proof.
  intros a. assert (by_priority (policies a)) as Hs; [|split; [done|by apply AddPolicy_insert]].
  unfold a. assert (by_priority (policies (NewAuthorizer now))) as H0 by constructor. clear a. revert H0. generalize (NewAuthorizer now).
  induction ops as [|o ops IH]; intros a H0; [done|]. apply IH. destruct o as [q|id]; cbn [policy_run].
  - rewrite AddPolicy_insert by done. by apply insert_policy_sorted.
  - by apply remove_policy_sorted.
Qed.

(** ** Guarantees: the audit trail *)

Lemma resolvePermissions_keeps fuel id a : same_but_cache a (resolvePermissions fuel id a).2.
Proof.
  revert id a. induction fuel as [|fuel IH]; intros id a; [done|]. cbn [resolvePermissions].
  destruct (inheritanceCache a !! id); [done|]. destruct (roles a !! id) as [role|]; [|done].
  assert (forall ids seen acc a, same_but_cache a (inherit_loop (resolvePermissions fuel) ids seen acc a).2) as Hl.
  { clear - IH. induction ids as [|i ids IHi]; intros seen acc a; [done|]. cbn [inherit_loop]. destruct (bool_decide _); [apply IHi|].
    specialize (IH i a). destruct (resolvePermissions fuel i a) as [[ps| | |] a']; cbn in *; try done. transitivity a'; [done|apply IHi]. }
  specialize (Hl (Inherits role) [id] [] a). destruct (inherit_loop _ _ _ _ _) as [[ps| | |] a']; done.
Qed.

Lemma check_roles_keeps fuel perms ctx a : same_but_cache a (check_roles fuel perms ctx a).2.
Proof.
  revert a. induction perms as [|r perms IH]; intros a; [done|]. cbn [check_roles]. pose proof (resolvePermissions_keeps fuel r a) as Hk.
  destruct (resolvePermissions fuel r a) as [[ps| | |] a']; try done. destruct (existsb _ _); [done|]. cbn in Hk. transitivity a'; [done|apply IH].
Qed.

(** Evaluating policies returns a decision or panics. *)
Lemma check_policies_returns hour ps u ctx :
  (exists d, check_policies hour ps u ctx = Ok d) \/ check_policies hour ps u ctx = Panic.
Proof.
  assert (forall c, (exists b, evaluatePolicyCondition hour c ctx = Ok b) \/ evaluatePolicyCondition hour c ctx = Panic) as Hc.
  { intros c. unfold evaluatePolicyCondition. repeat (case_match; eauto). unfold iface_eq. repeat (case_match; eauto). }
  assert (forall cs, (exists b, all_conditions hour cs ctx = Ok b) \/ all_conditions hour cs ctx = Panic) as Hcs.
  { induction cs as [|c cs IH]; cbn; [eauto|]. destruct (Hc c) as [[b ->]| ->]; cbn; [destruct b; eauto|auto]. }
  assert (forall r, (exists b, rule_Matches hour r u ctx = Ok b) \/ rule_Matches hour r u ctx = Panic) as Hr.
  { intros r. unfold rule_Matches. do 4 (case_match; [eauto|]). apply Hcs. }
  assert (forall rs, (exists d, first_rule hour rs u ctx = Ok d) \/ first_rule hour rs u ctx = Panic) as Hrs.
  { induction rs as [|r rs IH]; cbn; [eauto|]. destruct (Hr r) as [[b ->]| ->]; cbn; [destruct b; eauto|auto]. }
  induction ps as [|p ps IH]; cbn; [eauto|]. unfold Evaluate. destruct (negb (Enabled p)); cbn; [done|].
  destruct (Hrs (Rules p)) as [[d ->]| ->]; cbn; [destruct d; eauto|auto].
Qed.

(** Every decision about a user is logged once and says what was decided:
    when a logger is set and the check returns, it appends one entry with the
    user, resource and action of the request, marked as allowed exactly when
    the request was allowed. *)
Theorem decisions_logged fuel now hour ctx u a :
  User ctx = Some u -> hasLogger a = true ->
  (Authorize fuel now hour ctx a).1 <> Panic -> (Authorize fuel now hour ctx a).1 <> OutOfFuel ->
  exists reason, audit (Authorize fuel now hour ctx a).2 = audit a ++
    [mkEntry now (u_ID u) (u_Name u) (Resource ctx) (ResourceID ctx) (ctx_Action ctx)
       (match (Authorize fuel now hour ctx a).1 with Ok _ => true | _ => false end) reason].
Proof.
  intros Hu Hl. unfold Authorize. rewrite Hu. destruct (check_policies_returns hour (policies a) u ctx) as [[d ->]| ->]; [|done].
  intros Hp Hf. destruct d; cbn [fst snd] in *.
  - pose proof (check_roles_keeps fuel (u_Permissions u) ctx a) as Hk. destruct (check_roles fuel (u_Permissions u) ctx a) as [[b| | |] a'];
      cbn [fst snd] in *; try done.
    destruct Hk as (_ & _ & Hk1 & Hk2). unfold logAudit. destruct b; [|destruct (HasPermission PermissionAdmin u)]; cbn [fst snd];
      rewrite Hk1, Hl; cbn; rewrite Hk2; eauto.
  - unfold logAudit. rewrite Hl. cbn. eauto.
  - unfold logAudit. rewrite Hl. cbn. eauto.
Qed.

Lemma decisions_logged_witness :
  let u := mkUser "u" "U" ["monitor"] 0 in
  let ctx := mkContext (Some u) ResourceConfig "" ActionUpdate None in
  exists reason, audit (Authorize 3 7 0 ctx (SetAuditLogger (NewAuthorizer 1))).2 = [mkEntry 7 "u" "U" ResourceConfig "" ActionUpdate false reason].
Proof.
  intros u ctx. destruct (decisions_logged 3 7 0 ctx u (SetAuditLogger (NewAuthorizer 1))) as [reason E]; [reflexivity..|vm_compute; discriminate|vm_compute; discriminate|].
  exists reason. exact E.
Defined.

(** *** The quick check *)

(** The quick check and the full check disagree in both directions. A user
    with the read permission passes the quick check for sessions, but no role
    is called "read" and the full check refuses; an operator passes the full
    check and fails the quick one; and the quick check ignores policies, so it
    passes an administrator whom a policy denies. *)
Theorem QuickCheck_disagrees :
  let full u a := (AuthorizeUser 3 1 0 u ResourceSession ActionRead a).1 in
  let quick u a := QuickCheck u ResourceSession ActionRead a in
  let reader := Some (mkUser "r" "R" [PermissionRead] 0) in
  let operator := Some (mkUser "o" "O" ["operator"] 0) in
  let admin := Some (mkUser "a" "A" [PermissionAdmin] 0) in
  let a := NewAuthorizer 1 in
  let locked := AddPolicy (mkPolicy "lock" 1 [mkRule PolicyDeny [] [] ["*"] [] None] true) a in
  (quick reader a = true /\ full reader a = Err ErrAccessDenied) /\
  (quick operator a = false /\ full operator a = Ok tt) /\
  (quick admin locked = true /\ full admin locked = Err ErrPolicyViolation).
Proof. repeat split; vm_compute; reflexivity. Qed.

(** *** Patterns *)

(** What a pattern means. *)
Inductive matches : string -> string -> Prop :=
| m_end : matches "" ""
| m_char c p s : c <> "*"%char -> matches p s -> matches (String c p) (String c s)
| m_star_end p s : matches p s -> matches (String "*" p) s
| m_star_skip c p s : c <> newline -> matches (String "*" p) s -> matches (String "*" p) (String c s).

(** The matcher is exact. *)
Theorem glob_exact p s : glob p s = true <-> matches p s.
Proof.
  split.
  - revert s. induction p as [|c p IH]; intros s H; cbn [glob] in H; [destruct s; [constructor|done]|].
    destruct (Ascii.eqb_spec c "*"%char) as [->|Hc].
    + induction s as [|d s IHs]; cbn in H.
      * apply m_star_end, IH. by rewrite orb_false_r in H.
      * apply orb_true_iff in H as [H|H]; [by apply m_star_end, IH|]. apply andb_true_iff in H as [H1 H2].
        apply m_star_skip; [|by apply IHs]. intros ->. by rewrite Ascii.eqb_refl in H1.
    + destruct s as [|d s]; [done|]. apply andb_true_iff in H as [H1 H2]. apply Ascii.eqb_eq in H1 as <-. constructor; [done|by apply IH].
  - induction 1 as [|c p s Hc _ IH|p s _ IH|c p s Hc _ IH].
    + done.
    + cbn [glob]. rewrite (proj2 (Ascii.eqb_neq c "*"%char) Hc). cbn. by rewrite Ascii.eqb_refl.
    + cbn [glob]. change (Ascii.eqb "*" "*") with true. cbn iota. destruct s; by rewrite IH.
    + cbn [glob] in *. change (Ascii.eqb "*" "*") with true in *. cbn iota in *. rewrite IH, (proj2 (Ascii.eqb_neq c newline) Hc). by rewrite orb_true_r.
Qed.
