(* ===== verification/Utf8.v ===== *)
(** * Strings as bytes and runes

    Go strings are byte sequences, and [range] over a string decodes UTF-8: an
    invalid byte yields the replacement rune and is one byte wide. [runes] is
    that iteration, [ValidString] is unicode/utf8's, and [WriteRune] the encoder
    strings.Builder uses. Bytes and runes are [Z] values. *)

From Stdlib Require Import ZArith Lia Ascii String.
From stdpp Require Import base numbers list.
From S2P Require Import Prelude.

Local Open Scope Z_scope.

Definition RuneError : Z := 0xFFFD.

Definition between (lo hi b : Z) : bool := (lo <=? b) && (b <=? hi).
Definition cont (b : Z) : bool := between 0x80 0xBF b.

(** The second bytes a three- or four-byte sequence allows after its first. *)
Definition second3 (b0 b1 : Z) : bool :=
  if b0 =? 0xE0 then between 0xA0 0xBF b1 else if b0 =? 0xED then between 0x80 0x9F b1 else cont b1.
Definition second4 (b0 b1 : Z) : bool :=
  if b0 =? 0xF0 then between 0x90 0xBF b1 else if b0 =? 0xF4 then between 0x80 0x8F b1 else cont b1.

(** The rune at the front of a string and its width, 0 for the empty string.
    [None] stands for an invalid sequence. *)
Definition decode1 (l : list Z) : option (Z * nat) :=
  match l with
  | [] => None
  | b0 :: l =>
      if b0 <? 0x80 then Some (b0, 1%nat)
      else if between 0xC2 0xDF b0 then
        match l with
        | b1 :: _ => if cont b1 then Some ((b0 - 0xC0) * 64 + (b1 - 0x80), 2%nat) else None
        | _ => None
        end
      else if between 0xE0 0xEF b0 then
        match l with
        | b1 :: b2 :: _ =>
            if second3 b0 b1 && cont b2 then Some ((b0 - 0xE0) * 4096 + (b1 - 0x80) * 64 + (b2 - 0x80), 3%nat) else None
        | _ => None
        end
      else if between 0xF0 0xF4 b0 then
        match l with
        | b1 :: b2 :: b3 :: _ =>
            if second4 b0 b1 && cont b2 && cont b3
            then Some ((b0 - 0xF0) * 262144 + (b1 - 0x80) * 4096 + (b2 - 0x80) * 64 + (b3 - 0x80), 4%nat) else None
        | _ => None
        end
      else None
  end.

(** Every step takes at least one byte, so the length is fuel enough. *)
Fixpoint runes_fuel (fuel : nat) (l : list Z) : list Z :=
  match fuel, l with
  | O, _ | _, [] => []
  | S fuel, _ :: rest =>
      match decode1 l with
      | Some (r, w) => r :: runes_fuel fuel (drop w l)
      | None => RuneError :: runes_fuel fuel rest
      end
  end.
Definition runes (l : list Z) : list Z := runes_fuel (length l) l.

Fixpoint valid_fuel (fuel : nat) (l : list Z) : bool :=
  match fuel, l with
  | _, [] => true
  | O, _ => false
  | S fuel, _ => match decode1 l with Some (_, w) => valid_fuel fuel (drop w l) | None => false end
  end.
Definition ValidString (l : list Z) : bool := valid_fuel (length l) l.

Definition WriteRune (r : Z) : list Z :=
  if (0 <=? r) && (r <? 0x80) then [r]
  else if (0x80 <=? r) && (r <? 0x800) then [0xC0 + r / 64; 0x80 + r mod 64]
  else if (r <? 0) || (0x10FFFF <? r) || between 0xD800 0xDFFF r then [0xEF; 0xBF; 0xBD]
  else if r <? 0x10000 then [0xE0 + r / 4096; 0x80 + (r / 64) mod 64; 0x80 + r mod 64]
  else [0xF0 + r / 262144; 0x80 + (r / 4096) mod 64; 0x80 + (r / 64) mod 64; 0x80 + r mod 64].

Fixpoint string_bytes (s : string) : list Z :=
  match s with
  | EmptyString => []
  | String c s => Z.of_N (N_of_ascii c) :: string_bytes s
  end.

Example runes_ex : runes [0x68; 0xC3; 0xA9; 0xE2; 0x82; 0xAC; 0xFF; 0xF0; 0x9F; 0x98; 0x80] = [0x68; 0xE9; 0x20AC; RuneError; 0x1F600].
Proof. vm_compute. reflexivity. Qed.

(** ** Lemmas *)

Lemma runes_ascii l : Forall (fun b => 0 <= b < 0x80) l -> runes l = l.
Proof.
  intros H. unfold runes. assert (forall n, (length l <= n)%nat -> runes_fuel n l = l) as Hf; [|by apply Hf].
  induction H as [|b l Hb _ IH]; intros n Hn; [by destruct n|]. destruct n as [|n]; [cbn in Hn; lia|]. cbn [runes_fuel decode1].
  destruct (Z.ltb_spec b 0x80); [|lia]. cbn [drop]. rewrite IH; [done|cbn in Hn; lia].
Qed.

Lemma valid_ascii l : Forall (fun b => 0 <= b < 0x80) l -> ValidString l = true.
Proof.
  intros H. unfold ValidString. assert (forall n, (length l <= n)%nat -> valid_fuel n l = true) as Hf; [|by apply Hf].
  induction H as [|b l Hb _ IH]; intros n Hn; [by destruct n|]. destruct n as [|n]; [cbn in Hn; lia|]. cbn [valid_fuel decode1].
  destruct (Z.ltb_spec b 0x80); [|lia]. cbn [drop]. apply IH. cbn in Hn. lia.
Qed.

Lemma WriteRune_ascii r : 0 <= r < 0x80 -> WriteRune r = [r].
Proof. intros H. unfold WriteRune. destruct (Z.leb_spec 0 r); [|lia]. destruct (Z.ltb_spec r 0x80); [done|lia]. Qed.

Lemma WriteRune_length r : (1 <= length (WriteRune r) <= 4)%nat.
Proof. unfold WriteRune. repeat case_match; cbn; lia. Qed.

(** ** Round trip

    A rune that is a Unicode scalar value is encoded and decoded as itself, and
    only such runes come out of a string. *)

Definition scalar (r : Z) : Prop := 0 <= r < 0xD800 \/ 0xDFFF < r <= 0x10FFFF.

Lemma between_true lo hi b : lo <= b <= hi -> between lo hi b = true.
Proof. intros H. unfold between. rewrite !(proj2 (Z.leb_le _ _)) by lia. done. Qed.
Lemma between_false lo hi b : b < lo \/ hi < b -> between lo hi b = false.
Proof. intros H. unfold between. destruct (Z.leb_spec lo b), (Z.leb_spec b hi); done || lia. Qed.
Lemma between_spec lo hi b : between lo hi b = true -> lo <= b <= hi.
Proof. unfold between. intros [H1%Z.leb_le H2%Z.leb_le]%andb_true_iff. done. Qed.

Lemma cont_low n : 0 <= n -> cont (0x80 + n mod 64) = true.
Proof. intros Hn. apply between_true. pose proof (Z.mod_pos_bound n 64). lia. Qed.

Lemma decode_WriteRune r l : scalar r -> decode1 (WriteRune r ++ l) = Some (r, length (WriteRune r)).
Proof.
  intros Hr. unfold WriteRune. destruct (Z.leb_spec 0 r); [|unfold scalar in Hr; lia]. cbn [andb].
  destruct (Z.ltb_spec r 0x80); [cbn; by rewrite (proj2 (Z.ltb_lt _ _))|].
  rewrite (proj2 (Z.leb_le 0x80 r)) by lia. cbn [andb]. destruct (Z.ltb_spec r 0x800).
  { assert (2 <= r / 64 < 32) by (Z.to_euclidean_division_equations; lia). cbn [app length decode1].
    rewrite (proj2 (Z.ltb_ge _ 0x80)), between_true, cont_low by lia. do 2 f_equal. Z.to_euclidean_division_equations; lia. }
  rewrite (proj2 (Z.ltb_ge r 0)) by lia. cbn [orb]. rewrite (proj2 (Z.ltb_ge 0x10FFFF r)) by (unfold scalar in Hr; lia). cbn [orb].
  rewrite between_false by (unfold scalar in Hr; lia). destruct (Z.ltb_spec r 0x10000).
  { assert (0 <= r / 4096 < 16) by (Z.to_euclidean_division_equations; lia). cbn [app length decode1].
    rewrite (proj2 (Z.ltb_ge _ 0x80)), (between_false 0xC2 0xDF), (between_true 0xE0 0xEF), cont_low by lia.
    assert (second3 (0xE0 + r / 4096) (0x80 + (r / 64) mod 64) = true) as ->.
    { unfold second3. pose proof (Z.mod_pos_bound (r / 64) 64 ltac:(lia)). destruct (Z.eqb_spec (0xE0 + r / 4096) 0xE0); [apply between_true; Z.to_euclidean_division_equations; lia|].
      destruct (Z.eqb_spec (0xE0 + r / 4096) 0xED); [|apply cont_low, Z.div_pos; lia]. apply between_true. unfold scalar in Hr. Z.to_euclidean_division_equations; lia. }
    cbn [andb]. do 2 f_equal. Z.to_euclidean_division_equations; lia. }
  assert (0 <= r / 262144 < 5) by (unfold scalar in Hr; Z.to_euclidean_division_equations; lia). cbn [app length decode1].
  rewrite (proj2 (Z.ltb_ge _ 0x80)), (between_false 0xC2 0xDF), (between_false 0xE0 0xEF), (between_true 0xF0 0xF4), !cont_low by (lia || apply Z.div_pos; lia).
  assert (second4 (0xF0 + r / 262144) (0x80 + (r / 4096) mod 64) = true) as ->.
  { unfold second4. pose proof (Z.mod_pos_bound (r / 4096) 64 ltac:(lia)). destruct (Z.eqb_spec (0xF0 + r / 262144) 0xF0); [apply between_true; Z.to_euclidean_division_equations; lia|].
    destruct (Z.eqb_spec (0xF0 + r / 262144) 0xF4); [|apply cont_low, Z.div_pos; lia]. apply between_true. unfold scalar in Hr. Z.to_euclidean_division_equations; lia. }
  cbn [andb]. do 2 f_equal. Z.to_euclidean_division_equations; lia.
Qed.

Lemma WriteRune_cons r : exists b l, WriteRune r = b :: l.
Proof. unfold WriteRune. repeat case_match; eauto. Qed.

Lemma runes_fuel_encode rs : forall n, Forall scalar rs -> (length (rs ≫= WriteRune) <= n)%nat ->
  runes_fuel n (rs ≫= WriteRune) = rs /\ valid_fuel n (rs ≫= WriteRune) = true.
Proof.
  induction rs as [|r rs IH]; intros n Hrs Hn; [by destruct n|]. apply Forall_cons in Hrs as [Hr Hrs].
  change ((r :: rs) ≫= WriteRune) with (WriteRune r ++ (rs ≫= WriteRune)) in *. pose proof (decode_WriteRune r (rs ≫= WriteRune) Hr) as Hd.
  destruct (WriteRune_cons r) as (b & l & E). assert (Hdrop : drop (length (WriteRune r)) (WriteRune r ++ (rs ≫= WriteRune)) = rs ≫= WriteRune) by apply drop_app_length.
  rewrite E in *. destruct n as [|n]; [cbn in Hn; lia|]. destruct (IH n Hrs) as [I1 I2]; [rewrite length_app in Hn; cbn in Hn; lia|].
  cbn [app runes_fuel valid_fuel]. cbn [app] in Hd, Hdrop. rewrite Hd, Hdrop, I1, I2. done.
Qed.

(** Encoding runes and reading them back. *)
Lemma runes_encode rs : Forall scalar rs -> runes (rs ≫= WriteRune) = rs /\ ValidString (rs ≫= WriteRune) = true.
Proof. intros Hrs. by apply runes_fuel_encode. Qed.

Lemma decode1_scalar l r w : Forall (is_u 8) l -> decode1 l = Some (r, w) -> scalar r.
Proof.
  intros Hl. unfold decode1, scalar. destruct l as [|b0 l]; [done|]. apply Forall_cons in Hl as [Hb Hl]. unfold is_u in Hb. destruct (Z.ltb_spec b0 0x80); [intros [= <- <-]; lia|].
  destruct (between 0xC2 0xDF b0) eqn:E2; [apply between_spec in E2|].
  { destruct l as [|b1 l]; [done|]. destruct (cont b1) eqn:E; [|done]. apply between_spec in E. intros [= <- <-]. lia. }
  destruct (between 0xE0 0xEF b0) eqn:E3; [apply between_spec in E3|].
  { destruct l as [|b1 [|b2 l]]; [done..|]. destruct (second3 b0 b1) eqn:Es; [|done]. destruct (cont b2) eqn:Ec; [|done]. apply between_spec in Ec. cbn [andb]. intros [= <- <-].
    unfold second3 in Es. destruct (Z.eqb_spec b0 0xE0); [apply between_spec in Es; lia|]. destruct (Z.eqb_spec b0 0xED); apply between_spec in Es; lia. }
  destruct (between 0xF0 0xF4 b0) eqn:E4; [apply between_spec in E4|done].
  destruct l as [|b1 [|b2 [|b3 l]]]; [done..|]. destruct (second4 b0 b1) eqn:Es; [|done]. destruct (cont b2) eqn:Ec; [|done]. destruct (cont b3) eqn:Ed; [|done].
  apply between_spec in Ec, Ed. cbn [andb]. intros [= <- <-]. unfold second4 in Es. destruct (Z.eqb_spec b0 0xF0); [apply between_spec in Es; lia|].
  destruct (Z.eqb_spec b0 0xF4); apply between_spec in Es; lia.
Qed.

Lemma runes_scalar l : Forall (is_u 8) l -> Forall scalar (runes l).
Proof.
  unfold runes. generalize (length l) as n. intros n. revert l. induction n as [|n IH]; intros l Hl; [constructor|]. destruct l as [|b l]; [constructor|]. cbn [runes_fuel].
  destruct (decode1 (b :: l)) as [[r w]|] eqn:E.
  - apply Forall_cons. split; [by eapply decode1_scalar|]. by apply IH, Forall_drop.
  - apply Forall_cons. split; [unfold scalar, RuneError; lia|]. apply Forall_cons in Hl as [_ Hl]. by apply IH.
Qed.

Lemma decode1_ascii b l r w : 0 <= b -> decode1 (b :: l) = Some (r, w) -> r < 0x80 -> r = b /\ w = 1%nat /\ b < 0x80.
Proof.
  intros Hb. cbn [decode1]. destruct (Z.ltb_spec b 0x80); [intros [= <- <-]; lia|]. intros E Hr. exfalso. revert E.
  destruct (between 0xC2 0xDF b) eqn:E2; [apply between_spec in E2|].
  { destruct l as [|b1 l]; [done|]. destruct (cont b1) eqn:E; [|done]. apply between_spec in E. intros [= <- <-]. lia. }
  destruct (between 0xE0 0xEF b) eqn:E3; [apply between_spec in E3|].
  { destruct l as [|b1 [|b2 l]]; [done..|]. destruct (second3 b b1) eqn:Es; [|done]. destruct (cont b2) eqn:Ec; [|done]. apply between_spec in Ec. cbn [andb]. intros [= <- <-].
    unfold second3 in Es. destruct (Z.eqb_spec b 0xE0); [apply between_spec in Es; lia|]. destruct (Z.eqb_spec b 0xED); apply between_spec in Es; lia. }
  destruct (between 0xF0 0xF4 b) eqn:E4; [apply between_spec in E4|done].
  destruct l as [|b1 [|b2 [|b3 l]]]; [done..|]. destruct (second4 b b1) eqn:Es; [|done]. destruct (cont b2) eqn:Ec; [|done]. destruct (cont b3) eqn:Ed; [|done].
  apply between_spec in Ec, Ed. cbn [andb]. intros [= <- <-]. unfold second4 in Es. destruct (Z.eqb_spec b 0xF0); [apply between_spec in Es; lia|].
  destruct (Z.eqb_spec b 0xF4); apply between_spec in Es; lia.
Qed.

(** A string whose runes are ASCII is its runes. *)
Lemma runes_ascii_inv l : Forall (fun b => 0 <= b) l -> Forall (fun r => r < 0x80) (runes l) -> Forall (fun b => 0 <= b < 0x80) l.
Proof.
  unfold runes. assert (Hgen : forall n l, (length l <= n)%nat -> Forall (fun b => 0 <= b) l -> Forall (fun r => r < 0x80) (runes_fuel n l) -> Forall (fun b => 0 <= b < 0x80) l); [|by apply Hgen].
  clear l. induction n as [|n IH]; intros l Hn Hl Hr; [destruct l; [constructor|cbn in Hn; lia]|]. destruct l as [|b l]; [constructor|]. apply Forall_cons in Hl as [Hb Hl]. cbn [runes_fuel] in Hr.
  destruct (decode1 (b :: l)) as [[r w]|] eqn:E; apply Forall_cons in Hr as [Hr Hrs]; [|unfold RuneError in Hr; lia].
  destruct (decode1_ascii b l r w Hb E Hr) as (-> & -> & Hlt). apply Forall_cons. split; [lia|]. apply IH; [cbn in Hn; lia|done|exact Hrs].
Qed.
