(* ===== verification/PortReallocation.v ===== *)
(** * Port reallocation

    Models src/internal/port_reallocation.go: ports of sessions that follow a
    session through a failover. Redis is outside the model: whether a cluster is
    configured is a flag, what redis holds for a session is an argument of the
    takeover, and what is written to it is kept in a list. The mutex is not
    reentrant: a method that calls another one that locks never returns. *)

From Stdlib Require Import ZArith Lia Ascii String.
From stdpp Require Import base numbers list gmap strings.
From S2P Require Import Prelude Utf8.

Local Open Scope Z_scope.
Local Open Scope go_scope.
#[local] Arguments wraps : simpl never.

(** How a call ends. *)
Inductive call (A : Type) := Returned (a : A) | Failed | Panicked | Deadlocked.
Arguments Returned {A} a.
Arguments Failed {A}.
Arguments Panicked {A}.
Arguments Deadlocked {A}.

Record PortReallocationConfig := mkConfig {
  RedisPrefix : string; PortRangeLow : Z; PortRangeHigh : Z; AllocationTTL : Z; RenewalInterval : Z; MaxRetries : Z;
  PreferConsistent : bool; PortsPerSession : Z }.

Definition DefaultPortReallocationConfig : PortReallocationConfig :=
  mkConfig "ports:" 30000 60000 (300 * Second) (60 * Second) 10 true 4.

Record PortAllocation := mkAllocation {
  SessionID : string; CallID : string; NodeID : string; Ports : list Z; AllocatedAt : Z; ExpiresAt : Z; LastRenewed : Z;
  IsFailover : bool; OriginalNode : string }.

Inductive redis_write := RSet (key : string) (a : PortAllocation) | RDel (key : string).

Record PortReallocationManager := mkManager {
  config : PortReallocationConfig;
  cluster : bool;
  nodeID : string;
  allocations : gmap string PortAllocation;
  sessionPorts : gmap string (list Z);
  portOwners : gmap Z string;
  redis : list redis_write }.
#[export] Instance set_config : Setter config := fun f r =>
  mkManager (f (config r)) (cluster r) (nodeID r) (allocations r) (sessionPorts r) (portOwners r) (redis r).
#[export] Instance set_cluster : Setter cluster := fun f r =>
  mkManager (config r) (f (cluster r)) (nodeID r) (allocations r) (sessionPorts r) (portOwners r) (redis r).
#[export] Instance set_nodeID : Setter nodeID := fun f r =>
  mkManager (config r) (cluster r) (f (nodeID r)) (allocations r) (sessionPorts r) (portOwners r) (redis r).
#[export] Instance set_allocations : Setter allocations := fun f r =>
  mkManager (config r) (cluster r) (nodeID r) (f (allocations r)) (sessionPorts r) (portOwners r) (redis r).
#[export] Instance set_sessionPorts : Setter sessionPorts := fun f r =>
  mkManager (config r) (cluster r) (nodeID r) (allocations r) (f (sessionPorts r)) (portOwners r) (redis r).
#[export] Instance set_portOwners : Setter portOwners := fun f r =>
  mkManager (config r) (cluster r) (nodeID r) (allocations r) (sessionPorts r) (f (portOwners r)) (redis r).
#[export] Instance set_redis : Setter redis := fun f r =>
  mkManager (config r) (cluster r) (nodeID r) (allocations r) (sessionPorts r) (portOwners r) (f (redis r)).

Definition NewPortReallocationManager (nodeID : string) (cluster : bool) (cfg : option PortReallocationConfig) : PortReallocationManager :=
  mkManager (default DefaultPortReallocationConfig cfg) cluster nodeID ∅ ∅ ∅ [].

(** [int] arithmetic wraps; the result is below 2^31. *)
Definition hashSessionPort (sessionID : string) (salt : Z) : Z :=
  let h := foldl (fun h c => wraps 64 (wraps 64 (h * 31) + c)) 0 (runes (string_bytes sessionID)) in
  Z.land (wraps 64 (h + wraps 64 (salt * 17))) 0x7FFFFFFF.

Definition isPortAvailable (port : Z) (prm : PortReallocationManager) : bool :=
  if (port <? PortRangeLow (config prm)) || (port >? PortRangeHigh (config prm)) then false
  else match portOwners prm !! port with Some _ => false | None => true end.

Definition releasePortInternal (port : Z) (prm : PortReallocationManager) : PortReallocationManager :=
  prm <| portOwners ::= delete port |>.

Definition portRange (prm : PortReallocationManager) : Z := PortRangeHigh (config prm) - PortRangeLow (config prm).

(** The inner loop of [allocatePort]: [n] candidates from offset [i] on. *)
Fixpoint scan_ports (hash i : Z) (n : nat) (prm : PortReallocationManager) : option Z :=
  match n with
  | O => None
  | S n =>
      let port := PortRangeLow (config prm) + Z.rem (hash + i) (portRange prm) in
      if isPortAvailable port prm then Some port else scan_ports hash (i + 1) n prm
  end.

Fixpoint retry_scan (sessionID : string) (retry : Z) (n : nat) (prm : PortReallocationManager) : option Z :=
  match n with
  | O => None
  | S n =>
      match scan_ports (hashSessionPort sessionID retry) 0 (Z.to_nat (portRange prm)) prm with
      | Some port => Some port
      | None => retry_scan sessionID (retry + 1) n prm
      end
  end.

Definition allocatePort (sessionID : string) (prm : PortReallocationManager) : option (Z * PortReallocationManager) :=
  match retry_scan sessionID 0 (Z.to_nat (MaxRetries (config prm))) prm with
  | Some port => Some (port, prm <| portOwners ::= <[port := sessionID]> |>)
  | None => None
  end.

(** [count] times [allocatePort]; on failure what was taken is given back. *)
Fixpoint allocate_loop (sessionID : string) (count : nat) (ports : list Z) (prm : PortReallocationManager)
    : option (list Z) * PortReallocationManager :=
  match count with
  | O => (Some ports, prm)
  | S count =>
      match allocatePort sessionID prm with
      | Some (port, prm) => allocate_loop sessionID count (ports ++ [port]) prm
      | None => (None, foldl (fun prm p => releasePortInternal p prm) prm ports)
      end
  end.

Definition new_allocation (now : Z) (sessionID callID : string) (ports : list Z) (failover : bool) (original : string)
    (prm : PortReallocationManager) : PortAllocation :=
  mkAllocation sessionID callID (nodeID prm) ports now (Time_Add now (AllocationTTL (config prm))) now failover original.

Definition recordAllocation (now : Z) (sessionID callID : string) (ports : list Z) (failover : bool)
    (prm : PortReallocationManager) : PortReallocationManager :=
  prm <| sessionPorts ::= <[sessionID := ports]> |>
      <| allocations ::= <[sessionID := new_allocation now sessionID callID ports failover "" prm]> |>.

Definition storeAllocation (now : Z) (sessionID callID : string) (ports : list Z) (prm : PortReallocationManager) : PortReallocationManager :=
  prm <| redis ::= fun l => l ++ [RSet (RedisPrefix (config prm) +:+ sessionID) (new_allocation now sessionID callID ports false "" prm)] |>.

Definition removeAllocation (sessionID : string) (prm : PortReallocationManager) : PortReallocationManager :=
  prm <| redis ::= fun l => l ++ [RDel (RedisPrefix (config prm) +:+ sessionID)] |>.

(** The loop of [tryGetConsistentPorts]: ports it cannot have are skipped. A
    range of size zero divides by zero. *)
Fixpoint consistent_loop (sessionID : string) (hash i : Z) (n : nat) (ports : list Z) (prm : PortReallocationManager)
    : option (list Z * PortReallocationManager) :=
  match n with
  | O => Some (ports, prm)
  | S n =>
      if portRange prm =? 0 then None
      else
        let port := PortRangeLow (config prm) + Z.rem (hash + i * 2) (portRange prm) in
        if isPortAvailable port prm
        then consistent_loop sessionID hash (i + 1) n (ports ++ [port]) (prm <| portOwners ::= <[port := sessionID]> |>)
        else consistent_loop sessionID hash (i + 1) n ports prm
  end.

Definition tryGetConsistentPorts (sessionID : string) (count : Z) (prm : PortReallocationManager)
    : call (option (list Z)) * PortReallocationManager :=
  match consistent_loop sessionID (hashSessionPort sessionID 0) 0 (Z.to_nat count) [] prm with
  | None => (Panicked, prm)
  | Some (ports, prm') =>
      if Z.of_nat (length ports) =? count then (Returned (Some ports), prm')
      else (Returned None, foldl (fun prm p => releasePortInternal p prm) prm' ports)
  end.

(** The rest of [AllocatePorts] when consistent ports were not to be had; [make]
    of a negative capacity panics. *)
Definition allocate_new (now : Z) (sessionID callID : string) (count : Z) (prm : PortReallocationManager)
    : call (list Z) * PortReallocationManager :=
  if count <? 0 then (Panicked, prm)
  else
    match allocate_loop sessionID (Z.to_nat count) [] prm with
    | (None, prm) => (Failed, prm)
    | (Some ports, prm) =>
        let prm := recordAllocation now sessionID callID ports false prm in
        (Returned ports, if cluster prm then storeAllocation now sessionID callID ports prm else prm)
    end.

Definition AllocatePorts (now : Z) (sessionID callID : string) (count : Z) (prm : PortReallocationManager)
    : call (list Z) * PortReallocationManager :=
  match sessionPorts prm !! sessionID with
  | Some existing => (Returned existing, prm)
  | None =>
      if PreferConsistent (config prm) && cluster prm then
        if count <? 0 then (Panicked, prm)
        else
          match tryGetConsistentPorts sessionID count prm with
          | (Returned (Some ports), prm) => (Returned ports, recordAllocation now sessionID callID ports false prm)
          | (Returned None, prm) => allocate_new now sessionID callID count prm
          | (_, prm) => (Panicked, prm)
          end
      else allocate_new now sessionID callID count prm
  end.

Definition take_ports (sessionID : string) (ports : list Z) (prm : PortReallocationManager) : PortReallocationManager :=
  foldl (fun prm p => prm <| portOwners ::= <[p := sessionID]> |>) prm ports.

(** The fallback calls [AllocatePorts] with the lock held. *)
Definition AllocateConsistentPorts (now : Z) (sessionID callID : string) (preferredPorts : list Z) (prm : PortReallocationManager)
    : call (list Z) * PortReallocationManager :=
  let available := filter (fun p => isPortAvailable p prm = true) preferredPorts in
  if (0 <? length preferredPorts)%nat && (length available =? length preferredPorts)%nat then
    let prm := take_ports sessionID available prm in
    let prm := prm <| sessionPorts ::= <[sessionID := available]> |> in
    let prm := recordAllocation now sessionID callID available true prm in
    (Returned available, if cluster prm then storeAllocation now sessionID callID available prm else prm)
  else (Deadlocked, prm).

Definition ReleasePorts (sessionID : string) (prm : PortReallocationManager) : PortReallocationManager :=
  match sessionPorts prm !! sessionID with
  | None => prm
  | Some ports =>
      let prm := foldl (fun prm p => releasePortInternal p prm) prm ports in
      let prm := prm <| sessionPorts ::= delete sessionID |> <| allocations ::= delete sessionID |> in
      if cluster prm then removeAllocation sessionID prm else prm
  end.

(** [remote] is what redis holds for the session, [None] for an error. *)
Definition TakeoverPorts (now : Z) (sessionID originalNodeID : string) (remote : option PortAllocation) (prm : PortReallocationManager)
    : call (list Z) * PortReallocationManager :=
  if negb (cluster prm) then (Failed, prm)
  else
    match remote with
    | None => (Failed, prm)
    | Some allocation =>
        let availablePorts := filter (fun p => isPortAvailable p prm = true) (Ports allocation) in
        let '(final, prm) :=
          if (length availablePorts =? length (Ports allocation))%nat then (Some availablePorts, prm)
          else allocate_loop sessionID (length (Ports allocation)) [] prm in
        match final with
        | None => (Failed, prm)
        | Some finalPorts =>
            let prm := take_ports sessionID finalPorts prm in
            let prm := prm <| sessionPorts ::= <[sessionID := finalPorts]> |>
                           <| allocations ::= <[sessionID := new_allocation now sessionID (CallID allocation) finalPorts true originalNodeID prm]> |> in
            (Returned finalPorts, storeAllocation now sessionID (CallID allocation) finalPorts prm)
        end
    end.

Definition GetSessionPorts (sessionID : string) (prm : PortReallocationManager) : list Z := default [] (sessionPorts prm !! sessionID).

Definition renew (now : Z) (prm : PortReallocationManager) (a : PortAllocation) : PortAllocation :=
  mkAllocation (SessionID a) (CallID a) (NodeID a) (Ports a) (AllocatedAt a) (Time_Add now (AllocationTTL (config prm))) now
    (IsFailover a) (OriginalNode a).

(** One run of the renewal ticker; [ids] is the order of the map's walk. *)
Definition renewAllocations (now : Z) (ids : list string) (prm : PortReallocationManager) : PortReallocationManager :=
  if negb (cluster prm) then prm
  else
    prm <| allocations ::= fmap (renew now prm) |>
        <| redis ::= fun l => l ++ omap (fun id => a ← allocations prm !! id; Some (RSet (RedisPrefix (config prm) +:+ id) (renew now prm a))) ids |>.

Definition expire (now : Z) (prm : PortReallocationManager) (sessionID : string) : PortReallocationManager :=
  match allocations prm !! sessionID with
  | None => prm
  | Some a =>
      if After now (ExpiresAt a)
      then foldl (fun prm p => releasePortInternal p prm) prm (Ports a) <| sessionPorts ::= delete sessionID |> <| allocations ::= delete sessionID |>
      else prm
  end.

(** One run of the cleanup ticker, in the order [ids] of the map's walk. *)
Definition cleanupExpired (now : Z) (ids : list string) (prm : PortReallocationManager) : PortReallocationManager :=
  foldl (expire now) prm ids.

Record PortAllocationStats := mkStats {
  TotalSessions : Z; TotalPorts : Z; FailoverCount : Z; AvailablePorts : Z; st_PortRangeLow : Z; st_PortRangeHigh : Z }.
Definition GetStats (prm : PortReallocationManager) : PortAllocationStats :=
  mkStats (Z.of_nat (size (sessionPorts prm))) (Z.of_nat (size (portOwners prm)))
    (Z.of_nat (size (filter (fun kv => IsFailover kv.2 = true) (allocations prm))))
    (portRange prm - Z.of_nat (size (portOwners prm))) (PortRangeLow (config prm)) (PortRangeHigh (config prm)).

Example hash_ex : hashSessionPort "ab" 1 = 97 * 31 + 98 + 17.
Proof. vm_compute. reflexivity. Qed.
Example allocate_ex :
  (AllocatePorts 0 "s" "c" 2 (NewPortReallocationManager "n" false (Some (mkConfig "ports:" 10 14 5 1 3 true 4)))).1 = Returned [13; 10].
Proof. vm_compute. reflexivity. Qed.

(** ** Lemmas: taking and giving back *)

Definition own (sid : string) (ports : list Z) (m : gmap Z string) : gmap Z string := foldl (fun m p => <[p := sid]> m) m ports.
Definition disown (ports : list Z) (m : gmap Z string) : gmap Z string := foldl (fun m p => delete p m) m ports.
Definition with_owners (m : gmap Z string) (prm : PortReallocationManager) : PortReallocationManager := prm <| portOwners := m |>.

Lemma own_lookup sid ports m p : own sid ports m !! p = if decide (p ∈ ports) then Some sid else m !! p.
Proof.
  revert m. induction ports as [|q ports IH]; intros m; [done|]. unfold own in *. cbn [foldl]. rewrite IH.
  destruct (decide (p ∈ ports)) as [Hp|Hp].
  - by rewrite decide_True by (by right).
  - destruct (decide (p = q)) as [->|Hne].
    + rewrite decide_True by (by left). apply lookup_insert_eq.
    + rewrite decide_False by (rewrite elem_of_cons; tauto). by rewrite lookup_insert_ne.
Qed.

Lemma disown_lookup ports m p : disown ports m !! p = if decide (p ∈ ports) then None else m !! p.
Proof.
  revert m. induction ports as [|q ports IH]; intros m; [done|]. unfold disown in *. cbn [foldl]. rewrite IH.
  destruct (decide (p ∈ ports)) as [Hp|Hp].
  - by rewrite decide_True by (by right).
  - destruct (decide (p = q)) as [->|Hne].
    + rewrite decide_True by (by left). apply lookup_delete_eq.
    + rewrite decide_False by (rewrite elem_of_cons; tauto). by rewrite lookup_delete_ne.
Qed.

Lemma disown_own sid ports m : (forall p, p ∈ ports -> m !! p = None) -> disown ports (own sid ports m) = m.
Proof.
  intros H. apply map_eq. intros p. rewrite disown_lookup, own_lookup. destruct (decide (p ∈ ports)); [|done]. by rewrite H.
Qed.

Lemma own_snoc sid ports p m : own sid (ports ++ [p]) m = <[p := sid]> (own sid ports m).
Proof. unfold own. by rewrite foldl_app. Qed.

Lemma release_all ports prm : foldl (fun prm p => releasePortInternal p prm) prm ports = with_owners (disown ports (portOwners prm)) prm.
Proof.
  revert prm. induction ports as [|p ports IH]; intros prm; [by destruct prm|]. cbn [foldl]. rewrite IH. by destruct prm.
Qed.

Lemma take_ports_owners sid ports prm : take_ports sid ports prm = with_owners (own sid ports (portOwners prm)) prm.
Proof.
  unfold take_ports. revert prm. induction ports as [|p ports IH]; intros prm; [by destruct prm|]. cbn [foldl]. rewrite IH. by destruct prm.
Qed.

Definition in_range (prm : PortReallocationManager) (p : Z) : Prop := PortRangeLow (config prm) <= p <= PortRangeHigh (config prm).

Lemma isPortAvailable_true p prm : isPortAvailable p prm = true <-> in_range prm p /\ portOwners prm !! p = None.
Proof.
  unfold isPortAvailable, in_range. destruct (Z.ltb_spec p (PortRangeLow (config prm))); [cbn; split; [done|lia]|].
  rewrite Z.gtb_ltb. destruct (Z.ltb_spec (PortRangeHigh (config prm)) p); [cbn; split; [done|lia]|]. cbn [orb].
  destruct (portOwners prm !! p); split; [done|by intros [_ ?]|intros _; split; [lia|done]|done].
Qed.

Lemma scan_ports_available hash i n prm p : scan_ports hash i n prm = Some p -> isPortAvailable p prm = true.
Proof. revert i. induction n as [|n IH]; intros i; cbn; [done|]. case_match eqn:E; [by intros [= <-]|apply IH]. Qed.

Lemma allocatePort_spec sid prm p prm' : allocatePort sid prm = Some (p, prm') ->
  isPortAvailable p prm = true /\ prm' = with_owners (<[p := sid]> (portOwners prm)) prm.
Proof.
  unfold allocatePort. destruct (retry_scan _ _ _ _) as [q|] eqn:E; [|done]. intros [= <- <-]. split; [|by destruct prm].
  revert E. generalize 0 at 1. induction (Z.to_nat (MaxRetries (config prm))) as [|n IH]; intros r; cbn; [done|].
  destruct (scan_ports _ _ _ _) eqn:Es; [intros [= <-]; by eapply scan_ports_available|apply IH].
Qed.

(** The ports a loop has taken on top of what [prm] owned. *)
Record taken (sid : string) (ports : list Z) (prm prm' : PortReallocationManager) : Prop := {
  tk_state : prm' = with_owners (own sid ports (portOwners prm)) prm;
  tk_nodup : NoDup ports;
  tk_free p : p ∈ ports -> in_range prm p /\ portOwners prm !! p = None
}.

Lemma taken_nil sid prm : taken sid [] prm prm.
Proof. split; [by destruct prm|constructor|]. by intros p ?%not_elem_of_nil. Qed.

Lemma taken_snoc sid ports p prm prm' : taken sid ports prm prm' -> isPortAvailable p prm' = true ->
  taken sid (ports ++ [p]) prm (with_owners (<[p := sid]> (portOwners prm')) prm').
Proof.
  intros [-> Hn Hf] [Hr Ho]%isPortAvailable_true. cbn in Ho. rewrite own_lookup in Ho. destruct (decide (p ∈ ports)) as [|Hp]; [done|]. split.
  - cbn. rewrite own_snoc. by destruct prm.
  - apply NoDup_app. split; [done|]. split; [by intros x Hx ->%list_elem_of_singleton|apply NoDup_singleton].
  - intros q [Hq| ->%list_elem_of_singleton]%elem_of_app; [by apply Hf|]. split; [exact Hr|done].
Qed.

Lemma taken_release sid ports prm prm' : taken sid ports prm prm' -> foldl (fun prm p => releasePortInternal p prm) prm' ports = prm.
Proof.
  intros [-> _ Hf]. rewrite release_all. cbn. rewrite disown_own by (intros p Hp; by apply Hf). by destruct prm.
Qed.

Lemma allocate_loop_taken sid count : forall ports prm prm', taken sid ports prm prm' ->
  match allocate_loop sid count ports prm' with
  | (Some ports', prm'') => taken sid ports' prm prm'' /\ length ports' = (length ports + count)%nat
  | (None, prm'') => prm'' = prm
  end.
Proof.
  induction count as [|count IH]; intros ports prm prm' Ht; cbn [allocate_loop]; [split; [done|lia]|].
  destruct (allocatePort sid prm') as [[p prm'']|] eqn:E.
  - apply allocatePort_spec in E as [Ha ->]. pose proof (IH _ _ _ (taken_snoc _ _ _ _ _ Ht Ha)) as H.
    destruct (allocate_loop _ _ _ _) as [[ports'|] prm3]; [|done]. destruct H as [H1 H2]. rewrite length_app in H2. cbn in H2. split; [done|lia].
  - by eapply taken_release.
Qed.

Lemma consistent_loop_spec sid hash n : forall i ports prm prm', taken sid ports prm prm' ->
  match consistent_loop sid hash i n ports prm' with
  | Some (ports', prm'') => taken sid ports' prm prm''
  | None => True
  end.
Proof.
  induction n as [|n IH]; intros i ports prm prm' Ht; cbn [consistent_loop]; [done|]. destruct (portRange prm' =? 0); [done|].
  destruct (isPortAvailable _ prm') eqn:Ea; [|by apply IH]. pose proof (taken_snoc _ _ _ _ _ Ht Ea) as Ht'.
  destruct prm'. by apply IH.
Qed.

(** ** The invariant *)

(** Ports that were free and are now owned, a port perhaps named twice. *)
Record took (sid : string) (ports : list Z) (prm prm' : PortReallocationManager) : Prop := {
  to_state : prm' = with_owners (own sid ports (portOwners prm)) prm;
  to_free p : p ∈ ports -> in_range prm p /\ portOwners prm !! p = None
}.

Lemma taken_took sid ports prm prm' : taken sid ports prm prm' -> took sid ports prm prm'.
Proof. by intros [H1 _ H3]. Qed.

(** The ports of a session are in the range and owned by it; they are distinct
    as far as [distinct] says that the lists callers named are. *)
Record owners_ok (distinct : Prop) (prm : PortReallocationManager) : Prop := {
  oo_ports sid ps : sessionPorts prm !! sid = Some ps ->
    (distinct -> NoDup ps) /\ forall p, p ∈ ps -> in_range prm p /\ portOwners prm !! p = Some sid;
  oo_alloc sid : Ports <$> allocations prm !! sid = sessionPorts prm !! sid
}.

(** Recording ports that were free and are now taken. *)
Lemma record_ok d sid ports prm prm' a : owners_ok d prm -> took sid ports prm prm' -> (d -> NoDup ports) -> Ports a = ports ->
  owners_ok d (prm' <| sessionPorts ::= <[sid := ports]> |> <| allocations ::= <[sid := a]> |>).
Proof.
  intros [H2 H3] [-> Hf] Hn Ha. split; cbn.
  - intros s ps. destruct (decide (s = sid)) as [->|Hne].
    + rewrite lookup_insert_eq. intros [= <-]. split; [done|]. intros p Hp. rewrite own_lookup, decide_True by done. split; [by apply Hf|done].
    + rewrite lookup_insert_ne by done. intros Hps. destruct (H2 s ps Hps) as [Hnd Hin]. split; [done|]. intros p Hp. destruct (Hin p Hp) as [Hr Ho].
      split; [exact Hr|]. rewrite own_lookup. destruct (decide (p ∈ ports)) as [Hq|]; [|done]. destruct (Hf p Hq). congruence.
  - intros s. destruct (decide (s = sid)) as [->|Hne].
    + rewrite !lookup_insert_eq. cbn. by rewrite Ha.
    + rewrite !lookup_insert_ne by done. apply H3.
Qed.

(** As the loops that look for ports take them. *)
Lemma record_taken d sid ports prm prm' a : owners_ok d prm -> taken sid ports prm prm' -> Ports a = ports ->
  owners_ok d (prm' <| sessionPorts ::= <[sid := ports]> |> <| allocations ::= <[sid := a]> |>).
Proof. intros Hok Ht Ha. apply (record_ok d sid ports prm); [done|by apply taken_took|by intros _; destruct Ht|done]. Qed.

(** What redis is told does not matter. *)
Lemma redis_ok d f prm : owners_ok d prm -> owners_ok d (prm <| redis ::= f |>).
Proof. intros [H1 H2]. by split. Qed.

Lemma allocate_new_ok d now sid cid count prm : owners_ok d prm -> owners_ok d (allocate_new now sid cid count prm).2.
Proof.
  intros Hok. unfold allocate_new. destruct (count <? 0); [done|]. pose proof (allocate_loop_taken sid (Z.to_nat count) [] prm prm (taken_nil _ _)) as H.
  destruct (allocate_loop _ _ _ _) as [[ports|] prm']; cbn [snd]; [|by subst].
  destruct H as [Ht _]. unfold recordAllocation. match goal with |- context [new_allocation ?a ?b ?c ?d ?e ?f ?g] => pose proof (record_taken _ sid ports prm prm' (new_allocation a b c d e f g) Hok Ht eq_refl) as Hr end.
  destruct (cluster _); [by apply redis_ok|done].
Qed.

Lemma AllocatePorts_ok d now sid cid count prm : owners_ok d prm -> owners_ok d (AllocatePorts now sid cid count prm).2.
Proof.
  intros Hok. unfold AllocatePorts. destruct (sessionPorts prm !! sid) eqn:Hs; [done|]. destruct (_ && _); [|by apply allocate_new_ok].
  destruct (count <? 0); [done|]. unfold tryGetConsistentPorts.
  pose proof (consistent_loop_spec sid (hashSessionPort sid 0) (Z.to_nat count) 0 [] prm prm (taken_nil _ _)) as Ht.
  destruct (consistent_loop _ _ _ _ _ _) as [[ports prm']|]; [|done]. destruct (_ =? count).
  - cbn [snd]. by eapply record_taken.
  - erewrite taken_release by done. by apply allocate_new_ok.
Qed.

(** Dropping a session with its ports. *)
Lemma drop_ok d sid ports prm : owners_ok d prm -> sessionPorts prm !! sid = Some ports ->
  owners_ok d (with_owners (disown ports (portOwners prm)) prm <| sessionPorts ::= delete sid |> <| allocations ::= delete sid |>).
Proof.
  intros [H2 H3] Hs. split; cbn.
  - intros s ps [Hne Hps]%lookup_delete_Some. destruct (H2 s ps Hps) as [Hnd Hin]. split; [done|]. intros p Hp. destruct (Hin p Hp) as [Hr Ho].
    split; [exact Hr|]. rewrite disown_lookup. destruct (decide (p ∈ ports)) as [Hq|]; [|done]. destruct (H2 sid ports Hs) as [_ Hin']. destruct (Hin' p Hq). congruence.
  - intros s. destruct (decide (s = sid)) as [->|]; [by rewrite !lookup_delete_eq|]. rewrite !lookup_delete_ne by done. apply H3.
Qed.

Lemma ReleasePorts_ok d sid prm : owners_ok d prm -> owners_ok d (ReleasePorts sid prm).
Proof.
  intros Hok. unfold ReleasePorts. destruct (sessionPorts prm !! sid) as [ports|] eqn:Hs; [|done]. rewrite release_all.
  pose proof (drop_ok d sid ports prm Hok Hs) as H. destruct (cluster _); [by apply redis_ok|done].
Qed.

Lemma expire_ok d now sid prm : owners_ok d prm -> owners_ok d (expire now prm sid).
Proof.
  intros Hok. unfold expire. destruct (allocations prm !! sid) as [a|] eqn:Ha; [|done]. destruct (After now (ExpiresAt a)); [|done].
  rewrite release_all. apply drop_ok; [done|]. rewrite <- (oo_alloc _ prm Hok), Ha. done.
Qed.

Lemma renewAllocations_ok d now ids prm : owners_ok d prm -> owners_ok d (renewAllocations now ids prm).
Proof.
  intros Hok. unfold renewAllocations. destruct (negb (cluster prm)); [done|]. apply redis_ok. destruct Hok as [H2 H3]. split; [done|].
  intros s. cbn. rewrite lookup_fmap, <- H3. by destruct (allocations prm !! s).
Qed.

Lemma filter_all {A} (P : A -> Prop) `{!forall x, Decision (P x)} l : length (filter P l) = length l -> filter P l = l /\ forall x, x ∈ l -> P x.
Proof.
  induction l as [|x l IH]; [by split; [|intros x ?%not_elem_of_nil]|]. rewrite filter_cons. pose proof (length_filter P l). destruct (decide (P x)) as [Hx|]; cbn; intros E; [|lia].
  destruct IH as [IH1 IH2]; [lia|]. rewrite IH1. split; [done|]. intros y [->|Hy]%elem_of_cons; [done|by apply IH2].
Qed.

Lemma took_all sid ports prm : (forall p, p ∈ ports -> isPortAvailable p prm = true) -> took sid ports prm (take_ports sid ports prm).
Proof. intros Ha. split; [apply take_ports_owners|]. intros p Hp. by apply isPortAvailable_true, Ha. Qed.

Lemma taken_again sid ports prm prm' : taken sid ports prm prm' -> taken sid ports prm (take_ports sid ports prm').
Proof.
  intros [-> Hn Hf]. split; [|done|done]. rewrite take_ports_owners.
  assert (E : own sid ports (own sid ports (portOwners prm)) = own sid ports (portOwners prm))
    by (apply map_eq; intros p; rewrite !own_lookup; by case_decide).
  cbn. rewrite E. by destruct prm.
Qed.

Lemma AllocateConsistentPorts_ok d now sid cid ports prm : owners_ok d prm -> (d -> NoDup ports) ->
  owners_ok d (AllocateConsistentPorts now sid cid ports prm).2.
Proof.
  intros Hok Hn. unfold AllocateConsistentPorts. destruct (_ && _) eqn:E; [|done]. apply andb_true_iff in E as [_ E%Nat.eqb_eq].
  apply filter_all in E as [E Ha]. rewrite !E. cbn [snd]. pose proof (took_all sid ports prm Ha) as Ht.
  pose proof (record_ok d sid ports prm _ (new_allocation now sid cid ports true "" (take_ports sid ports prm)) Hok Ht Hn eq_refl) as Hr.
  assert (Hr' : owners_ok d (take_ports sid ports prm <| sessionPorts ::= <[sid := ports]> |> <| sessionPorts ::= <[sid := ports]> |>
    <| allocations ::= <[sid := new_allocation now sid cid ports true "" (take_ports sid ports prm)]> |>)).
  { destruct Hr as [H1 H2]. split; cbn in *; rewrite !insert_insert_eq in *; done. }
  unfold recordAllocation. destruct (cluster _); [by apply redis_ok|done].
Qed.

Lemma TakeoverPorts_ok d now sid node remote prm : owners_ok d prm -> (d -> NoDup (default [] (Ports <$> remote))) ->
  owners_ok d (TakeoverPorts now sid node remote prm).2.
Proof.
  intros Hok Hn. unfold TakeoverPorts. destruct (negb _); [done|]. destruct remote as [a|]; [|done]. cbn in Hn.
  destruct (Nat.eqb_spec (length (filter (fun p => isPortAvailable p prm = true) (Ports a))) (length (Ports a))) as [E|_].
  - apply filter_all in E as [E Ha]. rewrite E. cbn [snd]. apply redis_ok. by eapply record_ok; [|apply took_all|..].
  - pose proof (allocate_loop_taken sid (length (Ports a)) [] prm prm (taken_nil _ _)) as H.
    destruct (allocate_loop _ _ _ _) as [[ports|] prm']; cbn [snd]; [|by subst].
    destruct H as [Ht _]. apply redis_ok. by eapply record_taken; [|apply taken_again|].
Qed.

(** ** What can be allocated *)

(** The ports [allocatePort] looks at, those not owned: the last of the range is not among them. *)
Definition free_ports (prm : PortReallocationManager) : list Z :=
  filter (fun p => portOwners prm !! p = None) (seqZ (PortRangeLow (config prm)) (portRange prm)).

Lemma elem_free prm p : p ∈ free_ports prm <-> portOwners prm !! p = None /\ PortRangeLow (config prm) <= p < PortRangeHigh (config prm).
Proof. unfold free_ports. rewrite list_elem_of_filter, elem_of_seqZ. unfold portRange. split; intros []; split; (done || lia). Qed.

Lemma NoDup_free prm : NoDup (free_ports prm).
Proof. apply NoDup_filter, NoDup_seqZ. Qed.

Lemma hash_nonneg sid salt : 0 <= hashSessionPort sid salt.
Proof. unfold hashSessionPort. apply Z.land_nonneg. right. lia. Qed.

Lemma candidate_bounds low r x : 0 < r -> 0 <= x -> low <= low + Z.rem x r < low + r.
Proof. intros Hr Hx. pose proof (Z.rem_bound_pos x r Hx Hr). lia. Qed.

Lemma scan_ports_lt hash n prm : 0 <= hash -> forall i p, 0 <= i -> 0 < portRange prm -> scan_ports hash i n prm = Some p -> p < PortRangeHigh (config prm).
Proof.
  intros Hh. induction n as [|n IH]; intros i p Hi Hr; cbn; [done|]. case_match; [|apply IH; lia]. intros [= <-].
  pose proof (candidate_bounds (PortRangeLow (config prm)) (portRange prm) (hash + i) Hr ltac:(lia)). unfold portRange in *. lia.
Qed.

Lemma scan_ports_none hash i n prm j : scan_ports hash i n prm = None -> i <= j < i + Z.of_nat n ->
  isPortAvailable (PortRangeLow (config prm) + Z.rem (hash + j) (portRange prm)) prm = false.
Proof.
  revert i. induction n as [|n IH]; intros i; cbn [scan_ports]; [lia|]. case_match eqn:E; [done|]. intros H Hj.
  destruct (decide (j = i)) as [->|]; [done|]. apply (IH (i + 1)); [done|lia].
Qed.

(** A scan passes every port of the range but the last. *)
Lemma scan_ports_complete hash prm p : 0 <= hash -> p ∈ free_ports prm -> scan_ports hash 0 (Z.to_nat (portRange prm)) prm <> None.
Proof.
  intros Hh [Ho Hb]%elem_free E. assert (Hr : 0 < portRange prm) by (unfold portRange; lia).
  pose proof (scan_ports_none hash 0 _ prm ((p - PortRangeLow (config prm) - hash) `mod` portRange prm) E) as H.
  rewrite Z2Nat.id in H by lia. specialize (H ltac:(pose proof (Z.mod_pos_bound (p - PortRangeLow (config prm) - hash) _ Hr); lia)).
  rewrite Z.rem_mod_nonneg in H by (pose proof (Z.mod_pos_bound (p - PortRangeLow (config prm) - hash) _ Hr); lia).
  rewrite Zplus_mod_idemp_r in H. replace (hash + (p - PortRangeLow (config prm) - hash)) with (p - PortRangeLow (config prm)) in H by lia.
  rewrite Z.mod_small in H by (unfold portRange; lia). replace (PortRangeLow (config prm) + (p - PortRangeLow (config prm))) with p in H by lia.
  rewrite (proj2 (isPortAvailable_true p prm)) in H; [done|]. split; [unfold in_range; lia|done].
Qed.

Lemma allocatePort_complete sid prm : 0 < MaxRetries (config prm) -> allocatePort sid prm = None -> free_ports prm = [].
Proof.
  intros Hm. unfold allocatePort. destruct (Z.to_nat (MaxRetries (config prm))) eqn:E; [lia|]. cbn [retry_scan].
  destruct (scan_ports _ _ _ _) eqn:Es; [done|]. intros _. destruct (free_ports prm) as [|p l] eqn:Ef; [done|]. exfalso.
  apply (scan_ports_complete (hashSessionPort sid 0) prm p); [apply hash_nonneg|rewrite Ef; left|done].
Qed.

Lemma allocatePort_lt sid prm p prm' : 0 < portRange prm -> allocatePort sid prm = Some (p, prm') -> p < PortRangeHigh (config prm).
Proof.
  intros Hr. unfold allocatePort. destruct (retry_scan _ _ _ _) as [q|] eqn:E; [|done]. intros [= <- _].
  revert E. generalize 0 at 1. induction (Z.to_nat (MaxRetries (config prm))) as [|n IH]; intros r; cbn; [done|].
  destruct (scan_ports _ _ _ _) eqn:Es; [intros [= <-]; eapply scan_ports_lt; [apply hash_nonneg| |done|done]; lia|apply IH].
Qed.

Definition below_top (prm : PortReallocationManager) (ports : list Z) : Prop := Forall (fun p => p < PortRangeHigh (config prm)) ports.

Lemma below_top_snoc prm ports p : below_top prm ports -> p < PortRangeHigh (config prm) -> below_top prm (ports ++ [p]).
Proof. intros H Hp. apply Forall_app_2; [done|by constructor]. Qed.

(** New ports are free ones, so there are at most as many. *)
Lemma taken_le_free sid ports prm prm' : taken sid ports prm prm' -> below_top prm ports -> (length ports <= length (free_ports prm))%nat.
Proof.
  intros [_ Hn Hf] Hb. apply submseteq_length, NoDup_submseteq; [done|]. intros p Hp. destruct (Hf p Hp) as [Hr Ho]. apply elem_free. split; [done|].
  pose proof (proj1 (Forall_forall _ _) Hb p Hp). unfold in_range in Hr. cbn in *. lia.
Qed.

(** When nothing is free any more, what was taken is all there was. *)
Lemma exhausted_le sid ports prm prm' : taken sid ports prm prm' -> free_ports prm' = [] -> (length (free_ports prm) <= length ports)%nat.
Proof.
  intros [-> _ _] He. apply submseteq_length, NoDup_submseteq; [apply NoDup_free|]. intros p [Ho Hb]%elem_free. destruct (decide (p ∈ ports)) as [|Hp]; [done|].
  exfalso. assert (Hin : p ∈ free_ports (with_owners (own sid ports (portOwners prm)) prm)).
  { apply elem_free. cbn. rewrite own_lookup, decide_False by done. done. }
  rewrite He in Hin. by apply not_elem_of_nil in Hin.
Qed.

Lemma allocate_loop_exact sid count : forall ports prm prm', taken sid ports prm prm' -> below_top prm ports ->
  0 < portRange prm -> 0 < MaxRetries (config prm) ->
  match allocate_loop sid count ports prm' with
  | (Some ports', _) => below_top prm ports'
  | (None, _) => (length (free_ports prm) < length ports + count)%nat
  end.
Proof.
  induction count as [|count IH]; intros ports prm prm' Ht Hb Hr Hm; cbn [allocate_loop]; [done|].
  assert (Hc : config prm' = config prm) by (by destruct Ht as [-> _ _]).
  destruct (allocatePort sid prm') as [[p prm'']|] eqn:E.
  - pose proof (allocatePort_lt _ _ _ _ ltac:(unfold portRange in *; by rewrite Hc) E) as Hp. rewrite Hc in Hp.
    apply allocatePort_spec in E as [Ha ->]. pose proof (IH _ _ _ (taken_snoc _ _ _ _ _ Ht Ha) (below_top_snoc _ _ _ Hb Hp) Hr Hm) as H.
    rewrite length_app in H. cbn in H. destruct (allocate_loop _ _ _ _) as [[ports'|] prm3]; [done|lia].
  - apply allocatePort_complete in E; [|by rewrite Hc]. pose proof (exhausted_le _ _ _ _ Ht E). lia.
Qed.

Lemma consistent_loop_exact sid hash n : 0 <= hash -> forall i ports prm prm', taken sid ports prm prm' -> below_top prm ports -> 0 < portRange prm -> 0 <= i ->
  exists ports' prm'', consistent_loop sid hash i n ports prm' = Some (ports', prm'') /\ below_top prm ports'.
Proof.
  intros Hh. induction n as [|n IH]; intros i ports prm prm' Ht Hb Hr Hi; cbn [consistent_loop]; [by do 2 eexists|].
  assert (Hc : config prm' = config prm) by (by destruct Ht as [-> _ _]). unfold portRange at 1. rewrite Hc. fold (portRange prm).
  destruct (Z.eqb_spec (portRange prm) 0); [lia|].
  destruct (isPortAvailable _ prm') eqn:Ea; [|apply IH; (done || lia)]. pose proof (taken_snoc _ _ _ _ _ Ht Ea) as Ht'.
  destruct prm'. apply IH; [exact Ht'| |done|lia]. apply below_top_snoc; [done|].
  cbn in Hc. subst config0. unfold portRange. cbn.
  pose proof (candidate_bounds (PortRangeLow (config prm)) (portRange prm) (hash + i * 2) Hr ltac:(lia)). unfold portRange in *. lia.
Qed.

Lemma allocate_new_exact now sid cid count prm : 0 <= count -> 0 < portRange prm -> 0 < MaxRetries (config prm) ->
  match allocate_new now sid cid count prm with
  | (Returned ports, prm') => length ports = Z.to_nat count /\ count <= Z.of_nat (length (free_ports prm)) /\ sessionPorts prm' !! sid = Some ports
  | (Failed, prm') => Z.of_nat (length (free_ports prm)) < count /\ prm' = prm
  | _ => False
  end.
Proof.
  intros Hc Hr Hm. unfold allocate_new. destruct (Z.ltb_spec count 0); [lia|].
  pose proof (allocate_loop_taken sid (Z.to_nat count) [] prm prm (taken_nil _ _)) as H1.
  pose proof (allocate_loop_exact sid (Z.to_nat count) [] prm prm (taken_nil _ _) (List.Forall_nil _) Hr Hm) as H2.
  destruct (allocate_loop _ _ _ _) as [[ports|] prm']; [|cbn in H2; split; [lia|done]]. destruct H1 as [Ht Hl].
  pose proof (taken_le_free _ _ _ _ Ht H2). cbn in Hl. split; [done|]. split; [lia|].
  destruct (cluster _); cbn; apply lookup_insert_eq.
Qed.

(** A caller that asks for ports of a session without any. *)
Section Allocation.
Context (now : Z) (sid cid : string) (count : Z) (prm : PortReallocationManager).
Hypothesis fresh : sessionPorts prm !! sid = None.
Hypothesis count_nonneg : 0 <= count.
Hypothesis range_pos : 0 < portRange prm.
Hypothesis retries_pos : 0 < MaxRetries (config prm).

(** AllocatePorts for a session without ports is exact: it returns as many
    ports as were asked for, and records them, when that many ports of the range
    but its last are free, and fails with the state as it was otherwise; it never
    panics, whether the deterministic ports can be had or not. *)
Theorem AllocatePorts_exact :
  match AllocatePorts now sid cid count prm with
  | (Returned ports, prm') => length ports = Z.to_nat count /\ count <= Z.of_nat (length (free_ports prm)) /\ GetSessionPorts sid prm' = ports
  | (Failed, prm') => Z.of_nat (length (free_ports prm)) < count /\ prm' = prm
  | _ => False
  end.
Proof using All.
  pose proof (allocate_new_exact now sid cid count prm count_nonneg range_pos retries_pos) as Hnew.
  assert (Hnew' : match allocate_new now sid cid count prm with
    | (Returned ports, prm') => length ports = Z.to_nat count /\ count <= Z.of_nat (length (free_ports prm)) /\ GetSessionPorts sid prm' = ports
    | (Failed, prm') => Z.of_nat (length (free_ports prm)) < count /\ prm' = prm
    | _ => False end).
  { destruct (allocate_new _ _ _ _ _) as [[] ?]; try done. destruct Hnew as (? & ? & E). unfold GetSessionPorts. by rewrite E. }
  unfold AllocatePorts. rewrite fresh. destruct (_ && _); [|done]. destruct (Z.ltb_spec count 0); [lia|]. unfold tryGetConsistentPorts.
  pose proof (consistent_loop_spec sid (hashSessionPort sid 0) (Z.to_nat count) 0 [] prm prm (taken_nil _ _)) as Ht.
  destruct (consistent_loop_exact sid (hashSessionPort sid 0) (Z.to_nat count) (hash_nonneg _ _) 0 [] prm prm (taken_nil _ _) (List.Forall_nil _) range_pos ltac:(lia))
    as (ports & prm' & E & Hb). rewrite E in *. destruct (Z.eqb_spec (Z.of_nat (length ports)) count).
  - pose proof (taken_le_free _ _ _ _ Ht Hb). split; [lia|]. split; [lia|]. unfold GetSessionPorts. cbn. by rewrite lookup_insert_eq.
  - by erewrite taken_release by done.
Qed.
End Allocation.

(** ** The steps of a manager *)

(** What happens to a manager, one call or tick at a time. *)
Inductive prm_op :=
| OAllocate (now : Z) (sid cid : string) (count : Z)
| OConsistent (now : Z) (sid cid : string) (preferredPorts : list Z)
| ORelease (sid : string)
| OTakeover (now : Z) (sid node : string) (remote : option PortAllocation)
| ORenew (now : Z) (ids : list string)
| OCleanup (now : Z) (ids : list string).

Definition papply (prm : PortReallocationManager) (o : prm_op) : PortReallocationManager :=
  match o with
  | OAllocate now sid cid count => (AllocatePorts now sid cid count prm).2
  | OConsistent now sid cid ports => (AllocateConsistentPorts now sid cid ports prm).2
  | ORelease sid => ReleasePorts sid prm
  | OTakeover now sid node remote => (TakeoverPorts now sid node remote prm).2
  | ORenew now ids => renewAllocations now ids prm
  | OCleanup now ids => cleanupExpired now ids prm
  end.
Definition prun (prm : PortReallocationManager) (ops : list prm_op) : PortReallocationManager := foldl papply prm ops.

(** The ports an operation asks for by number. *)
Definition named_ports (o : prm_op) : list Z :=
  match o with
  | OConsistent _ _ _ ports => ports
  | OTakeover _ _ _ remote => default [] (Ports <$> remote)
  | _ => []
  end.

Lemma papply_ok d prm o : (d -> NoDup (named_ports o)) -> owners_ok d prm -> owners_ok d (papply prm o).
Proof.
  intros Hn Hok. destruct o as [| | | | |now ids]; cbn [papply];
    [by apply AllocatePorts_ok|by apply AllocateConsistentPorts_ok|by apply ReleasePorts_ok|by apply TakeoverPorts_ok|by apply renewAllocations_ok|].
  unfold cleanupExpired. revert prm Hok. induction ids as [|id ids IH]; intros prm Hok; [done|]. by apply IH, expire_ok.
Qed.

Definition cfg_of (prm : PortReallocationManager) : PortReallocationConfig * bool := (config prm, cluster prm).

Lemma with_owners_cfg m prm : cfg_of (with_owners m prm) = cfg_of prm.
Proof. done. Qed.

Lemma allocate_loop_cfg sid count : forall ports prm, cfg_of (allocate_loop sid count ports prm).2 = cfg_of prm.
Proof.
  induction count as [|count IH]; intros ports prm; cbn [allocate_loop]; [done|]. destruct (allocatePort sid prm) as [[p prm']|] eqn:E.
  - apply allocatePort_spec in E as [_ ->]. by rewrite IH.
  - cbn [snd]. by rewrite release_all.
Qed.

Lemma consistent_loop_cfg sid hash n : forall i ports prm ports' prm', consistent_loop sid hash i n ports prm = Some (ports', prm') -> cfg_of prm' = cfg_of prm.
Proof.
  induction n as [|n IH]; intros i ports prm ports' prm'; cbn [consistent_loop]; [by intros [= _ <-]|]. destruct (_ =? _); [done|].
  destruct (isPortAvailable _ _); intros H%IH; done.
Qed.

Lemma allocate_new_cfg now sid cid count prm : cfg_of (allocate_new now sid cid count prm).2 = cfg_of prm.
Proof.
  unfold allocate_new. destruct (_ <? _); [done|]. pose proof (allocate_loop_cfg sid (Z.to_nat count) [] prm) as H.
  destruct (allocate_loop _ _ _ _) as [[]]; [|done]. cbn in *. by destruct (cluster p).
Qed.

Lemma expire_cfg now prm sid : cfg_of (expire now prm sid) = cfg_of prm.
Proof. unfold expire. destruct (_ !! _); [|done]. destruct (After _ _); [|done]. by rewrite release_all. Qed.

Lemma papply_cfg prm0 o : cfg_of (papply prm0 o) = cfg_of prm0.
Proof.
  destruct o as [now sid cid count|now sid cid ports|sid|now sid node remote|now ids|now ids]; cbn [papply].
  - unfold AllocatePorts. destruct (_ !! _); [done|]. destruct (_ && _); [|apply allocate_new_cfg]. destruct (_ <? _); [done|]. unfold tryGetConsistentPorts.
    destruct (consistent_loop _ _ _ _ _ _) as [[ports prm1]|] eqn:E; [|done]. apply consistent_loop_cfg in E. destruct (_ =? _); [done|].
    rewrite allocate_new_cfg, release_all. done.
  - unfold AllocateConsistentPorts. destruct (_ && _); [|done]. rewrite take_ports_owners. cbn. by destruct (cluster prm0).
  - unfold ReleasePorts. destruct (_ !! _); [|done]. rewrite release_all. cbn. by destruct (cluster prm0).
  - unfold TakeoverPorts. destruct (negb _); [done|]. destruct remote; [|done]. destruct (_ =? _)%nat; [by rewrite take_ports_owners|].
    pose proof (allocate_loop_cfg sid (length (Ports p)) [] prm0) as Hc. destruct (allocate_loop _ _ _ _) as [[] prm1]; [|done]. by rewrite take_ports_owners.
  - unfold renewAllocations. by destruct (negb _).
  - unfold cleanupExpired. revert prm0. induction ids as [|id ids IH]; intros prm0; [done|]. cbn [foldl]. by rewrite IH, expire_cfg.
Qed.

Lemma prun_ok nid cl cfg ops :
  let prm := prun (NewPortReallocationManager nid cl cfg) ops in
  owners_ok (Forall (fun o => NoDup (named_ports o)) ops) prm /\ cfg_of prm = (default DefaultPortReallocationConfig cfg, cl).
Proof.
  cbv zeta. set (d := Forall _ _). assert (Forall (fun o => d -> NoDup (named_ports o)) ops) as Hd.
  { apply Forall_forall. intros o Ho H. unfold d in H. rewrite Forall_forall in H. auto. }
  assert (owners_ok d (NewPortReallocationManager nid cl cfg)) as Hok by (split; cbn; intros *; rewrite ?lookup_empty; done).
  change (default DefaultPortReallocationConfig cfg, cl) with (cfg_of (NewPortReallocationManager nid cl cfg)).
  clearbody d. generalize dependent (NewPortReallocationManager nid cl cfg). induction Hd as [|o ops Ho _ IH]; intros prm Hok; [done|].
  destruct (IH (papply prm o)) as [H1 H2]; [by apply papply_ok|]. cbn [prun foldl]. by rewrite papply_cfg in H2.
Qed.

(** C33: the ports of a session belong to it alone. After any allocations,
    allocations of preferred ports, takeovers, releases, renewals and cleanups,
    one after the other, the ports of a session lie in the configured range, are
    entered as owned by it and are among the ports of no other session; and they
    are distinct if every list of preferred or remote ports named a port once. *)
Theorem session_ports_exclusive nid cl cfg ops sid :
  let prm := prun (NewPortReallocationManager nid cl cfg) ops in
  (forall p, p ∈ GetSessionPorts sid prm ->
    PortRangeLow (default DefaultPortReallocationConfig cfg) <= p <= PortRangeHigh (default DefaultPortReallocationConfig cfg) /\
    portOwners prm !! p = Some sid /\
    forall sid', p ∈ GetSessionPorts sid' prm -> sid' = sid) /\
  (Forall (fun o => NoDup (named_ports o)) ops -> NoDup (GetSessionPorts sid prm)).
Proof.
  cbv zeta. destruct (prun_ok nid cl cfg ops) as [[H2 H3] [= Hc _]]. set (prm := prun _ _) in *. unfold GetSessionPorts.
  destruct (sessionPorts prm !! sid) as [ps|] eqn:E; cbn.
  - destruct (H2 sid ps E) as [Hn Hp]. split; [|done]. intros p Hin. destruct (Hp p Hin) as [Hr Ho]. unfold in_range in Hr. rewrite Hc in Hr. split; [done|]. split; [done|].
    intros s'. destruct (sessionPorts prm !! s') as [ps'|] eqn:E'; cbn; [|by intros ?%not_elem_of_nil]. intros Hin'. destruct (H2 s' ps' E') as [_ Hp'].
    destruct (Hp' p Hin'). congruence.
  - split; [by intros p ?%not_elem_of_nil|]. intros _. constructor.
Qed.

Lemma consistent_single now sid cid ports prm : ports <> [] -> (forall p, p ∈ ports -> isPortAvailable p prm = true) ->
  (AllocateConsistentPorts now sid cid ports prm).1 = Returned ports.
Proof.
  intros Hne Ha. unfold AllocateConsistentPorts.
  assert (E : filter (fun p => isPortAvailable p prm = true) ports = ports).
  { clear Hne. induction ports as [|p ports IH]; [done|]. rewrite filter_cons, decide_True by (apply Ha; left). f_equal. apply IH. intros q Hq. apply Ha. by right. }
  rewrite E, Nat.eqb_refl. by destruct ports.
Qed.

(** AllocateConsistentPorts never returns when a preferred port is taken or
    out of range, or none is given: its fallback locks a mutex the call holds. In
    every other case it returns the preferred ports. *)
Theorem consistent_allocation_deadlocks now sid cid preferred prm :
  (AllocateConsistentPorts now sid cid preferred prm).1 =
  if bool_decide (preferred <> []) && forallb (fun p => isPortAvailable p prm) preferred then Returned preferred else Deadlocked.
Proof.
  destruct (forallb _ _) eqn:E; [|rewrite andb_false_r].
  - destruct preferred as [|p preferred]; [done|]. rewrite bool_decide_true by done. apply consistent_single; [done|].
    intros q Hq. apply (proj1 (forallb_forall _ _) E), list_elem_of_In, Hq.
  - unfold AllocateConsistentPorts. destruct (length _ =? _)%nat eqn:El; [|by rewrite andb_false_r]. exfalso. apply Nat.eqb_eq, filter_all in El as [_ Ha].
    rewrite (proj2 (forallb_forall _ _)) in E; [done|]. intros q Hq. apply Ha, list_elem_of_In, Hq.
Qed.

Lemma cleanup_gone now ids prm sid : allocations prm !! sid = None -> sessionPorts prm !! sid = None ->
  allocations (cleanupExpired now ids prm) !! sid = None /\ sessionPorts (cleanupExpired now ids prm) !! sid = None.
Proof.
  unfold cleanupExpired. revert prm. induction ids as [|id ids IH]; intros prm Ha Hs; [done|]. cbn [foldl]. apply IH; unfold expire;
    (destruct (allocations prm !! id); [|done]; destruct (After _ _); [|done]; rewrite release_all; cbn; apply lookup_delete_None; by right).
Qed.

Lemma expire_other now prm id sid : id <> sid ->
  allocations (expire now prm id) !! sid = allocations prm !! sid /\ sessionPorts (expire now prm id) !! sid = sessionPorts prm !! sid.
Proof.
  intros Hne. unfold expire. destruct (allocations prm !! id); [|done]. destruct (After _ _); [|done]. rewrite release_all. cbn. by rewrite !lookup_delete_ne.
Qed.

(** The ports of an expired session are free after the cleanup has met it. *)
Lemma cleanup_frees d now ids prm sid a : owners_ok d prm -> allocations prm !! sid = Some a -> After now (ExpiresAt a) = true -> sid ∈ ids ->
  GetSessionPorts sid (cleanupExpired now ids prm) = [] /\ forall p, p ∈ Ports a -> isPortAvailable p (cleanupExpired now ids prm) = true.
Proof.
  intros Hok Ha He. revert prm Hok Ha. induction ids as [|id ids IH]; intros prm Hok Ha Hin; [by apply not_elem_of_nil in Hin|].
  change (cleanupExpired now (id :: ids) prm) with (cleanupExpired now ids (expire now prm id)). destruct (decide (id = sid)) as [->|Hne].
  2: { apply IH; [by apply expire_ok|by rewrite (proj1 (expire_other now prm id sid Hne))|]. apply elem_of_cons in Hin as [->|]; done. }
  assert (Hps : sessionPorts prm !! sid = Some (Ports a)) by (by rewrite <- (oo_alloc _ prm Hok), Ha).
  assert (E : expire now prm sid = with_owners (disown (Ports a) (portOwners prm)) prm <| sessionPorts ::= delete sid |> <| allocations ::= delete sid |>)
    by (unfold expire; by rewrite Ha, He, release_all).
  rewrite E. set (prm1 := with_owners _ prm <| sessionPorts ::= delete sid |> <| allocations ::= delete sid |>).
  destruct (cleanup_gone now ids prm1 sid) as [_ Hg]; [apply lookup_delete_eq|apply lookup_delete_eq|].
  split; [unfold GetSessionPorts; by rewrite Hg|]. intros p Hp. apply isPortAvailable_true.
  assert (Hf : in_range prm1 p /\ portOwners prm1 !! p = None).
  { split; [exact (proj1 (proj2 (oo_ports _ prm Hok _ _ Hps) p Hp))|]. cbn. by rewrite disown_lookup, decide_True. }
  clear IH Hin E Hg. revert Hf. clearbody prm1. unfold cleanupExpired. revert prm1. induction ids as [|i ids IHi]; intros prm1 Hf; [done|]. cbn [foldl]. apply IHi.
  unfold expire. destruct (allocations prm1 !! i) as [b|]; [|done]. destruct (After now (ExpiresAt b)); [|done]. rewrite release_all. destruct Hf as [Hf1 Hf2]. split; [exact Hf1|].
  change (disown (Ports b) (portOwners prm1) !! p = None). rewrite disown_lookup. by case_decide.
Qed.

(** Without a cluster nothing renews an allocation: a session that is still
    running loses its ports to the first cleanup after AllocationTTL, in spite of
    every renewal tick in between, and each of them may go to another session. *)
Theorem live_ports_expire nid cfg ops prm now sid cid count ports prm' ticks now' ids :
  prm = prun (NewPortReallocationManager nid false cfg) ops -> sessionPorts prm !! sid = None ->
  AllocatePorts now sid cid count prm = (Returned ports, prm') ->
  now + AllocationTTL (default DefaultPortReallocationConfig cfg) < now' -> sid ∈ ids ->
  let prm'' := cleanupExpired now' ids (foldl (fun prm t => renewAllocations t [sid] prm) prm' ticks) in
  GetSessionPorts sid prm'' = [] /\ forall p, p ∈ ports -> isPortAvailable p prm'' = true.
Proof.
  intros Hr Hs E Hn Hin prm''. pose proof (prun_ok nid false cfg ops) as [Hok Hc]. rewrite <- Hr in *. clear Hr.
  pose proof (AllocatePorts_ok _ now sid cid count prm Hok) as Hok'. pose proof (papply_cfg prm (OAllocate now sid cid count)) as Hc'. cbn [papply] in Hc'. rewrite E in Hok', Hc'. cbn [snd] in *.
  rewrite Hc in Hc'. injection Hc' as Hc1 Hc2.
  assert (Et : foldl (fun prm t => renewAllocations t [sid] prm) prm' ticks = prm').
  { induction ticks as [|t ticks IH]; [done|]. cbn [foldl]. unfold renewAllocations at 2. by rewrite Hc2. }
  unfold prm''. rewrite Et. injection Hc as Hca Hcb. unfold AllocatePorts in E. rewrite Hs, Hcb, andb_false_r in E. unfold allocate_new in E. destruct (count <? 0); [done|].
  destruct (allocate_loop _ _ _ _) as [[ports0|] prm1] eqn:El; [|done].
  pose proof (allocate_loop_cfg sid (Z.to_nat count) [] prm) as Hl. rewrite El in Hl. cbn in Hl. injection Hl as Hl1 Hl2.
  assert (Hcr : cluster (recordAllocation now sid cid ports0 false prm1) = false) by (cbn; congruence). rewrite Hcr in E. injection E as -> <-.
  eapply (cleanup_frees _ now' ids _ sid (new_allocation now sid cid ports false "" prm1)); [exact Hok'|cbn; apply lookup_insert_eq| |done].
  unfold After, Time_Add. cbn. unfold Time_Add. rewrite Hl1, Hca. apply Z.ltb_lt. done.
Qed.

(** With a cluster and consistent ports preferred, an allocation that gets
    its deterministic ports is not written to redis: until the next renewal no
    other node can take the session over. *)
Theorem consistent_not_announced now sid cid count prm ports prm' :
  sessionPorts prm !! sid = None -> cluster prm = true -> PreferConsistent (config prm) = true -> 0 <= count ->
  tryGetConsistentPorts sid count prm = (Returned (Some ports), prm') ->
  (AllocatePorts now sid cid count prm).1 = Returned ports /\ redis (AllocatePorts now sid cid count prm).2 = redis prm.
Proof.
  intros Hs Hc Hp Hn E. unfold AllocatePorts. rewrite Hs, Hc, Hp. cbn [andb]. destruct (Z.ltb_spec count 0); [lia|]. rewrite E. split; [done|]. cbn.
  unfold tryGetConsistentPorts in E. pose proof (consistent_loop_spec sid (hashSessionPort sid 0) (Z.to_nat count) 0 [] prm prm (taken_nil _ _)) as Ht.
  destruct (consistent_loop _ _ _ _ _ _) as [[ps prm1]|]; [|done]. destruct (_ =? _); [|done]. injection E as -> <-. by destruct Ht as [-> _ _].
Qed.

(** AllocateConsistentPorts on a session that has ports already loses them:
    after it and a release of the session the first ports are owned by a session
    without ports, and no release or cleanup frees them again. *)
Theorem reallocation_leaks d now sid cid preferred prm old : sessionPorts prm !! sid = Some old -> owners_ok d prm ->
  (AllocateConsistentPorts now sid cid preferred prm).1 = Returned preferred ->
  let prm' := ReleasePorts sid (AllocateConsistentPorts now sid cid preferred prm).2 in
  GetSessionPorts sid prm' = [] /\ allocations prm' !! sid = None /\ forall p, p ∈ old -> portOwners prm' !! p = Some sid.
Proof.
  intros Hs Hok. unfold AllocateConsistentPorts. destruct (_ && _) eqn:E; [|done]. intros _. apply andb_true_iff in E as [_ E%Nat.eqb_eq].
  apply filter_all in E as [E Ha]. rewrite !E. rewrite take_ports_owners. set (prm1 := snd _).
  assert (H1 : sessionPorts prm1 !! sid = Some preferred) by (unfold prm1; cbn; destruct (cluster _); cbn; apply lookup_insert_eq).
  assert (H2 : portOwners prm1 = own sid preferred (portOwners prm)) by (unfold prm1; cbn; by destruct (cluster _)).
  clearbody prm1. cbv zeta. unfold ReleasePorts. rewrite H1, release_all.
  assert (Hf : forall p, p ∈ old -> disown preferred (portOwners prm1) !! p = Some sid).
  { intros p Hp. rewrite disown_lookup, H2, own_lookup. destruct (proj2 (oo_ports _ prm Hok _ _ Hs) p Hp) as [_ Ho]. destruct (decide (p ∈ preferred)) as [Hq|]; [|done].
    apply Ha, isPortAvailable_true in Hq as [_ ?]. congruence. }
  unfold GetSessionPorts. destruct (cluster _); cbn; rewrite !lookup_delete_eq; (split; [done|]; split; [done|exact Hf]).
Qed.

(** ** Witnesses *)

Definition small_cfg : PortReallocationConfig := mkConfig "ports:" 10 14 5 1 3 true 4.
Definition two_ports : PortReallocationManager := prun (NewPortReallocationManager "n" false (Some small_cfg)) [OAllocate 0 "s" "c" 2].

Lemma AllocatePorts_exact_witness :
  match AllocatePorts 1 "t" "d" 3 two_ports with
  | (Returned ports, prm') => length ports = Z.to_nat 3 /\ 3 <= Z.of_nat (length (free_ports two_ports)) /\ GetSessionPorts "t" prm' = ports
  | (Failed, prm') => Z.of_nat (length (free_ports two_ports)) < 3 /\ prm' = two_ports
  | _ => False
  end.
Proof. apply AllocatePorts_exact; [reflexivity|lia|reflexivity|reflexivity]. Defined.

(** A port named twice is taken twice by the same session. *)
Example named_twice :
  GetSessionPorts "s" (prun (NewPortReallocationManager "n" false (Some small_cfg)) [OConsistent 0 "s" "c" [10; 10]]) = [10; 10].
Proof. vm_compute. reflexivity. Qed.

Lemma session_ports_exclusive_witness : NoDup (GetSessionPorts "s" two_ports).
Proof. apply (session_ports_exclusive "n" false (Some small_cfg) [OAllocate 0 "s" "c" 2] "s"). repeat constructor. Defined.

Lemma live_ports_expire_witness :
  let prm'' := cleanupExpired 8 ["s"%string; "t"%string]
    (foldl (fun prm t => renewAllocations t ["t"%string] prm) (AllocatePorts 2 "t" "d" 2 two_ports).2 [3; 4; 5; 6; 7]) in
  GetSessionPorts "t" prm'' = [] /\ forall p, p ∈ [11; 12] -> isPortAvailable p prm'' = true.
Proof.
  apply (live_ports_expire "n" (Some small_cfg) [OAllocate 0 "s" "c" 2] two_ports 2 "t" "d" 2 [11; 12]);
    [reflexivity|reflexivity|vm_compute; reflexivity|reflexivity|by right; left].
Defined.

Lemma consistent_not_announced_witness :
  (AllocatePorts 0 "s" "c" 2 (NewPortReallocationManager "n" true (Some small_cfg))).1 = Returned [13; 11] /\
  redis (AllocatePorts 0 "s" "c" 2 (NewPortReallocationManager "n" true (Some small_cfg))).2 = redis (NewPortReallocationManager "n" true (Some small_cfg)).
Proof. eapply consistent_not_announced; [reflexivity|reflexivity|reflexivity|lia|vm_compute; reflexivity]. Defined.

Lemma reallocation_leaks_witness :
  let prm' := ReleasePorts "s" (AllocateConsistentPorts 1 "s" "c" [11; 14] two_ports).2 in
  GetSessionPorts "s" prm' = [] /\ allocations prm' !! "s"%string = None /\ forall p, p ∈ [13; 10] -> portOwners prm' !! p = Some "s"%string.
Proof.
  eapply (reallocation_leaks _ 1 "s" "c" [11; 14] two_ports [13; 10]); [vm_compute; reflexivity| |vm_compute; reflexivity].
  exact (proj1 (prun_ok "n" false (Some small_cfg) [OAllocate 0 "s" "c" 2])).
Defined.
