(* ===== verification/NetAddr.v ===== *)
(** * Network addresses

    [net.SplitHostPort] of the Go library, which several components use to take
    the port off a client's address. *)

From Stdlib Require Import ZArith Lia Ascii String.
From stdpp Require Import base list strings.
From S2P Require Import Prelude.

Local Open Scope nat_scope.

Definition chars (s : string) : list ascii := list_ascii_of_string s.
Definition of_chars (l : list ascii) : string := string_of_list_ascii l.

(** The offset of the first and of the last occurrence of [c]. *)
Fixpoint first_index (c : ascii) (s : list ascii) : option nat :=
  match s with
  | [] => None
  | x :: s => if bool_decide (x = c) then Some 0 else S <$> first_index c s
  end.

Fixpoint last_index (c : ascii) (s : list ascii) : option nat :=
  match s with
  | [] => None
  | x :: s =>
      match last_index c s with
      | Some n => Some (S n)
      | None => if bool_decide (x = c) then Some 0 else None
      end
  end.

Definition contains (c : ascii) (s : list ascii) : bool := bool_decide (is_Some (first_index c s)).

(** [None] is an error. *)
Definition split_chars (hostport : list ascii) : option (list ascii * list ascii) :=
  match last_index ":" hostport with
  | None => None
  | Some i =>
      if bool_decide (head hostport = Some "["%char) then
        match first_index "]" hostport with
        | None => None
        | Some end_ =>
            if (S end_ =? i) then
              if contains "[" (drop 1 hostport) || contains "]" (drop (S end_) hostport) then None
              else Some (take (end_ - 1) (drop 1 hostport), drop (S i) hostport)
            else None
        end
      else
        let host := take i hostport in
        if contains ":" host then None
        else if contains "[" hostport || contains "]" hostport then None
        else Some (host, drop (S i) hostport)
  end.

Definition SplitHostPort (hostport : string) : option (string * string) :=
  '(host, port) ← split_chars (chars hostport); Some (of_chars host, of_chars port).

Example split_v4 : SplitHostPort "10.0.0.1:5060" = Some ("10.0.0.1"%string, "5060"%string).
Proof. reflexivity. Qed.
Example split_v6 : SplitHostPort "[::1]:5060" = Some ("::1"%string, "5060"%string).
Proof. reflexivity. Qed.
Example split_bare : SplitHostPort "10.0.0.1" = None /\ SplitHostPort "::1" = None.
Proof. split; reflexivity. Qed.

Lemma first_index_None c s : first_index c s = None <-> c ∉ s.
Proof.
  induction s as [|x s IH]; cbn; [split; [intros _ ?%not_elem_of_nil; done|done]|]. rewrite not_elem_of_cons.
  case_bool_decide as E; [split; [done|intros []; congruence]|]. destruct (first_index c s); cbn; split; try done.
  - intros [_ H]. by apply IH in H.
  - intros _. split; [congruence|by apply IH].
Qed.

Lemma contains_false c s : contains c s = false <-> c ∉ s.
Proof.
  unfold contains. rewrite bool_decide_eq_false, <- first_index_None. destruct (first_index c s).
  - split; [intros H; exfalso; apply H; by eexists|done].
  - split; [done|]. by intros _ [].
Qed.

Lemma first_index_app c a b : c ∉ a -> first_index c (a ++ c :: b) = Some (length a).
Proof.
  induction a as [|x a IH]; cbn; intros H; [by rewrite bool_decide_true|]. apply not_elem_of_cons in H as [Hx Ha].
  rewrite bool_decide_false by congruence. by rewrite IH.
Qed.

Lemma last_index_None c s : c ∉ s -> last_index c s = None.
Proof.
  induction s as [|x s IH]; cbn; intros H; [done|]. apply not_elem_of_cons in H as [Hx Hs]. rewrite IH by done. by rewrite bool_decide_false by congruence.
Qed.

Lemma last_index_app c a b : c ∉ b -> last_index c (a ++ c :: b) = Some (length a).
Proof. intros H. induction a as [|x a IH]; cbn; [by rewrite last_index_None, bool_decide_true|by rewrite IH]. Qed.

(** Neither a colon nor a bracket. *)
Definition plain (s : list ascii) : Prop := (":"%char ∉ s) /\ ("["%char ∉ s) /\ ("]"%char ∉ s).

(** An address with its port comes apart again. *)
Lemma split_plain host port : plain host -> plain port -> split_chars (host ++ ":"%char :: port) = Some (host, port).
Proof.
  intros (H1 & H2 & H3) (P1 & P2 & P3). unfold split_chars. rewrite last_index_app by done.
  rewrite bool_decide_false by (destruct host as [|x host]; cbn; [done|]; intros [= ->]; by apply H2; left).
  rewrite take_app_length. rewrite (proj2 (contains_false ":" host) H1).
  rewrite (proj2 (contains_false _ _)), (proj2 (contains_false _ _)) by (rewrite elem_of_app, elem_of_cons; intros [?|[?|?]]; done).
  cbn [orb]. rewrite <- Nat.add_1_r. by rewrite drop_app_add.
Qed.

(** So does one in brackets, colons included. *)
Lemma split_bracketed host port : "["%char ∉ host -> "]"%char ∉ host -> plain port ->
  split_chars ("["%char :: host ++ "]"%char :: ":"%char :: port) = Some (host, port).
Proof.
  intros H2 H3 (P1 & P2 & P3). unfold split_chars.
  change ("["%char :: host ++ "]"%char :: ":"%char :: port) with (("["%char :: host) ++ "]"%char :: ":"%char :: port).
  rewrite (first_index_app "]" ("["%char :: host)) by (rewrite not_elem_of_cons; done).
  replace (("["%char :: host) ++ "]"%char :: ":"%char :: port) with ((("["%char :: host) ++ ["]"%char]) ++ ":"%char :: port) by (by rewrite <- (assoc_L (++))).
  rewrite last_index_app by done. rewrite bool_decide_true by done. rewrite length_app. cbn [length]. rewrite (proj2 (Nat.eqb_eq _ _)) by lia.
  rewrite (proj2 (contains_false "[" _)).
  2: { change (drop 1 _) with ((host ++ ["]"%char]) ++ ":"%char :: port). rewrite elem_of_app, elem_of_cons, elem_of_app, list_elem_of_singleton.
    intros [[H|H]|[H|H]]; done. }
  rewrite (proj2 (contains_false "]" _)).
  2: { rewrite <- (assoc_L (++)). replace (S (S (length host))) with (length ("["%char :: host) + 1) by (cbn; lia). rewrite drop_app_add. cbn. rewrite elem_of_cons. intros [H|H]; done. }
  cbn [orb]. f_equal. f_equal.
  - change (drop 1 _) with ((host ++ ["]"%char]) ++ ":"%char :: port). change (S (length host) - 1) with (length host - 0).
    rewrite Nat.sub_0_r, <- (assoc_L (++)). apply take_app_length.
  - replace (S (S (length host) + 1)) with (length (("["%char :: host) ++ ["]"%char]) + 1) by (rewrite length_app; cbn; lia). by rewrite drop_app_add.
Qed.
