(* ===== verification/DosProtection.v ===== *)
(** * Denial-of-service protection

    Models src/internal/dos_protection.go: the token buckets, the checks of a
    request, violations and bans, the count of connections, in total and for an
    address, the limits on running requests, and the trackers and throttlers
    built on them. The network connection below [SizeLimitedReader] is an
    argument of its [Read].

    [TrackConnection] and [ReleaseConnection] are made of the pieces between which
    other calls may run. One call reads the clock several times; the model takes one
    reading. An
    operation that may panic returns an option, [None] being the panic: the slice
    of a new client's violations is made with capacity [BanThreshold], and a
    negative one panics. *)

From Stdlib Require Import ZArith Lia Ascii String Sorted.
From stdpp Require Import base numbers list gmap strings.
From S2P Require Import Prelude GoFloat FloatExact RateLimiter NetAddr.

Local Open Scope Z_scope.
Local Open Scope go_scope.
#[local] Arguments wraps : simpl never.
#[local] Set Warnings "-clear-no-such-hyp".

(** ** Data *)

Inductive dos_error :=
| ErrRateLimitExceeded | ErrConnectionLimit | ErrRequestTooLarge | ErrClientBanned | ErrResourceExhausted | ErrSlowClientDetected.
#[export] Instance dos_error_dec : EqDecision dos_error.
Proof. solve_decision. Defined.

Record DoSProtectionConfig := mkDoSConfig {
  d_GlobalRequestsPerSecond : Z; d_GlobalBurstSize : Z; d_PerIPRequestsPerSecond : Z; d_PerIPBurstSize : Z;
  MaxConnectionsPerIP : Z; MaxTotalConnections : Z; MaxRequestSize : Z; MaxHeaderSize : Z; MaxBodySize : Z;
  ReadTimeout : Z; WriteTimeout : Z; IdleTimeout : Z; SlowClientTimeout : Z;
  BanThreshold : Z; BanDuration : Z; ViolationWindow : Z;
  MaxConcurrentRequests : Z; MaxPendingRequests : Z; MaxMemoryPerRequest : Z;
  WhitelistedIPs : list string; BlacklistedIPs : list string }.

Definition DefaultDoSProtectionConfig : DoSProtectionConfig :=
  mkDoSConfig 10000 1000 100 50 100 10000 (1024 * 1024) (8 * 1024) (512 * 1024)
    (30 * Second) (30 * Second) (60 * Second) (10 * Second) 10 (900 * Second) (60 * Second) 1000 5000 (10 * 1024 * 1024) [] [].

Record TokenBucketLimiter := mkLimiter { rate : float64; burst : Z; l_tokens : float64; lastUpdate : Z }.

Record ipState := mkIpState { limiter : TokenBucketLimiter; violations : list Z; connections : Z; lastSeen : Z }.

Record DoSStats := mkDoSStats {
  d_TotalRequests : Z;
  RateLimitedRequests : Z;
  BannedRequests : Z;
  OversizedRequests : Z;
  SlowClientRequests : Z;
  ConnectionsRejected : Z;
  CurrentConnections : Z;
  CurrentBannedIPs : Z;
  d_ActiveIPs : Z }.
#[export] Instance set_d_TotalRequests : Setter d_TotalRequests := fun f r =>
  mkDoSStats (f (d_TotalRequests r)) (RateLimitedRequests r) (BannedRequests r) (OversizedRequests r) (SlowClientRequests r) (ConnectionsRejected r) (CurrentConnections r) (CurrentBannedIPs r) (d_ActiveIPs r).
#[export] Instance set_RateLimitedRequests : Setter RateLimitedRequests := fun f r =>
  mkDoSStats (d_TotalRequests r) (f (RateLimitedRequests r)) (BannedRequests r) (OversizedRequests r) (SlowClientRequests r) (ConnectionsRejected r) (CurrentConnections r) (CurrentBannedIPs r) (d_ActiveIPs r).
#[export] Instance set_BannedRequests : Setter BannedRequests := fun f r =>
  mkDoSStats (d_TotalRequests r) (RateLimitedRequests r) (f (BannedRequests r)) (OversizedRequests r) (SlowClientRequests r) (ConnectionsRejected r) (CurrentConnections r) (CurrentBannedIPs r) (d_ActiveIPs r).
#[export] Instance set_OversizedRequests : Setter OversizedRequests := fun f r =>
  mkDoSStats (d_TotalRequests r) (RateLimitedRequests r) (BannedRequests r) (f (OversizedRequests r)) (SlowClientRequests r) (ConnectionsRejected r) (CurrentConnections r) (CurrentBannedIPs r) (d_ActiveIPs r).
#[export] Instance set_SlowClientRequests : Setter SlowClientRequests := fun f r =>
  mkDoSStats (d_TotalRequests r) (RateLimitedRequests r) (BannedRequests r) (OversizedRequests r) (f (SlowClientRequests r)) (ConnectionsRejected r) (CurrentConnections r) (CurrentBannedIPs r) (d_ActiveIPs r).
#[export] Instance set_ConnectionsRejected : Setter ConnectionsRejected := fun f r =>
  mkDoSStats (d_TotalRequests r) (RateLimitedRequests r) (BannedRequests r) (OversizedRequests r) (SlowClientRequests r) (f (ConnectionsRejected r)) (CurrentConnections r) (CurrentBannedIPs r) (d_ActiveIPs r).
#[export] Instance set_CurrentConnections : Setter CurrentConnections := fun f r =>
  mkDoSStats (d_TotalRequests r) (RateLimitedRequests r) (BannedRequests r) (OversizedRequests r) (SlowClientRequests r) (ConnectionsRejected r) (f (CurrentConnections r)) (CurrentBannedIPs r) (d_ActiveIPs r).
#[export] Instance set_CurrentBannedIPs : Setter CurrentBannedIPs := fun f r =>
  mkDoSStats (d_TotalRequests r) (RateLimitedRequests r) (BannedRequests r) (OversizedRequests r) (SlowClientRequests r) (ConnectionsRejected r) (CurrentConnections r) (f (CurrentBannedIPs r)) (d_ActiveIPs r).
#[export] Instance set_d_ActiveIPs : Setter d_ActiveIPs := fun f r =>
  mkDoSStats (d_TotalRequests r) (RateLimitedRequests r) (BannedRequests r) (OversizedRequests r) (SlowClientRequests r) (ConnectionsRejected r) (CurrentConnections r) (CurrentBannedIPs r) (f (d_ActiveIPs r)).

Record DoSProtector := mkDoS {
  d_config : DoSProtectionConfig;
  globalLimiter : TokenBucketLimiter;
  ipStates : gmap string ipState;
  connectionsPerIP : gmap string Z;
  totalConnections : Z;
  concurrentRequests : Z;
  pendingRequests : Z;
  bans : gmap string Z;
  whitelist : gset string;
  blacklist : gset string;
  d_stats : DoSStats;
  cleanupStopped : bool }.
#[export] Instance set_d_config : Setter d_config := fun f r =>
  mkDoS (f (d_config r)) (globalLimiter r) (ipStates r) (connectionsPerIP r) (totalConnections r) (concurrentRequests r) (pendingRequests r) (bans r) (whitelist r) (blacklist r) (d_stats r) (cleanupStopped r).
#[export] Instance set_globalLimiter : Setter globalLimiter := fun f r =>
  mkDoS (d_config r) (f (globalLimiter r)) (ipStates r) (connectionsPerIP r) (totalConnections r) (concurrentRequests r) (pendingRequests r) (bans r) (whitelist r) (blacklist r) (d_stats r) (cleanupStopped r).
#[export] Instance set_ipStates : Setter ipStates := fun f r =>
  mkDoS (d_config r) (globalLimiter r) (f (ipStates r)) (connectionsPerIP r) (totalConnections r) (concurrentRequests r) (pendingRequests r) (bans r) (whitelist r) (blacklist r) (d_stats r) (cleanupStopped r).
#[export] Instance set_connectionsPerIP : Setter connectionsPerIP := fun f r =>
  mkDoS (d_config r) (globalLimiter r) (ipStates r) (f (connectionsPerIP r)) (totalConnections r) (concurrentRequests r) (pendingRequests r) (bans r) (whitelist r) (blacklist r) (d_stats r) (cleanupStopped r).
#[export] Instance set_totalConnections : Setter totalConnections := fun f r =>
  mkDoS (d_config r) (globalLimiter r) (ipStates r) (connectionsPerIP r) (f (totalConnections r)) (concurrentRequests r) (pendingRequests r) (bans r) (whitelist r) (blacklist r) (d_stats r) (cleanupStopped r).
#[export] Instance set_concurrentRequests : Setter concurrentRequests := fun f r =>
  mkDoS (d_config r) (globalLimiter r) (ipStates r) (connectionsPerIP r) (totalConnections r) (f (concurrentRequests r)) (pendingRequests r) (bans r) (whitelist r) (blacklist r) (d_stats r) (cleanupStopped r).
#[export] Instance set_pendingRequests : Setter pendingRequests := fun f r =>
  mkDoS (d_config r) (globalLimiter r) (ipStates r) (connectionsPerIP r) (totalConnections r) (concurrentRequests r) (f (pendingRequests r)) (bans r) (whitelist r) (blacklist r) (d_stats r) (cleanupStopped r).
#[export] Instance set_bans : Setter bans := fun f r =>
  mkDoS (d_config r) (globalLimiter r) (ipStates r) (connectionsPerIP r) (totalConnections r) (concurrentRequests r) (pendingRequests r) (f (bans r)) (whitelist r) (blacklist r) (d_stats r) (cleanupStopped r).
#[export] Instance set_whitelist : Setter whitelist := fun f r =>
  mkDoS (d_config r) (globalLimiter r) (ipStates r) (connectionsPerIP r) (totalConnections r) (concurrentRequests r) (pendingRequests r) (bans r) (f (whitelist r)) (blacklist r) (d_stats r) (cleanupStopped r).
#[export] Instance set_blacklist : Setter blacklist := fun f r =>
  mkDoS (d_config r) (globalLimiter r) (ipStates r) (connectionsPerIP r) (totalConnections r) (concurrentRequests r) (pendingRequests r) (bans r) (whitelist r) (f (blacklist r)) (d_stats r) (cleanupStopped r).
#[export] Instance set_d_stats : Setter d_stats := fun f r =>
  mkDoS (d_config r) (globalLimiter r) (ipStates r) (connectionsPerIP r) (totalConnections r) (concurrentRequests r) (pendingRequests r) (bans r) (whitelist r) (blacklist r) (f (d_stats r)) (cleanupStopped r).
#[export] Instance set_cleanupStopped : Setter cleanupStopped := fun f r =>
  mkDoS (d_config r) (globalLimiter r) (ipStates r) (connectionsPerIP r) (totalConnections r) (concurrentRequests r) (pendingRequests r) (bans r) (whitelist r) (blacklist r) (d_stats r) (f (cleanupStopped r)).

Definition bump (f : DoSStats -> DoSStats) (p : DoSProtector) : DoSProtector := p <| d_stats ::= f |>.
Definition add32 (d n : Z) : Z := wraps 32 (n + d).
Definition add64 (d n : Z) : Z := wraps 64 (n + d).

(** ** The token bucket *)

Definition NewTokenBucketLimiter (now : Z) (rate : float64) (burst : Z) : TokenBucketLimiter :=
  mkLimiter rate burst (of_int burst) now.

(** Tokens for the time that passed, at most [burst]. *)
Definition add_tokens (now : Z) (l : TokenBucketLimiter) : float64 :=
  let elapsed := Seconds (Time_Sub now (lastUpdate l)) in
  let t := fadd (l_tokens l) (fmul elapsed (rate l)) in
  if flt (of_int (burst l)) t then of_int (burst l) else t.

Definition limiter_AllowN (now : Z) (n : Z) (l : TokenBucketLimiter) : bool * TokenBucketLimiter :=
  let t := add_tokens now l in
  if fle (of_int n) t then (true, mkLimiter (rate l) (burst l) (fsub t (of_int n)) now)
  else (false, mkLimiter (rate l) (burst l) t now).

Definition limiter_Allow (now : Z) (l : TokenBucketLimiter) : bool * TokenBucketLimiter :=
  let t := add_tokens now l in
  if fle (of_int 1) t then (true, mkLimiter (rate l) (burst l) (fsub t (of_int 1)) now)
  else (false, mkLimiter (rate l) (burst l) t now).

Definition Available (now : Z) (l : TokenBucketLimiter) : float64 := add_tokens now l.

(** ** The protector *)

Definition NewDoSProtector (now : Z) (config : option DoSProtectionConfig) : DoSProtector :=
  let c := default DefaultDoSProtectionConfig config in
  mkDoS c (NewTokenBucketLimiter now (of_int (d_GlobalRequestsPerSecond c)) (d_GlobalBurstSize c)) ∅ ∅ 0 0 0 ∅
    (list_to_set (WhitelistedIPs c)) (list_to_set (BlacklistedIPs c)) (mkDoSStats 0 0 0 0 0 0 0 0 0) false.

Definition dosExtractIP (addr : string) : string :=
  if bool_decide (addr = EmptyString) then EmptyString
  else match SplitHostPort addr with
       | Some (host, _) => host
       | None => addr
       end.

Definition getOrCreateIPState (now : Z) (ip : string) (p : DoSProtector) : option (ipState * DoSProtector) :=
  match ipStates p !! ip with
  | Some state => Some (state, p)
  | None =>
      let c := d_config p in
      if BanThreshold c <? 0 then None
      else
        let state := mkIpState (NewTokenBucketLimiter now (of_int (d_PerIPRequestsPerSecond c)) (d_PerIPBurstSize c)) [] 0 now in
        Some (state, bump (fun s => s <| d_ActiveIPs ::= add32 1 |>) (p <| ipStates ::= <[ip := state]> |>))
  end.

Definition checkIPRateLimit (now : Z) (ip : string) (p : DoSProtector) : option (option dos_error * DoSProtector) :=
  '(state, p) ← getOrCreateIPState now ip p;
  let '(ok, l) := limiter_Allow now (limiter state) in
  let p := p <| ipStates ::= <[ip := mkIpState l (violations state) (connections state) now]> |> in
  Some (if ok then None else Some ErrRateLimitExceeded, p).

Definition ban (now : Z) (ip : string) (p : DoSProtector) : DoSProtector :=
  let p := match bans p !! ip with
           | None => bump (fun s => s <| CurrentBannedIPs ::= add32 1 |>) p
           | Some _ => p
           end in
  p <| bans ::= <[ip := Time_Add now (BanDuration (d_config p))]> |>.

Definition recordViolation (now : Z) (ip : string) (p : DoSProtector) : option DoSProtector :=
  '(state, p) ← getOrCreateIPState now ip p;
  let cutoff := Time_Add now (- ViolationWindow (d_config p)) in
  let vs := filter (fun t => After t cutoff = true) (violations state) ++ [now] in
  if BanThreshold (d_config p) <=? Z.of_nat (length vs)
  then Some (ban now ip p <| ipStates ::= <[ip := mkIpState (limiter state) [] (connections state) (lastSeen state)]> |>)
  else Some (p <| ipStates ::= <[ip := mkIpState (limiter state) vs (connections state) (lastSeen state)]> |>).

(** [isBanned] in its two critical sections: reading the ban and, when it has
    expired, removing it. *)
Inductive ban_state := NoBan | BanExpired | Banned.
Definition read_ban (now : Z) (ip : string) (p : DoSProtector) : ban_state :=
  match bans p !! ip with
  | None => NoBan
  | Some expiry => if After now expiry then BanExpired else Banned
  end.
Definition drop_ban (ip : string) (p : DoSProtector) : DoSProtector :=
  bump (fun s => s <| CurrentBannedIPs ::= add32 (-1) |>) (p <| bans ::= delete ip |>).
Definition isBanned (now : Z) (ip : string) (p : DoSProtector) : bool * DoSProtector :=
  match read_ban now ip p with
  | NoBan => (false, p)
  | BanExpired => (false, drop_ban ip p)
  | Banned => (true, p)
  end.

Definition Unban (ip : string) (p : DoSProtector) : DoSProtector :=
  match bans p !! ip with Some _ => drop_ban ip p | None => p end.

(** The last check of [CheckRequest]. *)
Definition check_ip (now : Z) (ip : string) (p : DoSProtector) : option (option dos_error * DoSProtector) :=
  '(err, p) ← checkIPRateLimit now ip p;
  match err with
  | None => Some (None, p)
  | Some e => p ← recordViolation now ip (bump (fun s => s <| RateLimitedRequests ::= add64 1 |>) p); Some (Some e, p)
  end.

(** [CheckRequest] once the client is known not to be banned. *)
Definition check_limits (now : Z) (ip : string) (whitelisted : bool) (requestSize : Z) (p : DoSProtector) : option (option dos_error * DoSProtector) :=
  if requestSize >? MaxRequestSize (d_config p)
  then p ← recordViolation now ip (bump (fun s => s <| OversizedRequests ::= add64 1 |>) p); Some (Some ErrRequestTooLarge, p)
  else if wraps 32 (MaxConcurrentRequests (d_config p)) <=? concurrentRequests p then Some (Some ErrResourceExhausted, p)
  else if whitelisted then Some (None, p)
  else
    let '(ok, g) := limiter_Allow now (globalLimiter p) in
    let p := p <| globalLimiter := g |> in
    if negb ok then Some (Some ErrRateLimitExceeded, bump (fun s => s <| RateLimitedRequests ::= add64 1 |>) p)
    else check_ip now ip p.

Definition CheckRequest (now : Z) (clientIP : string) (requestSize : Z) (p : DoSProtector) : option (option dos_error * DoSProtector) :=
  let p := bump (fun s => s <| d_TotalRequests ::= add64 1 |>) p in
  let ip := dosExtractIP clientIP in
  if bool_decide (ip ∈ blacklist p) then Some (Some ErrClientBanned, bump (fun s => s <| BannedRequests ::= add64 1 |>) p)
  else
    let whitelisted := bool_decide (ip ∈ whitelist p) in
    let '(banned, p) := if whitelisted then (false, p) else isBanned now ip p in
    if banned then Some (Some ErrClientBanned, bump (fun s => s <| BannedRequests ::= add64 1 |>) p)
    else check_limits now ip whitelisted requestSize p.

(** [TrackConnection] up to the load of the total, which is not locked. *)
Definition track_admit (now : Z) (ip : string) (p : DoSProtector) : option dos_error * DoSProtector :=
  if bool_decide (ip ∈ blacklist p) then (Some ErrClientBanned, p)
  else
    let '(banned, p) := isBanned now ip p in
    if banned then (Some ErrClientBanned, p)
    else if wraps 32 (MaxTotalConnections (d_config p)) <=? totalConnections p
    then (Some ErrConnectionLimit, bump (fun s => s <| ConnectionsRejected ::= add64 1 |>) p)
    else (None, p).

(** The count of the address, under [connectionsMu]. *)
Definition track_address (now : Z) (ip : string) (p : DoSProtector) : option (option dos_error * DoSProtector) :=
  let current := default 0 (connectionsPerIP p !! ip) in
  if wraps 32 (MaxConnectionsPerIP (d_config p)) <=? current
  then p ← recordViolation now ip (bump (fun s => s <| ConnectionsRejected ::= add64 1 |>) p); Some (Some ErrConnectionLimit, p)
  else Some (None, p <| connectionsPerIP ::= <[ip := add32 1 current]> |>).

(** The total, after the lock is given back. *)
Definition add_total (d : Z) (p : DoSProtector) : DoSProtector :=
  bump (fun s => s <| CurrentConnections ::= add32 d |>) (p <| totalConnections ::= add32 d |>).

Definition TrackConnection (now : Z) (addr : string) (p : DoSProtector) : option (option dos_error * DoSProtector) :=
  let ip := dosExtractIP addr in
  match track_admit now ip p with
  | (Some e, p) => Some (Some e, p)
  | (None, p) =>
      '(err, p) ← track_address now ip p;
      match err with
      | Some e => Some (Some e, p)
      | None => Some (None, add_total 1 p)
      end
  end.

(** The count of one address, removed when it reaches zero. *)
Definition drop_connection (ip : string) (p : DoSProtector) : DoSProtector :=
  match connectionsPerIP p !! ip with
  | Some current =>
      if current >? 0 then
        if current - 1 =? 0 then p <| connectionsPerIP ::= delete ip |> else p <| connectionsPerIP ::= <[ip := current - 1]> |>
      else p
  | None => p
  end.

Definition ReleaseConnection (addr : string) (p : DoSProtector) : DoSProtector :=
  add_total (-1) (drop_connection (dosExtractIP addr) p).

Definition BeginRequest (p : DoSProtector) : bool * DoSProtector :=
  let c := d_config p in
  if (MaxPendingRequests c >? 0) && (wraps 32 (MaxPendingRequests c) <=? pendingRequests p) then (false, p)
  else if (MaxConcurrentRequests c >? 0) && (wraps 32 (MaxConcurrentRequests c) <=? concurrentRequests p) then (false, p)
  else (true, p <| pendingRequests ::= add32 1 |> <| concurrentRequests ::= add32 1 |>).

Definition EndRequest (p : DoSProtector) : DoSProtector :=
  p <| concurrentRequests ::= add32 (-1) |> <| pendingRequests ::= add32 (-1) |>.

Definition CheckSlowClient (now : Z) (clientIP : string) (bytesTransferred duration : Z) (p : DoSProtector) : option (option dos_error * DoSProtector) :=
  if duration =? 0 then Some (None, p)
  else
    let rate := fdiv (of_int bytesTransferred) (Seconds duration) in
    if flt rate (of_int 1024) && (duration >? SlowClientTimeout (d_config p)) then
      p ← recordViolation now (dosExtractIP clientIP) (bump (fun s => s <| SlowClientRequests ::= add64 1 |>) p);
      Some (Some ErrSlowClientDetected, p)
    else Some (None, p).

Definition AddToWhitelist (ip : string) (p : DoSProtector) : DoSProtector := p <| whitelist ::= union {[ip]} |>.
Definition RemoveFromWhitelist (ip : string) (p : DoSProtector) : DoSProtector := p <| whitelist ::= fun s => s ∖ {[ip]} |>.
Definition AddToBlacklist (ip : string) (p : DoSProtector) : DoSProtector := p <| blacklist ::= union {[ip]} |>.
Definition RemoveFromBlacklist (ip : string) (p : DoSProtector) : DoSProtector := p <| blacklist ::= fun s => s ∖ {[ip]} |>.

Record dos_stats_map := mkStatsMap {
  s_total_requests : Z; s_rate_limited : Z; s_banned : Z; s_oversized : Z; s_slow : Z; s_rejected : Z;
  s_connections : Z; s_banned_ips : Z; s_active_ips : Z; s_concurrent : Z; s_pending : Z; s_tokens : float64 }.
Definition dos_GetStats (now : Z) (p : DoSProtector) : dos_stats_map :=
  let s := d_stats p in
  mkStatsMap (d_TotalRequests s) (RateLimitedRequests s) (BannedRequests s) (OversizedRequests s) (SlowClientRequests s)
    (ConnectionsRejected s) (totalConnections p) (Z.of_nat (size (bans p))) (Z.of_nat (size (ipStates p)))
    (concurrentRequests p) (pendingRequests p) (Available now (globalLimiter p)).

(** In the order of the map's walk. *)
Definition GetBannedIPs (now : Z) (ips : list string) (p : DoSProtector) : list string :=
  filter (fun ip => match bans p !! ip with Some expiry => Before now expiry | None => false end = true) ips.

(** The two loops of [cleanup], in the orders of the maps' walks. *)
Definition forget_client (staleThreshold : Z) (p : DoSProtector) (ip : string) : DoSProtector :=
  match ipStates p !! ip with
  | Some state =>
      if Before (lastSeen state) staleThreshold
      then bump (fun s => s <| d_ActiveIPs ::= add32 (-1) |>) (p <| ipStates ::= delete ip |>) else p
  | None => p
  end.
Definition forget_ban (now : Z) (p : DoSProtector) (ip : string) : DoSProtector :=
  match bans p !! ip with
  | Some expiry => if After now expiry then drop_ban ip p else p
  | None => p
  end.
Definition dos_cleanup (now : Z) (ips banned : list string) (p : DoSProtector) : DoSProtector :=
  foldl (forget_ban now) (foldl (forget_client (Time_Add now (- (300 * Second)))) p ips) banned.

(** Closing a closed channel panics. *)
Definition Close (p : DoSProtector) : option DoSProtector :=
  if cleanupStopped p then None else Some (p <| cleanupStopped := true |>).

(** ** Readers, throttlers and trackers *)

Record SizeLimitedReader := mkReader { r_N : Z; r_Total : Z; r_Timeout : Z }.

(** What a read of the connection below gives for a buffer of the given size:
    a count and an error. *)
Definition Read {E : Type} (conn : Z -> Z * option E) (buf : Z) (l : SizeLimitedReader) : (Z * option (dos_error + E)) * SizeLimitedReader :=
  if r_N l <=? 0 then ((0, Some (inl ErrRequestTooLarge)), l)
  else
    let '(n, err) := conn (if buf >? r_N l then r_N l else buf) in
    ((n, inr <$> err), mkReader (wraps 64 (r_N l - n)) (wraps 64 (r_Total l + n)) (r_Timeout l)).

Record RequestThrottler := mkThrottler { t_clientIP : string; startTime : Z; bytesRead : Z }.
Definition NewRequestThrottler (now : Z) (clientIP : string) : RequestThrottler := mkThrottler clientIP now 0.
Definition CheckProgress (now : Z) (bytes : Z) (t : RequestThrottler) (p : DoSProtector)
    : option (option dos_error * RequestThrottler * DoSProtector) :=
  let t := mkThrottler (t_clientIP t) (startTime t) bytes in
  '(err, p) ← CheckSlowClient now (t_clientIP t) bytes (Time_Sub now (startTime t)) p;
  Some (err, t, p).
Definition throttler_End (p : DoSProtector) : DoSProtector := EndRequest p.

Record DoSConnectionTracker := mkTracker { ct_ip : string; ct_tracked : bool }.
Definition NewDoSConnectionTracker (now : Z) (ip : string) (p : DoSProtector)
    : option ((dos_error + DoSConnectionTracker) * DoSProtector) :=
  '(err, p) ← TrackConnection now ip p;
  Some (match err with Some e => inl e | None => inr (mkTracker ip true) end, p).
Definition Release (ct : DoSConnectionTracker) (p : DoSProtector) : DoSConnectionTracker * DoSProtector :=
  if ct_tracked ct then (mkTracker (ct_ip ct) false, ReleaseConnection (ct_ip ct) p) else (ct, p).

(** ** The clients of a protector *)

(** A connection under way: its call of [TrackConnection] has passed the check
    of the total, has its address counted, has returned; its [Release] has taken
    the address out; it is over, or was refused. *)
Inductive phase := PPassed | PEntered | PHeld | PLeaving | PDone.
Record client := mkClient { cl_addr : string; cl_phase : phase }.

(** What happens to a protector. Connections begin with [ETrack] and go on by
    [EGo i], the next piece of the call the [i]-th one is in; [ERelease i] begins
    its [Release], which does nothing when no connection is held. The calls that
    do not touch connections are one step each. *)
Inductive dos_event :=
| ECheck (now : Z) (addr : string) (size : Z)
| ESlow (now : Z) (addr : string) (bytes duration : Z)
| ETrack (now : Z) (addr : string)
| EGo (now : Z) (i : nat)
| ERelease (i : nat)
| EBegin
| EEnd
| EUnban (ip : string)
| EWhite (ip : string) (add : bool)
| EBlack (ip : string) (add : bool)
| ECleanup (now : Z) (ips banned : list string).

(** The next piece of a call. *)
Definition go_on (now : Z) (c : client) (p : DoSProtector) : option (client * DoSProtector) :=
  let at_ ph := mkClient (cl_addr c) ph in
  match cl_phase c with
  | PPassed =>
      '(err, p) ← track_address now (dosExtractIP (cl_addr c)) p;
      Some (at_ (match err with Some _ => PDone | None => PEntered end), p)
  | PEntered => Some (at_ PHeld, add_total 1 p)
  | PLeaving => Some (at_ PDone, add_total (-1) p)
  | PHeld | PDone => Some (c, p)
  end.

Definition begin_release (c : client) (p : DoSProtector) : client * DoSProtector :=
  match cl_phase c with
  | PHeld => (mkClient (cl_addr c) PLeaving, drop_connection (dosExtractIP (cl_addr c)) p)
  | _ => (c, p)
  end.

Definition dos_step (w : DoSProtector * list client) (e : dos_event) : option (DoSProtector * list client) :=
  let '(p, cs) := w in
  match e with
  | ECheck now addr size => '(_, p) ← CheckRequest now addr size p; Some (p, cs)
  | ESlow now addr bytes duration => '(_, p) ← CheckSlowClient now addr bytes duration p; Some (p, cs)
  | ETrack now addr =>
      let '(err, p) := track_admit now (dosExtractIP addr) p in
      Some (p, match err with Some _ => cs | None => cs ++ [mkClient addr PPassed] end)
  | EGo now i =>
      match cs !! i with
      | Some c => '(c, p) ← go_on now c p; Some (p, <[i := c]> cs)
      | None => Some (p, cs)
      end
  | ERelease i =>
      match cs !! i with
      | Some c => let '(c, p) := begin_release c p in Some (p, <[i := c]> cs)
      | None => Some (p, cs)
      end
  | EBegin => Some ((BeginRequest p).2, cs)
  | EEnd => Some (EndRequest p, cs)
  | EUnban ip => Some (Unban ip p, cs)
  | EWhite ip add => Some (if add then AddToWhitelist ip p else RemoveFromWhitelist ip p, cs)
  | EBlack ip add => Some (if add then AddToBlacklist ip p else RemoveFromBlacklist ip p, cs)
  | ECleanup now ips banned => Some (dos_cleanup now ips banned p, cs)
  end.

(** How many of the connections are as [f] says. *)
Definition tally (f : client -> bool) (cs : list client) : Z := Z.of_nat (length (filter (fun c => f c = true) cs)).

Definition in_flight (c : client) : bool := match cl_phase c with PPassed | PEntered => true | _ => false end.
Definition in_total (c : client) : bool := match cl_phase c with PHeld | PLeaving => true | _ => false end.
Definition at_address (ip : string) (c : client) : bool :=
  match cl_phase c with PEntered | PHeld => bool_decide (dosExtractIP (cl_addr c) = ip) | _ => false end.

(** The events of a run, and the most calls that were between the check of the
    total and its increment at one time. *)
Fixpoint dos_run (es : list dos_event) (w : DoSProtector * list client) (peak : Z) : option (DoSProtector * list client * Z) :=
  match es with
  | [] => Some (w, peak)
  | e :: es => w ← dos_step w e; dos_run es w (Z.max peak (tally in_flight w.2))
  end.

(** The pieces in a row are the whole call. *)
Lemma track_pieces now addr p cs :
  fst <$> (w ← dos_step (p, cs) (ETrack now addr); w ← dos_step w (EGo now (length cs)); dos_step w (EGo now (length cs))) =
  snd <$> NewDoSConnectionTracker now addr p.
Proof.
  unfold NewDoSConnectionTracker, TrackConnection. cbn [dos_step]. destruct (track_admit now (dosExtractIP addr) p) as [[e|] p1].
  - cbn [mbind option_bind]. assert (cs !! length cs = None) as E by (by apply lookup_ge_None). cbn [dos_step]. rewrite E. cbn [mbind option_bind dos_step]. by rewrite E.
  - cbn [mbind option_bind dos_step]. rewrite lookup_app_r, Nat.sub_diag by done. cbn [lookup list_lookup go_on cl_phase cl_addr].
    destruct (track_address now (dosExtractIP addr) p1) as [[[e|] p2]|]; [| |done]; cbn [mbind option_bind dos_step];
      rewrite insert_app_r_alt, Nat.sub_diag by done; cbn [list_insert insert]; rewrite lookup_app_r, Nat.sub_diag by done; reflexivity.
Qed.

Lemma release_pieces now ct p cs i : cs !! i = Some (mkClient (ct_ip ct) (if ct_tracked ct then PHeld else PDone)) ->
  fst <$> (w ← dos_step (p, cs) (ERelease i); dos_step w (EGo now i)) = Some (Release ct p).2.
Proof.
  intros E. unfold Release. cbn [dos_step]. rewrite E. destruct (ct_tracked ct); cbn [begin_release cl_phase cl_addr mbind option_bind dos_step].
  - by rewrite list_lookup_insert_eq by (by eapply lookup_lt_Some).
  - by rewrite list_lookup_insert_eq by (by eapply lookup_lt_Some).
Qed.

(** ** Lemmas: what an operation leaves alone *)

(** The configuration and everything about connections. *)
Definition conns (p : DoSProtector) : DoSProtectionConfig * gmap string Z * Z * Z :=
  (d_config p, connectionsPerIP p, totalConnections p, CurrentConnections (d_stats p)).

(** An operation that does not panic, and leaves connections alone. *)
Definition calm {A : Type} (p : DoSProtector) (r : option (A * DoSProtector)) : Prop :=
  exists a p', r = Some (a, p') /\ conns p' = conns p.

Lemma getOrCreate_calm now ip p : 0 <= BanThreshold (d_config p) -> calm p (getOrCreateIPState now ip p).
Proof.
  intros H. unfold calm, getOrCreateIPState. destruct (ipStates p !! ip); [by do 2 eexists|]. destruct (Z.ltb_spec (BanThreshold (d_config p)) 0); [lia|]. by do 2 eexists.
Qed.

Lemma ban_conns now ip p : conns (ban now ip p) = conns p.
Proof. unfold ban. by destruct (bans p !! ip). Qed.

Lemma recordViolation_calm now ip p : 0 <= BanThreshold (d_config p) ->
  exists p', recordViolation now ip p = Some p' /\ conns p' = conns p.
Proof.
  intros H. destruct (getOrCreate_calm now ip p H) as (st & p1 & E & Hc). unfold recordViolation. rewrite E. cbn [mbind option_bind].
  destruct (_ <=? _); eexists; (split; [reflexivity|]); [|done]. etransitivity; [exact (ban_conns now ip p1)|done].
Qed.

(** A violation that is recorded before the answer [e]. *)
Lemma violated_calm {A : Type} (e : A) now ip p : 0 <= BanThreshold (d_config p) ->
  calm p (p' ← recordViolation now ip p; Some (e, p')).
Proof. intros H. destruct (recordViolation_calm now ip p H) as (p' & -> & Hc). exists e, p'. done. Qed.

Lemma isBanned_conns now ip p : conns (isBanned now ip p).2 = conns p.
Proof. unfold isBanned. by destruct (read_ban now ip p). Qed.

Lemma conns_config p p' : conns p' = conns p -> d_config p' = d_config p.
Proof. by intros [= E]. Qed.

Lemma calm_trans {A : Type} p p' (r : option (A * DoSProtector)) : conns p' = conns p -> calm p' r -> calm p r.
Proof. intros E (a & q & -> & Hq). exists a, q. split; [done|congruence]. Qed.

Lemma checkIPRateLimit_calm now ip p : 0 <= BanThreshold (d_config p) -> calm p (checkIPRateLimit now ip p).
Proof.
  intros H. destruct (getOrCreate_calm now ip p H) as (st & p1 & E & Hc). unfold calm, checkIPRateLimit. rewrite E. cbn [mbind option_bind].
  destruct (limiter_Allow _ _) as [ok l]. do 2 eexists. split; [reflexivity|]. rewrite <- Hc. done.
Qed.

Lemma check_ip_calm now ip p : 0 <= BanThreshold (d_config p) -> calm p (check_ip now ip p).
Proof.
  intros H. destruct (checkIPRateLimit_calm now ip p H) as (r & p1 & E & Hc). unfold check_ip. rewrite E. cbn [mbind option_bind].
  destruct r; [|by exists None, p1]. eapply calm_trans; [|apply violated_calm]; [exact Hc|]. cbn. by rewrite (conns_config _ _ Hc).
Qed.

Lemma CheckRequest_calm now addr size p : 0 <= BanThreshold (d_config p) -> calm p (CheckRequest now addr size p).
Proof.
  intros H. unfold CheckRequest. set (p1 := bump _ p). assert (H1 : conns p1 = conns p) by done. clearbody p1.
  destruct (bool_decide _); [by do 2 eexists|]. set (q := if bool_decide (dosExtractIP addr ∈ whitelist p1) then (false, p1) else isBanned now (dosExtractIP addr) p1).
  assert (Hq : conns q.2 = conns p) by (unfold q; destruct (bool_decide _); [done|by rewrite isBanned_conns]). destruct q as [banned p2]. cbn in Hq.
  assert (H2 : 0 <= BanThreshold (d_config p2)) by (by rewrite (conns_config _ _ Hq)).
  destruct banned; [by do 2 eexists|]. apply (calm_trans p p2); [exact Hq|]. unfold check_limits.
  destruct (_ >? _); [by eapply calm_trans; [|apply violated_calm]|]. destruct (_ <=? _); [by do 2 eexists|]. destruct (bool_decide _); [by do 2 eexists|].
  destruct (limiter_Allow _ _) as [ok g]. destruct (negb ok); [by do 2 eexists|]. eapply calm_trans; [|by apply check_ip_calm]. done.
Qed.

Lemma CheckSlowClient_calm now addr bytes duration p : 0 <= BanThreshold (d_config p) -> calm p (CheckSlowClient now addr bytes duration p).
Proof.
  intros H. unfold CheckSlowClient. destruct (_ =? _); [by do 2 eexists|]. destruct (_ && _); [|by do 2 eexists]. by eapply calm_trans; [|apply violated_calm].
Qed.

Lemma cleanup_conns now ips banned p : conns (dos_cleanup now ips banned p) = conns p.
Proof.
  unfold dos_cleanup. transitivity (conns (foldl (forget_client (Time_Add now (- (300 * Second)))) p ips)).
  - generalize (foldl (forget_client (Time_Add now (- (300 * Second)))) p ips) as q. induction banned as [|ip banned IH]; intros q; [done|]. cbn [foldl]. rewrite IH.
    unfold forget_ban. destruct (bans q !! ip); [|done]. by destruct (After _ _).
  - revert p. induction ips as [|ip ips IH]; intros p; [done|]. cbn [foldl]. rewrite IH. unfold forget_client. destruct (ipStates p !! ip); [|done]. by destruct (Before _ _).
Qed.

(** ** Connections *)

Section Tally.
Context (f : client -> bool).
Definition one_if (c : client) : Z := if f c then 1 else 0.

Lemma tally_app a b : tally f (a ++ b) = tally f a + tally f b.
Proof. unfold tally. rewrite filter_app, length_app. lia. Qed.

Lemma tally_nil : tally f [] = 0.
Proof. done. Qed.

Lemma tally_cons c cs : tally f (c :: cs) = one_if c + tally f cs.
Proof. unfold tally, one_if. rewrite filter_cons. destruct (f c); [rewrite decide_True by done|rewrite decide_False by done]; cbn [length]; lia. Qed.

Lemma tally_one c : tally f [c] = one_if c.
Proof. rewrite tally_cons. unfold tally. cbn. lia. Qed.

Lemma tally_nonneg cs : 0 <= tally f cs.
Proof. unfold tally. lia. Qed.

Lemma tally_insert cs i c c' : cs !! i = Some c -> tally f (<[i := c']> cs) = tally f cs - one_if c + one_if c'.
Proof.
  intros Hi. rewrite insert_take_drop by (by eapply lookup_lt_Some). rewrite <- (take_drop_middle cs i c Hi) at 3.
  rewrite !tally_app, !tally_cons. lia.
Qed.

Lemma tally_pos cs i c : cs !! i = Some c -> one_if c <= tally f cs.
Proof.
  intros Hi. rewrite <- (take_drop_middle cs i c Hi), tally_app, tally_cons.
  pose proof (tally_nonneg (take i cs)). pose proof (tally_nonneg (drop (S i) cs)). lia.
Qed.
End Tally.

Lemma one_total c : one_if in_total c = match cl_phase c with PHeld | PLeaving => 1 | _ => 0 end.
Proof. unfold one_if, in_total. by destruct (cl_phase c). Qed.
Lemma one_flight c : one_if in_flight c = match cl_phase c with PPassed | PEntered => 1 | _ => 0 end.
Proof. unfold one_if, in_flight. by destruct (cl_phase c). Qed.

Definition limit32 (n : Z) : Z := Z.max 0 (wraps 32 n).

Record conns_ok (p : DoSProtector) (cs : list client) (peak : Z) : Prop := {
  co_total : totalConnections p = tally in_total cs;
  co_ip ip : connectionsPerIP p !! ip = if tally (at_address ip) cs =? 0 then None else Some (tally (at_address ip) cs);
  co_total_le : tally in_total cs + tally in_flight cs <= limit32 (MaxTotalConnections (d_config p)) + Z.max 0 (peak - 1);
  co_ip_le ip : tally (at_address ip) cs <= limit32 (MaxConnectionsPerIP (d_config p));
  co_peak : tally in_flight cs <= peak
}.

Lemma conns_ok_frame p p' cs k : conns p' = conns p -> conns_ok p cs k -> conns_ok p' cs k.
Proof. intros [= E1 E2 E3 E4] []. split; rewrite ?E1, ?E3; try done. intros ip. by rewrite E2. Qed.

Lemma conns_ok_peak p cs k k' : k <= k' -> conns_ok p cs k -> conns_ok p cs k'.
Proof. intros H [H1 H2 H3 H4 H5]. split; [done|done|lia|done|lia]. Qed.

Lemma i32_lt x : - 2 ^ 31 <= wraps 32 x < 2 ^ 31.
Proof. exact (wraps_range 32 x ltac:(lia)). Qed.

Lemma add32_exact d n : - 2 ^ 31 <= n + d < 2 ^ 31 -> add32 d n = n + d.
Proof. intros H. apply wraps_id; [lia|exact H]. Qed.

(** A call that passes the check of the total. *)
Lemma pass_ok p cs k addr : conns_ok p cs k -> totalConnections p < wraps 32 (MaxTotalConnections (d_config p)) ->
  let cs' := cs ++ [mkClient addr PPassed] in conns_ok p cs' (Z.max k (tally in_flight cs')).
Proof.
  intros [H1 H2 H3 H4 H5] Ht. cbv zeta. pose proof (tally_nonneg in_flight cs).
  split; rewrite ?tally_app, ?tally_one; unfold one_if; cbn [in_total in_flight cl_phase]; rewrite ?Z.add_0_r.
  - done.
  - intros ip. rewrite tally_app, tally_one. unfold one_if. cbn [at_address cl_phase]. by rewrite Z.add_0_r.
  - unfold limit32 in *. lia.
  - intros ip. rewrite tally_app, tally_one. unfold one_if. cbn [at_address cl_phase]. rewrite Z.add_0_r. done.
  - lia.
Qed.

Lemma track_admit_conns now ip p : conns (track_admit now ip p).2 = conns p.
Proof.
  unfold track_admit. destruct (bool_decide _); [done|]. pose proof (isBanned_conns now ip p) as Hc.
  destruct (isBanned _ _ _) as [[] p1]; cbn in Hc; [done|]. destruct (_ <=? _); done.
Qed.

Lemma begin_release_config c p : d_config (begin_release c p).2 = d_config p.
Proof.
  unfold begin_release. destruct (cl_phase c); try done. cbn. unfold drop_connection.
  destruct (connectionsPerIP p !! _); [|done]. destruct (_ >? _); [|done]. by destruct (_ =? _).
Qed.

Lemma go_on_returns now c p : 0 <= BanThreshold (d_config p) -> exists c' p', go_on now c p = Some (c', p') /\ d_config p' = d_config p.
Proof.
  intros Hb. unfold go_on. destruct (cl_phase c); try by do 2 eexists. unfold track_address. destruct (_ <=? _); [|by do 2 eexists].
  destruct (recordViolation_calm now (dosExtractIP (cl_addr c)) (bump (fun s => s <| ConnectionsRejected ::= add64 1 |>) p) Hb) as (p2 & E & Hc).
  rewrite E. do 2 eexists. split; [reflexivity|]. by rewrite (conns_config _ _ Hc).
Qed.

Section Step.
Context (p : DoSProtector) (cs : list client) (k : Z) (i : nat) (c : client).
Hypothesis Hok : conns_ok p cs k.
Hypothesis Hi : cs !! i = Some c.
Hypothesis Hk : limit32 (MaxTotalConnections (d_config p)) + k < 2 ^ 31.

(** An address that has room is counted. *)
Lemma enter_ok (ip := dosExtractIP (cl_addr c)) : cl_phase c = PPassed ->
  default 0 (connectionsPerIP p !! ip) < wraps 32 (MaxConnectionsPerIP (d_config p)) ->
  conns_ok (p <| connectionsPerIP ::= <[ip := add32 1 (default 0 (connectionsPerIP p !! ip))]> |>) (<[i := mkClient (cl_addr c) PEntered]> cs) k.
Proof.
  intros Hp Hr. destruct Hok as [H1 H2 H3 H4 H5]. pose proof (i32_lt (MaxConnectionsPerIP (d_config p))).
  assert (Hcur : default 0 (connectionsPerIP p !! ip) = tally (at_address ip) cs).
  { rewrite H2. destruct (Z.eqb_spec (tally (at_address ip) cs) 0); cbn; lia. }
  rewrite Hcur in *. pose proof (tally_nonneg (at_address ip) cs).
  assert (Hat : forall x, tally (at_address x) (<[i := mkClient (cl_addr c) PEntered]> cs) = tally (at_address x) cs + if decide (ip = x) then 1 else 0).
  { intros x. rewrite (tally_insert _ cs i c _ Hi). unfold one_if, at_address. rewrite Hp. cbn [cl_phase cl_addr]. fold ip.
    destruct (decide (ip = x)); [rewrite bool_decide_true by done|rewrite bool_decide_false by done]; lia. }
  split; cbn.
  - rewrite (tally_insert _ cs i c _ Hi). rewrite ?one_total, ?one_flight, Hp. cbn [cl_phase]. lia.
  - intros x. rewrite Hat. destruct (decide (ip = x)) as [<-|Hne].
    + rewrite lookup_insert_eq, add32_exact by lia. destruct (Z.eqb_spec (tally (at_address ip) cs + 1) 0); [lia|done].
    + rewrite lookup_insert_ne by done. by rewrite Z.add_0_r.
  - rewrite !(tally_insert _ cs i c _ Hi). rewrite ?one_total, ?one_flight, Hp. cbn [cl_phase]. lia.
  - intros x. rewrite Hat. specialize (H4 x). unfold limit32 in *. destruct (decide (ip = x)) as [<-|]; lia.
  - rewrite (tally_insert _ cs i c _ Hi). rewrite ?one_total, ?one_flight, Hp. cbn [cl_phase]. lia.
Qed.

(** A step of one connection that leaves the counts of the addresses. *)
Lemma phase_ok p' c' :
  d_config p' = d_config p -> connectionsPerIP p' = connectionsPerIP p ->
  totalConnections p' = tally in_total (<[i := c']> cs) ->
  (forall ip, at_address ip c' = at_address ip c) ->
  one_if in_total c' + one_if in_flight c' <= one_if in_total c + one_if in_flight c ->
  one_if in_flight c' <= one_if in_flight c ->
  conns_ok p' (<[i := c']> cs) k.
Proof.
  intros Ec Em Et Ha Hs Hf. destruct Hok as [H1 H2 H3 H4 H5].
  assert (Hat : forall ip, tally (at_address ip) (<[i := c']> cs) = tally (at_address ip) cs).
  { intros ip. rewrite (tally_insert _ cs i c _ Hi). unfold one_if. rewrite Ha. lia. }
  split; rewrite ?Ec, ?Em; [done|intros ip; by rewrite Hat|rewrite !(tally_insert _ cs i c _ Hi); lia|intros ip; by rewrite Hat|].
  rewrite (tally_insert _ cs i c _ Hi). lia.
Qed.

Lemma add_total_ok d ph : cl_phase c = PEntered /\ d = 1 /\ ph = PHeld \/ cl_phase c = PLeaving /\ d = -1 /\ ph = PDone ->
  conns_ok (add_total d p) (<[i := mkClient (cl_addr c) ph]> cs) k.
Proof.
  intros H. assert (totalConnections (add_total d p) = tally in_total (<[i := mkClient (cl_addr c) ph]> cs)) as E.
  { rewrite (tally_insert _ cs i c _ Hi). unfold add_total. cbn. destruct Hok as [H1 _ H3 _ H5]. rewrite H1.
    pose proof (tally_nonneg in_flight cs). pose proof (tally_pos in_total cs i c Hi). pose proof (tally_pos in_flight cs i c Hi).
    pose proof (tally_nonneg in_total cs). assert (0 <= limit32 (MaxTotalConnections (d_config p))) by (unfold limit32; lia).
    rewrite ?one_total, ?one_flight in *. destruct H as [(Ec & -> & ->)|(Ec & -> & ->)]; rewrite Ec in *; cbn [cl_phase]; (rewrite add32_exact by lia; lia). }
  apply phase_ok; [done|done|exact E| |..]; rewrite ?one_total, ?one_flight; unfold at_address;
    destruct H as [(Ec & -> & ->)|(Ec & -> & ->)]; rewrite Ec; cbn [cl_phase cl_addr]; (done || lia).
Qed.

(** The address of a connection that is released is counted down. *)
Lemma leave_ok (ip := dosExtractIP (cl_addr c)) : cl_phase c = PHeld ->
  conns_ok (drop_connection ip p) (<[i := mkClient (cl_addr c) PLeaving]> cs) k.
Proof.
  intros Hp. destruct Hok as [H1 H2 H3 H4 H5].
  assert (Hat : forall x, tally (at_address x) (<[i := mkClient (cl_addr c) PLeaving]> cs) = tally (at_address x) cs - if decide (ip = x) then 1 else 0).
  { intros x. rewrite (tally_insert _ cs i c _ Hi). unfold one_if, at_address. rewrite Hp. cbn [cl_phase cl_addr]. fold ip.
    destruct (decide (ip = x)); [rewrite bool_decide_true by done|rewrite bool_decide_false by done]; lia. }
  assert (Hpos : 1 <= tally (at_address ip) cs).
  { etrans; [|apply (tally_pos _ cs i c Hi)]. unfold one_if, at_address. rewrite Hp, bool_decide_true by done. done. }
  assert (Hm : forall x, connectionsPerIP (drop_connection ip p) !! x =
    if tally (at_address x) cs - (if decide (ip = x) then 1 else 0) =? 0 then None else Some (tally (at_address x) cs - if decide (ip = x) then 1 else 0)).
  { intros x. unfold drop_connection. rewrite (H2 ip), (proj2 (Z.eqb_neq _ _)), (proj2 (Z.gtb_lt _ _)) by lia.
    destruct (Z.eqb_spec (tally (at_address ip) cs - 1) 0) as [E|E]; cbn.
    all: destruct (decide (ip = x)) as [<-|Hne]; rewrite ?lookup_delete_eq, ?lookup_insert_eq, ?lookup_delete_ne, ?lookup_insert_ne, ?Z.sub_0_r, ?H2 by done; try done.
    - by rewrite (proj2 (Z.eqb_eq _ _)).
    - by rewrite (proj2 (Z.eqb_neq _ _)). }
  assert (Hd : d_config (drop_connection ip p) = d_config p /\ totalConnections (drop_connection ip p) = totalConnections p).
  { unfold drop_connection. destruct (connectionsPerIP p !! ip); [|done]. destruct (_ >? _); [|done]. by destruct (_ =? _). }
  destruct Hd as [Ed Et]. split; rewrite ?Ed, ?Et.
  - rewrite (tally_insert _ cs i c _ Hi). rewrite ?one_total, ?one_flight, Hp. cbn [cl_phase]. lia.
  - intros x. by rewrite Hm, Hat.
  - rewrite !(tally_insert _ cs i c _ Hi). rewrite ?one_total, ?one_flight, Hp. cbn [cl_phase]. lia.
  - intros x. rewrite Hat. specialize (H4 x). destruct (decide (ip = x)); lia.
  - rewrite (tally_insert _ cs i c _ Hi). rewrite ?one_total, ?one_flight, Hp. cbn [cl_phase]. lia.
Qed.

Lemma begin_release_ok : conns_ok (begin_release c p).2 (<[i := (begin_release c p).1]> cs) k.
Proof.
  unfold begin_release. destruct (cl_phase c) eqn:Hp; cbn [fst snd]; rewrite ?list_insert_id by done; try done. by apply leave_ok.
Qed.

Lemma go_on_ok now c' p' : 0 <= BanThreshold (d_config p) -> go_on now c p = Some (c', p') -> conns_ok p' (<[i := c']> cs) k.
Proof.
  intros Hb. unfold go_on. destruct (cl_phase c) eqn:Hp.
  - unfold track_address. destruct (Z.leb_spec (wraps 32 (MaxConnectionsPerIP (d_config p))) (default 0 (connectionsPerIP p !! dosExtractIP (cl_addr c)))).
    + destruct (recordViolation_calm now (dosExtractIP (cl_addr c)) (bump (fun s => s <| ConnectionsRejected ::= add64 1 |>) p) Hb) as (p2 & E & Hc).
      rewrite E. intros [= <- <-]. apply (conns_ok_frame p); [exact Hc|].
      destruct Hok as [H1 _ _ _ _]. apply phase_ok; [done|done| |..]; rewrite ?(tally_insert _ cs i c _ Hi), ?one_total, ?one_flight; unfold at_address;
        rewrite Hp; cbn [cl_phase cl_addr]; (done || lia).
    + intros [= <- <-]. by apply enter_ok.
  - intros [= <- <-]. apply add_total_ok. by left.
  - intros [= <- <-]. by rewrite list_insert_id.
  - intros [= <- <-]. apply add_total_ok. by right.
  - intros [= <- <-]. by rewrite list_insert_id.
Qed.
End Step.

Lemma track_admit_ok now addr p cs k : conns_ok p cs k ->
  let '(err, p') := track_admit now (dosExtractIP addr) p in
  let cs' := match err with Some _ => cs | None => cs ++ [mkClient addr PPassed] end in
  conns_ok p' cs' (Z.max k (tally in_flight cs')).
Proof.
  intros Hok. unfold track_admit. destruct (bool_decide _); [eapply conns_ok_peak; [|done]; lia|].
  pose proof (isBanned_conns now (dosExtractIP addr) p) as Hc. destruct (isBanned _ _ _) as [banned p1]. cbn in Hc.
  pose proof (conns_ok_frame _ _ _ _ Hc Hok) as Hok1. pose proof (conns_config _ _ Hc) as Hcfg.
  destruct banned; [eapply conns_ok_peak; [|done]; lia|].
  destruct (Z.leb_spec (wraps 32 (MaxTotalConnections (d_config p1))) (totalConnections p1)).
  - eapply conns_ok_peak; [|by eapply conns_ok_frame; [|exact Hok1]]. lia.
  - by apply pass_ok.
Qed.

Lemma dos_step_ok p cs k e p' cs' : 0 <= BanThreshold (d_config p) -> limit32 (MaxTotalConnections (d_config p)) + k < 2 ^ 31 ->
  conns_ok p cs k -> dos_step (p, cs) e = Some (p', cs') -> conns_ok p' cs' (Z.max k (tally in_flight cs')).
Proof.
  intros Hb Hk Hok.
  assert (Hframe : forall q, conns q = conns p -> Some (q, cs) = Some (p', cs') -> conns_ok p' cs' (Z.max k (tally in_flight cs'))).
  { intros q Hc [= <- <-]. eapply conns_ok_peak; [|by eapply conns_ok_frame]. lia. }
  assert (Hcalm : forall A (r : option (A * DoSProtector)), calm p r -> ('(_, p) ← r; Some (p, cs)) = Some (p', cs') ->
    conns_ok p' cs' (Z.max k (tally in_flight cs'))).
  { intros A r (a & q & -> & Hc). by apply Hframe. }
  destruct e as [now addr size|now addr bytes duration|now addr|now i|i| | |ip|ip add|ip add|now ips banned]; cbn [dos_step].
  - by apply Hcalm, CheckRequest_calm.
  - by apply Hcalm, CheckSlowClient_calm.
  - pose proof (track_admit_ok now addr p cs k Hok) as H. destruct (track_admit _ _ _) as [err q]. intros [= <- <-]. by destruct err.
  - destruct (cs !! i) as [c|] eqn:Hi; [|by apply Hframe]. destruct (go_on now c p) as [[c' q]|] eqn:E; [|done]. intros [= <- <-].
    eapply conns_ok_peak; [|by eapply go_on_ok]. lia.
  - destruct (cs !! i) as [c|] eqn:Hi; [|by apply Hframe]. pose proof (begin_release_ok p cs k i c Hok Hi) as H.
    destruct (begin_release c p) as [c' q]. intros [= <- <-]. eapply conns_ok_peak; [|exact H]. lia.
  - apply Hframe. unfold BeginRequest. destruct (_ && _); [done|]. by destruct (_ && _).
  - by apply Hframe.
  - apply Hframe. unfold Unban. by destruct (bans p !! ip).
  - apply Hframe. by destruct add.
  - apply Hframe. by destruct add.
  - apply Hframe, cleanup_conns.
Qed.

Lemma dos_step_returns p cs e : 0 <= BanThreshold (d_config p) ->
  exists p' cs', dos_step (p, cs) e = Some (p', cs') /\ d_config p' = d_config p.
Proof.
  intros Hb.
  assert (Hframe : forall p', conns p' = conns p -> exists p'' cs', Some (p', cs) = Some (p'', cs') /\ d_config p'' = d_config p).
  { intros p' Hc. exists p', cs. split; [done|]. by apply conns_config. }
  assert (Hcalm : forall A (r : option (A * DoSProtector)), calm p r -> exists p' cs', ('(_, p) ← r; Some (p, cs)) = Some (p', cs') /\ d_config p' = d_config p).
  { intros A r (a & p' & -> & Hc). by apply Hframe. }
  destruct e as [now addr size|now addr bytes duration|now addr|now i|i| | |ip|ip add|ip add|now ips banned]; cbn [dos_step].
  - by apply Hcalm, CheckRequest_calm.
  - by apply Hcalm, CheckSlowClient_calm.
  - pose proof (track_admit_conns now (dosExtractIP addr) p) as Hc. destruct (track_admit _ _ _). do 2 eexists. split; [done|]. by apply conns_config.
  - destruct (cs !! i) as [c|]; [|by apply Hframe]. destruct (go_on_returns now c p Hb) as (c' & p' & -> & Hc). by do 2 eexists.
  - destruct (cs !! i) as [c|]; [|by apply Hframe]. pose proof (begin_release_config c p). destruct (begin_release c p). by do 2 eexists.
  - apply Hframe. unfold BeginRequest. destruct (_ && _); [done|]. by destruct (_ && _).
  - by apply Hframe.
  - apply Hframe. unfold Unban. by destruct (bans p !! ip).
  - apply Hframe. by destruct add.
  - apply Hframe. by destruct add.
  - apply Hframe, cleanup_conns.
Qed.

Lemma dos_run_ok es : forall p cs k, 0 <= BanThreshold (d_config p) ->
  (limit32 (MaxTotalConnections (d_config p)) + k < 2 ^ 31 -> conns_ok p cs k) ->
  exists p' cs' k', dos_run es (p, cs) k = Some (p', cs', k') /\ d_config p' = d_config p /\
    (limit32 (MaxTotalConnections (d_config p)) + k' < 2 ^ 31 -> conns_ok p' cs' k').
Proof.
  induction es as [|e es IH]; intros p cs k Hb Hok; cbn [dos_run]; [by exists p, cs, k|].
  destruct (dos_step_returns p cs e Hb) as (p1 & cs1 & E & Hc). rewrite E. cbn [mbind option_bind snd].
  destruct (IH p1 cs1 (Z.max k (tally in_flight cs1))) as (p' & cs' & k' & E' & Hc' & Hok').
  - by rewrite Hc.
  - rewrite Hc. intros Hk. exact (dos_step_ok p cs k e p1 cs1 Hb ltac:(lia) (Hok ltac:(lia)) E).
  - exists p', cs', k'. rewrite Hc in *. split; [done|]. split; [by rewrite Hc'|done].
Qed.


(** ** Violations and bans *)

Definition in_window (w now : Z) (ts : list Z) : list Z := filter (fun t => now - w < t) ts.

(** The rule: every violation since the last ban counts for as long as the
    window; [until] is the end of the last ban. *)
Definition ban_rule (threshold w d : Z) (s : list Z * option Z) (now : Z) : list Z * option Z :=
  let '(history, until) := s in
  if threshold <=? Z.of_nat (length (in_window w now history)) + 1 then ([], Some (now + d)) else (history ++ [now], until).

Fixpoint record_run (ip : string) (ts : list Z) (p : DoSProtector) : option DoSProtector :=
  match ts with
  | [] => Some p
  | t :: ts => p ← recordViolation t ip p; record_run ip ts p
  end.

Lemma in_window_twice w now now' ts : now <= now' -> in_window w now' (in_window w now ts) = in_window w now' ts.
Proof.
  intros H. unfold in_window. induction ts as [|t ts IH]; [done|]. rewrite (filter_cons _ t ts). destruct (decide (now - w < t)).
  - rewrite !filter_cons. by rewrite IH.
  - rewrite filter_cons, decide_False by lia. done.
Qed.

Lemma in_window_app w now a b : in_window w now (a ++ b) = in_window w now a ++ in_window w now b.
Proof. apply filter_app. Qed.

Lemma filter_After cutoff (ts : list Z) : filter (fun t => After t cutoff = true) ts = filter (fun t => cutoff < t) ts.
Proof.
  apply list_filter_iff. intros t. unfold After. apply Z.ltb_lt.
Qed.

Definition violations_of (ip : string) (p : DoSProtector) : list Z := default [] (violations <$> ipStates p !! ip).

(** One violation, in terms of the recorded ones. *)
Lemma recordViolation_spec now ip p : 0 <= BanThreshold (d_config p) ->
  exists p', recordViolation now ip p = Some p' /\ d_config p' = d_config p /\
    let vs := in_window (ViolationWindow (d_config p)) now (violations_of ip p) ++ [now] in
    if BanThreshold (d_config p) <=? Z.of_nat (length vs)
    then violations_of ip p' = [] /\ bans p' = <[ip := now + BanDuration (d_config p)]> (bans p)
    else violations_of ip p' = vs /\ bans p' = bans p.
Proof.
  intros Hb. unfold recordViolation, getOrCreateIPState. destruct (ipStates p !! ip) as [st|] eqn:Es.
  - cbn [mbind option_bind]. rewrite filter_After. unfold Time_Add.
    assert (E : violations_of ip p = violations st) by (unfold violations_of; by rewrite Es). rewrite E.
    replace (now + - ViolationWindow (d_config p)) with (now - ViolationWindow (d_config p)) by lia. unfold in_window. cbv zeta.
    destruct (_ <=? _).
    + eexists. split; [reflexivity|]. split; [exact (conns_config _ _ (ban_conns now ip p))|]. unfold violations_of. cbn. rewrite lookup_insert_eq. split; [done|].
      unfold ban, Time_Add. by destruct (bans p !! ip).
    + eexists. split; [reflexivity|]. split; [done|]. unfold violations_of. cbn. rewrite lookup_insert_eq. done.
  - destruct (Z.ltb_spec (BanThreshold (d_config p)) 0); [lia|]. cbn [mbind option_bind]. cbn [violations filter app]. cbv zeta.
    assert (E : violations_of ip p = []) by (unfold violations_of; by rewrite Es). rewrite E.
    cbn [d_config bump set_field]. change (in_window (ViolationWindow (d_config p)) now []) with (@nil Z). cbn [app].
    match goal with |- context [if ?b then Some _ else _] => change b with (BanThreshold (d_config p) <=? Z.of_nat (length [now])); destruct (BanThreshold (d_config p) <=? Z.of_nat (length [now])) end.
    + eexists. split; [reflexivity|]. split; [exact (conns_config _ _ (ban_conns now ip _))|]. unfold violations_of. cbn. rewrite lookup_insert_eq. split; [done|].
      unfold ban, Time_Add. cbn. by destruct (bans p !! ip).
    + eexists. split; [reflexivity|]. split; [done|]. unfold violations_of. cbn. rewrite lookup_insert_eq. done.
Qed.

(** Violations are counted over a sliding window, exactly: for violations of
    one client at times that do not go back, dropping those that are too old at
    each one bans the client at the same times as the rule that remembers all of
    them since its last ban. *)
Theorem violations_refine ip ts p until : 0 <= BanThreshold (d_config p) -> violations_of ip p = [] -> bans p !! ip = until ->
  StronglySorted Z.le ts ->
  exists p', record_run ip ts p = Some p' /\
    bans p' !! ip = (foldl (ban_rule (BanThreshold (d_config p)) (ViolationWindow (d_config p)) (BanDuration (d_config p))) ([], until) ts).2.
Proof.
  intros Hb Hv Hu Hs. set (w := ViolationWindow (d_config p)). set (rule := ban_rule _ _ _).
  assert (Hgen : forall ts q history until, StronglySorted Z.le ts -> d_config q = d_config p -> bans q !! ip = until ->
    (forall now, match ts with [] => False | t :: _ => t <= now end -> in_window w now (violations_of ip q) = in_window w now history) ->
    exists p', record_run ip ts q = Some p' /\ bans p' !! ip = (foldl rule (history, until) ts).2).
  { clear ts Hs Hv Hu until. intros ts. induction ts as [|t ts IH]; intros q history until Hs Hc Hu Hw; [by exists q|]. apply StronglySorted_inv in Hs as [Hs Ht].
    destruct (recordViolation_spec t ip q) as (q' & E & Hc' & Hspec); [by rewrite Hc|]. cbv zeta in Hspec. rewrite Hc in Hspec. fold w in Hspec. rewrite (Hw t) in Hspec by lia.
    cbn [record_run foldl]. rewrite E. cbn [mbind option_bind]. rewrite length_app in Hspec. cbn [length] in Hspec. rewrite Nat2Z.inj_add in Hspec.
    change (Z.of_nat 1) with 1 in Hspec. unfold rule at 2. unfold ban_rule. fold w. destruct (_ <=? _); destruct Hspec as [Hv' Hb'].
    - apply IH; [done|congruence|rewrite Hb'; apply lookup_insert_eq|]. intros now _. by rewrite Hv'.
    - apply IH; [done|congruence|by rewrite Hb'|]. intros now Hnow. destruct ts as [|t' ts]; [done|]. assert (t <= now) by (apply Forall_cons in Ht as [? _]; lia).
      rewrite Hv', !in_window_app. f_equal. by apply in_window_twice. }
  apply Hgen; [done|done|done|]. intros now _. by rewrite Hv.
Qed.

(** Being on the whitelist does not keep a client from being banned, and a
    ban shuts it out of new connections although its requests are still let
    through: oversized requests count as violations whoever sends them, and
    TrackConnection does not look at the whitelist. *)
Theorem whitelisted_banned addr p until size now : dosExtractIP addr ∈ whitelist p -> dosExtractIP addr ∉ blacklist p ->
  bans p !! dosExtractIP addr = Some until -> now <= until ->
  size <= MaxRequestSize (d_config p) -> concurrentRequests p < wraps 32 (MaxConcurrentRequests (d_config p)) ->
  fst <$> CheckRequest now addr size p = Some None /\ TrackConnection now addr p = Some (Some ErrClientBanned, p).
Proof.
  intros Hw Hb Hban Hn Hs Hc. split.
  - unfold CheckRequest. rewrite bool_decide_false by done. rewrite bool_decide_true by done. unfold check_limits. cbn [bump set_field d_config concurrentRequests].
    change (d_config (bump _ p)) with (d_config p). change (concurrentRequests (bump _ p)) with (concurrentRequests p).
    rewrite Z.gtb_ltb, (proj2 (Z.ltb_ge _ _)) by lia. rewrite (proj2 (Z.leb_gt _ _)) by lia. done.
  - unfold TrackConnection, track_admit. rewrite bool_decide_false by done. unfold isBanned, read_ban. rewrite Hban. unfold After. rewrite (proj2 (Z.ltb_ge _ _)) by lia. done.
Qed.

(** A fresh ban can be lost. A check that saw an expired ban removes whatever
    ban the client has by the time it takes the lock: one imposed in between is
    dropped, and two such checks count the banned clients down twice. *)
Theorem ban_expiry_race now ip p until : bans p !! ip = Some until -> until < now ->
  read_ban now ip p = BanExpired /\
  bans (drop_ban ip (ban now ip p)) !! ip = None /\
  CurrentBannedIPs (d_stats (drop_ban ip (drop_ban ip p))) = add32 (-1) (add32 (-1) (CurrentBannedIPs (d_stats p))) /\
  Z.of_nat (size (bans (drop_ban ip (drop_ban ip p)))) = Z.of_nat (size (bans p)) - 1.
Proof.
  intros Hb Hn. split; [|split; [|split]].
  - unfold read_ban. rewrite Hb. unfold After. by rewrite (proj2 (Z.ltb_lt _ _)).
  - cbn. apply lookup_delete_eq.
  - done.
  - cbn. rewrite delete_delete_eq, map_size_delete_Some by (by eexists). assert (size (bans p) <> 0%nat); [|lia].
    intros E%map_size_empty_inv. rewrite E in Hb. done.
Qed.

(** The running requests and the pending ones. *)
Definition request_event (p : DoSProtector) (begin : bool) : DoSProtector := if begin then (BeginRequest p).2 else EndRequest p.

(** The limit on pending requests is no limit of its own: a request is
    pending for as long as it runs, so both counts are always the same and a
    request is let in exactly when the smaller of the two limits allows it. *)
Theorem pending_is_concurrent now cfg begins :
  let p := foldl request_event (NewDoSProtector now cfg) begins in
  let c := default DefaultDoSProtectionConfig cfg in
  pendingRequests p = concurrentRequests p /\
  ((BeginRequest p).1 = true <->
    (0 < MaxPendingRequests c -> concurrentRequests p < wraps 32 (MaxPendingRequests c)) /\
    (0 < MaxConcurrentRequests c -> concurrentRequests p < wraps 32 (MaxConcurrentRequests c))).
Proof.
  cbv zeta. set (p := foldl _ _ _).
  assert (H : pendingRequests p = concurrentRequests p /\ d_config p = default DefaultDoSProtectionConfig cfg).
  { unfold p. clear p. assert (H0 : pendingRequests (NewDoSProtector now cfg) = concurrentRequests (NewDoSProtector now cfg) /\ d_config (NewDoSProtector now cfg) = default DefaultDoSProtectionConfig cfg) by done.
    revert H0. generalize (NewDoSProtector now cfg) as q. induction begins as [|b begins IH]; intros q [Hq Hc]; [done|]. cbn [foldl]. apply IH. unfold request_event.
    destruct b; [|split; [cbn; by rewrite Hq|done]]. unfold BeginRequest. destruct (_ && _); [done|]. destruct (_ && _); [done|]. split; [cbn; by rewrite Hq|done]. }
  clearbody p. destruct H as [H1 H2]. split; [done|]. unfold BeginRequest. rewrite H1, H2, !Z.gtb_ltb.
  destruct (Z.ltb_spec 0 (MaxPendingRequests (default DefaultDoSProtectionConfig cfg))), (Z.ltb_spec 0 (MaxConcurrentRequests (default DefaultDoSProtectionConfig cfg))); cbn [andb];
    repeat match goal with |- context [?a <=? ?b] => destruct (Z.leb_spec a b) end; cbn; split; try done; intros; try split; intros; try lia.
Qed.

(** ** The rate of a client *)

(** The limiter of dos_protection.go as the bucket of rate_limiter.go. *)
Definition as_bucket (l : TokenBucketLimiter) : TokenBucket := mkBucket (l_tokens l) (of_int (burst l)) (rate l) (lastUpdate l).

(** The two token buckets of the program agree on every call. *)
Lemma limiter_agrees now l :
  bucket_Allow now (as_bucket l) = ((limiter_Allow now l).1, as_bucket (limiter_Allow now l).2).
Proof.
  unfold bucket_Allow, limiter_Allow, refill, add_tokens, one, as_bucket. cbn [tokens maxTokens refillRate lastRefill]. destruct (fle _ _); done.
Qed.

(** The answers to requests that come, each [k] seconds after the one before. *)
Fixpoint check_run (now : Z) (rs : list (Z * string * Z)) (p : DoSProtector) : option (list (string * bool)) :=
  match rs with
  | [] => Some []
  | (k, addr, size) :: rs =>
      let now := now + k * Second in
      '(err, p) ← CheckRequest now addr size p;
      answers ← check_run now rs p;
      Some ((dosExtractIP addr, bool_decide (err = None)) :: answers)
  end.

Definition accepted (ip : string) (answers : list (string * bool)) : Z := Z.of_nat (length (filter (fun a => a = (ip, true)) answers)).
Definition duration (rs : list (Z * string * Z)) : Z := foldr (fun '(k, _, _) t => k + t) 0 rs.

Lemma duration_nonneg rs : Forall (fun '(k, _, _) => 0 <= k) rs -> 0 <= duration rs.
Proof. induction 1 as [|[[k addr] size] rs Hk _ IH]; [done|]. change (0 <= k + duration rs). lia. Qed.

Section Rate.
Context (m r T : Z) (ip : string).
Hypothesis m_nonneg : 0 <= m.
Hypothesis r_pos : 0 < r < 2 ^ 53.
Hypothesis T_range : 0 <= T < 2 ^ 33.
Hypothesis no_rounding : m + T * r < 2 ^ 53.

Definition int_limiter (n t : Z) : TokenBucketLimiter := mkLimiter (of_int r) m (of_int n) t.

Lemma limiter_Allow_int n k now : 0 <= n <= m -> 0 <= k <= T ->
  limiter_Allow (now + k * Second) (int_limiter n now) = ((int_Allow m r k n).1, int_limiter (int_Allow m r k n).2 (now + k * Second)).
Proof using r_pos T_range no_rounding m_nonneg.
  intros Hn Hk.
  pose proof (limiter_agrees (now + k * Second) (int_limiter n now)) as H. change (as_bucket (int_limiter n now)) with (int_bucket m r n now) in H.
  rewrite bucket_Allow_int in H by (nia || lia). destruct (limiter_Allow _ _) as [ok l] eqn:E. cbn in H. injection H as H1 H2 H3 H4 H5.
  unfold limiter_Allow in E. unfold int_limiter. destruct (fle _ _); injection E as <- <-; cbn in *; congruence.
Qed.

(** What a client may still send at [now]: its limiter's tokens and those that
    the time since its last call has added; [el] bounds that time. *)
Definition budget (o : option TokenBucketLimiter) (now el n : Z) : Prop :=
  match o with
  | None => n = m
  | Some l => exists n0 k, l = int_limiter n0 (now - k * Second) /\ 0 <= n0 <= m /\ 0 <= k <= el /\ n = Z.min m (n0 + k * r)
  end.
Definition limiter_of (p : DoSProtector) : option TokenBucketLimiter := limiter <$> ipStates p !! ip.

Lemma budget_range o now el n : budget o now el n -> 0 <= n <= m.
Proof using m_nonneg r_pos. destruct o; cbn; [intros (n0 & k & _ & ? & ? & ->); nia|lia]. Qed.

Lemma budget_advance o now el n k : 0 <= k -> budget o now el n -> budget o (now + k * Second) (el + k) (Z.min m (n + k * r)).
Proof using m_nonneg r_pos.
  intros Hk. destruct o as [l|]; cbn; [|intros ->; nia]. intros (n0 & k0 & -> & Hn & Hk0 & ->). exists n0, (k0 + k).
  split; [f_equal; lia|]. split; [done|]. split; [lia|]. nia.
Qed.

(** The part of the state that a client's budget depends on. *)
Definition rate_ok (p : DoSProtector) (now el n : Z) : Prop :=
  0 <= BanThreshold (d_config p) /\ d_PerIPBurstSize (d_config p) = m /\ d_PerIPRequestsPerSecond (d_config p) = r /\
  (ip ∉ whitelist p) /\ budget (limiter_of p) now el n.

Lemma rate_ok_frame p p' now el n : d_config p' = d_config p -> whitelist p' = whitelist p -> ipStates p' = ipStates p ->
  rate_ok p now el n -> rate_ok p' now el n.
Proof using Type. intros E1 E2 E3. unfold rate_ok, limiter_of. by rewrite E1, E2, E3. Qed.

Lemma getOrCreate_rate now ip' p el n : 0 <= el -> rate_ok p now el n ->
  exists st p', getOrCreateIPState now ip' p = Some (st, p') /\ ipStates p' !! ip' = Some st /\ rate_ok p' now el n.
Proof using m_nonneg r_pos.
  intros Hel Hr. pose proof Hr as (Hb & Hm & Hr' & Hw & Hbud). unfold getOrCreateIPState. destruct (ipStates p !! ip') as [st|] eqn:E; [by exists st, p|].
  destruct (Z.ltb_spec (BanThreshold (d_config p)) 0); [lia|]. do 2 eexists. split; [reflexivity|]. split; [cbn; apply lookup_insert_eq|].
  split; [done|]. split; [done|]. split; [done|]. split; [done|]. unfold limiter_of in *. cbn. destruct (decide (ip' = ip)) as [->|Hne].
  - rewrite lookup_insert_eq. cbn. rewrite E in Hbud. cbn in Hbud. exists m, 0. unfold NewTokenBucketLimiter, int_limiter. rewrite Hm, Hr'.
    split; [f_equal; lia|]. split; [lia|]. split; [lia|]. nia.
  - by rewrite lookup_insert_ne.
Qed.

(** Changing a client's record but not its limiter. *)
Lemma rate_ok_update p ip' st st' now el n : rate_ok p now el n -> ipStates p !! ip' = Some st -> limiter st' = limiter st ->
  rate_ok (p <| ipStates ::= <[ip' := st']> |>) now el n.
Proof using Type.
  intros (Hb & Hm & Hr & Hw & Hbud) Hs Hl. split; [done|]. split; [done|]. split; [done|]. split; [done|]. unfold limiter_of in *. cbn.
  destruct (decide (ip' = ip)) as [->|Hne]; [|by rewrite lookup_insert_ne]. rewrite lookup_insert_eq. rewrite Hs in Hbud. cbn in *. by rewrite Hl.
Qed.

Lemma recordViolation_rate now ip' p el n : 0 <= el -> rate_ok p now el n -> exists p', recordViolation now ip' p = Some p' /\ rate_ok p' now el n.
Proof using m_nonneg r_pos.
  intros Hel Hr. destruct (getOrCreate_rate now ip' p el n Hel Hr) as (st & p1 & E & Hst & Hr1). unfold recordViolation. rewrite E. cbn [mbind option_bind].
  destruct (_ <=? _); eexists; (split; [reflexivity|]); [|by eapply rate_ok_update; [exact Hr1|exact Hst|]].
  assert (Hb : ipStates (ban now ip' p1) = ipStates p1 /\ whitelist (ban now ip' p1) = whitelist p1) by (unfold ban; by destruct (bans p1 !! ip')).
  destruct Hb as [Hb1 Hb2]. eapply rate_ok_update; [|by rewrite Hb1|reflexivity].
  eapply rate_ok_frame; [exact (conns_config _ _ (ban_conns now ip' p1))|done|done|exact Hr1].
Qed.

(** A request that reaches the client's limiter. *)
Lemma check_ip_rate now ip' p el n : 0 <= el <= T -> rate_ok p now el n ->
  exists err p', check_ip now ip' p = Some (err, p') /\
    (if bool_decide (ip' = ip /\ err = None) then 1 <= n /\ rate_ok p' now el (n - 1) else rate_ok p' now el n).
Proof using All.
  intros Hel Hr. destruct (getOrCreate_rate now ip' p el n ltac:(lia) Hr) as (st & p1 & E & Hst & Hr1). unfold check_ip, checkIPRateLimit. rewrite E. cbn [mbind option_bind].
  destruct (limiter_Allow now (limiter st)) as [ok l] eqn:El.
  set (p2 := p1 <| ipStates ::= <[ip' := mkIpState l (violations st) (connections st) now]> |>).
  assert (H2 : if bool_decide (ip' = ip /\ ok = true) then 1 <= n /\ rate_ok p2 now el (n - 1) else rate_ok p2 now el n).
  { destruct Hr1 as (Hb & Hm & Hr' & Hw & Hbud). destruct (decide (ip' = ip)) as [->|Hne].
    - unfold limiter_of in Hbud. rewrite Hst in Hbud. cbn in Hbud. destruct Hbud as (n0 & k & Hl & Hn0 & Hk & ->). rewrite Hl in El.
      assert (Hal := limiter_Allow_int n0 k (now - k * Second) Hn0 ltac:(lia)). replace (now - k * Second + k * Second) with now in Hal by lia.
      rewrite Hal in El. unfold int_Allow in El. destruct (Z.leb_spec 1 (Z.min m (n0 + k * r))); injection El as <- <-.
      + rewrite bool_decide_true by done. split; [done|]. split; [done|]. split; [done|]. split; [done|]. split; [done|].
        unfold limiter_of, p2. cbn. rewrite lookup_insert_eq. cbn. exists (Z.min m (n0 + k * r) - 1), 0. split; [f_equal; lia|]. split; [nia|]. split; [lia|]. nia.
      + rewrite bool_decide_false by naive_solver. split; [done|]. split; [done|]. split; [done|]. split; [done|].
        unfold limiter_of, p2. cbn. rewrite lookup_insert_eq. cbn. exists (Z.min m (n0 + k * r)), 0. split; [f_equal; lia|]. split; [nia|]. split; [lia|]. nia.
    - rewrite bool_decide_false by tauto. split; [done|]. split; [done|]. split; [done|]. split; [done|].
      unfold limiter_of, p2 in *. cbn. by rewrite lookup_insert_ne. }
  clearbody p2. destruct ok; cbn [mbind option_bind].
  - do 2 eexists. split; [reflexivity|]. destruct (decide (ip' = ip)) as [->|Hne]; [by rewrite !bool_decide_true in * by done|]. rewrite bool_decide_false in * by tauto. done.
  - rewrite bool_decide_false in H2 by naive_solver.
    destruct (recordViolation_rate now ip' (bump (fun s => s <| RateLimitedRequests ::= add64 1 |>) p2) el n ltac:(lia)) as (p3 & E3 & H3); [done|].
    rewrite E3. do 2 eexists. split; [reflexivity|]. by rewrite bool_decide_false by naive_solver.
Qed.

Lemma CheckRequest_rate now addr size p el n : 0 <= el <= T -> rate_ok p now el n ->
  exists err p', CheckRequest now addr size p = Some (err, p') /\
    (if bool_decide (dosExtractIP addr = ip /\ err = None) then 1 <= n /\ rate_ok p' now el (n - 1) else rate_ok p' now el n).
Proof using All.
  intros Hel Hr. unfold CheckRequest. set (p1 := bump _ p). assert (Hr1 : rate_ok p1 now el n) by (by eapply rate_ok_frame; [..|exact Hr]). clearbody p1.
  destruct (bool_decide (dosExtractIP addr ∈ blacklist p1)).
  { do 2 eexists. split; [reflexivity|]. rewrite bool_decide_false by naive_solver. by eapply rate_ok_frame; [..|exact Hr1]. }
  set (q := if bool_decide (dosExtractIP addr ∈ whitelist p1) then (false, p1) else isBanned now (dosExtractIP addr) p1).
  assert (Hq : rate_ok q.2 now el n).
  { unfold q. destruct (bool_decide _); [done|]. unfold isBanned. destruct (read_ban _ _ _); [done| |done]. by eapply rate_ok_frame; [..|exact Hr1]. }
  destruct q as [banned p2]. cbn [snd] in Hq. destruct banned.
  { do 2 eexists. split; [reflexivity|]. rewrite bool_decide_false by naive_solver. by eapply rate_ok_frame; [..|exact Hq]. }
  unfold check_limits. destruct (_ >? _).
  { destruct (recordViolation_rate now (dosExtractIP addr) (bump (fun s => s <| OversizedRequests ::= add64 1 |>) p2) el n ltac:(lia)) as (p3 & E3 & H3); [by eapply rate_ok_frame; [..|exact Hq]|].
    rewrite E3. do 2 eexists. split; [reflexivity|]. by rewrite bool_decide_false by naive_solver. }
  destruct (_ <=? _). { do 2 eexists. split; [reflexivity|]. by rewrite bool_decide_false by naive_solver. }
  destruct (bool_decide (dosExtractIP addr ∈ whitelist p1)) eqn:Ew.
  { apply bool_decide_eq_true in Ew. do 2 eexists. split; [reflexivity|]. rewrite bool_decide_false; [done|]. intros [E _]. rewrite E in Ew. by destruct Hr1 as (_ & _ & _ & ? & _). }
  destruct (limiter_Allow now (globalLimiter p2)) as [ok g]. assert (H3 : rate_ok (p2 <| globalLimiter := g |>) now el n) by (by eapply rate_ok_frame; [..|exact Hq]).
  destruct (negb ok); [|by apply check_ip_rate]. do 2 eexists. split; [reflexivity|]. rewrite bool_decide_false by naive_solver. by eapply rate_ok_frame; [..|exact H3].
Qed.

Lemma check_run_rate rs : forall now p el n, Forall (fun '(k, _, _) => 0 <= k) rs -> 0 <= el -> el + duration rs <= T -> rate_ok p now el n ->
  exists answers, check_run now rs p = Some answers /\ accepted ip answers <= n + r * duration rs.
Proof using All.
  induction rs as [|[[k addr] size] rs IH]; intros now p el n Hk Hel HT Hr; cbn [check_run duration foldr] in *.
  { exists []. split; [done|]. unfold accepted. cbn. destruct Hr as (_ & _ & _ & _ & Hr%budget_range). lia. }
  fold (duration rs) in *. apply Forall_cons in Hk as [Hk Hks].
  pose proof (duration_nonneg rs Hks) as Hd.
  assert (Hr1 : rate_ok p (now + k * Second) (el + k) (Z.min m (n + k * r))).
  { destruct Hr as (H1 & H2 & H3 & H4 & H5). split; [done|]. split; [done|]. split; [done|]. split; [done|]. by apply budget_advance. }
  destruct (CheckRequest_rate (now + k * Second) addr size p (el + k) _ ltac:(lia) Hr1) as (err & p' & E & H'). rewrite E. cbn [mbind option_bind].
  destruct (decide (dosExtractIP addr = ip /\ err = None)) as [Hd'|Hd'].
  - rewrite bool_decide_true in H' by done. destruct H' as [H1 H2], Hd' as [Hip ->]. destruct (IH _ _ (el + k) _ Hks ltac:(lia) ltac:(lia) H2) as (answers & -> & Ha).
    eexists. split; [reflexivity|]. unfold accepted in *. rewrite filter_cons, decide_True by (by rewrite Hip). cbn [length]. nia.
  - rewrite bool_decide_false in H' by done. destruct (IH _ _ (el + k) _ Hks ltac:(lia) ltac:(lia) H') as (answers & -> & Ha).
    eexists. split; [reflexivity|]. unfold accepted in *. rewrite filter_cons, decide_False; [nia|]. intros [= E1 E2]. bool_prop. tauto.
Qed.

(** CheckRequest keeps every client to its rate. However requests of many
    clients interleave, one that is not on the whitelist has at most its burst
    plus its rate times the seconds that passed let through, and every request
    is answered. *)
Theorem client_rate_bounded now0 cfg now rs : ip ∉ whitelist (NewDoSProtector now0 (Some cfg)) -> 0 <= BanThreshold cfg ->
  d_PerIPBurstSize cfg = m -> d_PerIPRequestsPerSecond cfg = r -> Forall (fun '(k, _, _) => 0 <= k) rs -> duration rs <= T ->
  exists answers, check_run now rs (NewDoSProtector now0 (Some cfg)) = Some answers /\ accepted ip answers <= m + r * duration rs.
Proof using All.
  intros Hw Hb Hm Hr Hks HT. apply (check_run_rate rs now _ 0 m); [done|lia|lia|]. split; [done|]. split; [done|]. split; [done|]. split; [done|done].
Qed.
End Rate.

(** ** Witnesses *)

Definition tiny_dos : DoSProtectionConfig := mkDoSConfig 100 10 2 3 2 3 1000 0 0 0 0 0 10 3 50 20 5 7 0 [] [].

(** Two calls that load the total before either adds to it: with room for one
    connection both are let in. *)
Example total_limit_passed :
  let cfg := mkDoSConfig 100 10 2 3 2 1 1000 0 0 0 0 0 10 3 50 20 5 7 0 [] [] in
  MaxTotalConnections cfg = 1 /\
  match dos_run [ETrack 0 "10.0.0.1:1"; ETrack 0 "10.0.0.2:1"; EGo 0 0; EGo 0 0; EGo 0 1; EGo 0 1] (NewDoSProtector 0 (Some cfg), []) 0 with
  | Some (p, cs, peak) => (totalConnections p, peak) = (2, 2)
  | None => False
  end.
Proof. vm_compute. split; reflexivity. Qed.


Lemma violations_refine_witness :
  exists p', record_run "10.0.0.1" [1; 2; 30; 31; 32] (NewDoSProtector 0 (Some tiny_dos)) = Some p' /\
    bans p' !! "10.0.0.1"%string = (foldl (ban_rule 3 20 50) ([], None) [1; 2; 30; 31; 32]).2.
Proof.
  apply (violations_refine "10.0.0.1" [1; 2; 30; 31; 32] (NewDoSProtector 0 (Some tiny_dos)) None); [cbn; lia|reflexivity|reflexivity|].
  repeat (apply SSorted_cons || apply SSorted_nil || apply List.Forall_cons || apply List.Forall_nil || lia).
Defined.

Example violations_ex : (foldl (ban_rule 3 20 50) ([], None) [1; 2; 30; 31; 32]).2 = Some 82.
Proof. reflexivity. Qed.

Definition banned_friend : DoSProtector := ban 5 "10.0.0.1" (AddToWhitelist "10.0.0.1" (NewDoSProtector 0 (Some tiny_dos))).

Lemma whitelisted_banned_witness :
  fst <$> CheckRequest 10 "10.0.0.1:5060" 100 banned_friend = Some None /\ TrackConnection 10 "10.0.0.1:5060" banned_friend = Some (Some ErrClientBanned, banned_friend).
Proof.
  apply (whitelisted_banned "10.0.0.1:5060" banned_friend 55 100 10);
    [apply (bool_decide_unpack _); vm_compute; exact I|apply (bool_decide_unpack _); vm_compute; exact I|vm_compute; reflexivity|lia|vm_compute; discriminate|vm_compute; reflexivity].
Defined.

Lemma ban_expiry_race_witness :
  read_ban 60 "10.0.0.1" banned_friend = BanExpired /\
  bans (drop_ban "10.0.0.1" (ban 60 "10.0.0.1" banned_friend)) !! "10.0.0.1"%string = None /\
  CurrentBannedIPs (d_stats (drop_ban "10.0.0.1" (drop_ban "10.0.0.1" banned_friend))) = add32 (-1) (add32 (-1) (CurrentBannedIPs (d_stats banned_friend))) /\
  Z.of_nat (size (bans (drop_ban "10.0.0.1" (drop_ban "10.0.0.1" banned_friend)))) = Z.of_nat (size (bans banned_friend)) - 1.
Proof. apply (ban_expiry_race 60 "10.0.0.1" banned_friend 55); [vm_compute; reflexivity|lia]. Defined.

Lemma client_rate_bounded_witness :
  exists answers, check_run 0 [(0, "10.0.0.1:1"%string, 5); (0, "10.0.0.1:2"%string, 5); (1, "10.0.0.2:1"%string, 5); (2, "10.0.0.1:1"%string, 5)] (NewDoSProtector 0 (Some tiny_dos)) = Some answers /\
    accepted "10.0.0.1" answers <= 3 + 2 * 3.
Proof.
  apply (client_rate_bounded 3 2 10 "10.0.0.1") with (cfg := tiny_dos) (rs := [(0, "10.0.0.1:1"%string, 5); (0, "10.0.0.1:2"%string, 5); (1, "10.0.0.2:1"%string, 5); (2, "10.0.0.1:1"%string, 5)]);
    [lia|lia|lia|lia|apply (bool_decide_unpack _); vm_compute; exact I|cbn; lia|reflexivity|reflexivity|repeat constructor; lia|cbn; lia].
Defined.
