(* ===== verification/MediaPlayer.v ===== *)
(** * The media player

    Models src/internal/media_player.go: audio files (raw, or WAV with its chunks
    found and 16-bit samples turned into mu-law), playback sessions and the RTP
    packets they give, and the player's table of sessions. What the file system
    holds under a path is an argument; an open file is its contents and a position.

    [GetNextPacket] slices past the end of the audio when it loops, which Go
    allows up to the capacity of the slice: a session keeps the bytes that lie
    beyond its audio in memory, [spare]. *)

From Stdlib Require Import ZArith Lia Ascii String.
From stdpp Require Import base numbers list gmap strings.
From S2P Require Import Prelude GoFloat Bytes Codec.

Local Open Scope Z_scope.
Local Open Scope go_scope.
#[local] Arguments wraps : simpl never.
#[local] Arguments wrapu : simpl never.

(** ** Mu-law *)

(** [for exponent > 0 { if sample & expMask != 0 { break }; exponent--; expMask >>= 1 }]. *)
Fixpoint find_exponent (exponent : nat) (expMask sample : Z) : nat :=
  match exponent with
  | O => O
  | S e => if negb (Z.land sample expMask =? 0) then exponent else find_exponent e (Z.shiftr expMask 1) sample
  end.

(** [sample] is an [int16]; [BIAS] is 132 and [CLIP] 32635. *)
Definition linearToUlaw (sample : Z) : Z :=
  let sign := if sample <? 0 then 128 else 0 in
  let sample := if sample <? 0 then i16 (- sample) else sample in
  let sample := if sample >? 32635 then 32635 else sample in
  let sample := i16 (sample + 132) in
  let exponent := find_exponent 7 0x4000 sample in
  let mantissa := u8 (Z.land (Z.shiftr sample (Z.of_nat exponent + 3)) 15) in
  255 - Z.lor (Z.lor sign (u8 (Z.shiftl (Z.of_nat exponent) 4))) mantissa.

(** Little-endian reads. *)
Definition le16 (lo hi : Z) : Z := Z.lor lo (Z.shiftl hi 8).
Definition byte_of (data : list Z) (i : nat) : Z := default 0 (data !! i).
Definition Uint16LE (data : list Z) (i : nat) : Z := le16 (byte_of data i) (byte_of data (i + 1)).
Definition Uint32LE (data : list Z) (i : nat) : Z := Z.lor (Uint16LE data i) (Z.shiftl (Uint16LE data (i + 2)) 16).

(** Pairs of bytes; an odd one at the end is dropped. *)
Fixpoint convertPCM16ToUlaw (pcm : list Z) : list Z :=
  match pcm with
  | lo :: hi :: pcm => linearToUlaw (i16 (le16 lo hi)) :: convertPCM16ToUlaw pcm
  | _ => []
  end.

(** ** Audio files *)

Inductive media_error := ErrOpen | ErrNoDataChunk | ErrUnexpectedEOF | ErrNoPlayback.
#[export] Instance media_error_dec : EqDecision media_error.
Proof. solve_decision. Defined.

(** What was loaded: the audio, its rate, its channels, its codec. *)
Record audio := mkAudio { a_data : list Z; a_rate : Z; a_channels : Z; a_codec : string }.

Definition is_text (s : string) (data : list Z) : bool := bool_decide (data = map (fun c => Z.of_N (N_of_ascii c)) (list_ascii_of_string s)).

(** [file.Read] of [n] bytes: nothing is left at the end of the file, which is an
    error; a short read leaves zeros at the end of the buffer. *)
Definition file_Read (n : nat) (file : list Z) (pos : nat) : option (list Z * nat) :=
  match take n (drop pos file) with
  | [] => None
  | got => Some (got ++ replicate (n - length got) 0, (pos + length got)%nat)
  end.

(** The loop that looks for the data chunk; every round reads at least a byte. *)
Fixpoint find_data (fuel : nat) (bitsPerSample : Z) (file : list Z) (pos : nat) : outcome media_error (list Z) :=
  match fuel with
  | O => OutOfFuel
  | S fuel =>
      match file_Read 8 file pos with
      | None => Err ErrNoDataChunk
      | Some (chunkHeader, pos) =>
          let chunkSize := Z.to_nat (Uint32LE chunkHeader 4) in
          if is_text "data" (take 4 chunkHeader) then
            let data := take chunkSize (drop pos file) in
            if (length data <? chunkSize)%nat then Err ErrUnexpectedEOF
            else Ok (if bitsPerSample =? 16 then convertPCM16ToUlaw data else data)
          else find_data fuel bitsPerSample file (pos + chunkSize)
      end
  end.

Definition loadWAVFile (file header : list Z) : outcome media_error audio :=
  let channels := Uint16LE header 22 in
  let sampleRate := Uint32LE header 24 in
  let bitsPerSample := Uint16LE header 34 in
  let! data := find_data (S (length file)) bitsPerSample file 12 in
  Ok (mkAudio data sampleRate channels "PCMU").

Definition loadAudioFile (fs : string -> option (list Z)) (filePath : string) : outcome media_error audio :=
  match fs filePath with
  | None => Err ErrOpen
  | Some file =>
      let header := take 44 file in
      if (44 <=? length header)%nat && is_text "RIFF" (take 4 header) && is_text "WAVE" (take 4 (drop 8 header))
      then loadWAVFile file header
      else Ok (mkAudio file 8000 1 "PCMU")
  end.

(** ** Playback sessions *)

Record PlaybackConfig := mkPlaybackConfig {
  c_FilePath : string; c_Codec : string; c_Loop : bool; c_BlendOriginal : bool; c_TargetLeg : string; c_SSRC : Z }.

Record PlaybackSession := mkPlayback {
  ps_SessionID : string;
  ps_FilePath : string;
  ps_Codec : string;
  SampleRate : Z;
  Channels : Z;
  Loop : bool;
  BlendOriginal : bool;
  audioData : list Z;
  spare : list Z;
  position : Z;
  playing : bool;
  paused : bool;
  seqNum : Z;
  timestamp : Z;
  ssrc : Z;
  startTime : Z;
  TargetLeg : string;
  stopped : bool }.
#[export] Instance set_ps_SessionID : Setter ps_SessionID := fun f r =>
  mkPlayback (f (ps_SessionID r)) (ps_FilePath r) (ps_Codec r) (SampleRate r) (Channels r) (Loop r) (BlendOriginal r) (audioData r) (spare r) (position r) (playing r) (paused r) (seqNum r) (timestamp r) (ssrc r) (startTime r) (TargetLeg r) (stopped r).
#[export] Instance set_ps_FilePath : Setter ps_FilePath := fun f r =>
  mkPlayback (ps_SessionID r) (f (ps_FilePath r)) (ps_Codec r) (SampleRate r) (Channels r) (Loop r) (BlendOriginal r) (audioData r) (spare r) (position r) (playing r) (paused r) (seqNum r) (timestamp r) (ssrc r) (startTime r) (TargetLeg r) (stopped r).
#[export] Instance set_ps_Codec : Setter ps_Codec := fun f r =>
  mkPlayback (ps_SessionID r) (ps_FilePath r) (f (ps_Codec r)) (SampleRate r) (Channels r) (Loop r) (BlendOriginal r) (audioData r) (spare r) (position r) (playing r) (paused r) (seqNum r) (timestamp r) (ssrc r) (startTime r) (TargetLeg r) (stopped r).
#[export] Instance set_SampleRate : Setter SampleRate := fun f r =>
  mkPlayback (ps_SessionID r) (ps_FilePath r) (ps_Codec r) (f (SampleRate r)) (Channels r) (Loop r) (BlendOriginal r) (audioData r) (spare r) (position r) (playing r) (paused r) (seqNum r) (timestamp r) (ssrc r) (startTime r) (TargetLeg r) (stopped r).
#[export] Instance set_Channels : Setter Channels := fun f r =>
  mkPlayback (ps_SessionID r) (ps_FilePath r) (ps_Codec r) (SampleRate r) (f (Channels r)) (Loop r) (BlendOriginal r) (audioData r) (spare r) (position r) (playing r) (paused r) (seqNum r) (timestamp r) (ssrc r) (startTime r) (TargetLeg r) (stopped r).
#[export] Instance set_Loop : Setter Loop := fun f r =>
  mkPlayback (ps_SessionID r) (ps_FilePath r) (ps_Codec r) (SampleRate r) (Channels r) (f (Loop r)) (BlendOriginal r) (audioData r) (spare r) (position r) (playing r) (paused r) (seqNum r) (timestamp r) (ssrc r) (startTime r) (TargetLeg r) (stopped r).
#[export] Instance set_BlendOriginal : Setter BlendOriginal := fun f r =>
  mkPlayback (ps_SessionID r) (ps_FilePath r) (ps_Codec r) (SampleRate r) (Channels r) (Loop r) (f (BlendOriginal r)) (audioData r) (spare r) (position r) (playing r) (paused r) (seqNum r) (timestamp r) (ssrc r) (startTime r) (TargetLeg r) (stopped r).
#[export] Instance set_audioData : Setter audioData := fun f r =>
  mkPlayback (ps_SessionID r) (ps_FilePath r) (ps_Codec r) (SampleRate r) (Channels r) (Loop r) (BlendOriginal r) (f (audioData r)) (spare r) (position r) (playing r) (paused r) (seqNum r) (timestamp r) (ssrc r) (startTime r) (TargetLeg r) (stopped r).
#[export] Instance set_spare : Setter spare := fun f r =>
  mkPlayback (ps_SessionID r) (ps_FilePath r) (ps_Codec r) (SampleRate r) (Channels r) (Loop r) (BlendOriginal r) (audioData r) (f (spare r)) (position r) (playing r) (paused r) (seqNum r) (timestamp r) (ssrc r) (startTime r) (TargetLeg r) (stopped r).
#[export] Instance set_position : Setter position := fun f r =>
  mkPlayback (ps_SessionID r) (ps_FilePath r) (ps_Codec r) (SampleRate r) (Channels r) (Loop r) (BlendOriginal r) (audioData r) (spare r) (f (position r)) (playing r) (paused r) (seqNum r) (timestamp r) (ssrc r) (startTime r) (TargetLeg r) (stopped r).
#[export] Instance set_playing : Setter playing := fun f r =>
  mkPlayback (ps_SessionID r) (ps_FilePath r) (ps_Codec r) (SampleRate r) (Channels r) (Loop r) (BlendOriginal r) (audioData r) (spare r) (position r) (f (playing r)) (paused r) (seqNum r) (timestamp r) (ssrc r) (startTime r) (TargetLeg r) (stopped r).
#[export] Instance set_paused : Setter paused := fun f r =>
  mkPlayback (ps_SessionID r) (ps_FilePath r) (ps_Codec r) (SampleRate r) (Channels r) (Loop r) (BlendOriginal r) (audioData r) (spare r) (position r) (playing r) (f (paused r)) (seqNum r) (timestamp r) (ssrc r) (startTime r) (TargetLeg r) (stopped r).
#[export] Instance set_seqNum : Setter seqNum := fun f r =>
  mkPlayback (ps_SessionID r) (ps_FilePath r) (ps_Codec r) (SampleRate r) (Channels r) (Loop r) (BlendOriginal r) (audioData r) (spare r) (position r) (playing r) (paused r) (f (seqNum r)) (timestamp r) (ssrc r) (startTime r) (TargetLeg r) (stopped r).
#[export] Instance set_timestamp : Setter timestamp := fun f r =>
  mkPlayback (ps_SessionID r) (ps_FilePath r) (ps_Codec r) (SampleRate r) (Channels r) (Loop r) (BlendOriginal r) (audioData r) (spare r) (position r) (playing r) (paused r) (seqNum r) (f (timestamp r)) (ssrc r) (startTime r) (TargetLeg r) (stopped r).
#[export] Instance set_ssrc : Setter ssrc := fun f r =>
  mkPlayback (ps_SessionID r) (ps_FilePath r) (ps_Codec r) (SampleRate r) (Channels r) (Loop r) (BlendOriginal r) (audioData r) (spare r) (position r) (playing r) (paused r) (seqNum r) (timestamp r) (f (ssrc r)) (startTime r) (TargetLeg r) (stopped r).
#[export] Instance set_startTime : Setter startTime := fun f r =>
  mkPlayback (ps_SessionID r) (ps_FilePath r) (ps_Codec r) (SampleRate r) (Channels r) (Loop r) (BlendOriginal r) (audioData r) (spare r) (position r) (playing r) (paused r) (seqNum r) (timestamp r) (ssrc r) (f (startTime r)) (TargetLeg r) (stopped r).
#[export] Instance set_TargetLeg : Setter TargetLeg := fun f r =>
  mkPlayback (ps_SessionID r) (ps_FilePath r) (ps_Codec r) (SampleRate r) (Channels r) (Loop r) (BlendOriginal r) (audioData r) (spare r) (position r) (playing r) (paused r) (seqNum r) (timestamp r) (ssrc r) (startTime r) (f (TargetLeg r)) (stopped r).
#[export] Instance set_stopped : Setter stopped := fun f r =>
  mkPlayback (ps_SessionID r) (ps_FilePath r) (ps_Codec r) (SampleRate r) (Channels r) (Loop r) (BlendOriginal r) (audioData r) (spare r) (position r) (playing r) (paused r) (seqNum r) (timestamp r) (ssrc r) (startTime r) (TargetLeg r) (f (stopped r)).

(** [stopCh] is closed at most once: by the [Stop] that finds the session
    playing. [GetNextPacket] ends a playback without closing it. *)
Definition ps_Stop (ps : PlaybackSession) : PlaybackSession :=
  if playing ps then ps <| playing := false |> <| stopped := true |> else ps.
Definition Pause (ps : PlaybackSession) : PlaybackSession := ps <| paused := true |>.
Definition Resume (ps : PlaybackSession) : PlaybackSession := ps <| paused := false |>.

Definition payloadSize (ps : PlaybackSession) : Z := if SampleRate ps =? 16000 then 320 else 160.

(** [audioData[from:to]]: up to the capacity. *)
Definition slice (from to : Z) (ps : PlaybackSession) : option (list Z) :=
  let store := audioData ps ++ spare ps in
  if (0 <=? from) && (from <=? to) && (to <=? Z.of_nat (length store))
  then Some (take (Z.to_nat (to - from)) (drop (Z.to_nat from) store)) else None.

Definition payload_type (codec : string) : Z := if bool_decide (codec = "PCMA"%string) then 8 else 0.

Definition rtp_packet (ps : PlaybackSession) (payload : list Z) : list Z :=
  0x80 :: payload_type (ps_Codec ps) :: PutUint16 (seqNum ps) ++ PutUint32 (timestamp ps) ++ PutUint32 (ssrc ps) ++ payload.

(** The slice at the end of [GetNextPacket], and the packet with it. *)
Definition emit (endPos : Z) (ps : PlaybackSession) : option (option (list Z) * PlaybackSession) :=
  payload ← slice (position ps) endPos ps;
  Some (Some (rtp_packet ps payload),
        ps <| position := endPos |> <| seqNum ::= fun n => u16 (n + 1) |> <| timestamp ::= fun t => u32 (t + payloadSize ps) |>).

(** The outer [None] is a panic. A looping session that reaches its end copies a
    wrapped payload it then does not use: only the position it computes stays. *)
Definition ps_GetNextPacket (ps : PlaybackSession) : option (option (list Z) * PlaybackSession) :=
  let len := Z.of_nat (length (audioData ps)) in
  if negb (playing ps) || paused ps then Some (None, ps)
  else if (len <=? position ps) && negb (Loop ps) then Some (None, ps <| playing := false |>)
  else
    let ps := if len <=? position ps then ps <| position := 0 |> else ps in
    let endPos := position ps + payloadSize ps in
    if len <? endPos then
      if Loop ps then
        let firstPart := len - position ps in
        _ ← slice 0 (payloadSize ps - firstPart) ps;
        emit endPos (ps <| position := payloadSize ps - firstPart |>)
      else emit len ps
    else emit endPos ps.

Record PlaybackStats := mkPlaybackStats {
  p_file : string; p_codec : string; p_playing : bool; p_paused : bool; p_loop : bool; p_progress : float64; p_duration : float64; p_position : Z; p_total : Z }.
Definition GetPlaybackStats (now : Z) (ps : PlaybackSession) : PlaybackStats :=
  let len := Z.of_nat (length (audioData ps)) in
  mkPlaybackStats (ps_FilePath ps) (ps_Codec ps) (playing ps) (paused ps) (Loop ps)
    (if 0 <? len then fmul (fdiv (of_int (position ps)) (of_int len)) (of_int 100) else of_int 0)
    (Seconds (Time_Sub now (startTime ps))) (position ps) len.

(** ** The player *)

Record MediaPlayer := mkPlayer { mp_sessions : gmap string PlaybackSession; mp_closed : bool }.

Definition NewMediaPlayer : MediaPlayer := mkPlayer ∅ false.

(** [nanos] is the clock's [UnixNano], [spare] what lies beyond the loaded audio
    in memory. The session's own playback is stopped before the file is read. *)
Definition StartPlayback (fs : string -> option (list Z)) (now nanos : Z) (spare : list Z) (sessionID : string) (config : PlaybackConfig) (mp : MediaPlayer)
    : outcome media_error unit * MediaPlayer :=
  let mp := mkPlayer (delete sessionID (mp_sessions mp)) (mp_closed mp) in
  match loadAudioFile fs (c_FilePath config) with
  | Ok a =>
      let codec := if bool_decide (c_Codec config = EmptyString) then a_codec a else c_Codec config in
      let ssrc := if c_SSRC config =? 0 then u32 (Z.land nanos 0xFFFFFFFF) else c_SSRC config in
      let ps := mkPlayback sessionID (c_FilePath config) codec (a_rate a) (a_channels a) (c_Loop config) (c_BlendOriginal config)
                  (a_data a) spare 0 true false 1000 0 ssrc now (c_TargetLeg config) false in
      (Ok tt, mkPlayer (<[sessionID := ps]> (mp_sessions mp)) (mp_closed mp))
  | Err e => (Err e, mp)
  | Panic => (Panic, mp)
  | OutOfFuel => (OutOfFuel, mp)
  end.

(** The session is stopped and dropped: the player refers to it no more. *)
Definition StopPlayback (sessionID : string) (mp : MediaPlayer) : outcome media_error unit * MediaPlayer :=
  match mp_sessions mp !! sessionID with
  | None => (Err ErrNoPlayback, mp)
  | Some _ => (Ok tt, mkPlayer (delete sessionID (mp_sessions mp)) (mp_closed mp))
  end.

Definition on_session (f : PlaybackSession -> PlaybackSession) (sessionID : string) (mp : MediaPlayer) : outcome media_error unit * MediaPlayer :=
  match mp_sessions mp !! sessionID with
  | None => (Err ErrNoPlayback, mp)
  | Some ps => (Ok tt, mkPlayer (<[sessionID := f ps]> (mp_sessions mp)) (mp_closed mp))
  end.
Definition PausePlayback : string -> MediaPlayer -> outcome media_error unit * MediaPlayer := on_session Pause.
Definition ResumePlayback : string -> MediaPlayer -> outcome media_error unit * MediaPlayer := on_session Resume.

Definition GetNextPacket (sessionID : string) (mp : MediaPlayer) : option (option (list Z) * MediaPlayer) :=
  match mp_sessions mp !! sessionID with
  | None => Some (None, mp)
  | Some ps =>
      '(packet, ps) ← ps_GetNextPacket ps;
      Some (packet, mkPlayer (<[sessionID := ps]> (mp_sessions mp)) (mp_closed mp))
  end.

Definition IsPlaying (sessionID : string) (mp : MediaPlayer) : bool :=
  match mp_sessions mp !! sessionID with
  | None => false
  | Some ps => playing ps && negb (paused ps)
  end.

(** Closing the closed channel panics. *)
Definition mp_Stop (mp : MediaPlayer) : option MediaPlayer := if mp_closed mp then None else Some (mkPlayer ∅ true).

Definition mp_GetStats (now : Z) (mp : MediaPlayer) : Z * gmap string PlaybackStats :=
  (Z.of_nat (size (mp_sessions mp)), GetPlaybackStats now <$> mp_sessions mp).

Example ulaw_ex : (linearToUlaw 0, linearToUlaw 1000, linearToUlaw (-1000), linearToUlaw 32767) = (255, 206, 78, 128).
Proof. vm_compute. reflexivity. Qed.

(** ** Mu-law is accurate *)

Lemma land_pow2 s n : 0 <= n -> 0 <= s < 2 ^ (n + 1) -> (Z.land s (2 ^ n) =? 0) = (s <? 2 ^ n).
Proof.
  intros Hn Hs. destruct (Z.ltb_spec s (2 ^ n)) as [H|H].
  - apply Z.eqb_eq. apply Z.bits_inj'. intros i Hi. rewrite Z.land_spec, Z.bits_0, Z.pow2_bits_eqb by done. destruct (Z.eqb_spec n i) as [<-|]; [|by rewrite andb_false_r].
    rewrite <- (Z.mod_small s (2 ^ n)) by lia. by rewrite Z.mod_pow2_bits_high by lia.
  - apply Z.eqb_neq. intros E. assert (Ht : Z.testbit (Z.land s (2 ^ n)) n = false) by (rewrite E; apply Z.bits_0).
    rewrite Z.land_spec, Z.pow2_bits_true, andb_true_r in Ht by done. apply Z.testbit_false in Ht; [|done].
    rewrite Z.pow_add_r in Hs by lia. replace (s / 2 ^ n) with 1 in Ht; [done|]. apply (Z.div_unique s (2 ^ n) 1 (s - 2 ^ n)); lia.
Qed.

Lemma find_exponent_spec k s : 128 <= s < 2 ^ (Z.of_nat k + 8) ->
  let e := Z.of_nat (find_exponent k (2 ^ (Z.of_nat k + 7)) s) in 0 <= e <= Z.of_nat k /\ 2 ^ (e + 7) <= s < 2 ^ (e + 8).
Proof.
  induction k as [|k IH]; intros Hs; cbv zeta; [cbn [find_exponent]; change (Z.of_nat 0) with 0 in *; lia|]. cbn [find_exponent].
  assert (Hs' : 0 <= s < 2 ^ (Z.of_nat (S k) + 7 + 1)) by (replace (Z.of_nat (S k) + 7 + 1) with (Z.of_nat (S k) + 8) by lia; lia).
  rewrite land_pow2 by (done || lia).
  destruct (Z.ltb_spec s (2 ^ (Z.of_nat (S k) + 7))) as [H|H]; cbn [negb]; [|split; [lia|]; lia].
  replace (Z.shiftr (2 ^ (Z.of_nat (S k) + 7)) 1) with (2 ^ (Z.of_nat k + 7)).
  - destruct IH as [IH1 IH2]; [replace (Z.of_nat k + 8) with (Z.of_nat (S k) + 7) by lia; lia|]. lia.
  - rewrite Z.shiftr_div_pow2, Z.pow_1_r by lia. rewrite Nat2Z.inj_succ. replace (Z.succ (Z.of_nat k) + 7) with (Z.succ (Z.of_nat k + 7)) by lia.
    rewrite Z.pow_succ_r by lia. symmetry. rewrite Z.mul_comm. apply Z.div_mul. lia.
Qed.

(** The bytes of every sign, segment and step. *)
Definition ulaw_byte (sign : bool) (e m : Z) : Z := 255 - Z.lor (Z.lor (if sign then 128 else 0) (u8 (Z.shiftl e 4))) (u8 m).

Lemma ulaw_byte_decodes sign e m : 0 <= e <= 7 -> 0 <= m <= 15 ->
  let t := (8 * m + 132) * 2 ^ e - 132 in g711_decode (ulaw_byte sign e m) = if sign then - t else t.
Proof.
  intros He Hm. cbv zeta. apply Z.eqb_eq.
  assert (H : forallb (fun i => let '(e, m) := (i / 16, i mod 16) in
     g711_decode (ulaw_byte sign e m) =? (if sign then - ((8 * m + 132) * 2 ^ e - 132) else (8 * m + 132) * 2 ^ e - 132)) (map Z.of_nat (seq 0 128)) = true)
    by (destruct sign; vm_compute; reflexivity).
  rewrite forallb_forall in H. specialize (H (e * 16 + m)). assert (Hin : In (e * 16 + m) (map Z.of_nat (seq 0 128))).
  { apply in_map_iff. exists (Z.to_nat (e * 16 + m)). split; [lia|apply in_seq; lia]. }
  specialize (H Hin). cbv beta zeta in H. rewrite (Z.div_add_l e 16 m), (Z.div_small m 16), Z.add_0_r in H by lia.
  rewrite Z.add_comm, Z.mod_add, Z.mod_small in H by lia. exact H.
Qed.

(** The magnitude with its bias, its segment and its step. *)
Lemma ulaw_magnitude sign s : 132 <= s <= 32767 ->
  let e := Z.of_nat (find_exponent 7 0x4000 s) in
  let b := 255 - Z.lor (Z.lor (if sign : bool then 128 else 0) (u8 (Z.shiftl e 4))) (u8 (Z.land (Z.shiftr s (e + 3)) 15)) in
  let t := if sign then - g711_decode b else g711_decode b in
  32 * Z.abs (t - (s - 132)) <= s /\ 0 <= t.
Proof.
  intros Hs. cbv zeta. pose proof (find_exponent_spec 7 s) as He. cbv zeta in He. change (Z.of_nat 7 + 8) with 15 in He. change (Z.of_nat 7 + 7) with 14 in He.
  specialize (He ltac:(lia)). change (2 ^ 14) with 0x4000 in He. set (e := Z.of_nat (find_exponent 7 0x4000 s)) in *. clearbody e. destruct He as [He1 He2].
  assert (El : Z.land (Z.shiftr s (e + 3)) 15 = (s / 2 ^ (e + 3)) mod 16) by (change 15 with (Z.ones 4); by rewrite Z.land_ones, Z.shiftr_div_pow2 by lia).
  rewrite El. clear El.
  replace (e + 7) with (e + 3 + 4) in He2 by lia. replace (e + 8) with (e + 3 + 5) in He2 by lia. rewrite !(Z.pow_add_r 2 (e + 3)) in He2 by lia. change (2 ^ 4) with 16 in He2. change (2 ^ 5) with 32 in He2.
  assert (Hp : 0 < 2 ^ (e + 3)) by (apply Z.pow_pos_nonneg; lia).
  assert (Hq : 16 <= s / 2 ^ (e + 3) < 32) by (split; [apply Z.div_le_lower_bound|apply Z.div_lt_upper_bound]; lia).
  set (m := (s / 2 ^ (e + 3)) mod 16). assert (Hm : m = s / 2 ^ (e + 3) - 16) by (unfold m; symmetry; apply (Z.mod_unique _ _ 1); lia).
  pose proof (ulaw_byte_decodes sign e m ltac:(lia) ltac:(lia)) as Hd. unfold ulaw_byte in Hd. cbv zeta in Hd. rewrite Hd. clear Hd.
  set (t := (8 * m + 132) * 2 ^ e - 132).
  assert (Et : (if sign then - (if sign then - t else t) else (if sign then - t else t)) = t) by (destruct sign; lia). rewrite Et. unfold t. clear Et t.
  pose proof (Z.div_mod s (2 ^ (e + 3)) ltac:(lia)) as Hdm. pose proof (Z.mod_pos_bound s (2 ^ (e + 3)) Hp) as Hb. clearbody m. subst m.
  replace (2 ^ (e + 3)) with (2 ^ e * 8) in * by (rewrite Z.pow_add_r by lia; done).
  generalize dependent (s / (2 ^ e * 8)). generalize dependent (s mod (2 ^ e * 8)). generalize dependent (2 ^ e). intros P He2 Hp r Hr q Hq E.
  assert (Ed : (8 * (q - 16) + 132) * P - 132 - (s - 132) = 4 * P - r) by (subst s; ring). rewrite Ed. nia.
Qed.

(** The player's mu-law encoder is accurate: apart from the most negative
    sample, every sample decodes (as G.711 says) with its sign kept, to within a
    32nd of its magnitude and the bias, samples beyond the clip level standing
    for that level. *)
Theorem linearToUlaw_accurate x : -32767 <= x <= 32767 ->
  let clipped := Z.max (-32635) (Z.min 32635 x) in
  32 * Z.abs (g711_decode (linearToUlaw x) - clipped) <= Z.abs clipped + 132 /\ 0 <= x * g711_decode (linearToUlaw x).
Proof.
  intros Hx. cbv zeta. unfold linearToUlaw. rewrite Z.gtb_ltb. destruct (Z.ltb_spec x 0) as [Hn|Hn].
  - rewrite (wraps_id 16 (- x)) by (unfold is_s; lia). set (a := if 32635 <? - x then 32635 else - x). assert (Ha : a = Z.min 32635 (- x)) by (unfold a; destruct (Z.ltb_spec 32635 (- x)); lia).
    rewrite (wraps_id 16 (a + 132)) by (unfold is_s; lia). pose proof (ulaw_magnitude true (a + 132) ltac:(lia)) as [H1 H2]. cbv zeta in H1, H2. cbv zeta. split; [lia|]. nia.
  - set (a := if 32635 <? x then 32635 else x). assert (Ha : a = Z.min 32635 x) by (unfold a; destruct (Z.ltb_spec 32635 x); lia).
    rewrite (wraps_id 16 (a + 132)) by (unfold is_s; lia). pose proof (ulaw_magnitude false (a + 132) ltac:(lia)) as [H1 H2]. cbv zeta in H1, H2. cbv zeta. split; [lia|]. nia.
Qed.

(** The most negative sample is encoded as silence: its negation does not
    fit 16 bits, so it is not clipped but taken for a small magnitude. *)
Theorem loudest_sample_silenced : linearToUlaw (-32768) = 127 /\ g711_decode 127 = 0 /\ g711_decode (linearToUlaw (-32767)) = -32124.
Proof. vm_compute. repeat split; reflexivity. Qed.

(** ** Playing *)

(** Packets until there is none, at most [n]. *)
Fixpoint play (n : nat) (ps : PlaybackSession) : option (list (list Z) * PlaybackSession) :=
  match n with
  | O => Some ([], ps)
  | S n =>
      match ps_GetNextPacket ps with
      | None => None
      | Some (None, ps) => Some ([], ps)
      | Some (Some packet, ps) => '(packets, ps) ← play n ps; Some (packet :: packets, ps)
      end
  end.

Definition running (ps : PlaybackSession) : Prop := playing ps = true /\ paused ps = false.
Definition audio_len (ps : PlaybackSession) : Z := Z.of_nat (length (audioData ps)).

Lemma payloadSize_pos ps : 0 < payloadSize ps.
Proof. unfold payloadSize. destruct (_ =? _); lia. Qed.

Lemma slice_in from to ps : 0 <= from -> from <= to -> to <= audio_len ps ->
  slice from to ps = Some (take (Z.to_nat (to - from)) (drop (Z.to_nat from) (audioData ps))).
Proof.
  unfold slice, audio_len. intros H1 H2 H3. rewrite length_app. rewrite !(proj2 (Z.leb_le _ _)) by lia. cbn [andb]. f_equal.
  rewrite drop_app_le by lia. apply take_app_le. rewrite length_drop. lia.
Qed.

Lemma slice_out from to ps : spare ps = [] -> audio_len ps < to -> slice from to ps = None.
Proof.
  unfold slice, audio_len. intros -> H. rewrite app_nil_r. rewrite (proj2 (Z.leb_gt to _)) by lia. by rewrite andb_false_r.
Qed.

(** A packet's fields. *)
Lemma rtp_packet_seq {E} ps payload : is_u 16 (seqNum ps) -> Uint16_at (E:=E) (rtp_packet ps payload) 2 = Ok (seqNum ps).
Proof. intros H. by apply (Uint16_at_put [0x80; payload_type (ps_Codec ps)] (seqNum ps)). Qed.

Lemma rtp_packet_ts {E} ps payload : is_u 32 (timestamp ps) -> Uint32_at (E:=E) (rtp_packet ps payload) 4 = Ok (timestamp ps).
Proof.
  intros H. by apply (Uint32_at_put (0x80 :: payload_type (ps_Codec ps) :: PutUint16 (seqNum ps)) (timestamp ps)).
Qed.

Lemma rtp_packet_payload ps payload : drop 12 (rtp_packet ps payload) = payload.
Proof. done. Qed.

(** One packet of a session that has audio left and does not wrap. *)
Lemma next_packet ps (to := Z.min (audio_len ps) (position ps + payloadSize ps)) : running ps ->
  0 <= position ps < audio_len ps -> Loop ps = false \/ position ps + payloadSize ps <= audio_len ps ->
  ps_GetNextPacket ps = Some (Some (rtp_packet ps (take (Z.to_nat (to - position ps)) (drop (Z.to_nat (position ps)) (audioData ps)))),
    ps <| position := to |> <| seqNum ::= fun n => u16 (n + 1) |> <| timestamp ::= fun t => u32 (t + payloadSize ps) |>).
Proof.
  intros [Hp Hq] Hpos Hl. pose proof (payloadSize_pos ps) as Hsz. unfold ps_GetNextPacket. rewrite Hp, Hq. cbn [negb orb]. cbv zeta. fold (audio_len ps).
  rewrite (proj2 (Z.leb_gt _ _)) by lia. cbn [andb]. unfold to. clear to. destruct (Z.ltb_spec (audio_len ps) (position ps + payloadSize ps)).
  - destruct Hl as [Hl|?]; [|lia]. rewrite Hl. unfold emit. rewrite slice_in by lia. cbn [mbind option_bind]. by rewrite Z.min_l by lia.
  - unfold emit. rewrite slice_in by lia. cbn [mbind option_bind]. by rewrite Z.min_r by lia.
Qed.

Lemma play_end ps n : running ps -> Loop ps = false -> audio_len ps <= position ps ->
  play (S n) ps = Some ([], ps <| playing := false |>).
Proof.
  intros [Hp Hq] Hl Hpos. cbn [play]. unfold ps_GetNextPacket. rewrite Hp, Hq, Hl. cbn [negb orb]. fold (audio_len ps). by rewrite (proj2 (Z.leb_le _ _)).
Qed.

(** C34: A session that does not loop plays its audio once and whole: asked often
    enough, it gives packets whose payloads in order are exactly the rest of the
    audio, with consecutive sequence numbers and timestamps one payload apart,
    and then it stops. *)
Theorem playback_complete n ps : running ps -> Loop ps = false -> 0 <= position ps <= audio_len ps ->
  is_u 16 (seqNum ps) -> is_u 32 (timestamp ps) -> audio_len ps - position ps < Z.of_nat n ->
  exists packets ps', play n ps = Some (packets, ps') /\ playing ps' = false /\
    mjoin (map (drop 12) packets) = drop (Z.to_nat (position ps)) (audioData ps) /\
    forall i packet, packets !! i = Some packet ->
      Uint16_at (E:=unit) packet 2 = Ok (u16 (seqNum ps + Z.of_nat i)) /\
      Uint32_at (E:=unit) packet 4 = Ok (u32 (timestamp ps + Z.of_nat i * payloadSize ps)).
Proof.
  revert ps. induction n as [|n IH]; intros ps Hr Hl Hpos Hs Ht Hn; [lia|]. destruct (decide (audio_len ps <= position ps)) as [He|He].
  { rewrite play_end by done. exists [], (ps <| playing := false |>). split; [done|]. split; [done|]. split; [|done].
    symmetry. cbn. apply drop_ge. unfold audio_len in *. lia. }
  pose proof (payloadSize_pos ps) as Hsz. cbn [play]. rewrite next_packet by (done || lia || by left).
  set (to := Z.min (audio_len ps) (position ps + payloadSize ps)). set (ps1 := ps <| position := to |> <| seqNum ::= _ |> <| timestamp ::= _ |>).
  destruct (IH ps1) as (packets & ps' & E & Hst & Hj & Hk); [done|done|change (0 <= to <= audio_len ps); unfold to; lia|apply wrapu_range; lia|apply wrapu_range; lia|
    change (audio_len ps1) with (audio_len ps); change (position ps1) with to; unfold to; lia|].
  rewrite E. cbn [mbind option_bind]. do 2 eexists. split; [reflexivity|]. split; [done|]. split.
  - cbn [map mjoin list_join]. change (mjoin (map (drop 12) packets)) with (mjoin (map (drop 12) packets)). rewrite rtp_packet_payload.
    change (position ps1) with to in Hj. change (audioData ps1) with (audioData ps) in Hj. rewrite Hj.
    replace (Z.to_nat to) with (Z.to_nat (position ps) + Z.to_nat (to - position ps))%nat by (unfold to; lia). rewrite <- drop_drop. apply take_drop.
  - intros [|i] packet; cbn [lookup list_lookup].
    + intros [= <-]. rewrite rtp_packet_seq, rtp_packet_ts by done. change (Z.of_nat 0) with 0. rewrite Z.mul_0_l, !Z.add_0_r, !wrapu_id by done. done.
    + intros Hi. destruct (Hk i packet Hi) as [-> ->]. change (seqNum ps1) with (u16 (seqNum ps + 1)). change (timestamp ps1) with (u32 (timestamp ps + payloadSize ps)).
      change (payloadSize ps1) with (payloadSize ps). unfold wrapu. rewrite !Zplus_mod_idemp_l. split; do 2 f_equal; lia.
Qed.

(** A looping session before its end. *)
Lemma loop_steps k ps : running ps -> Loop ps = true -> 0 <= position ps -> position ps + Z.of_nat k * payloadSize ps <= audio_len ps ->
  forall n, exists ps', running ps' /\ Loop ps' = true /\ position ps' = position ps + Z.of_nat k * payloadSize ps /\ spare ps' = spare ps /\ audioData ps' = audioData ps /\
    SampleRate ps' = SampleRate ps /\ (play (k + n) ps = None <-> play n ps' = None).
Proof.
  revert ps. induction k as [|k IH]; intros ps Hr Hl Hpos Hk n; [exists ps; split; [done|]; split; [done|]; split; [lia|done]|].
  pose proof (payloadSize_pos ps) as Hsz. assert (Hend : position ps + payloadSize ps <= audio_len ps) by nia.
  cbn [Nat.add play]. rewrite next_packet by (done || lia || by right). rewrite Z.min_r by lia.
  set (ps1 := ps <| position := _ |> <| seqNum ::= _ |> <| timestamp ::= _ |>).
  destruct (IH ps1 Hr Hl ltac:(cbn; lia) ltac:(change (payloadSize ps1) with (payloadSize ps); change (audio_len ps1) with (audio_len ps); cbn; lia) n)
    as (ps' & H1 & H2 & H3 & H4 & H5 & H6 & H7).
  exists ps'. split; [done|]. split; [done|]. split; [rewrite H3; change (payloadSize ps1) with (payloadSize ps); cbn; lia|].
  split; [done|]. split; [done|]. split; [done|]. rewrite <- H7. destruct (play (k + n) ps1) as [[]|]; cbn; by split.
Qed.

(** A looping session at a position from which it has to wrap. *)
Lemma loop_wrap_panics ps n : running ps -> Loop ps = true -> spare ps = [] -> 0 <= position ps ->
  (if audio_len ps <=? position ps then 0 else position ps) + payloadSize ps > audio_len ps -> play (S n) ps = None.
Proof.
  intros [Hp Hq] Hl Hsp Hpos Hw. cbn [play]. unfold ps_GetNextPacket. rewrite Hp, Hq, Hl. cbn [negb orb]. cbv zeta. fold (audio_len ps). rewrite andb_false_r.
  set (ps1 := if audio_len ps <=? position ps then _ else ps).
  assert (H1 : position ps1 + payloadSize ps1 > audio_len ps /\ Loop ps1 = true /\ spare ps1 = [] /\ audio_len ps1 = audio_len ps) by (unfold ps1; destruct (_ <=? _); done).
  clearbody ps1. destruct H1 as (H1 & H2 & H3 & H4). rewrite (proj2 (Z.ltb_lt _ _)) by lia. rewrite H2. destruct (slice 0 _ ps1); [|done]. cbn [mbind option_bind].
  unfold emit. rewrite slice_out; [done|done|]. change (audio_len ps1 < position ps1 + payloadSize ps1). lia.
Qed.

(** Looping works only for audio whose length is a positive multiple of the
    payload: a session with no memory to spare behind its audio that loops plays
    on for ever exactly in that case, and in every other one it panics when it
    has to wrap around. *)
Theorem loop_plays_iff ps : running ps -> Loop ps = true -> position ps = 0 -> spare ps = [] ->
  (forall n, play n ps <> None) <-> 0 < audio_len ps /\ audio_len ps mod payloadSize ps = 0.
Proof.
  intros Hr Hl Hpos Hsp. pose proof (payloadSize_pos ps) as Hsz. pose proof (Z.div_mod (audio_len ps) (payloadSize ps) ltac:(lia)) as Hdm.
  pose proof (Z.mod_pos_bound (audio_len ps) (payloadSize ps) Hsz) as Hmb.
  assert (Hq : 0 <= audio_len ps / payloadSize ps) by (apply Z.div_pos; unfold audio_len; lia). split.
  - intros Hplay. destruct (decide (0 < audio_len ps /\ audio_len ps mod payloadSize ps = 0)) as [|Hbad]; [done|]. exfalso.
    destruct (loop_steps (Z.to_nat (audio_len ps / payloadSize ps)) ps Hr Hl ltac:(lia) ltac:(rewrite Z2Nat.id by lia; nia) 1) as (ps' & H1 & H2 & H3 & H4 & H5 & H6 & H7).
    apply (Hplay (Z.to_nat (audio_len ps / payloadSize ps) + 1)%nat), H7.
    assert (Ha : audio_len ps' = audio_len ps) by (unfold audio_len; by rewrite H5). assert (Hz : payloadSize ps' = payloadSize ps) by (unfold payloadSize; by rewrite H6).
    rewrite Z2Nat.id in H3 by lia. apply loop_wrap_panics; [done|done|congruence|lia|]. rewrite Ha, Hz, H3, Hpos.
    destruct (Z.leb_spec (audio_len ps) (0 + audio_len ps / payloadSize ps * payloadSize ps)); [|nia].
    assert (audio_len ps mod payloadSize ps = 0) by nia. assert (audio_len ps = 0) by (unfold audio_len in *; lia). lia.
  - intros [Hpl Hm] n.
    assert (Hgen : forall n ps0, running ps0 -> Loop ps0 = true -> audioData ps0 = audioData ps -> SampleRate ps0 = SampleRate ps ->
      (exists j, 0 <= j <= audio_len ps / payloadSize ps /\ position ps0 = j * payloadSize ps) -> play n ps0 <> None).
    { clear n. induction n as [|n IH]; intros ps0 Hr0 Hl0 Ha0 Hs0 (j & Hj & Hp0); [done|]. cbn [play].
      assert (Hz : payloadSize ps0 = payloadSize ps) by (unfold payloadSize; by rewrite Hs0). assert (Hla : audio_len ps0 = audio_len ps) by (unfold audio_len; by rewrite Ha0).
      assert (Hlen : audio_len ps = audio_len ps / payloadSize ps * payloadSize ps) by lia.
      clear Hdm Hmb Hm. set (q := audio_len ps / payloadSize ps) in *. clearbody q. assert (Hq1 : 1 <= q) by nia.
      destruct (decide (j = q)) as [->|Hj'].
      - (* at the end: from the start again *)
        assert (E : ps_GetNextPacket ps0 = ps_GetNextPacket (ps0 <| position := 0 |>)).
        { unfold ps_GetNextPacket. destruct Hr0 as [Hr1 Hr2]. rewrite Hr1, Hr2, Hl0. cbn -[emit slice payloadSize]. fold (audio_len ps0). rewrite !andb_false_r.
          rewrite (proj2 (Z.leb_le (audio_len ps0) (position ps0))) by lia. rewrite (proj2 (Z.leb_gt (audio_len ps0) 0)) by lia. cbn -[emit slice payloadSize]. by rewrite Hr1, Hr2, Hl0. }
        rewrite E, next_packet; [|done|change (0 <= 0 < audio_len ps0); lia|right; change (0 + payloadSize ps0 <= audio_len ps0); nia].
        destruct (play n _) as [[]|] eqn:Ep; [done|]. exfalso. revert Ep. apply IH; [done|done|done|done|]. exists 1. split; [lia|].
        change (Z.min (audio_len ps0) (0 + payloadSize ps0) = 1 * payloadSize ps). nia.
      - rewrite next_packet; [|done|nia|right; nia]. destruct (play n _) as [[]|] eqn:Ep; [done|]. exfalso. revert Ep. apply IH; [done|done|done|done|].
        exists (j + 1). split; [lia|]. change (Z.min (audio_len ps0) (position ps0 + payloadSize ps0) = (j + 1) * payloadSize ps). nia. }
    apply Hgen; [done|done|done|done|]. exists 0. split; [lia|lia].
Qed.

(** ** WAV files *)

Definition text (s : string) : list Z := map (fun c => Z.of_N (N_of_ascii c)) (list_ascii_of_string s).
Definition put16le (x : Z) : list Z := [u8 x; u8 (Z.shiftr x 8)].
Definition put32le (x : Z) : list Z := [u8 x; u8 (Z.shiftr x 8); u8 (Z.shiftr x 16); u8 (Z.shiftr x 24)].
Definition chunk (id : string) (body : list Z) : list Z := text id ++ put32le (Z.of_nat (length body)) ++ body.

(** A WAV file: the format first, then other chunks, then the audio. *)
Definition wav (size fmt : list Z) (channels rate : Z) (middle : list Z) (bits : Z) (others : list (string * list Z)) (data rest : list Z) : list Z :=
  text "RIFF" ++ size ++ text "WAVE" ++ chunk "fmt " (fmt ++ put16le channels ++ put32le rate ++ middle ++ put16le bits) ++
  mjoin (map (fun '(id, body) => chunk id body) others) ++ chunk "data" data ++ rest.

Lemma le16_bytes x : is_u 16 x -> le16 (u8 x) (u8 (Z.shiftr x 8)) = x.
Proof. intros H. unfold le16. rewrite Z.lor_comm. by apply word16_bytes. Qed.

Lemma le32_bytes x : is_u 32 x ->
  Z.lor (le16 (u8 x) (u8 (Z.shiftr x 8))) (Z.shiftl (le16 (u8 (Z.shiftr x 16)) (u8 (Z.shiftr x 24))) 16) = x.
Proof.
  intros H. rewrite <- (word32_bytes x H) at 5. unfold le16. rewrite Z.shiftl_lor, Z.shiftl_shiftl by lia. change (8 + 16) with 24.
  apply Z.bits_inj'. intros n Hn. rewrite !Z.lor_spec. repeat match goal with |- context [Z.testbit ?a n] => destruct (Z.testbit a n) end; reflexivity.
Qed.

Lemma length_text s : length (text s) = String.length s.
Proof. unfold text. rewrite length_map. induction s; cbn; [done|by f_equal]. Qed.

Lemma is_text_iff s data : is_text s data = bool_decide (data = text s).
Proof. done. Qed.

Lemma text_inj a b : text a = text b -> a = b.
Proof.
  unfold text. intros E. assert (Hl : list_ascii_of_string a = list_ascii_of_string b).
  { revert E. generalize (list_ascii_of_string a) as l, (list_ascii_of_string b) as k. induction l as [|x l IH]; intros [|y k]; cbn; try done.
    intros [= Ex El]. f_equal; [|by apply IH]. apply N2Z.inj in Ex. by rewrite <- (ascii_N_embedding x), <- (ascii_N_embedding y), Ex. }
  by rewrite <- (string_of_list_ascii_of_string a), <- (string_of_list_ascii_of_string b), Hl.
Qed.

(** Reading the header of a chunk. *)
Lemma read_header pre id body post : String.length id = 4%nat ->
  file_Read 8 (pre ++ chunk id body ++ post) (length pre) = Some (text id ++ put32le (Z.of_nat (length body)), (length pre + 8)%nat).
Proof.
  intros Hid. unfold file_Read. rewrite drop_app_length. unfold chunk. rewrite <- !(assoc_L (++)).
  assert (H4 : length (text id ++ put32le (Z.of_nat (length body))) = 8%nat) by (rewrite length_app, length_text, Hid; done).
  rewrite (assoc_L (++) (text id)), take_app_le, take_ge by lia. destruct (text id ++ put32le (Z.of_nat (length body))) as [|x l] eqn:E; [done|].
  rewrite H4. cbn [Nat.sub replicate]. by rewrite app_nil_r.
Qed.

Lemma header_size id n : String.length id = 4%nat -> is_u 32 n -> Uint32LE (text id ++ put32le n) 4 = n.
Proof.
  intros Hid Hn. unfold Uint32LE, Uint16LE, byte_of. rewrite !lookup_app_r by (rewrite length_text; lia). rewrite length_text, Hid.
  cbn -[Z.shiftl Z.shiftr]. by apply le32_bytes.
Qed.

Lemma header_id id n : String.length id = 4%nat -> take 4 (text id ++ put32le n) = text id.
Proof. intros Hid. rewrite take_app_le, take_ge by (rewrite length_text; lia). done. Qed.

(** One chunk that is not the audio is skipped. *)
Lemma find_data_skip fuel bits pre id body post : String.length id = 4%nat -> id <> "data"%string -> Z.of_nat (length body) < 2 ^ 32 ->
  find_data (S fuel) bits (pre ++ chunk id body ++ post) (length pre) = find_data fuel bits ((pre ++ chunk id body) ++ post) (length (pre ++ chunk id body)).
Proof.
  intros Hid Hne Hb. cbn [find_data]. rewrite read_header by done. rewrite header_size, header_id by (done || unfold is_u; lia).
  rewrite is_text_iff, bool_decide_false by (intros E%text_inj; done). rewrite Nat2Z.id, <- (assoc_L (++)). f_equal.
  rewrite length_app. unfold chunk. rewrite !length_app, length_text, Hid. cbn [put32le length]. lia.
Qed.

Lemma find_data_found fuel bits pre data rest : Z.of_nat (length data) < 2 ^ 32 ->
  find_data (S fuel) bits (pre ++ chunk "data" data ++ rest) (length pre) = Ok (if bits =? 16 then convertPCM16ToUlaw data else data).
Proof.
  intros Hd. cbn [find_data]. rewrite read_header by done. rewrite header_size, header_id by (done || unfold is_u; lia).
  rewrite is_text_iff, bool_decide_true by done. rewrite Nat2Z.id.
  assert (E : drop (length pre + 8) (pre ++ chunk "data" data ++ rest) = data ++ rest) by (rewrite drop_app_add; done).
  rewrite E, take_app_length, Nat.ltb_irrefl. done.
Qed.

Lemma find_data_all bits others : forall fuel pre data rest,
  Forall (fun '(id, body) => String.length id = 4%nat /\ id <> "data"%string /\ Z.of_nat (length body) < 2 ^ 32) others ->
  Z.of_nat (length data) < 2 ^ 32 -> (length others < fuel)%nat ->
  find_data fuel bits (pre ++ mjoin (map (fun '(id, body) => chunk id body) others) ++ chunk "data" data ++ rest) (length pre) =
  Ok (if bits =? 16 then convertPCM16ToUlaw data else data).
Proof.
  induction others as [|[id body] others IH]; intros fuel pre data rest Ho Hd Hf; (destruct fuel as [|fuel]; [cbn in Hf; lia|]).
  - by apply find_data_found.
  - apply Forall_cons in Ho as [(H1 & H2 & H3) Ho]. cbn [map mjoin list_join]. rewrite <- (assoc_L (++)), find_data_skip by done. apply IH; [done|done|cbn in Hf; lia].
Qed.

Lemma chunks_length others : (length others <= length (mjoin (map (fun '(id, body) => chunk id body) others)))%nat.
Proof.
  induction others as [|[id b] others IH]; [done|]. cbn [map length]. change (mjoin (?x :: ?l)) with (x ++ mjoin l). rewrite length_app. unfold chunk at 1.
  rewrite !length_app. change (length (put32le (Z.of_nat (length b)))) with 4%nat. lia.
Qed.

(** A WAV file is loaded as it was written: whatever chunks stand between the
    format and the audio, the player finds the audio, its rate and its channels,
    16-bit samples turned into mu-law one by one. *)
Theorem wav_loaded fs path size fmt channels rate middle bits others data rest :
  fs path = Some (wav size fmt channels rate middle bits others data rest) ->
  length size = 4%nat -> length fmt = 2%nat -> length middle = 6%nat -> is_u 16 channels -> is_u 32 rate -> is_u 16 bits ->
  Forall (fun '(id, body) => String.length id = 4%nat /\ id <> "data"%string /\ Z.of_nat (length body) < 2 ^ 32) others ->
  Z.of_nat (length data) < 2 ^ 32 ->
  loadAudioFile fs path = Ok (mkAudio (if bits =? 16 then convertPCM16ToUlaw data else data) rate channels "PCMU").
Proof.
  intros Hfs Hs Hf Hm Hc Hr Hb Ho Hd. unfold loadAudioFile. rewrite Hfs.
  destruct size as [|s0 [|s1 [|s2 [|s3 []]]]]; try done. destruct fmt as [|f0 [|f1 []]]; try done.
  destruct middle as [|m0 [|m1 [|m2 [|m3 [|m4 [|m5 []]]]]]]; try done.
  set (file := wav _ _ _ _ _ _ _ _ _). set (body := [f0; f1] ++ put16le channels ++ put32le rate ++ [m0; m1; m2; m3; m4; m5] ++ put16le bits).
  set (tail := mjoin (map (fun '(id, body) => chunk id body) others) ++ chunk "data" data ++ rest).
  assert (Ef : file = (text "RIFF" ++ [s0; s1; s2; s3] ++ text "WAVE") ++ chunk "fmt " body ++ tail) by done.
  assert (Ht : (8 <= length tail)%nat) by (unfold tail, chunk; rewrite !length_app, length_text; cbn; lia).
  assert (Hlf : (44 <= length file)%nat) by (rewrite Ef, !length_app; cbn; lia).
  assert (Hh : take 44 file = (text "RIFF" ++ [s0; s1; s2; s3] ++ text "WAVE" ++ chunk "fmt " body) ++ take 8 tail).
  { rewrite Ef, <- !(assoc_L (++)). rewrite !(assoc_L (++)). rewrite take_app_ge by (cbn; lia). done. }
  rewrite length_take_le by lia. rewrite Hh. change (is_text "RIFF" _) with true. change (is_text "WAVE" _) with true. cbn [Nat.leb andb].
  unfold loadWAVFile.
  change (Uint16LE ((text "RIFF" ++ [s0; s1; s2; s3] ++ text "WAVE" ++ chunk "fmt " body) ++ take 8 tail) 22) with (le16 (u8 channels) (u8 (Z.shiftr channels 8))).
  change (Uint16LE ((text "RIFF" ++ [s0; s1; s2; s3] ++ text "WAVE" ++ chunk "fmt " body) ++ take 8 tail) 34) with (le16 (u8 bits) (u8 (Z.shiftr bits 8))).
  change (Uint32LE ((text "RIFF" ++ [s0; s1; s2; s3] ++ text "WAVE" ++ chunk "fmt " body) ++ take 8 tail) 24) with
    (Z.lor (le16 (u8 rate) (u8 (Z.shiftr rate 8))) (Z.shiftl (le16 (u8 (Z.shiftr rate 16)) (u8 (Z.shiftr rate 24))) 16)).
  rewrite (le16_bytes channels), (le16_bytes bits), le32_bytes by done.
  assert (Hfd : find_data (S (length file)) bits file 12 = Ok (if bits =? 16 then convertPCM16ToUlaw data else data)); [|by rewrite Hfd].
  rewrite Ef at 2. change 12%nat with (length (text "RIFF" ++ [s0; s1; s2; s3] ++ text "WAVE")). rewrite find_data_skip by done. unfold tail. apply find_data_all; [done|done|].
  rewrite Ef, !length_app. unfold tail. rewrite length_app. pose proof (chunks_length others). change (length [s0; s1; s2; s3]) with 4%nat. lia.
Qed.

(** Chunks of odd length hide the audio. The format pads such a chunk with a
    byte that its length does not count; the player does not skip it, reads the
    next header one byte off, and finds no audio in a file of up to 16 MB. *)
Theorem padded_chunk_hides_audio fuel bits pre id body data : String.length id = 4%nat -> id <> "data"%string ->
  Z.of_nat (length body) < 2 ^ 32 -> Z.of_nat (length data) < 2 ^ 24 -> (2 <= fuel)%nat ->
  find_data (S fuel) bits (pre ++ chunk id body ++ [0] ++ chunk "data" data) (length pre) = Err ErrNoDataChunk.
Proof.
  intros Hid Hne Hb Hd Hf. rewrite find_data_skip by done. set (pre' := pre ++ chunk id body). destruct fuel as [|[|fuel]]; [lia|lia|].
  set (n := Z.of_nat (length data)) in *.
  assert (Hr : file_Read 8 (pre' ++ [0] ++ chunk "data" data) (length pre') = Some ([0] ++ text "data" ++ [u8 n; u8 (Z.shiftr n 8); u8 (Z.shiftr n 16)], (length pre' + 8)%nat)).
  { unfold file_Read. by rewrite drop_app_length. }
  assert (Ht : is_text "data" (take 4 ([0] ++ text "data" ++ [u8 n; u8 (Z.shiftr n 8); u8 (Z.shiftr n 16)])) = false) by (apply bool_decide_false; done).
  cbn [find_data]. rewrite Hr, Ht.
  set (sz := Uint32LE _ 4).
  assert (Hsz : sz = 97 + 256 * n).
  { rewrite <- (le32_bytes (97 + 256 * n)) by (unfold is_u; lia). unfold sz, Uint32LE, Uint16LE, byte_of. cbn -[Z.shiftl Z.shiftr Z.lor Z.mul Z.add le16].
    assert (E8 : Z.shiftr (97 + 256 * n) 8 = n) by (rewrite Z.shiftr_div_pow2 by lia; change (2 ^ 8) with 256; symmetry; apply (Z.div_unique _ _ _ 97); lia).
    change 16 with (8 + 8) at 3. change 24 with (8 + 16). rewrite <- !(Z.shiftr_shiftr (97 + 256 * n) 8) by lia. rewrite !E8.
    replace (u8 (97 + 256 * n)) with 97; [done|]. unfold wrapu. apply (Z.mod_unique _ _ n); lia. }
  rewrite Hsz. cbn [find_data]. unfold file_Read. rewrite drop_ge; [done|]. rewrite !length_app. unfold chunk. rewrite !length_app. cbn. lia.
Qed.

(** ** Witnesses *)

Definition sample_playback (loop : bool) (n : nat) : PlaybackSession :=
  mkPlayback "s" "f.wav" "PCMU" 8000 1 loop false (replicate n 255) [] 0 true false 1000 0 7 0 "both" false.

Lemma linearToUlaw_accurate_witness :
  32 * Z.abs (g711_decode (linearToUlaw (-20000)) - Z.max (-32635) (Z.min 32635 (-20000))) <= Z.abs (Z.max (-32635) (Z.min 32635 (-20000))) + 132 /\
  0 <= -20000 * g711_decode (linearToUlaw (-20000)).
Proof. apply (linearToUlaw_accurate (-20000)). lia. Defined.

Lemma playback_complete_witness :
  exists packets ps', play 6 (sample_playback false 5) = Some (packets, ps') /\ playing ps' = false /\
    mjoin (map (drop 12) packets) = drop (Z.to_nat 0) (replicate 5 255) /\
    forall i packet, packets !! i = Some packet ->
      Uint16_at (E:=unit) packet 2 = Ok (u16 (1000 + Z.of_nat i)) /\
      Uint32_at (E:=unit) packet 4 = Ok (u32 (0 + Z.of_nat i * payloadSize (sample_playback false 5))).
Proof. apply (playback_complete 6 (sample_playback false 5)); [done|done|vm_compute; split; discriminate|done|done|vm_compute; reflexivity]. Defined.

Lemma loop_plays_iff_witness :
  (forall n, play n (sample_playback true 5) <> None) <-> 0 < audio_len (sample_playback true 5) /\ audio_len (sample_playback true 5) mod payloadSize (sample_playback true 5) = 0.
Proof. apply (loop_plays_iff (sample_playback true 5)); done. Defined.

Lemma wav_loaded_witness :
  let file := wav [0; 0; 0; 0] [1; 0] 1 8000 [0; 0; 0; 0; 2; 0] 16 [("LIST"%string, [1; 2])] [0; 0; 232; 3] [] in
  loadAudioFile (fun _ => Some file) "f.wav" = Ok (mkAudio [255; 206] 8000 1 "PCMU").
Proof.
  cbv zeta. etransitivity.
  - apply (wav_loaded (fun _ => Some (wav [0; 0; 0; 0] [1; 0] 1 8000 [0; 0; 0; 0; 2; 0] 16 [("LIST"%string, [1; 2])] [0; 0; 232; 3] [])) "f.wav" [0; 0; 0; 0] [1; 0] 1 8000 [0; 0; 0; 0; 2; 0] 16
      [("LIST"%string, [1; 2])] [0; 0; 232; 3] []); [reflexivity|reflexivity|reflexivity|reflexivity|unfold is_u; lia|unfold is_u; lia|unfold is_u; lia|repeat constructor; done|cbn; lia].
  - vm_compute. reflexivity.
Defined.

Lemma padded_chunk_hides_audio_witness :
  find_data 3 16 ([] ++ chunk "LIST" [7] ++ [0] ++ chunk "data" [0; 0; 232; 3]) 0 = Err ErrNoDataChunk.
Proof. apply (padded_chunk_hides_audio 2 16 [] "LIST" [7] [0; 0; 232; 3]); [reflexivity|done|cbn; lia|cbn; lia|lia]. Defined.
