(* ===== verification/Commands.v ===== *)
(** * The command handlers

    Models src/internal/ng_protocol/commands (delete, query, list, media_control,
    dtmf and statistics) and the dispatch of src/internal/ng_protocol/handler.go,
    over the session registry, the media player and the message encoding. The
    recording commands are in [RecordingCommands], offer and answer in [OfferAnswer].
    Logging and the Prometheus counters are left out.

    A handler takes the request and the state and gives the response and the
    state; the clock and the order in which the runtime walks the map of sessions
    are arguments. Pending deletes are the timers by session id, with the time
    they are due. *)

From Stdlib Require Import ZArith Lia Ascii String.
From stdpp Require Import base numbers list gmap strings.
From S2P Require Import Prelude GoFloat Bytes Utf8 Codec MediaPlayer Bencode Flags Sharded PortAllocator SessionRegistry Sdp Message Listener.

Local Open Scope Z_scope.
Local Open Scope go_scope.
#[local] Set Warnings "-clear-no-such-hyp,-register-all".
#[local] Arguments wraps : simpl never.
#[local] Arguments wrapu : simpl never.

(** A session of the request: by tags, else the first of the call. *)
Definition find_call (req : NGRequest) (sr : SessionRegistry) : option loc :=
  match GetSessionByTags (str (req_CallID req)) (str (req_FromTag req)) (str (req_ToTag req)) sr with
  | Some p => Some p
  | None => head (GetSessionByCallID (str (req_CallID req)) sr)
  end.

(** [string(rune(n))]: the UTF-8 text of one code point. *)
Definition rune_text (n : Z) : string :=
  string_of_list_ascii (map (fun b => ascii_of_N (Z.to_N b)) (WriteRune (wraps 32 n))).

Definition leg_at (sr : SessionRegistry) (leg : option loc) : option CallLeg := leg ≫= fun q => legs sr !! q.

(** ** delete.go *)

Record DeleteHandler := mkDeleteHandler { d_registry : SessionRegistry; pendingDeletes : gmap string Z }.

Definition NewDeleteHandler (registry : SessionRegistry) : DeleteHandler := mkDeleteHandler registry ∅.

Definition has_label (fromLabel toLabel : bytes) (sr : SessionRegistry) (p : loc) : bool :=
  (negb (bool_decide (fromLabel = [])) && bool_decide (is_Some (GetLegByLabel p (str fromLabel) sr))) ||
  (negb (bool_decide (toLabel = [])) && bool_decide (is_Some (GetLegByLabel p (str toLabel) sr))).

(** Labels narrow the choice only when some session has one. *)
Definition by_label (flags : ParsedFlags) (sr : SessionRegistry) (ps : list loc) : list loc :=
  let fromLabel := pf_str flags FromLabel in
  let toLabel := pf_str flags ToLabel in
  if bool_decide (fromLabel = []) && bool_decide (toLabel = []) then ps
  else match filter (fun p => has_label fromLabel toLabel sr p = true) ps with
       | [] => ps
       | filtered => filtered
       end.

Definition by_tags (req : NGRequest) (sr : SessionRegistry) (ps : list loc) : list loc :=
  if bool_decide (req_FromTag req = []) then ps
  else filter (fun p => tags_match (str (req_FromTag req)) (str (req_ToTag req)) sr p = true) ps.

(** The counters of a leg, added up as [uint64]. *)
Definition add_leg (leg : option CallLeg) (t : Z * Z * Z * Z) : Z * Z * Z * Z :=
  match leg with
  | None => t
  | Some l =>
      let '(a, b, c, d) := t in
      (u64 (a + leg_PacketsSent l), u64 (b + leg_PacketsRecv l), u64 (c + leg_BytesSent l), u64 (d + leg_BytesRecv l))
  end.

Definition leg_stats (loss : CallLeg -> float64) (leg : option CallLeg) : list LegStats :=
  match leg with
  | None => []
  | Some l => [mkLegStats (bs (leg_Tag l)) (leg_SSRC l) (leg_PacketsSent l) (leg_PacketsRecv l) (leg_BytesSent l) (leg_BytesRecv l) (loss l) (leg_Jitter l) (of_int 0)]
  end.

Definition deleted_stats (sr : SessionRegistry) (s : MediaSession) : CallStats :=
  let caller := leg_at sr (CallerLeg s) in
  let callee := leg_at sr (CalleeLeg s) in
  let '(a, b, c, d) := add_leg callee (add_leg caller (0, 0, 0, 0)) in
  let quality f := if b >? 0 then f (Stats s) else of_int 0 in
  mkCallStats (StartTime (Stats s)) (Duration (Stats s)) a b c d (quality PacketLossRate) (quality AvgJitter) (quality RTT) (quality MOS)
    (leg_stats (fun _ => of_int 0) caller ++ leg_stats (fun _ => of_int 0) callee).

(** One session: terminated, its statistics taken, removed. *)
Definition end_session (now : Z) (sr : SessionRegistry) (id : string) : SessionRegistry :=
  (DeleteSession id (UpdateSessionState now id SessionStateTerminated sr).2).2.

Fixpoint delete_all (now : Z) (ps : list loc) (total : option CallStats) (sr : SessionRegistry) : option CallStats * SessionRegistry :=
  match ps with
  | [] => (total, sr)
  | p :: ps =>
      let id := session_id sr p in
      let sr1 := (UpdateSessionState now id SessionStateTerminated sr).2 in
      let total := match total with
                   | Some st => Some st
                   | None => deleted_stats sr1 <$> deref sr1 p
                   end in
      delete_all now ps total (DeleteSession id sr1).2
  end.

Definition delete_response (req : NGRequest) (st : option CallStats) (extra : imap) : NGResponse :=
  mkNGResponse ResultOK [] [] (req_CallID req) (req_FromTag req) (req_ToTag req) [] st 0 0 [] [] extra.

(** A delay is in seconds, [time.Duration(delaySeconds) * time.Second]. *)
Definition handleDelayedDelete (now : Z) (req : NGRequest) (ps : list loc) (delaySeconds : Z) (h : DeleteHandler) : NGResponse * DeleteHandler :=
  (delete_response req None (map_of [(bs "delete-delay", IInt delaySeconds); (bs "scheduled", IBool true)]),
   mkDeleteHandler (d_registry h)
     (foldl (fun m p => <[session_id (d_registry h) p := Time_Add now (wraps 64 (delaySeconds * Second))]> m) (pendingDeletes h) ps)).

Definition delete_Handle (now : Z) (req : NGRequest) (h : DeleteHandler) : NGResponse * DeleteHandler :=
  if bool_decide (req_CallID req = []) then (missing ": call-id", h)
  else
    let flags := ParseFlags (req_Flags req) in
    match GetSessionByCallID (str (req_CallID req)) (d_registry h) with
    | [] => (not_found, h)
    | ps =>
        match by_tags req (d_registry h) (by_label flags (d_registry h) ps) with
        | [] => (not_found, h)
        | ps =>
            if pf_int flags Flags.DeleteDelay >? 0 then handleDelayedDelete now req ps (pf_int flags Flags.DeleteDelay) h
            else
              let '(st, sr) := delete_all now ps None (d_registry h) in
              (delete_response req st [], mkDeleteHandler sr (pendingDeletes h))
        end
    end.

Definition DeleteByCallID (now : Z) (callID : string) (h : DeleteHandler) : DeleteHandler :=
  mkDeleteHandler
    (foldl (fun sr p => end_session now sr (session_id sr p)) (d_registry h) (GetSessionByCallID callID (d_registry h)))
    (pendingDeletes h).

Definition DeleteBySessionID (now : Z) (id : string) (h : DeleteHandler) : outcome sr_error unit * DeleteHandler :=
  let '(r, sr) := DeleteSession id (UpdateSessionState now id SessionStateTerminated (d_registry h)).2 in
  (r, mkDeleteHandler sr (pendingDeletes h)).

(** The function of a timer, once it is due. *)
Definition fire (now : Z) (id : string) (h : DeleteHandler) : DeleteHandler :=
  match pendingDeletes h !! id with
  | Some due => if due <=? now then mkDeleteHandler (end_session now (d_registry h) id) (delete id (pendingDeletes h)) else h
  | None => h
  end.

Definition CancelDelayedDelete (id : string) (h : DeleteHandler) : bool * DeleteHandler :=
  match pendingDeletes h !! id with
  | Some _ => (true, mkDeleteHandler (d_registry h) (delete id (pendingDeletes h)))
  | None => (false, h)
  end.

(** ** query.go *)

Definition query_session (req : NGRequest) (sr : SessionRegistry) : option loc :=
  let flags := ParseFlags (req_Flags req) in
  let fromLabel := pf_str flags FromLabel in
  let toLabel := pf_str flags ToLabel in
  let ps := GetSessionByCallID (str (req_CallID req)) sr in
  let labelled :=
    if bool_decide (fromLabel = []) && bool_decide (toLabel = []) then None
    else head (filter (fun p => has_label fromLabel toLabel sr p = true) ps) in
  match labelled with
  | Some p => Some p
  | None =>
      match (if bool_decide (req_FromTag req = []) then None
             else GetSessionByTags (str (req_CallID req)) (str (req_FromTag req)) (str (req_ToTag req)) sr) with
      | Some p => Some p
      | None => head ps
      end
  end.

Definition query_stats (now : Z) (sr : SessionRegistry) (s : MediaSession) : CallStats :=
  let caller := leg_at sr (CallerLeg s) in
  let callee := leg_at sr (CalleeLeg s) in
  let '(a, b, c, d) := add_leg callee (add_leg caller (0, 0, 0, 0)) in
  let duration :=
    if IsZero (ConnectTime (Stats s)) then 0
    else if bool_decide (State s = SessionStateActive) then Time_Sub now (ConnectTime (Stats s)) else Duration (Stats s) in
  let lost l := of_int (leg_PacketsLost l) in
  mkCallStats (CreatedAt s) duration a b c d (PacketLossRate (Stats s)) (AvgJitter (Stats s)) (RTT (Stats s)) (MOS (Stats s))
    (leg_stats lost caller ++ leg_stats lost callee).

Definition tag_info (tag : string) (s : MediaSession) (l : CallLeg) : TagInfo :=
  mkTagInfo (bs tag) [] true 1 (Unix (CreatedAt s))
    [mkMediaInfo 0 (bs (leg_MediaType l)) (bs (leg_Transport l)) (bs (leg_LocalIP l)) (leg_LocalPort l) []].

Definition query_tags (sr : SessionRegistry) (s : MediaSession) : list (bytes * TagInfo) :=
  let d := match leg_at sr (CallerLeg s) with
           | Some l => dict_set (bs (FromTag s)) (tag_info (FromTag s) s l) []
           | None => []
           end in
  match leg_at sr (CalleeLeg s) with
  | Some l => dict_set (bs (ToTag s)) (tag_info (ToTag s) s l) d
  | None => d
  end.

(** The labelled legs, in the order [labels] of the map's walk. *)
Definition label_entries (sr : SessionRegistry) (labels : list string) (s : MediaSession) : imap :=
  omap (fun label =>
    l ← leg_at sr (Legs s !! label);
    Some (bs label, IMap (map_of [(bs "tag", IString (bs (leg_Tag l))); (bs "interface", IString (bs (leg_Interface l)));
                                  (bs "direction", IString (bs (leg_Direction l))); (bs "local-ip", IString (bs (leg_LocalIP l)));
                                  (bs "local-port", IInt (leg_LocalPort l))]))) labels.

(** The flags and the metadata are maps of types the encoder does not know. *)
Definition query_extra (sr : SessionRegistry) (labels : list string) (s : MediaSession) : imap :=
  map_of ([(bs "state", IString (bs (State s))); (bs "flags", IOther); (bs "metadata", IOther)] ++
    (if TOS s >=? 0 then [(bs "tos", IInt (TOS s))] else []) ++
    (if MediaTimeout s >=? 0 then [(bs "media-timeout", IInt (MediaTimeout s))] else []) ++
    (if SIPREC s then [(bs "siprec", IBool true)] else []) ++
    (if T38Enabled s then [(bs "t38", IBool true)] else []) ++
    (if ICELite s then [(bs "ice-lite", IBool true)] else []) ++
    (match Recording s with
     | Some r => if rec_Active r then [(bs "recording", IBool true); (bs "recording-file", IString (bs (rec_FilePath r)))] else []
     | None => []
     end) ++
    (if bool_decide (Legs s = ∅) then [] else [(bs "labels", IMap (map_of (label_entries sr labels s)))])).

Definition query_Handle (now : Z) (labels : list string) (req : NGRequest) (sr : SessionRegistry) : NGResponse :=
  if bool_decide (req_CallID req = []) then missing ": call-id"
  else
    match (p ← query_session req sr; deref sr p) with
    | None => not_found
    | Some s =>
        mkNGResponse ResultOK [] [] (bs (CallID s)) (bs (FromTag s)) (bs (ToTag s)) [] (Some (query_stats now sr s))
          (Unix (CreatedAt s)) (Unix (UpdatedAt s)) [] (query_tags sr s) (query_extra sr labels s)
    end.

Record AggregateStats := mkAggregate {
  ag_CurrentCalls : Z; ag_TotalCalls : Z; ag_TotalDuration : Z; ag_AvgCallDuration : Z;
  ag_PacketsSent : Z; ag_PacketsRecv : Z; ag_BytesSent : Z; ag_BytesRecv : Z; ag_PacketsLost : Z; ag_Uptime : Z }.

Definition session_legs (sr : SessionRegistry) (s : MediaSession) (t : Z * Z * Z * Z) : Z * Z * Z * Z :=
  add_leg (leg_at sr (CalleeLeg s)) (add_leg (leg_at sr (CallerLeg s)) t).

(** The time a session adds to the total; only positive durations of ended ones. *)
Definition query_duration (now : Z) (s : MediaSession) : Z :=
  if bool_decide (State s = SessionStateActive) then
    if IsZero (ConnectTime (Stats s)) then 0 else Time_Sub now (ConnectTime (Stats s))
  else if Duration (Stats s) >? 0 then Duration (Stats s) else 0.

Definition QueryAll (now : Z) (order : list string) (sr : SessionRegistry) : AggregateStats :=
  let ss := omap (deref sr) (ListSessions order sr) in
  let n := u64 (Z.of_nat (length (ListSessions order sr))) in
  let duration := foldl (fun d s => wraps 64 (d + query_duration now s)) 0 ss in
  let '(a, b, c, d) := foldl (fun t s => session_legs sr s t) (0, 0, 0, 0) ss in
  mkAggregate (GetActiveCount order sr) n duration (if n >? 0 then Z.quot duration (wraps 64 n) else 0) a b c d 0 0.

(** ** statistics.go *)

Definition lost_of (leg : option CallLeg) : Z := match leg with Some l => leg_PacketsLost l | None => 0 end.
Definition session_lost (sr : SessionRegistry) (n : Z) (s : MediaSession) : Z :=
  u64 (u64 (n + lost_of (leg_at sr (CallerLeg s))) + lost_of (leg_at sr (CalleeLeg s))).

(** Positive values, added up and counted. *)
Definition add_positive (x : float64) (t : float64 * Z) : float64 * Z :=
  if flt (of_int 0) x then (fadd t.1 x, t.2 + 1) else t.
Definition average (t : float64 * Z) : float64 := if t.2 >? 0 then fdiv t.1 (of_int t.2) else of_int 0.
Definition leg_jitter (leg : option CallLeg) (t : float64 * Z) : float64 * Z :=
  match leg with Some l => add_positive (leg_Jitter l) t | None => t end.

Definition statistics_Handle (now startTime : Z) (system : imap) (order : list string) (sr : SessionRegistry) : NGResponse :=
  let ss := omap (deref sr) (ListSessions order sr) in
  let calls := Z.of_nat (length ss) in
  let active := foldl (fun n s => if bool_decide (State s = SessionStateActive) then n + 1 else n) 0 ss in
  let duration := foldl (fun d s => wraps 64 (d + query_duration now s)) 0 ss in
  let '(a, b, c, d) := foldl (fun t s => session_legs sr s t) (0, 0, 0, 0) ss in
  let lost := foldl (session_lost sr) 0 ss in
  let jitter := foldl (fun t s => leg_jitter (leg_at sr (CalleeLeg s)) (leg_jitter (leg_at sr (CallerLeg s)) t)) (of_int 0, 0) ss in
  let mos := foldl (fun t s => add_positive (MOS (Stats s)) t) (of_int 0, 0) ss in
  mkNGResponse ResultOK [] [] [] [] [] [] None 0 0 [] []
    (map_of ([(bs "current-calls", IInt active); (bs "total-calls", IInt calls);
              (bs "total-duration", IInt64 (to_int64 (Seconds duration)));
              (bs "average-duration", IFloat64 (if calls >? 0 then fdiv (Seconds duration) (of_int calls) else of_int 0));
              (bs "packets-sent", IUint64 a); (bs "packets-received", IUint64 b); (bs "bytes-sent", IUint64 c); (bs "bytes-received", IUint64 d);
              (bs "packets-lost", IUint64 lost); (bs "average-jitter", IFloat64 (average jitter)); (bs "average-mos", IFloat64 (average mos));
              (bs "uptime", IInt64 (to_int64 (Seconds (Time_Sub now startTime))))] ++ system)).

Definition GetAggregateStats (now startTime : Z) (order : list string) (sr : SessionRegistry) : AggregateStats :=
  let ss := omap (deref sr) (ListSessions order sr) in
  let n := u64 (Z.of_nat (length (ListSessions order sr))) in
  let time s := if bool_decide (State s = SessionStateActive) then
                  if IsZero (ConnectTime (Stats s)) then 0 else Time_Sub now (ConnectTime (Stats s))
                else Duration (Stats s) in
  let duration := foldl (fun d s => wraps 64 (d + time s)) 0 ss in
  let '(a, b, c, d) := foldl (fun t s => session_legs sr s t) (0, 0, 0, 0) ss in
  mkAggregate (GetActiveCount order sr) n duration (if n >? 0 then Z.quot duration (wraps 64 n) else 0) a b c d
    (foldl (session_lost sr) 0 ss) (Time_Sub now startTime).

Definition active_streams (sr : SessionRegistry) (s : MediaSession) : Z :=
  if bool_decide (State s = SessionStateActive)
  then (if bool_decide (CallerLeg s = None) then 0 else 1) + (if bool_decide (CalleeLeg s = None) then 0 else 1) else 0.
Definition GetRealtimeStats (now startTime : Z) (order : list string) (sr : SessionRegistry) : Z * Z * Z * float64 :=
  (GetActiveCount order sr, foldl (fun n s => n + active_streams sr s) 0 (omap (deref sr) (ListSessions order sr)), 0,
   Seconds (Time_Sub now startTime)).

(** ** list.go *)

Definition list_entry (now : Z) (sr : SessionRegistry) (s : MediaSession) : interface float64 :=
  let duration := if bool_decide (State s = SessionStateActive) && negb (IsZero (ConnectTime (Stats s)))
                  then Time_Sub now (ConnectTime (Stats s)) else Duration (Stats s) in
  let leg ip port l := [(bs ip, IString (bs (leg_IP l))); (bs port, IInt (leg_Port l))] in
  IMap (map_of ([(bs "call-id", IString (bs (CallID s))); (bs "from-tag", IString (bs (FromTag s))); (bs "to-tag", IString (bs (ToTag s)));
                 (bs "state", IString (bs (State s))); (bs "created", IInt64 (Unix (CreatedAt s)));
                 (bs "last-signal", IInt64 (Unix (UpdatedAt s))); (bs "duration", IInt64 (to_int64 (Seconds duration)))] ++
    match leg_at sr (CallerLeg s) with Some l => leg "caller-ip"%string "caller-port"%string l | None => [] end ++
    match leg_at sr (CalleeLeg s) with Some l => leg "callee-ip"%string "callee-port"%string l | None => [] end)).

Definition list_Handle (now : Z) (order : list string) (sr : SessionRegistry) : NGResponse :=
  let calls := map (list_entry now sr) (omap (deref sr) (ListSessions order sr)) in
  mkNGResponse ResultOK [] [] [] [] [] [] None 0 0 [] [] (map_of [(bs "calls", ISlice calls); (bs "count", IInt (Z.of_nat (length calls)))]).

Record CallListEntry := mkCallEntry {
  ce_CallID : string; ce_FromTag : string; ce_ToTag : string; ce_Created : Z; ce_LastSignal : Z; ce_State : string; ce_Duration : Z }.
Definition entry_of_session (duration : Z) (s : MediaSession) : CallListEntry :=
  mkCallEntry (CallID s) (FromTag s) (ToTag s) (CreatedAt s) (UpdatedAt s) (State s) duration.

Definition ListActive (now : Z) (order : list string) (sr : SessionRegistry) : list CallListEntry :=
  map (fun s => entry_of_session (if IsZero (ConnectTime (Stats s)) then 0 else Time_Sub now (ConnectTime (Stats s))) s)
    (filter (fun s => State s = SessionStateActive) (omap (deref sr) (ListSessions order sr))).

Definition ListByState (state : string) (order : list string) (sr : SessionRegistry) : list CallListEntry :=
  map (fun s => entry_of_session (Duration (Stats s)) s)
    (filter (fun s => State s = state) (omap (deref sr) (ListSessions order sr))).

(** ** dtmf.go *)

(** A handler that acts on one session. *)
Definition on_call (req : NGRequest) (sr : SessionRegistry) (act : loc -> SessionRegistry) : NGResponse * SessionRegistry :=
  if bool_decide (req_CallID req = []) then (missing ": call-id", sr)
  else match find_call req sr with
       | None => (not_found, sr)
       | Some p => (ok, act p)
       end.

Definition HandleBlockDTMF (req : NGRequest) (sr : SessionRegistry) : NGResponse * SessionRegistry :=
  on_call req sr (fun p => SetFlag p "dtmf_blocked" true sr).
Definition HandleUnblockDTMF (req : NGRequest) (sr : SessionRegistry) : NGResponse * SessionRegistry :=
  on_call req sr (fun p => SetFlag p "dtmf_blocked" false sr).

Definition validDigits : list string := ["0"; "1"; "2"; "3"; "4"; "5"; "6"; "7"; "8"; "9"; "*"; "#"; "A"; "B"; "C"; "D"]%string.

Definition ok_with (extra : imap) : NGResponse := mkNGResponse ResultOK [] [] [] [] [] [] None 0 0 [] [] (map_of extra).

Definition HandlePlayDTMF (req : NGRequest) (sr : SessionRegistry) : NGResponse * SessionRegistry :=
  if bool_decide (req_CallID req = []) then (missing ": call-id", sr)
  else if bool_decide (req_DTMFDigit req = []) then (missing ": digit", sr)
  else
    match find_call req sr with
    | None => (not_found, sr)
    | Some p =>
        if negb (bool_decide (str (req_DTMFDigit req) ∈ validDigits)) then (error_response (bs "Invalid DTMF digit"), sr)
        else
          let duration := if req_DTMFDuration req <=? 0 then 100 else req_DTMFDuration req in
          let duration := if duration >? 5000 then 5000 else duration in
          (ok_with [(bs "digit", IString (req_DTMFDigit req)); (bs "duration", IInt duration)],
           SetMetadata p "pending_dtmf_duration" (rune_text duration) (SetMetadata p "pending_dtmf" (str (req_DTMFDigit req)) sr))
    end.

(** The events of RFC 4733, in the order of their numbers. *)
Definition DTMFDigitToEvent (digit : string) : Z :=
  match list_find (fun d => d = digit) validDigits with Some (i, _) => Z.of_nat i | None => -1 end.
Definition DTMFEventToDigit (event : Z) : string :=
  if event <? 0 then EmptyString else default EmptyString (validDigits !! Z.to_nat event).

Definition BuildDTMFPayload (event : Z) (endOfEvent : bool) (volume duration : Z) : list Z :=
  [u8 (Z.land event 15);
   if endOfEvent then Z.lor 128 (u8 (Z.land volume 63)) else u8 (Z.land volume 63);
   u8 (Z.land (Z.shiftr duration 8) 255);
   u8 (Z.land duration 255)].

Definition ParseDTMFPayload (payload : list Z) : Z * bool * Z * Z :=
  match payload with
  | b0 :: b1 :: b2 :: b3 :: _ =>
      (Z.land b0 15, negb (Z.land b1 128 =? 0), Z.land b1 63, Z.lor (Z.shiftl b2 8) b3)
  | _ => (-1, false, 0, 0)
  end.

(** ** media_control.go *)

Record MediaControlHandler := mkMediaControl { mc_registry : SessionRegistry; mc_player : MediaPlayer }.

Definition NewMediaControlHandler (registry : SessionRegistry) : MediaControlHandler := mkMediaControl registry NewMediaPlayer.
Definition NewMediaControlHandlerWithPlayer (registry : SessionRegistry) (player : MediaPlayer) : MediaControlHandler :=
  mkMediaControl registry player.

Definition control (req : NGRequest) (h : MediaControlHandler) (act : loc -> SessionRegistry -> SessionRegistry) : NGResponse * MediaControlHandler :=
  let '(r, sr) := on_call req (mc_registry h) (fun p => act p (mc_registry h)) in (r, mkMediaControl sr (mc_player h)).

Definition HandleBlockMedia (req : NGRequest) (h : MediaControlHandler) := control req h (fun p => SetFlag p "media_blocked" true).
Definition HandleUnblockMedia (req : NGRequest) (h : MediaControlHandler) := control req h (fun p => SetFlag p "media_blocked" false).
Definition HandleSilenceMedia (req : NGRequest) (h : MediaControlHandler) := control req h (fun p => SetFlag p "media_silenced" true).

Definition HandleStartForwarding (req : NGRequest) (h : MediaControlHandler) : NGResponse * MediaControlHandler :=
  if bool_decide (req_CallID req = []) then (missing ": call-id", h)
  else if bool_decide (req_ForwardAddress req = []) || (req_ForwardPort req <=? 0) then (missing ": forward-address and forward-port", h)
  else
    match find_call req (mc_registry h) with
    | None => (not_found, h)
    | Some p =>
        (ok_with [(bs "forward-address", IString (req_ForwardAddress req)); (bs "forward-port", IInt (req_ForwardPort req))],
         mkMediaControl (SetMetadata p "forward_port" (rune_text (req_ForwardPort req))
           (SetMetadata p "forward_address" (str (req_ForwardAddress req)) (SetFlag p "forwarding" true (mc_registry h)))) (mc_player h))
    end.

Definition HandleStopForwarding (req : NGRequest) (h : MediaControlHandler) : NGResponse * MediaControlHandler :=
  control req h (fun p sr => SetMetadata p "forward_port" "" (SetMetadata p "forward_address" "" (SetFlag p "forwarding" false sr))).

Definition yes (req : NGRequest) (key : string) : bool := bool_decide (DictGetString (req_RawParams req) (bs key) = bs "yes").

(** [fs], [nanos] and [spare] are the player's; [errtext] is the text of an error
    of the file system. *)
Definition HandlePlayMedia (fs : string -> option (list Z)) (errtext : media_error -> bytes) (now nanos : Z) (spare : list Z) (req : NGRequest) (h : MediaControlHandler)
    : NGResponse * MediaControlHandler :=
  if bool_decide (req_CallID req = []) then (missing ": call-id", h)
  else
    let filePath := DictGetString (req_RawParams req) (bs "file") in
    if bool_decide (filePath = []) then (missing ": file", h)
    else
      match find_call req (mc_registry h) with
      | None => (not_found, h)
      | Some p =>
          let leg := DictGetString (req_RawParams req) (bs "leg") in
          let targetLeg := if bool_decide (leg = []) then bs "both" else leg in
          let config := mkPlaybackConfig (str filePath) (str (DictGetString (req_RawParams req) (bs "codec"))) (yes req "loop") (yes req "blend") (str targetLeg) 0 in
          match StartPlayback fs now nanos spare (session_id (mc_registry h) p) config (mc_player h) with
          | (Ok _, player) =>
              (ok_with [(bs "file", IString filePath); (bs "loop", IBool (yes req "loop")); (bs "blend", IBool (yes req "blend")); (bs "leg", IString targetLeg)],
               mkMediaControl (SetMetadata p "play_file" (str filePath) (SetFlag p "playing_media" true (mc_registry h))) player)
          | (Err e, player) => (error_response (bs "Failed to start playback: failed to load audio file: " ++ errtext e), mkMediaControl (mc_registry h) player)
          | (_, player) => (error_response [], mkMediaControl (mc_registry h) player)
          end
      end.

Definition HandleStopMedia (req : NGRequest) (h : MediaControlHandler) : NGResponse * MediaControlHandler :=
  if bool_decide (req_CallID req = []) then (missing ": call-id", h)
  else
    match find_call req (mc_registry h) with
    | None => (not_found, h)
    | Some p =>
        (ok, mkMediaControl (SetMetadata p "play_file" "" (SetFlag p "playing_media" false (mc_registry h)))
               (StopPlayback (session_id (mc_registry h) p) (mc_player h)).2)
    end.

(** Pausing and resuming: the flag follows when the player agrees. *)
Definition set_paused (op : string -> MediaPlayer -> outcome media_error unit * MediaPlayer) (paused : bool) (failure : string) (req : NGRequest) (h : MediaControlHandler)
    : NGResponse * MediaControlHandler :=
  if bool_decide (req_CallID req = []) then (missing ": call-id", h)
  else
    match find_call req (mc_registry h) with
    | None => (not_found, h)
    | Some p =>
        match op (session_id (mc_registry h) p) (mc_player h) with
        | (Ok _, player) => (ok, mkMediaControl (SetFlag p "media_paused" paused (mc_registry h)) player)
        | (_, player) => (error_response (bs failure ++ bs "no playback session found: " ++ bs (session_id (mc_registry h) p)), mkMediaControl (mc_registry h) player)
        end
    end.
Definition HandlePauseMedia := set_paused PausePlayback true "Failed to pause playback: ".
Definition HandleResumeMedia := set_paused ResumePlayback false "Failed to resume playback: ".

Record MediaFlags := mkMediaFlags { f_MediaBlocked : bool; f_MediaSilenced : bool; f_DTMFBlocked : bool; f_Forwarding : bool; f_PlayingMedia : bool }.
Definition GetMediaFlags (p : loc) (sr : SessionRegistry) : MediaFlags :=
  mkMediaFlags (GetFlag p "media_blocked" sr) (GetFlag p "media_silenced" sr) (GetFlag p "dtmf_blocked" sr) (GetFlag p "forwarding" sr) (GetFlag p "playing_media" sr).
Definition ShouldProcessMedia (f : MediaFlags) : bool := negb (f_MediaBlocked f).
Definition ShouldForwardMedia (f : MediaFlags) : bool := f_Forwarding f && negb (f_MediaBlocked f).
Definition ShouldReplaceWithSilence (f : MediaFlags) : bool := f_MediaSilenced f && negb (f_MediaBlocked f).

(** ** handler.go *)

(** A handler returns a response that may be nil, or an error by its text; the
    state it changes is [T]. *)
Definition CommandHandler (T : Type) : Type := NGRequest -> T -> outcome bytes (option NGResponse) * T.

Record CommandRegistry (T : Type) := mkRegistry {
  r_handlers : list (bytes * CommandHandler T);
  middlewares : list (CommandHandler T -> CommandHandler T) }.
Arguments mkRegistry {T} _ _.
Arguments r_handlers {T} _.
Arguments middlewares {T} _.

Definition NewCommandRegistry {T : Type} : CommandRegistry T := mkRegistry [] [].
Definition Register {T : Type} (command : bytes) (handler : CommandHandler T) (r : CommandRegistry T) : CommandRegistry T :=
  mkRegistry ((command, handler) :: filter (fun kv => kv.1 <> command) (r_handlers r)) (middlewares r).
Definition Use {T : Type} (middleware : CommandHandler T -> CommandHandler T) (r : CommandRegistry T) : CommandRegistry T :=
  mkRegistry (r_handlers r) (middlewares r ++ [middleware]).

Definition find_handler {T : Type} (command : bytes) (l : list (bytes * CommandHandler T)) : option (CommandHandler T) :=
  snd <$> head (filter (fun kv => kv.1 = command) l).

(** The first middleware is the outermost. *)
Definition GetHandler {T : Type} (command : bytes) (r : CommandRegistry T) : option (CommandHandler T) :=
  h ← find_handler command (r_handlers r); Some (foldr (fun m h => m h) h (middlewares r)).

(** Logging reads the result of a response without error, nil or not. *)
Definition LoggingMiddleware {T : Type} (next : CommandHandler T) : CommandHandler T := fun req s =>
  match next req s with
  | (Ok None, s) => (Panic, s)
  | r => r
  end.
(** Counting changes nothing here. *)
Definition MetricsMiddleware {T : Type} (next : CommandHandler T) : CommandHandler T := next.

(** The parameters that are checked; any other name is accepted. *)
Definition param_missing (req : NGRequest) (param : bytes) : bool :=
  (bool_decide (param = bs "call-id") && bool_decide (req_CallID req = [])) ||
  (bool_decide (param = bs "from-tag") && bool_decide (req_FromTag req = [])) ||
  (bool_decide (param = bs "sdp") && bool_decide (req_SDP req = [])).
Definition ValidationMiddleware {T : Type} (requiredParams : list bytes) (next : CommandHandler T) : CommandHandler T := fun req s =>
  match head (filter (fun param => param_missing req param = true) requiredParams) with
  | Some param => (Ok (Some (error_response (bs "Missing required parameter: " ++ param))), s)
  | None => next req s
  end.

(** What the handler asks of the session manager: the calls and the statistics. *)
Class SessionManager (T : Type) := {
  sm_ListSessions : T -> list MediaSession;
  sm_GetStats : T -> imap }.

Definition handlePing {T : Type} : CommandHandler T := fun req s => (Ok (Some (result_only ResultPong)), s).
Definition handleList {T : Type} `{!SessionManager T} : CommandHandler T := fun req s =>
  (Ok (Some (ok_with [(bs "calls", ISlice (map call_entry (sm_ListSessions s)))])), s).
Definition handleStatistics {T : Type} `{!SessionManager T} : CommandHandler T := fun req s =>
  (Ok (Some (mkNGResponse ResultOK [] [] [] [] [] [] None 0 0 [] [] (sm_GetStats s))), s).

Definition registerBuiltinCommands {T : Type} `{!SessionManager T} (r : CommandRegistry T) : CommandRegistry T :=
  Register (bs "statistics") handleStatistics (Register (bs "list") handleList (Register (bs "ping") handlePing r)).

Definition NewHandler {T : Type} `{!SessionManager T} : CommandRegistry T :=
  registerBuiltinCommands (Use MetricsMiddleware (Use LoggingMiddleware NewCommandRegistry)).

Definition Handle {T : Type} (FormatFloat : float64 -> Z -> bytes) (r : CommandRegistry T) (req : NGRequest) (s : T) : outcome berror bytes * T :=
  match GetHandler (req_Command req) r with
  | None => (ErrorResponse FormatFloat (req_Cookie req) ErrReasonUnsupported, s)
  | Some handler =>
      match handler req s with
      | (Ok (Some resp), s) => (BuildResponse FormatFloat (req_Cookie req) resp, s)
      | (Err text, s) => (ErrorResponse FormatFloat (req_Cookie req) text, s)
      | (OutOfFuel, s) => (OutOfFuel, s)
      | (_, s) => (Panic, s)
      end
  end.

(** ** Lemmas: deleting *)

Lemma update_sessions now id st sr : sessions (UpdateSessionState now id st sr).2 = sessions sr.
Proof. unfold UpdateSessionState, UpdateSessionStateTyped. destruct (sessions sr !! id) as [p|]; [|done]. destruct (deref sr p); [|done]. cbn [snd]. by case_match. Qed.

(** A state change keeps every session's id, labels and tags. *)
Lemma update_objects now id st sr q : reg_ok sr ->
  match deref (UpdateSessionState now id st sr).2 q, deref sr q with
  | Some s, Some t => ID s = ID t
  | None, None => True
  | _, _ => False
  end.
Proof.
  intros Hok. destruct (sessions sr !! id) as [p|] eqn:Hid.
  2: { unfold UpdateSessionState, UpdateSessionStateTyped. rewrite Hid. cbn. by destruct (deref sr q). }
  destruct (ok_sessions _ Hok _ _ Hid) as (s & Hp & Hs).
  rewrite (UpdateSessionState_eq now id st sr p s) by (first [done | split; [done|by rewrite Hs]]). cbn [snd]. cbv zeta.
  assert (H : match deref (write p (updated now st s) sr) q, deref sr q with Some s, Some t => ID s = ID t | None, None => True | _, _ => False end).
  { unfold deref, write. cbn. destruct (decide (p = q)) as [->|Hne].
    - rewrite lookup_insert_eq, Hp. by destruct (updated_fields now st s) as [[? _] _].
    - rewrite lookup_insert_ne by done. by destruct (mem sr !! q). }
  destruct (_ && _ && _); exact H.
Qed.

Lemma update_session_id now id st sr q : reg_ok sr -> session_id (UpdateSessionState now id st sr).2 q = session_id sr q.
Proof.
  intros Hok. pose proof (update_objects now id st sr q Hok) as H. unfold session_id. destruct (deref _ q), (deref sr q); done.
Qed.

Lemma delete_session_id id sr q : session_id (DeleteSession id sr).2 q = session_id sr q.
Proof. unfold session_id, deref, DeleteSession. by rewrite remove_keeps_objects. Qed.

(** The registry without the ids. *)
Definition without (ids : list string) (m : gmap string loc) : gmap string loc := foldl (fun m id => delete id m) m ids.

Lemma without_lookup ids m id : without ids m !! id = if bool_decide (id ∈ ids) then None else m !! id.
Proof.
  unfold without. revert m. induction ids as [|i ids IH]; intros m; [done|]. cbn [foldl]. rewrite IH. destruct (decide (id = i)) as [->|Hne].
  - rewrite lookup_delete_eq, (bool_decide_true (i ∈ i :: ids)) by left. by case_bool_decide.
  - rewrite lookup_delete_ne by done. erewrite bool_decide_ext; [reflexivity|]. rewrite elem_of_cons. tauto.
Qed.

(** Ending sessions one after the other removes exactly them. *)
Lemma delete_all_spec now ps : forall total sr, reg_ok sr ->
  reg_ok (delete_all now ps total sr).2 /\ sessions (delete_all now ps total sr).2 = without (map (session_id sr) ps) (sessions sr).
Proof.
  induction ps as [|p ps IH]; intros total sr Hok; [done|]. cbn [delete_all map].
  pose proof (reg_ok_update now (session_id sr p) SessionStateTerminated sr Hok) as Hok1. pose proof (reg_ok_remove (session_id sr p) _ Hok1) as Hok2.
  set (sr1 := (UpdateSessionState _ _ _ sr).2) in *. destruct (IH (match total with Some st => Some st | None => deleted_stats sr1 <$> deref sr1 p end) _ Hok2) as [H1 H2].
  split; [exact H1|]. unfold DeleteSession in *. rewrite H2, remove_sessions by done. unfold sr1. rewrite update_sessions.
  change (without (session_id sr p :: ?l) ?m) with (without l (delete (session_id sr p) m)). f_equal.
  apply map_ext. intros q. unfold sr1. change (removeSessionLocked ?a ?b) with (DeleteSession a b). by rewrite delete_session_id, update_session_id.
Qed.

(** The sessions a delete request is about. *)
Definition chosen (req : NGRequest) (sr : SessionRegistry) : list loc :=
  by_tags req sr (by_label (ParseFlags (req_Flags req)) sr (GetSessionByCallID (str (req_CallID req)) sr)).

Lemma chosen_nil req sr : GetSessionByCallID (str (req_CallID req)) sr = [] -> chosen req sr = [].
Proof.
  intros E. unfold chosen. rewrite E. assert (H : by_label (ParseFlags (req_Flags req)) sr [] = []) by (unfold by_label; by destruct (_ && _)).
  rewrite H. unfold by_tags. by destruct (bool_decide _).
Qed.

(** The handler by the sessions it is about. *)
Lemma delete_Handle_eq now req h : req_CallID req <> [] ->
  delete_Handle now req h =
  if bool_decide (chosen req (d_registry h) = []) then (not_found, h)
  else if pf_int (ParseFlags (req_Flags req)) Flags.DeleteDelay >? 0
  then handleDelayedDelete now req (chosen req (d_registry h)) (pf_int (ParseFlags (req_Flags req)) Flags.DeleteDelay) h
  else (delete_response req (delete_all now (chosen req (d_registry h)) None (d_registry h)).1 [],
        mkDeleteHandler (delete_all now (chosen req (d_registry h)) None (d_registry h)).2 (pendingDeletes h)).
Proof.
  intros Hc. unfold delete_Handle. rewrite bool_decide_false by done. destruct (GetSessionByCallID (str (req_CallID req)) (d_registry h)) as [|p ps] eqn:E.
  - rewrite chosen_nil by done. by rewrite bool_decide_true.
  - unfold chosen. rewrite E. destruct (by_tags _ _ _) as [|q qs]; [by rewrite bool_decide_true|]. rewrite bool_decide_false by done.
    destruct (_ >? 0); [done|]. by destruct (delete_all _ _ _ _).
Qed.

(** *** The sessions a delete names *)

(** The session is registered for the call of the request. *)
Definition of_request (req : NGRequest) (sr : SessionRegistry) (s : MediaSession) : Prop :=
  (exists p, live sr p s) /\ CallID s = str (req_CallID req).
(** It has a leg under a label of the request. *)
Definition labelled (req : NGRequest) (s : MediaSession) : Prop :=
  exists label, label <> [] /\ (label = pf_str (ParseFlags (req_Flags req)) FromLabel \/ label = pf_str (ParseFlags (req_Flags req)) ToLabel) /\ is_Some (Legs s !! str label).
(** It has the tags of the request, as far as the request has them; a to-tag counts
    only with a from-tag. *)
Definition tagged (req : NGRequest) (s : MediaSession) : Prop :=
  req_FromTag req <> [] -> FromTag s = str (req_FromTag req) /\ (req_ToTag req <> [] -> ToTag s = str (req_ToTag req)).
Definition named (req : NGRequest) (sr : SessionRegistry) (s : MediaSession) : Prop :=
  of_request req sr s /\ tagged req s /\ (labelled req s \/ forall s', of_request req sr s' -> ~ labelled req s').

Lemma str_nil b : str b = EmptyString <-> b = [].
Proof. by destruct b. Qed.

Lemma tags_match_tagged req sr p s : mem sr !! p = Some s -> req_FromTag req <> [] ->
  tags_match (str (req_FromTag req)) (str (req_ToTag req)) sr p = true <-> tagged req s.
Proof.
  intros Hp Hf. unfold tags_match, tagged, deref. rewrite Hp, andb_true_iff, orb_true_iff, !bool_decide_eq_true, str_nil. split.
  - intros [H1 [H2|H2]] _; by split.
  - intros H. destruct (H Hf) as [H1 H2]. split; [done|]. destruct (decide (req_ToTag req = [])) as [E|E]; [by left|right; auto].
Qed.

Lemma has_label_labelled req sr p s : mem sr !! p = Some s ->
  has_label (pf_str (ParseFlags (req_Flags req)) FromLabel) (pf_str (ParseFlags (req_Flags req)) ToLabel) sr p = true <-> labelled req s.
Proof.
  intros Hp. unfold has_label, labelled, GetLegByLabel, deref. rewrite Hp. cbn [mbind option_bind]. rewrite orb_true_iff, !andb_true_iff, !negb_true_iff, !bool_decide_eq_false, !bool_decide_eq_true. split.
  - intros [[H1 H2]|[H1 H2]]; eexists; eauto.
  - intros (label & H1 & [->| ->] & H2); [left|right]; done.
Qed.

Lemma by_label_elem flags sr ps p (labels := has_label (pf_str flags FromLabel) (pf_str flags ToLabel) sr) :
  p ∈ by_label flags sr ps <-> p ∈ ps /\ (labels p = true \/ forall q, q ∈ ps -> labels q = false).
Proof.
  unfold by_label. fold labels. destruct (bool_decide (pf_str flags FromLabel = []) && bool_decide (pf_str flags ToLabel = [])) eqn:E.
  - apply andb_true_iff in E as [E1%bool_decide_eq_true E2%bool_decide_eq_true]. split; [|tauto]. intros Hp. split; [done|]. right. intros q _. unfold labels, has_label. by rewrite E1, E2.
  - destruct (filter (fun p => labels p = true) ps) as [|x l] eqn:El.
    + split; [|tauto]. intros Hp. split; [done|]. right. intros q Hq. apply not_true_iff_false. intros Hl. assert (q ∈ filter (fun p => labels p = true) ps) as Hin by (by apply list_elem_of_filter). rewrite El in Hin. by apply not_elem_of_nil in Hin.
    + rewrite <- El, list_elem_of_filter. split; [intros [H1 H2]; auto|]. intros [Hp [Hl|Hno]]; [done|].
      assert (x ∈ filter (fun p => labels p = true) ps) as [Hx Hin]%list_elem_of_filter by (rewrite El; left). by rewrite Hno in Hx.
Qed.

Lemma of_request_elem req sr p s : reg_ok sr -> live sr p s -> p ∈ GetSessionByCallID (str (req_CallID req)) sr <-> of_request req sr s.
Proof.
  intros Hok Hl. rewrite (ok_exact _ Hok). split.
  - intros (s' & [Hm _] & Hc). destruct Hl as [Hm' Hs]. assert (s' = s) as -> by congruence. split; [by exists p|done].
  - intros [_ Hc]. by exists s.
Qed.

(** The code chooses exactly these. *)
Lemma chosen_named req sr p : reg_ok sr -> p ∈ chosen req sr <-> exists s, live sr p s /\ named req sr s.
Proof.
  intros Hok. set (ps := GetSessionByCallID (str (req_CallID req)) sr).
  assert (forall q, q ∈ ps -> exists s, live sr q s /\ of_request req sr s) as Hps.
  { intros q Hq. pose proof Hq as Hq'. apply (ok_exact _ Hok) in Hq as (s & Hl & _). exists s. split; [done|]. by apply (of_request_elem req sr q). }
  assert (p ∈ chosen req sr <-> p ∈ by_label (ParseFlags (req_Flags req)) sr ps /\ (req_FromTag req <> [] -> tags_match (str (req_FromTag req)) (str (req_ToTag req)) sr p = true)) as ->.
  { unfold chosen, by_tags. fold ps. case_bool_decide as E; [split; [by split|by intros []]|]. rewrite list_elem_of_filter. tauto. }
  rewrite by_label_elem. split.
  - intros [[Hp Hl] Ht]. destruct (Hps p Hp) as (s & Hlive & Hreq). exists s. split; [done|]. split; [done|]. split.
    + intros Hf. by apply (tags_match_tagged req sr p s (proj1 Hlive) Hf); [apply Ht|].
    + destruct Hl as [Hl|Hl]; [left; by apply (has_label_labelled req sr p s (proj1 Hlive))|right]. intros s' [[q Hq] Hc] Hlab. apply (has_label_labelled req sr q s' (proj1 Hq)) in Hlab.
      rewrite Hl in Hlab; [done|]. apply (of_request_elem req sr q s' Hok Hq). by split; [exists q|].
  - intros (s & Hlive & Hreq & Ht & Hl). split; [split|].
    + by apply (of_request_elem req sr p s).
    + destruct Hl as [Hl|Hl]; [left; by apply (has_label_labelled req sr p s (proj1 Hlive))|right]. intros q Hq. destruct (Hps q Hq) as (s' & Hlive' & Hreq'). apply not_true_iff_false. intros Hlab.
      apply (has_label_labelled req sr q s' (proj1 Hlive')) in Hlab. by apply (Hl s' Hreq').
    + intros Hf. by apply (tags_match_tagged req sr p s (proj1 Hlive) Hf).
Qed.

Lemma chosen_ids req sr id : reg_ok sr -> id ∈ map (session_id sr) (chosen req sr) <-> exists s, named req sr s /\ ID s = id.
Proof.
  intros Hok. rewrite list_elem_of_In, in_map_iff. setoid_rewrite <- list_elem_of_In. split.
  - intros (p & <- & Hp). apply (chosen_named req sr p Hok) in Hp as (s & [Hm _] & Hn). exists s. split; [done|]. unfold session_id, deref. by rewrite Hm.
  - intros (s & Hn & <-). destruct Hn as [[[p Hl] Hc] Hr]. exists p. split; [unfold session_id, deref; by rewrite (proj1 Hl)|]. apply (chosen_named req sr p Hok). exists s. split; [done|]. split; [|done]. split; [by exists p|done].
Qed.


(** A label that no session of the call has is ignored: a delete request that
    was meant for one leg ends every session of the call. *)
Theorem unknown_label_deletes_call now req h (sr := d_registry h) : reg_ok sr -> req_CallID req <> [] -> req_FromTag req = [] ->
  pf_int (ParseFlags (req_Flags req)) Flags.DeleteDelay <= 0 ->
  pf_str (ParseFlags (req_Flags req)) FromLabel <> [] ->
  (forall p, p ∈ GetSessionByCallID (str (req_CallID req)) sr ->
     has_label (pf_str (ParseFlags (req_Flags req)) FromLabel) (pf_str (ParseFlags (req_Flags req)) ToLabel) sr p = false) ->
  forall p s, live sr p s -> CallID s = str (req_CallID req) -> sessions (d_registry (delete_Handle now req h).2) !! ID s = None.
Proof.
  intros Hok Hc Hf Hd Hl Hno p s Hlive Hcs. assert (Hin : p ∈ GetSessionByCallID (str (req_CallID req)) sr) by (apply (ok_exact _ Hok); by exists s).
  assert (E : chosen req sr = GetSessionByCallID (str (req_CallID req)) sr).
  { unfold chosen, by_tags. rewrite bool_decide_true by done. unfold by_label. rewrite (bool_decide_false (pf_str _ FromLabel = [])) by done. cbn [andb].
    assert (Ef : filter (fun p => has_label (pf_str (ParseFlags (req_Flags req)) FromLabel) (pf_str (ParseFlags (req_Flags req)) ToLabel) sr p = true)
       (GetSessionByCallID (str (req_CallID req)) sr) = []); [|by rewrite Ef].
    revert Hno. generalize (GetSessionByCallID (str (req_CallID req)) sr) as l. clear. induction l as [|q l IH]; intros Hno; [done|].
    rewrite filter_cons, decide_False by (rewrite Hno by left; done). apply IH. intros r Hr. apply Hno. by right. }
  rewrite delete_Handle_eq by done. fold sr. rewrite Z.gtb_ltb, (proj2 (Z.ltb_ge _ _)) by done. rewrite E.
  rewrite bool_decide_false by (intros En; rewrite En in Hin; by apply not_elem_of_nil in Hin).
  destruct (delete_all_spec now (GetSessionByCallID (str (req_CallID req)) sr) None sr Hok) as [_ H2]. cbn [snd d_registry]. rewrite H2, without_lookup.
  rewrite bool_decide_true; [done|]. apply list_elem_of_In, in_map_iff. exists p. split; [|by apply list_elem_of_In]. unfold session_id, deref. by rewrite (proj1 Hlive).
Qed.

(** ** Delayed deletes *)

Definition scheduled (now d : Z) (ids : list string) (m : gmap string Z) : gmap string Z := foldl (fun m id => <[id := now + d]> m) m ids.

Lemma scheduled_lookup now d ids m id : scheduled now d ids m !! id = if bool_decide (id ∈ ids) then Some (now + d) else m !! id.
Proof.
  unfold scheduled. revert m. induction ids as [|i ids IH]; intros m; [done|]. cbn [foldl]. rewrite IH. destruct (decide (id = i)) as [->|Hne].
  - rewrite lookup_insert_eq, (bool_decide_true (i ∈ i :: ids)) by left. by case_bool_decide.
  - rewrite lookup_insert_ne by done. erewrite bool_decide_ext; [reflexivity|]. rewrite elem_of_cons. tauto.
Qed.

Lemma foldl_map {A B C : Type} (f : A -> B -> A) (g : C -> B) l a : foldl f a (map g l) = foldl (fun a x => f a (g x)) a l.
Proof. revert a. induction l; intros; cbn; [done|]. by rewrite IHl. Qed.

(** The registry after ending one session. *)
Lemma end_session_sessions now id sr : reg_ok sr -> sessions (end_session now sr id) = delete id (sessions sr).
Proof.
  intros Hok. unfold end_session, DeleteSession. rewrite remove_sessions by (by apply reg_ok_update). by rewrite update_sessions.
Qed.

(** A delayed delete touches no session when it is asked for, replaces a
    delay the session had, and ends the session when its time has come unless it
    was cancelled: a timer that fires early, or was cancelled, does nothing. *)
Theorem delayed_delete_exact now req h id t (sr := d_registry h) (d := pf_int (ParseFlags (req_Flags req)) Flags.DeleteDelay) :
  reg_ok sr -> req_CallID req <> [] -> 0 < d -> is_s 64 (d * Second) -> id ∈ map (session_id sr) (chosen req sr) ->
  let h' := (delete_Handle now req h).2 in
  d_registry h' = sr /\ pendingDeletes h' !! id = Some (now + d * Second) /\
  (t < now + d * Second -> fire t id h' = h') /\
  (now + d * Second <= t -> sessions (d_registry (fire t id h')) = delete id (sessions sr) /\ pendingDeletes (fire t id h') !! id = None) /\
  (CancelDelayedDelete id h').1 = true /\ fire t id (CancelDelayedDelete id h').2 = (CancelDelayedDelete id h').2.
Proof.
  intros Hok Hc Hd Hs Hin. cbv zeta. rewrite delete_Handle_eq by done. fold sr. fold d.
  rewrite bool_decide_false by (intros E; rewrite E in Hin; by apply not_elem_of_nil in Hin). rewrite Z.gtb_ltb, (proj2 (Z.ltb_lt _ _)) by done.
  unfold handleDelayedDelete. cbn [snd d_registry pendingDeletes]. fold sr. unfold Time_Add. rewrite wraps_id by (done || lia).
  set (m := foldl _ _ _). assert (Hm : m !! id = Some (now + d * Second)).
  { change (scheduled now (d * Second) (map (session_id sr) (chosen req sr)) (pendingDeletes h) !! id = Some (now + d * Second)) || idtac.
    unfold m. rewrite <- (foldl_map (fun m id => <[id := now + d * Second]> m) (session_id sr)). fold (scheduled now (d * Second) (map (session_id sr) (chosen req sr)) (pendingDeletes h)).
    rewrite scheduled_lookup. by rewrite bool_decide_true. }
  clearbody m. split; [done|]. split; [done|]. unfold fire, CancelDelayedDelete. cbn [pendingDeletes d_registry]. rewrite Hm. cbn [fst snd pendingDeletes]. split.
  { intros Ht. by rewrite (proj2 (Z.leb_gt _ _)). }
  split.
  { intros Ht. rewrite (proj2 (Z.leb_le _ _)) by done. cbn [d_registry pendingDeletes]. split; [by apply end_session_sessions|apply lookup_delete_eq]. }
  split; [done|]. by rewrite lookup_delete_eq.
Qed.

(** ** Queries *)

Lemma assoc_set_other {A : Type} k (l : list (bytes * A)) : Forall (fun kv => kv.1 <> k) l -> forall d, assoc k (foldl (fun d kv => dict_set kv.1 kv.2 d) d l) = assoc k d.
Proof.
  induction 1 as [|[k' v] l Hk _ IH]; intros d; [done|]. cbn [foldl]. rewrite IH, assoc_dict_set. by rewrite bool_decide_false by (intros ->; by apply Hk).
Qed.

Lemma query_extra_flags sr labels s : (bs "flags", IOther) ∈ query_extra sr labels s.
Proof.
  apply assoc_elem_of. unfold query_extra, map_of. rewrite foldl_app. rewrite assoc_set_other; [reflexivity|].
  repeat apply Forall_app_2; repeat case_match; repeat constructor; vm_compute; discriminate.
Qed.

(** No answer of the query handler can be sent. Whatever session it finds,
    its flags and metadata are maps of types the encoder does not know, so the
    response of a successful query fails to encode and the client gets none. *)
Theorem query_never_answered FormatFloat now labels req sr p s cookie : req_CallID req <> [] -> query_session req sr = Some p -> deref sr p = Some s ->
  wf_response (query_Handle now labels req sr) ->
  resp_Result (query_Handle now labels req sr) = ResultOK /\
  BuildResponse FormatFloat cookie (query_Handle now labels req sr) = Err ErrInvalidType.
Proof.
  intros Hc Hp Hs Hwf. assert (E : resp_Extra (query_Handle now labels req sr) = query_extra sr labels s /\ resp_Result (query_Handle now labels req sr) = ResultOK).
  { unfold query_Handle. rewrite bool_decide_false by done. rewrite Hp. cbn [mbind option_bind]. by rewrite Hs. }
  destruct E as [E1 E2]. split; [done|]. eapply BuildResponse_unencodable; [done|rewrite E1; apply query_extra_flags|done].
Qed.

(** Sums over the sessions do not depend on the order of the map's walk. *)
Lemma foldl_perm {A B : Type} (f : A -> B -> A) : (forall a x y, f (f a x) y = f (f a y) x) ->
  forall l l', l ≡ₚ l' -> forall a, foldl f a l = foldl f a l'.
Proof. intros Hf l l' H. induction H as [|x l l' _ IH|x y l|l l' l'' _ IH1 _ IH2]; intros a; cbn [foldl]; [done|apply IH|by rewrite Hf|by rewrite IH1]. Qed.

Lemma u64_add_swap a x y : u64 (u64 (a + x) + y) = u64 (u64 (a + y) + x).
Proof. unfold wrapu. rewrite !Zplus_mod_idemp_l. f_equal. lia. Qed.

Lemma add_leg_swap l l' t : add_leg l (add_leg l' t) = add_leg l' (add_leg l t).
Proof. destruct l as [l|], l' as [l'|]; try done. destruct t as [[[a b] c] d]. cbn. by rewrite (u64_add_swap a), (u64_add_swap b), (u64_add_swap c), (u64_add_swap d). Qed.

Lemma session_legs_swap sr s s' t : session_legs sr s (session_legs sr s' t) = session_legs sr s' (session_legs sr s t).
Proof.
  unfold session_legs. rewrite (add_leg_swap (leg_at sr (CallerLeg s))). rewrite (add_leg_swap (leg_at sr (CalleeLeg s))).
  rewrite (add_leg_swap (leg_at sr (CallerLeg s)) (leg_at sr (CallerLeg s'))). by rewrite (add_leg_swap (leg_at sr (CalleeLeg s)) (leg_at sr (CallerLeg s'))).
Qed.

Lemma listed_perm order order' sr : order ≡ₚ order' -> ListSessions order sr ≡ₚ ListSessions order' sr.
Proof. intros H. unfold ListSessions. by rewrite H. Qed.

(** The aggregate of all calls does not depend on the order in which the
    runtime walks the map of sessions: counters add up modulo 2^64 and durations
    as 64-bit integers, so two queries of one registry agree. *)
Theorem QueryAll_order now order order' sr : order ≡ₚ order' -> QueryAll now order sr = QueryAll now order' sr.
Proof.
  intros H. pose proof (listed_perm order order' sr H) as Hl. assert (Hs : omap (deref sr) (ListSessions order sr) ≡ₚ omap (deref sr) (ListSessions order' sr)) by (by rewrite Hl).
  assert (Ha : GetActiveCount order sr = GetActiveCount order' sr).
  { unfold GetActiveCount. apply foldl_perm; [|done]. intros a x y. repeat case_bool_decide; lia. }
  unfold QueryAll. rewrite Ha, (Permutation_length Hl). clear Ha Hl.
  rewrite (foldl_perm (fun d s => wraps 64 (d + query_duration now s)) ltac:(intros; cbv beta; rewrite !wraps_add_l by lia; f_equal; lia) _ _ Hs).
  by rewrite (foldl_perm (fun t s => session_legs sr s t) ltac:(intros; by apply session_legs_swap) _ _ Hs).
Qed.

(** ** Media and DTMF *)

Lemma GetFlag_set p name v sr s : deref sr p = Some s -> GetFlag p name (SetFlag p name v sr) = v.
Proof. intros H. unfold GetFlag, SetFlag, modify, deref in *. cbn. rewrite lookup_alter_eq, H. cbn. by rewrite lookup_insert_eq. Qed.

Lemma GetMetadata_set p k v sr s : deref sr p = Some s -> GetMetadata p k (SetMetadata p k v sr) = v.
Proof. intros H. unfold GetMetadata, SetMetadata, modify, deref in *. cbn. rewrite lookup_alter_eq, H. cbn. by rewrite lookup_insert_eq. Qed.

Lemma GetFlag_set_ne p name name' v sr : name' <> name -> GetFlag p name (SetFlag p name' v sr) = GetFlag p name sr.
Proof.
  intros Hne. unfold GetFlag, SetFlag, modify, deref. cbn. rewrite lookup_alter_eq. destruct (mem sr !! p); [|done]. cbn. by rewrite lookup_insert_ne.
Qed.

Lemma GetFlag_metadata p name k v sr : GetFlag p name (SetMetadata p k v sr) = GetFlag p name sr.
Proof. unfold GetFlag, SetMetadata, modify, deref. cbn. rewrite lookup_alter_eq. by destruct (mem sr !! p). Qed.

Lemma deref_SetFlag p name v sr s : deref sr p = Some s -> exists s', deref (SetFlag p name v sr) p = Some s' /\ ID s' = ID s.
Proof. intros H. unfold SetFlag, modify, deref in *. cbn. rewrite lookup_alter_eq, H. cbn. by eexists. Qed.
Lemma deref_SetMetadata p k v sr s : deref sr p = Some s -> exists s', deref (SetMetadata p k v sr) p = Some s' /\ ID s' = ID s.
Proof. intros H. unfold SetMetadata, modify, deref in *. cbn. rewrite lookup_alter_eq, H. cbn. by eexists. Qed.

(** A media command whose tags match no session of the call acts on another
    one: the first session of the call is blocked, although neither of its tags
    is the one of the request. *)
Theorem mismatched_tags_act req h p ps s : req_CallID req <> [] ->
  GetSessionByTags (str (req_CallID req)) (str (req_FromTag req)) (str (req_ToTag req)) (mc_registry h) = None ->
  GetSessionByCallID (str (req_CallID req)) (mc_registry h) = p :: ps -> deref (mc_registry h) p = Some s ->
  let '(resp, h') := HandleBlockMedia req h in
  resp = ok /\ GetFlag p "media_blocked" (mc_registry h') = true /\ ShouldProcessMedia (GetMediaFlags p (mc_registry h')) = false.
Proof.
  intros Hc Ht Hp Hs. unfold HandleBlockMedia, control, on_call, find_call. rewrite bool_decide_false by done. rewrite Ht, Hp. cbn [head]. cbn [mc_registry].
  pose proof (GetFlag_set p "media_blocked" true _ s Hs) as Hf. split; [done|]. split; [done|]. unfold ShouldProcessMedia, GetMediaFlags. cbn. by rewrite Hf.
Qed.

Lemma rune_text_surrogate n : 0xD800 <= n <= 0xDFFF -> rune_text n = rune_text 0xD800.
Proof.
  intros Hn. unfold rune_text. rewrite !wraps_id by (unfold is_s; lia). do 2 f_equal. unfold WriteRune.
  repeat match goal with |- context [if ?b then _ else _] => destruct b eqn:?; bool_prop; try lia end; try done.
  all: unfold between in *; bool_prop; try lia; done.
Qed.

(** The port of a forwarding is stored as one Unicode character, not as
    digits, and most of the port range from 55296 on cannot be told apart: two
    requests to start forwarding to different ports there leave the same text. *)
Theorem forward_port_lost req1 req2 h p s : deref (mc_registry h) p = Some s ->
  find_call req1 (mc_registry h) = Some p -> find_call req2 (mc_registry h) = Some p ->
  req_CallID req1 <> [] -> req_CallID req2 <> [] -> req_ForwardAddress req1 <> [] -> req_ForwardAddress req2 <> [] ->
  0xD800 <= req_ForwardPort req1 <= 0xDFFF -> 0xD800 <= req_ForwardPort req2 <= 0xDFFF ->
  GetMetadata p "forward_port" (mc_registry (HandleStartForwarding req1 h).2) = GetMetadata p "forward_port" (mc_registry (HandleStartForwarding req2 h).2).
Proof.
  intros Hs H1 H2 C1 C2 A1 A2 P1 P2.
  assert (Hg : forall req, find_call req (mc_registry h) = Some p -> req_CallID req <> [] -> req_ForwardAddress req <> [] -> 0xD800 <= req_ForwardPort req <= 0xDFFF ->
    GetMetadata p "forward_port" (mc_registry (HandleStartForwarding req h).2) = rune_text 0xD800).
  { intros req Hf Hc Ha Hp. unfold HandleStartForwarding. rewrite !bool_decide_false by done. rewrite (proj2 (Z.leb_gt _ _)) by lia. cbn [orb]. rewrite Hf. cbn [snd mc_registry].
    destruct (deref_SetFlag p "forwarding" true _ _ Hs) as (s1 & E1 & _). destruct (deref_SetMetadata p "forward_address" (str (req_ForwardAddress req)) _ _ E1) as (s2 & E2 & _).
    rewrite (GetMetadata_set _ _ _ _ _ E2). by apply rune_text_surrogate. }
  by rewrite !Hg.
Qed.

(** A DTMF event comes out of its RFC 4733 payload as it went in, and every
    digit that can be played has an event number that leads back to it. *)
Theorem dtmf_roundtrip event e volume duration digit : 0 <= event < 16 -> 0 <= volume < 64 -> is_u 16 duration ->
  ParseDTMFPayload (BuildDTMFPayload event e volume duration) = (event, e, volume, duration) /\
  (digit ∈ validDigits -> DTMFEventToDigit (DTMFDigitToEvent digit) = digit /\ 0 <= DTMFDigitToEvent digit < 16).
Proof.
  intros He Hv Hd. split.
  - unfold BuildDTMFPayload, ParseDTMFPayload.
    assert (Hev : Z.land (u8 (Z.land event 15)) 15 = event).
    { change 15 with (Z.ones 4). rewrite !Z.land_ones by lia. by rewrite (Z.mod_small event), (wrapu_id 8 event), Z.mod_small by (unfold is_u; lia). }
    assert (Hvol : Z.land (u8 (Z.land volume 63)) 63 = volume /\ Z.land (u8 (Z.land volume 63)) 128 = 0 /\
      Z.land (Z.lor 128 (u8 (Z.land volume 63))) 63 = volume /\ Z.land (Z.lor 128 (u8 (Z.land volume 63))) 128 = 128).
    { pose proof (all_bytes (fun v => negb (v <? 64) || ((Z.land (u8 (Z.land v 63)) 63 =? v) && (Z.land (u8 (Z.land v 63)) 128 =? 0) &&
        (Z.land (Z.lor 128 (u8 (Z.land v 63))) 63 =? v) && (Z.land (Z.lor 128 (u8 (Z.land v 63))) 128 =? 128))) ltac:(vm_compute; reflexivity) volume ltac:(unfold is_u; lia)) as H.
      cbv beta in H. bool_prop; [lia|]. done. }
    assert (Hdur : Z.lor (Z.shiftl (u8 (Z.land (Z.shiftr duration 8) 255)) 8) (u8 (Z.land duration 255)) = duration).
    { change 255 with (Z.ones 8). rewrite !Z.land_ones by lia. unfold wrapu. rewrite !Z.mod_mod by lia. by apply word16_bytes. }
    rewrite Hev, Hdur. destruct Hvol as (H1 & H2 & H3 & H4). by destruct e; rewrite ?H1, ?H2, ?H3, ?H4.
  - intros Hin%list_elem_of_In.
    assert (H : forallb (fun d => String.eqb (DTMFEventToDigit (DTMFDigitToEvent d)) d && (0 <=? DTMFDigitToEvent d) && (DTMFDigitToEvent d <? 16)) validDigits = true)
      by (vm_compute; reflexivity).
    rewrite forallb_forall in H. specialize (H digit Hin). bool_prop. by split; [apply String.eqb_eq|].
Qed.

(** A play command that fails still ends what was playing: the player drops
    the session's playback before it opens the file, and the session keeps
    saying that media is playing. *)
Theorem failed_play_stops fs errtext now nanos spare req h p s : req_CallID req <> [] -> find_call req (mc_registry h) = Some p -> deref (mc_registry h) p = Some s ->
  DictGetString (req_RawParams req) (bs "file") <> [] -> fs (str (DictGetString (req_RawParams req) (bs "file"))) = None ->
  GetFlag p "playing_media" (mc_registry h) = true ->
  let '(resp, h') := HandlePlayMedia fs errtext now nanos spare req h in
  resp_Result resp = ResultError /\ IsPlaying (ID s) (mc_player h') = false /\ GetFlag p "playing_media" (mc_registry h') = true.
Proof.
  intros Hc Hp Hs Hf Hfs Hflag. unfold HandlePlayMedia. rewrite !bool_decide_false by done. rewrite Hp. unfold StartPlayback, loadAudioFile. cbn [c_FilePath]. rewrite Hfs. cbn [mc_player mc_registry].
  split; [done|]. split; [|done]. unfold IsPlaying. cbn [mp_sessions]. unfold session_id. rewrite Hs. by rewrite lookup_delete_eq.
Qed.

(** Flags and metadata do not matter for finding a session. *)
Lemma find_call_modify req p f sr : (forall s, FromTag (f s) = FromTag s /\ ToTag (f s) = ToTag s) -> find_call req (modify p f sr) = find_call req sr.
Proof.
  intros Hf. unfold find_call, GetSessionByTags. change (GetSessionByCallID ?c (modify p f sr)) with (GetSessionByCallID c sr).
  assert (E : forall l : list loc, filter (fun q => tags_match (str (req_FromTag req)) (str (req_ToTag req)) (modify p f sr) q = true) l =
    filter (fun q => tags_match (str (req_FromTag req)) (str (req_ToTag req)) sr q = true) l); [|by rewrite E].
  intros l. apply list_filter_iff. intros q. unfold tags_match, deref, modify. cbn. destruct (decide (p = q)) as [->|Hne].
  - rewrite lookup_alter_eq. destruct (mem sr !! q) as [s|]; [|done]. cbn. destruct (Hf s) as [-> ->]. done.
  - by rewrite lookup_alter_ne.
Qed.

Lemma find_call_SetFlag req p name v sr : find_call req (SetFlag p name v sr) = find_call req sr.
Proof. by apply find_call_modify. Qed.
Lemma find_call_SetMetadata req p k v sr : find_call req (SetMetadata p k v sr) = find_call req sr.
Proof. by apply find_call_modify. Qed.

(** Stopping a paused playback leaves its pause behind: after pause, stop and
    a new play the player plays while the session is flagged as paused. *)
Theorem stop_keeps_paused fs errtext now nanos spare req h p s a : req_CallID req <> [] -> find_call req (mc_registry h) = Some p -> deref (mc_registry h) p = Some s ->
  is_Some (mp_sessions (mc_player h) !! ID s) -> DictGetString (req_RawParams req) (bs "file") <> [] ->
  loadAudioFile fs (str (DictGetString (req_RawParams req) (bs "file"))) = Ok a ->
  let h' := (HandlePlayMedia fs errtext now nanos spare req (HandleStopMedia req (HandlePauseMedia req h).2).2).2 in
  IsPlaying (ID s) (mc_player h') = true /\ GetFlag p "media_paused" (mc_registry h') = true.
Proof.
  intros Hc Hp Hs [ps Hps] Hf Ha. cbv zeta. unfold HandlePauseMedia, set_paused. rewrite bool_decide_false by done. rewrite Hp.
  assert (Hid : session_id (mc_registry h) p = ID s) by (unfold session_id; by rewrite Hs). rewrite Hid. unfold PausePlayback, on_session. rewrite Hps. cbn [snd].
  unfold HandleStopMedia. rewrite bool_decide_false by done. cbn [mc_registry mc_player]. rewrite find_call_SetFlag, Hp. cbn [snd].
  destruct (deref_SetFlag p "media_paused" true _ _ Hs) as (s1 & E1 & I1). destruct (deref_SetFlag p "playing_media" false _ _ E1) as (s2 & E2 & I2).
  destruct (deref_SetMetadata p "play_file" "" _ _ E2) as (s3 & E3 & I3).
  unfold HandlePlayMedia. rewrite !bool_decide_false by done. cbn [mc_registry mc_player]. rewrite find_call_SetMetadata, !find_call_SetFlag, Hp.
  assert (Hid3 : session_id (SetMetadata p "play_file" "" (SetFlag p "playing_media" false (SetFlag p "media_paused" true (mc_registry h)))) p = ID s)
    by (unfold session_id; rewrite E3; congruence). rewrite Hid3. unfold StartPlayback. cbn [c_FilePath]. rewrite Ha. cbn [snd mc_player mc_registry]. split.
  - unfold IsPlaying. cbn [mp_sessions]. by rewrite lookup_insert_eq.
  - rewrite !GetFlag_metadata, GetFlag_set_ne by done. rewrite GetFlag_metadata, GetFlag_set_ne by done. by rewrite (GetFlag_set p "media_paused" true _ s Hs).
Qed.

(** ** Witnesses *)

Definition test_request (from to : string) (flags : list string) (raw : BencodeDict) (port : Z) : NGRequest :=
  mkNGRequest (bs "c") (bs "x") (bs "c1") (bs from) (bs to) [] [] (map bs flags) []
    [] None 0 [] [] [] [] [] [] false None [] [] 0 [] [] [] [] [] 0 (bs "10.0.0.9") port raw.
Definition sample_delete : DeleteHandler := NewDeleteHandler sample7.
Definition sample_media : MediaControlHandler := NewMediaControlHandler (SetFlag 1 "playing_media" true sample7).
Definition file_params : BencodeDict := [(bs "file", VString (bs "f.raw"))].

Lemma sample_reg_ok : reg_ok sample7.
Proof. apply (reachable_ok 60), sample_reachable. Qed.


Example chosen_ex : map (session_id sample7) (chosen (test_request "f2" "" [] [] 0) sample7) = ["b"%string].
Proof. vm_compute. reflexivity. Qed.

Lemma unknown_label_deletes_call_witness :
  sessions (d_registry (delete_Handle 9 (test_request "" "" ["from-label=nosuch"] [] 0) sample_delete).2) !! "a"%string = None.
Proof.
  apply (unknown_label_deletes_call 9 (test_request "" "" ["from-label=nosuch"] [] 0) sample_delete sample_reg_ok) with (p := 1%positive) (s := sample_session 1);
    [discriminate|reflexivity|vm_compute; discriminate|vm_compute; discriminate| |apply sample_live; by left|vm_compute; reflexivity].
  intros p Hp. assert (E : GetSessionByCallID (str (req_CallID (test_request "" "" ["from-label=nosuch"] [] 0))) (d_registry sample_delete) = [1; 2]%positive) by (vm_compute; reflexivity).
  rewrite E in Hp. apply elem_of_cons in Hp as [->|[->|[]%not_elem_of_nil]%elem_of_cons]; vm_compute; reflexivity.
Defined.

Lemma delayed_delete_exact_witness :
  let h' := (delete_Handle 9 (test_request "f2" "" ["delete-delay=5"] [] 0) sample_delete).2 in
  d_registry h' = sample7 /\ pendingDeletes h' !! "b"%string = Some (9 + 5 * Second) /\
  (10 < 9 + 5 * Second -> fire 10 "b" h' = h') /\
  (9 + 5 * Second <= 10 -> sessions (d_registry (fire 10 "b" h')) = delete "b"%string (sessions sample7) /\ pendingDeletes (fire 10 "b" h') !! "b"%string = None) /\
  (CancelDelayedDelete "b" h').1 = true /\ fire 10 "b" (CancelDelayedDelete "b" h').2 = (CancelDelayedDelete "b" h').2.
Proof.
  apply (delayed_delete_exact 9 (test_request "f2" "" ["delete-delay=5"] [] 0) sample_delete "b" 10 sample_reg_ok);
    [discriminate|vm_compute; reflexivity|apply (bool_decide_unpack _); vm_compute; exact I|apply (bool_decide_unpack _); vm_compute; exact I].
Defined.

Lemma query_never_answered_witness :
  resp_Result (query_Handle 9 [] (test_request "f2" "" [] [] 0) sample7) = ResultOK /\
  BuildResponse (fun _ _ => []) (bs "c") (query_Handle 9 [] (test_request "f2" "" [] [] 0) sample7) = Err ErrInvalidType.
Proof.
  apply (query_never_answered (fun _ _ => []) 9 [] (test_request "f2" "" [] [] 0) sample7 2 (sample_session 2) (bs "c"));
    [discriminate|vm_compute; reflexivity|vm_compute; reflexivity|].
  split; [apply (bool_decide_unpack _); vm_compute; exact I|]. split; [apply (bool_decide_unpack _); vm_compute; exact I|].
  split; [repeat constructor; apply (bool_decide_unpack _); vm_compute; exact I|]. split; [apply (bool_decide_unpack _); vm_compute; exact I|].
  repeat constructor.
Defined.

Lemma QueryAll_order_witness : QueryAll 9 ["a"; "b"]%string sample7 = QueryAll 9 ["b"; "a"]%string sample7.
Proof. apply QueryAll_order. apply Permutation_swap. Defined.

Lemma mismatched_tags_act_witness :
  let '(resp, h') := HandleBlockMedia (test_request "nobody" "" [] [] 0) sample_media in
  resp = ok /\ GetFlag 1 "media_blocked" (mc_registry h') = true /\ ShouldProcessMedia (GetMediaFlags 1 (mc_registry h')) = false.
Proof.
  eapply (mismatched_tags_act (test_request "nobody" "" [] [] 0) sample_media 1 [2%positive]); [discriminate|vm_compute; reflexivity|vm_compute; reflexivity|vm_compute; reflexivity].
Defined.

Lemma forward_port_lost_witness :
  GetMetadata 1 "forward_port" (mc_registry (HandleStartForwarding (test_request "f1" "" [] [] 56000) sample_media).2) =
  GetMetadata 1 "forward_port" (mc_registry (HandleStartForwarding (test_request "f1" "" [] [] 57000) sample_media).2).
Proof.
  eapply (forward_port_lost (test_request "f1" "" [] [] 56000) (test_request "f1" "" [] [] 57000) sample_media 1);
    [vm_compute; reflexivity|vm_compute; reflexivity|vm_compute; reflexivity|discriminate|discriminate|discriminate|discriminate|cbn; lia|cbn; lia].
Defined.

Lemma dtmf_roundtrip_witness :
  ParseDTMFPayload (BuildDTMFPayload 11 true 10 1600) = (11, true, 10, 1600) /\
  (("#"%string ∈ validDigits) -> DTMFEventToDigit (DTMFDigitToEvent "#") = "#"%string /\ 0 <= DTMFDigitToEvent "#" < 16).
Proof. apply (dtmf_roundtrip 11 true 10 1600 "#"); [lia|lia|unfold is_u; lia]. Defined.

Lemma failed_play_stops_witness :
  let '(resp, h') := HandlePlayMedia (fun _ => None) (fun _ => []) 9 9 [] (test_request "f1" "" [] file_params 0) sample_media in
  resp_Result resp = ResultError /\ IsPlaying "a" (mc_player h') = false /\ GetFlag 1 "playing_media" (mc_registry h') = true.
Proof.
  eapply (failed_play_stops (fun _ => None) (fun _ => []) 9 9 [] (test_request "f1" "" [] file_params 0) sample_media 1 (sample_session 1 <| Flags := {["playing_media"%string := true]} |>));
    [discriminate|vm_compute; reflexivity|vm_compute; reflexivity|vm_compute; discriminate|reflexivity|vm_compute; reflexivity].
Defined.

Definition playing_media_handler : MediaControlHandler :=
  (HandlePlayMedia (fun _ => Some [1; 2]) (fun _ => []) 9 9 [] (test_request "f1" "" [] file_params 0) (NewMediaControlHandler sample7)).2.
Definition playing_session : MediaSession := default (sample_session 1) (deref (mc_registry playing_media_handler) 1).

Lemma stop_keeps_paused_witness :
  let h' := (HandlePlayMedia (fun _ => Some [1; 2]) (fun _ => []) 9 9 [] (test_request "f1" "" [] file_params 0)
    (HandleStopMedia (test_request "f1" "" [] file_params 0) (HandlePauseMedia (test_request "f1" "" [] file_params 0) playing_media_handler).2).2).2 in
  IsPlaying (ID playing_session) (mc_player h') = true /\ GetFlag 1 "media_paused" (mc_registry h') = true.
Proof.
  apply (stop_keeps_paused (fun _ => Some [1; 2]) (fun _ => []) 9 9 [] (test_request "f1" "" [] file_params 0) playing_media_handler 1 playing_session (mkAudio [1; 2] 8000 1 "PCMU"));
    [discriminate|vm_compute; reflexivity|vm_compute; reflexivity|vm_compute; by eexists|vm_compute; discriminate|reflexivity].
Defined.
