(* ===== verification/RtpWorker.v ===== *)
(** * RTP worker pool

    Models src/internal/worker_pool.go: the parser of RTP packets, the processing
    of a packet by a worker (transcoding, forwarding, feedback) and the queue of
    jobs the workers share. Handlers of forwarded packets are the class
    [RTPPacketHandler], the interface of the source; the Prometheus registry, the
    Opus conversions and the names of media types are parameters. Bytes are [Z]
    values below 256, and [now] is the reading of the clock. Packet capture and
    log lines are left out. *)

From Stdlib Require Import ZArith Lia ZifyNat Permutation Ascii String.
From stdpp Require Import base numbers list gmap strings relations.
From S2P Require Import Prelude GoFloat Bytes Codec.

Local Open Scope Z_scope.
Local Open Scope go_scope.
#[local] Arguments wrapu : simpl never.

(** ** Parsing *)

Record RTPPacket := mkRTPPacket {
  Version : Z; Padding : bool; Extension : bool; CSRCCount : Z; Marker : bool; PayloadType : Z;
  SequenceNumber : Z; Timestamp : Z; SSRC : Z; CSRC : list Z; ExtensionData : list Z; Payload : list Z; Received : Z }.

Inductive rtp_error := ShortHeader | ShortCSRC | ShortExtensionHeader | ShortExtensionData.

(** [data[a:b]] *)
Definition slice_at {E} (data : list Z) (a b : nat) : outcome E (list Z) :=
  if (a <=? b)%nat && (b <=? length data)%nat then Ok (take (b - a) (drop a data)) else Panic.

(** The offset of a contributing source is an [uint8]. *)
Fixpoint read_csrcs (data : list Z) (i : Z) (n : nat) : outcome rtp_error (list Z) :=
  match n with
  | O => Ok []
  | S n =>
      let! c := Uint32_at data (Z.to_nat (u8 (12 + 4 * i))) in
      let! cs := read_csrcs data (i + 1) n in
      Ok (c :: cs)
  end.

(** The extension and the size of the header with it. *)
Definition read_extension (data : list Z) (headerSize : nat) : outcome rtp_error (list Z * nat) :=
  if (length data <? headerSize + 4)%nat then Err ShortExtensionHeader
  else
    let! words := Uint16_at data (headerSize + 2) in
    let extLength := (Z.to_nat words * 4)%nat in
    if (length data <? headerSize + 4 + extLength)%nat then Err ShortExtensionData
    else
      let! ext := slice_at data (headerSize + 4) (headerSize + 4 + extLength) in
      Ok (ext, (headerSize + (4 + extLength))%nat).

(** Where the payload ends; the last byte of a padded packet counts the padding. *)
Definition payload_end (data : list Z) : outcome rtp_error nat :=
  let! last := byte_at data (length data - 1) in
  let paddingSize := Z.to_nat last in
  Ok (if (0 <? paddingSize)%nat && (paddingSize <=? length data)%nat then length data - paddingSize else length data)%nat.

Definition parse_packet (now : Z) (data : list Z) : outcome rtp_error RTPPacket :=
  if (length data <? 12)%nat then Err ShortHeader
  else
    let! headerByte := byte_at data 0 in
    let version := Z.land (Z.shiftr headerByte 6) 0x03 in
    let hasPadding := negb (Z.land headerByte 0x20 =? 0) in
    let hasExtension := negb (Z.land headerByte 0x10 =? 0) in
    let csrcCount := Z.land headerByte 0x0F in
    let! markerAndPT := byte_at data 1 in
    let marker := negb (Z.land markerAndPT 0x80 =? 0) in
    let payloadType := Z.land markerAndPT 0x7F in
    let! sequenceNumber := Uint16_at data 2 in
    let! timestamp := Uint32_at data 4 in
    let! ssrc := Uint32_at data 8 in
    let headerSize := (12 + 4 * Z.to_nat csrcCount)%nat in
    if (length data <? headerSize)%nat then Err ShortCSRC
    else
      let! csrc := read_csrcs data 0 (Z.to_nat csrcCount) in
      let! (ext, headerSize) := if hasExtension then read_extension data headerSize else Ok ([], headerSize) in
      let! payloadEnd := if hasPadding then payload_end data else Ok (length data) in
      let! payload := if (headerSize <? payloadEnd)%nat then slice_at data headerSize payloadEnd else Ok [] in
      Ok (mkRTPPacket version hasPadding hasExtension csrcCount marker payloadType sequenceNumber timestamp ssrc csrc ext payload now).

(** ** Processing *)

(** The interface of the handlers; [false] is an error. *)
Class RTPPacketHandler (H : Type) := Handle : H -> RTPPacket -> bool.

(** Registering a collector by its name: [None] is the panic of MustRegister. *)
Class Prometheus (R : Type) := MustRegister : string -> R -> option R.

Record RTCPFeedbackHandler := mkFeedback { fb_ssrc : Z; lastFeedback : Z; packetLoss : float64; jitter : float64; rtt : float64 }.

(** The package's variables. [forwarded] records the calls of handlers. *)
Record RtpWorker (H R : Type) := mkWorker {
  packetsProcessed : Z; packetErrors : Z; bytesProcessed : Z; transcodingErrors : Z; forwardingErrors : Z;
  rtpHandlers : gmap Z H; rtcpFeedbackHandlers : gmap Z RTCPFeedbackHandler; registry : R; forwarded : list (H * RTPPacket) }.
Arguments mkWorker {H R}.
Arguments packetsProcessed {H R}.
Arguments packetErrors {H R}.
Arguments bytesProcessed {H R}.
Arguments transcodingErrors {H R}.
Arguments forwardingErrors {H R}.
Arguments rtpHandlers {H R}.
Arguments rtcpFeedbackHandlers {H R}.
Arguments registry {H R}.
Arguments forwarded {H R}.

#[export] Instance set_packetsProcessed {H R : Type} : Setter (@packetsProcessed H R) := fun f r =>
  mkWorker (f (packetsProcessed r)) (packetErrors r) (bytesProcessed r) (transcodingErrors r) (forwardingErrors r) (rtpHandlers r) (rtcpFeedbackHandlers r) (registry r) (forwarded r).
#[export] Instance set_packetErrors {H R : Type} : Setter (@packetErrors H R) := fun f r =>
  mkWorker (packetsProcessed r) (f (packetErrors r)) (bytesProcessed r) (transcodingErrors r) (forwardingErrors r) (rtpHandlers r) (rtcpFeedbackHandlers r) (registry r) (forwarded r).
#[export] Instance set_bytesProcessed {H R : Type} : Setter (@bytesProcessed H R) := fun f r =>
  mkWorker (packetsProcessed r) (packetErrors r) (f (bytesProcessed r)) (transcodingErrors r) (forwardingErrors r) (rtpHandlers r) (rtcpFeedbackHandlers r) (registry r) (forwarded r).
#[export] Instance set_transcodingErrors {H R : Type} : Setter (@transcodingErrors H R) := fun f r =>
  mkWorker (packetsProcessed r) (packetErrors r) (bytesProcessed r) (f (transcodingErrors r)) (forwardingErrors r) (rtpHandlers r) (rtcpFeedbackHandlers r) (registry r) (forwarded r).
#[export] Instance set_forwardingErrors {H R : Type} : Setter (@forwardingErrors H R) := fun f r =>
  mkWorker (packetsProcessed r) (packetErrors r) (bytesProcessed r) (transcodingErrors r) (f (forwardingErrors r)) (rtpHandlers r) (rtcpFeedbackHandlers r) (registry r) (forwarded r).
#[export] Instance set_rtpHandlers {H R : Type} : Setter (@rtpHandlers H R) := fun f r =>
  mkWorker (packetsProcessed r) (packetErrors r) (bytesProcessed r) (transcodingErrors r) (forwardingErrors r) (f (rtpHandlers r)) (rtcpFeedbackHandlers r) (registry r) (forwarded r).
#[export] Instance set_rtcpFeedbackHandlers {H R : Type} : Setter (@rtcpFeedbackHandlers H R) := fun f r =>
  mkWorker (packetsProcessed r) (packetErrors r) (bytesProcessed r) (transcodingErrors r) (forwardingErrors r) (rtpHandlers r) (f (rtcpFeedbackHandlers r)) (registry r) (forwarded r).
#[export] Instance set_registry {H R : Type} : Setter (@registry H R) := fun f r =>
  mkWorker (packetsProcessed r) (packetErrors r) (bytesProcessed r) (transcodingErrors r) (forwardingErrors r) (rtpHandlers r) (rtcpFeedbackHandlers r) (f (registry r)) (forwarded r).
#[export] Instance set_forwarded {H R : Type} : Setter (@forwarded H R) := fun f r =>
  mkWorker (packetsProcessed r) (packetErrors r) (bytesProcessed r) (transcodingErrors r) (forwardingErrors r) (rtpHandlers r) (rtcpFeedbackHandlers r) (registry r) (f (forwarded r)).

Definition inc64 (n : Z) : Z := u64 (n + 1).

Definition RegisterRTPHandler {H R} (ssrc : Z) (handler : H) (w : RtpWorker H R) : RtpWorker H R := w <| rtpHandlers ::= <[ssrc := handler]> |>.
Definition UnregisterRTPHandler {H R} (ssrc : Z) (w : RtpWorker H R) : RtpWorker H R := w <| rtpHandlers ::= delete ssrc |>.

Definition ParseRTPPacket {H R} (now : Z) (data : list Z) (w : RtpWorker H R) : outcome rtp_error RTPPacket * RtpWorker H R :=
  match parse_packet now data with
  | Ok p => (Ok p, w <| packetsProcessed ::= inc64 |> <| bytesProcessed ::= fun n => u64 (n + Z.of_nat (length data)) |>)
  | Err e => (Err e, w <| packetErrors ::= inc64 |>)
  | r => (r, w)
  end.

Definition opus_type (pt : Z) : bool := bool_decide (pt ∈ [111; 96; 97; 98; 99; 100; 101; 102]).

Definition ShouldTranscodePacket (p : RTPPacket) : bool := (PayloadType p =? 0) || (PayloadType p =? 8) || opus_type (PayloadType p).

Definition with_payload (payload : list Z) (pt : Z) (p : RTPPacket) : RTPPacket :=
  mkRTPPacket (Version p) (Padding p) (Extension p) (CSRCCount p) (Marker p) pt (SequenceNumber p) (Timestamp p) (SSRC p) (CSRC p) (ExtensionData p) payload (Received p).

Section Processing.
Context {H R : Type} `{RTPPacketHandler H} `{Prometheus R}.
Variables MimeTypeOpus MimeTypePCMU MimeTypePCMA : string.
Variables OpusToPCMU PCMUToOpus : list Z -> outcome codec_error (list Z).
Implicit Types (w : RtpWorker H R) (p : RTPPacket).

Definition TranscodeAudio (payload : list Z) (inputCodec outputCodec : string) : outcome codec_error (list Z) :=
  if bool_decide (inputCodec = MimeTypeOpus) && bool_decide (outputCodec = MimeTypePCMU) then OpusToPCMU payload
  else if bool_decide (inputCodec = MimeTypePCMU) && bool_decide (outputCodec = MimeTypeOpus) then PCMUToOpus payload
  else if bool_decide (inputCodec = MimeTypePCMA) && bool_decide (outputCodec = MimeTypePCMU) then PCMAToPCMU payload
  else if bool_decide (inputCodec = MimeTypePCMU) && bool_decide (outputCodec = MimeTypePCMA) then PCMUToPCMA payload
  else Ok payload.

Definition codecs_of (pt : Z) : option (string * string) :=
  if pt =? 0 then Some ("PCMU", "opus")%string
  else if pt =? 8 then Some ("PCMA", "opus")%string
  else if opus_type pt then Some ("opus", "PCMU")%string
  else None.

(** A packet that cannot be transcoded is processed as it was; an error of the
    conversion is counted. *)
Definition TranscodeRTPPacket p w : outcome unit (RTPPacket * RtpWorker H R) :=
  match codecs_of (PayloadType p) with
  | None => Ok (p, w)
  | Some (srcCodec, dstCodec) =>
      match TranscodeAudio (Payload p) srcCodec dstCodec with
      | Ok payload => Ok (with_payload payload (if bool_decide (srcCodec = "PCMU"%string) || bool_decide (srcCodec = "PCMA"%string) then 111 else 0) p, w)
      | Err _ => Ok (p, w <| transcodingErrors ::= inc64 |>)
      | _ => Panic
      end
  end.

Definition ShouldForwardPacket p w : bool := bool_decide (is_Some (rtpHandlers w !! SSRC p)).

Definition ForwardRTPPacket p w : RtpWorker H R :=
  match rtpHandlers w !! SSRC p with
  | None => w
  | Some handler =>
      let w := w <| forwarded ::= fun l => l ++ [(handler, p)] |> in
      if Handle handler p then w else w <| forwardingErrors ::= inc64 |>
  end.

(** Every handler registers a collector of the same name. *)
Definition NewRTCPFeedbackHandler (now ssrc : Z) (r : R) : option (RTCPFeedbackHandler * R) :=
  r ← MustRegister "karl_rtcp_quality_metrics"%string r; Some (mkFeedback ssrc now (of_int 0) (of_int 0) (of_int 0), r).

Definition GetRTCPFeedbackHandler (now ssrc : Z) w : option (RTCPFeedbackHandler * RtpWorker H R) :=
  match rtcpFeedbackHandlers w !! ssrc with
  | Some h => Some (h, w)
  | None =>
      '(h, r) ← NewRTCPFeedbackHandler now ssrc (registry w);
      Some (h, w <| registry := r |> <| rtcpFeedbackHandlers ::= <[ssrc := h]> |>)
  end.

Definition HandleFeedback (now : Z) (loss jit rt : float64) (h : RTCPFeedbackHandler) : RTCPFeedbackHandler := mkFeedback (fb_ssrc h) now loss jit rt.

Definition HandleRTCPFeedback (now : Z) p w : option (RtpWorker H R) :=
  '(h, w) ← GetRTCPFeedbackHandler now (SSRC p) w;
  Some (w <| rtcpFeedbackHandlers ::= <[SSRC p := HandleFeedback now (of_int 0) (of_int 0) (of_int 0) h]> |>).

(** [None] is a panic, which ends the program. *)
Definition processRTPPacket (now : Z) (packet : list Z) w : option (RtpWorker H R) :=
  match ParseRTPPacket now packet w with
  | (Ok p, w) =>
      match (if ShouldTranscodePacket p then TranscodeRTPPacket p w else Ok (p, w)) with
      | Ok (p, w) => HandleRTCPFeedback now p (if ShouldForwardPacket p w then ForwardRTPPacket p w else w)
      | _ => None
      end
  | (Err _, w) => Some w
  | _ => None
  end.

Fixpoint process_all (l : list (Z * list Z)) w : option (RtpWorker H R) :=
  match l with
  | [] => Some w
  | (now, packet) :: l => w ← processRTPPacket now packet w; process_all l w
  end.

End Processing.

(** ** The queue *)

(** Jobs in the channel, in the hands of workers and done; [live] is the number
    of workers that have not ended. *)
Record pool := mkPool { rtpJobs : list (list Z); job_closed : bool; live : nat; in_hand : list (list Z); done_jobs : list (list Z) }.

Definition InitWorkerPool (workerPoolSize : nat) : pool := mkPool [] false workerPoolSize [] [].

(** [None] is the panic of a send on a closed channel; a full channel drops. *)
Definition AddRTPJob (packet : list Z) (q : pool) : option (bool * pool) :=
  if job_closed q then None
  else if (length (rtpJobs q) <? 1000)%nat
  then Some (true, mkPool (rtpJobs q ++ [packet]) false (live q) (in_hand q) (done_jobs q))
  else Some (false, q).

(** Closing a closed channel panics. *)
Definition close_jobs (q : pool) : option pool := if job_closed q then None else Some (mkPool (rtpJobs q) true (live q) (in_hand q) (done_jobs q)).

(** A worker takes the next job, finishes one, or ends when the channel is closed
    and empty; [acc] are the accepted jobs. *)
Inductive pool_step : list (list Z) * pool -> list (list Z) * pool -> Prop :=
| step_add acc q packet ok q' : AddRTPJob packet q = Some (ok, q') -> pool_step (acc, q) (if ok then acc ++ [packet] else acc, q')
| step_take acc q job rest : rtpJobs q = job :: rest -> (length (in_hand q) < live q)%nat ->
    pool_step (acc, q) (acc, mkPool rest (job_closed q) (live q) (in_hand q ++ [job]) (done_jobs q))
| step_done acc q l1 job l2 : in_hand q = l1 ++ job :: l2 ->
    pool_step (acc, q) (acc, mkPool (rtpJobs q) (job_closed q) (live q) (l1 ++ l2) (done_jobs q ++ [job]))
| step_close acc q q' : close_jobs q = Some q' -> pool_step (acc, q) (acc, q')
| step_end acc q n : rtpJobs q = [] -> job_closed q = true -> live q = S n -> (length (in_hand q) <= n)%nat ->
    pool_step (acc, q) (acc, mkPool [] true n (in_hand q) (done_jobs q)).

(** ** Guarantees: parsing *)

Lemma slice_at_ok {E} data a b : (a <= b <= length data)%nat ->
  slice_at (E:=E) data a b = Ok (take (b - a) (drop a data)) /\ length (take (b - a) (drop a data)) = (b - a)%nat.
Proof.
  intros Hab. unfold slice_at. rewrite !(proj2 (Nat.leb_le _ _)) by lia. split; [done|].
  rewrite length_take, length_drop. lia.
Qed.

Lemma csrc_offset i : 0 <= i < 15 -> u8 (12 + 4 * i) = 12 + 4 * i.
Proof. intros Hi. apply wrapu_id. unfold is_u. lia. Qed.

Lemma read_csrcs_ok data n : forall i, 0 <= i -> i + Z.of_nat n <= 15 -> 12 + 4 * (i + Z.of_nat n) <= Z.of_nat (length data) ->
  exists cs, read_csrcs data i n = Ok cs /\ length cs = n.
Proof.
  induction n as [|n IH]; intros i Hi Hn Hl; [by exists []|]. cbn [read_csrcs]. rewrite csrc_offset by lia.
  destruct (@Uint32_at_lt rtp_error data (Z.to_nat (12 + 4 * i))) as [c ->]; [lia|]. cbn [obind].
  destruct (IH (i + 1)) as (cs & -> & E); [lia..|]. exists (c :: cs). cbn. by rewrite E.
Qed.

Lemma low_bits b k : 0 <= k -> 0 <= b -> 0 <= Z.land b (Z.ones k) < 2 ^ k.
Proof. intros Hk Hb. rewrite Z.land_ones by done. apply Z.mod_pos_bound. lia. Qed.

(** Reading the payload, whatever the header was. *)
Lemma payload_end_ok data : (0 < length data)%nat -> exists e, payload_end data = Ok e /\ (e <= length data)%nat.
Proof.
  intros Hd. unfold payload_end. destruct (@byte_at_lt rtp_error data (length data - 1)) as [b ->]; [lia|]. cbn [obind].
  eexists. split; [reflexivity|]. destruct (_ && _); lia.
Qed.

Lemma read_extension_ok data hs :
  match read_extension data hs with
  | Ok (ext, hs') => hs' = (hs + 4 + length ext)%nat /\ (hs' <= length data)%nat
  | Err _ => True
  | _ => False
  end.
Proof.
  unfold read_extension. destruct (Nat.ltb_spec (length data) (hs + 4)); [done|].
  destruct (@Uint16_at_lt rtp_error data (hs + 2)) as [x ->]; [lia|]. cbn [obind].
  destruct (Nat.ltb_spec (length data) (hs + 4 + Z.to_nat x * 4)); [done|].
  destruct (@slice_at_ok rtp_error data (hs + 4) (hs + 4 + Z.to_nat x * 4)) as [-> E]; [lia|]. cbn [obind]. rewrite E. lia.
Qed.

(** No packet from the network can stop a worker in the parser. Whatever the
    bytes are, parsing ends with a packet or an error, and the parts of a parsed
    packet (contributing sources, extension, payload) lie in the packet side by
    side after its fixed header. *)
Theorem parse_packet_total now data : Forall (is_u 8) data ->
  match parse_packet now data with
  | Ok p =>
      CSRCCount p = Z.of_nat (length (CSRC p)) /\ Received p = now /\
      (12 + 4 * length (CSRC p) + (if Extension p then 4 + length (ExtensionData p) else 0) + length (Payload p) <= length data)%nat
  | Err _ => True
  | _ => False
  end.
Proof.
  intros Hd. unfold parse_packet. destruct (Nat.ltb_spec (length data) 12) as [|H12]; [done|].
  destruct (lookup_lt_is_Some_2 data 0 ltac:(lia)) as [b0 E0]. pose proof (Forall_lookup_1 _ _ _ _ Hd E0) as Hb0.
  unfold byte_at at 1. rewrite E0. cbn [obind]. destruct (@byte_at_lt rtp_error data 1) as [b1 ->]; [lia|]. cbn [obind].
  destruct (@Uint16_at_lt rtp_error data 2) as [sn ->]; [lia|]. destruct (@Uint32_at_lt rtp_error data 4) as [ts ->]; [lia|].
  destruct (@Uint32_at_lt rtp_error data 8) as [sc ->]; [lia|]. cbn [obind].
  pose proof (low_bits b0 4 ltac:(lia) ltac:(apply Hb0)) as Hc. change (Z.ones 4) with 15 in Hc. set (n := Z.land b0 15) in *. clearbody n.
  destruct (Nat.ltb_spec (length data) (12 + 4 * Z.to_nat n)) as [|Hl]; [done|].
  destruct (read_csrcs_ok data (Z.to_nat n) 0) as (cs & -> & Ecs); [lia..|]. cbn [obind].
  assert (Hext : forall x : bool, match (if x then read_extension data (12 + 4 * Z.to_nat n) else Ok ([], (12 + 4 * Z.to_nat n)%nat)) with
    | Ok (ext, hs) => hs = (12 + 4 * Z.to_nat n + (if x then 4 + length ext else 0))%nat /\ (hs <= length data)%nat
    | Err _ => True | _ => False end).
  { intros []; [|cbn; lia]. pose proof (read_extension_ok data (12 + 4 * Z.to_nat n)) as Hx. destruct (read_extension _ _) as [[ext hs]| | |]; [lia|done..]. }
  specialize (Hext (negb (Z.land b0 16 =? 0))). destruct (if negb _ then read_extension _ _ else _) as [[ext hs]| | |]; [|done..]. cbn [obind].
  assert (Hend : exists e, (if negb (Z.land b0 32 =? 0) then payload_end data else Ok (length data)) = Ok e /\ (e <= length data)%nat).
  { destruct (negb (Z.land b0 32 =? 0)); [apply payload_end_ok; lia|eauto]. }
  destruct Hend as (e & -> & He). cbn [obind]. destruct (Nat.ltb_spec hs e).
  - destruct (@slice_at_ok rtp_error data hs e) as [-> E]; [lia|]. cbn [obind CSRCCount CSRC Received Extension ExtensionData Payload]. rewrite E, Ecs. lia.
  - cbn [obind CSRCCount CSRC Received Extension ExtensionData Payload]. cbn [length]. rewrite Ecs. lia.
Qed.

(** *** The packet format, for the round trip *)

Definition first_byte (p : RTPPacket) : Z :=
  64 * Version p + (if Padding p then 32 else 0) + (if Extension p then 16 else 0) + CSRCCount p.
Definition second_byte (p : RTPPacket) : Z := (if Marker p then 128 else 0) + PayloadType p.

Definition extension_bytes (profile : Z) (p : RTPPacket) : list Z :=
  if Extension p then PutUint16 profile ++ PutUint16 (Z.of_nat (length (ExtensionData p) / 4)) ++ ExtensionData p else [].
Definition padding_bytes (padding : nat) : list Z := match padding with O => [] | S n => replicate n 0 ++ [Z.of_nat (S n)] end.

(** A packet as RFC 3550 puts it on the wire, with the profile's word of the
    extension and the number of padding bytes. *)
Definition rtp_bytes (profile : Z) (padding : nat) (p : RTPPacket) : list Z :=
  [first_byte p; second_byte p] ++ PutUint16 (SequenceNumber p) ++ PutUint32 (Timestamp p) ++ PutUint32 (SSRC p) ++
  (CSRC p ≫= PutUint32) ++ extension_bytes profile p ++ Payload p ++ padding_bytes padding.

Record rtp_ok (profile : Z) (padding : nat) (p : RTPPacket) : Prop := {
  ok_version : 0 <= Version p < 4;
  ok_padding : Padding p = (0 <? padding)%nat; ok_padding_size : (padding <= 255)%nat;
  ok_count : CSRCCount p = Z.of_nat (length (CSRC p)); ok_sources : (length (CSRC p) <= 15)%nat; ok_csrc : Forall (is_u 32) (CSRC p);
  ok_type : 0 <= PayloadType p < 128; ok_seq : is_u 16 (SequenceNumber p); ok_ts : is_u 32 (Timestamp p); ok_ssrc : is_u 32 (SSRC p);
  ok_ext : match Extension p with
           | true => exists k, length (ExtensionData p) = (4 * k)%nat /\ Z.of_nat k < 65536
           | false => ExtensionData p = []
           end }.

Lemma first_byte_fields p : 0 <= Version p < 4 -> 0 <= CSRCCount p <= 15 ->
  Z.land (Z.shiftr (first_byte p) 6) 3 = Version p /\ negb (Z.land (first_byte p) 32 =? 0) = Padding p /\
  negb (Z.land (first_byte p) 16 =? 0) = Extension p /\ Z.land (first_byte p) 15 = CSRCCount p.
Proof.
  unfold first_byte. intros Hv Hc.
  assert (Hv' : Version p = 0 \/ Version p = 1 \/ Version p = 2 \/ Version p = 3) by lia.
  assert (Hc' : exists n, (n < 16)%nat /\ CSRCCount p = Z.of_nat n) by (exists (Z.to_nat (CSRCCount p)); lia).
  destruct Hc' as (n & Hn & ->). clear Hc Hv. do 16 (destruct n as [|n]; [destruct (Padding p), (Extension p), Hv' as [->|[->|[->| ->]]]; done|]). lia.
Qed.

Lemma second_byte_fields p : 0 <= PayloadType p < 128 ->
  negb (Z.land (second_byte p) 128 =? 0) = Marker p /\ Z.land (second_byte p) 127 = PayloadType p.
Proof.
  intros Ht. unfold second_byte.
  assert (Hall : forallb (fun n => let pt := Z.of_nat n in
    (Z.land (128 + pt) 128 =? 128) && (Z.land (0 + pt) 128 =? 0) && (Z.land (128 + pt) 127 =? pt) && (Z.land (0 + pt) 127 =? pt)) (seq 0 128) = true) by (vm_compute; reflexivity).
  rewrite forallb_forall in Hall. specialize (Hall (Z.to_nat (PayloadType p)) ltac:(apply in_seq; lia)). cbv zeta in Hall. rewrite Z2Nat.id in Hall by lia.
  bool_prop. destruct (Marker p); (split; [|done]).
  - match goal with E : _ = 128 |- _ => by rewrite E end.
  - match goal with E : _ = 0 |- _ => by rewrite E end.
Qed.

Lemma read_csrcs_put cs : forall pre post i, Forall (is_u 32) cs -> Z.of_nat (length pre) = 12 + 4 * i -> 0 <= i -> i + Z.of_nat (length cs) <= 15 ->
  read_csrcs (pre ++ (cs ≫= PutUint32) ++ post) i (length cs) = Ok cs.
Proof.
  induction cs as [|c cs IH]; intros pre post i Hcs Hp Hi Hn; [done|]. apply Forall_cons in Hcs as [Hc Hcs].
  cbn [read_csrcs length]. change ((c :: cs) ≫= PutUint32) with (PutUint32 c ++ (cs ≫= PutUint32)). rewrite <- (app_assoc (PutUint32 c)).
  cbn [length] in Hn. rewrite csrc_offset by lia.
  rewrite (Uint32_at_put pre c) by (done || lia). cbn [obind]. rewrite (app_assoc pre (PutUint32 c)), (IH (pre ++ PutUint32 c) post (i + 1) Hcs); [done|rewrite length_app; cbn; lia|lia..].
Qed.

Lemma slice_middle {E} pre mid (post : list Z) n m : n = length pre -> m = (length pre + length mid)%nat -> slice_at (E:=E) (pre ++ mid ++ post) n m = Ok mid.
Proof.
  intros -> ->. unfold slice_at. rewrite !length_app. rewrite !(proj2 (Nat.leb_le _ _)) by lia. cbn [andb].
  rewrite drop_app_length. replace (length pre + length mid - length pre)%nat with (length mid) by lia. by rewrite take_app_length.
Qed.

Lemma read_extension_put profile k ext pre post : length ext = (4 * k)%nat -> Z.of_nat k < 65536 ->
  read_extension (pre ++ PutUint16 profile ++ PutUint16 (Z.of_nat (length ext / 4)) ++ ext ++ post) (length pre) = Ok (ext, (length pre + (4 + length ext))%nat).
Proof.
  intros He Hk. assert (E4 : (length ext / 4 = k)%nat) by (rewrite He, Nat.mul_comm; apply Nat.div_mul; done). rewrite E4.
  unfold read_extension. rewrite !length_app. change (length (PutUint16 profile)) with 2%nat. change (length (PutUint16 (Z.of_nat k))) with 2%nat.
  rewrite (proj2 (Nat.ltb_ge _ _)) by lia. rewrite (app_assoc pre (PutUint16 profile)).
  rewrite (Uint16_at_put (pre ++ PutUint16 profile) (Z.of_nat k)) by (unfold is_u; rewrite ?length_app; cbn; lia). cbn [obind]. rewrite Nat2Z.id.
  rewrite (proj2 (Nat.ltb_ge _ _)) by lia. rewrite (app_assoc (pre ++ PutUint16 profile)).
  rewrite (slice_middle ((pre ++ PutUint16 profile) ++ PutUint16 (Z.of_nat k)) ext) by (rewrite !length_app; cbn; lia). cbn [obind]. do 2 f_equal. lia.
Qed.

Lemma payload_end_put pre padding : (padding <= 255)%nat -> padding <> O -> payload_end (pre ++ padding_bytes padding) = Ok (length pre).
Proof.
  intros Hp Hn. destruct padding as [|n]; [done|]. unfold payload_end, padding_bytes. rewrite app_assoc, length_app. cbn [length]. rewrite Nat.add_sub.
  rewrite byte_at_app. cbn [obind]. rewrite Nat2Z.id. rewrite length_app, length_replicate. rewrite (proj2 (Nat.ltb_lt _ _)), (proj2 (Nat.leb_le _ _)) by lia. cbn [andb]. f_equal. lia.
Qed.

Lemma length_csrcs cs : length (cs ≫= PutUint32) = (4 * length cs)%nat.
Proof. induction cs as [|c cs IH]; [done|]. change ((c :: cs) ≫= PutUint32) with (PutUint32 c ++ (cs ≫= PutUint32)). rewrite length_app, IH. cbn [length PutUint32]. lia. Qed.

(** What follows the contributing sources. *)
Lemma read_tail profile padding p pre : rtp_ok profile padding p ->
  let data := pre ++ extension_bytes profile p ++ Payload p ++ padding_bytes padding in
  (0 < length pre)%nat ->
  exists hs e, (if Extension p then read_extension data (length pre) else Ok ([], length pre)) = Ok (ExtensionData p, hs) /\
    (if Padding p then payload_end data else Ok (length data)) = Ok e /\
    (if (hs <? e)%nat then slice_at data hs e else Ok []) = @Ok rtp_error _ (Payload p).
Proof.
  intros [] data Hpre. exists (length (pre ++ extension_bytes profile p)), (length (pre ++ extension_bytes profile p ++ Payload p)). split_and!.
  - unfold data, extension_bytes. destruct (Extension p); [|by rewrite ok_ext0, app_nil_r].
    destruct ok_ext0 as (k & E & Hk). rewrite <- !app_assoc. rewrite (read_extension_put profile k) by done. do 2 f_equal. rewrite !length_app. cbn. lia.
  - unfold data. rewrite ok_padding0. destruct padding as [|n]; cbn [Nat.ltb Nat.leb]; [by rewrite app_nil_r|].
    rewrite !app_assoc. rewrite payload_end_put by done. done.
  - destruct (Nat.ltb_spec (length (pre ++ extension_bytes profile p)) (length (pre ++ extension_bytes profile p ++ Payload p))) as [Hl|Hl].
    + unfold data. rewrite (app_assoc pre (extension_bytes profile p)). apply slice_middle; [done|]. rewrite !length_app. lia.
    + rewrite !length_app in Hl. destruct (Payload p); [done|]. cbn [length] in Hl. lia.
Qed.

(** C9: the parser reads the wire format: a packet laid out as RFC 3550 has it,
    with up to 15 contributing sources, an extension and padding, is parsed into
    exactly its fields, without its padding. *)
Theorem rtp_roundtrip profile padding p : rtp_ok profile padding p -> parse_packet (Received p) (rtp_bytes profile padding p) = Ok p.
Proof.
  intros Hok. pose proof Hok as []. unfold rtp_bytes. set (tail := extension_bytes profile p ++ Payload p ++ padding_bytes padding).
  set (body := (CSRC p ≫= PutUint32) ++ tail). set (pre := [first_byte p; second_byte p] ++ PutUint16 (SequenceNumber p) ++ PutUint32 (Timestamp p) ++ PutUint32 (SSRC p)).
  destruct (first_byte_fields p) as (F1 & F2 & F3 & F4); [done|lia|]. destruct (second_byte_fields p) as [S1 S2]; [done|].
  unfold parse_packet. match goal with |- context [length ?d] => set (data := d) end.
  assert (Ed : data = pre ++ body) by done. assert (El : length data = (12 + length body)%nat) by (rewrite Ed, length_app; done).
  rewrite (proj2 (Nat.ltb_ge (length data) 12)) by lia. change (@byte_at rtp_error data 0) with (@Ok rtp_error Z (first_byte p)).
  change (@byte_at rtp_error data 1) with (@Ok rtp_error Z (second_byte p)). cbn [obind].
  rewrite (Uint16_at_put [first_byte p; second_byte p] (SequenceNumber p) _ 2 ok_seq0 eq_refl : Uint16_at data 2 = _). cbn [obind].
  rewrite (Uint32_at_put ([first_byte p; second_byte p] ++ PutUint16 (SequenceNumber p)) (Timestamp p) (PutUint32 (SSRC p) ++ body) 4 ok_ts0 eq_refl : Uint32_at data 4 = _). cbn [obind].
  rewrite (Uint32_at_put ([first_byte p; second_byte p] ++ PutUint16 (SequenceNumber p) ++ PutUint32 (Timestamp p)) (SSRC p) body 8 ok_ssrc0 eq_refl : Uint32_at data 8 = _). cbn [obind].
  rewrite F1, F2, F3, F4, S1, S2, ok_count0, Nat2Z.id.
  assert (Hb : length body = (4 * length (CSRC p) + length tail)%nat) by (unfold body; rewrite length_app, length_csrcs; done).
  rewrite (proj2 (Nat.ltb_ge (length data) _)) by lia. rewrite (read_csrcs_put (CSRC p) pre tail 0 ok_csrc0 eq_refl ltac:(lia) ltac:(lia) : read_csrcs data 0 (length (CSRC p)) = _). cbn [obind].
  destruct (read_tail profile padding p (pre ++ (CSRC p ≫= PutUint32)) Hok) as (hs & e & E1 & E2 & E3); [rewrite length_app; cbn; lia|].
  rewrite <- app_assoc in E1, E2, E3. change (pre ++ (CSRC p ≫= PutUint32) ++ extension_bytes profile p ++ Payload p ++ padding_bytes padding) with data in *.
  rewrite length_app, length_csrcs in E1. change (length pre) with 12%nat in E1.
  rewrite E1. cbn [obind]. rewrite E2. cbn [obind]. rewrite E3. cbn [obind]. rewrite <- ok_count0. by destruct p.
Qed.

(** ** Guarantees: processing *)

(** What a registry promises: a name is registered once. *)
Class PrometheusLaws (R : Type) `{Prometheus R} := {
  Registered : string -> R -> Prop;
  register_records n r r' : MustRegister n r = Some r' -> Registered n r';
  register_once n r : Registered n r -> MustRegister n r = None }.

Definition parsed (l : list (Z * list Z)) : list RTPPacket :=
  omap (fun '(now, data) => match parse_packet now data with Ok p => Some p | _ => None end) l.

(** The new label of a packet whose type is one of those to be transcoded. *)
Definition relabel (p : RTPPacket) : RTPPacket :=
  if ShouldTranscodePacket p then with_payload (Payload p) (if (PayloadType p =? 0) || (PayloadType p =? 8) then 111 else 0) p else p.

Definition quality_metrics : string := "karl_rtcp_quality_metrics".

Section Guarantees.
Context {H R : Type} `{RTPPacketHandler H} `{PrometheusLaws R}.
Variables MimeTypeOpus MimeTypePCMU MimeTypePCMA : string.
Variables OpusToPCMU PCMUToOpus : list Z -> outcome codec_error (list Z).
Hypothesis media_types : Forall (fun m => String.prefix "audio/" m = true) [MimeTypeOpus; MimeTypePCMU; MimeTypePCMA].
Implicit Types (w : RtpWorker H R) (p : RTPPacket).

Abbreviation transcode := (TranscodeAudio MimeTypeOpus MimeTypePCMU MimeTypePCMA OpusToPCMU PCMUToOpus).
Abbreviation transcode_packet := (TranscodeRTPPacket MimeTypeOpus MimeTypePCMU MimeTypePCMA OpusToPCMU PCMUToOpus).
Abbreviation process := (processRTPPacket MimeTypeOpus MimeTypePCMU MimeTypePCMA OpusToPCMU PCMUToOpus).
Abbreviation run := (process_all MimeTypeOpus MimeTypePCMU MimeTypePCMA OpusToPCMU PCMUToOpus).

Lemma not_media_type c m : String.prefix "audio/" c = false -> m ∈ [MimeTypeOpus; MimeTypePCMU; MimeTypePCMA] -> bool_decide (c = m) = false.
Proof using media_types. intros Hc Hm. apply bool_decide_eq_false. intros ->. rewrite (proj1 (Forall_forall _ _) media_types m Hm) in Hc. done. Qed.

Lemma transcode_unconverted payload src dst : String.prefix "audio/" src = false -> transcode payload src dst = Ok payload.
Proof using media_types. intros Hs. unfold TranscodeAudio. rewrite !(not_media_type src) by (done || set_solver). done. Qed.

Lemma transcode_packet_eq p w : ShouldTranscodePacket p = true -> transcode_packet p w = Ok (relabel p, w).
Proof using media_types.
  intros Hs. unfold relabel. rewrite Hs. unfold ShouldTranscodePacket in Hs. unfold TranscodeRTPPacket, codecs_of.
  destruct (PayloadType p =? 0); cbn [orb] in *; [by rewrite transcode_unconverted|].
  destruct (PayloadType p =? 8); cbn [orb] in *; [by rewrite transcode_unconverted|]. rewrite Hs. by rewrite transcode_unconverted.
Qed.

Lemma relabel_SSRC p : SSRC (relabel p) = SSRC p.
Proof. unfold relabel. by destruct (ShouldTranscodePacket p). Qed.

Lemma relabel_Payload p : Payload (relabel p) = Payload p.
Proof. unfold relabel. by destruct (ShouldTranscodePacket p). Qed.

(** A parsed packet: counted, relabelled, forwarded, reported. *)
Definition counted (data : list Z) w : RtpWorker H R :=
  w <| packetsProcessed ::= inc64 |> <| bytesProcessed ::= fun n => u64 (n + Z.of_nat (length data)) |>.

Lemma process_eq now data w p : parse_packet now data = Ok p ->
  process now data w = HandleRTCPFeedback now (relabel p) (ForwardRTPPacket (relabel p) (counted data w)).
Proof using media_types.
  intros E. unfold processRTPPacket, ParseRTPPacket. rewrite E. fold (counted data w).
  assert (Ht : (if ShouldTranscodePacket p then transcode_packet p (counted data w) else Ok (p, counted data w)) = Ok (relabel p, counted data w)).
  { destruct (ShouldTranscodePacket p) eqn:Hs; [by apply transcode_packet_eq|]. unfold relabel. by rewrite Hs. }
  rewrite Ht. f_equal. unfold ShouldForwardPacket. case_bool_decide as Hf; [done|]. unfold ForwardRTPPacket. destruct (rtpHandlers _ !! _); [|done]. destruct Hf. done.
Qed.

Lemma process_err now data w e : parse_packet now data = Err e -> process now data w = Some (w <| packetErrors ::= inc64 |>).
Proof. intros E. unfold processRTPPacket, ParseRTPPacket. by rewrite E. Qed.

(** What feedback leaves alone. *)
Lemma feedback_frame now p w w' : HandleRTCPFeedback now p w = Some w' ->
  packetsProcessed w' = packetsProcessed w /\ packetErrors w' = packetErrors w /\ bytesProcessed w' = bytesProcessed w /\ transcodingErrors w' = transcodingErrors w /\
  forwardingErrors w' = forwardingErrors w /\ rtpHandlers w' = rtpHandlers w /\ forwarded w' = forwarded w.
Proof.
  unfold HandleRTCPFeedback, GetRTCPFeedbackHandler. destruct (rtcpFeedbackHandlers w !! SSRC p); [by intros [= <-]|].
  destruct (NewRTCPFeedbackHandler _ _ _) as [[h r]|]; [by intros [= <-]|done].
Qed.

Lemma forward_frame p w : let w' := ForwardRTPPacket p w in
  packetsProcessed w' = packetsProcessed w /\ packetErrors w' = packetErrors w /\ bytesProcessed w' = bytesProcessed w /\ transcodingErrors w' = transcodingErrors w /\
  rtpHandlers w' = rtpHandlers w /\ rtcpFeedbackHandlers w' = rtcpFeedbackHandlers w /\ registry w' = registry w.
Proof. unfold ForwardRTPPacket. destruct (rtpHandlers w !! SSRC p); [|done]. by destruct (Handle _ _). Qed.

(** *** Streams *)

(** At most one stream has a feedback handler, and then the name is taken. *)
Inductive streams : option Z -> RtpWorker H R -> Prop :=
| no_stream w : rtcpFeedbackHandlers w = ∅ -> is_Some (MustRegister quality_metrics (registry w)) -> streams None w
| one_stream w s h : rtcpFeedbackHandlers w = {[ s := h ]} -> Registered quality_metrics (registry w) -> streams (Some s) w.

Lemma process_stream now data w p st : streams st w -> parse_packet now data = Ok p ->
  match st with
  | Some s => if SSRC p =? s then exists w', process now data w = Some w' /\ streams (Some s) w' else process now data w = None
  | None => exists w', process now data w = Some w' /\ streams (Some (SSRC p)) w'
  end.
Proof using media_types.
  intros Hst Hp. rewrite (process_eq _ _ _ _ Hp). destruct (forward_frame (relabel p) (counted data w)) as (_ & _ & _ & _ & _ & E1 & E2). cbv zeta in *.
  change (rtcpFeedbackHandlers (counted data w)) with (rtcpFeedbackHandlers w) in E1. change (registry (counted data w)) with (registry w) in E2.
  revert E1 E2. generalize (ForwardRTPPacket (relabel p) (counted data w)) as v. intros v E1 E2.
  unfold HandleRTCPFeedback, GetRTCPFeedbackHandler, NewRTCPFeedbackHandler. rewrite relabel_SSRC, E1, E2. inversion Hst as [u Hh Hr|u s h Hh Hr]; subst u st.
  - rewrite Hh, lookup_empty. destruct Hr as [r Hr]. unfold quality_metrics in Hr. rewrite Hr. cbn. eexists. split; [reflexivity|].
    eapply one_stream; [cbn; rewrite E1, Hh, !insert_empty; apply insert_singleton_eq|]. apply (register_records _ _ _ Hr).
  - rewrite Hh. destruct (Z.eqb_spec (SSRC p) s) as [->|Hne].
    + rewrite lookup_singleton_eq. cbn. eexists. split; [reflexivity|]. eapply one_stream; [cbn; rewrite E1, Hh; apply insert_singleton_eq|]. cbn. by rewrite E2.
    + rewrite lookup_singleton_ne by done. pose proof (register_once _ _ Hr) as Hn. unfold quality_metrics in Hn. by rewrite Hn.
Qed.

Lemma process_error now data w st e : streams st w -> parse_packet now data = Err e -> exists w', process now data w = Some w' /\ streams st w'.
Proof. intros Hst He. rewrite (process_err _ _ _ _ He). eexists. split; [reflexivity|]. destruct Hst; [by apply no_stream|by eapply one_stream]. Qed.

Lemma run_streams l : forall w st, streams st w -> Forall (fun j => Forall (is_u 8) j.2) l ->
  is_Some (run l w) <-> match st with
                       | Some s => Forall (fun p => SSRC p = s) (parsed l)
                       | None => forall p1 p2, p1 ∈ parsed l -> p2 ∈ parsed l -> SSRC p1 = SSRC p2
                       end.
Proof using media_types.
  induction l as [|[now data] l IH]; intros w st Hst Hb.
  { split; [|done]. intros _. destruct st; [done|]. by intros ? ? ?%not_elem_of_nil. }
  apply Forall_cons in Hb as [Hd Hb]. cbn [process_all parsed omap list_omap]. pose proof (parse_packet_total now data Hd) as Ht.
  destruct (parse_packet now data) as [p|e| |] eqn:Hp; [clear Ht|clear Ht|done..].
  - pose proof (process_stream now data w p st Hst Hp) as Hs. destruct st as [s|].
    + destruct (Z.eqb_spec (SSRC p) s) as [E|E]; [|rewrite Hs; cbn; split; [by intros []|]; by intros [? _]%Forall_cons].
      destruct Hs as (w' & -> & Hs'). cbn [mbind option_bind]. rewrite (IH w' (Some s) Hs' Hb), Forall_cons. by split; [|intros []].
    + destruct Hs as (w' & -> & Hs'). cbn [mbind option_bind]. rewrite (IH w' _ Hs' Hb). rewrite Forall_forall. split.
      * intros Hall p1 p2. rewrite !elem_of_cons. intros [-> |Hi] [-> |Hj]; try done; [symmetry| |]; auto. rewrite (Hall _ Hi), (Hall _ Hj). done.
      * intros Hall q Hq. apply Hall; rewrite elem_of_cons; auto.
  - destruct (process_error now data w st e Hst Hp) as (w' & -> & Hs'). apply (IH w' st Hs' Hb).
Qed.

(** The server carries one stream. Every stream's feedback handler registers
    a collector of the same name, which panics the second time: from a fresh
    start a sequence of packets is processed to its end if and only if all that
    parse have one and the same SSRC; the first packet of another stream ends the
    program. *)
Theorem one_stream_only l w : rtcpFeedbackHandlers w = ∅ -> is_Some (MustRegister quality_metrics (registry w)) ->
  Forall (fun j => Forall (is_u 8) j.2) l ->
  is_Some (run l w) <-> forall p1 p2, p1 ∈ parsed l -> p2 ∈ parsed l -> SSRC p1 = SSRC p2.
Proof using All. intros He Hr Hb. apply (run_streams l w None); [by apply no_stream|done]. Qed.

(** *** Accounts *)

(** The calls of handlers for a list of packets, and how many of them fail. *)
Definition deliveries (hs : gmap Z H) (ps : list RTPPacket) : list (H * RTPPacket) :=
  omap (fun p => h ← hs !! SSRC p; Some (h, relabel p)) ps.
Definition failures (ds : list (H * RTPPacket)) : Z := Z.of_nat (length (filter (fun d => Handle d.1 d.2 = false) ds)).

(** A 64-bit counter that grows by [n]. *)
Definition grows (n a b : Z) : Prop := is_u 64 a -> b = u64 (a + n).

Lemma grows_0 a : grows 0 a a.
Proof. intros Ha. rewrite Z.add_0_r. symmetry. by apply wrapu_id. Qed.
Lemma grows_1 a : grows 1 a (inc64 a).
Proof. done. Qed.
Lemma grows_add n m k a b c : grows n a b -> grows m b c -> k = n + m -> grows k a c.
Proof.
  intros Hn Hm -> Ha. rewrite (Hm ltac:(rewrite (Hn Ha); by apply wrapu_range)), (Hn Ha). unfold wrapu. rewrite Zplus_mod_idemp_l. f_equal. lia.
Qed.
Lemma grows_from_0 n b : grows n 0 b -> 0 <= n < 2 ^ 64 -> b = n.
Proof. intros Hg Hn. rewrite Hg by done. by apply wrapu_id. Qed.

Lemma forward_deliveries p w : let w' := ForwardRTPPacket (relabel p) w in
  forwarded w' = forwarded w ++ deliveries (rtpHandlers w) [p] /\
  grows (failures (deliveries (rtpHandlers w) [p])) (forwardingErrors w) (forwardingErrors w').
Proof.
  unfold ForwardRTPPacket, deliveries, failures. cbn [omap list_omap]. rewrite relabel_SSRC. destruct (rtpHandlers w !! SSRC p) as [h|]; cbn [mbind option_bind].
  - unfold filter, list_filter. cbn [fst snd]. destruct (Handle h (relabel p)); cbn; (split; [done|]); [apply grows_0|apply grows_1].
  - rewrite app_nil_r. split; [done|apply grows_0].
Qed.

Lemma deliveries_cons hs p ps : deliveries hs (p :: ps) = deliveries hs [p] ++ deliveries hs ps.
Proof. unfold deliveries. cbn. by destruct (hs !! SSRC p). Qed.

Lemma failures_app ds ds' : failures (ds ++ ds') = failures ds + failures ds'.
Proof. unfold failures. rewrite filter_app, length_app. lia. Qed.

(** What the packets [l] do to the counters and the handlers of a worker. *)
Record accounts (l : list (Z * list Z)) w w' : Prop := {
  acc_handlers : rtpHandlers w' = rtpHandlers w; acc_transcoding : transcodingErrors w' = transcodingErrors w;
  acc_processed : grows (Z.of_nat (length (parsed l))) (packetsProcessed w) (packetsProcessed w');
  acc_errors : grows (Z.of_nat (length l) - Z.of_nat (length (parsed l))) (packetErrors w) (packetErrors w');
  acc_forwarded : forwarded w' = forwarded w ++ deliveries (rtpHandlers w) (parsed l);
  acc_failures : grows (failures (deliveries (rtpHandlers w) (parsed l))) (forwardingErrors w) (forwardingErrors w') }.

Lemma accounts_one now data w v : process now data w = Some v -> accounts [(now, data)] w v.
Proof using media_types.
  intros Ev. destruct (parse_packet now data) as [p|e| |] eqn:Hp.
  - rewrite (process_eq _ _ _ _ Hp) in Ev. apply feedback_frame in Ev as (F1 & F2 & F3 & F4 & F5 & F6 & F7).
    destruct (forward_frame (relabel p) (counted data w)) as (G1 & G2 & G3 & G4 & G5 & _ & _). destruct (forward_deliveries p (counted data w)) as [D1 D2]. cbv zeta in *.
    assert (parsed [(now, data)] = [p]) as Ep by (cbn; by rewrite Hp).
    split; rewrite ?Ep, ?F1, ?F2, ?F4, ?F5, ?F6, ?F7, ?G1, ?G2, ?G4, ?G5; [done|done|apply grows_1|apply grows_0|done|done].
  - rewrite (process_err _ _ _ _ Hp) in Ev. injection Ev as <-. assert (parsed [(now, data)] = []) as Ep by (cbn; by rewrite Hp).
    split; rewrite ?Ep; cbn; [done|done|apply grows_0|apply grows_1|by rewrite app_nil_r|apply grows_0].
  - unfold processRTPPacket, ParseRTPPacket in Ev. by rewrite Hp in Ev.
  - unfold processRTPPacket, ParseRTPPacket in Ev. by rewrite Hp in Ev.
Qed.

Lemma accounts_app l1 l2 w v w' : accounts l1 w v -> accounts l2 v w' -> accounts (l1 ++ l2) w w'.
Proof.
  intros [A1 A2 A3 A4 A5 A6] [B1 B2 B3 B4 B5 B6]. rewrite A1 in *. assert (parsed (l1 ++ l2) = parsed l1 ++ parsed l2) as Ep by apply omap_app.
  assert (deliveries (rtpHandlers w) (parsed l1 ++ parsed l2) = deliveries (rtpHandlers w) (parsed l1) ++ deliveries (rtpHandlers w) (parsed l2)) as Ed by apply omap_app.
  split; rewrite ?Ep, ?Ed, ?length_app, ?failures_app; [congruence|congruence|eapply grows_add; [done..|lia]|eapply grows_add; [done..|lia]| |by eapply grows_add].
  by rewrite B5, A5, app_assoc.
Qed.

Lemma run_accounts l : forall w w', run l w = Some w' -> accounts l w w'.
Proof using media_types.
  induction l as [|[now data] l IH]; intros w w' Hrun.
  { injection Hrun as <-. split; cbn; [done|done|apply grows_0|apply grows_0|by rewrite app_nil_r|apply grows_0]. }
  cbn [process_all] in Hrun. destruct (process now data w) as [v|] eqn:Ev; [cbn [mbind option_bind] in Hrun|done].
  apply (accounts_app [(now, data)] l w v); [by apply accounts_one|by apply IH].
Qed.

Lemma length_omap_le {A B} (f : A -> option B) l : (length (omap f l) <= length l)%nat.
Proof. induction l as [|x l IH]; [done|]. cbn. destruct (f x); cbn; lia. Qed.

(** The counters of the pool are exact and forwarding is complete: of the
    packets a worker gets through, the parsed and the malformed ones are counted,
    each parsed packet of a stream with a handler is given to that handler, once
    and in order (relabelled, with its payload as it came), and the calls that
    fail are counted. *)
Theorem processing_accounted l w w' : run l w = Some w' ->
  packetsProcessed w = 0 -> packetErrors w = 0 -> forwardingErrors w = 0 -> forwarded w = [] -> Z.of_nat (length l) < 2 ^ 64 ->
  packetsProcessed w' = Z.of_nat (length (parsed l)) /\ packetErrors w' + packetsProcessed w' = Z.of_nat (length l) /\
  forwarded w' = deliveries (rtpHandlers w) (parsed l) /\ forwardingErrors w' = failures (forwarded w').
Proof using media_types.
  intros Hrun Z1 Z2 Z3 Z4 Hl. destruct (run_accounts l w w' Hrun) as [_ _ A3 A4 A5 A6]. rewrite Z1 in A3. rewrite Z2 in A4. rewrite Z3 in A6. rewrite Z4 in A5.
  pose proof (length_omap_le _ l : (length (parsed l) <= length l)%nat) as Hp. apply grows_from_0 in A3; [|lia]. apply grows_from_0 in A4; [|lia].
  assert (Hf : 0 <= failures (deliveries (rtpHandlers w) (parsed l)) < 2 ^ 64).
  { unfold failures. pose proof (length_filter (fun d => Handle d.1 d.2 = false) (deliveries (rtpHandlers w) (parsed l))) as Hle.
    assert (length (deliveries (rtpHandlers w) (parsed l)) <= length (parsed l))%nat as Hd by apply length_omap_le. lia. }
  apply grows_from_0 in A6; [|done]. split_and!; [done|lia|done|]. by rewrite A5.
Qed.

(** Nothing is ever transcoded. The types the conversions are named by carry
    the prefix [audio/] and the worker's names do not, so a packet to be
    transcoded keeps its payload and is only relabelled: mu-law and A-law audio
    leaves as Opus, and Opus as mu-law. *)
Theorem transcoding_relabels p w : ShouldTranscodePacket p = true -> transcode_packet p w = Ok (relabel p, w) /\ Payload (relabel p) = Payload p.
Proof using media_types. intros Hs. split; [by apply transcode_packet_eq|apply relabel_Payload]. Qed.
End Guarantees.

(** ** Guarantees: the queue *)

Record pool_ok (n : nat) (s : list (list Z) * pool) : Prop := {
  po_jobs : s.1 ≡ₚ done_jobs s.2 ++ in_hand s.2 ++ rtpJobs s.2;
  po_bound : (length (rtpJobs s.2) <= 1000)%nat;
  po_hands : (length (in_hand s.2) <= live s.2)%nat;
  po_live : live s.2 = n \/ rtpJobs s.2 = [] /\ job_closed s.2 = true }.

Lemma pool_step_ok n s s' : pool_step s s' -> pool_ok n s -> pool_ok n s'.
Proof.
  intros Hs [P1 P2 P3 P4]. destruct Hs as [acc q packet ok q' E|acc q job rest E Hh|acc q l1 job l2 E|acc q q' E|acc q m E Hc Hm Hh]; cbn in *.
  - unfold AddRTPJob in E. destruct (job_closed q) eqn:Hc; [done|]. destruct (Nat.ltb_spec (length (rtpJobs q)) 1000); injection E as <- <-.
    + split; cbn; [by rewrite P1, !app_assoc|rewrite length_app; cbn; lia|done|]. destruct P4 as [|[]]; [by left|congruence].
    + split; cbn; [done..|]. destruct P4 as [|[]]; [by left|congruence].
  - rewrite E in *. cbn [length] in P2. split; cbn; [rewrite P1; solve_Permutation|lia|rewrite length_app; cbn; lia|]. destruct P4 as [|[]]; [by left|done].
  - rewrite E in *. rewrite length_app in P3. cbn [length] in P3. split; cbn; [rewrite P1; solve_Permutation|done|rewrite length_app; lia|done].
  - unfold close_jobs in E. destruct (job_closed q) eqn:Hc; [done|]. injection E as <-. split; cbn; [done|done|done|]. destruct P4 as [|[]]; [by left|congruence].
  - rewrite E in *. split; cbn; [done|lia|done|by right].
Qed.

(** No accepted job is lost. In every interleaving of senders and workers the
    accepted jobs are those done, in hand and in the channel, which never holds
    more than a thousand; and when the pool has been stopped and its workers have
    ended, every accepted job has been done. *)
Theorem jobs_conserved n acc q : (0 < n)%nat -> rtc pool_step ([], InitWorkerPool n) (acc, q) ->
  acc ≡ₚ done_jobs q ++ in_hand q ++ rtpJobs q /\ (length (rtpJobs q) <= 1000)%nat /\ (live q = O -> acc ≡ₚ done_jobs q).
Proof.
  intros Hn Hr. assert (pool_ok n (acc, q)) as [P1 P2 P3 P4].
  { apply (rtc_ind_r (pool_ok n) ([], InitWorkerPool n)) in Hr; [done|split; cbn; [done|lia|lia|by left]|]. intros y z _ Hs Hy. by eapply pool_step_ok. }
  cbn in *. split; [done|]. split; [done|]. intros Hl. rewrite Hl in *. destruct P4 as [|[E _]]; [lia|]. destruct (in_hand q); [|cbn in P3; lia]. by rewrite P1, E, !app_nil_r.
Qed.

(** ** Witnesses *)

Lemma parse_packet_total_witness :
  match parse_packet 0 (replicate 12 128) with
  | Ok p => CSRCCount p = Z.of_nat (length (CSRC p)) /\ Received p = 0 /\
      (12 + 4 * length (CSRC p) + (if Extension p then 4 + length (ExtensionData p) else 0) + length (Payload p) <= length (replicate 12 128))%nat
  | Err _ => True
  | _ => False
  end.
Proof. apply (parse_packet_total 0 (replicate 12 128)), (bool_decide_unpack _). vm_compute. exact I. Defined.

(** A mu-law packet with two contributing sources, an extension and padding. *)
Definition sample_rtp (ssrc : Z) : RTPPacket := mkRTPPacket 2 true true 2 true 0 4660 99 ssrc [1; 2] [1; 2; 3; 4] [255; 127] 5.

Lemma sample_rtp_ok ssrc : is_u 32 ssrc -> rtp_ok 48862 3 (sample_rtp ssrc).
Proof.
  intros Hs. split; cbn; try done; try lia.
  - apply (bool_decide_unpack _). done.
  - exists 1%nat. done.
Qed.

Lemma rtp_roundtrip_witness : parse_packet 5 (rtp_bytes 48862 3 (sample_rtp 7)) = Ok (sample_rtp 7).
Proof. apply (rtp_roundtrip 48862 3 (sample_rtp 7)), sample_rtp_ok. done. Defined.

(** Handlers that take every packet, and a registry of names. *)
#[local] Instance accepting : RTPPacketHandler unit := fun _ _ => true.
#[local] Instance names : Prometheus (list string) := fun n r => if bool_decide (n ∈ r) then None else Some (n :: r).
#[local] Instance names_laws : PrometheusLaws (list string).
Proof.
  refine {| Registered n r := n ∈ r |}.
  - intros n r r'. unfold MustRegister, names. destruct (bool_decide _); [done|]. intros [= <-]. apply list_elem_of_here.
  - intros n r Hr. unfold MustRegister, names. by rewrite bool_decide_true.
Defined.

Definition fresh_worker : RtpWorker unit (list string) := mkWorker 0 0 0 0 0 {[ 7 := tt ]} ∅ [] [].
Definition no_codec (payload : list Z) : outcome codec_error (list Z) := Err EmptyPayload.
Definition two_streams : list (Z * list Z) := [(5, rtp_bytes 48862 3 (sample_rtp 7)); (6, rtp_bytes 48862 3 (sample_rtp 8))].

Lemma audio_types : Forall (fun m => String.prefix "audio/" m = true) ["audio/opus"; "audio/PCMU"; "audio/PCMA"]%string.
Proof. repeat constructor. Qed.

Lemma transcoding_relabels_witness :
  TranscodeRTPPacket "audio/opus" "audio/PCMU" "audio/PCMA" no_codec no_codec (sample_rtp 7) fresh_worker = Ok (relabel (sample_rtp 7), fresh_worker) /\
  Payload (relabel (sample_rtp 7)) = Payload (sample_rtp 7).
Proof. apply (transcoding_relabels "audio/opus" "audio/PCMU" "audio/PCMA" no_codec no_codec audio_types (sample_rtp 7) fresh_worker). reflexivity. Defined.

Lemma one_stream_only_witness :
  is_Some (process_all "audio/opus" "audio/PCMU" "audio/PCMA" no_codec no_codec two_streams fresh_worker) <->
  forall p1 p2, p1 ∈ parsed two_streams -> p2 ∈ parsed two_streams -> SSRC p1 = SSRC p2.
Proof.
  apply (one_stream_only "audio/opus" "audio/PCMU" "audio/PCMA" no_codec no_codec audio_types two_streams fresh_worker); [reflexivity|by eexists|].
  apply (bool_decide_unpack _). vm_compute. exact I.
Defined.

(** The second stream ends the program. *)
Example second_stream_crashes :
  is_Some (process_all "audio/opus" "audio/PCMU" "audio/PCMA" no_codec no_codec (take 1 two_streams) fresh_worker) /\
  process_all "audio/opus" "audio/PCMU" "audio/PCMA" no_codec no_codec two_streams fresh_worker = None.
Proof. split; [by eexists|reflexivity]. Qed.

Lemma processing_accounted_witness : exists w',
  process_all "audio/opus" "audio/PCMU" "audio/PCMA" no_codec no_codec (take 1 two_streams) fresh_worker = Some w' /\
  packetsProcessed w' = Z.of_nat (length (parsed (take 1 two_streams))) /\ packetErrors w' + packetsProcessed w' = Z.of_nat (length (take 1 two_streams)) /\
  forwarded w' = deliveries (rtpHandlers fresh_worker) (parsed (take 1 two_streams)) /\ forwardingErrors w' = failures (forwarded w').
Proof.
  eexists. split; [reflexivity|].
  apply (processing_accounted "audio/opus" "audio/PCMU" "audio/PCMA" no_codec no_codec audio_types (take 1 two_streams) fresh_worker); reflexivity.
Defined.

Definition one_job : list (list Z) := [[1]].
Definition waiting_pool : pool := mkPool one_job false 2 [] [].

Lemma jobs_conserved_witness :
  one_job ≡ₚ done_jobs waiting_pool ++ in_hand waiting_pool ++ rtpJobs waiting_pool /\
  (length (rtpJobs waiting_pool) <= 1000)%nat /\ (live waiting_pool = O -> one_job ≡ₚ done_jobs waiting_pool).
Proof. apply (jobs_conserved 2 one_job waiting_pool); [lia|]. apply rtc_once. exact (step_add [] (InitWorkerPool 2) [1] true _ eq_refl). Defined.
