(* ===== verification/ConnectionPool.v ===== *)
(** * Connection pools

    Models src/internal/connection_pool.go: the pool of connections with its idle
    list, its queue of waiting callers and its health check, and the UDP pool. A
    caller of [Get] lets go of the lock before it dials, counts a connection as
    active or waits, and [Close] counts before it takes the lock, so the parts of
    these operations between locks are the steps of an interleaving. Channels of
    waiting callers are objects with an identity. Whether a dial succeeds is an
    argument of the step that ends it, and [now] is the reading of the clock. The
    methods that pass on to the socket are left out. *)

From Stdlib Require Import ZArith Lia ZifyNat Permutation.
From stdpp Require Import base numbers list gmap relations.
From S2P Require Import Prelude.

Local Open Scope Z_scope.
Local Open Scope go_scope.
#[local] Arguments wraps : simpl never.

Inductive pool_error := ErrPoolClosed | ErrPoolExhausted | ErrDialFailed.

Record ConnectionPoolConfig := mkPoolConfig {
  MaxSize : Z; MinSize : Z; MaxIdleTime : Z; MaxLifetime : Z; DialTimeout : Z; HealthCheckInterval : Z; WaitTimeout : Z }.

Definition DefaultConnectionPoolConfig : ConnectionPoolConfig :=
  mkPoolConfig 100 5 (5 * 60 * Second) (30 * 60 * Second) (5 * Second) (30 * Second) (10 * Second).

Record PooledConnection := mkConn { createdAt : Z; lastUsedAt : Z; usageCount : Z; conn_id : Z }.

(** A caller's channel holds one connection, or is closed. *)
Inductive chan := Empty | Full (c : PooledConnection) | ClosedChan.

(** [shut] are the connections the pool has closed. *)
Record ConnectionPool := mkConnPool {
  pool_config : ConnectionPoolConfig; connections : list PooledConnection; waiters : list nat; chans : gmap nat chan; nextWaiter : nat; pool_closed : bool;
  totalCreated : Z; totalReused : Z; totalClosed : Z; totalWaitTime : Z; currentActive : Z; nextID : Z; shut : list PooledConnection }.
#[export] Instance set_pool_config : Setter pool_config := fun f r =>
  mkConnPool (f (pool_config r)) (connections r) (waiters r) (chans r) (nextWaiter r) (pool_closed r) (totalCreated r) (totalReused r) (totalClosed r) (totalWaitTime r) (currentActive r) (nextID r) (shut r).
#[export] Instance set_connections : Setter connections := fun f r =>
  mkConnPool (pool_config r) (f (connections r)) (waiters r) (chans r) (nextWaiter r) (pool_closed r) (totalCreated r) (totalReused r) (totalClosed r) (totalWaitTime r) (currentActive r) (nextID r) (shut r).
#[export] Instance set_waiters : Setter waiters := fun f r =>
  mkConnPool (pool_config r) (connections r) (f (waiters r)) (chans r) (nextWaiter r) (pool_closed r) (totalCreated r) (totalReused r) (totalClosed r) (totalWaitTime r) (currentActive r) (nextID r) (shut r).
#[export] Instance set_chans : Setter chans := fun f r =>
  mkConnPool (pool_config r) (connections r) (waiters r) (f (chans r)) (nextWaiter r) (pool_closed r) (totalCreated r) (totalReused r) (totalClosed r) (totalWaitTime r) (currentActive r) (nextID r) (shut r).
#[export] Instance set_nextWaiter : Setter nextWaiter := fun f r =>
  mkConnPool (pool_config r) (connections r) (waiters r) (chans r) (f (nextWaiter r)) (pool_closed r) (totalCreated r) (totalReused r) (totalClosed r) (totalWaitTime r) (currentActive r) (nextID r) (shut r).
#[export] Instance set_pool_closed : Setter pool_closed := fun f r =>
  mkConnPool (pool_config r) (connections r) (waiters r) (chans r) (nextWaiter r) (f (pool_closed r)) (totalCreated r) (totalReused r) (totalClosed r) (totalWaitTime r) (currentActive r) (nextID r) (shut r).
#[export] Instance set_totalCreated : Setter totalCreated := fun f r =>
  mkConnPool (pool_config r) (connections r) (waiters r) (chans r) (nextWaiter r) (pool_closed r) (f (totalCreated r)) (totalReused r) (totalClosed r) (totalWaitTime r) (currentActive r) (nextID r) (shut r).
#[export] Instance set_totalReused : Setter totalReused := fun f r =>
  mkConnPool (pool_config r) (connections r) (waiters r) (chans r) (nextWaiter r) (pool_closed r) (totalCreated r) (f (totalReused r)) (totalClosed r) (totalWaitTime r) (currentActive r) (nextID r) (shut r).
#[export] Instance set_totalClosed : Setter totalClosed := fun f r =>
  mkConnPool (pool_config r) (connections r) (waiters r) (chans r) (nextWaiter r) (pool_closed r) (totalCreated r) (totalReused r) (f (totalClosed r)) (totalWaitTime r) (currentActive r) (nextID r) (shut r).
#[export] Instance set_totalWaitTime : Setter totalWaitTime := fun f r =>
  mkConnPool (pool_config r) (connections r) (waiters r) (chans r) (nextWaiter r) (pool_closed r) (totalCreated r) (totalReused r) (totalClosed r) (f (totalWaitTime r)) (currentActive r) (nextID r) (shut r).
#[export] Instance set_currentActive : Setter currentActive := fun f r =>
  mkConnPool (pool_config r) (connections r) (waiters r) (chans r) (nextWaiter r) (pool_closed r) (totalCreated r) (totalReused r) (totalClosed r) (totalWaitTime r) (f (currentActive r)) (nextID r) (shut r).
#[export] Instance set_nextID : Setter nextID := fun f r =>
  mkConnPool (pool_config r) (connections r) (waiters r) (chans r) (nextWaiter r) (pool_closed r) (totalCreated r) (totalReused r) (totalClosed r) (totalWaitTime r) (currentActive r) (f (nextID r)) (shut r).
#[export] Instance set_shut : Setter shut := fun f r =>
  mkConnPool (pool_config r) (connections r) (waiters r) (chans r) (nextWaiter r) (pool_closed r) (totalCreated r) (totalReused r) (totalClosed r) (totalWaitTime r) (currentActive r) (nextID r) (f (shut r)).

Definition add64 (d n : Z) : Z := wraps 64 (n + d).

Definition NewConnectionPool (config : option ConnectionPoolConfig) : ConnectionPool :=
  mkConnPool (default DefaultConnectionPoolConfig config) [] [] ∅ 0 false 0 0 0 0 0 0 [].

Definition isConnectionValid (now : Z) (cfg : ConnectionPoolConfig) (c : PooledConnection) : bool :=
  if (MaxLifetime cfg >? 0) && (Time_Sub now (createdAt c) >? MaxLifetime cfg) then false
  else if (MaxIdleTime cfg >? 0) && (Time_Sub now (lastUsedAt c) >? MaxIdleTime cfg) then false
  else true.

(** [conn.Close()] by the pool, counted. *)
Definition close_conn (c : PooledConnection) (p : ConnectionPool) : ConnectionPool := p <| shut ::= fun l => l ++ [c] |> <| totalClosed ::= add64 1 |>.

Definition createConnection (now : Z) (p : ConnectionPool) : PooledConnection * ConnectionPool :=
  let id := add64 1 (nextID p) in
  (mkConn now now 0 id, p <| nextID := id |> <| totalCreated ::= add64 1 |>).

(** The idle connections are taken from the end; [l] is the list reversed. *)
Fixpoint take_idle (now : Z) (l : list PooledConnection) (p : ConnectionPool) : option PooledConnection * ConnectionPool :=
  match l with
  | [] => (None, p <| connections := [] |>)
  | c :: l =>
      if isConnectionValid now (pool_config p) c then (Some c, p <| connections := rev l |>)
      else take_idle now l (close_conn c (p <| connections := rev l |>))
  end.

(** What the caller of [Get] does once it has let go of the lock. *)
Inductive get_result := GReuse (c : PooledConnection) | GDial | GWait (w : nat) | GFail (e : pool_error).

Definition get_locked (now : Z) (p : ConnectionPool) : get_result * ConnectionPool :=
  if pool_closed p then (GFail ErrPoolClosed, p)
  else
    match take_idle now (rev (connections p)) p with
    | (Some c, p) => (GReuse c, p)
    | (None, p) =>
        if currentActive p <? MaxSize (pool_config p) then (GDial, p)
        else if WaitTimeout (pool_config p) =? 0 then (GFail ErrPoolExhausted, p)
        else (GWait (nextWaiter p), p <| waiters ::= fun l => l ++ [nextWaiter p] |> <| chans ::= <[nextWaiter p := Empty]> |> <| nextWaiter ::= S |>)
    end.

(** A connection that is given to a caller again. *)
Definition reuse (c : PooledConnection) (p : ConnectionPool) : PooledConnection * ConnectionPool :=
  (mkConn (createdAt c) (lastUsedAt c) (add64 1 (usageCount c)) (conn_id c), p <| totalReused ::= add64 1 |> <| currentActive ::= add64 1 |>).

(** [put] after its count, under the lock. *)
Definition put_locked (now : Z) (c : PooledConnection) (p : ConnectionPool) : ConnectionPool :=
  if pool_closed p then close_conn c p
  else if negb (isConnectionValid now (pool_config p) c) then close_conn c p
  else match waiters p with
       | w :: ws => p <| waiters := ws |> <| chans ::= <[w := Full c]> |>
       | [] =>
           if MaxSize (pool_config p) <=? Z.of_nat (length (connections p)) then close_conn c p
           else p <| connections ::= fun l => l ++ [c] |>
       end.

(** A caller that gives up waiting takes its channel off the queue. *)
Definition remove_waiter (w : nat) (p : ConnectionPool) : ConnectionPool := p <| waiters ::= filter (fun v => v <> w) |>.

Fixpoint create_idle (now : Z) (n : nat) (dials : list bool) (p : ConnectionPool) : ConnectionPool :=
  match n, dials with
  | S n, true :: dials => let '(c, p) := createConnection now p in create_idle now n dials (p <| connections ::= fun l => l ++ [c] |>)
  | _, _ => p
  end.

(** The connections of the idle list that are still valid stay, in their order. *)
Fixpoint sweep_idle (now : Z) (l : list PooledConnection) (p : ConnectionPool) : ConnectionPool :=
  match l with
  | [] => p
  | c :: l =>
      if isConnectionValid now (pool_config p) c then sweep_idle now l (p <| connections ::= fun l => l ++ [c] |>)
      else sweep_idle now l (close_conn c p)
  end.

(** [dials] says how the dials go; the first that fails is the last. *)
Definition healthCheck (now : Z) (dials : list bool) (p : ConnectionPool) : ConnectionPool :=
  if pool_closed p then p
  else
    let p := sweep_idle now (connections p) (p <| connections := [] |>) in
    let needed := MinSize (pool_config p) - Z.of_nat (length (connections p)) - currentActive p in
    create_idle now (Z.to_nat needed) dials p.

(** The part of [Stop] under the lock. *)
Definition stop_locked (p : ConnectionPool) : ConnectionPool :=
  if pool_closed p then p
  else
    foldl (fun p c => close_conn c p) p (connections p)
      <| connections := [] |> <| chans ::= fun m => foldr (fun w m => <[w := ClosedChan]> m) m (waiters p) |> <| waiters := [] |> <| pool_closed := true |>.

Record ConnectionPoolStats := mkConnPoolStats {
  TotalCreated : Z; TotalReused : Z; TotalClosed : Z; CurrentActive : Z; CurrentIdle : Z; CurrentWaiters : Z; AvgWaitTime : Z }.

Definition getAvgWaitTime (p : ConnectionPool) : Z := if totalReused p =? 0 then 0 else Z.quot (totalWaitTime p) (totalReused p).
Definition pool_Stats (p : ConnectionPool) : ConnectionPoolStats :=
  mkConnPoolStats (totalCreated p) (totalReused p) (totalClosed p) (currentActive p) (Z.of_nat (length (connections p))) (Z.of_nat (length (waiters p))) (getAvgWaitTime p).

(** ** Callers

    [dialing] callers of [Get] are between the lock and the end of their dial,
    [reusing] hold a connection they have not counted yet, [waiting] are in the
    select, [leaving] have been woken by the timeout and not yet removed their
    channel. [clients] have connections, [returning] are between the count and the
    lock of [Close]. [forced] were closed by [ForceClose]. [lost] are connections
    in the channel of a caller that is gone. *)
Record sys := mkSys {
  sys_pool : ConnectionPool; dialing : nat; reusing : list PooledConnection; waiting : list nat; leaving : list nat;
  clients : list PooledConnection; returning : list PooledConnection; forced : list PooledConnection; lost : list PooledConnection }.
#[export] Instance set_sys_pool : Setter sys_pool := fun f r =>
  mkSys (f (sys_pool r)) (dialing r) (reusing r) (waiting r) (leaving r) (clients r) (returning r) (forced r) (lost r).
#[export] Instance set_dialing : Setter dialing := fun f r =>
  mkSys (sys_pool r) (f (dialing r)) (reusing r) (waiting r) (leaving r) (clients r) (returning r) (forced r) (lost r).
#[export] Instance set_reusing : Setter reusing := fun f r =>
  mkSys (sys_pool r) (dialing r) (f (reusing r)) (waiting r) (leaving r) (clients r) (returning r) (forced r) (lost r).
#[export] Instance set_waiting : Setter waiting := fun f r =>
  mkSys (sys_pool r) (dialing r) (reusing r) (f (waiting r)) (leaving r) (clients r) (returning r) (forced r) (lost r).
#[export] Instance set_leaving : Setter leaving := fun f r =>
  mkSys (sys_pool r) (dialing r) (reusing r) (waiting r) (f (leaving r)) (clients r) (returning r) (forced r) (lost r).
#[export] Instance set_clients : Setter clients := fun f r =>
  mkSys (sys_pool r) (dialing r) (reusing r) (waiting r) (leaving r) (f (clients r)) (returning r) (forced r) (lost r).
#[export] Instance set_returning : Setter returning := fun f r =>
  mkSys (sys_pool r) (dialing r) (reusing r) (waiting r) (leaving r) (clients r) (f (returning r)) (forced r) (lost r).
#[export] Instance set_forced : Setter forced := fun f r =>
  mkSys (sys_pool r) (dialing r) (reusing r) (waiting r) (leaving r) (clients r) (returning r) (f (forced r)) (lost r).
#[export] Instance set_lost : Setter lost := fun f r =>
  mkSys (sys_pool r) (dialing r) (reusing r) (waiting r) (leaving r) (clients r) (returning r) (forced r) (f (lost r)).

Definition init_sys (config : option ConnectionPoolConfig) : sys := mkSys (NewConnectionPool config) 0 [] [] [] [] [] [] [].

(** The caller after the locked part of [Get]. *)
Definition got (r : get_result * ConnectionPool) (s : sys) : sys :=
  let s := s <| sys_pool := r.2 |> in
  match r.1 with
  | GReuse c => s <| reusing ::= fun l => l ++ [c] |>
  | GDial => s <| dialing ::= S |>
  | GWait w => s <| waiting ::= fun l => l ++ [w] |>
  | GFail _ => s
  end.

(** What is left in the channel of a caller that leaves. *)
Definition left_behind (w : nat) (p : ConnectionPool) : list PooledConnection := match chans p !! w with Some (Full c) => [c] | _ => [] end.

Definition touch (now : Z) (c : PooledConnection) : PooledConnection := mkConn (createdAt c) now (usageCount c) (conn_id c).

(** [Start] makes connections one by one; a dial that fails changes nothing. *)
Definition start_one (now : Z) (s : sys) : sys :=
  let '(c, p) := createConnection now (sys_pool s) in s <| sys_pool := p <| connections ::= fun l => l ++ [c] |> |>.

Inductive pool_step : sys -> sys -> Prop :=
| get_lock s now : pool_step s (got (get_locked now (sys_pool s)) s)
| get_reuse s l1 c l2 : reusing s = l1 ++ c :: l2 ->
    let '(c', p) := reuse c (sys_pool s) in pool_step s (s <| sys_pool := p |> <| reusing := l1 ++ l2 |> <| clients ::= fun l => l ++ [c'] |>)
| get_dialed s n now : dialing s = S n ->
    let '(c, p) := createConnection now (sys_pool s) in
    pool_step s (s <| sys_pool := p <| currentActive ::= add64 1 |> |> <| dialing := n |> <| clients ::= fun l => l ++ [c] |>)
| get_dial_failed s n : dialing s = S n -> pool_step s (s <| dialing := n |>)
| get_received s l1 w l2 c waited : waiting s = l1 ++ w :: l2 -> chans (sys_pool s) !! w = Some (Full c) ->
    let '(c', p) := reuse c (sys_pool s <| chans ::= delete w |> <| totalWaitTime ::= add64 waited |>) in
    pool_step s (s <| sys_pool := p |> <| waiting := l1 ++ l2 |> <| clients ::= fun l => l ++ [c'] |>)
| get_cancelled s l1 w l2 waited : waiting s = l1 ++ w :: l2 -> chans (sys_pool s) !! w = Some ClosedChan ->
    pool_step s (s <| sys_pool ::= fun p => p <| chans ::= delete w |> <| totalWaitTime ::= add64 waited |> |> <| waiting := l1 ++ l2 |>)
| get_timeout s l1 w l2 : waiting s = l1 ++ w :: l2 -> pool_step s (s <| waiting := l1 ++ l2 |> <| leaving ::= fun l => l ++ [w] |>)
| get_leave s l1 w l2 : leaving s = l1 ++ w :: l2 ->
    pool_step s (s <| sys_pool ::= fun p => remove_waiter w p <| chans ::= delete w |> |> <| leaving := l1 ++ l2 |> <| lost ::= fun l => l ++ left_behind w (sys_pool s) |>)
| close_count s l1 c l2 now : clients s = l1 ++ c :: l2 ->
    pool_step s (s <| sys_pool ::= fun p => p <| currentActive ::= add64 (-1) |> |> <| clients := l1 ++ l2 |> <| returning ::= fun l => l ++ [touch now c] |>)
| close_put s l1 c l2 now : returning s = l1 ++ c :: l2 -> pool_step s (s <| sys_pool ::= put_locked now c |> <| returning := l1 ++ l2 |>)
| force_close s l1 c l2 : clients s = l1 ++ c :: l2 -> pool_step s (s <| clients := l1 ++ l2 |> <| forced ::= fun l => l ++ [c] |>)
| health_check s now dials : pool_step s (s <| sys_pool ::= healthCheck now dials |>)
| stop s : pool_step s (s <| sys_pool ::= stop_locked |>).

Definition any_step (s s' : sys) : Prop := (exists now, s' = start_one now s) \/ pool_step s s'.

(** ** UDP connections

    [closed_conns] are the connections the pool has closed. *)
Record UDPConnectionPool := mkUDPPool { udp_max : Z; udp_connections : list Z; udp_closed : bool; udp_created : Z; udp_reused : Z; udp_shut : list Z }.

Definition NewUDPConnectionPool (config : option ConnectionPoolConfig) : UDPConnectionPool :=
  mkUDPPool (MaxSize (default DefaultConnectionPoolConfig config)) [] false 0 0 [].

(** [dialed] is the connection a dial gives, if one is needed. *)
Definition udp_Get (dialed : option Z) (p : UDPConnectionPool) : outcome pool_error Z * UDPConnectionPool :=
  if udp_closed p then (Err ErrPoolClosed, p)
  else match rev (udp_connections p) with
       | c :: l => (Ok c, mkUDPPool (udp_max p) (rev l) (udp_closed p) (udp_created p) (add64 1 (udp_reused p)) (udp_shut p))
       | [] => match dialed with
               | None => (Err ErrDialFailed, p)
               | Some c => (Ok c, mkUDPPool (udp_max p) [] (udp_closed p) (add64 1 (udp_created p)) (udp_reused p) (udp_shut p))
               end
       end.

Definition udp_Put (c : Z) (p : UDPConnectionPool) : UDPConnectionPool :=
  if udp_closed p || (udp_max p <=? Z.of_nat (length (udp_connections p)))
  then mkUDPPool (udp_max p) (udp_connections p) (udp_closed p) (udp_created p) (udp_reused p) (udp_shut p ++ [c])
  else mkUDPPool (udp_max p) (udp_connections p ++ [c]) (udp_closed p) (udp_created p) (udp_reused p) (udp_shut p).

Definition udp_Close (p : UDPConnectionPool) : UDPConnectionPool :=
  mkUDPPool (udp_max p) [] true (udp_created p) (udp_reused p) (udp_shut p ++ udp_connections p).

(** ** Where connections are *)

Definition content (ch : chan) : list PooledConnection := match ch with Full c => [c] | _ => [] end.
Definition in_chans (m : gmap nat chan) : list PooledConnection := map_to_list m ≫= fun x => content x.2.
Definition pool_conns (p : ConnectionPool) : list PooledConnection := connections p ++ shut p ++ in_chans (chans p).
Definition outside (s : sys) : list PooledConnection := reusing s ++ clients s ++ returning s ++ forced s ++ lost s.

Lemma in_chans_lookup m w ch : m !! w = Some ch -> in_chans m ≡ₚ content ch ++ in_chans (delete w m).
Proof. intros Hw. unfold in_chans. rewrite <- (map_to_list_delete m w ch Hw) at 1. done. Qed.

Lemma in_chans_insert m w ch : in_chans (<[w := ch]> m) ≡ₚ content ch ++ in_chans (delete w m).
Proof. rewrite (in_chans_lookup _ w ch) by apply lookup_insert_eq. by rewrite delete_insert_eq. Qed.

Lemma in_chans_set m w ch ch' : m !! w = Some ch -> content ch = [] -> in_chans (<[w := ch']> m) ≡ₚ content ch' ++ in_chans m.
Proof. intros Hw Hc. rewrite in_chans_insert, (in_chans_lookup m w ch Hw), Hc. done. Qed.

Lemma left_behind_conns w p : in_chans (chans p) ≡ₚ left_behind w p ++ in_chans (delete w (chans p)).
Proof.
  unfold left_behind. destruct (chans p !! w) as [ch|] eqn:E; [|by rewrite delete_id].
  rewrite (in_chans_lookup _ _ _ E). by destruct ch.
Qed.

(** Every queued caller has an empty channel, and closed connections are counted. *)
Record pool_ok (p : ConnectionPool) : Prop := {
  pool_closed_count : totalClosed p = wraps 64 (Z.of_nat (length (shut p)));
  pool_waiters : NoDup (waiters p) /\ forall w, w ∈ waiters p -> chans p !! w = Some Empty;
  pool_fresh : forall w, (nextWaiter p <= w)%nat -> chans p !! w = None /\ (w ∉ waiters p) }.

(** A change of the pool that creates no connection: [inn] come in, [out] go out. *)
Record quiet (inn out : list PooledConnection) (p p' : ConnectionPool) : Prop := {
  quiet_next : nextID p' = nextID p; quiet_created : totalCreated p' = totalCreated p;
  quiet_active : currentActive p' = currentActive p; quiet_config : pool_config p' = pool_config p;
  quiet_ok : pool_ok p -> pool_ok p' /\ pool_conns p' ++ out ≡ₚ pool_conns p ++ inn }.

Lemma quiet_refl p : quiet [] [] p p.
Proof. by split. Qed.

Lemma quiet_trans i1 o1 i2 o2 p q r : quiet i1 o1 p q -> quiet i2 o2 q r -> quiet (i1 ++ i2) (o1 ++ o2) p r.
Proof.
  intros [A2 A3 A4 A5 A6] [B2 B3 B4 B5 B6]. split; [congruence..|]. intros Hok. destruct (A6 Hok) as [Hq A1]. destruct (B6 Hq) as [Hr B1]. split; [done|].
  transitivity ((pool_conns r ++ o2) ++ o1); [solve_Permutation|]. rewrite B1. transitivity ((pool_conns q ++ o1) ++ i2); [solve_Permutation|]. rewrite A1. solve_Permutation.
Qed.

Lemma quiet_cancel x inn out inn' out' p p' : quiet inn out p p' -> inn ≡ₚ x ++ inn' -> out ≡ₚ x ++ out' -> quiet inn' out' p p'.
Proof.
  intros [A2 A3 A4 A5 A6] Hi Ho. split; [done..|]. intros Hok. destruct (A6 Hok) as [Hq A1]. split; [done|]. apply (Permutation_app_inv_l x).
  transitivity (pool_conns p' ++ out); [rewrite Ho; solve_Permutation|]. rewrite A1, Hi. solve_Permutation.
Qed.

Lemma quiet_close_conn c p : quiet [c] [] p (close_conn c p).
Proof.
  split; try done. intros [P1 P2 P3]. split.
  - split; [|done..]. cbn. rewrite P1. unfold add64. rewrite wraps_add_l, length_app by lia. cbn. f_equal. lia.
  - unfold pool_conns, close_conn. cbn. solve_Permutation.
Qed.

Lemma quiet_connections l p : quiet l (connections p) p (p <| connections := l |>).
Proof. split; try done. intros [P1 P2 P3]. split; [by split|]. unfold pool_conns. cbn. solve_Permutation. Qed.

(** One more idle connection. *)
Lemma quiet_idle c p : quiet [c] [] p (p <| connections ::= fun l => l ++ [c] |>).
Proof. split; try done. intros [P1 P2 P3]. split; [by split|]. unfold pool_conns. cbn. solve_Permutation. Qed.

Lemma quiet_close_all l : forall p, quiet l [] p (foldl (fun p c => close_conn c p) p l).
Proof.
  induction l as [|c l IH]; intros p; [apply quiet_refl|]. cbn [foldl]. apply (quiet_trans [c] [] l [] _ (close_conn c p)); [apply quiet_close_conn|apply IH].
Qed.

Lemma quiet_take_idle now l : forall p, connections p = rev l ->
  quiet [] (match (take_idle now l p).1 with Some c => [c] | None => [] end) p (take_idle now l p).2.
Proof.
  induction l as [|c l IH]; intros p Hc; cbn [take_idle].
  { cbn. pose proof (quiet_connections [] p) as Hq. by rewrite Hc in Hq. }
  assert (Hone : quiet [] [c] p (p <| connections := rev l |>)).
  { apply (quiet_cancel (rev l) (rev l) (rev l ++ [c])); [|by rewrite app_nil_r|done]. pose proof (quiet_connections (rev l) p) as Hq. by rewrite Hc in Hq. }
  destruct (isConnectionValid _ _ _); [done|]. specialize (IH (close_conn c (p <| connections := rev l |>)) eq_refl).
  pose proof (quiet_trans _ _ _ _ _ _ _ (quiet_trans _ _ _ _ _ _ _ Hone (quiet_close_conn c _)) IH) as Hq.
  eapply (quiet_cancel [c]); [exact Hq|done|]. cbn. done.
Qed.

Lemma quiet_wait p : quiet [] [] p (p <| waiters ::= fun l => l ++ [nextWaiter p] |> <| chans ::= <[nextWaiter p := Empty]> |> <| nextWaiter ::= S |>).
Proof.
  split; try done. intros [P1 [P2 P2'] P3]. destruct (P3 (nextWaiter p)) as [E1 E2]; [lia|]. split.
  - split; [done|split|]; cbn.
    + apply NoDup_app. split; [done|]. split; [|apply NoDup_singleton]. by intros x Hx ->%list_elem_of_singleton.
    + intros w [Hw| ->%list_elem_of_singleton]%elem_of_app; [|apply lookup_insert_eq]. rewrite lookup_insert_ne; [by apply P2'|by intros <-].
    + intros w Hw. rewrite lookup_insert_ne by lia. destruct (P3 w) as [F1 F2]; [lia|]. split; [done|]. rewrite elem_of_app, list_elem_of_singleton. intros [?| ->]; [done|lia].
  - unfold pool_conns. cbn. rewrite in_chans_insert, delete_id by done. done.
Qed.

Lemma quiet_get now p : quiet [] (match (get_locked now p).1 with GReuse c => [c] | _ => [] end) p (get_locked now p).2.
Proof.
  unfold get_locked. destruct (pool_closed p); [apply quiet_refl|].
  pose proof (quiet_take_idle now (rev (connections p)) p ltac:(by rewrite rev_involutive)) as Hq.
  destruct (take_idle now (rev (connections p)) p) as [[c|] q]; cbn [fst snd] in Hq; [done|].
  destruct (_ <? _); [done|]. destruct (_ =? _); [done|]. cbn [fst snd]. apply (quiet_trans [] [] [] [] _ q); [done|apply quiet_wait].
Qed.

Lemma quiet_put now c p : quiet [c] [] p (put_locked now c p).
Proof.
  unfold put_locked. destruct (pool_closed p); [apply quiet_close_conn|]. destruct (negb _); [apply quiet_close_conn|].
  destruct (waiters p) as [|w ws] eqn:Ew.
  { destruct (_ <=? _); [apply quiet_close_conn|apply quiet_idle]. }
  split; try done. intros [P1 [P2 P2'] P3]. rewrite Ew in P2, P2'. apply NoDup_cons in P2 as [Hn P2].
  pose proof (P2' w (list_elem_of_here _ _)) as Hw. split.
  - split; [done|split|]; cbn.
    + done.
    + intros v Hv. rewrite lookup_insert_ne by (by intros ->). apply P2'. by apply list_elem_of_further.
    + intros v Hv. destruct (P3 v) as [F1 F2]; [done|]. rewrite Ew in F2. apply not_elem_of_cons in F2 as [? ?]. by rewrite lookup_insert_ne.
  - unfold pool_conns. cbn. rewrite (in_chans_set _ w Empty (Full c) Hw eq_refl). cbn. solve_Permutation.
Qed.

Lemma quiet_sweep now l : forall p, quiet l [] p (sweep_idle now l p).
Proof.
  induction l as [|c l IH]; intros p; [apply quiet_refl|]. cbn [sweep_idle].
  destruct (isConnectionValid _ _ _); (eapply (quiet_trans [c] [] l []); [|apply IH]); [apply quiet_idle|apply quiet_close_conn].
Qed.

Lemma in_chans_close ws : forall m, (forall w, w ∈ ws -> exists ch, m !! w = Some ch /\ content ch = []) ->
  in_chans (foldr (fun w m => <[w := ClosedChan]> m) m ws) ≡ₚ in_chans m /\ dom (foldr (fun w m => <[w := ClosedChan]> m) m ws) = dom m.
Proof.
  induction ws as [|w ws IH]; intros m Hm; [done|]. cbn [foldr]. destruct (IH m) as [I1 I2]; [intros v Hv; apply Hm; by apply list_elem_of_further|].
  destruct (Hm w (list_elem_of_here _ _)) as (ch & Hw & Hc).
  assert (exists ch', foldr (fun w m => <[w := ClosedChan]> m) m ws !! w = Some ch' /\ content ch' = []) as (ch' & Hw' & Hc').
  { clear I1 I2 IH Hm. induction ws as [|v ws IH]; [by exists ch|]. cbn [foldr]. destruct (decide (v = w)) as [->|]; [exists ClosedChan; by rewrite lookup_insert_eq|by rewrite lookup_insert_ne]. }
  rewrite (in_chans_set _ w ch' ClosedChan Hw' Hc'). split; [done|]. rewrite dom_insert_L, I2. apply elem_of_dom_2 in Hw. clear - Hw. set_solver.
Qed.

Lemma quiet_stop p : quiet [] [] p (stop_locked p).
Proof.
  unfold stop_locked. destruct (pool_closed p); [apply quiet_refl|]. pose proof (quiet_close_all (connections p) p) as [Q1 Q2 Q3 Q4 Q5].
  assert (Hf : forall l q, let q' := foldl (fun p c => close_conn c p) q l in connections q' = connections q /\ waiters q' = waiters q /\ chans q' = chans q /\ nextWaiter q' = nextWaiter q)
    by (intros l; induction l as [|c l IH]; intros q; [done|apply (IH (close_conn c q))]).
  destruct (Hf (connections p) p) as (E1 & E2 & E3 & E4). cbv zeta in *. set (q := foldl _ p (connections p)) in *. clearbody q. split; [done..|].
  intros Hok. destruct (Q5 Hok) as [[P1 [P2 P2'] P3] Hp]. rewrite app_nil_r in Hp. destruct (in_chans_close (waiters p) (chans q)) as [C1 C2].
  { rewrite <- E2. intros w Hw. exists Empty. by rewrite P2'. } split.
  - split; [done|split|]; cbn.
    + apply NoDup_nil_2.
    + by intros w ?%not_elem_of_nil.
    + intros w Hw. split; [|apply not_elem_of_nil]. apply not_elem_of_dom. rewrite C2. apply not_elem_of_dom, P3, Hw.
  - unfold pool_conns in *. cbn. rewrite C1. rewrite E1 in Hp. apply (Permutation_app_inv_l (connections p)).
    transitivity (connections p ++ shut q ++ in_chans (chans q)); [solve_Permutation|]. rewrite Hp. solve_Permutation.
Qed.

(** ** The invariant of all callers together *)

Definition id_of (n : nat) : Z := wraps 64 (Z.of_nat n).
Definition all_ids (s : sys) : list Z := map conn_id (pool_conns (sys_pool s) ++ outside s).

(** [n] connections have been created, and every one of them is in one place. *)
Record sys_ok (n : nat) (s : sys) : Prop := {
  sys_ids : all_ids s ≡ₚ map id_of (seq 1 n);
  sys_next : nextID (sys_pool s) = id_of n; sys_created : totalCreated (sys_pool s) = id_of n;
  sys_active : currentActive (sys_pool s) = wraps 64 (Z.of_nat (length (clients s) + length (forced s)));
  sys_pool_ok : pool_ok (sys_pool s) }.

Lemma init_sys_ok cfg : sys_ok 0 (init_sys cfg).
Proof.
  split; [done..|]. split; [done|split; [apply NoDup_nil_2|by intros w ?%not_elem_of_nil]|]. intros w _. split; [apply lookup_empty|apply not_elem_of_nil].
Qed.

(** A step in which connections only change their places. *)
Lemma sys_ok_quiet n s s' inn out : sys_ok n s -> quiet inn out (sys_pool s) (sys_pool s') ->
  map conn_id (inn ++ outside s') ≡ₚ map conn_id (out ++ outside s) ->
  length (clients s') = length (clients s) -> length (forced s') = length (forced s) -> sys_ok n s'.
Proof.
  intros [S1 S2 S3 S4 S5] [Q1 Q2 Q3 Q4 Q5] Hids Hc Hf. destruct (Q5 S5) as [Hok Hp]. split; [|congruence|congruence|by rewrite Q3, S4, Hc, Hf|done].
  rewrite <- S1. unfold all_ids. apply (Permutation_app_inv_l (map conn_id (out ++ inn))).
  apply (Permutation_map conn_id) in Hp. rewrite !map_app in *.
  transitivity ((map conn_id (pool_conns (sys_pool s')) ++ map conn_id out) ++ (map conn_id inn ++ map conn_id (outside s'))); [solve_Permutation|].
  rewrite Hp, Hids. solve_Permutation.
Qed.

(** A change of the counts only. *)
Lemma sys_ok_counts n s s' f : sys_ok n s -> sys_pool s' = f (sys_pool s) ->
  (forall p, pool_conns (f p) = pool_conns p /\ nextID (f p) = nextID p /\ totalCreated (f p) = totalCreated p /\ (pool_ok p -> pool_ok (f p))) ->
  map conn_id (outside s') ≡ₚ map conn_id (outside s) ->
  currentActive (sys_pool s') = wraps 64 (Z.of_nat (length (clients s') + length (forced s'))) -> sys_ok n s'.
Proof.
  intros [S1 S2 S3 S4 S5] Hp Hf Hids Ha. destruct (Hf (sys_pool s)) as (F1 & F2 & F3 & F4). split; rewrite ?Hp; [|congruence..|by rewrite <- Hp|by apply F4].
  rewrite <- S1. unfold all_ids. rewrite Hp, F1, !map_app. by rewrite Hids.
Qed.

Lemma id_of_S n : add64 1 (id_of n) = id_of (S n).
Proof. unfold add64, id_of. rewrite wraps_add_l by lia. f_equal. lia. Qed.

(** A connection is created and put somewhere; [f] is the rest of the change. *)
Lemma sys_ok_create n s s' now f : sys_ok n s -> let '(c, p) := createConnection now (sys_pool s) in
  sys_pool s' = f p ->
  nextID (f p) = nextID p -> totalCreated (f p) = totalCreated p -> pool_ok (f p) ->
  pool_conns (f p) ++ outside s' ≡ₚ c :: pool_conns p ++ outside s ->
  currentActive (f p) = wraps 64 (Z.of_nat (length (clients s') + length (forced s'))) -> sys_ok (S n) s'.
Proof.
  intros [S1 S2 S3 S4 S5]. unfold createConnection. cbv zeta beta. intros Hp Hn Hc Hok Hids Ha. split; rewrite ?Hp; [|by rewrite Hn; cbn; rewrite S2, id_of_S|by rewrite Hc; cbn; rewrite S3, id_of_S|done|done].
  unfold all_ids in *. rewrite Hp, Hids. rewrite seq_S, (map_app id_of), <- S1. cbn [map conn_id]. rewrite <- Permutation_cons_append. by rewrite S2, id_of_S.
Qed.

Lemma create_idle_ok now k : forall dials n s, sys_ok n s -> exists n', sys_ok n' (s <| sys_pool ::= create_idle now k dials |>).
Proof.
  induction k as [|k IH]; intros dials n s Hs; [by exists n; destruct s|]. destruct dials as [|[] dials]; [by exists n; destruct s| |by exists n; destruct s].
  destruct (IH dials (S n) (s <| sys_pool := (createConnection now (sys_pool s)).2 <| connections ::= fun l => l ++ [(createConnection now (sys_pool s)).1] |> |>)) as [n' Hn'];
    [|exists n'; exact Hn'].
  eapply (sys_ok_create n s _ now (fun p => p <| connections ::= fun l => l ++ [(createConnection now (sys_pool s)).1] |>) Hs); try done.
  - destruct (sys_pool_ok n s Hs). by split.
  - unfold pool_conns, outside. cbn. solve_Permutation.
  - apply (sys_active n s Hs).
Qed.

Lemma quiet_refill now p : quiet [] [] p (sweep_idle now (connections p) (p <| connections := [] |>)).
Proof.
  apply (quiet_cancel (connections p) ([] ++ connections p) (connections p ++ [])); [|by rewrite app_nil_r|done].
  apply (quiet_trans _ _ _ _ _ (p <| connections := [] |>)); [apply quiet_connections|apply quiet_sweep].
Qed.

Lemma ids_middle (l1 l2 : list PooledConnection) c c' : conn_id c = conn_id c' -> map conn_id (l1 ++ c :: l2) ≡ₚ conn_id c' :: map conn_id (l1 ++ l2).
Proof. intros E. rewrite !map_app. cbn. rewrite E. solve_Permutation. Qed.

Lemma length_middle {A} (l1 l2 : list A) x : length (l1 ++ x :: l2) = S (length (l1 ++ l2)).
Proof. rewrite !length_app. cbn. lia. Qed.

Lemma wraps_S k : add64 1 (wraps 64 (Z.of_nat k)) = wraps 64 (Z.of_nat (S k)).
Proof. apply id_of_S. Qed.

Lemma wraps_pred k : add64 (-1) (wraps 64 (Z.of_nat (S k))) = wraps 64 (Z.of_nat k).
Proof. unfold add64. rewrite wraps_add_l by lia. f_equal. lia. Qed.

Lemma get_lock_ok n s now : sys_ok n s -> sys_ok n (got (get_locked now (sys_pool s)) s).
Proof.
  intros Hs. pose proof (quiet_get now (sys_pool s)) as Hq. unfold got. destruct (get_locked now (sys_pool s)) as [[c| |w|e] p]; cbn [fst snd] in *;
    (eapply sys_ok_quiet; [exact Hs|exact Hq| |done|done]); unfold outside; cbn; rewrite ?map_app; cbn; solve_Permutation.
Qed.

(** A connection that is counted as active again; [out] left the pool for it. *)
Lemma reuse_ok n s s' q c out : sys_ok n s -> quiet [] out (sys_pool s) q -> sys_pool s' = (reuse c q).2 ->
  map conn_id (outside s') ≡ₚ map conn_id (out ++ outside s) ->
  length (clients s') = S (length (clients s)) -> forced s' = forced s -> sys_ok n s'.
Proof.
  intros Hs Hq Hp Hids Hc Hf. assert (sys_ok n (s <| sys_pool := q |> <| lost ::= fun l => l ++ out |>)) as [S1 S2 S3 S4 S5].
  { eapply sys_ok_quiet; [exact Hs|exact Hq| |done|done]. unfold outside. cbn. rewrite ?map_app. solve_Permutation. }
  cbn in *. split; rewrite ?Hp; cbn; [|done|done| |].
  - rewrite <- S1. unfold all_ids. cbn. rewrite Hp, !(map_app _ (pool_conns _)), Hids. unfold outside, pool_conns. cbn. rewrite !map_app. solve_Permutation.
  - rewrite S4, Hc, Hf. apply wraps_S.
  - by destruct S5.
Qed.

Lemma pool_ok_delete w p : pool_ok p -> (w ∉ waiters p) -> pool_ok (p <| chans ::= delete w |>).
Proof.
  intros [P1 [P2 P2'] P3] Hw. split; [done|split|]; cbn; [done| |].
  - intros v Hv. rewrite lookup_delete_ne; [by apply P2'|by intros ->].
  - intros v Hv. destruct (P3 v Hv) as [E1 E2]. split; [|done]. rewrite lookup_delete_None. by right.
Qed.

Lemma quiet_received w c p waited : chans p !! w = Some (Full c) -> quiet [] [c] p (p <| chans ::= delete w |> <| totalWaitTime ::= add64 waited |>).
Proof.
  intros Hw. split; try done. intros Hok. assert (Hn : w ∉ waiters p) by (intros Hn; rewrite (proj2 (pool_waiters p Hok) w Hn) in Hw; done).
  split; [by destruct (pool_ok_delete w p Hok Hn)|]. unfold pool_conns. cbn. rewrite (in_chans_lookup _ _ _ Hw). cbn. solve_Permutation.
Qed.

Lemma quiet_cancelled w p waited : chans p !! w = Some ClosedChan -> quiet [] [] p (p <| chans ::= delete w |> <| totalWaitTime ::= add64 waited |>).
Proof.
  intros Hw. split; try done. intros Hok. assert (Hn : w ∉ waiters p) by (intros Hn; rewrite (proj2 (pool_waiters p Hok) w Hn) in Hw; done).
  split; [by destruct (pool_ok_delete w p Hok Hn)|]. unfold pool_conns. cbn. rewrite (in_chans_lookup _ _ _ Hw). cbn. solve_Permutation.
Qed.

Lemma quiet_leave w p : quiet [] (left_behind w p) p (remove_waiter w p <| chans ::= delete w |>).
Proof.
  split; try done. intros [P1 [P2 P2'] P3]. split.
  - apply (pool_ok_delete w (remove_waiter w p)).
    + split; [done|split|]; cbn; [by apply NoDup_filter| |].
      * intros v [_ Hv]%list_elem_of_filter. by apply P2'.
      * intros v Hv. destruct (P3 v Hv) as [E1 E2]. split; [done|]. rewrite list_elem_of_filter. by intros [].
    + cbn. rewrite list_elem_of_filter. by intros [? _].
  - unfold pool_conns. cbn. rewrite (left_behind_conns w p). solve_Permutation.
Qed.

Lemma start_one_ok n s now : sys_ok n s -> sys_ok (S n) (start_one now s).
Proof.
  intros Hs. eapply (sys_ok_create n s _ now (fun p => p <| connections ::= fun l => l ++ [(createConnection now (sys_pool s)).1] |>) Hs); try done.
  - destruct (sys_pool_ok n s Hs). by split.
  - unfold pool_conns, outside. cbn. solve_Permutation.
  - apply (sys_active n s Hs).
Qed.

Lemma conn_step_ok n s s' : pool_step s s' -> sys_ok n s -> exists n', sys_ok n' s'.
Proof.
  intros Hstep Hs. destruct Hstep as [s now|s l1 c l2 E|s k now E|s k E|s l1 w l2 c waited E Hw|s l1 w l2 waited E Hw|s l1 w l2 E|s l1 w l2 E|s l1 c l2 now E|s l1 c l2 now E|s l1 c l2 E|s now dials|s].
  - exists n. by apply get_lock_ok.
  - exists n. eapply (reuse_ok n s _ (sys_pool s) c [] Hs (quiet_refl _)); try done.
    + unfold outside. rewrite E. cbn. rewrite !map_app. cbn. solve_Permutation.
    + cbn. rewrite length_app. cbn. lia.
  - exists (S n). eapply (sys_ok_create n s _ now (fun p => p <| currentActive ::= add64 1 |>) Hs); try done.
    + destruct (sys_pool_ok n s Hs). by split.
    + unfold pool_conns, outside. cbn. solve_Permutation.
    + cbn. rewrite (sys_active n s Hs), wraps_S, length_app. do 2 f_equal. cbn. lia.
  - exists n. by destruct Hs.
  - exists n. eapply (reuse_ok n s _ _ c [c] Hs (quiet_received w c _ waited Hw)); try done.
    + unfold outside. cbn. rewrite !map_app. cbn. solve_Permutation.
    + cbn. rewrite length_app. cbn. lia.
  - exists n. eapply (sys_ok_quiet n s _ [] [] Hs); [exact (quiet_cancelled w _ waited Hw)|done..].
  - exists n. by destruct Hs.
  - exists n. eapply (sys_ok_quiet n s _ [] _ Hs); [exact (quiet_leave w _)| |done..]. unfold outside. cbn. rewrite !map_app. solve_Permutation.
  - exists n. eapply (sys_ok_counts n s _ (fun p => p <| currentActive ::= add64 (-1) |>) Hs); [done| | |].
    + intros p. split_and!; try done. by intros [].
    + unfold outside. rewrite E. cbn. rewrite !map_app. cbn. solve_Permutation.
    + cbn. rewrite (sys_active n s Hs), E, length_middle. apply wraps_pred.
  - exists n. eapply (sys_ok_quiet n s _ [c] [] Hs); [exact (quiet_put now c _)| |done..]. unfold outside. rewrite E. cbn. rewrite !map_app. cbn. solve_Permutation.
  - exists n. eapply (sys_ok_counts n s _ id Hs); [done|done| |].
    + unfold outside. rewrite E. cbn. rewrite !map_app. cbn. solve_Permutation.
    + cbn. rewrite (sys_active n s Hs), E, length_middle, (length_app (forced s)). do 2 f_equal. cbn. lia.
  - change (exists n', sys_ok n' (s <| sys_pool := healthCheck now dials (sys_pool s) |>)). unfold healthCheck. destruct (pool_closed (sys_pool s)).
    { exists n. eapply (sys_ok_quiet n s _ [] [] Hs); [apply quiet_refl|done..]. }
    set (q := sweep_idle now (connections (sys_pool s)) (sys_pool s <| connections := [] |>)).
    assert (Hq : sys_ok n (s <| sys_pool := q |>)) by (eapply (sys_ok_quiet n s _ [] [] Hs); [apply quiet_refill|done..]).
    destruct (create_idle_ok now (Z.to_nat (MinSize (pool_config q) - Z.of_nat (length (connections q)) - currentActive q)) dials n _ Hq) as [n' Hn']. exists n'. exact Hn'.
  - exists n. eapply (sys_ok_quiet n s _ [] [] Hs); [apply quiet_stop|done..].
Qed.

Lemma reachable_sys cfg s : rtc any_step (init_sys cfg) s -> exists n, sys_ok n s.
Proof.
  intros Hr. apply (rtc_ind_r (fun s => exists n, sys_ok n s) (init_sys cfg)) in Hr; [done|exists O; apply init_sys_ok|].
  intros y z _ [[now ->]|Hs] [n Hn]; [exists (S n); by apply start_one_ok|by eapply conn_step_ok].
Qed.

(** ** Guarantees *)

Lemma id_of_small n : (Z.of_nat n < 2 ^ 63) -> id_of n = Z.of_nat n.
Proof. intros Hn. apply wraps_id; [lia|]. unfold is_s. lia. Qed.

(** C8: every connection is in exactly one place. In every interleaving of
    callers, health checks and shutdown no connection is with two callers or
    both idle and in use; the pool's counts of created, closed and active
    connections are exact, where a connection closed by force counts as active
    for ever. *)
Theorem connections_conserved cfg s : rtc any_step (init_sys cfg) s -> Z.of_nat (length (all_ids s)) < 2 ^ 63 ->
  NoDup (all_ids s) /\ totalCreated (sys_pool s) = Z.of_nat (length (all_ids s)) /\
  totalClosed (sys_pool s) = Z.of_nat (length (shut (sys_pool s))) /\
  currentActive (sys_pool s) = Z.of_nat (length (clients s) + length (forced s)).
Proof.
  intros [n [S1 S2 S3 S4 S5]]%reachable_sys Hl. assert (En : length (all_ids s) = n) by (rewrite S1, length_map, length_seq; done). rewrite En in *.
  assert (Hin : (length (shut (sys_pool s)) <= n /\ length (clients s) + length (forced s) <= n)%nat).
  { rewrite <- En. unfold all_ids, pool_conns, outside. rewrite length_map, !length_app. lia. }
  split_and!.
  - rewrite S1. apply NoDup_fmap_2_strong; [|apply NoDup_seq]. intros x y Hx%elem_of_seq Hy%elem_of_seq. rewrite !id_of_small by lia. lia.
  - rewrite S3. by apply id_of_small.
  - rewrite (pool_closed_count _ S5). apply id_of_small. lia.
  - rewrite S4. apply id_of_small. lia.
Qed.

(** *** The limit *)

(** [i] callers are dialling and [j] have a connection of the pool's first ones. *)
Definition dialed_conns (j : nat) : list PooledConnection := map (fun n => mkConn 0 0 0 (id_of n)) (seq 1 j).
Definition crowd (cfg : ConnectionPoolConfig) (i j : nat) (gone : list PooledConnection) (here : list PooledConnection) : sys :=
  mkSys (mkConnPool cfg [] [] ∅ 0 false (id_of j) 0 0 0 (id_of j) (id_of j) []) i [] [] [] here [] gone [].

Lemma crowd_get cfg i gone here : 0 < MaxSize cfg -> pool_step (crowd cfg i 0 gone here) (crowd cfg (S i) 0 gone here).
Proof.
  intros Hm. pose proof (get_lock (crowd cfg i 0 gone here) 0) as Hg. unfold got, get_locked in Hg. cbn -[Z.ltb] in Hg.
  rewrite (proj2 (Z.ltb_lt _ _)) in Hg by done. exact Hg.
Qed.

Lemma crowd_dialed cfg i j gone : pool_step (crowd cfg (S i) j gone (dialed_conns j)) (crowd cfg i (S j) gone (dialed_conns (S j))).
Proof.
  pose proof (get_dialed (crowd cfg (S i) j gone (dialed_conns j)) i 0 eq_refl) as Hd. unfold createConnection in Hd.
  unfold dialed_conns at 2. rewrite seq_S, map_app. cbn [map]. change (1 + j)%nat with (S j). unfold crowd. rewrite <- id_of_S. exact Hd.
Qed.

Lemma crowd_run cfg k : 0 < MaxSize cfg -> rtc pool_step (init_sys (Some cfg)) (crowd cfg 0 k [] (dialed_conns k)).
Proof.
  intros Hm. assert (Hg : forall i, rtc pool_step (init_sys (Some cfg)) (crowd cfg i 0 [] [])).
  { induction i as [|i IH]; [apply rtc_refl|]. eapply rtc_r; [exact IH|by apply crowd_get]. }
  assert (Hd : forall j i, rtc pool_step (crowd cfg (j + i) 0 [] []) (crowd cfg i j [] (dialed_conns j))).
  { induction j as [|j IH]; intros i; [apply rtc_refl|]. eapply rtc_r; [|apply crowd_dialed]. replace (S j + i)%nat with (j + S i)%nat by lia. apply IH. }
  etransitivity; [apply (Hg k)|]. specialize (Hd k O). by rewrite Nat.add_0_r in Hd.
Qed.

(** MaxSize is not a limit: the count is read before the dial and raised
    after it, so any number of callers that come together all get a connection. *)
Theorem max_size_not_enforced cfg k : 0 < MaxSize cfg ->
  Z.of_nat k < 2 ^ 63 -> exists s, rtc any_step (init_sys (Some cfg)) s /\ length (clients s) = k /\ NoDup (map conn_id (clients s)).
Proof.
  intros Hm Hk. exists (crowd cfg 0 k [] (dialed_conns k)). split_and!.
  - apply (rtc_subrel pool_step); [intros x y Hs; by right|by apply crowd_run].
  - cbn. unfold dialed_conns. by rewrite length_map, length_seq.
  - cbn. unfold dialed_conns. rewrite map_map. apply NoDup_fmap_2_strong; [|apply NoDup_seq]. intros x y Hx%elem_of_seq Hy%elem_of_seq. cbn. rewrite !id_of_small by lia. lia.
Qed.

(** *** Connections closed by force *)

(** Nothing is in use or idle, and the count says the pool is full. *)
Record dead (s : sys) : Prop := {
  dead_clients : clients s = []; dead_returning : returning s = []; dead_reusing : reusing s = []; dead_dialing : dialing s = O;
  dead_idle : connections (sys_pool s) = []; dead_chans : forall w c, chans (sys_pool s) !! w <> Some (Full c);
  dead_full : MaxSize (pool_config (sys_pool s)) <= currentActive (sys_pool s); dead_min : MinSize (pool_config (sys_pool s)) <= MaxSize (pool_config (sys_pool s)) }.

Lemma dead_step s s' : pool_step s s' -> dead s -> dead s'.
Proof.
  intros Hstep [D1 D2 D3 D4 D5 D6 D7 D8].
  destruct Hstep as [s now|s l1 c l2 E|s k now E|s k E|s l1 w l2 c waited E Hw|s l1 w l2 waited E Hw|s l1 w l2 E|s l1 w l2 E|s l1 c l2 now E|s l1 c l2 now E|s l1 c l2 E|s now dials|s].
  - unfold got, get_locked. destruct (pool_closed (sys_pool s)) eqn:Ec; [by split|]. rewrite D5. cbn [rev take_idle].
    change (currentActive (sys_pool s <| connections := [] |>)) with (currentActive (sys_pool s)).
    change (pool_config (sys_pool s <| connections := [] |>)) with (pool_config (sys_pool s)). rewrite (proj2 (Z.ltb_ge _ _)) by done.
    destruct (_ =? _); (split; cbn; try done). intros w c. destruct (decide (nextWaiter (sys_pool s) = w)) as [<-|]; [by rewrite lookup_insert_eq|by rewrite lookup_insert_ne].
  - rewrite D3 in E. by destruct l1.
  - congruence.
  - congruence.
  - by destruct (D6 w c).
  - split; cbn; try done. intros v c. rewrite lookup_delete_Some. by intros [_ ?%D6].
  - by split.
  - split; cbn; try done. intros v c. rewrite lookup_delete_Some. by intros [_ ?%D6].
  - rewrite D1 in E. by destruct l1.
  - rewrite D2 in E. by destruct l1.
  - rewrite D1 in E. by destruct l1.
  - assert (Hh : healthCheck now dials (sys_pool s) = sys_pool s <| connections := [] |> \/ healthCheck now dials (sys_pool s) = sys_pool s).
    { unfold healthCheck. destruct (pool_closed _); [by right|left]. rewrite D5. cbn [sweep_idle].
      replace (Z.to_nat _) with O; [by destruct dials as [|[]]|]. cbn. lia. }
    assert (Hp : dead (s <| sys_pool := healthCheck now dials (sys_pool s) |>)) by (destruct Hh as [-> | ->]; by split). exact Hp.
  - assert (Hp : dead (s <| sys_pool := stop_locked (sys_pool s) |>)); [|exact Hp]. unfold stop_locked. rewrite D5. destruct (pool_closed (sys_pool s)); [by split|]. split; cbn; try done.
    intros w c. induction (waiters (sys_pool s)) as [|v ws IH]; [apply D6|]. cbn [foldr]. destruct (decide (v = w)) as [->|]; [by rewrite lookup_insert_eq|by rewrite lookup_insert_ne].
Qed.

(** Connections that are closed by force use the pool up: their callers are
    never counted out, so after [MaxSize] of them no caller of [Get] will ever
    have a connection again, whatever anyone does. *)
Theorem forced_closes_exhaust cfg : 0 < MaxSize cfg < 2 ^ 63 -> MinSize cfg <= MaxSize cfg ->
  exists s, rtc any_step (init_sys (Some cfg)) s /\ length (forced s) = Z.to_nat (MaxSize cfg) /\ forall s', rtc pool_step s s' -> clients s' = [].
Proof.
  intros Hm Hmin. set (k := Z.to_nat (MaxSize cfg)). exists (crowd cfg 0 k (dialed_conns k) []). split_and!.
  - apply (rtc_subrel pool_step); [intros x y Hs; by right|]. etransitivity; [apply (crowd_run cfg k); lia|].
    assert (Hf : forall here gone, rtc pool_step (crowd cfg 0 k gone here) (crowd cfg 0 k (gone ++ here) [])).
    { induction here as [|c here IH]; intros gone; [rewrite app_nil_r; apply rtc_refl|]. eapply rtc_l; [apply (force_close (crowd cfg 0 k gone (c :: here)) [] c here eq_refl)|].
      specialize (IH (gone ++ [c])). rewrite <- app_assoc in IH. exact IH. }
    apply (Hf (dialed_conns k) []).
  - cbn. unfold dialed_conns. by rewrite length_map, length_seq.
  - intros s' Hr. assert (dead s') as []; [|done]. assert (Hd : dead (crowd cfg 0 k (dialed_conns k) [])).
    { split; cbn; try done. rewrite id_of_small by lia. lia. }
    clear -Hr Hd. induction Hr as [|x y z Hs _ IH]; [done|]. apply IH. by eapply dead_step.
Qed.

(** *** Callers that stop waiting *)

Lemma lost_stays c s s' : rtc any_step s s' -> c ∈ lost s -> c ∈ lost s'.
Proof.
  induction 1 as [|x y z Hs _ IH]; [done|]. intros Hc. apply IH. destruct Hs as [[now ->]|Hs]; [done|].
  destruct Hs; try done; cbn; [|rewrite elem_of_app; by left]. unfold got. by destruct (get_locked now (sys_pool s)) as [[] ?].
Qed.

Lemma fresh_valid cfg id : isConnectionValid 0 cfg (mkConn 0 0 0 id) = true.
Proof.
  unfold isConnectionValid. cbn [createdAt lastUsedAt]. change (Time_Sub 0 0) with 0. rewrite !Z.gtb_ltb.
  destruct (Z.ltb_spec 0 (MaxLifetime cfg)), (Z.ltb_spec (MaxLifetime cfg) 0), (Z.ltb_spec 0 (MaxIdleTime cfg)), (Z.ltb_spec (MaxIdleTime cfg) 0); done || lia.
Qed.

(** A caller whose timeout and connection come together loses the
    connection: it is taken out of the caller's channel by nobody, is neither
    idle nor closed nor in use, and stays so for ever. *)
Theorem timeout_race_leaks cfg : MaxSize cfg = 1 -> WaitTimeout cfg <> 0 ->
  exists s c, rtc any_step (init_sys (Some cfg)) s /\ clients s = [] /\ connections (sys_pool s) = [] /\ shut (sys_pool s) = [] /\
    totalCreated (sys_pool s) = 1 /\ forall s', rtc any_step s s' -> c ∈ lost s'.
Proof.
  intros Hm Hw. set (c := mkConn 0 0 0 (id_of 1)).
  set (p ws chs n := mkConnPool cfg [] ws chs 1 false (id_of 1) 0 0 0 n (id_of 1) []).
  exists (mkSys (p [] ∅ (id_of 0)) 0 [] [] [] [] [] [] [c]), c. split; [|split_and!; try done; intros s' Hr; by apply (lost_stays _ _ _ Hr), list_elem_of_here].
  apply (rtc_subrel pool_step); [intros x y Hs; by right|]. etransitivity; [apply (crowd_run cfg 1); lia|].
  eapply (rtc_l _ _ (mkSys (p [0%nat] {[ 0%nat := Empty ]} (id_of 1)) 0 [] [0%nat] [] [c] [] [] [])).
  { pose proof (get_lock (crowd cfg 0 1 [] (dialed_conns 1)) 0) as Hg. unfold got, get_locked in Hg. cbn -[Z.ltb Z.eqb] in Hg.
    rewrite (proj2 (Z.ltb_ge _ _)) in Hg by (rewrite Hm; done). rewrite (proj2 (Z.eqb_neq _ _)) in Hg by done. exact Hg. }
  eapply rtc_l; [match goal with |- pool_step ?s _ => exact (get_timeout s [] 0 [] eq_refl) end|].
  eapply rtc_l; [match goal with |- pool_step ?s _ => exact (close_count s [] c [] 0 eq_refl) end|].
  eapply (rtc_l _ _ (mkSys (p [] {[ 0%nat := Full c ]} (id_of 0)) 0 [] [] [0%nat] [] [] [] [])).
  { assert (E : put_locked 0 c (p [0%nat] {[ 0%nat := Empty ]} (id_of 0)) = p [] {[ 0%nat := Full c ]} (id_of 0)) by (unfold put_locked, p; cbn [pool_closed pool_config waiters]; unfold c at 1; rewrite fresh_valid; done).
    rewrite <- E. match goal with |- pool_step ?s _ => exact (close_put s [] (touch 0 c) [] 0 eq_refl) end. }
  apply rtc_once. match goal with |- pool_step ?s _ => exact (get_leave s [] 0 [] eq_refl) end.
Qed.

(** ** UDP connections: nothing is lost *)

Inductive udp_op := UGet (dialed : option Z) | UPut (i : nat) | UClose.

(** The pool, what has been dialled and what is in use. *)
Definition udp_run (o : udp_op) (s : UDPConnectionPool * list Z * list Z) : UDPConnectionPool * list Z * list Z :=
  let '(p, dialed, used) := s in
  match o with
  | UGet d =>
      match udp_Get d p with
      | (Ok c, p') => (p', match udp_connections p with [] => dialed ++ [c] | _ => dialed end, used ++ [c])
      | (_, p') => (p', dialed, used)
      end
  | UPut i => match used !! i with Some c => (udp_Put c p, dialed, delete i used) | None => s end
  | UClose => (udp_Close p, dialed, used)
  end.

(** A UDP connection that was dialled is idle, in use by one caller or closed,
    over any sequence of operations; at most [MaxSize] are idle, and none once the
    pool is closed. *)
Theorem udp_conserved cfg ops :
  let '(p, dialed, used) := foldl (fun s o => udp_run o s) (NewUDPConnectionPool cfg, [], []) ops in
  dialed ≡ₚ udp_connections p ++ used ++ udp_shut p /\ Z.of_nat (length (udp_connections p)) <= Z.max 0 (MaxSize (default DefaultConnectionPoolConfig cfg)) /\
  (udp_closed p = true -> udp_connections p = []).
Proof.
  set (m := MaxSize _).
  assert (Hgen : forall ops s, (let '(p, dialed, used) := s in udp_max p = m /\ dialed ≡ₚ udp_connections p ++ used ++ udp_shut p /\
    Z.of_nat (length (udp_connections p)) <= Z.max 0 m /\ (udp_closed p = true -> udp_connections p = [])) ->
    let '(p, dialed, used) := foldl (fun s o => udp_run o s) s ops in
    dialed ≡ₚ udp_connections p ++ used ++ udp_shut p /\ Z.of_nat (length (udp_connections p)) <= Z.max 0 m /\ (udp_closed p = true -> udp_connections p = [])).
  2: { apply Hgen. split; [done|]. split; [done|]. split; [cbn; lia|done]. }
  clear ops. induction ops as [|o ops IH]; intros [[p dialed] used] (Hm & Hd & Hl & Hc); [done|]. cbn [foldl]. apply IH. clear IH.
  destruct o as [d|i|]; cbn [udp_run].
  - unfold udp_Get. destruct (udp_closed p) eqn:Ec; [by rewrite Ec|]. destruct (rev (udp_connections p)) as [|c l] eqn:Er.
    + assert (udp_connections p = []) as E0 by (rewrite <- (rev_involutive (udp_connections p)), Er; done). rewrite E0 in *.
      destruct d as [c|]; cbn; [|rewrite Ec, E0; by split_and!]. split_and!; [done| |done|done]. rewrite Hd. cbn. solve_Permutation.
    + assert (udp_connections p = rev l ++ [c]) as E0 by (rewrite <- (rev_involutive (udp_connections p)), Er; done). rewrite E0 in *. cbn. rewrite length_app in Hl. cbn in Hl.
      split_and!; [done| |lia|congruence]. assert (match rev l ++ [c] with [] => dialed ++ [c] | _ => dialed end = dialed) as -> by (by destruct (rev l)). rewrite Hd. solve_Permutation.
  - destruct (used !! i) as [c|] eqn:Ei; [|done]. pose proof (delete_Permutation used i c Ei) as Hp. unfold udp_Put. rewrite Hm. destruct (udp_closed p) eqn:Ec; cbn [orb].
    + cbn. split_and!; [done| |done|done]. rewrite Hd, Hp at 1. solve_Permutation.
    + destruct (Z.leb_spec m (Z.of_nat (length (udp_connections p)))); cbn; rewrite ?Ec.
      * split_and!; [done| |done|done]. rewrite Hd, Hp at 1. solve_Permutation.
      * split_and!; [done| |rewrite length_app; cbn; lia|done]. rewrite Hd, Hp at 1. solve_Permutation.
  - cbn. split_and!; [done| |lia|done]. rewrite Hd. solve_Permutation.
Qed.

(** ** Witnesses *)

Definition one_slot : ConnectionPoolConfig := mkPoolConfig 1 0 0 0 0 1 1.

Lemma connections_conserved_witness : exists s, rtc any_step (init_sys (Some one_slot)) s /\ length (clients s) = 2%nat /\
  NoDup (all_ids s) /\ totalCreated (sys_pool s) = Z.of_nat (length (all_ids s)) /\ totalClosed (sys_pool s) = Z.of_nat (length (shut (sys_pool s))) /\
  currentActive (sys_pool s) = Z.of_nat (length (clients s) + length (forced s)).
Proof.
  exists (crowd one_slot 0 2 [] (dialed_conns 2)).
  assert (Hr : rtc any_step (init_sys (Some one_slot)) (crowd one_slot 0 2 [] (dialed_conns 2))).
  { apply (rtc_subrel pool_step); [intros x y Hs; by right|by apply crowd_run]. }
  split; [exact Hr|]. split; [reflexivity|]. apply (connections_conserved (Some one_slot)); [exact Hr|reflexivity].
Defined.

Lemma max_size_not_enforced_witness : exists s, rtc any_step (init_sys (Some one_slot)) s /\ length (clients s) = 3%nat /\ NoDup (map conn_id (clients s)).
Proof. apply (max_size_not_enforced one_slot 3); reflexivity. Defined.

Lemma forced_closes_exhaust_witness : exists s, rtc any_step (init_sys (Some one_slot)) s /\ length (forced s) = Z.to_nat (MaxSize one_slot) /\
  forall s', rtc pool_step s s' -> clients s' = [].
Proof. apply (forced_closes_exhaust one_slot); cbn; lia. Defined.

Lemma timeout_race_leaks_witness : exists s c, rtc any_step (init_sys (Some one_slot)) s /\ clients s = [] /\ connections (sys_pool s) = [] /\ shut (sys_pool s) = [] /\
  totalCreated (sys_pool s) = 1 /\ forall s', rtc any_step s s' -> c ∈ lost s'.
Proof. apply (timeout_race_leaks one_slot); done. Defined.
