(* ===== verification/IpAddr.v ===== *)
(** * IP addresses

    The parts of Go's net package that the validators and the interface
    selection use: [ParseIP], [ParseCIDR], [To4], [Contains] and the classes of
    addresses. Strings are lists of bytes as [Z] values; an address is the list
    of its 4 or 16 bytes, as [net.IP] has it, and [ParseIP] gives 16 of them. *)

From Stdlib Require Import ZArith Lia ZifyNat Ascii String.
From stdpp Require Import base numbers list.
From S2P Require Import Prelude Bytes Utf8.

Local Open Scope Z_scope.

Definition digit (c : Z) : bool := between 48 57 c.
Definition chr (c : ascii) : Z := Z.of_N (N_of_ascii c).

(** ** Parsing *)

(** The four fields of a dotted address; [val] and [digits] are those of the
    field being read, [pos] the fields read. *)
Fixpoint v4_fields (s : list Z) (fields : list Z) (val : Z) (digits : nat) : option (list Z) :=
  match s with
  | [] => if (length fields <? 3)%nat || (digits =? 0)%nat then None else Some (fields ++ [val])
  | c :: s =>
      if digit c then
        if (digits =? 1)%nat && (val =? 0) then None
        else let val := val * 10 + (c - 48) in if val >? 255 then None else v4_fields s fields val (S digits)
      else if c =? chr "." then
        if (digits =? 0)%nat || bool_decide (s = []) then None
        else if (length fields =? 3)%nat then None
        else v4_fields s (fields ++ [val]) 0 0
      else None
  end.

Definition parseIPv4 (s : list Z) : option (list Z) := v4_fields s [] 0 0.

Definition hex_digit (c : Z) : option Z :=
  if digit c then Some (c - 48)
  else if between 97 102 c then Some (c - 97 + 10)
  else if between 65 70 c then Some (c - 65 + 10)
  else None.

(** A group of up to four hex digits and what follows it. *)
Fixpoint hex_group (s : list Z) (acc : Z) (off : nat) : option (Z * nat * list Z) :=
  match s with
  | [] => Some (acc, off, [])
  | c :: rest =>
      match hex_digit c with
      | None => Some (acc, off, s)
      | Some d => if (3 <? off)%nat then None else hex_group rest (acc * 16 + d) (S off)
      end
  end.

(** The loop over the groups; [ip] are the bytes so far and [ellipsis] where the
    [::] was. The result has them for the whole string. *)
Fixpoint v6_groups (fuel : nat) (s : list Z) (ip : list Z) (ellipsis : option nat) : option (list Z * option nat) :=
  match fuel with
  | O => if bool_decide (s = []) then Some (ip, ellipsis) else None
  | S fuel =>
      '(acc, off, rest) ← hex_group s 0 0;
      if (off =? 0)%nat then None
      else
        match rest with
        | [] => Some (ip ++ [acc / 256; acc mod 256], ellipsis)
        | c :: rest' =>
            if c =? chr "." then
              if bool_decide (ellipsis = None) && negb (length ip =? 12)%nat then None
              else if (16 <? length ip + 4)%nat then None
              else v4 ← parseIPv4 s; Some (ip ++ v4, ellipsis)
            else if c =? chr ":" then
              let ip := ip ++ [acc / 256; acc mod 256] in
              match rest' with
              | [] => None
              | c2 :: rest2 =>
                  if c2 =? chr ":" then
                    match ellipsis with
                    | Some _ => None
                    | None => if bool_decide (rest2 = []) then Some (ip, Some (length ip)) else v6_groups fuel rest2 ip (Some (length ip))
                    end
                  else v6_groups fuel rest' ip ellipsis
              end
            else None
        end
  end.

(** Eight groups at most: the loop ends at 16 bytes. *)
Definition parseIPv6 (s : list Z) : option (list Z) :=
  let '(s, ellipsis) :=
    match s with
    | c1 :: c2 :: rest => if (c1 =? chr ":") && (c2 =? chr ":") then (rest, Some O) else (s, None)
    | _ => (s, None)
    end in
  if bool_decide (s = []) then match ellipsis with Some _ => Some (replicate 16 0) | None => None end
  else
    '(ip, ellipsis) ← v6_groups 8 s [] ellipsis;
    if (length ip <? 16)%nat then
      e ← ellipsis; Some (take e ip ++ replicate (16 - length ip) 0 ++ drop e ip)
    else match ellipsis with Some _ => None | None => Some ip end.

Definition v4InV6Prefix : list Z := replicate 10 0 ++ [255; 255].

(** Which parser is used depends on the first dot, colon or percent sign. An
    address with a zone is no address here. *)
Fixpoint parse_by (whole s : list Z) : option (list Z) :=
  match s with
  | [] => None
  | c :: s =>
      if c =? chr "." then app v4InV6Prefix <$> parseIPv4 whole
      else if c =? chr ":" then (if bool_decide (chr "%" ∈ whole) then None else parseIPv6 whole)
      else if c =? chr "%" then None
      else parse_by whole s
  end.
Definition ParseIP (s : list Z) : option (list Z) := parse_by s s.

Definition To4 (ip : list Z) : option (list Z) :=
  if (length ip =? 4)%nat then Some ip
  else if (length ip =? 16)%nat && bool_decide (take 12 ip = v4InV6Prefix) then Some (drop 12 ip)
  else None.

(** ** Networks *)

(** [CIDRMask]: the bytes of a mask of [n] ones. *)
Fixpoint mask_bytes (k : nat) (n : nat) : list Z :=
  match k with
  | O => []
  | S k => if (8 <=? n)%nat then 255 :: mask_bytes k (n - 8) else u8 (- 2 ^ (8 - Z.of_nat n)) :: mask_bytes k 0
  end.

Record IPNet := mkIPNet { net_ip : list Z; net_mask : list Z }.

Definition and_bytes (a b : list Z) : list Z := zip_with Z.land a b.

(** A decimal number of at most three digits, as far as ParseCIDR needs it. *)
Fixpoint dec_number (s : list Z) (acc : Z) : option Z :=
  match s with
  | [] => Some acc
  | c :: s => if digit c then let n := acc * 10 + (c - 48) in if n >=? 0xFFFFFF then None else dec_number s n else None
  end.

Fixpoint split_slash (s : list Z) : option (list Z * list Z) :=
  match s with
  | [] => None
  | c :: s => if c =? chr "/" then Some ([], s) else '(a, b) ← split_slash s; Some (c :: a, b)
  end.

(** The network of a CIDR string: an IPv4 one has four bytes. *)
Definition ParseCIDR (s : list Z) : option IPNet :=
  '(addr, mask) ← split_slash s;
  ip ← ParseIP addr;
  n ← (if bool_decide (mask = []) then None else dec_number mask 0);
  let v4 := negb (bool_decide (chr ":" ∈ addr)) in
  let len := if v4 then 4%nat else 16%nat in
  if n >? 8 * Z.of_nat len then None
  else
    let m := mask_bytes len (Z.to_nat n) in
    let ip := if v4 then drop 12 ip else ip in
    Some (mkIPNet (and_bytes ip m) m).

(** [IPNet.Contains]: both as IPv4 if they are, of the same length. *)
Definition Contains (n : IPNet) (ip : list Z) : bool :=
  let x := default ip (To4 ip) in
  let '(nn, m) :=
    match To4 (net_ip n) with
    | Some nn => (nn, if (length (net_mask n) =? 16)%nat then drop 12 (net_mask n) else net_mask n)
    | None => (net_ip n, net_mask n)
    end in
  (length x =? length nn)%nat && (length m =? length nn)%nat && bool_decide (and_bytes nn m = and_bytes x m).

(** ** Classes of addresses *)

Definition IsLoopback (ip : list Z) : bool :=
  match To4 ip with Some v4 => bool_decide (head v4 = Some 127) | None => bool_decide (ip = replicate 15 0 ++ [1]) end.
Definition IsLinkLocalUnicast (ip : list Z) : bool :=
  match To4 ip with
  | Some v4 => bool_decide (take 2 v4 = [169; 254])
  | None => match ip with b0 :: b1 :: _ => (length ip =? 16)%nat && (b0 =? 0xfe) && (Z.land b1 0xc0 =? 0x80) | _ => false end
  end.
Definition IsLinkLocalMulticast (ip : list Z) : bool :=
  match To4 ip with
  | Some v4 => bool_decide (take 3 v4 = [224; 0; 0])
  | None => match ip with b0 :: b1 :: _ => (length ip =? 16)%nat && (b0 =? 0xff) && (Z.land b1 0x0f =? 0x02) | _ => false end
  end.
Definition IsPrivate (ip : list Z) : bool :=
  match To4 ip with
  | Some (b0 :: b1 :: _) => (b0 =? 10) || ((b0 =? 172) && (Z.land b1 0xf0 =? 16)) || ((b0 =? 192) && (b1 =? 168))
  | Some _ => false
  | None => match ip with b0 :: _ => (length ip =? 16)%nat && (Z.land b0 0xfe =? 0xfc) | _ => false end
  end.

Example parse_v4 : ParseIP (string_bytes "192.168.1.20") = Some (v4InV6Prefix ++ [192; 168; 1; 20]).
Proof. reflexivity. Qed.
Example parse_v4_bad : map (fun s => ParseIP (string_bytes s)) ["1.2.3"; "1.2.3.4.5"; "01.2.3.4"; "256.1.1.1"; "1..2.3"; ".1.2.3"; "1.2.3."; "localhost"; ""]%string = replicate 9 None.
Proof. reflexivity. Qed.
Example parse_v6 : ParseIP (string_bytes "2001:db8::ff00:42:8329") = Some [0x20; 1; 0x0d; 0xb8; 0; 0; 0; 0; 0; 0; 0xff; 0; 0; 0x42; 0x83; 0x29].
Proof. reflexivity. Qed.
Example parse_v6_mapped : ParseIP (string_bytes "::ffff:10.0.0.1") = Some (v4InV6Prefix ++ [10; 0; 0; 1]) /\ ParseIP (string_bytes "::") = Some (replicate 16 0).
Proof. split; reflexivity. Qed.
Example parse_v6_bad : map (fun s => ParseIP (string_bytes s)) ["1::2::3"; "12345::"; "1:2:3:4:5:6:7:8:9"; "1:2:3"; "::1%eth0"; ":1"; "1:2:3:4:5:6:7::8"; "1:"]%string = replicate 8 None.
Proof. reflexivity. Qed.
Example parse_cidr : ParseCIDR (string_bytes "172.16.5.4/12") = Some (mkIPNet [172; 16; 0; 0] [255; 240; 0; 0]).
Proof. reflexivity. Qed.

(** ** A network is the addresses with its prefix *)

Definition byte_bits (x : Z) : list bool := map (fun i => Z.testbit x (7 - Z.of_nat i)) (seq 0 8).
Definition ip_bits (ip : list Z) : list bool := ip ≫= byte_bits.

Lemma mask_bit k i : 0 <= k <= 8 -> 0 <= i -> Z.testbit (u8 (- 2 ^ k)) i = (k <=? i) && (i <? 8).
Proof.
  intros Hk Hi. unfold wrapu. destruct (Z.ltb_spec i 8); [|rewrite Z.mod_pow2_bits_high by lia; by rewrite andb_false_r].
  rewrite Z.mod_pow2_bits_low by lia. rewrite Z.bits_opp by done. rewrite <- Z.ones_equiv.
  destruct (Z.leb_spec k i); [rewrite Z.ones_spec_high|rewrite Z.ones_spec_low]; done || lia.
Qed.

Lemma land_mask_eq k x y : 0 <= k <= 8 ->
  Z.land x (u8 (- 2 ^ k)) = Z.land y (u8 (- 2 ^ k)) <-> forall i, k <= i < 8 -> Z.testbit x i = Z.testbit y i.
Proof.
  intros Hk. split.
  - intros E i Hi. apply (f_equal (fun z => Z.testbit z i)) in E. rewrite !Z.land_spec, !mask_bit in E by lia.
    rewrite (proj2 (Z.leb_le _ _)), (proj2 (Z.ltb_lt _ _)) in E by lia. by rewrite !andb_true_r in E.
  - intros Hb. apply Z.bits_inj'. intros i Hi. rewrite !Z.land_spec, !mask_bit by lia. destruct (Z.leb_spec k i), (Z.ltb_spec i 8); cbn [andb]; rewrite ?andb_false_r; try done.
    by rewrite !andb_true_r, Hb by lia.
Qed.

Lemma bits_prefix n x y : (n <= 8)%nat ->
  take n (byte_bits x) = take n (byte_bits y) <-> forall i, 8 - Z.of_nat n <= i < 8 -> Z.testbit x i = Z.testbit y i.
Proof.
  intros Hn. unfold byte_bits. rewrite !firstn_map. replace (take n (seq 0 8)) with (seq 0 n) by (do 9 (destruct n as [|n]; [done|]); lia).
  rewrite map_ext_in_iff. split.
  - intros Hb i Hi. specialize (Hb (Z.to_nat (7 - i))). rewrite Z2Nat.id in Hb by lia. replace (7 - (7 - i)) with i in Hb by lia. apply Hb, in_seq. lia.
  - intros Hb j [_ Hj]%in_seq. apply Hb. lia.
Qed.

Lemma byte_prefix n x y : (n <= 8)%nat ->
  Z.land x (u8 (- 2 ^ (8 - Z.of_nat n))) = Z.land y (u8 (- 2 ^ (8 - Z.of_nat n))) <-> take n (byte_bits x) = take n (byte_bits y).
Proof. intros Hn. rewrite bits_prefix by done. apply land_mask_eq. lia. Qed.

Lemma mask_prefix k : forall n xs ys, length xs = k -> length ys = k ->
  and_bytes xs (mask_bytes k n) = and_bytes ys (mask_bytes k n) <-> take n (ip_bits xs) = take n (ip_bits ys).
Proof.
  induction k as [|k IH]; intros n xs ys Hx Hy; destruct xs as [|x xs], ys as [|y ys]; try done.
  injection Hx as Hx. injection Hy as Hy. unfold ip_bits. cbn [mbind list_bind]. fold (ip_bits xs) (ip_bits ys). cbn [mask_bytes].
  assert (L : forall z, length (byte_bits z) = 8%nat) by (intros; done). destruct (Nat.leb_spec 8 n) as [Hn|Hn]; unfold and_bytes; cbn [zip_with].
  - pose proof (byte_prefix 8 x y ltac:(lia)) as H8. change (u8 (- 2 ^ (8 - Z.of_nat 8))) with 255 in H8. rewrite !take_ge in H8 by (rewrite L; lia).
    rewrite !take_app, !L, !(take_ge (byte_bits _)) by (rewrite L; lia). fold (and_bytes xs (mask_bytes k (n - 8))) (and_bytes ys (mask_bytes k (n - 8))).
    split; [intros [= E1 E2]|intros [E1 E2]%app_inj_1; [|done]]; [f_equal; [by apply H8|by apply IH]|f_equal; [by apply H8|by apply IH]].
  - rewrite !take_app, !L. replace (n - 8)%nat with 0%nat by lia. rewrite !app_nil_r. rewrite <- (byte_prefix n x y) by lia.
    split; [by intros [= E1 E2]|]. intros E. f_equal; [done|]. by apply (IH 0%nat xs ys).
Qed.

(** A network given by an address and a number of bits contains an IPv4 address
    exactly when the two agree in that many bits. *)
Lemma Contains_v4 a n ip : length a = 4%nat -> length ip = 4%nat ->
  Contains (mkIPNet (and_bytes a (mask_bytes 4 n)) (mask_bytes 4 n)) ip = bool_decide (take n (ip_bits a) = take n (ip_bits ip)).
Proof.
  intros Ha Hip. assert (Hm : forall k n, length (mask_bytes k n) = k).
  { induction k as [|k IH]; intros m; [done|]. cbn [mask_bytes]. destruct (8 <=? m)%nat; cbn; f_equal; apply IH. }
  assert (Hl : length (and_bytes a (mask_bytes 4 n)) = 4%nat) by (unfold and_bytes; rewrite length_zip_with, Ha, Hm; done).
  unfold Contains, To4. cbn [net_ip net_mask]. rewrite Hl, Hip, Hm. cbn [Nat.eqb default from_option id]. rewrite ?Hl, ?Hip, ?Hm. cbn [Nat.eqb andb].
  apply bool_decide_ext. rewrite <- (mask_prefix 4 n a ip) by done.
  assert (Hi : forall l m : list Z, and_bytes (and_bytes l m) m = and_bytes l m).
  { unfold and_bytes. induction l as [|x l IH]; intros [|z m]; try done. cbn. rewrite <- Z.land_assoc, Z.land_diag. f_equal. apply IH. }
  by rewrite Hi.
Qed.
