(* ===== verification/Interfaces.v ===== *)
(** * Interface and address selection

    Models src/internal/interface_selector.go, which picks the interface media
    of a call uses, and the selection of src/internal/ipv6_support.go between
    address families. Interface names are ASCII; an address is the list of its
    bytes, as in [IpAddr]. A walk of the table of interfaces takes its order as an
    argument. Opening sockets, asking the host for its addresses and the
    formatting of SDP lines are left out. *)

From Stdlib Require Import ZArith Lia Ascii String.
From stdpp Require Import base numbers list gmap strings.
From S2P Require Import Prelude Bytes Utf8 IpAddr.

Local Open Scope Z_scope.
Local Open Scope go_scope.

(** ** interface_selector.go *)

Record InterfaceInfo := mkInterface { if_Name : string; LocalAddress : string; AdvertiseAddr : string; if_Port : Z; LocalAddrs : list string; IsInternal : bool }.
Record PeerRule := mkPeerRule { Network : IPNet; Interface : string }.

(** The fields of the configuration it reads. *)
Record NetworkInterfaceConfig := mkNetworkInterface { cfg_Name : string; cfg_Address : string; cfg_AdvertiseAddr : string; cfg_Port : Z }.
Record IntegrationConfig := mkIntegration { MediaIP : string; PublicIP : string; cfg_Interfaces : gmap string NetworkInterfaceConfig }.

Record InterfaceSelector := mkSelector { interfaces : gmap string InterfaceInfo; defaultIface : string; internalNets : list IPNet; externalNets : list IPNet; peerRules : list PeerRule }.
#[export] Instance set_interfaces : Setter interfaces := fun f r =>
  mkSelector (f (interfaces r)) (defaultIface r) (internalNets r) (externalNets r) (peerRules r).
#[export] Instance set_defaultIface : Setter defaultIface := fun f r =>
  mkSelector (interfaces r) (f (defaultIface r)) (internalNets r) (externalNets r) (peerRules r).
#[export] Instance set_internalNets : Setter internalNets := fun f r =>
  mkSelector (interfaces r) (defaultIface r) (f (internalNets r)) (externalNets r) (peerRules r).
#[export] Instance set_peerRules : Setter peerRules := fun f r =>
  mkSelector (interfaces r) (defaultIface r) (internalNets r) (externalNets r) (f (peerRules r)).

Definition lower (c : ascii) : ascii := let n := N_of_ascii c in if (65 <=? n)%N && (n <=? 90)%N then ascii_of_N (n + 32) else c.
Fixpoint ToLower (s : string) : string := match s with EmptyString => EmptyString | String c s => String (lower c) (ToLower s) end.
Fixpoint Contains_string (sub s : string) : bool :=
  String.prefix sub s || match s with EmptyString => false | String _ s => Contains_string sub s end.

Definition configured (name : string) (c : NetworkInterfaceConfig) : InterfaceInfo :=
  mkInterface name (cfg_Address c) (cfg_AdvertiseAddr c) (cfg_Port c) [] (Contains_string "internal" (ToLower name)).

Definition internalCIDRs : list string := ["10.0.0.0/8"; "172.16.0.0/12"; "192.168.0.0/16"; "127.0.0.0/8"; "fc00::/7"; "fe80::/10"]%string.

Definition NewInterfaceSelector (config : IntegrationConfig) : InterfaceSelector :=
  let ifs := map_imap (fun name c => Some (configured name c)) (cfg_Interfaces config) in
  let media := MediaIP config in
  let public := PublicIP config in
  let has_media := negb (bool_decide (media = EmptyString)) in
  let ifs := if has_media then <["default" := mkInterface "default" media public 0 [] false]> ifs else ifs in
  let ifs := if has_media then <["internal" := mkInterface "internal" media media 0 [] true]> ifs else ifs in
  let ifs := if bool_decide (public = EmptyString) then ifs else <["external" := mkInterface "external" media public 0 [] false]> ifs in
  mkSelector ifs (if has_media then "default" else EmptyString) (omap (fun c => ParseCIDR (string_bytes c)) internalCIDRs) [] [].

Definition isInternal (ip : list Z) (s : InterfaceSelector) : bool := existsb (fun n => Contains n ip) (internalNets s).

(** The interface of the first rule that matches the peer and names a known one. *)
Fixpoint match_rules (peer : list Z) (rules : list PeerRule) (s : InterfaceSelector) : option InterfaceInfo :=
  match rules with
  | [] => None
  | r :: rules =>
      if Contains (Network r) peer then
        match interfaces s !! Interface r with Some i => Some i | None => match_rules peer rules s end
      else match_rules peer rules s
  end.

(** [order] is the order the table is walked in, [peerAddr] is [None] for nil. *)
Definition SelectInterface (order : list string) (interfaceName : string) (direction : list string) (peerAddr : option (list Z)) (s : InterfaceSelector) : option InterfaceInfo :=
  match (if bool_decide (interfaceName = EmptyString) then None else interfaces s !! interfaceName) with
  | Some i => Some i
  | None =>
      match (match peerAddr with Some p => match_rules p (peerRules s) s | None => None end) with
      | Some i => Some i
      | None =>
          match (match direction with _ :: toDir :: _ => interfaces s !! toDir | [d] => interfaces s !! d | [] => None end) with
          | Some i => Some i
          | None =>
              match (match peerAddr with
                     | Some p => interfaces s !! (if isInternal p s then "internal" else "external")%string
                     | None => None
                     end) with
              | Some i => Some i
              | None =>
                  match (if bool_decide (defaultIface s = EmptyString) then None else interfaces s !! defaultIface s) with
                  | Some i => Some i
                  | None => head (omap (fun n => interfaces s !! n) order)
                  end
              end
          end
      end
  end.

Definition GetAdvertiseAddress (order : list string) (interfaceName : string) (peerAddr : option (list Z)) (s : InterfaceSelector) : string :=
  match SelectInterface order interfaceName [] peerAddr s with
  | None => EmptyString
  | Some i => if bool_decide (AdvertiseAddr i = EmptyString) then LocalAddress i else AdvertiseAddr i
  end.

Definition GetLocalAddress (interfaceName : string) (s : InterfaceSelector) : string :=
  match (if bool_decide (interfaceName = EmptyString) then None else interfaces s !! interfaceName) with
  | Some i => LocalAddress i
  | None =>
      match (if bool_decide (defaultIface s = EmptyString) then None else interfaces s !! defaultIface s) with
      | Some i => LocalAddress i
      | None => EmptyString
      end
  end.

Definition AddInterface (name : string) (i : InterfaceInfo) (s : InterfaceSelector) : InterfaceSelector :=
  s <| interfaces ::= <[name := mkInterface name (LocalAddress i) (AdvertiseAddr i) (if_Port i) (LocalAddrs i) (IsInternal i)]> |>.

(** [None] is the error of a string that is no network. *)
Definition AddPeerRule (cidr interfaceName : string) (s : InterfaceSelector) : option InterfaceSelector :=
  n ← ParseCIDR (string_bytes cidr); Some (s <| peerRules ::= fun l => l ++ [mkPeerRule n interfaceName] |>).
Definition AddInternalNetwork (cidr : string) (s : InterfaceSelector) : option InterfaceSelector :=
  n ← ParseCIDR (string_bytes cidr); Some (s <| internalNets ::= fun l => l ++ [n] |>).
Definition SetDefaultInterface (name : string) (s : InterfaceSelector) : InterfaceSelector := s <| defaultIface := name |>.

Definition ResolveDirections (directions : list string) : string * string :=
  match directions with
  | [] => (EmptyString, EmptyString)
  | [d] => (d, d)
  | d1 :: d2 :: _ => (d1, d2)
  end.

(** The choice of AutoDetectLocalIP among the host's addresses, if it has one:
    the first public IPv4 address, or else the first private one. *)
Fixpoint detect (addrs : list (list Z)) (fallback : option (list Z)) : option (list Z) :=
  match addrs with
  | [] => fallback
  | ip :: addrs =>
      if IsLoopback ip || IsLinkLocalUnicast ip || IsLinkLocalMulticast ip then detect addrs fallback
      else
        match To4 ip with
        | None => detect addrs fallback
        | Some v4 => if IsPrivate ip then detect addrs (Some (default v4 fallback)) else Some v4
        end
  end.
Definition AutoDetectLocalIP (addrs : list (list Z)) : list Z := default [127; 0; 0; 1] (detect addrs None).

(** ** ipv6_support.go *)

Definition is_v4 (ip : list Z) : bool := bool_decide (is_Some (To4 ip)).

Inductive AddressFamily := AddressFamilyIPv4 | AddressFamilyIPv6 | AddressFamilyAny.

Record IPAddressSelector := mkAddressSelector { ipv4Addresses : list (list Z); ipv6Addresses : list (list Z); preferIPv6 : bool }.

Definition discover_one (s : IPAddressSelector) (ip : list Z) : IPAddressSelector :=
  if IsLoopback ip || IsLinkLocalUnicast ip || IsLinkLocalMulticast ip then s
  else match To4 ip with
       | Some ip4 => mkAddressSelector (ipv4Addresses s ++ [ip4]) (ipv6Addresses s) (preferIPv6 s)
       | None => if (length ip =? 16)%nat then mkAddressSelector (ipv4Addresses s) (ipv6Addresses s ++ [ip]) (preferIPv6 s) else s
       end.
Definition NewIPAddressSelector (addrs : list (list Z)) : IPAddressSelector := foldl discover_one (mkAddressSelector [] [] false) addrs.

Definition SelectAddress (family : AddressFamily) (peer : option (list Z)) (s : IPAddressSelector) : option (list Z) :=
  let family := match peer with Some p => if is_v4 p then AddressFamilyIPv4 else AddressFamilyIPv6 | None => family end in
  match family with
  | AddressFamilyIPv4 => head (ipv4Addresses s)
  | AddressFamilyIPv6 => head (ipv6Addresses s)
  | AddressFamilyAny =>
      match (if preferIPv6 s then head (ipv6Addresses s) else None) with
      | Some ip => Some ip
      | None => match head (ipv4Addresses s) with Some ip => Some ip | None => head (ipv6Addresses s) end
      end
  end.

Definition AddAddress (ip : list Z) (s : IPAddressSelector) : IPAddressSelector :=
  match To4 ip with
  | Some ip4 => mkAddressSelector (ipv4Addresses s ++ [ip4]) (ipv6Addresses s) (preferIPv6 s)
  | None => mkAddressSelector (ipv4Addresses s) (ipv6Addresses s ++ [ip]) (preferIPv6 s)
  end.
Definition SetPreferIPv6 (prefer : bool) (s : IPAddressSelector) : IPAddressSelector := mkAddressSelector (ipv4Addresses s) (ipv6Addresses s) prefer.
Definition IsDualStack (s : IPAddressSelector) : bool := (0 <? length (ipv4Addresses s))%nat && (0 <? length (ipv6Addresses s))%nat.

Definition ParseAddressFamily (family : string) : AddressFamily :=
  let f := ToLower family in
  if bool_decide (f ∈ ["inet"; "ipv4"; "ip4"]%string) then AddressFamilyIPv4
  else if bool_decide (f ∈ ["inet6"; "ipv6"; "ip6"]%string) then AddressFamilyIPv6
  else AddressFamilyAny.

Definition FormatSDPAddressType (ip : list Z) : string := if is_v4 ip then "IP4" else "IP6".

Definition IsIPv4MappedIPv6 (ip : list Z) : bool :=
  match To4 ip with
  | Some _ =>
      if (length ip =? 16)%nat
      then forallb (fun b => b =? 0) (take 10 ip) && bool_decide (ip !! 10%nat = Some 255) && bool_decide (ip !! 11%nat = Some 255)
      else false
  | None => false
  end.

Definition ToCanonicalIP (ip : list Z) : list Z := default ip (To4 ip).
Definition CompareAddressFamily (ip1 ip2 : list Z) : bool := Bool.eqb (is_v4 ip1) (is_v4 ip2).

(** The connections of a listener, by their number; [None] is no socket. *)
Record DualStackListener := mkDualStack { ipv4Listener : option Z; ipv6Listener : option Z }.

Definition NewDualStackListener (v4 v6 : option Z) : option DualStackListener :=
  match v4, v6 with None, None => None | _, _ => Some (mkDualStack v4 v6) end.
Definition GetConn (peer : list Z) (ds : DualStackListener) : option Z :=
  match (if is_v4 peer then ipv4Listener ds else ipv6Listener ds) with
  | Some c => Some c
  | None => match ipv4Listener ds with Some c => Some c | None => ipv6Listener ds end
  end.

(** ** Guarantees *)

(** The names that are tried, from the first to the last. *)
Definition choices (order : list string) (interfaceName : string) (direction : list string) (peerAddr : option (list Z)) (s : InterfaceSelector) : list string :=
  (if bool_decide (interfaceName = EmptyString) then [] else [interfaceName]) ++
  match peerAddr with Some p => map Interface (filter (fun r => Contains (Network r) p = true) (peerRules s)) | None => [] end ++
  match direction with [] => [] | _ => [(ResolveDirections direction).2] end ++
  match peerAddr with Some p => [if isInternal p s then "internal"%string else "external"%string] | None => [] end ++
  (if bool_decide (defaultIface s = EmptyString) then [] else [defaultIface s]) ++ order.

Lemma head_omap_app {A B} (f : A -> option B) l1 l2 : head (omap f (l1 ++ l2)) = match head (omap f l1) with Some x => Some x | None => head (omap f l2) end.
Proof. rewrite omap_app. by destruct (omap f l1). Qed.

Lemma match_rules_first p s rules :
  match_rules p rules s = head (omap (fun n => interfaces s !! n) (map Interface (filter (fun r => Contains (Network r) p = true) rules))).
Proof.
  induction rules as [|r rules IH]; [done|]. cbn [match_rules]. rewrite filter_cons. destruct (Contains (Network r) p).
  - rewrite decide_True by done. cbn. destruct (interfaces s !! Interface r); [done|apply IH].
  - rewrite decide_False by done. apply IH.
Qed.

(** The interface is the first known one of a list of names: the name asked
    for, those of the rules that match the peer in their order, the direction
    media goes to, internal or external by the peer's address, the default, and
    then any. So a call has an interface whenever there is one. *)
Theorem SelectInterface_first order name direction peer s :
  SelectInterface order name direction peer s = head (omap (fun n => interfaces s !! n) (choices order name direction peer s)) /\
  ((forall n, is_Some (interfaces s !! n) -> n ∈ order) -> interfaces s <> ∅ -> SelectInterface order name direction peer s <> None).
Proof.
  assert (E : SelectInterface order name direction peer s = head (omap (fun n => interfaces s !! n) (choices order name direction peer s))).
  { unfold SelectInterface, choices. rewrite !head_omap_app.
    repeat match goal with |- match ?u with Some i => Some i | None => _ end = match ?v with Some j => Some j | None => _ end =>
      assert (u = v) as ->; [|destruct v; [done|]] end; try done.
    - case_bool_decide; [done|]. cbn. by destruct (interfaces s !! name).
    - destruct peer; [apply match_rules_first|done].
    - destruct direction as [|d1 [|d2 ?]]; cbn; [done|by destruct (interfaces s !! d1)|by destruct (interfaces s !! d2)].
    - destruct peer as [p|]; [|done]. destruct (isInternal p s); cbn; by destruct (interfaces s !! _).
    - case_bool_decide; [done|]. cbn. by destruct (interfaces s !! defaultIface s). }
  split; [done|]. intros Hord Hne Hn. destruct (map_choose _ Hne) as (n & i & Hi). rewrite E in Hn. apply head_None in Hn.
  assert (Hin : i ∈ omap (fun n => interfaces s !! n) (choices order name direction peer s)); [|rewrite Hn in Hin; by apply not_elem_of_nil in Hin].
  apply list_elem_of_omap. exists n. split; [|done]. unfold choices. rewrite !elem_of_app. do 5 right. apply Hord. by eexists.
Qed.

(** *** The networks taken for internal *)

Definition private_v4 (a b : Z) : bool := (a =? 10) || ((a =? 172) && (16 <=? b) && (b <=? 31)) || ((a =? 192) && (b =? 168)) || (a =? 127).

Lemma land_byte_table b : is_u 8 b -> Z.land b 255 = b /\ Z.land b 0 = 0 /\ (Z.land b 240 =? 16) = (16 <=? b) && (b <=? 31).
Proof.
  intros Hb. split_and!; [by change 255 with (Z.ones 8); rewrite Z.land_ones; [apply Z.mod_small|]|apply Z.land_0_r|].
  assert (Hall : forallb (fun n => Bool.eqb (Z.land (Z.of_nat n) 240 =? 16) ((16 <=? Z.of_nat n) && (Z.of_nat n <=? 31))) (seq 0 256) = true) by (vm_compute; reflexivity).
  rewrite forallb_forall in Hall. specialize (Hall (Z.to_nat b)). rewrite Z2Nat.id in Hall by apply Hb. apply Bool.eqb_prop, Hall, in_seq. unfold is_u in Hb. lia.
Qed.

Definition default_nets : list IPNet :=
  [mkIPNet [10; 0; 0; 0] [255; 0; 0; 0]; mkIPNet [172; 16; 0; 0] [255; 240; 0; 0]; mkIPNet [192; 168; 0; 0] [255; 255; 0; 0]; mkIPNet [127; 0; 0; 0] [255; 0; 0; 0];
   mkIPNet (252 :: replicate 15 0) (254 :: replicate 15 0); mkIPNet (254 :: 128 :: replicate 14 0) (255 :: 192 :: replicate 14 0)].

Lemma default_nets_eq : omap (fun c => ParseCIDR (string_bytes c)) internalCIDRs = default_nets.
Proof. reflexivity. Qed.

Lemma contains_v4 nn m p v4 : To4 p = Some v4 -> length v4 = 4%nat -> length nn = 4%nat -> length m = 4%nat ->
  Contains (mkIPNet nn m) p = bool_decide (and_bytes nn m = and_bytes v4 m).
Proof.
  intros Hp Hv Hn Hm. unfold Contains. rewrite Hp. cbn [net_ip net_mask default from_option id].
  assert (To4 nn = Some nn) as -> by (unfold To4; by rewrite Hn). rewrite Hm. cbn [Nat.eqb]. by rewrite Hv, Hn, Hm.
Qed.

Lemma contains_v6 nn m p v4 : To4 p = Some v4 -> length v4 = 4%nat -> To4 nn = None -> length nn = 16%nat -> Contains (mkIPNet nn m) p = false.
Proof. intros Hp Hv Hn Hl. unfold Contains. rewrite Hp. cbn [net_ip net_mask default from_option id]. by rewrite Hn, Hv, Hl. Qed.

Lemma internal_v4 p a b c d s : internalNets s = default_nets -> To4 p = Some [a; b; c; d] -> is_u 8 a -> is_u 8 b ->
  isInternal p s = private_v4 a b.
Proof.
  intros Hs Hp Ha Hb. unfold isInternal. rewrite Hs. unfold default_nets. cbn [existsb].
  rewrite !(contains_v4 _ _ p _ Hp), !(contains_v6 _ _ p _ Hp) by done. unfold private_v4, and_bytes. cbn [zip_with].
  destruct (land_byte_table a Ha) as (A1 & _ & _). destruct (land_byte_table b Hb) as (B1 & _ & B3). rewrite A1, B1, !Z.land_0_r, <- !andb_assoc, <- B3, !orb_false_r. change (Z.land 10 255) with 10.
  change (Z.land 172 255) with 172. change (Z.land 16 240) with 16. change (Z.land 192 255) with 192. change (Z.land 168 255) with 168. change (Z.land 127 255) with 127.
  assert (Hl : forall x y z w : Z, bool_decide ([x; y; 0; 0] = [z; w; 0; 0]) = (z =? x) && (w =? y)).
  { intros. case_bool_decide as E; [injection E as -> ->; by rewrite !Z.eqb_refl|]. destruct (Z.eqb_spec z x) as [->|], (Z.eqb_spec w y) as [->|]; done. }
  rewrite !Hl. cbn [Z.eqb]. rewrite !andb_true_r, <- !orb_assoc. done.
Qed.

(** Without further rules the side of a peer is decided by its address, and
    exactly so: with a media and a public address configured, a peer in 10/8,
    172.16/12, 192.168/16 or 127/8 is told the media address and every other IPv4
    peer the public one, whatever interfaces are configured besides. *)
Theorem default_routing order ifs media public p a b c d :
  media <> EmptyString -> public <> EmptyString -> To4 p = Some [a; b; c; d] -> is_u 8 a -> is_u 8 b ->
  GetAdvertiseAddress order EmptyString (Some p) (NewInterfaceSelector (mkIntegration media public ifs)) = if private_v4 a b then media else public.
Proof.
  intros Hm Hp Hv Ha Hb. set (s := NewInterfaceSelector _). assert (Hs : isInternal p s = private_v4 a b) by (eapply internal_v4; [apply default_nets_eq|done..]).
  assert (Hi : interfaces s !! "internal"%string = Some (mkInterface "internal" media media 0 [] true) /\
               interfaces s !! "external"%string = Some (mkInterface "external" media public 0 [] false)).
  { unfold s, NewInterfaceSelector. cbn [MediaIP PublicIP cfg_Interfaces interfaces]. rewrite !bool_decide_false by done. cbn [negb].
    split; [rewrite lookup_insert_ne by done|]; apply lookup_insert_eq. }
  destruct Hi as [H1 H2]. unfold GetAdvertiseAddress, SelectInterface. rewrite bool_decide_true by done. change (peerRules s) with (@nil PeerRule). cbn [match_rules]. rewrite Hs.
  destruct (private_v4 a b); [rewrite H1|rewrite H2]; cbn [AdvertiseAddr]; by rewrite bool_decide_false.
Qed.

(** The interfaces named default, internal and external of a configuration
    are never used: the media and public addresses replace them. *)
Theorem reserved_names_ignored media public ifs name c : media <> EmptyString -> public <> EmptyString ->
  name ∈ ["default"; "internal"; "external"]%string ->
  NewInterfaceSelector (mkIntegration media public (<[name := c]> ifs)) = NewInterfaceSelector (mkIntegration media public (delete name ifs)).
Proof.
  intros Hm Hp Hn. unfold NewInterfaceSelector. cbn [MediaIP PublicIP cfg_Interfaces]. rewrite !bool_decide_false by done. cbn [negb]. f_equal. apply map_eq. intros k.
  destruct (decide (k ∈ ["default"; "internal"; "external"]%string)) as [Hk|Hk].
  - rewrite !elem_of_cons in Hk. destruct Hk as [-> |[-> |[-> |Hk]]]; [by rewrite !lookup_insert..|by apply not_elem_of_nil in Hk].
  - assert (k <> name) as Hne by (by intros ->). rewrite !lookup_insert_ne by (intros <-; apply Hk; apply (bool_decide_unpack _); vm_compute; exact I).
    rewrite !map_lookup_imap. by rewrite lookup_insert_ne, lookup_delete_ne.
Qed.

(** *** Families of addresses *)

Record families_ok (s : IPAddressSelector) : Prop := {
  all_v4 : Forall (fun ip => is_v4 ip = true) (ipv4Addresses s); all_v6 : Forall (fun ip => is_v4 ip = false) (ipv6Addresses s) }.

Lemma To4_v4 ip ip4 : To4 ip = Some ip4 -> is_v4 ip4 = true.
Proof.
  intros E. apply bool_decide_eq_true. exists ip4. unfold To4 in *. destruct (Nat.eqb_spec (length ip) 4) as [E4|E4]; [injection E as <-; by rewrite E4|].
  destruct (Nat.eqb_spec (length ip) 16) as [E16|]; cbn [andb] in E; [|done]. destruct (bool_decide _); [|done]. injection E as <-. by rewrite length_drop, E16.
Qed.

Lemma AddAddress_ok ip s : families_ok s -> families_ok (AddAddress ip s).
Proof.
  intros [H4 H6]. unfold AddAddress. destruct (To4 ip) as [ip4|] eqn:E; split; cbn; try done; apply Forall_app_2; try done; apply Forall_singleton.
  - by eapply To4_v4.
  - unfold is_v4. rewrite E. by apply bool_decide_eq_false; intros [].
Qed.

Lemma discover_ok s ip : families_ok s -> families_ok (discover_one s ip).
Proof.
  intros Hs. unfold discover_one. destruct (_ || _); [done|]. pose proof (AddAddress_ok ip s Hs) as Ha. unfold AddAddress in Ha. destruct (To4 ip); [done|]. by destruct (_ =? _)%nat.
Qed.

(** An answer never mixes address families: whatever addresses the host has
    and were added, the address selected for a peer is of the peer's family,
    whatever family was asked for, and there is none only if the host has none of
    that family. *)
Theorem selected_family host added prefer family peer :
  let s := SetPreferIPv6 prefer (foldr AddAddress (NewIPAddressSelector host) added) in
  match SelectAddress family (Some peer) s with
  | Some ip => CompareAddressFamily ip peer = true
  | None => (if is_v4 peer then ipv4Addresses s else ipv6Addresses s) = []
  end.
Proof.
  intros s. assert (Hs : families_ok s).
  { assert (Hn : families_ok (foldr AddAddress (NewIPAddressSelector host) added)).
    - induction added as [|ip added IH]; [|by apply AddAddress_ok]. clear. cbn. unfold NewIPAddressSelector.
      assert (Hg : forall l q, families_ok q -> families_ok (foldl discover_one q l)) by (induction l as [|ip l IH]; intros q Hq; [done|]; by apply IH, discover_ok).
      by apply Hg.
    - destruct Hn. by split. }
  destruct Hs as [H4 H6]. unfold SelectAddress, CompareAddressFamily. destruct (is_v4 peer).
  - destruct (ipv4Addresses s) as [|ip l]; [done|]. cbn. apply Forall_cons in H4 as [-> _]. done.
  - destruct (ipv6Addresses s) as [|ip l]; [done|]. cbn. apply Forall_cons in H6 as [-> _]. done.
Qed.

(** ** Witnesses *)

Lemma SelectInterface_first_witness :
  SelectInterface ["a"; "b"]%string "c" ["x"; "b"]%string None (mkSelector {[ "b" := mkInterface "b" "10.0.0.1" "" 0 [] false ]} "" [] [] [])
    = Some (mkInterface "b" "10.0.0.1" "" 0 [] false) /\
  SelectInterface ["b"]%string "c" [] None (mkSelector {[ "b"%string := mkInterface "b" "10.0.0.1" "" 0 [] false ]} "" [] [] []) <> None.
Proof.
  split; [reflexivity|]. apply (SelectInterface_first ["b"]%string "c" [] None).
  - intros n [i Hi]. cbn [interfaces] in Hi. apply lookup_singleton_Some in Hi as [<- _]. apply list_elem_of_here.
  - apply map_non_empty_singleton.
Defined.

Lemma default_routing_witness :
  GetAdvertiseAddress [] "" (Some [172; 20; 1; 1]) (NewInterfaceSelector (mkIntegration "10.1.1.1" "203.0.113.7" ∅)) = (if private_v4 172 20 then "10.1.1.1" else "203.0.113.7")%string.
Proof. apply (default_routing [] ∅ "10.1.1.1" "203.0.113.7" [172; 20; 1; 1] 172 20 1 1); done. Defined.

Lemma reserved_names_ignored_witness :
  NewInterfaceSelector (mkIntegration "10.1.1.1" "203.0.113.7" (<["internal"%string := mkNetworkInterface "internal" "10.9.9.9" "" 0]> ∅)) =
  NewInterfaceSelector (mkIntegration "10.1.1.1" "203.0.113.7" (delete "internal"%string ∅)).
Proof. apply (reserved_names_ignored "10.1.1.1" "203.0.113.7" ∅ "internal"); [done|done|]. apply (bool_decide_unpack _). vm_compute. exact I. Defined.
