(* ===== verification/InputValidator.v ===== *)
(** * Input validation

    Models src/internal/input_validator.go, the checks of strings that come from
    the network, and the host name check of src/internal/config_validator.go they
    use. Strings are lists of bytes. The patterns of the source are classes of
    ASCII characters, so that a match is a test of every rune. Messages of errors
    are left out: an error is the sentinel it wraps. *)

From Stdlib Require Import ZArith Lia ZifyNat Ascii String.
From stdpp Require Import base numbers list strings.
From S2P Require Import Prelude Bencode Bytes Utf8 NetAddr IpAddr.

Local Open Scope Z_scope.
Local Open Scope go_scope.

Inductive input_error :=
| ErrInputTooLong | ErrInvalidFormat | ErrInvalidIPAddress | ErrInvalidPort | ErrInvalidCallID | ErrInvalidSDP
| ErrControlCharacters | ErrNullBytes | ErrInvalidUTF8 | ErrOther.

(** [None] is nil. *)
Abbreviation error := (option input_error).

Record InputValidatorConfig := mkValidatorConfig { MaxCallIDLength : Z; MaxSDPLength : Z; MaxTagLength : Z; MaxAddressLength : Z }.
Definition DefaultInputValidatorConfig : InputValidatorConfig := mkValidatorConfig 256 65536 128 256.

Record InputValidator := mkValidator { maxCallIDLength : Z; maxSDPLength : Z; maxTagLength : Z; maxAddressLength : Z }.
Definition NewInputValidator (config : option InputValidatorConfig) : InputValidator :=
  let c := default DefaultInputValidatorConfig config in
  mkValidator (MaxCallIDLength c) (MaxSDPLength c) (MaxTagLength c) (MaxAddressLength c).

(** ** Classes of characters *)

Definition alnum (r : Z) : bool := between 97 122 r || between 65 90 r || between 48 57 r.
Definition one_of (s : string) (r : Z) : bool := bool_decide (r ∈ string_bytes s).
Definition callIDPattern (r : Z) : bool := alnum r || one_of "._~:/?#[]@!$&'()*+,;=-" r.
Definition tagPattern (r : Z) : bool := alnum r || one_of "._~-" r.
Definition allowedSDPChars (r : Z) : bool := between 0x20 0x7E r || (r =? 13) || (r =? 10) || (r =? 9).

(** unicode.IsControl *)
Definition IsControl (r : Z) : bool := between 0 0x1F r || between 0x7F 0x9F r.
Definition line_space (r : Z) : bool := (r =? 10) || (r =? 13) || (r =? 9).

(** ** Validation *)

Definition checkBasicSafety (s : list Z) : error :=
  if negb (ValidString s) then Some ErrInvalidUTF8
  else if bool_decide (0 ∈ runes s) then Some ErrNullBytes
  else if existsb (fun r => IsControl r && negb (line_space r)) (runes s) then Some ErrControlCharacters
  else None.

Definition len (s : list Z) : Z := Z.of_nat (length s).

Definition ValidateCallID (callID : list Z) (v : InputValidator) : error :=
  if bool_decide (callID = []) then Some ErrInvalidCallID
  else if len callID >? maxCallIDLength v then Some ErrInputTooLong
  else if checkBasicSafety callID is Some _ then Some ErrInvalidCallID
  else if negb (forallb callIDPattern (runes callID)) then Some ErrInvalidCallID
  else None.

Definition ValidateTag (tag : list Z) (v : InputValidator) : error :=
  if bool_decide (tag = []) then None
  else if len tag >? maxTagLength v then Some ErrInputTooLong
  else match checkBasicSafety tag with
       | Some e => Some e
       | None => if negb (forallb tagPattern (runes tag)) then Some ErrInvalidFormat else None
       end.

(** strings.Split at newlines. *)
Fixpoint split_newlines (s : list Z) : list (list Z) :=
  match s with
  | [] => [[]]
  | c :: s =>
      if c =? 10 then [] :: split_newlines s
      else match split_newlines s with l :: ls => (c :: l) :: ls | [] => [[c]] end
  end.

(** unicode.IsSpace *)
Definition IsSpace (r : Z) : bool :=
  between 9 13 r || bool_decide (r ∈ [0x20; 0x85; 0xA0; 0x1680; 0x2028; 0x2029; 0x202F; 0x205F; 0x3000]) || between 0x2000 0x200A r.

(** The runes of a string with the bytes they are made of. *)
Fixpoint chunks (fuel : nat) (l : list Z) : list (Z * list Z) :=
  match fuel, l with
  | O, _ | _, [] => []
  | S fuel, b :: rest =>
      match decode1 l with
      | Some (r, w) => (r, take w l) :: chunks fuel (drop w l)
      | None => (RuneError, [b]) :: chunks fuel rest
      end
  end.
Fixpoint drop_space (l : list (Z * list Z)) : list (Z * list Z) :=
  match l with
  | (r, bs) :: rest => if IsSpace r then drop_space rest else l
  | [] => []
  end.
Definition TrimSpace (s : list Z) : list Z := rev (drop_space (rev (drop_space (chunks (length s) s)))) ≫= snd.

(** Whether a line of the description gives the field [c]. *)
Definition has_field (c : ascii) (lines : list (list Z)) : bool :=
  existsb (fun line => match TrimSpace line with a :: b :: _ => (a =? chr c) && (b =? chr "=") | _ => false end) lines.

Definition ValidateSDP (sdp : list Z) (v : InputValidator) : error :=
  if bool_decide (sdp = []) then None
  else if len sdp >? maxSDPLength v then Some ErrInputTooLong
  else if checkBasicSafety sdp is Some _ then Some ErrInvalidSDP
  else if negb (forallb allowedSDPChars (runes sdp)) then Some ErrInvalidSDP
  else
    let lines := split_newlines sdp in
    if has_field "v" lines && has_field "o" lines && has_field "s" lines then None else Some ErrInvalidSDP.

Definition ValidateIPAddress (addr : list Z) (v : InputValidator) : error :=
  if bool_decide (addr = []) then Some ErrInvalidIPAddress
  else if len addr >? maxAddressLength v then Some ErrInputTooLong
  else match ParseIP addr with None => Some ErrInvalidIPAddress | Some _ => None end.

Definition ValidatePort (port : Z) : error := if (port <? 1) || (port >? 65535) then Some ErrInvalidPort else None.

(** isValidHostname: labels of letters, digits and inner hyphens. *)
Fixpoint split_dots (s : list Z) : list (list Z) :=
  match s with
  | [] => [[]]
  | c :: s =>
      if c =? chr "." then [] :: split_dots s
      else match split_dots s with l :: ls => (c :: l) :: ls | [] => [[c]] end
  end.
Definition valid_label (l : list Z) : bool :=
  match l, last l with
  | a :: _, Some z => alnum a && alnum z && forallb (fun c => alnum c || (c =? chr "-")) l && (length l <=? 63)%nat
  | _, _ => false
  end.
Definition isValidHostname (hostname : list Z) : bool := (len hostname <=? 253) && forallb valid_label (split_dots hostname).

(** The number fmt.Sscanf reads with [%d]: white space, a sign and digits; what
    follows them is not looked at. *)
Fixpoint scan_digits (s : list Z) (acc : option Z) : option Z :=
  match s with
  | c :: s => if digit c then scan_digits s (Some (default 0 acc * 10 + (c - 48))) else acc
  | [] => acc
  end.
Fixpoint skip_blanks (s : list Z) : option (list Z) :=
  match s with
  | c :: rest => if c =? 10 then None else if IsSpace c then skip_blanks rest else Some s
  | [] => Some []
  end.
Definition Sscanf_d (s : list Z) : option Z :=
  s ← skip_blanks (runes s);
  n ← match s with
      | c :: rest => if c =? chr "-" then Z.opp <$> scan_digits rest None else if c =? chr "+" then scan_digits rest None else scan_digits s None
      | [] => None
      end;
  if bool_decide (is_s 64 n) then Some n else None.

Definition to_ascii (s : list Z) : list ascii := map (fun b => ascii_of_N (Z.to_N b)) s.
Definition of_ascii (s : list ascii) : list Z := map chr s.

Definition ValidateHostPort (hostPort : list Z) : error :=
  if bool_decide (hostPort = []) then Some ErrOther
  else match split_chars (to_ascii hostPort) with
       | None => Some ErrOther
       | Some (host, portStr) =>
           if bool_decide (ParseIP (of_ascii host) = None) && negb (isValidHostname (of_ascii host)) then Some ErrOther
           else match Sscanf_d (of_ascii portStr) with None => Some ErrOther | Some port => ValidatePort port end
       end.

Definition ValidateCodec (codec : list Z) : error :=
  match codec with
  | [] => None
  | c :: rest =>
      if len codec >? 64 then Some ErrInputTooLong
      else if (between 97 122 c || between 65 90 c) && forallb (fun c => alnum c || one_of "/_.-" c) rest then None else Some ErrInvalidFormat
  end.

(** ** Sanitising *)

(** A negative limit panics. *)
Definition truncate (maxLen : Z) (s : list Z) : option (list Z) :=
  if len s >? maxLen then if maxLen <? 0 then None else Some (take (Z.to_nat maxLen) s) else Some s.

Definition SanitizeString (s : list Z) (maxLen : Z) : option (list Z) :=
  s ← truncate maxLen s;
  let s := filter (fun b => b <> 0) s in
  Some (filter (fun r => negb (IsControl r) || line_space r = true) (runes s) ≫= WriteRune).

Definition callid_kept (r : Z) : bool := alnum r || one_of "._-@" r.
Definition SanitizeCallID (callID : list Z) (v : InputValidator) : option (list Z) :=
  truncate (maxCallIDLength v) (filter (fun r => callid_kept r = true) (runes callID) ≫= WriteRune).

(** ** Requests *)

Record RequestValidator := mkRequestValidator { inputValidator : InputValidator; maxRequestSize : Z; maxBodySize : Z }.
Definition NewRequestValidator (maxRequestSize maxBodySize : Z) : RequestValidator := mkRequestValidator (NewInputValidator None) maxRequestSize maxBodySize.

Record NGRequestValidation := mkNGRequestValidation {
  nv_CallID : list Z; nv_FromTag : list Z; nv_ToTag : list Z; nv_SDP : list Z; nv_Command : list Z; nv_Interface : list Z; nv_Address : list Z }.

(** Each part that is there is checked; the errors carry the part's name. *)
Definition check_part (name : string) (part : list Z) (e : error) : list (string * input_error) :=
  if bool_decide (part = []) then [] else match e with Some e => [(name, e)] | None => [] end.
Definition ValidateNGRequest (req : NGRequestValidation) (rv : RequestValidator) : list (string * input_error) :=
  let v := inputValidator rv in
  check_part "call-id" (nv_CallID req) (ValidateCallID (nv_CallID req) v) ++ check_part "from-tag" (nv_FromTag req) (ValidateTag (nv_FromTag req) v) ++
  check_part "to-tag" (nv_ToTag req) (ValidateTag (nv_ToTag req) v) ++ check_part "sdp" (nv_SDP req) (ValidateSDP (nv_SDP req) v) ++
  check_part "address" (nv_Address req) (ValidateIPAddress (nv_Address req) v).

(** ** Descriptions and bencode *)

Record SDPValidator := mkSDPValidator { maxMediaSections : Z; maxAttributeLength : Z; maxCandidates : Z }.
Definition NewSDPValidator : SDPValidator := mkSDPValidator 50 4096 100.

Definition starts (p : string) (l : list Z) : bool := bool_decide (take (String.length p) l = string_bytes p).

Fixpoint sdp_loop (lines : list (list Z)) (media candidates : Z) (v : SDPValidator) : bool :=
  match lines with
  | [] => true
  | line :: lines =>
      let line := TrimSpace line in
      if bool_decide (line = []) then sdp_loop lines media candidates v
      else if len line >? maxAttributeLength v then false
      else
        let media := if starts "m=" line then media + 1 else media in
        if starts "m=" line && (media >? maxMediaSections v) then false
        else
          let candidates := if starts "a=candidate:" line then candidates + 1 else candidates in
          if starts "a=candidate:" line && (candidates >? maxCandidates v) then false
          else sdp_loop lines media candidates v
  end.
Definition sdp_ValidateSDP (sdp : list Z) (v : SDPValidator) : bool := bool_decide (sdp = []) || sdp_loop (split_newlines sdp) 0 0 v.

Record BencodeValidator := mkBencodeValidator { maxDepth : Z; maxStringLen : Z; maxListLen : Z; maxDictKeys : Z }.
Definition NewBencodeValidator : BencodeValidator := mkBencodeValidator 20 (1024 * 1024) 1000 500.

(** The bytes [l], [d] and [e] are counted wherever they are. *)
Fixpoint depth_loop (data : bytes) (depth : Z) (v : BencodeValidator) : bool :=
  match data with
  | [] => true
  | b :: data =>
      if bool_decide (b = "l"%char) || bool_decide (b = "d"%char) then
        if depth + 1 >? maxDepth v then false else depth_loop data (depth + 1) v
      else if bool_decide (b = "e"%char) then depth_loop data (depth - 1) v
      else depth_loop data depth v
  end.
Definition ValidateBencodeDepth (data : bytes) (v : BencodeValidator) : bool := depth_loop data 0 v.

(** ** Guarantees: call ids *)

Lemma one_of_range lo hi str r : Forall (fun c => lo <= c <= hi) (string_bytes str) -> one_of str r = true -> lo <= r <= hi.
Proof. intros Hf Hr%bool_decide_eq_true. by apply (proj1 (Forall_forall _ _) Hf). Qed.

Lemma alnum_range r : alnum r = true -> 0x30 <= r <= 0x7A.
Proof. unfold alnum. intros [[H|H]%orb_true_iff|H]%orb_true_iff; apply between_spec in H; lia. Qed.

Lemma callid_range r : callIDPattern r = true -> 0x21 <= r <= 0x7E.
Proof.
  unfold callIDPattern. intros [H%alnum_range|H]%orb_true_iff; [lia|]. eapply one_of_range; [|exact H]. apply (bool_decide_unpack _). vm_compute. exact I.
Qed.

Lemma safe_printable s : Forall (fun b => 0x20 <= b <= 0x7E) s -> checkBasicSafety s = None /\ runes s = s.
Proof.
  intros Hs. assert (Ha : Forall (fun b => 0 <= b < 0x80) s) by (eapply Forall_impl; [exact Hs|]; cbn; lia). assert (Hr : runes s = s) by (by apply runes_ascii).
  split; [|done]. unfold checkBasicSafety. rewrite valid_ascii, Hr by done. cbn [negb]. rewrite bool_decide_false by (intros H0; apply (proj1 (Forall_forall _ _) Hs) in H0; lia).
  destruct (existsb _ s) eqn:E; [|done]. apply existsb_exists in E as (r & Hin & [Hc _]%andb_true_iff). rewrite Forall_forall in Hs. specialize (Hs r ltac:(by apply list_elem_of_In)).
  unfold IsControl in Hc. apply orb_true_iff in Hc as [H|H]; apply between_spec in H; lia.
Qed.

(** A string whose runes are all in a class of visible ASCII is such a string. *)
Lemma class_bytes (class : Z -> bool) s : (forall r, class r = true -> 0x21 <= r <= 0x7E) -> Forall (is_u 8) s ->
  forallb class (runes s) = true -> Forall (fun b => class b = true) s /\ runes s = s.
Proof.
  intros Hc Hs Hf. rewrite forallb_forall in Hf.
  assert (Ha : Forall (fun b => 0 <= b < 0x80) s).
  { apply runes_ascii_inv; [eapply Forall_impl; [exact Hs|]; unfold is_u; cbn; lia|]. apply Forall_forall. intros r Hr. specialize (Hf r ltac:(by apply list_elem_of_In)). apply Hc in Hf. lia. }
  assert (Hr : runes s = s) by (by apply runes_ascii). split; [|done]. rewrite Hr in Hf. apply Forall_forall. intros b Hb. apply Hf. by apply list_elem_of_In.
Qed.

Lemma callid_accepted s v : s <> [] -> len s <= maxCallIDLength v -> Forall (fun b => callIDPattern b = true) s -> ValidateCallID s v = None.
Proof.
  intros Hn Hl Hf. unfold ValidateCallID. rewrite bool_decide_false by done. rewrite Z.gtb_ltb, (proj2 (Z.ltb_ge _ _)) by done.
  destruct (safe_printable s) as [-> ->]; [eapply Forall_impl; [exact Hf|]; intros b Hb%callid_range; lia|].
  assert (forallb callIDPattern s = true) as ->; [|done]. apply forallb_forall. intros b Hb. rewrite Forall_forall in Hf. apply Hf. by apply list_elem_of_In.
Qed.

(** Which Call-IDs are accepted: the non-empty ones within the length limit
    all of whose bytes are letters, digits or one of the marks of the pattern; the
    other checks refuse nothing more. *)
Theorem ValidateCallID_exact s v : Forall (is_u 8) s ->
  ValidateCallID s v = None <-> s <> [] /\ len s <= maxCallIDLength v /\ Forall (fun b => callIDPattern b = true) s.
Proof.
  intros Hs. split; [|intros (Hn & Hl & Hf); by apply callid_accepted]. unfold ValidateCallID. case_bool_decide as Hn; [done|].
  rewrite Z.gtb_ltb. destruct (Z.ltb_spec (maxCallIDLength v) (len s)); [done|]. destruct (checkBasicSafety s); [done|].
  destruct (forallb callIDPattern (runes s)) eqn:E; [|done]. intros _. split; [done|]. split; [done|]. by apply class_bytes, E; [apply callid_range|].
Qed.

Lemma kept_callid r : callid_kept r = true -> callIDPattern r = true.
Proof.
  unfold callid_kept, callIDPattern. intros [->|H]%orb_true_iff; [done|]. apply orb_true_iff. right. apply bool_decide_eq_true. apply bool_decide_eq_true in H.
  revert H. apply (proj1 (Forall_forall (fun r => r ∈ string_bytes "._~:/?#[]@!$&'()*+,;=-") (string_bytes "._-@"))). apply (bool_decide_unpack _). vm_compute. exact I.
Qed.

Lemma encode_ascii rs : Forall (fun r => 0 <= r < 0x80) rs -> rs ≫= WriteRune = rs.
Proof. induction 1 as [|r rs Hr _ IH]; [done|]. change ((r :: rs) ≫= WriteRune) with (WriteRune r ++ (rs ≫= WriteRune)). by rewrite WriteRune_ascii, IH. Qed.

Lemma truncate_ok n s : 0 <= n -> exists s', truncate n s = Some s' /\ len s' <= Z.max n 0 /\ (forall P, Forall P s -> Forall P s').
Proof.
  intros Hn. unfold truncate, len. rewrite Z.gtb_ltb. destruct (Z.ltb_spec n (Z.of_nat (length s))).
  - rewrite (proj2 (Z.ltb_ge n 0)) by done. eexists. split; [done|]. split; [rewrite length_take; lia|]. intros P. apply Forall_take.
  - exists s. split; [done|]. split; [lia|done].
Qed.

(** Sanitising makes a valid Call-ID of any input: what is left of it, if
    anything is, is accepted. *)
Theorem sanitized_callid_accepted s v : 0 <= maxCallIDLength v ->
  exists s', SanitizeCallID s v = Some s' /\ (s' = [] \/ ValidateCallID s' v = None).
Proof.
  intros Hm. unfold SanitizeCallID. set (rs := filter (fun r => callid_kept r = true) (runes s)).
  assert (Hk : Forall (fun r => callIDPattern r = true) rs).
  { apply Forall_forall. intros r [Hr _]%list_elem_of_filter. by apply kept_callid. }
  rewrite (encode_ascii rs) by (eapply Forall_impl; [exact Hk|]; intros r Hr%callid_range; lia).
  destruct (truncate_ok (maxCallIDLength v) rs Hm) as (s' & -> & Hl & Hp). exists s'. split; [done|]. destruct (decide (s' = [])) as [|Hne]; [by left|right].
  apply callid_accepted; [done|lia|by apply Hp].
Qed.

(** Sanitising merges calls: two different Call-IDs that are both accepted as
    they are become one and the same. *)
Theorem sanitizing_merges v : 3 <= maxCallIDLength v -> exists s1 s2, s1 <> s2 /\ ValidateCallID s1 v = None /\ ValidateCallID s2 v = None /\ SanitizeCallID s1 v = SanitizeCallID s2 v.
Proof.
  intros Hm. exists (string_bytes "a:b"), (string_bytes "ab"). split_and!.
  - done.
  - apply callid_accepted; [done|done|]. apply (bool_decide_unpack _). vm_compute. exact I.
  - apply callid_accepted; [done|unfold len; cbn; lia|]. apply (bool_decide_unpack _). vm_compute. exact I.
  - reflexivity.
Qed.

(** ** Guarantees: sanitised strings *)

Lemma Forall_kept {A} (Q P : A -> Prop) `{forall x, Decision (P x)} (l : list A) : Forall Q l -> Forall Q (filter P l).
Proof. rewrite !Forall_forall. intros HQ x [_ Hx]%list_elem_of_filter. by apply HQ. Qed.

(** A sanitised string is safe whatever it was made of: it is valid UTF-8
    without null bytes and control characters other than line ends and tabs. *)
Theorem sanitized_safe s maxLen : 0 <= maxLen -> Forall (is_u 8) s -> exists s', SanitizeString s maxLen = Some s' /\ checkBasicSafety s' = None.
Proof.
  intros Hm Hs. unfold SanitizeString. destruct (truncate_ok maxLen s Hm) as (t & -> & _ & Hp). cbn [mbind option_bind]. specialize (Hp _ Hs).
  assert (Ht : Forall (is_u 8) (filter (fun b => b <> 0) t)) by (by apply Forall_kept). apply runes_scalar in Ht.
  set (rs := runes (filter (fun b => b <> 0) t)) in *. set (ks := filter (fun r => negb (IsControl r) || line_space r = true) rs). eexists. split; [reflexivity|].
  destruct (runes_encode ks) as [Er Ev]; [by apply Forall_kept|]. unfold checkBasicSafety. rewrite Ev, Er. cbn [negb].
  assert (Hk : forall r, r ∈ ks -> negb (IsControl r) || line_space r = true) by (by intros r [Hr _]%list_elem_of_filter).
  rewrite bool_decide_false by (intros H0; specialize (Hk _ H0); done). destruct (existsb _ ks) eqn:E; [|done].
  apply existsb_exists in E as (r & Hin%list_elem_of_In & [Hc Hl]%andb_true_iff). specialize (Hk _ Hin). rewrite Hc in Hk. cbn in Hk. by rewrite Hk in Hl.
Qed.

Lemma runes_app_ascii l t : Forall (fun b => 0 <= b < 0x80) l -> runes (l ++ t) = l ++ runes t.
Proof.
  unfold runes. induction 1 as [|b l Hb _ IH]; [done|].
  change (runes_fuel (S (length (l ++ t))) (b :: l ++ t) = b :: l ++ runes_fuel (length t) t). cbn [runes_fuel decode1]. rewrite (proj2 (Z.ltb_lt _ _)) by lia.
  change (b :: runes_fuel (length (l ++ t)) (l ++ t) = b :: l ++ runes_fuel (length t) t). by rewrite IH.
Qed.

Lemma valid_app_ascii l t : Forall (fun b => 0 <= b < 0x80) l -> ValidString (l ++ t) = ValidString t.
Proof.
  unfold ValidString. induction 1 as [|b l Hb _ IH]; [done|].
  change (valid_fuel (S (length (l ++ t))) (b :: l ++ t) = valid_fuel (length t) t). cbn [valid_fuel decode1]. rewrite (proj2 (Z.ltb_lt _ _)) by lia. apply IH.
Qed.

Lemma filter_replicate {A} (P : A -> Prop) `{forall x, Decision (P x)} n x : P x -> filter P (replicate n x) = replicate n x.
Proof. intros Hx. induction n as [|n IH]; [done|]. cbn [replicate]. by rewrite filter_cons_True, IH. Qed.

(** The length limit does not hold: the string is cut at a byte, and the rest
    of a character that is cut becomes a replacement character of three. For
    every limit there is a valid string whose sanitised form is longer. *)
Theorem sanitized_too_long maxLen : 1 <= maxLen -> exists s s', ValidString s = true /\ SanitizeString s maxLen = Some s' /\ maxLen < len s'.
Proof.
  intros Hm. set (n := Z.to_nat (maxLen - 1)). exists (replicate n 97 ++ [0xC3; 0xA9]), (replicate n 97 ++ [0xEF; 0xBF; 0xBD]).
  assert (Ha : Forall (fun b => 0 <= b < 0x80) (replicate n 97)) by (apply Forall_replicate; lia).
  assert (Hl : length (replicate n 97) = n) by apply length_replicate. split_and!.
  - by rewrite valid_app_ascii.
  - unfold SanitizeString, truncate, len. rewrite length_app, Hl. cbn [length]. rewrite Z.gtb_ltb, (proj2 (Z.ltb_lt maxLen _)), (proj2 (Z.ltb_ge maxLen 0)) by lia. cbn [mbind option_bind].
    replace (take (Z.to_nat maxLen) (replicate n 97 ++ [195; 169])) with (replicate n 97 ++ [195]) by (rewrite take_app, Hl; replace (Z.to_nat maxLen - n)%nat with 1%nat by lia; rewrite take_ge by lia; done).
    rewrite filter_app, filter_replicate by done. change (filter (fun b => b <> 0) [195]) with [195]. rewrite runes_app_ascii, filter_app, filter_replicate by done.
    rewrite bind_app, encode_ascii by done. reflexivity.
  - unfold len. rewrite length_app, Hl. cbn [length]. lia.
Qed.

(** ** Guarantees: ports *)

Lemma scan_digits_app ds rest acc : Forall (fun c => digit c = true) ds -> head (digit <$> rest) <> Some true ->
  scan_digits (ds ++ rest) acc = scan_digits ds acc.
Proof.
  intros Hd Hr. revert acc. induction Hd as [|c ds Hc _ IH]; intros acc; cbn [app scan_digits].
  - destruct rest as [|r rest]; [done|]. cbn in *. by destruct (digit r).
  - rewrite Hc. apply IH.
Qed.

Lemma to_of_ascii l : to_ascii (of_ascii l) = l.
Proof. unfold to_ascii, of_ascii. induction l as [|c l IH]; [done|]. cbn [map]. rewrite IH. unfold chr. by rewrite N2Z.id, ascii_N_embedding. Qed.

Lemma of_ascii_bytes l : Forall (fun b => 0 <= b) (of_ascii l).
Proof. unfold of_ascii. apply Forall_forall. intros b Hb%list_elem_of_In%in_map_iff. destruct Hb as (c & <- & _). unfold chr. lia. Qed.

Lemma digit_range c : digit c = true -> 48 <= c <= 57.
Proof. apply between_spec. Qed.

(** The first rune is a digit only where the first byte is. *)
Lemma first_rune_digit l : Forall (fun b => 0 <= b) l -> head (digit <$> l) <> Some true -> head (digit <$> runes l) <> Some true.
Proof.
  intros Hl Hd. destruct l as [|b l]; [done|]. inversion Hl as [|?? Hb _]; subst. unfold runes. cbn [length runes_fuel].
  destruct (decode1 (b :: l)) as [[r w]|] eqn:E; cbn; [|done]. intros [= Hr]. apply digit_range in Hr as Hr'. apply decode1_ascii in E as (-> & _ & _); [|done|lia]. cbn in Hd. by apply Hd; f_equal.
Qed.

Lemma Sscanf_digits ds rest : ds <> [] -> Forall (fun c => digit c = true) ds -> Forall (fun b => 0 <= b) rest -> head (digit <$> rest) <> Some true ->
  Sscanf_d (ds ++ rest) = Sscanf_d ds.
Proof.
  intros Hne Hd Hb Hr. assert (Ha : Forall (fun b => 0 <= b < 0x80) ds) by (eapply Forall_impl; [exact Hd|]; intros c Hc%digit_range; lia).
  unfold Sscanf_d. rewrite runes_app_ascii, (runes_ascii ds) by done. apply (first_rune_digit _ Hb) in Hr. destruct Hd as [|c ds Hc Hd]; [done|]. apply digit_range in Hc as Hc'.
  cbn [app skip_blanks]. rewrite (proj2 (Z.eqb_neq c 10)) by lia. assert (IsSpace c = false) as ->.
  { unfold IsSpace. rewrite !between_false, bool_decide_false by (try lia; rewrite !elem_of_cons, elem_of_nil; lia). done. }
  cbn [mbind option_bind]. unfold chr. cbn. rewrite !(proj2 (Z.eqb_neq c _)) by lia. rewrite Hc. by rewrite scan_digits_app.
Qed.

(** What follows the digits of a port is not looked at: with any such text
    after it the address is accepted or refused as without. *)
Theorem trailing_text_ignored host ds rest : plain host -> plain ds -> plain rest -> ds <> [] -> Forall (fun c => digit (chr c) = true) ds ->
  head ((fun c => digit (chr c)) <$> rest) <> Some true ->
  ValidateHostPort (of_ascii (host ++ ":"%char :: ds ++ rest)) = ValidateHostPort (of_ascii (host ++ ":"%char :: ds)).
Proof.
  intros Hh Hp Hr Hne Hd Hh'. unfold ValidateHostPort. rewrite !bool_decide_false by (unfold of_ascii; rewrite map_app; intros [_ ?]%app_eq_nil; done).
  rewrite !to_of_ascii, !split_plain by (try done; destruct Hp as (? & ? & ?), Hr as (? & ? & ?); repeat split; rewrite elem_of_app; intros [?|?]; done).
  destruct (bool_decide _ && _); [done|]. unfold of_ascii at 1. rewrite map_app. fold (of_ascii ds) (of_ascii rest). rewrite Sscanf_digits; [done| | | |].
  - by destruct ds.
  - unfold of_ascii. by apply Forall_map.
  - apply of_ascii_bytes.
  - by destruct rest.
Qed.

(** ** Guarantees: descriptions and nesting *)

(** The lines a description's limits are about. *)
Definition sdp_lines (sdp : list Z) : list (list Z) := filter (fun l => l <> []) (map TrimSpace (split_newlines sdp)).
Definition count (p : string) (ls : list (list Z)) : Z := Z.of_nat (length (filter (fun l => starts p l = true) ls)).

Lemma count_cons p l ls : count p (l :: ls) = (if starts p l then 1 else 0) + count p ls.
Proof. unfold count. rewrite filter_cons. destruct (starts p l); case_decide; try done; cbn [length]; lia. Qed.

Lemma count_nonneg p ls : 0 <= count p ls.
Proof. unfold count. lia. Qed.

Definition within (v : SDPValidator) (ls : list (list Z)) (media candidates : Z) : Prop :=
  Forall (fun l => len l <= maxAttributeLength v) ls /\ media + count "m=" ls <= Z.max media (maxMediaSections v) /\
  candidates + count "a=candidate:" ls <= Z.max candidates (maxCandidates v).

Lemma sdp_loop_within v lines : forall media candidates,
  sdp_loop lines media candidates v = true <-> within v (filter (fun l => l <> []) (map TrimSpace lines)) media candidates.
Proof.
  induction lines as [|l lines IH]; intros media candidates; cbn [sdp_loop map]; [unfold within, count; cbn; split; [intros _; split_and!; [done|lia|lia]|done]|].
  set (t := TrimSpace l). case_bool_decide as Ht; [rewrite filter_cons_False by (by intros []); apply IH|]. rewrite filter_cons_True by done.
  set (ls := filter _ _) in *. assert (Hm := count_nonneg "m=" ls). assert (Hc := count_nonneg "a=candidate:" ls).
  unfold within in *. rewrite Forall_cons, !count_cons, !Z.gtb_ltb. destruct (Z.ltb_spec (maxAttributeLength v) (len t)); [split; [done|intros ((? & _) & _); lia]|].
  destruct (starts "m=" t), (starts "a=candidate:" t); cbn [andb];
    repeat match goal with |- context [if ?a <? ?b then _ else _] => destruct (Z.ltb_spec a b) end;
    try (split; [done|intros (_ & ? & ?); lia]); rewrite IH; split; intros; destruct_and!; split_and!; (done || lia).
Qed.

(** The limits of a description are exact: it is accepted just when none of
    its lines that are not blank is longer than allowed and the media sections and
    candidates are no more than allowed. *)
Theorem sdp_limits_exact sdp v : 0 <= maxMediaSections v -> 0 <= maxCandidates v ->
  sdp_ValidateSDP sdp v = true <->
  Forall (fun l => len l <= maxAttributeLength v) (sdp_lines sdp) /\ count "m=" (sdp_lines sdp) <= maxMediaSections v /\ count "a=candidate:" (sdp_lines sdp) <= maxCandidates v.
Proof.
  intros Hm Hc. unfold sdp_ValidateSDP. case_bool_decide as Hs; cbn [orb].
  - subst. split; [intros _|done]. unfold sdp_lines, count. cbn. split; [done|]. by split.
  - rewrite sdp_loop_within. unfold within. fold (sdp_lines sdp). rewrite !Z.add_0_l, !Z.max_r by done. done.
Qed.

(** How deep the lists and dictionaries of a value are nested. *)
Fixpoint nested (v : BencodeValue) : Z :=
  match v with
  | VList l => 1 + fold_right (fun v d => Z.max (nested v) d) 0 l
  | VDict d => 1 + fold_right (fun kv d => Z.max (nested (snd kv)) d) 0 d
  | _ => 0
  end.

(** A list in a list in a list, the text "e" in each. *)
Fixpoint deep (n : nat) : interface unit := match n with O => IInt 0 | S n => ISlice [IString (bs "e"); deep n] end.
Fixpoint deep_bytes (n : nat) : bytes := match n with O => bs "i0e" | S n => bs "l1:e" ++ deep_bytes n ++ bs "e" end.

Lemma deep_facts n : EncodeBencode (fun _ _ => []) (deep n) = Ok (deep_bytes n) /\ wf_interface (deep n) /\ nested (denote (fun _ _ => []) (deep n)) = Z.of_nat n /\
  length (deep_bytes n) = (5 * n + 3)%nat.
Proof.
  induction n as [|n (He & Hw & Hd & Hl)]; [done|]. unfold EncodeBencode in *. split_and!.
  - cbn [deep encode map]. rewrite He.
    change (encodeList [Ok (encodeString (bs "e")); Ok (deep_bytes n)]) with (Ok (E := berror) (bs "l1:e" ++ (deep_bytes n ++ []) ++ bs "e")). by rewrite app_nil_r.
  - cbn [deep wf_interface foldr]. done.
  - cbn [deep denote map nested fold_right]. rewrite Hd. lia.
  - cbn [deep_bytes]. rewrite !length_app, Hl. cbn. lia.
Qed.

Lemma depth_loop_other pre : forall d v rest, ("l"%char ∉ pre) -> ("d"%char ∉ pre) -> ("e"%char ∉ pre) -> depth_loop (pre ++ rest) d v = depth_loop rest d v.
Proof.
  induction pre as [|c pre IH]; intros d v rest Hl Hd He; [done|]. apply not_elem_of_cons in Hl as [? ?], Hd as [? ?], He as [? ?]. cbn [app depth_loop].
  rewrite !bool_decide_false by congruence. by apply IH.
Qed.

Lemma depth_open x d v : d + 1 <= maxDepth v -> depth_loop ("l"%char :: x) d v = depth_loop x (d + 1) v.
Proof. intros Hd. cbn [depth_loop]. rewrite bool_decide_true by done. cbn [orb]. by rewrite Z.gtb_ltb, (proj2 (Z.ltb_ge _ _)) by done. Qed.

Lemma depth_close x d v : depth_loop ("e"%char :: x) d v = depth_loop x (d - 1) v.
Proof. reflexivity. Qed.

Lemma deep_unseen n : forall v d rest, 0 < maxDepth v -> d <= 0 -> depth_loop (deep_bytes n ++ rest) d v = depth_loop rest (d - 1 - Z.of_nat n) v.
Proof.
  induction n as [|n IH]; intros v d rest Hv Hd; cbn [deep_bytes].
  - change (bs "i0e" ++ rest) with (bs "i0" ++ "e"%char :: rest). rewrite depth_loop_other by (apply (bool_decide_unpack _); vm_compute; exact I).
    rewrite depth_close. f_equal. lia.
  - rewrite <- !(assoc_L (++)). change (bs "l1:e" ++ ?x) with ("l"%char :: bs "1:" ++ "e"%char :: x). rewrite depth_open by lia.
    rewrite depth_loop_other by (apply (bool_decide_unpack _); vm_compute; exact I). rewrite depth_close, IH by lia. change (bs "e" ++ rest) with ("e"%char :: rest).
    rewrite depth_close. f_equal. lia.
Qed.

Lemma depth_loop_run n : forall d v, d <= maxDepth v < d + Z.of_nat n -> depth_loop (replicate n "l"%char) d v = false.
Proof.
  induction n as [|n IH]; intros d v Hd; [lia|]. cbn [replicate depth_loop]. rewrite bool_decide_true by done. cbn [orb]. rewrite Z.gtb_ltb.
  destruct (Z.ltb_spec (maxDepth v) (d + 1)); [done|]. apply IH. lia.
Qed.

(** The depth check bounds no depth, since it counts the bytes of strings
    too: messages of every depth pass it under every limit, while it refuses a
    plain string. *)
Theorem depth_not_bounded v n : 0 < maxDepth v -> (Z.of_nat n < 2 ^ 60) ->
  (exists data x, ValidateBencodeDepth data v = true /\ DecodeBencode data = Ok x /\ nested x = Z.of_nat n) /\
  ValidateBencodeDepth (encodeString (replicate (Z.to_nat (maxDepth v) + 1) "l"%char)) v = false.
Proof.
  intros Hv Hn. split.
  - destruct (deep_facts n) as (He & Hw & Hd & Hl). exists (deep_bytes n), (denote (fun _ _ => []) (deep n)). split_and!; [|apply DecodeBencode_of_encode; [done|done|lia]|done].
    unfold ValidateBencodeDepth. rewrite <- (app_nil_r (deep_bytes n)). by rewrite deep_unseen by lia.
  - unfold ValidateBencodeDepth, encodeString. rewrite depth_loop_other by (by apply FormatInt_not_elem). apply depth_loop_run. lia.
Qed.

(** ** Witnesses *)

Lemma ValidateCallID_exact_witness : ValidateCallID (string_bytes "ab@c") (NewInputValidator None) = None <->
  string_bytes "ab@c" <> [] /\ len (string_bytes "ab@c") <= 256 /\ Forall (fun b => callIDPattern b = true) (string_bytes "ab@c").
Proof. apply (ValidateCallID_exact (string_bytes "ab@c") (NewInputValidator None)). apply (bool_decide_unpack _). vm_compute. exact I. Defined.

Lemma sanitized_callid_accepted_witness : exists s', SanitizeCallID (string_bytes "a b") (NewInputValidator None) = Some s' /\ (s' = [] \/ ValidateCallID s' (NewInputValidator None) = None).
Proof. apply (sanitized_callid_accepted (string_bytes "a b") (NewInputValidator None)). cbn. lia. Defined.

Lemma sanitizing_merges_witness : exists s1 s2, s1 <> s2 /\ ValidateCallID s1 (NewInputValidator None) = None /\ ValidateCallID s2 (NewInputValidator None) = None /\
  SanitizeCallID s1 (NewInputValidator None) = SanitizeCallID s2 (NewInputValidator None).
Proof. apply (sanitizing_merges (NewInputValidator None)). cbn. lia. Defined.

Lemma sanitized_safe_witness : exists s', SanitizeString [97; 0; 7; 0xC3] 3 = Some s' /\ checkBasicSafety s' = None.
Proof. apply (sanitized_safe [97; 0; 7; 0xC3] 3); [lia|]. apply (bool_decide_unpack _). vm_compute. exact I. Defined.

Lemma sanitized_too_long_witness : exists s s', ValidString s = true /\ SanitizeString s 4 = Some s' /\ 4 < len s'.
Proof. apply (sanitized_too_long 4). lia. Defined.

Lemma trailing_text_ignored_witness : ValidateHostPort (of_ascii (bs "a" ++ ":"%char :: bs "5060" ++ bs "/x")) = ValidateHostPort (of_ascii (bs "a" ++ ":"%char :: bs "5060")).
Proof.
  apply (trailing_text_ignored (bs "a") (bs "5060") (bs "/x")); try done; try (apply (bool_decide_unpack _); vm_compute; exact I).
Defined.

Lemma sdp_limits_exact_witness : sdp_ValidateSDP (string_bytes "m=audio") NewSDPValidator = true <->
  Forall (fun l => len l <= 4096) (sdp_lines (string_bytes "m=audio")) /\ count "m=" (sdp_lines (string_bytes "m=audio")) <= 50 /\
  count "a=candidate:" (sdp_lines (string_bytes "m=audio")) <= 100.
Proof. apply (sdp_limits_exact (string_bytes "m=audio") NewSDPValidator); cbn; lia. Defined.

Lemma depth_not_bounded_witness :
  (exists data x, ValidateBencodeDepth data NewBencodeValidator = true /\ DecodeBencode data = Ok x /\ nested x = 30) /\
  ValidateBencodeDepth (encodeString (replicate (Z.to_nat 20 + 1) "l"%char)) NewBencodeValidator = false.
Proof. apply (depth_not_bounded NewBencodeValidator 30); cbn; lia. Defined.
