(* ===== verification/Mixer.v ===== *)
(** * Mixing of audio

    Models src/internal/recording/mixer.go: two streams of samples mixed to mono or
    stereo, G.711 turned into linear samples, gain and silence. Samples are bytes;
    16-bit ones are little-endian. *)

From Stdlib Require Import ZArith Lia ZifyNat.
From stdpp Require Import base numbers list.
From S2P Require Import Prelude GoFloat Bytes Codec MediaPlayer.

Local Open Scope Z_scope.
Local Open Scope go_scope.
#[local] Arguments wraps : simpl never.
#[local] Arguments wrapu : simpl never.

Record AudioMixer := mkMixer { mx_sampleRate : Z; mx_bitsPerSample : Z; mx_channels : Z }.
Definition NewAudioMixer (sampleRate bitsPerSample channels : Z) : AudioMixer := mkMixer sampleRate bitsPerSample channels.

(** ** Mixing *)

(** The 16-bit sample at an offset, 0 past the end. *)
Definition sample16 (data : list Z) (offset : nat) : Z := if (offset + 1 <? length data)%nat then i16 (Uint16LE data offset) else 0.

Definition mix_samples (callerSample calleeSample : Z) : Z :=
  let mixed := Z.quot (callerSample + calleeSample) 2 in
  if mixed >? 32767 then 32767 else if mixed <? -32768 then -32768 else mixed.

(** The mixers fill a buffer of [n] bytes. *)
Definition mix16bitMono (caller callee : list Z) (n : nat) : list Z :=
  seq 0 (n / 2) ≫= fun i => put16le (mix_samples (sample16 caller (i * 2)) (sample16 callee (i * 2))).

Definition sample8 (data : list Z) (i : nat) : Z := match data !! i with Some b => b - 128 | None => 0 end.
Definition mix8bitMono (caller callee : list Z) (n : nat) : list Z :=
  map (fun i => u8 (Z.quot (sample8 caller i + sample8 callee i) 2 + 128)) (seq 0 n).

Definition common_length (m : AudioMixer) (caller callee : list Z) : nat :=
  let length := (length caller `min` length callee)%nat in
  if mx_bitsPerSample m =? 16 then (length / 2 * 2)%nat else length.

Definition MixMono (m : AudioMixer) (caller callee : list Z) : list Z :=
  let length := common_length m caller callee in
  if mx_bitsPerSample m =? 16 then mix16bitMono caller callee length else mix8bitMono caller callee length.

(** Two bytes of a stream, zeros past its end. *)
Definition bytes16 (data : list Z) (offset : nat) : list Z :=
  if (offset + 1 <? length data)%nat then [byte_of data offset; byte_of data (offset + 1)] else [0; 0].
Definition mix16bitStereo (caller callee : list Z) (n : nat) : list Z :=
  seq 0 (n / 4) ≫= fun i => bytes16 caller (i * 2) ++ bytes16 callee (i * 2).
Definition mix8bitStereo (caller callee : list Z) (n : nat) : list Z :=
  seq 0 (n / 2) ≫= fun i => [default 128 (caller !! i); default 128 (callee !! i)].

Definition MixStereo (m : AudioMixer) (caller callee : list Z) : list Z :=
  let inputSamples := common_length m caller callee in
  if mx_bitsPerSample m =? 16 then mix16bitStereo caller callee (inputSamples * 2) else mix8bitStereo caller callee (inputSamples * 2).

(** ** G.711 *)

Definition ulawToLinear (sample : Z) : Z :=
  let ulaw := 255 - sample in
  let sign := Z.shiftr (Z.land ulaw 0x80) 7 in
  let exponent := Z.land (Z.shiftr ulaw 4) 7 in
  let mantissa := Z.land ulaw 15 in
  let magnitude := i16 (Z.shiftl (i16 (Z.shiftl mantissa 3 + 0x84)) exponent) in
  let magnitude := i16 (magnitude - 0x84) in
  if sign =? 0 then magnitude else i16 (- magnitude).

Definition alawToLinear (sample : Z) : Z :=
  let sample := Z.lxor sample 0x55 in
  let sign := Z.land sample 0x80 in
  let exponent := Z.land (Z.shiftr sample 4) 7 in
  let mantissa := Z.land sample 15 in
  let magnitude := if exponent >? 0 then i16 (Z.shiftl (mantissa + 16) (exponent + 3)) else i16 (Z.shiftl mantissa 4 + 8) in
  if sign =? 0 then i16 (- magnitude) else magnitude.

Definition ConvertG711uToPCM (data : list Z) : list Z := data ≫= fun b => put16le (ulawToLinear b).
Definition ConvertG711aToPCM (data : list Z) : list Z := data ≫= fun b => put16le (alawToLinear b).

(** ** Gain and silence *)

Definition feq (x y : float64) : bool := fle x y && fle y x.
Definition fabs (x : float64) : float64 := SpecFloat.SFabs x.

(** A sample times the gain, between two limits. *)
Definition adjust (gain : float64) (lo hi sample : Z) : float64 :=
  let adjusted := fmul (of_int sample) gain in
  if flt (of_int hi) adjusted then of_int hi else if flt adjusted (of_int lo) then of_int lo else adjusted.

Fixpoint map16 (f : Z -> Z) (data : list Z) : list Z :=
  match data with
  | lo :: hi :: data => put16le (f (i16 (le16 lo hi))) ++ map16 f data
  | _ => data
  end.

Definition ApplyGain (data : list Z) (gain : float64) (bitsPerSample : Z) : list Z :=
  if feq gain (of_int 1) then data
  else if bitsPerSample =? 16 then map16 (fun s => i16 (to_int64 (adjust gain (-32768) 32767 s))) data
  else map (fun b => u8 (i16 (to_int64 (adjust gain (-128) 127 (b - 128))) + 128)) data.

Fixpoint samples16 (data : list Z) : list Z := match data with lo :: hi :: data => i16 (le16 lo hi) :: samples16 data | _ => [] end.
Definition peak (samples : list Z) : float64 :=
  foldl (fun m s => let a := fabs (of_int s) in if flt m a then a else m) (of_int 0) samples.

Definition Normalize (data : list Z) (targetPeak : float64) (bitsPerSample : Z) : list Z :=
  if bitsPerSample =? 16 then
    let maxSample := peak (samples16 data) in
    if flt (of_int 0) maxSample then ApplyGain data (fdiv (fmul targetPeak (of_int 32767)) maxSample) bitsPerSample else data
  else
    let maxSample := peak (map (fun b => b - 128) data) in
    if flt (of_int 0) maxSample then ApplyGain data (fdiv (fmul targetPeak (of_int 127)) maxSample) bitsPerSample else data.

(** [None] is the panic of a slice of negative length; one that does not fit into
    memory is not modelled. *)
Definition GenerateSilence (duration : float64) (sampleRate bitsPerSample channels : Z) : option (list Z) :=
  let samples := to_int64 (fmul duration (of_int sampleRate)) in
  let bytesPerSample := Z.quot bitsPerSample 8 in
  let size := i64 (i64 (samples * bytesPerSample) * channels) in
  if size <? 0 then None else Some (replicate (Z.to_nat size) (if bitsPerSample =? 8 then 128 else 0)).

Example mono_ex : MixMono (mkMixer 8000 16 1) [10; 0; 1; 0; 7] [20; 0; 254; 255] = [15; 0; 0; 0].
Proof. reflexivity. Qed.
Example stereo_ex : MixStereo (mkMixer 8000 16 2) [1; 2; 3; 4] [5; 6; 7; 8] = [1; 2; 5; 6; 3; 4; 7; 8].
Proof. reflexivity. Qed.
Example gain_ex : ApplyGain [100; 0; 0; 128] (lit 1 2) 16 = [50; 0; 0; 192].
Proof. vm_compute. reflexivity. Qed.
Example clip_ex : ApplyGain [0; 96; 0; 160; 9] (of_int 2) 16 = [255; 127; 0; 128; 9].
Proof. vm_compute. reflexivity. Qed.
Example normalize_ex : Normalize [100; 0; 206; 255] (of_int 1) 16 = [255; 127; 1; 192].
Proof. vm_compute. reflexivity. Qed.
Example silence_ex : GenerateSilence (lit 1 4000) 8000 16 2 = Some [0; 0; 0; 0; 0; 0; 0; 0].
Proof. vm_compute. reflexivity. Qed.

(** ** Guarantees: mixing *)

Lemma pairs_ind {A} (P : list A -> Prop) : P [] -> (forall x, P [x]) -> (forall x y l, P l -> P (x :: y :: l)) -> forall l, P l.
Proof. intros H0 H1 H2. fix IH 1. intros [|x [|y l]]; [done|apply H1|apply H2, IH]. Qed.

Lemma le16_sample x : is_s 16 x -> i16 (le16 (u8 x) (u8 (Z.shiftr x 8))) = x.
Proof.
  intros Hx. assert (E : le16 (u8 x) (u8 (Z.shiftr x 8)) = wrapu 16 x).
  { rewrite <- (le16_bytes (wrapu 16 x)) by (apply wrapu_range; lia). unfold is_s, wrapu in *. f_equal; [|rewrite !Z.shiftr_div_pow2 by lia]; apply (f_equal (fun z => z)); lia. }
  rewrite E. unfold wrapu. rewrite (wraps_congr 16 _ x); [by apply wraps_id|lia|lia].
Qed.

Lemma samples_range data : Forall (is_s 16) (samples16 data).
Proof. induction data as [|x|x y l IH] using pairs_ind; [constructor|constructor|]. cbn [samples16]. constructor; [apply wraps_range; lia|done]. Qed.

Lemma samples_length data : length (samples16 data) = (length data / 2)%nat.
Proof.
  induction data as [|x|x y l IH] using pairs_ind; [done|done|]. cbn [samples16 length]. rewrite IH. change (S (S (length l))) with (1 * 2 + length l)%nat. by rewrite Nat.div_add_l by lia.
Qed.

(** The samples read by index are those of the list. *)
Lemma sample16_lookup data i : sample16 data (i * 2) = default 0 (samples16 data !! i).
Proof.
  revert i. induction data as [|x|x y l IH] using pairs_ind; intros i.
  - unfold sample16. cbn. destruct i; done.
  - unfold sample16. cbn [length samples16]. by rewrite (proj2 (Nat.ltb_ge _ _)) by lia.
  - destruct i as [|i]; [reflexivity|]. cbn [samples16 lookup list_lookup]. rewrite <- IH. unfold sample16. cbn [length Nat.mul Nat.add].
    replace (S (S (i * 2 + 1)) <? S (S (length l)))%nat with (i * 2 + 1 <? length l)%nat; [done|]. apply eq_true_iff_eq. rewrite !Nat.ltb_lt. lia.
Qed.

Lemma samples_put (l : list Z) : Forall (is_s 16) l -> samples16 (l ≫= put16le) = l.
Proof.
  induction 1 as [|x l Hx _ IH]; [done|]. change ((x :: l) ≫= put16le) with (put16le x ++ (l ≫= put16le)). unfold put16le at 1. cbn [app samples16].
  by rewrite le16_sample, IH.
Qed.

Lemma mix_in_range x y : is_s 16 x -> is_s 16 y -> mix_samples x y = Z.quot (x + y) 2 /\ is_s 16 (Z.quot (x + y) 2).
Proof.
  unfold is_s, mix_samples. intros Hx Hy. cbn in *. assert (-32768 <= Z.quot (x + y) 2 <= 32767) by lia. rewrite Z.gtb_ltb. split; [|lia].
  rewrite (proj2 (Z.ltb_ge 32767 _)), (proj2 (Z.ltb_ge _ (-32768))) by lia. done.
Qed.

Lemma half_min a b : ((a `min` b) / 2)%nat = ((a / 2) `min` (b / 2))%nat.
Proof. destruct (Nat.le_ge_cases a b) as [H|H]; [rewrite (Nat.min_l a b), Nat.min_l|rewrite (Nat.min_r a b), Nat.min_r]; try done; apply Nat.Div0.div_le_mono; done. Qed.

(** The indexes of a list that are read one by one. *)
Lemma seq_zip {A} (f : Z -> Z -> A) (l k : list Z) n : n = (length l `min` length k)%nat ->
  map (fun i => f (default 0 (l !! i)) (default 0 (k !! i))) (seq 0 n) = zip_with f l k.
Proof.
  intros ->. revert k. induction l as [|x l IH]; intros [|y k]; cbn [length Nat.min seq map zip_with]; [done..|]. f_equal.
  rewrite <- seq_shift, map_map. cbn [lookup list_lookup]. apply IH.
Qed.

Lemma bind_map {A B C} (f : A -> B) (g : B -> list C) l : (l ≫= fun x => g (f x)) = map f l ≫= g.
Proof. induction l as [|x l IH]; [done|]. cbn. by rewrite <- IH. Qed.

(** Mono mixing is the average of the two streams, sample by sample, as long
    as both last; the result never clips. *)
Theorem mono_is_average m caller callee : mx_bitsPerSample m = 16 ->
  samples16 (MixMono m caller callee) = zip_with (fun x y => Z.quot (x + y) 2) (samples16 caller) (samples16 callee).
Proof.
  intros Hb. unfold MixMono, common_length, mix16bitMono. rewrite Hb. cbn [Z.eqb Pos.eqb]. rewrite Nat.div_mul, half_min, <- !samples_length by lia.
  rewrite (bind_map (fun i => mix_samples (sample16 caller (i * 2)) (sample16 callee (i * 2))) put16le).
  rewrite (map_ext _ (fun i => mix_samples (default 0 (samples16 caller !! i)) (default 0 (samples16 callee !! i)))) by (intros i; by rewrite !sample16_lookup).
  rewrite (seq_zip mix_samples) by done.
  assert (E : zip_with mix_samples (samples16 caller) (samples16 callee) = zip_with (fun x y => Z.quot (x + y) 2) (samples16 caller) (samples16 callee) /\
    Forall (is_s 16) (zip_with (fun x y => Z.quot (x + y) 2) (samples16 caller) (samples16 callee))).
  { generalize (samples_range caller) (samples_range callee). generalize (samples16 caller) (samples16 callee). intros l k Hl. revert k.
    induction Hl as [|x l Hx _ IH]; intros [|y k] Hk; [by split; constructor..|]. apply Forall_cons in Hk as [Hy Hk]. destruct (IH k Hk) as [E HF], (mix_in_range x y Hx Hy) as [E1 H1].
    cbn [zip_with]. split; [by rewrite E, E1|by constructor]. }
  destruct E as [-> HF]. by apply samples_put.
Qed.

Lemma samples_bytes16 data offset rest : samples16 (bytes16 data offset ++ rest) = sample16 data offset :: samples16 rest.
Proof. unfold bytes16, sample16, Uint16LE. by destruct (_ <? _)%nat. Qed.

(** Stereo mixing gives the samples of the caller and of the callee in turn. *)
Theorem stereo_interleaves m caller callee : mx_bitsPerSample m = 16 ->
  samples16 (MixStereo m caller callee) = zip_with (fun x y => [x; y]) (samples16 caller) (samples16 callee) ≫= id.
Proof.
  intros Hb. unfold MixStereo, common_length, mix16bitStereo. rewrite Hb. cbn [Z.eqb Pos.eqb].
  replace ((length caller `min` length callee) / 2 * 2 * 2 / 4)%nat with (length (samples16 caller) `min` length (samples16 callee))%nat.
  2: { rewrite !samples_length, <- half_min, <- Nat.mul_assoc. by rewrite Nat.div_mul by lia. }
  rewrite <- (seq_zip (fun x y => [x; y]) _ _ _ eq_refl). generalize (seq 0 (length (samples16 caller) `min` length (samples16 callee))). intros l.
  induction l as [|i l IH]; [done|]. cbn [map]. change ((i :: l) ≫= ?f) with (f i ++ (l ≫= f)). cbv beta. rewrite <- (assoc_L (++)), !samples_bytes16, IH, !sample16_lookup. done.
Qed.

(** The two streams of bytes in mono. *)
Lemma mono8_symmetric m caller callee : mx_bitsPerSample m <> 16 -> MixMono m caller callee = MixMono m callee caller.
Proof.
  intros Hb. unfold MixMono, common_length, mix8bitMono. rewrite (proj2 (Z.eqb_neq _ _)) by done. rewrite Nat.min_comm. apply map_ext. intros i.
  by rewrite (Z.add_comm (sample8 caller i)).
Qed.

(** ** Guarantees: G.711 *)

Lemma ulaw_standard b : is_u 8 b -> ulawToLinear b = g711_decode b.
Proof. intros Hb. apply Z.eqb_eq. revert b Hb. apply all_bytes. vm_compute. reflexivity. Qed.

Lemma ulaw_encode b : is_u 8 b -> linearToUlaw (ulawToLinear b) = if b =? 127 then 255 else b.
Proof. intros Hb. apply Z.eqb_eq. revert b Hb. apply all_bytes. vm_compute. reflexivity. Qed.

Lemma ulaw_range b : is_u 8 b -> is_s 16 (ulawToLinear b).
Proof. intros Hb. apply (bool_decide_eq_true (is_s 16 (ulawToLinear b))). revert b Hb. apply (all_bytes (fun b => bool_decide (is_s 16 (ulawToLinear b)))). vm_compute. reflexivity. Qed.

(** Mu-law survives being recorded and played: what the recorder decodes to
    16-bit samples the player encodes to the same bytes, the two codes of silence
    made one. The decoder is the one of the recommendation. *)
Theorem ulaw_recorded_and_played data : Forall (is_u 8) data ->
  samples16 (ConvertG711uToPCM data) = map g711_decode data /\ convertPCM16ToUlaw (ConvertG711uToPCM data) = map (fun b => if b =? 127 then 255 else b) data.
Proof.
  unfold ConvertG711uToPCM. induction 1 as [|b data Hb _ [IH1 IH2]]; [done|]. change ((b :: data) ≫= ?f) with (f b ++ (data ≫= f)).
  unfold put16le at 1 3. cbn [app samples16 convertPCM16ToUlaw map]. rewrite le16_sample by (by apply ulaw_range). rewrite IH1, IH2, ulaw_encode, ulaw_standard by done. done.
Qed.

(** The decoder of the recommendation for A-law: the middle of each step. *)
Definition g711_alaw (b : Z) : Z :=
  let a := Z.lxor b 0x55 in
  let e := (a / 16) mod 8 in
  let t := if e =? 0 then (a mod 16) * 16 + 8 else ((a mod 16) * 2 + 33) * 2 ^ (e + 2) in
  if 128 <=? a then t else - t.

(** A-law is decoded to the lower end of each step instead of its middle, from
    the second segment on: the samples are too small by half a step, up to 512. *)
Theorem alaw_half_step_low b : is_u 8 b ->
  let e := (Z.lxor b 0x55 / 16) mod 8 in
  Z.abs (alawToLinear b) = Z.abs (g711_alaw b) - (if e =? 0 then 0 else 2 ^ (e + 2)) /\ 0 <= alawToLinear b * g711_alaw b.
Proof.
  intros Hb. cbv zeta.
  assert (H : (Z.abs (alawToLinear b) =? Z.abs (g711_alaw b) - (if (Z.lxor b 0x55 / 16) mod 8 =? 0 then 0 else 2 ^ ((Z.lxor b 0x55 / 16) mod 8 + 2))) && (0 <=? alawToLinear b * g711_alaw b) = true).
  { revert b Hb. apply (all_bytes (fun b => (Z.abs (alawToLinear b) =? Z.abs (g711_alaw b) - (if (Z.lxor b 0x55 / 16) mod 8 =? 0 then 0 else 2 ^ ((Z.lxor b 0x55 / 16) mod 8 + 2))) && (0 <=? alawToLinear b * g711_alaw b))). vm_compute. reflexivity. }
  apply andb_true_iff in H as [H1 H2]. split; [by apply Z.eqb_eq|by apply Z.leb_le].
Qed.

(** ** Witnesses *)

Lemma mono_is_average_witness :
  samples16 (MixMono (mkMixer 8000 16 1) [10; 0] [20; 0]) = zip_with (fun x y => Z.quot (x + y) 2) (samples16 [10; 0]) (samples16 [20; 0]).
Proof. apply (mono_is_average (mkMixer 8000 16 1) [10; 0] [20; 0]). reflexivity. Defined.

Lemma stereo_interleaves_witness :
  samples16 (MixStereo (mkMixer 8000 16 1) [10; 0] [20; 0]) = zip_with (fun x y => [x; y]) (samples16 [10; 0]) (samples16 [20; 0]) ≫= id.
Proof. apply (stereo_interleaves (mkMixer 8000 16 1) [10; 0] [20; 0]). reflexivity. Defined.

Lemma ulaw_recorded_and_played_witness :
  samples16 (ConvertG711uToPCM [0; 127]) = map g711_decode [0; 127] /\ convertPCM16ToUlaw (ConvertG711uToPCM [0; 127]) = map (fun b => if b =? 127 then 255 else b) [0; 127].
Proof. apply (ulaw_recorded_and_played [0; 127]). repeat constructor; unfold is_u; cbn; lia. Defined.

Lemma alaw_half_step_low_witness :
  let e := (Z.lxor 0 0x55 / 16) mod 8 in
  Z.abs (alawToLinear 0) = Z.abs (g711_alaw 0) - (if e =? 0 then 0 else 2 ^ (e + 2)) /\ 0 <= alawToLinear 0 * g711_alaw 0.
Proof. apply (alaw_half_step_low 0). unfold is_u. cbn. lia. Defined.
