(* ===== verification/Recorder.v ===== *)
(** * Recordings

    Models src/internal/recording/recorder.go and manager.go: recordings of calls as
    WAV files, the recorder's tables of them, and the manager that mixes the audio
    and hands it to the recorder.

    Files are modelled with what the code depends on: names lead to inodes, an open
    file is an inode with an offset, creating a file under a name that exists
    empties its inode, and removing a name leaves files that are open alone. Every
    write may fail after some of its bytes. The id of a recording and the time are
    arguments. *)

From Stdlib Require Import ZArith Lia ZifyNat Ascii String.
From stdpp Require Import base numbers list gmap strings.
From S2P Require Import Prelude Bytes Codec MediaPlayer Mixer.

Local Open Scope Z_scope.
Local Open Scope go_scope.
#[local] Arguments wraps : simpl never.
#[local] Arguments wrapu : simpl never.

(** ** Files *)

Record File := mkFile { f_inode : nat; f_offset : nat }.
Record disk := mkDisk { names : gmap string nat; inodes : gmap nat (list Z); open_files : gmap nat File; next : nat }.
#[export] Instance set_names : Setter names := fun f r =>
  mkDisk (f (names r)) (inodes r) (open_files r) (next r).
#[export] Instance set_inodes : Setter inodes := fun f r =>
  mkDisk (names r) (f (inodes r)) (open_files r) (next r).
#[export] Instance set_open_files : Setter open_files := fun f r =>
  mkDisk (names r) (inodes r) (f (open_files r)) (next r).
#[export] Instance set_next : Setter next := fun f r =>
  mkDisk (names r) (inodes r) (open_files r) (f (next r)).

(** os.Create, which gives the number of the open file. *)
Definition Create (path : string) (d : disk) : nat * disk :=
  let h := next d in
  let i := default h (names d !! path) in
  (h, mkDisk (<[path := i]> (names d)) (<[i := []]> (inodes d)) (<[h := mkFile i 0]> (open_files d)) (S h)).

(** Bytes put at an offset; a gap is filled with zeros. *)
Definition write_at (offset : nat) (data content : list Z) : list Z :=
  take offset content ++ replicate (offset - length content) 0 ++ data ++ drop (offset + length data) content.

(** How a write ends: all of it is done, or it fails after some bytes. *)
Inductive io := Done | Broken (n : nat).
Definition io_bytes (r : io) (data : list Z) : list Z := match r with Done => data | Broken n => take n data end.
Definition io_ok (r : io) : bool := match r with Done => true | Broken _ => false end.

(** [Write] returns the number of bytes and whether all was well. *)
Definition Write (h : nat) (data : list Z) (r : io) (d : disk) : nat * bool * disk :=
  match open_files d !! h with
  | None => (0%nat, false, d)
  | Some f =>
      let data := io_bytes r data in
      (length data, io_ok r,
       d <| inodes ::= <[f_inode f := write_at (f_offset f) data (default [] (inodes d !! f_inode f))]> |>
         <| open_files ::= <[h := mkFile (f_inode f) (f_offset f + length data)]> |>)
  end.
Definition Seek (h offset : nat) (d : disk) : option disk :=
  f ← open_files d !! h; Some (d <| open_files ::= <[h := mkFile (f_inode f) offset]> |>).
Definition Close (h : nat) (d : disk) : disk := d <| open_files ::= delete h |>.
Definition Remove (path : string) (d : disk) : disk := d <| names ::= delete path |>.
(** What a reader finds under a name. *)
Definition content (d : disk) (path : string) : option (list Z) := i ← names d !! path; inodes d !! i.

(** ** Paths and dates *)

Fixpoint split_path (s : string) : list string :=
  match s with
  | EmptyString => [EmptyString]
  | String c s =>
      if bool_decide (c = "/"%char) then EmptyString :: split_path s
      else match split_path s with p :: ps => String c p :: ps | [] => [String c EmptyString] end
  end.
Fixpoint join_path (l : list string) : string :=
  match l with
  | [] => EmptyString
  | [s] => s
  | s :: l => s +:+ String "/" (join_path l)
  end.

(** The elements of a path with dots resolved; [done] are those before, the last
    first. *)
Fixpoint clean_elements (rooted : bool) (done : list string) (l : list string) : list string :=
  match l with
  | [] => rev done
  | s :: l =>
      if bool_decide (s = EmptyString) || bool_decide (s = ".")%string then clean_elements rooted done l
      else if bool_decide (s = "..")%string then
        match done with
        | p :: ps => if bool_decide (p = "..")%string then clean_elements rooted (s :: done) l else clean_elements rooted ps l
        | [] => if rooted then clean_elements rooted [] l else clean_elements rooted [s] l
        end
      else clean_elements rooted (s :: done) l
  end.
(** filepath.Clean and filepath.Join. *)
Definition Clean (path : string) : string :=
  match path with
  | EmptyString => "."
  | String c _ =>
      let rooted := bool_decide (c = "/"%char) in
      match clean_elements rooted [] (split_path path) with
      | [] => if rooted then "/" else "."
      | l => if rooted then String "/" (join_path l) else join_path l
      end
  end%string.
Definition Join (l : list string) : string :=
  match filter (fun s => s <> EmptyString) l with [] => EmptyString | l => Clean (join_path l) end.

Definition digit_char (d : Z) : ascii := ascii_of_N (Z.to_N (48 + d)).
Definition two (n : Z) : string := String (digit_char (n / 10)) (String (digit_char (n mod 10)) EmptyString).

(** The year, month and day of a day counted from the first of January 1970. *)
Definition civil (days : Z) : Z * Z * Z :=
  let z := days + 719468 in
  let era := z / 146097 in
  let doe := z mod 146097 in
  let yoe := (doe - doe / 1460 + doe / 36524 - doe / 146096) / 365 in
  let doy := doe - (365 * yoe + yoe / 4 - yoe / 100) in
  let mp := (5 * doy + 2) / 153 in
  let m := if mp <? 10 then mp + 3 else mp - 9 in
  (yoe + era * 400 + (if m <=? 2 then 1 else 0), m, doy - (153 * mp + 2) / 5 + 1).

(** [seconds] on the clock of the host, since 1970. *)
Definition date_dir (seconds : Z) : string :=
  let '(y, m, d) := civil (seconds / 86400) in
  two (y / 100) +:+ two (y mod 100) +:+ "/" +:+ two m +:+ "/" +:+ two d.
Definition time_of_day (seconds : Z) : string :=
  let s := seconds mod 86400 in two (s / 3600) +:+ two (s / 60 mod 60) +:+ two (s mod 60).

(** [zone] is the host's offset from universal time in seconds. *)
Definition filePath (base callID : string) (zone now : Z) : string :=
  let seconds := now / Second + zone in
  Join [base; date_dir seconds; callID +:+ "_" +:+ time_of_day seconds +:+ ".wav"].

(** ** WAV files *)

Record WAVWriter := mkWAV { ww_file : nat; ww_sampleRate : Z; ww_bitsPerSample : Z; ww_channels : Z; dataSize : Z; headerWritten : bool }.
#[export] Instance set_ww_file : Setter ww_file := fun f r =>
  mkWAV (f (ww_file r)) (ww_sampleRate r) (ww_bitsPerSample r) (ww_channels r) (dataSize r) (headerWritten r).
#[export] Instance set_ww_sampleRate : Setter ww_sampleRate := fun f r =>
  mkWAV (ww_file r) (f (ww_sampleRate r)) (ww_bitsPerSample r) (ww_channels r) (dataSize r) (headerWritten r).
#[export] Instance set_ww_bitsPerSample : Setter ww_bitsPerSample := fun f r =>
  mkWAV (ww_file r) (ww_sampleRate r) (f (ww_bitsPerSample r)) (ww_channels r) (dataSize r) (headerWritten r).
#[export] Instance set_ww_channels : Setter ww_channels := fun f r =>
  mkWAV (ww_file r) (ww_sampleRate r) (ww_bitsPerSample r) (f (ww_channels r)) (dataSize r) (headerWritten r).
#[export] Instance set_dataSize : Setter dataSize := fun f r =>
  mkWAV (ww_file r) (ww_sampleRate r) (ww_bitsPerSample r) (ww_channels r) (f (dataSize r)) (headerWritten r).
#[export] Instance set_headerWritten : Setter headerWritten := fun f r =>
  mkWAV (ww_file r) (ww_sampleRate r) (ww_bitsPerSample r) (ww_channels r) (dataSize r) (f (headerWritten r)).

Definition NewWAVWriter (w : nat) (sampleRate bitsPerSample channels : Z) : WAVWriter := mkWAV w sampleRate bitsPerSample channels 0 false.

Definition byteRate (w : WAVWriter) : Z := Z.quot (i64 (i64 (ww_sampleRate w * ww_channels w) * ww_bitsPerSample w)) 8.
Definition blockAlign (w : WAVWriter) : Z := Z.quot (i64 (ww_channels w * ww_bitsPerSample w)) 8.
Definition wav_header (w : WAVWriter) (riffSize size : Z) : list Z :=
  text "RIFF" ++ put32le riffSize ++ text "WAVE" ++
  text "fmt " ++ put32le 16 ++ put16le 1 ++ put16le (u16 (ww_channels w)) ++ put32le (u32 (ww_sampleRate w)) ++
  put32le (u32 (byteRate w)) ++ put16le (u16 (blockAlign w)) ++ put16le (u16 (ww_bitsPerSample w)) ++
  text "data" ++ put32le size.

(** Each returns whether there was no error. *)
Definition WriteHeader (r : io) (w : WAVWriter) (d : disk) : bool * WAVWriter * disk :=
  let '(_, ok, d) := Write (ww_file w) (wav_header w 0 0) r d in
  (ok, if ok then w <| headerWritten := true |> else w, d).

Definition WriteData (data : list Z) (r : io) (w : WAVWriter) (d : disk) : nat * bool * WAVWriter * disk :=
  if negb (headerWritten w) then (0%nat, false, w, d)
  else
    let '(n, ok, d) := Write (ww_file w) data r d in
    (n, ok, if ok then w <| dataSize ::= fun s => u32 (s + u32 (Z.of_nat n)) |> else w, d).

(** [r1] and [r2] are the two writes; a failed seek is one that writes nothing. *)
Definition Finalize (r1 r2 : io) (w : WAVWriter) (d : disk) : bool * disk :=
  if negb (headerWritten w) then (true, d)
  else match Seek (ww_file w) 4 d with
       | None => (false, d)
       | Some d =>
           let '(_, ok, d) := Write (ww_file w) (put32le (u32 (dataSize w + 36))) r1 d in
           if negb ok then (false, d)
           else match Seek (ww_file w) 40 d with
                | None => (false, d)
                | Some d => let '(_, ok, d) := Write (ww_file w) (put32le (dataSize w)) r2 d in (ok, d)
                end
       end.

(** ** The recorder *)

Inductive RecordingStatus := StatusPending | StatusRecording | StatusPaused | StatusCompleted | StatusFailed.
#[export] Instance RecordingStatus_dec : EqDecision RecordingStatus.
Proof. solve_decision. Defined.
Definition status_string (s : RecordingStatus) : string :=
  match s with
  | StatusPending => "pending" | StatusRecording => "recording" | StatusPaused => "paused" | StatusCompleted => "completed" | StatusFailed => "failed"
  end.

Definition FormatWAV : string := "wav".
Definition ModeMixed : string := "mixed".
Definition ModeStereo : string := "stereo".

Record RecordingConfig := mkRecConfig {
  BasePath : string; cfg_Format : string; cfg_Mode : string; cfg_SampleRate : Z; BitsPerSample : Z; cfg_Channels : Z; MaxFileSize : Z; RetentionDays : Z }.
#[export] Instance set_BasePath : Setter BasePath := fun f r =>
  mkRecConfig (f (BasePath r)) (cfg_Format r) (cfg_Mode r) (cfg_SampleRate r) (BitsPerSample r) (cfg_Channels r) (MaxFileSize r) (RetentionDays r).
#[export] Instance set_cfg_Format : Setter cfg_Format := fun f r =>
  mkRecConfig (BasePath r) (f (cfg_Format r)) (cfg_Mode r) (cfg_SampleRate r) (BitsPerSample r) (cfg_Channels r) (MaxFileSize r) (RetentionDays r).
#[export] Instance set_cfg_Mode : Setter cfg_Mode := fun f r =>
  mkRecConfig (BasePath r) (cfg_Format r) (f (cfg_Mode r)) (cfg_SampleRate r) (BitsPerSample r) (cfg_Channels r) (MaxFileSize r) (RetentionDays r).
#[export] Instance set_cfg_SampleRate : Setter cfg_SampleRate := fun f r =>
  mkRecConfig (BasePath r) (cfg_Format r) (cfg_Mode r) (f (cfg_SampleRate r)) (BitsPerSample r) (cfg_Channels r) (MaxFileSize r) (RetentionDays r).
#[export] Instance set_BitsPerSample : Setter BitsPerSample := fun f r =>
  mkRecConfig (BasePath r) (cfg_Format r) (cfg_Mode r) (cfg_SampleRate r) (f (BitsPerSample r)) (cfg_Channels r) (MaxFileSize r) (RetentionDays r).
#[export] Instance set_cfg_Channels : Setter cfg_Channels := fun f r =>
  mkRecConfig (BasePath r) (cfg_Format r) (cfg_Mode r) (cfg_SampleRate r) (BitsPerSample r) (f (cfg_Channels r)) (MaxFileSize r) (RetentionDays r).
#[export] Instance set_MaxFileSize : Setter MaxFileSize := fun f r =>
  mkRecConfig (BasePath r) (cfg_Format r) (cfg_Mode r) (cfg_SampleRate r) (BitsPerSample r) (cfg_Channels r) (f (MaxFileSize r)) (RetentionDays r).
#[export] Instance set_RetentionDays : Setter RetentionDays := fun f r =>
  mkRecConfig (BasePath r) (cfg_Format r) (cfg_Mode r) (cfg_SampleRate r) (BitsPerSample r) (cfg_Channels r) (MaxFileSize r) (f (RetentionDays r)).
Definition DefaultRecordingConfig : RecordingConfig := mkRecConfig "/var/lib/karl/recordings" FormatWAV ModeMixed 8000 16 1 (100 * 1024 * 1024) 30.

Record Recording := mkRecording {
  r_ID : string; r_SessionID : string; r_CallID : string; Status : RecordingStatus; Format : string; Mode : string;
  StartTime : Z; EndTime : Z; Duration : Z; FilePath : string; FileSize : Z; r_SampleRate : Z; r_Channels : Z; Metadata : gmap string string;
  file : option nat; writer : option WAVWriter; packetCount : Z; byteCount : Z }.
#[export] Instance set_r_ID : Setter r_ID := fun f r =>
  mkRecording (f (r_ID r)) (r_SessionID r) (r_CallID r) (Status r) (Format r) (Mode r) (StartTime r) (EndTime r) (Duration r) (FilePath r) (FileSize r) (r_SampleRate r) (r_Channels r) (Metadata r) (file r) (writer r) (packetCount r) (byteCount r).
#[export] Instance set_r_SessionID : Setter r_SessionID := fun f r =>
  mkRecording (r_ID r) (f (r_SessionID r)) (r_CallID r) (Status r) (Format r) (Mode r) (StartTime r) (EndTime r) (Duration r) (FilePath r) (FileSize r) (r_SampleRate r) (r_Channels r) (Metadata r) (file r) (writer r) (packetCount r) (byteCount r).
#[export] Instance set_r_CallID : Setter r_CallID := fun f r =>
  mkRecording (r_ID r) (r_SessionID r) (f (r_CallID r)) (Status r) (Format r) (Mode r) (StartTime r) (EndTime r) (Duration r) (FilePath r) (FileSize r) (r_SampleRate r) (r_Channels r) (Metadata r) (file r) (writer r) (packetCount r) (byteCount r).
#[export] Instance set_Status : Setter Status := fun f r =>
  mkRecording (r_ID r) (r_SessionID r) (r_CallID r) (f (Status r)) (Format r) (Mode r) (StartTime r) (EndTime r) (Duration r) (FilePath r) (FileSize r) (r_SampleRate r) (r_Channels r) (Metadata r) (file r) (writer r) (packetCount r) (byteCount r).
#[export] Instance set_Format : Setter Format := fun f r =>
  mkRecording (r_ID r) (r_SessionID r) (r_CallID r) (Status r) (f (Format r)) (Mode r) (StartTime r) (EndTime r) (Duration r) (FilePath r) (FileSize r) (r_SampleRate r) (r_Channels r) (Metadata r) (file r) (writer r) (packetCount r) (byteCount r).
#[export] Instance set_Mode : Setter Mode := fun f r =>
  mkRecording (r_ID r) (r_SessionID r) (r_CallID r) (Status r) (Format r) (f (Mode r)) (StartTime r) (EndTime r) (Duration r) (FilePath r) (FileSize r) (r_SampleRate r) (r_Channels r) (Metadata r) (file r) (writer r) (packetCount r) (byteCount r).
#[export] Instance set_StartTime : Setter StartTime := fun f r =>
  mkRecording (r_ID r) (r_SessionID r) (r_CallID r) (Status r) (Format r) (Mode r) (f (StartTime r)) (EndTime r) (Duration r) (FilePath r) (FileSize r) (r_SampleRate r) (r_Channels r) (Metadata r) (file r) (writer r) (packetCount r) (byteCount r).
#[export] Instance set_EndTime : Setter EndTime := fun f r =>
  mkRecording (r_ID r) (r_SessionID r) (r_CallID r) (Status r) (Format r) (Mode r) (StartTime r) (f (EndTime r)) (Duration r) (FilePath r) (FileSize r) (r_SampleRate r) (r_Channels r) (Metadata r) (file r) (writer r) (packetCount r) (byteCount r).
#[export] Instance set_Duration : Setter Duration := fun f r =>
  mkRecording (r_ID r) (r_SessionID r) (r_CallID r) (Status r) (Format r) (Mode r) (StartTime r) (EndTime r) (f (Duration r)) (FilePath r) (FileSize r) (r_SampleRate r) (r_Channels r) (Metadata r) (file r) (writer r) (packetCount r) (byteCount r).
#[export] Instance set_FilePath : Setter FilePath := fun f r =>
  mkRecording (r_ID r) (r_SessionID r) (r_CallID r) (Status r) (Format r) (Mode r) (StartTime r) (EndTime r) (Duration r) (f (FilePath r)) (FileSize r) (r_SampleRate r) (r_Channels r) (Metadata r) (file r) (writer r) (packetCount r) (byteCount r).
#[export] Instance set_FileSize : Setter FileSize := fun f r =>
  mkRecording (r_ID r) (r_SessionID r) (r_CallID r) (Status r) (Format r) (Mode r) (StartTime r) (EndTime r) (Duration r) (FilePath r) (f (FileSize r)) (r_SampleRate r) (r_Channels r) (Metadata r) (file r) (writer r) (packetCount r) (byteCount r).
#[export] Instance set_r_SampleRate : Setter r_SampleRate := fun f r =>
  mkRecording (r_ID r) (r_SessionID r) (r_CallID r) (Status r) (Format r) (Mode r) (StartTime r) (EndTime r) (Duration r) (FilePath r) (FileSize r) (f (r_SampleRate r)) (r_Channels r) (Metadata r) (file r) (writer r) (packetCount r) (byteCount r).
#[export] Instance set_r_Channels : Setter r_Channels := fun f r =>
  mkRecording (r_ID r) (r_SessionID r) (r_CallID r) (Status r) (Format r) (Mode r) (StartTime r) (EndTime r) (Duration r) (FilePath r) (FileSize r) (r_SampleRate r) (f (r_Channels r)) (Metadata r) (file r) (writer r) (packetCount r) (byteCount r).
#[export] Instance set_Metadata : Setter Metadata := fun f r =>
  mkRecording (r_ID r) (r_SessionID r) (r_CallID r) (Status r) (Format r) (Mode r) (StartTime r) (EndTime r) (Duration r) (FilePath r) (FileSize r) (r_SampleRate r) (r_Channels r) (f (Metadata r)) (file r) (writer r) (packetCount r) (byteCount r).
#[export] Instance set_file : Setter file := fun f r =>
  mkRecording (r_ID r) (r_SessionID r) (r_CallID r) (Status r) (Format r) (Mode r) (StartTime r) (EndTime r) (Duration r) (FilePath r) (FileSize r) (r_SampleRate r) (r_Channels r) (Metadata r) (f (file r)) (writer r) (packetCount r) (byteCount r).
#[export] Instance set_writer : Setter writer := fun f r =>
  mkRecording (r_ID r) (r_SessionID r) (r_CallID r) (Status r) (Format r) (Mode r) (StartTime r) (EndTime r) (Duration r) (FilePath r) (FileSize r) (r_SampleRate r) (r_Channels r) (Metadata r) (file r) (f (writer r)) (packetCount r) (byteCount r).
#[export] Instance set_packetCount : Setter packetCount := fun f r =>
  mkRecording (r_ID r) (r_SessionID r) (r_CallID r) (Status r) (Format r) (Mode r) (StartTime r) (EndTime r) (Duration r) (FilePath r) (FileSize r) (r_SampleRate r) (r_Channels r) (Metadata r) (file r) (writer r) (f (packetCount r)) (byteCount r).
#[export] Instance set_byteCount : Setter byteCount := fun f r =>
  mkRecording (r_ID r) (r_SessionID r) (r_CallID r) (Status r) (Format r) (Mode r) (StartTime r) (EndTime r) (Duration r) (FilePath r) (FileSize r) (r_SampleRate r) (r_Channels r) (Metadata r) (file r) (writer r) (packetCount r) (f (byteCount r)).

(** With the files of the host and the metrics of the process. *)
Record Recorder := mkRecorder {
  config : RecordingConfig; recordings : gmap string Recording; sessionRecs : gmap string string; stopChan_closed : bool;
  files : disk; activeRecordings : Z; recordingErrors : Z; recordingBytesTotal : Z; recordingPacketsTotal : Z }.
#[export] Instance set_config : Setter config := fun f r =>
  mkRecorder (f (config r)) (recordings r) (sessionRecs r) (stopChan_closed r) (files r) (activeRecordings r) (recordingErrors r) (recordingBytesTotal r) (recordingPacketsTotal r).
#[export] Instance set_recordings : Setter recordings := fun f r =>
  mkRecorder (config r) (f (recordings r)) (sessionRecs r) (stopChan_closed r) (files r) (activeRecordings r) (recordingErrors r) (recordingBytesTotal r) (recordingPacketsTotal r).
#[export] Instance set_sessionRecs : Setter sessionRecs := fun f r =>
  mkRecorder (config r) (recordings r) (f (sessionRecs r)) (stopChan_closed r) (files r) (activeRecordings r) (recordingErrors r) (recordingBytesTotal r) (recordingPacketsTotal r).
#[export] Instance set_stopChan_closed : Setter stopChan_closed := fun f r =>
  mkRecorder (config r) (recordings r) (sessionRecs r) (f (stopChan_closed r)) (files r) (activeRecordings r) (recordingErrors r) (recordingBytesTotal r) (recordingPacketsTotal r).
#[export] Instance set_files : Setter files := fun f r =>
  mkRecorder (config r) (recordings r) (sessionRecs r) (stopChan_closed r) (f (files r)) (activeRecordings r) (recordingErrors r) (recordingBytesTotal r) (recordingPacketsTotal r).
#[export] Instance set_activeRecordings : Setter activeRecordings := fun f r =>
  mkRecorder (config r) (recordings r) (sessionRecs r) (stopChan_closed r) (files r) (f (activeRecordings r)) (recordingErrors r) (recordingBytesTotal r) (recordingPacketsTotal r).
#[export] Instance set_recordingErrors : Setter recordingErrors := fun f r =>
  mkRecorder (config r) (recordings r) (sessionRecs r) (stopChan_closed r) (files r) (activeRecordings r) (f (recordingErrors r)) (recordingBytesTotal r) (recordingPacketsTotal r).
#[export] Instance set_recordingBytesTotal : Setter recordingBytesTotal := fun f r =>
  mkRecorder (config r) (recordings r) (sessionRecs r) (stopChan_closed r) (files r) (activeRecordings r) (recordingErrors r) (f (recordingBytesTotal r)) (recordingPacketsTotal r).
#[export] Instance set_recordingPacketsTotal : Setter recordingPacketsTotal := fun f r =>
  mkRecorder (config r) (recordings r) (sessionRecs r) (stopChan_closed r) (files r) (activeRecordings r) (recordingErrors r) (recordingBytesTotal r) (f (recordingPacketsTotal r)).

Definition NewRecorder (cfg : option RecordingConfig) (d : disk) : Recorder :=
  mkRecorder (default DefaultRecordingConfig cfg) ∅ ∅ false d 0 0 0 0.

Inductive rec_error := AlreadyRecording | CannotCreate | CannotWriteHeader | NotFound | NoRecording | NotActive | NotPaused | NoWriter | WriteFailed.
#[export] Instance rec_error_dec : EqDecision rec_error.
Proof. solve_decision. Defined.

(** [created] says whether the directory and the file can be made, [r] how the
    header is written. *)
Definition StartRecording (id sessionID callID : string) (metadata : gmap string string) (zone now : Z) (created : bool) (r : io) (rc : Recorder) : outcome rec_error Recording * Recorder :=
  if (if sessionRecs rc !! sessionID is Some recID then if recordings rc !! recID is Some rec then bool_decide (Status rec = StatusRecording) else false else false)
  then (Err AlreadyRecording, rc)
  else
    let cfg := config rc in
    let path := filePath (BasePath cfg) callID zone now in
    if negb created then (Err CannotCreate, rc)
    else
      let '(h, d) := Create path (files rc) in
      match WriteHeader r (NewWAVWriter h (cfg_SampleRate cfg) (BitsPerSample cfg) (cfg_Channels cfg)) d with
      | (false, _, d) => (Err CannotWriteHeader, rc <| files := Remove path (Close h d) |>)
      | (true, w, d) =>
          let rec := mkRecording id sessionID callID StatusRecording (cfg_Format cfg) (cfg_Mode cfg) now 0 0 path 0 (cfg_SampleRate cfg) (cfg_Channels cfg) metadata (Some h) (Some w) 0 0 in
          (Ok rec, rc <| files := d |> <| recordings ::= <[id := rec]> |> <| sessionRecs ::= <[sessionID := id]> |> <| activeRecordings ::= Z.add 1 |>)
      end.

(** [rec] is the recording that is stored under [id]. *)
Definition stopRecordingInternal (id : string) (rec : Recording) (now : Z) (r1 r2 : io) (rc : Recorder) : Recorder :=
  if negb (bool_decide (Status rec = StatusRecording)) && negb (bool_decide (Status rec = StatusPaused)) then rc
  else
    let d := match writer rec with Some w => (Finalize r1 r2 w (files rc)).2 | None => files rc end in
    let d := match file rec with Some h => Close h d | None => d end in
    let size := match content d (FilePath rec) with Some c => Z.of_nat (length c) | None => FileSize rec end in
    let rec := rec <| file := None |> <| FileSize := size |> <| EndTime := now |> <| Duration := Time_Sub now (StartTime rec) |> <| Status := StatusCompleted |> in
    rc <| files := d |> <| recordings ::= <[id := rec]> |> <| activeRecordings ::= Z.add (-1) |>.

Definition StopRecording (id : string) (now : Z) (r1 r2 : io) (rc : Recorder) : option rec_error * Recorder :=
  match recordings rc !! id with
  | None => (Some NotFound, rc)
  | Some rec => (None, stopRecordingInternal id rec now r1 r2 rc)
  end.

Definition StopRecordingBySession (sessionID : string) (now : Z) (r1 r2 : io) (rc : Recorder) : option rec_error * Recorder :=
  match sessionRecs rc !! sessionID with
  | None => (Some NoRecording, rc)
  | Some id => match recordings rc !! id with None => (Some NotFound, rc) | Some rec => (None, stopRecordingInternal id rec now r1 r2 rc) end
  end.

Definition PauseRecording (id : string) (rc : Recorder) : option rec_error * Recorder :=
  match recordings rc !! id with
  | None => (Some NotFound, rc)
  | Some rec =>
      if bool_decide (Status rec = StatusRecording) then (None, rc <| recordings ::= <[id := rec <| Status := StatusPaused |>]> |>)
      else (Some NotActive, rc)
  end.
Definition ResumeRecording (id : string) (rc : Recorder) : option rec_error * Recorder :=
  match recordings rc !! id with
  | None => (Some NotFound, rc)
  | Some rec =>
      if bool_decide (Status rec = StatusPaused) then (None, rc <| recordings ::= <[id := rec <| Status := StatusRecording |>]> |>)
      else (Some NotPaused, rc)
  end.

Definition WriteAudio (id : string) (data : list Z) (r : io) (rc : Recorder) : option rec_error * Recorder :=
  match recordings rc !! id with
  | None => (Some NotFound, rc)
  | Some rec =>
      if negb (bool_decide (Status rec = StatusRecording)) then (None, rc)
      else match writer rec with
           | None => (Some NoWriter, rc)
           | Some w =>
               let '(n, ok, w, d) := WriteData data r w (files rc) in
               if ok then
                 let rec := rec <| writer := Some w |> <| packetCount ::= fun c => u64 (c + 1) |> <| byteCount ::= fun c => u64 (c + u64 (Z.of_nat n)) |> in
                 (None, rc <| files := d |> <| recordings ::= <[id := rec]> |> <| recordingBytesTotal ::= Z.add (Z.of_nat n) |> <| recordingPacketsTotal ::= Z.add 1 |>)
               else (Some WriteFailed, rc <| files := d |> <| recordingErrors ::= Z.add 1 |>)
           end
  end.
Definition WriteAudioBySession (sessionID : string) (data : list Z) (isCaller : bool) (r : io) (rc : Recorder) : option rec_error * Recorder :=
  match sessionRecs rc !! sessionID with None => (None, rc) | Some id => WriteAudio id data r rc end.

Definition GetRecording (id : string) (rc : Recorder) : option Recording := recordings rc !! id.
Definition GetRecordingBySession (sessionID : string) (rc : Recorder) : option Recording :=
  id ← sessionRecs rc !! sessionID; recordings rc !! id.
Definition ListRecordings (order : list string) (rc : Recorder) : list Recording := omap (fun id => recordings rc !! id) order.

(** The entries of a recording and its file are taken away. *)
Definition drop_recording (id : string) (rec : Recording) (rc : Recorder) : Recorder :=
  (if bool_decide (FilePath rec = EmptyString) then rc else rc <| files ::= Remove (FilePath rec) |>)
    <| recordings ::= delete id |> <| sessionRecs ::= delete (r_SessionID rec) |>.

Definition DeleteRecording (id : string) (now : Z) (r1 r2 : io) (rc : Recorder) : option rec_error * Recorder :=
  match recordings rc !! id with
  | None => (Some NotFound, rc)
  | Some rec =>
      let rc := if bool_decide (Status rec = StatusRecording) then stopRecordingInternal id rec now r1 r2 rc else rc in
      (None, drop_recording id rec rc)
  end.

Definition outdated (cutoff : Z) (rec : Recording) : bool := bool_decide (Status rec = StatusCompleted) && Before (EndTime rec) cutoff.
Definition clean_one (cutoff : Z) (s : nat * Recorder) (id : string) : nat * Recorder :=
  match recordings s.2 !! id with
  | Some rec => if outdated cutoff rec then (S s.1, drop_recording id rec s.2) else s
  | None => s
  end.
(** [order] is the order the table is walked in. *)
Definition CleanupOldRecordings (order : list string) (now : Z) (rc : Recorder) : nat * Recorder :=
  if RetentionDays (config rc) <=? 0 then (0%nat, rc)
  else foldl (clean_one (now - RetentionDays (config rc) * (86400 * Second))) (0%nat, rc) order.

Definition stop_one (now : Z) (rc : Recorder) (e : string * (io * io)) : Recorder :=
  match recordings rc !! e.1 with
  | Some rec => if bool_decide (Status rec = StatusRecording) then stopRecordingInternal e.1 rec now e.2.1 e.2.2 rc else rc
  | None => rc
  end.
(** [None] is the panic of closing the channel twice. *)
Definition Stop (order : list (string * (io * io))) (now : Z) (rc : Recorder) : option Recorder :=
  if stopChan_closed rc then None else Some (foldl (stop_one now) (rc <| stopChan_closed := true |>) order).

Record RecorderStats := mkRecStats { ActiveRecordings : Z; TotalRecordings : Z; TotalBytesRecorded : Z; TotalPackets : Z }.
Definition GetStats (order : list string) (rc : Recorder) : RecorderStats :=
  foldl (fun st rec =>
      mkRecStats (ActiveRecordings st + (if bool_decide (Status rec = StatusRecording) then 1 else 0)) (TotalRecordings st)
        (u64 (TotalBytesRecorded st + byteCount rec)) (u64 (TotalPackets st + packetCount rec)))
    (mkRecStats 0 (Z.of_nat (size (recordings rc))) 0 0) (ListRecordings order rc).

(** ** The manager

    It shares the configuration of its recorder. *)
Record Manager := mkManager { recorder : Recorder; mixer : AudioMixer }.

Definition NewManager (cfg : option RecordingConfig) (d : disk) : Manager :=
  let c := default DefaultRecordingConfig cfg in
  mkManager (NewRecorder (Some c) d) (NewAudioMixer (cfg_SampleRate c) (BitsPerSample c) (cfg_Channels c)).

Definition m_StartRecording (id sessionID callID format mode : string) (metadata : gmap string string) (zone now : Z) (created : bool) (r : io) (m : Manager) : outcome rec_error string * Manager :=
  let rc := recorder m in
  let rc := if bool_decide (format = EmptyString) then rc else rc <| config ::= fun c => c <| cfg_Format := format |> |> in
  let rc := if bool_decide (mode = EmptyString) then rc else rc <| config ::= fun c => c <| cfg_Mode := mode |> |> in
  let '(res, rc) := StartRecording id sessionID callID metadata zone now created r rc in
  ((let! rec := res in Ok (r_ID rec)), mkManager rc (mixer m)).

Definition on_recorder {A} (f : Recorder -> A * Recorder) (m : Manager) : A * Manager := let '(a, rc) := f (recorder m) in (a, mkManager rc (mixer m)).
Definition m_StopRecording (id : string) (now : Z) (r1 r2 : io) : Manager -> option rec_error * Manager := on_recorder (StopRecording id now r1 r2).
Definition m_PauseRecording (id : string) : Manager -> option rec_error * Manager := on_recorder (PauseRecording id).
Definition m_ResumeRecording (id : string) : Manager -> option rec_error * Manager := on_recorder (ResumeRecording id).
Definition m_GetRecordingStatus (id : string) (m : Manager) : outcome rec_error string :=
  match GetRecording id (recorder m) with None => Err NotFound | Some rec => Ok (status_string (Status rec)) end.

Record RecordingFilter := mkFilter { fl_SessionID : string; fl_CallID : string; fl_Status : string; fl_StartFrom : Z; fl_StartTo : Z }.
Definition matches (f : RecordingFilter) (rec : Recording) : bool :=
  (bool_decide (fl_SessionID f = EmptyString) || bool_decide (r_SessionID rec = fl_SessionID f)) &&
  (bool_decide (fl_CallID f = EmptyString) || bool_decide (r_CallID rec = fl_CallID f)) &&
  (bool_decide (fl_Status f = EmptyString) || bool_decide (status_string (Status rec) = fl_Status f)) &&
  (IsZero (fl_StartFrom f) || negb (Before (StartTime rec) (fl_StartFrom f))) &&
  (IsZero (fl_StartTo f) || negb (After (StartTime rec) (fl_StartTo f))).
Definition m_ListRecordings (order : list string) (f : RecordingFilter) (m : Manager) : list Recording :=
  filter (fun rec => matches f rec = true) (ListRecordings order (recorder m)).

(** The audio of both sides as the configured mode wants it. *)
Definition mix_audio (callerData calleeData : list Z) (m : Manager) : list Z :=
  if bool_decide (cfg_Mode (config (recorder m)) = ModeStereo) then MixStereo (mixer m) callerData calleeData else MixMono (mixer m) callerData calleeData.

Definition to_recording (sessionID : string) (data : list Z) (r : io) (m : Manager) : option rec_error * Manager :=
  match GetRecordingBySession sessionID (recorder m) with
  | None => (None, m)
  | Some rec => if negb (bool_decide (Status rec = StatusRecording)) then (None, m) else on_recorder (WriteAudio (r_ID rec) data r) m
  end.
Definition m_WriteAudio (sessionID : string) (callerData calleeData : list Z) (r : io) (m : Manager) : option rec_error * Manager :=
  to_recording sessionID (mix_audio callerData calleeData m) r m.
Definition to_pcm (payload : list Z) (payloadType : Z) : list Z :=
  if payloadType =? 0 then ConvertG711uToPCM payload else if payloadType =? 8 then ConvertG711aToPCM payload else payload.
Definition WriteRTPPacket (sessionID : string) (payload : list Z) (payloadType : Z) (isCaller : bool) (r : io) (m : Manager) : option rec_error * Manager :=
  to_recording sessionID (to_pcm payload payloadType) r m.

(** One run of the hourly cleanup. *)
Definition cleanupLoop (order : list string) (now : Z) (m : Manager) : Manager := mkManager (CleanupOldRecordings order now (recorder m)).2 (mixer m).
Definition m_Stop (order : list (string * (io * io))) (now : Z) (m : Manager) : option Manager := rc ← Stop order now (recorder m); Some (mkManager rc (mixer m)).

(** An empty file system. *)
Definition no_files : disk := mkDisk ∅ ∅ ∅ 0.

Example path_ex : filePath "/var/lib/karl/recordings" "abc" 0 (1709210096 * Second) = "/var/lib/karl/recordings/2024/02/29/abc_123456.wav"%string.
Proof. vm_compute. reflexivity. Qed.
Example path_escapes : filePath "/var/lib/karl/recordings" "../../../../../../../../etc/cron.d/x" 0 0 = "/etc/cron.d/x_000000.wav"%string.
Proof. vm_compute. reflexivity. Qed.

(** ** Lemmas: files *)

Lemma write_at_end (c data : list Z) : write_at (length c) data c = c ++ data.
Proof. unfold write_at. rewrite firstn_all, Nat.sub_diag, drop_ge by lia. cbn. by rewrite app_nil_r. Qed.

Lemma write_at_inside (a b b' c : list Z) : length b = length b' -> write_at (length a) b' (a ++ b ++ c) = a ++ b' ++ c.
Proof.
  intros Hl. unfold write_at. rewrite take_app_length. replace (length a - length (a ++ b ++ c))%nat with 0%nat by (rewrite length_app; lia). cbn [replicate app].
  by rewrite <- Hl, drop_app_add, drop_app_length.
Qed.

Lemma wav_header_length w a b : length (wav_header w a b) = 44%nat.
Proof. reflexivity. Qed.

(** What a file becomes when its sizes are written. *)
Lemma finish_bytes w n a audio :
  write_at 40 (put32le n) (write_at 4 (put32le a) (wav_header w 0 0 ++ audio)) = wav_header w a n ++ audio.
Proof.
  assert (E1 : write_at 4 (put32le a) (wav_header w 0 0 ++ audio) = wav_header w a 0 ++ audio).
  { unfold wav_header. rewrite <- !(assoc_L (++)). apply (write_at_inside (text "RIFF")). done. }
  rewrite E1. unfold wav_header. rewrite <- !(assoc_L (++)).
  apply (write_at_inside (text "RIFF" ++ put32le a ++ text "WAVE" ++ text "fmt " ++ put32le 16 ++ put16le 1 ++ put16le (u16 (ww_channels w)) ++ put32le (u32 (ww_sampleRate w)) ++
    put32le (u32 (byteRate w)) ++ put16le (u16 (blockAlign w)) ++ put16le (u16 (ww_bitsPerSample w)) ++ text "data") (put32le 0) (put32le n) audio). done.
Qed.

(** Names lead to inodes that exist, one name to each; open files have numbers
    that were given out. *)
Record disk_ok (d : disk) : Prop := {
  names_old : forall p i, names d !! p = Some i -> (i < next d)%nat;
  names_inj : forall p q i, names d !! p = Some i -> names d !! q = Some i -> p = q;
  open_old : forall h f, open_files d !! h = Some f -> (h < next d)%nat /\ (f_inode f < next d)%nat }.

(** ** Specification

    A recording is the audio that was written while it was running. *)
Record call := mkCall { c_session : string; c_status : RecordingStatus; c_audio : list Z; c_end : Z }.
Definition running (c : call) : bool := bool_decide (c_status c = StatusRecording).
Definition ongoing (c : call) : Prop := c_status c = StatusRecording \/ c_status c = StatusPaused.
#[export] Instance ongoing_dec c : Decision (ongoing c).
Proof. unfold ongoing. apply _. Defined.

(** [current] is the recording of a session; [leaked] are the paused ones that
    were deleted, which nothing ends. *)
Record spec := mkSpec { calls : gmap string call; current : gmap string string; leaked : Z }.

Inductive op :=
| OStart (id sessionID callID : string) (metadata : gmap string string) (zone now : Z)
| OWrite (id : string) (data : list Z) | OWriteSession (sessionID : string) (data : list Z) (isCaller : bool)
| OPause (id : string) | OResume (id : string)
| OStop (id : string) (now : Z) | OStopSession (sessionID : string) (now : Z) | ODelete (id : string) (now : Z).

Definition on_call (id : string) (f : call -> call) (s : spec) : spec :=
  mkSpec (alter f id (calls s)) (current s) (leaked s).
Definition spec_write (data : list Z) (c : call) : call := if running c then mkCall (c_session c) (c_status c) (c_audio c ++ data) (c_end c) else c.
Definition spec_pause (c : call) : call := if running c then mkCall (c_session c) StatusPaused (c_audio c) (c_end c) else c.
Definition spec_resume (c : call) : call := if bool_decide (c_status c = StatusPaused) then mkCall (c_session c) StatusRecording (c_audio c) (c_end c) else c.
Definition spec_stop (now : Z) (c : call) : call := if decide (ongoing c) then mkCall (c_session c) StatusCompleted (c_audio c) now else c.
Definition by_session (sessionID : string) (f : string -> spec -> spec) (s : spec) : spec := match current s !! sessionID with Some id => f id s | None => s end.

Definition spec_step (o : op) (s : spec) : spec :=
  match o with
  | OStart id sessionID _ _ _ _ =>
      if (if current s !! sessionID is Some id' then if calls s !! id' is Some c then running c else false else false) then s
      else mkSpec (<[id := mkCall sessionID StatusRecording [] 0]> (calls s)) (<[sessionID := id]> (current s)) (leaked s)
  | OWrite id data => on_call id (spec_write data) s
  | OWriteSession sessionID data _ => by_session sessionID (fun id => on_call id (spec_write data)) s
  | OPause id => on_call id spec_pause s
  | OResume id => on_call id spec_resume s
  | OStop id now => on_call id (spec_stop now) s
  | OStopSession sessionID now => by_session sessionID (fun id => on_call id (spec_stop now)) s
  | ODelete id now =>
      match calls s !! id with
      | None => s
      | Some c => mkSpec (delete id (calls s)) (delete (c_session c) (current s)) (leaked s + if bool_decide (c_status c = StatusPaused) then 1 else 0)
      end
  end.

(** The recorder, with a disk that does not fail. *)
Definition step (o : op) (rc : Recorder) : Recorder :=
  match o with
  | OStart id sessionID callID metadata zone now => (StartRecording id sessionID callID metadata zone now true Done rc).2
  | OWrite id data => (WriteAudio id data Done rc).2
  | OWriteSession sessionID data isCaller => (WriteAudioBySession sessionID data isCaller Done rc).2
  | OPause id => (PauseRecording id rc).2
  | OResume id => (ResumeRecording id rc).2
  | OStop id now => (StopRecording id now Done Done rc).2
  | OStopSession sessionID now => (StopRecordingBySession sessionID now Done Done rc).2
  | ODelete id now => (DeleteRecording id now Done Done rc).2
  end.

(** A new recording has an id and a file of its own. *)
Definition fresh (o : op) (rc : Recorder) : Prop :=
  match o with
  | OStart id _ callID _ zone now => recordings rc !! id = None /\
      forall id' rec, recordings rc !! id' = Some rec -> FilePath rec <> filePath (BasePath (config rc)) callID zone now
  | _ => True
  end.

(** The audio of a recording is in its file, behind the header. *)
Definition in_file (d : disk) (id : string) (rec : Recording) (c : call) : Prop :=
  r_ID rec = id /\ r_SessionID rec = c_session c /\ Status rec = c_status c /\
  exists i w, names d !! FilePath rec = Some i /\ writer rec = Some w /\ dataSize w = u32 (Z.of_nat (length (c_audio c))) /\ headerWritten w = true /\
    if decide (ongoing c) then
      file rec = Some (ww_file w) /\ open_files d !! ww_file w = Some (mkFile i (44 + length (c_audio c))) /\ inodes d !! i = Some (wav_header w 0 0 ++ c_audio c)
    else file rec = None /\ c_status c = StatusCompleted /\ EndTime rec = c_end c /\ inodes d !! i = Some (wav_header w (u32 (dataSize w + 36)) (dataSize w) ++ c_audio c).

Definition open_calls (m : gmap string call) : Z := Z.of_nat (size (filter (fun kv : string * call => ongoing kv.2) m)).

Record implements (rc : Recorder) (s : spec) : Prop := {
  im_disk : disk_ok (files rc);
  im_current : sessionRecs rc = current s;
  im_calls : forall id, match recordings rc !! id, calls s !! id with Some rec, Some c => in_file (files rc) id rec c | None, None => True | _, _ => False end;
  im_paths : forall id id' rec rec', recordings rc !! id = Some rec -> recordings rc !! id' = Some rec' -> FilePath rec = FilePath rec' -> id = id';
  im_gauge : activeRecordings rc = open_calls (calls s) + leaked s }.

Lemma open_insert m id c c' : m !! id = Some c ->
  open_calls (<[id := c']> m) = open_calls m + (if decide (ongoing c') then 1 else 0) - (if decide (ongoing c) then 1 else 0).
Proof.
  intros Hc. unfold open_calls. rewrite map_filter_insert. cbn [snd].
  assert (Hl : filter (fun kv : string * call => ongoing kv.2) m !! id = if decide (ongoing c) then Some c else None).
  { rewrite map_lookup_filter, Hc. cbn. destruct (decide (ongoing c)); cbn; [by rewrite option_guard_True|by rewrite option_guard_False]. }
  destruct (decide (ongoing c')).
  - rewrite map_size_insert, Hl. destruct (decide (ongoing c)); cbn; lia.
  - rewrite map_filter_delete, map_size_delete, Hl. destruct (decide (ongoing c)) as [Ho|Ho]; cbn; [|lia].
    assert (size (filter (fun kv : string * call => ongoing kv.2) m) <> 0%nat); [|lia]. intros E%map_size_empty_iff. rewrite E in Hl. done.
Qed.

Lemma open_new m id c : m !! id = None -> open_calls (<[id := c]> m) = open_calls m + (if decide (ongoing c) then 1 else 0).
Proof.
  intros Hn. unfold open_calls. rewrite map_filter_insert. cbn [snd].
  assert (Hl : filter (fun kv : string * call => ongoing kv.2) m !! id = None) by (rewrite map_lookup_filter, Hn; done).
  destruct (decide (ongoing c)); [rewrite map_size_insert, Hl; lia|]. rewrite delete_id by done. lia.
Qed.

Lemma open_delete m id c : m !! id = Some c -> open_calls (delete id m) = open_calls m - (if decide (ongoing c) then 1 else 0).
Proof.
  intros Hc. pose proof (open_insert m id c (mkCall "" StatusCompleted [] 0) Hc) as E1. pose proof (open_new (delete id m) id (mkCall "" StatusCompleted [] 0) (lookup_delete_eq _ _)) as E2.
  rewrite insert_delete_eq in E2. rewrite E1 in E2. rewrite (decide_False (P := ongoing _)) in E2 by (by intros []). lia.
Qed.

(** ** Lemmas: the frame of an operation *)

(** A recording whose name, inode and open file are left alone stays as it is. *)
Lemma in_file_frame d d' id rec c : in_file d id rec c ->
  names d' !! FilePath rec = names d !! FilePath rec ->
  (forall i, names d !! FilePath rec = Some i -> inodes d' !! i = inodes d !! i) ->
  (forall h, file rec = Some h -> open_files d' !! h = open_files d !! h) -> in_file d' id rec c.
Proof.
  intros (H1 & H2 & H3 & i & w & Hi & Hw & Hs & Hh & Hc) En Ei Eo. split_and!; [done..|]. exists i, w. rewrite En. split_and!; [done..|].
  destruct (decide (ongoing c)); destruct_and! Hc; split_and!; try done; [by rewrite Eo|by rewrite Ei|by rewrite Ei].
Qed.

(** What an operation on the file of one recording may change. *)
Record touches (d d' : disk) (path : string) (h : option nat) : Prop := {
  t_names : names d' = names d;
  t_next : next d' = next d;
  t_inodes : forall i, names d !! path <> Some i -> inodes d' !! i = inodes d !! i;
  t_open : forall k, h <> Some k -> open_files d' !! k = open_files d !! k;
  t_handle : forall k f, open_files d' !! k = Some f -> exists f', open_files d !! k = Some f' /\ f_inode f = f_inode f' }.

Lemma touches_refl d path h : touches d d path h.
Proof. constructor; eauto. Qed.

Lemma touches_trans d d' d'' path h : touches d d' path h -> touches d' d'' path h -> touches d d'' path h.
Proof.
  intros [N X I O H] [N' X' I' O' H']. constructor; [congruence|congruence| | |].
  - intros i Hi. rewrite I'; [by apply I|by rewrite N].
  - intros k Hk. rewrite O', O; done.
  - intros k f Hf. destruct (H' _ _ Hf) as (f' & Hf' & E). destruct (H _ _ Hf') as (f'' & ? & ?). exists f''. split; [done|congruence].
Qed.

Lemma touches_ok d d' path h : disk_ok d -> touches d d' path h -> disk_ok d'.
Proof.
  intros [Ho Hj Hp] [N X I O H]. constructor; rewrite ?N, ?X; [done|done|]. intros k f Hf. destruct (H _ _ Hf) as (f' & Hf' & ->). by apply Hp in Hf'.
Qed.

(** An open file leads to the inode of one recording only. *)
Lemma handles_apart rc s id id' rec rec' c h : implements rc s -> id <> id' -> recordings rc !! id = Some rec -> recordings rc !! id' = Some rec' ->
  calls s !! id = Some c -> ongoing c -> file rec = Some h -> file rec' <> Some h.
Proof.
  intros [Hd Hcur Hc Hp Hg] Hne Hr Hr' Hcall Ho Hf Hf'. pose proof (Hc id) as H1. pose proof (Hc id') as H2. rewrite Hr, Hcall in H1. rewrite Hr' in H2.
  destruct (calls s !! id') as [c'|] eqn:Ec'; [|done]. destruct H1 as (_ & _ & _ & i & w & Hi & Hw & _ & _ & Hst). destruct H2 as (_ & _ & _ & i' & w' & Hi' & Hw' & _ & _ & Hst').
  rewrite decide_True in Hst by done. destruct Hst as (Hst & Hopen & _). destruct (decide (ongoing c')); [|by destruct Hst'; congruence].
  destruct Hst' as (Hst' & Hopen' & _). assert (ww_file w' = ww_file w) as Ew by congruence. rewrite Ew, Hopen in Hopen'. injection Hopen' as <- _.
  apply Hne, (Hp _ _ _ _ Hr Hr'). by apply (names_inj _ Hd _ _ i).
Qed.

(** An operation on one recording that touches only its file. *)
Lemma implements_update rc s id rec c rec' c' rc' : implements rc s -> recordings rc !! id = Some rec -> calls s !! id = Some c ->
  recordings rc' = <[id := rec']> (recordings rc) -> sessionRecs rc' = sessionRecs rc ->
  FilePath rec' = FilePath rec -> touches (files rc) (files rc') (FilePath rec) (file rec) -> (ongoing c \/ files rc' = files rc) -> in_file (files rc') id rec' c' ->
  activeRecordings rc' = activeRecordings rc + (if decide (ongoing c') then 1 else 0) - (if decide (ongoing c) then 1 else 0) ->
  implements rc' (mkSpec (<[id := c']> (calls s)) (current s) (leaked s)).
Proof.
  intros Him Hr Hcall Er Es Hpath Ht Hon Hin Eg. pose proof Him as [Hd Hcur Hc Hp Hg]. constructor; cbn [calls current leaked]; rewrite ?Er, ?Es, ?Eg.
  - by eapply touches_ok.
  - done.
  - intros id'. destruct (decide (id' = id)) as [->|Hne]; [by rewrite !lookup_insert_eq|]. rewrite !lookup_insert_ne by done.
    specialize (Hc id'). destruct (recordings rc !! id') as [rec1|] eqn:E1, (calls s !! id') as [c1|] eqn:E2; try done.
    apply (in_file_frame (files rc)); [done|by rewrite (t_names _ _ _ _ Ht)| |].
    + intros i Hi. apply (t_inodes _ _ _ _ Ht). intros Hi'. apply Hne. apply (Hp _ _ _ _ E1 Hr). by apply (names_inj _ Hd _ _ i).
    + intros h Hh. destruct Hon as [Hon|Hon]; [|by rewrite Hon]. apply (t_open _ _ _ _ Ht). intros Hh'. by apply (handles_apart _ _ _ _ _ _ _ _ Him (not_eq_sym Hne) Hr E1 Hcall Hon Hh').
  - intros id1 id2 rec1 rec2 H1 H2 Hpp. destruct (decide (id1 = id)) as [->|N1], (decide (id2 = id)) as [->|N2]; [done| | |].
    + rewrite lookup_insert_eq in H1. rewrite lookup_insert_ne in H2 by done. injection H1 as <-. apply (Hp _ _ _ _ Hr H2). congruence.
    + rewrite lookup_insert_eq in H2. rewrite lookup_insert_ne in H1 by done. injection H2 as <-. apply (Hp _ _ _ _ H1 Hr). congruence.
    + rewrite lookup_insert_ne in H1, H2 by done. by apply (Hp _ _ _ _ H1 H2).
  - rewrite (open_insert _ _ _ _ Hcall). lia.
Qed.

(** ** Lemmas: writing to the file of a recording *)

Lemma Write_done d h i off old data path : open_files d !! h = Some (mkFile i off) -> inodes d !! i = Some old -> names d !! path = Some i ->
  exists d', Write h data Done d = (length data, true, d') /\ touches d d' path (Some h) /\
    open_files d' !! h = Some (mkFile i (off + length data)) /\ inodes d' !! i = Some (write_at off data old) /\ names d' !! path = Some i.
Proof.
  intros Ho Hi Hn. unfold Write. rewrite Ho. cbn [f_inode f_offset io_bytes io_ok]. rewrite Hi. cbn [default]. eexists. split; [reflexivity|]. split_and!.
  - constructor; try done.
    + intros j Hj. apply lookup_insert_ne. congruence.
    + intros k Hk. apply lookup_insert_ne. congruence.
    + intros k f Hf. cbn in Hf. destruct (decide (k = h)) as [->|Hk].
      * rewrite lookup_insert_eq in Hf. injection Hf as <-. by exists (mkFile i off).
      * rewrite lookup_insert_ne in Hf by done. by exists f.
  - apply lookup_insert_eq.
  - apply lookup_insert_eq.
  - done.
Qed.

Lemma Seek_done d h i off n path : open_files d !! h = Some (mkFile i off) -> names d !! path = Some i ->
  exists d', Seek h n d = Some d' /\ touches d d' path (Some h) /\ open_files d' !! h = Some (mkFile i n) /\ inodes d' = inodes d /\ names d' !! path = Some i.
Proof.
  intros Ho Hn. unfold Seek. rewrite Ho. cbn [mbind option_bind f_inode]. eexists. split; [reflexivity|]. split_and!; [|apply lookup_insert_eq|done|done].
  constructor; try done.
  - intros k Hk. apply lookup_insert_ne. congruence.
  - intros k f Hf. cbn in Hf. destruct (decide (k = h)) as [->|Hk].
    + rewrite lookup_insert_eq in Hf. injection Hf as <-. by exists (mkFile i off).
    + rewrite lookup_insert_ne in Hf by done. by exists f.
Qed.

Lemma Close_touches d h path : touches d (Close h d) path (Some h).
Proof.
  constructor; try done.
  - intros k Hk. apply lookup_delete_ne. congruence.
  - intros k f Hf. cbn in Hf. apply lookup_delete_Some in Hf as [_ Hf]. by exists f.
Qed.

Lemma Finalize_done d w i off audio path : headerWritten w = true -> open_files d !! ww_file w = Some (mkFile i off) -> inodes d !! i = Some (wav_header w 0 0 ++ audio) ->
  names d !! path = Some i ->
  exists d', Finalize Done Done w d = (true, d') /\ touches d d' path (Some (ww_file w)) /\
    inodes d' !! i = Some (wav_header w (u32 (dataSize w + 36)) (dataSize w) ++ audio) /\ names d' !! path = Some i.
Proof.
  intros Hw Ho Hi Hn. unfold Finalize. rewrite Hw. cbn [negb]. destruct (Seek_done d _ _ _ 4 path Ho Hn) as (d1 & -> & T1 & O1 & I1 & N1). rewrite <- I1 in Hi.
  destruct (Write_done d1 _ _ _ _ (put32le (u32 (dataSize w + 36))) path O1 Hi N1) as (d2 & -> & T2 & O2 & I2 & N2). cbn [negb].
  destruct (Seek_done d2 _ _ _ 40 path O2 N2) as (d3 & -> & T3 & O3 & I3 & N3). rewrite <- I3 in I2.
  destruct (Write_done d3 _ _ _ _ (put32le (dataSize w)) path O3 I2 N3) as (d4 & -> & T4 & O4 & I4 & N4). exists d4. split; [done|]. split_and!; [|by rewrite I4, finish_bytes|done].
  do 3 (eapply touches_trans; [eassumption|]). done.
Qed.

(** ** Lemmas: operations *)

Lemma implements_lookup rc s id rec : implements rc s -> recordings rc !! id = Some rec -> exists c, calls s !! id = Some c /\ in_file (files rc) id rec c.
Proof. intros [_ _ Hc _ _] Hr. specialize (Hc id). rewrite Hr in Hc. destruct (calls s !! id) as [c|]; [by exists c|done]. Qed.

Lemma implements_none rc s id : implements rc s -> recordings rc !! id = None -> calls s !! id = None.
Proof. intros [_ _ Hc _ _] Hr. specialize (Hc id). rewrite Hr in Hc. by destruct (calls s !! id). Qed.

Lemma on_call_some s id c f : calls s !! id = Some c -> on_call id f s = mkSpec (<[id := f c]> (calls s)) (current s) (leaked s).
Proof. intros Hc. unfold on_call. f_equal. apply map_eq. intros k. destruct (decide (k = id)) as [->|Hk]; [by rewrite lookup_alter_eq, lookup_insert_eq, Hc|by rewrite lookup_alter_ne, lookup_insert_ne]. Qed.

Lemma on_call_same s id c f : calls s !! id = Some c -> f c = c -> on_call id f s = s.
Proof. intros Hc Hf. rewrite (on_call_some _ _ c) by done. rewrite Hf, insert_id by done. by destruct s. Qed.

Lemma on_call_none s id f : calls s !! id = None -> on_call id f s = s.
Proof. intros Hc. unfold on_call. destruct s as [m cur l]. cbn in *. f_equal. apply map_eq. intros k. destruct (decide (k = id)) as [->|Hk]; [by rewrite lookup_alter_eq, Hc|by rewrite lookup_alter_ne]. Qed.

Lemma add_u32 a b : u32 (u32 a + u32 b) = u32 (a + b).
Proof. unfold wrapu. rewrite <- Z.add_mod by lia. done. Qed.

Lemma write_implements rc s id data : implements rc s -> implements (WriteAudio id data Done rc).2 (on_call id (spec_write data) s).
Proof.
  intros Him. unfold WriteAudio. destruct (recordings rc !! id) as [rec|] eqn:Hr; [|rewrite on_call_none by (by eapply implements_none); done].
  destruct (implements_lookup _ _ _ _ Him Hr) as (c & Hc & Hin). pose proof Hin as (H1 & H2 & H3 & i & w & Hi & Hw & Hs & Hh & Hst).
  case_bool_decide as Hrec; cbn [negb]; [|rewrite (on_call_same _ _ c) by (done || (unfold spec_write, running; rewrite bool_decide_false by congruence; done)); done].
  assert (Hon : ongoing c) by (left; congruence). rewrite decide_True in Hst by done. destruct Hst as (Hf & Ho & Hino). rewrite Hw. unfold WriteData. rewrite Hh. cbn [negb].
  destruct (Write_done _ _ _ _ _ data _ Ho Hino Hi) as (d' & -> & T & O' & I' & N'). rewrite (on_call_some _ _ c) by done. cbn [snd].
  eapply implements_update; [exact Him|exact Hr|exact Hc|reflexivity|reflexivity|reflexivity|by rewrite Hf|by left| |].
  - unfold spec_write, running. rewrite bool_decide_true by congruence. split_and!; [done..|]. exists i. eexists. split_and!; [done|reflexivity| |done|].
    + cbn. rewrite Hs, add_u32, length_app. f_equal. lia.
    + cbn [c_status c_audio]. rewrite decide_True by (left; cbn; congruence). split_and!; [done| |].
      * cbn. by rewrite O', length_app.
      * cbn. rewrite I'. replace (44 + length (c_audio c))%nat with (length (wav_header w 0 0 ++ c_audio c)) by (rewrite length_app; done). by rewrite write_at_end, <- (assoc_L (++)).
  - cbn. unfold spec_write, running. rewrite bool_decide_true by congruence. rewrite !decide_True by (done || (left; cbn; congruence)). lia.
Qed.

(** A change of status between recording and paused. *)
Lemma status_implements rc s id rec c st : implements rc s -> recordings rc !! id = Some rec -> calls s !! id = Some c -> ongoing c -> (st = StatusRecording \/ st = StatusPaused) ->
  implements (rc <| recordings ::= <[id := rec <| Status := st |>]> |>) (mkSpec (<[id := mkCall (c_session c) st (c_audio c) (c_end c)]> (calls s)) (current s) (leaked s)).
Proof.
  intros Him Hr Hc Hon Hst. destruct (implements_lookup _ _ _ _ Him Hr) as (c0 & Hc0 & Hin). rewrite Hc in Hc0. injection Hc0 as <-. destruct Hin as (H1 & H2 & H3 & i & w & Hi & Hw & Hs & Hh & Hf).
  eapply implements_update; [exact Him|exact Hr|exact Hc|reflexivity|reflexivity|reflexivity|apply touches_refl|by left| |].
  - split_and!; [done..|]. exists i, w. split_and!; [done..|]. rewrite decide_True by (by destruct Hst; [left|right]). by rewrite decide_True in Hf by done.
  - rewrite !decide_True by (done || by destruct Hst; [left|right]). cbn. lia.
Qed.

Lemma pause_implements rc s id : implements rc s -> implements (PauseRecording id rc).2 (on_call id spec_pause s).
Proof.
  intros Him. unfold PauseRecording. destruct (recordings rc !! id) as [rec|] eqn:Hr; [|rewrite on_call_none by (by eapply implements_none); done].
  destruct (implements_lookup _ _ _ _ Him Hr) as (c & Hc & Hin). pose proof Hin as (_ & _ & H3 & _). case_bool_decide as Hb; cbn [snd].
  - rewrite (on_call_some _ _ c) by done. unfold spec_pause, running. rewrite bool_decide_true by congruence. apply status_implements; [done..|left; congruence|by right].
  - rewrite (on_call_same _ _ c); [done..|]. unfold spec_pause, running. by rewrite bool_decide_false by congruence.
Qed.

Lemma resume_implements rc s id : implements rc s -> implements (ResumeRecording id rc).2 (on_call id spec_resume s).
Proof.
  intros Him. unfold ResumeRecording. destruct (recordings rc !! id) as [rec|] eqn:Hr; [|rewrite on_call_none by (by eapply implements_none); done].
  destruct (implements_lookup _ _ _ _ Him Hr) as (c & Hc & Hin). pose proof Hin as (_ & _ & H3 & _). case_bool_decide as Hb; cbn [snd].
  - rewrite (on_call_some _ _ c) by done. unfold spec_resume. rewrite bool_decide_true by congruence. apply status_implements; [done..|right; congruence|by left].
  - rewrite (on_call_same _ _ c); [done..|]. unfold spec_resume. by rewrite bool_decide_false by congruence.
Qed.

Lemma stop_implements rc s id rec now : implements rc s -> recordings rc !! id = Some rec -> implements (stopRecordingInternal id rec now Done Done rc) (on_call id (spec_stop now) s).
Proof.
  intros Him Hr. destruct (implements_lookup _ _ _ _ Him Hr) as (c & Hc & Hin). pose proof Hin as (H1 & H2 & H3 & i & w & Hi & Hw & Hs & Hh & Hst). unfold stopRecordingInternal.
  destruct (decide (ongoing c)) as [Ho|Ho].
  - assert (negb (bool_decide (Status rec = StatusRecording)) && negb (bool_decide (Status rec = StatusPaused)) = false) as ->.
    { destruct Ho; [rewrite bool_decide_true by congruence|rewrite (bool_decide_true (_ = StatusPaused)) by congruence]; cbn; [done|by rewrite andb_false_r]. }
    destruct Hst as (Hf & Hopen & Hino). rewrite Hw, Hf. destruct (Finalize_done _ _ _ _ _ _ Hh Hopen Hino Hi) as (d' & -> & T & I' & N'). cbn [snd].
    rewrite (on_call_some _ _ c) by done. unfold spec_stop. rewrite decide_True by done.
    eapply implements_update; [exact Him|exact Hr|exact Hc|reflexivity|reflexivity|reflexivity| |by left| |].
    + cbn [files]. rewrite Hf. eapply touches_trans; [exact T|]. apply Close_touches.
    + split_and!; [done..|]. exists i, w. split_and!; [done..|]. rewrite decide_False by (by intros []). split_and!; [done..|]. exact I'.
    + rewrite (decide_False (P := ongoing _)), decide_True by (done || by intros []). cbn. lia.
  - destruct Hst as (Hf & Hcompl & _). assert (negb (bool_decide (Status rec = StatusRecording)) && negb (bool_decide (Status rec = StatusPaused)) = true) as ->.
    { by rewrite !bool_decide_false by congruence. }
    rewrite (on_call_same _ _ c); [done..|]. unfold spec_stop. by rewrite decide_False by done.
Qed.

Lemma stop_lookup id rec now r1 r2 rc id' : id' <> id -> recordings (stopRecordingInternal id rec now r1 r2 rc) !! id' = recordings rc !! id'.
Proof. intros Hne. unfold stopRecordingInternal. destruct (_ && _); [done|]. cbn. by rewrite lookup_insert_ne. Qed.

(** A recording that is dropped leaves the others alone. *)
Lemma drop_implements rc s id rec c n : implements rc s -> recordings rc !! id = Some rec -> calls s !! id = Some c -> n = (if decide (ongoing c) then 1 else 0) ->
  implements (drop_recording id rec rc) (mkSpec (delete id (calls s)) (delete (c_session c) (current s)) (leaked s + n)).
Proof.
  intros Him Hr Hc ->. pose proof Him as [Hd Hcur Hcalls Hp Hg]. destruct (implements_lookup _ _ _ _ Him Hr) as (c0 & Hc0 & Hin). rewrite Hc in Hc0. injection Hc0 as <-.
  destruct Hin as (_ & H2 & _). unfold drop_recording. set (rc1 := if bool_decide _ then rc else _).
  assert (E : recordings rc1 = recordings rc /\ sessionRecs rc1 = sessionRecs rc /\ activeRecordings rc1 = activeRecordings rc /\ inodes (files rc1) = inodes (files rc) /\
    open_files (files rc1) = open_files (files rc) /\ next (files rc1) = next (files rc) /\ (names (files rc1) = names (files rc) \/ names (files rc1) = delete (FilePath rec) (names (files rc)))).
  { unfold rc1. case_bool_decide; split_and!; try done; [by left|by right]. }
  destruct E as (E1 & E2 & E3 & E4 & E5 & E6 & E7).
  assert (En : forall p, p <> FilePath rec -> names (files rc1) !! p = names (files rc) !! p) by (intros p Hpne; destruct E7 as [->| ->]; [done|by rewrite lookup_delete_ne by congruence]).
  assert (Es : forall p i, names (files rc1) !! p = Some i -> names (files rc) !! p = Some i) by (intros p i Hi; destruct E7 as [E|E]; rewrite E in Hi; [done|by apply lookup_delete_Some in Hi as [_ ?]]).
  constructor; cbn.
  - constructor; rewrite ?E5, ?E6; [intros p i Hi; by apply (names_old _ Hd p), Es|intros p q i P1 P2; by apply (names_inj _ Hd p q i); apply Es|apply (open_old _ Hd)].
  - by rewrite E2, H2, Hcur.
  - intros id'. rewrite E1. destruct (decide (id' = id)) as [->|Hne]; [by rewrite !lookup_delete_eq|]. rewrite !lookup_delete_ne by done. specialize (Hcalls id').
    destruct (recordings rc !! id') as [rec'|] eqn:Er', (calls s !! id') as [c'|]; try done. apply (in_file_frame (files rc)); [done| |by rewrite E4|by rewrite E5].
    apply En. intros Hpp. apply Hne, (Hp _ _ _ _ Er' Hr Hpp).
  - intros id1 id2 rec1 rec2. rewrite E1. intros [_ R1]%lookup_delete_Some [_ R2]%lookup_delete_Some. by apply Hp.
  - rewrite E3, Hg, (open_delete _ _ _ Hc). lia.
Qed.

Lemma drop_same id rec rec' rc : FilePath rec = FilePath rec' -> r_SessionID rec = r_SessionID rec' -> drop_recording id rec rc = drop_recording id rec' rc.
Proof. intros H1 H2. unfold drop_recording. by rewrite H1, H2. Qed.

Lemma stopped_entry id rec now r1 r2 rc : recordings rc !! id = Some rec ->
  exists rec', recordings (stopRecordingInternal id rec now r1 r2 rc) !! id = Some rec' /\ FilePath rec' = FilePath rec /\ r_SessionID rec' = r_SessionID rec.
Proof. intros Hr. unfold stopRecordingInternal. destruct (_ && _); [by exists rec|]. cbn. eexists. split; [apply lookup_insert_eq|done]. Qed.

Lemma delete_implements rc s id now : implements rc s -> implements (DeleteRecording id now Done Done rc).2 (spec_step (ODelete id now) s).
Proof.
  intros Him. unfold DeleteRecording. cbn [spec_step]. destruct (recordings rc !! id) as [rec|] eqn:Hr; [|by rewrite (implements_none _ _ _ Him Hr)].
  destruct (implements_lookup _ _ _ _ Him Hr) as (c & Hc & Hin). rewrite Hc. pose proof Hin as (_ & _ & H3 & _). cbn [snd]. case_bool_decide as Hb.
  - pose proof (stop_implements _ _ _ _ now Him Hr) as Hs. destruct (stopped_entry id rec now Done Done rc Hr) as (rec' & Hr' & Hp & Hss).
    rewrite (on_call_some _ _ c) in Hs by done. unfold spec_stop in Hs. rewrite decide_True in Hs by (left; congruence).
    rewrite (drop_same _ rec rec') by done. pose proof (drop_implements _ _ _ _ _ 0 Hs Hr' (lookup_insert_eq _ _ _)) as Hd. cbn in Hd.
    rewrite delete_insert_eq in Hd. rewrite (bool_decide_false (_ = StatusPaused)) by congruence. apply Hd. by rewrite decide_False by (by intros []).
  - apply drop_implements; [done..|]. destruct Hin as (_ & _ & _ & i & w & _ & _ & _ & _ & Hst). case_bool_decide as Hpz.
    + by rewrite decide_True by (by right).
    + by rewrite decide_False by (intros []; congruence).
Qed.

(** A file that is created has an inode no other name leads to. *)
Lemma Create_new d path h d1 : disk_ok d -> Create path d = (h, d1) ->
  disk_ok d1 /\ exists i, open_files d1 !! h = Some (mkFile i 0) /\ inodes d1 !! i = Some [] /\ names d1 !! path = Some i /\
    (forall p, p <> path -> names d1 !! p = names d !! p /\ names d !! p <> Some i) /\ (forall k, k <> i -> inodes d1 !! k = inodes d !! k) /\
    (forall k, k <> h -> open_files d1 !! k = open_files d !! k) /\ (forall f, open_files d !! h <> Some f).
Proof.
  intros Hd [= <- <-]. set (i := default (next d) (names d !! path)).
  assert (Hi : forall p, names d !! p = Some i -> p = path).
  { intros p Hi. unfold i in Hi. destruct (names d !! path) as [j|] eqn:Ej; cbn in Hi; [by apply (names_inj _ Hd p path j)|]. apply (names_old _ Hd) in Hi. lia. }
  assert (Hold : (i <= next d)%nat). { unfold i. destruct (names d !! path) as [j|] eqn:Ej; cbn; [apply (names_old _ Hd) in Ej; lia|done]. }
  split; [constructor; cbn|exists i; cbn; split_and!; try apply lookup_insert_eq].
  - intros p j Hj. destruct (decide (p = path)) as [->|Hne]; [rewrite lookup_insert_eq in Hj; injection Hj as <-; lia|]. rewrite lookup_insert_ne in Hj by done. apply (names_old _ Hd) in Hj. lia.
  - intros p q j Hpj Hqj. destruct (decide (p = path)) as [->|Np], (decide (q = path)) as [->|Nq]; [done| | |].
    + rewrite lookup_insert_eq in Hpj. rewrite lookup_insert_ne in Hqj by done. injection Hpj as <-. symmetry. by apply Hi.
    + rewrite lookup_insert_eq in Hqj. rewrite lookup_insert_ne in Hpj by done. injection Hqj as <-. by apply Hi.
    + rewrite lookup_insert_ne in Hpj, Hqj by done. by apply (names_inj _ Hd p q j).
  - intros k f Hk. destruct (decide (k = next d)) as [->|Nk]; [rewrite lookup_insert_eq in Hk; injection Hk as <-; cbn; lia|]. rewrite lookup_insert_ne in Hk by done. apply (open_old _ Hd) in Hk. lia.
  - intros p Hp. split; [by apply lookup_insert_ne|]. intros E. by apply Hp, Hi.
  - intros k Hk. by apply lookup_insert_ne.
  - intros k Hk. by apply lookup_insert_ne.
  - intros f Hf. apply (open_old _ Hd) in Hf. lia.
Qed.

(** A new recording is set up beside the others. *)
Lemma implements_new rc s id sessionID rec rc' : implements rc s -> recordings rc !! id = None -> disk_ok (files rc') ->
  recordings rc' = <[id := rec]> (recordings rc) -> sessionRecs rc' = <[sessionID := id]> (sessionRecs rc) -> activeRecordings rc' = activeRecordings rc + 1 ->
  (forall id' rec', recordings rc !! id' = Some rec' -> FilePath rec' <> FilePath rec) ->
  in_file (files rc') id rec (mkCall sessionID StatusRecording [] 0) ->
  (forall id' rec' c', recordings rc !! id' = Some rec' -> in_file (files rc) id' rec' c' -> in_file (files rc') id' rec' c') ->
  implements rc' (mkSpec (<[id := mkCall sessionID StatusRecording [] 0]> (calls s)) (<[sessionID := id]> (current s)) (leaked s)).
Proof.
  intros Him Hid Hd' Er Es Eg Hpath Hnew Hold. pose proof Him as [Hd Hcur Hcalls Hp Hg]. constructor; cbn [calls current leaked]; rewrite ?Er, ?Es, ?Eg.
  - done.
  - by rewrite Hcur.
  - intros id'. destruct (decide (id' = id)) as [->|Hne]; [by rewrite !lookup_insert_eq|]. rewrite !lookup_insert_ne by done.
    specialize (Hcalls id'). destruct (recordings rc !! id') as [rec'|] eqn:E1, (calls s !! id') as [c'|]; try done. by apply Hold.
  - intros id1 id2 rec1 rec2 R1 R2 Hpp. destruct (decide (id1 = id)) as [->|N1], (decide (id2 = id)) as [->|N2]; [done| | |].
    + rewrite lookup_insert_eq in R1. rewrite lookup_insert_ne in R2 by done. injection R1 as <-. by apply Hpath in R2.
    + rewrite lookup_insert_eq in R2. rewrite lookup_insert_ne in R1 by done. injection R2 as <-. by apply Hpath in R1.
    + rewrite lookup_insert_ne in R1, R2 by done. by apply (Hp _ _ _ _ R1 R2).
  - rewrite open_new by (by eapply implements_none). rewrite decide_True by (by left). rewrite Hg. lia.
Qed.

(** Whether the session has a recording that runs. *)
Lemma busy_same rc s sessionID : implements rc s ->
  (if sessionRecs rc !! sessionID is Some recID then if recordings rc !! recID is Some rec then bool_decide (Status rec = StatusRecording) else false else false) =
  (if current s !! sessionID is Some id' then if calls s !! id' is Some c then running c else false else false).
Proof.
  intros [_ <- Hcalls _ _]. destruct (sessionRecs rc !! sessionID) as [id'|]; [|done]. specialize (Hcalls id'). destruct (recordings rc !! id') as [rec|], (calls s !! id') as [c|]; try done.
  destruct Hcalls as (_ & _ & H3 & _). unfold running. by rewrite H3.
Qed.

Lemma start_implements rc s id sessionID callID metadata zone now : implements rc s -> fresh (OStart id sessionID callID metadata zone now) rc ->
  implements (StartRecording id sessionID callID metadata zone now true Done rc).2 (spec_step (OStart id sessionID callID metadata zone now) s).
Proof.
  intros Him (Hid & Hpath). unfold StartRecording. cbn [spec_step]. rewrite (busy_same _ _ _ Him). destruct (match current s !! sessionID with Some _ => _ | None => false end); [done|].
  cbn [negb]. set (path := filePath _ _ _ _) in *. destruct (Create path (files rc)) as [h d1] eqn:Ecr.
  destruct (Create_new _ _ _ _ (im_disk _ _ Him) Ecr) as (Hd1 & i & O1 & I1 & N1 & Hn & Hi & Ho & Hh). set (w := NewWAVWriter h _ _ _). unfold WriteHeader.
  destruct (Write_done d1 h i 0 [] (wav_header w 0 0) path O1 I1 N1) as (d2 & E & T & O2 & I2 & N2). change (ww_file w) with h. rewrite E. cbn [snd].
  eapply implements_new; [exact Him|exact Hid|by eapply touches_ok|reflexivity|reflexivity|cbn; lia|exact Hpath| |].
  - split_and!; [done..|]. exists i. eexists. split_and!; [exact N2|reflexivity|done|done|]. rewrite decide_True by (by left). split_and!; [done|exact O2|]. cbn [c_audio]. rewrite app_nil_r. exact I2.
  - intros id' rec' c' Hr' Hin. assert (Hpne : FilePath rec' <> path) by (by apply (Hpath id')). destruct (Hn _ Hpne) as [Hn1 Hn2].
    apply (in_file_frame (files rc)); [done|by cbn; rewrite (t_names _ _ _ _ T)| |].
    + intros k Hk. cbn. rewrite (t_inodes _ _ _ _ T) by (rewrite N1; congruence). apply Hi. congruence.
    + intros k Hk. destruct Hin as (_ & _ & _ & i1 & w1 & _ & _ & _ & _ & Hst). destruct (decide (ongoing c')); [|by destruct Hst; congruence].
      destruct Hst as (Hf & Hopen & _). assert (k = ww_file w1) as -> by congruence. assert (ww_file w1 <> h) by (intros E'; rewrite E' in Hopen; by eapply Hh).
      cbn. by rewrite (t_open _ _ _ _ T), Ho by congruence.
Qed.

Lemma step_implements o rc s : implements rc s -> fresh o rc -> implements (step o rc) (spec_step o s).
Proof.
  intros Him Hf. destruct o as [id sid cid md z n|id data|sid data b|id|id|id n|sid n|id n]; cbn [step].
  - by apply start_implements.
  - by apply write_implements.
  - unfold WriteAudioBySession. cbn [spec_step]. unfold by_session. rewrite <- (im_current _ _ Him). destruct (sessionRecs rc !! sid); [by apply write_implements|done].
  - by apply pause_implements.
  - by apply resume_implements.
  - cbn [spec_step]. unfold StopRecording. destruct (recordings rc !! id) eqn:Hr; cbn [snd]; [by apply stop_implements|by rewrite on_call_none by (by eapply implements_none)].
  - unfold StopRecordingBySession. cbn [spec_step]. unfold by_session. rewrite <- (im_current _ _ Him). destruct (sessionRecs rc !! sid) as [id|]; [|done].
    destruct (recordings rc !! id) eqn:Hr; cbn [snd]; [by apply stop_implements|by rewrite on_call_none by (by eapply implements_none)].
  - by apply delete_implements.
Qed.

(** ** Guarantees: the recorder *)

Definition run (ops : list op) (rc : Recorder) : Recorder := foldl (fun rc o => step o rc) rc ops.
Definition spec_run (ops : list op) (s : spec) : spec := foldl (fun s o => spec_step o s) s ops.
Definition nothing : spec := mkSpec ∅ ∅ 0.

(** Every recording that is started has an id and a file of its own. *)
Fixpoint all_fresh (ops : list op) (rc : Recorder) : Prop := match ops with [] => True | o :: ops => fresh o rc /\ all_fresh ops (step o rc) end.

Lemma new_implements cfg d : disk_ok d -> implements (NewRecorder cfg d) nothing.
Proof. intros Hd. constructor; try done. Qed.

Lemma run_implements ops : forall rc s, implements rc s -> all_fresh ops rc -> implements (run ops rc) (spec_run ops s).
Proof. induction ops as [|o ops IH]; intros rc s Him Hf; [done|]. destruct Hf as [Hf Hfs]. apply IH; [by apply step_implements|done]. Qed.

(** C7: the recorder keeps what it should. On a disk that works, and as long as every
    recording is started with an id and a path no recording in the table has (two of one call in
    the same second have the same path: [same_second_overwrites]), however
    recordings are started, fed, paused, resumed, stopped and deleted, the recorder
    is in step with a specification in which a recording is a status and the audio
    written while it ran: the file of every recording is a header and just that
    audio, the session table leads to the same recording, and the gauge counts the
    recordings under way and those deleted while paused. *)
Theorem recorder_refines cfg d ops : disk_ok d -> all_fresh ops (NewRecorder cfg d) -> implements (run ops (NewRecorder cfg d)) (spec_run ops nothing).
Proof. intros Hd Hf. by apply run_implements; [apply new_implements|]. Qed.

(** The parameters of a writer are those of the configuration. *)
Definition params_ok (rc : Recorder) : Prop := forall id rec w, recordings rc !! id = Some rec -> writer rec = Some w ->
  ww_sampleRate w = cfg_SampleRate (config rc) /\ ww_bitsPerSample w = BitsPerSample (config rc) /\ ww_channels w = cfg_Channels (config rc).

Lemma params_insert rc rc' id rec' : params_ok rc -> config rc' = config rc -> recordings rc' = <[id := rec']> (recordings rc) ->
  (forall w, writer rec' = Some w -> ww_sampleRate w = cfg_SampleRate (config rc) /\ ww_bitsPerSample w = BitsPerSample (config rc) /\ ww_channels w = cfg_Channels (config rc)) ->
  params_ok rc' /\ config rc' = config rc.
Proof.
  intros Hp Ec Er Hw. split; [|done]. intros id1 rec1 w1 Hr1 Hw1. rewrite Ec. rewrite Er in Hr1. destruct (decide (id1 = id)) as [->|Hne]; [|rewrite lookup_insert_ne in Hr1 by done; by eapply Hp].
  rewrite lookup_insert_eq in Hr1. injection Hr1 as <-. by apply Hw.
Qed.

Lemma params_write id data rc : params_ok rc -> params_ok (WriteAudio id data Done rc).2 /\ config (WriteAudio id data Done rc).2 = config rc.
Proof.
  intros Hp. unfold WriteAudio. destruct (recordings rc !! id) as [rec|] eqn:Hr; [|done]. destruct (negb _); [done|]. destruct (writer rec) as [w|] eqn:Hw; [|done]. unfold WriteData, Write.
  destruct (negb (headerWritten w)); [done|]. destruct (open_files (files rc) !! ww_file w) as [f|]; [|done]. cbn [io_ok io_bytes snd]. eapply params_insert; [done|done|reflexivity|].
  intros w' [= <-]. by apply (Hp _ _ _ Hr Hw).
Qed.

Lemma params_stop id rec now rc : params_ok rc -> recordings rc !! id = Some rec ->
  params_ok (stopRecordingInternal id rec now Done Done rc) /\ config (stopRecordingInternal id rec now Done Done rc) = config rc.
Proof. intros Hp Hr. unfold stopRecordingInternal. destruct (_ && _); [done|]. eapply params_insert; [done|done|reflexivity|]. intros w Hw. by apply (Hp _ _ _ Hr Hw). Qed.

Lemma params_drop id rec rc : params_ok rc -> params_ok (drop_recording id rec rc) /\ config (drop_recording id rec rc) = config rc.
Proof.
  intros Hp. unfold drop_recording. assert (E : forall b : bool, config (if b then rc else rc <| files ::= Remove (FilePath rec) |>) = config rc /\ recordings (if b then rc else rc <| files ::= Remove (FilePath rec) |>) = recordings rc) by (by intros []).
  destruct (E (bool_decide (FilePath rec = EmptyString))) as [Ec Er]. split; [|by cbn]. intros id1 rec1 w1. cbn. rewrite Ec, Er. intros [_ Hr]%lookup_delete_Some Hw. by apply (Hp _ _ _ Hr Hw).
Qed.

Lemma params_step o rc : params_ok rc -> params_ok (step o rc) /\ config (step o rc) = config rc.
Proof.
  intros Hp. destruct o as [id sid cid md z n|id data|sid data b|id|id|id n|sid n|id n]; cbn [step].
  - unfold StartRecording. destruct (match sessionRecs rc !! sid with Some _ => _ | None => false end); [done|]. cbn [negb Create]. unfold WriteHeader, Write. cbn [ww_file NewWAVWriter open_files].
    rewrite lookup_insert_eq. cbn [io_ok snd]. eapply params_insert; [done|done|reflexivity|]. by intros w [= <-].
  - by apply params_write.
  - unfold WriteAudioBySession. destruct (sessionRecs rc !! sid); [by apply params_write|done].
  - unfold PauseRecording. destruct (recordings rc !! id) as [rec|] eqn:Hr; [|done]. case_bool_decide; [|done]. eapply params_insert; [done|done|reflexivity|]. intros w Hw. by apply (Hp _ _ _ Hr Hw).
  - unfold ResumeRecording. destruct (recordings rc !! id) as [rec|] eqn:Hr; [|done]. case_bool_decide; [|done]. eapply params_insert; [done|done|reflexivity|]. intros w Hw. by apply (Hp _ _ _ Hr Hw).
  - unfold StopRecording. destruct (recordings rc !! id) as [rec|] eqn:Hr; [|done]. by apply params_stop.
  - unfold StopRecordingBySession. destruct (sessionRecs rc !! sid) as [id|]; [|done]. destruct (recordings rc !! id) as [rec|] eqn:Hr; [|done]. by apply params_stop.
  - unfold DeleteRecording. destruct (recordings rc !! id) as [rec|] eqn:Hr; [|done]. cbn [snd]. case_bool_decide; [|by apply params_drop].
    destruct (params_stop id rec n rc Hp Hr) as [Hp' Hc']. destruct (params_drop id rec _ Hp') as [H1 H2]. split; [done|congruence].
Qed.

Lemma params_run ops : forall rc, params_ok rc -> params_ok (run ops rc) /\ config (run ops rc) = config rc.
Proof. induction ops as [|o ops IH]; intros rc Hp; [done|]. destruct (params_step o rc Hp) as [Hp' Hc]. destruct (IH _ Hp') as [H1 H2]. split; [done|]. change (config (run ops (step o rc)) = config rc). congruence. Qed.

(** A configuration a WAV header can hold. *)
Definition cfg_ok (cfg : RecordingConfig) : Prop := is_u 16 (cfg_Channels cfg) /\ is_u 32 (cfg_SampleRate cfg) /\ is_u 16 (BitsPerSample cfg).

(** A file of the recorder as the player reads it: [size] bytes of audio are found
    behind the header. *)
Lemma header_loaded fs path w a audio rest : is_u 16 (ww_channels w) -> is_u 32 (ww_sampleRate w) -> is_u 16 (ww_bitsPerSample w) -> Z.of_nat (length audio) < 2 ^ 32 ->
  fs path = Some (wav_header w a (Z.of_nat (length audio)) ++ audio ++ rest) ->
  loadAudioFile fs path = Ok (mkAudio (if ww_bitsPerSample w =? 16 then convertPCM16ToUlaw audio else audio) (ww_sampleRate w) (ww_channels w) "PCMU").
Proof.
  intros Hc Hr Hb Hl Hfs. apply (wav_loaded fs path (put32le a) (put16le 1) (ww_channels w) (ww_sampleRate w) (put32le (u32 (byteRate w)) ++ put16le (u16 (blockAlign w))) (ww_bitsPerSample w) [] audio rest); try done.
  rewrite Hfs. unfold wav, wav_header, chunk. cbn [map mjoin list_join app]. rewrite (wrapu_id 16 (ww_channels w)), (wrapu_id 32 (ww_sampleRate w)), (wrapu_id 16 (ww_bitsPerSample w)) by done.
  rewrite <- !(assoc_L (++)). reflexivity.
Qed.

Lemma completed_loaded ops cfg d id c rec : disk_ok d -> all_fresh ops (NewRecorder (Some cfg) d) -> cfg_ok cfg ->
  calls (spec_run ops nothing) !! id = Some c -> c_status c = StatusCompleted -> Z.of_nat (length (c_audio c)) < 2 ^ 32 ->
  recordings (run ops (NewRecorder (Some cfg) d)) !! id = Some rec ->
  loadAudioFile (content (files (run ops (NewRecorder (Some cfg) d)))) (FilePath rec) =
  Ok (mkAudio (if BitsPerSample cfg =? 16 then convertPCM16ToUlaw (c_audio c) else c_audio c) (cfg_SampleRate cfg) (cfg_Channels cfg) "PCMU").
Proof.
  intros Hd Hf (K1 & K2 & K3) Hc Hst Hl Hr. pose proof (run_implements _ _ _ (new_implements (Some cfg) d Hd) Hf) as Him.
  destruct (params_run ops (NewRecorder (Some cfg) d)) as [Hp Hcfg]; [by intros ??? ?|]. cbn in Hcfg.
  destruct (implements_lookup _ _ _ _ Him Hr) as (c' & Hc' & Hin). rewrite Hc in Hc'. injection Hc' as <-. destruct Hin as (_ & _ & _ & i & w & Hi & Hw & Hs & _ & Hfile).
  rewrite decide_False in Hfile by (intros []; congruence). destruct Hfile as (_ & _ & _ & Hino). destruct (Hp _ _ _ Hr Hw) as (P1 & P2 & P3). rewrite Hcfg in P1, P2, P3.
  rewrite <- P1, <- P2, <- P3. rewrite <- P1 in K2. rewrite <- P2 in K3. rewrite <- P3 in K1. rewrite wrapu_id in Hs by (unfold is_u; lia).
  apply (header_loaded _ _ _ (u32 (dataSize w + 36)) _ []); [done..|]. unfold content. rewrite Hi. cbn [mbind option_bind]. rewrite Hino, app_nil_r, <- Hs. done.
Qed.

(** A completed recording can be played: the media player loads from its file
    the audio that was written while it ran, 16-bit samples turned into mu-law,
    with the rate and the channels of the configuration. *)
Theorem recording_playable ops cfg d id c rec : disk_ok d -> all_fresh ops (NewRecorder (Some cfg) d) -> cfg_ok cfg ->
  calls (spec_run ops nothing) !! id = Some c -> c_status c = StatusCompleted -> Z.of_nat (length (c_audio c)) < 2 ^ 32 ->
  recordings (run ops (NewRecorder (Some cfg) d)) !! id = Some rec ->
  loadAudioFile (content (files (run ops (NewRecorder (Some cfg) d)))) (FilePath rec) =
  Ok (mkAudio (if BitsPerSample cfg =? 16 then convertPCM16ToUlaw (c_audio c) else c_audio c) (cfg_SampleRate cfg) (cfg_Channels cfg) "PCMU").
Proof. apply completed_loaded. Qed.

(** ** Guarantees: the manager *)

Lemma packet_written m s sessionID id c payload pt isCaller : implements (recorder m) s -> current s !! sessionID = Some id -> calls s !! id = Some c -> c_status c = StatusRecording ->
  (WriteRTPPacket sessionID payload pt isCaller Done m).2 = mkManager (step (OWrite id (to_pcm payload pt)) (recorder m)) (mixer m).
Proof.
  intros Him Hcur Hc Hst. unfold WriteRTPPacket, to_recording, GetRecordingBySession. rewrite (im_current _ _ Him), Hcur. cbn [mbind option_bind].
  pose proof (im_calls _ _ Him id) as Hin. rewrite Hc in Hin. destruct (recordings (recorder m) !! id) as [rec|]; [|done]. destruct Hin as (H1 & _ & H3 & _).
  rewrite bool_decide_true by congruence. cbn [negb]. rewrite H1. unfold on_recorder. cbn [step]. by destruct (WriteAudio id (to_pcm payload pt) Done (recorder m)).
Qed.

(** The packets of a call while it is recorded. *)
Definition write_packets (sessionID : string) (pt : Z) (packets : list (list Z * bool)) (m : Manager) : Manager :=
  foldl (fun m p => (WriteRTPPacket sessionID p.1 pt p.2 Done m).2) m packets.

Lemma packets_written sessionID id pt packets : forall m s audio, implements (recorder m) s -> current s = {[sessionID := id]} -> calls s = {[id := mkCall sessionID StatusRecording audio 0]} ->
  let ops := map (fun p : list Z * bool => OWrite id (to_pcm p.1 pt)) packets in
  recorder (write_packets sessionID pt packets m) = run ops (recorder m) /\ all_fresh ops (recorder m) /\
  current (spec_run ops s) = {[sessionID := id]} /\ calls (spec_run ops s) = {[id := mkCall sessionID StatusRecording (audio ++ (packets ≫= fun p => to_pcm p.1 pt)) 0]}.
Proof.
  induction packets as [|[p b] packets IH]; intros m s audio Him Hcur Hc ops; [by rewrite app_nil_r|]. unfold ops. cbn [map write_packets foldl run all_fresh]. cbn [fst snd].
  rewrite (packet_written m s sessionID id (mkCall sessionID StatusRecording audio 0)) by (done || by rewrite ?Hcur, ?Hc, lookup_singleton_eq).
  pose proof (step_implements (OWrite id (to_pcm p pt)) _ _ Him I) as Him'.
  destruct (IH (mkManager (step (OWrite id (to_pcm p pt)) (recorder m)) (mixer m)) _ (audio ++ to_pcm p pt) Him') as (E1 & E2 & E3 & E4).
  - done.
  - cbn [spec_step]. rewrite (on_call_some _ _ (mkCall sessionID StatusRecording audio 0)) by (by rewrite Hc, lookup_singleton_eq). cbn. by rewrite Hc, insert_singleton_eq.
  - split; [exact E1|]. split; [by split|]. split; [exact E3|]. rewrite <- (assoc_L (++)) in E4. exact E4.
Qed.

Lemma pcm_app ps qs : ConvertG711uToPCM (ps ++ qs) = ConvertG711uToPCM ps ++ ConvertG711uToPCM qs.
Proof. apply bind_app. Qed.

Lemma pcm_packets (packets : list (list Z * bool)) : (packets ≫= fun p => to_pcm p.1 0) = ConvertG711uToPCM (packets ≫= fst).
Proof. induction packets as [|p packets IH]; [done|]. change ((p :: packets) ≫= ?f) with (f p ++ (packets ≫= f)). cbv beta. by rewrite IH, pcm_app. Qed.

Lemma pcm_length data : length (ConvertG711uToPCM data) = (2 * length data)%nat.
Proof. unfold ConvertG711uToPCM. induction data as [|b data IH]; [done|]. change ((b :: data) ≫= ?f) with (f b ++ (data ≫= f)). rewrite length_app, IH. cbn. lia. Qed.

(** The configuration after a request's format and mode. *)
Definition overrides (format mode : string) (cfg : RecordingConfig) : RecordingConfig :=
  let cfg := if bool_decide (format = EmptyString) then cfg else cfg <| cfg_Format := format |> in
  if bool_decide (mode = EmptyString) then cfg else cfg <| cfg_Mode := mode |>.

Lemma overrides_same format mode cfg : BasePath (overrides format mode cfg) = BasePath cfg /\ cfg_SampleRate (overrides format mode cfg) = cfg_SampleRate cfg /\
  BitsPerSample (overrides format mode cfg) = BitsPerSample cfg /\ cfg_Channels (overrides format mode cfg) = cfg_Channels cfg.
Proof. unfold overrides. by repeat case_bool_decide. Qed.

Lemma manager_starts id sessionID callID format mode metadata zone now cfg d :
  (m_StartRecording id sessionID callID format mode metadata zone now true Done (NewManager (Some cfg) d)).2 =
  mkManager (step (OStart id sessionID callID metadata zone now) (NewRecorder (Some (overrides format mode cfg)) d)) (mixer (NewManager (Some cfg) d)).
Proof.
  unfold m_StartRecording. cbn [recorder NewManager mixer step]. set (rc := if bool_decide (mode = EmptyString) then _ else _).
  assert (rc = NewRecorder (Some (overrides format mode cfg)) d) as ->; [|by destruct (StartRecording _ _ _ _ _ _ _ _ _)]. unfold rc, overrides. by repeat case_bool_decide.
Qed.

(** What a recording that is alone comes to. *)
Lemma lone_recording cfg d id sessionID callID metadata zone now now' ws : disk_ok d ->
  let ops := OStart id sessionID callID metadata zone now :: ws ++ [OStop id now'] in
  let rc1 := step (OStart id sessionID callID metadata zone now) (NewRecorder (Some cfg) d) in
  let s1 := spec_step (OStart id sessionID callID metadata zone now) nothing in
  implements rc1 s1 /\ current s1 = {[sessionID := id]} /\ calls s1 = {[id := mkCall sessionID StatusRecording [] 0]} /\
  run ops (NewRecorder (Some cfg) d) = step (OStop id now') (run ws rc1) /\ (all_fresh ws rc1 -> all_fresh ops (NewRecorder (Some cfg) d)) /\
  spec_run ops nothing = spec_step (OStop id now') (spec_run ws s1).
Proof.
  intros Hd ops rc1 s1. assert (Hf : fresh (OStart id sessionID callID metadata zone now) (NewRecorder (Some cfg) d)) by (split; [done|by intros ???]). split_and!; [|done|done| | |].
  - by apply step_implements; [apply new_implements|].
  - unfold ops, run. cbn [foldl]. by rewrite foldl_app.
  - intros Hws. split; [done|]. change (all_fresh (ws ++ [OStop id now']) rc1). revert Hws. generalize rc1. induction ws as [|o ws IH]; intros rc Hws; [done|]. destruct Hws as [H1 H2]. split; [done|by apply IH].
  - unfold ops, spec_run. cbn [foldl]. by rewrite foldl_app.
Qed.

(** The file of a recording is where it was created. *)
Lemma path_write id data rc id' : FilePath <$> recordings (WriteAudio id data Done rc).2 !! id' = FilePath <$> recordings rc !! id'.
Proof.
  unfold WriteAudio. destruct (recordings rc !! id) as [rec|] eqn:Hr; [|done]. destruct (negb _); [done|]. destruct (writer rec) as [w|]; [|done]. destruct (WriteData data Done w (files rc)) as [[[n ok] w'] d'].
  destruct ok; [|done]. cbn. destruct (decide (id' = id)) as [->|Hne]; [by rewrite lookup_insert_eq, Hr|by rewrite lookup_insert_ne].
Qed.

Lemma path_writes id datas id' : forall rc, FilePath <$> recordings (run (map (OWrite id) datas) rc) !! id' = FilePath <$> recordings rc !! id'.
Proof. induction datas as [|x datas IH]; intros rc; [done|]. cbn [map run foldl step]. unfold run in IH. rewrite IH. apply path_write. Qed.

Lemma path_start cfg d id sessionID callID metadata zone now :
  FilePath <$> recordings (step (OStart id sessionID callID metadata zone now) (NewRecorder (Some cfg) d)) !! id = Some (filePath (BasePath cfg) callID zone now).
Proof.
  cbn [step]. unfold StartRecording. cbn [NewRecorder sessionRecs config default files negb Create]. rewrite lookup_empty. unfold WriteHeader, Write. cbn [ww_file NewWAVWriter open_files]. rewrite lookup_insert_eq.
  cbn -[filePath]. by rewrite lookup_insert_eq.
Qed.

(** A call is recorded and played back. The manager records the mu-law packets
    of a session from the start to the stop of its recording; from the file the
    media player loads their payloads, one after the other as they arrived and byte
    for byte but for one of the two codes of silence. *)
Theorem call_recorded_and_played cfg d id sessionID callID format mode metadata zone now now' packets :
  disk_ok d -> cfg_ok cfg -> BitsPerSample cfg = 16 -> Forall (is_u 8) (packets ≫= fst) -> Z.of_nat (length (packets ≫= fst)) < 2 ^ 31 ->
  let m := (m_StartRecording id sessionID callID format mode metadata zone now true Done (NewManager (Some cfg) d)).2 in
  let m := (m_StopRecording id now' Done Done (write_packets sessionID 0 packets m)).2 in
  loadAudioFile (content (files (recorder m))) (filePath (BasePath cfg) callID zone now) =
  Ok (mkAudio (map (fun b => if b =? 127 then 255 else b) (packets ≫= fst)) (cfg_SampleRate cfg) (cfg_Channels cfg) "PCMU").
Proof.
  intros Hd (K1 & K2 & K3) H16 Hb Hl m0 m2. destruct (overrides_same format mode cfg) as (V1 & V2 & V3 & V4). set (cfg' := overrides format mode cfg) in *.
  set (ws := map (fun p : list Z * bool => OWrite id (to_pcm p.1 0)) packets). destruct (lone_recording cfg' d id sessionID callID metadata zone now now' ws Hd) as (Him & Hcur & Hcalls & Erun & Hfr & Espec).
  unfold m2, m0. rewrite manager_starts. fold cfg'. set (m1 := mkManager _ _). destruct (packets_written sessionID id 0 packets m1 _ [] Him Hcur Hcalls) as (E1 & E2 & E3 & E4).
  cbn [app] in E4. fold ws in E1, E2, E3, E4. rewrite pcm_packets in E4. specialize (Hfr E2). set (ops := OStart id sessionID callID metadata zone now :: ws ++ [OStop id now']) in *.
  assert (Em : recorder (m_StopRecording id now' Done Done (write_packets sessionID 0 packets m1)).2 = run ops (NewRecorder (Some cfg') d)).
  { rewrite Erun. unfold m_StopRecording, on_recorder. rewrite E1. cbn [step recorder]. by destruct (StopRecording id now' Done Done _). }
  rewrite Em. pose proof (run_implements _ _ _ (new_implements (Some cfg') d Hd) Hfr) as Hall.
  assert (Hc : calls (spec_run ops nothing) !! id = Some (mkCall sessionID StatusCompleted (ConvertG711uToPCM (packets ≫= fst)) now')).
  { rewrite Espec. change (spec_step (OStop id now') ?x) with (on_call id (spec_stop now') x). unfold on_call. cbn [calls]. rewrite E4, lookup_alter_eq, lookup_singleton_eq. cbn. unfold spec_stop. by rewrite decide_True by (by left). }
  destruct (recordings (run ops (NewRecorder (Some cfg') d)) !! id) as [rec|] eqn:Hr; [|by rewrite (implements_none _ _ _ Hall Hr) in Hc].
  assert (Hpath : FilePath rec = filePath (BasePath cfg) callID zone now).
  { rewrite Erun in Hr. cbn [step] in Hr. unfold StopRecording in Hr. pose proof (path_start cfg' d id sessionID callID metadata zone now) as Hps. rewrite V1 in Hps.
    rewrite <- (path_writes id (map (fun p : list Z * bool => to_pcm p.1 0) packets)) in Hps. rewrite map_map in Hps. fold ws in Hps.
    destruct (recordings (run ws _) !! id) as [rec0|] eqn:Hr0 in Hr, Hps; [|done]. injection Hps as Hps. cbn [snd] in Hr.
    destruct (stopped_entry id rec0 now' Done Done _ Hr0) as (rec1 & Hr1 & Hp1 & _). cbn [step] in Hr1. rewrite Hr1 in Hr. injection Hr as <-. congruence. }
  rewrite <- Hpath. rewrite (completed_loaded ops cfg' d id _ rec Hd Hfr) by (done || (split_and!; congruence) || (cbn [c_audio]; rewrite pcm_length; lia)).
  cbn [c_audio]. rewrite V3, H16, V2, V4. cbn [Z.eqb Pos.eqb]. by rewrite (proj2 (ulaw_recorded_and_played _ Hb)).
Qed.

(** ** Guarantees: what goes wrong *)

Lemma stop_one_done now rc s id : implements rc s ->
  exists s', implements (stop_one now rc (id, (Done, Done))) s' /\ forall k c, calls s !! k = Some c -> c_status c = StatusPaused -> calls s' !! k = Some c.
Proof.
  intros Him. unfold stop_one. cbn [fst snd]. destruct (recordings rc !! id) as [rec|] eqn:Hr; [|by exists s]. case_bool_decide as Hb; [|by exists s].
  exists (on_call id (spec_stop now) s). split; [by apply stop_implements|]. intros k c Hc Hp. destruct (implements_lookup _ _ _ _ Him Hr) as (c0 & Hc0 & Hin). destruct Hin as (_ & _ & H3 & _).
  cbn [on_call calls]. rewrite lookup_alter_ne; [done|]. intros ->. congruence.
Qed.

Lemma stop_all_done now order : forall rc s, implements rc s ->
  exists s', implements (foldl (stop_one now) rc (map (fun id => (id, (Done, Done))) order)) s' /\ forall k c, calls s !! k = Some c -> c_status c = StatusPaused -> calls s' !! k = Some c.
Proof.
  induction order as [|id order IH]; intros rc s Him; [by exists s|]. cbn [map foldl]. destruct (stop_one_done now rc s id Him) as (s1 & Him1 & Hk1). destruct (IH _ _ Him1) as (s2 & Him2 & Hk2).
  exists s2. split; [done|]. intros k c Hc Hp. apply Hk2; [by apply Hk1|done].
Qed.

Lemma params_stop_one now e rc : params_ok rc -> e.2 = (Done, Done) -> params_ok (stop_one now rc e) /\ config (stop_one now rc e) = config rc.
Proof. intros Hp He. unfold stop_one. rewrite He. cbn [fst snd]. destruct (recordings rc !! e.1) as [rec|] eqn:Hr; [|done]. case_bool_decide; [by apply params_stop|done]. Qed.

Lemma params_stop_all now order : forall rc, params_ok rc ->
  params_ok (foldl (stop_one now) rc (map (fun id => (id, (Done, Done))) order)) /\ config (foldl (stop_one now) rc (map (fun id => (id, (Done, Done))) order)) = config rc.
Proof.
  induction order as [|id order IH]; intros rc Hp; [done|]. cbn [map foldl]. destruct (params_stop_one now (id, (Done, Done)) rc Hp eq_refl) as [H1 H2]. destruct (IH _ H1) as [H3 H4]. split; [done|congruence].
Qed.

(** A recording that is paused when the recorder stops is lost: its header is
    never completed, and the player loads no audio from it whatever it holds. *)
Theorem paused_lost_on_stop ops cfg d id c order now rc : disk_ok d -> all_fresh ops (NewRecorder (Some cfg) d) -> cfg_ok cfg ->
  calls (spec_run ops nothing) !! id = Some c -> c_status c = StatusPaused ->
  Stop (map (fun id => (id, (Done, Done))) order) now (run ops (NewRecorder (Some cfg) d)) = Some rc ->
  exists rec, recordings rc !! id = Some rec /\ loadAudioFile (content (files rc)) (FilePath rec) = Ok (mkAudio [] (cfg_SampleRate cfg) (cfg_Channels cfg) "PCMU").
Proof.
  intros Hd Hf (K1 & K2 & K3) Hc Hp Hs. unfold Stop in Hs. destruct (stopChan_closed _); [done|]. injection Hs as <-. set (rc0 := run ops _ <| stopChan_closed := true |>).
  pose proof (run_implements _ _ _ (new_implements (Some cfg) d Hd) Hf) as Him0. assert (Him : implements rc0 (spec_run ops nothing)) by (by destruct Him0).
  destruct (params_run ops (NewRecorder (Some cfg) d)) as [Hpo Hcfg]; [by intros ??? ?|]. destruct (params_stop_all now order rc0 Hpo) as [Hpo' Hcfg'].
  destruct (stop_all_done now order rc0 _ Him) as (s' & Him' & Hk). specialize (Hk _ _ Hc Hp). set (rc := foldl _ _ _) in *.
  pose proof (im_calls _ _ Him' id) as Hin. rewrite Hk in Hin. destruct (recordings rc !! id) as [rec|] eqn:Hr; [|done]. exists rec. split; [done|].
  destruct Hin as (_ & _ & _ & i & w & Hi & Hw & _ & _ & Hfile). rewrite decide_True in Hfile by (by right). destruct Hfile as (_ & _ & Hino).
  destruct (Hpo' _ _ _ Hr Hw) as (P1 & P2 & P3). change (config rc0) with (config (run ops (NewRecorder (Some cfg) d))) in Hcfg'. rewrite Hcfg', Hcfg in P1, P2, P3. cbn in P1, P2, P3.
  rewrite <- P1 in K2 |- *. rewrite <- P2 in K3. rewrite <- P3 in K1 |- *. rewrite (header_loaded _ _ w 0 [] (c_audio c)); [|done..|].
  - by destruct (ww_bitsPerSample w =? 16).
  - unfold content. rewrite Hi. cbn [mbind option_bind]. exact Hino.
Qed.

(** Deleting an old recording cuts off the running one. A session whose
    recording is paused can start another; deleting the paused one then removes the
    session's entry, and from there on the audio of the session goes nowhere while
    the second recording runs. *)
Theorem delete_cuts_off_newer rc id1 rec1 id2 callID metadata zone now rc2 : recordings rc !! id1 = Some rec1 -> Status rec1 = StatusPaused -> id1 <> id2 ->
  sessionRecs rc !! r_SessionID rec1 = Some id1 -> rc2 = (DeleteRecording id1 now Done Done (StartRecording id2 (r_SessionID rec1) callID metadata zone now true Done rc).2).2 ->
  (exists rec2, recordings rc2 !! id2 = Some rec2 /\ Status rec2 = StatusRecording) /\
  forall data isCaller r, WriteAudioBySession (r_SessionID rec1) data isCaller r rc2 = (None, rc2).
Proof.
  intros Hr1 Hp Hne Hses ->. unfold StartRecording. rewrite Hses, Hr1. rewrite (bool_decide_false (Status rec1 = StatusRecording)) by congruence. cbn [negb Create].
  unfold WriteHeader, Write. cbn [ww_file NewWAVWriter open_files]. rewrite lookup_insert_eq. cbn [io_ok snd]. unfold DeleteRecording. cbn -[filePath]. rewrite lookup_insert_ne, Hr1 by done.
  rewrite (bool_decide_false (Status rec1 = StatusRecording)) by congruence. cbn [snd]. unfold drop_recording. split.
  - eexists. case_bool_decide; cbn -[filePath]; rewrite lookup_delete_ne, lookup_insert_eq by done; done.
  - intros data isCaller r. unfold WriteAudioBySession. case_bool_decide; cbn -[filePath]; by rewrite lookup_delete_eq.
Qed.

(** Two recordings of one call in the same second share a file: starting the
    second empties the file of the first, which may still be running. *)
Theorem same_second_overwrites rc id sessionID callID metadata zone now now' c : now / Second = now' / Second ->
  content (files rc) (filePath (BasePath (config rc)) callID zone now) = Some c ->
  forall rec rc', StartRecording id sessionID callID metadata zone now' true Done rc = (Ok rec, rc') ->
  exists w, content (files rc') (filePath (BasePath (config rc)) callID zone now) = Some (wav_header w 0 0).
Proof.
  intros Hs Hc rec rc'. assert (filePath (BasePath (config rc)) callID zone now = filePath (BasePath (config rc)) callID zone now') as Ep by (unfold filePath; by rewrite Hs). rewrite Ep in *.
  unfold StartRecording. destruct (match sessionRecs rc !! sessionID with Some _ => _ | None => false end); [done|]. cbn [negb Create]. set (path := filePath _ _ _ _) in *.
  unfold WriteHeader, Write. cbn [ww_file NewWAVWriter open_files]. rewrite lookup_insert_eq. cbn [io_ok io_bytes f_inode f_offset inodes]. rewrite lookup_insert_eq. cbn [default].
  intros [= _ <-]. eexists. unfold content. cbn -[wav_header]. rewrite lookup_insert_eq. cbn -[wav_header]. rewrite lookup_insert_eq. unfold write_at. cbn [take replicate length Nat.sub drop app]. by rewrite !app_nil_r.
Qed.

(** ** Guarantees: paths *)

Lemma split_app a b : split_path (a +:+ String "/" b) = split_path a ++ split_path b.
Proof.
  induction a as [|c a IH]; [done|]. change (split_path (String c a +:+ String "/" b)) with (split_path (String c (a +:+ String "/" b))). cbn [split_path]. rewrite IH.
  case_bool_decide; [done|]. destruct (split_path a) as [|p ps] eqn:E; [|done]. destruct a as [|x a]; [done|]. cbn in E. case_bool_decide; [done|]. by destruct (split_path a).
Qed.

Fixpoint dots (k : nat) (s : string) : string := match k with O => s | S k => ".." +:+ String "/" (dots k s) end.
Lemma split_dots k s : split_path (dots k s) = replicate k ".."%string ++ split_path s.
Proof. induction k as [|k IH]; [done|]. cbn [dots replicate]. rewrite split_app, IH. done. Qed.
Lemma dots_app k a b : dots k a +:+ b = dots k (a +:+ b).
Proof. induction k as [|k IH]; [done|]. cbn. by rewrite <- IH. Qed.

Lemma clean_app r l1 l2 : forall dn, clean_elements r dn (l1 ++ l2) = clean_elements r (rev (clean_elements r dn l1)) l2.
Proof.
  induction l1 as [|s l1 IH]; intros dn; cbn [app clean_elements]; [by rewrite rev_involutive|]. repeat case_match; apply IH.
Qed.

(** From the root no two dots are left, and as many of them lead back to it. *)
Lemma clean_root l : forall dn, Forall (fun s => s <> ".."%string) dn ->
  Forall (fun s => s <> ".."%string) (clean_elements true dn l) /\ (length (clean_elements true dn l) <= length dn + length l)%nat.
Proof.
  induction l as [|s l IH]; intros dn Hd; cbn [clean_elements]; [rewrite length_rev; split; [by apply Forall_rev|cbn; lia]|].
  destruct (bool_decide (s = EmptyString) || bool_decide (s = "."%string)); [destruct (IH dn Hd); split; [done|cbn [length]; lia]|].
  case_bool_decide as Hs.
  - destruct dn as [|p ps]; [destruct (IH [] Hd); split; [done|cbn [length] in *; lia]|]. apply Forall_cons in Hd as [Hp Hps]. rewrite bool_decide_false by done. destruct (IH ps Hps). split; [done|cbn [length] in *; lia].
  - destruct (IH (s :: dn)); [by constructor|]. split; [done|cbn [length] in *; lia].
Qed.
Lemma clean_pops k : forall dn, Forall (fun s => s <> ".."%string) dn -> (length dn <= k)%nat -> clean_elements true dn (replicate k ".."%string) = [].
Proof.
  induction k as [|k IH]; intros dn Hd Hl; [by destruct dn; [|cbn in Hl; lia]|]. cbn [replicate clean_elements]. rewrite !(bool_decide_false (".."%string = _)) by done. cbn [orb]. rewrite bool_decide_true by done.
  destruct dn as [|p ps]; [apply IH; [done|cbn; lia]|]. apply Forall_cons in Hd as [Hp Hps]. rewrite bool_decide_false by done. apply IH; [done|cbn in Hl; lia].
Qed.

(** A Call-ID chooses the directory. Whatever the base path is, there is for
    every absolute path a Call-ID whose recording is made there. *)
Theorem call_id_escapes base zone now target : exists callID,
  filePath (String "/" base) callID zone now = Clean (String "/" (target +:+ "_" +:+ time_of_day (now / Second + zone) +:+ ".wav")).
Proof.
  set (suffix := "_" +:+ time_of_day (now / Second + zone) +:+ ".wav"). set (date := date_dir (now / Second + zone)). set (above := split_path (String "/" base) ++ split_path date).
  exists (dots (length above) target). unfold filePath. cbv zeta. fold date. fold suffix. rewrite dots_app. set (f := dots _ _).
  assert (Hf : f <> EmptyString). { unfold f. destruct (length above); [by destruct target|done]. }
  assert (Hdate : date <> EmptyString). { unfold date, date_dir. by destruct (civil _) as [[y m] dd]. }
  unfold Join. rewrite !filter_cons_True by done. cbn [filter list_filter]. change (join_path [String "/" base; date; f]) with (String "/" base +:+ String "/" (date +:+ String "/" f)).
  change (filter (fun s => s <> EmptyString) []) with (@nil string). cbn [join_path].
  assert (E : clean_elements true [] (split_path (String "/" base +:+ String "/" (date +:+ String "/" f))) = clean_elements true [] (split_path (String "/" (target +:+ suffix)))).
  { rewrite !split_app, (assoc_L (++)). fold above. unfold f. rewrite split_dots, (assoc_L (++)), clean_app, clean_app. destruct (clean_root above []) as [H1 H2]; [done|].
    rewrite clean_pops; [|by apply Forall_rev|rewrite length_rev; exact H2]. done. }
  unfold Clean. change (String "/" base +:+ ?x) with (String "/" (base +:+ x)) in *. cbv iota beta. rewrite bool_decide_true by done. by rewrite E.
Qed.

(** ** Witnesses *)

Definition sample_ops : list op := [OStart "r1" "s1" "c1" ∅ 0 0; OWrite "r1" [1; 2; 3; 4]; OPause "r1"; OWrite "r1" [9; 9]; OResume "r1"; OWriteSession "s1" [5; 6] true; OStop "r1" 5].

Lemma no_files_ok : disk_ok no_files.
Proof. constructor; cbn; intros *; rewrite ?lookup_empty; done. Qed.
Lemma sample_fresh cfg : all_fresh sample_ops (NewRecorder cfg no_files).
Proof. split; [split; [done|]; intros id' rec; cbn; by rewrite lookup_empty|]. repeat split. Qed.
Lemma default_ok : cfg_ok DefaultRecordingConfig.
Proof. repeat split; cbn; lia. Qed.

Lemma recorder_refines_witness : implements (run sample_ops (NewRecorder None no_files)) (spec_run sample_ops nothing).
Proof. apply (recorder_refines None no_files sample_ops no_files_ok (sample_fresh None)). Defined.

Lemma recording_playable_witness : exists rec, recordings (run sample_ops (NewRecorder (Some DefaultRecordingConfig) no_files)) !! "r1"%string = Some rec /\
  loadAudioFile (content (files (run sample_ops (NewRecorder (Some DefaultRecordingConfig) no_files)))) (FilePath rec) =
  Ok (mkAudio (convertPCM16ToUlaw [1; 2; 3; 4; 5; 6]) 8000 1 "PCMU").
Proof.
  assert (is_Some (recordings (run sample_ops (NewRecorder (Some DefaultRecordingConfig) no_files)) !! "r1"%string)) as [rec Hr] by (vm_compute; eauto). exists rec. split; [exact Hr|].
  apply (recording_playable sample_ops DefaultRecordingConfig no_files "r1" (mkCall "s1" StatusCompleted [1; 2; 3; 4; 5; 6] 5) rec no_files_ok (sample_fresh _) default_ok); [reflexivity|reflexivity|cbn; lia|exact Hr].
Defined.

Lemma call_recorded_and_played_witness :
  let m := (m_StartRecording "r1" "s1" "c1" "wav" "mixed" ∅ 0 0 true Done (NewManager (Some DefaultRecordingConfig) no_files)).2 in
  let m := (m_StopRecording "r1" 5 Done Done (write_packets "s1" 0 [([1; 127], true); ([200], false)] m)).2 in
  loadAudioFile (content (files (recorder m))) (filePath "/var/lib/karl/recordings" "c1" 0 0) =
  Ok (mkAudio (map (fun b => if b =? 127 then 255 else b) [1; 127; 200]) 8000 1 "PCMU").
Proof.
  apply (call_recorded_and_played DefaultRecordingConfig no_files "r1" "s1" "c1" "wav" "mixed" ∅ 0 0 5 [([1; 127], true); ([200], false)] no_files_ok default_ok); [reflexivity| |cbn; lia].
  repeat constructor; unfold is_u; cbn; lia.
Defined.

Definition paused_ops : list op := [OStart "r1" "s1" "c1" ∅ 0 0; OWrite "r1" [1; 2; 3; 4]; OPause "r1"].
Lemma paused_fresh : all_fresh paused_ops (NewRecorder (Some DefaultRecordingConfig) no_files).
Proof. split; [split; [done|]; intros id' rec; cbn; by rewrite lookup_empty|]. repeat split. Qed.
Lemma paused_not_stopped : stopChan_closed (run paused_ops (NewRecorder (Some DefaultRecordingConfig) no_files)) = false.
Proof. vm_compute. reflexivity. Qed.
Lemma paused_lost_on_stop_witness : exists rc rec,
  Stop (map (fun id => (id, (Done, Done))) ["r1"%string]) 9 (run paused_ops (NewRecorder (Some DefaultRecordingConfig) no_files)) = Some rc /\
  recordings rc !! "r1"%string = Some rec /\ loadAudioFile (content (files rc)) (FilePath rec) = Ok (mkAudio [] 8000 1 "PCMU").
Proof.
  destruct (Stop (map (fun id => (id, (Done, Done))) ["r1"%string]) 9 (run paused_ops (NewRecorder (Some DefaultRecordingConfig) no_files))) as [rc|] eqn:E.
  2: { unfold Stop in E. rewrite paused_not_stopped in E. discriminate. }
  exists rc. destruct (paused_lost_on_stop paused_ops DefaultRecordingConfig no_files "r1" (mkCall "s1" StatusPaused [1; 2; 3; 4] 0) ["r1"%string] 9 rc no_files_ok paused_fresh default_ok eq_refl eq_refl E) as (rec & H).
  exists rec. split; [reflexivity|exact H].
Defined.

Lemma delete_cuts_off_newer_witness : let rc := run paused_ops (NewRecorder (Some DefaultRecordingConfig) no_files) in
  exists rc2, (exists rec2, recordings rc2 !! "r2"%string = Some rec2 /\ Status rec2 = StatusRecording) /\ forall data isCaller r, WriteAudioBySession "s1" data isCaller r rc2 = (None, rc2).
Proof.
  intros rc. assert (exists rec, recordings rc !! "r1"%string = Some rec /\ Status rec = StatusPaused /\ r_SessionID rec = "s1"%string) as (rec & Hr & Hs & Hid) by (vm_compute; eauto).
  eexists. rewrite <- Hid. eapply (delete_cuts_off_newer rc "r1" rec "r2" "c1" ∅ 0 9 _ Hr Hs); [done|rewrite Hid; reflexivity|reflexivity].
Defined.

Lemma same_second_overwrites_witness : let rc := run paused_ops (NewRecorder (Some DefaultRecordingConfig) no_files) in
  exists rec rc' w, StartRecording "r2" "s2" "c1" ∅ 0 9 true Done rc = (Ok rec, rc') /\ content (files rc') (filePath "/var/lib/karl/recordings" "c1" 0 0) = Some (wav_header w 0 0).
Proof.
  intros rc. assert (exists rec, (StartRecording "r2" "s2" "c1" ∅ 0 9 true Done rc).1 = Ok rec) as [rec Hres] by (vm_compute; eauto).
  destruct (StartRecording "r2" "s2" "c1" ∅ 0 9 true Done rc) as [res rc'] eqn:E. cbn in Hres. subst res.
  assert (exists c, content (files rc) (filePath (BasePath (config rc)) "c1" 0 0) = Some c) as [c Hc] by (vm_compute; eauto).
  destruct (same_second_overwrites rc "r2" "s2" "c1" ∅ 0 0 9 c eq_refl Hc rec rc' E) as [w Hw]. exists rec, rc', w. split; [done|exact Hw].
Defined.
