(* ===== verification/RecordingCommands.v ===== *)
(** * The recording commands

    Models src/internal/ng_protocol/commands/recording.go: the commands that start,
    stop and pause the recording of a call, over the session registry and the
    recording manager. The texts of errors are a parameter, since some of them come
    from the file system. *)

From Stdlib Require Import ZArith Lia Ascii String.
From stdpp Require Import base numbers list gmap strings.
From S2P Require Import Prelude MediaPlayer Mixer Recorder Bencode SessionRegistry Message Listener Commands.

Local Open Scope Z_scope.
Local Open Scope go_scope.
#[local] Arguments filePath : simpl never.
#[local] Arguments bs : simpl never.

(** The manager may be missing. *)
Record RecordingCommandHandler := mkRecordingHandler { rh_registry : SessionRegistry; rh_manager : option Manager }.
Definition NewRecordingCommandHandler (registry : SessionRegistry) (recorder : option Manager) : RecordingCommandHandler := mkRecordingHandler registry recorder.

Section handlers.
Context (errtext : rec_error -> bytes).

Definition param_or (req : NGRequest) (key default : string) : string :=
  let v := DictGetString (req_RawParams req) (bs key) in if bool_decide (v = []) then default else str v.
Definition meta_of (req : NGRequest) : gmap string string :=
  match req_RecordingMeta req with Some l => list_to_map (map (fun kv => (str kv.1, str kv.2)) l) | None => ∅ end.

(** The session and the manager a command works with, or the response. *)
Definition with_manager (req : NGRequest) (h : RecordingCommandHandler) (act : loc -> Manager -> NGResponse * RecordingCommandHandler) : NGResponse * RecordingCommandHandler :=
  if bool_decide (req_CallID req = []) then (missing ": call-id", h)
  else match find_call req (rh_registry h) with
       | None => (not_found, h)
       | Some p => match rh_manager h with None => (error_response (bs "Recording not available"), h) | Some m => act p m end
       end.

(** [id], [zone], [now], [created] and [r] are the recorder's. *)
Definition HandleStartRecording (id : string) (zone now : Z) (created : bool) (r : io) (req : NGRequest) (h : RecordingCommandHandler) : NGResponse * RecordingCommandHandler :=
  with_manager req h (fun p m =>
    match m_StartRecording id (session_id (rh_registry h) p) (str (req_CallID req)) (param_or req "format" "wav") (param_or req "mode" "mixed") (meta_of req) zone now created r m with
    | (Ok recordingID, m) =>
        (ok_with [(bs "recording-id", IString (bs recordingID))],
         mkRecordingHandler (SetMetadata p "recording_id" recordingID (SetFlag p "recording" true (rh_registry h))) (Some m))
    | (Err e, m) => (error_response (errtext e), mkRecordingHandler (rh_registry h) (Some m))
    | (_, m) => (error_response [], mkRecordingHandler (rh_registry h) (Some m))
    end).

(** The recording the session has noted. *)
Definition with_recording (req : NGRequest) (h : RecordingCommandHandler) (op : string -> Manager -> option rec_error * Manager)
    (done : loc -> string -> SessionRegistry -> NGResponse * SessionRegistry) : NGResponse * RecordingCommandHandler :=
  with_manager req h (fun p m =>
    let recordingID := GetMetadata p "recording_id" (rh_registry h) in
    if bool_decide (recordingID = EmptyString) then (error_response (bs "No active recording"), h)
    else match op recordingID m with
         | (Some e, m) => (error_response (errtext e), mkRecordingHandler (rh_registry h) (Some m))
         | (None, m) => let '(resp, sr) := done p recordingID (rh_registry h) in (resp, mkRecordingHandler sr (Some m))
         end).

Definition HandleStopRecording (now : Z) (r1 r2 : io) (req : NGRequest) (h : RecordingCommandHandler) : NGResponse * RecordingCommandHandler :=
  with_recording req h (fun id => m_StopRecording id now r1 r2)
    (fun p id sr => (ok_with [(bs "recording-id", IString (bs id))], SetFlag p "recording" false sr)).
Definition HandlePauseRecording (req : NGRequest) (h : RecordingCommandHandler) : NGResponse * RecordingCommandHandler :=
  with_recording req h m_PauseRecording (fun p id sr => (result_only ResultOK, sr)).

(** ** Guarantees *)

(** A command with what the environment gives it. *)
Inductive command :=
| CStart (id : string) (zone now : Z) (created : bool) (r : io) (req : NGRequest)
| CStop (now : Z) (r1 r2 : io) (req : NGRequest)
| CPause (req : NGRequest).
Definition exec (c : command) (h : RecordingCommandHandler) : NGResponse * RecordingCommandHandler :=
  match c with
  | CStart id zone now created r req => HandleStartRecording id zone now created r req h
  | CStop now r1 r2 req => HandleStopRecording now r1 r2 req h
  | CPause req => HandlePauseRecording req h
  end.
Definition exec_all (cs : list command) (h : RecordingCommandHandler) : RecordingCommandHandler := foldl (fun h c => (exec c h).2) h cs.
Definition starts_other (id1 : string) (c : command) : Prop := match c with CStart id _ _ _ _ _ => id <> id1 | _ => True end.

Definition recording_of (h : RecordingCommandHandler) (id : string) : option Recorder.Recording := m ← rh_manager h; GetRecording id (recorder m).
(** No session has noted the recording. *)
Definition forgotten (id : string) (h : RecordingCommandHandler) : Prop := forall p, GetMetadata p "recording_id" (rh_registry h) <> id.

Lemma GetMetadata_SetFlag p q k name v sr : GetMetadata p k (SetFlag q name v sr) = GetMetadata p k sr.
Proof.
  unfold GetMetadata, SetFlag, modify, deref. cbn. destruct (decide (p = q)) as [->|Hne]; [rewrite lookup_alter_eq; by destruct (mem sr !! q)|by rewrite lookup_alter_ne].
Qed.
Lemma GetMetadata_other p q k v sr : p <> q -> GetMetadata p k (SetMetadata q k v sr) = GetMetadata p k sr.
Proof. intros Hne. unfold GetMetadata, SetMetadata, modify, deref. cbn. by rewrite lookup_alter_ne by congruence. Qed.
Lemma GetMetadata_absent p k v sr : deref sr p = None -> GetMetadata p k (SetMetadata p k v sr) = EmptyString.
Proof. intros H. unfold GetMetadata, SetMetadata, modify, deref in *. cbn. by rewrite lookup_alter_eq, H. Qed.

(** Starting a recording leaves the others alone. *)
Lemma start_keeps id id1 sid cid f mo md z n cr r m : id <> id1 ->
  recordings (recorder (m_StartRecording id sid cid f mo md z n cr r m).2) !! id1 = recordings (recorder m) !! id1.
Proof.
  intros Hne. unfold m_StartRecording. set (rc := if bool_decide (mo = _) then _ else _). assert (Er : recordings rc = recordings (recorder m)) by (unfold rc; by repeat case_bool_decide).
  rewrite <- Er. clearbody rc. unfold StartRecording. destruct (match sessionRecs rc !! sid with Some _ => _ | None => false end); [done|]. destruct cr; [|done]. cbn [negb].
  destruct (Create _ _) as [h d]. destruct (WriteHeader r _ d) as [[ok w] d']. destruct ok; [|done]. cbn. by rewrite lookup_insert_ne.
Qed.
Lemma stop_keeps id id1 now r1 r2 m : id <> id1 -> recordings (recorder (m_StopRecording id now r1 r2 m).2) !! id1 = recordings (recorder m) !! id1.
Proof.
  intros Hne. unfold m_StopRecording, on_recorder, StopRecording. destruct (recordings (recorder m) !! id) as [rec|]; [|done]. cbn. by apply stop_lookup.
Qed.
Lemma pause_keeps id id1 m : id <> id1 -> recordings (recorder (m_PauseRecording id m).2) !! id1 = recordings (recorder m) !! id1.
Proof.
  intros Hne. unfold m_PauseRecording, on_recorder, PauseRecording. destruct (recordings (recorder m) !! id) as [rec|]; [|done]. case_bool_decide; [|done]. cbn. by rewrite lookup_insert_ne.
Qed.

Lemma started_id id sid cid f mo md z n cr r m x : (m_StartRecording id sid cid f mo md z n cr r m).1 = Ok x -> x = id.
Proof.
  unfold m_StartRecording. set (rc := if bool_decide (mo = _) then _ else _). clearbody rc. unfold StartRecording. destruct (match sessionRecs rc !! sid with Some _ => _ | None => false end); [done|].
  destruct cr; [|done]. cbn [negb]. destruct (Create _ _) as [h d]. destruct (WriteHeader r _ d) as [[ok w] d']. destruct ok; [|done]. cbn. congruence.
Qed.

(** A command on a recording that a session has noted leaves the others alone. *)
Lemma noted_keeps id1 req h op done : forgotten id1 h ->
  (forall id m, id <> id1 -> recordings (recorder (op id m).2) !! id1 = recordings (recorder m) !! id1) ->
  (forall p q id sr, GetMetadata q "recording_id" (done p id sr).2 = GetMetadata q "recording_id" sr) ->
  recording_of (with_recording req h op done).2 id1 = recording_of h id1 /\ forgotten id1 (with_recording req h op done).2.
Proof.
  intros Hf Hop Hd. unfold with_recording, with_manager. case_bool_decide; [done|]. destruct (find_call req (rh_registry h)) as [p|]; [|done]. destruct (rh_manager h) as [m|] eqn:Em; [|done].
  case_bool_decide; [done|]. specialize (Hop _ m (Hf p)). destruct (op _ m) as [[e|] m'] eqn:Eo.
  - split; [|exact Hf]. unfold recording_of, GetRecording. rewrite Em. exact Hop.
  - destruct (done p _ (rh_registry h)) as [resp sr] eqn:Ed. split; [unfold recording_of, GetRecording; rewrite Em; exact Hop|].
    intros q. cbn. specialize (Hd p q (GetMetadata p "recording_id" (rh_registry h)) (rh_registry h)). rewrite Ed in Hd. cbn in Hd. rewrite Hd. apply Hf.
Qed.

Lemma exec_keeps id1 c h : id1 <> EmptyString -> starts_other id1 c -> forgotten id1 h -> recording_of (exec c h).2 id1 = recording_of h id1 /\ forgotten id1 (exec c h).2.
Proof.
  intros He Hs Hf. destruct c as [id z n cr r req|n r1 r2 req|req]; cbn [exec].
  - unfold HandleStartRecording, with_manager. case_bool_decide; [done|]. destruct (find_call req (rh_registry h)) as [p|]; [|done]. destruct (rh_manager h) as [m|] eqn:Em; [|done].
    pose proof (start_keeps id id1 (session_id (rh_registry h) p) (str (req_CallID req)) (param_or req "format" "wav") (param_or req "mode" "mixed") (meta_of req) z n cr r m Hs) as Hk.
    pose proof (started_id id (session_id (rh_registry h) p) (str (req_CallID req)) (param_or req "format" "wav") (param_or req "mode" "mixed") (meta_of req) z n cr r m) as Hid.
    destruct (m_StartRecording _ _ _ _ _ _ _ _ _ _ m) as [res m'] eqn:E. assert (Hr : forall sr, recording_of (mkRecordingHandler sr (Some m')) id1 = recording_of h id1) by (intros sr; unfold recording_of, GetRecording; rewrite Em; exact Hk).
    destruct res as [x|e| |]; (split; [apply Hr|]); try exact Hf. specialize (Hid x eq_refl). subst x. intros q. cbn [snd rh_registry]. destruct (decide (q = p)) as [->|Hne].
    + set (sr1 := SetFlag p "recording" true (rh_registry h)). destruct (deref sr1 p) as [s|] eqn:Ed; [by rewrite (GetMetadata_set _ _ _ _ s)|rewrite GetMetadata_absent by done; congruence].
    + rewrite GetMetadata_other, GetMetadata_SetFlag by done. apply Hf.
  - apply noted_keeps; [done|intros id m Hne; by apply stop_keeps|intros p q id sr; apply GetMetadata_SetFlag].
  - apply noted_keeps; [done|intros id m Hne; by apply pause_keeps|done].
Qed.

(** A recording that no session has noted is beyond the commands: whatever
    they are, as long as its id is not given out again, it stays as it is, running
    or paused. There is no command that resumes a recording, so one that was paused
    and replaced by another start is never finished. *)
Theorem forgotten_recording_stays id1 cs h : id1 <> EmptyString -> Forall (starts_other id1) cs -> forgotten id1 h -> recording_of (exec_all cs h) id1 = recording_of h id1.
Proof.
  intros He Hs. revert h. induction Hs as [|c cs Hc _ IH]; intros h Hf; [done|]. destruct (exec_keeps id1 c h He Hc Hf) as [H1 H2]. cbn [exec_all foldl]. rewrite <- H1. apply IH, H2.
Qed.

Lemma start_answered id z n r req h p m s : req_CallID req <> [] -> find_call req (rh_registry h) = Some p -> deref (rh_registry h) p = Some s -> rh_manager h = Some m ->
  (forall rid, sessionRecs (recorder m) !! ID s = Some rid -> recordings (recorder m) !! rid ≫= (fun rec => if bool_decide (Status rec = StatusRecording) then Some rec else None) = None) ->
  r = Done ->
  exists m', HandleStartRecording id z n true r req h =
    (ok_with [(bs "recording-id", IString (bs id))], mkRecordingHandler (SetMetadata p "recording_id" id (SetFlag p "recording" true (rh_registry h))) (Some m')).
Proof.
  intros Hc Hf Hd Hm Hb ->. unfold HandleStartRecording, with_manager. rewrite bool_decide_false by done. rewrite Hf, Hm. unfold m_StartRecording. set (rc := if bool_decide (param_or req "mode" _ = _) then _ else _).
  assert (Er : recordings rc = recordings (recorder m) /\ sessionRecs rc = sessionRecs (recorder m)) by (unfold rc; by repeat case_bool_decide). destruct Er as [Er Es]. clearbody rc.
  assert (Hid : session_id (rh_registry h) p = ID s) by (unfold session_id; by rewrite Hd). unfold StartRecording. rewrite Hid, Es, Er.
  assert ((match sessionRecs (recorder m) !! ID s with Some recID => match recordings (recorder m) !! recID with Some rec => bool_decide (Status rec = StatusRecording) | None => false end | None => false end) = false) as ->.
  { destruct (sessionRecs (recorder m) !! ID s) as [rid|]; [|done]. specialize (Hb rid eq_refl). destruct (recordings (recorder m) !! rid); [|done]. cbn in Hb. by case_bool_decide. }
  cbn [negb Create]. unfold WriteHeader, Write. cbn [ww_file NewWAVWriter open_files]. rewrite lookup_insert_eq. cbn. by eexists.
Qed.

Lemma pause_answered req h p m rec : req_CallID req <> [] -> find_call req (rh_registry h) = Some p -> rh_manager h = Some m ->
  let id := GetMetadata p "recording_id" (rh_registry h) in id <> EmptyString -> recordings (recorder m) !! id = Some rec -> Status rec = StatusRecording ->
  HandlePauseRecording req h = (result_only ResultOK,
    mkRecordingHandler (rh_registry h) (Some (mkManager (recorder m <| recordings ::= <[id := rec <| Status := StatusPaused |>]> |>) (mixer m)))).
Proof.
  intros Hc Hf Hm id Hid Hr Hs. unfold HandlePauseRecording, with_recording, with_manager. rewrite bool_decide_false by done. rewrite Hf, Hm. fold id. rewrite bool_decide_false by done.
  unfold m_PauseRecording, on_recorder, PauseRecording. rewrite Hr, bool_decide_true by done. done.
Qed.

(** Pausing and starting again abandons the first recording. Both commands are
    answered with ok; from then on no sequence of commands resumes, stops or
    finishes the first recording, which stays paused with its file incomplete. *)
Theorem replaced_recording_abandoned req h p s m rec id2 z n (id1 := GetMetadata p "recording_id" (rh_registry h)) :
  req_CallID req <> [] -> find_call req (rh_registry h) = Some p -> deref (rh_registry h) p = Some s -> rh_manager h = Some m ->
  id1 <> EmptyString -> (forall q, q <> p -> GetMetadata q "recording_id" (rh_registry h) <> id1) ->
  recordings (recorder m) !! id1 = Some rec -> Status rec = StatusRecording -> sessionRecs (recorder m) !! ID s = Some id1 -> id2 <> id1 ->
  let h1 := (HandlePauseRecording req h).2 in
  (HandlePauseRecording req h).1 = result_only ResultOK /\ (HandleStartRecording id2 z n true Done req h1).1 = ok_with [(bs "recording-id", IString (bs id2))] /\
  forall cs, Forall (starts_other id1) cs -> exists rec', recording_of (exec_all cs (HandleStartRecording id2 z n true Done req h1).2) id1 = Some rec' /\ Status rec' = StatusPaused.
Proof.
  intros Hc Hf Hd Hm Hid Hother Hr Hs Hses Hne h1. unfold h1. rewrite (pause_answered req h p m rec Hc Hf Hm Hid Hr Hs). cbn [fst snd]. fold id1. set (m1 := mkManager _ _). set (h2 := mkRecordingHandler _ _).
  destruct (start_answered id2 z n Done req h2 p m1 s Hc Hf Hd eq_refl) as (m2 & E); [|done|].
  { intros rid. cbn. rewrite Hses. intros [= <-]. rewrite lookup_insert_eq. done. }
  rewrite E. split_and!; [done|done|]. intros cs Hcs. cbn [snd]. rewrite (forgotten_recording_stays id1 cs); [|done|done|].
  - pose proof (exec_keeps id1 (CStart id2 z n true Done req) h2) as Hk. cbn [exec] in Hk.
    assert (Hm2 : recordings (recorder m2) !! id1 = recordings (recorder m1) !! id1).
    { pose proof (start_keeps id2 id1 (session_id (rh_registry h2) p) (str (req_CallID req)) (param_or req "format" "wav") (param_or req "mode" "mixed") (meta_of req) z n true Done m1 Hne) as Hsk.
      unfold HandleStartRecording, with_manager in E. rewrite bool_decide_false in E by done. change (rh_registry h2) with (rh_registry h) in *. rewrite Hf in E. cbn [rh_manager h2] in E.
      destruct (m_StartRecording _ _ _ _ _ _ _ _ _ _ m1) as [[x|e| |] m'] eqn:Em; simplify_eq. exact Hsk. }
    unfold recording_of, GetRecording. cbn [rh_manager mbind option_bind]. rewrite Hm2. cbn. rewrite lookup_insert_eq. by eexists.
  - intros q. cbn [rh_registry]. destruct (decide (q = p)) as [->|Hq].
    + destruct (deref_SetFlag p "recording" true (rh_registry h2) s Hd) as (s' & Hd' & _). by rewrite (GetMetadata_set _ _ _ _ s').
    + rewrite GetMetadata_other, GetMetadata_SetFlag by done. by apply Hother.
Qed.

(** A recording whose start and stop are answered. *)
Lemma stop_answered now req h p m rec : req_CallID req <> [] -> find_call req (rh_registry h) = Some p -> rh_manager h = Some m ->
  let id := GetMetadata p "recording_id" (rh_registry h) in id <> EmptyString -> recordings (recorder m) !! id = Some rec ->
  HandleStopRecording now Done Done req h = (ok_with [(bs "recording-id", IString (bs id))],
    mkRecordingHandler (SetFlag p "recording" false (rh_registry h)) (Some (m_StopRecording id now Done Done m).2)).
Proof.
  intros Hc Hf Hm id Hid Hr. unfold HandleStopRecording, with_recording, with_manager. rewrite bool_decide_false by done. rewrite Hf, Hm. fold id. rewrite bool_decide_false by done.
  unfold m_StopRecording, on_recorder, StopRecording. by rewrite Hr.
Qed.

Lemma packet_entry sid payload pt b m id : is_Some (recordings (recorder m) !! id) -> is_Some (recordings (recorder (WriteRTPPacket sid payload pt b Done m).2) !! id).
Proof.
  intros Hs. unfold WriteRTPPacket, to_recording. destruct (GetRecordingBySession sid (recorder m)) as [rec|]; [|done]. destruct (negb _); [done|]. unfold on_recorder, WriteAudio.
  destruct (recordings (recorder m) !! r_ID rec) as [rec0|]; [|done]. destruct (negb _); [done|]. destruct (writer rec0) as [w|]; [|done]. destruct (WriteData _ _ _ _) as [[[n ok] w'] d']. destruct ok; [|done].
  cbn. destruct (decide (id = r_ID rec)) as [->|Hne]; [rewrite lookup_insert_eq; done|by rewrite lookup_insert_ne].
Qed.
Lemma packets_entry sid pt id packets : forall m, is_Some (recordings (recorder m) !! id) -> is_Some (recordings (recorder (write_packets sid pt packets m)) !! id).
Proof. induction packets as [|[p b] packets IH]; intros m Hs; [done|]. cbn [write_packets foldl]. apply IH. by apply packet_entry. Qed.

(** C6: the commands record a call. With a manager that has recorded nothing yet and
    is configured for 16-bit samples, and a disk that works, a start and a stop of
    a call are answered with ok and the id of the recording; the session is marked
    as recording in between; and from the file the media player loads the payloads
    of the packets of payload type 0, mu-law, that the session had in between (less
    than 2 GiB), byte for byte but for one of the two codes of silence. *)
Theorem commands_record_call cfg d sr req p s id zone now now' packets :
  disk_ok d -> cfg_ok cfg -> BitsPerSample cfg = 16 -> Forall (is_u 8) (packets ≫= fst) -> Z.of_nat (length (packets ≫= fst)) < 2 ^ 31 ->
  req_CallID req <> [] -> find_call req sr = Some p -> deref sr p = Some s -> id <> EmptyString ->
  let start := HandleStartRecording id zone now true Done req (mkRecordingHandler sr (Some (NewManager (Some cfg) d))) in
  let h := mkRecordingHandler (rh_registry start.2) (write_packets (ID s) 0 packets <$> rh_manager start.2) in
  let stop := HandleStopRecording now' Done Done req h in
  start.1 = ok_with [(bs "recording-id", IString (bs id))] /\ stop.1 = start.1 /\
  GetFlag p "recording" (rh_registry h) = true /\ GetFlag p "recording" (rh_registry stop.2) = false /\
  exists m, rh_manager stop.2 = Some m /\ loadAudioFile (content (files (recorder m))) (filePath (BasePath cfg) (str (req_CallID req)) zone now) =
    Ok (mkAudio (map (fun b => if b =? 127 then 255 else b) (packets ≫= fst)) (cfg_SampleRate cfg) (cfg_Channels cfg) "PCMU").
Proof.
  intros Hd Hcfg H16 Hb Hl Hc Hf Hs Hid start h stop. set (m0 := NewManager (Some cfg) d) in *. assert (Hses : session_id sr p = ID s) by (unfold session_id; by rewrite Hs).
  destruct (start_answered id zone now Done req (mkRecordingHandler sr (Some m0)) p m0 s Hc Hf Hs eq_refl) as (m1 & E); [by intros rid|done|].
  assert (Em1 : m1 = (m_StartRecording id (ID s) (str (req_CallID req)) (param_or req "format" "wav") (param_or req "mode" "mixed") (meta_of req) zone now true Done m0).2).
  { unfold HandleStartRecording, with_manager in E. rewrite bool_decide_false in E by done. cbn [rh_registry rh_manager] in E. rewrite Hf, Hses in E.
    destruct (m_StartRecording _ _ _ _ _ _ _ _ _ _ m0) as [[x|e| |] m']; simplify_eq. done. }
  set (sr1 := SetMetadata p "recording_id" id (SetFlag p "recording" true sr)). assert (Estart : start = (ok_with [(bs "recording-id", IString (bs id))], mkRecordingHandler sr1 (Some m1))) by exact E.
  assert (Eh : h = mkRecordingHandler sr1 (Some (write_packets (ID s) 0 packets m1))) by (unfold h; by rewrite Estart).
  destruct (deref_SetFlag p "recording" true sr s Hs) as (s1 & Hs1 & _). assert (Hmeta : GetMetadata p "recording_id" sr1 = id) by (unfold sr1; by rewrite (GetMetadata_set _ _ _ _ s1)).
  destruct (deref_SetMetadata p "recording_id" id _ _ Hs1) as (s2 & Hs2 & _). fold sr1 in Hs2.
  assert (is_Some (recordings (recorder (write_packets (ID s) 0 packets m1)) !! id)) as [rec Hrec].
  { apply packets_entry. rewrite Em1. unfold m0. rewrite manager_starts. cbn [recorder]. eapply fmap_is_Some. rewrite path_start. done. }
  pose proof (stop_answered now' req h p (write_packets (ID s) 0 packets m1) rec Hc) as Hstop. rewrite Eh in Hstop. cbn [rh_registry rh_manager] in Hstop. rewrite Hmeta in Hstop.
  assert (Hf1 : find_call req sr1 = Some p) by (unfold sr1; by rewrite find_call_SetMetadata, find_call_SetFlag). specialize (Hstop Hf1 eq_refl Hid Hrec).
  assert (Estop : stop = (ok_with [(bs "recording-id", IString (bs id))], mkRecordingHandler (SetFlag p "recording" false sr1) (Some (m_StopRecording id now' Done Done (write_packets (ID s) 0 packets m1)).2))) by (unfold stop; by rewrite Eh).
  rewrite Estop, Estart, Eh. cbn [fst snd rh_registry rh_manager]. split_and!; [done|done| |by rewrite (GetFlag_set _ _ _ _ s2)|].
  - unfold sr1. rewrite GetFlag_metadata. by rewrite (GetFlag_set _ _ _ _ s).
  - eexists. split; [done|]. rewrite Em1. by apply call_recorded_and_played.
Qed.

End handlers.

(** ** Witnesses *)

Definition record_request : NGRequest := test_request "f1" "" [] [] 0.
Definition no_text (e : rec_error) : bytes := [].
Definition new_handler : RecordingCommandHandler := mkRecordingHandler sample7 (Some (NewManager (Some DefaultRecordingConfig) no_files)).

Lemma commands_record_call_witness :
  let start := HandleStartRecording no_text "r1" 0 0 true Done record_request new_handler in
  let h := mkRecordingHandler (rh_registry start.2) (write_packets "a" 0 [([1; 2], true); ([127], false)] <$> rh_manager start.2) in
  let stop := HandleStopRecording no_text 9 Done Done record_request h in
  start.1 = ok_with [(bs "recording-id", IString (bs "r1"))] /\ stop.1 = start.1 /\
  GetFlag 1 "recording" (rh_registry h) = true /\ GetFlag 1 "recording" (rh_registry stop.2) = false /\
  exists m, rh_manager stop.2 = Some m /\ loadAudioFile (content (files (recorder m))) (filePath "/var/lib/karl/recordings" (str (req_CallID record_request)) 0 0) =
    Ok (mkAudio (map (fun b => if b =? 127 then 255 else b) ([([1; 2], true); ([127], false)] ≫= fst)) 8000 1 "PCMU").
Proof.
  apply (commands_record_call no_text DefaultRecordingConfig no_files sample7 record_request 1 (sample_session 1) "r1" 0 0 9 [([1; 2], true); ([127], false)] no_files_ok default_ok);
    [reflexivity|repeat constructor; unfold is_u; cbn; lia|cbn; lia|discriminate|vm_compute; reflexivity|vm_compute; reflexivity|discriminate].
Defined.

Lemma sample_no_recording q : GetMetadata q "recording_id" sample7 = EmptyString.
Proof.
  assert (H : map_Forall (fun _ s => SessionRegistry.Metadata s !! "recording_id"%string = None) (mem sample7)) by (apply (bool_decide_unpack _); vm_compute; exact I).
  unfold GetMetadata, deref. destruct (mem sample7 !! q) as [s|] eqn:E; [|done]. cbn. by rewrite (H q s E).
Qed.

Lemma replaced_recording_abandoned_witness : let h := (HandleStartRecording no_text "r1" 0 0 true Done record_request new_handler).2 in
  let h1 := (HandlePauseRecording no_text record_request h).2 in
  forall cs, Forall (starts_other "r1") cs -> exists rec', recording_of (exec_all no_text cs (HandleStartRecording no_text "r2" 0 9 true Done record_request h1).2) "r1" = Some rec' /\ Status rec' = StatusPaused.
Proof.
  intros h h1. assert (Hd : deref sample7 1 = Some (sample_session 1)) by (vm_compute; reflexivity).
  destruct (start_answered no_text "r1" 0 0 Done record_request new_handler 1 (NewManager (Some DefaultRecordingConfig) no_files) (sample_session 1)) as (m & E); [discriminate|vm_compute; reflexivity|exact Hd|reflexivity|done|done|].
  assert (Eh : h = mkRecordingHandler (SetMetadata 1 "recording_id" "r1" (SetFlag 1 "recording" true sample7)) (Some m)) by (unfold h; by rewrite E).
  assert (exists rec, recordings (recorder m) !! "r1"%string = Some rec /\ Status rec = StatusRecording /\ sessionRecs (recorder m) !! "a"%string = Some "r1"%string) as (rec & Hr & Hs & Hses).
  { assert (Hm : Some m = rh_manager h) by (by rewrite Eh). assert (Hx : exists m', rh_manager h = Some m' /\ exists rec, recordings (recorder m') !! "r1"%string = Some rec /\ Status rec = StatusRecording /\ sessionRecs (recorder m') !! "a"%string = Some "r1"%string) by (vm_compute; eauto 8).
    destruct Hx as (m' & Hm' & Hx). rewrite <- Hm in Hm'. by simplify_eq. }
  destruct (deref_SetFlag 1 "recording" true sample7 _ Hd) as (s1 & Hs1 & Hid1). destruct (deref_SetMetadata 1 "recording_id" "r1" _ _ Hs1) as (s2 & Hs2 & Hid2).
  assert (Hmeta : GetMetadata 1 "recording_id" (rh_registry h) = "r1"%string) by (rewrite Eh; by apply (GetMetadata_set _ _ _ _ s1)).
  destruct (replaced_recording_abandoned no_text record_request h 1 s2 m rec "r2" 0 9) as (_ & _ & Hc); rewrite ?Hmeta.
  - discriminate.
  - rewrite Eh. cbn [rh_registry]. rewrite find_call_SetMetadata, find_call_SetFlag. vm_compute. reflexivity.
  - rewrite Eh. exact Hs2.
  - by rewrite Eh.
  - discriminate.
  - intros q Hq. rewrite Eh. cbn [rh_registry]. rewrite GetMetadata_other, GetMetadata_SetFlag, sample_no_recording by done. discriminate.
  - exact Hr.
  - exact Hs.
  - rewrite Hid2, Hid1. exact Hses.
  - discriminate.
  - rewrite Hmeta in Hc. exact Hc.
Defined.
