(* ===== verification/SdpProcessor.v ===== *)
(** * The SDP processor of the offer and answer commands

    Models src/internal/ng_protocol/commands/sdp_processor.go: [ParsedSDP], the
    parser that the offer and answer handlers use and [BuildSDP]. It is another
    parser than that of the socket listener ([Sdp]): lines are trimmed, fields are
    split at Unicode white space, numbers go through strconv, and attributes are
    taken apart with regular expressions.

    The expressions of the source are values of [regex], matched with the
    leftmost-first semantics of package regexp. All of them start with [^], and
    their classes hold single ASCII characters or every byte of the others, so
    that matching bytes is matching runes. *)

From Stdlib Require Import ZArith Lia Ascii String.
From stdpp Require Import base numbers list strings.
From S2P Require Import Prelude Bencode Flags Utf8 IpAddr InputValidator Sdp.

Local Open Scope Z_scope.
Local Open Scope go_scope.
#[local] Set Warnings "-clear-no-such-hyp,-register-all".

(** ** Strings and numbers of the standard library *)

Definition codes (s : bytes) : list Z := map chr s.
Definition uncodes (l : list Z) : bytes := map (fun z => ascii_of_N (Z.to_N z)) l.

(** strings.TrimSpace and strings.Fields *)
Definition TrimSpace (s : bytes) : bytes := uncodes (InputValidator.TrimSpace (codes s)).

Fixpoint fields_of (field : list Z) (cs : list (Z * list Z)) : list (list Z) :=
  match cs with
  | [] => match field with [] => [] | _ => [field] end
  | (r, b) :: cs =>
      if IsSpace r then match field with [] => fields_of [] cs | _ => field :: fields_of [] cs end
      else fields_of (field ++ b) cs
  end.
Definition Fields (s : bytes) : list bytes := map uncodes (fields_of [] (chunks (length s) (codes s))).

(** strings.ReplaceAll(s, "\r\n", "\n") *)
Fixpoint unify_newlines (s : bytes) : bytes :=
  match s with
  | c :: s' =>
      match s' with
      | d :: s'' => if bool_decide (c = CR /\ d = LF) then LF :: unify_newlines s'' else c :: unify_newlines s'
      | [] => [c]
      end
  | [] => []
  end.

(** strings.Contains *)
Fixpoint Contains (s sub : bytes) : bool :=
  bool_decide (take (length sub) s = sub) || match s with [] => false | _ :: s => Contains s sub end.

(** The loop of strconv.ParseUint: a value above [maxVal] is a range error at
    once, whatever follows. *)
Inductive number := Syntax | Range | Value (n : Z).
Fixpoint uint_loop (maxVal n : Z) (s : bytes) : number :=
  match s with
  | [] => Value n
  | c :: s =>
      match digit_val c with
      | None => Syntax
      | Some d => if maxVal <? n * 10 + d then Range else uint_loop maxVal (n * 10 + d) s
      end
  end.

(** strconv.ParseUint(s, 10, bits): the value, which is the largest one on a
    range error and 0 on a syntax error, and whether there was no error. *)
Definition ParseUint (bits : Z) (s : bytes) : Z * bool :=
  match s with
  | [] => (0, false)
  | _ => match uint_loop (2 ^ bits - 1) 0 s with
         | Syntax => (0, false)
         | Range => (2 ^ bits - 1, false)
         | Value n => (n, true)
         end
  end.

(** strconv.ParseInt(s, 10, 64) and strconv.Atoi, in the same form. *)
Definition Atoi (s : bytes) : Z * bool :=
  let '(neg, s) :=
    match s with
    | "-"%char :: t => (true, t)
    | "+"%char :: t => (false, t)
    | _ => (false, s)
    end in
  match s with
  | [] => (0, false)
  | _ => match uint_loop (2 ^ 64 - 1) 0 s with
         | Syntax => (0, false)
         | Range => (if neg then min_int64 else max_int64, false)
         | Value n =>
             if neg then (if 2 ^ 63 <? n then (min_int64, false) else (- n, true))
             else if 2 ^ 63 <=? n then (max_int64, false) else (n, true)
         end
  end.

(** ** Regular expressions *)

Inductive regex :=
| Text (t : bytes)
| Plus (class : ascii -> bool)
| Seq (r1 r2 : regex)
| Opt (r : regex)
| Group (r : regex).

Fixpoint groups (r : regex) : nat :=
  match r with
  | Text _ | Plus _ => 0
  | Seq r1 r2 => groups r1 + groups r2
  | Opt r => groups r
  | Group r => S (groups r)
  end.

(** A greedy repetition that has taken a character: a longer match is tried
    first. [k] is the rest of the expression. *)
Fixpoint plus_more {A : Type} (class : ascii -> bool) (s : bytes) (k : bytes -> option A) : option A :=
  match s with
  | [] => k []
  | c :: s' =>
      if class c then match plus_more class s' k with Some a => Some a | None => k s end
      else k s
  end.

(** [k] is given what is left of the string and the groups matched so far. *)
Fixpoint regex_match {A : Type} (r : regex) (s : bytes) (k : bytes -> list bytes -> option A) : option A :=
  match r with
  | Text t => if bool_decide (take (length t) s = t) then k (drop (length t) s) [] else None
  | Plus class =>
      match s with
      | c :: s => if class c then plus_more class s (fun rest => k rest []) else None
      | [] => None
      end
  | Seq r1 r2 => regex_match r1 s (fun s g1 => regex_match r2 s (fun s g2 => k s (g1 ++ g2)))
  | Opt r => match regex_match r s k with Some a => Some a | None => k s (replicate (groups r) []) end
  | Group r => regex_match r s (fun rest g => k rest (take (length s - length rest) s :: g))
  end.

(** The groups of FindStringSubmatch for an expression that starts with [^]. *)
Definition FindStringSubmatch (r : regex) (s : bytes) : option (list bytes) :=
  regex_match r s (fun _ g => Some g).

(** [\d], [\s], [\S], [[^/]] and [.] *)
Definition re_d (c : ascii) : bool := is_digit c.
Definition re_s (c : ascii) : bool := bool_decide (c ∈ [TAB; LF; ascii_of_N 12; CR; " "%char]).
Definition re_S (c : ascii) : bool := negb (re_s c).
Definition re_not_slash (c : ascii) : bool := negb (bool_decide (c = "/"%char)).
Definition re_dot (c : ascii) : bool := negb (bool_decide (c = LF)).

Definition codecRegex : regex :=
  Seq (Group (Plus re_d)) (Seq (Plus re_s) (Seq (Group (Plus re_not_slash)) (Seq (Text (bs "/"))
    (Seq (Group (Plus re_d)) (Opt (Seq (Text (bs "/")) (Group (Plus re_d)))))))).
Definition fmtpRegex : regex := Seq (Group (Plus re_d)) (Seq (Plus re_s) (Group (Plus re_dot))).
Definition cryptoRegex : regex :=
  Seq (Plus re_d) (Seq (Plus re_s) (Seq (Group (Plus re_S)) (Seq (Plus re_s) (Seq (Text (bs "inline:")) (Group (Plus re_dot)))))).
Definition ssrcRegex : regex := Group (Plus re_d).

(** ** Data *)

(** The same fields as the listener's type. *)
Definition CodecInfo : Type := sdpCodecInfo.

Record ParsedSDP := mkParsedSDP {
  sdp_SessionID : Z;
  sdp_SessionVersion : Z;
  sdp_SessionName : bytes;
  sdp_ConnectionIP : bytes;
  sdp_OriginUsername : bytes;
  sdp_MediaType : bytes;
  sdp_MediaPort : Z;
  sdp_Protocol : bytes;
  sdp_Codecs : list CodecInfo;
  sdp_Ptime : Z;
  sdp_HasAVPF : bool;
  sdp_HasICE : bool;
  sdp_ICEUfrag : bytes;
  sdp_ICEPwd : bytes;
  sdp_ICELite : bool;
  sdp_HasDTLS : bool;
  sdp_Fingerprint : bytes;
  sdp_Setup : bytes;
  sdp_HasSRTP : bool;
  sdp_CryptoSuite : bytes;
  sdp_CryptoKey : bytes;
  sdp_Direction : bytes;
  sdp_RTCPMux : bool;
  sdp_RTCPPort : Z;
  sdp_SSRC : Z;
  sdp_MID : bytes }.
#[export] Instance set_sdp_SessionID : Setter sdp_SessionID := fun f r =>
  mkParsedSDP (f (sdp_SessionID r)) (sdp_SessionVersion r) (sdp_SessionName r) (sdp_ConnectionIP r) (sdp_OriginUsername r) (sdp_MediaType r) (sdp_MediaPort r) (sdp_Protocol r) (sdp_Codecs r) (sdp_Ptime r) (sdp_HasAVPF r) (sdp_HasICE r) (sdp_ICEUfrag r) (sdp_ICEPwd r) (sdp_ICELite r) (sdp_HasDTLS r) (sdp_Fingerprint r) (sdp_Setup r) (sdp_HasSRTP r) (sdp_CryptoSuite r) (sdp_CryptoKey r) (sdp_Direction r) (sdp_RTCPMux r) (sdp_RTCPPort r) (sdp_SSRC r) (sdp_MID r).
#[export] Instance set_sdp_SessionVersion : Setter sdp_SessionVersion := fun f r =>
  mkParsedSDP (sdp_SessionID r) (f (sdp_SessionVersion r)) (sdp_SessionName r) (sdp_ConnectionIP r) (sdp_OriginUsername r) (sdp_MediaType r) (sdp_MediaPort r) (sdp_Protocol r) (sdp_Codecs r) (sdp_Ptime r) (sdp_HasAVPF r) (sdp_HasICE r) (sdp_ICEUfrag r) (sdp_ICEPwd r) (sdp_ICELite r) (sdp_HasDTLS r) (sdp_Fingerprint r) (sdp_Setup r) (sdp_HasSRTP r) (sdp_CryptoSuite r) (sdp_CryptoKey r) (sdp_Direction r) (sdp_RTCPMux r) (sdp_RTCPPort r) (sdp_SSRC r) (sdp_MID r).
#[export] Instance set_sdp_SessionName : Setter sdp_SessionName := fun f r =>
  mkParsedSDP (sdp_SessionID r) (sdp_SessionVersion r) (f (sdp_SessionName r)) (sdp_ConnectionIP r) (sdp_OriginUsername r) (sdp_MediaType r) (sdp_MediaPort r) (sdp_Protocol r) (sdp_Codecs r) (sdp_Ptime r) (sdp_HasAVPF r) (sdp_HasICE r) (sdp_ICEUfrag r) (sdp_ICEPwd r) (sdp_ICELite r) (sdp_HasDTLS r) (sdp_Fingerprint r) (sdp_Setup r) (sdp_HasSRTP r) (sdp_CryptoSuite r) (sdp_CryptoKey r) (sdp_Direction r) (sdp_RTCPMux r) (sdp_RTCPPort r) (sdp_SSRC r) (sdp_MID r).
#[export] Instance set_sdp_ConnectionIP : Setter sdp_ConnectionIP := fun f r =>
  mkParsedSDP (sdp_SessionID r) (sdp_SessionVersion r) (sdp_SessionName r) (f (sdp_ConnectionIP r)) (sdp_OriginUsername r) (sdp_MediaType r) (sdp_MediaPort r) (sdp_Protocol r) (sdp_Codecs r) (sdp_Ptime r) (sdp_HasAVPF r) (sdp_HasICE r) (sdp_ICEUfrag r) (sdp_ICEPwd r) (sdp_ICELite r) (sdp_HasDTLS r) (sdp_Fingerprint r) (sdp_Setup r) (sdp_HasSRTP r) (sdp_CryptoSuite r) (sdp_CryptoKey r) (sdp_Direction r) (sdp_RTCPMux r) (sdp_RTCPPort r) (sdp_SSRC r) (sdp_MID r).
#[export] Instance set_sdp_OriginUsername : Setter sdp_OriginUsername := fun f r =>
  mkParsedSDP (sdp_SessionID r) (sdp_SessionVersion r) (sdp_SessionName r) (sdp_ConnectionIP r) (f (sdp_OriginUsername r)) (sdp_MediaType r) (sdp_MediaPort r) (sdp_Protocol r) (sdp_Codecs r) (sdp_Ptime r) (sdp_HasAVPF r) (sdp_HasICE r) (sdp_ICEUfrag r) (sdp_ICEPwd r) (sdp_ICELite r) (sdp_HasDTLS r) (sdp_Fingerprint r) (sdp_Setup r) (sdp_HasSRTP r) (sdp_CryptoSuite r) (sdp_CryptoKey r) (sdp_Direction r) (sdp_RTCPMux r) (sdp_RTCPPort r) (sdp_SSRC r) (sdp_MID r).
#[export] Instance set_sdp_MediaType : Setter sdp_MediaType := fun f r =>
  mkParsedSDP (sdp_SessionID r) (sdp_SessionVersion r) (sdp_SessionName r) (sdp_ConnectionIP r) (sdp_OriginUsername r) (f (sdp_MediaType r)) (sdp_MediaPort r) (sdp_Protocol r) (sdp_Codecs r) (sdp_Ptime r) (sdp_HasAVPF r) (sdp_HasICE r) (sdp_ICEUfrag r) (sdp_ICEPwd r) (sdp_ICELite r) (sdp_HasDTLS r) (sdp_Fingerprint r) (sdp_Setup r) (sdp_HasSRTP r) (sdp_CryptoSuite r) (sdp_CryptoKey r) (sdp_Direction r) (sdp_RTCPMux r) (sdp_RTCPPort r) (sdp_SSRC r) (sdp_MID r).
#[export] Instance set_sdp_MediaPort : Setter sdp_MediaPort := fun f r =>
  mkParsedSDP (sdp_SessionID r) (sdp_SessionVersion r) (sdp_SessionName r) (sdp_ConnectionIP r) (sdp_OriginUsername r) (sdp_MediaType r) (f (sdp_MediaPort r)) (sdp_Protocol r) (sdp_Codecs r) (sdp_Ptime r) (sdp_HasAVPF r) (sdp_HasICE r) (sdp_ICEUfrag r) (sdp_ICEPwd r) (sdp_ICELite r) (sdp_HasDTLS r) (sdp_Fingerprint r) (sdp_Setup r) (sdp_HasSRTP r) (sdp_CryptoSuite r) (sdp_CryptoKey r) (sdp_Direction r) (sdp_RTCPMux r) (sdp_RTCPPort r) (sdp_SSRC r) (sdp_MID r).
#[export] Instance set_sdp_Protocol : Setter sdp_Protocol := fun f r =>
  mkParsedSDP (sdp_SessionID r) (sdp_SessionVersion r) (sdp_SessionName r) (sdp_ConnectionIP r) (sdp_OriginUsername r) (sdp_MediaType r) (sdp_MediaPort r) (f (sdp_Protocol r)) (sdp_Codecs r) (sdp_Ptime r) (sdp_HasAVPF r) (sdp_HasICE r) (sdp_ICEUfrag r) (sdp_ICEPwd r) (sdp_ICELite r) (sdp_HasDTLS r) (sdp_Fingerprint r) (sdp_Setup r) (sdp_HasSRTP r) (sdp_CryptoSuite r) (sdp_CryptoKey r) (sdp_Direction r) (sdp_RTCPMux r) (sdp_RTCPPort r) (sdp_SSRC r) (sdp_MID r).
#[export] Instance set_sdp_Codecs : Setter sdp_Codecs := fun f r =>
  mkParsedSDP (sdp_SessionID r) (sdp_SessionVersion r) (sdp_SessionName r) (sdp_ConnectionIP r) (sdp_OriginUsername r) (sdp_MediaType r) (sdp_MediaPort r) (sdp_Protocol r) (f (sdp_Codecs r)) (sdp_Ptime r) (sdp_HasAVPF r) (sdp_HasICE r) (sdp_ICEUfrag r) (sdp_ICEPwd r) (sdp_ICELite r) (sdp_HasDTLS r) (sdp_Fingerprint r) (sdp_Setup r) (sdp_HasSRTP r) (sdp_CryptoSuite r) (sdp_CryptoKey r) (sdp_Direction r) (sdp_RTCPMux r) (sdp_RTCPPort r) (sdp_SSRC r) (sdp_MID r).
#[export] Instance set_sdp_Ptime : Setter sdp_Ptime := fun f r =>
  mkParsedSDP (sdp_SessionID r) (sdp_SessionVersion r) (sdp_SessionName r) (sdp_ConnectionIP r) (sdp_OriginUsername r) (sdp_MediaType r) (sdp_MediaPort r) (sdp_Protocol r) (sdp_Codecs r) (f (sdp_Ptime r)) (sdp_HasAVPF r) (sdp_HasICE r) (sdp_ICEUfrag r) (sdp_ICEPwd r) (sdp_ICELite r) (sdp_HasDTLS r) (sdp_Fingerprint r) (sdp_Setup r) (sdp_HasSRTP r) (sdp_CryptoSuite r) (sdp_CryptoKey r) (sdp_Direction r) (sdp_RTCPMux r) (sdp_RTCPPort r) (sdp_SSRC r) (sdp_MID r).
#[export] Instance set_sdp_HasAVPF : Setter sdp_HasAVPF := fun f r =>
  mkParsedSDP (sdp_SessionID r) (sdp_SessionVersion r) (sdp_SessionName r) (sdp_ConnectionIP r) (sdp_OriginUsername r) (sdp_MediaType r) (sdp_MediaPort r) (sdp_Protocol r) (sdp_Codecs r) (sdp_Ptime r) (f (sdp_HasAVPF r)) (sdp_HasICE r) (sdp_ICEUfrag r) (sdp_ICEPwd r) (sdp_ICELite r) (sdp_HasDTLS r) (sdp_Fingerprint r) (sdp_Setup r) (sdp_HasSRTP r) (sdp_CryptoSuite r) (sdp_CryptoKey r) (sdp_Direction r) (sdp_RTCPMux r) (sdp_RTCPPort r) (sdp_SSRC r) (sdp_MID r).
#[export] Instance set_sdp_HasICE : Setter sdp_HasICE := fun f r =>
  mkParsedSDP (sdp_SessionID r) (sdp_SessionVersion r) (sdp_SessionName r) (sdp_ConnectionIP r) (sdp_OriginUsername r) (sdp_MediaType r) (sdp_MediaPort r) (sdp_Protocol r) (sdp_Codecs r) (sdp_Ptime r) (sdp_HasAVPF r) (f (sdp_HasICE r)) (sdp_ICEUfrag r) (sdp_ICEPwd r) (sdp_ICELite r) (sdp_HasDTLS r) (sdp_Fingerprint r) (sdp_Setup r) (sdp_HasSRTP r) (sdp_CryptoSuite r) (sdp_CryptoKey r) (sdp_Direction r) (sdp_RTCPMux r) (sdp_RTCPPort r) (sdp_SSRC r) (sdp_MID r).
#[export] Instance set_sdp_ICEUfrag : Setter sdp_ICEUfrag := fun f r =>
  mkParsedSDP (sdp_SessionID r) (sdp_SessionVersion r) (sdp_SessionName r) (sdp_ConnectionIP r) (sdp_OriginUsername r) (sdp_MediaType r) (sdp_MediaPort r) (sdp_Protocol r) (sdp_Codecs r) (sdp_Ptime r) (sdp_HasAVPF r) (sdp_HasICE r) (f (sdp_ICEUfrag r)) (sdp_ICEPwd r) (sdp_ICELite r) (sdp_HasDTLS r) (sdp_Fingerprint r) (sdp_Setup r) (sdp_HasSRTP r) (sdp_CryptoSuite r) (sdp_CryptoKey r) (sdp_Direction r) (sdp_RTCPMux r) (sdp_RTCPPort r) (sdp_SSRC r) (sdp_MID r).
#[export] Instance set_sdp_ICEPwd : Setter sdp_ICEPwd := fun f r =>
  mkParsedSDP (sdp_SessionID r) (sdp_SessionVersion r) (sdp_SessionName r) (sdp_ConnectionIP r) (sdp_OriginUsername r) (sdp_MediaType r) (sdp_MediaPort r) (sdp_Protocol r) (sdp_Codecs r) (sdp_Ptime r) (sdp_HasAVPF r) (sdp_HasICE r) (sdp_ICEUfrag r) (f (sdp_ICEPwd r)) (sdp_ICELite r) (sdp_HasDTLS r) (sdp_Fingerprint r) (sdp_Setup r) (sdp_HasSRTP r) (sdp_CryptoSuite r) (sdp_CryptoKey r) (sdp_Direction r) (sdp_RTCPMux r) (sdp_RTCPPort r) (sdp_SSRC r) (sdp_MID r).
#[export] Instance set_sdp_ICELite : Setter sdp_ICELite := fun f r =>
  mkParsedSDP (sdp_SessionID r) (sdp_SessionVersion r) (sdp_SessionName r) (sdp_ConnectionIP r) (sdp_OriginUsername r) (sdp_MediaType r) (sdp_MediaPort r) (sdp_Protocol r) (sdp_Codecs r) (sdp_Ptime r) (sdp_HasAVPF r) (sdp_HasICE r) (sdp_ICEUfrag r) (sdp_ICEPwd r) (f (sdp_ICELite r)) (sdp_HasDTLS r) (sdp_Fingerprint r) (sdp_Setup r) (sdp_HasSRTP r) (sdp_CryptoSuite r) (sdp_CryptoKey r) (sdp_Direction r) (sdp_RTCPMux r) (sdp_RTCPPort r) (sdp_SSRC r) (sdp_MID r).
#[export] Instance set_sdp_HasDTLS : Setter sdp_HasDTLS := fun f r =>
  mkParsedSDP (sdp_SessionID r) (sdp_SessionVersion r) (sdp_SessionName r) (sdp_ConnectionIP r) (sdp_OriginUsername r) (sdp_MediaType r) (sdp_MediaPort r) (sdp_Protocol r) (sdp_Codecs r) (sdp_Ptime r) (sdp_HasAVPF r) (sdp_HasICE r) (sdp_ICEUfrag r) (sdp_ICEPwd r) (sdp_ICELite r) (f (sdp_HasDTLS r)) (sdp_Fingerprint r) (sdp_Setup r) (sdp_HasSRTP r) (sdp_CryptoSuite r) (sdp_CryptoKey r) (sdp_Direction r) (sdp_RTCPMux r) (sdp_RTCPPort r) (sdp_SSRC r) (sdp_MID r).
#[export] Instance set_sdp_Fingerprint : Setter sdp_Fingerprint := fun f r =>
  mkParsedSDP (sdp_SessionID r) (sdp_SessionVersion r) (sdp_SessionName r) (sdp_ConnectionIP r) (sdp_OriginUsername r) (sdp_MediaType r) (sdp_MediaPort r) (sdp_Protocol r) (sdp_Codecs r) (sdp_Ptime r) (sdp_HasAVPF r) (sdp_HasICE r) (sdp_ICEUfrag r) (sdp_ICEPwd r) (sdp_ICELite r) (sdp_HasDTLS r) (f (sdp_Fingerprint r)) (sdp_Setup r) (sdp_HasSRTP r) (sdp_CryptoSuite r) (sdp_CryptoKey r) (sdp_Direction r) (sdp_RTCPMux r) (sdp_RTCPPort r) (sdp_SSRC r) (sdp_MID r).
#[export] Instance set_sdp_Setup : Setter sdp_Setup := fun f r =>
  mkParsedSDP (sdp_SessionID r) (sdp_SessionVersion r) (sdp_SessionName r) (sdp_ConnectionIP r) (sdp_OriginUsername r) (sdp_MediaType r) (sdp_MediaPort r) (sdp_Protocol r) (sdp_Codecs r) (sdp_Ptime r) (sdp_HasAVPF r) (sdp_HasICE r) (sdp_ICEUfrag r) (sdp_ICEPwd r) (sdp_ICELite r) (sdp_HasDTLS r) (sdp_Fingerprint r) (f (sdp_Setup r)) (sdp_HasSRTP r) (sdp_CryptoSuite r) (sdp_CryptoKey r) (sdp_Direction r) (sdp_RTCPMux r) (sdp_RTCPPort r) (sdp_SSRC r) (sdp_MID r).
#[export] Instance set_sdp_HasSRTP : Setter sdp_HasSRTP := fun f r =>
  mkParsedSDP (sdp_SessionID r) (sdp_SessionVersion r) (sdp_SessionName r) (sdp_ConnectionIP r) (sdp_OriginUsername r) (sdp_MediaType r) (sdp_MediaPort r) (sdp_Protocol r) (sdp_Codecs r) (sdp_Ptime r) (sdp_HasAVPF r) (sdp_HasICE r) (sdp_ICEUfrag r) (sdp_ICEPwd r) (sdp_ICELite r) (sdp_HasDTLS r) (sdp_Fingerprint r) (sdp_Setup r) (f (sdp_HasSRTP r)) (sdp_CryptoSuite r) (sdp_CryptoKey r) (sdp_Direction r) (sdp_RTCPMux r) (sdp_RTCPPort r) (sdp_SSRC r) (sdp_MID r).
#[export] Instance set_sdp_CryptoSuite : Setter sdp_CryptoSuite := fun f r =>
  mkParsedSDP (sdp_SessionID r) (sdp_SessionVersion r) (sdp_SessionName r) (sdp_ConnectionIP r) (sdp_OriginUsername r) (sdp_MediaType r) (sdp_MediaPort r) (sdp_Protocol r) (sdp_Codecs r) (sdp_Ptime r) (sdp_HasAVPF r) (sdp_HasICE r) (sdp_ICEUfrag r) (sdp_ICEPwd r) (sdp_ICELite r) (sdp_HasDTLS r) (sdp_Fingerprint r) (sdp_Setup r) (sdp_HasSRTP r) (f (sdp_CryptoSuite r)) (sdp_CryptoKey r) (sdp_Direction r) (sdp_RTCPMux r) (sdp_RTCPPort r) (sdp_SSRC r) (sdp_MID r).
#[export] Instance set_sdp_CryptoKey : Setter sdp_CryptoKey := fun f r =>
  mkParsedSDP (sdp_SessionID r) (sdp_SessionVersion r) (sdp_SessionName r) (sdp_ConnectionIP r) (sdp_OriginUsername r) (sdp_MediaType r) (sdp_MediaPort r) (sdp_Protocol r) (sdp_Codecs r) (sdp_Ptime r) (sdp_HasAVPF r) (sdp_HasICE r) (sdp_ICEUfrag r) (sdp_ICEPwd r) (sdp_ICELite r) (sdp_HasDTLS r) (sdp_Fingerprint r) (sdp_Setup r) (sdp_HasSRTP r) (sdp_CryptoSuite r) (f (sdp_CryptoKey r)) (sdp_Direction r) (sdp_RTCPMux r) (sdp_RTCPPort r) (sdp_SSRC r) (sdp_MID r).
#[export] Instance set_sdp_Direction : Setter sdp_Direction := fun f r =>
  mkParsedSDP (sdp_SessionID r) (sdp_SessionVersion r) (sdp_SessionName r) (sdp_ConnectionIP r) (sdp_OriginUsername r) (sdp_MediaType r) (sdp_MediaPort r) (sdp_Protocol r) (sdp_Codecs r) (sdp_Ptime r) (sdp_HasAVPF r) (sdp_HasICE r) (sdp_ICEUfrag r) (sdp_ICEPwd r) (sdp_ICELite r) (sdp_HasDTLS r) (sdp_Fingerprint r) (sdp_Setup r) (sdp_HasSRTP r) (sdp_CryptoSuite r) (sdp_CryptoKey r) (f (sdp_Direction r)) (sdp_RTCPMux r) (sdp_RTCPPort r) (sdp_SSRC r) (sdp_MID r).
#[export] Instance set_sdp_RTCPMux : Setter sdp_RTCPMux := fun f r =>
  mkParsedSDP (sdp_SessionID r) (sdp_SessionVersion r) (sdp_SessionName r) (sdp_ConnectionIP r) (sdp_OriginUsername r) (sdp_MediaType r) (sdp_MediaPort r) (sdp_Protocol r) (sdp_Codecs r) (sdp_Ptime r) (sdp_HasAVPF r) (sdp_HasICE r) (sdp_ICEUfrag r) (sdp_ICEPwd r) (sdp_ICELite r) (sdp_HasDTLS r) (sdp_Fingerprint r) (sdp_Setup r) (sdp_HasSRTP r) (sdp_CryptoSuite r) (sdp_CryptoKey r) (sdp_Direction r) (f (sdp_RTCPMux r)) (sdp_RTCPPort r) (sdp_SSRC r) (sdp_MID r).
#[export] Instance set_sdp_RTCPPort : Setter sdp_RTCPPort := fun f r =>
  mkParsedSDP (sdp_SessionID r) (sdp_SessionVersion r) (sdp_SessionName r) (sdp_ConnectionIP r) (sdp_OriginUsername r) (sdp_MediaType r) (sdp_MediaPort r) (sdp_Protocol r) (sdp_Codecs r) (sdp_Ptime r) (sdp_HasAVPF r) (sdp_HasICE r) (sdp_ICEUfrag r) (sdp_ICEPwd r) (sdp_ICELite r) (sdp_HasDTLS r) (sdp_Fingerprint r) (sdp_Setup r) (sdp_HasSRTP r) (sdp_CryptoSuite r) (sdp_CryptoKey r) (sdp_Direction r) (sdp_RTCPMux r) (f (sdp_RTCPPort r)) (sdp_SSRC r) (sdp_MID r).
#[export] Instance set_sdp_SSRC : Setter sdp_SSRC := fun f r =>
  mkParsedSDP (sdp_SessionID r) (sdp_SessionVersion r) (sdp_SessionName r) (sdp_ConnectionIP r) (sdp_OriginUsername r) (sdp_MediaType r) (sdp_MediaPort r) (sdp_Protocol r) (sdp_Codecs r) (sdp_Ptime r) (sdp_HasAVPF r) (sdp_HasICE r) (sdp_ICEUfrag r) (sdp_ICEPwd r) (sdp_ICELite r) (sdp_HasDTLS r) (sdp_Fingerprint r) (sdp_Setup r) (sdp_HasSRTP r) (sdp_CryptoSuite r) (sdp_CryptoKey r) (sdp_Direction r) (sdp_RTCPMux r) (sdp_RTCPPort r) (f (sdp_SSRC r)) (sdp_MID r).
#[export] Instance set_sdp_MID : Setter sdp_MID := fun f r =>
  mkParsedSDP (sdp_SessionID r) (sdp_SessionVersion r) (sdp_SessionName r) (sdp_ConnectionIP r) (sdp_OriginUsername r) (sdp_MediaType r) (sdp_MediaPort r) (sdp_Protocol r) (sdp_Codecs r) (sdp_Ptime r) (sdp_HasAVPF r) (sdp_HasICE r) (sdp_ICEUfrag r) (sdp_ICEPwd r) (sdp_ICELite r) (sdp_HasDTLS r) (sdp_Fingerprint r) (sdp_Setup r) (sdp_HasSRTP r) (sdp_CryptoSuite r) (sdp_CryptoKey r) (sdp_Direction r) (sdp_RTCPMux r) (sdp_RTCPPort r) (sdp_SSRC r) (f (sdp_MID r)).

(** ** Parsing *)

Definition parse_rtpmap (attrValue : bytes) (parsed : ParsedSDP) : ParsedSDP :=
  match FindStringSubmatch codecRegex attrValue with
  | Some [m1; m2; m3; m4] =>
      let codec := mkCodec (u8 (Atoi m1).1) m2 (u32 (ParseUint 32 m3).1) (if bool_decide (m4 = []) then 1 else (Atoi m4).1) [] in
      parsed <| sdp_Codecs ::= fun l => l ++ [codec] |>
  | _ => parsed
  end.

Definition parse_fmtp (attrValue : bytes) (parsed : ParsedSDP) : ParsedSDP :=
  match FindStringSubmatch fmtpRegex attrValue with
  | Some [m1; m2] => parsed <| sdp_Codecs ::= set_fmtp (Atoi m1).1 m2 |>
  | _ => parsed
  end.

Definition parse_crypto (attrValue : bytes) (parsed : ParsedSDP) : ParsedSDP :=
  let parsed := parsed <| sdp_HasSRTP := true |> in
  match FindStringSubmatch cryptoRegex attrValue with
  | Some [m1; m2] => parsed <| sdp_CryptoSuite := m1 |> <| sdp_CryptoKey := m2 |>
  | _ => parsed
  end.

Definition parse_ssrc (attrValue : bytes) (parsed : ParsedSDP) : ParsedSDP :=
  match FindStringSubmatch ssrcRegex attrValue with
  | Some [m1] => parsed <| sdp_SSRC := u32 (ParseUint 32 m1).1 |>
  | _ => parsed
  end.

(** strings.Fields(attrValue)[0] is out of range when there is no field. *)
Definition parse_rtcp {E : Type} (attrValue : bytes) (parsed : ParsedSDP) : outcome E ParsedSDP :=
  match Fields attrValue with
  | port :: _ => Ok (parsed <| sdp_RTCPPort := (Atoi port).1 |>)
  | [] => Panic
  end.

Definition parse_attribute {E : Type} (attrName attrValue : bytes) (parsed : ParsedSDP) : outcome E ParsedSDP :=
  switch attrName [
    (["rtpmap"], Ok (parse_rtpmap attrValue parsed));
    (["fmtp"], Ok (parse_fmtp attrValue parsed));
    (["ice-ufrag"], Ok (parsed <| sdp_HasICE := true |> <| sdp_ICEUfrag := attrValue |>));
    (["ice-pwd"], Ok (parsed <| sdp_HasICE := true |> <| sdp_ICEPwd := attrValue |>));
    (["ice-lite"], Ok (parsed <| sdp_ICELite := true |>));
    (["fingerprint"], Ok (parsed <| sdp_HasDTLS := true |> <| sdp_Fingerprint := attrValue |>));
    (["setup"], Ok (parsed <| sdp_Setup := attrValue |>));
    (["crypto"], Ok (parse_crypto attrValue parsed));
    (["rtcp-mux"], Ok (parsed <| sdp_RTCPMux := true |>));
    (["rtcp"], parse_rtcp attrValue parsed);
    (["sendrecv"; "sendonly"; "recvonly"; "inactive"], Ok (parsed <| sdp_Direction := attrName |>));
    (["ssrc"], Ok (parse_ssrc attrValue parsed));
    (["ptime"], Ok (parsed <| sdp_Ptime := (Atoi attrValue).1 |>));
    (["mid"], Ok (parsed <| sdp_MID := attrValue |>))]%string (Ok parsed).

(** strings.SplitN(value, ":", 2) *)
Definition split_colon (value : bytes) : bytes * bytes :=
  match IndexByte value ":" with
  | Some n => (take n value, drop (S n) value)
  | None => (value, [])
  end.

(** The payload types and whether a media line was seen are passed too, and
    not used. *)
Definition parseAttribute {E : Type} (value : bytes) (parsed : ParsedSDP) : outcome E ParsedSDP :=
  let '(attrName, attrValue) := split_colon value in parse_attribute attrName attrValue parsed.

Definition parse_origin (value : bytes) (parsed : ParsedSDP) : ParsedSDP :=
  let parts := Fields value in
  let parsed := match parts with u :: _ => parsed <| sdp_OriginUsername := u |> | [] => parsed end in
  match parts with
  | _ :: id :: version :: _ => parsed <| sdp_SessionID := (Atoi id).1 |> <| sdp_SessionVersion := (Atoi version).1 |>
  | _ => parsed
  end.

Definition parse_connection (value : bytes) (parsed : ParsedSDP) : ParsedSDP :=
  match Fields value with
  | _ :: _ :: ip :: _ => parsed <| sdp_ConnectionIP := match IndexByte ip "/" with Some idx => take idx ip | None => ip end |>
  | _ => parsed
  end.

Definition parse_media (value : bytes) (st : ParsedSDP * list Z) : ParsedSDP * list Z :=
  let '(parsed, payloadTypes) := st in
  match Fields value with
  | media :: port :: proto :: pt :: pts =>
      let parsed := parsed <| sdp_MediaType := media |> <| sdp_MediaPort := (Atoi port).1 |> <| sdp_Protocol := proto |> in
      let parsed := if Contains proto (bs "AVPF") then parsed <| sdp_HasAVPF := true |> else parsed in
      (parsed, omap (fun s => let '(n, ok) := Atoi s in if ok : bool then Some n else None) (pt :: pts))
  | _ => st
  end.

(** One line that was trimmed; the payload types are those of the last media
    line. *)
Definition parse_trimmed {E : Type} (st : ParsedSDP * list Z) (line : bytes) : outcome E (ParsedSDP * list Z) :=
  let '(parsed, payloadTypes) := st in
  match line with
  | lineType :: eq :: value =>
      if bool_decide (eq = "="%char) then
        if bool_decide (lineType = "o"%char) then Ok (parse_origin value parsed, payloadTypes)
        else if bool_decide (lineType = "s"%char) then Ok (parsed <| sdp_SessionName := value |>, payloadTypes)
        else if bool_decide (lineType = "c"%char) then Ok (parse_connection value parsed, payloadTypes)
        else if bool_decide (lineType = "m"%char) then Ok (parse_media value st)
        else if bool_decide (lineType = "a"%char) then let! parsed := parseAttribute value parsed in Ok (parsed, payloadTypes)
        else Ok st
      else Ok st
  | _ => Ok st
  end.
Definition parse_line {E : Type} (st : ParsedSDP * list Z) (line : bytes) : outcome E (ParsedSDP * list Z) :=
  parse_trimmed st (TrimSpace line).

Fixpoint parse_lines {E : Type} (st : ParsedSDP * list Z) (lines : list bytes) : outcome E (ParsedSDP * list Z) :=
  match lines with
  | [] => Ok st
  | line :: lines => let! st := parse_line st line in parse_lines st lines
  end.

Definition staticCodecs (pt : Z) : option CodecInfo :=
  let codec name rate channels := Some (mkCodec pt (bs name) rate channels []) in
  if pt =? 0 then codec "PCMU" 8000 1
  else if pt =? 3 then codec "GSM" 8000 1
  else if pt =? 4 then codec "G723" 8000 1
  else if pt =? 5 then codec "DVI4" 8000 1
  else if pt =? 6 then codec "DVI4" 16000 1
  else if pt =? 7 then codec "LPC" 8000 1
  else if pt =? 8 then codec "PCMA" 8000 1
  else if pt =? 9 then codec "G722" 8000 1
  else if pt =? 10 then codec "L16" 44100 2
  else if pt =? 11 then codec "L16" 44100 1
  else if pt =? 12 then codec "QCELP" 8000 1
  else if pt =? 13 then codec "CN" 8000 1
  else if pt =? 14 then codec "MPA" 90000 1
  else if pt =? 15 then codec "G728" 8000 1
  else if pt =? 16 then codec "DVI4" 11025 1
  else if pt =? 17 then codec "DVI4" 22050 1
  else if pt =? 18 then codec "G729" 8000 1
  else None.

(** [existing] is filled before the loop and not updated in it. *)
Definition fillStaticCodecs (parsed : ParsedSDP) (payloadTypes : list Z) : ParsedSDP :=
  let existing := map PayloadType (sdp_Codecs parsed) in
  parsed <| sdp_Codecs ::= fun l => l ++ omap (fun pt =>
    if bool_decide (u8 pt ∈ existing) then None else staticCodecs pt) payloadTypes |>.

Definition initial_sdp : ParsedSDP :=
  mkParsedSDP 0 0 [] [] [] [] 0 [] [] 0 false false [] [] false false [] [] false [] [] (bs "sendrecv") false 0 0 [].

(** The error of [Parse] is always nil. *)
Definition Parse {E : Type} (sdp : bytes) : outcome E ParsedSDP :=
  let lines := splitBy (unify_newlines sdp) LF in
  let! (parsed, payloadTypes) := parse_lines (initial_sdp, []) lines in
  Ok (fillStaticCodecs parsed payloadTypes).

(** ** Building *)

Record SDPBuildOptions := mkSDPBuildOptions {
  opt_MediaType : bytes;
  opt_Direction : bytes;
  opt_RTCPMux : bool;
  opt_ICE : bool;
  opt_ICEUfrag : bytes;
  opt_ICEPwd : bytes;
  opt_ICELite : bool;
  opt_ICECandidates : list bytes;
  opt_DTLS : bool;
  opt_Fingerprint : bytes;
  opt_FingerprintHash : bytes;
  opt_Setup : bytes;
  opt_SRTP : bool;
  opt_CryptoSuite : bytes;
  opt_CryptoKey : bytes }.

Definition zero_options : SDPBuildOptions := mkSDPBuildOptions [] [] false false [] [] false [] false [] [] [] false [] [].

(** The lines of a codec: its map and its parameters. *)
Definition codec_lines (c : CodecInfo) : list bytes :=
  [bs "a=rtpmap:" ++ FormatInt (PayloadType c) ++ bs " " ++ Name c ++ bs "/" ++ FormatInt (ClockRate c) ++
   (if Channels c >? 1 then bs "/" ++ FormatInt (Channels c) else [])] ++
  (if bool_decide (Fmtp c = []) then []
   else [bs "a=fmtp:" ++ FormatInt (PayloadType c) ++ bs " " ++ Fmtp c]).

(** A nil [opts] behaves as the zero value: every use of it is guarded. *)
Definition build_lines (sessionID sessionVersion : Z) (localIP : bytes) (port : Z) (codecs : list CodecInfo)
    (options : option SDPBuildOptions) : list bytes :=
  let opts := default zero_options options in
  [bs "v=0";
   bs "o=karl " ++ FormatInt sessionID ++ bs " " ++ FormatInt sessionVersion ++ bs " IN IP4 " ++ localIP;
   bs "s=Karl Media Server"; bs "c=IN IP4 " ++ localIP; bs "t=0 0";
   bs "m=" ++ (if bool_decide (opt_MediaType opts = []) then bs "audio" else opt_MediaType opts) ++ bs " " ++ FormatInt port ++
     bs " " ++ (if opt_DTLS opts then bs "UDP/TLS/RTP/SAVPF" else if opt_SRTP opts then bs "RTP/SAVP" else bs "RTP/AVP") ++
     concat (map (fun c => bs " " ++ FormatInt (PayloadType c)) codecs)] ++
  concat (map codec_lines codecs) ++
  [bs "a=" ++ (if bool_decide (opt_Direction opts = []) then bs "sendrecv" else opt_Direction opts)] ++
  (if opt_RTCPMux opts then [bs "a=rtcp-mux"] else []) ++
  (if opt_ICE opts then
     [bs "a=ice-ufrag:" ++ opt_ICEUfrag opts; bs "a=ice-pwd:" ++ opt_ICEPwd opts] ++
     (if opt_ICELite opts then [bs "a=ice-lite"] else []) ++
     map (fun c => bs "a=candidate:" ++ c) (opt_ICECandidates opts)
   else []) ++
  (if opt_DTLS opts then
     [bs "a=fingerprint:" ++ opt_FingerprintHash opts ++ bs " " ++ opt_Fingerprint opts; bs "a=setup:" ++ opt_Setup opts]
   else []) ++
  (if opt_SRTP opts && negb (opt_DTLS opts) then
     [bs "a=crypto:1 " ++ opt_CryptoSuite opts ++ bs " inline:" ++ opt_CryptoKey opts]
   else []).

Definition BuildSDP (sessionID sessionVersion : Z) (localIP : bytes) (port : Z) (codecs : list CodecInfo)
    (opts : option SDPBuildOptions) : bytes :=
  concat (map crlf (build_lines sessionID sessionVersion localIP port codecs opts)).

Definition offer_sdp : bytes :=
  concat (map crlf (map bs ["v=0"; "o=alice 42 7 IN IP4 10.0.0.7"; "s=call one"; "c=IN IP4 10.0.0.7/127"; "t=0 0";
    "m=audio 4000 RTP/SAVPF 96 8 0"; "a=rtpmap:96 opus/48000/2"; "a=fmtp:96 useinbandfec=1"; "a=rtcp:4009"; "a=sendonly";
    "a=crypto:1 AES_CM_128_HMAC_SHA1_80 inline:abc"; "a=ssrc:77 cname:x"; "a=ptime:20"; "a=mid:0"]))%string.

Example Parse_ex :
  Parse (E := unit) offer_sdp =
  Ok (mkParsedSDP 42 7 (bs "call one") (bs "10.0.0.7") (bs "alice") (bs "audio") 4000 (bs "RTP/SAVPF")
        [mkCodec 96 (bs "opus") 48000 2 (bs "useinbandfec=1"); mkCodec 8 (bs "PCMA") 8000 1 []; mkCodec 0 (bs "PCMU") 8000 1 []]
        20 true false [] [] false false [] [] true (bs "AES_CM_128_HMAC_SHA1_80") (bs "abc") (bs "sendonly") false 4009 77 (bs "0")).
Proof. vm_compute. reflexivity. Qed.

(** The white space may be given back: the name is the second blank. *)
Example codecRegex_ex :
  FindStringSubmatch codecRegex (bs "96  /8000/x") = Some [bs "96"; bs " "; bs "8000"; []] /\
  FindStringSubmatch codecRegex (bs "96 a b/8000/2") = Some [bs "96"; bs "a b"; bs "8000"; bs "2"] /\
  FindStringSubmatch codecRegex (bs "96 /8000") = None.
Proof. vm_compute. done. Qed.

(** ** Specification: the texts a description is made of *)

(** ASCII whose only white space are blanks and tabs. *)
Definition is_clean (c : ascii) : Prop := chr c < 0x80 /\ IsSpace (chr c) = is_blank c.
Definition clean (s : bytes) : Prop := Forall is_clean s.
(** ASCII without white space, and a text that trimming leaves alone. *)
Definition word (s : bytes) : Prop := s <> [] /\ Forall (fun c => is_clean c /\ is_blank c = false) s.
Definition starts (s : bytes) : Prop := exists c, head s = Some c /\ is_blank c = false.
Definition ends (s : bytes) : Prop := exists c, last s = Some c /\ is_blank c = false.
Definition text (s : bytes) : Prop := clean s /\ starts s /\ ends s.

#[export] Instance is_clean_dec c : Decision (is_clean c).
Proof. unfold is_clean. apply _. Defined.

Definition wf_codec (c : CodecInfo) : Prop :=
  0 <= PayloadType c < 256 /\ word (Name c) /\ ("/"%char ∉ Name c) /\ 0 <= ClockRate c < 2 ^ 32 /\
  1 <= Channels c < 2 ^ 63 /\ (Fmtp c = [] \/ text (Fmtp c)).

(** ** Lemmas: texts *)

Lemma chr_ascii c : ascii_of_N (Z.to_N (chr c)) = c.
Proof. unfold chr. rewrite N2Z.id. apply ascii_N_embedding. Qed.
Lemma uncodes_codes s : uncodes (codes s) = s.
Proof. unfold uncodes, codes. rewrite map_map. induction s as [|c s IH]; [done|]. cbn [map]. by rewrite chr_ascii, IH. Qed.

Lemma chunks_ascii l : forall n, (length l <= n)%nat -> Forall (fun b => b < 0x80) l -> chunks n l = map (fun b => (b, [b])) l.
Proof.
  induction l as [|b l IH]; intros [|n] Hn Hl; cbn [length] in Hn; try lia; try done.
  apply Forall_cons in Hl as [Hb Hl]. cbn [chunks decode1]. destruct (Z.ltb_spec b 0x80); [|lia].
  cbn [take drop map]. rewrite take_0, drop_0. by rewrite IH by (done || lia).
Qed.

Lemma clean_codes s : clean s -> chunks (length s) (codes s) = map (fun b => (b, [b])) (codes s).
Proof.
  intros Hs. apply chunks_ascii; [unfold codes; by rewrite length_map|].
  unfold codes. apply Forall_map. eapply Forall_impl; [exact Hs|]. by intros c [? _].
Qed.

Lemma fields_of_clean s : clean s -> forall f,
  map uncodes (fields_of (codes f) (map (fun b => (b, [b])) (codes s))) = split_fields f s.
Proof.
  induction 1 as [|c s [Hc Hb] _ IH]; intros f; cbn [codes map fields_of split_fields].
  - destruct f as [|x f]; [done|]. cbn [codes map]. f_equal. apply (uncodes_codes (x :: f)).
  - rewrite Hb. destruct (is_blank c).
    + destruct f as [|x f]; [apply (IH [])|]. cbn [codes map]. rewrite <- (IH []). f_equal. apply (uncodes_codes (x :: f)).
    + rewrite <- IH. f_equal. f_equal. unfold codes. by rewrite map_app.
Qed.

Lemma Fields_clean s : clean s -> Fields s = splitFields s.
Proof. intros Hs. unfold Fields, splitFields. rewrite clean_codes by done. by apply (fields_of_clean s Hs []). Qed.

Lemma clean_append s t : clean s -> clean t -> clean (s ++ t).
Proof. intros. by apply Forall_app. Qed.
Lemma clean_nil : clean [].
Proof. constructor. Qed.
Lemma clean_bs s : forallb (fun c => bool_decide (is_clean c)) (bs s) = true -> clean (bs s).
Proof. intros H. apply Forall_forall. intros c Hc. rewrite forallb_forall in H. eapply bool_decide_eq_true, H. by apply list_elem_of_In. Qed.
Lemma starts_app s t : starts s -> starts (s ++ t).
Proof. intros (c & Hc & Hb). exists c. split; [|done]. destruct s; [done|]. done. Qed.
Lemma ends_app s t : ends t -> ends (s ++ t).
Proof. intros (c & Hc & Hb). exists c. split; [|done]. rewrite last_app. by rewrite Hc. Qed.

Lemma word_text s : word s -> text s.
Proof.
  intros [Hne Hs]. split_and!.
  - eapply Forall_impl; [exact Hs|]. by intros c [? _].
  - destruct s as [|c s]; [done|]. exists c. split; [done|]. by apply Forall_cons in Hs as [[_ ?] _].
  - destruct (last s) as [c|] eqn:E; [|by apply last_None in E].
    exists c. split; [exact E|]. apply last_Some in E as [l ->]. apply Forall_app in Hs as [_ Hs]. by apply Forall_cons in Hs as [[_ ?] _].
Qed.

Lemma word_bs s : bool_decide (bs s <> []) && forallb (fun c => bool_decide (is_clean c) && negb (is_blank c)) (bs s) = true -> word (bs s).
Proof.
  rewrite andb_true_iff, forallb_forall. intros [H1 H2]. split; [by apply bool_decide_eq_true in H1|].
  apply Forall_forall. intros c Hc. apply list_elem_of_In in Hc. apply H2 in Hc. apply andb_true_iff in Hc as [Hc Hb].
  split; [by apply bool_decide_eq_true in Hc|by apply negb_true_iff].
Qed.

Lemma clean_plain s : clean s -> plain s.
Proof.
  intros Hs. unfold clean in Hs. rewrite Forall_forall in Hs.
  split; intros Hin; destruct (Hs _ Hin) as [_ H]; vm_compute in H; discriminate.
Qed.

Lemma word_token s : word s -> token s.
Proof.
  intros Hw. pose proof (word_text _ Hw) as (Hc & _). destruct Hw as [Hne Hs].
  split; [by apply clean_plain|]. split; [done|]. eapply Forall_impl; [exact Hs|]. by intros c [_ ?].
Qed.

Lemma drop_space_id l : (forall c, head l = Some c -> IsSpace c.1 = false) -> drop_space l = l.
Proof. destruct l as [|[r b] l]; [done|]. intros H. cbn [drop_space]. specialize (H _ eq_refl). cbn in H. by rewrite H. Qed.

Lemma TrimSpace_text s : text s -> TrimSpace s = s.
Proof.
  intros (Hs & (c & Hc & Hcb) & (d & Hd & Hdb)). unfold TrimSpace, InputValidator.TrimSpace.
  replace (length (codes s)) with (length s) by (unfold codes; by rewrite length_map). rewrite clean_codes by done.
  assert (forall x, x ∈ s -> IsSpace (chr x) = is_blank x) as Hsp.
  { intros x Hx. unfold clean in Hs. rewrite Forall_forall in Hs. by destruct (Hs _ Hx). }
  rewrite (drop_space_id (map _ _)).
  2:{ destruct s as [|x s]; [done|]. injection Hc as ->. intros y [= <-]. cbn. rewrite Hsp by left. done. }
  rewrite drop_space_id.
  - rewrite rev_involutive. rewrite <- (uncodes_codes s) at 2. f_equal. generalize (codes s). clear.
    induction l as [|b l IH]; [done|]. cbn [map]. cbn. f_equal. exact IH.
  - apply last_Some in Hd as [l ->]. unfold codes. rewrite !map_app, rev_app_distr. cbn. intros y [= <-]. cbn.
    rewrite Hsp; [done|]. apply elem_of_app. right. left.
Qed.

(** Decimal numerals. *)
Lemma digit_val_nonneg c d : digit_val c = Some d -> 0 <= d.
Proof. unfold digit_val. case_match; [|done]. intros [= <-]. bool_prop. lia. Qed.
Lemma parse_digits_le s : forall acc n, 0 <= acc -> parse_digits acc s = Some n -> acc <= n.
Proof.
  induction s as [|c s IH]; cbn [parse_digits]; intros acc n Hacc H; [injection H as <-; lia|].
  destruct (digit_val c) as [d|] eqn:E; [|done]. apply digit_val_nonneg in E. apply IH in H; lia.
Qed.
Lemma uint_loop_digits maxVal s : forall acc n, 0 <= acc -> parse_digits acc s = Some n -> n <= maxVal -> uint_loop maxVal acc s = Value n.
Proof.
  induction s as [|c s IH]; intros acc n Hacc H Hn; cbn [parse_digits uint_loop] in *; [congruence|].
  destruct (digit_val c) as [d|] eqn:E; [|done]. apply digit_val_nonneg in E.
  assert (acc * 10 + d <= n) by (eapply parse_digits_le; [|exact H]; lia).
  destruct (Z.ltb_spec maxVal (acc * 10 + d)); [lia|]. apply IH; [lia|done|done].
Qed.

Lemma Atoi_FormatInt n : Prelude.is_s 64 n -> Atoi (FormatInt n) = (n, true).
Proof.
  intros Hn. unfold Prelude.is_s in Hn. unfold Atoi, FormatInt. destruct (Z.ltb_spec n 0).
  - destruct (format_digits 20 (- n)) as [|c l] eqn:E; [by apply format_digits_nonempty in E; [|lia]|].
    rewrite (uint_loop_digits _ _ 0 (- n)); [|lia|rewrite <- E; apply parse_format_digits; lia|lia].
    destruct (Z.ltb_spec (2 ^ 63) (- n)); [lia|]. f_equal. lia.
  - destruct (FormatInt_head n) as (c & l & E & Hc); [lia|]. unfold FormatInt in E. destruct (Z.ltb_spec n 0); [lia|].
    assert (uint_loop (2 ^ 64 - 1) 0 (c :: l) = Value n) as Hv
      by (apply uint_loop_digits; [lia|rewrite <- E; apply parse_format_digits; lia|lia]).
    rewrite E. assert (c <> "-"%char /\ c <> "+"%char) as [H1 H2] by (split; intros ->; discriminate).
    assert (match c :: l with "-"%char :: t => (true, t) | "+"%char :: t => (false, t) | _ => (false, c :: l) end = (false, c :: l)) as ->
      by (destruct c as [[] [] [] [] [] [] [] []]; done).
    rewrite Hv. destruct (Z.leb_spec (2 ^ 63) n); [lia|done].
Qed.

Lemma ParseUint_FormatInt bits n : 0 <= n < 2 ^ bits -> n < 10 ^ 20 -> ParseUint bits (FormatInt n) = (n, true).
Proof.
  intros Hn Hlt. unfold ParseUint. destruct (FormatInt_head n) as (c & l & E & _); [lia|]. rewrite E, <- E.
  rewrite (uint_loop_digits _ _ 0 n); [done|lia| |lia]. unfold FormatInt. destruct (Z.ltb_spec n 0); [lia|]. apply parse_format_digits; lia.
Qed.

Lemma digit_word c : is_digit c = true -> is_clean c /\ is_blank c = false.
Proof. destruct c as [[] [] [] [] [] [] [] []]; vm_compute; done. Qed.

Lemma word_FormatInt n : word (FormatInt n).
Proof.
  split.
  - unfold FormatInt. destruct (n <? 0); [done|]. by apply format_digits_nonempty; lia.
  - apply Forall_forall. intros c [->|Hc]%FormatInt_chars; [|by apply digit_word].
    split; [|done]. by apply (bool_decide_unpack _).
Qed.
Lemma digits_FormatInt n : 0 <= n -> Forall (fun c => re_d c = true) (FormatInt n) /\ FormatInt n <> [].
Proof.
  intros Hn. split; [|apply word_FormatInt]. unfold FormatInt. destruct (Z.ltb_spec n 0); [lia|]. by apply format_digits_Forall.
Qed.

(** ** Lemmas: regular expressions *)

Definition stops (class : ascii -> bool) (s : bytes) : Prop := match s with c :: _ => class c = false | [] => True end.

Lemma plus_more_exact {A : Type} class got rest (k : bytes -> option A) a :
  Forall (fun c => class c = true) got -> stops class rest -> k rest = Some a -> plus_more class (got ++ rest) k = Some a.
Proof.
  intros Hg Hr Hk. induction Hg as [|c got Hc _ IH]; cbn [app plus_more].
  - destruct rest as [|c rest]; [done|]. cbn [plus_more]. cbn in Hr. by rewrite Hr.
  - by rewrite Hc, IH.
Qed.

Lemma match_plus {A : Type} class got rest (k : bytes -> list bytes -> option A) a :
  Forall (fun c => class c = true) got /\ got <> [] -> stops class rest -> k rest [] = Some a ->
  regex_match (Plus class) (got ++ rest) k = Some a.
Proof.
  intros [Hg Hne] Hr Hk. destruct got as [|c got]; [done|]. apply Forall_cons in Hg as [Hc Hg].
  cbn [app regex_match]. rewrite Hc. by apply plus_more_exact.
Qed.

Lemma match_group {A : Type} class got rest (k : bytes -> list bytes -> option A) a :
  Forall (fun c => class c = true) got /\ got <> [] -> stops class rest -> k rest [got] = Some a ->
  regex_match (Group (Plus class)) (got ++ rest) k = Some a.
Proof.
  intros Hg Hr Hk.
  change (regex_match (Plus class) (got ++ rest) (fun s g => k s (take (length (got ++ rest) - length s) (got ++ rest) :: g)) = Some a).
  apply match_plus; [done|done|]. rewrite <- Hk, length_app. replace (length got + length rest - length rest)%nat with (length got) by lia. by rewrite take_app_length.
Qed.

Lemma match_text {A : Type} t rest (k : bytes -> list bytes -> option A) a :
  k rest [] = Some a -> regex_match (Text t) (t ++ rest) k = Some a.
Proof. intros Hk. cbn [regex_match]. rewrite take_app_length, bool_decide_eq_true_2, drop_app_length by done. done. Qed.

Lemma match_seq {A : Type} r1 r2 s (k : bytes -> list bytes -> option A) :
  regex_match (Seq r1 r2) s k = regex_match r1 s (fun s g1 => regex_match r2 s (fun s g2 => k s (g1 ++ g2))).
Proof. done. Qed.

Lemma match_opt {A : Type} r s (k : bytes -> list bytes -> option A) a :
  regex_match r s k = Some a -> regex_match (Opt r) s k = Some a.
Proof. intros H. cbn [regex_match]. by rewrite H. Qed.

(** The characters of a word are in the classes the expressions use. *)
Lemma word_class c : is_clean c /\ is_blank c = false -> re_s c = false /\ re_S c = true /\ re_dot c = true.
Proof. destruct c as [[] [] [] [] [] [] [] []]; vm_compute; intros [[H1 H2] H3]; try done. Qed.
Lemma clean_dot s : clean s -> Forall (fun c => re_dot c = true) s.
Proof. intros Hs. eapply Forall_impl; [exact Hs|]. intros c. destruct c as [[] [] [] [] [] [] [] []]; vm_compute; intros [H1 H2]; done. Qed.
Lemma word_S s : word s -> Forall (fun c => re_S c = true) s /\ s <> [].
Proof. intros [Hne Hs]. split; [|done]. eapply Forall_impl; [exact Hs|]. intros c Hc. by apply word_class. Qed.
Lemma starts_stops s t : clean s -> starts s -> stops re_s (s ++ t).
Proof.
  intros Hs (c & Hc & Hb). destruct s as [|x s]; [done|]. injection Hc as ->. cbn. apply Forall_cons in Hs as [Hx _].
  by apply word_class.
Qed.
Lemma blank_s : Forall (fun c => re_s c = true) (bs " ") /\ bs " " <> [].
Proof. split; [|done]. by repeat constructor. Qed.
Lemma name_not_slash s : word s -> "/"%char ∉ s -> Forall (fun c => re_not_slash c = true) s /\ s <> [].
Proof.
  intros [Hne _] Hs. split; [|done]. apply Forall_forall. intros c Hc. unfold re_not_slash. rewrite bool_decide_eq_false_2; [done|].
  intros ->. done.
Qed.

(** What [codecRegex], [fmtpRegex] and [cryptoRegex] find in the lines that are built. *)
Lemma match_codec pt name clock channels : 0 <= pt -> word name -> "/"%char ∉ name -> 0 <= clock -> 0 <= channels ->
  FindStringSubmatch codecRegex (FormatInt pt ++ bs " " ++ name ++ bs "/" ++ FormatInt clock ++
    (if channels >? 1 then bs "/" ++ FormatInt channels else [])) =
  Some [FormatInt pt; name; FormatInt clock; if channels >? 1 then FormatInt channels else []].
Proof.
  intros Hpt Hname Hslash Hclock Hch. unfold FindStringSubmatch, codecRegex.
  rewrite match_seq. apply match_group; [by apply digits_FormatInt|done|].
  rewrite match_seq. apply match_plus; [apply blank_s|apply word_text in Hname as (? & ? & _); by apply starts_stops|].
  rewrite match_seq. apply match_group; [by apply name_not_slash|done|].
  rewrite match_seq. apply match_text. rewrite match_seq.
  apply match_group; [by apply digits_FormatInt|by destruct (channels >? 1)|].
  destruct (channels >? 1); [|done]. apply match_opt. rewrite match_seq. apply match_text.
  rewrite <- (app_nil_r (FormatInt channels)) at 1. by apply match_group; [apply digits_FormatInt| |].
Qed.

Lemma match_fmtp pt f : 0 <= pt -> text f -> FindStringSubmatch fmtpRegex (FormatInt pt ++ bs " " ++ f) = Some [FormatInt pt; f].
Proof.
  intros Hpt (Hc & Hs & He). unfold FindStringSubmatch, fmtpRegex.
  rewrite match_seq. apply match_group; [by apply digits_FormatInt|done|].
  rewrite match_seq. apply match_plus; [apply blank_s|rewrite <- (app_nil_r f); by apply starts_stops|].
  rewrite <- (app_nil_r f) at 1. apply match_group; [|done|done].
  split; [by apply clean_dot|]. destruct Hs as (c & ? & _). by destruct f.
Qed.

Lemma match_crypto suite key : word suite -> clean key -> key <> [] ->
  FindStringSubmatch cryptoRegex (bs "1 " ++ suite ++ bs " inline:" ++ key) = Some [suite; key].
Proof.
  intros Hw Hk Hne. unfold FindStringSubmatch, cryptoRegex. change (bs "1 " ++ ?x) with (bs "1" ++ bs " " ++ x).
  rewrite match_seq. apply match_plus; [split; [by repeat constructor|done]|done|].
  rewrite match_seq. apply match_plus; [apply blank_s|apply word_text in Hw as (? & ? & _); by apply starts_stops|].
  rewrite match_seq. apply match_group; [by apply word_S|done|].
  change (bs " inline:" ++ key) with (bs " " ++ bs "inline:" ++ key).
  rewrite match_seq. apply match_plus; [apply blank_s|done|].
  rewrite match_seq. apply match_text. rewrite <- (app_nil_r key) at 1. apply match_group; [|done|done].
  split; [by apply clean_dot|done].
Qed.

(** ** Lemmas: lines *)

Lemma unify_app l rest : CR ∉ l -> unify_newlines (l ++ CR :: LF :: rest) = l ++ LF :: unify_newlines rest.
Proof.
  induction l as [|c l IH]; intros Hl; [done|]. apply not_elem_of_cons in Hl as [Hc Hl]. cbn [app].
  cbn [unify_newlines]. destruct (l ++ CR :: LF :: rest) as [|d t] eqn:E; [by destruct l|].
  rewrite bool_decide_eq_false_2 by (intros [? _]; congruence). f_equal. by rewrite IH.
Qed.

Lemma lines_back ls : Forall plain ls -> splitBy (unify_newlines (concat (map crlf ls))) LF = ls ++ [[]].
Proof.
  induction 1 as [|l ls [Hcr Hlf] _ IH]; [done|]. cbn [map concat]. unfold crlf at 1.
  rewrite <- app_assoc. cbn [app]. rewrite unify_app, splitBy_cons by done. by rewrite IH.
Qed.

Lemma parse_lines_app {E : Type} ls1 ls2 : forall st,
  parse_lines (E := E) st (ls1 ++ ls2) = let! st := parse_lines st ls1 in parse_lines st ls2.
Proof.
  induction ls1 as [|l ls1 IH]; intros st; [done|]. cbn [app parse_lines]. destruct (parse_line st l); cbn [obind]; [apply IH|done..].
Qed.

Lemma text_line s t : forallb (fun c => bool_decide (is_clean c)) (bs s) && match bs s with c :: _ => negb (is_blank c) | [] => false end = true ->
  clean t -> ends t -> text (bs s ++ t).
Proof.
  intros H Ht He. apply andb_true_iff in H as [H1 H2]. split_and!; [apply clean_append; [by apply clean_bs|done]| |by apply ends_app].
  apply starts_app. destruct (bs s) as [|c l]; [done|]. exists c. split; [done|]. by apply negb_true_iff.
Qed.
Lemma text_bs s : forallb (fun c => bool_decide (is_clean c)) (bs s) && match bs s with c :: _ => negb (is_blank c) | [] => false end &&
  match last (bs s) with Some c => negb (is_blank c) | None => false end = true -> text (bs s).
Proof.
  intros H. apply andb_true_iff in H as [H1 H2]. pose proof H1 as H3. apply andb_true_iff in H3 as [H3 H4].
  split_and!; [by apply clean_bs| |].
  - destruct (bs s) as [|c l]; [done|]. exists c. split; [done|]. by apply negb_true_iff.
  - destruct (last (bs s)) as [c|] eqn:El; [|done]. exists c. split; [done|]. by apply negb_true_iff.
Qed.

Lemma parse_text {E : Type} st line : text line -> parse_line (E := E) st line = parse_trimmed st line.
Proof. intros H. unfold parse_line. by rewrite TrimSpace_text. Qed.

Lemma read_attr {E : Type} name v p pts : ":"%char ∉ name ->
  parse_trimmed (E := E) (p, pts) (bs "a=" ++ name ++ ":"%char :: v) = let! p := parse_attribute name v p in Ok (p, pts).
Proof.
  intros Hn. cbn [bs list_ascii_of_string app parse_trimmed]. rewrite !bool_decide_eq_true_2 by done.
  rewrite !bool_decide_eq_false_2 by done. unfold parseAttribute, split_colon. rewrite IndexByte_app by done.
  rewrite take_app_length. replace (S (length name)) with (length name + 1)%nat by lia. by rewrite <- drop_drop, drop_app_length.
Qed.

(** The pieces of a line. *)
Lemma clean_FormatInt n : clean (FormatInt n).
Proof. apply word_text, word_FormatInt. Qed.
Lemma ends_FormatInt n : ends (FormatInt n).
Proof. apply word_text, word_FormatInt. Qed.
Lemma clean_word s : word s -> clean s.
Proof. intros H. by apply word_text. Qed.
Lemma ends_word s : word s -> ends s.
Proof. intros H. by apply word_text. Qed.
Lemma clean_blank : clean (bs " ").
Proof. by apply clean_bs. Qed.
Lemma clean_slash : clean (bs "/").
Proof. by apply clean_bs. Qed.
Create HintDb sdp_text discriminated.
#[export] Hint Resolve clean_append clean_nil clean_FormatInt ends_FormatInt clean_word ends_word clean_blank clean_slash ends_app word_FormatInt : sdp_text.

Definition clock_text (c : CodecInfo) : bytes :=
  FormatInt (ClockRate c) ++ (if Channels c >? 1 then bs "/" ++ FormatInt (Channels c) else []).
Lemma clock_text_ok c : clean (clock_text c) /\ ends (clock_text c).
Proof. unfold clock_text. destruct (Channels c >? 1); [|rewrite app_nil_r]; split; auto 10 with sdp_text. Qed.

Lemma rtpmap_text c : wf_codec c ->
  text (bs "a=rtpmap:" ++ FormatInt (PayloadType c) ++ bs " " ++ Name c ++ bs "/" ++ clock_text c).
Proof.
  intros (_ & Hname & _). destruct (clock_text_ok c). apply text_line; [reflexivity|auto 10 with sdp_text|].
  auto 10 with sdp_text.
Qed.

Lemma read_rtpmap_line {E : Type} c p pts : wf_codec c ->
  parse_line (E := E) (p, pts) (bs "a=rtpmap:" ++ FormatInt (PayloadType c) ++ bs " " ++ Name c ++ bs "/" ++ clock_text c)
  = Ok (p <| sdp_Codecs ::= fun l => l ++ [c <| Fmtp := [] |>] |>, pts).
Proof.
  intros Hwf. rewrite parse_text by by apply rtpmap_text. destruct Hwf as (Hpt & Hname & Hslash & Hclock & Hch & _).
  change (bs "a=rtpmap:" ++ ?x) with (bs "a=" ++ bs "rtpmap" ++ ":"%char :: x). rewrite read_attr by by apply no_colon.
  change (parse_attribute (bs "rtpmap") ?v p) with (@Ok E _ (parse_rtpmap v p)). cbn [obind]. unfold parse_rtpmap, clock_text.
  rewrite match_codec by (done || lia). rewrite Atoi_FormatInt by (unfold Prelude.is_s; lia).
  rewrite ParseUint_FormatInt by lia. cbn [fst]. rewrite !wrapu_id by (unfold is_u; lia).
  assert ((if bool_decide ((if Channels c >? 1 then FormatInt (Channels c) else []) = []) then 1
           else (Atoi (if Channels c >? 1 then FormatInt (Channels c) else [])).1) = Channels c) as Hc.
  { destruct (Z.gtb_spec (Channels c) 1); [|cbn; lia]. destruct (word_FormatInt (Channels c)) as [Hne _].
    rewrite bool_decide_eq_false_2 by done. rewrite Atoi_FormatInt by (unfold Prelude.is_s; lia). done. }
  rewrite Hc. done.
Qed.

Lemma codec_lines_eq c : codec_lines c =
  [bs "a=rtpmap:" ++ FormatInt (PayloadType c) ++ bs " " ++ Name c ++ bs "/" ++ clock_text c] ++
  (if bool_decide (Fmtp c = []) then [] else [bs "a=fmtp:" ++ FormatInt (PayloadType c) ++ bs " " ++ Fmtp c]).
Proof. done. Qed.

Lemma fmtp_text pt f : text f -> text (bs "a=fmtp:" ++ FormatInt pt ++ bs " " ++ f).
Proof. intros (Hc & _ & He). apply text_line; [reflexivity|auto with sdp_text|auto with sdp_text]. Qed.

Lemma read_codec_lines {E : Type} c p pts : wf_codec c -> PayloadType c ∉ map PayloadType (sdp_Codecs p) ->
  parse_lines (E := E) (p, pts) (codec_lines c) = Ok (p <| sdp_Codecs ::= fun l => l ++ [c] |>, pts).
Proof.
  intros Hwf Hnew. rewrite codec_lines_eq. cbn [app parse_lines]. rewrite read_rtpmap_line by done. cbn [obind].
  case_bool_decide as Hf; cbn [parse_lines].
  { do 2 f_equal. destruct c; cbn in *. by subst. }
  destruct Hwf as (Hpt & _ & _ & _ & _ & [?|Ht]); [done|]. rewrite parse_text by by apply fmtp_text.
  change (bs "a=fmtp:" ++ ?x) with (bs "a=" ++ bs "fmtp" ++ ":"%char :: x). rewrite read_attr by by apply no_colon.
  change (parse_attribute (bs "fmtp") ?v ?q) with (@Ok E _ (parse_fmtp v q)). cbn [obind]. unfold parse_fmtp.
  rewrite match_fmtp by (done || lia). rewrite Atoi_FormatInt by (unfold Prelude.is_s; lia). cbn [fst].
  unfold set_field, set_sdp_Codecs. cbn. do 2 f_equal. rewrite set_fmtp_last by done. by destruct c.
Qed.

Lemma read_all_codecs {E : Type} cs : forall p pts, Forall wf_codec cs -> NoDup (map PayloadType (sdp_Codecs p ++ cs)) ->
  parse_lines (E := E) (p, pts) (concat (map codec_lines cs)) = Ok (p <| sdp_Codecs ::= fun l => l ++ cs |>, pts).
Proof.
  induction cs as [|c cs IH]; intros p pts Hwf Hnd; cbn [map concat].
  { cbn [parse_lines]. do 2 f_equal. unfold set_field, set_sdp_Codecs. rewrite app_nil_r. by destruct p. }
  apply Forall_cons in Hwf as [Hc Hwf]. rewrite parse_lines_app, read_codec_lines; [cbn [obind]|done|].
  - rewrite IH; [|done|].
    + do 2 f_equal. unfold set_field, set_sdp_Codecs. cbn. by rewrite <- app_assoc.
    + unfold set_field, set_sdp_Codecs. cbn [sdp_Codecs]. by rewrite <- app_assoc.
  - rewrite map_app in Hnd. apply NoDup_app in Hnd as (_ & Hd & _). intros Hin. eapply Hd; [exact Hin|]. cbn. left.
Qed.

Lemma text_codec_lines c : wf_codec c -> Forall text (codec_lines c).
Proof.
  intros Hwf. rewrite codec_lines_eq. apply Forall_app. split; [by apply Forall_singleton, rtpmap_text|].
  case_bool_decide; [constructor|]. apply Forall_singleton. apply fmtp_text. by destruct Hwf as (_ & _ & _ & _ & _ & [?|?]).
Qed.

(** The lines before the codecs. *)
Lemma parse_origin_line {E : Type} user id version family ip p pts :
  word user -> Prelude.is_s 64 id -> Prelude.is_s 64 version -> word family -> word ip ->
  parse_line (E := E) (p, pts) (bs "o=" ++ user ++ bs " " ++ FormatInt id ++ bs " " ++ FormatInt version ++ bs " IN " ++ family ++ bs " " ++ ip)
  = Ok (p <| sdp_OriginUsername := user |> <| sdp_SessionID := id |> <| sdp_SessionVersion := version |>, pts).
Proof.
  intros Hu Hid Hv Hf Hip. assert (clean (bs " IN ")) as Hin by by apply clean_bs.
  rewrite parse_text by (apply text_line; [reflexivity|auto 15 with sdp_text|auto 15 with sdp_text]).
  change (parse_trimmed (p, pts) (bs "o=" ++ ?v)) with (@Ok E _ (parse_origin v p, pts)). unfold parse_origin.
  rewrite Fields_clean by auto 15 with sdp_text. change (bs " IN " ++ ?x) with (bs " " ++ bs "IN " ++ x).
  rewrite !splitFields_token by (apply word_token; auto with sdp_text). cbn [app]. rewrite !Atoi_FormatInt by done. done.
Qed.

Lemma parse_name_line {E : Type} name p pts : text name ->
  parse_line (E := E) (p, pts) (bs "s=" ++ name) = Ok (p <| sdp_SessionName := name |>, pts).
Proof. intros (Hc & Hs & He). by rewrite parse_text by by apply text_line. Qed.

Lemma parse_connection_line {E : Type} family ip p pts : word family -> word ip -> "/"%char ∉ ip ->
  parse_line (E := E) (p, pts) (bs "c=IN " ++ family ++ bs " " ++ ip) = Ok (p <| sdp_ConnectionIP := ip |>, pts).
Proof.
  intros Hf Hip Hs. rewrite parse_text by (apply text_line; [reflexivity|auto with sdp_text|auto with sdp_text]).
  change (parse_trimmed (p, pts) (bs "c=IN " ++ ?v)) with (@Ok E _ (parse_connection (bs "IN" ++ bs " " ++ v) p, pts)).
  unfold parse_connection. assert (clean (bs "IN")) by by apply clean_bs.
  rewrite Fields_clean by auto 10 with sdp_text.
  rewrite !splitFields_token, splitFields_last by (by apply token_bs || by apply word_token). by rewrite IndexByte_None.
Qed.

Lemma parse_time_line {E : Type} st : parse_line (E := E) st (bs "t=0 0") = Ok st.
Proof. destruct st. reflexivity. Qed.
Lemma parse_version_line {E : Type} st : parse_line (E := E) st (bs "v=0") = Ok st.
Proof. destruct st. reflexivity. Qed.

Definition type_list (cs : list CodecInfo) : bytes := concat (map (fun c => bs " " ++ FormatInt (PayloadType c)) cs).

Lemma type_list_ok cs : clean (type_list cs) /\ (cs <> [] -> ends (type_list cs)).
Proof.
  unfold type_list. induction cs as [|c cs [IHc IHe]]; cbn [map concat]; [split; [constructor|done]|].
  split; [auto with sdp_text|]. intros _. destruct cs as [|d cs]; [cbn [map concat]; rewrite app_nil_r; auto with sdp_text|].
  apply ends_app, IHe. done.
Qed.

Lemma fields_types proto cs : word proto ->
  splitFields (proto ++ type_list cs) = proto :: map (fun c => FormatInt (PayloadType c)) cs.
Proof.
  revert proto. unfold type_list. induction cs as [|c cs IH]; intros proto Hp; cbn [map concat].
  - rewrite app_nil_r. by apply splitFields_last, word_token.
  - rewrite <- app_assoc. rewrite splitFields_token by by apply word_token. f_equal. apply IH. apply word_FormatInt.
Qed.

Lemma types_back cs : Forall wf_codec cs ->
  omap (fun s => let '(n, ok) := Atoi s in if ok : bool then Some n else None) (map (fun c => FormatInt (PayloadType c)) cs) = map PayloadType cs.
Proof.
  induction 1 as [|c cs [Hc _] _ IH]; [done|]. cbn [map omap list_omap]. rewrite Atoi_FormatInt by (unfold Prelude.is_s; lia).
  f_equal. exact IH.
Qed.

Lemma parse_media_line {E : Type} media port proto cs p pts :
  word media -> Prelude.is_s 64 port -> word proto -> cs <> [] -> Forall wf_codec cs -> sdp_HasAVPF p = false ->
  parse_line (E := E) (p, pts) (bs "m=" ++ media ++ bs " " ++ FormatInt port ++ bs " " ++ proto ++ type_list cs) =
  Ok (p <| sdp_MediaType := media |> <| sdp_MediaPort := port |> <| sdp_Protocol := proto |> <| sdp_HasAVPF := Contains proto (bs "AVPF") |>,
      map PayloadType cs).
Proof.
  intros Hm Hport Hp Hne Hcs Hav. destruct (type_list_ok cs) as [Hc He].
  rewrite parse_text by (apply text_line; [reflexivity|auto 10 with sdp_text|auto 10 with sdp_text]).
  change (parse_trimmed (p, pts) (bs "m=" ++ ?v)) with (@Ok E _ (parse_media v (p, pts))). unfold parse_media.
  rewrite Fields_clean by auto 10 with sdp_text.
  rewrite !splitFields_token, fields_types by (done || apply word_token; auto with sdp_text).
  pose proof (types_back cs Hcs) as Ht. destruct cs as [|c cs]; [done|]. cbn [map] in Ht |- *. rewrite Ht, Atoi_FormatInt by done.
  cbn [fst]. destruct (Contains proto (bs "AVPF")); [done|]. do 2 f_equal.
  destruct p; cbn in Hav; subst; reflexivity.
Qed.

Lemma parse_attr_line {E : Type} name v p pts :
  forallb (fun c => bool_decide (is_clean c)) (bs name) && bool_decide (":"%char ∉ bs name) = true -> clean v -> ends v ->
  parse_line (E := E) (p, pts) (bs "a=" ++ bs name ++ ":"%char :: v) = let! p := parse_attribute (bs name) v p in Ok (p, pts).
Proof.
  intros H Hv He. apply andb_true_iff in H as [H1 H2]. rewrite parse_text.
  - apply bool_decide_eq_true_1 in H2. by apply read_attr.
  - apply text_line; [reflexivity| |by apply ends_app, (ends_app [_])]. apply clean_append; [by apply clean_bs|].
    apply (clean_append (bs ":")); [by apply clean_bs|done].
Qed.

Lemma read_direction {E : Type} d p pts : d ∈ map bs ["sendrecv"; "sendonly"; "recvonly"; "inactive"]%string ->
  parse_line (E := E) (p, pts) (bs "a=" ++ d) = Ok (p <| sdp_Direction := d |>, pts).
Proof.
  intros Hd. cbn [map] in Hd. repeat (apply elem_of_cons in Hd as [->|Hd]); [..|by apply elem_of_nil in Hd].
  all: reflexivity.
Qed.

Lemma static_known p pts :
  (forall n, n ∈ pts -> u8 n ∈ map PayloadType (sdp_Codecs p)) -> fillStaticCodecs p pts = p.
Proof.
  intros H. unfold fillStaticCodecs.
  assert (omap (fun pt => if bool_decide (u8 pt ∈ map PayloadType (sdp_Codecs p)) then None else staticCodecs pt) pts = []) as ->.
  { induction pts as [|n pts IH]; [done|]. cbn [omap list_omap].
    rewrite bool_decide_eq_true_2 by (apply H; left). apply IH. intros. apply H. by right. }
  unfold set_field, set_sdp_Codecs. rewrite app_nil_r. by destruct p.
Qed.

(** ** Guarantees *)

(** An [a=rtcp] line without a port. *)
Definition blank_rtcp (line : bytes) : Prop :=
  exists w, (TrimSpace line = bs "a=rtcp" /\ w = []) \/ TrimSpace line = bs "a=rtcp:" ++ w /\ Fields w = [].

Lemma split_colon_inv v name w : split_colon v = (name, w) -> ":"%char ∉ name -> (v = name /\ w = []) \/ v = name ++ ":"%char :: w.
Proof.
  unfold split_colon. destruct (IndexByte v ":") as [n|] eqn:E; intros [= <- <-] Hn; [right|by left].
  assert (forall l k, IndexByte l ":" = Some k -> l = take k l ++ ":"%char :: drop (S k) l) as G.
  { clear. induction l as [|c l IH]; intros k; cbn [IndexByte]; [done|]. case_bool_decide as Hc; [intros [= <-]; by subst|].
    destruct (IndexByte l ":") as [j|] eqn:Ej; [|done]. intros [= <-]. cbn [take drop app]. f_equal. by apply IH. }
  by apply G.
Qed.

Lemma parse_attribute_total {E : Type} name v p :
  (exists q, parse_attribute (E := E) name v p = Ok q) \/ (name = bs "rtcp" /\ Fields v = [] /\ parse_attribute (E := E) name v p = Panic).
Proof.
  unfold parse_attribute. cbn [switch]. repeat case_bool_decide; try (left; eexists; reflexivity).
  unfold parse_rtcp. destruct (Fields v) eqn:Ev; [|left; eexists; reflexivity]. right. split_and!; [|done|done].
  match goal with H : name ∈ map bs ["rtcp"%string] |- _ => by apply list_elem_of_singleton in H end.
Qed.

Lemma parse_line_total {E : Type} st line :
  (exists st', parse_line (E := E) st line = Ok st') \/ (blank_rtcp line /\ parse_line (E := E) st line = Panic).
Proof.
  destruct st as [p pts]. unfold parse_line, blank_rtcp. destruct (TrimSpace line) as [|t [|e v]] eqn:El; [left; by eexists..|].
  cbn [parse_trimmed]. repeat case_bool_decide; subst; try (left; eexists; reflexivity).
  unfold parseAttribute. destruct (split_colon v) as [name w] eqn:Es.
  destruct (parse_attribute_total (E := E) name w p) as [[q ->]|(-> & Hw & ->)]; [left; eexists; reflexivity|]. right. split; [|done].
  exists w. apply split_colon_inv in Es as [[-> ->]| ->]; [by left|by right|by apply no_colon].
Qed.

Lemma blank_rtcp_panics {E : Type} st line : blank_rtcp line -> parse_line (E := E) st line = Panic.
Proof.
  destruct st as [p pts]. unfold parse_line. intros (w & [[-> _]|[-> Hw]]); [reflexivity|].
  change (bs "a=rtcp:" ++ w) with (bs "a=" ++ bs "rtcp" ++ ":"%char :: w). rewrite read_attr by by apply no_colon.
  change (parse_attribute (bs "rtcp") w p) with (@parse_rtcp E w p). unfold parse_rtcp. by rewrite Hw.
Qed.

Lemma parse_lines_panics {E : Type} ls : forall st,
  (parse_lines (E := E) st ls = Panic /\ Exists blank_rtcp ls) \/ ((exists st', parse_lines (E := E) st ls = Ok st') /\ ~ Exists blank_rtcp ls).
Proof.
  induction ls as [|l ls IH]; intros st; cbn [parse_lines]; [right; split; [by eexists|by intros ?%Exists_nil]|].
  destruct (parse_line_total (E := E) st l) as [[st' Hl]|[Hl ->]]; [|left; split; [done|by left]].
  rewrite Hl. cbn [obind]. destruct (IH st') as [[-> ?]|[[st2 ->] Hn]]; [left; split; [done|by right]|].
  right. split; [by eexists|]. intros [H|H]%Exists_cons; [|done]. by rewrite (blank_rtcp_panics st l H) in Hl.
Qed.

Lemma Parse_panics {E : Type} sdp :
  (Parse (E := E) sdp = Panic /\ Exists blank_rtcp (splitBy (unify_newlines sdp) LF)) \/
  ((exists parsed, Parse (E := E) sdp = Ok parsed) /\ ~ Exists blank_rtcp (splitBy (unify_newlines sdp) LF)).
Proof.
  unfold Parse. destruct (parse_lines_panics (E := E) (splitBy (unify_newlines sdp) LF) (initial_sdp, [])) as [[-> ?]|[[[p pts] ->] ?]];
    [by left|right; split; [by eexists|done]].
Qed.

(** A description is read to its end without an error, unless one of its lines
    is an [a=rtcp] attribute without a port: those, and no others, make the
    parser index an empty slice and panic. *)
Theorem Parse_panics_iff {E : Type} sdp :
  (Parse (E := E) sdp = Panic <-> Exists blank_rtcp (splitBy (unify_newlines sdp) LF)) /\
  (Parse (E := E) sdp <> Panic -> exists parsed, Parse (E := E) sdp = Ok parsed).
Proof.
  destruct (Parse_panics (E := E) sdp) as [[Hp He]|[[q Hq] Hn]].
  - split; [done|]. intros H. by destruct H.
  - split; [rewrite Hq; split; [done|by intros ?%Hn]|]. intros _. by eexists.
Qed.

Lemma Parse_panics_iff_witness :
  Parse (E := unit) (bs "v=0" ++ [LF] ++ bs "a=rtcp: ") = Panic /\ exists parsed, Parse (E := unit) offer_sdp = Ok parsed.
Proof.
  split; [|apply (Parse_panics_iff offer_sdp); rewrite Parse_ex; discriminate].
  apply (Parse_panics_iff (E := unit)). right. left. exists []. right. split; vm_compute; reflexivity.
Defined.
