(* ===== verification/OfferAnswer.v ===== *)
(** * The offer and answer commands of the NG protocol

    Models src/internal/ng_protocol/commands/offer.go and answer.go: the handlers
    that read a session description, bind a pair of ports, store the leg of the
    call and answer with a description of Karl's own.

    The state is the session registry and the UDP sockets the process has opened.
    A socket is a number, [sockets] has the address it is bound to, and it is open
    until the registry closes it. Which ports the operating system grants is an
    argument of each request, with the clock and the fresh session id. An address
    of a leg is kept as the text of it, codec names are ASCII, and a nil entry in
    the table of interfaces is left out. Much of answer.go is word for word
    the code of offer.go: those functions are the same definitions. *)

From Stdlib Require Import ZArith Lia Ascii String.
From stdpp Require Import base numbers list gmap strings.
From S2P Require Import Prelude Bencode GoFloat Utf8 IpAddr InputValidator Interfaces SessionRegistry Message Listener Sdp SdpProcessor Flags.

Local Open Scope Z_scope.
Local Open Scope go_scope.
#[local] Set Warnings "-clear-no-such-hyp,-register-all".

(** ** net.IP.String *)

Fixpoint Join (sep : bytes) (l : list bytes) : bytes :=
  match l with
  | [] => []
  | [x] => x
  | x :: l => x ++ sep ++ Join sep l
  end.

Definition hex_char (n : Z) : ascii := if n <? 10 then ascii_of_N (Z.to_N (48 + n)) else ascii_of_N (Z.to_N (87 + n)).
Definition hex_text (n : Z) : bytes :=
  if n <? 16 then [hex_char n]
  else if n <? 256 then [hex_char (n / 16); hex_char (n mod 16)]
  else if n <? 4096 then [hex_char (n / 256); hex_char (n / 16 mod 16); hex_char (n mod 16)]
  else [hex_char (n / 4096); hex_char (n / 256 mod 16); hex_char (n / 16 mod 16); hex_char (n mod 16)].

Fixpoint words16 (ip : list Z) : list Z := match ip with a :: b :: ip => a * 256 + b :: words16 ip | _ => [] end.
Fixpoint zero_run (l : list Z) : nat := match l with 0 :: l => S (zero_run l) | _ => 0 end.
(** The first of the longest runs of two zero groups or more: where it starts
    and how long it is. *)
Definition longest_run (gs : list Z) : nat * nat :=
  foldl (fun best i => let n := zero_run (drop i gs) in
                       if (2 <=? n)%nat && (best.2 <? n)%nat then (i, n) else best) (0, 0)%nat (seq 0 (length gs)).
Definition v6_text (ip : list Z) : bytes :=
  let gs := words16 ip in
  let '(i, n) := longest_run gs in
  if (n =? 0)%nat then Join (bs ":") (map hex_text gs)
  else Join (bs ":") (map hex_text (take i gs)) ++ bs "::" ++ Join (bs ":") (map hex_text (drop (i + n) gs)).

(** The empty list is the nil address. *)
Definition IP_String (ip : list Z) : bytes :=
  if bool_decide (ip = []) then bs "<nil>"
  else if bool_decide (length ip = 4%nat \/ length ip = 16%nat) then
    match To4 ip with
    | Some v4 => Join (bs ".") (map FormatInt v4)
    | None => v6_text ip
    end
  else bs "?" ++ (ip ≫= fun b => [hex_char (b / 16); hex_char (b mod 16)]).

Definition ip_text (s : bytes) : string := str (IP_String (default [] (ParseIP (codes s)))).

Example IP_String_ex :
  map (fun s => ip_text (bs s)) ["192.0.2.10"; "2001:db8:0:0:1:0:0:1"; "::"; "::ffff:10.0.0.1"; "1:0:2:0:3:0:4:0"; "no"]%string
  = ["192.0.2.10"; "2001:db8::1:0:0:1"; "::"; "10.0.0.1"; "1:0:2:0:3:0:4:0"; "<nil>"]%string.
Proof. vm_compute. reflexivity. Qed.

(** ** State *)

(** What the handlers read of the configuration: [Sessions] has the least and
    the largest port. *)
Record Config := mkConfig { Sessions : option (Z * Z); Integration : IntegrationConfig }.

Record request_env := mkRequestEnv { e_now : Z; e_uuid : string; e_listen : bytes -> Z -> bool }.

Record world := mkWorld { w_registry : SessionRegistry; sockets : gmap nat (bytes * Z); next_socket : nat }.
#[export] Instance set_w_registry : Setter w_registry := fun f r => mkWorld (f (w_registry r)) (sockets r) (next_socket r).

(** ** Shared helpers *)

Definition MediaAudio : string := "audio".
Definition TransportRTP : string := "RTP/AVP".
Definition TransportRTPS : string := "RTP/SAVP".
Definition TransportUDPTLSF : string := "UDP/TLS/RTP/SAVPF".
Definition ErrReasonInvalidSDP : bytes := bs "Invalid SDP".

(** The two constants, in hexadecimal. *)
Definition generateICECredentials : bytes * bytes := (bs "karl499602d2", bs "karlpass891087b8b0347115").

(** The placeholder the code has for a certificate's fingerprint. *)
Definition fingerprint : bytes := bs "sha-256 " ++ Join (bs ":") (replicate 32 (bs "XX")).

Definition port_range (cfg : Config) : Z * Z :=
  match Sessions cfg with
  | None => (30000, 40000)
  | Some (minPort, maxPort) => (if minPort >? 0 then minPort else 30000, if maxPort >? 0 then maxPort else 40000)
  end.

Definition port_error (minPort maxPort : Z) : bytes :=
  bs "failed to allocate media ports: no available port pair in range " ++ FormatInt minPort ++ bs "-" ++ FormatInt maxPort.

(** A pair of ports and the sockets bound to them. *)
Definition allocate (cfg : Config) (e : request_env) (localIP : bytes) (w : world)
    : outcome bytes (Z * Z * nat * nat) * world :=
  let '(minPort, maxPort) := port_range cfg in
  match (AllocateMediaPorts (e_listen e localIP) minPort maxPort).1 with
  | Ok (rtpPort, rtcpPort) =>
      let c := next_socket w in
      (Ok (rtpPort, rtcpPort, c, S c),
       mkWorld (w_registry w) (<[S c := (localIP, rtcpPort)]> (<[c := (localIP, rtpPort)]> (sockets w))) (S (S c)))
  | Err _ => (Err (port_error minPort maxPort), w)
  | Panic => (Panic, w)
  | OutOfFuel => (OutOfFuel, w)
  end.

(** ** offer.go *)

Definition offer_applySessionFlags (p : loc) (flags : ParsedFlags) (sr : SessionRegistry) : SessionRegistry :=
  let b := pf_bool flags in
  let sr := ApplySessionFlags p (pf_int flags TOS) (pf_int flags MediaTimeout) (pf_int flags DeleteDelay)
              (b SIPREC) (b T38Support) (b T38Gateway) (b ICELite) (b TrickleICE) (b ICEForce) (b ICERemove)
              (b DTLSOff) (b DTLSPassive) (b DTLSActive) (b SDESOff) (b SDESOnly) (b LoopProtect) (b AlwaysTranscode) sr in
  match pf_list flags TranscodeCodecs with
  | [] => sr
  | l => modify p (fun s => s <| SessionRegistry.TranscodeCodecs := map str l |>) sr
  end.

(** The address of a named interface, if it has one. *)
Definition interface_address (cfg : Config) (iface : bytes) : bytes :=
  match cfg_Interfaces (Integration cfg) !! str iface with Some c => bs (cfg_Address c) | None => [] end.

(** [own] is the flag for this side of the call. *)
Definition select_media_ip (own : StrField) (cfg : Config) (flags : ParsedFlags) (req : NGRequest) : bytes :=
  if negb (bool_decide (pf_str flags MediaAddress = [])) then pf_str flags MediaAddress
  else
    let iface := if bool_decide (pf_str flags own = []) then pf_str flags Interface else pf_str flags own in
    let address := if bool_decide (iface = []) then [] else interface_address cfg iface in
    if negb (bool_decide (address = [])) then address
    else
      let fallback := if bool_decide (Interfaces.MediaIP (Integration cfg) = EmptyString) then bs "127.0.0.1" else bs (Interfaces.MediaIP (Integration cfg)) in
      if pf_bool flags TrustAddress && pf_bool flags SIPSourceAddress then
        match req_ReceivedFrom req with Some a => IP_String (udp_IP a) | None => fallback end
      else fallback.
Definition offer_selectMediaIP : Config -> ParsedFlags -> NGRequest -> bytes := select_media_ip FromInterface.

Definition offer_determineDirection (flags : ParsedFlags) (parsed : ParsedSDP) : bytes :=
  if pf_bool flags Inactive then bs "inactive"
  else if pf_bool flags SendOnly then bs "sendonly"
  else if pf_bool flags RecvOnly then bs "recvonly"
  else if pf_bool flags OriginalSendrecv then sdp_Direction parsed
  else bs "sendrecv".

Definition offer_handleICE (parsed : ParsedSDP) (flags : ParsedFlags) : option ICECredentials :=
  if pf_bool flags ICERemove then None
  else if pf_bool flags ICEForce || sdp_HasICE parsed then
    Some (mkICECredentials (str (sdp_ICEUfrag parsed)) (str (sdp_ICEPwd parsed)) (pf_bool flags ICELite || sdp_ICELite parsed))
  else None.

Definition sdes_params (parsed : ParsedSDP) : option SRTPParameters * string :=
  (Some (mkSRTPParameters (str (sdp_CryptoSuite parsed)) [] [] false EmptyString EmptyString), TransportRTPS).
Definition dtls_params (parsed : ParsedSDP) (setup : bytes) : option SRTPParameters * string :=
  (Some (mkSRTPParameters EmptyString [] [] true (str (sdp_Fingerprint parsed)) (str setup)), TransportUDPTLSF).

(** The SRTP parameters of the leg and its transport. *)
Definition offer_handleSRTPDTLS (parsed : ParsedSDP) (flags : ParsedFlags) : option SRTPParameters * string :=
  let b := pf_bool flags in
  if b DTLSOff then
    if negb (b SDESOff) && sdp_HasSRTP parsed then sdes_params parsed else (None, TransportRTP)
  else if sdp_HasDTLS parsed then
    dtls_params parsed
      (if b DTLSPassive then bs "passive"
       else if b DTLSActive then bs "active"
       else if b DTLSReverse then
         if bool_decide (sdp_Setup parsed = bs "active") then bs "passive"
         else if bool_decide (sdp_Setup parsed = bs "passive") then bs "active"
         else sdp_Setup parsed
       else sdp_Setup parsed)
  else if b SDESOnly then
    if sdp_HasSRTP parsed then sdes_params parsed else (None, TransportRTP)
  else if sdp_HasSRTP parsed && negb (b SDESOff) then sdes_params parsed
  else (None, TransportRTP).

Definition lower_text (s : bytes) : string := ToLower (str s).
Definition offer_codecInList (name : bytes) (l : list bytes) : bool :=
  existsb (fun item => bool_decide (lower_text item = lower_text name)) l.

Definition leg_codec (c : CodecInfo) : SessionRegistry.CodecInfo :=
  mkCodecInfo (PayloadType c) (str (Name c)) (ClockRate c) (Channels c) (str (Fmtp c)).
Definition kept (flags : ParsedFlags) (c : CodecInfo) : bool :=
  negb (pf_bool flags StripAllCodecs) && negb (offer_codecInList (Name c) (pf_list flags StripCodecs)).
Definition offer_processCodecs (codecs : list CodecInfo) (flags : ParsedFlags) : list SessionRegistry.CodecInfo :=
  map leg_codec (filter (fun c => kept flags c = true) codecs).

Definition host_candidate (component priority : Z) (ip : bytes) (port : Z) : ICECandidate :=
  mkICECandidate (bs "1") component (bs "UDP") priority ip port (bs "host") [] 0.

(** [candidates] and [setup] are where the two sides of a call differ. *)
Definition stream_info (candidates : list ICECandidate) (setup : bytes) (leg : CallLeg) (localIP : bytes) (rtpPort rtcpPort : Z)
    (flags : ParsedFlags) (parsed : ParsedSDP) : list StreamInfo :=
  let ice := negb (pf_bool flags ICERemove) && (pf_bool flags ICEForce || sdp_HasICE parsed) in
  let dtls := match leg_SRTPParams leg with Some s => srtp_DTLS s | None => false end in
  let when {A : Type} (c : bool) (l : list A) : list A := if c then l else [] in
  [mkStreamInfo localIP rtpPort rtcpPort (bs "audio") (bs (leg_Transport leg)) 0 [] (when ice candidates)
     (when ice generateICECredentials.1) (when ice generateICECredentials.2) [] []
     (when dtls fingerprint) (when dtls (bs "sha-256")) (when dtls setup)].
Definition offer_buildStreamInfo (leg : CallLeg) (localIP : bytes) (rtpPort rtcpPort : Z) (flags : ParsedFlags) (parsed : ParsedSDP) : list StreamInfo :=
  stream_info ([host_candidate 1 2130706431 localIP rtpPort] ++
               (if negb (pf_bool flags RTCPMUX) && negb (sdp_RTCPMux parsed) then [host_candidate 2 2130706430 localIP rtcpPort] else []))
    (bs "actpass") leg localIP rtpPort rtcpPort flags parsed.

Definition offer_determineProtocol (parsed : ParsedSDP) (flags : ParsedFlags) : bytes :=
  let b := pf_bool flags in
  if b UDPTLS then bs "UDP/TLS/RTP/SAVPF"
  else if b RTPSAVPF then bs "RTP/SAVPF"
  else if b RTPSAVP then bs "RTP/SAVP"
  else if b RTPAVPF then bs "RTP/AVPF"
  else if b RTPAVP then bs "RTP/AVP"
  else if negb (b DTLSOff) && sdp_HasDTLS parsed then bs "UDP/TLS/RTP/SAVPF"
  else if negb (b SDESOff) && sdp_HasSRTP parsed then
    if sdp_HasAVPF parsed then bs "RTP/SAVPF" else bs "RTP/SAVP"
  else if sdp_HasAVPF parsed then bs "RTP/AVPF" else bs "RTP/AVP".

Definition offer_filterCodecsForSDP (codecs : list CodecInfo) (flags : ParsedFlags) : list CodecInfo :=
  if pf_bool flags StripAllCodecs then []
  else filter (fun c => offer_codecInList (Name c) (pf_list flags StripCodecs) = false) codecs.

Definition offer_buildDirection (flags : ParsedFlags) (parsed : ParsedSDP) : bytes :=
  if pf_bool flags Inactive then bs "inactive"
  else if pf_bool flags SendOnly then bs "sendonly"
  else if pf_bool flags RecvOnly then bs "recvonly"
  else if pf_bool flags OriginalSendrecv && negb (bool_decide (sdp_Direction parsed = [])) then sdp_Direction parsed
  else bs "sendrecv".

Definition should_mux (flags : ParsedFlags) (parsed : ParsedSDP) : bool :=
  let b := pf_bool flags in
  (b RTCPMUX || b RTCPMUXRequire || b RTCPMUXOffer || (b RTCPMUXAccept && sdp_RTCPMux parsed) || sdp_RTCPMux parsed) &&
  negb (b RTCPMUXDemux).
Definition offer_writeRTCPAttributes (localPort : Z) (flags : ParsedFlags) (parsed : ParsedSDP) : list bytes :=
  (if should_mux flags parsed then [bs "a=rtcp-mux"]
   else if pf_bool flags NoRTCPAttribute then [] else [bs "a=rtcp:" ++ FormatInt (localPort + 1)]) ++
  (if pf_bool flags FullRTCPAttribute then [bs "a=rtcp:" ++ FormatInt (localPort + 1) ++ bs " IN IP4 0.0.0.0"] else []).

Definition offer_writeICEAttributes (localIP : bytes) (localPort : Z) (flags : ParsedFlags) : list bytes :=
  [bs "a=ice-ufrag:" ++ generateICECredentials.1; bs "a=ice-pwd:" ++ generateICECredentials.2] ++
  (if pf_bool flags ICELite then [bs "a=ice-lite"] else []) ++
  [bs "a=candidate:1 1 UDP 2130706431 " ++ localIP ++ bs " " ++ FormatInt localPort ++ bs " typ host"].

(** The lines of DTLS, with the role of this side, or those of SDES. *)
Definition security_lines (setup : bytes) (parsed : ParsedSDP) (flags : ParsedFlags) : list bytes :=
  let b := pf_bool flags in
  if negb (b DTLSOff) && sdp_HasDTLS parsed then [bs "a=fingerprint:" ++ fingerprint; bs "a=setup:" ++ setup]
  else if negb (b SDESOff) && sdp_HasSRTP parsed && negb (sdp_HasDTLS parsed) then
    [bs "a=crypto:1 " ++ (if bool_decide (sdp_CryptoSuite parsed = []) then bs "AES_CM_128_HMAC_SHA1_80" else sdp_CryptoSuite parsed) ++
     bs " inline:" ++ replicate 44 "X"%char]
  else [].
Definition offer_setup (flags : ParsedFlags) : bytes :=
  if pf_bool flags DTLSPassive then bs "passive" else if pf_bool flags DTLSActive then bs "active" else bs "actpass".
Definition offer_writeSecurityAttributes (parsed : ParsedSDP) (flags : ParsedFlags) : list bytes :=
  security_lines (offer_setup flags) parsed flags.

Definition origin_username (parsed : ParsedSDP) (flags : ParsedFlags) : bytes :=
  if pf_bool flags ReplaceOrigin || pf_bool flags ReplaceUsername || bool_decide (sdp_OriginUsername parsed = []) then bs "karl"
  else sdp_OriginUsername parsed.
Definition address_family (flags : ParsedFlags) : bytes :=
  if bool_decide (pf_str flags AddressFamily = bs "inet6") then bs "IP6" else bs "IP4".
Definition session_name (parsed : ParsedSDP) (flags : ParsedFlags) : bytes :=
  if pf_bool flags ReplaceSessionName || bool_decide (sdp_SessionName parsed = []) then bs "Karl Media Server" else sdp_SessionName parsed.
Definition ptime_lines (parsed : ParsedSDP) (flags : ParsedFlags) : list bytes :=
  if pf_int flags Ptime >? 0 then [bs "a=ptime:" ++ FormatInt (pf_int flags Ptime)]
  else if sdp_Ptime parsed >? 0 then [bs "a=ptime:" ++ FormatInt (sdp_Ptime parsed)]
  else [].

(** The lines of the description up to the ICE attributes. *)
Definition media_lines (parsed : ParsedSDP) (localIP : bytes) (localPort : Z) (flags : ParsedFlags) : list bytes :=
  let codecs := offer_filterCodecsForSDP (sdp_Codecs parsed) flags in
  [bs "v=0";
   bs "o=" ++ origin_username parsed flags ++ bs " " ++ FormatInt (sdp_SessionID parsed) ++ bs " " ++
     FormatInt (i64 (sdp_SessionVersion parsed + 1)) ++ bs " IN " ++ address_family flags ++ bs " " ++ localIP;
   bs "s=" ++ session_name parsed flags;
   bs "c=IN " ++ address_family flags ++ bs " " ++ localIP;
   bs "t=0 0";
   bs "m=audio " ++ FormatInt (if pf_bool flags Inactive then 0 else localPort) ++ bs " " ++ offer_determineProtocol parsed flags ++
     bs " " ++ Join (bs " ") (map (fun c => FormatInt (PayloadType c)) codecs)] ++
  concat (map codec_lines codecs) ++
  ptime_lines parsed flags ++
  [bs "a=" ++ offer_buildDirection flags parsed] ++
  offer_writeRTCPAttributes localPort flags parsed ++
  (if negb (pf_bool flags ICERemove) && (pf_bool flags ICEForce || sdp_HasICE parsed)
   then offer_writeICEAttributes localIP localPort flags else []).

Definition offer_buildModifiedSDP (parsed : ParsedSDP) (localIP : bytes) (localPort : Z) (flags : ParsedFlags) : bytes :=
  concat (map crlf (media_lines parsed localIP localPort flags ++ offer_writeSecurityAttributes parsed flags ++
    (if pf_bool flags GenerateMID && negb (bool_decide (sdp_MID parsed = [])) then [bs "a=mid:" ++ sdp_MID parsed] else []))).

(** A leg of the call: [tag] and [label], the local and the remote address. *)
Definition make_leg (tag label localIP : bytes) (rtpPort rtcpPort : Z) (rtpConn rtcpConn : nat) (ip : string) (port remoteRTCP : Z)
    (ice : option ICECredentials) (security : option SRTPParameters * string) (codecs : list SessionRegistry.CodecInfo)
    (direction : bytes) (flags : ParsedFlags) : CallLeg :=
  let b := pf_bool flags in
  mkCallLeg (str tag) (str label) ip port remoteRTCP MediaAudio codecs 0 security.2 ice security.1
    (ip_text localIP) rtpPort rtcpPort (Some rtpConn) (Some rtcpConn) 0 0 0 0 0 0 (of_int 0)
    (str (pf_str flags Interface)) (str (pf_str flags AddressFamily)) (str direction)
    (b Symmetric) (b StrictSource) (b MediaHandover) (b PortLatching && negb (b NoPortLatching))
    (b BlockMedia) (b BlockDTMF) (b SilenceMedia) (b T38Support) (b T38Gateway).

(** Where the description says media should be sent, if it says so: the zero
    values of the leg otherwise. *)
Definition remote_address (parsed : ParsedSDP) : option (string * Z) :=
  if negb (bool_decide (sdp_ConnectionIP parsed = [])) && (sdp_MediaPort parsed >? 0)
  then Some (ip_text (sdp_ConnectionIP parsed), sdp_MediaPort parsed) else None.

Definition offer_leg (req : NGRequest) (label localIP : bytes) (ports : Z * Z * nat * nat) (parsed : ParsedSDP) (flags : ParsedFlags) : CallLeg :=
  let '(rtpPort, rtcpPort, rtpConn, rtcpConn) := ports in
  let '(ip, port, rtcp) := match remote_address parsed with
                           | Some (ip, port) => (ip, port, i64 (port + 1))
                           | None => ("<nil>"%string, 0, 0)
                           end in
  make_leg (req_FromTag req) label localIP rtpPort rtcpPort rtpConn rtcpConn ip port rtcp
    (offer_handleICE parsed flags) (offer_handleSRTPDTLS parsed flags) (offer_processCodecs (sdp_Codecs parsed) flags)
    (offer_determineDirection flags parsed) flags.

Definition leg_label (otherwise : bytes) (flags : ParsedFlags) : bytes :=
  if negb (bool_decide (pf_str flags Label = [])) then pf_str flags Label
  else if negb (bool_decide (pf_str flags SetLabel = [])) then pf_str flags SetLabel
  else otherwise.

Definition session_error (which : string) (id : string) : bytes :=
  bs "failed to set " ++ bs which ++ bs " leg: session not found: " ++ bs id.

(** [store] is the registry's SetCallerLeg or SetCalleeLeg. *)
Definition store_leg (store : Z -> string -> option loc -> SessionRegistry -> outcome sr_error unit * SessionRegistry) (which : string)
    (e : request_env) (p : loc) (label : bytes) (leg : CallLeg) (w : world) : outcome bytes unit * world :=
  let '(q, sr) := NewLeg leg (w_registry w) in
  let '(r, sr) := store (e_now e) (session_id sr p) (Some q) sr in
  match r with
  | Ok _ => (Ok tt, w <| w_registry := if bool_decide (label = []) then sr else SetLegByLabel p (str label) q sr |>)
  | Err _ => (Err (session_error which (session_id sr p)), w <| w_registry := sr |>)
  | Panic => (Panic, w <| w_registry := sr |>)
  | OutOfFuel => (OutOfFuel, w <| w_registry := sr |>)
  end.

Definition processOfferSDP (cfg : Config) (e : request_env) (p : loc) (req : NGRequest) (flags : ParsedFlags) (w : world)
    : outcome bytes (bytes * list StreamInfo) * world :=
  match Parse (req_SDP req) with
  | Ok parsed =>
      let localIP := offer_selectMediaIP cfg flags req in
      let '(r, w) := allocate cfg e localIP w in
      match r with
      | Ok (rtpPort, rtcpPort, rtpConn, rtcpConn) =>
          let label := leg_label (req_FromTag req) flags in
          let leg := offer_leg req label localIP (rtpPort, rtcpPort, rtpConn, rtcpConn) parsed flags in
          let '(r, w) := store_leg SetCallerLeg "caller" e p label leg w in
          (let! _ := r in Ok (offer_buildModifiedSDP parsed localIP rtpPort flags,
                              offer_buildStreamInfo leg localIP rtpPort rtcpPort flags parsed), w)
      | Err err => (Err err, w)
      | Panic => (Panic, w)
      | OutOfFuel => (OutOfFuel, w)
      end
  | Err err => (Err (bs "failed to parse SDP: " ++ err), w)
  | Panic => (Panic, w)
  | OutOfFuel => (OutOfFuel, w)
  end.

(** What an offer stores in its session once its description was processed. *)
Definition offer_store (p : loc) (req : NGRequest) (flags : ParsedFlags) (sr : SessionRegistry) : SessionRegistry :=
  let b := pf_bool flags in
  let set_if (s : bytes) (key : string) sr := if bool_decide (s = []) then sr else SetMetadata p key (str s) sr in
  let sr :=
    if b RecordCall || b StartRecording then
      set_if (pf_str flags RecordingPath) "recording-path"
        (set_if (pf_str flags RecordingFile) "recording-file"
           (SetMetadata p "record-start" "pending" (SetFlag p "record" true sr)))
    else sr in
  let sr := if b WebRTCEnabled then SetFlag p "webrtc" true sr else sr in
  let sr := if b SIPREC then
              foldl (fun sr kv => SetMetadata p ("siprec-" ++ str kv.1)%string (str kv.2) sr) sr (default [] (RecordingMetadata flags))
            else sr in
  let viaBranch := if bool_decide (pf_str flags ViaBranch = []) then req_ViaBranch req else pf_str flags ViaBranch in
  if bool_decide (viaBranch = []) then sr else modify p (fun s => s <| SessionRegistry.ViaBranch := str viaBranch |>) sr.

Definition invalid_sdp (err : bytes) : NGResponse := error_response (ErrReasonInvalidSDP ++ bs ": " ++ err).

(** The error of a handler is always nil. *)
Definition offer_Handle (cfg : Config) (e : request_env) (req : NGRequest) (w : world) : outcome bytes NGResponse * world :=
  if bool_decide (req_CallID req = []) then (Ok (missing ": call-id"), w)
  else if bool_decide (req_FromTag req = []) then (Ok (missing ": from-tag"), w)
  else if bool_decide (req_SDP req = []) then (Ok (missing ": sdp"), w)
  else
    let flags := ParseFlags (req_Flags req) in
    let sr := w_registry w in
    let '(p, sr) :=
      match GetSessionByTags (str (req_CallID req)) (str (req_FromTag req)) (str (req_ToTag req)) sr with
      | Some p => (p, sr)
      | None => CreateSession (e_uuid e) (e_now e) (str (req_CallID req)) (str (req_FromTag req)) sr
      end in
    let sr := offer_applySessionFlags p flags sr in
    let sr := (UpdateSessionState (e_now e) (session_id sr p) SessionStatePending sr).2 in
    let '(r, w) := processOfferSDP cfg e p req flags (w <| w_registry := sr |>) in
    match r with
    | Ok (modifiedSDP, streams) =>
        (Ok (mkNGResponse ResultOK [] modifiedSDP (req_CallID req) (req_FromTag req) [] streams None 0 0 [] [] []),
         w <| w_registry ::= offer_store p req flags |>)
    | Err err => (Ok (invalid_sdp err), w)
    | Panic => (Panic, w)
    | OutOfFuel => (OutOfFuel, w)
    end.

(** ** answer.go *)

Definition answer_findSession (req : NGRequest) (flags : ParsedFlags) (sr : SessionRegistry) : option loc :=
  let of_call := GetSessionByCallID (str (req_CallID req)) sr in
  let toLabel := pf_str flags ToLabel in
  let labelled := if bool_decide (toLabel = []) then None
                  else head (filter (fun p => is_Some (GetLegByLabel p (str toLabel) sr)) of_call) in
  match labelled with
  | Some p => Some p
  | None =>
      match GetSessionByTags (str (req_CallID req)) (str (req_FromTag req)) (str (req_ToTag req)) sr with
      | Some p => Some p
      | None => head (filter (fun p => (FromTag <$> deref sr p) = Some (str (req_FromTag req))) of_call)
      end
  end.

Definition answer_applySessionFlags (p : loc) (flags : ParsedFlags) (sr : SessionRegistry) : SessionRegistry :=
  let b := pf_bool flags in
  ApplySessionFlags p (pf_int flags TOS) (pf_int flags MediaTimeout) (pf_int flags DeleteDelay)
    (b SIPREC) (b T38Support) (b T38Gateway) (b ICELite) (b TrickleICE) (b ICEForce) (b ICERemove)
    (b DTLSOff) (b DTLSPassive) (b DTLSActive) (b SDESOff) (b SDESOnly) (b LoopProtect) (b AlwaysTranscode) sr.

Definition answer_selectMediaIP : Config -> ParsedFlags -> NGRequest -> bytes := select_media_ip ToInterface.
Definition answer_determineDirection : ParsedFlags -> ParsedSDP -> bytes := offer_determineDirection.
Definition answer_handleICE : ParsedSDP -> ParsedFlags -> option ICECredentials := offer_handleICE.

Definition answer_handleSRTPDTLS (parsed : ParsedSDP) (flags : ParsedFlags) : option SRTPParameters * string :=
  let b := pf_bool flags in
  if b DTLSOff then
    if negb (b SDESOff) && sdp_HasSRTP parsed then sdes_params parsed else (None, TransportRTP)
  else if sdp_HasDTLS parsed then
    dtls_params parsed
      (if b DTLSPassive then bs "passive"
       else if b DTLSActive then bs "active"
       else if bool_decide (sdp_Setup parsed = bs "actpass") then bs "active"
       else sdp_Setup parsed)
  else if negb (b SDESOff) && sdp_HasSRTP parsed then sdes_params parsed
  else (None, TransportRTP).

Definition answer_codecInList : bytes -> list bytes -> bool := offer_codecInList.
Definition answer_kept (flags : ParsedFlags) (c : CodecInfo) : bool :=
  negb (pf_bool flags StripAllCodecs) && negb (answer_codecInList (Name c) (pf_list flags StripCodecs)).
Definition answer_processCodecs (codecs : list CodecInfo) (flags : ParsedFlags) : list SessionRegistry.CodecInfo :=
  map leg_codec (filter (fun c => answer_kept flags c = true) codecs).
Definition answer_buildStreamInfo (leg : CallLeg) (localIP : bytes) (rtpPort rtcpPort : Z) (flags : ParsedFlags) (parsed : ParsedSDP) : list StreamInfo :=
  stream_info [host_candidate 1 2130706431 localIP rtpPort] (bs "active") leg localIP rtpPort rtcpPort flags parsed.
Definition answer_determineProtocol : ParsedSDP -> ParsedFlags -> bytes := offer_determineProtocol.
Definition answer_filterCodecsForSDP (codecs : list CodecInfo) (flags : ParsedFlags) : list CodecInfo :=
  if pf_bool flags StripAllCodecs then []
  else filter (fun c => answer_codecInList (Name c) (pf_list flags StripCodecs) = false) codecs.
Definition answer_buildDirection : ParsedFlags -> ParsedSDP -> bytes := offer_buildDirection.
Definition answer_writeRTCPAttributes : Z -> ParsedFlags -> ParsedSDP -> list bytes := offer_writeRTCPAttributes.
Definition answer_writeICEAttributes : bytes -> Z -> ParsedFlags -> list bytes := offer_writeICEAttributes.

Definition answer_setup (parsed : ParsedSDP) (flags : ParsedFlags) : bytes :=
  if pf_bool flags DTLSPassive then bs "passive"
  else if pf_bool flags DTLSActive then bs "active"
  else if bool_decide (sdp_Setup parsed = bs "active") then bs "passive"
  else bs "active".
Definition answer_writeSecurityAttributes (parsed : ParsedSDP) (flags : ParsedFlags) : list bytes :=
  security_lines (answer_setup parsed flags) parsed flags.

Definition answer_media_lines (parsed : ParsedSDP) (localIP : bytes) (localPort : Z) (flags : ParsedFlags) : list bytes :=
  let codecs := answer_filterCodecsForSDP (sdp_Codecs parsed) flags in
  [bs "v=0";
   bs "o=" ++ origin_username parsed flags ++ bs " " ++ FormatInt (sdp_SessionID parsed) ++ bs " " ++
     FormatInt (i64 (sdp_SessionVersion parsed + 1)) ++ bs " IN " ++ address_family flags ++ bs " " ++ localIP;
   bs "s=" ++ session_name parsed flags;
   bs "c=IN " ++ address_family flags ++ bs " " ++ localIP;
   bs "t=0 0";
   bs "m=audio " ++ FormatInt (if pf_bool flags Inactive then 0 else localPort) ++ bs " " ++ answer_determineProtocol parsed flags ++
     bs " " ++ Join (bs " ") (map (fun c => FormatInt (PayloadType c)) codecs)] ++
  concat (map codec_lines codecs) ++
  ptime_lines parsed flags ++
  [bs "a=" ++ answer_buildDirection flags parsed] ++
  answer_writeRTCPAttributes localPort flags parsed ++
  (if negb (pf_bool flags ICERemove) && (pf_bool flags ICEForce || sdp_HasICE parsed)
   then answer_writeICEAttributes localIP localPort flags else []).

Definition answer_buildModifiedSDP (parsed : ParsedSDP) (localIP : bytes) (localPort : Z) (flags : ParsedFlags) : bytes :=
  concat (map crlf (answer_media_lines parsed localIP localPort flags ++ answer_writeSecurityAttributes parsed flags ++
    (if bool_decide (sdp_MID parsed = []) then [] else [bs "a=mid:" ++ sdp_MID parsed]))).

Definition answer_leg (req : NGRequest) (label localIP : bytes) (ports : Z * Z * nat * nat) (parsed : ParsedSDP) (flags : ParsedFlags) : CallLeg :=
  let '(rtpPort, rtcpPort, rtpConn, rtcpConn) := ports in
  let '(ip, port, rtcp) := match remote_address parsed with
                           | Some (ip, port) => (ip, port, if sdp_RTCPPort parsed >? 0 then sdp_RTCPPort parsed else i64 (port + 1))
                           | None => ("<nil>"%string, 0, 0)
                           end in
  make_leg (req_ToTag req) label localIP rtpPort rtcpPort rtpConn rtcpConn ip port rtcp
    (answer_handleICE parsed flags) (answer_handleSRTPDTLS parsed flags) (answer_processCodecs (sdp_Codecs parsed) flags)
    (answer_determineDirection flags parsed) flags.

Definition processAnswerSDP (cfg : Config) (e : request_env) (p : loc) (req : NGRequest) (flags : ParsedFlags) (w : world)
    : outcome bytes (bytes * list StreamInfo) * world :=
  match Parse (req_SDP req) with
  | Ok parsed =>
      let localIP := answer_selectMediaIP cfg flags req in
      let '(r, w) := allocate cfg e localIP w in
      match r with
      | Ok (rtpPort, rtcpPort, rtpConn, rtcpConn) =>
          let label := leg_label (req_ToTag req) flags in
          let leg := answer_leg req label localIP (rtpPort, rtcpPort, rtpConn, rtcpConn) parsed flags in
          let '(r, w) := store_leg SetCalleeLeg "callee" e p label leg w in
          (let! _ := r in Ok (answer_buildModifiedSDP parsed localIP rtpPort flags,
                              answer_buildStreamInfo leg localIP rtpPort rtcpPort flags parsed), w)
      | Err err => (Err err, w)
      | Panic => (Panic, w)
      | OutOfFuel => (OutOfFuel, w)
      end
  | Err err => (Err (bs "failed to parse SDP: " ++ err), w)
  | Panic => (Panic, w)
  | OutOfFuel => (OutOfFuel, w)
  end.

(** What an answer stores in its session once its description was processed. *)
Definition answer_store (now : Z) (p : loc) (req : NGRequest) (flags : ParsedFlags) (sr : SessionRegistry) : SessionRegistry :=
  let sr := (UpdateSessionState now (session_id sr p) SessionStateActive sr).2 in
  let sr := if bool_decide (req_ToTag req = []) then sr else modify p (fun s => s <| ToTag := str (req_ToTag req) |>) sr in
  if GetFlag p "record" sr || pf_bool flags RecordCall || pf_bool flags StartRecording then SetFlag p "record" true sr else sr.

Definition answer_Handle (cfg : Config) (e : request_env) (req : NGRequest) (w : world) : outcome bytes NGResponse * world :=
  if bool_decide (req_CallID req = []) then (Ok (missing ": call-id"), w)
  else if bool_decide (req_FromTag req = []) then (Ok (missing ": from-tag"), w)
  else if bool_decide (req_SDP req = []) then (Ok (missing ": sdp"), w)
  else
    let flags := ParseFlags (req_Flags req) in
    match answer_findSession req flags (w_registry w) with
    | None => (Ok not_found, w)
    | Some p =>
        let '(r, w) := processAnswerSDP cfg e p req flags (w <| w_registry ::= answer_applySessionFlags p flags |>) in
        match r with
        | Ok (modifiedSDP, streams) =>
            (Ok (mkNGResponse ResultOK [] modifiedSDP (req_CallID req) (req_FromTag req) (req_ToTag req) streams None 0 0 [] [] []),
             w <| w_registry ::= answer_store (e_now e) p req flags |>)
        | Err err => (Ok (invalid_sdp err), w)
        | Panic => (Panic, w)
        | OutOfFuel => (OutOfFuel, w)
        end
    end.

(** ** Specification: what the peer reads *)

Definition ptime_of (parsed : ParsedSDP) (flags : ParsedFlags) : Z :=
  if pf_int flags Ptime >? 0 then pf_int flags Ptime else if sdp_Ptime parsed >? 0 then sdp_Ptime parsed else 0.

(** The description a peer has after reading Karl's: [setup] and [mid] are those
    of the command. *)
Definition described (setup mid : bytes) (parsed : ParsedSDP) (localIP : bytes) (localPort : Z) (flags : ParsedFlags) : ParsedSDP :=
  let b := pf_bool flags in
  let ice := negb (b ICERemove) && (b ICEForce || sdp_HasICE parsed) in
  let dtls := negb (b DTLSOff) && sdp_HasDTLS parsed in
  let srtp := negb dtls && negb (b SDESOff) && sdp_HasSRTP parsed && negb (sdp_HasDTLS parsed) in
  let when (c : bool) (s : bytes) : bytes := if c then s else [] in
  {| sdp_SessionID := sdp_SessionID parsed; sdp_SessionVersion := i64 (sdp_SessionVersion parsed + 1);
     sdp_SessionName := session_name parsed flags; sdp_ConnectionIP := localIP; sdp_OriginUsername := origin_username parsed flags;
     sdp_MediaType := bs "audio"; sdp_MediaPort := if b Inactive then 0 else localPort;
     sdp_Protocol := offer_determineProtocol parsed flags;
     sdp_Codecs := offer_filterCodecsForSDP (sdp_Codecs parsed) flags;
     sdp_Ptime := ptime_of parsed flags; sdp_HasAVPF := Contains (offer_determineProtocol parsed flags) (bs "AVPF");
     sdp_HasICE := ice; sdp_ICEUfrag := when ice generateICECredentials.1; sdp_ICEPwd := when ice generateICECredentials.2;
     sdp_ICELite := ice && b ICELite;
     sdp_HasDTLS := dtls; sdp_Fingerprint := when dtls fingerprint; sdp_Setup := when dtls setup;
     sdp_HasSRTP := srtp;
     sdp_CryptoSuite := when srtp (if bool_decide (sdp_CryptoSuite parsed = []) then bs "AES_CM_128_HMAC_SHA1_80" else sdp_CryptoSuite parsed);
     sdp_CryptoKey := when srtp (replicate 44 "X"%char);
     sdp_Direction := offer_buildDirection flags parsed; sdp_RTCPMux := should_mux flags parsed;
     sdp_RTCPPort := if negb (should_mux flags parsed) && negb (b NoRTCPAttribute) || b FullRTCPAttribute then localPort + 1 else 0;
     sdp_SSRC := 0; sdp_MID := mid |}.

(** A description as the parser gives them, whose texts are clean. *)
Definition wf_parsed (parsed : ParsedSDP) (flags : ParsedFlags) : Prop :=
  is_s 64 (sdp_SessionID parsed) /\ is_s 64 (sdp_Ptime parsed) /\ is_s 64 (pf_int flags Ptime) /\
  (sdp_OriginUsername parsed = [] \/ word (sdp_OriginUsername parsed)) /\
  (sdp_SessionName parsed = [] \/ text (sdp_SessionName parsed)) /\
  sdp_Direction parsed ∈ map bs ["sendrecv"; "sendonly"; "recvonly"; "inactive"]%string /\
  (sdp_CryptoSuite parsed = [] \/ word (sdp_CryptoSuite parsed)) /\
  (sdp_MID parsed = [] \/ text (sdp_MID parsed)) /\
  Forall wf_codec (sdp_Codecs parsed) /\ NoDup (map PayloadType (sdp_Codecs parsed)).

(** ** Lemmas: reading the description back *)

Lemma Join_types cs : cs <> [] -> bs " " ++ Join (bs " ") (map (fun c => FormatInt (PayloadType c)) cs) = type_list cs.
Proof.
  unfold type_list. induction cs as [|c cs IH]; [done|]. intros _. destruct cs as [|d cs]; [cbn [map Join concat]; by rewrite app_nil_r|].
  change (Join (bs " ") (map (fun c => FormatInt (PayloadType c)) (c :: d :: cs))) with
    (FormatInt (PayloadType c) ++ bs " " ++ Join (bs " ") (map (fun c => FormatInt (PayloadType c)) (d :: cs))).
  rewrite IH by done. reflexivity.
Qed.

Lemma filtered_codecs parsed flags : wf_parsed parsed flags ->
  let cs := offer_filterCodecsForSDP (sdp_Codecs parsed) flags in Forall wf_codec cs /\ NoDup (map PayloadType cs).
Proof.
  intros (_ & _ & _ & _ & _ & _ & _ & _ & Hwf & Hnd). cbv zeta. unfold offer_filterCodecsForSDP.
  destruct (pf_bool flags StripAllCodecs); [split; constructor|]. induction (sdp_Codecs parsed) as [|c cs IH]; [split; constructor|].
  apply Forall_cons in Hwf as [Hc Hwf]. apply NoDup_cons in Hnd as [Hn Hnd]. destruct (IH Hwf Hnd) as [H1 H2].
  rewrite filter_cons. case_decide; [|done]. split; [by constructor|]. cbn [map]. apply NoDup_cons. split; [|done].
  intros Hin. apply Hn. apply list_elem_of_fmap in Hin as (d & -> & Hd). apply list_elem_of_filter in Hd as [_ Hd]. by apply list_elem_of_fmap_2.
Qed.

Lemma protocol_word parsed flags : word (offer_determineProtocol parsed flags).
Proof. unfold offer_determineProtocol. repeat case_match; by apply word_bs. Qed.
Lemma username_word parsed flags : wf_parsed parsed flags -> word (origin_username parsed flags).
Proof.
  intros (_ & _ & _ & Hu & _). unfold origin_username. case_match eqn:E; [by apply word_bs|].
  apply orb_false_iff in E as [_ E]. bool_prop. by destruct Hu.
Qed.
Lemma family_word flags : word (address_family flags).
Proof. unfold address_family. case_match; by apply word_bs. Qed.
Lemma name_text parsed flags : wf_parsed parsed flags -> text (session_name parsed flags).
Proof.
  intros (_ & _ & _ & _ & Hn & _). unfold session_name. case_match eqn:E; [by apply text_bs|].
  apply orb_false_iff in E as [_ E]. bool_prop. by destruct Hn.
Qed.
Lemma direction_known parsed flags : wf_parsed parsed flags ->
  offer_buildDirection flags parsed ∈ map bs ["sendrecv"; "sendonly"; "recvonly"; "inactive"]%string.
Proof.
  intros (_ & _ & _ & _ & _ & Hd & _). unfold offer_buildDirection. repeat case_match; try done; apply (bool_decide_unpack _); vm_compute; exact I.
Qed.

Lemma parse_ptime_line {E : Type} n p pts : is_s 64 n ->
  parse_line (E := E) (p, pts) (bs "a=ptime:" ++ FormatInt n) = Ok (p <| sdp_Ptime := n |>, pts).
Proof.
  intros Hn. change (bs "a=ptime:" ++ ?v) with (bs "a=" ++ bs "ptime" ++ ":"%char :: v). rewrite parse_attr_line by (done || auto with sdp_text).
  change (parse_attribute (bs "ptime") ?v p) with (@Ok E _ (p <| sdp_Ptime := (Atoi v).1 |>)). by rewrite Atoi_FormatInt.
Qed.

Lemma parse_ptime {E : Type} parsed flags p pts : wf_parsed parsed flags -> sdp_Ptime p = 0 ->
  parse_lines (E := E) (p, pts) (ptime_lines parsed flags) = Ok (p <| sdp_Ptime := ptime_of parsed flags |>, pts).
Proof.
  intros (_ & H1 & H2 & _) Hp. unfold ptime_lines, ptime_of.
  destruct (pf_int flags Ptime >? 0); [|destruct (sdp_Ptime parsed >? 0)]; cbn [parse_lines]; [by rewrite parse_ptime_line..|].
  do 2 f_equal. destruct p; cbn in Hp; by subst.
Qed.

Lemma parse_rtcp_line {E : Type} n t p pts : is_s 64 n -> (t = [] \/ text t) ->
  parse_line (E := E) (p, pts) (bs "a=rtcp:" ++ FormatInt n ++ (if bool_decide (t = []) then [] else bs " " ++ t)) = Ok (p <| sdp_RTCPPort := n |>, pts).
Proof.
  intros Hn Ht. set (v := FormatInt n ++ _).
  assert (clean v /\ ends v /\ exists l, splitFields v = FormatInt n :: l) as (Hv & He & l & Hl).
  { unfold v. case_bool_decide as Hb.
    - rewrite app_nil_r. split_and!; [auto with sdp_text..|]. exists []. by apply splitFields_last, word_token, word_FormatInt.
    - destruct Ht as [?|(Hc & _ & He)]; [done|]. split_and!; [auto with sdp_text..|]. eexists. by apply splitFields_token, word_token, word_FormatInt. }
  change (bs "a=rtcp:" ++ v) with (bs "a=" ++ bs "rtcp" ++ ":"%char :: v). rewrite parse_attr_line by done.
  change (parse_attribute (bs "rtcp") v p) with (@parse_rtcp E v p). unfold parse_rtcp. rewrite Fields_clean by done. rewrite Hl.
  by rewrite Atoi_FormatInt.
Qed.

Lemma parse_rtcp_lines {E : Type} parsed flags port p pts : is_s 64 (port + 1) -> sdp_RTCPMux p = false -> sdp_RTCPPort p = 0 ->
  parse_lines (E := E) (p, pts) (offer_writeRTCPAttributes port flags parsed) =
  Ok (p <| sdp_RTCPMux := should_mux flags parsed |>
        <| sdp_RTCPPort := if negb (should_mux flags parsed) && negb (pf_bool flags NoRTCPAttribute) || pf_bool flags FullRTCPAttribute then port + 1 else 0 |>, pts).
Proof.
  intros Hp Hm Hr. unfold offer_writeRTCPAttributes.
  assert (forall q : ParsedSDP, parse_line (E := E) (q, pts) (bs "a=rtcp:" ++ FormatInt (port + 1)) = Ok (q <| sdp_RTCPPort := port + 1 |>, pts)) as H1.
  { intros q. rewrite <- (app_nil_r (FormatInt (port + 1))). apply (parse_rtcp_line _ []); [done|by left]. }
  assert (forall q : ParsedSDP, parse_line (E := E) (q, pts) (bs "a=rtcp:" ++ FormatInt (port + 1) ++ bs " IN IP4 0.0.0.0") = Ok (q <| sdp_RTCPPort := port + 1 |>, pts)) as H2.
  { intros q. apply (parse_rtcp_line _ (bs "IN IP4 0.0.0.0")); [done|right; by apply text_bs]. }
  assert (forall q : ParsedSDP, parse_line (E := E) (q, pts) (bs "a=rtcp-mux") = Ok (q <| sdp_RTCPMux := true |>, pts)) as H3 by done.
  destruct (should_mux flags parsed), (pf_bool flags NoRTCPAttribute), (pf_bool flags FullRTCPAttribute); cbn [app parse_lines orb andb negb];
    rewrite ?H3, ?H1; cbn [obind]; rewrite ?H2; cbn [obind]; do 2 f_equal; destruct p; cbn in Hm, Hr; by subst.
Qed.

Lemma parse_ice_lines {E : Type} localIP port flags p pts : word localIP -> sdp_ICELite p = false ->
  parse_lines (E := E) (p, pts) (offer_writeICEAttributes localIP port flags) =
  Ok (p <| sdp_HasICE := true |> <| sdp_ICEUfrag := generateICECredentials.1 |> <| sdp_ICEPwd := generateICECredentials.2 |>
        <| sdp_ICELite := pf_bool flags ICELite |>, pts).
Proof.
  intros Hip Hl. unfold offer_writeICEAttributes. set (cand := bs "a=candidate:1 1 UDP 2130706431 " ++ _).
  assert (forall q : ParsedSDP, parse_line (E := E) (q, pts) cand = Ok (q, pts)) as Hc.
  { intros q. unfold cand. change (bs "a=candidate:1 1 UDP 2130706431 " ++ ?v) with (bs "a=" ++ bs "candidate" ++ ":"%char :: bs "1 1 UDP 2130706431 " ++ v).
    rewrite parse_attr_line; [done|done| |].
    - apply clean_append; [by apply clean_bs|]. assert (clean (bs " typ host")) by by apply clean_bs. auto 10 with sdp_text.
    - do 4 apply ends_app. by exists "t"%char. }
  assert (forall q : ParsedSDP, parse_line (E := E) (q, pts) (bs "a=ice-ufrag:" ++ generateICECredentials.1) =
    Ok (q <| sdp_HasICE := true |> <| sdp_ICEUfrag := generateICECredentials.1 |>, pts)) as H1 by done.
  assert (forall q : ParsedSDP, parse_line (E := E) (q, pts) (bs "a=ice-pwd:" ++ generateICECredentials.2) =
    Ok (q <| sdp_HasICE := true |> <| sdp_ICEPwd := generateICECredentials.2 |>, pts)) as H2 by done.
  assert (forall q : ParsedSDP, parse_line (E := E) (q, pts) (bs "a=ice-lite") = Ok (q <| sdp_ICELite := true |>, pts)) as H3 by done.
  destruct (pf_bool flags ICELite); cbn [app parse_lines]; rewrite H1; cbn [obind]; rewrite H2; cbn [obind]; rewrite ?H3; cbn [obind];
    rewrite Hc; cbn [obind]; do 2 f_equal; destruct p; cbn in Hl; by subst.
Qed.

Lemma read_crypto_line {E : Type} suite p pts : word suite ->
  parse_line (E := E) (p, pts) (bs "a=crypto:1 " ++ suite ++ bs " inline:" ++ replicate 44 "X"%char) =
  Ok (p <| sdp_HasSRTP := true |> <| sdp_CryptoSuite := suite |> <| sdp_CryptoKey := replicate 44 "X"%char |>, pts).
Proof.
  intros Hs. assert (clean (bs " inline:")) as Hi by by apply clean_bs.
  assert (text (bs "XXXXXXXXXXXXXXXXXXXXXXXXXXXXXXXXXXXXXXXXXXXX")) as (Hk & _ & He) by by apply text_bs.
  change (replicate 44 "X"%char) with (bs "XXXXXXXXXXXXXXXXXXXXXXXXXXXXXXXXXXXXXXXXXXXX").
  change (bs "a=crypto:1 " ++ ?v) with (bs "a=" ++ bs "crypto" ++ ":"%char :: bs "1 " ++ v).
  rewrite parse_attr_line; [|done|apply clean_append; [by apply clean_bs|auto with sdp_text]|do 3 apply ends_app; exact He].
  change (parse_attribute (bs "crypto") ?v p) with (@Ok E _ (parse_crypto v p)). unfold parse_crypto. by rewrite match_crypto.
Qed.

Lemma parse_security_lines {E : Type} setup parsed flags p pts :
  setup ∈ map bs ["active"; "passive"; "actpass"]%string -> wf_parsed parsed flags ->
  p = p <| sdp_HasDTLS := false |> <| sdp_Fingerprint := [] |> <| sdp_Setup := [] |> <| sdp_HasSRTP := false |> <| sdp_CryptoSuite := [] |> <| sdp_CryptoKey := [] |> ->
  let d := described setup [] parsed [] 0 flags in
  parse_lines (E := E) (p, pts) (security_lines setup parsed flags) =
  Ok (p <| sdp_HasDTLS := sdp_HasDTLS d |> <| sdp_Fingerprint := sdp_Fingerprint d |> <| sdp_Setup := sdp_Setup d |>
        <| sdp_HasSRTP := sdp_HasSRTP d |> <| sdp_CryptoSuite := sdp_CryptoSuite d |> <| sdp_CryptoKey := sdp_CryptoKey d |>, pts).
Proof.
  intros Hset (_ & _ & _ & _ & _ & _ & Hsu & _) Hp. unfold security_lines, described. cbv zeta.
  cbn [sdp_HasDTLS sdp_Fingerprint sdp_Setup sdp_HasSRTP sdp_CryptoSuite sdp_CryptoKey].
  destruct (negb (pf_bool flags DTLSOff) && sdp_HasDTLS parsed) eqn:E1; cbn [negb andb].
  - assert (forall q : ParsedSDP, parse_line (E := E) (q, pts) (bs "a=fingerprint:" ++ fingerprint) = Ok (q <| sdp_HasDTLS := true |> <| sdp_Fingerprint := fingerprint |>, pts)) as H1 by done.
    assert (forall q : ParsedSDP, parse_line (E := E) (q, pts) (bs "a=setup:" ++ setup) = Ok (q <| sdp_Setup := setup |>, pts)) as H2.
    { cbn [map] in Hset. intros q. repeat (apply elem_of_cons in Hset as [->|Hset]); [..|by apply elem_of_nil in Hset]; done. }
    cbn [parse_lines]. rewrite H1. cbn [obind]. rewrite H2. cbn [obind]. rewrite Hp. done.
  - destruct (negb (pf_bool flags SDESOff) && sdp_HasSRTP parsed && negb (sdp_HasDTLS parsed)); cbn [parse_lines]; [|by rewrite Hp at 1].
    rewrite read_crypto_line; [cbn [obind]; by rewrite Hp|]. case_bool_decide; [by apply word_bs|]. by destruct Hsu.
Qed.

Ltac clean_lines :=
  repeat match goal with |- Forall clean (_ :: _) => apply Forall_cons; split | |- Forall clean [] => exact (List.Forall_nil _) | |- clean (_ ++ _) => apply clean_append end; try (by apply clean_bs); auto with sdp_text.
Ltac lines_if := match goal with |- Forall clean (if ?b then _ else _) => destruct b; [|try exact (List.Forall_nil _)] end.

Lemma clean_codecs cs : Forall wf_codec cs -> Forall clean (concat (map codec_lines cs)).
Proof.
  induction 1 as [|c cs Hc _ IH]; cbn [map concat]; [constructor|]. apply Forall_app. split; [|done].
  eapply Forall_impl; [by apply text_codec_lines|]. by intros l [? _].
Qed.

Lemma clean_media_lines parsed localIP localPort flags : wf_parsed parsed flags -> word localIP ->
  Forall clean (media_lines parsed localIP localPort flags).
Proof.
  intros Hwf Hip. destruct (filtered_codecs parsed flags Hwf) as [Hcs _]. pose proof (username_word _ _ Hwf). pose proof (family_word flags).
  destruct (name_text _ _ Hwf) as (? & _). pose proof (protocol_word parsed flags). pose proof (direction_known _ _ Hwf) as Hd.
  assert (clean (offer_buildDirection flags parsed)).
  { cbn [map] in Hd. repeat (apply elem_of_cons in Hd as [->|Hd]); [..|by apply elem_of_nil in Hd]; by apply clean_bs. }
  unfold media_lines. cbv zeta. repeat (apply Forall_app; split).
  - clean_lines. generalize (offer_filterCodecsForSDP (sdp_Codecs parsed) flags). intros cs.
    destruct cs as [|c cs]; [constructor|]. assert (clean (type_list (c :: cs))) as Ht by apply type_list_ok.
    rewrite <- Join_types in Ht by done. by apply Forall_app in Ht as [_ ?].
  - by apply clean_codecs.
  - unfold ptime_lines. lines_if; [clean_lines|]. lines_if. clean_lines.
  - clean_lines.
  - lines_if; [clean_lines|]. lines_if; [constructor|]. clean_lines.
  - lines_if. clean_lines.
  - lines_if. unfold offer_writeICEAttributes. repeat (apply Forall_app; split); [clean_lines|lines_if; clean_lines|clean_lines].
Qed.

Lemma clean_security setup parsed flags : setup ∈ map bs ["active"; "passive"; "actpass"]%string -> wf_parsed parsed flags ->
  Forall clean (security_lines setup parsed flags).
Proof.
  intros Hset (_ & _ & _ & _ & _ & _ & Hsu & _). unfold security_lines. cbv zeta.
  assert (clean setup). { cbn [map] in Hset. repeat (apply elem_of_cons in Hset as [->|Hset]); [..|by apply elem_of_nil in Hset]; by apply clean_bs. }
  assert (clean fingerprint). { apply (clean_bs "sha-256 XX:XX:XX:XX:XX:XX:XX:XX:XX:XX:XX:XX:XX:XX:XX:XX:XX:XX:XX:XX:XX:XX:XX:XX:XX:XX:XX:XX:XX:XX:XX:XX"). reflexivity. }
  lines_if; [clean_lines|]. lines_if. clean_lines.
  - case_bool_decide; [by apply clean_bs|]. destruct Hsu; [done|]. auto with sdp_text.
  - by apply (clean_bs "XXXXXXXXXXXXXXXXXXXXXXXXXXXXXXXXXXXXXXXXXXXX").
Qed.

(** The common lines are read as [described] has them. *)
Lemma parse_media_lines {E : Type} parsed localIP localPort flags :
  wf_parsed parsed flags -> word localIP -> "/"%char ∉ localIP -> 0 <= localPort < 65535 ->
  offer_filterCodecsForSDP (sdp_Codecs parsed) flags <> [] ->
  let d := described [] [] parsed localIP localPort flags in
  parse_lines (E := E) (initial_sdp, []) (media_lines parsed localIP localPort flags) =
  Ok (d <| sdp_HasDTLS := false |> <| sdp_Fingerprint := [] |> <| sdp_Setup := [] |> <| sdp_HasSRTP := false |> <| sdp_CryptoSuite := [] |> <| sdp_CryptoKey := [] |>,
      map PayloadType (offer_filterCodecsForSDP (sdp_Codecs parsed) flags)).
Proof.
  intros Hwf Hip Hslash Hport Hne d. destruct (filtered_codecs parsed flags Hwf) as [Hcs Hnd].
  unfold media_lines. cbv zeta. rewrite parse_lines_app. cbn [parse_lines].
  rewrite parse_version_line. cbn [obind]. pose proof Hwf as (Hid & _).
  rewrite parse_origin_line; [|by apply username_word|done|apply wraps_range; lia|apply family_word|done]. cbn [obind].
  rewrite parse_name_line by by apply name_text. cbn [obind].
  rewrite parse_connection_line by (done || apply family_word). cbn [obind]. rewrite parse_time_line. cbn [obind].
  rewrite Join_types by done. change (bs "m=audio " ++ ?v) with (bs "m=" ++ bs "audio" ++ bs " " ++ v).
  rewrite parse_media_line; [|by apply word_bs|unfold is_s; case_match; lia|apply protocol_word|done|done|done]. cbn [obind].
  rewrite parse_lines_app, read_all_codecs by done. cbn [obind]. rewrite parse_lines_app, parse_ptime by done. cbn [obind].
  rewrite parse_lines_app. cbn [parse_lines]. rewrite read_direction by by apply direction_known. cbn [obind].
  rewrite parse_lines_app, parse_rtcp_lines by (done || unfold is_s; lia). cbn [obind].
  destruct (negb (pf_bool flags ICERemove) && (pf_bool flags ICEForce || sdp_HasICE parsed)) eqn:Ei.
  - rewrite parse_ice_lines by done. do 2 f_equal. unfold d, described. cbv zeta. rewrite Ei. reflexivity.
  - cbn [parse_lines]. do 2 f_equal. unfold d, described. cbv zeta. rewrite Ei. reflexivity.
Qed.

Lemma parse_mid {E : Type} mid p pts : (mid = [] \/ text mid) -> sdp_MID p = [] ->
  parse_lines (E := E) (p, pts) (if bool_decide (mid = []) then [] else [bs "a=mid:" ++ mid]) = Ok (p <| sdp_MID := mid |>, pts).
Proof.
  intros Hm Hp. case_bool_decide as Hb; cbn [parse_lines].
  - do 2 f_equal. destruct p; cbn in Hp; by subst.
  - destruct Hm as [?|(Hc & _ & He)]; [done|]. change (bs "a=mid:" ++ mid) with (bs "a=" ++ bs "mid" ++ ":"%char :: mid).
    by rewrite parse_attr_line.
Qed.

Definition sent_sdp (setup mid : bytes) (parsed : ParsedSDP) (localIP : bytes) (localPort : Z) (flags : ParsedFlags) : bytes :=
  concat (map crlf (media_lines parsed localIP localPort flags ++ security_lines setup parsed flags ++
    (if bool_decide (mid = []) then [] else [bs "a=mid:" ++ mid]))).

Lemma parse_sent {E : Type} setup mid parsed localIP localPort flags :
  setup ∈ map bs ["active"; "passive"; "actpass"]%string -> (mid = [] \/ text mid) ->
  wf_parsed parsed flags -> word localIP -> "/"%char ∉ localIP -> 0 <= localPort < 65535 ->
  offer_filterCodecsForSDP (sdp_Codecs parsed) flags <> [] ->
  Parse (E := E) (sent_sdp setup mid parsed localIP localPort flags) = Ok (described setup mid parsed localIP localPort flags).
Proof.
  intros Hset Hmid Hwf Hip Hslash Hport Hne. unfold Parse, sent_sdp. rewrite lines_back.
  2:{ apply (Forall_impl clean); [|apply clean_plain]. apply Forall_app. split; [by apply clean_media_lines|].
      apply Forall_app. split; [by apply clean_security|].
      case_bool_decide; [constructor|]. destruct Hmid as [?|(? & _)]; [done|]. clean_lines. }
  rewrite <- app_assoc, <- app_assoc, parse_lines_app, parse_media_lines by done. cbn [obind].
  rewrite parse_lines_app, parse_security_lines by done. cbn [obind].
  rewrite parse_lines_app, parse_mid by done. cbn [obind parse_lines].
  change (parse_line ?st []) with (@Ok E _ st). cbn [obind]. rewrite static_known; [done|].
  intros n Hn. cbn. apply list_elem_of_fmap in Hn as (c & -> & Hc). rewrite wrapu_id; [by apply list_elem_of_fmap_2|].
  destruct (filtered_codecs parsed flags Hwf) as [Hcs _]. rewrite Forall_forall in Hcs. destruct (Hcs _ Hc) as [Hpt _]. unfold is_u. lia.
Qed.

Lemma offer_setup_known flags : offer_setup flags ∈ map bs ["active"; "passive"; "actpass"]%string.
Proof. unfold offer_setup. repeat case_match; apply (bool_decide_unpack _); vm_compute; exact I. Qed.
Lemma answer_setup_known parsed flags : answer_setup parsed flags ∈ map bs ["active"; "passive"; "actpass"]%string.
Proof. unfold answer_setup. repeat case_match; apply (bool_decide_unpack _); vm_compute; exact I. Qed.

Definition offered_mid (parsed : ParsedSDP) (flags : ParsedFlags) : bytes := if pf_bool flags GenerateMID then sdp_MID parsed else [].
Lemma offer_sdp_sent parsed localIP localPort flags :
  offer_buildModifiedSDP parsed localIP localPort flags = sent_sdp (offer_setup flags) (offered_mid parsed flags) parsed localIP localPort flags.
Proof.
  unfold offer_buildModifiedSDP, sent_sdp, offered_mid, offer_writeSecurityAttributes. do 4 f_equal.
  destruct (pf_bool flags GenerateMID); [|done]. by case_bool_decide.
Qed.

Lemma offer_read_back {E : Type} parsed localIP localPort flags :
  wf_parsed parsed flags -> word localIP -> "/"%char ∉ localIP -> 0 <= localPort < 65535 ->
  offer_filterCodecsForSDP (sdp_Codecs parsed) flags <> [] ->
  Parse (E := E) (offer_buildModifiedSDP parsed localIP localPort flags) =
  Ok (described (offer_setup flags) (offered_mid parsed flags) parsed localIP localPort flags).
Proof.
  intros Hwf. pose proof Hwf as (_ & _ & _ & _ & _ & _ & _ & Hmid & _). intros. rewrite offer_sdp_sent.
  apply parse_sent; try done; [apply offer_setup_known|]. unfold offered_mid. destruct (pf_bool flags GenerateMID); [done|by left].
Qed.

Lemma answer_read_back {E : Type} parsed localIP localPort flags :
  wf_parsed parsed flags -> word localIP -> "/"%char ∉ localIP -> 0 <= localPort < 65535 ->
  offer_filterCodecsForSDP (sdp_Codecs parsed) flags <> [] ->
  Parse (E := E) (answer_buildModifiedSDP parsed localIP localPort flags) =
  Ok (described (answer_setup parsed flags) (sdp_MID parsed) parsed localIP localPort flags).
Proof.
  intros Hwf. pose proof Hwf as (_ & _ & _ & _ & _ & _ & _ & Hmid & _). intros.
  change (answer_buildModifiedSDP parsed localIP localPort flags) with (sent_sdp (answer_setup parsed flags) (sdp_MID parsed) parsed localIP localPort flags).
  by apply parse_sent; [apply answer_setup_known|..].
Qed.

(** ** Guarantees *)

(** C10: the peer reads what Karl decided. For a description with clean texts and
    distinct payload types ([wf_parsed]), an address without blanks or slash, a port
    below 65535, and at least one codec left after stripping, parsing the
    description an offer or an answer sends gives Karl's address and port, the
    chosen profile, exactly the codecs that were not stripped with their rates,
    channels and parameters, the direction, packet time, RTCP port or multiplexing,
    and the ICE, DTLS and SDES attributes of the flags; the role is the one the
    command chose. (With no codec left the port is lost: [stripped_no_media].) *)
Theorem modified_sdp_roundtrip {E : Type} parsed localIP localPort flags :
  wf_parsed parsed flags -> word localIP -> "/"%char ∉ localIP -> 0 <= localPort < 65535 ->
  offer_filterCodecsForSDP (sdp_Codecs parsed) flags <> [] ->
  Parse (E := E) (offer_buildModifiedSDP parsed localIP localPort flags) =
    Ok (described (offer_setup flags) (if pf_bool flags GenerateMID then sdp_MID parsed else []) parsed localIP localPort flags) /\
  Parse (E := E) (answer_buildModifiedSDP parsed localIP localPort flags) =
    Ok (described (answer_setup parsed flags) (sdp_MID parsed) parsed localIP localPort flags).
Proof. intros. split; [by apply offer_read_back|by apply answer_read_back]. Qed.

(** With DTLS switched off, a description that has both a fingerprint and SDES
    keys is answered with a secure profile and without any key. *)
Theorem secure_profile_without_key parsed flags :
  pf_bool flags DTLSOff = true -> pf_bool flags SDESOff = false -> sdp_HasDTLS parsed = true -> sdp_HasSRTP parsed = true ->
  (forall f, f ∈ [UDPTLS; RTPSAVPF; RTPSAVP; RTPAVPF; RTPAVP] -> pf_bool flags f = false) ->
  offer_determineProtocol parsed flags ∈ [bs "RTP/SAVP"; bs "RTP/SAVPF"] /\
  offer_writeSecurityAttributes parsed flags = [] /\ answer_writeSecurityAttributes parsed flags = [].
Proof.
  intros H1 H2 H3 H4 Hf. unfold offer_determineProtocol, offer_writeSecurityAttributes, answer_writeSecurityAttributes, security_lines.
  rewrite !Hf by set_solver. rewrite H1, H2, H3, H4. cbn [negb andb]. split; [|done]. destruct (sdp_HasAVPF parsed); set_solver.
Qed.

(** An explicit profile does not decide the keys: with the flag [RTP/AVP] a
    description with a fingerprint is answered with one, under the plain profile. *)
Theorem plain_profile_with_fingerprint parsed flags :
  pf_bool flags RTPAVP = true -> (forall f, f ∈ [UDPTLS; RTPSAVPF; RTPSAVP; RTPAVPF] -> pf_bool flags f = false) ->
  pf_bool flags DTLSOff = false -> sdp_HasDTLS parsed = true ->
  offer_determineProtocol parsed flags = bs "RTP/AVP" /\ (bs "a=fingerprint:" ++ fingerprint) ∈ offer_writeSecurityAttributes parsed flags.
Proof.
  intros H1 Hf H2 H3. unfold offer_determineProtocol, offer_writeSecurityAttributes, security_lines. rewrite !Hf by set_solver. rewrite H1, H2, H3.
  split; [done|]. left.
Qed.

Definition no_flags : ParsedFlags := ParseFlags [].
Definition parsed_of (lines : list string) : ParsedSDP := match Parse (E := unit) (concat (map crlf (map bs lines))) with Ok p => p | _ => initial_sdp end.

(** A version that does not fit is read as the largest one, and the next one is negative. *)
Example version_overflow :
  let p := parsed_of ["o=- 1 99999999999999999999 IN IP4 h"]%string in
  sdp_SessionVersion p = 2 ^ 63 - 1 /\ i64 (sdp_SessionVersion p + 1) = - 2 ^ 63.
Proof. vm_compute. done. Qed.

(** Of two media lines the last gives the port, and the codecs of both are kept. *)
Example last_media_wins :
  let p := parsed_of ["m=audio 40 RTP/AVP 0"; "a=rtpmap:0 PCMU/8000"; "m=video 50 RTP/AVP 99"; "a=rtpmap:99 H264/90000"]%string in
  sdp_MediaPort p = 50 /\ map PayloadType (sdp_Codecs p) = [0; 99].
Proof. vm_compute. done. Qed.

(** A payload type above 255 becomes another one. *)
Example payload_type_wraps : map PayloadType (sdp_Codecs (parsed_of ["a=rtpmap:256 opus/48000"]%string)) = [0].
Proof. vm_compute. done. Qed.

(** With every codec stripped the peer finds no media in the description. *)
Example stripped_no_media :
  let p := parsed_of ["m=audio 40 RTP/AVP 0"]%string in
  (sdp_MediaPort <$> match Parse (E := unit) (offer_buildModifiedSDP p (bs "h") 30000 (ParseFlags [bs "strip-all-codecs"])) with Ok q => Some q | _ => None end) = Some 0.
Proof. vm_compute. done. Qed.

(** ** Witnesses *)

Definition sample_parsed : ParsedSDP :=
  mkParsedSDP 42 7 (bs "call one") (bs "10.0.0.7") (bs "alice") (bs "audio") 4000 (bs "RTP/SAVPF") [mkCodec 0 (bs "PCMU") 8000 1 []]
    20 true false [] [] false false [] [] true (bs "AES_CM_128_HMAC_SHA1_80") (bs "abc") (bs "sendonly") false 4009 77 (bs "0").

Lemma sample_wf : wf_parsed sample_parsed no_flags.
Proof.
  unfold wf_parsed. split_and!; try (unfold is_s; cbn; lia); try (right; by apply word_bs); try (right; by apply text_bs).
  - apply (bool_decide_unpack _). vm_compute. exact I.
  - apply Forall_singleton. unfold wf_codec. cbn [PayloadType Name ClockRate Channels Fmtp]. split_and!; try lia; [by apply word_bs|..|by left].
    apply (bool_decide_unpack _). vm_compute. exact I.
  - apply NoDup_singleton.
Qed.

Lemma modified_sdp_roundtrip_witness :
  Parse (E := unit) (offer_buildModifiedSDP sample_parsed (bs "192.0.2.1") 30000 no_flags) = Ok (described (offer_setup no_flags) [] sample_parsed (bs "192.0.2.1") 30000 no_flags).
Proof.
  apply (modified_sdp_roundtrip (E := unit) sample_parsed (bs "192.0.2.1") 30000 no_flags sample_wf); [by apply word_bs| |lia|discriminate].
  apply (bool_decide_unpack _). vm_compute. exact I.
Defined.

Lemma secure_profile_without_key_witness :
  offer_writeSecurityAttributes (sample_parsed <| sdp_HasDTLS := true |>) (ParseFlags [bs "DTLS=off"]) = [].
Proof.
  apply (secure_profile_without_key (sample_parsed <| sdp_HasDTLS := true |>) (ParseFlags [bs "DTLS=off"])); try reflexivity.
  intros f Hf. repeat (apply elem_of_cons in Hf as [->|Hf]; [reflexivity|]). by apply elem_of_nil in Hf.
Defined.
