(* ===== verification/CallSetup.v ===== *)
(** * Setting up calls

    What the offer and answer commands of [OfferAnswer] do to the calls: the leg
    and the sockets a command leaves behind, a call that goes from its offer to an
    answer, the sockets that belong to nobody once their leg is replaced, and when
    a description stops the process. The state is that of [OfferAnswer]; between
    commands the registry deletes, updates and cleans up sessions. *)

From Stdlib Require Import ZArith Lia Ascii String.
From stdpp Require Import base numbers list gmap strings.
From S2P Require Import Prelude Bencode GoFloat Interfaces SessionRegistry Message Listener Sdp SdpProcessor Flags OfferAnswer.

Local Open Scope Z_scope.
Local Open Scope go_scope.
#[local] Set Warnings "-clear-no-such-hyp,-register-all".

(** ** Specification *)

Definition conns_of (l : CallLeg) : list nat := option_list (leg_Conn l) ++ option_list (leg_RTCPConn l).
(** The leg of a side: the caller's for [true]. *)
Definition side_leg (caller : bool) (s : MediaSession) : option loc := if caller then CallerLeg s else CalleeLeg s.

(** A session uses a socket in the leg of a side, the legs whose sockets are
    closed when the session is removed. *)
Definition uses (w : world) (s : MediaSession) (c : nat) : Prop :=
  exists side q l, side_leg side s = Some q /\ legs (w_registry w) !! q = Some l /\ c ∈ conns_of l.

(** A session leads to a socket, in the leg of a side or under a label. (The
    commands' legs have no SSRC and enter no session's table of SSRCs.) *)
Definition reaches (w : world) (s : MediaSession) (c : nat) : Prop :=
  exists q l, ((exists side, side_leg side s = Some q) \/ exists label, Legs s !! label = Some q) /\
    legs (w_registry w) !! q = Some l /\ c ∈ conns_of l.

(** A socket that was bound and not closed. *)
Definition opened (w : world) (c : nat) : Prop := (c < next_socket w)%nat /\ c ∉ closedConns (w_registry w).

(** The registry's invariant; sockets and legs are numbered from below, no two
    legs share a socket, no leg is at two places, and the socket of a registered
    session is not closed. *)
Record world_ok (w : world) : Prop := {
  wo_reg : reg_ok (w_registry w);
  wo_leg : forall q l, legs (w_registry w) !! q = Some l -> (q < next (w_registry w))%positive;
  wo_conn : forall q l c, legs (w_registry w) !! q = Some l -> c ∈ conns_of l -> (c < next_socket w)%nat;
  wo_own : forall q1 q2 l1 l2 c, legs (w_registry w) !! q1 = Some l1 -> legs (w_registry w) !! q2 = Some l2 ->
             c ∈ conns_of l1 -> c ∈ conns_of l2 -> q1 = q2;
  wo_place : forall p1 p2 s1 s2 b1 b2 q, mem (w_registry w) !! p1 = Some s1 -> mem (w_registry w) !! p2 = Some s2 ->
             side_leg b1 s1 = Some q -> side_leg b2 s2 = Some q -> p1 = p2 /\ b1 = b2;
  wo_placed : forall p s b q, mem (w_registry w) !! p = Some s -> side_leg b s = Some q -> (q < next (w_registry w))%positive;
  wo_closed : forall c, c ∈ closedConns (w_registry w) -> (c < next_socket w)%nat;
  wo_live : forall p s c, live (w_registry w) p s -> uses w s c -> c ∉ closedConns (w_registry w)
}.

(** The life of the process: commands, each with a session id that is not in
    use, and the registry's own operations. *)
Inductive world_step (cfg : Config) (w : world) : world -> Prop :=
| ws_offer e req : sessions (w_registry w) !! e_uuid e = None -> world_step cfg w (offer_Handle cfg e req w).2
| ws_answer e req : world_step cfg w (answer_Handle cfg e req w).2
| ws_registry sr' : registry_step (w_registry w) sr' -> world_step cfg w (w <| w_registry := sr' |>).

Definition new_world (ttl : Z) : world := mkWorld (NewSessionRegistry ttl) ∅ 0.
Definition running (cfg : Config) (ttl : Z) (w : world) : Prop := rtc (world_step cfg) (new_world ttl) w.

(** ** Lemmas: small steps *)

(** A change of one session that keeps its identity and its legs. *)
Definition keeps (s t : MediaSession) : Prop := same_identity s t /\ forall b, side_leg b t = side_leg b s.

(** A new leg with two new sockets, at a side of a session. *)
Definition placed (side : bool) (p : loc) (t : MediaSession) (leg : CallLeg) (socks : gmap nat (bytes * Z)) (w : world) : world :=
  let sr := w_registry w in
  mkWorld (sr <| next ::= Pos.succ |> <| legs ::= <[next sr := leg]> |> <| mem ::= <[p := t]> |>) socks (S (S (next_socket w))).

Inductive micro (w : world) : world -> Prop :=
| mi_create id now c f : sessions (w_registry w) !! id = None -> micro w (w <| w_registry ::= fun sr => (CreateSession id now c f sr).2 |>)
| mi_write p s t : mem (w_registry w) !! p = Some s -> keeps s t -> Legs t = Legs s -> micro w (w <| w_registry ::= write p t |>)
| mi_ended l : micro w (w <| w_registry ::= fun sr => sr <| ended := l |> |>)
| mi_remove id : micro w (w <| w_registry ::= fun sr => (removeSessionLocked id sr).2 |>)
| mi_leg side p s t leg socks : mem (w_registry w) !! p = Some s -> same_identity s t ->
    side_leg side t = Some (next (w_registry w)) -> side_leg (negb side) t = side_leg (negb side) s ->
    (Legs t = Legs s \/ Legs t = <[leg_Label leg := next (w_registry w)]> (Legs s)) ->
    conns_of leg = [next_socket w; S (next_socket w)] -> micro w (placed side p t leg socks w).

Lemma world_ok_new ttl : world_ok (new_world ttl).
Proof. split; cbn; [apply reg_ok_new|..]; try (intros *; by rewrite ?lookup_empty). 1: set_solver. intros p s c [Hp _]. cbn in Hp. by rewrite lookup_empty in Hp. Qed.

Lemma uses_same w w' s t c : legs (w_registry w') = legs (w_registry w) -> (forall b, side_leg b t = side_leg b s) -> uses w' t c <-> uses w s c.
Proof. intros Hl Hb. unfold uses. rewrite Hl. split; intros (b & q & l & H1 & H2 & H3); exists b, q, l; [rewrite <- Hb|rewrite Hb]; done. Qed.

Lemma world_ok_create w id now c f : sessions (w_registry w) !! id = None -> world_ok w ->
  world_ok (w <| w_registry ::= fun sr => (CreateSession id now c f sr).2 |>).
Proof.
  intros Hid Hw. destruct w as [sr socks n]. cbn in Hid. destruct Hw as [H1 H2 H3 H4 H5 H6 H7 H8]. cbn in *.
  assert (forall q s, <[next sr := new_session id c f now]> (mem sr) !! q = Some s ->
            (s = new_session id c f now /\ q = next sr) \/ (mem sr !! q = Some s /\ q <> next sr)) as Hm.
  { intros q s. rewrite lookup_insert_Some. intros [[<- <-]|[? ?]]; [by left|by right]. }
  assert (forall b, side_leg b (new_session id c f now) = None) as Hn by by intros [].
  split; cbn.
  - by apply reg_ok_create.
  - intros q l Hq. apply H2 in Hq. lia.
  - exact H3.
  - exact H4.
  - intros p1 p2 s1 s2 b1 b2 q [[-> _]|[Hp1 _]]%Hm [[-> _]|[Hp2 _]]%Hm; rewrite ?Hn; try done. by eapply H5.
  - intros p s b q [[-> _]|[Hp _]]%Hm; [by rewrite Hn|]. intros Hq. pose proof (H6 _ _ _ _ Hp Hq). lia.
  - exact H7.
  - intros p s x [Hp Hs] Hu. cbn in Hp, Hs. apply Hm in Hp as [[-> _]|[Hp Hne]].
    + destruct Hu as (b & q & l & Hb & _). by rewrite Hn in Hb.
    + apply (H8 p s x); [split; [done|]|exact Hu]. cbn. rewrite lookup_insert_Some in Hs. destruct Hs as [[_ ?]|[_ ?]]; [done|done].
Qed.

Lemma world_ok_write w p s t : mem (w_registry w) !! p = Some s -> keeps s t -> world_ok w -> world_ok (w <| w_registry ::= write p t |>).
Proof.
  intros Hp [Hid Hside] Hw. destruct w as [sr socks n]. cbn in Hp. destruct Hw as [H1 H2 H3 H4 H5 H6 H7 H8]. cbn in *.
  assert (forall q u, <[p := t]> (mem sr) !! q = Some u -> exists v, mem sr !! q = Some v /\ (forall b, side_leg b u = side_leg b v) /\ ID u = ID v) as Hm.
  { intros q u. rewrite lookup_insert_Some. intros [[<- <-]|[? ?]]; [|by exists u]. exists s. split_and!; [done|done|apply Hid]. }
  split; cbn; try done.
  - by eapply reg_ok_write.
  - intros p1 p2 s1 s2 b1 b2 q (v1 & Hv1 & E1 & _)%Hm (v2 & Hv2 & E2 & _)%Hm. rewrite E1, E2. intros. by eapply H5.
  - intros p1 s1 b q (v1 & Hv1 & E1 & _)%Hm. rewrite E1. intros Hq. by eapply H6.
  - intros q u x [Hq Hs] Hu. cbn in Hq, Hs. destruct (Hm _ _ Hq) as (v & Hv & Ev & Ei). rewrite Ei in Hs.
    apply (H8 q v x); [by split|]. eapply (uses_same _ (mkWorld (write p t sr) socks n)); [reflexivity|intros b; symmetry; apply Ev|]. exact Hu.
Qed.

Lemma world_ok_remove w id : world_ok w -> world_ok (w <| w_registry ::= fun sr => (removeSessionLocked id sr).2 |>).
Proof.
  intros Hw. destruct w as [sr socks n]. destruct Hw as [H1 H2 H3 H4 H5 H6 H7 H8]. cbn [w_registry next_socket] in *.
  unfold set_field, set_w_registry. cbn [w_registry next_socket sockets].
  destruct (sessions sr !! id) as [p|] eqn:Hid.
  2:{ unfold removeSessionLocked. rewrite Hid. by split. }
  destruct (reg_ok_session _ _ _ H1 Hid) as [s Hlive]. pose proof Hlive as [Hp Hs].
  pose proof (reg_ok_remove id sr H1) as Hr. destruct (ok_sessions _ H1 _ _ Hid) as (s' & Hp' & Hsid).
  assert (s' = s) as -> by congruence.
  assert (forall x, x ∈ leg_conns sr (CallerLeg s) ++ leg_conns sr (CalleeLeg s) -> uses (mkWorld sr socks n) s x) as Hused.
  { intros x [Hx|Hx]%elem_of_app; unfold leg_conns in Hx.
    - destruct (CallerLeg s) as [q|] eqn:Eq; cbn in Hx; [|by apply elem_of_nil in Hx]. destruct (legs sr !! q) as [l|] eqn:El; cbn in Hx; [|by apply elem_of_nil in Hx].
      by exists true, q, l.
    - destruct (CalleeLeg s) as [q|] eqn:Eq; cbn in Hx; [|by apply elem_of_nil in Hx]. destruct (legs sr !! q) as [l|] eqn:El; cbn in Hx; [|by apply elem_of_nil in Hx].
      by exists false, q, l. }
  unfold removeSessionLocked, deref in *. rewrite Hid, Hp in *. cbn in *.
  split; cbn; try done.
  - intros x [Hx|Hx]%elem_of_app; [by apply H7|]. apply Hused in Hx as (b & q & l & _ & Hl & Hx). by eapply H3.
  - intros q u x [Hq Hu] Huse. cbn in Hq, Hu. apply lookup_delete_Some in Hu as [Hne Hu]. intros [Hx|Hx]%elem_of_app.
    + revert Hx. apply (H8 q u x); [by split|exact Huse].
    + apply Hused in Hx as (b1 & q1 & l1 & Hb1 & Hl1 & Hx1). destruct Huse as (b2 & q2 & l2 & Hb2 & Hl2 & Hx2). cbn in Hl1, Hl2.
      assert (q1 = q2) as -> by (by eapply H4). destruct (H5 _ _ _ _ _ _ _ Hp Hq Hb1 Hb2) as [-> _]. congruence.
Qed.

Lemma world_ok_leg w side p s t leg socks : mem (w_registry w) !! p = Some s -> same_identity s t ->
  side_leg side t = Some (next (w_registry w)) -> side_leg (negb side) t = side_leg (negb side) s ->
  conns_of leg = [next_socket w; S (next_socket w)] -> world_ok w -> world_ok (placed side p t leg socks w).
Proof.
  intros Hp Hid Hside Hother Hc Hw. destruct w as [sr sk n]. cbn in Hp, Hside, Hc. destruct Hw as [H1 H2 H3 H4 H5 H6 H7 H8]. cbn in *.
  assert (legs sr !! next sr = None) as Hfresh by (destruct (legs sr !! next sr) eqn:El; [apply H2 in El; lia|done]).
  assert (forall q l, <[next sr := leg]> (legs sr) !! q = Some l -> (q = next sr /\ l = leg) \/ (legs sr !! q = Some l /\ (q < next sr)%positive)) as Hl.
  { intros q l. rewrite lookup_insert_Some. intros [[<- <-]|[? Hq]]; [by left|right]. split; [done|by eapply H2]. }
  assert (forall b q u r, <[p := t]> (mem sr) !! q = Some u -> side_leg b u = Some r ->
            (q = p /\ b = side /\ r = next sr) \/ (exists v, mem sr !! q = Some v /\ side_leg b v = Some r /\ (r < next sr)%positive)) as Hm.
  { intros b q u r. rewrite lookup_insert_Some. intros [[<- <-]|[? Hq]] Hb.
    - destruct (decide (b = side)) as [->|Hne]; [left; split_and!; congruence|]. right. exists s.
      assert (b = negb side) as -> by (destruct b, side; done). rewrite Hother in Hb. split_and!; [done|done|]. by eapply H6.
    - right. exists u. split_and!; [done|done|]. by eapply H6. }
  assert (forall x, x ∈ conns_of leg -> (n <= x < S (S n))%nat) as Hx.
  { rewrite Hc. intros x Hx. apply elem_of_cons in Hx as [->|Hx]; [lia|]. apply list_elem_of_singleton in Hx. lia. }
  split; cbn.
  - apply (reg_ok_frame (write p t sr)); [done|done|cbn; lia|]. by eapply reg_ok_write.
  - intros q l [[-> _]|[_ ?]]%Hl; lia.
  - intros q l x [[_ ->]|[Hq _]]%Hl Hin; [apply Hx in Hin; lia|]. pose proof (H3 _ _ _ Hq Hin). lia.
  - intros q1 q2 l1 l2 x [[-> ->]|[Hq1 _]]%Hl [[-> ->]|[Hq2 _]]%Hl Hx1 Hx2; [done|..|by eapply H4].
    + apply Hx in Hx1. pose proof (H3 _ _ _ Hq2 Hx2). lia.
    + apply Hx in Hx2. pose proof (H3 _ _ _ Hq1 Hx1). lia.
  - intros p1 p2 s1 s2 b1 b2 q Hp1 Hp2 Hb1 Hb2.
    destruct (Hm _ _ _ _ Hp1 Hb1) as [(-> & -> & ->)|(v1 & Hv1 & E1 & L1)], (Hm _ _ _ _ Hp2 Hb2) as [(-> & -> & E)|(v2 & Hv2 & E2 & L2)]; [done|lia|lia|].
    by eapply H5.
  - intros q u b r Hq Hb. destruct (Hm _ _ _ _ Hq Hb) as [(_ & _ & ->)|(v & _ & _ & ?)]; lia.
  - intros x Hin. apply H7 in Hin. lia.
  - intros q u x [Hq Hu] (b & r & l & Hb & Hr & Hin). cbn in Hq, Hu, Hr. intros Hcl. pose proof (H7 _ Hcl).
    destruct (Hl _ _ Hr) as [[-> ->]|[Hlr _]]; [apply Hx in Hin; lia|].
    destruct (Hm _ _ _ _ Hq Hb) as [(_ & _ & ->)|(v & Hv & Hbv & _)]; [congruence|].
    revert Hcl. apply (H8 q v x); [|by exists b, r, l]. split; [done|]. cbn. rewrite lookup_insert_Some in Hq.
    destruct Hq as [[<- <-]|[_ Hq]]; [|congruence]. assert (v = s) as -> by congruence. destruct Hid as [<- _]. done.
Qed.

Lemma micro_ok w w' : world_ok w -> micro w w' -> world_ok w'.
Proof.
  intros Hw [id now c f Hid|p s t Hp Hk _|l|id|side p s t leg socks ? ? ? ? _ ?].
  - by apply world_ok_create.
  - by eapply world_ok_write.
  - destruct Hw as [Hreg]. split; try done. apply (reg_ok_frame (w_registry w)); [done|done|cbn; lia|done].
  - by apply world_ok_remove.
  - by eapply world_ok_leg.
Qed.
Lemma micros_ok w w' : world_ok w -> rtc micro w w' -> world_ok w'.
Proof. intros Hw. induction 1 as [|w w1 w2 Hm _ IH]; [done|]. by eapply IH, micro_ok. Qed.

(** ** Lemmas: what the commands are made of *)

Lemma touch_micro p f w : (forall s, keeps s (f s) /\ Legs (f s) = Legs s) -> rtc micro w (w <| w_registry ::= modify p f |>).
Proof.
  intros Hf. destruct (mem (w_registry w) !! p) as [s|] eqn:Hp.
  - replace (w <| w_registry ::= modify p f |>) with (w <| w_registry ::= write p (f s) |>); [destruct (Hf s); by eapply rtc_once, mi_write|].
    unfold set_field, set_w_registry. f_equal. unfold write, modify, set_field, set_mem. f_equal. apply map_eq. intros i.
    destruct (decide (i = p)) as [->|Hne]; [by rewrite lookup_insert_eq, lookup_alter_eq, Hp|by rewrite lookup_insert_ne, lookup_alter_ne].
  - replace (w <| w_registry ::= modify p f |>) with w; [done|]. destruct w as [sr socks n]. unfold set_field, set_w_registry. f_equal.
    destruct sr. unfold modify, set_field, set_mem. cbn in *. f_equal. apply map_eq. intros i.
    destruct (decide (i = p)) as [->|Hne]; [by rewrite lookup_alter_eq, Hp|by rewrite lookup_alter_ne].
Qed.

Ltac keep_side := intros ?; split; [split; [by repeat split|by intros []]|done].

Lemma SetFlag_micro p n v w : rtc micro w (w <| w_registry ::= SetFlag p n v |>).
Proof. apply touch_micro. keep_side. Qed.
Lemma SetMetadata_micro p k v w : rtc micro w (w <| w_registry ::= SetMetadata p k v |>).
Proof. apply touch_micro. keep_side. Qed.

Lemma updated_keeps now state s : keeps s (updated now state s).
Proof. split; [apply updated_fields|]. unfold updated. intros []; destruct (_ && _), (bool_decide _); done. Qed.

Lemma updated_Legs now state s : Legs (updated now state s) = Legs s.
Proof. unfold updated. destruct (_ && _), (bool_decide _); done. Qed.

Lemma update_micro now id state w : reg_ok (w_registry w) ->
  rtc micro w (w <| w_registry ::= fun sr => (UpdateSessionState now id state sr).2 |>).
Proof.
  intros Hok. destruct w as [sr socks n]. unfold set_field, set_w_registry. cbn [w_registry sockets next_socket] in *.
  destruct (sessions sr !! id) as [p|] eqn:Hid.
  2:{ unfold UpdateSessionState, UpdateSessionStateTyped. by rewrite Hid. }
  destruct (ok_sessions _ Hok _ _ Hid) as (s & Hp & Hs).
  rewrite (UpdateSessionState_eq now id state sr p s) by (first [done | split; [done|by rewrite Hs]]). cbn [snd]. cbv zeta.
  eapply rtc_l; [apply (mi_write _ p s (updated now state s)); [done|apply updated_keeps|apply updated_Legs]|].
  case_match; [|done]. apply rtc_once. exact (mi_ended (mkWorld (write p (updated now state s) sr) socks n) (ended (write p (updated now state s) sr) ++ [p])).
Qed.

Lemma registry_step_micro w sr' : reg_ok (w_registry w) -> registry_step (w_registry w) sr' -> rtc micro w (w <| w_registry := sr' |>).
Proof.
  intros Hok Hs. destruct w as [sr socks n]. cbn in Hs, Hok. destruct Hs as [id now c f Hid|now id st|id|now ids|p k v|p k v].
  - exact (rtc_once _ _ (mi_create (mkWorld sr socks n) id now c f Hid)).
  - by apply (update_micro now id st (mkWorld sr socks n)).
  - exact (rtc_once _ _ (mi_remove (mkWorld sr socks n) id)).
  - unfold cleanupStaleSessions, set_field, set_w_registry. cbn [sockets next_socket]. clear Hok. revert sr.
    induction ids as [|id ids IH]; intros sr; [done|]. cbn [foldl]. etrans; [|apply IH].
    destruct (sessions sr !! id); [|done]. destruct (isStale now sr _); [|done]. exact (rtc_once _ _ (mi_remove (mkWorld sr socks n) id)).
  - apply (SetFlag_micro p k v (mkWorld sr socks n)).
  - apply (SetMetadata_micro p k v (mkWorld sr socks n)).
Qed.

Lemma offer_store_micro p req flags w : rtc micro w (w <| w_registry ::= offer_store p req flags |>).
Proof.
  destruct w as [sr socks n]. unfold set_field, set_w_registry. cbn [w_registry sockets next_socket]. unfold offer_store. cbv zeta.
  assert (forall sr1 sr2 k (s : bytes), rtc micro (mkWorld sr1 socks n) (mkWorld sr2 socks n) ->
    rtc micro (mkWorld sr1 socks n) (mkWorld (if bool_decide (s = []) then sr2 else SetMetadata p k (str s) sr2) socks n)) as Hset.
  { intros sr1 sr2 k s H. case_bool_decide; [done|]. etrans; [exact H|]. apply (SetMetadata_micro p k (str s) (mkWorld sr2 socks n)). }
  set (sr1 := if pf_bool flags RecordCall || pf_bool flags StartRecording then _ else sr).
  assert (rtc micro (mkWorld sr socks n) (mkWorld sr1 socks n)) as H1.
  { unfold sr1. case_match; [|done]. apply Hset, Hset. etrans; [apply (SetFlag_micro p "record" true (mkWorld sr socks n))|].
    apply (SetMetadata_micro p "record-start" "pending" (mkWorld (SetFlag p "record" true sr) socks n)). }
  set (sr2 := if pf_bool flags WebRTCEnabled then _ else sr1).
  assert (rtc micro (mkWorld sr1 socks n) (mkWorld sr2 socks n)) as H2.
  { unfold sr2. case_match; [|done]. apply (SetFlag_micro p "webrtc" true (mkWorld sr1 socks n)). }
  set (sr3 := if pf_bool flags SIPREC then _ else sr2).
  assert (rtc micro (mkWorld sr2 socks n) (mkWorld sr3 socks n)) as H3.
  { unfold sr3. case_match; [|done]. generalize sr2 (default [] (RecordingMetadata flags)). intros sr' l. revert sr'.
    induction l as [|kv l IH]; intros sr'; [done|]. cbn [foldl]. etrans; [|apply IH].
    apply (SetMetadata_micro p ("siprec-" ++ str kv.1) (str kv.2) (mkWorld sr' socks n)). }
  etrans; [exact H1|]. etrans; [exact H2|]. etrans; [exact H3|]. set (via := if bool_decide (pf_str flags ViaBranch = []) then _ else _).
  case_bool_decide; [done|]. apply (touch_micro p (fun s => s <| SessionRegistry.ViaBranch := str via |>) (mkWorld sr3 socks n)). keep_side.
Qed.

Lemma answer_store_micro now p req flags w : reg_ok (w_registry w) -> rtc micro w (w <| w_registry ::= answer_store now p req flags |>).
Proof.
  intros Hok. destruct w as [sr socks n]. unfold set_field, set_w_registry. cbn [w_registry sockets next_socket] in *. unfold answer_store. cbv zeta.
  set (sr1 := (UpdateSessionState now (session_id sr p) SessionStateActive sr).2).
  etrans; [by apply (update_micro now (session_id sr p) SessionStateActive (mkWorld sr socks n))|].
  change (rtc micro (mkWorld sr1 socks n) (mkWorld (let sr2 := if bool_decide (req_ToTag req = []) then sr1 else modify p (fun s => s <| ToTag := str (req_ToTag req) |>) sr1 in
    if GetFlag p "record" sr2 || pf_bool flags RecordCall || pf_bool flags StartRecording then SetFlag p "record" true sr2 else sr2) socks n)).
  cbv zeta. set (sr2 := if bool_decide (req_ToTag req = []) then _ else _).
  etrans; [|match goal with |- context [if ?b then SetFlag p "record" true sr2 else sr2] => destruct b; [apply (SetFlag_micro p "record" true (mkWorld sr2 socks n))|reflexivity] end].
  unfold sr2. case_bool_decide; [done|]. apply (touch_micro p (fun s => s <| ToTag := str (req_ToTag req) |>) (mkWorld sr1 socks n)). keep_side.
Qed.

(** The session and the leg after a leg was stored. *)
Definition seated (caller : bool) (now : Z) (label : bytes) (q : loc) (tag : string) (s : MediaSession) : MediaSession :=
  let s := if caller then s <| CallerLeg := Some q |> else s <| CalleeLeg := Some q |> <| ToTag := tag |> in
  let s := s <| UpdatedAt := now |> in
  if bool_decide (label = []) then s else s <| Legs ::= <[str label := q]> |>.
Lemma seated_fields caller now label q tag s : let t := seated caller now label q tag s in
  State t = State s /\ ToTag t = (if caller then ToTag s else tag) /\ ID t = ID s /\ CallID t = CallID s /\ FromTag t = FromTag s /\
  side_leg caller t = Some q /\ side_leg (negb caller) t = side_leg (negb caller) s.
Proof. unfold seated. cbv zeta. destruct caller; case_bool_decide; done. Qed.
Definition labelled (label : bytes) (leg : CallLeg) : CallLeg := if bool_decide (label = []) then leg else leg <| leg_Label := str label |>.
Definition store_of (caller : bool) := if caller then SetCallerLeg else SetCalleeLeg.
Definition stored (caller : bool) (now : Z) (p : loc) (label : bytes) (leg : CallLeg) (s : MediaSession) (sr : SessionRegistry) : SessionRegistry :=
  sr <| next ::= Pos.succ |> <| legs ::= <[next sr := labelled label leg]> |> <| mem ::= <[p := seated caller now label (next sr) (leg_Tag leg) s]> |>.

Lemma alter_as_insert {A : Type} (f : A -> A) (p : loc) (m : gmap loc A) x : m !! p = Some x -> alter f p m = <[p := f x]> m.
Proof.
  intros Hp. apply map_eq. intros i. destruct (decide (i = p)) as [->|Hne]; [by rewrite lookup_alter_eq, lookup_insert_eq, Hp|].
  by rewrite lookup_alter_ne, lookup_insert_ne.
Qed.

Lemma store_leg_eq caller which e p label leg w s : live (w_registry w) p s -> leg_SSRC leg = 0 ->
  store_leg (store_of caller) which e p label leg w = (Ok tt, w <| w_registry ::= stored caller (e_now e) p label leg s |>).
Proof.
  intros [Hp Hs] Hssrc. destruct w as [sr socks n]. cbn in Hp, Hs. unfold store_leg, NewLeg, set_field, set_w_registry. cbn [w_registry sockets next_socket].
  unfold session_id, deref. cbn. rewrite Hp. destruct caller; cbn; unfold SetCallerLeg, SetCalleeLeg; cbn; rewrite Hs; cbn; rewrite lookup_insert_eq.
  all: cbn; unfold index_leg; rewrite Hssrc; cbn [Z.eqb]; do 2 f_equal; unfold stored, seated, labelled; case_bool_decide.
  all: unfold SetLegByLabel, modify, set_field, set_legs, set_next, set_mem; cbn.
  all: rewrite (alter_as_insert _ p (mem sr) s) by done; rewrite !alter_insert_eq; reflexivity.
Qed.

Lemma store_leg_micro caller now p label leg s w socks : mem (w_registry w) !! p = Some s ->
  conns_of leg = [next_socket w; S (next_socket w)] ->
  micro w (mkWorld (stored caller now p label leg s (w_registry w)) socks (S (S (next_socket w)))).
Proof.
  intros Hp Hc. set (t := seated caller now label (next (w_registry w)) (leg_Tag leg) s).
  apply (mi_leg w caller p s t (labelled label leg) socks); [done|..].
  - unfold t, seated. destruct caller; case_bool_decide; by repeat split.
  - unfold t, seated. destruct caller; case_bool_decide; done.
  - unfold t, seated. destruct caller; case_bool_decide; done.
  - unfold t, seated, labelled. destruct caller; case_bool_decide; cbn; auto.
  - unfold labelled. by case_bool_decide.
Qed.

Lemma allocate_cases cfg e ip w :
  (exists rtp rtcp, (AllocateMediaPorts (e_listen e ip) (port_range cfg).1 (port_range cfg).2).1 = Ok (rtp, rtcp) /\
     allocate cfg e ip w = (Ok (rtp, rtcp, next_socket w, S (next_socket w)),
       mkWorld (w_registry w) (<[S (next_socket w) := (ip, rtcp)]> (<[next_socket w := (ip, rtp)]> (sockets w))) (S (S (next_socket w))))) \/
  (forall a, (allocate cfg e ip w).1 <> Ok a) /\ (allocate cfg e ip w).2 = w.
Proof.
  unfold allocate. destruct (port_range cfg) as [lo hi]. cbn [fst snd].
  destruct (AllocateMediaPorts (e_listen e ip) lo hi).1 as [[rtp rtcp]| | |]; [left; by exists rtp, rtcp|right; done..].
Qed.

(** The description and the leg of a command that got its ports. *)
Definition answer_leg_of (caller : bool) := if caller then offer_leg else answer_leg.
Lemma leg_conns_of caller req label ip rtp rtcp c d parsed flags :
  let leg := answer_leg_of caller req label ip (rtp, rtcp, c, d) parsed flags in leg_SSRC leg = 0 /\ conns_of leg = [c; d].
Proof. destruct caller; cbn; unfold answer_leg, offer_leg, make_leg; destruct (remote_address parsed) as [[? ?]|]; done. Qed.

Definition with_ports (w : world) (ip : bytes) (rtp rtcp : Z) : gmap nat (bytes * Z) :=
  <[S (next_socket w) := (ip, rtcp)]> (<[next_socket w := (ip, rtp)]> (sockets w)).

(** A description that was read and ports that were granted: the leg is stored. *)
Lemma processOffer_ok cfg e p req flags w s parsed rtp rtcp :
  let ip := offer_selectMediaIP cfg flags req in
  let label := leg_label (req_FromTag req) flags in
  let leg := offer_leg req label ip (rtp, rtcp, next_socket w, S (next_socket w)) parsed flags in
  live (w_registry w) p s -> Parse (E := bytes) (req_SDP req) = Ok parsed ->
  (AllocateMediaPorts (e_listen e ip) (port_range cfg).1 (port_range cfg).2).1 = Ok (rtp, rtcp) ->
  processOfferSDP cfg e p req flags w =
  (Ok (offer_buildModifiedSDP parsed ip rtp flags, offer_buildStreamInfo leg ip rtp rtcp flags parsed),
   mkWorld (stored true (e_now e) p label leg s (w_registry w)) (with_ports w ip rtp rtcp) (S (S (next_socket w)))).
Proof.
  intros ip label leg Hl Hparse Hports. unfold processOfferSDP. rewrite Hparse. fold ip.
  destruct (allocate_cases cfg e ip w) as [(r1 & r2 & H1 & ->)|[Hno _]].
  2:{ exfalso. unfold allocate in Hno. destruct (port_range cfg) as [lo hi]. cbn [fst snd] in Hports. rewrite Hports in Hno. by eapply Hno. }
  assert (r1 = rtp /\ r2 = rtcp) as [-> ->] by (rewrite H1 in Hports; by injection Hports).
  fold label. change SetCallerLeg with (store_of true). rewrite (store_leg_eq true _ _ _ _ _ _ s); [done|exact Hl|].
  apply (leg_conns_of true).
Qed.

Lemma processOffer_fails cfg e p req flags w s : live (w_registry w) p s ->
  (forall parsed, Parse (E := bytes) (req_SDP req) <> Ok parsed) \/
  (forall r, (AllocateMediaPorts (e_listen e (offer_selectMediaIP cfg flags req)) (port_range cfg).1 (port_range cfg).2).1 <> Ok r) ->
  (forall a, (processOfferSDP cfg e p req flags w).1 <> Ok a) /\ (processOfferSDP cfg e p req flags w).2 = w.
Proof.
  intros Hl Hno. unfold processOfferSDP. destruct (Parse (req_SDP req)) as [parsed| | |] eqn:Hp; [|by split..].
  destruct (allocate_cases cfg e (offer_selectMediaIP cfg flags req) w) as [(r1 & r2 & H1 & H2)|[Hn Hw]].
  - destruct Hno as [Hno|Hno]; [by destruct (Hno parsed)|by eapply Hno in H1].
  - destruct (allocate cfg e _ w) as [[[[[? ?] ?] ?]| | |] w'] eqn:Ea; cbn in Hw; subst; [exfalso; by eapply Hn|by split..].
Qed.

Lemma processAnswer_ok cfg e p req flags w s parsed rtp rtcp :
  let ip := answer_selectMediaIP cfg flags req in
  let label := leg_label (req_ToTag req) flags in
  let leg := answer_leg req label ip (rtp, rtcp, next_socket w, S (next_socket w)) parsed flags in
  live (w_registry w) p s -> Parse (E := bytes) (req_SDP req) = Ok parsed ->
  (AllocateMediaPorts (e_listen e ip) (port_range cfg).1 (port_range cfg).2).1 = Ok (rtp, rtcp) ->
  processAnswerSDP cfg e p req flags w =
  (Ok (answer_buildModifiedSDP parsed ip rtp flags, answer_buildStreamInfo leg ip rtp rtcp flags parsed),
   mkWorld (stored false (e_now e) p label leg s (w_registry w)) (with_ports w ip rtp rtcp) (S (S (next_socket w)))).
Proof.
  intros ip label leg Hl Hparse Hports. unfold processAnswerSDP. rewrite Hparse. fold ip.
  destruct (allocate_cases cfg e ip w) as [(r1 & r2 & H1 & ->)|[Hno _]].
  2:{ exfalso. unfold allocate in Hno. destruct (port_range cfg) as [lo hi]. cbn [fst snd] in Hports. rewrite Hports in Hno. by eapply Hno. }
  assert (r1 = rtp /\ r2 = rtcp) as [-> ->] by (rewrite H1 in Hports; by injection Hports).
  fold label. change SetCalleeLeg with (store_of false). rewrite (store_leg_eq false _ _ _ _ _ _ s); [done|exact Hl|].
  apply (leg_conns_of false).
Qed.

Lemma processAnswer_fails cfg e p req flags w s : live (w_registry w) p s ->
  (forall parsed, Parse (E := bytes) (req_SDP req) <> Ok parsed) \/
  (forall r, (AllocateMediaPorts (e_listen e (answer_selectMediaIP cfg flags req)) (port_range cfg).1 (port_range cfg).2).1 <> Ok r) ->
  (forall a, (processAnswerSDP cfg e p req flags w).1 <> Ok a) /\ (processAnswerSDP cfg e p req flags w).2 = w.
Proof.
  intros Hl Hno. unfold processAnswerSDP. destruct (Parse (req_SDP req)) as [parsed| | |] eqn:Hp; [|by split..].
  destruct (allocate_cases cfg e (answer_selectMediaIP cfg flags req) w) as [(r1 & r2 & H1 & H2)|[Hn Hw]].
  - destruct Hno as [Hno|Hno]; [by destruct (Hno parsed)|by eapply Hno in H1].
  - destruct (allocate cfg e _ w) as [[[[[? ?] ?] ?]| | |] w'] eqn:Ea; cbn in Hw; subst; [exfalso; by eapply Hn|by split..].
Qed.

(** ** Lemmas: an offer *)

(** The session with the flags of a command, and of an offer. *)
Definition base_flags (flags : ParsedFlags) (s : MediaSession) : MediaSession :=
  let b := pf_bool flags in
  let s := if pf_int flags TOS >=? 0 then s <| SessionRegistry.TOS := pf_int flags TOS |> else s in
  let s := if pf_int flags MediaTimeout >=? 0 then s <| SessionRegistry.MediaTimeout := pf_int flags MediaTimeout |> else s in
  let s := if pf_int flags DeleteDelay >=? 0 then s <| SessionRegistry.DeleteDelay := pf_int flags DeleteDelay |> else s in
  s <| SessionRegistry.SIPREC := b SIPREC |> <| T38Enabled := b T38Support |> <| SessionRegistry.T38Gateway := b T38Gateway |>
    <| SessionRegistry.ICELite := b ICELite |> <| SessionRegistry.TrickleICE := b TrickleICE |> <| SessionRegistry.ICEForce := b ICEForce |>
    <| SessionRegistry.ICERemove := b ICERemove |> <| SessionRegistry.DTLSOff := b DTLSOff |> <| SessionRegistry.DTLSPassive := b DTLSPassive |>
    <| SessionRegistry.DTLSActive := b DTLSActive |> <| SessionRegistry.SDESOff := b SDESOff |> <| SessionRegistry.SDESOnly := b SDESOnly |>
    <| SessionRegistry.LoopProtect := b LoopProtect |> <| SessionRegistry.AlwaysTranscode := b AlwaysTranscode |>.
Definition flagged (flags : ParsedFlags) (s : MediaSession) : MediaSession :=
  match pf_list flags TranscodeCodecs with
  | [] => base_flags flags s
  | l => base_flags flags s <| SessionRegistry.TranscodeCodecs := map str l |>
  end.

Lemma write_write p s t sr : write p t (write p s sr) = write p t sr.
Proof. unfold write, set_field, set_mem. cbn. f_equal. apply insert_insert_eq. Qed.
Lemma modify_eq p f sr s : mem sr !! p = Some s -> modify p f sr = write p (f s) sr.
Proof. intros Hp. unfold modify, write, set_field, set_mem. f_equal. by apply alter_as_insert. Qed.
Lemma modify_write p f sr s : modify p f (write p s sr) = write p (f s) sr.
Proof. rewrite (modify_eq p f _ s); [apply write_write|]. cbn. apply lookup_insert_eq. Qed.

Lemma answer_flags_eq p flags sr s : mem sr !! p = Some s -> answer_applySessionFlags p flags sr = write p (base_flags flags s) sr.
Proof. intros Hp. exact (modify_eq p (base_flags flags) sr s Hp). Qed.
Lemma flags_eq p flags sr s : mem sr !! p = Some s -> offer_applySessionFlags p flags sr = write p (flagged flags s) sr.
Proof.
  intros Hp. pose proof (answer_flags_eq p flags sr s Hp) as H. unfold flagged, offer_applySessionFlags. unfold answer_applySessionFlags in H. cbv zeta in *.
  destruct (pf_list flags TranscodeCodecs); [exact H|]. rewrite H. apply modify_write.
Qed.

Definition same_tags (s t : MediaSession) : Prop := keeps s t /\ ToTag t = ToTag s.
Lemma same_tags_refl s : same_tags s s.
Proof. by repeat split. Qed.
Lemma same_tags_trans s t u : same_tags s t -> same_tags t u -> same_tags s u.
Proof.
  intros [[(A1 & A2 & A3 & A4) B] C] [[(A1' & A2' & A3' & A4') B'] C']. split; [split; [|by intros; rewrite B', B]|congruence].
  split_and!; [congruence..|]. auto.
Qed.
Lemma same_tags_if s t u (b : bool) : same_tags s t -> same_tags s u -> same_tags s (if b then t else u).
Proof. by destruct b. Qed.
(** One assignment after another. *)
Ltac tag_step := first [done | apply same_tags_refl | split; [split; [split_and!; [reflexivity..|by intros ?]|by intros []]|reflexivity]].
Ltac tag_steps :=
  repeat match goal with
  | |- same_tags ?s (set_field _ _ ?t) => apply (same_tags_trans s t); [|generalize t; intros; tag_step]
  | |- same_tags ?s (if _ then _ else _) => apply same_tags_if
  end; try apply same_tags_refl.

Lemma base_flags_keeps flags s : same_tags s (base_flags flags s).
Proof. unfold base_flags. cbv zeta. tag_steps. Qed.
Lemma base_flags_Legs flags s : Legs (base_flags flags s) = Legs s.
Proof.
  unfold base_flags. destruct (pf_int flags TOS >=? 0), (pf_int flags MediaTimeout >=? 0), (pf_int flags DeleteDelay >=? 0); reflexivity.
Qed.
Lemma transcode_Legs l s : Legs (s <| SessionRegistry.TranscodeCodecs := l |>) = Legs s.
Proof. done. Qed.
Lemma flagged_Legs flags s : Legs (flagged flags s) = Legs s.
Proof. unfold flagged. destruct (pf_list flags TranscodeCodecs); rewrite ?transcode_Legs; apply base_flags_Legs. Qed.
Lemma flagged_keeps flags s : same_tags s (flagged flags s).
Proof.
  pose proof (base_flags_keeps flags s) as H. unfold flagged. destruct (pf_list flags TranscodeCodecs); [done|].
  apply (same_tags_trans _ _ _ H). generalize (base_flags flags s). intros. tag_step.
Qed.
Lemma updated_same_tags now state s : same_tags s (updated now state s).
Proof. split; [apply updated_keeps|]. apply updated_fields. Qed.

Lemma live_write sr p s t : live sr p s -> ID t = ID s -> live (write p t sr) p t.
Proof. intros [Hp Hs] E. split; cbn; [apply lookup_insert_eq|]. by rewrite E. Qed.

(** A session that has the tags, or a new one. *)
Definition offer_session (e : request_env) (req : NGRequest) (sr : SessionRegistry) : loc * SessionRegistry :=
  match GetSessionByTags (str (req_CallID req)) (str (req_FromTag req)) (str (req_ToTag req)) sr with
  | Some p => (p, sr)
  | None => CreateSession (e_uuid e) (e_now e) (str (req_CallID req)) (str (req_FromTag req)) sr
  end.

Lemma by_tags_live callID fromTag toTag sr p : reg_ok sr -> GetSessionByTags callID fromTag toTag sr = Some p ->
  exists s, live sr p s /\ CallID s = callID /\ FromTag s = fromTag /\ (toTag = EmptyString \/ ToTag s = toTag).
Proof.
  intros Hok H. unfold GetSessionByTags in H. apply head_Some_elem_of in H. apply list_elem_of_filter in H as [Ht Hp].
  apply (ok_exact _ Hok) in Hp as (s & Hl & Hc). exists s. unfold tags_match, deref in Ht. destruct Hl as [Hp Hs]. rewrite Hp in Ht.
  apply andb_true_iff in Ht as [H1 H2]. apply orb_true_iff in H2 as [H2|H2]; bool_prop; by split_and!; [|done..|auto]; split.
Qed.

Lemma offer_session_live e req w : world_ok w -> sessions (w_registry w) !! e_uuid e = None ->
  exists s, live (offer_session e req (w_registry w)).2 (offer_session e req (w_registry w)).1 s /\
    CallID s = str (req_CallID req) /\ FromTag s = str (req_FromTag req) /\
    rtc micro w (w <| w_registry := (offer_session e req (w_registry w)).2 |>).
Proof.
  intros Hw Hid. unfold offer_session. destruct (GetSessionByTags _ _ _ _) as [p|] eqn:E.
  - destruct (by_tags_live _ _ _ _ _ (wo_reg _ Hw) E) as (s & Hl & Hc & Hf & _). exists s. split_and!; [done..|]. by destruct w.
  - exists (new_session (e_uuid e) (str (req_CallID req)) (str (req_FromTag req)) (e_now e)). split_and!; [split; cbn; apply lookup_insert_eq|done|done|].
    by apply rtc_once, (mi_create w).
Qed.

(** The world an offer processes its description in. *)
Definition offer_world (e : request_env) (req : NGRequest) (s : MediaSession) (w : world) : world :=
  let '(p, sr) := offer_session e req (w_registry w) in
  w <| w_registry := write p (updated (e_now e) SessionStatePending (flagged (ParseFlags (req_Flags req)) s)) sr |>.

Definition complete (req : NGRequest) : Prop := req_CallID req <> [] /\ req_FromTag req <> [] /\ req_SDP req <> [].
#[local] Instance complete_dec req : Decision (complete req).
Proof. unfold complete. apply _. Defined.

Lemma offer_Handle_eq cfg e req w s : complete req -> let '(p, sr) := offer_session e req (w_registry w) in live sr p s ->
  offer_Handle cfg e req w =
  let flags := ParseFlags (req_Flags req) in
  let '(r, w') := processOfferSDP cfg e p req flags (offer_world e req s w) in
  match r with
  | Ok (modifiedSDP, streams) =>
      (Ok (mkNGResponse ResultOK [] modifiedSDP (req_CallID req) (req_FromTag req) [] streams None 0 0 [] [] []), w' <| w_registry ::= offer_store p req flags |>)
  | Err err => (Ok (invalid_sdp err), w')
  | Panic => (Panic, w')
  | OutOfFuel => (OutOfFuel, w')
  end.
Proof.
  intros (H1 & H2 & H3). unfold offer_world, offer_Handle. rewrite !bool_decide_eq_false_2 by done.
  fold (offer_session e req (w_registry w)). destruct (offer_session e req (w_registry w)) as [p sr]. intros Hl. cbv zeta.
  pose proof Hl as [Hp Hs]. rewrite (flags_eq p _ sr s Hp). set (s1 := flagged (ParseFlags (req_Flags req)) s).
  assert (ID s1 = ID s) as Hid by apply flagged_keeps. assert (live (write p s1 sr) p s1) as Hl1 by by eapply live_write.
  replace (session_id (write p s1 sr) p) with (ID s1) by (unfold session_id, deref; cbn; by rewrite lookup_insert_eq).
  rewrite (UpdateSessionState_eq _ _ _ _ p s1 Hl1 eq_refl). cbn [snd]. cbv zeta.
  rewrite (bool_decide_eq_false_2 (SessionStatePending = SessionStateTerminated)) by done. cbn [andb]. by rewrite write_write.
Qed.

Lemma offer_world_facts e req w s : world_ok w -> sessions (w_registry w) !! e_uuid e = None ->
  let '(p, sr) := offer_session e req (w_registry w) in live sr p s ->
  let t := updated (e_now e) SessionStatePending (flagged (ParseFlags (req_Flags req)) s) in
  live (w_registry (offer_world e req s w)) p t /\ same_tags s t /\ rtc micro w (offer_world e req s w) /\ next_socket (offer_world e req s w) = next_socket w.
Proof.
  intros Hw Hid. destruct (offer_session_live e req w Hw Hid) as (s0 & Hl0 & _ & _ & Hm). unfold offer_world.
  destruct (offer_session e req (w_registry w)) as [p sr] eqn:E. cbn [fst snd] in *. intros Hl. cbv zeta.
  set (t := updated (e_now e) SessionStatePending (flagged (ParseFlags (req_Flags req)) s)).
  assert (same_tags s t) as Ht by (eapply same_tags_trans; [apply flagged_keeps|apply updated_same_tags]).
  assert (Legs t = Legs s) as Hlegs by (etrans; [apply updated_Legs|apply flagged_Legs]).
  split_and!; [|done| |done].
  - eapply live_write; [exact Hl|]. apply Ht.
  - etrans; [exact Hm|]. apply rtc_once. destruct Hl as [Hp _]. destruct w as [sr0 socks n].
    exact (mi_write (mkWorld sr socks n) p s t Hp (proj1 Ht) Hlegs).
Qed.

(** An offer that is refused changes the session's flags and state only. *)
Lemma offer_micro cfg e req w : world_ok w -> sessions (w_registry w) !! e_uuid e = None -> rtc micro w (offer_Handle cfg e req w).2.
Proof.
  intros Hw Hid. destruct (decide (complete req)) as [Hc|Hc].
  2:{ unfold offer_Handle. do 3 (case_bool_decide; [done|]). exfalso. by apply Hc. }
  destruct (offer_session_live e req w Hw Hid) as (s & Hl & _). pose proof (offer_Handle_eq cfg e req w s Hc) as Heq.
  pose proof (offer_world_facts e req w s Hw Hid) as Hf. destruct (offer_session e req (w_registry w)) as [p sr]. cbn in Hl.
  rewrite (Heq Hl). destruct (Hf Hl) as (Hlt & _ & Hm & _). cbv zeta. set (w1 := offer_world e req s w) in *. set (flags := ParseFlags (req_Flags req)).
  destruct (Parse (E := bytes) (req_SDP req)) as [parsed| | |] eqn:Hp.
  2-4: destruct (processOffer_fails cfg e p req flags w1 _ Hlt) as [Hno Hsame]; [left; by rewrite Hp|].
  2-4: destruct (processOfferSDP cfg e p req flags w1) as [[[? ?]| | |] w2]; cbn in *; subst; (done || exfalso; by eapply Hno).
  destruct ((AllocateMediaPorts (e_listen e (offer_selectMediaIP cfg flags req)) (port_range cfg).1 (port_range cfg).2).1) as [[rtp rtcp]| | |] eqn:Ha.
  2-4: destruct (processOffer_fails cfg e p req flags w1 _ Hlt) as [Hno Hsame]; [right; by rewrite Ha|].
  2-4: destruct (processOfferSDP cfg e p req flags w1) as [[[? ?]| | |] w2]; cbn in *; subst; (done || exfalso; by eapply Hno).
  rewrite (processOffer_ok cfg e p req flags w1 _ parsed rtp rtcp Hlt Hp Ha). cbn [snd].
  etrans; [exact Hm|]. etrans; [|apply offer_store_micro]. apply rtc_once. destruct Hlt as [Hpt _]. apply store_leg_micro; [exact Hpt|].
  apply (leg_conns_of true).
Qed.

(** ** Lemmas: an answer *)

Lemma find_live req flags w p : world_ok w -> answer_findSession req flags (w_registry w) = Some p ->
  exists s, live (w_registry w) p s /\ CallID s = str (req_CallID req).
Proof.
  intros Hw. unfold answer_findSession. cbv zeta.
  assert (forall l : list loc, (forall q, q ∈ l -> q ∈ GetSessionByCallID (str (req_CallID req)) (w_registry w)) -> head l = Some p ->
            exists s, live (w_registry w) p s /\ CallID s = str (req_CallID req)) as G.
  { intros l Hl Hh. apply head_Some_elem_of, Hl in Hh. by apply (ok_exact _ (wo_reg _ Hw)) in Hh. }
  match goal with |- match ?lab with Some _ => _ | None => _ end = _ -> _ => destruct lab as [q0|] eqn:E1 end.
  - intros [= ->]. case_bool_decide; [done|]. eapply G; [|exact E1]. intros q Hq. by apply list_elem_of_filter in Hq as [_ ?].
  - destruct (GetSessionByTags _ _ _ _) as [q0|] eqn:E2.
    + intros [= ->]. destruct (by_tags_live _ _ _ _ _ (wo_reg _ Hw) E2) as (s & Hl & Hc & _). by exists s.
    + apply G. intros q Hq. by apply list_elem_of_filter in Hq as [_ ?].
Qed.

(** The world an answer processes its description in. *)
Definition answer_world (p : loc) (req : NGRequest) (s : MediaSession) (w : world) : world :=
  w <| w_registry ::= write p (base_flags (ParseFlags (req_Flags req)) s) |>.

Lemma answer_world_facts p req w s : live (w_registry w) p s ->
  let t := base_flags (ParseFlags (req_Flags req)) s in
  live (w_registry (answer_world p req s w)) p t /\ same_tags s t /\ micro w (answer_world p req s w).
Proof.
  intros Hl. cbv zeta. pose proof (base_flags_keeps (ParseFlags (req_Flags req)) s) as Hk. split_and!; [|done|].
  - eapply live_write; [exact Hl|]. apply Hk.
  - destruct Hl as [Hp _]. exact (mi_write w p s _ Hp (proj1 Hk) (base_flags_Legs _ _)).
Qed.

Lemma answer_Handle_eq cfg e req w p s : complete req -> answer_findSession req (ParseFlags (req_Flags req)) (w_registry w) = Some p ->
  live (w_registry w) p s ->
  answer_Handle cfg e req w =
  let flags := ParseFlags (req_Flags req) in
  let '(r, w') := processAnswerSDP cfg e p req flags (answer_world p req s w) in
  match r with
  | Ok (modifiedSDP, streams) =>
      (Ok (mkNGResponse ResultOK [] modifiedSDP (req_CallID req) (req_FromTag req) (req_ToTag req) streams None 0 0 [] [] []),
       w' <| w_registry ::= answer_store (e_now e) p req flags |>)
  | Err err => (Ok (invalid_sdp err), w')
  | Panic => (Panic, w')
  | OutOfFuel => (OutOfFuel, w')
  end.
Proof.
  intros (H1 & H2 & H3) Hf [Hp Hs]. unfold answer_Handle, answer_world. rewrite !bool_decide_eq_false_2 by done. cbv zeta. rewrite Hf.
  destruct w as [sr socks n]. unfold set_field, set_w_registry. cbn [w_registry sockets next_socket] in *. by rewrite (answer_flags_eq p _ sr s Hp).
Qed.

Lemma answer_micro cfg e req w : world_ok w -> rtc micro w (answer_Handle cfg e req w).2.
Proof.
  intros Hw. destruct (decide (complete req)) as [Hc|Hc].
  2:{ unfold answer_Handle. do 3 (case_bool_decide; [done|]). exfalso. by apply Hc. }
  destruct (answer_findSession req (ParseFlags (req_Flags req)) (w_registry w)) as [p|] eqn:Hfind.
  2:{ destruct Hc as (? & ? & ?). unfold answer_Handle. rewrite !bool_decide_eq_false_2 by done. cbv zeta. by rewrite Hfind. }
  destruct (find_live _ _ _ _ Hw Hfind) as (s & Hl & _). rewrite (answer_Handle_eq cfg e req w p s Hc Hfind Hl). cbv zeta.
  destruct (answer_world_facts p req w s Hl) as (Hlt & _ & Hm). set (w1 := answer_world p req s w) in *. set (flags := ParseFlags (req_Flags req)) in *.
  assert (forall w2, w2 = w1 -> rtc micro w w2) as Hstay by (intros w2 ->; by apply rtc_once).
  destruct (Parse (E := bytes) (req_SDP req)) as [parsed| | |] eqn:Hp.
  2-4: destruct (processAnswer_fails cfg e p req flags w1 _ Hlt) as [Hno Hsame]; [left; by rewrite Hp|].
  2-4: destruct (processAnswerSDP cfg e p req flags w1) as [[[? ?]| | |] w2]; cbn in *; subst; (by apply Hstay) || exfalso; by eapply Hno.
  destruct ((AllocateMediaPorts (e_listen e (answer_selectMediaIP cfg flags req)) (port_range cfg).1 (port_range cfg).2).1) as [[rtp rtcp]| | |] eqn:Ha.
  2-4: destruct (processAnswer_fails cfg e p req flags w1 _ Hlt) as [Hno Hsame]; [right; by rewrite Ha|].
  2-4: destruct (processAnswerSDP cfg e p req flags w1) as [[[? ?]| | |] w2]; cbn in *; subst; (by apply Hstay) || exfalso; by eapply Hno.
  rewrite (processAnswer_ok cfg e p req flags w1 _ parsed rtp rtcp Hlt Hp Ha). cbn [snd].
  assert (world_ok w1) as Hw1 by by eapply micro_ok. destruct Hlt as [Hpt _].
  set (w2 := mkWorld _ _ _). assert (micro w1 w2) as Hm2 by (apply store_leg_micro; [exact Hpt|]; apply (leg_conns_of false)).
  eapply rtc_l; [exact Hm|]. eapply rtc_l; [exact Hm2|]. apply answer_store_micro. by apply wo_reg, (micro_ok w1).
Qed.

Lemma world_step_micro cfg w w' : world_ok w -> world_step cfg w w' -> rtc micro w w'.
Proof.
  intros Hw [e req Hid|e req|sr' Hs]; [by apply offer_micro|by apply answer_micro|]. apply registry_step_micro; [apply Hw|done].
Qed.
Lemma calls_ok cfg ttl w : running cfg ttl w -> world_ok w.
Proof.
  unfold running. intros H. assert (forall w1, world_ok w1 -> rtc (world_step cfg) w1 w -> world_ok w) as G; [|eapply G; [apply world_ok_new|exact H]].
  intros w1 H1. clear H. induction 1 as [|w1 w2 w3 Hs _ IH]; [done|]. apply IH. eapply micros_ok; [exact H1|]. by eapply world_step_micro.
Qed.

(** ** Lemmas: sockets that nothing refers to *)

(** An open socket of no session, registered or not. *)
Definition orphan (w : world) (c : nat) : Prop :=
  opened w c /\ forall p s, mem (w_registry w) !! p = Some s -> ~ uses w s c.

Lemma orphan_leg w side p s t leg socks c : world_ok w -> mem (w_registry w) !! p = Some s ->
  side_leg side t = Some (next (w_registry w)) -> side_leg (negb side) t = side_leg (negb side) s ->
  conns_of leg = [next_socket w; S (next_socket w)] -> opened w c ->
  (forall q u, mem (w_registry w) !! q = Some u -> uses w u c -> q = p /\ exists r l, side_leg side s = Some r /\ legs (w_registry w) !! r = Some l /\ c ∈ conns_of l) ->
  orphan (placed side p t leg socks w) c.
Proof.
  intros Hw Hp Hside Hother Hc [Hlt Hcl] Honly. destruct w as [sr sk n]. cbn in *. split; [split; cbn; [lia|done]|].
  intros q u Hq (b & r & l & Hb & Hr & Hin). cbn in Hq, Hr. rewrite lookup_insert_Some in Hr. destruct Hr as [[<- <-]|[Hne Hr]].
  { rewrite Hc in Hin. apply elem_of_cons in Hin as [->|Hin]; [lia|]. apply list_elem_of_singleton in Hin. lia. }
  rewrite lookup_insert_Some in Hq. destruct Hq as [[<- <-]|[Hnep Hq]].
  - destruct (decide (b = side)) as [->|Hbs]; [congruence|]. assert (b = negb side) as -> by (destruct b, side; done).
    rewrite Hother in Hb. destruct (Honly p s Hp) as [_ (r' & l' & Hr' & Hl' & Hin')]; [by exists (negb side), r, l|].
    assert (r = r') as -> by (by eapply (wo_own _ Hw)). destruct (wo_place _ Hw _ _ _ _ _ _ _ Hp Hp Hb Hr') as [_ E]. by destruct side.
  - destruct (Honly q u Hq) as [-> _]; [by exists b, r, l|]. done.
Qed.

Lemma orphan_micro w w' c : world_ok w -> micro w w' -> orphan w c -> orphan w' c.
Proof.
  intros Hw Hm [[Hlt Hcl] Hno]. destruct Hm as [id now ca f Hid|p s t Hp [_ Hk] _|l|id|side p s t leg socks Hp Hid Hside Hother _ Hc].
  - split; [by split|]. intros q u Hq. cbn in Hq. apply lookup_insert_Some in Hq as [[<- <-]|[_ Hq]]; [|by apply (Hno q u)].
    intros (b & r & l & Hb & _). by destruct b.
  - split; [by split|]. intros q u Hq. cbn in Hq. apply lookup_insert_Some in Hq as [[<- <-]|[_ Hq]]; [|by apply (Hno q u)].
    intros Hu. apply (Hno p s Hp). eapply (uses_same _ (w <| w_registry ::= write p t |>)); [reflexivity| |exact Hu]. intros b. apply Hk.
  - split; [by split|]. exact Hno.
  - destruct w as [sr socks n]. unfold set_field, set_w_registry. cbn [w_registry next_socket sockets] in *. unfold removeSessionLocked, deref.
    destruct (sessions sr !! id) as [p|] eqn:Hs; [|by split]. destruct (mem sr !! p) as [s|] eqn:Hp; [|by split].
    split; [split; [done|]|exact Hno]. cbn. intros [?|Hx]%elem_of_app; [done|]. apply (Hno p s Hp).
    apply elem_of_app in Hx as [Hx|Hx]; unfold leg_conns in Hx.
    + destruct (CallerLeg s) as [q|] eqn:Eq; cbn in Hx; [|by apply elem_of_nil in Hx]. destruct (legs sr !! q) as [l|] eqn:El; cbn in Hx; [|by apply elem_of_nil in Hx].
      by exists true, q, l.
    + destruct (CalleeLeg s) as [q|] eqn:Eq; cbn in Hx; [|by apply elem_of_nil in Hx]. destruct (legs sr !! q) as [l|] eqn:El; cbn in Hx; [|by apply elem_of_nil in Hx].
      by exists false, q, l.
  - apply (orphan_leg w side p s); try done. intros q u Hq Hu. by destruct (Hno q u Hq).
Qed.
Lemma orphan_micros w w' c : world_ok w -> rtc micro w w' -> orphan w c -> orphan w' c.
Proof.
  intros Hw H. revert Hw. induction H as [|w w1 w2 Hm _ IH]; [done|]. intros Hw Ho.
  apply IH; [by eapply micro_ok|by eapply orphan_micro].
Qed.
Lemma orphan_steps cfg w w' c : world_ok w -> rtc (world_step cfg) w w' -> orphan w c -> orphan w' c.
Proof.
  intros Hw H. revert Hw. induction H as [|w w1 w2 Hs _ IH]; [done|]. intros Hw Ho. pose proof (world_step_micro _ _ _ Hw Hs) as Hm.
  apply IH; [by eapply micros_ok|by eapply orphan_micros].
Qed.

(** The sockets of a registered session are used by it alone. *)
Lemma uses_only w p s side q l c : world_ok w -> mem (w_registry w) !! p = Some s -> side_leg side s = Some q ->
  legs (w_registry w) !! q = Some l -> c ∈ conns_of l ->
  forall r u, mem (w_registry w) !! r = Some u -> uses w u c -> r = p /\ exists q l, side_leg side s = Some q /\ legs (w_registry w) !! q = Some l /\ c ∈ conns_of l.
Proof.
  intros Hw Hp Hq Hl Hc r u Hu (b & q' & l' & Hb & Hl' & Hc'). assert (q' = q) as -> by (by eapply (wo_own _ Hw)).
  destruct (wo_place _ Hw _ _ _ _ _ _ _ Hp Hu Hq Hb) as [<- _]. split; [done|]. by exists q, l.
Qed.

(** ** Lemmas: legs under their labels *)

(** A leg that a session lists under a label has that label, and is the leg of
    a side of no other session. *)
Record labels_ok (w : world) : Prop := {
  la_leg : forall p s label q, mem (w_registry w) !! p = Some s -> Legs s !! label = Some q ->
             exists l, legs (w_registry w) !! q = Some l /\ leg_Label l = label;
  la_home : forall p1 p2 s1 s2 label b q, mem (w_registry w) !! p1 = Some s1 -> mem (w_registry w) !! p2 = Some s2 ->
             Legs s1 !! label = Some q -> side_leg b s2 = Some q -> p1 = p2
}.

Lemma labels_ok_new ttl : labels_ok (new_world ttl).
Proof. split; cbn; intros *; by rewrite lookup_empty. Qed.

(** Sessions that have the legs they had. *)
Lemma labels_frame w w' : legs (w_registry w') = legs (w_registry w) -> labels_ok w ->
  (forall q u, mem (w_registry w') !! q = Some u ->
     (Legs u = ∅ /\ forall b, side_leg b u = None) \/
     exists v, mem (w_registry w) !! q = Some v /\ Legs u = Legs v /\ forall b, side_leg b u = side_leg b v) -> labels_ok w'.
Proof.
  intros Hl [H1 H2] Hm. split.
  - intros p s label q [[E _]|(v & Hv & E & _)]%Hm; rewrite E, ?lookup_empty; [done|]. rewrite Hl. by apply (H1 p v).
  - intros p1 p2 s1 s2 label b q [[E1 _]|(v1 & Hv1 & E1 & _)]%Hm [[_ E2]|(v2 & Hv2 & _ & E2)]%Hm; rewrite E1, E2, ?lookup_empty; try done. by eapply H2.
Qed.

Lemma labels_leg w side p s t leg socks : world_ok w -> labels_ok w -> mem (w_registry w) !! p = Some s ->
  side_leg side t = Some (next (w_registry w)) -> side_leg (negb side) t = side_leg (negb side) s ->
  (Legs t = Legs s \/ Legs t = <[leg_Label leg := next (w_registry w)]> (Legs s)) -> labels_ok (placed side p t leg socks w).
Proof.
  intros Hw [H1 H2] Hp Hside Hother HL. destruct w as [sr sk n]. cbn in *. set (nx := next sr) in *.
  assert (forall r u label q, <[p := t]> (mem sr) !! r = Some u -> Legs u !! label = Some q ->
    (r = p /\ q = nx /\ label = leg_Label leg) \/ exists v, mem sr !! r = Some v /\ Legs v !! label = Some q /\ q <> nx) as HLegs.
  { assert (forall r v label q, mem sr !! r = Some v -> Legs v !! label = Some q -> q <> nx) as Hne.
    { intros r v label q Hr Hq ->. destruct (H1 _ _ _ _ Hr Hq) as (l & Hl & _). pose proof (wo_leg _ Hw _ _ Hl) as E. cbn in E. unfold nx in E. lia. }
    intros r u label q [[<- <-]|[_ Hr]]%lookup_insert_Some; [|right; eauto 6].
    destruct HL as [->| ->]; [right; eauto 6|]. intros [[<- <-]|[_ Hq]]%lookup_insert_Some; [by left|right; eauto 6]. }
  assert (forall r u b q, <[p := t]> (mem sr) !! r = Some u -> side_leg b u = Some q ->
    (r = p /\ q = nx) \/ exists v, mem sr !! r = Some v /\ side_leg b v = Some q /\ q <> nx) as HSide.
  { assert (forall r v b q, mem sr !! r = Some v -> side_leg b v = Some q -> q <> nx) as Hne.
    { intros r v b q Hr Hq ->. pose proof (wo_placed _ Hw _ _ _ _ Hr Hq) as E. cbn in E. unfold nx in E. lia. }
    intros r u b q [[<- <-]|[_ Hr]]%lookup_insert_Some Hb; [|right; eauto 6]. destruct (decide (b = side)) as [->|Hbs]; [left; split; congruence|].
    assert (b = negb side) as -> by (destruct b, side; done). rewrite Hother in Hb. right; eauto 6. }
  split; cbn.
  - intros r u label q Hr Hq. destruct (HLegs _ _ _ _ Hr Hq) as [(_ & -> & ->)|(v & Hv & Hq' & Hne)]; [exists leg; by rewrite lookup_insert_eq|].
    rewrite lookup_insert_ne by done. by eapply H1.
  - intros r1 r2 u1 u2 label b q Hr1 Hr2 Hq Hb.
    destruct (HLegs _ _ _ _ Hr1 Hq) as [(-> & -> & _)|(v1 & Hv1 & Hq1 & Hn1)], (HSide _ _ _ _ Hr2 Hb) as [(-> & E)|(v2 & Hv2 & Hb2 & Hn2)]; try done. by eapply H2.
Qed.

Lemma labels_micro w w' : world_ok w -> micro w w' -> labels_ok w -> labels_ok w'.
Proof.
  intros Hw Hm HL. destruct Hm as [id now ca f Hid|p s t Hp [_ Hk] HLt|l|id|side p s t leg socks Hp Hid Hside Hother HLt Hc].
  - apply (labels_frame w); [done|done|]. intros q u Hq. cbn in Hq. apply lookup_insert_Some in Hq as [[_ <-]|[_ Hq]]; [left; split; [done|by intros []]|right; by exists u].
  - apply (labels_frame w); [done|done|]. intros q u Hq. cbn in Hq. apply lookup_insert_Some in Hq as [[<- <-]|[_ Hq]]; right; [by exists s|by exists u].
  - apply (labels_frame w); [done|done|]. intros q u Hq. by right; exists u.
  - destruct w as [sr socks n]. unfold set_field, set_w_registry. cbn [w_registry next_socket sockets] in *. unfold removeSessionLocked, deref.
    destruct (sessions sr !! id) as [p|]; [|done]. destruct (mem sr !! p); [|done]. apply (labels_frame (mkWorld sr socks n)); [done|done|].
    intros q u Hq. right. by exists u.
  - by eapply labels_leg.
Qed.
Lemma labels_micros w w' : world_ok w -> rtc micro w w' -> labels_ok w -> labels_ok w'.
Proof. intros Hw H. revert Hw. induction H as [|w w1 w2 Hm _ IH]; [done|]. intros Hw HL. apply IH; [by eapply micro_ok|by eapply labels_micro]. Qed.
Lemma calls_labels cfg ttl w : running cfg ttl w -> labels_ok w.
Proof.
  unfold running. intros H. assert (forall w1, world_ok w1 -> labels_ok w1 -> rtc (world_step cfg) w1 w -> labels_ok w) as G;
    [|eapply G; [apply world_ok_new|apply labels_ok_new|exact H]].
  intros w1 H1 H2. clear H. induction 1 as [|w1 w2 w3 Hs _ IH]; [done|]. pose proof (world_step_micro _ _ _ H1 Hs) as Hm.
  apply IH; [by eapply micros_ok|by eapply labels_micros].
Qed.

(** A bound socket that no session leads to. *)
Definition unreached (w : world) (c : nat) : Prop :=
  (c < next_socket w)%nat /\ forall p s, mem (w_registry w) !! p = Some s -> ~ reaches w s c.

Lemma reaches_same w w' s t c : legs (w_registry w') = legs (w_registry w) -> (forall b, side_leg b t = side_leg b s) -> Legs t = Legs s ->
  reaches w' t c -> reaches w s c.
Proof.
  intros Hl Hb HL (q & l & Hq & Hq' & Hc). rewrite Hl in Hq'. exists q, l. split; [|done].
  destruct Hq as [[b Hq]|[label Hq]]; [left; exists b; by rewrite <- Hb|right; exists label; by rewrite <- HL].
Qed.

Lemma unreached_leg w side p s t leg socks c : mem (w_registry w) !! p = Some s ->
  side_leg side t = Some (next (w_registry w)) -> side_leg (negb side) t = side_leg (negb side) s ->
  (Legs t = Legs s \/ Legs t = <[leg_Label leg := next (w_registry w)]> (Legs s)) ->
  conns_of leg = [next_socket w; S (next_socket w)] -> unreached w c -> unreached (placed side p t leg socks w) c.
Proof.
  intros Hp Hside Hother HL Hc [Hlt Hno]. destruct w as [sr sk n]. cbn in *. split; [cbn; lia|].
  intros r u Hr (q & l & Hq & Hl & Hin). cbn in Hr, Hl. apply lookup_insert_Some in Hl as [[<- <-]|[Hne Hl]].
  { rewrite Hc in Hin. apply elem_of_cons in Hin as [->|Hin]; [lia|]. apply list_elem_of_singleton in Hin. lia. }
  apply lookup_insert_Some in Hr as [[<- <-]|[_ Hr]]; [|apply (Hno r u Hr); by exists q, l].
  apply (Hno p s Hp). exists q, l. split; [|done]. destruct Hq as [[b Hb]|[label Hq]].
  - destruct (decide (b = side)) as [->|Hbs]; [congruence|]. left. exists b. assert (b = negb side) as -> by (destruct b, side; done). by rewrite <- Hother.
  - right. exists label. destruct HL as [E|E]; rewrite E in Hq; [done|]. apply lookup_insert_Some in Hq as [[_ E']|[_ Hq]]; done.
Qed.

Lemma unreached_micro w w' c : micro w w' -> unreached w c -> unreached w' c.
Proof.
  intros Hm Hu. pose proof Hu as [Hlt Hno]. destruct Hm as [id now ca f Hid|p s t Hp [_ Hk] HLt|l|id|side p s t leg socks Hp Hid Hside Hother HLt Hc].
  - split; [done|]. intros q u Hq. cbn in Hq. apply lookup_insert_Some in Hq as [[_ <-]|[_ Hq]]; [|by apply (Hno q u)].
    intros (r & l & [[[] Hr]|[label Hr]] & _); cbn in Hr; done.
  - split; [done|]. intros q u Hq. cbn in Hq. apply lookup_insert_Some in Hq as [[_ <-]|[_ Hq]]; [|by apply (Hno q u)].
    intros Hr. apply (Hno p s Hp). by eapply (reaches_same w (w <| w_registry ::= write p t |>)).
  - done.
  - destruct w as [sr socks n]. unfold set_field, set_w_registry. cbn [w_registry next_socket sockets] in *. unfold removeSessionLocked, deref.
    destruct (sessions sr !! id) as [p|]; [|done]. by destruct (mem sr !! p).
  - by apply (unreached_leg w side p s).
Qed.
Lemma unreached_micros w w' c : rtc micro w w' -> unreached w c -> unreached w' c.
Proof. induction 1 as [|w w1 w2 Hm _ IH]; [done|]. intros Hu. by eapply IH, unreached_micro. Qed.
Lemma unreached_steps cfg w w' c : world_ok w -> rtc (world_step cfg) w w' -> unreached w c -> unreached w' c.
Proof.
  intros Hw H. revert Hw. induction H as [|w w1 w2 Hs _ IH]; [done|]. intros Hw Hu. pose proof (world_step_micro _ _ _ Hw Hs) as Hm.
  apply IH; [by eapply micros_ok|by eapply unreached_micros].
Qed.

(** The sockets of a caller's leg that is replaced under its own label. *)
Lemma replaced_unreached w p s q l c now label leg socks : world_ok w -> labels_ok w -> label <> [] ->
  mem (w_registry w) !! p = Some s -> CallerLeg s = Some q -> legs (w_registry w) !! q = Some l -> c ∈ conns_of l -> leg_Label l = str label ->
  conns_of leg = [next_socket w; S (next_socket w)] ->
  unreached (mkWorld (stored true now p label leg s (w_registry w)) socks (S (S (next_socket w)))) c.
Proof.
  intros Hw HL Hlab Hp Hq Hl Hin Hll Hc. destruct w as [sr sk n]. pose proof (wo_conn _ Hw _ _ _ Hl Hin) as Hlt. pose proof (wo_leg _ Hw _ _ Hl) as Hqlt. cbn in *.
  split; [cbn; lia|]. intros r u Hr (q' & l' & Hq' & Hl' & Hin'). cbn in Hr, Hl'.
  assert (forall x, x ∈ conns_of (labelled label leg) -> (n <= x)%nat) as Hnew.
  { intros x. unfold labelled. rewrite bool_decide_false by done. change (conns_of (leg <| leg_Label := str label |>)) with (conns_of leg). rewrite Hc.
    intros [->|Hx]%elem_of_cons; [lia|]. apply list_elem_of_singleton in Hx. lia. }
  apply lookup_insert_Some in Hl' as [[<- <-]|[Hne Hl']]; [apply Hnew in Hin'; lia|]. assert (q' = q) as -> by (by eapply (wo_own _ Hw)).
  apply lookup_insert_Some in Hr as [[<- <-]|[Hnr Hr]].
  - unfold seated in Hq'. rewrite bool_decide_false in Hq' by done. destruct Hq' as [[[] Hb]|[label' Hb]]; cbn in Hb; [congruence| |].
    + destruct (wo_place _ Hw _ _ _ _ true false _ Hp Hp Hq Hb) as [_ ?]. done.
    + apply lookup_insert_Some in Hb as [[_ ?]|[Hnl Hb]]; [congruence|]. destruct (la_leg _ HL _ _ _ _ Hp Hb) as (l2 & Hl2 & E). cbn in Hl2. congruence.
  - destruct Hq' as [[b Hb]|[label' Hb]].
    + destruct (wo_place _ Hw _ _ _ _ true b _ Hp Hr Hq Hb) as [? _]. congruence.
    + pose proof (la_home _ HL _ _ _ _ _ true _ Hr Hp Hb Hq). congruence.
Qed.

(** ** Lemmas: the end of a command *)

(** The session at [p] is another one, of which [P] holds, and nothing else changed. *)
Definition rewrites (p : loc) (sr sr' : SessionRegistry) (P : MediaSession -> Prop) : Prop :=
  exists t, sr' = write p t sr /\ P t.
Definition same_state (s t : MediaSession) : Prop := same_tags s t /\ State t = State s.
Lemma same_state_trans s t u : same_state s t -> same_state t u -> same_state s u.
Proof. intros [H1 E1] [H2 E2]. split; [by eapply same_tags_trans|congruence]. Qed.

Lemma touch_state p f sr sr' s : (forall s, same_state s (f s)) -> rewrites p sr sr' (same_state s) -> rewrites p sr (modify p f sr') (same_state s).
Proof. intros Hf (t & -> & Ht). exists (f t). split; [apply modify_write|]. by eapply same_state_trans. Qed.

Lemma write_same p s sr : mem sr !! p = Some s -> write p s sr = sr.
Proof. intros Hp. destruct sr. unfold write, set_field, set_mem. cbn in *. f_equal. by apply insert_id. Qed.

Ltac state_step := intros ?; split; [tag_step|reflexivity].

Lemma offer_store_eq p req flags sr s : mem sr !! p = Some s -> rewrites p sr (offer_store p req flags sr) (same_state s).
Proof.
  intros Hp. unfold offer_store. cbv zeta.
  assert (rewrites p sr sr (same_state s)) as H0 by (exists s; split; [by rewrite write_same|by split; [apply same_tags_refl|]]).
  assert (forall k v sr', rewrites p sr sr' (same_state s) -> rewrites p sr (SetMetadata p k v sr') (same_state s)) as Hm
    by (intros k v sr' H; apply touch_state; [state_step|exact H]).
  assert (forall k v sr', rewrites p sr sr' (same_state s) -> rewrites p sr (SetFlag p k v sr') (same_state s)) as Hf
    by (intros k v sr' H; apply touch_state; [state_step|exact H]).
  assert (forall k (v : bytes) sr', rewrites p sr sr' (same_state s) ->
            rewrites p sr (if bool_decide (v = []) then sr' else SetMetadata p k (str v) sr') (same_state s)) as Hi
    by (intros k v sr' H; case_bool_decide; [exact H|by apply Hm]).
  assert (forall (b : bool) sr1 sr2, rewrites p sr sr1 (same_state s) -> rewrites p sr sr2 (same_state s) ->
            rewrites p sr (if b then sr1 else sr2) (same_state s)) as Hb by (intros []; done).
  case_bool_decide; [|apply touch_state; [state_step|]].
  all: apply Hb; [|by apply Hb; [apply Hf|]; (apply Hb; [apply Hi, Hi, Hm, Hf|])].
  all: generalize (default [] (RecordingMetadata flags)); intros l.
  all: match goal with |- rewrites _ _ (foldl _ ?sr1 _) _ => assert (rewrites p sr sr1 (same_state s)) as H1 end.
  1,3: by apply Hb; [apply Hf|]; (apply Hb; [apply Hi, Hi, Hm, Hf|]).
  all: revert H1; match goal with |- rewrites _ _ ?sr1 _ -> _ => generalize sr1 end.
  all: induction l as [|kv l IH]; intros sr1 H1; [exact H1|]; cbn [foldl]; apply IH, Hm, H1.
Qed.

Lemma answer_store_eq now p req flags sr s : live sr p s ->
  exists t, answer_store now p req flags sr = write p t sr /\ keeps s t /\ State t = SessionStateActive /\
    ToTag t = if bool_decide (req_ToTag req = []) then ToTag s else str (req_ToTag req).
Proof.
  intros Hl. unfold answer_store. cbv zeta. replace (session_id sr p) with (ID s) by (destruct Hl as [Hp _]; unfold session_id, deref; by rewrite Hp).
  rewrite (UpdateSessionState_eq _ _ _ _ p s Hl eq_refl). cbn [snd]. cbv zeta.
  rewrite (bool_decide_eq_false_2 (SessionStateActive = SessionStateTerminated)) by done. cbn [andb].
  set (s1 := updated now SessionStateActive s). assert (keeps s s1 /\ State s1 = SessionStateActive /\ ToTag s1 = ToTag s) as ([Hk1 Hk2] & Hst & Hto)
    by (split_and!; [apply updated_keeps|apply updated_fields|apply updated_fields]).
  set (s2 := if bool_decide (req_ToTag req = []) then s1 else s1 <| ToTag := str (req_ToTag req) |>).
  replace (if bool_decide (req_ToTag req = []) then write p s1 sr else modify p _ (write p s1 sr)) with (write p s2 sr)
    by (unfold s2; case_bool_decide; [done|by rewrite modify_write]).
  assert (keeps s s2 /\ State s2 = SessionStateActive /\ ToTag s2 = if bool_decide (req_ToTag req = []) then ToTag s else str (req_ToTag req)) as H2.
  { unfold s2. case_bool_decide; [done|]. split_and!; [|done|done]. destruct Hk1 as (? & ? & ? & ?). split; [by repeat split|].
    intros []; [apply (Hk2 true)|apply (Hk2 false)]. }
  match goal with |- context [if ?b then SetFlag _ _ _ _ else _] => destruct b end; [|by exists s2].
  exists (s2 <| Flags ::= <["record" := true]> |>). split; [apply modify_write|]. destruct H2 as ([(? & ? & ? & ?) Hs] & ? & ?).
  split_and!; [|done|done]. split; [by repeat split|]. intros []; [apply (Hs true)|apply (Hs false)].
Qed.

(** The response of a command that set up its leg. *)
Definition accepted (req : NGRequest) (toTag sdp : bytes) (streams : list StreamInfo) : NGResponse :=
  mkNGResponse ResultOK [] sdp (req_CallID req) (req_FromTag req) toTag streams None 0 0 [] [] [].

(** What a command that was accepted leaves behind. *)
Record set_up (caller : bool) (p : loc) (s t : MediaSession) (leg : CallLeg) (ip : bytes) (rtp rtcp : Z) (w : world) (sr : SessionRegistry) (w' : world) : Prop := {
  su_live : live (w_registry w') p t;
  su_call : CallID t = CallID s;
  su_from : FromTag t = FromTag s;
  su_leg : side_leg caller t = Some (next sr);
  su_other : side_leg (negb caller) t = side_leg (negb caller) s;
  su_legs : legs (w_registry w') = <[next sr := leg]> (legs sr);
  su_index : GetSessionByCallID (CallID s) (w_registry w') = GetSessionByCallID (CallID s) sr;
  su_sessions : sessions (w_registry w') = sessions sr;
  su_closed : closedConns (w_registry w') = closedConns sr;
  su_sockets : sockets w' = with_ports w ip rtp rtcp;
  su_next : next_socket w' = S (S (next_socket w))
}.

Lemma offer_success cfg e req w parsed rtp rtcp :
  let flags := ParseFlags (req_Flags req) in
  let ip := offer_selectMediaIP cfg flags req in
  let label := leg_label (req_FromTag req) flags in
  let leg := offer_leg req label ip (rtp, rtcp, next_socket w, S (next_socket w)) parsed flags in
  world_ok w -> sessions (w_registry w) !! e_uuid e = None -> complete req -> Parse (E := bytes) (req_SDP req) = Ok parsed ->
  (AllocateMediaPorts (e_listen e ip) (port_range cfg).1 (port_range cfg).2).1 = Ok (rtp, rtcp) ->
  exists s t w', live (offer_session e req (w_registry w)).2 (offer_session e req (w_registry w)).1 s /\
    CallID s = str (req_CallID req) /\ FromTag s = str (req_FromTag req) /\ ToTag t = ToTag s /\ State t = SessionStatePending /\
    offer_Handle cfg e req w = (Ok (accepted req [] (offer_buildModifiedSDP parsed ip rtp flags) (offer_buildStreamInfo leg ip rtp rtcp flags parsed)), w') /\
    set_up true (offer_session e req (w_registry w)).1 s t (labelled label leg) ip rtp rtcp w (offer_session e req (w_registry w)).2 w'.
Proof.
  intros flags ip label leg Hw Hid Hc Hparse Hports.
  destruct (offer_session_live e req w Hw Hid) as (s & Hl & Hcall & Hfrom & _). pose proof (offer_Handle_eq cfg e req w s Hc) as Heq.
  pose proof (offer_world_facts e req w s Hw Hid) as Hf. assert (sockets (offer_world e req s w) = sockets w) as Hsk by (unfold offer_world; by destruct (offer_session _ _ _)).
  assert (w_registry (offer_world e req s w) = write (offer_session e req (w_registry w)).1 (updated (e_now e) SessionStatePending (flagged flags s)) (offer_session e req (w_registry w)).2) as Hreg
    by (unfold offer_world; by destruct (offer_session _ _ _)).
  destruct (offer_session e req (w_registry w)) as [p sr]. cbn [fst snd] in *. destruct (Hf Hl) as (Hlt & Ht & _ & Hn).
  set (t1 := updated _ _ _) in *. set (w1 := offer_world e req s w) in *. rewrite (Heq Hl). cbv zeta. fold flags.
  rewrite (processOffer_ok cfg e p req flags w1 t1 parsed rtp rtcp Hlt Hparse Hports). fold ip label. rewrite Hn. fold leg.
  set (sr2 := stored true (e_now e) p label leg t1 (w_registry w1)). set (t2 := seated true (e_now e) label (next (w_registry w1)) (leg_Tag leg) t1).
  assert (mem sr2 !! p = Some t2) as Hp2 by (unfold sr2, stored; cbn; apply lookup_insert_eq).
  destruct (offer_store_eq p req flags sr2 t2 Hp2) as (t & Hst & [[[(I1 & I2 & I3 & _) Hside] Hto] Hstate]).
  destruct Ht as [[(J1 & J2 & J3 & _) Hk] Hto1]. assert (next (w_registry w1) = next sr) as Hnext by by rewrite Hreg.
  assert (State t2 = State t1 /\ ToTag t2 = ToTag t1 /\ ID t2 = ID t1 /\ CallID t2 = CallID t1 /\ FromTag t2 = FromTag t1 /\ CalleeLeg t2 = CalleeLeg t1 /\ CallerLeg t2 = Some (next sr)) as (E1 & E2 & E3 & E4 & E5 & E6 & E7)
    by (destruct (seated_fields true (e_now e) label (next (w_registry w1)) (leg_Tag leg) t1) as (F1 & F2 & F3 & F4 & F5 & F6 & F7); rewrite <- Hnext; done).
  exists s, t. eexists. split_and!; [done|done|done|congruence|rewrite Hstate, E1; apply updated_fields|reflexivity|].
  unfold set_field, set_w_registry. cbn [w_registry sockets next_socket]. rewrite Hst. unfold sr2, stored. rewrite Hreg. split; cbn.
  - split; cbn; [apply lookup_insert_eq|]. rewrite I1, E3, J1. apply Hl.
  - congruence.
  - congruence.
  - rewrite <- E7. exact (Hside true).
  - etrans; [exact (Hside false)|]. cbn. rewrite E6. exact (Hk false).
  - reflexivity.
  - reflexivity.
  - reflexivity.
  - reflexivity.
  - unfold with_ports. by rewrite Hn, Hsk.
  - reflexivity.
Qed.

Lemma answer_success cfg e req w p s parsed rtp rtcp :
  let flags := ParseFlags (req_Flags req) in
  let ip := answer_selectMediaIP cfg flags req in
  let label := leg_label (req_ToTag req) flags in
  let leg := answer_leg req label ip (rtp, rtcp, next_socket w, S (next_socket w)) parsed flags in
  world_ok w -> complete req -> answer_findSession req flags (w_registry w) = Some p -> live (w_registry w) p s ->
  Parse (E := bytes) (req_SDP req) = Ok parsed ->
  (AllocateMediaPorts (e_listen e ip) (port_range cfg).1 (port_range cfg).2).1 = Ok (rtp, rtcp) ->
  exists t w', ToTag t = str (req_ToTag req) /\ State t = SessionStateActive /\
    answer_Handle cfg e req w = (Ok (accepted req (req_ToTag req) (answer_buildModifiedSDP parsed ip rtp flags) (answer_buildStreamInfo leg ip rtp rtcp flags parsed)), w') /\
    set_up false p s t (labelled label leg) ip rtp rtcp w (w_registry w) w'.
Proof.
  intros flags ip label leg Hw Hc Hfind Hl Hparse Hports. rewrite (answer_Handle_eq cfg e req w p s Hc Hfind Hl). cbv zeta. fold flags.
  destruct (answer_world_facts p req w s Hl) as (Hlt & [[(J1 & J2 & J3 & _) Hk] _] & _). set (t1 := base_flags _ _) in *. set (w1 := answer_world p req s w) in *.
  rewrite (processAnswer_ok cfg e p req flags w1 t1 parsed rtp rtcp Hlt Hparse Hports). fold ip label. change (next_socket w1) with (next_socket w). fold leg.
  set (sr2 := stored false (e_now e) p label leg t1 (w_registry w1)). set (t2 := seated false (e_now e) label (next (w_registry w1)) (leg_Tag leg) t1).
  assert (leg_Tag leg = str (req_ToTag req)) as Htag by (unfold leg, answer_leg, make_leg; destruct (remote_address parsed) as [[? ?]|]; done).
  assert (ToTag t2 = leg_Tag leg /\ ID t2 = ID t1 /\ CallID t2 = CallID t1 /\ FromTag t2 = FromTag t1 /\ CalleeLeg t2 = Some (next (w_registry w)) /\ CallerLeg t2 = CallerLeg t1)
    as (E2 & E3 & E4 & E5 & E6 & E7)
    by (destruct (seated_fields false (e_now e) label (next (w_registry w1)) (leg_Tag leg) t1) as (F1 & F2 & F3 & F4 & F5 & F6 & F7); done).
  assert (live sr2 p t2) as Hl2. { split; unfold sr2, stored; cbn; [apply lookup_insert_eq|]. fold t2. rewrite E3, J1. apply Hl. }
  destruct (answer_store_eq (e_now e) p req flags sr2 t2 Hl2) as (t & Hst & [(I1 & I2 & I3 & _) Hside] & Hstate & Hto).
  exists t. eexists. split_and!; [rewrite Hto; case_bool_decide; congruence|done|reflexivity|].
  unfold set_field, set_w_registry. cbn [w_registry sockets next_socket]. rewrite Hst. unfold sr2, stored. split; cbn.
  - split; cbn; [apply lookup_insert_eq|]. rewrite I1, E3, J1. apply Hl.
  - congruence.
  - congruence.
  - rewrite <- E6. exact (Hside false).
  - etrans; [exact (Hside true)|]. cbn. rewrite E7. exact (Hk true).
  - reflexivity.
  - reflexivity.
  - reflexivity.
  - reflexivity.
  - reflexivity.
  - reflexivity.
Qed.

(** ** Guarantees: a call is set up *)

(** A leg with its own pair of open sockets, bound to the ports it is known by. *)
Definition bound_leg (w : world) (l : CallLeg) (ip : bytes) (rtp rtcp : Z) : Prop :=
  leg_LocalPort l = rtp /\ leg_LocalRTCPPort l = rtcp /\
  exists c d, conns_of l = [c; d] /\ sockets w !! c = Some (ip, rtp) /\ sockets w !! d = Some (ip, rtcp) /\ opened w c /\ opened w d.
(** Media goes where the description said, if it did. *)
Definition sends_to (parsed : ParsedSDP) (l : CallLeg) : Prop :=
  match remote_address parsed with Some (ip, port) => leg_IP l = ip /\ leg_Port l = port | None => leg_Port l = 0 end.

Lemma bound_new w ip rtp rtcp w' l : world_ok w -> sockets w' = with_ports w ip rtp rtcp -> next_socket w' = S (S (next_socket w)) ->
  closedConns (w_registry w') = closedConns (w_registry w) -> leg_LocalPort l = rtp -> leg_LocalRTCPPort l = rtcp ->
  conns_of l = [next_socket w; S (next_socket w)] -> bound_leg w' l ip rtp rtcp.
Proof.
  intros Hw Hs Hn Hc H1 H2 Hl. split_and!; [done..|]. exists (next_socket w), (S (next_socket w)). rewrite Hs. unfold with_ports, opened. rewrite Hn, Hc.
  split_and!; [done|rewrite lookup_insert_ne by lia; apply lookup_insert_eq|apply lookup_insert_eq|lia| |lia|];
    intros Hin; apply (wo_closed _ Hw) in Hin; lia.
Qed.

(** A leg that is left alone keeps its sockets. *)
Lemma bound_kept w ip rtp rtcp ip' rtp' rtcp' w' l : bound_leg w l ip' rtp' rtcp' -> sockets w' = with_ports w ip rtp rtcp ->
  next_socket w' = S (S (next_socket w)) -> closedConns (w_registry w') = closedConns (w_registry w) -> bound_leg w' l ip' rtp' rtcp'.
Proof.
  intros (H1 & H2 & c & d & Hl & Hc & Hd & [Lc Oc] & [Ld Od]) Hs Hn Hcl. split_and!; [done..|]. exists c, d. rewrite Hs. unfold with_ports, opened. rewrite Hn, Hcl.
  split_and!; [done|..]; rewrite ?lookup_insert_ne by lia; (done || lia).
Qed.

Lemma leg_fields caller req label ip rtp rtcp c d parsed flags :
  let l := labelled label (answer_leg_of caller req label ip (rtp, rtcp, c, d) parsed flags) in
  leg_LocalPort l = rtp /\ leg_LocalRTCPPort l = rtcp /\ conns_of l = [c; d] /\ sends_to parsed l /\ leg_Label l = str label.
Proof.
  unfold labelled, sends_to. destruct caller; cbn [answer_leg_of]; unfold offer_leg, answer_leg; destruct (remote_address parsed) as [[? ?]|];
    case_bool_decide; split_and!; by subst.
Qed.

Lemma closed_create e req sr : closedConns (offer_session e req sr).2 = closedConns sr /\ legs (offer_session e req sr).2 = legs sr.
Proof. unfold offer_session. by destruct (GetSessionByTags _ _ _ _). Qed.

(** The one session of a call is found by the answer. *)
Lemma find_only req flags sr p t : GetSessionByCallID (str (req_CallID req)) sr = [p] -> mem sr !! p = Some t -> FromTag t = str (req_FromTag req) ->
  pf_str flags ToLabel = [] -> answer_findSession req flags sr = Some p.
Proof.
  intros Hcall Hp Hfrom Hlabel. unfold answer_findSession, GetSessionByTags. cbv zeta. rewrite Hcall, Hlabel, bool_decide_eq_true_2 by done.
  rewrite (filter_cons (fun q => tags_match _ _ sr q = true)). case_decide; [done|].
  rewrite (filter_cons (fun q => (FromTag <$> deref sr q) = _)). case_decide as H1; [done|]. destruct H1. unfold deref. by rewrite Hp, <- Hfrom.
Qed.

(** C2: a call comes about. For a Call-ID the registry does not know, an offer and
    then an answer with its Call-ID and from-tag and no to-label, the offer with a
    session id not in use, each with a
    description the parser reads and a pair of ports the system grants, are both
    accepted with a description that names the granted port; after them there is
    one session for the call, active and with the answer's tag, whose caller and
    callee legs send where the two descriptions said, each with its own pair of
    open sockets that are bound to its ports. (For a call that has a session
    already the answer may find another one: [GetSessionByTags] takes the first
    that fits.) *)
Theorem call_established cfg ttl w e1 req1 e2 req2 parsed1 parsed2 rtp1 rtcp1 rtp2 rtcp2 :
  let flags1 := ParseFlags (req_Flags req1) in
  let flags2 := ParseFlags (req_Flags req2) in
  let ip1 := offer_selectMediaIP cfg flags1 req1 in
  let ip2 := answer_selectMediaIP cfg flags2 req2 in
  running cfg ttl w -> sessions (w_registry w) !! e_uuid e1 = None ->
  complete req1 -> complete req2 -> req_CallID req2 = req_CallID req1 -> req_FromTag req2 = req_FromTag req1 ->
  GetSessionByCallID (str (req_CallID req1)) (w_registry w) = [] -> pf_str flags2 ToLabel = [] ->
  Parse (E := bytes) (req_SDP req1) = Ok parsed1 -> Parse (E := bytes) (req_SDP req2) = Ok parsed2 ->
  (AllocateMediaPorts (e_listen e1 ip1) (port_range cfg).1 (port_range cfg).2).1 = Ok (rtp1, rtcp1) ->
  (AllocateMediaPorts (e_listen e2 ip2) (port_range cfg).1 (port_range cfg).2).1 = Ok (rtp2, rtcp2) ->
  exists streams1 streams2 w1 w2 p s q1 q2 l1 l2,
    offer_Handle cfg e1 req1 w = (Ok (accepted req1 [] (offer_buildModifiedSDP parsed1 ip1 rtp1 flags1) streams1), w1) /\
    answer_Handle cfg e2 req2 w1 = (Ok (accepted req2 (req_ToTag req2) (answer_buildModifiedSDP parsed2 ip2 rtp2 flags2) streams2), w2) /\
    GetSessionByCallID (str (req_CallID req1)) (w_registry w2) = [p] /\ live (w_registry w2) p s /\
    State s = SessionStateActive /\ FromTag s = str (req_FromTag req1) /\ ToTag s = str (req_ToTag req2) /\
    CallerLeg s = Some q1 /\ legs (w_registry w2) !! q1 = Some l1 /\ sends_to parsed1 l1 /\ bound_leg w2 l1 ip1 rtp1 rtcp1 /\
    CalleeLeg s = Some q2 /\ legs (w_registry w2) !! q2 = Some l2 /\ sends_to parsed2 l2 /\ bound_leg w2 l2 ip2 rtp2 rtcp2 /\
    conns_of l1 ## conns_of l2.
Proof.
  intros flags1 flags2 ip1 ip2 Hrun Hid Hc1 Hc2 Ecall Efrom Hnone Hlabel Hp1 Hp2 Ha1 Ha2. pose proof (calls_ok _ _ _ Hrun) as Hw.
  destruct (offer_success cfg e1 req1 w parsed1 rtp1 rtcp1 Hw Hid Hc1 Hp1 Ha1) as (s0 & t1 & w1 & Hl0 & Hcall & Hfrom & Hto1 & Hst1 & Hoff & Hsu1).
  assert (world_ok w1) as Hw1 by (apply (micros_ok w); [done|]; pose proof (offer_micro cfg e1 req1 w Hw Hid) as H; by rewrite Hoff in H).
  assert (offer_session e1 req1 (w_registry w) = CreateSession (e_uuid e1) (e_now e1) (str (req_CallID req1)) (str (req_FromTag req1)) (w_registry w)) as Hsess
    by (unfold offer_session, GetSessionByTags; by rewrite Hnone).
  pose proof (closed_create e1 req1 (w_registry w)) as [Hcl Hlg]. rewrite Hsess in *. cbn [fst CreateSession] in Hsu1, Hl0. set (sr := (CreateSession _ _ _ _ _).2) in *. set (p := next (w_registry w)) in *.
  destruct Hsu1 as [L1 C1 F1 G1 O1 N1 I1 _ X1 S1 M1]. assert (GetSessionByCallID (str (req_CallID req2)) (w_registry w1) = [p]) as Hof.
  { rewrite Ecall, <- Hcall, I1, Hcall. unfold sr, GetSessionByCallID, CreateSession in *. cbn. rewrite lookup_insert_eq. cbn. by rewrite Hnone. }
  assert (answer_findSession req2 flags2 (w_registry w1) = Some p) as Hfind by (eapply find_only; [done|apply L1|congruence|done]).
  destruct (answer_success cfg e2 req2 w1 p t1 parsed2 rtp2 rtcp2 Hw1 Hc2 Hfind L1 Hp2 Ha2) as (t2 & w2 & Hto2 & Hst2 & Hans & [L2 C2 F2 G2 O2 N2 I2 _ X2 S2 M2]).
  set (l1 := labelled _ _) in N1. set (l2 := labelled _ _) in N2.
  destruct (leg_fields true req1 (leg_label (req_FromTag req1) flags1) ip1 rtp1 rtcp1 (next_socket w) (S (next_socket w)) parsed1 flags1) as (A1 & A2 & A3 & A4 & _).
  destruct (leg_fields false req2 (leg_label (req_ToTag req2) flags2) ip2 rtp2 rtcp2 (next_socket w1) (S (next_socket w1)) parsed2 flags2) as (B1 & B2 & B3 & B4 & _).
  change (conns_of l1 = [next_socket w; S (next_socket w)]) in A3. change (conns_of l2 = [next_socket w1; S (next_socket w1)]) in B3.
  assert (next sr <> next (w_registry w1)) as Hne.
  { intros E. assert (legs (w_registry w1) !! next (w_registry w1) = Some l1) as H by (rewrite N1, <- E; apply lookup_insert_eq). apply (wo_leg _ Hw1) in H. lia. }
  eexists _, _, w1, w2, p, t2, (next sr), (next (w_registry w1)), l1, l2.
  split_and!; [exact Hoff|exact Hans|rewrite Ecall in Hof; congruence|done|done|congruence|done|..].
  - rewrite <- G1. exact O2.
  - rewrite N2, lookup_insert_ne by done. rewrite N1. apply lookup_insert_eq.
  - exact A4.
  - eapply bound_kept; [|exact S2|exact M2|exact X2]. eapply bound_new; [exact Hw|exact S1|exact M1|congruence|done|done|done].
  - exact G2.
  - rewrite N2. apply lookup_insert_eq.
  - exact B4.
  - eapply bound_new; [exact Hw1|exact S2|exact M2|exact X2|done|done|done].
  - rewrite A3, B3, M1. intros x Hx Hy. repeat (apply elem_of_cons in Hx as [->|Hx]); [| |by apply elem_of_nil in Hx];
      repeat (apply elem_of_cons in Hy as [?|Hy]); try lia; by apply elem_of_nil in Hy.
Qed.

(** ** Guarantees: every outcome of an offer *)

(** The system grants a pair of ports of the range. *)
Definition pair_free (cfg : Config) (e : request_env) (ip : bytes) : Prop :=
  exists k, 0 <= k /\ (port_range cfg).1 + 2 * k < (port_range cfg).2 /\
    e_listen e ip ((port_range cfg).1 + 2 * k) && e_listen e ip ((port_range cfg).1 + 2 * k + 1) = true.

Lemma ports_cases cfg e ip :
  (exists rtp rtcp, (AllocateMediaPorts (e_listen e ip) (port_range cfg).1 (port_range cfg).2).1 = Ok (rtp, rtcp) /\ pair_free cfg e ip) \/
  ((AllocateMediaPorts (e_listen e ip) (port_range cfg).1 (port_range cfg).2).1 = Err ErrNoPortPair /\ ~ pair_free cfg e ip).
Proof.
  pose proof (allocate_loop_spec (Z.to_nat ((port_range cfg).2 - (port_range cfg).1)) (e_listen e ip) (port_range cfg).1 (port_range cfg).2 [] ltac:(lia)) as H.
  unfold AllocateMediaPorts. destruct (allocate_loop _ _ _ _ _) as [[[rtp rtcp]|err| |] cl]; [left|right|done..].
  - exists rtp, rtcp. split; [done|]. destruct H as (-> & Hr & Hm & H1 & H2 & _). exists ((rtp - (port_range cfg).1) / 2).
    replace ((port_range cfg).1 + 2 * ((rtp - (port_range cfg).1) / 2)) with rtp by (pose proof (Z.div_mod (rtp - (port_range cfg).1) 2); lia).
    rewrite H1, H2. split_and!; [apply Z.div_pos; lia|lia|done].
  - destruct H as [-> H]. split; [done|]. intros (k & Hk & Hlt & Hf). by rewrite H in Hf.
Qed.

(** C11: the outcome of an offer that has its parameters is decided by its
    description and the ports: the process panics exactly when the description
    has an [a=rtcp] attribute without a port; otherwise the offer is accepted
    when some pair of the range is free, and refused with the range in the
    reason when none is. *)
Theorem offer_outcomes cfg ttl w e req :
  let flags := ParseFlags (req_Flags req) in
  let ip := offer_selectMediaIP cfg flags req in
  let bad := Exists blank_rtcp (splitBy (unify_newlines (req_SDP req)) LF) in
  running cfg ttl w -> sessions (w_registry w) !! e_uuid e = None -> complete req ->
  ((offer_Handle cfg e req w).1 = Panic <-> bad) /\
  (~ bad -> pair_free cfg e ip -> exists sdp streams, (offer_Handle cfg e req w).1 = Ok (accepted req [] sdp streams)) /\
  (~ bad -> ~ pair_free cfg e ip -> (offer_Handle cfg e req w).1 = Ok (invalid_sdp (port_error (port_range cfg).1 (port_range cfg).2))).
Proof.
  intros flags ip bad Hrun Hid Hc. pose proof (calls_ok _ _ _ Hrun) as Hw.
  destruct (Parse_panics (E := bytes) (req_SDP req)) as [[Hp Hb]|[[parsed Hp] Hb]].
  - fold bad in Hb. destruct (offer_session_live e req w Hw Hid) as (s & Hl & _). pose proof (offer_Handle_eq cfg e req w s Hc) as Heq.
    destruct (offer_session e req (w_registry w)) as [p sr]. rewrite (Heq Hl). cbv zeta. unfold processOfferSDP. rewrite Hp. by split_and!.
  - fold bad in Hb. destruct (ports_cases cfg e ip) as [(rtp & rtcp & Ha & Hf)|[Ha Hf]].
    + destruct (offer_success cfg e req w parsed rtp rtcp Hw Hid Hc Hp Ha) as (s & t & w' & _ & _ & _ & _ & _ & -> & _).
      split_and!; [split; [done|by intros ?%Hb]|eauto|done].
    + destruct (offer_session_live e req w Hw Hid) as (s & Hl & _). pose proof (offer_Handle_eq cfg e req w s Hc) as Heq.
      destruct (offer_session e req (w_registry w)) as [p sr]. rewrite (Heq Hl). cbv zeta. unfold processOfferSDP, allocate. rewrite Hp.
      destruct (port_range cfg) as [lo hi]. cbn [fst snd] in *. fold flags ip. rewrite Ha. split_and!; [split; [done|by intros ?%Hb]|done|done].
Qed.

(** ** Guarantees: a replaced leg *)


(** ** Witnesses *)

Definition sample_cfg : Config := mkConfig (Some (30000, 30010)) (mkIntegration "192.0.2.1" "" ∅).
Definition sample_sdp : bytes := bs "c=IN IP4 10.0.0.7" ++ [LF] ++ bs "m=audio 4000 RTP/AVP 0".
Definition sample_parsed : ParsedSDP :=
  initial_sdp <| sdp_ConnectionIP := bs "10.0.0.7" |> <| sdp_MediaType := bs "audio" |> <| sdp_MediaPort := 4000 |>
    <| sdp_Protocol := bs "RTP/AVP" |> <| sdp_Codecs := [mkCodec 0 (bs "PCMU") 8000 1 []] |>.
Lemma sample_parse : Parse (E := bytes) sample_sdp = Ok sample_parsed.
Proof. vm_compute. reflexivity. Qed.

Definition request (callID fromTag toTag sdp : bytes) : NGRequest :=
  mkNGRequest [] [] callID fromTag toTag [] sdp [] [] [] None 0 [] [] [] [] [] [] false None [] [] 0 [] [] [] [] [] 0 [] 0 [].
Definition sample_offer : NGRequest := request (bs "c1") (bs "a") [] sample_sdp.
Definition sample_answer : NGRequest := request (bs "c1") (bs "a") (bs "b") sample_sdp.
Definition sample_env1 : request_env := mkRequestEnv 5 "id1" (fun _ _ => true).
Definition sample_env2 : request_env := mkRequestEnv 6 "id2" (fun _ p => 30001 <? p).

Lemma sample_complete : complete sample_offer /\ complete sample_answer.
Proof. by repeat split. Qed.
Lemma sample_ports ip : (AllocateMediaPorts (e_listen sample_env1 ip) (port_range sample_cfg).1 (port_range sample_cfg).2).1 = Ok (30000, 30001) /\
  (AllocateMediaPorts (e_listen sample_env2 ip) (port_range sample_cfg).1 (port_range sample_cfg).2).1 = Ok (30002, 30003).
Proof. by split. Qed.

Lemma call_established_witness : exists r1 r2 w1 w2,
  offer_Handle sample_cfg sample_env1 sample_offer (new_world 60) = (Ok r1, w1) /\ answer_Handle sample_cfg sample_env2 sample_answer w1 = (Ok r2, w2) /\
  exists p, GetSessionByCallID "c1" (w_registry w2) = [p].
Proof.
  destruct (call_established sample_cfg 60 (new_world 60) sample_env1 sample_offer sample_env2 sample_answer sample_parsed sample_parsed 30000 30001 30002 30003)
    as (streams1 & streams2 & w1 & w2 & p & s & q1 & q2 & l1 & l2 & H1 & H2 & H3 & _).
  - apply rtc_refl.
  - reflexivity.
  - apply sample_complete.
  - apply sample_complete.
  - reflexivity.
  - reflexivity.
  - reflexivity.
  - reflexivity.
  - apply sample_parse.
  - apply sample_parse.
  - apply (proj1 (sample_ports _)).
  - apply (proj2 (sample_ports _)).
  - eexists _, _, w1, w2. split; [exact H1|]. split; [exact H2|]. exists p. exact H3.
Defined.

Lemma offer_outcomes_witness : exists sdp streams,
  (offer_Handle sample_cfg sample_env1 sample_offer (new_world 60)).1 = Ok (accepted sample_offer [] sdp streams).
Proof.
  apply (offer_outcomes sample_cfg 60 (new_world 60) sample_env1 sample_offer (rtc_refl _ _) eq_refl (proj1 sample_complete)).
  - destruct (Parse_panics (E := bytes) (req_SDP sample_offer)) as [[H _]|[_ H]]; [|exact H]. exfalso. change (req_SDP sample_offer) with sample_sdp in H. rewrite sample_parse in H. discriminate.
  - exists 0. split; [lia|]. split; [reflexivity|reflexivity].
Defined.

Lemma tags_only callID fromTag sr p t : GetSessionByCallID callID sr = [p] -> mem sr !! p = Some t -> FromTag t = fromTag -> GetSessionByTags callID fromTag EmptyString sr = Some p.
Proof.
  intros Hcall Hp Hfrom. unfold GetSessionByTags. rewrite Hcall, filter_cons. case_decide as H; [done|]. destruct H. unfold tags_match, deref.
  rewrite Hp, Hfrom, !bool_decide_eq_true_2 by done. done.
Qed.

