(* ===== verification/AsyncRecording.v ===== *)
(** * Asynchronous recording

    Models src/internal/async_recording.go: the recorder that takes frames into a
    queue for its workers to buffer and a ticker to flush, the buffered writer, the
    pipeline of recordings by call and the recorder of a single session.

    The writers are objects of a store, because a queued frame points to its writer
    and keeps it when the recording is closed. Callers, workers, the flusher and
    the calls that close a recording take their steps in any order: a step is what
    happens under one lock, one operation on the queue or one update of counters.
    Files are those of [Recorder]. The bytes of a frame are those it has when it is
    queued: callers do not reuse a slice they handed over. *)

From Stdlib Require Import ZArith Lia ZifyNat Ascii String.
From stdpp Require Import base numbers list gmap strings.
From S2P Require Import Prelude Bencode Recorder.

Local Open Scope Z_scope.
Local Open Scope go_scope.
#[local] Arguments wraps : simpl never.

(** ** Data *)

Inductive async_error := ErrRecordingQueueFull | ErrRecordingClosed | ErrRecordingNotStarted | ErrDirectory | ErrCreate | ErrClose | ErrMaxConcurrent.
#[export] Instance async_error_dec : EqDecision async_error.
Proof. solve_decision. Defined.

Record AsyncRecordingConfig := mkAsyncConfig {
  QueueSize : Z; NumWorkers : Z; BatchSize : Z; FlushInterval : Z; MaxBufferedBytes : Z; WriteTimeout : Z }.
Definition DefaultAsyncRecordingConfig : AsyncRecordingConfig :=
  mkAsyncConfig 10000 2 50 (100 * Millisecond) (10 * 1024 * 1024) (5 * Second).

Record RecordingFrame := mkFrame { Data : list Z; Timestamp : Z; StreamID : string; SequenceNo : Z; frame_Duration : Z }.

Record asyncWriter := mkWriter { path : string; file : nat; buffer : list Z; bufLen : nat; closed : bool; lastFlush : Z }.
#[export] Instance set_path : Setter path := fun f r =>
  mkWriter (f (path r)) (file r) (buffer r) (bufLen r) (closed r) (lastFlush r).
#[export] Instance set_file : Setter file := fun f r =>
  mkWriter (path r) (f (file r)) (buffer r) (bufLen r) (closed r) (lastFlush r).
#[export] Instance set_buffer : Setter buffer := fun f r =>
  mkWriter (path r) (file r) (f (buffer r)) (bufLen r) (closed r) (lastFlush r).
#[export] Instance set_bufLen : Setter bufLen := fun f r =>
  mkWriter (path r) (file r) (buffer r) (f (bufLen r)) (closed r) (lastFlush r).
#[export] Instance set_closed : Setter closed := fun f r =>
  mkWriter (path r) (file r) (buffer r) (bufLen r) (f (closed r)) (lastFlush r).
#[export] Instance set_lastFlush : Setter lastFlush := fun f r =>
  mkWriter (path r) (file r) (buffer r) (bufLen r) (closed r) (f (lastFlush r)).
(** [writer] leads to the store; a callback is known by a number. *)
Record recordingOp := mkOp { frame : RecordingFrame; writer : nat; callback : option nat }.

(** [writers] is [None] once [Stop] has set the map to nil. [files] are those of the
    host, and [reported] is what the callbacks were called with. *)
Record AsyncRecorder := mkAsync {
  config : AsyncRecordingConfig; store : gmap nat asyncWriter; next_writer : nat; writers : option (gmap string nat); queue : list recordingOp; stopping : bool;
  framesQueued : Z; framesWritten : Z; framesDropped : Z; bytesQueued : Z; bytesWritten : Z; flushes : Z; errors : Z;
  files : disk; reported : list (nat * option async_error) }.
#[export] Instance set_config : Setter config := fun f r =>
  mkAsync (f (config r)) (store r) (next_writer r) (writers r) (queue r) (stopping r) (framesQueued r) (framesWritten r) (framesDropped r) (bytesQueued r) (bytesWritten r) (flushes r) (errors r) (files r) (reported r).
#[export] Instance set_store : Setter store := fun f r =>
  mkAsync (config r) (f (store r)) (next_writer r) (writers r) (queue r) (stopping r) (framesQueued r) (framesWritten r) (framesDropped r) (bytesQueued r) (bytesWritten r) (flushes r) (errors r) (files r) (reported r).
#[export] Instance set_next_writer : Setter next_writer := fun f r =>
  mkAsync (config r) (store r) (f (next_writer r)) (writers r) (queue r) (stopping r) (framesQueued r) (framesWritten r) (framesDropped r) (bytesQueued r) (bytesWritten r) (flushes r) (errors r) (files r) (reported r).
#[export] Instance set_writers : Setter writers := fun f r =>
  mkAsync (config r) (store r) (next_writer r) (f (writers r)) (queue r) (stopping r) (framesQueued r) (framesWritten r) (framesDropped r) (bytesQueued r) (bytesWritten r) (flushes r) (errors r) (files r) (reported r).
#[export] Instance set_queue : Setter queue := fun f r =>
  mkAsync (config r) (store r) (next_writer r) (writers r) (f (queue r)) (stopping r) (framesQueued r) (framesWritten r) (framesDropped r) (bytesQueued r) (bytesWritten r) (flushes r) (errors r) (files r) (reported r).
#[export] Instance set_stopping : Setter stopping := fun f r =>
  mkAsync (config r) (store r) (next_writer r) (writers r) (queue r) (f (stopping r)) (framesQueued r) (framesWritten r) (framesDropped r) (bytesQueued r) (bytesWritten r) (flushes r) (errors r) (files r) (reported r).
#[export] Instance set_framesQueued : Setter framesQueued := fun f r =>
  mkAsync (config r) (store r) (next_writer r) (writers r) (queue r) (stopping r) (f (framesQueued r)) (framesWritten r) (framesDropped r) (bytesQueued r) (bytesWritten r) (flushes r) (errors r) (files r) (reported r).
#[export] Instance set_framesWritten : Setter framesWritten := fun f r =>
  mkAsync (config r) (store r) (next_writer r) (writers r) (queue r) (stopping r) (framesQueued r) (f (framesWritten r)) (framesDropped r) (bytesQueued r) (bytesWritten r) (flushes r) (errors r) (files r) (reported r).
#[export] Instance set_framesDropped : Setter framesDropped := fun f r =>
  mkAsync (config r) (store r) (next_writer r) (writers r) (queue r) (stopping r) (framesQueued r) (framesWritten r) (f (framesDropped r)) (bytesQueued r) (bytesWritten r) (flushes r) (errors r) (files r) (reported r).
#[export] Instance set_bytesQueued : Setter bytesQueued := fun f r =>
  mkAsync (config r) (store r) (next_writer r) (writers r) (queue r) (stopping r) (framesQueued r) (framesWritten r) (framesDropped r) (f (bytesQueued r)) (bytesWritten r) (flushes r) (errors r) (files r) (reported r).
#[export] Instance set_bytesWritten : Setter bytesWritten := fun f r =>
  mkAsync (config r) (store r) (next_writer r) (writers r) (queue r) (stopping r) (framesQueued r) (framesWritten r) (framesDropped r) (bytesQueued r) (f (bytesWritten r)) (flushes r) (errors r) (files r) (reported r).
#[export] Instance set_flushes : Setter flushes := fun f r =>
  mkAsync (config r) (store r) (next_writer r) (writers r) (queue r) (stopping r) (framesQueued r) (framesWritten r) (framesDropped r) (bytesQueued r) (bytesWritten r) (f (flushes r)) (errors r) (files r) (reported r).
#[export] Instance set_errors : Setter errors := fun f r =>
  mkAsync (config r) (store r) (next_writer r) (writers r) (queue r) (stopping r) (framesQueued r) (framesWritten r) (framesDropped r) (bytesQueued r) (bytesWritten r) (flushes r) (f (errors r)) (files r) (reported r).
#[export] Instance set_files : Setter files := fun f r =>
  mkAsync (config r) (store r) (next_writer r) (writers r) (queue r) (stopping r) (framesQueued r) (framesWritten r) (framesDropped r) (bytesQueued r) (bytesWritten r) (flushes r) (errors r) (f (files r)) (reported r).
#[export] Instance set_reported : Setter reported := fun f r =>
  mkAsync (config r) (store r) (next_writer r) (writers r) (queue r) (stopping r) (framesQueued r) (framesWritten r) (framesDropped r) (bytesQueued r) (bytesWritten r) (flushes r) (errors r) (files r) (f (reported r)).
Definition NewAsyncRecorder (cfg : option AsyncRecordingConfig) (d : disk) : AsyncRecorder :=
  mkAsync (default DefaultAsyncRecordingConfig cfg) ∅ 0 (Some ∅) [] false 0 0 0 0 0 0 0 d [].

(** ** Operations on a writer *)

Definition size_of (op : recordingOp) : Z := Z.of_nat (length (Data (frame op))).

(** A writer that is used exists; every function says what it does otherwise. *)
Definition write (w : nat) (data : list Z) (a : AsyncRecorder) : option async_error * AsyncRecorder :=
  match store a !! w with
  | None => (Some ErrRecordingClosed, a)
  | Some wr =>
      if closed wr then (Some ErrRecordingClosed, a)
      else (None, a <| store ::= <[w := wr <| buffer ::= fun b => b ++ data |> <| bufLen ::= fun n => (n + length data)%nat |>]> |>)
  end.

(** Whether there was no error; [r] is how the write to the file ends. *)
Definition flush (now : Z) (r : io) (w : nat) (a : AsyncRecorder) : bool * AsyncRecorder :=
  match store a !! w with
  | None => (true, a)
  | Some wr =>
      if closed wr || (bufLen wr =? 0)%nat then (true, a)
      else
        let '(_, ok, d) := Write (file wr) (take (bufLen wr) (buffer wr)) r (files a) in
        if ok then (true, a <| files := d |> <| store ::= <[w := wr <| buffer := [] |> <| bufLen := 0%nat |> <| lastFlush := now |>]> |>)
        else (false, a <| files := d |>)
  end.

Definition close (w : nat) (a : AsyncRecorder) : AsyncRecorder :=
  match store a !! w with
  | None => a
  | Some wr => if closed wr then a else a <| store ::= <[w := wr <| closed := true |>]> |> <| files ::= Close (file wr) |>
  end.

(** ** Operations of the recorder *)

(** [dir] and [created] say whether the directory and the file can be made. After
    [Stop] the map is nil and the assignment to it panics. *)
Definition OpenRecording (p : string) (now : Z) (dir created : bool) (a : AsyncRecorder) : outcome async_error unit * AsyncRecorder :=
  match writers a ≫= fun ws => ws !! p with
  | Some _ => (Ok tt, a)
  | None =>
      if negb dir then (Err ErrDirectory, a)
      else if negb created then (Err ErrCreate, a)
      else
        let '(h, d) := Create p (files a) in
        let a := a <| files := d |> in
        match writers a with
        | None => (Panic, a)
        | Some ws =>
            let w := next_writer a in
            (Ok tt, a <| store ::= <[w := mkWriter p h [] 0 false now]> |> <| next_writer := S w |> <| writers := Some (<[p := w]> ws) |>)
        end
  end.

Definition find_writer (p : string) (a : AsyncRecorder) : option nat := writers a ≫= fun ws => ws !! p.

(** The part of [CloseRecording] under the lock. *)
Definition remove_writer (p : string) (a : AsyncRecorder) : AsyncRecorder := a <| writers ::= fmap (delete p) |>.

(** [closes] says whether closing the file gave no error. *)
Definition CloseRecording (p : string) (now : Z) (r : io) (closes : bool) (a : AsyncRecorder) : option async_error * AsyncRecorder :=
  match find_writer p a with
  | None => (None, a)
  | Some w =>
      let a := (flush now r w (remove_writer p a)).2 in
      let open := if store a !! w is Some wr then negb (closed wr) else false in
      (if open && negb closes then Some ErrClose else None, close w a)
  end.

Definition add64 (n m : Z) : Z := i64 (m + n).

Definition over_limit (a : AsyncRecorder) : bool := (MaxBufferedBytes (config a) >? 0) && (bytesQueued a >? MaxBufferedBytes (config a)).
Definition drop_frame (a : AsyncRecorder) : AsyncRecorder := a <| framesDropped ::= add64 1 |>.
Definition enqueue (op : recordingOp) (a : AsyncRecorder) : option AsyncRecorder :=
  if Z.of_nat (length (queue a)) <? QueueSize (config a) then Some (a <| queue ::= fun l => l ++ [op] |>) else None.
Definition count_queued (op : recordingOp) (a : AsyncRecorder) : AsyncRecorder :=
  a <| framesQueued ::= add64 1 |> <| bytesQueued ::= add64 (size_of op) |>.

Definition WriteFrameWithCallback (p : string) (fr : RecordingFrame) (cb : option nat) (a : AsyncRecorder) : option async_error * AsyncRecorder :=
  match find_writer p a with
  | None => (Some ErrRecordingNotStarted, a)
  | Some w =>
      if over_limit a then (Some ErrRecordingQueueFull, drop_frame a)
      else
        let op := mkOp fr w cb in
        match enqueue op a with
        | Some a => (None, count_queued op a)
        | None => (Some ErrRecordingQueueFull, drop_frame a)
        end
  end.
Definition WriteFrame (p : string) (fr : RecordingFrame) : AsyncRecorder -> option async_error * AsyncRecorder := WriteFrameWithCallback p fr None.

(** What [processOp] does after the write. *)
Definition count_processed (op : recordingOp) (err : option async_error) (a : AsyncRecorder) : AsyncRecorder :=
  let a := a <| bytesQueued ::= add64 (- size_of op) |> in
  let a := match err with
           | Some _ => a <| errors ::= add64 1 |>
           | None => a <| framesWritten ::= add64 1 |> <| bytesWritten ::= add64 (size_of op) |>
           end in
  match callback op with Some cb => a <| reported ::= fun l => l ++ [(cb, err)] |> | None => a end.
Definition processOp (op : recordingOp) (a : AsyncRecorder) : AsyncRecorder :=
  let '(err, a) := write (writer op) (Data (frame op)) a in count_processed op err a.

Definition flush_counted (now : Z) (r : io) (w : nat) (a : AsyncRecorder) : AsyncRecorder := (flush now r w a).2 <| flushes ::= add64 1 |>.
(** Each writer with how its write ends, in the order the map is walked. *)
Definition flushAll (now : Z) (order : list (nat * io)) (a : AsyncRecorder) : AsyncRecorder :=
  foldl (fun a wr => flush_counted now wr.2 wr.1 a) a order.

(** The end of [Stop], once the workers are gone. *)
Definition close_all (now : Z) (order : list (nat * io)) (a : AsyncRecorder) : AsyncRecorder :=
  foldl (fun a wr => close wr.1 (flush now wr.2 wr.1 a).2) a order <| writers := None |>.

Record AsyncRecorderStats := mkAsyncStats { FramesQueued : Z; FramesWritten : Z; FramesDropped : Z; BytesQueued : Z; BytesWritten : Z; Flushes : Z; Errors : Z }.
Definition Stats (a : AsyncRecorder) : AsyncRecorderStats :=
  mkAsyncStats (framesQueued a) (framesWritten a) (framesDropped a) (bytesQueued a) (bytesWritten a) (flushes a) (errors a).

(** ** Goroutines *)

(** A call of [WriteFrame]: it has the writer, has seen room below the limit, has
    put the frame into the queue. *)
Inductive caller := Found (op : recordingOp) | Checked (op : recordingOp) | Sent (op : recordingOp).

(** A worker: it collects a batch, processes one, updates the counters for a frame
    it wrote before it goes on, empties the queue after [Stop], holds a frame
    meanwhile, is gone. *)
Inductive worker_state :=
| Collecting (batch : list recordingOp)
| Processing (batch : list recordingOp)
| Counting (op : recordingOp) (err : option async_error) (then_ : worker_state)
| Draining
| Holding (op : recordingOp)
| Exited.

(** [flusher] has the writers still to flush in this round, [None] once it is gone;
    [closers] are the calls of [CloseRecording] past their lock, with whether they
    have flushed. *)
Record system := mkSystem { ar : AsyncRecorder; callers : list caller; pool : list worker_state; flusher : option (list nat); closers : list (nat * bool) }.
#[export] Instance set_ar : Setter ar := fun f r =>
  mkSystem (f (ar r)) (callers r) (pool r) (flusher r) (closers r).
#[export] Instance set_callers : Setter callers := fun f r =>
  mkSystem (ar r) (f (callers r)) (pool r) (flusher r) (closers r).
#[export] Instance set_pool : Setter pool := fun f r =>
  mkSystem (ar r) (callers r) (f (pool r)) (flusher r) (closers r).
#[export] Instance set_flusher : Setter flusher := fun f r =>
  mkSystem (ar r) (callers r) (pool r) (f (flusher r)) (closers r).
#[export] Instance set_closers : Setter closers := fun f r =>
  mkSystem (ar r) (callers r) (pool r) (flusher r) (f (closers r)).
(** What a run is judged by: files opened, frames taken into the queue, frames
    handled by a worker and whether they were written, recordings being closed, and
    writes to a file that failed. *)
Inductive event := Opened (p : string) (w : nat) | Accepted (op : recordingOp) | Handled (op : recordingOp) (ok : bool) | Closing (w : nat) | Failed (w : nat).

Definition is_ok (err : option async_error) : bool := if err is None then true else false.

Inductive worker_step : AsyncRecorder -> worker_state -> list event -> AsyncRecorder -> worker_state -> Prop :=
| k_first op q a : queue a = op :: q -> worker_step a (Collecting []) [] (a <| queue := q |>) (Collecting [op])
| k_more op q batch a : batch <> [] -> Z.of_nat (length batch) < BatchSize (config a) -> queue a = op :: q ->
    worker_step a (Collecting batch) [] (a <| queue := q |>) (Collecting (batch ++ [op]))
| k_collected batch a : batch <> [] -> (BatchSize (config a) <= Z.of_nat (length batch) \/ queue a = []) ->
    worker_step a (Collecting batch) [] a (Processing batch)
| k_write op batch err a a' : write (writer op) (Data (frame op)) a = (err, a') ->
    worker_step a (Processing (op :: batch)) [Handled op (is_ok err)] a' (Counting op err (Processing batch))
| k_count op err k a : worker_step a (Counting op err k) [] (count_processed op err a) k
| k_again a : worker_step a (Processing []) [] a (Collecting [])
| k_stop a : stopping a = true -> worker_step a (Collecting []) [] a Draining
| k_drain op q a : queue a = op :: q -> worker_step a Draining [] (a <| queue := q |>) (Holding op)
| k_drained op err a a' : write (writer op) (Data (frame op)) a = (err, a') ->
    worker_step a (Holding op) [Handled op (is_ok err)] a' (Counting op err Draining)
| k_exit a : queue a = [] -> worker_step a Draining [] a Exited.

Definition failure (ok : bool) (w : nat) : list event := if ok then [] else [Failed w].

(** The queue is buffered ([QueueSize] positive). A call that panics ends the
    process and is no step. *)
Inductive step : system -> list event -> system -> Prop :=
| s_open p now dir created s r a : OpenRecording p now dir created (ar s) = (r, a) -> r <> Panic ->
    step s (match find_writer p (ar s), r with None, Ok _ => [Opened p (next_writer (ar s))] | _, _ => [] end) (s <| ar := a |>)
| s_close p w s : find_writer p (ar s) = Some w ->
    step s [Closing w] (s <| ar ::= remove_writer p |> <| closers ::= fun l => l ++ [(w, false)] |>)
| s_close_flush now r w l1 l2 s : closers s = l1 ++ (w, false) :: l2 ->
    step s (failure (flush now r w (ar s)).1 w) (s <| ar := (flush now r w (ar s)).2 |> <| closers := l1 ++ (w, true) :: l2 |>)
| s_closed w l1 l2 s : closers s = l1 ++ (w, true) :: l2 -> step s [] (s <| ar ::= close w |> <| closers := l1 ++ l2 |>)
| s_find p w fr cb s : find_writer p (ar s) = Some w -> step s [] (s <| callers ::= fun l => l ++ [Found (mkOp fr w cb)] |>)
| s_over op l1 l2 s : callers s = l1 ++ Found op :: l2 -> over_limit (ar s) = true ->
    step s [] (s <| ar ::= drop_frame |> <| callers := l1 ++ l2 |>)
| s_under op l1 l2 s : callers s = l1 ++ Found op :: l2 -> over_limit (ar s) = false -> step s [] (s <| callers := l1 ++ Checked op :: l2 |>)
| s_full op l1 l2 s : callers s = l1 ++ Checked op :: l2 -> enqueue op (ar s) = None ->
    step s [] (s <| ar ::= drop_frame |> <| callers := l1 ++ l2 |>)
| s_send op l1 l2 a s : callers s = l1 ++ Checked op :: l2 -> 0 < QueueSize (config (ar s)) -> enqueue op (ar s) = Some a ->
    step s [Accepted op] (s <| ar := a |> <| callers := l1 ++ Sent op :: l2 |>)
| s_count op l1 l2 s : callers s = l1 ++ Sent op :: l2 -> step s [] (s <| ar ::= count_queued op |> <| callers := l1 ++ l2 |>)
| s_work k k' evs a l1 l2 s : pool s = l1 ++ k :: l2 -> worker_step (ar s) k evs a k' -> step s evs (s <| ar := a |> <| pool := l1 ++ k' :: l2 |>)
| s_tick ws s : flusher s = Some [] -> ws ≡ₚ (map_to_list (default ∅ (writers (ar s)))).*2 -> step s [] (s <| flusher := Some ws |>)
| s_flush now r w ws s : flusher s = Some (w :: ws) ->
    step s (failure (flush now r w (ar s)).1 w) (s <| ar := flush_counted now r w (ar s) |> <| flusher := Some ws |>)
| s_flusher_exit s : stopping (ar s) = true -> flusher s = Some [] -> step s [] (s <| flusher := None |>)
| s_stop s : stopping (ar s) = false -> step s [] (s <| ar ::= fun a => a <| stopping := true |> |>)
| s_stopped now order ws s : stopping (ar s) = true -> Forall (fun k => k = Exited) (pool s) -> writers (ar s) = Some ws ->
    order.*1 ≡ₚ (map_to_list ws).*2 -> step s (order ≫= fun wr => failure (io_ok wr.2) wr.1) (s <| ar ::= close_all now order |>).

Definition Start (a : AsyncRecorder) : system := mkSystem a [] (replicate (Z.to_nat (NumWorkers (config a))) (Collecting [])) (Some []) [].

Inductive run (cfg : AsyncRecordingConfig) (d : disk) : list event -> system -> Prop :=
| run_start : run cfg d [] (Start (NewAsyncRecorder (Some cfg) d))
| run_step tr s evs s' : run cfg d tr s -> step s evs s' -> run cfg d (tr ++ evs) s'.

(** ** Stopping, with the workers idle until then

    One schedule of [Stop]: the workers handle what is queued, in order, and the
    files are closed. The second call closes a closed channel. *)
Definition Stop (now : Z) (order : list (nat * io)) (a : AsyncRecorder) : outcome async_error unit * AsyncRecorder :=
  if stopping a then (Panic, a)
  else (Ok tt, close_all now order (foldl (fun a op => processOp op a) (a <| stopping := true |> <| queue := [] |>) (queue a))).

(** ** The recorder of a session *)

Record AsyncRecordingSession := mkAsyncSession { session_recorder : AsyncRecorder; session_path : string; started : bool; stopped : bool }.
#[export] Instance set_session_recorder : Setter session_recorder := fun f r =>
  mkAsyncSession (f (session_recorder r)) (session_path r) (started r) (stopped r).
#[export] Instance set_session_path : Setter session_path := fun f r =>
  mkAsyncSession (session_recorder r) (f (session_path r)) (started r) (stopped r).
#[export] Instance set_started : Setter started := fun f r =>
  mkAsyncSession (session_recorder r) (session_path r) (f (started r)) (stopped r).
#[export] Instance set_stopped : Setter stopped := fun f r =>
  mkAsyncSession (session_recorder r) (session_path r) (started r) (f (stopped r)).
Definition NewAsyncRecordingSession (cfg : option AsyncRecordingConfig) (p : string) (d : disk) : AsyncRecordingSession :=
  mkAsyncSession (NewAsyncRecorder cfg d) p false false.

(** A recording that cannot be opened stops the recorder, which has no writers. *)
Definition session_Start (now : Z) (dir created : bool) (s : AsyncRecordingSession) : outcome async_error unit * AsyncRecordingSession :=
  if started s then (Ok tt, s)
  else
    let '(r, a) := OpenRecording (session_path s) now dir created (session_recorder s) in
    let s := s <| session_recorder := a |> in
    match r with
    | Ok _ => (Ok tt, s <| started := true |>)
    | Err e => let '(r, a) := Stop now [] a in (let! _ := r in Err e, s <| session_recorder := a |>)
    | r => (r, s)
    end.
Definition session_Write (data : list Z) (now : Z) (s : AsyncRecordingSession) : option async_error * AsyncRecordingSession :=
  if negb (started s) || stopped s then (Some ErrRecordingNotStarted, s)
  else let '(r, a) := WriteFrame (session_path s) (mkFrame data now "" 0 0) (session_recorder s) in (r, s <| session_recorder := a |>).
Definition session_Stop (now : Z) (r : io) (closes : bool) (order : list (nat * io)) (s : AsyncRecordingSession) : outcome async_error unit * AsyncRecordingSession :=
  if negb (started s) || stopped s then (Ok tt, s)
  else
    let a := (CloseRecording (session_path s) now r closes (session_recorder s)).2 in
    let '(r, a) := Stop now order a in (r, s <| stopped := true |> <| session_recorder := a |>).

(** ** The pipeline *)

Record RecordingPipelineConfig := mkPipelineConfig {
  OutputDir : string; FilePrefix : string; AsyncConfig : option AsyncRecordingConfig; MaxConcurrent : Z; AutoClose : bool; AutoCloseTimeout : Z }.
Definition DefaultRecordingPipelineConfig : RecordingPipelineConfig :=
  mkPipelineConfig "/var/lib/karl/recordings" "rec_" (Some DefaultAsyncRecordingConfig) 1000 true (5 * 60 * Second).

Record recordingSession := mkSession { rs_callID : string; rs_path : string; startTime : Z; lastWrite : Z; frameCount : Z; byteCount : Z }.
#[export] Instance set_rs_callID : Setter rs_callID := fun f r =>
  mkSession (f (rs_callID r)) (rs_path r) (startTime r) (lastWrite r) (frameCount r) (byteCount r).
#[export] Instance set_rs_path : Setter rs_path := fun f r =>
  mkSession (rs_callID r) (f (rs_path r)) (startTime r) (lastWrite r) (frameCount r) (byteCount r).
#[export] Instance set_startTime : Setter startTime := fun f r =>
  mkSession (rs_callID r) (rs_path r) (f (startTime r)) (lastWrite r) (frameCount r) (byteCount r).
#[export] Instance set_lastWrite : Setter lastWrite := fun f r =>
  mkSession (rs_callID r) (rs_path r) (startTime r) (f (lastWrite r)) (frameCount r) (byteCount r).
#[export] Instance set_frameCount : Setter frameCount := fun f r =>
  mkSession (rs_callID r) (rs_path r) (startTime r) (lastWrite r) (f (frameCount r)) (byteCount r).
#[export] Instance set_byteCount : Setter byteCount := fun f r =>
  mkSession (rs_callID r) (rs_path r) (startTime r) (lastWrite r) (frameCount r) (f (byteCount r)).
Record RecordingPipeline := mkPipeline { pipeline_config : RecordingPipelineConfig; recorder : AsyncRecorder; sessions : gmap string recordingSession; pipeline_stopping : bool }.
#[export] Instance set_pipeline_config : Setter pipeline_config := fun f r =>
  mkPipeline (f (pipeline_config r)) (recorder r) (sessions r) (pipeline_stopping r).
#[export] Instance set_recorder : Setter recorder := fun f r =>
  mkPipeline (pipeline_config r) (f (recorder r)) (sessions r) (pipeline_stopping r).
#[export] Instance set_sessions : Setter sessions := fun f r =>
  mkPipeline (pipeline_config r) (recorder r) (f (sessions r)) (pipeline_stopping r).
#[export] Instance set_pipeline_stopping : Setter pipeline_stopping := fun f r =>
  mkPipeline (pipeline_config r) (recorder r) (sessions r) (f (pipeline_stopping r)).
Definition NewRecordingPipeline (cfg : option RecordingPipelineConfig) (d : disk) : RecordingPipeline :=
  let cfg := default DefaultRecordingPipelineConfig cfg in mkPipeline cfg (NewAsyncRecorder (AsyncConfig cfg) d) ∅ false.

Definition recording_path (cfg : RecordingPipelineConfig) (callID : string) (now : Z) : string :=
  Join [OutputDir cfg; FilePrefix cfg +:+ callID +:+ "_" +:+ string_of_list_ascii (FormatInt (now / Second)) +:+ ".raw"].

Definition StartRecording (callID : string) (now : Z) (dir created : bool) (rp : RecordingPipeline) : outcome async_error string * RecordingPipeline :=
  match sessions rp !! callID with
  | Some s => (Ok (rs_path s), rp)
  | None =>
      if MaxConcurrent (pipeline_config rp) <=? Z.of_nat (size (sessions rp)) then (Err ErrMaxConcurrent, rp)
      else
        let p := recording_path (pipeline_config rp) callID now in
        let '(r, a) := OpenRecording p now dir created (recorder rp) in
        let rp := rp <| recorder := a |> in
        (let! _ := r in Ok p, if r is Ok _ then rp <| sessions ::= <[callID := mkSession callID p now now 0 0]> |> else rp)
  end.

Definition WriteRecording (callID : string) (data : list Z) (timestamp now : Z) (rp : RecordingPipeline) : option async_error * RecordingPipeline :=
  match sessions rp !! callID with
  | None => (Some ErrRecordingNotStarted, rp)
  | Some s =>
      let s := s <| lastWrite := now |> <| frameCount ::= add64 1 |> <| byteCount ::= add64 (Z.of_nat (length data)) |> in
      let '(r, a) := WriteFrame (rs_path s) (mkFrame data timestamp callID 0 0) (recorder rp) in
      (r, rp <| sessions ::= <[callID := s]> |> <| recorder := a |>)
  end.

Definition closeSessionLocked (callID : string) (now : Z) (r : io) (closes : bool) (rp : RecordingPipeline) : option async_error * RecordingPipeline :=
  match sessions rp !! callID with
  | None => (None, rp)
  | Some s => let '(e, a) := CloseRecording (rs_path s) now r closes (recorder rp) in (e, rp <| sessions ::= delete callID |> <| recorder := a |>)
  end.
Definition StopRecording : string -> Z -> io -> bool -> RecordingPipeline -> option async_error * RecordingPipeline := closeSessionLocked.

(** The calls in the order the map is walked, with how their last write ends. *)
Definition close_sessions (now : Z) (order : list (string * io)) (rp : RecordingPipeline) : RecordingPipeline :=
  foldl (fun rp c => (closeSessionLocked c.1 now c.2 true rp).2) rp order.
Definition is_expired (now : Z) (rp : RecordingPipeline) (callID : string) : bool :=
  match sessions rp !! callID with Some s => Time_Sub now (lastWrite s) >? AutoCloseTimeout (pipeline_config rp) | None => false end.
Definition checkExpiredSessions (now : Z) (order : list (string * io)) (rp : RecordingPipeline) : RecordingPipeline :=
  close_sessions now (filter (fun c => is_expired now rp c.1 = true) order) rp.

Definition pipeline_Stop (now : Z) (order : list (string * io)) (writers : list (nat * io)) (rp : RecordingPipeline) : outcome async_error unit * RecordingPipeline :=
  if pipeline_stopping rp then (Panic, rp)
  else
    let rp := close_sessions now order (rp <| pipeline_stopping := true |>) in
    let '(r, a) := Stop now writers (recorder rp) in (r, rp <| recorder := a |>).

Record RecordingSessionStats := mkSessionStats { stats_CallID : string; stats_Path : string; stats_StartTime : Z; stats_LastWrite : Z; stats_FrameCount : Z; stats_ByteCount : Z; stats_Duration : Z }.
Definition GetSessionStats (callID : string) (now : Z) (rp : RecordingPipeline) : option RecordingSessionStats :=
  s ← sessions rp !! callID;
  Some (mkSessionStats callID (rs_path s) (startTime s) (lastWrite s) (frameCount s) (byteCount s) (Time_Sub now (startTime s))).
Record RecordingPipelineStats := mkPipelineStats { ActiveSessions : Z; RecorderStats : AsyncRecorderStats }.
Definition GetStats (rp : RecordingPipeline) : RecordingPipelineStats := mkPipelineStats (Z.of_nat (size (sessions rp))) (Stats (recorder rp)).

(** ** The buffered writer *)

(** [sink] is what the wrapped writer has been given. *)
Record BufferedRecordingWriter := mkBuffered { sink : list Z; b_buffer : list Z; b_bufLen : nat; flushSize : nat }.
#[export] Instance set_sink : Setter sink := fun f r =>
  mkBuffered (f (sink r)) (b_buffer r) (b_bufLen r) (flushSize r).
#[export] Instance set_b_buffer : Setter b_buffer := fun f r =>
  mkBuffered (sink r) (f (b_buffer r)) (b_bufLen r) (flushSize r).
#[export] Instance set_b_bufLen : Setter b_bufLen := fun f r =>
  mkBuffered (sink r) (b_buffer r) (f (b_bufLen r)) (flushSize r).
#[export] Instance set_flushSize : Setter flushSize := fun f r =>
  mkBuffered (sink r) (b_buffer r) (b_bufLen r) (f (flushSize r)).
Definition NewBufferedRecordingWriter (bufferSize : Z) : outcome async_error BufferedRecordingWriter :=
  if bufferSize <? 0 then Panic else Ok (mkBuffered [] (replicate (Z.to_nat bufferSize) 0) 0 (Z.to_nat bufferSize)).

Definition sink_write (data : list Z) (r : io) (b : BufferedRecordingWriter) : nat * bool * BufferedRecordingWriter :=
  (length (io_bytes r data), io_ok r, b <| sink ::= fun s => s ++ io_bytes r data |>).

(** The number of bytes and whether there was no error; [r1] is the write of the
    buffer, [r2] that of the data. *)
Definition buffered_Write (data : list Z) (r1 r2 : io) (b : BufferedRecordingWriter) : nat * bool * BufferedRecordingWriter :=
  let copy (b : BufferedRecordingWriter) :=
    (length data, true, b <| b_buffer ::= write_at (b_bufLen b) data |> <| b_bufLen ::= fun n => (n + length data)%nat |>) in
  let emptied (k : BufferedRecordingWriter -> nat * bool * BufferedRecordingWriter) :=
    let '(_, ok, b) := sink_write (take (b_bufLen b) (b_buffer b)) r1 b in if ok then k (b <| b_bufLen := 0%nat |>) else (0%nat, false, b) in
  if (flushSize b <=? length data)%nat then
    if (0 <? b_bufLen b)%nat then emptied (sink_write data r2) else sink_write data r2 b
  else if (flushSize b <? b_bufLen b + length data)%nat then emptied copy
  else copy b.

Definition buffered_Flush (r : io) (b : BufferedRecordingWriter) : bool * BufferedRecordingWriter :=
  if (b_bufLen b =? 0)%nat then (true, b)
  else let '(_, ok, b) := sink_write (take (b_bufLen b) (b_buffer b)) r b in (ok, b <| b_bufLen := 0%nat |>).

(** ** What a run did *)

Definition accepted (tr : list event) : list recordingOp := omap (fun e => match e with Accepted op => Some op | _ => None end) tr.
Definition handled (tr : list event) : list (recordingOp * bool) := omap (fun e => match e with Handled op ok => Some (op, ok) | _ => None end) tr.
Definition opened (tr : list event) : list (string * nat) := omap (fun e => match e with Opened p w => Some (p, w) | _ => None end) tr.
Definition closings (tr : list event) : list nat := omap (fun e => match e with Closing w => Some w | _ => None end) tr.
Definition failures (tr : list event) : list nat := omap (fun e => match e with Failed w => Some w | _ => None end) tr.

(** Frames in the hands of a worker, frames it has written but not counted, frames a
    caller has queued but not counted. *)
Fixpoint held_of (k : worker_state) : list recordingOp :=
  match k with Collecting b | Processing b => b | Counting _ _ k => held_of k | Holding op => [op] | Draining | Exited => [] end.
Fixpoint counting_of (k : worker_state) : list (recordingOp * bool) :=
  match k with Counting op err k => (op, is_ok err) :: counting_of k | _ => [] end.
Definition sent_of (c : caller) : list recordingOp := match c with Sent op => [op] | _ => [] end.
Definition op_of (c : caller) : recordingOp := match c with Found op | Checked op | Sent op => op end.

Definition bytes_of (ops : list recordingOp) : Z := foldr (fun op n => size_of op + n) 0 ops.
Definition with_result (ok : bool) (l : list (recordingOp * bool)) : list recordingOp := omap (fun h => if Bool.eqb h.2 ok then Some h.1 else None) l.
Definition count {A : Type} (l : list A) : Z := Z.of_nat (length l).

(** ** Invariant: frames are conserved *)

(** The counters are those of the frames [entered] and [counted]. *)
Definition counts (a : AsyncRecorder) (entered : list recordingOp) (counted : list (recordingOp * bool)) : Prop :=
  framesQueued a = i64 (count entered) /\ bytesQueued a = i64 (bytes_of entered - bytes_of counted.*1) /\
  framesWritten a = i64 (count (with_result true counted)) /\ bytesWritten a = i64 (bytes_of (with_result true counted)) /\
  errors a = i64 (count (with_result false counted)).

Definition within (cfg : AsyncRecordingConfig) (k : worker_state) : Prop := count (held_of k) <= Z.max 1 (BatchSize cfg).

Record conserved (cfg : AsyncRecordingConfig) (tr : list event) (s : system) : Prop := {
  co_config : config (ar s) = cfg;
  co_frames : accepted tr ≡ₚ (handled tr).*1 ++ (pool s ≫= held_of) ++ queue (ar s);
  co_counts : exists entered counted, accepted tr ≡ₚ entered ++ (callers s ≫= sent_of) /\ handled tr ≡ₚ counted ++ (pool s ≫= counting_of) /\
    counts (ar s) entered counted;
  co_queue : count (queue (ar s)) <= Z.max 0 (QueueSize cfg);
  co_batches : Forall (within cfg) (pool s) }.

Lemma bytes_app l1 l2 : bytes_of (l1 ++ l2) = bytes_of l1 + bytes_of l2.
Proof. unfold bytes_of. induction l1 as [|op l1 IH]; cbn; [done|]. rewrite IH. lia. Qed.
Lemma count_app {A : Type} (l1 l2 : list A) : count (l1 ++ l2) = count l1 + count l2.
Proof. unfold count. rewrite length_app. lia. Qed.

Lemma accepted_app tr evs : accepted (tr ++ evs) = accepted tr ++ accepted evs.
Proof. apply omap_app. Qed.
Lemma handled_app tr evs : handled (tr ++ evs) = handled tr ++ handled evs.
Proof. apply omap_app. Qed.

(** What the operations on writers and files leave alone. *)
Definition same_counts (a a' : AsyncRecorder) : Prop :=
  config a' = config a /\ queue a' = queue a /\ framesQueued a' = framesQueued a /\ bytesQueued a' = bytesQueued a /\
  framesWritten a' = framesWritten a /\ bytesWritten a' = bytesWritten a /\ errors a' = errors a.

Lemma same_write w data a : same_counts a (write w data a).2.
Proof. unfold write, same_counts. repeat case_match; by split_and!. Qed.
Lemma same_flush now r w a : same_counts a (flush now r w a).2.
Proof. unfold flush, same_counts. repeat case_match; by split_and!. Qed.
Lemma same_close w a : same_counts a (close w a).
Proof. unfold close, same_counts. repeat case_match; by split_and!. Qed.
Lemma same_open p now dir created a : same_counts a (OpenRecording p now dir created a).2.
Proof. unfold OpenRecording, same_counts. repeat case_match; by split_and!. Qed.
Lemma same_trans a b c : same_counts a b -> same_counts b c -> same_counts a c.
Proof. unfold same_counts. intros. destruct_and!. split_and!; congruence. Qed.
Lemma same_close_all now order a : same_counts a (close_all now order a).
Proof.
  unfold close_all. apply (same_trans _ (foldl (fun a wr => close wr.1 (flush now wr.2 wr.1 a).2) a order)); [|by repeat split].
  revert a. induction order as [|[w r] order IH]; intros a; cbn [foldl fst snd]; [by repeat split|].
  eapply same_trans; [|apply IH]. eapply same_trans; [apply same_flush|apply same_close].
Qed.
Lemma same_flush_counted now r w a : same_counts a (flush_counted now r w a).
Proof. destruct (same_flush now r w a) as (?&?&?&?&?&?&?). unfold flush_counted. by split_and!. Qed.
#[local] Hint Resolve same_write same_flush same_close same_open same_close_all same_flush_counted : karl.

(** A step that only works on writers and files. *)
Lemma conserved_same cfg tr evs s s' : conserved cfg tr s -> accepted evs = [] -> handled evs = [] ->
  same_counts (ar s) (ar s') -> callers s' ≫= sent_of = callers s ≫= sent_of -> pool s' = pool s -> conserved cfg (tr ++ evs) s'.
Proof.
  intros [C F (en & co & H1 & H2 & H3) Q B] E1 E2 (S1 & S2 & S4 & S5 & S6 & S7 & S8) Hc Hp.
  assert (accepted (tr ++ evs) = accepted tr) as Ea by (by rewrite accepted_app, E1, app_nil_r).
  assert (handled (tr ++ evs) = handled tr) as Eh by (by rewrite handled_app, E2, app_nil_r).
  constructor; rewrite ?Ea, ?Eh, ?Hp, ?S1, ?S2; try done. exists en, co. rewrite Hc. split_and!; [done..|].
  unfold counts in *. by rewrite S4, S5, S6, S7, S8.
Qed.

Lemma counted_queued a entered counted op : counts a entered counted -> counts (count_queued op a) (entered ++ [op]) counted.
Proof.
  intros (H1 & H2 & H3 & H4 & H5). unfold counts, count_queued, add64. cbn. rewrite H1, H2, !wraps_add_l, count_app, bytes_app by lia.
  split_and!; try done; f_equal; cbn; lia.
Qed.
Lemma counted_processed a entered counted op err : counts a entered counted -> counts (count_processed op err a) entered (counted ++ [(op, is_ok err)]).
Proof.
  intros (H1 & H2 & H3 & H4 & H5). assert (forall l ok, with_result ok (counted ++ [l]) = with_result ok counted ++ with_result ok [l]) as Hw by (intros; apply omap_app).
  unfold counts. rewrite fmap_app, bytes_app, !Hw, !bytes_app, !count_app. unfold count_processed, add64.
  destruct err as [err|], (callback op) as [cb|]; cbn; rewrite ?H1, ?H2, ?H3, ?H4, ?H5, ?wraps_add_l by lia; split_and!; f_equal; unfold count; cbn; lia.
Qed.

(** A step of a caller. *)
Lemma conserved_caller cfg tr s l1 c l2 a c' : conserved cfg tr s -> callers s = l1 ++ c :: l2 -> same_counts (ar s) a ->
  (l1 ++ c :: l2) ≫= sent_of ≡ₚ (l1 ++ c' ++ l2) ≫= sent_of -> conserved cfg (tr ++ []) (s <| ar := a |> <| callers := l1 ++ c' ++ l2 |>).
Proof.
  intros H Hc Hs Hp. rewrite <- Hc in Hp. destruct H as [C F (en & co & H1 & H2 & H3) Q B]. rewrite app_nil_r. destruct Hs as (S1 & S2 & S4 & S5 & S6 & S7 & S8).
  constructor; cbn; rewrite ?S1, ?S2; try done. exists en, co. rewrite <- Hp. split_and!; [done..|]. unfold counts in *. cbn. by rewrite S4, S5, S6, S7, S8.
Qed.

(** A worker moves frames between the queue, its hands and the handled ones, or
    counts one. *)
Lemma worker_moves a k evs a' k' : worker_step a k evs a' k' ->
  accepted evs = [] /\ held_of k ++ queue a = (handled evs).*1 ++ held_of k' ++ queue a' /\ config a' = config a /\
  count (queue a') <= count (queue a) /\ (within (config a) k -> within (config a) k').
Proof.
  assert (forall op err a, config (count_processed op err a) = config a /\ queue (count_processed op err a) = queue a) as Hc
    by (intros op [] ?; unfold count_processed; destruct (callback op); done).
  intros Hk. destruct Hk as [op q a Hq|op q b a Hb Hl Hq|b a|op b err a a' Hw|op err k a|a|a|op q a Hq|op err a a' Hw|a]; cbn; rewrite ?Hq;
    try (pose proof (same_write (writer op) (Data (frame op)) a) as (E1 & E2 & _); rewrite Hw in E1, E2; cbn in E1, E2; rewrite E1, E2); rewrite ?(proj1 (Hc _ _ _)), ?(proj2 (Hc _ _ _));
    unfold within, count in *; cbn; rewrite ?length_app; cbn.
  all: split_and!; try done; try lia; try (by rewrite <- app_assoc).
Qed.

Lemma worker_counts a k evs a' k' : worker_step a k evs a' k' ->
  (exists op err, k = Counting op err k' /\ a' = count_processed op err a /\ evs = []) \/
  ((forall en co, counts a en co -> counts a' en co) /\ counting_of k' = handled evs ++ counting_of k).
Proof.
  intros Hk. destruct Hk as [op q a Hq|op q b a Hb Hl Hq|b a|op b err a a' Hw|op err k a|a|a|op q a Hq|op err a a' Hw|a]; try (right; by split).
  - right. split; [|done]. pose proof (same_write (writer op) (Data (frame op)) a) as (_ & _ & E1 & E2 & E3 & E4 & E5). rewrite Hw in *. cbn [snd] in *.
    unfold counts. by rewrite E1, E2, E3, E4, E5.
  - left. eauto.
  - right. split; [|done]. pose proof (same_write (writer op) (Data (frame op)) a) as (_ & _ & E1 & E2 & E3 & E4 & E5). rewrite Hw in *. cbn [snd] in *.
    unfold counts. by rewrite E1, E2, E3, E4, E5.
Qed.

Lemma shuffle {A : Type} (h l1 x l2 q e y q' : list A) : x ++ q ≡ₚ e ++ y ++ q' -> h ++ (l1 ++ x ++ l2) ++ q ≡ₚ (h ++ e) ++ (l1 ++ y ++ l2) ++ q'.
Proof.
  intros H. transitivity (h ++ l1 ++ (x ++ q) ++ l2); [rewrite <- !app_assoc; by rewrite (Permutation_app_comm l2 q)|]. rewrite H, <- !app_assoc.
  apply Permutation_app_head. rewrite (Permutation_app_comm l2 q'). rewrite !(app_assoc l1 e), (Permutation_app_comm l1 e). by rewrite <- !app_assoc.
Qed.

Lemma conserved_worker cfg tr s l1 k l2 evs a k' : conserved cfg tr s -> pool s = l1 ++ k :: l2 -> worker_step (ar s) k evs a k' ->
  conserved cfg (tr ++ evs) (s <| ar := a |> <| pool := l1 ++ k' :: l2 |>).
Proof.
  intros [C F (en & co & H1 & H2 & H3) Q B] Hp Hk. destruct (worker_moves _ _ _ _ _ Hk) as (Ha & Hm & Hc & Hq & Hb). pose proof (worker_counts _ _ _ _ _ Hk) as Hw. subst cfg.
  rewrite Hp in F, H2, B. rewrite bind_app, bind_cons in F. rewrite bind_app, bind_cons in H2. apply Forall_app in B as [B1 B]. apply Forall_cons in B as [Bk B2].
  assert (accepted (tr ++ evs) = accepted tr) as Ea by (by rewrite accepted_app, Ha, app_nil_r).
  assert (handled (tr ++ evs) = handled tr ++ handled evs) as Eh by apply handled_app.
  constructor; cbn; rewrite ?Ea, ?Eh, ?bind_app, ?bind_cons; [done| | |lia|].
  - rewrite F, fmap_app. apply shuffle. by rewrite Hm.
  - destruct Hw as [(op & err & -> & -> & ->)|[Hw Hco]].
    + exists en, (co ++ [(op, is_ok err)]). split_and!; [done| |by apply counted_processed]. cbn in H2 |- *. rewrite app_nil_r, H2, <- app_assoc. apply Permutation_app_head.
      symmetry. apply (Permutation_middle (l1 ≫= counting_of)).
    + exists en, co. split_and!; [done| |by apply Hw]. rewrite H2, Hco, <- !app_assoc. apply Permutation_app_head.
      generalize (l1 ≫= counting_of), (counting_of k), (l2 ≫= counting_of), (handled evs). intros x y z e.
      apply Permutation_app_head.
      rewrite (app_assoc y z e). apply Permutation_app_comm.
  - apply Forall_app. split; [done|]. constructor; auto.
Qed.

Lemma conserved_step cfg tr s evs s' : conserved cfg tr s -> step s evs s' -> conserved cfg (tr ++ evs) s'.
Proof.
  intros H Hs. destruct Hs as [p now dir created s r a Ho _|p w s _|now r w l1 l2 s|w l1 l2 s|p w fr cb s|op l1 l2 s Hc _|op l1 l2 s Hc _|op l1 l2 s Hc _|
    op l1 l2 a s Hc Hq He|op l1 l2 s Hc|k k' evs a l1 l2 s Hp Hk|ws s|now r w ws s|s|s|now order ws s].
  - apply (conserved_same _ _ _ s); try done; [by repeat case_match..|]. pose proof (same_open p now dir created (ar s)) as E. by rewrite Ho in E.
  - by apply (conserved_same _ _ _ s).
  - apply (conserved_same _ _ _ s); try done; [by destruct (flush _ _ _ _).1..|apply same_flush].
  - apply (conserved_same _ _ _ s); try done. apply same_close.
  - apply (conserved_same _ _ _ s); try done. cbn. by rewrite bind_app, app_nil_r.
  - apply (conserved_caller _ _ _ l1 (Found op) l2 _ []); [done|done|by repeat split|]. by rewrite !bind_app.
  - apply (conserved_caller _ _ _ l1 (Found op) l2 _ [Checked op]); [done|done|by repeat split|]. by rewrite !bind_app.
  - apply (conserved_caller _ _ _ l1 (Checked op) l2 _ []); [done|done|by repeat split|]. by rewrite !bind_app.
  - destruct H as [C F (en & co & H1 & H2 & H3) Q B]. unfold enqueue in He. case_match eqn:Hl; [|done]. injection He as <-. apply Z.ltb_lt in Hl. rewrite C in Hl.
    assert (accepted (tr ++ [Accepted op]) = accepted tr ++ [op]) as Ea by apply accepted_app.
    assert (handled (tr ++ [Accepted op]) = handled tr) as Eh by (by rewrite handled_app, app_nil_r).
    constructor; cbn; rewrite ?Ea, ?Eh; try done; [by rewrite F, <- !app_assoc| |unfold count in *; rewrite length_app; cbn; lia].
    exists en, co. split_and!; try done. rewrite H1, Hc, !bind_app, <- app_assoc. apply Permutation_app_head. cbn. rewrite <- app_assoc. apply Permutation_app_head. symmetry. apply Permutation_cons_append.
  - destruct H as [C F (en & co & H1 & H2 & H3) Q B]. rewrite app_nil_r. constructor; cbn; try done. exists (en ++ [op]), co. split_and!; [|done|by apply counted_queued].
    rewrite H1, Hc, !bind_app, <- app_assoc. cbn. by rewrite Permutation_middle.
  - by eapply conserved_worker.
  - by apply (conserved_same _ _ _ s).
  - apply (conserved_same _ _ _ s); try done; [by destruct (flush _ _ _ _).1..|apply same_flush_counted].
  - by apply (conserved_same _ _ _ s).
  - by apply (conserved_same _ _ _ s).
  - apply (conserved_same _ _ _ s); try done; [..|apply same_close_all]; clear; induction order as [|[w' []] order IH]; cbn in *; try done.
Qed.

(** ** Invariant: files *)

(** The bytes handled for a writer. *)
Definition data_on (w : nat) (l : list (recordingOp * bool)) : list Z :=
  l ≫= fun h => if bool_decide (writer h.1 = w) && h.2 then Data (frame h.1) else [].

(** The file of a writer and then its buffer have the bytes handled for it. *)
Definition in_file (d : disk) (wr : asyncWriter) (data : list Z) : Prop :=
  bufLen wr = length (buffer wr) /\ exists i c, names d !! path wr = Some i /\ inodes d !! i = Some c /\ c ++ buffer wr = data /\
    (closed wr = false -> open_files d !! file wr = Some (mkFile i (length c))).

Record filed (a : AsyncRecorder) (h : list (recordingOp * bool)) : Prop := {
  fi_disk : disk_ok (files a);
  fi_old : forall w wr, store a !! w = Some wr -> (w < next_writer a)%nat;
  fi_paths : forall w wr w' wr', store a !! w = Some wr -> store a !! w' = Some wr' -> path wr = path wr' -> w = w';
  fi_file : forall w wr, store a !! w = Some wr -> in_file (files a) wr (data_on w h);
  fi_ops : Forall (fun x => (writer x.1 < next_writer a)%nat) h }.

Lemma data_app w h1 h2 : data_on w (h1 ++ h2) = data_on w h1 ++ data_on w h2.
Proof. apply bind_app. Qed.
Lemma data_none w h : Forall (fun x => (writer x.1 < w)%nat) h -> data_on w h = [].
Proof. induction 1 as [|x h Hx _ IH]; [done|]. unfold data_on in *. cbn. rewrite bool_decide_false by lia. by rewrite IH. Qed.

(** The files of the other writers are left alone. *)
Lemma writer_frame d d' p h wr data : touches d d' p (Some h) -> disk_ok d -> path wr <> p -> (closed wr = false -> file wr <> h) ->
  in_file d wr data -> in_file d' wr data.
Proof.
  intros [N X I O H] Hd Hp Hh (Hb & i & c & Hn & Hi & Hc & Ho). split; [done|]. exists i, c. rewrite N. split_and!; [done| |done|].
  - rewrite I; [done|]. intros E. by apply Hp, (names_inj _ Hd _ _ i).
  - intros Hcl. rewrite O; [by apply Ho|]. intros [= E]. by apply Hh.
Qed.

Lemma handles_differ a h w w' wr wr' : filed a h -> store a !! w = Some wr -> store a !! w' = Some wr' -> w <> w' ->
  path wr' <> path wr /\ (closed wr = false -> closed wr' = false -> file wr' <> file wr).
Proof.
  intros [Hd _ Hp Hf _] Hw Hw' Hne. assert (path wr' <> path wr) as Hpp by (intros E; by apply Hne, (Hp _ _ _ _ Hw Hw')). split; [done|].
  intros Hc Hc' E. destruct (Hf _ _ Hw) as (_ & i & c & Hn & _ & _ & Ho), (Hf _ _ Hw') as (_ & i' & c' & Hn' & _ & _ & Ho').
  rewrite E, Ho in Ho' by done. injection (Ho' Hc') as <- _. by apply Hpp, (names_inj _ Hd _ _ i).
Qed.

(** An operation on one writer that touches only its file. *)
Lemma filed_update a h w wr wr' d h' : filed a h -> store a !! w = Some wr -> path wr' = path wr -> touches (files a) d (path wr) (Some (file wr)) ->
  (files a = d \/ closed wr = false) -> in_file d wr' (data_on w (h ++ h')) -> (forall w', w' <> w -> data_on w' h' = []) -> Forall (fun x => (writer x.1 < next_writer a)%nat) h' ->
  filed (a <| store ::= <[w := wr']> |> <| files := d |>) (h ++ h').
Proof.
  intros H Hw Hpath Ht Hcl Hf Hd Hops. pose proof H as [Hdk Hold Hp Hfile Ho]. constructor; cbn.
  - by eapply touches_ok.
  - intros v vr Hv. apply lookup_insert_Some in Hv as [[<- _]|[_ Hv]]; eauto.
  - assert (forall v vr, <[w := wr']> (store a) !! v = Some vr -> exists vr0, store a !! v = Some vr0 /\ path vr0 = path vr) as Hback.
    { intros v vr Hv. apply lookup_insert_Some in Hv as [[<- <-]|[_ Hv]]; eauto. }
    intros v vr v' vr' Hv Hv' E. destruct (Hback _ _ Hv) as (? & ? & ?), (Hback _ _ Hv') as (? & ? & ?). eapply Hp; eauto. congruence.
  - intros v vr Hv. apply lookup_insert_Some in Hv as [[<- <-]|[Hne Hv]]; [done|]. rewrite data_app, Hd, app_nil_r by done. destruct (handles_differ _ _ _ _ _ _ H Hw Hv Hne) as [Hpp Hhh].
    destruct Hcl as [<-|Hcl]; [by apply Hfile|]. eapply writer_frame; eauto.
  - by apply Forall_app.
Qed.

Lemma files_same a : a <| files := files a |> = a.
Proof. by destruct a. Qed.
Lemma store_same a w wr : store a !! w = Some wr -> a <| store ::= <[w := wr]> |> = a.
Proof. intros H. destruct a; cbn in *. unfold set_field, set_store. cbn. by rewrite insert_id. Qed.

Lemma filed_more a h x : filed a h -> (writer x.1 < next_writer a)%nat -> (forall w wr, store a !! w = Some wr -> data_on w [x] = []) -> filed a (h ++ [x]).
Proof.
  intros [Hd Hold Hp Hf Ho] Hx Hn. constructor; try done.
  - intros w wr Hw. rewrite data_app, (Hn w wr), app_nil_r by done. by apply Hf.
  - apply Forall_app. split; [done|]. by constructor.
Qed.

Lemma filed_write a h op err a' : filed a h -> (writer op < next_writer a)%nat -> write (writer op) (Data (frame op)) a = (err, a') -> filed a' (h ++ [(op, is_ok err)]).
Proof.
  intros H Hop Hw. unfold write in Hw. destruct (store a !! writer op) as [wr|] eqn:Hs.
  2: { injection Hw as <- <-. apply filed_more; [done..|]. intros. unfold data_on. cbn. by rewrite andb_false_r. }
  destruct (closed wr) eqn:Hc; injection Hw as <- <-.
  { apply filed_more; [done..|]. intros. unfold data_on. cbn. by rewrite andb_false_r. }
  set (wr' := wr <| buffer ::= _ |> <| bufLen ::= _ |>). rewrite <- (files_same (a <| store ::= _ |>)).
  apply (filed_update a h (writer op) wr wr' (files a)); [done|done|done|apply touches_refl|by left| | |by constructor].
  - destruct (fi_file _ _ H _ _ Hs) as (Hb & i & c & Hn & Hi & Hcc & Ho). split; [cbn; rewrite length_app; congruence|]. exists i, c. split_and!; [done..| |done].
    cbn. rewrite app_assoc, Hcc, data_app. f_equal. unfold data_on. cbn. by rewrite bool_decide_true, app_nil_r.
  - intros w' Hne. unfold data_on. cbn. by rewrite bool_decide_false.
Qed.

Lemma filed_flush now r w a h : filed a h -> (flush now r w a).1 = true -> filed (flush now r w a).2 h.
Proof.
  intros H. unfold flush. destruct (store a !! w) as [wr|] eqn:Hs; [|done]. destruct (closed wr) eqn:Hc; [done|]. destruct (bufLen wr =? 0)%nat eqn:Hz; [done|]. cbn [orb].
  destruct (fi_file _ _ H _ _ Hs) as (Hb & i & c & Hn & Hi & Hcc & Ho). destruct r as [|k].
  - destruct (Write_done (files a) (file wr) i (length c) c (take (bufLen wr) (buffer wr)) (path wr) (Ho Hc) Hi Hn) as (d & -> & Ht & Ho' & Hi' & Hn'). intros _.
    set (wr' := wr <| buffer := [] |> <| bufLen := 0%nat |> <| lastFlush := now |>). change (filed (a <| store ::= <[w := wr']> |> <| files := d |>) h). rewrite <- (app_nil_r h).
    apply (filed_update a h w wr wr' d); [done|done|done|done|by right| |done|done]. rewrite Hb, firstn_all in Hi', Ho'. rewrite write_at_end in Hi'.
    split; [done|]. exists i, (c ++ buffer wr). split_and!; [done|done|by rewrite !app_nil_r, Hcc|intros _; by rewrite length_app].
  - unfold Write. rewrite Ho by done. done.
Qed.

Lemma filed_close w a h : filed a h -> filed (close w a) h.
Proof.
  intros H. unfold close. destruct (store a !! w) as [wr|] eqn:Hs; [|done]. destruct (closed wr) eqn:Hc; [done|].
  change (filed (a <| store ::= <[w := wr <| closed := true |>]> |> <| files := Close (file wr) (files a) |>) h). rewrite <- (app_nil_r h).
  apply (filed_update a h w wr _ (Close (file wr) (files a))); [done|done|done|apply Close_touches|by right| |done|done].
  destruct (fi_file _ _ H _ _ Hs) as (Hb & i & c & Hn & Hi & Hcc & Ho). split; [done|]. exists i, c. by rewrite app_nil_r.
Qed.

Lemma filed_open p now dir created a r a' h : filed a h -> (forall w wr, store a !! w = Some wr -> writers a ≫= (fun ws => ws !! p) = None -> path wr <> p) ->
  OpenRecording p now dir created a = (r, a') -> r <> Panic -> filed a' h.
Proof.
  intros H Hnew. unfold OpenRecording. destruct (writers a ≫= _) as [w|] eqn:Hw; [by intros [= <- <-]|]. destruct (negb dir); [by intros [= <- <-]|]. destruct (negb created); [by intros [= <- <-]|].
  destruct (Create p (files a)) as [hd d] eqn:Hcr. cbn. destruct (writers a) as [ws|] eqn:Hws; intros [= <- <-] Hr; [|done].
  destruct (Create_new _ _ _ _ (fi_disk _ _ H) Hcr) as (Hd & i & Ho & Hi & Hn & Hother & Hino & Hopen & Hno). destruct H as [Hdk Hold Hp Hf Hops]. constructor; cbn.
  - done.
  - intros w wr Hl. apply lookup_insert_Some in Hl as [[<- _]|[_ Hl]]; [lia|]. apply Hold in Hl. lia.
  - intros w wr w' wr' Hl Hl' E. apply lookup_insert_Some in Hl as [[<- <-]|[Hne Hl]], Hl' as [[<- <-]|[Hne' Hl']]; [done|by destruct (Hnew _ _ Hl')|by destruct (Hnew _ _ Hl)|eauto].
  - intros w wr Hl. apply lookup_insert_Some in Hl as [[<- <-]|[Hne Hl]].
    + split; [done|]. exists i, []. rewrite data_none by done. by split_and!.
    + destruct (Hf _ _ Hl) as (Hb & j & c & Hnj & Hj & Hcc & Hoj). split; [done|]. exists j, c. destruct (Hother (path wr)) as [E1 E2]; [by eapply Hnew|].
      split_and!; [congruence|rewrite Hino; congruence|done|]. intros Hcl. rewrite Hopen; [by apply Hoj|]. intros E. eapply Hno. rewrite <- E. by apply Hoj.
  - eapply Forall_impl; [exact Hops|]. cbn. lia.
Qed.

Lemma filed_ext a a' h : filed a h -> store a' = store a -> files a' = files a -> next_writer a' = next_writer a -> filed a' h.
Proof. intros [] E1 E2 E3. constructor; rewrite ?E1, ?E2, ?E3; done. Qed.

(** ** Invariant: writers *)

Definition ops_of (s : system) : list recordingOp := map op_of (callers s) ++ (pool s ≫= held_of) ++ queue (ar s).

Record placed (tr : list event) (s : system) : Prop := {
  pl_opened : forall p w, ((p, w) ∈ opened tr) <-> (exists wr, store (ar s) !! w = Some wr /\ path wr = p);
  pl_closings : forall w, w ∈ closings tr -> is_Some (store (ar s) !! w);
  pl_map : forall ws p w, writers (ar s) = Some ws -> ws !! p = Some w ->
    (w ∉ closings tr) /\ exists wr, store (ar s) !! w = Some wr /\ path wr = p /\ closed wr = false;
  pl_open : forall ws w wr, writers (ar s) = Some ws -> store (ar s) !! w = Some wr -> w ∉ closings tr -> ws !! path wr = Some w;
  pl_stopped : writers (ar s) = None -> Forall (fun k => k = Exited) (pool s) /\
    forall w wr, store (ar s) !! w = Some wr -> w ∉ closings tr -> closed wr = true /\ buffer wr = [];
  pl_closers : forall w b, (w, b) ∈ closers s -> w ∈ closings tr;
  pl_ops : forall op, op ∈ ops_of s -> is_Some (store (ar s) !! writer op);
  pl_failed : forall op, (op, false) ∈ handled tr -> writer op ∈ closings tr }.

(** Writers keep their path, change only while open, and are closed only where [may]
    says so. *)
Definition evolves (may : nat -> Prop) (a a' : AsyncRecorder) : Prop := forall v,
  match store a !! v, store a' !! v with
  | Some r, Some r' => path r' = path r /\ (closed r = true -> r' = r) /\ (closed r' = closed r \/ may v)
  | None, None => True
  | _, _ => False
  end.

Lemma evolves_refl may a : evolves may a a.
Proof. intros v. destruct (store a !! v); [|done]. split_and!; auto. Qed.
Lemma evolves_ext may a b b' : evolves may a b -> store b' = store b -> evolves may a b'.
Proof. intros H E v. rewrite E. apply H. Qed.
Lemma evolves_one (may : nat -> Prop) a a' w r r' : store a !! w = Some r -> store a' = <[w := r']> (store a) -> closed r = false -> path r' = path r -> (closed r' = false \/ may w) -> evolves may a a'.
Proof.
  intros Hr E Hc Hp Hm v. rewrite E. destruct (decide (v = w)) as [->|Hne].
  - rewrite lookup_insert_eq, Hr. split_and!; [done|congruence|]. destruct Hm; [left; congruence|by right].
  - rewrite lookup_insert_ne by done. destruct (store a !! v); [|done]. split_and!; auto.
Qed.
Lemma evolves_trans may a b c : evolves may a b -> evolves may b c -> evolves may a c.
Proof.
  intros H1 H2 v. specialize (H1 v). specialize (H2 v). destruct (store a !! v) as [r|], (store b !! v) as [r'|], (store c !! v) as [r''|]; try done.
  destruct H1 as (P1 & C1 & M1), H2 as (P2 & C2 & M2). split_and!; [congruence| |].
  - intros Hc. rewrite C1 in * by done. auto.
  - destruct M1 as [M1|?]; [|by right]. destruct M2 as [M2|?]; [left; congruence|by right].
Qed.
Lemma evolves_write may w data a : evolves may a (write w data a).2.
Proof.
  unfold write. destruct (store a !! w) as [r|] eqn:Hr; [|apply evolves_refl]. destruct (closed r) eqn:Hc; [apply evolves_refl|].
  eapply evolves_one; [exact Hr|reflexivity|done|done|by left].
Qed.
Lemma evolves_flush may now r w a : evolves may a (flush now r w a).2.
Proof.
  unfold flush. destruct (store a !! w) as [wr|] eqn:Hr; [|apply evolves_refl]. destruct (closed wr) eqn:Hc; [apply evolves_refl|]. cbn [orb].
  case_match; [apply evolves_refl|]. destruct (Write _ _ _ _) as [[? []] ?]; [|exact (evolves_refl may a)]. eapply evolves_one; [exact Hr|reflexivity|done|done|by left].
Qed.
Lemma evolves_close (may : nat -> Prop) w a : may w -> evolves may a (close w a).
Proof.
  intros Hm. unfold close. destruct (store a !! w) as [wr|] eqn:Hr; [|apply evolves_refl]. destruct (closed wr) eqn:Hc; [apply evolves_refl|].
  eapply evolves_one; [exact Hr|reflexivity|done|done|by right].
Qed.
Lemma evolves_back may a a' v r' : evolves may a a' -> store a' !! v = Some r' -> exists r, store a !! v = Some r /\ path r' = path r /\ (closed r = true -> r' = r) /\ (closed r' = closed r \/ may v).
Proof. intros H Hv. specialize (H v). rewrite Hv in H. destruct (store a !! v) as [r|]; [|done]. eauto. Qed.
Lemma evolves_fwd may a a' v r : evolves may a a' -> store a !! v = Some r -> exists r', store a' !! v = Some r' /\ path r' = path r /\ (closed r = true -> r' = r) /\ (closed r' = closed r \/ may v).
Proof. intros H Hv. specialize (H v). rewrite Hv in H. destruct (store a' !! v) as [r'|]; [|done]. eauto. Qed.

Lemma opened_app tr evs : opened (tr ++ evs) = opened tr ++ opened evs.
Proof. apply omap_app. Qed.
Lemma closings_app tr evs : closings (tr ++ evs) = closings tr ++ closings evs.
Proof. apply omap_app. Qed.
Lemma failed_app tr evs : failures (tr ++ evs) = failures tr ++ failures evs.
Proof. apply omap_app. Qed.

(** Every step but opening, closing and the end of [Stop]. *)
Lemma placed_evolves tr evs s s' : placed tr s -> opened evs = [] -> closings evs = [] -> evolves (fun v => v ∈ closings tr) (ar s) (ar s') -> writers (ar s') = writers (ar s) ->
  (Forall (fun k => k = Exited) (pool s) -> Forall (fun k => k = Exited) (pool s')) -> (forall w b, (w, b) ∈ closers s' -> w ∈ closings tr) ->
  (forall op, op ∈ ops_of s' -> is_Some (store (ar s) !! writer op)) -> (forall op, (op, false) ∈ handled evs -> writer op ∈ closings tr) -> placed (tr ++ evs) s'.
Proof.
  intros [O C M U S K P F] E1 E2 Hev Hw Hpool Hcl Hops Hf. rewrite <- Hw in M, U, S.
  constructor; rewrite ?opened_app, ?closings_app, ?E1, ?E2, ?app_nil_r; [| | | | |done| |].
  - intros p w. rewrite O. split; intros (wr & Hwr & Hp).
    + destruct (evolves_fwd _ _ _ _ _ Hev Hwr) as (r & Hr & Hpp & _). exists r. split; [done|congruence].
    + destruct (evolves_back _ _ _ _ _ Hev Hwr) as (r & Hr & Hpp & _). exists r. split; [done|congruence].
  - intros w Hin. destruct (C _ Hin) as [r Hr]. destruct (evolves_fwd _ _ _ _ _ Hev Hr) as (r' & ? & _). eauto.
  - intros ws p w Hws Hp. destruct (M _ _ _ Hws Hp) as (Hn & wr & Hwr & Hpp & Hc). split; [done|].
    destruct (evolves_fwd _ _ _ _ _ Hev Hwr) as (r & Hr & Hpr & _ & [Hcr|]); [|done]. exists r. split_and!; [done|congruence|congruence].
  - intros ws w wr Hws Hwr Hn. destruct (evolves_back _ _ _ _ _ Hev Hwr) as (r & Hr & -> & _). eauto.
  - intros Hws. destruct (S Hws) as [Hp Hc]. split; [by apply Hpool|]. intros w wr Hwr Hn. destruct (evolves_back _ _ _ _ _ Hev Hwr) as (r & Hr & _ & Heq & _).
    destruct (Hc _ _ Hr Hn) as [Hcr Hb]. by rewrite (Heq Hcr).
  - intros op Hop. destruct (Hops _ Hop) as [r Hr]. destruct (evolves_fwd _ _ _ _ _ Hev Hr) as (r' & ? & _). eauto.
  - intros op. rewrite handled_app, elem_of_app. intros [H|H]; auto.
Qed.

(** Opening a recording that is not open gives a new writer; any other call that
    does not panic changes nothing. *)
Lemma open_cases p now dir created a r a' : OpenRecording p now dir created a = (r, a') -> r <> Panic ->
  (a' = a /\ (find_writer p a = None -> r <> Ok tt)) \/
  (r = Ok tt /\ find_writer p a = None /\ exists ws h d, writers a = Some ws /\
    a' = a <| files := d |> <| store ::= <[next_writer a := mkWriter p h [] 0 false now]> |> <| next_writer := S (next_writer a) |> <| writers := Some (<[p := next_writer a]> ws) |>).
Proof.
  unfold OpenRecording, find_writer. destruct (writers a ≫= _) as [w|] eqn:Hw; [intros [= <- <-]; by left|]. destruct (negb dir); [intros [= <- <-]; by left|].
  destruct (negb created); [intros [= <- <-]; by left|]. destruct (Create p (files a)) as [h d]. destruct (writers a) as [ws|] eqn:Hws; cbn; rewrite Hws; intros [= <- <-] Hp; [|done].
  right. split_and!; [done..|]. by exists ws, h, d.
Qed.

Lemma placed_open tr s p w wr d a : placed tr s -> filed (ar s) (handled tr) -> (forall v r, store (ar s) !! v = Some r -> path r <> p) -> forall ws, writers (ar s) = Some ws -> path wr = p -> closed wr = false ->
  w = next_writer (ar s) -> a = ar s <| files := d |> <| store ::= <[w := wr]> |> <| next_writer := S w |> <| writers := Some (<[p := w]> ws) |> ->
  placed (tr ++ [Opened p w]) (s <| ar := a |>).
Proof.
  intros [O C M U S K P F] Hfi Hnew ws Hws Hp Hc -> ->. set (w := next_writer (ar s)).
  assert (forall v r, store (ar s) !! v = Some r -> v <> w) as Hold by (intros v r Hv ->; apply (fi_old _ _ Hfi) in Hv; unfold w in Hv; lia).
  assert (forall v, is_Some (store (ar s) !! v) -> is_Some (<[w := wr]> (store (ar s)) !! v)) as Hmore by (intros v Hv; destruct (decide (v = w)) as [->|Hne]; [rewrite lookup_insert_eq; eauto|by rewrite lookup_insert_ne]).
  assert (w ∉ closings tr) as Hcw by (intros [r Hr]%C; by eapply Hold).
  assert (closings (tr ++ [Opened p w]) = closings tr) as Ec by (by rewrite closings_app, app_nil_r).
  assert (handled (tr ++ [Opened p w]) = handled tr) as Eh by (by rewrite handled_app, app_nil_r).
  constructor; rewrite ?Ec, ?Eh; cbn.
  - intros q v. rewrite opened_app, elem_of_app, O. change (opened [Opened p w]) with [(p, w)]. rewrite list_elem_of_singleton. split.
    + intros [(r & Hr & Hq)|[= -> ->]]; [exists r; split; [|done]; rewrite lookup_insert_ne; [done|by apply not_eq_sym, (Hold _ r)]|]. exists wr. by rewrite lookup_insert_eq.
    + intros (r & Hr & Hq). apply lookup_insert_Some in Hr as [[<- <-]|[_ Hr]]; [right; congruence|left; eauto].
  - intros v Hv. by apply Hmore, C.
  - intros ws' q v [= <-] Hq. apply lookup_insert_Some in Hq as [[<- <-]|[Hne Hq]]; [split; [done|]; exists wr; by rewrite lookup_insert_eq|].
    destruct (M _ _ _ Hws Hq) as (Hv & r & Hr & ? & ?). split; [done|]. exists r. split; [rewrite lookup_insert_ne; [done|by apply not_eq_sym, (Hold _ r)]|done].
  - intros ws' v r [= <-] Hr Hv. apply lookup_insert_Some in Hr as [[<- <-]|[Hne Hr]]; [rewrite Hp; apply lookup_insert_eq|]. rewrite lookup_insert_ne; [by eapply U|]. intros E. by eapply Hnew.
  - done.
  - done.
  - intros op Hop. by apply Hmore, P.
  - done.
Qed.

Lemma placed_close tr s p w : placed tr s -> find_writer p (ar s) = Some w ->
  placed (tr ++ [Closing w]) (s <| ar ::= remove_writer p |> <| closers ::= fun l => l ++ [(w, false)] |>).
Proof.
  intros [O C M U S K P F] Hw. unfold find_writer in Hw. destruct (writers (ar s)) as [ws|] eqn:Hws; [|done]. cbn in Hw.
  destruct (M _ _ _ eq_refl Hw) as (Hnw & wr & Hwr & Hp & Hc).
  assert (closings (tr ++ [Closing w]) = closings tr ++ [w]) as Ec by apply closings_app.
  assert (opened (tr ++ [Closing w]) = opened tr /\ handled (tr ++ [Closing w]) = handled tr) as [Eo Eh] by (by rewrite opened_app, handled_app, !app_nil_r).
  constructor; rewrite ?Ec, ?Eo, ?Eh; cbn; rewrite ?Hws; cbn.
  - done.
  - intros v. rewrite elem_of_app, list_elem_of_singleton. intros [Hv| ->]; [by apply C|eauto].
  - intros ws' q v [= <-] Hq. apply lookup_delete_Some in Hq as [Hne Hq]. destruct (M _ _ _ eq_refl Hq) as (Hnv & r & Hr & Hrq & Hrc). split; [|eauto].
    rewrite elem_of_app, list_elem_of_singleton. intros [Hv| ->]; [done|]. congruence.
  - intros ws' v r [= <-] Hr. rewrite elem_of_app, list_elem_of_singleton. intros Hv. assert (ws !! path r = Some v) as Hpv by (apply (U _ _ _ eq_refl Hr); tauto).
    rewrite lookup_delete_ne; [done|]. intros E. rewrite <- E, Hw in Hpv. injection Hpv as <-. tauto.
  - done.
  - intros v b. rewrite !elem_of_app, !list_elem_of_singleton. intros [Hv|[= -> ->]]; [left; by eapply K|by right].
  - done.
  - intros op Hop. apply elem_of_app. left. by apply F.
Qed.

(** What the end of [Stop] does to a writer of the map. *)
Lemma closed_one now r w a h wr : filed a h -> io_ok r = true -> store a !! w = Some wr -> closed wr = false ->
  exists wr', store (close w (flush now r w a).2) !! w = Some wr' /\ path wr' = path wr /\ closed wr' = true /\ buffer wr' = [].
Proof.
  intros H Hr Hw Hc. destruct r; [|done]. destruct (fi_file _ _ H _ _ Hw) as (Hb & i & c & Hn & Hi & Hcc & Ho). unfold flush. rewrite Hw, Hc. cbn [orb].
  destruct (bufLen wr =? 0)%nat eqn:Hz.
  - cbn [snd]. unfold close. rewrite Hw, Hc. cbn. rewrite lookup_insert_eq. exists (wr <| closed := true |>). apply Nat.eqb_eq in Hz.
    split_and!; [done..|]. cbn. destruct (buffer wr); [done|]. cbn in *. lia.
  - destruct (Write_done (files a) (file wr) i (length c) c (take (bufLen wr) (buffer wr)) (path wr) (Ho Hc) Hi Hn) as (d & -> & _). cbn [snd].
    unfold close. cbn. rewrite lookup_insert_eq. cbn. rewrite Hc. cbn. rewrite lookup_insert_eq. eexists. by split_and!.
Qed.

Lemma other_writer now r v w a : v <> w -> store (close w (flush now r w a).2) !! v = store a !! v.
Proof.
  intros Hne. unfold flush. destruct (store a !! w) as [wr|] eqn:Hw; [|unfold close; cbn [snd]; by rewrite Hw]. destruct (closed wr || _); cbn [snd].
  - unfold close. rewrite Hw. case_match; [done|]. cbn. by rewrite lookup_insert_ne.
  - destruct (Write _ _ _ _) as [[? []] ?]; unfold close; cbn; rewrite ?lookup_insert_eq, ?Hw; case_match; cbn; by rewrite ?lookup_insert_ne.
Qed.

Lemma close_all_fold now order : forall a h, filed a h -> Forall (fun wr => io_ok wr.2 = true) order ->
  let a' := foldl (fun a wr => close wr.1 (flush now wr.2 wr.1 a).2) a order in
  filed a' h /\ evolves (fun v => v ∈ order.*1) a a' /\ forall w wr, w ∈ order.*1 -> store a !! w = Some wr -> closed wr = false -> exists wr', store a' !! w = Some wr' /\ closed wr' = true /\ buffer wr' = [].
Proof.
  induction order as [|[w r] order IH]; intros a h Ha Hok; cbn [foldl fst snd].
  { split_and!; [done|apply evolves_refl|]. intros w wr Hw. by apply elem_of_nil in Hw. }
  apply Forall_cons in Hok as [Hr Hok]. cbn in Hr. assert (filed (flush now r w a).2 h) as Hf.
  { apply filed_flush; [done|]. unfold flush. destruct (store a !! w) as [wr|] eqn:Hw; [|done]. destruct (closed wr) eqn:Hc; [done|]. destruct (bufLen wr =? 0)%nat; [done|]. cbn [orb].
    destruct (fi_file _ _ Ha _ _ Hw) as (_ & i & c & _ & _ & _ & Ho). unfold Write. rewrite Ho by done. by rewrite Hr. }
  destruct (IH (close w (flush now r w a).2) h (filed_close _ _ _ Hf) Hok) as (IH1 & IH2 & IH3). cbv zeta.
  set (a1 := close w (flush now r w a).2) in *. set (a' := foldl _ a1 order) in *.
  assert (evolves (fun v => v ∈ (w :: order.*1)) a a1) as Hev. { eapply evolves_trans; [apply evolves_flush|]. apply evolves_close. left. }
  split_and!; [done| |].
  - eapply evolves_trans; [exact Hev|]. intros v. specialize (IH2 v). destruct (store a1 !! v), (store a' !! v); try done. destruct IH2 as (?&?&[?|?]); split_and!; auto. right. by right.
  - intros v vr Hv Hvr Hvc. destruct (decide (v = w)) as [->|Hne].
    + destruct (closed_one now r w a h vr Ha Hr Hvr Hvc) as (wr' & Hwr' & _ & Hc' & Hb'). destruct (evolves_fwd _ _ _ _ _ IH2 Hwr') as (r' & Hr' & _ & Heq & _).
      rewrite (Heq Hc') in Hr'. eauto.
    + apply elem_of_cons in Hv as [?|Hv]; [done|]. destruct (evolves_fwd _ _ _ _ _ Hev Hvr) as (r1 & Hr1 & _ & _ & Hcl).
      assert (store a1 !! v = Some vr) as Hsame by (unfold a1; by rewrite other_writer). eauto.
Qed.

(** ** Both invariants over a run *)

Definition recorded (tr : list event) (s : system) : Prop := filed (ar s) (handled tr) /\ placed tr s.

(** A step that leaves writers and files alone. *)
Lemma recorded_quiet tr evs s s' : recorded tr s -> handled evs = [] -> opened evs = [] -> closings evs = [] ->
  store (ar s') = store (ar s) -> files (ar s') = files (ar s) -> next_writer (ar s') = next_writer (ar s) -> writers (ar s') = writers (ar s) ->
  pool s' = pool s -> closers s' = closers s -> (forall op, op ∈ ops_of s' -> is_Some (store (ar s) !! writer op)) -> recorded (tr ++ evs) s'.
Proof.
  intros [Hf Hp] Eh Eo Ec Es Ef En Ew Epl Ecl Hops. split.
  - rewrite handled_app, Eh, app_nil_r. by eapply filed_ext.
  - eapply placed_evolves; [exact Hp|done|done| |done|by rewrite Epl|rewrite Ecl; apply (pl_closers _ _ Hp)|done|].
    + eapply evolves_ext; [apply evolves_refl|done].
    + rewrite Eh. intros op Hop. by apply elem_of_nil in Hop.
Qed.

Lemma flush_writers now r w a : writers (flush now r w a).2 = writers a.
Proof. unfold flush. by repeat case_match. Qed.
Lemma flush_queue now r w a : queue (flush now r w a).2 = queue a.
Proof. apply same_flush. Qed.

(** A step of a caller, which may put its frame into the queue. *)
Lemma recorded_caller tr evs s l1 c l2 a c' : recorded tr s -> callers s = l1 ++ c :: l2 -> handled evs = [] -> opened evs = [] -> closings evs = [] ->
  store a = store (ar s) -> files a = files (ar s) -> next_writer a = next_writer (ar s) -> writers a = writers (ar s) ->
  Forall (fun x => x = op_of c) (map op_of c') -> queue a ⊆ queue (ar s) ++ [op_of c] -> recorded (tr ++ evs) (s <| ar := a |> <| callers := l1 ++ c' ++ l2 |>).
Proof.
  intros H Hc Eh Eo Ec Es Ef En Ew Hm Hq. apply (recorded_quiet _ _ s); try done. intros op Hop. apply (pl_ops _ _ (proj2 H)).
  assert (op_of c ∈ ops_of s) as Hmine by (unfold ops_of; rewrite Hc, map_app; apply elem_of_app; left; apply elem_of_app; right; left).
  unfold ops_of in *. cbn in Hop. rewrite !map_app, !elem_of_app in Hop. rewrite Hc, !map_app in *. cbn [map] in *. rewrite !elem_of_app, elem_of_cons in *. rewrite Forall_forall in Hm.
  destruct Hop as [[Hop|[Hop|Hop]]|[Hop|Hop]]; [tauto|rewrite (Hm _ Hop); tauto|tauto|tauto|].
  apply Hq, elem_of_app in Hop as [Hop|Hop%list_elem_of_singleton]; [tauto|]. subst. tauto.
Qed.

(** A flush that does not fail. *)
Lemma recorded_flush tr s now r w s' : recorded tr s -> failures (failure (flush now r w (ar s)).1 w) = [] ->
  store (ar s') = store (flush now r w (ar s)).2 -> files (ar s') = files (flush now r w (ar s)).2 -> next_writer (ar s') = next_writer (flush now r w (ar s)).2 ->
  writers (ar s') = writers (ar s) -> queue (ar s') = queue (ar s) -> pool s' = pool s -> callers s' = callers s -> (forall w b, (w, b) ∈ closers s' -> w ∈ closings tr) ->
  recorded (tr ++ failure (flush now r w (ar s)).1 w) s'.
Proof.
  intros [Hf Hp] Hok Es Ef En Ew Eq Epl Eca Hcl. destruct (flush now r w (ar s)).1 eqn:Hfl; [|done]. cbn [failure]. rewrite app_nil_r. split.
  - eapply filed_ext; [by apply filed_flush|done..].
  - rewrite <- (app_nil_r tr). eapply placed_evolves; [exact Hp|done|done| |done|by rewrite Epl|done| |].
    + eapply evolves_ext; [apply evolves_flush|done].
    + unfold ops_of. rewrite Eca, Epl, Eq. apply (pl_ops _ _ Hp).
    + intros op Hop. by apply elem_of_nil in Hop.
Qed.

(** The writer of a frame that a worker fails to write is being closed. *)
Lemma refused_closing tr s op err a : placed tr s -> op ∈ ops_of s -> ~ Forall (fun k => k = Exited) (pool s) -> write (writer op) (Data (frame op)) (ar s) = (err, a) -> is_ok err = false -> writer op ∈ closings tr.
Proof.
  intros H Hop Hx Hw Herr. destruct (pl_ops _ _ H _ Hop) as [wr Hwr]. unfold write in Hw. rewrite Hwr in Hw. destruct (closed wr) eqn:Hc; injection Hw as <- <-; [|done].
  destruct (decide (writer op ∈ closings tr)) as [|Hn]; [done|]. destruct (writers (ar s)) as [ws|] eqn:Hws; [|by destruct (pl_stopped _ _ H Hws)].
  pose proof (pl_open _ _ H _ _ _ Hws Hwr Hn) as Hm. destruct (pl_map _ _ H _ _ _ Hws Hm) as (_ & r & Hr & _ & ?). congruence.
Qed.

Lemma recorded_worker tr s l1 k l2 evs a k' : recorded tr s -> pool s = l1 ++ k :: l2 -> worker_step (ar s) k evs a k' -> recorded (tr ++ evs) (s <| ar := a |> <| pool := l1 ++ k' :: l2 |>).
Proof.
  intros [Hf Hp] Hpool Hk. destruct (worker_moves _ _ _ _ _ Hk) as (_ & Hm & _).
  assert (~ Forall (fun k => k = Exited) (pool s)) as Hx by (rewrite Hpool; intros [_ [-> _]%Forall_cons]%Forall_app; inversion Hk).
  assert (forall op, op ∈ held_of k ++ queue (ar s) -> op ∈ ops_of s) as Hin.
  { intros op. unfold ops_of. rewrite Hpool, bind_app, bind_cons, !elem_of_app. tauto. }
  assert (forall op, op ∈ ops_of (s <| ar := a |> <| pool := l1 ++ k' :: l2 |>) -> is_Some (store (ar s) !! writer op)) as Hops.
  { intros op Hop. apply (pl_ops _ _ Hp). unfold ops_of in Hop. cbn in Hop. rewrite bind_app, bind_cons, !elem_of_app in Hop.
    assert (op ∈ held_of k' ++ queue a -> op ∈ ops_of s) as Hmine by (intros Ho; apply Hin; rewrite Hm; apply elem_of_app; by right).
    rewrite elem_of_app in Hmine. unfold ops_of in *. rewrite Hpool, bind_app, bind_cons, !elem_of_app in *. tauto. }
  assert ((store a = store (ar s) /\ files a = files (ar s) /\ next_writer a = next_writer (ar s) /\ writers a = writers (ar s) /\ handled evs = [] /\ opened evs = [] /\ closings evs = []) \/
    exists op err, evs = [Handled op (is_ok err)] /\ write (writer op) (Data (frame op)) (ar s) = (err, a) /\ op ∈ held_of k) as [(E1 & E2 & E3 & E4 & E5 & E6 & E7)|(op & err & -> & Hw & Hop)].
  { destruct Hk; try (left; by split_and!); try (right; eexists _, _; split_and!; [done|done|cbn; set_solver]). left. unfold count_processed. by repeat case_match. }
  - split; [rewrite handled_app, E5, app_nil_r; by eapply filed_ext|]. eapply placed_evolves; [exact Hp|done|done| |done|done|apply (pl_closers _ _ Hp)|done|].
    + eapply evolves_ext; [apply evolves_refl|done].
    + rewrite E5. intros op Hop. by apply elem_of_nil in Hop.
  - assert (op ∈ ops_of s) as Hops_op by (apply Hin, elem_of_app; by left). split.
    + rewrite handled_app. destruct (pl_ops _ _ Hp _ Hops_op) as [wr Hwr]. eapply filed_write; [done| |done]. by eapply (fi_old _ _ Hf).
    + pose proof (evolves_write (fun v => v ∈ closings tr) (writer op) (Data (frame op)) (ar s)) as Hev. rewrite Hw in Hev.
      eapply placed_evolves; [exact Hp|done|done|exact Hev| |done|apply (pl_closers _ _ Hp)|done|].
      * cbn. unfold write in Hw. repeat case_match; by injection Hw as _ <-.
      * intros op' Hop'. apply list_elem_of_singleton in Hop'. injection Hop' as <- He. by eapply refused_closing.
Qed.

Lemma recorded_open tr s p now dir created r a : recorded tr s -> OpenRecording p now dir created (ar s) = (r, a) -> r <> Panic ->
  let evs := match find_writer p (ar s), r with None, Ok _ => [Opened p (next_writer (ar s))] | _, _ => [] end in
  NoDup (opened (tr ++ evs)).*1 -> recorded (tr ++ evs) (s <| ar := a |>).
Proof.
  intros [Hf Hp] Ho Hr. cbv zeta. destruct (open_cases _ _ _ _ _ _ _ Ho Hr) as [[-> Hnone]|(-> & Hnone & ws & h & d & Hws & ->)].
  - intros _. replace (match find_writer p (ar s), r with None, Ok _ => _ | _, _ => [] end) with (@nil event); [rewrite app_nil_r; by destruct s|].
    destruct (find_writer p (ar s)); [done|]. destruct r as [[]|err| |]; [by destruct Hnone|done..].
  - rewrite Hnone. intros Hnd. rewrite opened_app, fmap_app in Hnd. apply NoDup_app in Hnd as (_ & Hnd & _).
    assert (forall v r, store (ar s) !! v = Some r -> path r <> p) as Hnew.
    { intros v r Hv E. apply (Hnd p); [|left]. apply list_elem_of_fmap. exists (p, v). split; [done|]. apply (pl_opened _ _ Hp). eauto. }
    split; [|exact (placed_open tr s p (next_writer (ar s)) (mkWriter p h [] 0 false now) d _ Hp Hf Hnew ws Hws eq_refl eq_refl eq_refl eq_refl)]. rewrite handled_app, app_nil_r. eapply filed_open; [exact Hf| |exact Ho|done]. eauto.
Qed.

Lemma recorded_stopped tr s now order ws : recorded tr s -> writers (ar s) = Some ws -> Forall (fun k => k = Exited) (pool s) -> order.*1 ≡ₚ (map_to_list ws).*2 ->
  let evs := order ≫= fun wr => failure (io_ok wr.2) wr.1 in failures evs = [] -> recorded (tr ++ evs) (s <| ar ::= close_all now order |>).
Proof.
  intros [Hf Hp] Hws Hx Horder evs Hok. assert (Forall (fun wr => io_ok wr.2 = true) order /\ evs = []) as [Hall ->].
  { clear -Hok. unfold evs in *. induction order as [|[w []] order IH]; cbn in *; [done| |done]. destruct IH; [done|]. split; [by constructor|done]. }
  rewrite app_nil_r. assert (forall w, w ∈ order.*1 <-> exists p, ws !! p = Some w) as Hin.
  { intros w. rewrite Horder, list_elem_of_fmap. split; [intros ([p v] & -> & Hv)|intros [p Hv]; exists (p, w); split; [done|]]; [exists p|]; by apply elem_of_map_to_list. }
  destruct (close_all_fold now order (ar s) (handled tr) Hf Hall) as (H1 & H2 & H3). set (a' := foldl _ _ order) in *.
  split; [by eapply filed_ext|]. destruct Hp as [O C M U S K P F]. constructor; cbn [ar set_field set_ar close_all writers set_writers pool closers]; fold a'; try done.
  - intros p w. rewrite O. split; intros (wr & Hwr & <-).
    + destruct (evolves_fwd _ _ _ _ _ H2 Hwr) as (r & Hr & Hpp & _). eauto.
    + destruct (evolves_back _ _ _ _ _ H2 Hwr) as (r & Hr & Hpp & _). eauto.
  - intros w Hw. destruct (C _ Hw) as [r Hr]. destruct (evolves_fwd _ _ _ _ _ H2 Hr) as (r' & ? & _). eauto.
  - intros _. split; [done|]. intros w wr Hwr Hn. destruct (evolves_back _ _ _ _ _ H2 Hwr) as (r & Hr & _). pose proof (U _ _ _ Hws Hr Hn) as Hm.
    destruct (M _ _ _ Hws Hm) as (_ & r' & Hr' & _ & Hc'). destruct (H3 w r) as (wr' & Hwr' & Hres); [apply Hin; eauto|done|congruence|]. change (store a' !! w = Some wr) in Hwr. congruence.
  - intros op Hop. destruct (same_close_all now order (ar s)) as (_ & Eq & _). unfold ops_of in Hop. cbn [ar callers pool set_field set_ar] in Hop. rewrite Eq in Hop.
    destruct (P op Hop) as [r Hr]. destruct (evolves_fwd _ _ _ _ _ H2 Hr) as (r' & ? & _). eauto.
Qed.

Lemma recorded_step tr s evs s' : recorded tr s -> step s evs s' -> NoDup (opened (tr ++ evs)).*1 -> failures evs = [] -> recorded (tr ++ evs) s'.
Proof.
  intros H Hs. pose proof H as [Hf Hp]. assert (forall op, op ∈ ops_of s -> is_Some (store (ar s) !! writer op)) as P by apply (pl_ops _ _ Hp).
  destruct Hs as [p now dir created s r a Ho Hr|p w s Hw|now r w l1 l2 s Hcl|w l1 l2 s Hcl|p w fr cb s Hw|op l1 l2 s Hc _|op l1 l2 s Hc _|op l1 l2 s Hc _|
    op l1 l2 a s Hc Hq He|op l1 l2 s Hc|k k' evs a l1 l2 s Hpool Hk|ws s|now r w ws s|s|s|now order ws s _ Hx Hws Horder]; intros Hnd Hno.
  - by eapply recorded_open.
  - split; [|by apply placed_close]. rewrite handled_app, app_nil_r. by eapply filed_ext.
  - apply recorded_flush; try done; cbn; [apply flush_writers|apply flush_queue|]. intros v b. pose proof (pl_closers _ _ Hp) as Hk. rewrite Hcl in Hk.
    rewrite elem_of_app, elem_of_cons. intros [Hv|[[= -> ->]|Hv]]; eapply Hk; apply elem_of_app; [by left|right; left|right; by right].
  - rewrite app_nil_r. pose proof (pl_closers _ _ Hp) as Hk. rewrite Hcl in Hk. assert (w ∈ closings tr) as Hin by (apply (Hk w true), elem_of_app; right; left). split; [by apply filed_close|].
    rewrite <- (app_nil_r tr). eapply placed_evolves; [exact Hp|done|done|by apply evolves_close| |done| | |].
    + cbn. unfold close. by repeat case_match.
    + intros v b. cbn. rewrite elem_of_app. intros Hv. eapply (Hk v b). rewrite elem_of_app, elem_of_cons. tauto.
    + intros op Hop. apply P. unfold ops_of in *. cbn in Hop. by rewrite (proj1 (proj2 (same_close w (ar s)))) in Hop.
    + intros op Hop. by apply elem_of_nil in Hop.
  - apply (recorded_quiet _ _ s); try done. intros op. unfold ops_of. cbn. rewrite map_app, elem_of_app, elem_of_app. intros [[Hop|Hop]|Hop]; [apply P; by apply elem_of_app; left| |apply P; by apply elem_of_app; right].
    apply list_elem_of_singleton in Hop as ->. cbn. unfold find_writer in Hw. destruct (writers (ar s)) as [ws|] eqn:Hws; [|done].
    destruct (pl_map _ _ Hp _ _ _ Hws Hw) as (_ & wr & Hwr & _). eauto.
  - apply (recorded_caller _ _ _ l1 (Found op) l2 _ []); try done. set_solver.
  - apply (recorded_caller _ _ _ l1 (Found op) l2 _ [Checked op]); try done; [by constructor|set_solver].
  - apply (recorded_caller _ _ _ l1 (Checked op) l2 _ []); try done. set_solver.
  - unfold enqueue in He. case_match; [|done]. injection He as <-. apply (recorded_caller _ _ _ l1 (Checked op) l2 _ [Sent op]); try done. by constructor.
  - apply (recorded_caller _ _ _ l1 (Sent op) l2 _ []); try done. set_solver.
  - by eapply recorded_worker.
  - by apply (recorded_quiet _ _ s).
  - apply recorded_flush; try done; cbn; [apply flush_writers|apply flush_queue|]. apply (pl_closers _ _ Hp).
  - by apply (recorded_quiet _ _ s).
  - by apply (recorded_quiet _ _ s).
  - by apply (recorded_stopped _ _ _ _ ws).
Qed.

Lemma recorded_run cfg d tr s : run cfg d tr s -> disk_ok d -> NoDup (opened tr).*1 -> failures tr = [] -> recorded tr s.
Proof.
  intros Hrun Hd. induction Hrun as [|tr s evs s' Hrun IH Hs]; intros Hnd Hno.
  - split; constructor; cbn; try done; try (by intros ? ?; rewrite lookup_empty); try (by intros ? Hx; apply elem_of_nil in Hx).
    + intros p w. split; [intros Hx; by apply elem_of_nil in Hx|]. intros (wr & Hwr & _). by rewrite lookup_empty in Hwr.
    + intros ws p w [= <-]. by rewrite lookup_empty.
    + intros w b Hx. by apply elem_of_nil in Hx.
    + intros op. unfold ops_of. cbn. rewrite app_nil_r. assert (forall n, replicate n (Collecting []) ≫= held_of = []) as -> by (intros n; induction n; [done|cbn; auto]). intros Hx. by apply elem_of_nil in Hx.
  - rewrite failed_app in Hno. apply app_eq_nil in Hno as [Hno1 Hno2]. eapply recorded_step; [|done..]. apply IH; [|done].
    rewrite opened_app, fmap_app in Hnd. by apply NoDup_app in Hnd as [? _].
Qed.

Lemma failure_quiet ok w : accepted (failure ok w) = [] /\ handled (failure ok w) = [].
Proof. by destruct ok. Qed.
Lemma open_quiet (found : option nat) (r : outcome async_error unit) p w : let evs := match found, r with None, Ok _ => [Opened p w] | _, _ => [] end in accepted evs = [] /\ handled evs = [].
Proof. by destruct found, r. Qed.
Lemma stop_quiet (order : list (nat * io)) : let evs := order ≫= (fun wr => failure (io_ok wr.2) wr.1) in accepted evs = [] /\ handled evs = [].
Proof.
  cbv zeta. induction order as [|[w r] order [IH1 IH2]]; [done|]. rewrite bind_cons, accepted_app, handled_app, IH1, IH2, !app_nil_r. apply failure_quiet.
Qed.

(** With one worker, frames are handled in the order they were accepted. *)
Lemma one_worker_order cfg d tr s : run cfg d tr s -> NumWorkers cfg = 1 -> exists k, pool s = [k] /\ accepted tr = (handled tr).*1 ++ held_of k ++ queue (ar s).
Proof.
  intros Hrun Hone. induction Hrun as [|tr s evs s' Hrun (k & Hk & IH) Hs]; [exists (Collecting []); cbn; by rewrite Hone|].
  rewrite accepted_app, handled_app, fmap_app. destruct Hs as [p now dir created s r a Ho _| | |w l1 l2 s| | | | |op l1 l2 a s Hc Hq He| |k0 k' evs a l1 l2 s Hpool Hw| |now r w ws s| | |now order ws s].
  11: { rewrite Hpool in Hk. destruct l1 as [|? [|]]; [|done..]. injection Hk as -> ->. exists k'. split; [done|]. destruct (worker_moves _ _ _ _ _ Hw) as (-> & Hm & _). rewrite app_nil_r, IH, <- app_assoc. by f_equal. }
  9: { unfold enqueue in He. case_match; [|done]. injection He as <-. exists k. split; [done|]. cbn. by rewrite IH, app_nil_r, <- !app_assoc. }
  all: exists k; split; [done|]; rewrite ?(proj1 (failure_quiet _ _)), ?(proj2 (failure_quiet _ _)), ?(proj1 (stop_quiet _)), ?(proj2 (stop_quiet _)).
  all: try (cbn; rewrite !app_nil_r; done).
  - destruct (open_quiet (find_writer p (ar s)) r p (next_writer (ar s))) as [-> ->]. cbn. rewrite !app_nil_r. pose proof (same_open p now dir created (ar s)) as (_ & E & _). rewrite Ho in E. cbn in E. by rewrite E.
  - cbn. by rewrite !app_nil_r, flush_queue.
  - cbn. rewrite !app_nil_r. by rewrite (proj1 (proj2 (same_close w (ar s)))).
  - unfold flush_counted. cbn. by rewrite !app_nil_r, flush_queue.
  - rewrite !app_nil_r. cbn [ar set_field set_ar]. by rewrite (proj1 (proj2 (same_close_all now order (ar s)))).
Qed.

(** ** Guarantees *)

Lemma bytes_perm l l' : l ≡ₚ l' -> bytes_of l = bytes_of l'.
Proof. unfold bytes_of. induction 1; cbn; lia. Qed.

(** C21: frames are conserved. In every interleaving of callers, workers, flusher,
    closing and shutdown, the frames the queue accepted are exactly those handled,
    those in the hands of workers and those still queued; queue and batches stay
    within their sizes; and the counters are those of the frames counted so far, so
    that, whenever no call is half way through, the gauge of queued bytes is exactly
    the bytes not yet handled. *)
Theorem async_conserved cfg d tr s : run cfg d tr s ->
  conserved cfg tr s /\
  ((callers s ≫= sent_of) = [] -> (pool s ≫= counting_of) = [] -> bytesQueued (ar s) = i64 (bytes_of ((pool s ≫= held_of) ++ queue (ar s)))).
Proof.
  intros Hrun. assert (conserved cfg tr s) as H.
  { induction Hrun as [|tr s evs s' Hrun IH Hs]; [|by eapply conserved_step]. constructor; cbn; try done.
    - rewrite app_nil_r. induction (Z.to_nat _) as [|n IH]; [done|]. by cbn in *.
    - exists [], []. split_and!; [done| |by repeat split]. induction (Z.to_nat _) as [|n IH]; [done|]. by cbn in *.
    - unfold count. cbn. lia.
    - apply Forall_replicate. unfold within, count. cbn. lia. }
  split; [done|]. intros E1 E2. destruct H as [_ F (en & co & H1 & H2 & _ & -> & _) _ _]. rewrite E1, app_nil_r in H1. rewrite E2, app_nil_r in H2.
  rewrite <- (bytes_perm _ _ H1), (bytes_perm _ _ F), <- (bytes_perm _ _ (fmap_Permutation fst _ _ H2)), bytes_app. f_equal. lia.
Qed.

Definition frames_for (w : nat) (ops : list recordingOp) : list Z := ops ≫= fun op => if bool_decide (writer op = w) then Data (frame op) else [].

Lemma data_frames w h : (forall op, (op, false) ∈ h -> writer op <> w) -> data_on w h = frames_for w h.*1.
Proof.
  unfold data_on, frames_for. induction h as [|[op ok] h IH]; intros Hh; [done|]. cbn. rewrite IH by (intros op' Hop; apply Hh; by right). f_equal.
  destruct ok; [by rewrite andb_true_r|]. rewrite bool_decide_false; [done|]. apply Hh. left.
Qed.

(** C22: a recorder with one worker that is stopped without closing the recording
    loses nothing it has taken from the queue: when it has stopped, the file of a
    recording that was opened once has the frames written to it, whole and in the
    order they were accepted; only frames put into the queue after the worker
    left can be missing. The disk does not fail. *)
Theorem stopped_file_complete cfg d tr s p w :
  run cfg d tr s -> NumWorkers cfg = 1 -> disk_ok d -> NoDup (opened tr).*1 -> failures tr = [] ->
  (p, w) ∈ opened tr -> w ∉ closings tr -> writers (ar s) = None ->
  exists taken, accepted tr = taken ++ queue (ar s) /\ content (files (ar s)) p = Some (frames_for w taken).
Proof.
  intros Hrun Hone Hd Hnd Hno Hop Hcl Hst. destruct (recorded_run _ _ _ _ Hrun Hd Hnd Hno) as [Hf Hp]. destruct (one_worker_order _ _ _ _ Hrun Hone) as (k & Hk & Hacc).
  destruct (pl_stopped _ _ Hp Hst) as [Hx Hc]. rewrite Hk in Hx. apply Forall_cons in Hx as [-> _]. apply (pl_opened _ _ Hp) in Hop as (wr & Hwr & <-).
  destruct (Hc _ _ Hwr Hcl) as [_ Hb]. destruct (fi_file _ _ Hf _ _ Hwr) as (_ & i & c & Hn & Hi & Hcc & _). exists (handled tr).*1. split; [done|].
  unfold content. rewrite Hn. cbn. rewrite Hi. f_equal. rewrite Hb, app_nil_r in Hcc. rewrite Hcc. apply data_frames. intros op Hop E. apply (pl_failed _ _ Hp) in Hop. by rewrite E in Hop.
Qed.

(** What follows a state. *)
Inductive steps : system -> list event -> system -> Prop :=
| steps_nil s : steps s [] s
| steps_cons s evs s1 tr s2 : step s evs s1 -> steps s1 tr s2 -> steps s (evs ++ tr) s2.

Lemma run_steps cfg d tr s tr' s' : run cfg d tr s -> steps s tr' s' -> run cfg d (tr ++ tr') s'.
Proof.
  intros H Hs. revert tr H. induction Hs as [s|s evs s1 tr' s2 H1 _ IH]; intros tr H; [by rewrite app_nil_r|]. rewrite app_assoc. eapply IH, run_step; done.
Qed.

Lemma evolves_close_all now order : forall a, evolves (fun _ => True) a (close_all now order a).
Proof.
  intros a. apply (evolves_ext _ _ (foldl (fun a wr => close wr.1 (flush now wr.2 wr.1 a).2) a order)); [|done]. revert a. induction order as [|[w r] order IH]; intros a; [apply evolves_refl|]. cbn [foldl fst snd].
  eapply evolves_trans; [|apply IH]. eapply evolves_trans; [apply evolves_flush|by apply evolves_close].
Qed.

Lemma refused op err a a' w wr : write (writer op) (Data (frame op)) a = (err, a') -> store a !! w = Some wr -> closed wr = true ->
  store a' !! w = Some wr /\ forall op' ok, (op', ok) ∈ [(op, is_ok err)] -> writer op' = w -> ok = false.
Proof.
  intros Hwr Hw Hc. split.
  - pose proof (evolves_write (fun _ => True) (writer op) (Data (frame op)) a) as H. rewrite Hwr in H. destruct (evolves_fwd _ _ _ _ _ H Hw) as (r & Hr & _ & Heq & _). by rewrite (Heq Hc) in Hr.
  - intros op' ok Hx <-. apply list_elem_of_singleton in Hx. injection Hx as -> ->. unfold write in Hwr. rewrite Hw, Hc in Hwr. by injection Hwr as <- _.
Qed.
Lemma worker_closed a k evs a' k' w wr : worker_step a k evs a' k' -> store a !! w = Some wr -> closed wr = true ->
  store a' !! w = Some wr /\ forall op ok, (op, ok) ∈ handled evs -> writer op = w -> ok = false.
Proof.
  intros Hk Hw Hc. destruct Hk; try (split; [done|]; intros ? ? Hx; by apply elem_of_nil in Hx); try (by eapply refused).
  split; [|intros ? ? Hx; by apply elem_of_nil in Hx]. unfold count_processed. by repeat case_match.
Qed.

(** A closed writer stays as it is, and what is written to it is refused. *)
Lemma closed_stays s evs s' w wr : step s evs s' -> store (ar s) !! w = Some wr -> closed wr = true -> (w < next_writer (ar s))%nat ->
  store (ar s') !! w = Some wr /\ forall op ok, (op, ok) ∈ handled evs -> writer op = w -> ok = false.
Proof.
  intros Hs Hw Hc Hold. assert (evolves (fun _ => True) (ar s) (ar s') -> store (ar s') !! w = Some wr) as Hev.
  { intros H. destruct (evolves_fwd _ _ _ _ _ H Hw) as (r & Hr & _ & Heq & _). by rewrite (Heq Hc) in Hr. }
  assert (handled evs = [] -> forall op ok, (op, ok) ∈ handled evs -> writer op = w -> ok = false) as Hnone by (intros -> op ok Hx; by apply elem_of_nil in Hx).
  destruct Hs as [p now dir created s r a Ho Hr| | |w' l1 l2 s| | | | |op l1 l2 a s _ _ He| |k k' evs a l1 l2 s _ Hk| | | | |now order ws s].
  all: try (split; [apply Hev|apply Hnone; (apply failure_quiet || apply stop_quiet || done)]; (exact (evolves_refl _ (ar s)) || apply evolves_flush || by apply evolves_close || apply evolves_close_all)).
  - split; [|apply Hnone, open_quiet]. cbn. destruct (open_cases _ _ _ _ _ _ _ Ho Hr) as [[-> _]|(_ & _ & ws & h & d & _ & ->)]; [done|]. cbn. rewrite lookup_insert_ne by lia. done.
  - split; [|by apply Hnone]. unfold enqueue in He. case_match; [|done]. by injection He as <-.
  - by eapply worker_closed.
Qed.

Lemma closed_for_good cfg d s tr' s' : steps s tr' s' -> forall tr w wr, run cfg d tr s -> disk_ok d -> NoDup (opened (tr ++ tr')).*1 -> failures (tr ++ tr') = [] ->
  store (ar s) !! w = Some wr -> closed wr = true -> store (ar s') !! w = Some wr /\ forall op ok, (op, ok) ∈ handled tr' -> writer op = w -> ok = false.
Proof.
  induction 1 as [s|s evs s1 tr' s2 Hs Hrest IH]; intros tr w wr Hrun Hd Hnd Hno Hw Hc.
  - split; [done|]. intros op ok Hx. by apply elem_of_nil in Hx.
  - rewrite app_assoc in Hnd, Hno. assert (recorded tr s) as [Hf _].
    { apply (recorded_run _ _ _ _ Hrun Hd).
      - rewrite opened_app, opened_app, !fmap_app, <- app_assoc in Hnd. by apply NoDup_app in Hnd as [? _].
      - rewrite failed_app, failed_app in Hno. by destruct (failures tr). }
    destruct (closed_stays _ _ _ _ _ Hs Hw Hc (fi_old _ _ Hf _ _ Hw)) as [Hw1 Hh]. destruct (IH (tr ++ evs) w wr) as [Hw2 Hh2]; [by eapply run_step|done..|].
    split; [done|]. intros op ok. rewrite handled_app, elem_of_app. intros [Hx|Hx]; [by apply Hh|by apply Hh2].
Qed.

(** Closing a recording loses the frames still queued for it. Once its writer is
    closed, every later frame a worker takes for it is refused, those accepted
    before the close included, and the file never changes again. *)
Theorem closed_recording_loses cfg d tr s tr' s' w wr :
  run cfg d tr s -> steps s tr' s' -> disk_ok d -> NoDup (opened (tr ++ tr')).*1 -> failures (tr ++ tr') = [] ->
  store (ar s) !! w = Some wr -> closed wr = true ->
  (forall op ok, Handled op ok ∈ tr' -> writer op = w -> ok = false) /\ content (files (ar s')) (path wr) = content (files (ar s)) (path wr).
Proof.
  intros Hrun Hs Hd Hnd Hno Hw Hc. destruct (closed_for_good _ _ _ _ _ Hs _ _ _ Hrun Hd Hnd Hno Hw Hc) as [Hw' Hh]. split.
  - intros op ok Hx. apply Hh. unfold handled. apply list_elem_of_omap. by exists (Handled op ok).
  - destruct (recorded_run _ _ _ _ (run_steps _ _ _ _ _ _ Hrun Hs) Hd Hnd Hno) as [Hf' _]. assert (recorded tr s) as [Hf _].
    { apply (recorded_run _ _ _ _ Hrun Hd); [rewrite opened_app, fmap_app in Hnd; by apply NoDup_app in Hnd as [? _]|]. rewrite failed_app in Hno. by destruct (failures tr). }
    destruct (fi_file _ _ Hf _ _ Hw) as (_ & i & c & Hn & Hi & Hcc & _), (fi_file _ _ Hf' _ _ Hw') as (_ & i' & c' & Hn' & Hi' & Hcc' & _).
    unfold content. rewrite Hn, Hn'. cbn. rewrite Hi, Hi'. f_equal. rewrite handled_app, data_app in Hcc'.
    replace (data_on w (handled tr')) with (@nil Z) in Hcc'; [rewrite app_nil_r, <- Hcc in Hcc'; by apply app_inv_tail in Hcc'|].
    symmetry. clear -Hh. unfold data_on. induction (handled tr') as [|[op ok] h IH]; [done|]. cbn. rewrite IH by (intros op' ok' Hx; apply Hh; by right). rewrite app_nil_r.
    case_bool_decide as E; [|done]. by rewrite (Hh op ok (list_elem_of_here _ _) E).
Qed.

(** ** The buffered writer *)

(** One call, with a writer behind it that does not fail. *)
Definition buffered_step (b : BufferedRecordingWriter) (o : option (list Z)) : BufferedRecordingWriter :=
  match o with Some data => (buffered_Write data Done Done b).2 | None => (buffered_Flush Done b).2 end.

Definition buffered_ok (size : nat) (b : BufferedRecordingWriter) (written : list Z) : Prop :=
  flushSize b = size /\ length (b_buffer b) = size /\ (b_bufLen b <= size)%nat /\ sink b ++ take (b_bufLen b) (b_buffer b) = written.

Lemma write_at_fits k data l : (k + length data <= length l)%nat -> length (write_at k data l) = length l /\ take (k + length data) (write_at k data l) = take k l ++ data.
Proof.
  intros Hl. unfold write_at. replace (k - length l)%nat with 0%nat by lia. cbn [replicate app]. split; [rewrite !length_app, length_take, length_drop; lia|].
  rewrite app_assoc, take_app_le by (rewrite length_app, length_take; lia). apply take_ge. rewrite length_app, length_take. lia.
Qed.

Lemma buffered_keeps size b written o : buffered_ok size b written -> buffered_ok size (buffered_step b o) (written ++ default [] o).
Proof.
  intros (Hs & Hl & Hb & Hw). destruct o as [data|]; cbn [buffered_step default].
  - unfold buffered_Write. rewrite Hs. destruct (size <=? length data)%nat eqn:E1.
    + destruct (0 <? b_bufLen b)%nat eqn:E2; unfold buffered_ok; cbn; [split_and!; [done|done|lia|by rewrite app_nil_r, Hw]|].
      apply Nat.ltb_ge in E2. replace (b_bufLen b) with 0%nat in * by lia. cbn in *. rewrite app_nil_r in *. split_and!; [done|done|lia|by rewrite Hw].
    + apply Nat.leb_gt in E1. destruct (size <? b_bufLen b + length data)%nat eqn:E2; unfold buffered_ok; cbn [snd sink_write set_field set_sink set_b_bufLen set_b_buffer sink b_buffer b_bufLen flushSize io_bytes io_ok].
      * destruct (write_at_fits 0 data (b_buffer b)) as [H1 H2]; [lia|]. cbn in H2. cbn. rewrite H1, H2, Hw. split_and!; try done; lia.
      * apply Nat.ltb_ge in E2. destruct (write_at_fits (b_bufLen b) data (b_buffer b)) as [H1 H2]; [lia|]. rewrite H1, H2, app_assoc, Hw. split_and!; try done; lia.
  - rewrite app_nil_r. unfold buffered_Flush. destruct (b_bufLen b =? 0)%nat; [by split_and!|]. unfold buffered_ok. cbn. split_and!; [done|done|lia|by rewrite app_nil_r].
Qed.

(** The buffered writer is transparent. Whatever is written and flushed in
    whatever pieces, what the writer behind it was given and then the buffer is what
    was written, byte for byte, the buffer never exceeds its size, and after a flush
    nothing is left in it. *)
Theorem buffered_transparent n b calls : NewBufferedRecordingWriter n = Ok b ->
  buffered_ok (Z.to_nat n) (foldl buffered_step b calls) (calls ≫= default []) /\
  sink (foldl buffered_step b (calls ++ [None])) = calls ≫= default [].
Proof.
  intros Hn. assert (forall l b w, buffered_ok (Z.to_nat n) b w -> buffered_ok (Z.to_nat n) (foldl buffered_step b l) (w ++ (l ≫= default []))) as Hall.
  { induction l as [|o l IH]; intros b0 w H; [by rewrite app_nil_r|]. cbn [foldl]. rewrite bind_cons, app_assoc. by apply IH, buffered_keeps. }
  unfold NewBufferedRecordingWriter in Hn. destruct (n <? 0) eqn:E; [done|]. injection Hn as <-. set (b := mkBuffered _ _ _ _).
  assert (buffered_ok (Z.to_nat n) (foldl buffered_step b calls) (calls ≫= default [])) as H.
  { apply (Hall calls b []). unfold buffered_ok. cbn. rewrite length_replicate. split_and!; [done|done|lia|done]. }
  split; [done|]. rewrite foldl_app. cbn. destruct H as (_ & _ & _ & <-). unfold buffered_Flush.
  destruct (b_bufLen (foldl buffered_step b calls) =? 0)%nat eqn:Ez; [|done]. apply Nat.eqb_eq in Ez. cbn. by rewrite Ez, app_nil_r.
Qed.

(** A flush that fails forgets what was buffered, and the next one reports success. *)
Example failed_flush_forgets :
  exists b b1, NewBufferedRecordingWriter 4 = Ok b /\ buffered_Flush (Broken 0) (buffered_Write [1; 2] Done Done b).2 = (false, b1) /\
    buffered_Flush Done b1 = (true, b1) /\ sink b1 = [].
Proof. eexists _, _. by split_and!. Qed.

(** ** Runs that go wrong *)

Definition one_frame (b : Z) : RecordingFrame := mkFrame [b] 0 "" 0 0.
Definition one_op (b : Z) : recordingOp := mkOp (one_frame b) 0 None.

(** Takes a run one step further and evaluates the state. *)
Ltac evaluate H :=
  match type of H with run ?c ?d ?tr ?s => let tr' := eval vm_compute in tr in let s' := eval vm_compute in s in change (run c d tr' s') in H end.
Ltac advance H step_lemma :=
  eapply run_step in H; [|eapply step_lemma; try reflexivity; first [done|left; done|right; done|idtac]]; evaluate H.
(** A step of the worker behind the workers [l]. *)
Ltac work H l worker_lemma :=
  eapply run_step in H; [|eapply (s_work _ _ _ _ l); [reflexivity|eapply worker_lemma; try reflexivity; first [done|right; done|left; cbn; lia|idtac]]]; evaluate H.
(** A call of [WriteFrame] from its beginning to its end. *)
Ltac write_frame H b :=
  advance H (s_find "a" 0 (one_frame b) None); advance H (s_under (one_op b) [] []); advance H (s_send (one_op b) [] []); advance H (s_count (one_op b) [] []).
(** A worker that has a frame buffers it. *)
Ltac handle H l := work H l k_collected; work H l k_write; work H l k_count; work H l k_again.

(** With the two workers of the default configuration frames change places: each
    worker takes one, and the second is faster. *)
Theorem two_workers_reorder : exists tr s, run DefaultAsyncRecordingConfig no_files tr s /\
  map (fun op => Data (frame op)) (accepted tr) = [[1]; [2]] /\ content (files (ar s)) "a" = Some [2; 1].
Proof.
  pose proof (run_start DefaultAsyncRecordingConfig no_files) as H.
  advance H (s_open "a" 0 true true). write_frame H 1. write_frame H 2.
  work H (@nil worker_state) k_first. work H [Collecting [one_op 1]] k_first.
  handle H [Collecting [one_op 1]]. handle H (@nil worker_state).
  advance H (s_tick [0%nat]). advance H (s_flush 0 Done 0 []).
  eexists _, _. split; [exact H|]. by split.
Qed.

(** A session that is stopped loses what its workers have not taken yet, although
    every write was accepted: [Stop] closes the recording before the workers empty
    the queue. *)
Example session_stop_loses :
  let s0 := (session_Start 0 true true (NewAsyncRecordingSession None "a" no_files)).2 in
  let '(e1, s1) := session_Write [1] 1 s0 in
  let '(e2, s2) := session_Write [2] 2 s1 in
  let '(r, s3) := session_Stop 3 Done true [] s2 in
  e1 = None /\ e2 = None /\ r = Ok tt /\ content (files (session_recorder s3)) "a" = Some [] /\ errors (session_recorder s3) = 2.
Proof. vm_compute. done. Qed.

(** After [Stop] the map of writers is nil and opening a recording panics. *)
Lemma open_after_stop p now a : writers a = None -> (OpenRecording p now true true a).1 = Panic.
Proof. intros H. unfold OpenRecording. rewrite H. cbn. by rewrite H. Qed.

(** ** The pipeline *)

Lemma close_sessions_lookup now order : forall rp callID, sessions (close_sessions now order rp) !! callID = if bool_decide (callID ∈ order.*1) then None else sessions rp !! callID.
Proof.
  induction order as [|[c r] order IH]; intros rp callID; [done|]. unfold close_sessions in *. cbn [foldl fst snd]. rewrite IH.
  assert (sessions (closeSessionLocked c now r true rp).2 = delete c (sessions rp)) as ->.
  { unfold closeSessionLocked. destruct (sessions rp !! c) as [s|] eqn:E; [by destruct (CloseRecording _ _ _ _ _)|]. by rewrite delete_id. }
  change (((c, r) :: order).*1) with (c :: order.*1). rewrite (bool_decide_ext (callID ∈ c :: order.*1) (callID = c \/ callID ∈ order.*1)) by apply elem_of_cons.
  destruct (decide (callID = c)) as [->|Hne].
  - rewrite lookup_delete_eq, (bool_decide_true (c = c \/ _)) by auto. by case_match.
  - rewrite lookup_delete_ne by done. do 2 case_bool_decide; naive_solver.
Qed.

(** The recordings that are closed for idleness are exactly those whose last write is
    longer ago than the timeout. *)
Theorem expired_exact now order rp : order.*1 ≡ₚ (map_to_list (sessions rp)).*1 ->
  sessions (checkExpiredSessions now order rp) = filter (fun cs => Time_Sub now (lastWrite cs.2) <= AutoCloseTimeout (pipeline_config rp)) (sessions rp).
Proof.
  intros Hord. apply map_eq. intros callID. unfold checkExpiredSessions. rewrite close_sessions_lookup, map_lookup_filter.
  assert (callID ∈ (filter (fun c => is_expired now rp c.1 = true) order).*1 <-> is_expired now rp callID = true) as Hin.
  { rewrite list_elem_of_fmap. split; [intros ([c r] & -> & [H _]%list_elem_of_filter); done|]. intros He. unfold is_expired in He. destruct (sessions rp !! callID) as [s|] eqn:E; [|done].
    assert (callID ∈ order.*1) as ([c r] & -> & Hc)%list_elem_of_fmap by (rewrite Hord; apply list_elem_of_fmap; exists (callID, s); split; [done|by apply elem_of_map_to_list]).
    exists (c, r). split; [done|]. apply list_elem_of_filter. split; [|done]. cbn [fst] in *. unfold is_expired. by rewrite E. }
  rewrite (bool_decide_ext _ _ Hin). unfold is_expired. destruct (sessions rp !! callID) as [s|]; cbn; [|by case_match].
  case_bool_decide as Hb; [rewrite option_guard_False; [done|lia]|rewrite option_guard_True; [done|lia]].
Qed.

Inductive pipeline_op := PStart (callID : string) (now : Z) (dir created : bool) | PWrite (callID : string) (data : list Z) (timestamp now : Z) | PStop (callID : string) (now : Z) (r : io) | PExpire (now : Z) (order : list (string * io)).
Definition pipeline_step (rp : RecordingPipeline) (o : pipeline_op) : RecordingPipeline :=
  match o with
  | PStart callID now dir created => (StartRecording callID now dir created rp).2
  | PWrite callID data timestamp now => (WriteRecording callID data timestamp now rp).2
  | PStop callID now r => (StopRecording callID now r true rp).2
  | PExpire now order => checkExpiredSessions now order rp
  end.

(** However recordings are started, written, stopped and closed for idleness, there
    are never more at a time than the configuration allows. *)
Theorem pipeline_bounded cfg d ops : let rp := foldl pipeline_step (NewRecordingPipeline (Some cfg) d) ops in
  Z.of_nat (size (sessions rp)) <= Z.max 0 (MaxConcurrent cfg).
Proof.
  cbv zeta. assert (forall ops rp, pipeline_config rp = cfg -> Z.of_nat (size (sessions rp)) <= Z.max 0 (MaxConcurrent cfg) ->
    Z.of_nat (size (sessions (foldl pipeline_step rp ops))) <= Z.max 0 (MaxConcurrent cfg)) as H; [|apply H; [done|]; change (0 <= Z.max 0 (MaxConcurrent cfg)); lia].
  assert (forall now order rp, pipeline_config (close_sessions now order rp) = pipeline_config rp) as Hc.
  { intros now order. unfold close_sessions. induction order as [|[c r] order IH]; intros rp; [done|]. cbn [foldl]. rewrite IH. unfold closeSessionLocked. repeat case_match; done. }
  assert (forall (m m' : gmap string recordingSession), (forall k, is_Some (m !! k) -> is_Some (m' !! k)) -> (size m <= size m')%nat) as Hsub.
  { intros m m' Hm. rewrite <- !size_dom. apply subseteq_size. intros k. rewrite !elem_of_dom. apply Hm. }
  clear ops. induction ops as [|o ops IH]; intros rp Hcfg Hs; [done|]. cbn [foldl]. apply IH; destruct o as [callID now dir created|callID data ts now|callID now r|now order]; cbn [pipeline_step].
  - unfold StartRecording. case_match; [done|]. case_match; [done|]. destruct (OpenRecording _ _ _ _ _) as [[[]|e| |] a]; done.
  - unfold WriteRecording. case_match; [|done]. by destruct (WriteFrame _ _ _).
  - unfold StopRecording, closeSessionLocked. case_match; [|done]. by destruct (CloseRecording _ _ _ _ _).
  - unfold checkExpiredSessions. by rewrite Hc.
  - unfold StartRecording. destruct (sessions rp !! callID) as [s|] eqn:E; [done|]. destruct (_ <=? _) eqn:El; [done|]. apply Z.leb_gt in El. rewrite Hcfg in El.
    destruct (OpenRecording _ _ _ _ _) as [[[]|e| |] a]; try done. cbn. rewrite map_size_insert_None by done. lia.
  - unfold WriteRecording. destruct (sessions rp !! callID) as [s|] eqn:E; [|done]. destruct (WriteFrame _ _ _). cbn. rewrite map_size_insert_Some by eauto. done.
  - unfold StopRecording, closeSessionLocked. destruct (sessions rp !! callID) as [s|] eqn:E; [|done]. destruct (CloseRecording _ _ _ _ _). cbn. pose proof (Hsub (delete callID (sessions rp)) (sessions rp)) as H.
    etrans; [|exact Hs]. apply inj_le, H. intros k [x Hk]. apply lookup_delete_Some in Hk as [_ Hk]. eauto.
  - etrans; [|exact Hs]. apply inj_le, Hsub. intros k. unfold checkExpiredSessions. rewrite close_sessions_lookup. by case_match.
Qed.

(** ** Witnesses *)

Definition one_worker : AsyncRecordingConfig := mkAsyncConfig 4 1 1 1 100 1.

Lemma sample_stopped : exists tr s, run one_worker no_files tr s /\ NoDup (opened tr).*1 /\ failures tr = [] /\ (("a"%string, 0%nat) ∈ opened tr) /\ (0%nat ∉ closings tr) /\
  writers (ar s) = None /\ accepted tr = [one_op 1; one_op 2] /\ queue (ar s) = [].
Proof.
  pose proof (run_start one_worker no_files) as H. advance H (s_open "a" 0 true true). write_frame H 1. write_frame H 2.
  work H (@nil worker_state) k_first. advance H s_stop. handle H (@nil worker_state). work H (@nil worker_state) k_stop.
  work H (@nil worker_state) k_drain. work H (@nil worker_state) k_drained. work H (@nil worker_state) k_count. work H (@nil worker_state) k_exit.
  advance H (s_stopped 0 [(0%nat, Done)]). eexists _, _. split; [exact H|]. split_and!; try done; try (apply (bool_decide_unpack _); vm_compute; exact I).
Qed.

(** A frame is queued, its recording closed, and then a worker takes it. *)
Lemma sample_closed : exists tr s tr' s' wr, run one_worker no_files tr s /\ steps s tr' s' /\ NoDup (opened (tr ++ tr')).*1 /\ failures (tr ++ tr') = [] /\
  store (ar s) !! 0%nat = Some wr /\ closed wr = true /\ (Accepted (one_op 1) ∈ tr) /\ (Handled (one_op 1) false ∈ tr').
Proof.
  pose proof (run_start one_worker no_files) as H. advance H (s_open "a" 0 true true). write_frame H 1. advance H (s_close "a" 0).
  advance H (s_close_flush 0 Done 0 [] []). advance H (s_closed 0 [] []). eexists _, _, _, _, _. split; [exact H|]. clear H. split.
  - eapply steps_cons; [eapply (s_work _ _ _ _ []); [reflexivity|eapply k_first; reflexivity]|]. eapply steps_cons; [eapply (s_work _ _ _ _ []); [reflexivity|eapply k_collected; [done|by right]]|].
    eapply steps_cons; [eapply (s_work _ _ _ _ []); [reflexivity|eapply k_write; reflexivity]|]. apply steps_nil.
  - split_and!; [apply (bool_decide_unpack _); vm_compute; exact I|reflexivity|reflexivity|reflexivity|right; left|left].
Qed.

Lemma async_conserved_witness : exists tr s, conserved one_worker tr s /\ accepted tr = [one_op 1; one_op 2].
Proof. destruct sample_stopped as (tr & s & H & _ & _ & _ & _ & _ & Ha & _). exists tr, s. split; [exact (proj1 (async_conserved one_worker no_files tr s H))|exact Ha]. Defined.

Lemma stopped_file_complete_witness : exists s : system, content (files (ar s)) "a" = Some [1; 2].
Proof.
  destruct sample_stopped as (tr & s & H & Hnd & Hno & Hop & Hcl & Hst & Ha & Hq).
  destruct (stopped_file_complete one_worker no_files tr s "a" 0 H eq_refl no_files_ok Hnd Hno Hop Hcl Hst) as (taken & Ht & Hc).
  exists s. rewrite Hc. rewrite Hq, app_nil_r, Ha in Ht. rewrite <- Ht. reflexivity.
Defined.

Lemma closed_recording_loses_witness : exists tr tr' s s', run one_worker no_files tr s /\ steps s tr' s' /\ (Accepted (one_op 1) ∈ tr) /\
  forall op ok, Handled op ok ∈ tr' -> writer op = 0%nat -> ok = false.
Proof.
  destruct sample_closed as (tr & s & tr' & s' & wr & H & Hs & Hnd & Hno & Hw & Hc & Ha & Hh). exists tr, tr', s, s'. split; [exact H|]. split; [exact Hs|]. split; [exact Ha|].
  exact (proj1 (closed_recording_loses one_worker no_files tr s tr' s' 0 wr H Hs no_files_ok Hnd Hno Hw Hc)).
Defined.

Lemma buffered_transparent_witness : exists b, NewBufferedRecordingWriter 4 = Ok b /\ sink (foldl buffered_step b ([Some [1; 2; 3]; Some [4; 5]; None; Some [6]] ++ [None])) = [1; 2; 3; 4; 5; 6].
Proof. eexists. split; [reflexivity|]. apply (buffered_transparent 4 _ [Some [1; 2; 3]; Some [4; 5]; None; Some [6]]). reflexivity. Defined.
