(* ===== verification/GracefulShutdown.v ===== *)
(** * Graceful shutdown

    Models src/internal/graceful_shutdown.go: the manager that stops accepting
    connections, waits for those there are and runs the shutdown callbacks, the
    trackers of connections, and the sessions counted as connections.

    Hooks and callbacks are known by their names; what they return is an argument,
    and the manager's state has a log of those that ran. Admission is two steps, the
    load of the state and the update of the counter; drains, the monitor and the
    trackers take their steps in any order. Waiting is a step that may come at any
    time. Log lines and the maps of statistics are left out. *)

From Stdlib Require Import ZArith Lia ZifyNat String Sorting.
From stdpp Require Import base numbers list gmap strings sorting.
From S2P Require Import Prelude.

Local Open Scope Z_scope.
Local Open Scope go_scope.
#[local] Arguments wraps : simpl never.

(** ** Data *)

Inductive DrainState := DrainStateNormal | DrainStateDraining | DrainStateDrained.
#[export] Instance DrainState_dec : EqDecision DrainState.
Proof. solve_decision. Defined.
Definition DrainState_String (s : DrainState) : string :=
  match s with DrainStateNormal => "normal" | DrainStateDraining => "draining" | DrainStateDrained => "drained" end.

Record GracefulShutdownConfig := mkShutdownConfig { DrainTimeout : Z; ShutdownTimeout : Z; HealthCheckGrace : Z; NewConnRejectDelay : Z }.
Definition DefaultGracefulShutdownConfig : GracefulShutdownConfig := mkShutdownConfig (30 * Second) (10 * Second) (5 * Second) (1 * Second).

Record ShutdownCallback := mkCallback { Name : string; Priority : Z }.

(** The channels are known by whether they are closed. *)
Record GracefulShutdownManager := mkManager {
  config : GracefulShutdownConfig; state : DrainState; activeConns : Z; drainStart : Z; shutdownStart : Z;
  callbacks : list ShutdownCallback; drainHooks : list string; drainCh_closed : bool; doneCh_closed : bool;
  hooks_run : list string; callbacks_run : list string }.
#[export] Instance set_config : Setter config := fun f r =>
  mkManager (f (config r)) (state r) (activeConns r) (drainStart r) (shutdownStart r) (callbacks r) (drainHooks r) (drainCh_closed r) (doneCh_closed r) (hooks_run r) (callbacks_run r).
#[export] Instance set_state : Setter state := fun f r =>
  mkManager (config r) (f (state r)) (activeConns r) (drainStart r) (shutdownStart r) (callbacks r) (drainHooks r) (drainCh_closed r) (doneCh_closed r) (hooks_run r) (callbacks_run r).
#[export] Instance set_activeConns : Setter activeConns := fun f r =>
  mkManager (config r) (state r) (f (activeConns r)) (drainStart r) (shutdownStart r) (callbacks r) (drainHooks r) (drainCh_closed r) (doneCh_closed r) (hooks_run r) (callbacks_run r).
#[export] Instance set_drainStart : Setter drainStart := fun f r =>
  mkManager (config r) (state r) (activeConns r) (f (drainStart r)) (shutdownStart r) (callbacks r) (drainHooks r) (drainCh_closed r) (doneCh_closed r) (hooks_run r) (callbacks_run r).
#[export] Instance set_shutdownStart : Setter shutdownStart := fun f r =>
  mkManager (config r) (state r) (activeConns r) (drainStart r) (f (shutdownStart r)) (callbacks r) (drainHooks r) (drainCh_closed r) (doneCh_closed r) (hooks_run r) (callbacks_run r).
#[export] Instance set_callbacks : Setter callbacks := fun f r =>
  mkManager (config r) (state r) (activeConns r) (drainStart r) (shutdownStart r) (f (callbacks r)) (drainHooks r) (drainCh_closed r) (doneCh_closed r) (hooks_run r) (callbacks_run r).
#[export] Instance set_drainHooks : Setter drainHooks := fun f r =>
  mkManager (config r) (state r) (activeConns r) (drainStart r) (shutdownStart r) (callbacks r) (f (drainHooks r)) (drainCh_closed r) (doneCh_closed r) (hooks_run r) (callbacks_run r).
#[export] Instance set_drainCh_closed : Setter drainCh_closed := fun f r =>
  mkManager (config r) (state r) (activeConns r) (drainStart r) (shutdownStart r) (callbacks r) (drainHooks r) (f (drainCh_closed r)) (doneCh_closed r) (hooks_run r) (callbacks_run r).
#[export] Instance set_doneCh_closed : Setter doneCh_closed := fun f r =>
  mkManager (config r) (state r) (activeConns r) (drainStart r) (shutdownStart r) (callbacks r) (drainHooks r) (drainCh_closed r) (f (doneCh_closed r)) (hooks_run r) (callbacks_run r).
#[export] Instance set_hooks_run : Setter hooks_run := fun f r =>
  mkManager (config r) (state r) (activeConns r) (drainStart r) (shutdownStart r) (callbacks r) (drainHooks r) (drainCh_closed r) (doneCh_closed r) (f (hooks_run r)) (callbacks_run r).
#[export] Instance set_callbacks_run : Setter callbacks_run := fun f r =>
  mkManager (config r) (state r) (activeConns r) (drainStart r) (shutdownStart r) (callbacks r) (drainHooks r) (drainCh_closed r) (doneCh_closed r) (hooks_run r) (f (callbacks_run r)).
Definition NewGracefulShutdownManager (cfg : option GracefulShutdownConfig) : GracefulShutdownManager :=
  mkManager (default DefaultGracefulShutdownConfig cfg) DrainStateNormal 0 0 0 [] [] false false [] [].

(** ** Registration *)

(** One pass from the end of the slice to its beginning, swapping neighbours. *)
Fixpoint bubble (l : list ShutdownCallback) : list ShutdownCallback :=
  match l with
  | [] => []
  | x :: l => match bubble l with
              | [] => [x]
              | y :: l => if Priority y <? Priority x then y :: x :: l else x :: y :: l
              end
  end.
Definition RegisterShutdownCallback (name : string) (priority : Z) (m : GracefulShutdownManager) : GracefulShutdownManager :=
  m <| callbacks ::= fun l => bubble (l ++ [mkCallback name priority]) |>.
Definition RegisterDrainHook (name : string) (m : GracefulShutdownManager) : GracefulShutdownManager := m <| drainHooks ::= fun l => l ++ [name] |>.

(** ** Connections *)

Definition add_conns (n : Z) (m : GracefulShutdownManager) : GracefulShutdownManager := m <| activeConns ::= fun c => i64 (c + n) |>.

Definition IncrementConnections (m : GracefulShutdownManager) : bool * GracefulShutdownManager :=
  if bool_decide (state m = DrainStateNormal) then (true, add_conns 1 m) else (false, m).
Definition DecrementConnections (m : GracefulShutdownManager) : GracefulShutdownManager := add_conns (-1) m.
Definition GetActiveConnections (m : GracefulShutdownManager) : Z := activeConns m.
Definition IsDraining (m : GracefulShutdownManager) : bool := bool_decide (state m = DrainStateDraining) || bool_decide (state m = DrainStateDrained).
Definition IsAcceptingConnections (m : GracefulShutdownManager) : bool := bool_decide (state m = DrainStateNormal).

(** ** Drain and shutdown *)

(** Whether the drain was started; the monitor runs once the grace period is over. *)
Definition StartDrain (now : Z) (m : GracefulShutdownManager) : bool * GracefulShutdownManager :=
  if bool_decide (state m = DrainStateNormal) then
    (true, m <| state := DrainStateDraining |> <| drainStart := now |> <| hooks_run ::= fun l => l ++ drainHooks m |>)
  else (false, m).

(** The end of the monitor; closing a closed channel panics. *)
Definition finish_drain {E : Type} (m : GracefulShutdownManager) : outcome E unit * GracefulShutdownManager :=
  let m := m <| state := DrainStateDrained |> in
  if drainCh_closed m then (Panic, m) else (Ok tt, m <| drainCh_closed := true |>).
(** One tick of the monitor: [None] when connections remain. *)
Definition drain_tick {E : Type} (m : GracefulShutdownManager) : option (outcome E unit * GracefulShutdownManager) :=
  if activeConns m <=? 0 then Some (finish_drain m) else None.

(** What [Shutdown] does before it waits. *)
Definition shutdown_begin (now : Z) (m : GracefulShutdownManager) : GracefulShutdownManager :=
  let m := m <| shutdownStart := now |> in
  if bool_decide (state m = DrainStateNormal) then (StartDrain now m).2 else m.
(** What it does once the drain is over or the context is cancelled: [result] is
    what a callback returns. The error is that of the last callback that failed. *)
Definition run_callbacks {E : Type} (result : string -> option E) (l : list ShutdownCallback) : option E :=
  foldl (fun lastErr cb => match result (Name cb) with Some e => Some e | None => lastErr end) None l.
Definition shutdown_end {E : Type} (result : string -> option E) (m : GracefulShutdownManager) : outcome unit (option E) * GracefulShutdownManager :=
  let m' := m <| callbacks_run ::= fun l => l ++ map Name (callbacks m) |> in
  if doneCh_closed m then (Panic, m') else (Ok (run_callbacks result (callbacks m)), m' <| doneCh_closed := true |>).

(** ** Trackers of connections *)

(** A tracker is between the load and the update while [Entering]. *)
Inductive tracker := Idle | Entering | Tracked.
#[export] Instance tracker_dec : EqDecision tracker.
Proof. solve_decision. Defined.

(** [Track] and [Untrack] from beginning to end. *)
Definition Track (t : tracker) (m : GracefulShutdownManager) : bool * tracker * GracefulShutdownManager :=
  match t with
  | Tracked => (true, Tracked, m)
  | _ => let '(ok, m) := IncrementConnections m in (ok, if ok then Tracked else t, m)
  end.
Definition Untrack (t : tracker) (m : GracefulShutdownManager) : tracker * GracefulShutdownManager :=
  match t with Tracked => (Idle, DecrementConnections m) | _ => (t, m) end.

(** ** Sessions *)

Record DrainableSession := mkDrainable { ID : string; StartTime : Z; LastActive : Z; Draining : bool; DrainStart : Z; Connections : Z }.
#[export] Instance set_ID : Setter ID := fun f r =>
  mkDrainable (f (ID r)) (StartTime r) (LastActive r) (Draining r) (DrainStart r) (Connections r).
#[export] Instance set_StartTime : Setter StartTime := fun f r =>
  mkDrainable (ID r) (f (StartTime r)) (LastActive r) (Draining r) (DrainStart r) (Connections r).
#[export] Instance set_LastActive : Setter LastActive := fun f r =>
  mkDrainable (ID r) (StartTime r) (f (LastActive r)) (Draining r) (DrainStart r) (Connections r).
#[export] Instance set_Draining : Setter Draining := fun f r =>
  mkDrainable (ID r) (StartTime r) (LastActive r) (f (Draining r)) (DrainStart r) (Connections r).
#[export] Instance set_DrainStart : Setter DrainStart := fun f r =>
  mkDrainable (ID r) (StartTime r) (LastActive r) (Draining r) (f (DrainStart r)) (Connections r).
#[export] Instance set_Connections : Setter Connections := fun f r =>
  mkDrainable (ID r) (StartTime r) (LastActive r) (Draining r) (DrainStart r) (f (Connections r)).
Record SessionDrainManager := mkDrainManager { shutdownMgr : GracefulShutdownManager; sessions : gmap string DrainableSession }.
#[export] Instance set_shutdownMgr : Setter shutdownMgr := fun f r =>
  mkDrainManager (f (shutdownMgr r)) (sessions r).
#[export] Instance set_sessions : Setter sessions := fun f r =>
  mkDrainManager (shutdownMgr r) (f (sessions r)).
Definition NewSessionDrainManager (m : GracefulShutdownManager) : SessionDrainManager := mkDrainManager m ∅.

(** The answer of [IncrementConnections] is not looked at. *)
Definition RegisterSession (id : string) (now : Z) (sdm : SessionDrainManager) : SessionDrainManager :=
  sdm <| sessions ::= <[id := mkDrainable id now now false 0 0]> |> <| shutdownMgr ::= fun m => (IncrementConnections m).2 |>.
Definition UnregisterSession (id : string) (sdm : SessionDrainManager) : SessionDrainManager :=
  match sessions sdm !! id with
  | Some _ => sdm <| sessions ::= delete id |> <| shutdownMgr ::= DecrementConnections |>
  | None => sdm
  end.
Definition UpdateActivity (id : string) (now : Z) (sdm : SessionDrainManager) : SessionDrainManager :=
  sdm <| sessions ::= alter (fun s => s <| LastActive := now |>) id |>.
Definition MarkDraining (id : string) (now : Z) (sdm : SessionDrainManager) : SessionDrainManager :=
  sdm <| sessions ::= alter (fun s => s <| Draining := true |> <| DrainStart := now |>) id |>.
Definition GetActiveSessions (sdm : SessionDrainManager) : Z := Z.of_nat (size (sessions sdm)).
Definition GetDrainingSessions (sdm : SessionDrainManager) : Z := Z.of_nat (size (filter (fun kv : string * DrainableSession => Draining kv.2 = true) (sessions sdm))).
Definition DrainAllSessions (now : Z) (sdm : SessionDrainManager) : SessionDrainManager :=
  sdm <| sessions ::= fmap (fun s => if Draining s then s else s <| Draining := true |> <| DrainStart := now |>) |>.

(** ** Goroutines *)

(** Where the drain is: not begun, in its hooks and grace period, watched by the
    monitor, over. *)
Inductive drain_phase := NotBegun | Grace | Monitored | Over.

Record system := mkSystem { mgr : GracefulShutdownManager; trackers : gmap nat tracker; phase : drain_phase; crashed : bool }.
#[export] Instance set_mgr : Setter mgr := fun f r =>
  mkSystem (f (mgr r)) (trackers r) (phase r) (crashed r).
#[export] Instance set_trackers : Setter trackers := fun f r =>
  mkSystem (mgr r) (f (trackers r)) (phase r) (crashed r).
#[export] Instance set_phase : Setter phase := fun f r =>
  mkSystem (mgr r) (trackers r) (f (phase r)) (crashed r).
#[export] Instance set_crashed : Setter crashed := fun f r =>
  mkSystem (mgr r) (trackers r) (phase r) (f (crashed r)).
Definition end_drain (r : outcome unit unit) (m : GracefulShutdownManager) (s : system) : system :=
  s <| mgr := m |> <| phase := Over |> <| crashed ::= orb (if r is Panic then true else false) |>.

(** [d_start] is also what [Shutdown] does; a second one finds the state changed. *)
Inductive step : system -> system -> Prop :=
| t_new i s : trackers s !! i = None -> step s (s <| trackers ::= <[i := Idle]> |>)
| t_load i s : trackers s !! i = Some Idle -> (IncrementConnections (mgr s)).1 = true -> step s (s <| trackers ::= <[i := Entering]> |>)
| t_add i s : trackers s !! i = Some Entering -> step s (s <| mgr ::= add_conns 1 |> <| trackers ::= <[i := Tracked]> |>)
| t_untrack i s : trackers s !! i = Some Tracked -> step s (s <| mgr ::= DecrementConnections |> <| trackers ::= <[i := Idle]> |>)
| d_start now s : (StartDrain now (mgr s)).1 = true -> step s (s <| mgr := (StartDrain now (mgr s)).2 |> <| phase := Grace |>)
| d_begin now s : step s (s <| mgr ::= fun m => m <| shutdownStart := now |> |>)
| d_monitor s : phase s = Grace -> step s (s <| phase := Monitored |>)
| d_tick r m s : phase s = Monitored -> drain_tick (mgr s) = Some (r, m) -> step s (end_drain r m s)
| d_timeout s : phase s = Monitored -> step s (end_drain (finish_drain (mgr s)).1 (finish_drain (E := unit) (mgr s)).2 s).

Definition initial (cfg : GracefulShutdownConfig) : system := mkSystem (NewGracefulShutdownManager (Some cfg)) ∅ NotBegun false.

(** ** Invariant *)

Definition tracked (ts : gmap nat tracker) : Z := Z.of_nat (size (filter (fun kt : nat * tracker => kt.2 = Tracked) ts)).
Definition is_tracked (t : option tracker) : Z := match t with Some Tracked => 1 | _ => 0 end.
(** A connection that is let in, or will be. *)
Definition active (s : system) (i : nat) : Prop := trackers s !! i = Some Entering \/ trackers s !! i = Some Tracked.

Record sane (s : system) : Prop := {
  sa_conns : activeConns (mgr s) = i64 (tracked (trackers s));
  sa_phase : match phase s with
             | NotBegun => state (mgr s) = DrainStateNormal /\ drainCh_closed (mgr s) = false
             | Grace | Monitored => state (mgr s) = DrainStateDraining /\ drainCh_closed (mgr s) = false
             | Over => state (mgr s) = DrainStateDrained /\ drainCh_closed (mgr s) = true
             end;
  sa_crashed : crashed s = false }.

Lemma tracked_insert ts i t : tracked (<[i := t]> ts) = tracked ts + is_tracked (Some t) - is_tracked (ts !! i).
Proof.
  unfold tracked. set (P := fun kt : nat * tracker => kt.2 = Tracked). assert (filter P ts !! i = match ts !! i with Some Tracked => Some Tracked | _ => None end) as Hl.
  { rewrite map_lookup_filter. by destruct (ts !! i) as [[]|]. }
  assert (is_tracked (ts !! i) = match filter P ts !! i with Some _ => 1 | None => 0 end) as -> by (rewrite Hl; by destruct (ts !! i) as [[]|]).
  rewrite map_filter_insert. unfold P at 1. cbn [snd]. destruct (decide (t = Tracked)) as [->|Ht].
  - rewrite map_size_insert. destruct (filter P ts !! i); cbn; lia.
  - rewrite map_filter_delete, map_size_delete. destruct (filter P ts !! i) eqn:E; cbn; [|by destruct t; cbn; try lia; destruct Ht].
    assert (size (filter P ts) <> 0%nat) by (intros Ez%map_size_empty_iff; rewrite Ez in E; done). destruct t; cbn; try lia. by destruct Ht.
Qed.

Lemma sane_step s s' : sane s -> step s s' -> sane s'.
Proof.
  intros [Hc Hp Hx] Hs. destruct Hs as [i s Hi|i s Hi Hn|i s Hi|i s Hi|now s Hst|now s|s Hph|r m s Hph Ht|s Hph].
  - constructor; cbn; try done. rewrite tracked_insert, Hi, Hc. f_equal. cbn. lia.
  - constructor; cbn; try done. rewrite tracked_insert, Hi, Hc. f_equal. cbn. lia.
  - constructor; cbn; try done. rewrite tracked_insert, Hi, Hc, wraps_add_l by lia. f_equal. cbn. lia.
  - constructor; cbn; try done. rewrite tracked_insert, Hi, Hc, wraps_add_l by lia. f_equal. cbn. lia.
  - unfold StartDrain in *. case_bool_decide as Hn; [|done]. destruct (phase s); destruct Hp as [Hp1 Hp2]; try congruence. by constructor.
  - by constructor.
  - rewrite Hph in Hp. by constructor.
  - rewrite Hph in Hp. destruct Hp as [_ Hd]. unfold drain_tick, finish_drain in Ht. case_match; [|done]. cbn in Ht. rewrite Hd in Ht. injection Ht as <- <-. constructor; cbn; [done|done|by rewrite Hx].
  - rewrite Hph in Hp. destruct Hp as [_ Hd]. unfold finish_drain. cbn. rewrite Hd. constructor; cbn; [done|done|by rewrite Hx].
Qed.

Lemma sane_reachable cfg s : rtc step (initial cfg) s -> sane s.
Proof.
  intros H. assert (sane (initial cfg)) as H0 by (constructor; done). induction H as [s|s1 s2 s3 Hs _ IH]; [done|]. eapply IH, sane_step; done.
Qed.

(** While draining the state never goes back, and nobody enters. *)
Lemma drain_shrinks s s' : step s s' -> state (mgr s) <> DrainStateNormal ->
  state (mgr s') <> DrainStateNormal /\ forall i, active s' i -> active s i.
Proof.
  intros Hs Hn. unfold active. destruct Hs as [i s Hi|i s Hi Hn'|i s Hi|i s Hi|now s Hst|now s|s Hph|r m s Hph Ht|s Hph]; cbn.
  - split; [done|]. intros j Hj. destruct (decide (j = i)) as [->|Hne]; [rewrite lookup_insert_eq in Hj; naive_solver|by rewrite lookup_insert_ne in Hj].
  - unfold IncrementConnections in Hn'. by case_bool_decide.
  - split; [done|]. intros j Hj. destruct (decide (j = i)) as [->|Hne]; [by left|by rewrite lookup_insert_ne in Hj].
  - split; [done|]. intros j Hj. destruct (decide (j = i)) as [->|Hne]; [by right|by rewrite lookup_insert_ne in Hj].
  - unfold StartDrain in *. case_bool_decide; [done|done].
  - done.
  - done.
  - split; [|done]. unfold drain_tick, finish_drain in Ht. case_match; [|done]. cbn in Ht. case_match; by injection Ht as <- <-.
  - split; [|done]. unfold finish_drain. cbn. by case_match.
Qed.

(** ** Guarantees: draining *)

(** C25: draining is safe in every interleaving of trackers, drains, the monitor and
    its timeout. The counter of connections is the number of tracked ones, the
    channel is closed exactly when the drain is over and never twice; once the drain
    has begun no connection enters that was not already let in; and when the monitor
    ends the drain on a tick, no tracked connection is left. *)
Theorem drain_safe cfg s : rtc step (initial cfg) s ->
  sane s /\
  (forall s', state (mgr s) <> DrainStateNormal -> rtc step s s' -> forall i, active s' i -> active s i) /\
  (forall r m, drain_tick (E := unit) (mgr s) = Some (r, m) -> tracked (trackers s) < 2 ^ 63 -> state m = DrainStateDrained /\ forall i, trackers s !! i <> Some Tracked).
Proof.
  intros H. pose proof (sane_reachable _ _ H) as Hs. split; [done|]. split.
  - intros s' Hn Hr. clear H Hs. induction Hr as [s|s1 s2 s3 Hs _ IH]; [done|]. destruct (drain_shrinks _ _ Hs Hn) as [Hn2 Hi]. intros i Ha. by apply Hi, IH.
  - intros r m Ht Hlt. unfold drain_tick, finish_drain in Ht. destruct (activeConns (mgr s) <=? 0) eqn:E; [|done]. apply Z.leb_le in E. rewrite (sa_conns _ Hs) in E. unfold tracked in *.
    rewrite wraps_id in E by (unfold is_s; lia). split; [case_match; by injection Ht as <- <-|]. intros i Hi.
    assert (filter (fun kt : nat * tracker => kt.2 = Tracked) (trackers s) = ∅) as Hemp by (apply map_size_empty_iff; lia).
    assert (filter (fun kt : nat * tracker => kt.2 = Tracked) (trackers s) !! i = Some Tracked) as Hl by (by apply map_lookup_filter_Some). by rewrite Hemp in Hl.
Qed.

(** A connection that was let in just before the drain began may be counted after
    the drain is over. *)
Theorem admitted_after_drain cfg : exists s, rtc step (initial cfg) s /\ phase s = Over /\ trackers s !! 0%nat = Some Tracked /\ activeConns (mgr s) = 1.
Proof.
  eexists. split; [|split; [|split]].
  - eapply rtc_l; [apply (t_new 0); reflexivity|]. eapply rtc_l; [apply (t_load 0); reflexivity|]. eapply rtc_l; [apply (d_start 0); reflexivity|].
    eapply rtc_l; [apply d_monitor; reflexivity|]. eapply rtc_l; [eapply d_tick; reflexivity|]. eapply rtc_l; [apply (t_add 0); reflexivity|]. apply rtc_refl.
  - reflexivity.
  - reflexivity.
  - reflexivity.
Qed.

(** ** Guarantees: callbacks *)

Definition registered (l : list ShutdownCallback) (m : GracefulShutdownManager) : GracefulShutdownManager :=
  foldl (fun m cb => RegisterShutdownCallback (Name cb) (Priority cb) m) m l.
Definition before (x y : ShutdownCallback) : Prop := Priority x <= Priority y.

Lemma filter_refused (P : ShutdownCallback -> Prop) {HP : forall y, Decision (P y)} l : (forall y, y ∈ l -> ~ P y) -> filter P l = [].
Proof. induction l as [|y l IH]; intros H; [done|]. rewrite filter_cons, decide_False by (apply H; left). apply IH. intros y' Hy'. apply H. by right. Qed.

Lemma bubble_inserts x l : StronglySorted before l ->
  bubble (l ++ [x]) = filter (fun y => Priority y <= Priority x) l ++ x :: filter (fun y => Priority x < Priority y) l.
Proof.
  induction 1 as [|y l Hl IH Hy]; [done|]. cbn [app bubble]. rewrite IH, !filter_cons. destruct (decide (Priority y <= Priority x)) as [Hle|Hgt].
  - rewrite decide_False by lia. destruct (filter _ l) as [|z r] eqn:E; cbn [app]; [by rewrite (proj2 (Z.ltb_ge _ _))|].
    assert (z ∈ l) as Hz by (eapply list_elem_of_filter; rewrite E; left). rewrite Forall_forall in Hy. apply Hy in Hz. unfold before in Hz. by rewrite (proj2 (Z.ltb_ge _ _)).
  - rewrite decide_True by lia. assert (forall y', y' ∈ l -> Priority x < Priority y') as Hall by (intros y' Hy'; rewrite Forall_forall in Hy; apply Hy in Hy'; unfold before in Hy'; lia).
    rewrite (filter_refused (fun y => Priority y <= Priority x)) by (intros y' Hy'; apply Hall in Hy'; lia). cbn [app]. by rewrite (proj2 (Z.ltb_lt _ _)) by lia.
Qed.

Lemma sorted_inserted x l : StronglySorted before l -> StronglySorted before (filter (fun y => Priority y <= Priority x) l ++ x :: filter (fun y => Priority x < Priority y) l).
Proof.
  induction 1 as [|y l Hl IH Hy]; [by repeat constructor|]. rewrite !filter_cons. destruct (decide (Priority y <= Priority x)) as [Hle|Hgt].
  - rewrite decide_False by lia. cbn [app]. constructor; [done|]. apply Forall_app. split; [|constructor; [done|]]; apply Forall_forall; intros z [_ Hz]%list_elem_of_filter; rewrite Forall_forall in Hy; by apply Hy.
  - rewrite decide_True by lia. assert (forall y', y' ∈ l -> Priority x < Priority y') as Hall by (intros y' Hy'; rewrite Forall_forall in Hy; apply Hy in Hy'; unfold before in Hy'; lia).
    rewrite (filter_refused (fun y => Priority y <= Priority x)) in * by (intros y' Hy'; apply Hall in Hy'; lia). cbn [app] in *.
    inversion IH as [|? ? Hf Hx]; subst. constructor; [constructor; [done|]|constructor; [unfold before; lia|done]].
    apply Forall_forall. intros z [_ Hz]%list_elem_of_filter. rewrite Forall_forall in Hy. by apply Hy.
Qed.

Lemma inserted_perm x l : filter (fun y => Priority y <= Priority x) l ++ x :: filter (fun y => Priority x < Priority y) l ≡ₚ l ++ [x].
Proof.
  rewrite <- Permutation_middle, <- Permutation_cons_append. apply perm_skip. induction l as [|y l IH]; [done|]. rewrite !filter_cons.
  destruct (decide (Priority y <= Priority x)); [rewrite decide_False by lia; cbn [app]|rewrite decide_True by lia; rewrite <- Permutation_middle]; by apply perm_skip.
Qed.

(** Callbacks of one priority keep their order. *)
Lemma inserted_stable x l p : StronglySorted before l ->
  filter (fun y => Priority y = p) (filter (fun y => Priority y <= Priority x) l ++ x :: filter (fun y => Priority x < Priority y) l) = filter (fun y => Priority y = p) (l ++ [x]).
Proof.
  intros Hs. rewrite !filter_app, !filter_cons. destruct (decide (Priority x = p)) as [<-|Hne].
  - rewrite (filter_refused _ (filter (fun y => Priority x < Priority y) l)) by (intros y [Hy _]%list_elem_of_filter; lia). f_equal. clear Hs. induction l as [|y l IH]; [done|]. rewrite !filter_cons.
    destruct (decide (Priority y <= Priority x)); [rewrite filter_cons; by rewrite IH|]. rewrite decide_False by lia. done.
  - rewrite app_nil_r, <- filter_app. clear -Hs. induction Hs as [|y l Hl IH Hy]; [done|]. rewrite !filter_cons. destruct (decide (Priority y <= Priority x)) as [Hle|Hgt].
    + rewrite decide_False by lia. cbn [app]. rewrite !filter_cons. by rewrite IH.
    + rewrite decide_True by lia. rewrite (filter_refused (fun y => Priority y <= Priority x)) in * by (intros y' Hy'; rewrite Forall_forall in Hy; apply Hy in Hy'; unfold before in Hy'; lia).
      cbn [app] in *. rewrite !filter_cons. by rewrite IH.
Qed.

Lemma registered_sorted m regs : callbacks m = [] -> let l := callbacks (registered regs m) in
  StronglySorted before l /\ l ≡ₚ regs /\ forall p, filter (fun y => Priority y = p) l = filter (fun y => Priority y = p) regs.
Proof.
  intros Hm. cbv zeta. induction regs as [|x regs (IH1 & IH2 & IH3)] using rev_ind; [cbn; rewrite Hm; split_and!; [constructor|done|done]|].
  unfold registered in *. rewrite foldl_app. cbn [foldl]. set (m1 := foldl _ m regs) in *. unfold RegisterShutdownCallback. cbn. replace (mkCallback (Name x) (Priority x)) with x by (by destruct x).
  rewrite bubble_inserts by done. split_and!; [by apply sorted_inserted|by rewrite inserted_perm, IH2|]. intros p. by rewrite inserted_stable, !filter_app, IH3.
Qed.

Lemma last_error {E : Type} (result : string -> option E) l : run_callbacks result l = last (omap (fun cb => result (Name cb)) l).
Proof.
  unfold run_callbacks. induction l as [|cb l IH] using rev_ind; [done|]. rewrite foldl_app, omap_app. cbn. destruct (result (Name cb)); cbn; [by rewrite last_snoc|by rewrite app_nil_r].
Qed.

(** A shutdown runs every callback once, those of lower priority first and those
    of one priority in the order they were registered, and returns the error of the
    last one that failed; a second shutdown runs them all again and then panics on
    the closed channel. *)
Theorem shutdown_in_order {E : Type} cfg regs (result : string -> option E) now :
  let m := registered regs (NewGracefulShutdownManager (Some cfg)) in
  exists order m', StronglySorted before order /\ order ≡ₚ regs /\ (forall p, filter (fun y => Priority y = p) order = filter (fun y => Priority y = p) regs) /\
    shutdown_end result (shutdown_begin now m) = (Ok (last (omap (fun cb => result (Name cb)) order)), m') /\ callbacks_run m' = map Name order /\
    (shutdown_end result m').1 = Panic /\ callbacks_run (shutdown_end result m').2 = map Name order ++ map Name order.
Proof.
  intros m. destruct (registered_sorted (NewGracefulShutdownManager (Some cfg)) regs eq_refl) as (H1 & H2 & H3). fold m in H1, H2, H3.
  assert (forall l m0, doneCh_closed (registered l m0) = doneCh_closed m0 /\ callbacks_run (registered l m0) = callbacks_run m0) as Hreg
    by (unfold registered; induction l as [|x l IH]; intros m0; cbn [foldl]; [done|exact (IH (RegisterShutdownCallback (Name x) (Priority x) m0))]).
  destruct (Hreg regs (NewGracefulShutdownManager (Some cfg))) as [Hd Hc]. fold m in Hd, Hc. cbn in Hd, Hc.
  assert (exists m1, shutdown_begin now m = m1 /\ callbacks m1 = callbacks m /\ doneCh_closed m1 = false /\ callbacks_run m1 = []) as (m1 & -> & E1 & E2 & E3).
  { eexists. split; [reflexivity|]. unfold shutdown_begin, StartDrain. cbn. repeat case_match; by split_and!. }
  exists (callbacks m). unfold shutdown_end. rewrite E1, E2, last_error. eexists. split_and!; [done..|reflexivity| | |]; cbn; rewrite ?E1, ?E3; done.
Qed.

(** ** Sessions *)

Definition counted (sdm : SessionDrainManager) : Prop := activeConns (shutdownMgr sdm) = i64 (Z.of_nat (size (sessions sdm))).

(** As long as connections are accepted and identifiers are not used twice, the
    counter of connections is the number of sessions. *)
Theorem sessions_counted sdm id now : counted sdm -> state (shutdownMgr sdm) = DrainStateNormal -> sessions sdm !! id = None ->
  counted (RegisterSession id now sdm) /\ forall id', counted (UnregisterSession id' sdm).
Proof.
  intros Hc Hn Hid. unfold counted in *. split.
  - assert ((IncrementConnections (shutdownMgr sdm)).2 = add_conns 1 (shutdownMgr sdm)) as Hi by (unfold IncrementConnections; by rewrite bool_decide_true).
    unfold RegisterSession. cbn [shutdownMgr sessions set_field set_shutdownMgr set_sessions]. rewrite Hi, map_size_insert_None by done. cbn. rewrite Hc, wraps_add_l by lia. f_equal. lia.
  - intros id'. unfold UnregisterSession. destruct (sessions sdm !! id') as [s|] eqn:E; [|done]. cbn. rewrite Hc, wraps_add_l by lia. f_equal. rewrite map_size_delete, E.
    assert (size (sessions sdm) <> 0%nat) by (intros Ez%map_size_empty_iff; rewrite Ez in E; done). lia.
Qed.

(** A session that registers during the drain is refused, but counted out when it
    leaves: the drain ends although another session goes on. *)
Example refused_session_ends_drain :
  let sdm := RegisterSession "a" 0 (NewSessionDrainManager (NewGracefulShutdownManager None)) in
  let sdm := sdm <| shutdownMgr ::= fun m => (StartDrain 1 m).2 |> in
  let sdm := UnregisterSession "b" (RegisterSession "b" 2 sdm) in
  is_Some (drain_tick (E := unit) (shutdownMgr sdm)) /\ GetActiveSessions sdm = 1.
Proof. split; [by eexists|reflexivity]. Qed.

(** A session that registers twice is counted twice and counted out once: the drain
    waits for its timeout although no session is left. *)
Example repeated_session_blocks_drain :
  let sdm := NewSessionDrainManager (NewGracefulShutdownManager None) in
  let sdm := UnregisterSession "a" (RegisterSession "a" 1 (RegisterSession "a" 0 sdm)) in
  drain_tick (E := unit) (shutdownMgr sdm) = None /\ GetActiveSessions sdm = 0.
Proof. split; reflexivity. Qed.

(** ** Witnesses *)

Lemma drain_safe_witness : exists s, rtc step (initial DefaultGracefulShutdownConfig) s /\ state (mgr s) = DrainStateDraining /\ sane s.
Proof.
  assert (rtc step (initial DefaultGracefulShutdownConfig) (initial DefaultGracefulShutdownConfig <| mgr ::= fun m => (StartDrain 0 m).2 |> <| phase := Grace |>)) as H.
  { eapply rtc_l; [apply (d_start 0); reflexivity|]. apply rtc_refl. }
  eexists. split; [exact H|]. split; [reflexivity|]. exact (proj1 (drain_safe DefaultGracefulShutdownConfig _ H)).
Defined.
