(* ===== verification/ApiAuth.v ===== *)
(** * Access to the HTTP API

    Models src/internal/auth: the rate limiters of ratelimit.go, by token bucket on
    [float64], by sliding window and by key, and the API keys of apikey.go with
    their cache.

    The table of keys is what the code relies on of the database: rows found by the
    hash of a key, inserted and disabled; a query may fail. What the JSON library
    makes of a permissions column is a parameter. Validation and revocation are split
    where they let go of the lock, and these parts may interleave; the update of the
    time a key was last used is left out. *)

From Stdlib Require Import ZArith Lia ZifyNat Ascii String Floats.SpecFloat.
From stdpp Require Import base numbers list gmap strings.
From S2P Require Import Prelude GoFloat Sha256.

Local Open Scope Z_scope.
Local Open Scope go_scope.

(** ** Token buckets *)

Record bucket := mkBucket { tokens : float64; lastRefill : Z }.
Record RateLimiter := mkLimiter { rate : Z; period : Z; buckets : gmap string bucket; stopped : bool }.
#[export] Instance set_rate : Setter rate := fun f r =>
  mkLimiter (f (rate r)) (period r) (buckets r) (stopped r).
#[export] Instance set_period : Setter period := fun f r =>
  mkLimiter (rate r) (f (period r)) (buckets r) (stopped r).
#[export] Instance set_buckets : Setter buckets := fun f r =>
  mkLimiter (rate r) (period r) (f (buckets r)) (stopped r).
#[export] Instance set_stopped : Setter stopped := fun f r =>
  mkLimiter (rate r) (period r) (buckets r) (f (stopped r)).
Definition NewRateLimiter (r p : Z) : RateLimiter := mkLimiter r p ∅ false.

(** The bucket of a key, filled up for the time since it was last filled, and capped.
    [refillRate] is per nanosecond and is multiplied by seconds. *)
Definition refill (r p now : Z) (b : bucket) : bucket :=
  let refillRate := fdiv (of_int r) (of_int p) in
  let t := fadd (tokens b) (fmul (Seconds (Time_Sub now (lastRefill b))) refillRate) in
  mkBucket (if flt (of_int r) t then of_int r else t) now.
Definition take_tokens (n : Z) (b : bucket) : bool * bucket :=
  if fle (of_int n) (tokens b) then (true, mkBucket (fsub (tokens b) (of_int n)) (lastRefill b)) else (false, b).

Definition AllowN (now : Z) (key : string) (n : Z) (rl : RateLimiter) : bool * RateLimiter :=
  let b := default (mkBucket (of_int (rate rl)) now) (buckets rl !! key) in
  let '(ok, b) := take_tokens n (refill (rate rl) (period rl) now b) in
  (ok, rl <| buckets ::= <[key := b]> |>).
Definition Allow (now : Z) (key : string) : RateLimiter -> bool * RateLimiter := AllowN now key 1.

Definition Remaining (now : Z) (key : string) (rl : RateLimiter) : Z :=
  match buckets rl !! key with
  | None => rate rl
  | Some b => to_int64 (tokens (refill (rate rl) (period rl) now b))
  end.
Definition cleanup_stale (now : Z) (rl : RateLimiter) : RateLimiter :=
  rl <| buckets ::= filter (fun kb : string * bucket => Before (lastRefill kb.2) (Time_Add now (-5 * period rl)) = false) |>.
Definition Reset (key : string) (rl : RateLimiter) : RateLimiter := rl <| buckets ::= delete key |>.
Definition ResetAll (rl : RateLimiter) : RateLimiter := rl <| buckets := ∅ |>.
Definition SetRate (r : Z) (rl : RateLimiter) : RateLimiter := rl <| rate := r |>.
(** Closing the channel again panics. *)
Definition Stop (rl : RateLimiter) : outcome unit RateLimiter := if stopped rl then Panic else Ok (rl <| stopped := true |>).

Record RateLimiterStats := mkLimiterStats { st_Rate : Z; st_Period : Z; ActiveBuckets : Z }.
Definition GetStats (rl : RateLimiter) : RateLimiterStats := mkLimiterStats (rate rl) (period rl) (Z.of_nat (size (buckets rl))).

(** ** Rates by key *)

Record PerKeyRateLimiter := mkPerKey { defaultRate : Z; pk_period : Z; keyRates : gmap string Z; pk_buckets : gmap string bucket }.
#[export] Instance set_defaultRate : Setter defaultRate := fun f r =>
  mkPerKey (f (defaultRate r)) (pk_period r) (keyRates r) (pk_buckets r).
#[export] Instance set_pk_period : Setter pk_period := fun f r =>
  mkPerKey (defaultRate r) (f (pk_period r)) (keyRates r) (pk_buckets r).
#[export] Instance set_keyRates : Setter keyRates := fun f r =>
  mkPerKey (defaultRate r) (pk_period r) (f (keyRates r)) (pk_buckets r).
#[export] Instance set_pk_buckets : Setter pk_buckets := fun f r =>
  mkPerKey (defaultRate r) (pk_period r) (keyRates r) (f (pk_buckets r)).
Definition NewPerKeyRateLimiter (r p : Z) : PerKeyRateLimiter := mkPerKey r p ∅ ∅.
Definition SetKeyRate (key : string) (r : Z) (rl : PerKeyRateLimiter) : PerKeyRateLimiter := rl <| keyRates ::= <[key := r]> |>.
Definition pk_Allow (now : Z) (key : string) (rl : PerKeyRateLimiter) : bool * PerKeyRateLimiter :=
  let r := default (defaultRate rl) (keyRates rl !! key) in
  let b := default (mkBucket (of_int r) now) (pk_buckets rl !! key) in
  let '(ok, b) := take_tokens 1 (refill r (pk_period rl) now b) in
  (ok, rl <| pk_buckets ::= <[key := b]> |>).

(** ** Sliding windows *)

Record SlidingWindowRateLimiter := mkSliding { sw_rate : Z; window : Z; requests : gmap string (list Z) }.
#[export] Instance set_sw_rate : Setter sw_rate := fun f r =>
  mkSliding (f (sw_rate r)) (window r) (requests r).
#[export] Instance set_window : Setter window := fun f r =>
  mkSliding (sw_rate r) (f (window r)) (requests r).
#[export] Instance set_requests : Setter requests := fun f r =>
  mkSliding (sw_rate r) (window r) (f (requests r)).
Definition NewSlidingWindowRateLimiter (r w : Z) : SlidingWindowRateLimiter := mkSliding r w ∅.

Definition within_window (now w : Z) (l : list Z) : list Z := filter (fun t => After t (Time_Add now (- w)) = true) l.

Definition sw_Allow (now : Z) (key : string) (rl : SlidingWindowRateLimiter) : bool * SlidingWindowRateLimiter :=
  let filtered := within_window now (window rl) (default [] (requests rl !! key)) in
  if sw_rate rl <=? Z.of_nat (length filtered) then (false, rl <| requests ::= <[key := filtered]> |>)
  else (true, rl <| requests ::= <[key := filtered ++ [now]]> |>).
Definition sw_Remaining (now : Z) (key : string) (rl : SlidingWindowRateLimiter) : Z :=
  match requests rl !! key with
  | None => sw_rate rl
  | Some reqs => Z.max 0 (sw_rate rl - Z.of_nat (length (within_window now (window rl) reqs)))
  end.
Definition sw_Reset (key : string) (rl : SlidingWindowRateLimiter) : SlidingWindowRateLimiter := rl <| requests ::= delete key |>.

(** ** API keys *)

Inductive key_error := ErrInvalidKey | ErrKeyDisabled | ErrDatabase | ErrNoDatabase | ErrRandom.
#[export] Instance key_error_dec : EqDecision key_error.
Proof. solve_decision. Defined.

Definition hex_digit (n : Z) : ascii := ascii_of_N (Z.to_N (if n <? 10 then 48 + n else 87 + n)).
Fixpoint EncodeToString (l : list Z) : string :=
  match l with [] => EmptyString | b :: l => String (hex_digit (b / 16)) (String (hex_digit (b mod 16)) (EncodeToString l)) end.
Definition hashKey (key : string) : string := EncodeToString (Sum256 (bytes_of_string key)).

Record CachedKey := mkCached { Permissions : list string; RateLimit : Z; CachedAt : Z }.
(** A row of the table api_keys, found by its hash. *)
Record row := mkRow { row_id : string; row_name : string; row_permissions : string; row_rate_limit : Z; row_enabled : bool; row_created : Z }.
#[export] Instance set_row_id : Setter row_id := fun f r =>
  mkRow (f (row_id r)) (row_name r) (row_permissions r) (row_rate_limit r) (row_enabled r) (row_created r).
#[export] Instance set_row_name : Setter row_name := fun f r =>
  mkRow (row_id r) (f (row_name r)) (row_permissions r) (row_rate_limit r) (row_enabled r) (row_created r).
#[export] Instance set_row_permissions : Setter row_permissions := fun f r =>
  mkRow (row_id r) (row_name r) (f (row_permissions r)) (row_rate_limit r) (row_enabled r) (row_created r).
#[export] Instance set_row_rate_limit : Setter row_rate_limit := fun f r =>
  mkRow (row_id r) (row_name r) (row_permissions r) (f (row_rate_limit r)) (row_enabled r) (row_created r).
#[export] Instance set_row_enabled : Setter row_enabled := fun f r =>
  mkRow (row_id r) (row_name r) (row_permissions r) (row_rate_limit r) (f (row_enabled r)) (row_created r).
#[export] Instance set_row_created : Setter row_created := fun f r =>
  mkRow (row_id r) (row_name r) (row_permissions r) (row_rate_limit r) (row_enabled r) (f (row_created r)).
(** [db] is [None] without a database. *)
Record Authenticator := mkAuth { db : option (gmap string row); cache : gmap string CachedKey; cacheTTL : Z }.
#[export] Instance set_db : Setter db := fun f r =>
  mkAuth (f (db r)) (cache r) (cacheTTL r).
#[export] Instance set_cache : Setter cache := fun f r =>
  mkAuth (db r) (f (cache r)) (cacheTTL r).
#[export] Instance set_cacheTTL : Setter cacheTTL := fun f r =>
  mkAuth (db r) (cache r) (f (cacheTTL r)).
Definition NewAuthenticator (d : option (gmap string row)) : Authenticator := mkAuth d ∅ (5 * 60 * Second).

Definition PermAll : string := "*".

Section keys.
(** json.Unmarshal of the permissions column and json.Marshal of a list. *)
Context (unmarshal : string -> option (list string)) (marshal : list string -> string).

Definition cached_permissions (now : Z) (key : string) (a : Authenticator) : option (list string) :=
  c ← cache a !! key; if Time_Sub now (CachedAt c) <? cacheTTL a then Some (Permissions c) else None.

(** What the query gives: the permissions and the rate limit, or the error; [fails]
    is whether the database answers with an error of its own. *)
Definition lookup_key (key : string) (fails : bool) (a : Authenticator) : key_error + list string * Z :=
  match db a with
  | None => if bool_decide (key = "karl-dev-key"%string) then inr ([PermAll], 0) else inl ErrInvalidKey
  | Some rows =>
      if fails then inl ErrDatabase
      else match rows !! hashKey key with
           | None => inl ErrInvalidKey
           | Some r => if row_enabled r then inr (default [] (unmarshal (row_permissions r)), row_rate_limit r) else inl ErrKeyDisabled
           end
  end.
(** Only what a database gave is cached. *)
Definition store_key (now : Z) (key : string) (found : list string * Z) (a : Authenticator) : Authenticator :=
  match db a with None => a | Some _ => a <| cache ::= <[key := mkCached found.1 found.2 now]> |> end.

Definition ValidateKey (now : Z) (key : string) (fails : bool) (a : Authenticator) : (key_error + list string) * Authenticator :=
  match cached_permissions now key a with
  | Some perms => (inr perms, a)
  | None =>
      match lookup_key key fails a with
      | inl e => (inl e, a)
      | inr found => (inr found.1, store_key now key found a)
      end
  end.

(** [random] are the bytes of the key, [None] when they cannot be had; [id] and [now]
    are the identifier and the time of the row. The column of hashes is unique. *)
Definition generateKey (random : option (list Z)) : option string := r ← random; Some ("karl_" +:+ EncodeToString r).
Definition CreateKey (random : option (list Z)) (id name : string) (permissions : list string) (rateLimit now : Z) (fails : bool) (a : Authenticator)
    : (key_error + string) * Authenticator :=
  match generateKey random with
  | None => (inl ErrRandom, a)
  | Some key =>
      match db a with
      | None => (inr key, a)
      | Some rows =>
          if fails || bool_decide (is_Some (rows !! hashKey key)) then (inl ErrDatabase, a)
          else (inr key, a <| db := Some (<[hashKey key := mkRow id name (marshal permissions) rateLimit true now]> rows) |>)
      end
  end.

(** The two halves of [RevokeKey]. *)
Definition disable_key (keyHash : string) (a : Authenticator) : Authenticator := a <| db ::= fmap (alter (fun r => r <| row_enabled := false |>) keyHash) |>.
Definition purge_key (keyHash : string) (a : Authenticator) : Authenticator :=
  a <| cache ::= filter (fun kc : string * CachedKey => hashKey kc.1 <> keyHash) |>.
Definition RevokeKey (keyHash : string) (fails : bool) (a : Authenticator) : option key_error * Authenticator :=
  match db a with
  | None => (Some ErrNoDatabase, a)
  | Some _ => if fails then (Some ErrDatabase, a) else (None, purge_key keyHash (disable_key keyHash a))
  end.
Definition ClearCache (a : Authenticator) : Authenticator := a <| cache := ∅ |>.

Definition DefaultPermissions (role : string) : list string :=
  if bool_decide (role = "admin") then [PermAll]
  else if bool_decide (role = "operator") then ["session:read"; "session:write"; "session:delete"; "stats:read"; "recording:read"; "recording:write"]
  else if bool_decide (role = "viewer") then ["session:read"; "stats:read"; "recording:read"]
  else if bool_decide (role = "recorder") then ["recording:read"; "recording:write"]
  else [].

(** *** Validations and revocations side by side *)

(** A validation that missed the cache, then what its query gave. *)
Inductive call := Missed (key : string) | Fetched (key : string) (found : list string * Z).
Definition key_of (c : call) : string := match c with Missed key | Fetched key _ => key end.

Record system := mkSystem { auth : Authenticator; calls : list call }.
#[export] Instance set_auth : Setter auth := fun f r =>
  mkSystem (f (auth r)) (calls r).
#[export] Instance set_calls : Setter calls := fun f r =>
  mkSystem (auth r) (f (calls r)).
(** Each step with the answers it gives. *)
Inductive step : system -> list (string * (key_error + list string)) -> system -> Prop :=
| s_hit now key perms s : cached_permissions now key (auth s) = Some perms -> step s [(key, inr perms)] s
| s_miss now key s : cached_permissions now key (auth s) = None -> step s [] (s <| calls ::= fun l => l ++ [Missed key] |>)
| s_refused key fails e l1 l2 s : calls s = l1 ++ Missed key :: l2 -> lookup_key key fails (auth s) = inl e -> step s [(key, inl e)] (s <| calls := l1 ++ l2 |>)
| s_found key fails found l1 l2 s : calls s = l1 ++ Missed key :: l2 -> lookup_key key fails (auth s) = inr found -> step s [] (s <| calls := l1 ++ Fetched key found :: l2 |>)
| s_store now key found l1 l2 s : calls s = l1 ++ Fetched key found :: l2 ->
    step s [(key, inr found.1)] (s <| auth ::= store_key now key found |> <| calls := l1 ++ l2 |>)
| s_disable h s : step s [] (s <| auth ::= disable_key h |>)
| s_purge h s : step s [] (s <| auth ::= purge_key h |>)
| s_clear s : step s [] (s <| auth ::= ClearCache |>)
| s_create random id name permissions rateLimit now fails s :
    step s [] (s <| auth := (CreateKey random id name permissions rateLimit now fails (auth s)).2 |>).
Inductive steps : system -> list (string * (key_error + list string)) -> system -> Prop :=
| steps_nil s : steps s [] s
| steps_cons s1 l1 s2 l2 s3 : step s1 l1 s2 -> steps s2 l2 s3 -> steps s1 (l1 ++ l2) s3.
End keys.

(** ** Guarantees: sliding windows *)

(** Accepted requests after [t - w] and not after [t]. *)
Definition in_window (t w : Z) (l : list Z) : Z := Z.of_nat (length (filter (fun x => t - w < x <= t) l)).

(** The specification remembers every accepted request of a key. *)
Definition spec_allow (r w now : Z) (key : string) (h : gmap string (list Z)) : bool * gmap string (list Z) :=
  let l := default [] (h !! key) in
  if in_window now w l <? r then (true, <[key := l ++ [now]]> h) else (false, h).

Fixpoint sw_run (calls : list (Z * string)) (rl : SlidingWindowRateLimiter) : list bool :=
  match calls with [] => [] | (now, key) :: calls => let '(ok, rl) := sw_Allow now key rl in ok :: sw_run calls rl end.
Fixpoint spec_run (r w : Z) (calls : list (Z * string)) (h : gmap string (list Z)) : list bool * gmap string (list Z) :=
  match calls with
  | [] => ([], h)
  | (now, key) :: calls => let '(ok, h) := spec_allow r w now key h in let '(oks, h) := spec_run r w calls h in (ok :: oks, h)
  end.

(** The clock does not go back. *)
Fixpoint clock_from (t : Z) (calls : list (Z * string)) : Prop :=
  match calls with [] => True | (now, _) :: calls => t <= now /\ clock_from now calls end.

Lemma window_later w now now' l : now <= now' -> within_window now' w (within_window now w l) = within_window now' w l.
Proof.
  intros Hle. unfold within_window, After, Time_Add. induction l as [|t l IH]; [done|]. rewrite !filter_cons. destruct (decide ((now + - w <? t) = true)) as [H|H].
  - rewrite filter_cons. by rewrite IH.
  - rewrite decide_False; [done|]. rewrite Z.ltb_lt in *. lia.
Qed.
Lemma window_app w now l1 l2 : within_window now w (l1 ++ l2) = within_window now w l1 ++ within_window now w l2.
Proof. apply filter_app. Qed.

Record agrees (r w T : Z) (rl : SlidingWindowRateLimiter) (h : gmap string (list Z)) : Prop := {
  ag_rate : sw_rate rl = r;
  ag_window : window rl = w;
  ag_lists : forall key now, T <= now -> within_window now w (default [] (requests rl !! key)) = within_window now w (default [] (h !! key));
  ag_past : forall key, Forall (fun t => t <= T) (default [] (h !! key));
  ag_bound : forall key t, in_window t w (default [] (h !! key)) <= Z.max 0 r }.

Lemma in_window_now w now t l : Forall (fun x => x <= now) l -> now <= t -> in_window t w l <= Z.of_nat (length (within_window now w l)).
Proof.
  intros Hl Ht. unfold in_window, within_window, After, Time_Add. induction Hl as [|x l Hx _ IH]; [done|]. rewrite !filter_cons. case_decide as H1; case_decide as H2; cbn [length]; lia.
Qed.

Lemma in_window_eq w now l : Forall (fun x => x <= now) l -> in_window now w l = Z.of_nat (length (within_window now w l)).
Proof.
  intros Hl. unfold in_window, within_window, After, Time_Add. f_equal. induction Hl as [|x l Hx _ IH]; [done|]. rewrite !filter_cons. case_decide as H1; case_decide as H2; cbn [length]; lia.
Qed.

Lemma allow_agrees r w T now key rl h : agrees r w T rl h -> T <= now ->
  (sw_Allow now key rl).1 = (spec_allow r w now key h).1 /\ agrees r w now (sw_Allow now key rl).2 (spec_allow r w now key h).2.
Proof.
  intros [Hr Hw Hl Hp Hb] Ht. unfold sw_Allow, spec_allow. rewrite Hr, Hw, (Hl key now Ht). set (l := default [] (h !! key)). assert (Forall (fun t => t <= now) l) as Hpast.
  { eapply Forall_impl; [apply (Hp key)|]. cbn. lia. }
  assert (forall k now', now <= now' -> within_window now' w (default [] (requests rl !! k)) = within_window now' w (default [] (h !! k))) as Hl' by (intros; apply Hl; lia).
  rewrite (in_window_eq w now l Hpast), Z.ltb_antisym.
  destruct (r <=? Z.of_nat (length (within_window now w l))) eqn:E; cbn [fst snd negb]; split; try done; constructor; cbn; try done.
  - intros k now' Hn. destruct (decide (k = key)) as [->|Hne]; [|rewrite lookup_insert_ne by done; by apply Hl'].
    rewrite lookup_insert_eq. by apply window_later.
  - intros k. eapply Forall_impl; [apply (Hp k)|]. cbn. lia.
  - intros k now' Hn. destruct (decide (k = key)) as [->|Hne]; [|rewrite !lookup_insert_ne by done; by apply Hl'].
    rewrite !lookup_insert_eq. cbn [from_option id]. by rewrite !window_app, window_later.
  - intros k. destruct (decide (k = key)) as [->|Hne].
    + rewrite lookup_insert_eq. apply Forall_app. split; [done|by constructor].
    + rewrite lookup_insert_ne by done. eapply Forall_impl; [apply (Hp k)|]. cbn. lia.
  - intros k t. destruct (decide (k = key)) as [->|Hne]; [|rewrite lookup_insert_ne by done; apply Hb]. rewrite lookup_insert_eq. cbn [from_option id].
    unfold in_window. rewrite filter_app, length_app. rewrite filter_cons, filter_nil. destruct (decide (t - w < now <= t)) as [Hin|_]; cbn.
    + pose proof (in_window_now w now t l Hpast ltac:(lia)). apply Z.leb_gt in E. unfold in_window in *. fold l. lia.
    + pose proof (Hb key t) as H. unfold in_window in H. fold l in H. lia.
Qed.

Lemma runs_agree r w calls : forall T rl h, agrees r w T rl h -> clock_from T calls ->
  sw_run calls rl = (spec_run r w calls h).1 /\ forall key t, in_window t w (default [] ((spec_run r w calls h).2 !! key)) <= Z.max 0 r.
Proof.
  induction calls as [|[now key] calls IH]; intros T rl h Ha Hc; [split; [done|apply (ag_bound _ _ _ _ _ Ha)]|]. destruct Hc as [Ht Hc]. cbn [sw_run spec_run].
  destruct (allow_agrees _ _ _ now key _ _ Ha Ht) as [E Ha']. destruct (sw_Allow now key rl) as [ok rl'], (spec_allow r w now key h) as [ok' h']. cbn [fst snd] in *. subst ok'.
  destruct (IH _ _ _ Ha' Hc) as [IH1 IH2]. destruct (spec_run r w calls h') as [oks h'']. cbn [fst snd] in *. split; [by rewrite IH1|done].
Qed.

(** C27: the sliding window limiter, which forgets requests that left the window, gives
    every answer the specification gives that remembers all of them; and of the
    requests it accepts for a key no window of its length has more than the rate. *)
Theorem sliding_window_exact r w T calls : clock_from T calls ->
  sw_run calls (NewSlidingWindowRateLimiter r w) = (spec_run r w calls ∅).1 /\
  forall key t, in_window t w (default [] ((spec_run r w calls ∅).2 !! key)) <= Z.max 0 r.
Proof. intros Hc. eapply runs_agree; [|exact Hc]. constructor; cbn; intros; rewrite ?lookup_empty; try done. unfold in_window. cbn. lia. Qed.

(** ** Token buckets *)

(** A minute's limit does not come back: the tokens of one second are divided by the
    nanoseconds of a minute. With sixty requests a minute, once the bucket is empty
    thirty years of waiting do not let one request through. *)
Example limit_never_refills :
  let rl := (AllowN 0 "c" 60 (NewRateLimiter 60 (60 * Second))).2 in
  map (fun now => (Allow now "c" rl).1) [Second; 60 * Second; 30 * 365 * 86400 * Second] = [false; false; false].
Proof. vm_compute. reflexivity. Qed.

(** It is only given back whole: a bucket that was not used for five minutes is
    removed, and the next request finds a full one. *)
Example silence_refills :
  let rl := (AllowN 0 "c" 60 (NewRateLimiter 60 (60 * Second))).2 in
  (AllowN (301 * Second) "c" 60 (cleanup_stale (301 * Second) rl)).1 = true.
Proof. vm_compute. reflexivity. Qed.

(** ** Revoked keys *)

Lemma elem_without {A} (x y : A) l1 l2 : x ∈ l1 ++ l2 -> x ∈ l1 ++ y :: l2.
Proof. rewrite !elem_of_app, elem_of_cons. tauto. Qed.

Section revoked.
Context (unmarshal : string -> option (list string)) (marshal : list string -> string) (h : string).

(** Nothing that answers for the hash is left: no row that is enabled, nothing in the
    cache, and no validation that has its row already. *)
Record gone (s : system) : Prop := {
  gone_row : exists rows r, db (auth s) = Some rows /\ rows !! h = Some r /\ row_enabled r = false;
  gone_cache : forall key c, cache (auth s) !! key = Some c -> hashKey key <> h;
  gone_calls : forall key found, Fetched key found ∈ calls s -> hashKey key <> h }.

Lemma gone_lookup s key fails found : gone s -> lookup_key unmarshal key fails (auth s) = inr found -> hashKey key <> h.
Proof.
  intros [(rows & r & Hdb & Hr & Hd) _ _]. unfold lookup_key. rewrite Hdb. destruct fails; [done|]. intros Hl Hk. by rewrite Hk, Hr, Hd in Hl.
Qed.

Lemma gone_create random id name perms lim now fails s :
  gone s -> gone (s <| auth := (CreateKey marshal random id name perms lim now fails (auth s)).2 |>).
Proof.
  intros [(rows & r & Hdb & Hr & Hd) Hc Hf]. unfold CreateKey. destruct (generateKey random) as [key|]; [|by split; [exists rows, r|..]].
  rewrite Hdb. destruct fails; [by split; [exists rows, r|..]|]. case_bool_decide as E; [by split; [exists rows, r|..]|].
  split; cbn; try done. eexists _, r. split; [done|]. rewrite lookup_insert_ne; [done|]. intros Heq. apply E. exists r. by rewrite <- Hr, <- Heq.
Qed.

Lemma gone_disable h' s : gone s -> gone (s <| auth ::= disable_key h' |>).
Proof.
  intros [(rows & r & Hdb & Hr & Hd) Hc Hf]. split; cbn; try done. rewrite Hdb. destruct (decide (h = h')) as [<-|Hne].
  - eexists _, _. split; [done|]. by rewrite lookup_alter_eq, Hr.
  - eexists _, r. split; [done|]. by rewrite lookup_alter_ne.
Qed.

Lemma gone_purge h' s : gone s -> gone (s <| auth ::= purge_key h' |>).
Proof. intros [Hrow Hc Hf]. split; cbn; try done. intros key c [Hl _]%map_lookup_filter_Some. by eapply Hc. Qed.

Lemma gone_store now key found s : gone s -> hashKey key <> h -> gone (s <| auth ::= store_key now key found |>).
Proof.
  intros [(rows & r & Hdb & Hr & Hd) Hc Hf] Hk. unfold store_key. split; cbn; rewrite ?Hdb; cbn; [by exists rows, r| |done].
  intros k c [[<- _]|[_ Hl]]%lookup_insert_Some; [done|by eapply Hc].
Qed.

Lemma gone_drop s l1 l2 c : gone s -> calls s = l1 ++ c :: l2 -> gone (s <| calls := l1 ++ l2 |>).
Proof.
  intros [Hrow Hc Hf] Hs. split; cbn; try done. intros key found Hin. apply (Hf key found). rewrite Hs. by apply elem_without.
Qed.

Lemma gone_step s l s' : gone s -> step unmarshal marshal s l s' ->
  gone s' /\ forall key ans, (key, ans) ∈ l -> hashKey key = h -> exists e, ans = inl e.
Proof.
  intros Hg Hs. inversion Hs as [now key perms ? Hhit|now key ? Hmiss|key fails e l1 l2 ? Hc Hl|key fails found l1 l2 ? Hc Hl|now key found l1 l2 ? Hc| | | |]; subst.
  - split; [done|]. intros k ans [= -> ->]%list_elem_of_singleton Hk. exfalso. unfold cached_permissions in Hhit.
    destruct (cache (auth s') !! key) as [c|] eqn:E; [|done]. by apply (gone_cache _ Hg key c).
  - split; [|by intros ? ? ?%not_elem_of_nil]. destruct Hg as [Hrow Hcache Hf]. split; cbn; try done. intros k f [Hin|Hin%list_elem_of_singleton]%elem_of_app; [by eapply Hf|done].
  - split; [by eapply gone_drop|]. intros k ans [= -> ->]%list_elem_of_singleton _. by exists e.
  - split; [|by intros ? ? ?%not_elem_of_nil]. pose proof (gone_lookup _ _ _ _ Hg Hl) as Hk. destruct Hg as [Hrow Hcache Hf]. split; cbn; try done. intros k f.
    rewrite elem_of_app, elem_of_cons. intros [Hin|[[= -> ->]|Hin]]; [|done|]; apply (Hf k f); rewrite Hc; apply elem_without, elem_of_app; auto.
  - assert (hashKey key <> h) as Hk by (apply (gone_calls _ Hg key found); rewrite Hc, elem_of_app, elem_of_cons; auto). split.
    + eapply (gone_drop (s <| auth ::= store_key now key found |>)); [by apply gone_store|exact Hc].
    + intros k ans [= -> ->]%list_elem_of_singleton Heq. done.
  - split; [by apply gone_disable|by intros ? ? ?%not_elem_of_nil].
  - split; [by apply gone_purge|by intros ? ? ?%not_elem_of_nil].
  - split; [|by intros ? ? ?%not_elem_of_nil]. destruct Hg as [Hrow Hcache Hf]. split; cbn; try done.
  - split; [by apply gone_create|by intros ? ? ?%not_elem_of_nil].
Qed.

Lemma gone_steps s l s' : gone s -> steps unmarshal marshal s l s' -> forall key ans, (key, ans) ∈ l -> hashKey key = h -> exists e, ans = inl e.
Proof.
  intros Hg Hs. induction Hs as [|s1 l1 s2 l2 s3 Hs _ IH]; intros key ans Hin Hk; [by apply not_elem_of_nil in Hin|].
  destruct (gone_step _ _ _ Hg Hs) as [Hg' Ha]. apply elem_of_app in Hin as [Hin|Hin]; [by eapply Ha|by eapply IH].
Qed.

Lemma revoke_gone s rows r : db (auth s) = Some rows -> rows !! h = Some r -> (forall key found, Fetched key found ∈ calls s -> hashKey key <> h) ->
  gone (s <| auth := (RevokeKey h false (auth s)).2 |>).
Proof.
  intros Hdb Hr Hf. unfold RevokeKey. rewrite Hdb. split; cbn; [| |done].
  - rewrite Hdb. eexists _, _. split; [done|]. by rewrite lookup_alter_eq, Hr.
  - intros key c [_ Hne]%map_lookup_filter_Some. exact Hne.
Qed.

(** C26: once [RevokeKey] has returned, every validation of the key that is answered is
    refused, whatever validations, revocations and new keys run beside it and for
    however long, unless one had read its row before the key was disabled. *)
Theorem revoked_key_refused s rows r answers s' :
  db (auth s) = Some rows -> rows !! h = Some r -> (forall key found, Fetched key found ∈ calls s -> hashKey key <> h) ->
  steps unmarshal marshal (s <| auth := (RevokeKey h false (auth s)).2 |>) answers s' ->
  forall key ans, (key, ans) ∈ answers -> hashKey key = h -> exists e, ans = inl e.
Proof. intros Hdb Hr Hf Hs. eapply gone_steps; [by eapply revoke_gone|exact Hs]. Qed.
End revoked.

(** The exception is real: a validation that has read its row stores it after the
    revocation, and the key is then accepted from the cache for its five minutes. *)
Theorem revoked_key_survives unmarshal marshal key r (now : Z) : row_enabled r = true ->
  let a := NewAuthenticator (Some {[hashKey key := r]}) in
  let perms := default [] (unmarshal (row_permissions r)) in
  exists s, steps unmarshal marshal (mkSystem a []) [] s /\
    exists s', steps unmarshal marshal (s <| auth := (RevokeKey (hashKey key) false (auth s)).2 |>) [(key, inr perms); (key, inr perms)] s'.
Proof.
  intros He a perms. assert (lookup_key unmarshal key false a = inr (perms, row_rate_limit r)) as Hl.
  { unfold lookup_key, a. cbn [db NewAuthenticator]. by rewrite lookup_singleton_eq, He. }
  eexists. split.
  - apply (steps_cons _ _ _ [] _ [] _ (s_miss _ _ now key (mkSystem a []) eq_refl)).
    eapply (steps_cons _ _ _ [] _ []); [by apply (s_found _ _ key false (perms, row_rate_limit r) [] [])|apply steps_nil].
  - eexists. eapply (steps_cons _ _ _ [_] _ [_]); [by apply (s_store _ _ now key (perms, row_rate_limit r) [] [])|].
    eapply (steps_cons _ _ _ [_] _ []); [|apply steps_nil]. apply (s_hit _ _ now). unfold cached_permissions. cbn. rewrite lookup_insert_eq. cbn.
    rewrite (proj2 (Z.ltb_lt _ _)); [done|]. unfold Time_Sub. rewrite Z.sub_diag. reflexivity.
Qed.

(** ** Witnesses *)

Lemma sliding_window_exact_witness :
  let calls := [(0, "a"%string); (3, "a"%string); (5, "b"%string); (6, "a"%string); (11, "a"%string)] in
  (spec_run 2 10 calls ∅).1 = [true; true; true; false; true] /\ sw_run calls (NewSlidingWindowRateLimiter 2 10) = (spec_run 2 10 calls ∅).1.
Proof.
  split; [vm_compute; reflexivity|]. apply (sliding_window_exact 2 10 0 [(0, "a"%string); (3, "a"%string); (5, "b"%string); (6, "a"%string); (11, "a"%string)]). cbn. lia.
Defined.

(** The validation that had missed the cache runs into the disabled row. *)
Lemma revoked_key_refused_witness :
  let r := mkRow "1" "n" "" 60 true 0 in
  let s := mkSystem (NewAuthenticator (Some {[hashKey "k" := r]})) [Missed "k"] in
  steps (fun _ => None) (fun _ => ""%string) (s <| auth := (RevokeKey (hashKey "k") false (auth s)).2 |>) [("k"%string, inl ErrKeyDisabled)]
    (s <| auth := (RevokeKey (hashKey "k") false (auth s)).2 |> <| calls := [] |>) /\
  exists e, @inl key_error (list string) ErrKeyDisabled = inl e.
Proof.
  intros r s. assert (steps (fun _ => None) (fun _ => ""%string) (s <| auth := (RevokeKey (hashKey "k") false (auth s)).2 |>) [("k"%string, inl ErrKeyDisabled)]
    (s <| auth := (RevokeKey (hashKey "k") false (auth s)).2 |> <| calls := [] |>)) as Hs.
  { eapply (steps_cons _ _ _ [_] _ []); [|apply steps_nil]. apply (s_refused _ _ "k" false ErrKeyDisabled [] []); [done|]. unfold lookup_key. cbn [auth RevokeKey db NewAuthenticator s snd].
    cbn -[hashKey]. by rewrite lookup_alter_eq, lookup_singleton_eq. }
  split; [exact Hs|].
  refine (revoked_key_refused (fun _ => None) (fun _ => ""%string) (hashKey "k") s {[hashKey "k" := r]} r _ _ eq_refl _ _ Hs "k" _ _ eq_refl).
  - apply lookup_singleton_eq.
  - intros key found Hin%list_elem_of_singleton. exfalso. discriminate Hin.
  - by apply list_elem_of_singleton.
Defined.
