(* ===== verification/QualityAlerting.v ===== *)
(** * Quality alerts

    Models src/internal/quality_alerting.go: thresholds on the quality of calls, the
    alerts they raise once violated for long enough, and their suppression, history
    and acknowledgement.

    The active alerts and the history point to the same alerts, which live in a store
    and are known by their index; a handler is known by a number, and the alerts each
    was started on are a log. [CheckMetric] is the call as it runs alone; its locked
    section and that of raising an alert are definitions of their own. A threshold is never nil. What a log line or a webhook
    does with an alert is left out. *)

From Stdlib Require Import ZArith Lia ZifyNat Ascii String Floats.SpecFloat.
From stdpp Require Import base numbers list gmap strings.
From S2P Require Import Prelude GoFloat Bencode.

Local Open Scope Z_scope.
Local Open Scope go_scope.

(** ** Data *)

Definition AlertSeverityInfo : bytes := bs "info".
Definition AlertSeverityWarning : bytes := bs "warning".
Definition AlertSeverityCritical : bytes := bs "critical".
Definition AlertTypePacketLoss : bytes := bs "packet_loss".
Definition AlertTypeJitter : bytes := bs "jitter".
Definition AlertTypeLatency : bytes := bs "latency".
Definition AlertTypeMOS : bytes := bs "mos".

(** [Metadata] is the caller's map, by reference. *)
Record QualityAlert := mkAlert {
  al_ID : bytes; al_Type : bytes; Severity : bytes; al_CallID : bytes; al_SessionID : bytes; al_Message : bytes;
  al_Value : float64; al_Threshold : float64; al_Timestamp : Z; Metadata : nat; Acknowledged : bool; AckedAt : Z; AckedBy : bytes }.
#[export] Instance set_Acknowledged : Setter Acknowledged := fun f r =>
  mkAlert (al_ID r) (al_Type r) (Severity r) (al_CallID r) (al_SessionID r) (al_Message r) (al_Value r) (al_Threshold r) (al_Timestamp r) (Metadata r) (f (Acknowledged r)) (AckedAt r) (AckedBy r).
#[export] Instance set_AckedAt : Setter AckedAt := fun f r =>
  mkAlert (al_ID r) (al_Type r) (Severity r) (al_CallID r) (al_SessionID r) (al_Message r) (al_Value r) (al_Threshold r) (al_Timestamp r) (Metadata r) (Acknowledged r) (f (AckedAt r)) (AckedBy r).
#[export] Instance set_AckedBy : Setter AckedBy := fun f r =>
  mkAlert (al_ID r) (al_Type r) (Severity r) (al_CallID r) (al_SessionID r) (al_Message r) (al_Value r) (al_Threshold r) (al_Timestamp r) (Metadata r) (Acknowledged r) (AckedAt r) (f (AckedBy r)).

Record AlertThreshold := mkThreshold { MetricName : bytes; WarningValue : float64; CriticalValue : float64; Duration : Z; Enabled : bool }.
Definition DefaultAlertThresholds : gmap bytes AlertThreshold :=
  <[AlertTypePacketLoss := mkThreshold (bs "packet_loss_percent") (lit 1 1) (lit 5 1) (10 * Second) true]>
  (<[AlertTypeJitter := mkThreshold (bs "jitter_ms") (lit 30 1) (lit 50 1) (10 * Second) true]>
  (<[AlertTypeLatency := mkThreshold (bs "latency_ms") (lit 150 1) (lit 300 1) (10 * Second) true]>
  {[AlertTypeMOS := mkThreshold (bs "mos") (lit 7 2) (lit 3 1) (30 * Second) true]})).

Record metricState := mkMetric { lastValue : float64; violationStart : Z; isViolating : bool }.
Definition new_metric : metricState := mkMetric (S754_zero false) 0 false.

Record QualityAlerterConfig := mkAlerterConfig { CheckInterval : Z; MaxActiveAlerts : Z; MaxAlertHistory : Z; SuppressionPeriod : Z; AggregationWindow : Z }.
Definition DefaultQualityAlerterConfig : QualityAlerterConfig := mkAlerterConfig (5 * Second) 1000 10000 (5 * 60 * Second) (30 * Second).

Record QualityAlerter := mkAlerter {
  config : QualityAlerterConfig; thresholds : gmap bytes AlertThreshold; handlers : list nat;
  store : list QualityAlert; activeAlerts : gmap bytes nat; alertHistory : list nat; maxHistory : Z; maxActiveAlerts : Z;
  metricStates : gmap bytes metricState; suppressions : gmap bytes Z; alertIDCounter : Z; started : list (nat * nat); stopped : bool }.
#[export] Instance set_config : Setter config := fun f r =>
  mkAlerter (f (config r)) (thresholds r) (handlers r) (store r) (activeAlerts r) (alertHistory r) (maxHistory r) (maxActiveAlerts r) (metricStates r) (suppressions r) (alertIDCounter r) (started r) (stopped r).
#[export] Instance set_thresholds : Setter thresholds := fun f r =>
  mkAlerter (config r) (f (thresholds r)) (handlers r) (store r) (activeAlerts r) (alertHistory r) (maxHistory r) (maxActiveAlerts r) (metricStates r) (suppressions r) (alertIDCounter r) (started r) (stopped r).
#[export] Instance set_handlers : Setter handlers := fun f r =>
  mkAlerter (config r) (thresholds r) (f (handlers r)) (store r) (activeAlerts r) (alertHistory r) (maxHistory r) (maxActiveAlerts r) (metricStates r) (suppressions r) (alertIDCounter r) (started r) (stopped r).
#[export] Instance set_store : Setter store := fun f r =>
  mkAlerter (config r) (thresholds r) (handlers r) (f (store r)) (activeAlerts r) (alertHistory r) (maxHistory r) (maxActiveAlerts r) (metricStates r) (suppressions r) (alertIDCounter r) (started r) (stopped r).
#[export] Instance set_activeAlerts : Setter activeAlerts := fun f r =>
  mkAlerter (config r) (thresholds r) (handlers r) (store r) (f (activeAlerts r)) (alertHistory r) (maxHistory r) (maxActiveAlerts r) (metricStates r) (suppressions r) (alertIDCounter r) (started r) (stopped r).
#[export] Instance set_alertHistory : Setter alertHistory := fun f r =>
  mkAlerter (config r) (thresholds r) (handlers r) (store r) (activeAlerts r) (f (alertHistory r)) (maxHistory r) (maxActiveAlerts r) (metricStates r) (suppressions r) (alertIDCounter r) (started r) (stopped r).
#[export] Instance set_maxHistory : Setter maxHistory := fun f r =>
  mkAlerter (config r) (thresholds r) (handlers r) (store r) (activeAlerts r) (alertHistory r) (f (maxHistory r)) (maxActiveAlerts r) (metricStates r) (suppressions r) (alertIDCounter r) (started r) (stopped r).
#[export] Instance set_maxActiveAlerts : Setter maxActiveAlerts := fun f r =>
  mkAlerter (config r) (thresholds r) (handlers r) (store r) (activeAlerts r) (alertHistory r) (maxHistory r) (f (maxActiveAlerts r)) (metricStates r) (suppressions r) (alertIDCounter r) (started r) (stopped r).
#[export] Instance set_metricStates : Setter metricStates := fun f r =>
  mkAlerter (config r) (thresholds r) (handlers r) (store r) (activeAlerts r) (alertHistory r) (maxHistory r) (maxActiveAlerts r) (f (metricStates r)) (suppressions r) (alertIDCounter r) (started r) (stopped r).
#[export] Instance set_suppressions : Setter suppressions := fun f r =>
  mkAlerter (config r) (thresholds r) (handlers r) (store r) (activeAlerts r) (alertHistory r) (maxHistory r) (maxActiveAlerts r) (metricStates r) (f (suppressions r)) (alertIDCounter r) (started r) (stopped r).
#[export] Instance set_alertIDCounter : Setter alertIDCounter := fun f r =>
  mkAlerter (config r) (thresholds r) (handlers r) (store r) (activeAlerts r) (alertHistory r) (maxHistory r) (maxActiveAlerts r) (metricStates r) (suppressions r) (f (alertIDCounter r)) (started r) (stopped r).
#[export] Instance set_started : Setter started := fun f r =>
  mkAlerter (config r) (thresholds r) (handlers r) (store r) (activeAlerts r) (alertHistory r) (maxHistory r) (maxActiveAlerts r) (metricStates r) (suppressions r) (alertIDCounter r) (f (started r)) (stopped r).
#[export] Instance set_stopped : Setter stopped := fun f r =>
  mkAlerter (config r) (thresholds r) (handlers r) (store r) (activeAlerts r) (alertHistory r) (maxHistory r) (maxActiveAlerts r) (metricStates r) (suppressions r) (alertIDCounter r) (started r) (f (stopped r)).

Definition NewQualityAlerter (cfg : option QualityAlerterConfig) : QualityAlerter :=
  let cfg := default DefaultQualityAlerterConfig cfg in
  let maxHistory := if MaxAlertHistory cfg <=? 0 then 10000 else MaxAlertHistory cfg in
  let maxActiveAlerts := if MaxActiveAlerts cfg <=? 0 then 1000 else MaxActiveAlerts cfg in
  mkAlerter cfg DefaultAlertThresholds [] [] ∅ [] maxHistory maxActiveAlerts ∅ ∅ 0 [] false.
Definition AddHandler (h : nat) (qa : QualityAlerter) : QualityAlerter := qa <| handlers ::= fun l => l ++ [h] |>.
Definition SetThreshold (alertType : bytes) (t : AlertThreshold) (qa : QualityAlerter) : QualityAlerter := qa <| thresholds ::= <[alertType := t]> |>.
Definition GetThreshold (alertType : bytes) (qa : QualityAlerter) : option AlertThreshold := thresholds qa !! alertType.

(** ** Messages *)

(** The verb [%.2f]: the exact value to two decimals, halves to even. *)
Definition round_even (n d : Z) : Z :=
  let q := n / d in let r := n mod d in
  if 2 * r <? d then q else if d <? 2 * r then q + 1 else if Z.even q then q else q + 1.
Definition sign_of (s : bool) : bytes := if s then bs "-" else [].
Definition hundredths (c : Z) : bytes := FormatInt (c / 100) ++ bs "." ++ FormatInt (c / 10 mod 10) ++ FormatInt (c mod 10).
Definition format2 (x : float64) : bytes :=
  match x with
  | S754_nan => bs "NaN"
  | S754_infinity s => if s then bs "-Inf" else bs "+Inf"
  | S754_zero s => sign_of s ++ hundredths 0
  | S754_finite s m e => sign_of s ++ hundredths (if 0 <=? e then 100 * (Zpos m * 2 ^ e) else round_even (100 * Zpos m) (2 ^ (- e)))
  end.
Definition formatAlertMessage (alertType severity : bytes) (value threshold : float64) : bytes :=
  if bool_decide (alertType = AlertTypePacketLoss) then bs "Packet loss " ++ format2 value ++ bs "% exceeds " ++ severity ++ bs " threshold (" ++ format2 threshold ++ bs "%)"
  else if bool_decide (alertType = AlertTypeJitter) then bs "Jitter " ++ format2 value ++ bs "ms exceeds " ++ severity ++ bs " threshold (" ++ format2 threshold ++ bs "ms)"
  else if bool_decide (alertType = AlertTypeLatency) then bs "Latency " ++ format2 value ++ bs "ms exceeds " ++ severity ++ bs " threshold (" ++ format2 threshold ++ bs "ms)"
  else if bool_decide (alertType = AlertTypeMOS) then bs "MOS score " ++ format2 value ++ bs " below " ++ severity ++ bs " threshold (" ++ format2 threshold ++ bs ")"
  else alertType ++ bs " alert: value " ++ format2 value ++ bs ", threshold " ++ format2 threshold.
Definition alertID (now counter : Z) : bytes := bs "alert-" ++ FormatInt now ++ bs "-" ++ FormatInt counter.
Definition generateAlertID (now : Z) (qa : QualityAlerter) : bytes * QualityAlerter :=
  let qa := qa <| alertIDCounter ::= fun n => u64 (n + 1) |> in (alertID now (alertIDCounter qa), qa).

(** ** Raising alerts *)

Definition metric_key (alertType callID sessionID : bytes) : bytes := alertType ++ bs ":" ++ callID ++ bs ":" ++ sessionID.

(** The severity and the threshold a value violates; a lower MOS is worse. *)
Definition worse (alertType : bytes) (value limit : float64) : bool :=
  if bool_decide (alertType = AlertTypeMOS) then flt value limit else fle limit value.
Definition violation (alertType : bytes) (t : AlertThreshold) (value : float64) : option (bytes * float64) :=
  if worse alertType value (CriticalValue t) then Some (AlertSeverityCritical, CriticalValue t)
  else if worse alertType value (WarningValue t) then Some (AlertSeverityWarning, WarningValue t)
  else None.

Definition track (now : Z) (value : float64) (violating : bool) (m : metricState) : metricState :=
  if violating then mkMetric value (if isViolating m then violationStart m else now) true else mkMetric value 0 false.

Definition suppressed (now : Z) (key : bytes) (qa : QualityAlerter) : bool :=
  match suppressions qa !! key with Some until => Before now until | None => false end.
Definition add_active (r : nat) (id : bytes) (qa : QualityAlerter) : QualityAlerter :=
  if Z.of_nat (size (activeAlerts qa)) <? maxActiveAlerts qa then qa <| activeAlerts ::= <[id := r]> |> else qa.
Definition add_history (r : nat) (qa : QualityAlerter) : QualityAlerter :=
  if 0 <? maxHistory qa then
    let qa := if maxHistory qa <=? Z.of_nat (length (alertHistory qa)) then qa <| alertHistory ::= tail |> else qa in
    qa <| alertHistory ::= fun l => l ++ [r] |>
  else qa.
Definition notify (r : nat) (qa : QualityAlerter) : QualityAlerter := qa <| started ::= fun l => l ++ ((fun h => (h, r)) <$> handlers qa) |>.

(** The readings of the clock: of the check, of the suppression, of the identifier, of
    the alert, and of the end of the suppression it starts. *)
Record readings := mkReadings { t_check : Z; t_suppressed : Z; t_id : Z; t_made : Z; t_until : Z }.

(** A new alert, in the store. *)
Definition make_alert (tid tm : Z) (alertType severity callID sessionID message : bytes) (value threshold : float64) (metadata : nat)
    (qa : QualityAlerter) : nat * bytes * QualityAlerter :=
  let '(id, qa) := generateAlertID tid qa in
  let alert := mkAlert id alertType severity callID sessionID message value threshold tm metadata false 0 [] in
  (length (store qa), id, qa <| store ::= fun l => l ++ [alert] |>).

(** What [triggerAlert] does once it found no suppression: the alert is made, listed
    and added to the history, its suppression begins, the handlers are started. *)
Definition raise_alert (t : readings) (alertType severity callID sessionID : bytes) (value threshold : float64) (metadata : nat) (qa : QualityAlerter) : QualityAlerter :=
  let '(r, id, qa) := make_alert (t_id t) (t_made t) alertType severity callID sessionID (formatAlertMessage alertType severity value threshold) value threshold metadata qa in
  let qa := add_history r (add_active r id qa) in
  notify r (qa <| suppressions ::= <[metric_key alertType callID sessionID := Time_Add (t_until t) (SuppressionPeriod (config qa))]> |>).
Definition triggerAlert (t : readings) (alertType severity callID sessionID : bytes) (value threshold : float64) (metadata : nat) (qa : QualityAlerter) : QualityAlerter :=
  if suppressed (t_suppressed t) (metric_key alertType callID sessionID) qa then qa
  else raise_alert t alertType severity callID sessionID value threshold metadata qa.

(** The part of [CheckMetric] under its lock: the severity and the threshold to raise
    an alert for, if any. The lock is released before the alert is raised, and
    [triggerAlert] reads the suppression in a section of its own, so the parts of two
    checks may interleave. *)
Definition check_section (now : Z) (alertType callID sessionID : bytes) (value : float64) (qa : QualityAlerter) : option (bytes * float64) * QualityAlerter :=
  match thresholds qa !! alertType with
  | None => (None, qa)
  | Some th =>
      if negb (Enabled th) then (None, qa)
      else
        let key := metric_key alertType callID sessionID in
        let v := violation alertType th value in
        let m := track now value (bool_decide (is_Some v)) (default new_metric (metricStates qa !! key)) in
        let qa := qa <| metricStates ::= <[key := m]> |> in
        (if Duration th <=? Time_Sub now (violationStart m) then v else None, qa)
  end.
Definition CheckMetric (t : readings) (alertType callID sessionID : bytes) (value : float64) (metadata : nat) (qa : QualityAlerter) : QualityAlerter :=
  match check_section (t_check t) alertType callID sessionID value qa with
  | (Some (severity, limit), qa) => triggerAlert t alertType severity callID sessionID value limit metadata qa
  | (None, qa) => qa
  end.

Definition TriggerCustomAlert (t : readings) (alertType severity callID sessionID message : bytes) (metadata : nat) (qa : QualityAlerter) : QualityAlerter :=
  let '(r, id, qa) := make_alert (t_id t) (t_made t) alertType severity callID sessionID message (S754_zero false) (S754_zero false) metadata qa in
  notify r (add_history r (add_active r id qa)).

(** ** Managing alerts *)

(** [false] when there is no such alert. *)
Definition AcknowledgeAlert (now : Z) (id ackedBy : bytes) (qa : QualityAlerter) : bool * QualityAlerter :=
  match activeAlerts qa !! id with
  | None => (false, qa)
  | Some r => (true, qa <| store ::= alter (fun a => a <| Acknowledged := true |> <| AckedAt := now |> <| AckedBy := ackedBy |>) r |>)
  end.
Definition ClearAlert (id : bytes) (qa : QualityAlerter) : QualityAlerter := qa <| activeAlerts ::= delete id |>.

(** The characters of the key from [length callID + 1] to one before its end. *)
Definition containsCallID (key callID : bytes) : bool :=
  (length callID <? length key)%nat && bool_decide (take (length callID) (drop (length key - length callID - 1) key) = callID).
Definition of_call (callID : bytes) (qa : QualityAlerter) (r : nat) : bool := bool_decide ((al_CallID <$> store qa !! r) = Some callID).
Definition ClearCallAlerts (callID : bytes) (qa : QualityAlerter) : QualityAlerter :=
  qa <| activeAlerts ::= filter (fun ir : bytes * nat => of_call callID qa ir.2 = false) |>
     <| metricStates ::= filter (fun km : bytes * metricState => containsCallID km.1 callID = false) |>.

(** [order] is the order the map is walked in. *)
Definition GetActiveAlerts (order : list (bytes * nat)) : list nat := order.*2.
Definition GetActiveAlertsByCall (callID : bytes) (order : list (bytes * nat)) (qa : QualityAlerter) : list nat := filter (fun r => of_call callID qa r = true) order.*2.
Definition GetAlertHistory (limit : Z) (qa : QualityAlerter) : list nat :=
  let n := Z.of_nat (length (alertHistory qa)) in
  let limit := if (limit <=? 0) || (n <? limit) then n else limit in
  drop (Z.to_nat (n - limit)) (alertHistory qa).

Record AlertStats := mkAlertStats { ActiveCount : Z; HistoryCount : Z; UnacknowledgedCount : Z; BySeverity : gmap bytes Z; ByType : gmap bytes Z }.
Definition count_at (k : bytes) (m : gmap bytes Z) : gmap bytes Z := partial_alter (fun o => Some (default 0 o + 1)) k m.
Definition GetAlertStats (order : list (bytes * nat)) (qa : QualityAlerter) : AlertStats :=
  let alerts := omap (fun r => store qa !! r) order.*2 in
  mkAlertStats (Z.of_nat (size (activeAlerts qa))) (Z.of_nat (length (alertHistory qa)))
    (Z.of_nat (length (filter (fun a => Acknowledged a = false) alerts)))
    (foldl (fun m a => count_at (Severity a) m) ∅ alerts) (foldl (fun m a => count_at (al_Type a) m) ∅ alerts).

(** One tick of the cleanup. *)
Definition cleanup (now : Z) (qa : QualityAlerter) : QualityAlerter :=
  qa <| suppressions ::= filter (fun ku : bytes * Z => After now ku.2 = false) |>
     <| metricStates ::= filter (fun km : bytes * metricState => Before (violationStart km.2) (Time_Add now (- (10 * 60 * Second))) && negb (isViolating km.2) = false) |>.
(** Closing the channel again panics. *)
Definition Stop (qa : QualityAlerter) : outcome unit QualityAlerter := if stopped qa then Panic else Ok (qa <| stopped := true |>).

(** ** Guarantees *)

(** What may happen to an alerter, one call after the other; clearing the alerts of a
    call is left to the end of this file. *)
Inductive op :=
| OCheck (t : readings) (alertType callID sessionID : bytes) (value : float64) (metadata : nat)
| OCustom (t : readings) (alertType severity callID sessionID message : bytes) (metadata : nat)
| OSet (alertType : bytes) (th : AlertThreshold)
| OAck (now : Z) (id ackedBy : bytes)
| OClear (id : bytes)
| OCleanup (now : Z)
| OHandler (h : nat).

Definition apply_op (o : op) (qa : QualityAlerter) : QualityAlerter :=
  match o with
  | OCheck t ty c s v md => CheckMetric t ty c s v md qa
  | OCustom t ty sev c s msg md => TriggerCustomAlert t ty sev c s msg md qa
  | OSet ty th => SetThreshold ty th qa
  | OAck now id by_ => (AcknowledgeAlert now id by_ qa).2
  | OClear id => ClearAlert id qa
  | OCleanup now => cleanup now qa
  | OHandler h => AddHandler h qa
  end.
Definition apply_ops (ops : list op) (qa : QualityAlerter) : QualityAlerter := foldl (fun qa o => apply_op o qa) qa ops.

(** *** The specification *)

(** It remembers every sample of a metric, the newest first, with whether it violated
    its threshold, and when the last alert on it was raised. A metric is known by its
    type, call and session. *)
Record alert_spec := mkSpec {
  sp_thresholds : gmap bytes AlertThreshold; samples : gmap (bytes * bytes * bytes) (list (Z * bool)); raised_at : gmap (bytes * bytes * bytes) Z;
  raised : list (bytes * bytes * bytes * bytes * float64 * float64) }.

(** A value is beyond a limit when it is at least as large, for the mean opinion score
    when it is smaller; a value that is not a number never is. *)
Definition beyond (ty : bytes) (value limit : float64) : bool :=
  match SFcompare value limit with
  | Some Lt => bool_decide (ty = bs "mos")
  | Some _ => negb (bool_decide (ty = bs "mos"))
  | None => false
  end.
(** The severity of a value with the limit it is beyond, the critical one first. *)
Definition level (ty : bytes) (th : AlertThreshold) (value : float64) : option (bytes * float64) :=
  head (filter (fun sl : bytes * float64 => beyond ty value sl.2 = true) [(bs "critical", CriticalValue th); (bs "warning", WarningValue th)]).

(** When the violation began that goes on at the newest sample. *)
Fixpoint violating_since (l : list (Z * bool)) : option Z :=
  match l with (t, true) :: l => Some (default t (violating_since l)) | _ => None end.

Definition spec_check (period : Z) (t : readings) (ty c s : bytes) (value : float64) (sp : alert_spec) : alert_spec :=
  match sp_thresholds sp !! ty with
  | None => sp
  | Some th =>
      if negb (Enabled th) then sp
      else
        let metric := (ty, c, s) in
        let v := level ty th value in
        let l := (t_check t, bool_decide (is_Some v)) :: default [] (samples sp !! metric) in
        let quiet := match raised_at sp !! metric with Some u => t_suppressed t <? u + period | None => false end in
        let sp := mkSpec (sp_thresholds sp) (<[metric := l]> (samples sp)) (raised_at sp) (raised sp) in
        match v, violating_since l with
        | Some (sev, limit), Some start =>
            if (Duration th <=? Time_Sub (t_check t) start) && negb quiet
            then mkSpec (sp_thresholds sp) (samples sp) (<[metric := t_until t]> (raised_at sp)) (raised sp ++ [(ty, sev, c, s, value, limit)]) else sp
        | _, _ => sp
        end
  end.
Definition spec_op (period : Z) (o : op) (sp : alert_spec) : alert_spec :=
  match o with
  | OCheck t ty c s v _ => spec_check period t ty c s v sp
  | OCustom _ ty sev c s _ _ => mkSpec (sp_thresholds sp) (samples sp) (raised_at sp) (raised sp ++ [(ty, sev, c, s, S754_zero false, S754_zero false)])
  | OSet ty th => mkSpec (<[ty := th]> (sp_thresholds sp)) (samples sp) (raised_at sp) (raised sp)
  | OAck _ _ _ | OClear _ | OCleanup _ | OHandler _ => sp
  end.
Definition spec_ops (period : Z) (ops : list op) : alert_spec := foldl (fun sp o => spec_op period o sp) (mkSpec DefaultAlertThresholds ∅ ∅ []) ops.

(** The clock of suppressions and cleanups does not go back. *)
Fixpoint clock_from (T : Z) (ops : list op) : Prop :=
  match ops with
  | [] => True
  | OCheck t _ _ _ _ _ :: ops => T <= t_suppressed t /\ clock_from (t_suppressed t) ops
  | OCleanup now :: ops => T <= now /\ clock_from now ops
  | _ :: ops => clock_from T ops
  end.
(** No checked type or call has a colon, by which the code joins them. *)
Definition plain_metric (m : bytes * bytes * bytes) : Prop := (":"%char ∉ m.1.1) /\ (":"%char ∉ m.1.2).
Definition plain_op (o : op) : Prop := match o with OCheck _ ty c s _ _ => plain_metric (ty, c, s) | _ => True end.

Definition gist (a : QualityAlert) : bytes * bytes * bytes * bytes * float64 * float64 := (al_Type a, Severity a, al_CallID a, al_SessionID a, al_Value a, al_Threshold a).
Definition since (m : metricState) : option Z := if isViolating m then Some (violationStart m) else None.
Definition quiet_until (o : option Z) (t : Z) : bool := match o with Some u => Before t u | None => false end.

(** The last [n] of the first [k] numbers. *)
Definition last_of (n : Z) (k : nat) : list nat := seq (k - Z.to_nat n) (Nat.min k (Z.to_nat n)).

Definition key_of (m : bytes * bytes * bytes) : bytes := metric_key m.1.1 m.1.2 m.2.

Record agrees (cfg : QualityAlerter) (T : Z) (qa : QualityAlerter) (sp : alert_spec) : Prop := {
  ag_config : config qa = config cfg /\ maxHistory qa = maxHistory cfg /\ maxActiveAlerts qa = maxActiveAlerts cfg;
  ag_thresholds : thresholds qa = sp_thresholds sp;
  ag_metrics : forall m, plain_metric m -> since (default new_metric (metricStates qa !! key_of m)) = violating_since (default [] (samples sp !! m));
  ag_quiet : forall m t, plain_metric m -> T <= t ->
    quiet_until (suppressions qa !! key_of m) t = quiet_until ((fun u => u + SuppressionPeriod (config cfg)) <$> raised_at sp !! m) t;
  ag_raised : gist <$> store qa = raised sp;
  ag_history : alertHistory qa = last_of (maxHistory cfg) (length (store qa));
  ag_active : Z.of_nat (size (activeAlerts qa)) <= maxActiveAlerts cfg }.

(** *** The values a check compares *)

Lemma compare_flip (x y : float64) : SFcompare y x = CompOpp <$> SFcompare x y.
Proof.
  destruct x as [s1|s1| |s1 m1 e1], y as [s2|s2| |s2 m2 e2]; cbn; try done; try (by destruct s1); try (by destruct s2); try (by destruct s1, s2).
  rewrite (Z.compare_antisym e1 e2). destruct s1, s2, (e1 ?= e2); cbn; try done; f_equal;
    pose proof (Pos.compare_cont_antisym m1 m2 Eq) as E; cbn in E; rewrite <- E; by rewrite ?CompOpp_involutive.
Qed.
Lemma worse_beyond ty value limit : worse ty value limit = beyond ty value limit.
Proof.
  unfold worse, beyond, flt, fle, SFltb, SFleb, AlertTypeMOS. rewrite (compare_flip value limit). destruct (bool_decide _), (SFcompare value limit) as [[]|]; done.
Qed.
Lemma violation_level ty th value : violation ty th value = level ty th value.
Proof.
  unfold violation, level. rewrite !worse_beyond, !filter_cons, filter_nil. cbn [snd]. by destruct (beyond ty value (CriticalValue th)), (beyond ty value (WarningValue th)).
Qed.

(** *** Keys of metrics *)

Lemma colon_split (a b r r' : bytes) : ":"%char ∉ a -> ":"%char ∉ b -> a ++ ":"%char :: r = b ++ ":"%char :: r' -> a = b /\ r = r'.
Proof.
  revert b. induction a as [|x a IH]; intros [|y b] Ha Hb E; cbn in E; injection E.
  - by intros ->.
  - intros _ <-. exfalso. apply Hb. left.
  - intros _ ->. exfalso. apply Ha. left.
  - intros E' ->. apply not_elem_of_cons in Ha as [_ Ha], Hb as [_ Hb]. by destruct (IH b Ha Hb E') as [-> ->].
Qed.
Lemma key_of_inj m m' : plain_metric m -> plain_metric m' -> key_of m = key_of m' -> m = m'.
Proof.
  destruct m as [[ty c] s], m' as [[ty' c'] s']. intros [H1 H2] [H1' H2']. unfold key_of, metric_key. cbn in *. intros [-> E]%colon_split; [|done..]. apply colon_split in E as [-> ->]; done.
Qed.

Lemma track_since now value (v : bool) m l : since m = violating_since l -> since (track now value v m) = violating_since ((now, v) :: l).
Proof. unfold since, track. intros H. destruct v; cbn; [|done]. rewrite <- H. by destruct (isViolating m). Qed.

Lemma last_of_snoc n k : 0 < n -> (if n <=? Z.of_nat (length (last_of n k)) then tail (last_of n k) else last_of n k) ++ [k] = last_of n (S k).
Proof.
  intros Hn. unfold last_of. rewrite length_seq. destruct (Z.leb_spec n (Z.of_nat (k `min` Z.to_nat n))) as [H|H].
  - assert (Nat.min k (Z.to_nat n) = S (Z.to_nat n - 1)) as -> by lia. rewrite Nat.min_r by lia. cbn [seq tail].
    replace (Z.to_nat n) with (Z.to_nat n - 1 + 1)%nat at 4 by lia. rewrite seq_app. cbn. repeat (f_equal; try lia).
  - rewrite !Nat.min_l by lia. replace (k - Z.to_nat n)%nat with 0%nat by lia. replace (S k - Z.to_nat n)%nat with 0%nat by lia. by rewrite seq_S.
Qed.

Lemma add_active_bound r id qa : 0 < maxActiveAlerts qa -> Z.of_nat (size (activeAlerts qa)) <= maxActiveAlerts qa ->
  Z.of_nat (size (activeAlerts (add_active r id qa))) <= maxActiveAlerts qa.
Proof.
  intros Hp H. unfold add_active. destruct (Z.ltb_spec (Z.of_nat (size (activeAlerts qa))) (maxActiveAlerts qa)) as [Hlt|]; [|done]. cbn.
  destruct (activeAlerts qa !! id) eqn:E; [rewrite map_size_insert_Some by eauto|rewrite map_size_insert_None by done]; lia.
Qed.

Definition with_raised (f : list (bytes * bytes * bytes * bytes * float64 * float64) -> list (bytes * bytes * bytes * bytes * float64 * float64)) (sp : alert_spec) : alert_spec :=
  mkSpec (sp_thresholds sp) (samples sp) (raised_at sp) (f (raised sp)).

Section agreement.
Context (cfg : QualityAlerter) (history_pos : 0 < maxHistory cfg) (active_pos : 0 < maxActiveAlerts cfg).

Lemma add_active_eq r id qa : add_active r id qa = qa <| activeAlerts := activeAlerts (add_active r id qa) |>.
Proof. unfold add_active. by destruct (_ <? _), qa. Qed.
Lemma add_history_eq r qa : 0 < maxHistory qa ->
  add_history r qa = qa <| alertHistory := (if maxHistory qa <=? Z.of_nat (length (alertHistory qa)) then tail (alertHistory qa) else alertHistory qa) ++ [r] |>.
Proof. intros H. unfold add_history. rewrite (proj2 (Z.ltb_lt _ _) H). by destruct (_ <=? _), qa. Qed.

Lemma publish_agrees T tid tm ty sev c s msg v lim md qa sp : agrees cfg T qa sp ->
  let '(r, id, qa') := make_alert tid tm ty sev c s msg v lim md qa in
  agrees cfg T (add_history r (add_active r id qa')) (with_raised (fun l => l ++ [(ty, sev, c, s, v, lim)]) sp).
Proof.
  intros [(H1 & H2 & H3) Ht Hm Hq Hr Hh Ha]. unfold make_alert, generateAlertID. cbn -[alertID].
  match goal with |- agrees _ _ (add_history _ (add_active ?r ?id ?q)) _ => pose proof (add_active_bound r id q) as Hb; rewrite (add_active_eq r id q) end.
  rewrite add_history_eq by (cbn; lia). cbn -[alertID] in *. rewrite H2, H3, Hh in *. constructor; cbn -[alertID]; try done.
  - by rewrite fmap_app, Hr.
  - rewrite length_app, Nat.add_1_r. by apply last_of_snoc.
  - by apply Hb.
Qed.

(** An update of a metric leaves the others alone. *)
Lemma metric_insert {A B C} (f : A -> C) (g : B -> C) (da : A) (db : B) (m : bytes * bytes * bytes) (a : A) (b : B) (ma : gmap bytes A) (mb : gmap (bytes * bytes * bytes) B) :
  plain_metric m -> f a = g b ->
  (forall m', plain_metric m' -> f (default da (ma !! key_of m')) = g (default db (mb !! m'))) ->
  forall m', plain_metric m' -> f (default da (<[key_of m := a]> ma !! key_of m')) = g (default db (<[m := b]> mb !! m')).
Proof.
  intros Hm Hab H m' Hm'. destruct (decide (m = m')) as [<-|Hne]; [by rewrite !lookup_insert_eq|].
  rewrite !lookup_insert_ne; [by apply H|done|]. intros E. by apply Hne, key_of_inj.
Qed.

Lemma later_agrees T T' qa sp : T <= T' -> agrees cfg T qa sp -> agrees cfg T' qa sp.
Proof. intros Hle [H1 H2 H3 H4 H5 H6 H7]. constructor; try done. intros m t Hm Ht. apply H4; [done|lia]. Qed.

(** An alert that is raised starts its suppression. *)
Lemma raise_agrees T t ty sev c s v lim md qa sp : agrees cfg T qa sp -> plain_metric (ty, c, s) ->
  agrees cfg T (raise_alert t ty sev c s v lim md qa)
    (mkSpec (sp_thresholds sp) (samples sp) (<[(ty, c, s) := t_until t]> (raised_at sp)) (raised sp ++ [(ty, sev, c, s, v, lim)])).
Proof.
  intros Ha Hpl. unfold raise_alert.
  pose proof (publish_agrees T (t_id t) (t_made t) ty sev c s (formatAlertMessage ty sev v lim) v lim md qa sp Ha) as Hp.
  destruct (make_alert _ _ _ _ _ _ _ _ _ _ _) as [[r id] qa']. destruct Hp as [(H1 & H2 & H3) H4 H5 H6 H7 H8 H9]. constructor; cbn in *; try done.
  intros m t' Hm Ht'. rewrite H1. change (metric_key ty c s) with (key_of (ty, c, s)). destruct (decide ((ty, c, s) = m)) as [<-|Hne]; [by rewrite !lookup_insert_eq|].
  rewrite !lookup_insert_ne; [by apply H6|done|]. intros E. by apply Hne, key_of_inj.
Qed.

Lemma check_agrees T t ty c s v md qa sp : agrees cfg T qa sp -> plain_metric (ty, c, s) -> T <= t_suppressed t ->
  agrees cfg T (CheckMetric t ty c s v md qa) (spec_check (SuppressionPeriod (config cfg)) t ty c s v sp).
Proof.
  intros Ha Hpl Ht. unfold CheckMetric, check_section, spec_check. rewrite (ag_thresholds _ _ _ _ Ha). destruct (sp_thresholds sp !! ty) as [th|] eqn:Eth; [|done].
  destruct (negb (Enabled th)); [done|]. rewrite violation_level. change (metric_key ty c s) with (key_of (ty, c, s)). set (metric := (ty, c, s)) in *. set (b := bool_decide _).
  pose proof (track_since (t_check t) v b _ _ (ag_metrics _ _ _ _ Ha metric Hpl)) as Hs. set (m := track _ _ _ _) in *. set (l := _ :: _) in *.
  assert (agrees cfg T (qa <| metricStates ::= <[key_of metric := m]> |>) (mkSpec (sp_thresholds sp) (<[metric := l]> (samples sp)) (raised_at sp) (raised sp))) as Ha'.
  { destruct Ha as [H1 H2 H3 H4 H5 H6 H7]. constructor; cbn -[key_of]; try done. by apply (metric_insert since violating_since new_metric [] metric m l). }
  destruct (level ty th v) as [[sev lim]|] eqn:Ev; [|by destruct (_ <=? _)].
  assert (violating_since l = Some (violationStart m)) as El by (rewrite <- Hs; done). rewrite El.
  destruct (Duration th <=? Time_Sub (t_check t) (violationStart m)); [|done]. cbn [andb].
  pose proof (ag_quiet _ _ _ _ Ha metric _ Hpl Ht) as Hq. unfold triggerAlert. change (metric_key ty c s) with (key_of metric).
  assert (suppressed (t_suppressed t) (key_of metric) (qa <| metricStates ::= <[key_of metric := m]> |>) =
    match raised_at sp !! metric with Some u => t_suppressed t <? u + SuppressionPeriod (config cfg) | None => false end) as ->.
  { unfold suppressed. cbn -[key_of]. unfold quiet_until in Hq. rewrite Hq. by destruct (raised_at sp !! metric). }
  destruct (match raised_at sp !! metric with Some u => _ | None => false end); cbn [negb]; [done|]. apply (raise_agrees T t ty sev c s v lim md _ _ Ha' Hpl).
Qed.

Lemma notify_agrees T r qa sp : agrees cfg T qa sp -> agrees cfg T (notify r qa) sp.
Proof. by intros [H1 H2 H3 H4 H5 H6 H7]. Qed.

Lemma gist_alter (f : QualityAlert -> QualityAlert) (r : nat) (l : list QualityAlert) : (forall a, gist (f a) = gist a) -> gist <$> alter f r l = gist <$> l.
Proof. intros Hf. revert r. induction l as [|a l IH]; intros [|r]; cbn; try done; [by rewrite Hf|]. f_equal. apply IH. Qed.

Lemma acknowledge_agrees T now id who qa sp : agrees cfg T qa sp -> agrees cfg T (AcknowledgeAlert now id who qa).2 sp.
Proof.
  intros Ha. unfold AcknowledgeAlert. destruct (activeAlerts qa !! id) as [r|]; [|done]. destruct Ha as [H1 H2 H3 H4 H5 H6 H7].
  constructor; cbn; try done; [by rewrite gist_alter|by rewrite length_alter].
Qed.

Lemma cleanup_agrees T now qa sp : agrees cfg T qa sp -> T <= now -> agrees cfg now (cleanup now qa) sp.
Proof.
  intros [H1 H2 H3 H4 H5 H6 H7] Hn. constructor; cbn; try done.
  - intros me Hm. rewrite <- H3, map_lookup_filter by done. destruct (metricStates qa !! key_of me) as [m|]; [|done]. cbn. case_guard as E; [done|]. cbn. unfold since.
    destruct (isViolating m); [|done]. exfalso. apply E. cbn. apply andb_false_r.
  - intros me t Hm Ht. rewrite <- H4 by (done || lia). rewrite map_lookup_filter. destruct (suppressions qa !! key_of me) as [u|]; [|done]. cbn. case_guard as E; [done|]. cbn in E |- *.
    unfold After, Before in *. destruct (Z.ltb_spec u now); [|done]. symmetry. apply Z.ltb_ge. lia.
Qed.

Lemma op_agrees T o ops qa sp : agrees cfg T qa sp -> plain_op o -> clock_from T (o :: ops) ->
  exists T', agrees cfg T' (apply_op o qa) (spec_op (SuppressionPeriod (config cfg)) o sp) /\ clock_from T' ops.
Proof.
  intros Ha Hpl Hc. destruct o as [t ty c s v md|t ty sev c s msg md|ty th|now id who|id|now|h]; cbn [apply_op clock_from] in *.
  - destruct Hc as [Ht Hc]. exists (t_suppressed t). split; [|done]. eapply later_agrees; [exact Ht|]. by apply check_agrees.
  - exists T. split; [|done]. unfold TriggerCustomAlert.
    pose proof (publish_agrees T (t_id t) (t_made t) ty sev c s msg (S754_zero false) (S754_zero false) md qa sp Ha) as Hp. destruct (make_alert _ _ _ _ _ _ _ _ _ _ _) as [[r id] qa']. by apply notify_agrees.
  - exists T. split; [|done]. destruct Ha as [H1 H2 H3 H4 H5 H6 H7]. constructor; cbn; try done. by rewrite H2.
  - exists T. split; [by apply acknowledge_agrees|done].
  - exists T. split; [|done]. destruct Ha as [H1 H2 H3 H4 H5 H6 H7]. constructor; cbn; try done. pose proof (map_subseteq_size _ _ (delete_subseteq (activeAlerts qa) id)). lia.
  - destruct Hc as [Hn Hc]. exists now. split; [by eapply cleanup_agrees|done].
  - exists T. split; [|done]. by destruct Ha as [H1 H2 H3 H4 H5 H6 H7].
Qed.

Lemma ops_agree ops : Forall plain_op ops -> forall T qa sp, agrees cfg T qa sp -> clock_from T ops ->
  exists T', agrees cfg T' (apply_ops ops qa) (foldl (fun sp o => spec_op (SuppressionPeriod (config cfg)) o sp) sp ops).
Proof.
  induction 1 as [|o ops Ho _ IH]; intros T qa sp Ha Hc; [by exists T|]. destruct (op_agrees _ _ _ _ _ Ha Ho Hc) as (T' & Ha' & Hc'). by apply (IH T').
Qed.
End agreement.

(** C24: alerts are raised exactly when they should be. Whatever checks, custom alerts,
    changes of thresholds, acknowledgements, removals and cleanups come one after the
    other on a clock that does not go back, with types and calls that have no colon,
    the alerts ever raised are those of the specification, which raises one on a check
    when every sample of the metric since a time at least the duration ago was beyond
    its limit and no alert on the metric was raised within the suppression period; the
    history is the latest of them, in order and within its limit; and no more are
    active than the limit on active alerts. *)
Theorem alerts_exact cfg T ops : Forall plain_op ops -> clock_from T ops ->
  let qa := apply_ops ops (NewQualityAlerter cfg) in
  gist <$> store qa = raised (spec_ops (SuppressionPeriod (default DefaultQualityAlerterConfig cfg)) ops) /\
  alertHistory qa = last_of (maxHistory (NewQualityAlerter cfg)) (length (store qa)) /\
  Z.of_nat (size (activeAlerts qa)) <= maxActiveAlerts (NewQualityAlerter cfg).
Proof.
  intros Hpl Hc. assert (0 < maxHistory (NewQualityAlerter cfg) /\ 0 < maxActiveAlerts (NewQualityAlerter cfg)) as [H1 H2].
  { unfold NewQualityAlerter. cbn. split; destruct (_ <=? 0) eqn:E; lia. }
  destruct (ops_agree (NewQualityAlerter cfg) H1 H2 ops Hpl T (NewQualityAlerter cfg) (mkSpec DefaultAlertThresholds ∅ ∅ [])) as (T' & [_ _ _ _ Hr Hh Ha]); [|done|done].
  constructor; try done. apply Z.lt_le_incl, H2.
Qed.

(** Two checks of one metric at a time: both find no suppression before either has set
    it, and both raise an alert. *)
Example concurrent_checks_raise_twice :
  let t := mkReadings 0 (12 * Second) (12 * Second) (12 * Second) (12 * Second) in
  let qa := (check_section Second AlertTypeJitter (bs "c") (bs "s") (lit 60 1) (NewQualityAlerter None)).2 in
  let '(r1, qa) := check_section (12 * Second) AlertTypeJitter (bs "c") (bs "s") (lit 60 1) qa in
  let '(r2, qa) := check_section (12 * Second) AlertTypeJitter (bs "c") (bs "s") (lit 60 1) qa in
  let key := metric_key AlertTypeJitter (bs "c") (bs "s") in
  r1 = Some (AlertSeverityCritical, lit 50 1) /\ r2 = r1 /\ suppressed (12 * Second) key qa = false /\
  length (store (raise_alert t AlertTypeJitter AlertSeverityCritical (bs "c") (bs "s") (lit 60 1) (lit 50 1) 0
                  (raise_alert t AlertTypeJitter AlertSeverityCritical (bs "c") (bs "s") (lit 60 1) (lit 50 1) 0 qa))) = 2%nat.
Proof. vm_compute. done. Qed.

(** ** What clearing a call leaves behind *)

(** The state of a metric is found by its call only when the session is unnamed. *)
Theorem unnamed_session_found ty c : containsCallID (metric_key ty c []) c = true.
Proof.
  unfold containsCallID, metric_key. apply andb_true_iff. split.
  - apply Nat.ltb_lt. rewrite !length_app. cbn. lia.
  - apply bool_decide_eq_true. rewrite app_nil_r, !length_app. cbn [length bs list_ascii_of_string].
    replace (length ty + (1 + (length c + 1)) - length c - 1)%nat with (length ty + 1)%nat by lia. rewrite app_assoc, drop_app_length' by (rewrite length_app; cbn; lia). apply take_app_length.
Qed.

(** A call with a session keeps its state when it is cleared, and clearing another
    call whose name its own ends with clears it. *)
Example named_session_kept : containsCallID (metric_key AlertTypeMOS (bs "call-1") (bs "session")) (bs "call-1") = false /\
  containsCallID (metric_key AlertTypeMOS (bs "call-1") []) (bs "1") = true.
Proof. vm_compute. done. Qed.

(** Keys run together: two metrics share their state and suppression. *)
Example keys_collide : metric_key AlertTypeMOS (bs "a:b") (bs "c") = metric_key AlertTypeMOS (bs "a") (bs "b:c").
Proof. reflexivity. Qed.

(** A warning suppresses the critical alert of the same metric for five minutes. *)
Example warning_hides_critical :
  let check now v := OCheck (mkReadings now now now now now) AlertTypePacketLoss (bs "c") (bs "s") v 0 in
  map Severity (store (apply_ops [check Second (lit 2 1); check (12 * Second) (lit 2 1); check (60 * Second) (lit 50 1); check (240 * Second) (lit 90 1)] (NewQualityAlerter None))) =
    [AlertSeverityWarning].
Proof. vm_compute. reflexivity. Qed.

Example message_format : formatAlertMessage AlertTypePacketLoss AlertSeverityWarning (lit 5 2) (lit 1 1) = bs "Packet loss 2.50% exceeds warning threshold (1.00%)".
Proof. vm_compute. reflexivity. Qed.

(** ** Witness *)

(** Two high samples eleven seconds apart raise one alert, a third one is suppressed. *)
Definition sample_at (now : Z) : op := OCheck (mkReadings now now now now now) AlertTypeJitter (bs "c") (bs "s") (lit 60 1) 0.
Lemma alerts_exact_witness :
  raised (spec_ops (5 * 60 * Second) [sample_at Second; sample_at (12 * Second); OCleanup (13 * Second); sample_at (20 * Second)]) =
    [(AlertTypeJitter, AlertSeverityCritical, bs "c", bs "s", lit 60 1, lit 50 1)] /\
  gist <$> store (apply_ops [sample_at Second; sample_at (12 * Second); OCleanup (13 * Second); sample_at (20 * Second)] (NewQualityAlerter None)) =
    raised (spec_ops (5 * 60 * Second) [sample_at Second; sample_at (12 * Second); OCleanup (13 * Second); sample_at (20 * Second)]).
Proof.
  split; [vm_compute; reflexivity|].
  apply (alerts_exact None 0 [sample_at Second; sample_at (12 * Second); OCleanup (13 * Second); sample_at (20 * Second)]); [|cbn; unfold Second; lia].
  repeat constructor; apply (bool_decide_unpack _); vm_compute; exact I.
Defined.
