(* ===== verification/T38.v ===== *)
(** * The T.38 gateway

    Models src/internal/t38_gateway.go: fax sessions, their packets and the attributes
    of their description. An address is the bytes of its net.IP; the configuration the
    sessions share is never written. *)

From Stdlib Require Import ZArith Lia ZifyNat Ascii String.
From stdpp Require Import base numbers list gmap strings.
From S2P Require Import Prelude Bencode.

Local Open Scope Z_scope.
Local Open Scope go_scope.

(** ** Data *)

Record T38Config := mkT38Config {
  Enabled : bool; GatewayMode : bool; MaxBitRate : Z; RateMgmt : bytes; MaxBuffer : Z; UDPECMode : bytes; UDPECDepth : Z;
  FillBitRemoval : bool; TranscodingMMR : bool; TranscodingJBIG : bool }.
Definition DefaultT38Config : T38Config := mkT38Config true false 14400 (bs "transferredTCF") 200 (bs "t38UDPRedundancy") 3 true false false.

Inductive T38State := T38StateIdle | T38StateSetup | T38StateActive | T38StateComplete | T38StateFailed.
#[export] Instance T38State_dec : EqDecision T38State.
Proof. solve_decision. Defined.
Inductive T38Direction := T38DirectionSend | T38DirectionReceive | T38DirectionBoth.

Record T38Stats := mkT38Stats { PagesSent : Z; PagesReceived : Z; PacketsSent : Z; PacketsRecv : Z; BytesSent : Z; BytesRecv : Z; t38_Errors : Z; Retransmits : Z }.
#[export] Instance set_PagesSent : Setter PagesSent := fun f r =>
  mkT38Stats (f (PagesSent r)) (PagesReceived r) (PacketsSent r) (PacketsRecv r) (BytesSent r) (BytesRecv r) (t38_Errors r) (Retransmits r).
#[export] Instance set_PagesReceived : Setter PagesReceived := fun f r =>
  mkT38Stats (PagesSent r) (f (PagesReceived r)) (PacketsSent r) (PacketsRecv r) (BytesSent r) (BytesRecv r) (t38_Errors r) (Retransmits r).
#[export] Instance set_PacketsSent : Setter PacketsSent := fun f r =>
  mkT38Stats (PagesSent r) (PagesReceived r) (f (PacketsSent r)) (PacketsRecv r) (BytesSent r) (BytesRecv r) (t38_Errors r) (Retransmits r).
#[export] Instance set_PacketsRecv : Setter PacketsRecv := fun f r =>
  mkT38Stats (PagesSent r) (PagesReceived r) (PacketsSent r) (f (PacketsRecv r)) (BytesSent r) (BytesRecv r) (t38_Errors r) (Retransmits r).
#[export] Instance set_BytesSent : Setter BytesSent := fun f r =>
  mkT38Stats (PagesSent r) (PagesReceived r) (PacketsSent r) (PacketsRecv r) (f (BytesSent r)) (BytesRecv r) (t38_Errors r) (Retransmits r).
#[export] Instance set_BytesRecv : Setter BytesRecv := fun f r =>
  mkT38Stats (PagesSent r) (PagesReceived r) (PacketsSent r) (PacketsRecv r) (BytesSent r) (f (BytesRecv r)) (t38_Errors r) (Retransmits r).
#[export] Instance set_t38_Errors : Setter t38_Errors := fun f r =>
  mkT38Stats (PagesSent r) (PagesReceived r) (PacketsSent r) (PacketsRecv r) (BytesSent r) (BytesRecv r) (f (t38_Errors r)) (Retransmits r).
#[export] Instance set_Retransmits : Setter Retransmits := fun f r =>
  mkT38Stats (PagesSent r) (PagesReceived r) (PacketsSent r) (PacketsRecv r) (BytesSent r) (BytesRecv r) (t38_Errors r) (f (Retransmits r)).
Definition no_stats : T38Stats := mkT38Stats 0 0 0 0 0 0 0 0.

Record T38Session := mkT38Session {
  t38_ID : bytes; t38_CallID : bytes; t38_State : T38State; LocalIP : list Z; LocalPort : Z; RemoteIP : list Z; RemotePort : Z;
  Direction : T38Direction; t38_Stats : T38Stats; CreatedAt : Z; LastActivity : Z }.
#[export] Instance set_t38_ID : Setter t38_ID := fun f r =>
  mkT38Session (f (t38_ID r)) (t38_CallID r) (t38_State r) (LocalIP r) (LocalPort r) (RemoteIP r) (RemotePort r) (Direction r) (t38_Stats r) (CreatedAt r) (LastActivity r).
#[export] Instance set_t38_CallID : Setter t38_CallID := fun f r =>
  mkT38Session (t38_ID r) (f (t38_CallID r)) (t38_State r) (LocalIP r) (LocalPort r) (RemoteIP r) (RemotePort r) (Direction r) (t38_Stats r) (CreatedAt r) (LastActivity r).
#[export] Instance set_t38_State : Setter t38_State := fun f r =>
  mkT38Session (t38_ID r) (t38_CallID r) (f (t38_State r)) (LocalIP r) (LocalPort r) (RemoteIP r) (RemotePort r) (Direction r) (t38_Stats r) (CreatedAt r) (LastActivity r).
#[export] Instance set_LocalIP : Setter LocalIP := fun f r =>
  mkT38Session (t38_ID r) (t38_CallID r) (t38_State r) (f (LocalIP r)) (LocalPort r) (RemoteIP r) (RemotePort r) (Direction r) (t38_Stats r) (CreatedAt r) (LastActivity r).
#[export] Instance set_LocalPort : Setter LocalPort := fun f r =>
  mkT38Session (t38_ID r) (t38_CallID r) (t38_State r) (LocalIP r) (f (LocalPort r)) (RemoteIP r) (RemotePort r) (Direction r) (t38_Stats r) (CreatedAt r) (LastActivity r).
#[export] Instance set_RemoteIP : Setter RemoteIP := fun f r =>
  mkT38Session (t38_ID r) (t38_CallID r) (t38_State r) (LocalIP r) (LocalPort r) (f (RemoteIP r)) (RemotePort r) (Direction r) (t38_Stats r) (CreatedAt r) (LastActivity r).
#[export] Instance set_RemotePort : Setter RemotePort := fun f r =>
  mkT38Session (t38_ID r) (t38_CallID r) (t38_State r) (LocalIP r) (LocalPort r) (RemoteIP r) (f (RemotePort r)) (Direction r) (t38_Stats r) (CreatedAt r) (LastActivity r).
#[export] Instance set_Direction : Setter Direction := fun f r =>
  mkT38Session (t38_ID r) (t38_CallID r) (t38_State r) (LocalIP r) (LocalPort r) (RemoteIP r) (RemotePort r) (f (Direction r)) (t38_Stats r) (CreatedAt r) (LastActivity r).
#[export] Instance set_t38_Stats : Setter t38_Stats := fun f r =>
  mkT38Session (t38_ID r) (t38_CallID r) (t38_State r) (LocalIP r) (LocalPort r) (RemoteIP r) (RemotePort r) (Direction r) (f (t38_Stats r)) (CreatedAt r) (LastActivity r).
#[export] Instance set_CreatedAt : Setter CreatedAt := fun f r =>
  mkT38Session (t38_ID r) (t38_CallID r) (t38_State r) (LocalIP r) (LocalPort r) (RemoteIP r) (RemotePort r) (Direction r) (t38_Stats r) (f (CreatedAt r)) (LastActivity r).
#[export] Instance set_LastActivity : Setter LastActivity := fun f r =>
  mkT38Session (t38_ID r) (t38_CallID r) (t38_State r) (LocalIP r) (LocalPort r) (RemoteIP r) (RemotePort r) (Direction r) (t38_Stats r) (CreatedAt r) (f (LastActivity r)).
(** [T38IFPType] is an int. *)
Record T38IFP := mkIFP { ifp_Type : Z; ifp_Data : list Z; ifp_SeqNum : Z; Redundant : list (list Z) }.

Record T38Gateway := mkGateway { sessions : gmap bytes T38Session; config : T38Config }.
#[export] Instance set_sessions : Setter sessions := fun f r =>
  mkGateway (f (sessions r)) (config r).
Definition NewT38Gateway (cfg : option T38Config) : T38Gateway := mkGateway ∅ (default DefaultT38Config cfg).

Inductive t38_error := ErrT38NotFound (id : bytes) | ErrT38TooShort.
#[export] Instance t38_error_dec : EqDecision t38_error.
Proof. solve_decision. Defined.

(** ** Sessions *)

(** [now] is the time in the identifier, [created] and [active] those of the session. *)
Definition t38_sessionID (callID : bytes) (now : Z) : bytes := bs "t38-" ++ callID ++ bs "-" ++ FormatInt now.
Definition CreateSession (now created active : Z) (callID : bytes) (ip : list Z) (port : Z) (gw : T38Gateway) : bytes * T38Gateway :=
  let id := t38_sessionID callID now in
  (id, gw <| sessions ::= <[id := mkT38Session id callID T38StateSetup ip port [] 0 T38DirectionBoth no_stats created active]> |>).

(** An operation on a session that has to exist. *)
Definition on_session {A} (id : bytes) (f : T38Session -> outcome t38_error A * T38Session) (gw : T38Gateway) : outcome t38_error A * T38Gateway :=
  match sessions gw !! id with
  | None => (Err (ErrT38NotFound id), gw)
  | Some s => let '(r, s) := f s in (r, gw <| sessions ::= <[id := s]> |>)
  end.

Definition SetRemoteEndpoint (now : Z) (id : bytes) (ip : list Z) (port : Z) : T38Gateway -> outcome t38_error unit * T38Gateway :=
  on_session id (fun s => (Ok tt, s <| RemoteIP := ip |> <| RemotePort := port |> <| t38_State := T38StateActive |> <| LastActivity := now |>)).
Definition GetSession (id : bytes) (gw : T38Gateway) : option T38Session := sessions gw !! id.
(** [order] is the order the map is walked in. *)
Definition GetSessionByCallID (callID : bytes) (order : list (bytes * T38Session)) : list T38Session := filter (fun s => t38_CallID s = callID) order.*2.
Definition CompleteSession (id : bytes) : T38Gateway -> outcome t38_error unit * T38Gateway :=
  on_session id (fun s => (Ok tt, s <| t38_State := T38StateComplete |>)).
Definition RemoveSession (id : bytes) (gw : T38Gateway) : T38Gateway := gw <| sessions ::= delete id |>.
Definition GetStats (id : bytes) (gw : T38Gateway) : outcome t38_error T38Stats :=
  match sessions gw !! id with None => Err (ErrT38NotFound id) | Some s => Ok (t38_Stats s) end.
Definition GetActiveCount (gw : T38Gateway) : Z := Z.of_nat (size (filter (fun ks : bytes * T38Session => t38_State ks.2 = T38StateActive) (sessions gw))).

(** ** Packets *)

Definition parseIFP (packet : list Z) : outcome t38_error T38IFP :=
  match packet with
  | b0 :: b1 :: data => Ok (mkIFP (Z.shiftr b0 4) data (Z.lor (u16 (Z.shiftl (Z.land b0 15) 8)) b1) [])
  | _ => Err ErrT38TooShort
  end.
Definition buildIFP (cfg : T38Config) (ifp : T38IFP) : list Z :=
  let packet := Z.lor (u8 (Z.shiftl (u8 (ifp_Type ifp)) 4)) (u8 (Z.shiftr (ifp_SeqNum ifp) 8)) :: u8 (Z.land (ifp_SeqNum ifp) 255) :: ifp_Data ifp in
  if bool_decide (UDPECMode cfg = bs "t38UDPRedundancy") then foldl app packet (Redundant ifp) else packet.

Definition ProcessPacket (now : Z) (id : bytes) (packet : list Z) : T38Gateway -> outcome t38_error T38IFP * T38Gateway :=
  on_session id (fun s =>
    let s := s <| t38_Stats ::= fun st => st <| PacketsRecv ::= fun n => u64 (n + 1) |> <| BytesRecv ::= fun n => u64 (n + Z.of_nat (length packet)) |> |>
               <| LastActivity := now |> in
    match parseIFP packet with
    | Ok ifp => (Ok ifp, s)
    | r => (r, s <| t38_Stats ::= fun st => st <| t38_Errors ::= fun n => i64 (n + 1) |> |>)
    end).
Definition SendPacket (now : Z) (id : bytes) (ifp : T38IFP) (gw : T38Gateway) : outcome t38_error unit * T38Gateway :=
  on_session id (fun s =>
    let packet := buildIFP (config gw) ifp in
    (Ok tt, s <| t38_Stats ::= fun st => st <| PacketsSent ::= fun n => u64 (n + 1) |> <| BytesSent ::= fun n => u64 (n + Z.of_nat (length packet)) |> |>
              <| LastActivity := now |>)) gw.

(** ** Descriptions *)

Definition crlf : bytes := ["013"%char; "010"%char].
Definition BuildT38SDP (cfg : option T38Config) (localIP : bytes) (localPort : Z) : bytes :=
  let cfg := default DefaultT38Config cfg in
  bs "m=image " ++ FormatInt localPort ++ bs " udptl t38" ++ crlf ++
  bs "a=T38MaxBitRate:" ++ FormatInt (MaxBitRate cfg) ++ crlf ++
  bs "a=T38FaxRateManagement:" ++ RateMgmt cfg ++ crlf ++
  bs "a=T38FaxMaxBuffer:" ++ FormatInt (MaxBuffer cfg) ++ crlf ++
  bs "a=T38FaxMaxDatagram:200" ++ crlf ++
  bs "a=T38FaxUdpEC:" ++ UDPECMode cfg ++ crlf ++
  (if FillBitRemoval cfg then bs "a=T38FaxFillBitRemoval" ++ crlf else []) ++
  (if TranscodingMMR cfg then bs "a=T38FaxTranscodingMMR" ++ crlf else []) ++
  (if TranscodingJBIG cfg then bs "a=T38FaxTranscodingJBIG" ++ crlf else []).
Definition ParseT38SDP (sdp : bytes) : T38Config := DefaultT38Config.

(** ** Cleanup *)

Definition is_over (s : T38Session) : bool := bool_decide (t38_State s = T38StateComplete) || bool_decide (t38_State s = T38StateFailed).
Definition shouldRemove (now maxAge : Z) (s : T38Session) : bool := is_over s && (maxAge <? Time_Sub now (CreatedAt s)).
Definition Cleanup (now maxAge : Z) (gw : T38Gateway) : Z * T38Gateway :=
  let gone := filter (fun ks : bytes * T38Session => shouldRemove now maxAge ks.2 = true) (sessions gw) in
  (Z.of_nat (size gone), gw <| sessions ::= fun m => m ∖ gone |>).

(** ** Guarantees *)

Lemma concat_redundant (l : list (list Z)) p : foldl app p l = p ++ concat l.
Proof. revert p. induction l as [|x l IH]; intros p; cbn; [by rewrite app_nil_r|]. by rewrite IH, <- app_assoc. Qed.

Lemma land_255 n : Z.land n 255 = n mod 256.
Proof. change 255 with (Z.ones 8). by rewrite Z.land_ones. Qed.

Lemma lor_high_low x y : 0 <= y < 256 -> Z.lor (x * 256) y = x * 256 + y.
Proof.
  intros Hy. change 256 with (2 ^ 8). assert (Z.land (x * 2 ^ 8) y = 0) as H.
  { apply Z.bits_inj'. intros i Hi. rewrite Z.land_spec, Z.bits_0. destruct (Z.ltb_spec i 8) as [Hlt|Hge]; [by rewrite Z.mul_pow2_bits_low by lia|].
    rewrite <- (Z.mod_small y (2 ^ 8)) by lia. rewrite Z.mod_pow2_bits_high by lia. apply andb_false_r. }
  by rewrite <- Z.lxor_lor, <- Z.add_nocarry_lxor by done.
Qed.

(** The parts of the first byte, bit by bit. *)
Lemma first_byte t q : 0 <= q < 2 ^ 16 ->
  let b := Z.lor (u8 (Z.shiftl (u8 t) 4)) (u8 (Z.shiftr q 8)) in
  Z.shiftr b 4 = Z.lor (t mod 16) (q / 4096) /\ Z.land b 15 = q / 256 mod 16.
Proof.
  intros Hq b. assert (Z.shiftr (u8 (Z.shiftl (u8 t) 4)) 4 = t mod 16) as H1.
  { unfold wrapu. rewrite Z.shiftl_mul_pow2, Z.shiftr_div_pow2 by lia. change (2 ^ 8) with (2 ^ 4 * 2 ^ 4). rewrite Z.mul_mod_distr_r, Z.div_mul by lia.
    change (2 ^ 4 * 2 ^ 4) with (16 * 16). change (2 ^ 4) with 16. rewrite Z.rem_mul_r by lia. rewrite (Z.mul_comm 16), Z.mod_add by lia. apply Z.mod_mod. lia. }
  assert (Z.land (u8 (Z.shiftl (u8 t) 4)) 15 = 0) as H2.
  { change 15 with (Z.ones 4). rewrite Z.land_ones by lia. unfold wrapu. rewrite Z.shiftl_mul_pow2 by lia. change (2 ^ 8) with (2 ^ 4 * 2 ^ 4).
    rewrite Z.mul_mod_distr_r by lia. apply Z.mod_mul. lia. }
  assert (u8 (Z.shiftr q 8) = q / 256) as H3.
  { unfold wrapu. rewrite Z.shiftr_div_pow2 by lia. apply Z.mod_small. change (2 ^ 8) with 256. split; [apply Z.div_pos; lia|apply Z.div_lt_upper_bound; lia]. }
  unfold b. split.
  - rewrite Z.shiftr_lor, H1, H3, Z.shiftr_div_pow2 by lia. change (2 ^ 4) with 16. by rewrite Z.div_div by lia.
  - rewrite Z.land_lor_distr_l, H2, H3. change 15 with (Z.ones 4). rewrite Z.land_ones by lia. apply Z.lor_0_l.
Qed.

(** What a receiver reads of a packet that was built: the type is overlaid with the
    top four bits of the sequence number, of which twelve bits are left, and the
    redundant data of the default configuration runs on behind the data. *)
Theorem ifp_wire_exact cfg ifp : is_u 16 (ifp_SeqNum ifp) ->
  parseIFP (buildIFP cfg ifp) = Ok (mkIFP (Z.lor (ifp_Type ifp mod 16) (ifp_SeqNum ifp / 4096))
    (ifp_Data ifp ++ if bool_decide (UDPECMode cfg = bs "t38UDPRedundancy") then concat (Redundant ifp) else []) (ifp_SeqNum ifp mod 4096) []).
Proof.
  intros Hq. destruct (first_byte (ifp_Type ifp) _ Hq) as [H1 H2]. unfold buildIFP. rewrite concat_redundant.
  assert (forall data, parseIFP (Z.lor (u8 (Z.shiftl (u8 (ifp_Type ifp)) 4)) (u8 (Z.shiftr (ifp_SeqNum ifp) 8)) :: u8 (Z.land (ifp_SeqNum ifp) 255) :: data) =
    Ok (mkIFP (Z.lor (ifp_Type ifp mod 16) (ifp_SeqNum ifp / 4096)) data (ifp_SeqNum ifp mod 4096) [])) as H.
  { intros data. unfold parseIFP. rewrite H1, H2. do 2 f_equal. set (n := ifp_SeqNum ifp) in *. pose proof (Z.mod_pos_bound (n / 256) 16 ltac:(lia)). pose proof (Z.mod_pos_bound n 256 ltac:(lia)).
    rewrite land_255, Z.shiftl_mul_pow2 by lia. rewrite wrapu_id by (unfold is_u; lia). rewrite wrapu_id by (unfold is_u; lia). change (2 ^ 8) with 256.
    rewrite lor_high_low by lia. change 4096 with (256 * 16). rewrite (Z.rem_mul_r n 256 16) by lia. lia. }
  case_bool_decide; cbn [app]; rewrite H; [done|by rewrite app_nil_r].
Qed.

(** A packet of a known type with a sequence number of twelve bits and no redundancy
    is read as it was. *)
Theorem ifp_roundtrip cfg t data n : 0 <= t < 16 -> 0 <= n < 4096 -> parseIFP (buildIFP cfg (mkIFP t data n [])) = Ok (mkIFP t data n []).
Proof.
  intros Ht Hn. rewrite ifp_wire_exact by (unfold is_u; cbn; lia). cbn. rewrite Z.div_small, !Z.mod_small, Z.lor_0_r by lia. by case_bool_decide; rewrite app_nil_r.
Qed.

(** From the 4096th packet on a fax has the wrong types; the redundant data of an
    earlier packet is read as data. *)
Example sequence_overlays_type : parseIFP (buildIFP DefaultT38Config (mkIFP 0 [7] 4096 [])) = Ok (mkIFP 1 [7] 0 []).
Proof. vm_compute. reflexivity. Qed.
Example redundancy_read_as_data : parseIFP (buildIFP DefaultT38Config (mkIFP 5 [1; 2] 1 [[3; 4]])) = Ok (mkIFP 5 [1; 2; 3; 4] 1 []).
Proof. vm_compute. reflexivity. Qed.

(** A cleanup removes exactly the sessions that are over and too old, and says how
    many; those that never became active or were never completed stay for ever. *)
Theorem t38_cleanup_exact now maxAge gw n gw' : Cleanup now maxAge gw = (n, gw') ->
  (forall id s, sessions gw' !! id = Some s <-> sessions gw !! id = Some s /\ (is_over s = false \/ Time_Sub now (CreatedAt s) <= maxAge)) /\
  n = Z.of_nat (size (sessions gw)) - Z.of_nat (size (sessions gw')).
Proof.
  unfold Cleanup. intros [= <- <-]. cbn. split.
  - intros id s. rewrite lookup_difference_Some, map_lookup_filter_None. unfold shouldRemove. split.
    + intros [H [H'|H']]; [congruence|]. split; [done|]. specialize (H' s H). cbn in H'. destruct (is_over s); [right|by left]. cbn in H'. lia.
    + intros [H Hc]. split; [done|]. right. intros s' H'. assert (s' = s) as -> by congruence. cbn. destruct Hc as [->|Hc]; [done|]. rewrite (proj2 (Z.ltb_ge _ _) Hc). by rewrite andb_false_r.
  - set (gone := filter _ _). assert (gone ⊆ sessions gw) as Hsub by apply map_filter_subseteq.
    assert (size (sessions gw) = size gone + size (sessions gw ∖ gone))%nat; [|lia].
    rewrite <- map_size_disj_union by (by apply map_disjoint_difference_r1). by rewrite map_difference_union.
Qed.

(** Whatever a peer describes, the parsed description is the default one. *)
Example description_ignored : ParseT38SDP (BuildT38SDP (Some (mkT38Config true false 9600 (bs "localTCF") 72 (bs "t38UDPFEC") 1 false true true)) [] 4000) = DefaultT38Config.
Proof. reflexivity. Qed.
