(* ===== verification/RecordingContinuity.v ===== *)
(** * Continuity of recordings over nodes

    Models src/internal/recording_continuity.go: recordings with a ring of their
    latest audio, checkpoints of it, and the takeover of a recording by another node.

    The state in redis is a table of states and one of latest checkpoints, which are
    given back as they were stored unless the call fails; their expiry after a day is
    left out. A node has its own disk and there is a shared one, both those of
    [Recorder]; how a file operation ends is an argument. The files of the hourly
    cleanup are an argument too, and so is whether creating the directories works. *)

From Stdlib Require Import ZArith Lia ZifyNat Ascii String.
From stdpp Require Import base numbers list gmap strings.
From S2P Require Import Prelude GoFloat Bencode Recorder.

Local Open Scope Z_scope.
Local Open Scope go_scope.

(** ** Data *)

Record RecordingContinuityConfig := mkContConfig {
  RedisPrefix : string; CheckpointInterval : Z; BufferDuration : Z; MaxBufferSize : Z; SharedStoragePath : string; EnableSharedStorage : bool;
  LocalBufferPath : string; SyncTimeout : Z }.
Definition DefaultRecordingContinuityConfig : RecordingContinuityConfig :=
  mkContConfig "recording:state:" (5 * Second) (10 * Second) (10 * 1024 * 1024) "/var/lib/karl/recordings/shared" false "/var/lib/karl/recordings/buffer" (30 * Second).

Inductive RecordingState := RecordingStateIdle | RecordingStateActive | RecordingStatePaused | RecordingStateHandoff | RecordingStateFinalizing | RecordingStateComplete | RecordingStateFailed.
#[export] Instance RecordingState_dec : EqDecision RecordingState.
Proof. solve_decision. Defined.
Definition RecordingState_String (s : RecordingState) : string :=
  match s with
  | RecordingStateIdle => "idle" | RecordingStateActive => "active" | RecordingStatePaused => "paused" | RecordingStateHandoff => "handoff"
  | RecordingStateFinalizing => "finalizing" | RecordingStateComplete => "complete" | RecordingStateFailed => "failed"
  end.

Record RecordingCheckpoint := mkCheckpoint {
  cp_ID : string; cp_SessionID : string; cp_NodeID : string; cp_Timestamp : Z; ByteOffset : Z; cp_Duration : Z; BufferFile : string;
  Sequence : Z; AudioFormat : string; cp_SampleRate : Z; cp_Channels : Z }.

(** [rb_file] is the number of the open file. *)
Record RecordingBuffer := mkRing { rb_data : list Z; capacity : Z; writePos : nat; startTime : Z; rb_sampleRate : Z; rb_channels : Z; rb_file : option nat }.
#[export] Instance set_rb_data : Setter rb_data := fun f r =>
  mkRing (f (rb_data r)) (capacity r) (writePos r) (startTime r) (rb_sampleRate r) (rb_channels r) (rb_file r).
#[export] Instance set_capacity : Setter capacity := fun f r =>
  mkRing (rb_data r) (f (capacity r)) (writePos r) (startTime r) (rb_sampleRate r) (rb_channels r) (rb_file r).
#[export] Instance set_writePos : Setter writePos := fun f r =>
  mkRing (rb_data r) (capacity r) (f (writePos r)) (startTime r) (rb_sampleRate r) (rb_channels r) (rb_file r).
#[export] Instance set_startTime : Setter startTime := fun f r =>
  mkRing (rb_data r) (capacity r) (writePos r) (f (startTime r)) (rb_sampleRate r) (rb_channels r) (rb_file r).
#[export] Instance set_rb_sampleRate : Setter rb_sampleRate := fun f r =>
  mkRing (rb_data r) (capacity r) (writePos r) (startTime r) (f (rb_sampleRate r)) (rb_channels r) (rb_file r).
#[export] Instance set_rb_channels : Setter rb_channels := fun f r =>
  mkRing (rb_data r) (capacity r) (writePos r) (startTime r) (rb_sampleRate r) (f (rb_channels r)) (rb_file r).
#[export] Instance set_rb_file : Setter rb_file := fun f r =>
  mkRing (rb_data r) (capacity r) (writePos r) (startTime r) (rb_sampleRate r) (rb_channels r) (f (rb_file r)).

Record ContinuousRecording := mkCont {
  cr_SessionID : string; cr_CallID : string; cr_StartTime : Z; cr_NodeID : string; cr_State : RecordingState; cr_FilePath : string; cr_Format : string;
  cr_Channels : Z; cr_SampleRate : Z; cr_BytesWritten : Z; cr_Duration : Z; LastChunk : Z; Buffer : RecordingBuffer; Checkpoints : list RecordingCheckpoint }.
#[export] Instance set_cr_SessionID : Setter cr_SessionID := fun f r =>
  mkCont (f (cr_SessionID r)) (cr_CallID r) (cr_StartTime r) (cr_NodeID r) (cr_State r) (cr_FilePath r) (cr_Format r) (cr_Channels r) (cr_SampleRate r) (cr_BytesWritten r) (cr_Duration r) (LastChunk r) (Buffer r) (Checkpoints r).
#[export] Instance set_cr_CallID : Setter cr_CallID := fun f r =>
  mkCont (cr_SessionID r) (f (cr_CallID r)) (cr_StartTime r) (cr_NodeID r) (cr_State r) (cr_FilePath r) (cr_Format r) (cr_Channels r) (cr_SampleRate r) (cr_BytesWritten r) (cr_Duration r) (LastChunk r) (Buffer r) (Checkpoints r).
#[export] Instance set_cr_StartTime : Setter cr_StartTime := fun f r =>
  mkCont (cr_SessionID r) (cr_CallID r) (f (cr_StartTime r)) (cr_NodeID r) (cr_State r) (cr_FilePath r) (cr_Format r) (cr_Channels r) (cr_SampleRate r) (cr_BytesWritten r) (cr_Duration r) (LastChunk r) (Buffer r) (Checkpoints r).
#[export] Instance set_cr_NodeID : Setter cr_NodeID := fun f r =>
  mkCont (cr_SessionID r) (cr_CallID r) (cr_StartTime r) (f (cr_NodeID r)) (cr_State r) (cr_FilePath r) (cr_Format r) (cr_Channels r) (cr_SampleRate r) (cr_BytesWritten r) (cr_Duration r) (LastChunk r) (Buffer r) (Checkpoints r).
#[export] Instance set_cr_State : Setter cr_State := fun f r =>
  mkCont (cr_SessionID r) (cr_CallID r) (cr_StartTime r) (cr_NodeID r) (f (cr_State r)) (cr_FilePath r) (cr_Format r) (cr_Channels r) (cr_SampleRate r) (cr_BytesWritten r) (cr_Duration r) (LastChunk r) (Buffer r) (Checkpoints r).
#[export] Instance set_cr_FilePath : Setter cr_FilePath := fun f r =>
  mkCont (cr_SessionID r) (cr_CallID r) (cr_StartTime r) (cr_NodeID r) (cr_State r) (f (cr_FilePath r)) (cr_Format r) (cr_Channels r) (cr_SampleRate r) (cr_BytesWritten r) (cr_Duration r) (LastChunk r) (Buffer r) (Checkpoints r).
#[export] Instance set_cr_Format : Setter cr_Format := fun f r =>
  mkCont (cr_SessionID r) (cr_CallID r) (cr_StartTime r) (cr_NodeID r) (cr_State r) (cr_FilePath r) (f (cr_Format r)) (cr_Channels r) (cr_SampleRate r) (cr_BytesWritten r) (cr_Duration r) (LastChunk r) (Buffer r) (Checkpoints r).
#[export] Instance set_cr_Channels : Setter cr_Channels := fun f r =>
  mkCont (cr_SessionID r) (cr_CallID r) (cr_StartTime r) (cr_NodeID r) (cr_State r) (cr_FilePath r) (cr_Format r) (f (cr_Channels r)) (cr_SampleRate r) (cr_BytesWritten r) (cr_Duration r) (LastChunk r) (Buffer r) (Checkpoints r).
#[export] Instance set_cr_SampleRate : Setter cr_SampleRate := fun f r =>
  mkCont (cr_SessionID r) (cr_CallID r) (cr_StartTime r) (cr_NodeID r) (cr_State r) (cr_FilePath r) (cr_Format r) (cr_Channels r) (f (cr_SampleRate r)) (cr_BytesWritten r) (cr_Duration r) (LastChunk r) (Buffer r) (Checkpoints r).
#[export] Instance set_cr_BytesWritten : Setter cr_BytesWritten := fun f r =>
  mkCont (cr_SessionID r) (cr_CallID r) (cr_StartTime r) (cr_NodeID r) (cr_State r) (cr_FilePath r) (cr_Format r) (cr_Channels r) (cr_SampleRate r) (f (cr_BytesWritten r)) (cr_Duration r) (LastChunk r) (Buffer r) (Checkpoints r).
#[export] Instance set_cr_Duration : Setter cr_Duration := fun f r =>
  mkCont (cr_SessionID r) (cr_CallID r) (cr_StartTime r) (cr_NodeID r) (cr_State r) (cr_FilePath r) (cr_Format r) (cr_Channels r) (cr_SampleRate r) (cr_BytesWritten r) (f (cr_Duration r)) (LastChunk r) (Buffer r) (Checkpoints r).
#[export] Instance set_LastChunk : Setter LastChunk := fun f r =>
  mkCont (cr_SessionID r) (cr_CallID r) (cr_StartTime r) (cr_NodeID r) (cr_State r) (cr_FilePath r) (cr_Format r) (cr_Channels r) (cr_SampleRate r) (cr_BytesWritten r) (cr_Duration r) (f (LastChunk r)) (Buffer r) (Checkpoints r).
#[export] Instance set_Buffer : Setter Buffer := fun f r =>
  mkCont (cr_SessionID r) (cr_CallID r) (cr_StartTime r) (cr_NodeID r) (cr_State r) (cr_FilePath r) (cr_Format r) (cr_Channels r) (cr_SampleRate r) (cr_BytesWritten r) (cr_Duration r) (LastChunk r) (f (Buffer r)) (Checkpoints r).
#[export] Instance set_Checkpoints : Setter Checkpoints := fun f r =>
  mkCont (cr_SessionID r) (cr_CallID r) (cr_StartTime r) (cr_NodeID r) (cr_State r) (cr_FilePath r) (cr_Format r) (cr_Channels r) (cr_SampleRate r) (cr_BytesWritten r) (cr_Duration r) (LastChunk r) (Buffer r) (f (Checkpoints r)).

Record RecordingStateData := mkStateData {
  sd_SessionID : string; sd_CallID : string; sd_StartTime : Z; sd_NodeID : string; sd_State : RecordingState; sd_FilePath : string; sd_Format : string;
  sd_SampleRate : Z; sd_Channels : Z; sd_BytesWritten : Z; sd_Duration : Z; LastUpdate : Z }.

(** What the nodes share: the keys in redis and the shared storage. *)
Record cluster := mkClusterState { states : gmap string RecordingStateData; checkpoint_keys : gmap string RecordingCheckpoint; latest : gmap string RecordingCheckpoint; shared : disk }.
#[export] Instance set_states : Setter states := fun f r =>
  mkClusterState (f (states r)) (checkpoint_keys r) (latest r) (shared r).
#[export] Instance set_checkpoint_keys : Setter checkpoint_keys := fun f r =>
  mkClusterState (states r) (f (checkpoint_keys r)) (latest r) (shared r).
#[export] Instance set_latest : Setter latest := fun f r =>
  mkClusterState (states r) (checkpoint_keys r) (f (latest r)) (shared r).
#[export] Instance set_shared : Setter shared := fun f r =>
  mkClusterState (states r) (checkpoint_keys r) (latest r) (f (shared r)).

(** [clustered] is whether the node has a redis client. *)
Record RecordingContinuityManager := mkContManager {
  config : RecordingContinuityConfig; clustered : bool; nodeID : string; activeRecordings : gmap string ContinuousRecording; local : disk; stopped : bool }.
#[export] Instance set_config : Setter config := fun f r =>
  mkContManager (f (config r)) (clustered r) (nodeID r) (activeRecordings r) (local r) (stopped r).
#[export] Instance set_clustered : Setter clustered := fun f r =>
  mkContManager (config r) (f (clustered r)) (nodeID r) (activeRecordings r) (local r) (stopped r).
#[export] Instance set_nodeID : Setter nodeID := fun f r =>
  mkContManager (config r) (clustered r) (f (nodeID r)) (activeRecordings r) (local r) (stopped r).
#[export] Instance set_activeRecordings : Setter activeRecordings := fun f r =>
  mkContManager (config r) (clustered r) (nodeID r) (f (activeRecordings r)) (local r) (stopped r).
#[export] Instance set_local : Setter local := fun f r =>
  mkContManager (config r) (clustered r) (nodeID r) (activeRecordings r) (f (local r)) (stopped r).
#[export] Instance set_stopped : Setter stopped := fun f r =>
  mkContManager (config r) (clustered r) (nodeID r) (activeRecordings r) (local r) (f (stopped r)).
Definition NewRecordingContinuityManager (id : string) (clustered : bool) (cfg : option RecordingContinuityConfig) (d : disk) : RecordingContinuityManager :=
  mkContManager (default DefaultRecordingContinuityConfig cfg) clustered id ∅ d false.

Inductive cont_error := ErrDirectory | ErrExists | ErrBuffer | ErrNoRecording | ErrNotActive | ErrNoState | ErrSegment.
#[export] Instance cont_error_dec : EqDecision cont_error.
Proof. solve_decision. Defined.

(** [made] is whether the two directories can be made. *)
Definition Start (made_local made_shared : bool) (rcm : RecordingContinuityManager) : outcome cont_error unit :=
  if negb made_local then Err ErrDirectory
  else if EnableSharedStorage (config rcm) && negb made_shared then Err ErrDirectory
  else Ok tt.

(** ** Files *)

(** os.OpenFile without truncation, os.WriteFile and filepath.Base. *)
Definition OpenFile (path : string) (d : disk) : nat * disk :=
  let h := next d in
  let i := default h (names d !! path) in
  (h, mkDisk (<[path := i]> (names d)) (<[i := default [] (inodes d !! i)]> (inodes d)) (<[h := mkFile i 0]> (open_files d)) (S h)).
Definition WriteFile (path : string) (data : list Z) (r : option io) (d : disk) : bool * disk :=
  match r with
  | None => (false, d)
  | Some r => let '(h, d) := Create path d in let '(_, ok, d) := Write h data r d in (ok, Close h d)
  end.
Definition Base (path : string) : string :=
  match path with
  | EmptyString => "."
  | _ => default "/"%string (last (filter (fun s => s <> EmptyString) (split_path path)))
  end%string.

(** Patterns of filepath.Glob on bytes, matched against whole paths. *)
Inductive glob_item := GStar | GAny | GChar (c : ascii) | GClass (negated : bool) (ranges : list (ascii * ascii)).
Definition in_range (c : ascii) (r : ascii * ascii) : bool := (N_of_ascii r.1 <=? N_of_ascii c)%N && (N_of_ascii c <=? N_of_ascii r.2)%N.
(** A character of a class, which may be escaped. *)
Definition get_esc (p : list ascii) : option (ascii * list ascii) :=
  match p with
  | [] | "-"%char :: _ | "]"%char :: _ => None
  | "\"%char :: c :: p => Some (c, p)
  | "\"%char :: [] => None
  | c :: p => Some (c, p)
  end.
(** The ranges of a class up to its end; [first] is whether none was read yet. *)
Fixpoint parse_class (fuel : nat) (first : bool) (p : list ascii) : option (list (ascii * ascii) * list ascii) :=
  match fuel with
  | O => None
  | S fuel =>
      match p with
      | "]"%char :: p => if first then None else Some ([], p)
      | _ =>
          '(lo, p) ← get_esc p;
          '(hi, p) ← match p with "-"%char :: p => get_esc p | _ => Some (lo, p) end;
          '(rs, p) ← parse_class fuel false p;
          Some ((lo, hi) :: rs, p)
      end
  end.
Fixpoint parse_glob (fuel : nat) (p : list ascii) : option (list glob_item) :=
  match fuel with
  | O => None
  | S fuel =>
      match p with
      | [] => Some []
      | "*"%char :: p => cons GStar <$> parse_glob fuel p
      | "?"%char :: p => cons GAny <$> parse_glob fuel p
      | "["%char :: p =>
          let '(neg, p) := match p with "^"%char :: p => (true, p) | _ => (false, p) end in
          '(rs, p) ← parse_class (S (length p)) true p; cons (GClass neg rs) <$> parse_glob fuel p
      | "\"%char :: c :: p => cons (GChar c) <$> parse_glob fuel p
      | "\"%char :: [] => None
      | c :: p => cons (GChar c) <$> parse_glob fuel p
      end
  end.
Definition matches_one (it : glob_item) (c : ascii) : bool :=
  match it with
  | GStar => false
  | GAny => negb (bool_decide (c = "/"%char))
  | GChar c' => bool_decide (c = c')
  | GClass neg rs => negb (bool_decide (c = "/"%char)) && xorb neg (existsb (in_range c) rs)
  end.
(** A star takes any characters but a slash. *)
Fixpoint glob_match (l : list glob_item) : list ascii -> bool :=
  match l with
  | [] => fun s => match s with [] => true | _ => false end
  | GStar :: l =>
      fix star (s : list ascii) : bool :=
        glob_match l s || match s with [] => false | c :: s => negb (bool_decide (c = "/"%char)) && star s end
  | it :: l => fun s => match s with [] => false | c :: s => matches_one it c && glob_match l s end
  end.
(** filepath.Glob of a pattern whose directory has no special characters. *)
Definition Glob (pattern : string) (d : disk) : list string :=
  let p := list_ascii_of_string pattern in
  match parse_glob (S (length p)) p with
  | None => []
  | Some items => filter (fun path => glob_match items (list_ascii_of_string path) = true) (map_to_list (names d)).*1
  end.

(** ** The ring *)

Definition bufferSize (cfg : RecordingContinuityConfig) (sampleRate channels : Z) : Z :=
  let bytesPerSecond := i64 (i64 (sampleRate * channels) * 2) in
  Z.min (MaxBufferSize cfg) (to_int64 (fmul (of_int bytesPerSecond) (Seconds (BufferDuration cfg)))).

(** [opened] is whether the file can be opened; a negative size panics. *)
Definition createBuffer (now : Z) (opened : bool) (sessionID : string) (sampleRate channels : Z) (rcm : RecordingContinuityManager)
    : outcome cont_error RecordingBuffer * RecordingContinuityManager :=
  let size := bufferSize (config rcm) sampleRate channels in
  if negb opened then (Err ErrBuffer, rcm)
  else
    let '(h, d) := OpenFile (Join [LocalBufferPath (config rcm); sessionID +:+ ".buffer"]) (local rcm) in
    let rcm := rcm <| local := d |> in
    if size <? 0 then (Panic, rcm) else (Ok (mkRing (replicate (Z.to_nat size) 0) size 0 now sampleRate channels (Some h)), rcm).

Fixpoint ring_write (bytes : list Z) (data : list Z) (pos : nat) : list Z * nat :=
  match bytes with
  | [] => (data, pos)
  | b :: bytes => ring_write bytes (<[pos := b]> data) (S pos mod length data)%nat
  end.
(** Writing to a ring without room panics. *)
Definition ring_Write (bytes : list Z) (r : io) (rb : RecordingBuffer) (d : disk) : outcome cont_error RecordingBuffer * disk :=
  if bool_decide (rb_data rb = []) && negb (bool_decide (bytes = [])) then (Panic, d)
  else
    let '(data, pos) := ring_write bytes (rb_data rb) (writePos rb) in
    let rb := rb <| rb_data := data |> <| writePos := pos |> in
    (Ok rb, match rb_file rb with Some h => (Write h bytes r d).2 | None => d end).
Definition ring_Len (rb : RecordingBuffer) : nat := writePos rb.
Definition ring_Close (rb : RecordingBuffer) (d : disk) : RecordingBuffer * disk :=
  match rb_file rb with Some h => (rb <| rb_file := None |>, Close h d) | None => (rb, d) end.

(** ** State in redis *)

Definition storeRecordingState (now : Z) (rec : ContinuousRecording) (cl : cluster) : cluster :=
  cl <| states ::= <[cr_SessionID rec := mkStateData (cr_SessionID rec) (cr_CallID rec) (cr_StartTime rec) (cr_NodeID rec) (cr_State rec) (cr_FilePath rec) (cr_Format rec)
                                          (cr_SampleRate rec) (cr_Channels rec) (cr_BytesWritten rec) (cr_Duration rec) now]> |>.
Definition getRecordingState (sessionID : string) (fails : bool) (cl : cluster) : option RecordingStateData := if fails then None else states cl !! sessionID.
Definition removeRecordingState (sessionID : string) (cl : cluster) : cluster := cl <| states ::= delete sessionID |>.
Definition storeCheckpoint (cp : RecordingCheckpoint) (cl : cluster) : cluster :=
  cl <| checkpoint_keys ::= <[cp_SessionID cp +:+ ":" +:+ cp_ID cp := cp]> |> <| latest ::= <[cp_SessionID cp := cp]> |>.
Definition getLastCheckpoint (sessionID : string) (fails : bool) (cl : cluster) : option RecordingCheckpoint := if fails then None else latest cl !! sessionID.

(** What is done only with a redis client. *)
Definition in_cluster (rcm : RecordingContinuityManager) (f : cluster -> cluster) (cl : cluster) : cluster := if clustered rcm then f cl else cl.

(** ** Operations *)

Definition StartRecording (now stored : Z) (opened : bool) (sessionID callID filePath format : string) (sampleRate channels : Z)
    (rcm : RecordingContinuityManager) (cl : cluster) : outcome cont_error unit * RecordingContinuityManager * cluster :=
  match activeRecordings rcm !! sessionID with
  | Some _ => (Err ErrExists, rcm, cl)
  | None =>
      match createBuffer now opened sessionID sampleRate channels rcm with
      | (Ok buffer, rcm) =>
          let rec := mkCont sessionID callID now (nodeID rcm) RecordingStateActive filePath format channels sampleRate 0 0 0 buffer [] in
          (Ok tt, rcm <| activeRecordings ::= <[sessionID := rec]> |>, in_cluster rcm (storeRecordingState stored rec) cl)
      | (Panic, rcm) => (Panic, rcm, cl)
      | (_, rcm) => (Err ErrBuffer, rcm, cl)
      end
  end.

Definition WriteAudio (now timestamp : Z) (r : io) (sessionID : string) (data : list Z) (rcm : RecordingContinuityManager) : outcome cont_error unit * RecordingContinuityManager :=
  match activeRecordings rcm !! sessionID with
  | None => (Err ErrNoRecording, rcm)
  | Some rec =>
      if negb (bool_decide (cr_State rec = RecordingStateActive)) then (Err ErrNotActive, rcm)
      else
        match ring_Write data r (Buffer rec) (local rcm) with
        | (Ok rb, d) =>
            (Ok tt, rcm <| local := d |>
                        <| activeRecordings ::= <[sessionID := rec <| Buffer := rb |> <| cr_BytesWritten ::= fun n => i64 (n + Z.of_nat (length data)) |>
                                                                  <| LastChunk := timestamp |> <| cr_Duration := Time_Sub now (cr_StartTime rec) |>]> |>)
        | (_, d) => (Panic, rcm <| local := d |>)
        end
  end.

(** Pausing and resuming do not look at the state there was. *)
Definition set_recording_state (st : RecordingState) (now : Z) (sessionID : string) (rcm : RecordingContinuityManager) (cl : cluster)
    : outcome cont_error unit * RecordingContinuityManager * cluster :=
  match activeRecordings rcm !! sessionID with
  | None => (Err ErrNoRecording, rcm, cl)
  | Some rec =>
      let rec := rec <| cr_State := st |> in
      (Ok tt, rcm <| activeRecordings ::= <[sessionID := rec]> |>, in_cluster rcm (storeRecordingState now rec) cl)
  end.
Definition PauseRecording := set_recording_state RecordingStatePaused.
Definition ResumeRecording := set_recording_state RecordingStateActive.

Definition cleanupBufferFiles (sessionID : string) (rcm : RecordingContinuityManager) : RecordingContinuityManager :=
  rcm <| local ::= fun d => foldl (fun d path => Remove path d) d (Glob (Join [LocalBufferPath (config rcm); sessionID +:+ "*"]) d) |>.
Definition finalizeRecording (rec : ContinuousRecording) (rcm : RecordingContinuityManager) (cl : cluster) : ContinuousRecording * RecordingContinuityManager * cluster :=
  let '(rb, d) := ring_Close (Buffer rec) (local rcm) in
  let rcm := rcm <| local := d |> in
  let cl := in_cluster rcm (removeRecordingState (cr_SessionID rec)) cl in
  (rec <| Buffer := rb |> <| cr_State := RecordingStateComplete |>, cleanupBufferFiles (cr_SessionID rec) rcm, cl).
Definition StopRecording (sessionID : string) (rcm : RecordingContinuityManager) (cl : cluster) : outcome cont_error unit * RecordingContinuityManager * cluster :=
  match activeRecordings rcm !! sessionID with
  | None => (Err ErrNoRecording, rcm, cl)
  | Some rec => let '(_, rcm, cl) := finalizeRecording rec (rcm <| activeRecordings ::= delete sessionID |>) cl in (Ok tt, rcm, cl)
  end.

(** The recordings stay in the table when the manager stops; [order] is the order it
    is walked in. Stopping again panics. *)
Definition finalize_one (acc : RecordingContinuityManager * cluster) (sessionID : string) : RecordingContinuityManager * cluster :=
  let '(rcm, cl) := acc in
  match activeRecordings rcm !! sessionID with
  | None => acc
  | Some rec => let '(rec, rcm, cl) := finalizeRecording rec rcm cl in (rcm <| activeRecordings ::= <[sessionID := rec]> |>, cl)
  end.
Definition Stop (order : list string) (rcm : RecordingContinuityManager) (cl : cluster) : outcome cont_error (RecordingContinuityManager * cluster) :=
  if stopped rcm then Panic else Ok (foldl finalize_one (rcm <| stopped := true |>, cl) order).

(** The name of the file, or nothing when it cannot be written. *)
Definition checkpoint_name (sessionID : string) (now : Z) : string := sessionID +:+ "-" +:+ string_of_list_ascii (FormatInt now) +:+ ".checkpoint".
Definition flushBufferToFile (now : Z) (r rs : option io) (rec : ContinuousRecording) (rcm : RecordingContinuityManager) (cl : cluster) : string * RecordingContinuityManager * cluster :=
  let data := take (writePos (Buffer rec)) (rb_data (Buffer rec)) in
  let filename := checkpoint_name (cr_SessionID rec) now in
  let path := Join [LocalBufferPath (config rcm); filename] in
  let '(ok, d) := WriteFile path data r (local rcm) in
  let rcm := rcm <| local := d |> in
  if negb ok then (""%string, rcm, cl)
  else (path, rcm, if EnableSharedStorage (config rcm) then cl <| shared := (WriteFile (Join [SharedStoragePath (config rcm); filename]) data rs (shared cl)).2 |> else cl).

(** The readings of the clock are for the file, the identifier and the checkpoint. *)
Definition CreateCheckpoint (t_file t_id t : Z) (r rs : option io) (sessionID : string) (rcm : RecordingContinuityManager) (cl : cluster)
    : outcome cont_error RecordingCheckpoint * RecordingContinuityManager * cluster :=
  match activeRecordings rcm !! sessionID with
  | None => (Err ErrNoRecording, rcm, cl)
  | Some rec =>
      let '(bufferFile, rcm, cl) := if (0 <? ring_Len (Buffer rec))%nat then flushBufferToFile t_file r rs rec rcm cl else (""%string, rcm, cl) in
      let cp := mkCheckpoint ("cp-" +:+ string_of_list_ascii (FormatInt t_id)) sessionID (nodeID rcm) t (cr_BytesWritten rec) (cr_Duration rec) bufferFile
                  (Z.of_nat (length (Checkpoints rec) + 1)) (cr_Format rec) (cr_SampleRate rec) (cr_Channels rec) in
      (Ok cp, rcm <| activeRecordings ::= <[sessionID := rec <| Checkpoints ::= fun l => l ++ [cp] |>]> |>, in_cluster rcm (storeCheckpoint cp) cl)
  end.
(** [todo] are the sessions with the arguments of their checkpoints. *)
Definition createAllCheckpoints (todo : list (string * (Z * Z * Z) * (option io * option io))) (rcm : RecordingContinuityManager) (cl : cluster) : RecordingContinuityManager * cluster :=
  foldl (fun '(rcm, cl) '(id, (t1, t2, t3), (r, rs)) => let '(_, rcm, cl) := CreateCheckpoint t1 t2 t3 r rs id rcm cl in (rcm, cl)) (rcm, cl) todo.

(** What can be read back: the local file, or else the shared one. *)
Definition recovered_data (cp : RecordingCheckpoint) (rcm : RecordingContinuityManager) (cl : cluster) : option (list Z) :=
  match content (local rcm) (BufferFile cp) with
  | Some data => Some data
  | None => if EnableSharedStorage (config rcm) then content (shared cl) (Join [SharedStoragePath (config rcm); Base (BufferFile cp)]) else None
  end.
Definition recoverBufferedAudio (r : io) (cp : RecordingCheckpoint) (rb : RecordingBuffer) (rcm : RecordingContinuityManager) (cl : cluster)
    : outcome cont_error RecordingBuffer * RecordingContinuityManager :=
  match recovered_data cp rcm cl with
  | None => (Ok rb, rcm)
  | Some data => let '(res, d) := ring_Write data r rb (local rcm) in (res, rcm <| local := d |>)
  end.

(** Without a redis client the call panics. *)
Definition TakeoverRecording (now stored : Z) (state_fails checkpoint_fails opened : bool) (r : io) (sessionID : string) (rcm : RecordingContinuityManager) (cl : cluster)
    : outcome cont_error unit * RecordingContinuityManager * cluster :=
  if negb (clustered rcm) then (Panic, rcm, cl)
  else
    match getRecordingState sessionID state_fails cl with
    | None => (Err ErrNoState, rcm, cl)
    | Some st =>
        let checkpoint := getLastCheckpoint sessionID checkpoint_fails cl in
        match createBuffer now opened sessionID (sd_SampleRate st) (sd_Channels st) rcm with
        | (Ok buffer, rcm) =>
            let rec := mkCont sessionID (sd_CallID st) (sd_StartTime st) (nodeID rcm) RecordingStateHandoff (sd_FilePath st) (sd_Format st) (sd_Channels st) (sd_SampleRate st)
                         (sd_BytesWritten st) (sd_Duration st) 0 buffer [] in
            let '(res, rec, rcm) :=
              match checkpoint with
              | None => (Ok buffer, rec, rcm)
              | Some cp =>
                  let rec := rec <| cr_BytesWritten := ByteOffset cp |> <| cr_Duration := cp_Duration cp |> <| Checkpoints := [cp] |> in
                  if bool_decide (BufferFile cp = ""%string) then (Ok buffer, rec, rcm)
                  else let '(res, rcm) := recoverBufferedAudio r cp buffer rcm cl in (res, rec, rcm)
              end in
            match res with
            | Ok rb =>
                let rec := rec <| Buffer := rb |> <| cr_State := RecordingStateActive |> in
                (Ok tt, rcm <| activeRecordings ::= <[sessionID := rec]> |>, storeRecordingState stored rec cl)
            | _ => (Panic, rcm, cl)
            end
        | (Panic, rcm) => (Panic, rcm, cl)
        | (_, rcm) => (Err ErrBuffer, rcm, cl)
        end
    end.

(** [old] are the files that were not changed for a day. *)
Definition cleanupOldBuffers (old : list string) (rcm : RecordingContinuityManager) : RecordingContinuityManager :=
  rcm <| local ::= fun d => foldl (fun d path => Remove path d) d old |>.

Definition GetActiveRecording (sessionID : string) (rcm : RecordingContinuityManager) : option ContinuousRecording := activeRecordings rcm !! sessionID.
Record RecordingContinuityStats := mkContStats { ActiveRecordings : Z; TotalBytesWritten : Z; TotalCheckpoints : Z }.
Definition GetStats (rcm : RecordingContinuityManager) : RecordingContinuityStats :=
  let recs := (map_to_list (activeRecordings rcm)).*2 in
  mkContStats (Z.of_nat (size (activeRecordings rcm))) (i64 (foldr (fun rec n => cr_BytesWritten rec + n) 0 recs)) (foldr (fun rec n => Z.of_nat (length (Checkpoints rec)) + n) 0 recs).

(** The segments are files of their own; [r] is how each copy ends. *)
Fixpoint copy_segments (segments : list (string * io)) (h : nat) (d : disk) : outcome cont_error unit * disk :=
  match segments with
  | [] => (Ok tt, d)
  | (segment, r) :: segments =>
      match content d segment with
      | None => (Err ErrSegment, d)
      | Some data => let '(_, ok, d) := Write h data r d in if ok then copy_segments segments h d else (Err ErrSegment, d)
      end
  end.
Definition MergeRecordings (segments : list (string * io)) (outputPath : string) (d : disk) : outcome cont_error unit * disk :=
  let '(h, d) := Create outputPath d in
  let '(res, d) := copy_segments segments h d in (res, Close h d).

(** ** Names of files *)

Definition no_slash (s : string) : Prop := "/"%char ∉ list_ascii_of_string s.
Definition plain (s : string) : Prop := no_slash s /\ s <> ""%string /\ s <> "."%string /\ s <> ".."%string.

Lemma string_assoc (a b c : string) : (a +:+ b) +:+ c = a +:+ (b +:+ c).
Proof. induction a as [|x a IH]; [done|]. change (String x ((a +:+ b) +:+ c) = String x (a +:+ (b +:+ c))). by rewrite IH. Qed.

Lemma split_path_plain s : no_slash s -> split_path s = [s].
Proof.
  unfold no_slash. induction s as [|c s IH]; intros H; [done|]. cbn in *. rewrite elem_of_cons in H. rewrite bool_decide_false by (intros ->; tauto). by rewrite IH by tauto.
Qed.
Lemma split_slash s fn : no_slash fn -> split_path (s +:+ String "/" fn) = split_path s ++ [fn].
Proof.
  intros Hf. induction s as [|c s IH]; [change (EmptyString :: split_path fn = [EmptyString; fn]); by rewrite split_path_plain|].
  change (split_path (String c (s +:+ String "/" fn)) = split_path (String c s) ++ [fn]). cbn [split_path]. rewrite IH. case_bool_decide; [done|].
  destruct (split_path s) eqn:E; [|done]. by destruct s as [|c' s]; cbn in E; [|destruct (bool_decide _), (split_path s)].
Qed.

Lemma clean_last rooted fn : plain fn -> forall l done, clean_elements rooted done (l ++ [fn]) = clean_elements rooted done l ++ [fn].
Proof.
  intros (_ & H1 & H2 & H3). induction l as [|s l IH]; intros done; cbn.
  - rewrite !bool_decide_false by done. cbn. done.
  - destruct (_ || _); [apply IH|]. case_bool_decide; [|apply IH]. destruct done as [|p ps]; [destruct rooted; apply IH|]. case_bool_decide; apply IH.
Qed.

Lemma join_last l fn : join_path (l ++ [fn]) = match l with [] => fn | _ => join_path l +:+ String "/" fn end.
Proof.
  induction l as [|x l IH]; [done|]. destruct l as [|y l]; [done|]. change (x +:+ String "/" (join_path ((y :: l) ++ [fn])) = (x +:+ String "/" (join_path (y :: l))) +:+ String "/" fn).
  rewrite IH. symmetry. change (String "/" (join_path (y :: l))) with ("/" +:+ join_path (y :: l)). by rewrite string_assoc.
Qed.

(** The last element of a path that ends with a plain name. *)
Lemma base_last path l fn : fn <> ""%string -> path <> ""%string -> split_path path = l ++ [fn] -> Base path = fn.
Proof. intros H1 Hne Hl. unfold Base. destruct path; [done|]. by rewrite Hl, filter_app, filter_cons_True, filter_nil, last_snoc by done. Qed.

Lemma base_path l fn : plain fn -> Base (join_path (l ++ [fn])) = fn /\ Base (String "/" (join_path (l ++ [fn]))) = fn.
Proof.
  intros (Hn & H1 & _). rewrite join_last. destruct l as [|x l].
  - split; [apply (base_last _ []); [done..|by apply split_path_plain]|]. apply (base_last _ [""%string]); [done..|]. apply (split_slash "" fn Hn).
  - split; (eapply base_last; [done| |]).
    + by destruct (join_path (x :: l)).
    + by apply split_slash.
    + done.
    + apply (split_slash (String "/" (join_path (x :: l))) fn Hn).
Qed.

Lemma base_clean l path fn : plain fn -> path <> ""%string -> split_path path = l ++ [fn] -> Base (Clean path) = fn.
Proof.
  intros Hp Hne Hl. unfold Clean. destruct path as [|c path]; [done|]. rewrite Hl, clean_last by done.
  set (l1 := clean_elements _ _ _). destruct (base_path l1 fn Hp) as [Hb1 Hb2]. destruct (l1 ++ [fn]) eqn:E; [by destruct l1|]. by case_bool_decide.
Qed.

Lemma base_join dir fn : plain fn -> Base (Join [dir; fn]) = fn.
Proof.
  intros Hp. pose proof Hp as (Hn & H1 & _). unfold Join. rewrite !filter_cons, filter_nil, (decide_True (P := fn <> ""%string)) by done. destruct (decide (dir <> ""%string)) as [Hd|Hd].
  - apply (base_clean (split_path dir)); [done|by destruct dir|by apply split_slash].
  - apply (base_clean []); [done..|by apply split_path_plain].
Qed.

(** ** The ring *)

(** What a ring of a size has after some audio: the bytes since it last wrapped. *)
Record holds (cap : nat) (audio : list Z) (data : list Z) (pos : nat) : Prop := {
  h_length : length data = cap;
  h_pos : pos = (length audio mod cap)%nat;
  h_tail : take pos data = drop (length audio - pos) audio }.

Lemma holds_write cap bytes : (0 < cap)%nat -> forall audio data pos, holds cap audio data pos ->
  holds cap (audio ++ bytes) (ring_write bytes data pos).1 (ring_write bytes data pos).2.
Proof.
  intros Hc. induction bytes as [|b bytes IH]; intros audio data pos H; [by rewrite app_nil_r|]. cbn [ring_write]. rewrite cons_middle, app_assoc. apply IH.
  destruct H as [H1 H2 H3]. pose proof (Nat.mod_upper_bound (length audio) cap ltac:(lia)) as Hlt. pose proof (Nat.Div0.mod_le (length audio) cap).
  assert (S pos mod cap = length (audio ++ [b]) mod cap)%nat as Hpos.
  { rewrite length_app, H2, <- Nat.add_1_r. cbn [length]. apply Nat.Div0.add_mod_idemp_l. }
  rewrite H1. constructor; [by rewrite length_insert|done|]. destruct (decide (S pos = cap)) as [->|Hne].
  - rewrite Nat.Div0.mod_same. by rewrite take_0, Nat.sub_0_r, drop_all.
  - rewrite Nat.mod_small by lia. rewrite (take_S_r _ pos b) by (apply list_lookup_insert_eq; lia). rewrite take_insert_ge by lia. rewrite H3, length_app. cbn [length].
    rewrite drop_app_le by lia. do 2 f_equal. lia.
Qed.

(** ** Writing, a checkpoint and a takeover *)

Record chunk := mkChunk { ck_now : Z; ck_timestamp : Z; ck_io : io; ck_data : list Z }.
Definition write_chunk (sessionID : string) (rcm : RecordingContinuityManager) (c : chunk) : RecordingContinuityManager :=
  (WriteAudio (ck_now c) (ck_timestamp c) (ck_io c) sessionID (ck_data c) rcm).2.
Definition audio_of (chunks : list chunk) : list Z := concat (ck_data <$> chunks).

(** What the recording of a session has after some audio. *)
Record has_audio (rcm : RecordingContinuityManager) (sessionID : string) (cap : nat) (audio : list Z) (rec : ContinuousRecording) : Prop := {
  ha_rec : activeRecordings rcm !! sessionID = Some rec;
  ha_session : cr_SessionID rec = sessionID;
  ha_state : cr_State rec = RecordingStateActive;
  ha_bytes : cr_BytesWritten rec = i64 (Z.of_nat (length audio));
  ha_ring : holds cap audio (rb_data (Buffer rec)) (writePos (Buffer rec)) }.

Lemma ring_Write_ok cap audio bytes r rb d : (0 < cap)%nat -> holds cap audio (rb_data rb) (writePos rb) ->
  exists rb' d', ring_Write bytes r rb d = (Ok rb', d') /\ holds cap (audio ++ bytes) (rb_data rb') (writePos rb').
Proof.
  intros Hc H. unfold ring_Write. rewrite bool_decide_false; [|intros E; apply h_length in H; rewrite E in H; cbn in H; lia]. cbn [andb].
  pose proof (holds_write cap bytes Hc _ _ _ H) as H'. destruct (ring_write bytes (rb_data rb) (writePos rb)) as [data pos]. by eexists _, _.
Qed.

Lemma write_has_audio rcm sid cap audio rec c : (0 < cap)%nat -> has_audio rcm sid cap audio rec ->
  exists rec', has_audio (write_chunk sid rcm c) sid cap (audio ++ ck_data c) rec' /\ cr_StartTime rec' = cr_StartTime rec /\ config (write_chunk sid rcm c) = config rcm /\
    clustered (write_chunk sid rcm c) = clustered rcm /\ nodeID (write_chunk sid rcm c) = nodeID rcm.
Proof.
  intros Hc [H1 H2 H3 H4 H5]. unfold write_chunk, WriteAudio. rewrite H1, bool_decide_true by done. cbn [negb].
  destruct (ring_Write_ok cap audio (ck_data c) (ck_io c) (Buffer rec) (local rcm) Hc H5) as (rb & d & -> & Hr). eexists. cbn.
  split; [constructor; cbn; [by rewrite lookup_insert_eq|try done..]|done]. cbn. rewrite H4, wraps_add_l, length_app by lia. f_equal. lia.
Qed.

Lemma writes_have_audio sid cap chunks : (0 < cap)%nat -> forall rcm audio rec, has_audio rcm sid cap audio rec ->
  let rcm' := foldl (write_chunk sid) rcm chunks in
  exists rec', has_audio rcm' sid cap (audio ++ audio_of chunks) rec' /\ cr_StartTime rec' = cr_StartTime rec /\ config rcm' = config rcm /\ clustered rcm' = clustered rcm /\ nodeID rcm' = nodeID rcm.
Proof.
  intros Hc. induction chunks as [|c chunks IH]; intros rcm audio rec H; cbn; [rewrite app_nil_r; by exists rec|].
  destruct (write_has_audio _ _ _ _ _ c Hc H) as (rec' & H' & E1 & E2 & E3 & E4). destruct (IH _ _ _ H') as (rec2 & H2 & F1 & F2 & F3 & F4). exists rec2. rewrite <- app_assoc in H2. split_and!; [done|congruence..].
Qed.

Lemma WriteFile_done path data d : exists d', WriteFile path data (Some Done) d = (true, d') /\ content d' path = Some data.
Proof.
  unfold WriteFile, Create, Write. cbn. rewrite lookup_insert_eq. cbn. eexists. split; [done|]. unfold content. cbn. rewrite lookup_insert_eq. cbn. rewrite lookup_insert_eq. unfold write_at. cbn.
  by rewrite lookup_insert_eq, drop_nil, app_nil_r.
Qed.

Lemma ascii_app (a b : string) : list_ascii_of_string (a +:+ b) = list_ascii_of_string a ++ list_ascii_of_string b.
Proof. induction a as [|x a IH]; [done|]. change (x :: list_ascii_of_string (a +:+ b) = x :: list_ascii_of_string a ++ list_ascii_of_string b). by rewrite IH. Qed.
Lemma long_plain s : no_slash s -> (2 < length (list_ascii_of_string s))%nat -> plain s.
Proof. intros H1 H2. split_and!; [done|intros ->; cbn in H2; lia..]. Qed.

Lemma buffer_plain sid : no_slash sid -> plain (sid +:+ ".buffer").
Proof. intros H. apply long_plain; [|rewrite ascii_app, length_app; cbn; lia]. unfold no_slash in *. rewrite ascii_app, elem_of_app. intros [?|Hin]; [done|]. revert Hin. apply (bool_decide_unpack _). exact I. Qed.
Lemma checkpoint_plain sid now : no_slash sid -> plain (checkpoint_name sid now).
Proof.
  intros H. unfold checkpoint_name. apply long_plain; [|rewrite !ascii_app, !length_app; cbn; lia]. unfold no_slash in *. rewrite !ascii_app, list_ascii_of_string_of_list_ascii, !elem_of_app.
  intros [?|[Hin|[Hin|Hin]]]; [done| |by apply FormatInt_not_elem in Hin|]; revert Hin; apply (bool_decide_unpack _); exact I.
Qed.
Lemma names_differ sid now : sid +:+ ".buffer" <> checkpoint_name sid now.
Proof. intros E. apply (f_equal list_ascii_of_string) in E. unfold checkpoint_name in E. rewrite !ascii_app in E. apply app_inv_head in E. discriminate E. Qed.

Lemma fresh_ring size : holds (Z.to_nat size) [] (replicate (Z.to_nat size) 0) 0.
Proof. constructor; cbn; [by rewrite length_replicate|by rewrite Nat.Div0.mod_0_l|done]. Qed.

Lemma start_has_audio now stored sid callID fp fmt rate ch rcm cl : activeRecordings rcm !! sid = None -> 0 < bufferSize (config rcm) rate ch ->
  exists rcm' rec, StartRecording now stored true sid callID fp fmt rate ch rcm cl = (Ok tt, rcm', in_cluster rcm (storeRecordingState stored rec) cl) /\
    has_audio rcm' sid (Z.to_nat (bufferSize (config rcm) rate ch)) [] rec /\ config rcm' = config rcm /\ clustered rcm' = clustered rcm /\ nodeID rcm' = nodeID rcm /\
    cr_StartTime rec = now /\ cr_SampleRate rec = rate /\ cr_Channels rec = ch.
Proof.
  intros Hn Hs. unfold StartRecording, createBuffer. rewrite Hn. cbn [negb OpenFile]. rewrite (proj2 (Z.ltb_ge _ _)) by lia. eexists _, _.
  split; [reflexivity|]. split_and!; try done. constructor; cbn; [by rewrite lookup_insert_eq|done..|]. apply fresh_ring.
Qed.

(** The file of a checkpoint, when there is one. *)
Definition checkpoint_path (cfg : RecordingContinuityConfig) (sid : string) (now : Z) : string := Join [LocalBufferPath cfg; checkpoint_name sid now].
Record checkpointed (cfg : RecordingContinuityConfig) (sid : string) (now : Z) (pos : nat) (saved : list Z) (rec : ContinuousRecording) (cp : RecordingCheckpoint) (cl : cluster) : Prop := {
  ck_latest : latest cl !! sid = Some cp;
  ck_offset : ByteOffset cp = cr_BytesWritten rec;
  ck_duration : cp_Duration cp = cr_Duration rec;
  ck_file : if decide (pos = 0%nat) then BufferFile cp = ""%string
            else BufferFile cp = checkpoint_path cfg sid now /\ content (shared cl) (Join [SharedStoragePath cfg; checkpoint_name sid now]) = Some saved }.

Lemma checkpoint_stores tf ti t sid cap audio rec rcm cl : has_audio rcm sid cap audio rec -> clustered rcm = true -> EnableSharedStorage (config rcm) = true ->
  exists cp rcm' cl', CreateCheckpoint tf ti t (Some Done) (Some Done) sid rcm cl = (Ok cp, rcm', cl') /\ states cl' = states cl /\
    checkpointed (config rcm) sid tf (writePos (Buffer rec)) (drop (length audio - writePos (Buffer rec)) audio) rec cp cl'.
Proof.
  intros [H1 H2 _ _ [_ _ Ht]] Hcl Hsh. unfold CreateCheckpoint, ring_Len, flushBufferToFile. rewrite H1, H2. destruct (Nat.ltb_spec 0 (writePos (Buffer rec))) as [Hp|Hp].
  - destruct (WriteFile_done (checkpoint_path (config rcm) sid tf) (take (writePos (Buffer rec)) (rb_data (Buffer rec))) (local rcm)) as (d & Ed & _). unfold checkpoint_path in Ed. rewrite Ed. cbn -[Join WriteFile checkpoint_name].
    destruct (WriteFile_done (Join [SharedStoragePath (config rcm); checkpoint_name sid tf]) (take (writePos (Buffer rec)) (rb_data (Buffer rec))) (shared cl)) as (d' & Ed' & Hc).
    rewrite Hsh, Ed'. unfold in_cluster. cbn -[Join checkpoint_name]. rewrite Hcl. eexists _, _, _. split; [reflexivity|]. split; [done|]. constructor; cbn -[Join checkpoint_name]; [by rewrite lookup_insert_eq|done..|].
    rewrite decide_False by lia. by rewrite Hc, Ht.
  - unfold in_cluster. cbn. rewrite Hcl. eexists _, _, _. split; [reflexivity|]. split; [done|]. constructor; cbn; [by rewrite lookup_insert_eq|done..|]. by rewrite decide_True by lia.
Qed.

(** What the node that takes over can read of the checkpoint. *)
Lemma recovered_file cfg sid now h d1 cp data rcm cl : no_slash sid -> names (local rcm) !! checkpoint_path cfg sid now = None -> config rcm = cfg -> EnableSharedStorage cfg = true ->
  OpenFile (Join [LocalBufferPath cfg; sid +:+ ".buffer"]) (local rcm) = (h, d1) -> BufferFile cp = checkpoint_path cfg sid now ->
  content (shared cl) (Join [SharedStoragePath cfg; checkpoint_name sid now]) = Some data -> recovered_data cp (rcm <| local := d1 |>) cl = Some data.
Proof.
  intros Hs Hn <- Hsh [= <- <-] Hf Hc. unfold recovered_data. cbn -[Join Base]. rewrite Hf. unfold checkpoint_path in *. unfold content at 1. cbn -[Join Base].
  assert (Join [LocalBufferPath (config rcm); sid +:+ ".buffer"] <> Join [LocalBufferPath (config rcm); checkpoint_name sid now]) as Hne.
  { intros E. apply (f_equal Base) in E. rewrite !base_join in E by (by apply buffer_plain || by apply checkpoint_plain). by apply names_differ in E. }
  rewrite lookup_insert_ne by done. rewrite Hn. cbn -[Join Base]. by rewrite Hsh, base_join by by apply checkpoint_plain.
Qed.

(** A takeover of a recording that was checkpointed. *)
Lemma takeover_recovers cfg sid st tf cap audio pos rec0 cp now stored r b cl : config b = cfg -> EnableSharedStorage cfg = true -> clustered b = true -> no_slash sid ->
  names (local b) !! checkpoint_path cfg sid tf = None -> states cl !! sid = Some st -> 0 < bufferSize cfg (sd_SampleRate st) (sd_Channels st) ->
  cap = Z.to_nat (bufferSize cfg (sd_SampleRate st) (sd_Channels st)) -> pos = (length audio mod cap)%nat ->
  checkpointed cfg sid tf pos (drop (length audio - pos) audio) rec0 cp cl ->
  exists b' cl' rec, TakeoverRecording now stored false false true r sid b cl = (Ok tt, b', cl') /\ activeRecordings b' !! sid = Some rec /\ cr_State rec = RecordingStateActive /\
    cr_StartTime rec = sd_StartTime st /\ cr_BytesWritten rec = cr_BytesWritten rec0 /\ (sd_NodeID <$> states cl' !! sid) = Some (nodeID b) /\
    holds cap (drop (length audio - pos) audio) (rb_data (Buffer rec)) (writePos (Buffer rec)).
Proof.
  intros Hb Hsh Hcl Hs Hn Hst Hsz -> Hpos [K1 K2 K3 K4]. set (cap := Z.to_nat _) in *. pose proof (fresh_ring (bufferSize cfg (sd_SampleRate st) (sd_Channels st))) as Hf. fold cap in Hf.
  unfold TakeoverRecording, getRecordingState, getLastCheckpoint, createBuffer. rewrite Hcl, Hst, K1, Hb. cbn [negb].
  destruct (OpenFile (Join [LocalBufferPath cfg; sid +:+ ".buffer"]) (local b)) as [h d] eqn:Eo. rewrite (proj2 (Z.ltb_ge _ _)) by lia. fold cap. destruct (decide (pos = 0%nat)) as [E|E].
  - rewrite K4, bool_decide_true by done. eexists _, _, _. split; [reflexivity|]. cbn. rewrite !lookup_insert_eq. split_and!; try done. by rewrite E, Nat.sub_0_r, drop_all.
  - destruct K4 as [K4 K5]. pose proof (recovered_file cfg sid tf h d cp _ b cl Hs Hn Hb Hsh Eo K4 K5) as Hrec.
    rewrite bool_decide_false by (rewrite K4; intros E'; apply (f_equal Base) in E'; unfold checkpoint_path in E'; rewrite base_join in E' by (by apply checkpoint_plain); by destruct (checkpoint_plain sid tf Hs) as (_ & _ & ? & _)).
    unfold recoverBufferedAudio. rewrite Hrec.
    destruct (ring_Write_ok cap [] (drop (length audio - pos) audio) r (mkRing (replicate cap 0) (bufferSize cfg (sd_SampleRate st) (sd_Channels st)) 0 now (sd_SampleRate st) (sd_Channels st) (Some h)) d) as (rb & d' & Ew & Hh); [lia|done|].
    cbn [local set_field set_local]. rewrite Ew. eexists _, _, _. split; [reflexivity|]. cbn. rewrite !lookup_insert_eq. by split_and!.
Qed.

(** A checkpoint is smaller than the ring, so it is held whole. *)
Lemma holds_whole cap saved data pos : (length saved < cap)%nat -> holds cap saved data pos -> pos = length saved /\ take pos data = saved.
Proof. intros Hl [_ H2 H3]. rewrite Nat.mod_small in H2 by lia. subst pos. split; [done|]. by rewrite H3, Nat.sub_diag. Qed.

(** C23: a takeover finds exactly the audio since the ring last wrapped. A node records
    a call in chunks and makes a checkpoint, and another node that shares the storage
    takes the recording over: it is active there, owned by it in redis, has the time
    of its start and the number of bytes of all the audio, and its ring has the audio
    the first node wrote since its ring last wrapped; all of it, if it is smaller than
    the ring. *)
Theorem takeover_exact cfg sid callID fp fmt rate ch chunks now stored tf ti t now' stored' r a b cl r1 a1 cl1 r2 a2 cl2 :
  config a = cfg -> config b = cfg -> EnableSharedStorage cfg = true -> clustered a = true -> clustered b = true -> no_slash sid ->
  activeRecordings a !! sid = None -> 0 < bufferSize cfg rate ch -> Z.of_nat (length (audio_of chunks)) < 2 ^ 63 ->
  names (local b) !! checkpoint_path cfg sid tf = None ->
  StartRecording now stored true sid callID fp fmt rate ch a cl = (r1, a1, cl1) ->
  CreateCheckpoint tf ti t (Some Done) (Some Done) sid (foldl (write_chunk sid) a1 chunks) cl1 = (r2, a2, cl2) ->
  let audio := audio_of chunks in
  let pos := (length audio mod Z.to_nat (bufferSize cfg rate ch))%nat in
  exists b' cl3 rec, TakeoverRecording now' stored' false false true r sid b cl2 = (Ok tt, b', cl3) /\
    activeRecordings b' !! sid = Some rec /\ cr_State rec = RecordingStateActive /\ cr_StartTime rec = now /\ cr_BytesWritten rec = Z.of_nat (length audio) /\
    (sd_NodeID <$> states cl3 !! sid) = Some (nodeID b) /\ writePos (Buffer rec) = pos /\ take pos (rb_data (Buffer rec)) = drop (length audio - pos) audio.
Proof.
  intros Ha Hb Hsh Hca Hcb Hs Hn Hsz HL Hnew Estart Echeck audio pos. subst cfg. set (cap := Z.to_nat _) in *. assert (0 < cap)%nat as Hc by lia.
  destruct (start_has_audio now stored sid callID fp fmt rate ch a cl Hn Hsz) as (a1' & rec0 & Est & H0 & E1 & E2 & E3 & Es & Er & Ech). fold cap in H0. rewrite Est in Estart. injection Estart as <- <- <-.
  destruct (writes_have_audio sid cap chunks Hc _ _ _ H0) as (rec1 & H1 & F1 & F2 & F3 & F4). cbn [app] in H1. fold audio in H1, HL.
  destruct (checkpoint_stores tf ti t sid cap audio rec1 _ (in_cluster a (storeRecordingState stored rec0) cl) H1) as (cp & a3 & cl2' & Ecp & Hst & K); [congruence|congruence|].
  rewrite Ecp in Echeck. injection Echeck as <- <- <-. rewrite F2, E1, (h_pos _ _ _ _ (ha_ring _ _ _ _ _ H1)) in K. fold pos in K.
  unfold in_cluster in Hst. rewrite Hca in Hst. cbn in Hst.
  destruct (takeover_recovers (config a) sid (mkStateData sid (cr_CallID rec0) (cr_StartTime rec0) (cr_NodeID rec0) (cr_State rec0) (cr_FilePath rec0) (cr_Format rec0) (cr_SampleRate rec0) (cr_Channels rec0)
    (cr_BytesWritten rec0) (cr_Duration rec0) stored) tf cap audio pos rec1 cp now' stored' r b cl2') as (b' & cl3 & rec & T1 & T2 & T3 & T4 & T5 & T6 & T7); cbn; rewrite ?Er, ?Ech; try done.
  { by rewrite Hst, (ha_session _ _ _ _ _ H0), lookup_insert_eq, Er, Ech. }
  pose proof (Nat.mod_upper_bound (length audio) cap ltac:(lia)). pose proof (Nat.Div0.mod_le (length audio) cap).
  apply holds_whole in T7 as [P1 P2]; [|rewrite length_drop; lia]. rewrite length_drop in P1. exists b', cl3, rec.
  assert (writePos (Buffer rec) = pos) as Hp by lia. split_and!; try done.
  - rewrite T4. exact Es.
  - rewrite T5, (ha_bytes _ _ _ _ _ H1). apply wraps_id; unfold is_s; lia.
  - by rewrite Hp in P2.
Qed.

(** ** What is lost *)

(** Merging copies the segments one after the other. *)
Lemma copy_done segments : forall h i done d d', open_files d !! h = Some (mkFile i (length done)) -> inodes d !! i = Some done ->
  Forall (fun p : string => names d !! p <> Some i) segments.*1 -> copy_segments segments h d = (Ok tt, d') ->
  names d' = names d /\ exists datas, mapM (content d) segments.*1 = Some datas /\ inodes d' !! i = Some (done ++ concat datas).
Proof.
  induction segments as [|[p r] segments IH]; intros h i done d d' Ho Hi Hne Hc; cbn [copy_segments] in Hc.
  - injection Hc as <-. split; [done|]. exists []. cbn. by rewrite app_nil_r.
  - destruct (content d p) as [data|] eqn:Ep; [|done]. unfold Write in Hc. rewrite Ho in Hc. cbn [f_offset f_inode] in Hc. destruct r as [|n]; [|done]. cbn [io_ok io_bytes] in Hc.
    apply Forall_cons in Hne as [Hp Hne]. rewrite Hi in Hc. cbn [from_option id] in Hc. rewrite write_at_end in Hc. set (d1 := d <| inodes ::= _ |> <| open_files ::= _ |>) in Hc.
    assert (mapM (content d1) segments.*1 = mapM (content d) segments.*1) as Hsame.
    { apply Forall_mapM_ext. eapply Forall_impl; [exact Hne|]. cbn. intros q Hq. unfold content, d1. cbn. destruct (names d !! q) as [j|]; [|done]. cbn. rewrite lookup_insert_ne; [done|congruence]. }
    apply (IH h i (done ++ data)) in Hc as (Hn & datas & Hd & Hi'); [|unfold d1; cbn; by rewrite lookup_insert_eq, length_app|unfold d1; cbn; apply lookup_insert_eq|done].
    split; [done|]. exists (data :: datas). rewrite Hsame in Hd. cbn [fmap list_fmap]. cbn. rewrite Ep. cbn. rewrite Hd. by rewrite <- app_assoc in Hi'.
Qed.

(** A merge that succeeds leaves the segments in order, in the output and nothing
    else, if the output is not one of them. *)
Theorem merge_concatenates segments out d d' : disk_ok d -> out ∉ segments.*1 -> MergeRecordings segments out d = (Ok tt, d') ->
  exists datas, mapM (content d) segments.*1 = Some datas /\ content d' out = Some (concat datas).
Proof.
  intros Hok Hout Hm. unfold MergeRecordings, Create in Hm. destruct (copy_segments segments (next d) _) as [res d1] eqn:Ec. injection Hm as -> <-. set (i := default (next d) (names d !! out)) in *.
  set (d0 := mkDisk _ _ _ _) in Ec. assert (Forall (fun p => names d !! p <> Some i) segments.*1) as Hne.
  { apply Forall_forall. intros p Hp E. apply Hout. unfold i in E. destruct (names d !! out) as [j|] eqn:Ej; cbn in E; [by rewrite (names_inj _ Hok out p j)|]. apply (names_old _ Hok) in E. lia. }
  destruct (copy_done segments (next d) i [] d0 d1) as (Hn & datas & Hd & Hi); [cbn; apply lookup_insert_eq|cbn; apply lookup_insert_eq| |exact Ec|].
  { apply Forall_forall. intros p Hp. rewrite Forall_forall in Hne. cbn. rewrite lookup_insert_ne; [by apply Hne|by intros ->]. }
  exists datas. split.
  - rewrite <- Hd. symmetry. apply Forall_mapM_ext, Forall_forall. intros p Hp. rewrite Forall_forall in Hne. unfold content, d0. cbn. rewrite lookup_insert_ne by (by intros ->).
    destruct (names d !! p) as [j|] eqn:Ej; [|done]. cbn. rewrite lookup_insert_ne; [done|]. intros <-. by apply (Hne p Hp).
  - unfold content. cbn. rewrite Hn. unfold d0. cbn. rewrite lookup_insert_eq. cbn. by rewrite Hi.
Qed.

(** *** Examples on small rings *)

Definition small_config : RecordingContinuityConfig := mkContConfig "r:" Second Second 4 "/s" true "/b" Second.
Definition empty_disk : disk := mkDisk ∅ ∅ ∅ 0.
Definition empty_cluster : cluster := mkClusterState ∅ ∅ ∅ empty_disk.
Definition node (id : string) : RecordingContinuityManager := NewRecordingContinuityManager id true (Some small_config) empty_disk.
Definition started (sid : string) (rcm : RecordingContinuityManager) : RecordingContinuityManager := (StartRecording 5 6 true sid "c" "/out.wav" "wav" 8000 1 rcm empty_cluster).1.2.
Definition chunk_of (data : list Z) : chunk := mkChunk 9 9 Done data.

(** A stopped recording leaves nothing: its output was never written, and its buffer
    is removed. *)
Example stop_discards_audio :
  let a := write_chunk "x" (started "x" (node "a")) (chunk_of [1; 2; 3]) in
  content (local a) "/b/x.buffer" = Some [1; 2; 3] /\ (map_to_list (names (local (StopRecording "x" a empty_cluster).1.2))).*1 = [].
Proof. vm_compute. done. Qed.

(** Stopping a session removes the files of every session whose name begins with its
    own, under way as they are. *)
Example stop_removes_others :
  let a := write_chunk "x1" (started "x1" (started "x" (node "a"))) (chunk_of [1; 2; 3]) in
  let a' := (StopRecording "x" a empty_cluster).1.2 in
  content (local a) "/b/x1.buffer" = Some [1; 2; 3] /\ (cr_State <$> activeRecordings a' !! "x1") = Some RecordingStateActive /\ content (local a') "/b/x1.buffer" = None.
Proof. vm_compute. done. Qed.

(** Once the ring has wrapped, the checkpoint leaves out what is still in it: of five
    bytes in a ring of four the last one is saved. *)
Example wrapped_ring_forgotten :
  let a := foldl (write_chunk "x") (started "x" (node "a")) [chunk_of [1; 2; 3]; chunk_of [4; 5]] in
  let '(_, a, cl) := CreateCheckpoint 7 7 7 (Some Done) (Some Done) "x" a empty_cluster in
  (rb_data ∘ Buffer <$> activeRecordings a !! "x") = Some [5; 2; 3; 4] /\ content (local a) "/b/x-7.checkpoint" = Some [5].
Proof. vm_compute. done. Qed.

(** The state of a recording is removed when it stops, its checkpoint is not: a later
    recording of the session that fails before its first checkpoint is continued
    with the audio of the earlier one. *)
Example stale_checkpoint_recovered :
  let '(_, a, cl) := StartRecording 5 6 true "x" "c" "/out.wav" "wav" 8000 1 (node "a") empty_cluster in
  let a := write_chunk "x" a (chunk_of [1; 2; 3]) in
  let '(_, a, cl) := CreateCheckpoint 7 7 7 (Some Done) (Some Done) "x" a cl in
  let '(_, a, cl) := StopRecording "x" a cl in
  let '(_, a, cl) := StartRecording 15 16 true "x" "c" "/out2.wav" "wav" 8000 1 a cl in
  let '(_, b, cl) := TakeoverRecording 20 21 false false true Done "x" (node "b") cl in
  (fun rec => (cr_BytesWritten rec, rb_data (Buffer rec))) <$> activeRecordings b !! "x" = Some (3, [1; 2; 3; 0]).
Proof. vm_compute. done. Qed.

(** ** Witness *)

Definition first_node : RecordingContinuityManager := foldl (write_chunk "x") (started "x" (node "a")) [chunk_of [1; 2]; chunk_of [3]].
Definition start_result : outcome cont_error unit * RecordingContinuityManager * cluster := StartRecording 5 6 true "x" "c" "/out.wav" "wav" 8000 1 (node "a") empty_cluster.
Definition checkpoint_result : outcome cont_error RecordingCheckpoint * RecordingContinuityManager * cluster :=
  CreateCheckpoint 7 7 7 (Some Done) (Some Done) "x" first_node start_result.2.
Lemma pairs_eta {A B C} (p : A * B * C) : p = (p.1.1, p.1.2, p.2).
Proof. by destruct p as [[a b] c]. Qed.

Lemma takeover_exact_witness :
  exists b' cl3 rec, TakeoverRecording 20 21 false false true Done "x" (node "b") checkpoint_result.2 = (Ok tt, b', cl3) /\
    activeRecordings b' !! "x" = Some rec /\ take 3 (rb_data (Buffer rec)) = [1; 2; 3].
Proof.
  destruct (takeover_exact small_config "x" "c" "/out.wav" "wav" 8000 1 [chunk_of [1; 2]; chunk_of [3]] 5 6 7 7 7 20 21 Done (node "a") (node "b") empty_cluster
    start_result.1.1 start_result.1.2 start_result.2 checkpoint_result.1.1 checkpoint_result.1.2 checkpoint_result.2) as (b' & cl3 & rec & H1 & H2 & _ & _ & _ & _ & _ & H7).
  1-5: reflexivity.
  1: apply (bool_decide_unpack _); vm_compute; exact I.
  1: reflexivity.
  1-2: vm_compute; reflexivity.
  1: reflexivity.
  1-2: apply pairs_eta.
  exists b', cl3, rec. split; [exact H1|]. split; [exact H2|].
  assert (Nat.modulo (length (audio_of [chunk_of [1; 2]; chunk_of [3]])) (Z.to_nat (bufferSize small_config 8000 1)) = 3%nat) as E by (vm_compute; reflexivity).
  rewrite E in H7. exact H7.
Defined.
